(* ===== verification/_CoqProject ===== *)
-Q . S2P
Prelude.v
PyDict.v
PyText.v
IpAddr.v
Sha256.v
Config.v
Budget.v
Json.v
Cost.v
Queue.v
Scheduler.v
SchedSteps.v
SchedProps.v
SchedDemo.v
Spend.v
Policy.v
Failover.v
Goodput.v
Timeout.v
Cache.v
ThinkSwitch.v
ThinkBleed.v
ThinkStats.v
Acl.v
Identity.v
IdentityProps.v
JsonRead.v
JsonRound.v
ToolStream.v
ToolStreamProps.v
Degen.v
DegenProps.v
Intent.v
IntentProps.v
Replay.v
ReplayProps.v
NoStore.v
Wal.v
WalProps.v
OnDemand.v
OnDemandProps.v
Residency.v
Keepalive.v
KeepaliveProps.v
Grammar.v
GrammarProps.v
Effort.v
EffortProps.v
Forced.v
ForcedProps.v
Correct.v
CorrectProps.v
Payload.v
Provider.v
ProviderProps.v
Catalog.v
Metrics.v
Backend.v
BackendProps.v
Watched.v
WatchedProps.v
Probes.v
AnswerDemo.v
Completion.v
Sync.v
SyncProps.v
Deadline.v
Relay.v
RelayProps.v
Submit.v
SubmitProps.v
Breaker.v
BreakerProps.v
Poller.v
PollerProps.v
Streaming.v
StreamingProps.v
StreamClock.v
StreamDoor.v
FleetDemo.v
