(* ===== verification/Prelude.v ===== *)
(** * Roadstead: a verification development

    Roadstead (src/roadstead/) is a proxy in front of a fleet of language-model
    backends.  Callers ("agents") submit requests; the proxy identifies them,
    queues what they ask per endpoint, priority band and caller, decides fairly
    who goes next, sends what fits on local slots, spills or fails over where
    the operator allowed it, repairs what the backends answer, keeps spend, rate
    and completion records, detects sick backends and recommends deadlines.
    This development models the parts that take those decisions and proves what
    makes them correct.

    ** Parts, files and sources

    Shared:
    - [Prelude]: Python exceptions and the state-and-exception monad [SE]
      (a raising call keeps the mutations it made), Hoare triples, rational
      arithmetic, [round], sorting; hint databases [roadstead] and [qbounds].
    - [PyDict]: insertion-ordered dictionaries and deques.
    - [PyText]: the string methods used, on byte characters with ASCII
      case; searching, splitting, stripping.
    - [Json]: payload values, their truth value, numeric reading, [str] and
      [json.dumps]; [JsonRead] the decoder; [JsonRound] what is written reads
      back.
    - [IpAddr] the [ipaddress] networks and addresses; [Sha256] the digest.

    Scheduling:
    - [Config] (config.py): priorities and their soft parsing, bands,
      [EndpointConfig] with its slot arithmetic, caller records and the
      inserting lookup [agent_config].
    - [Budget] (agent_budget.py): [AgentBudget] and [BudgetManager], every
      operation, with the deficit-round-robin picker.
    - [Cost] (cost_model.py): EWMA trackers, the per-endpoint slot-second
      model and its calibration, the token estimator and the context gate.
    - [Queue] (scheduler.py): [QueuedRequest], its constructor, and
      [EndpointQueue].
    - [Scheduler] (scheduler.py): [Scheduler]'s state and operations:
      [enqueue], [tick], [complete], [cancel], the views, and the dispatch
      loop with [_available_for_band], [_spill_target], [_admit], [_spill].
    - [SchedSteps]: the invariant [sched_ok], the case analysis of one pass of
      the dispatch loop, and the step relation [sstep] a tick runs.
    - [SchedProps]: the abstract machine and the scheduler's theorems.
    - [SchedDemo]: a small fleet on which the scheduler's theorems are applied.

    Accounts and health:
    - [Spend] (usage_rates.py, spend.py): rate tables, prices, the price book,
      the ledger and the spend standing.
    - [Policy] (rate.py, state.py): the request-rate window, the rate standing,
      and the demotion policy over the two standings; the class [Standing] is
      what a standing promises the policy.
    - [Failover] (failover.py, health.py): the health verdict, usable pairs,
      the degraded-mode machine, the reroute plan.
    - [Goodput] (goodput.py, health.py): the collapse detector, its latch and
      the poller handler [sample_goodput].
    - [Timeout] (timeout_model.py, state.py): latency cells, the memoised
      fallback ladder, the monotonicity guard, floors, ceilings and the uplift.
    - [Cache] (coalesce.py): the deterministic response cache.
    - [OnDemand] (on_demand.py): the lease manager as a transition system over
      its suspension points ([step]); [OnDemandProps] its invariant.
      [Residency] (residency.py): the reading of what is meant to be loaded.
    - [Keepalive] (prefix_keepalive.py, health.py): prefix skeletons, the
      tracker and the touches; [KeepaliveProps].
    - [Wal] (queue.py): the tables, the statements, the writer thread's queue
      and the restart recovery; [WalProps].
    - [NoStore] (no_store.py): the opt-out of storage and the summary kept in
      place of content; [Wal.persist_complete] uses it.

    Outages and the poller (health.py):
    - [Breaker] (with http_handlers.py, failover.py): the circuit that follows the
      probes ([update_endpoint_health]), the cooldown that follows the dispatches
      ([record_dispatch_failure]), the operator's drain ([pause], [resume]), the
      release of a queue ([fast_fail_interactive]), what is said of an endpoint
      ([endpoint_status]) and what is made of its discovered capacity;
      [BreakerProps].
    - [Poller]: one pass over an endpoint ([poll_endpoint_once]), the canary of its
      thinking switch, and an iteration over the fleet with the chores of the proxy
      ([poller_iteration]); [PollerProps].  [FleetDemo] runs an outage, a circuit,
      a cooldown, a discovery and an iteration.

    Who is asking, and for what:
    - [Acl] (acl.py): the identity grammar and the address registrations.
    - [Identity] (identity.py): keys, placeholders, trusted proxies, the
      resolver, delegation and the admin gates; [IdentityProps].
    - [Intent] (intent.py): parsing of an intent and its resolution;
      [IntentProps].

    What is sent and what comes back:
    - [ThinkSwitch], [ThinkBleed], [ThinkStats] (think_bleed.py): the thinking
      switch, the repair of traces left in answers and in streams, the counters.
    - [ToolStream] (correction.py): streamed tool calls; [ToolStreamProps].
    - [Degen] (correction.py): the degeneration detectors; [DegenProps].
    - [Replay] (reasoning_replay.py, correction.py): reasoning put back into
      replayed history; [ReplayProps].
    - [Grammar] (grammar.py): the grammar authority and the recovery of
      objects; [GrammarProps].
    - [Effort], [Forced] (correction.py, lifecycle.py): the corrections of a
      request before it is queued, that is the reasoning controls, the bare
      json_object guard and the schema carried by a forced tool call, composed
      in the order of the submit path by [shape_request], with the readers of
      requests and answers; [EffortProps], [ForcedProps].
    - [Correct] (correction.py, observability.py): the guards over a finished
      answer, composed by [apply], with their re-dispatches, and the end of a
      stream; [CorrectProps].  [AnswerDemo] runs both sides on one model.

    From arrival to end (lifecycle.py):
    - [Submit]: [handle_submit], as the chain of its gates in the order of the
      source ([before_load] up to the on-demand load, [after_load] from it), and
      what the two ends of an accepted request do, that is the queueing
      ([enqueued]), the client's timeout ([on_client_timeout]) and the kept answer
      ([keep_answer]); [SubmitProps].  [FleetDemo] runs submissions.
    - [Sync]: [execute_dispatch] and [execute_sync], its attempts, retries,
      salvage and refusals; [SyncProps].
    - [Completion]: [record_completion] and [resolve_error], where every request
      ends, on the shared state [Proxy] (state.py).
    - [Deadline]: default deadlines, their extension, the timeout records;
      [FleetDemo] runs dispatches on concrete answers.
    - [Relay]: the helpers of the streaming path, that is the split of a chunk
      and the second call after a reasoning loop; [RelayProps].
    - [Streaming]: the dispatch of a stream ([dispatch_stream]), that is
      [execute_streaming] from the admission to the last frame, with the relay of
      what arrives ([relay_loop]), the timer, the progress probe
      ([_stream_progress_probe]), the detectors, the rescue, the judgements of the
      end and the aborts; [StreamingProps].  [StreamClock]: the timer over time.
    - [StreamDoor]: the caller's end ([handle_streaming_submit] and its generator),
      on the three wires, and the caller that goes away ([abandoned_stream]).
      [FleetDemo] runs a stream.

    The fleet as configured:
    - [Catalog] (model_catalog.py): from the parsed catalogue file to its entries,
      the names that resolve to them, the intent profiles and the notices
      ([parse]), the overlay of the management plane and what is served
      ([load_catalog], [set_runtime_overlay]), the arguments of each endpoint's
      configuration ([build_endpoint_kwargs]) and the tables by class.

    The last hop:
    - [Payload] (providers/payload.py): the shared rewrites of a payload, that
      is image blocks, strict turn alternation, the proxy's own fields, the cap
      on reasoning and its sampling.
    - [Provider] (providers/): the three engines, what each is sent and the
      short cuts it takes, routes, headers, capacity and prices;
      [ProviderProps].
    - [Backend] (backend.py): a plain call and a stream, from the payload to a
      response or a typed failure; [BackendProps].  [Watched]: the call that
      streams so as to be stopped; [WatchedProps].  [Probes]: the probes, the
      discovery of capacity and the client pool.  [Metrics]: the
      scrapes of a metrics page.  [AnswerDemo] runs calls on concrete answers.

    The scheduler calls [Budget], [Cost], [Config] and [Queue] as the code
    does, on one state record; health and spending are the two hooks the
    service installs, and the three notifications it receives are an event
    log.  [Failover] reads the scheduler's [degraded_inflight] and the set of
    collapsed endpoints that [Goodput] maintains; [Timeout] reads the
    scheduler's [endpoint_snapshot]; [Identity] asks [Acl] about an address;
    [Wal] stores the scheduler's requests as [Json] and reads them back with
    [JsonRead]; [Backend] prepares payloads with [Provider] and [ThinkSwitch],
    repairs what comes back with [ThinkBleed], and [Watched] feeds [Degen]'s
    blank-run detector.  [Submit] calls [Identity], [Policy], [Timeout], [Cache],
    [OnDemand], [Failover], [Replay] and [Forced] in turn and ends in
    [Scheduler.enqueue]; what a tick of the [Scheduler] dispatches goes to [Sync],
    whose replies are what [Backend] and [Watched] return, whose answers [Correct]
    judges, and whose end is [Completion], or, for a stream, to [Streaming], which
    relays the events of [Backend]'s stream under the detectors of [Degen], splits and
    rescues with [Relay], judges with [Correct] and ends in [Completion] as well; the
    frames it puts into the caller's queue are what [StreamDoor] sends, through the
    sanitizer of [ToolStream].  [Poller] reads the fleet with [Probes] and
    [Provider] and hands what it finds to [Breaker], [Goodput] and [Keepalive];
    [Breaker] gives [Failover] the verdict it routes on and empties the queues of the
    [Scheduler] through it.  [Catalog] builds the role table that
    [Config.normalize_endpoint] reads and the profiles that [Intent] offers, and asks
    [Provider] and [Forced] about an endpoint's engine.  Definitions carry the source's names, a leading underscore
    dropped or a short prefix added where two classes share a name.

    ** What the theorems show

    - Scheduler: a tick refines an abstract machine in which a waiting request
      times out, starts below its endpoint's slot limit, moves by a permitted
      spill, or waits; slot limits, the background cap and the background
      reservation hold; passes are work conserving; callers' lines are first
      in, first out; a tick does not raise while payloads can be costed;
      [complete], [cancel] and [enqueue] change exactly what they should, on
      every outcome; queues stay well formed over every interleaving of
      operations; a request is spilled at most once.
    - Budgets: the weight-normalised balances of backlogged callers stay within
      one charge of each other; the picker is the arg-max, or the longest
      waiter when someone starves; charge and adjustment net the actual cost;
      rates split the capacity.
    - Cost: averages stay in the hull of their samples, estimates exist and are
      not negative in every reachable model, and exactly which payloads make
      the estimators raise.
    - Money and rate: the ledger is the charge history; demotion is one step
      whatever is crossed; notices are once a day; the observed rate is the
      count of the last minute.
    - Failover: the exact transitions of degraded mode, its minimum dwell, and
      the exact gates of a reroute.
    - Goodput: the verdict decides the published rule (blindness never reads as
      collapse), a trip needs a sustained collapse, no hold outlasts its
      maximum.
    - Timeout: the memo table is transparent, advice is monotone in what is
      asked, and the deadline handed out lies between floors and ceiling.
    - Cache: a hit is the latest unexpired response, and recent entries are
      retained.
    - On-demand loading: in every interleaving one load at a time, no idle
      release under a running request as long as no request that was never
      counted completes (one recovered from the restart log is such a request,
      and the example after the theorem shows the release it causes), no lease
      pinned by a lost completion, and every sweep of the loop ends; an eviction is believed only on the
      dispatcher's fresh word.
    - Keep-alive: a touch renders the prefix it keeps warm, the countdown is the
      others' uncached tokens, prefixes are bounded, one touch per endpoint.
    - Persistence: the writer applies what was accepted, in order; the restart
      log is always read back, nothing expired comes out of it, and a queued
      request survives a restart with the wait it had left; a retention sweep
      keeps the lifetime tokens; no content of a no-store request is stored.
    - Identity: a presented key decides, an address confers no scope, forged
      hops of the forwarding header change nothing, the admin plane needs an
      admin key, revocation and enrolment do what they say.
    - Intent: the ranking's head is picked, real cost only as overflow, the
      order of the snapshot does not matter, every candidate is answered.
    - Repairs: stream repair equals the batch split for any chunking of an
      answer's text, up to its finish or its first tool call, and holds a
      bounded text; streamed tool calls come out once, whole; the loop
      detector sees what it would see on the whole text; remembered reasoning
      returns to the turn it came from; a recovered object conforms to its
      grammar, and only closed grammars are dispatched.
    - Correction: the caller's switch and effort reach the backend whatever the
      endpoint's defaults; nothing of a request but its reasoning controls,
      cap, format and tools is rewritten, and what was asked is still what the
      answer is judged by; a schema carried by a forced call comes back as the
      caller's content; a success that implied JSON parses while the guard is
      on, blank text and unreadable usage apart, a failure carries no body, a
      cut call is failed rather than repaired, a good answer is not
      touched, and re-dispatches are at most three and give back their slots.
    - A request from arrival to end: what is accepted runs as an agent its
      credential may be, at the band of its priority, on a deadline not shorter
      than the one asked for, and leaves nothing where that was promised; a
      refusal after the load gives the on-demand hold back; whatever the backend
      does, a dispatched request ends once, that is one answer, one freed slot,
      one charge, one row; its attempts are bounded; none is made past its
      deadline; what is served was neither cut nor empty; an extension only grants
      time, and not to the dispatch; the call that rescues a reasoning loop is
      within its budget and has thinking off.
    - Streams: however chunks, timer, probe and faults interleave, a dispatched
      stream ends once, and its caller reads the admission, chunks and one last
      frame; one that ends clean relayed what the backend sent, in order, and
      passed the judgements whose switches are on; no stream outlives its hard
      limit or is silent for more than four gaps past the one allowed, and none is
      timed out early; a caller that goes away leaves no slot behind; and what the
      OpenAI door writes is read back, line by line, as those chunks and one end.
    - Outages: when an endpoint goes down every interactive or foreground request
      that waits for it is moved to its stand-in or answered, once, and no other is
      touched; a circuit opens only after as many silences in a row as configured
      and closes at the first sign of life; only faults of the backend cool an
      endpoint, and as many within the window as configured always do; a discovered
      capacity reaches the configuration, the cost model and the budgets alike; an
      iteration of the poller always ends and reaches every endpoint, whatever the
      passes before it met.
    - The catalogue: the table of names the scheduler reads is the one the catalogue
      reads, wherever no claim is contested (the scheduler's reader lower-cases the
      name first); every key of a policy is passed, read or reported, and what a key
      that is read gives is exact; a target is armed only at an endpoint that is
      configured; a profile that is offered can be asked for; the overlay changes what
      it names and nothing else; and what is served is the file, as it was when its
      catalogue was last made, under the overlay in force.
    - The last hop: every short cut of a provider is the long way round; a
      grammar reaches an engine that enforces it or the request is refused; no
      field of the proxy's own and no switch an endpoint does not have is sent;
      a cap on reasoning leaves room for the answer; strict templates get the
      turns they accept; no answer without content passes, and one refused as
      empty is tried again; a stream is relayed as it came, under its cap; a
      watched call stops exactly at a run of blanks and otherwise answers as a
      plain call would; the client pool loses no client; a counter is the sum of
      its well-formed samples or unknown.

    Conditions the code does not enforce are stated in the theorems that need
    them and named in their comments.  The ones that recur: live requests have
    distinct identifiers (a caller chooses its own, [SchedDemo] shows what a
    repeated one does), payloads can be costed ([payload_ok]), and a request can
    be recorded ([recordable]: the summary kept in place of a withheld body
    answers, and the size of its input is known).  [SchedDemo], [NoStore] and
    [AnswerDemo] run the cases beyond them.

    ** Idealisations, bounds and fuel

    Floats are exact rationals: rounding error, NaN and infinities are outside
    the model ([round(x, n)] itself is modelled, half to even on the exact
    value).  The square root behind a standard deviation has 52 fractional
    bits.  Python integers are unbounded and are [Z].  Clocks are arguments.
    Text is Latin-1 (one byte a character), except in [Degen], whose text is
    code points; JSON escapes beyond Latin-1 are outside.  The text of a float
    is kept beside its value, and its [repr] is a parameter of the decoder.
    Prose of error messages and log lines is left out where nothing reads it.
    SQLite is the meaning [Wal.exec] gives to the statements.

    Fuel: the dispatch loop's is the source's own [max_attempts], and the
    work-conservation theorem shows that the bound never leaves a usable slot
    free beside a waiting request; the JSON decoder's is twice the text's length
    plus two ([raw_decode_fuel]: more changes nothing); the grammar tokenizer's
    is the text's length ([tokenizer_terminates]); the retry loop's is the
    maximum of transient retries plus two ([attempts_bounded]: it never runs out,
    and more changes nothing).  All other recursion is structural.

    Parameters: the role table outside [Catalog], which builds it; in [Catalog] the
    files as the YAML reader makes them; the profile table and alias map of an intent, [repr] of a float, a touch's nonce, the
    dispatcher's answers, in [Timeout] the logarithm with the size-unit ratio,
    and in [Correct] the backend of a re-dispatch, the clock by reading, and the
    libraries json_repair and jsonschema; a library that is not installed is a
    parameter that never answers.  In [Backend], [Watched] and [Probes] the
    answers of the transport; in [Sync] what an attempt meets (clock readings,
    the health verdict, the reply as a function of what was sent and the time
    allowed), the printed evidence of a stopped answer and the slot hash; in
    [Streaming] the arrivals of a stream with their times and what the second call
    brings; in [StreamDoor] the two blocks of the enriched envelope; in
    [Submit] the environment switches, the latency percentiles, the digest and
    what happened while the on-demand load was awaited; in [Poller] what the backends
    answer in a pass and the settings of the chores.  A handler of [Breaker] and
    [Poller] that does not wait reads one time, and a count a backend publishes that
    is no integer raises.  The queue of 256 frames between [Streaming] and
    [StreamDoor] never fills, so a put never waits, and [StreamDoor] has no clock:
    it is given the frames that came in time, each within the generator's own wait,
    and after the last of them the wait expires.

    ** Not modelled

    The HTTP handlers, routes and management API, and of the enriched envelope its
    blocks (attribution, timing and cost of a call);
    the reading of YAML and the configuration and key files; the
    rewriting of requests between the wire surfaces; the records, metrics, logs
    and display snapshots; reporting queries and migrations of queue.py; the
    client library and the test doubles; of health.py the evaluation of alerts, the
    cache statistics and the frames for watchers, which only report; the
    shadow call of a class.  Worth adding next: the enriched and management surfaces
    over the modelled state. *)

From Stdlib Require Import QArith Qround Qminmax Lqa Lia Permutation.
From stdpp Require Import base list strings sorting.

(** ** Hint databases *)

Create HintDb roadstead discriminated.
Create HintDb qbounds discriminated.
Create Rewrite HintDb roadstead.

(** ** Python exceptions and the state-and-exception monad

    A Python function that raises leaves behind every mutation it made before
    the raise, so the monad keeps the state on both outcomes. *)

Inductive PyErr :=
| TypeError
| ValueError
| IndexError
| KeyError
| AttributeError.

#[global] Instance PyErr_eq_dec : EqDecision PyErr.
Proof. solve_decision. Defined.

Inductive res (A : Type) :=
| Ret (a : A)
| Raise (e : PyErr).
Arguments Ret {A} a.
Arguments Raise {A} e.

#[global] Instance res_ret : MRet res := fun A a => Ret a.
#[global] Instance res_bind : MBind res := fun A B f m =>
  match m with
  | Ret a => f a
  | Raise e => Raise e
  end.

Definition SE (S A : Type) : Type := S -> res A * S.

#[global] Instance se_ret S : MRet (SE S) := fun A a s => (Ret a, s).
#[global] Instance se_bind S : MBind (SE S) := fun A B f m s =>
  match m s with
  | (Ret a, s') => f a s'
  | (Raise e, s') => (Raise e, s')
  end.

Definition se_get {S} : SE S S := fun s => (Ret s, s).
Definition se_modify {S} (f : S -> S) : SE S unit := fun s => (Ret tt, f s).
Definition se_lift {S A} (r : res A) : SE S A := fun s => (r, s).
Arguments se_get {S} _ /.
Arguments se_modify {S} _ _ /.
Arguments se_lift {S A} _ _ /.

(** One step of a monadic computation that returned. *)
Lemma se_bind_Ret {S A B} (m : SE S A) (f : A -> SE S B) s b s' :
  (m ≫= f) s = (Ret b, s') -> exists a s1, m s = (Ret a, s1) /\ f a s1 = (Ret b, s').
Proof.
  unfold mbind, se_bind. destruct (m s) as [[a|e] s1] eqn:E; intros H.
  - eauto.
  - discriminate.
Qed.

(** Running a computation one step at a time. *)
Lemma run_modify {S B} g (f : unit -> SE S B) s : (se_modify g ≫= f) s = f tt (g s).
Proof. done. Qed.
Lemma run_get {S B} (f : S -> SE S B) s : (se_get ≫= f) s = f s s.
Proof. done. Qed.
Lemma run_lift {S A B} (r : res A) (f : A -> SE S B) s :
  (se_lift r ≫= f) s = match r with
                       | Ret a => f a s
                       | Raise e => (Raise e, s)
                       end.
Proof. by destruct r. Qed.
Lemma run_ret {S A B} (a : A) (f : A -> SE S B) s : (mret a ≫= f) s = f a s.
Proof. done. Qed.
Lemma run_bind {S A B} (m : SE S A) (f : A -> SE S B) s :
  (m ≫= f) s = match m s with
               | (Ret a, s') => f a s'
               | (Raise e, s') => (Raise e, s')
               end.
Proof. done. Qed.
Lemma run_assoc {S A B C} (m : SE S A) (f : A -> SE S B) (g : B -> SE S C) s :
  ((m ≫= f) ≫= g) s = (m ≫= (fun a => f a ≫= g)) s.
Proof. unfold mbind, se_bind. by destruct (m s) as [[]]. Qed.

(** Closes a decidable goal by evaluation. *)
Ltac by_decide := apply (bool_decide_unpack _); by vm_compute.

Ltac se_run := repeat (rewrite ?run_modify, ?run_get, ?run_lift, ?run_ret; cbv beta).

Lemma res_bind_Ret {A B} (m : res A) (f : A -> res B) b :
  (m ≫= f) = Ret b -> exists a, m = Ret a /\ f a = Ret b.
Proof. destruct m; simpl; [eauto|discriminate]. Qed.

(** *** Hoare triples

    [triple P m Q E]: started in a state satisfying [P], [m] either returns a
    value [a] in a state satisfying [Q a] or raises in a state satisfying
    [E]. *)

Definition triple {S A} (P : S -> Prop) (m : SE S A) (Q : A -> S -> Prop) (E : PyErr -> S -> Prop) : Prop :=
  forall s, P s -> match m s with
                   | (Ret a, s') => Q a s'
                   | (Raise e, s') => E e s'
                   end.

Lemma triple_ret {S A} (P : S -> Prop) (a : A) Q E :
  (forall s, P s -> Q a s) -> triple P (mret a) Q E.
Proof. intros H s Hs. by apply H. Qed.

Lemma triple_bind {S A B} P (m : SE S A) R (f : A -> SE S B) Q E :
  triple P m R E -> (forall a, triple (R a) (f a) Q E) -> triple P (m ≫= f) Q E.
Proof.
  intros Hm Hf s Hs. specialize (Hm s Hs). unfold mbind, se_bind.
  destruct (m s) as [[a|e] s']; [|done]. by apply Hf.
Qed.

Lemma triple_get {S B} P (f : S -> SE S B) Q E :
  (forall s, P s -> triple (fun s' => s' = s) (f s) Q E) -> triple P (se_get ≫= f) Q E.
Proof. intros H s Hs. by apply (H s Hs s). Qed.

Lemma triple_modify {S B} P g (f : unit -> SE S B) Q E :
  (forall s, P s -> triple (fun s' => s' = g s) (f tt) Q E) -> triple P (se_modify g ≫= f) Q E.
Proof. intros H s Hs. by apply (H s Hs (g s)). Qed.

Lemma triple_conseq {S A} (P P' : S -> Prop) (m : SE S A) (Q Q' : A -> S -> Prop) E :
  triple P' m Q' E -> (forall s, P s -> P' s) -> (forall a s, Q' a s -> Q a s) -> triple P m Q E.
Proof.
  intros H HP HQ s Hs. specialize (H s (HP s Hs)). destruct (m s) as [[a|e] s']; auto.
Qed.

(** A monadic left fold: a [for] loop with an accumulator. *)
Fixpoint se_fold {S A B} (f : A -> B -> SE S A) (acc : A) (l : list B) : SE S A :=
  match l with
  | [] => mret acc
  | x :: l' => acc' ← f acc x; se_fold f acc' l'
  end.

Lemma se_fold_rule {S A B} (f : A -> B -> SE S A) (I : A -> S -> Prop) E l acc :
  (forall x a, x ∈ l -> triple (I a) (f a x) I E) -> triple (I acc) (se_fold f acc l) I E.
Proof.
  revert acc. induction l as [|x l IH]; intros acc H; cbn [se_fold]; [by apply triple_ret|].
  eapply triple_bind; [apply H; by left|]. intros a. apply IH. intros y a' Hy. apply H. by right.
Qed.

(** *** What a computation leaves alone

    [leaves part m]: whatever becomes of [m], the [part] of the state is as it was. *)

Definition leaves {S P A} (part : S -> P) (m : SE S A) : Prop := forall s, part (m s).2 = part s.

Section Leaves.
Context {S P : Type} (part : S -> P).

Lemma leaves_ret {A} (a : A) : leaves part (mret a).
Proof. by intros s. Qed.
Lemma leaves_lift {A} (r : res A) : leaves part (se_lift r).
Proof. by intros s. Qed.
Lemma leaves_modify f : (forall s, part (f s) = part s) -> leaves part (se_modify f).
Proof. intros H s. apply H. Qed.
Lemma leaves_bind {A B} (m : SE S A) (f : A -> SE S B) : leaves part m -> (forall a, leaves part (f a)) -> leaves part (m ≫= f).
Proof. intros M F s. rewrite run_bind. specialize (M s). destruct (m s) as [[a|e] s1]; [|exact M]. by rewrite F. Qed.
Lemma leaves_get {B} (f : S -> SE S B) : (forall s, leaves part (f s)) -> leaves part (se_get ≫= f).
Proof. intros F s. rewrite run_get. apply F. Qed.
Lemma leaves_if {A} (b : bool) (m n : SE S A) : leaves part m -> leaves part n -> leaves part (if b then m else n).
Proof. by destruct b. Qed.
Lemma leaves_fold {A B} (f : A -> B -> SE S A) l acc : (forall a x, x ∈ l -> leaves part (f a x)) -> leaves part (se_fold f acc l).
Proof.
  revert acc. induction l as [|x l IH]; intros acc F; [apply leaves_ret|]. cbn [se_fold]. apply leaves_bind; [apply F; by left|].
  intros a. apply IH. intros a' y H. apply F. by right.
Qed.
End Leaves.

#[export] Hint Resolve leaves_ret leaves_lift leaves_bind leaves_get leaves_if : roadstead.

(** ** Rational numbers standing for Python floats *)

Definition Qltb (a b : Q) : bool := negb (Qle_bool b a).

Lemma Qltb_spec (a b : Q) : BoolSpec (a < b)%Q (b <= a)%Q (Qltb a b).
Proof.
  unfold Qltb. destruct (Qle_bool b a) eqn:E; constructor.
  - by apply Qle_bool_iff.
  - apply Qnot_le_lt. intros H. apply Qle_bool_iff in H. congruence.
Qed.

Lemma Qleb_spec (a b : Q) : BoolSpec (a <= b)%Q (b < a)%Q (Qle_bool a b).
Proof.
  destruct (Qle_bool a b) eqn:E; constructor.
  - by apply Qle_bool_iff.
  - apply Qnot_le_lt. intros H. apply Qle_bool_iff in H. congruence.
Qed.

Lemma Qeqb_spec (a b : Q) : BoolSpec (a == b)%Q (~ a == b)%Q (Qeq_bool a b).
Proof.
  destruct (Qeq_bool a b) eqn:E; constructor.
  - by apply Qeq_bool_iff.
  - intros H. apply Qeq_bool_iff in H. congruence.
Qed.

#[global] Instance Qltb_proper : Proper (Qeq ==> Qeq ==> eq) Qltb.
Proof.
  intros a a' Ha b b' Hb. destruct (Qltb_spec a b), (Qltb_spec a' b'); try done; rewrite Ha, Hb in *; lra.
Qed.

(** Case analysis on every rational comparison of the goal. *)
Ltac qcases :=
  repeat match goal with
  | |- context [Qltb ?a ?b] => destruct (Qltb_spec a b)
  | |- context [Qle_bool ?a ?b] => destruct (Qleb_spec a b)
  | |- context [Qeq_bool ?a ?b] => destruct (Qeqb_spec a b)
  end.

Ltac qcases_in H := revert H; qcases; intros H.

(** Python's two-argument [min] and [max]: the first argument wins a tie. *)
Definition pymin (a b : Q) : Q := if Qltb b a then b else a.
Definition pymax (a b : Q) : Q := if Qltb a b then b else a.

Lemma pymin_le_l a b : (pymin a b <= a)%Q.
Proof. unfold pymin. qcases; lra. Qed.
Lemma pymin_le_r a b : (pymin a b <= b)%Q.
Proof. unfold pymin. qcases; lra. Qed.
Lemma pymin_glb a b c : (c <= a)%Q -> (c <= b)%Q -> (c <= pymin a b)%Q.
Proof. unfold pymin. qcases; lra. Qed.
Lemma pymax_ge_l a b : (a <= pymax a b)%Q.
Proof. unfold pymax. qcases; lra. Qed.
Lemma pymax_ge_r a b : (b <= pymax a b)%Q.
Proof. unfold pymax. qcases; lra. Qed.
Lemma pymax_lub a b c : (a <= c)%Q -> (b <= c)%Q -> (pymax a b <= c)%Q.
Proof. unfold pymax. qcases; lra. Qed.
Lemma pymin_mono a a' b b' : (a <= a')%Q -> (b <= b')%Q -> (pymin a b <= pymin a' b')%Q.
Proof. unfold pymin. qcases; lra. Qed.
Lemma pymax_mono a a' b b' : (a <= a')%Q -> (b <= b')%Q -> (pymax a b <= pymax a' b')%Q.
Proof. unfold pymax. qcases; lra. Qed.

#[export] Hint Resolve pymin_le_l pymin_le_r pymin_glb pymax_ge_l pymax_ge_r
  pymax_lub pymin_mono pymax_mono : qbounds.

(** Python's [int(x)] on a float: truncation towards zero. *)
Definition Qtrunc (q : Q) : Z := Z.quot (Qnum q) (Zpos (Qden q)).

(** [x // y] on floats, as an integer. *)
Definition Qfloordiv (a b : Q) : Z := Qfloor (a / b).

Lemma Qtrunc_nonneg q : (0 <= q)%Q -> (0 <= Qtrunc q)%Z.
Proof.
  intros H. unfold Qtrunc. apply Z.quot_pos; [|lia].
  unfold Qle in H. simpl in H. lia.
Qed.

Lemma Qtrunc_le q : (0 <= q)%Q -> (inject_Z (Qtrunc q) <= q)%Q.
Proof.
  intros H. unfold Qtrunc, Qle in *. simpl in *.
  rewrite Z.quot_div_nonneg by lia.
  pose proof (Z.mul_div_le (Qnum q) (Zpos (Qden q)) ltac:(lia)). lia.
Qed.

(** Sums of rationals. *)
Definition qsum (l : list Q) : Q := foldr Qplus 0%Q l.

Lemma qsum_app l k : (qsum (l ++ k) == qsum l + qsum k)%Q.
Proof. induction l as [|x l IH]; simpl; [lra|]. rewrite IH. lra. Qed.

Lemma qsum_perm l k : l ≡ₚ k -> (qsum l == qsum k)%Q.
Proof. induction 1; simpl; lra. Qed.

Lemma qsum_scale c l : (qsum (map (fun x => c * x) l) == c * qsum l)%Q.
Proof. induction l as [|x l IH]; simpl; [lra|]. rewrite IH. lra. Qed.

Lemma qsum_nonneg l : Forall (fun x => 0 <= x)%Q l -> (0 <= qsum l)%Q.
Proof. induction 1; simpl; lra. Qed.

Lemma inject_Z_le a b : (a <= b)%Z -> (inject_Z a <= inject_Z b)%Q.
Proof. by rewrite <- Zle_Qle. Qed.
Lemma inject_Z_lt a b : (a < b)%Z -> (inject_Z a < inject_Z b)%Q.
Proof. by rewrite <- Zlt_Qlt. Qed.
Lemma inject_Z_le_inv a b : (inject_Z a <= inject_Z b)%Q -> (a <= b)%Z.
Proof. by rewrite <- Zle_Qle. Qed.
Lemma inject_Z_lt_inv a b : (inject_Z a < inject_Z b)%Q -> (a < b)%Z.
Proof. by rewrite <- Zlt_Qlt. Qed.
Lemma inject_Z_nonneg a : (0 <= a)%Z -> (0 <= inject_Z a)%Q.
Proof. intros. change 0%Q with (inject_Z 0). by apply inject_Z_le. Qed.
Lemma inject_Z_pos a : (0 < a)%Z -> (0 < inject_Z a)%Q.
Proof. intros. change 0%Q with (inject_Z 0). by apply inject_Z_lt. Qed.

#[export] Hint Resolve inject_Z_le inject_Z_lt inject_Z_nonneg inject_Z_pos
  qsum_nonneg : qbounds.

(** Python's [round(x, digits)]: half to even, on the exact value. *)
Definition round_half_even (q : Q) : Z :=
  let f := Qfloor q in
  let d := (q - inject_Z f)%Q in
  if Qltb d (1 # 2) then f
  else if Qltb (1 # 2) d then (f + 1)%Z
  else if Z.even f then f else (f + 1)%Z.

Definition py_round (digits : nat) (q : Q) : Q :=
  let scale := inject_Z (10 ^ Z.of_nat digits) in
  (inject_Z (round_half_even (q * scale)) / scale)%Q.

Lemma round_half_even_spec q :
  let r := inject_Z (round_half_even q) in
  (r - (1 # 2) <= q <= r + (1 # 2))%Q /\
  (q == r + (1 # 2) \/ q == r - (1 # 2) -> Z.even (round_half_even q) = true)%Q.
Proof.
  pose proof (Qfloor_le q) as H1. pose proof (Qlt_floor q) as H2. rewrite inject_Z_plus in H2.
  change (inject_Z 1) with 1%Q in H2. unfold round_half_even.
  destruct (Qltb_spec (q - inject_Z (Qfloor q)) (1 # 2)) as [A|A];
    [|destruct (Qltb_spec (1 # 2) (q - inject_Z (Qfloor q))) as [B|B]; [|destruct (Z.even (Qfloor q)) eqn:E]];
    cbn zeta; rewrite ?inject_Z_plus; change (inject_Z 1) with 1%Q.
  - split; [lra|]. intros [H|H]; lra.
  - split; [lra|]. intros [H|H]; lra.
  - split; [lra|]. done.
  - split; [lra|]. intros _. rewrite Z.even_add, E. done.
Qed.

Lemma round_half_even_mono a b : (a <= b)%Q -> (round_half_even a <= round_half_even b)%Z.
Proof.
  intros H. destruct (round_half_even_spec a) as [[A1 A2] A3], (round_half_even_spec b) as [[B1 B2] B3].
  destruct (Z.le_gt_cases (round_half_even a) (round_half_even b)) as [L|L]; [done|exfalso].
  assert (inject_Z (round_half_even b) + 1 <= inject_Z (round_half_even a))%Q as G.
  { change 1%Q with (inject_Z 1). rewrite <- inject_Z_plus. apply inject_Z_le. lia. }
  assert (round_half_even a = round_half_even b + 1)%Z as E.
  { apply Z.le_antisymm; [|lia]. apply inject_Z_le_inv. rewrite inject_Z_plus. change (inject_Z 1) with 1%Q. lra. }
  assert (Z.even (round_half_even a) = true) as Ea by (apply A3; right; lra).
  assert (Z.even (round_half_even b) = true) as Eb by (apply B3; left; lra).
  rewrite E, Z.even_add, Eb in Ea. done.
Qed.

Lemma py_round_mono n a b : (a <= b)%Q -> (py_round n a <= py_round n b)%Q.
Proof.
  intros H. unfold py_round. assert (0 < inject_Z (10 ^ Z.of_nat n))%Q as P by (apply inject_Z_pos; lia).
  apply Qmult_le_compat_r; [|apply Qlt_le_weak, Qinv_lt_0_compat; done].
  apply inject_Z_le, round_half_even_mono. apply Qmult_le_compat_r; [done|lra].
Qed.

#[global] Instance py_round_proper n : Proper (Qeq ==> Qeq) (py_round n).
Proof. intros a b H. apply Qle_antisym; apply py_round_mono; rewrite H; lra. Qed.

#[export] Hint Resolve py_round_mono : qbounds.

(** A stable sort by insertion: what [list.sort] and [sorted] return. *)
Section Sort.
Context {A : Type} (leb : A -> A -> bool).

Fixpoint sort_insert (x : A) (l : list A) : list A :=
  match l with
  | [] => [x]
  | y :: l' => if leb x y then x :: l else y :: sort_insert x l'
  end.

Definition isort (l : list A) : list A := foldr sort_insert [] l.

Lemma sort_insert_perm x l : sort_insert x l ≡ₚ x :: l.
Proof.
  induction l as [|y l IH]; simpl; [done|]. destruct (leb x y); [done|]. rewrite IH. apply perm_swap.
Qed.

Lemma isort_perm l : isort l ≡ₚ l.
Proof. induction l as [|x l IH]; simpl; [done|]. by rewrite sort_insert_perm, IH. Qed.

Context (leb_total : forall x y, leb x y = false -> leb y x = true).
Context (leb_trans : forall x y z, leb x y = true -> leb y z = true -> leb x z = true).

Definition in_sort_order : list A -> Prop := StronglySorted (fun x y => leb x y = true).

Lemma sort_insert_sorted x l : in_sort_order l -> in_sort_order (sort_insert x l).
Proof using All.
  induction 1 as [|y l Hs IH HF]; simpl; [by repeat constructor|]. destruct (leb x y) eqn:E.
  - constructor; [by constructor|]. constructor; [done|]. eapply Forall_impl; [exact HF|]. eauto.
  - constructor; [done|]. rewrite sort_insert_perm. constructor; [auto|done].
Qed.

Lemma isort_sorted l : in_sort_order (isort l).
Proof using All. induction l as [|x l IH]; simpl; [constructor|]. by apply sort_insert_sorted. Qed.

Lemma isort_of_sorted l : in_sort_order l -> isort l = l.
Proof.
  induction 1 as [|x l Hs IH HF]; simpl; [done|]. rewrite IH. destruct l as [|y l]; simpl; [done|].
  apply Forall_cons in HF as [-> _]. done.
Qed.

Lemma isort_idem l : isort (isort l) = isort l.
Proof using All. apply isort_of_sorted, isort_sorted. Qed.
End Sort.
