(* ===== verification/PyDict.v ===== *)
(** * Python containers

    Insertion-ordered dictionaries (Python's [dict] and [OrderedDict]) as
    association lists, and the [collections.deque] operations the scheduler
    uses.  Iteration order is observable in the program (dispatch order, tie
    breaking, eviction order), so maps are modelled with their order. *)

From Stdlib Require Import QArith Lqa Lia Permutation.
From stdpp Require Import base list strings.
From S2P Require Import Prelude.

(** ** Ordered dictionaries *)

Definition dict (K V : Type) : Type := list (K * V).

Section Dict.
Context {K V : Type} `{EqDecision K}.
Implicit Types (d : dict K V) (k : K) (v : V).

Fixpoint dget d k : option V :=
  match d with
  | [] => None
  | (k', v) :: d' => if decide (k' = k) then Some v else dget d' k
  end.

(** [d[k] = v]: an existing key keeps its position, a new one goes last. *)
Fixpoint dset d k v : dict K V :=
  match d with
  | [] => [(k, v)]
  | (k', v') :: d' => if decide (k' = k) then (k, v) :: d' else (k', v') :: dset d' k v
  end.

(** [d.pop(k, None)] *)
Fixpoint ddel d k : dict K V :=
  match d with
  | [] => []
  | (k', v') :: d' => if decide (k' = k) then d' else (k', v') :: ddel d' k
  end.

Definition dkeys d : list K := map fst d.
Definition dvals d : list V := map snd d.
Definition dmem d k : bool := match dget d k with Some _ => true | None => false end.

(** Replace every value, keeping keys and order. *)
Definition dmap (f : V -> V) d : dict K V := map (fun kv => (kv.1, f kv.2)) d.

(** [for k in stale: d.pop(k, None)] *)
Definition ddel_all d (ks : list K) : dict K V := foldl ddel d ks.

(** The invariant every Python dictionary satisfies. *)
Definition dwf d : Prop := NoDup (dkeys d).

Lemma dget_elem d k v : dget d k = Some v -> (k, v) ∈ d.
Proof.
  induction d as [|[k' v'] d IH]; simpl; [done|].
  case_decide; intros; simplify_eq; [by left|right; auto].
Qed.

Lemma dget_None d k : dget d k = None <-> k ∉ dkeys d.
Proof.
  unfold dkeys. induction d as [|[k' v'] d IH]; simpl.
  - split; [intros _; apply not_elem_of_nil|done].
  - rewrite not_elem_of_cons. case_decide; [split; [done|intros [? ?]; congruence]|].
    rewrite IH. split; [by intros|by intros [? ?]].
Qed.

Lemma dget_Some_keys d k v : dget d k = Some v -> k ∈ dkeys d.
Proof.
  intros H. destruct (decide (k ∈ dkeys d)) as [|N]; [done|].
  apply dget_None in N. congruence.
Qed.

Lemma dkeys_get d k : k ∈ dkeys d -> exists v, dget d k = Some v.
Proof.
  intros H. destruct (dget d k) eqn:E; [eauto|]. by apply dget_None in E.
Qed.

Lemma elem_dkeys d k v : (k, v) ∈ d -> k ∈ dkeys d.
Proof. intros H. unfold dkeys. apply list_elem_of_fmap. by exists (k, v). Qed.

Lemma elem_dget d k v : dwf d -> (k, v) ∈ d -> dget d k = Some v.
Proof.
  unfold dwf, dkeys. induction d as [|[k' v'] d IH]; simpl.
  - intros _ H. by apply not_elem_of_nil in H.
  - intros [N W]%NoDup_cons [E|E]%elem_of_cons.
    + simplify_eq. by rewrite decide_True.
    + case_decide as D; [|auto]. subst. exfalso. apply N. by eapply elem_dkeys.
Qed.

Lemma dget_dset d k v k' :
  dget (dset d k v) k' = if decide (k = k') then Some v else dget d k'.
Proof.
  induction d as [|[a b] d IH]; simpl; [done|].
  repeat (case_decide; simpl; subst); try congruence; rewrite IH; by case_decide.
Qed.

Lemma dget_dset_eq d k v : dget (dset d k v) k = Some v.
Proof. rewrite dget_dset. by case_decide. Qed.
Lemma dget_dset_ne d k v k' : k <> k' -> dget (dset d k v) k' = dget d k'.
Proof. intros. rewrite dget_dset. by case_decide. Qed.

Lemma dkeys_dset d k v :
  dkeys (dset d k v) = if decide (k ∈ dkeys d) then dkeys d else dkeys d ++ [k].
Proof.
  unfold dkeys. induction d as [|[a b] d IH]; cbn [dset map fst].
  - by rewrite decide_False by apply not_elem_of_nil.
  - destruct (decide (a = k)) as [->|D1]; cbn [map fst].
    + rewrite decide_True; [done|apply elem_of_cons; auto].
    + rewrite IH. destruct (decide (k ∈ map fst d)).
      * rewrite decide_True; [done|apply elem_of_cons; auto].
      * rewrite decide_False; [done|]. rewrite not_elem_of_cons. naive_solver.
Qed.

Lemma dwf_dset d k v : dwf d -> dwf (dset d k v).
Proof.
  unfold dwf. rewrite dkeys_dset. case_decide; [done|]. intros.
  apply NoDup_app. split_and!; [done| |apply NoDup_singleton].
  intros x Hx ->%list_elem_of_singleton. done.
Qed.

Lemma dset_new d k v : dget d k = None -> dset d k v = d ++ [(k, v)].
Proof.
  induction d as [|[a b] d IH]; simpl; [done|].
  case_decide; [done|]. intros. by rewrite IH.
Qed.

Lemma dset_dset d k v v' : dset (dset d k v) k v' = dset d k v'.
Proof.
  induction d as [|[a b] d IH]; simpl; [by rewrite decide_True|].
  case_decide; simpl; [by rewrite decide_True|]. rewrite decide_False by done. by rewrite IH.
Qed.

Lemma ddel_perm d k v : dget d k = Some v -> d ≡ₚ (k, v) :: ddel d k.
Proof.
  induction d as [|[a b] d IH]; simpl; [done|].
  case_decide; intros; simplify_eq; [done|].
  rewrite IH at 1 by done. apply perm_swap.
Qed.

Lemma dset_perm d k v v' : dget d k = Some v -> dset d k v' ≡ₚ (k, v') :: ddel d k.
Proof.
  induction d as [|[a b] d IH]; simpl; [done|].
  case_decide; intros; simplify_eq; [done|].
  rewrite IH by done. apply perm_swap.
Qed.

Lemma ddel_None d k : dget d k = None -> ddel d k = d.
Proof.
  induction d as [|[a b] d IH]; simpl; [done|].
  case_decide; [done|]. intros. by rewrite IH.
Qed.

Lemma ddel_incl d k : ddel d k ⊆+ d.
Proof.
  induction d as [|[a b] d IH]; simpl; [done|].
  case_decide; [by apply submseteq_cons|by apply submseteq_skip].
Qed.

Lemma dwf_ddel d k : dwf d -> dwf (ddel d k).
Proof.
  unfold dwf, dkeys. induction d as [|[a b] d IH]; simpl; [done|].
  intros [N W]%NoDup_cons. case_decide; [done|]. simpl. apply NoDup_cons. split; [|auto].
  intros ((k0 & v0) & -> & I)%list_elem_of_fmap. apply N.
  apply list_elem_of_fmap. exists (k0, v0). split; [done|].
  pose proof (ddel_incl d k) as S. by eapply elem_of_submseteq.
Qed.

Lemma dget_ddel d k k' :
  dwf d -> dget (ddel d k) k' = if decide (k = k') then None else dget d k'.
Proof.
  unfold dwf, dkeys. induction d as [|[a b] d IH]; simpl.
  - by case_decide.
  - intros [N W]%NoDup_cons. destruct (decide (a = k)) as [->|]; simpl.
    + destruct (decide (k = k')) as [->|]; [|done]. by apply dget_None.
    + rewrite IH by done. repeat case_decide; congruence.
Qed.

Lemma dget_ddel_ne d k k' : k <> k' -> dget (ddel d k) k' = dget d k'.
Proof.
  intros N. induction d as [|[a b] d IH]; simpl; [done|].
  destruct (decide (a = k)) as [->|]; simpl; [by rewrite decide_False|]. by rewrite IH.
Qed.

Lemma dkeys_dmap f d : dkeys (dmap f d) = dkeys d.
Proof. unfold dkeys, dmap. rewrite map_map. by apply map_ext. Qed.

Lemma dvals_dmap f d : dvals (dmap f d) = map f (dvals d).
Proof. unfold dvals, dmap. by rewrite !map_map. Qed.

Lemma dget_dmap f d k : dget (dmap f d) k = f <$> dget d k.
Proof. induction d as [|[a b] d IH]; simpl; [done|]. by case_decide. Qed.

Lemma dwf_dmap f d : dwf d -> dwf (dmap f d).
Proof. unfold dwf. by rewrite dkeys_dmap. Qed.

Lemma dwf_nil : dwf [].
Proof. apply NoDup_nil_2. Qed.

Lemma dwf_ddel_all d ks : dwf d -> dwf (ddel_all d ks).
Proof. revert d. induction ks; simpl; auto using dwf_ddel. Qed.

Lemma dget_ddel_all d ks k :
  dwf d -> dget (ddel_all d ks) k = if decide (k ∈ ks) then None else dget d k.
Proof.
  unfold ddel_all. revert d. induction ks as [|x ks IH]; intros d W; cbn [foldl].
  - by rewrite decide_False by apply not_elem_of_nil.
  - rewrite IH by by apply dwf_ddel. rewrite dget_ddel by done.
    destruct (decide (k ∈ ks)) as [I|I].
    + rewrite decide_True; [done|]. by right.
    + destruct (decide (x = k)) as [->|N].
      * rewrite decide_True; [done|]. by left.
      * rewrite decide_False; [done|]. intros [?|?]%elem_of_cons; congruence.
Qed.

Lemma ddel_length d k : is_Some (dget d k) -> length d = S (length (ddel d k)).
Proof.
  induction d as [|[a b] d IH]; simpl; [by intros [? ?]|].
  case_decide; [done|]. intros G. simpl. by rewrite <- IH.
Qed.

Lemma ddel_length_le d k : (length (ddel d k) <= length d)%nat.
Proof. induction d as [|[a b] d IH]; simpl; [done|]. case_decide; simpl; lia. Qed.

Lemma ddel_all_length_le d ks : (length (ddel_all d ks) <= length d)%nat.
Proof.
  unfold ddel_all. revert d. induction ks as [|k ks IH]; intros d; cbn [foldl]; [done|].
  etransitivity; [apply IH|]. apply ddel_length_le.
Qed.

Lemma dget_ext_None d d' k : dkeys d = dkeys d' -> dget d k = None -> dget d' k = None.
Proof. intros E. rewrite !dget_None. by rewrite E. Qed.

(** [{k: v for k, v in d.items() if P}] at a key the test keeps or drops. *)
Lemma dget_filter_in (P : K * V -> Prop) `{!forall x, Decision (P x)} (d : list (K * V)) k :
  (forall v, P (k, v)) -> dget (filter P d) k = dget d k.
Proof.
  intros Hp. induction d as [|[a b] d IH]; [done|]. rewrite filter_cons.
  destruct (decide (P (a, b))) as [Ha|Ha]; simpl; rewrite IH; [done|].
  destruct (decide (a = k)) as [->|]; [by destruct Ha|done].
Qed.

Lemma dget_filter_out (P : K * V -> Prop) `{!forall x, Decision (P x)} (d : list (K * V)) k :
  (forall v, ~ P (k, v)) -> dget (filter P d) k = None.
Proof.
  intros Hp. induction d as [|[a b] d IH]; [done|]. rewrite filter_cons.
  destruct (decide (P (a, b))) as [Ha|Ha]; simpl; [|done].
  destruct (decide (a = k)) as [->|]; [by destruct (Hp b)|done].
Qed.

Lemma dwf_filter (P : K * V -> Prop) `{!forall x, Decision (P x)} (d : list (K * V)) :
  dwf d -> dwf (filter P d).
Proof.
  unfold dwf, dkeys. induction d as [|[a b] d IH]; simpl; [done|]. rewrite filter_cons.
  intros [N W]%NoDup_cons. destruct (decide (P (a, b))); [|auto]. simpl. apply NoDup_cons.
  split; [|auto]. intros ((k0 & v0) & -> & I)%list_elem_of_fmap. apply N.
  apply list_elem_of_fmap. exists (k0, v0). split; [done|]. by apply list_elem_of_filter in I as [_ I].
Qed.

Lemma dset_same d k v : dget d k = Some v -> dset d k v = d.
Proof.
  induction d as [|[a b] d IH]; simpl; [done|].
  case_decide; [intros [= ->]; by subst|]. intros. by rewrite IH.
Qed.

Lemma dmem_true d k : dmem d k = true <-> is_Some (dget d k).
Proof. unfold dmem. destruct (dget d k); split; intros H; [eauto|done|done|by destruct H]. Qed.

(** Additive measures over the values: the effect of a write and a delete. *)
Lemma Permutation_dvals_dset d k v v' :
  dget d k = Some v -> exists rest, dvals d ≡ₚ v :: rest /\ dvals (dset d k v') ≡ₚ v' :: rest.
Proof.
  intros H. exists (dvals (ddel d k)). unfold dvals. split.
  - by rewrite (ddel_perm d k v H) at 1.
  - by rewrite (dset_perm d k v v' H).
Qed.
End Dict.

#[export] Hint Resolve dwf_dset dwf_ddel dwf_dmap dwf_nil dwf_ddel_all : roadstead.

(** ** Deques *)

(** [deque.rotate(-1)] *)
Definition rotate_left {A} (l : list A) : list A :=
  match l with
  | [] => []
  | x :: xs => xs ++ [x]
  end.

Lemma rotate_left_perm {A} (l : list A) : rotate_left l ≡ₚ l.
Proof. destruct l; simpl; [done|]. by rewrite Permutation_app_comm. Qed.

(** [deque.remove(x)] with the [ValueError] of an absent element swallowed. *)
Fixpoint remove1 {A} `{EqDecision A} (x : A) (l : list A) : list A :=
  match l with
  | [] => []
  | y :: ys => if decide (y = x) then ys else y :: remove1 x ys
  end.

Lemma remove1_perm {A} `{EqDecision A} (x : A) l : x ∈ l -> l ≡ₚ x :: remove1 x l.
Proof.
  induction l as [|y l IH]; simpl.
  - intros H. by apply not_elem_of_nil in H.
  - intros [->|H]%elem_of_cons; [by rewrite decide_True|].
    case_decide; subst; [done|]. rewrite IH at 1 by done. apply perm_swap.
Qed.

Lemma remove1_NoDup {A} `{EqDecision A} (x : A) l : NoDup l -> NoDup (remove1 x l).
Proof.
  intros N. destruct (decide (x ∈ l)) as [I|I].
  - rewrite (remove1_perm x l I) in N. by apply NoDup_cons in N as [_ ?].
  - revert I N. induction l as [|y l IH]; simpl; [done|].
    rewrite not_elem_of_cons, NoDup_cons. intros [H1 H2] [H3 H4].
    rewrite decide_False by congruence. apply NoDup_cons. split; [|auto].
    clear IH. intros C. apply H3. clear H1 H3 H4. induction l as [|z l IH]; simpl in *; [done|].
    apply not_elem_of_cons in H2 as [A1 A2]. rewrite decide_False in C by congruence.
    apply elem_of_cons in C as [->|C]; [by left|right; auto].
Qed.

(** A bounded append, [deque(maxlen=n).append(x)]: the oldest element goes. *)
Definition append_maxlen {A} (n : nat) (l : list A) (x : A) : list A :=
  let l' := l ++ [x] in drop (length l' - n) l'.

Lemma append_maxlen_length {A} n (l : list A) x :
  length (append_maxlen n l x) = Nat.min n (S (length l)).
Proof. unfold append_maxlen. rewrite length_drop, length_app. simpl. lia. Qed.

(** The popleft loop: [while q and p(q[0]): q.popleft()]. *)
Fixpoint drop_while {A} (p : A -> bool) (l : list A) : list A :=
  match l with
  | [] => []
  | x :: xs => if p x then drop_while p xs else l
  end.

Fixpoint take_while {A} (p : A -> bool) (l : list A) : list A :=
  match l with
  | [] => []
  | x :: xs => if p x then x :: take_while p xs else []
  end.

Lemma take_drop_while {A} (p : A -> bool) l : take_while p l ++ drop_while p l = l.
Proof. induction l as [|x l IH]; simpl; [done|]. destruct (p x); simpl; congruence. Qed.

Lemma take_while_Forall {A} (p : A -> bool) l : Forall (fun x => p x = true) (take_while p l).
Proof. induction l as [|x l IH]; simpl; [constructor|]. destruct (p x) eqn:E; auto. Qed.

Lemma drop_while_head {A} (p : A -> bool) l x xs : drop_while p l = x :: xs -> p x = false.
Proof.
  induction l as [|y l IH]; simpl; [done|].
  destruct (p y) eqn:E; [auto|]. intros. by simplify_eq.
Qed.

Lemma drop_while_suffix {A} (p : A -> bool) l : drop_while p l `suffix_of` l.
Proof. exists (take_while p l). by rewrite take_drop_while. Qed.
