(* ===== verification/PyText.v ===== *)
(** * Python strings

    A Python [str] as a [string] whose characters are the code points 0..255,
    with the methods the modelled code calls; case mapping is the ASCII one, since
    every name the program folds (priorities, endpoint classes) is ASCII.  Then
    [str.startswith], [str.endswith], [in], [str.find], [s[:i]] and [s[i:]], with
    the lemmas that text-processing components share: what a successful search says
    about the string, how a search behaves on a concatenation, and how stripping
    distributes over it. *)

From Stdlib Require Import Ascii Lia ZArith.
From stdpp Require Import base list strings.
From S2P Require Import Prelude.

Local Open Scope string_scope.

Definition ord (c : ascii) : Z := Z.of_N (N_of_ascii c).

(** [str.isspace] on one character. *)
Definition is_space (c : ascii) : bool :=
  let n := ord c in
  ((9 <=? n) && (n <=? 13) || (28 <=? n) && (n <=? 32) || (n =? 133) || (n =? 160))%Z.

Definition is_digit (c : ascii) : bool := ((48 <=? ord c) && (ord c <=? 57))%Z.
Definition is_upper (c : ascii) : bool := ((65 <=? ord c) && (ord c <=? 90))%Z.
Definition is_lower (c : ascii) : bool := ((97 <=? ord c) && (ord c <=? 122))%Z.

Definition lower_char (c : ascii) : ascii :=
  if is_upper c then ascii_of_N (Z.to_N (ord c + 32)) else c.
Definition upper_char (c : ascii) : ascii :=
  if is_lower c then ascii_of_N (Z.to_N (ord c - 32)) else c.

Fixpoint smap (f : ascii -> ascii) (s : string) : string :=
  match s with
  | "" => ""
  | String c s' => String (f c) (smap f s')
  end.

Definition lower (s : string) : string := smap lower_char s.
Definition upper (s : string) : string := smap upper_char s.

Fixpoint lstrip (s : string) : string :=
  match s with
  | "" => ""
  | String c s' => if is_space c then lstrip s' else s
  end.

Fixpoint srev_app (s acc : string) : string :=
  match s with
  | "" => acc
  | String c s' => srev_app s' (String c acc)
  end.
Definition srev (s : string) : string := srev_app s "".
Definition rstrip (s : string) : string := srev (lstrip (srev s)).
Definition strip (s : string) : string := rstrip (lstrip s).

(** The longest run of ASCII digits at the front, with its value. *)
Fixpoint span_digits (s : string) (acc : Z) : Z * string :=
  match s with
  | "" => (acc, "")
  | String c s' => if is_digit c then span_digits s' (10 * acc + (ord c - 48))%Z else (acc, s)
  end.

(** Decimal printing of an integer, [str(n)]. *)
Definition digit_char (d : Z) : ascii := ascii_of_N (Z.to_N (48 + d)).

Fixpoint digits_fuel (fuel : nat) (n : Z) (acc : string) : string :=
  match fuel with
  | O => acc
  | S f =>
      let acc' := String (digit_char (n mod 10)%Z) acc in
      if (n <? 10)%Z then acc' else digits_fuel f (n / 10)%Z acc'
  end.

(** Fuel [log2 n + 1] is at least the number of decimal digits. *)
Definition str_of_Z (n : Z) : string :=
  let m := Z.abs n in
  let ds := digits_fuel (S (Z.to_nat (Z.log2 m))) m "" in
  if (n <? 0)%Z then String "-" ds else ds.

Lemma ascii_inj_N n : (n < 256)%N -> N_of_ascii (ascii_of_N n) = n.
Proof. apply N_ascii_embedding. Qed.

Lemma ord_range c : (0 <= ord c < 256)%Z.
Proof.
  unfold ord. pose proof (N_ascii_bounded c). lia.
Qed.

Lemma lower_char_idem c : lower_char (lower_char c) = lower_char c.
Proof. destruct c as [[] [] [] [] [] [] [] []]; reflexivity. Qed.

Lemma upper_lower_char c : upper_char (lower_char c) = upper_char c.
Proof. destruct c as [[] [] [] [] [] [] [] []]; reflexivity. Qed.

Lemma smap_smap f g s : smap f (smap g s) = smap (fun c => f (g c)) s.
Proof. induction s as [|c s IH]; simpl; [done|]. by rewrite IH. Qed.

Lemma smap_ext f g s : (forall c, f c = g c) -> smap f s = smap g s.
Proof. intros H. induction s as [|c s IH]; simpl; [done|]. by rewrite H, IH. Qed.

Lemma lower_idem s : lower (lower s) = lower s.
Proof. unfold lower. rewrite smap_smap. apply smap_ext, lower_char_idem. Qed.

#[global] Arguments String.append !_ _ / : simpl nomatch.

(** [s.startswith(p)] *)
Fixpoint startswith (p s : string) : bool :=
  match p, s with
  | "", _ => true
  | String a p', String b s' => Ascii.eqb a b && startswith p' s'
  | String _ _, "" => false
  end.

(** [s.find(p)]; [None] is Python's [-1]. *)
Fixpoint sfind (p s : string) : option nat :=
  if startswith p s then Some O
  else match s with
       | "" => None
       | String _ s' => S <$> sfind p s'
       end.

(** [p in s] *)
Definition contains (p s : string) : bool :=
  match sfind p s with Some _ => true | None => false end.

(** [s[:n]] and [s[n:]] for [n >= 0]. *)
Fixpoint stake (n : nat) (s : string) : string :=
  match n, s with
  | S n', String c s' => String c (stake n' s')
  | _, _ => ""
  end.

Fixpoint sdrop (n : nat) (s : string) : string :=
  match n, s with
  | S n', String _ s' => sdrop n' s'
  | _, _ => s
  end.

(** [s.endswith(p)] *)
Definition endswith (p s : string) : bool :=
  (String.length p <=? String.length s)%nat
  && String.eqb (sdrop (String.length s - String.length p) s) p.

(** The characters of a string, and whether all satisfy a test. *)
Fixpoint sforall (f : ascii -> bool) (s : string) : bool :=
  match s with
  | "" => true
  | String c s' => f c && sforall f s'
  end.

(** [''.join(l)] *)
Definition sjoin (l : list string) : string := foldr String.append "" l.

(** ** Concatenation *)

Lemma sapp_assoc a b c : (a ++ b) ++ c = a ++ (b ++ c).
Proof. induction a as [|x a IH]; simpl; [done|]. by rewrite IH. Qed.

Lemma sapp_nil_r a : a ++ "" = a.
Proof. induction a as [|x a IH]; simpl; [done|]. by rewrite IH. Qed.

Lemma slength_app a b : String.length (a ++ b) = (String.length a + String.length b)%nat.
Proof. induction a as [|x a IH]; simpl; [done|]. by rewrite IH. Qed.

Lemma sapp_eq_nil a b : a ++ b = "" -> a = "" /\ b = "".
Proof. by destruct a. Qed.

Lemma sapp_inv_head a b c : a ++ b = a ++ c -> b = c.
Proof. induction a as [|x a IH]; simpl; [done|]. intros [= H]. by apply IH. Qed.

Lemma sjoin_app l k : sjoin (l ++ k)%list = sjoin l ++ sjoin k.
Proof. induction l as [|x l IH]; simpl; [done|]. by rewrite IH, sapp_assoc. Qed.

Lemma stake_sdrop n s : stake n s ++ sdrop n s = s.
Proof. revert s. induction n as [|n IH]; intros [|c s]; simpl; [done..|]. by rewrite IH. Qed.

Lemma stake_app_length a b : stake (String.length a) (a ++ b) = a.
Proof. induction a as [|c a IH]; simpl; [by destruct b|]. by rewrite IH. Qed.

Lemma sdrop_app_length a b : sdrop (String.length a) (a ++ b) = b.
Proof. induction a as [|c a IH]; simpl; [by destruct b|]. done. Qed.

Lemma stake_app_add c n t : stake (String.length c + n) (c ++ t) = c ++ stake n t.
Proof. induction c as [|x c IH]; simpl; [done|]. by rewrite IH. Qed.

Lemma sdrop_app_add c n t : sdrop (String.length c + n) (c ++ t) = sdrop n t.
Proof. by induction c as [|x c IH]. Qed.

Lemma slength_stake n s : (n <= String.length s)%nat -> String.length (stake n s) = n.
Proof. revert s. induction n as [|n IH]; intros [|c s]; simpl; try lia. intros H. rewrite IH; lia. Qed.

Lemma slength_sdrop n s : String.length (sdrop n s) = (String.length s - n)%nat.
Proof. revert s. induction n as [|n IH]; intros [|c s]; simpl; auto. Qed.

Lemma slength_0 s : String.length s = O -> s = "".
Proof. by destruct s. Qed.

Lemma stake_all s : stake (String.length s) s = s.
Proof. rewrite <- (sapp_nil_r s) at 2. apply stake_app_length. Qed.

Lemma sdrop_all s : sdrop (String.length s) s = "".
Proof. rewrite <- (sapp_nil_r s) at 2. apply sdrop_app_length. Qed.

Lemma sdrop_app_le n a b : (n <= String.length a)%nat -> sdrop n (a ++ b) = sdrop n a ++ b.
Proof.
  revert a. induction n as [|n IH]; intros [|c a]; simpl; intros H; try done; try lia.
  apply IH; lia.
Qed.

Lemma sapp_split_eq a b c d :
  a ++ b = c ++ d -> (String.length a <= String.length c)%nat -> exists e, c = a ++ e /\ b = e ++ d.
Proof.
  revert c. induction a as [|x a IH]; intros c H Hl; simpl in *.
  - by exists c.
  - destruct c as [|y c]; simpl in *; [lia|]. injection H as -> H.
    destruct (IH c H) as (e & -> & ->); [lia|]. by exists e.
Qed.

(** ** Prefix test *)

Lemma startswith_iff p s : startswith p s = true <-> exists t, s = p ++ t.
Proof.
  revert s. induction p as [|a p IH]; intros s; simpl.
  - split; [intros _; by exists s | done].
  - destruct s as [|b s].
    + split; [done|]. by intros (t & H).
    + rewrite andb_true_iff, IH. destruct (Ascii.eqb_spec a b) as [->|Hn].
      * split; [intros (_ & t & ->); by exists t | intros (t & [= ->]); eauto].
      * split; [by intros [? _] | intros (t & [= <- _]); done].
Qed.

Lemma startswith_refl_app p t : startswith p (p ++ t) = true.
Proof. apply startswith_iff. by exists t. Qed.

Lemma startswith_app_l p s t : startswith p s = true -> startswith p (s ++ t) = true.
Proof. rewrite !startswith_iff. intros (u & ->). exists (u ++ t). apply sapp_assoc. Qed.

(** A string that has [p] in front after a continuation already had it, or is a
    proper prefix of [p]. *)
Lemma startswith_app_inv p s t :
  startswith p (s ++ t) = true ->
  startswith p s = true \/ (startswith s p = true /\ (String.length s < String.length p)%nat).
Proof.
  rewrite !startswith_iff. intros (u & H).
  destruct (le_lt_dec (String.length p) (String.length s)) as [Hle|Hlt].
  - left. symmetry in H. destruct (sapp_split_eq _ _ _ _ H Hle) as (e & -> & _). by exists e.
  - right. split; [|done]. destruct (sapp_split_eq _ _ _ _ H) as (e & -> & _); [lia|]. by exists e.
Qed.

Lemma startswith_length p s : startswith p s = true -> (String.length p <= String.length s)%nat.
Proof. rewrite startswith_iff. intros (t & ->). rewrite slength_app. lia. Qed.

Lemma startswith_antisym p s : startswith p s = true -> startswith s p = true -> p = s.
Proof.
  intros H1 H2. pose proof (startswith_length _ _ H1). pose proof (startswith_length _ _ H2).
  apply startswith_iff in H1 as (t & ->). rewrite slength_app in *.
  rewrite (slength_0 t) by lia. by rewrite sapp_nil_r.
Qed.

(** ** Search *)

Lemma sfind_Some p s i :
  sfind p s = Some i -> s = stake i s ++ p ++ sdrop (i + String.length p) s
                        /\ String.length (stake i s) = i.
Proof.
  revert i. induction s as [|c s IH]; intros i; simpl.
  - destruct p; simpl; [|done]. by intros [= <-].
  - destruct (startswith p (String c s)) eqn:Hp.
    + intros [= <-]. apply startswith_iff in Hp as (t & Ht). rewrite Ht. simpl.
      by rewrite sdrop_app_length.
    + destruct (sfind p s) as [j|] eqn:Hj; simpl; [|done]. intros [= <-].
      destruct (IH j eq_refl) as [H1 H2]. simpl. by rewrite <- H1, H2.
Qed.

Lemma sfind_at_0 p b : sfind p (p ++ b) = Some O.
Proof.
  destruct p as [|c p]; [by destruct b|]. simpl.
  by rewrite Ascii.eqb_refl, startswith_refl_app.
Qed.

Lemma sfind_occurs p a b : sfind p (a ++ p ++ b) <> None.
Proof.
  induction a as [|c a IH]; simpl; [by rewrite sfind_at_0|].
  destruct (startswith p (String c (a ++ p ++ b))); [done|].
  by destruct (sfind p (a ++ p ++ b)).
Qed.

Lemma sfind_None_tail p c s : sfind p (String c s) = None -> sfind p s = None.
Proof. simpl. destruct (startswith _ _); [done|]. by destruct (sfind p s). Qed.

Lemma sfind_None_prefix p a b : sfind p (a ++ b) = None -> sfind p a = None.
Proof.
  intros H. destruct (sfind p a) as [i|] eqn:E; [|done]. exfalso.
  destruct (sfind_Some _ _ _ E) as [Ha _]. rewrite Ha, !sapp_assoc in H. by eapply sfind_occurs.
Qed.

Lemma sfind_app_Some p a b i : sfind p a = Some i -> sfind p (a ++ b) = Some i.
Proof.
  revert i. induction a as [|c a IH]; intros i; simpl.
  - destruct p; [|done]. intros [= <-]. by destruct b.
  - destruct (startswith p (String c a)) eqn:Hp.
    + intros [= <-]. change (String c (a ++ b)) with (String c a ++ b).
      by rewrite (startswith_app_l _ _ _ Hp).
    + destruct (sfind p a) as [j|] eqn:Hj; simpl; [|done]. intros [= <-].
      destruct (startswith p (String c (a ++ b))) eqn:Hq.
      * exfalso. change (String c (a ++ b)) with (String c a ++ b) in Hq.
        destruct (startswith_app_inv _ _ _ Hq) as [H|[_ H]]; [congruence|].
        destruct (sfind_Some _ _ _ Hj) as [Ha _].
        apply (f_equal String.length) in Ha. rewrite !slength_app in Ha. simpl in H. lia.
      * by rewrite (IH j eq_refl).
Qed.

(** No occurrence of [p] starts inside [c], whatever follows [k]. *)
Definition search_past (p c k : string) : Prop :=
  forall x, sfind p (c ++ k ++ x) = (Nat.add (String.length c)) <$> sfind p (k ++ x).

Lemma search_past_nil p k : search_past p "" k.
Proof. intros x. simpl. by destruct (sfind p (k ++ x)). Qed.

Lemma search_past_app p c1 c2 k :
  search_past p c1 (c2 ++ k) -> search_past p c2 k -> search_past p (c1 ++ c2) k.
Proof.
  intros H1 H2 x. rewrite sapp_assoc. specialize (H1 x). rewrite sapp_assoc in H1.
  rewrite H1, H2. destruct (sfind p (k ++ x)); simpl; [|done]. by rewrite slength_app, Nat.add_assoc.
Qed.

(** If [c ++ k] holds no occurrence and no suffix of it that reaches into [c] is
    a proper prefix of [p], the search may forget [c]. *)
Lemma search_past_intro p c k :
  sfind p (c ++ k) = None ->
  (forall a b, c = a ++ b -> b <> "" -> startswith (b ++ k) p = false) ->
  search_past p c k.
Proof.
  intros Hn Hs x. induction c as [|y c IH]; simpl in *; [by destruct (sfind p (k ++ x))|].
  destruct (startswith p (String y (c ++ k ++ x))) eqn:E.
  - exfalso. pose proof (Hs "" (String y c) eq_refl ltac:(done)) as H. simpl in H.
    rewrite <- sapp_assoc in E. change (startswith p (String y (c ++ k) ++ x) = true) in E.
    destruct (startswith_app_inv _ _ _ E) as [H'|[H' _]]; [|simpl in H'; congruence].
    simpl in H'. by rewrite H' in Hn.
  - rewrite IH.
    + by destruct (sfind p (k ++ x)).
    + destruct (startswith _ _); [done|]. by destruct (sfind p (c ++ k)).
    + intros a b -> Hb. apply (Hs (String y a) b); done.
Qed.

(** ** Stripping *)

Lemma lstrip_spaces w s : sforall is_space w = true -> lstrip (w ++ s) = lstrip s.
Proof.
  induction w as [|c w IH]; simpl; [done|]. rewrite andb_true_iff. intros [-> H]. by apply IH.
Qed.

Lemma lstrip_split s : exists w, s = w ++ lstrip s /\ sforall is_space w = true.
Proof.
  induction s as [|c s (w & IH & Hw)]; simpl; [by exists ""|].
  destruct (is_space c) eqn:E; [|by exists ""].
  exists (String c w). simpl. by rewrite E, <- IH.
Qed.

Lemma lstrip_nil_iff s : lstrip s = "" <-> sforall is_space s = true.
Proof.
  induction s as [|c s IH]; simpl; [done|]. destruct (is_space c); simpl; [done|].
  split; done.
Qed.

Lemma lstrip_app s t :
  lstrip (s ++ t) = if String.eqb (lstrip s) "" then lstrip t else lstrip s ++ t.
Proof.
  induction s as [|c s IH]; simpl; [done|]. by destruct (is_space c).
Qed.

Lemma lstrip_idem s : lstrip (lstrip s) = lstrip s.
Proof. induction s as [|c s IH]; simpl; [done|]. destruct (is_space c) eqn:E; [done|]. simpl. by rewrite E. Qed.

Lemma lstrip_id c s : is_space c = false -> lstrip (String c s) = String c s.
Proof. simpl. by intros ->. Qed.

(** [rstrip] removes a run of blanks at the end. *)
Lemma srev_app_spec s acc : srev_app s acc = srev s ++ acc.
Proof.
  unfold srev. revert acc. induction s as [|c s IH]; intros acc; simpl; [done|].
  rewrite IH, (IH (String c "")), sapp_assoc. done.
Qed.

Lemma srev_cons c s : srev (String c s) = srev s ++ String c "".
Proof. unfold srev at 1. simpl. apply srev_app_spec. Qed.

Lemma srev_distr a b : srev (a ++ b) = srev b ++ srev a.
Proof.
  induction a as [|c a IH]; simpl; [by rewrite sapp_nil_r|].
  by rewrite !srev_cons, IH, sapp_assoc.
Qed.

Lemma srev_involutive s : srev (srev s) = s.
Proof. induction s as [|c s IH]; [done|]. by rewrite srev_cons, srev_distr, IH. Qed.

Lemma sforall_app f a b : sforall f (a ++ b) = (sforall f a && sforall f b)%bool.
Proof. induction a as [|c a IH]; simpl; [done|]. by rewrite IH, andb_assoc. Qed.

Lemma sforall_srev f s : sforall f (srev s) = sforall f s.
Proof.
  induction s as [|c s IH]; [done|]. rewrite srev_cons, sforall_app, IH. simpl.
  by rewrite andb_true_r, andb_comm.
Qed.

Lemma rstrip_split s : exists b, s = rstrip s ++ b /\ sforall is_space b = true.
Proof.
  destruct (lstrip_split (srev s)) as (w & E & Hw). exists (srev w).
  rewrite sforall_srev. split; [|done]. unfold rstrip.
  by rewrite <- srev_distr, <- E, srev_involutive.
Qed.

Lemma strip_split s :
  exists b1 b2, s = b1 ++ strip s ++ b2 /\ sforall is_space b1 = true /\ sforall is_space b2 = true.
Proof.
  destruct (lstrip_split s) as (b1 & E1 & H1). destruct (rstrip_split (lstrip s)) as (b2 & E2 & H2).
  exists b1, b2. split; [|done]. unfold strip. by rewrite <- E2.
Qed.

(** ** Splitting *)

(** [s.split(c)] for a one-character separator. *)
Fixpoint split_on (c : ascii) (s : string) : list string :=
  match s with
  | "" => [""]
  | String a s' =>
      if Ascii.eqb a c then "" :: split_on c s'
      else match split_on c s' with
           | [] => [String a ""]
           | w :: ws => String a w :: ws
           end
  end.

(** [s.split(c, 1)], when [c] occurs: the text before and after it. *)
Fixpoint split_once (c : ascii) (s : string) : option (string * string) :=
  match s with
  | "" => None
  | String a s' =>
      if Ascii.eqb a c then Some ("", s')
      else match split_once c s' with
           | Some (x, y) => Some (String a x, y)
           | None => None
           end
  end.

(** [s.count(c)] for one character. *)
Fixpoint count_char (c : ascii) (s : string) : nat :=
  match s with
  | "" => O
  | String a s' => if Ascii.eqb a c then S (count_char c s') else count_char c s'
  end.

(** [s.title()] *)
Fixpoint title_from (start : bool) (s : string) : string :=
  match s with
  | "" => ""
  | String c s' =>
      let letter := (is_upper c || is_lower c)%bool in
      String (if start then upper_char c else lower_char c) (title_from (negb letter) s')
  end.
Definition title (s : string) : string := title_from true s.

Lemma split_on_nonempty c s : split_on c s <> [].
Proof.
  destruct s as [|a s]; simpl; [done|]. destruct (Ascii.eqb a c); [done|].
  by destruct (split_on c s).
Qed.

(** Joining the pieces with the separator gives the text back. *)
Lemma split_on_app c a b :
  split_on c (a ++ String c b) = (split_on c a ++ split_on c b)%list.
Proof.
  induction a as [|x a IH]; simpl.
  - by rewrite Ascii.eqb_refl.
  - rewrite IH. destruct (Ascii.eqb x c); [done|].
    pose proof (split_on_nonempty c a). by destruct (split_on c a).
Qed.

Lemma split_once_Some c s x y : split_once c s = Some (x, y) -> s = x ++ String c y.
Proof.
  revert x. induction s as [|a s IH]; intros x; simpl; [done|].
  destruct (Ascii.eqb_spec a c) as [->|N].
  - by intros [= <- <-].
  - destruct (split_once c s) as [[u v]|]; [|done]. intros [= <- <-]. simpl. by rewrite <- (IH u).
Qed.

Lemma count_char_app c a b : count_char c (a ++ b) = (count_char c a + count_char c b)%nat.
Proof. induction a as [|x a IH]; simpl; [done|]. rewrite IH. by destruct (Ascii.eqb x c). Qed.

Lemma split_on_absent c s : count_char c s = O -> split_on c s = [s].
Proof.
  induction s as [|a s IH]; simpl; [done|]. destruct (Ascii.eqb a c); [done|].
  intros H. by rewrite IH.
Qed.

Lemma contains_char_absent c s : count_char c s = O -> contains (String c "") s = false.
Proof.
  unfold contains. induction s as [|a s IH]; simpl; [done|].
  rewrite (Ascii.eqb_sym c a). destruct (Ascii.eqb a c); [done|]. simpl. intros H. specialize (IH H).
  by destruct (sfind (String c "") s).
Qed.
