(* ===== verification/IpAddr.v ===== *)
(** * IP addresses and networks (the [ipaddress] module)

    What the access-control code uses of Python's [ipaddress]: parsing an
    address or a network in either version, membership, and the canonical text.
    [None] is the [ValueError] the callers catch. *)

From Stdlib Require Import Ascii Lia ZArith.
From stdpp Require Import base list strings.
From S2P Require Import Prelude PyText.

Local Open Scope string_scope.

(** An address: its version (4 or 6), its integer and, for version 6, the scope
    id written after a percent sign. *)
Record ip := mkIp { ip_version : Z; ip_int : Z; ip_scope : option string }.

#[global] Instance ip_eq_dec : EqDecision ip.
Proof. solve_decision. Defined.

Definition max_prefix (version : Z) : Z := if (version =? 4)%Z then 32 else 128.

(** ** Parsing *)

(** One octet of a dotted quad: ASCII digits, at most three, no leading zero. *)
Definition parse_octet (s : string) : option Z :=
  if (negb (String.eqb s "") && sforall is_digit s && (String.length s <=? 3)%nat
      && (String.eqb s "0" || negb (startswith "0" s)))%bool
  then let n := (span_digits s 0).1 in if (n <=? 255)%Z then Some n else None
  else None.

Definition parse_ipv4 (s : string) : option Z :=
  match split_on "." s with
  | [a; b; c; d] =>
      match parse_octet a, parse_octet b, parse_octet c, parse_octet d with
      | Some a, Some b, Some c, Some d => Some (((a * 256 + b) * 256 + c) * 256 + d)%Z
      | _, _, _, _ => None
      end
  | _ => None
  end.

Definition hex_value (c : ascii) : option Z :=
  let n := ord c in
  if is_digit c then Some (n - 48)%Z
  else if ((97 <=? n) && (n <=? 102))%Z%bool then Some (n - 87)%Z
  else if ((65 <=? n) && (n <=? 70))%Z%bool then Some (n - 55)%Z
  else None.

Fixpoint hex_number (s : string) (acc : Z) : option Z :=
  match s with
  | "" => Some acc
  | String c s' => match hex_value c with Some d => hex_number s' (16 * acc + d)%Z | None => None end
  end.

(** A group of a version-6 address: one to four hexadecimal digits. *)
Definition parse_hextet (s : string) : option Z :=
  if (String.eqb s "" || (4 <? String.length s)%nat)%bool then None else hex_number s 0.

(** A trailing dotted quad counts as two groups; groups as numbers. *)
Definition v6_parts (s : string) : option (list (string + Z)) :=
  let parts := split_on ":" s in
  if (length parts <? 3)%nat then None
  else
    let last := default "" (last parts) in
    if contains "." last then
      match parse_ipv4 last with
      | Some v => Some (map inl (removelast parts) ++ [inr (Z.shiftr v 16); inr (Z.land v 65535)])%list
      | None => None
      end
    else Some (map inl parts).

Definition part_empty (p : string + Z) : bool := match p with inl "" => true | _ => false end.

Definition part_value (p : string + Z) : option Z :=
  match p with inl s => parse_hextet s | inr v => Some v end.

Fixpoint groups_value (ps : list (string + Z)) (acc : Z) : option Z :=
  match ps with
  | [] => Some acc
  | p :: ps => match part_value p with Some h => groups_value ps (acc * 65536 + h)%Z | None => None end
  end.

(** The indices strictly between the ends whose part is empty. *)
Definition inner_empty (parts : list (string + Z)) : list nat :=
  filter (fun i => part_empty (nth i parts (inl "")) = true) (seq 1 (length parts - 2)).

Definition parse_ipv6_int (s : string) : option Z :=
  match v6_parts s with
  | None => None
  | Some parts =>
      let n := length parts in
      let first_empty := part_empty (nth 0 parts (inl "")) in
      let last_empty := part_empty (nth (n - 1) parts (inl "")) in
      if (9 <? n)%nat then None
      else match inner_empty parts with
      | [skip] =>
          let hi := (if first_empty then skip - 1 else skip)%nat in
          let lo := (if last_empty then n - skip - 2 else n - skip - 1)%nat in
          if (first_empty && negb (hi =? 0)%nat)%bool then None
          else if (last_empty && negb (lo =? 0)%nat)%bool then None
          else if (8 <=? hi + lo)%nat then None
          else match groups_value (take hi parts) 0 with
               | None => None
               | Some a => groups_value (drop (n - lo) parts) (a * 2 ^ (16 * Z.of_nat (8 - (hi + lo))))
               end
      | [] => if (negb (n =? 8)%nat || first_empty || last_empty)%bool then None
              else groups_value parts 0
      | _ => None
      end
  end.

(** [ipaddress.ip_address(s)] *)
Definition parse_ipv6 (s : string) : option ip :=
  if contains "/" s then None
  else match split_once "%" s with
       | None => match parse_ipv6_int s with Some n => Some (mkIp 6 n None) | None => None end
       | Some (a, scope) =>
           if (String.eqb scope "" || contains "%" scope)%bool then None
           else match parse_ipv6_int a with Some n => Some (mkIp 6 n (Some scope)) | None => None end
       end.

Definition ip_address (s : string) : option ip :=
  match (if contains "/" s then None else parse_ipv4 s) with
  | Some n => Some (mkIp 4 n None)
  | None => parse_ipv6 s
  end.

(** ** Networks *)

Record net := mkNet { net_version : Z; net_int : Z; net_prefixlen : Z; net_scope : option string }.

#[global] Instance net_eq_dec : EqDecision net.
Proof. solve_decision. Defined.

(** The netmask with [p] leading ones out of [w] bits. *)
Definition netmask (w p : Z) : Z := (2 ^ w - 2 ^ (w - p))%Z.

Definition parse_prefix (w : Z) (s : string) : option Z :=
  if (negb (String.eqb s "") && sforall is_digit s)%bool then
    let n := (span_digits s 0).1 in if (n <=? w)%Z then Some n else None
  else None.

(** The prefix length of a netmask, if it is one. *)
Definition prefix_of_mask (m : Z) : option Z :=
  head (filter (fun p => netmask 32 p = m) (map Z.of_nat (seq 0 33))).

(** The prefix part of a version-4 network: a length, a netmask or a hostmask. *)
Definition parse_mask4 (s : string) : option Z :=
  match parse_prefix 32 s with
  | Some p => Some p
  | None =>
      match parse_ipv4 s with
      | None => None
      | Some m => match prefix_of_mask m with
                  | Some p => Some p
                  | None => prefix_of_mask (Z.lxor m 4294967295)
                  end
      end
  end.

(** [network_address], masked down ([strict=False]). *)
Definition make_net (a : ip) (p : Z) : net :=
  let base := Z.land (ip_int a) (netmask (max_prefix (ip_version a)) p) in
  mkNet (ip_version a) base p (if (base =? ip_int a)%Z then ip_scope a else None).

(** [ipaddress.ip_network(s, strict=False)] *)
Definition ip_network (s : string) : option net :=
  match split_on "/" s with
  | [a] =>
      match ip_address a with Some x => Some (make_net x (max_prefix (ip_version x))) | None => None end
  | [a; m] =>
      match (match parse_ipv4 a, parse_mask4 m with
             | Some n, Some p => Some (make_net (mkIp 4 n None) p) | _, _ => None end) with
      | Some x => Some x
      | None => match parse_ipv6 a, parse_prefix 128 m with
                | Some x, Some p => Some (make_net x p) | _, _ => None end
      end
  | _ => None
  end.

(** [addr in net] *)
Definition in_net (a : ip) (n : net) : bool :=
  (ip_version a =? net_version n)%Z
  && (Z.land (ip_int a) (netmask (max_prefix (net_version n)) (net_prefixlen n)) =? net_int n)%Z.

Definition in_any (a : ip) (nets : list net) : bool := existsb (in_net a) nets.

(** ** Canonical text *)

Definition str_ipv4 (n : Z) : string :=
  str_of_Z (Z.land (Z.shiftr n 24) 255) ++ "." ++ str_of_Z (Z.land (Z.shiftr n 16) 255) ++ "."
  ++ str_of_Z (Z.land (Z.shiftr n 8) 255) ++ "." ++ str_of_Z (Z.land n 255).

(** [%x] *)
Definition hex_char (d : Z) : ascii := ascii_of_N (Z.to_N (if (d <? 10)%Z then 48 + d else 87 + d)).

Fixpoint hex_fuel (fuel : nat) (n : Z) (acc : string) : string :=
  match fuel with
  | O => acc
  | S f => let acc' := String (hex_char (n mod 16)%Z) acc in
           if (n <? 16)%Z then acc' else hex_fuel f (n / 16)%Z acc'
  end.
Definition hex_of_Z (n : Z) : string := hex_fuel (S (Z.to_nat (Z.log2 n))) n "".

Definition hextets (n : Z) : list Z :=
  map (fun i => Z.land (Z.shiftr n (16 * (7 - Z.of_nat i))) 65535) (seq 0 8).

(** The start and length of the first longest run of zero groups. *)
Fixpoint zero_runs (i : nat) (cur : option (nat * nat)) (best : nat * nat) (l : list Z) : nat * nat :=
  match l with
  | [] => best
  | h :: t =>
      if (h =? 0)%Z then
        let '(s, len) := default (i, O) cur in
        let len := S len in
        zero_runs (S i) (Some (s, len)) (if (best.2 <? len)%nat then (s, len) else best) t
      else zero_runs (S i) None best t
  end.

Fixpoint join_colon (l : list string) : string :=
  match l with
  | [] => ""
  | [x] => x
  | x :: l' => x ++ ":" ++ join_colon l'
  end.

Definition str_ipv6_int (n : Z) : string :=
  let hs := hextets n in
  let words := map hex_of_Z hs in
  let '(start, len) := zero_runs 0 None (O, O) hs in
  if (1 <? len)%nat then
    let stop := (start + len)%nat in
    let tail := if (stop =? 8)%nat then (drop stop words ++ [""])%list else drop stop words in
    let l := (take start words ++ [""] ++ tail)%list in
    join_colon (if (start =? 0)%nat then "" :: l else l)
  else join_colon words.

(** [str(addr)] *)
Definition str_ip (a : ip) : string :=
  if (ip_version a =? 4)%Z then str_ipv4 (ip_int a)
  else str_ipv6_int (ip_int a) ++ match ip_scope a with Some s => "%" ++ s | None => "" end.

(** [str(net)] *)
Definition str_net (n : net) : string :=
  str_ip (mkIp (net_version n) (net_int n) (net_scope n)) ++ "/" ++ str_of_Z (net_prefixlen n).

Example ip_examples :
  ip_address "192.0.2.9" = Some (mkIp 4 3221225993 None)
  /\ ip_address "192.0.2.09" = None /\ ip_address "1.2.3" = None /\ ip_address "unknown" = None
  /\ ip_address "::1" = Some (mkIp 6 1 None)
  /\ ip_address "::ffff:1.2.3.4" = Some (mkIp 6 281470698652420 None)
  /\ ip_address "1::2::3" = None /\ ip_address ":1:2" = None
  /\ (str_ip <$> ip_address "2001:DB8:0:0:1::0") = Some "2001:db8:0:0:1::"
  /\ (str_ip <$> ip_address "fe80::1%eth0") = Some "fe80::1%eth0"
  /\ (str_net <$> ip_network "192.0.2.77/24") = Some "192.0.2.0/24"
  /\ (str_net <$> ip_network "10.1.2.3/255.0.0.0") = Some "10.0.0.0/8"
  /\ (str_net <$> ip_network "::1/128") = Some "::1/128"
  /\ ip_network "10.0.0.0/33" = None.
Proof. repeat split; vm_compute; reflexivity. Qed.

(** ** Round trip of a version-4 address *)

Lemma octet_check :
  forallb (fun i => let s := str_of_Z (Z.of_nat i) in
     bool_decide (parse_octet s = Some (Z.of_nat i)) && bool_decide (split_on "." s = [s])
     && bool_decide (count_char "/" s = O)) (seq 0 256) = true.
Proof. by vm_compute. Qed.

Lemma octet_roundtrip k :
  (0 <= k < 256)%Z ->
  parse_octet (str_of_Z k) = Some k /\ split_on "." (str_of_Z k) = [str_of_Z k]
  /\ count_char "/" (str_of_Z k) = O.
Proof.
  intros H. pose proof octet_check as C. rewrite forallb_forall in C.
  specialize (C (Z.to_nat k)). rewrite Z2Nat.id in C by lia.
  assert (I : In (Z.to_nat k) (seq 0 256)) by (apply in_seq; lia). specialize (C I). cbv zeta in C.
  rewrite !andb_true_iff in C. destruct C as [[C1 C2] C3].
  by apply bool_decide_eq_true_1 in C1; apply bool_decide_eq_true_1 in C2; apply bool_decide_eq_true_1 in C3.
Qed.

Lemma byte_at_range n i : (0 <= i)%Z -> (0 <= Z.land (Z.shiftr n i) 255 < 256)%Z.
Proof.
  intros Hi. change 255%Z with (Z.ones 8). rewrite Z.land_ones by lia. apply Z.mod_pos_bound. lia.
Qed.

Lemma bytes_of_u32 n :
  (0 <= n < 2 ^ 32)%Z ->
  ((((Z.land (Z.shiftr n 24) 255) * 256 + Z.land (Z.shiftr n 16) 255) * 256
     + Z.land (Z.shiftr n 8) 255) * 256 + Z.land n 255)%Z = n.
Proof.
  intros H. change 255%Z with (Z.ones 8). rewrite !Z.land_ones, !Z.shiftr_div_pow2 by lia.
  change (2 ^ 8)%Z with 256%Z. change (2 ^ 24)%Z with 16777216%Z. change (2 ^ 16)%Z with 65536%Z.
  Z.to_euclidean_division_equations. lia.
Qed.

Lemma ipv4_roundtrip n : (0 <= n < 2 ^ 32)%Z -> parse_ipv4 (str_ipv4 n) = Some n.
Proof.
  intros H. unfold parse_ipv4, str_ipv4.
  destruct (octet_roundtrip _ (byte_at_range n 24 ltac:(lia))) as (P1 & S1 & _).
  destruct (octet_roundtrip _ (byte_at_range n 16 ltac:(lia))) as (P2 & S2 & _).
  destruct (octet_roundtrip _ (byte_at_range n 8 ltac:(lia))) as (P3 & S3 & _).
  pose proof (byte_at_range n 0 ltac:(lia)) as R4. rewrite Z.shiftr_0_r in R4.
  destruct (octet_roundtrip _ R4) as (P4 & S4 & _).
  cbn [String.append]. rewrite !split_on_app, S1, S2, S3, S4. cbn [app].
  rewrite P1, P2, P3, P4. f_equal. by apply bytes_of_u32.
Qed.

Lemma str_ipv4_no_slash n : count_char "/" (str_ipv4 n) = O.
Proof.
  unfold str_ipv4. rewrite !count_char_app.
  destruct (octet_roundtrip _ (byte_at_range n 24 ltac:(lia))) as (_ & _ & ->).
  destruct (octet_roundtrip _ (byte_at_range n 16 ltac:(lia))) as (_ & _ & ->).
  destruct (octet_roundtrip _ (byte_at_range n 8 ltac:(lia))) as (_ & _ & ->).
  pose proof (byte_at_range n 0 ltac:(lia)) as R4. rewrite Z.shiftr_0_r in R4.
  by destruct (octet_roundtrip _ R4) as (_ & _ & ->).
Qed.

Lemma ip_address_v4 n : (0 <= n < 2 ^ 32)%Z -> ip_address (str_ipv4 n) = Some (mkIp 4 n None).
Proof.
  intros H. unfold ip_address. rewrite contains_char_absent by apply str_ipv4_no_slash.
  by rewrite ipv4_roundtrip.
Qed.

Lemma land_full n : (0 <= n < 2 ^ 32)%Z -> Z.land n (netmask 32 32) = n.
Proof.
  intros H. change (netmask 32 32) with (Z.ones 32). rewrite Z.land_ones by lia. by apply Z.mod_small.
Qed.

(** A bare version-4 address is the network of just that address. *)
Lemma ip_network_v4 n : (0 <= n < 2 ^ 32)%Z -> ip_network (str_ipv4 n) = Some (mkNet 4 n 32 None).
Proof.
  intros H. unfold ip_network. rewrite split_on_absent by apply str_ipv4_no_slash.
  rewrite ip_address_v4 by done. unfold make_net. cbn [ip_version ip_int ip_scope].
  change (max_prefix 4) with 32%Z. rewrite land_full by done. by rewrite Z.eqb_refl.
Qed.
