(* ===== verification/Sha256.v ===== *)
(** * SHA-256 (the [hashlib.sha256] digest and its hexadecimal text)

    The digest of a byte string, on 32-bit words as integers below [2^32] with
    the wrap-around written out, and [_digest] of identity.py: the digest of a
    secret's UTF-8 bytes, as 64 hexadecimal characters. *)

From Stdlib Require Import Ascii Lia ZArith.
From stdpp Require Import base list strings.
From S2P Require Import Prelude PyText IpAddr.

Local Open Scope Z_scope.

Definition w32 (x : Z) : Z := Z.land x 4294967295.
Definition add32 (x y : Z) : Z := w32 (x + y).
Definition rotr (n x : Z) : Z := Z.lor (Z.shiftr x n) (w32 (Z.shiftl x (32 - n))).
Definition not32 (x : Z) : Z := Z.lxor x 4294967295.

Definition ch (x y z : Z) : Z := Z.lxor (Z.land x y) (Z.land (not32 x) z).
Definition maj (x y z : Z) : Z := Z.lxor (Z.lxor (Z.land x y) (Z.land x z)) (Z.land y z).
Definition bsig0 (x : Z) : Z := Z.lxor (Z.lxor (rotr 2 x) (rotr 13 x)) (rotr 22 x).
Definition bsig1 (x : Z) : Z := Z.lxor (Z.lxor (rotr 6 x) (rotr 11 x)) (rotr 25 x).
Definition ssig0 (x : Z) : Z := Z.lxor (Z.lxor (rotr 7 x) (rotr 18 x)) (Z.shiftr x 3).
Definition ssig1 (x : Z) : Z := Z.lxor (Z.lxor (rotr 17 x) (rotr 19 x)) (Z.shiftr x 10).

(** The constants: the first 32 bits of the fractional part of the cube roots
    (the round constants) and square roots (the initial state) of the first
    primes. *)
Fixpoint root_bits (k : Z) (bits : nat) (acc n : Z) : Z :=
  match bits with
  | O => acc
  | S b => let acc' := acc + Z.shiftl 1 (Z.of_nat b) in root_bits k b (if acc' ^ k <=? n then acc' else acc) n
  end.

Definition root_fraction (k p : Z) : Z := w32 (root_bits k 37 0 (Z.shiftl p (32 * k))).

Definition is_prime (n : Z) : bool := forallb (fun d => negb (n mod d =? 0)) (map Z.of_nat (seq 2 (Z.to_nat n - 2))).

Definition primes : list Z := Eval vm_compute in take 64 (List.filter is_prime (map Z.of_nat (seq 2 311))).

Definition K256 : list Z := Eval vm_compute in map (root_fraction 3) primes.

Definition H0 : list Z := Eval vm_compute in map (root_fraction 2) (take 8 primes).

(** [n] big-endian bytes of a number. *)
Fixpoint be_bytes (n : nat) (x : Z) : list Z :=
  match n with
  | O => []
  | S n' => Z.land (Z.shiftr x (8 * Z.of_nat n')) 255 :: be_bytes n' x
  end.

(** The message with its padding: a one bit, zeros, the length in bits. *)
Definition pad (msg : list Z) : list Z :=
  let n := Z.of_nat (length msg) in
  let zeros := Z.to_nat ((55 - n) mod 64) in
  (msg ++ [128] ++ repeat 0 zeros ++ be_bytes 8 (8 * n))%list.

Fixpoint words_of (bs : list Z) : list Z :=
  match bs with
  | a :: b :: c :: d :: rest => (((a * 256 + b) * 256 + c) * 256 + d) :: words_of rest
  | _ => []
  end.

(** The message schedule, kept newest first while it grows by [n] words. *)
Fixpoint extend_schedule (n : nat) (rev_w : list Z) : list Z :=
  match n with
  | O => rev_w
  | S n' =>
      let w2 := nth 1 rev_w 0 in let w7 := nth 6 rev_w 0 in
      let w15 := nth 14 rev_w 0 in let w16 := nth 15 rev_w 0 in
      extend_schedule n' (w32 (ssig1 w2 + w7 + ssig0 w15 + w16) :: rev_w)
  end.

Definition sha_round (st : list Z) (kw : Z * Z) : list Z :=
  match st with
  | [a; b; c; d; e; f; g; h] =>
      let t1 := w32 (h + bsig1 e + ch e f g + kw.1 + kw.2) in
      let t2 := w32 (bsig0 a + maj a b c) in
      [add32 t1 t2; a; b; c; add32 d t1; e; f; g]
  | _ => st
  end.

Definition sha_block (h block : list Z) : list Z :=
  let w := rev (extend_schedule 48 (rev block)) in
  zip_with add32 h (foldl sha_round h (zip K256 w)).

Fixpoint sha_blocks (fuel : nat) (h words : list Z) : list Z :=
  match fuel with
  | O => h
  | S f => match words with
           | [] => h
           | _ => sha_blocks f (sha_block h (take 16 words)) (drop 16 words)
           end
  end.

Definition sha256 (msg : list Z) : list Z :=
  let words := words_of (pad msg) in
  flat_map (be_bytes 4) (sha_blocks (S (length words)) H0 words).

Definition hexdigest (bs : list Z) : string :=
  foldr (fun b acc => String (hex_char (Z.shiftr b 4)) (String (hex_char (Z.land b 15)) acc)) EmptyString bs.

(** [s.encode("utf-8")] for code points below 256. *)
Fixpoint utf8_encode (s : string) : list Z :=
  match s with
  | EmptyString => []
  | String c s' =>
      let n := ord c in
      if n <? 128 then n :: utf8_encode s'
      else Z.lor 192 (Z.shiftr n 6) :: Z.lor 128 (Z.land n 63) :: utf8_encode s'
  end.

Definition _digest (secret : string) : string := hexdigest (sha256 (utf8_encode secret)).

Example sha256_abc :
  _digest "abc" = "ba7816bf8f01cfea414140de5dae2223b00361a396177a9cb410ff61f20015ad"%string.
Proof. by vm_compute. Qed.

Example sha256_two_blocks :
  _digest "abcdbcdecdefdefgefghfghighijhijkijkljklmklmnlmnomnopnopq"
  = "248d6a61d20638b8e5c026930c3e6039a33ce45964ff2167f6ecedd419db06c1"%string.
Proof. by vm_compute. Qed.

Lemma be_bytes_length n x : length (be_bytes n x) = n.
Proof. induction n as [|n IH]; simpl; [done|]. by rewrite IH. Qed.

Lemma sha_round_length st kw : length (sha_round st kw) = length st.
Proof. by repeat (destruct st as [|? st]; try done). Qed.

Lemma foldl_round_length l st : length (foldl sha_round st l) = length st.
Proof.
  revert st. induction l as [|x l IH]; intros st; simpl; [done|]. by rewrite IH, sha_round_length.
Qed.

Lemma sha_blocks_length f h w : length h = 8%nat -> length (sha_blocks f h w) = 8%nat.
Proof.
  revert h w. induction f as [|f IH]; intros h w H; simpl; [done|]. destruct w as [|x w]; [done|].
  apply IH. unfold sha_block. rewrite length_zip_with, foldl_round_length. lia.
Qed.

Lemma hexdigest_length bs : String.length (hexdigest bs) = (2 * length bs)%nat.
Proof. induction bs as [|b bs IH]; simpl; [done|]. rewrite IH. lia. Qed.

(** The text of a digest is always 64 characters. *)
Lemma digest_length s : String.length (_digest s) = 64%nat.
Proof.
  unfold _digest, sha256. rewrite hexdigest_length.
  assert (H : length (sha_blocks (S (length (words_of (pad (utf8_encode s))))) H0 (words_of (pad (utf8_encode s)))) = 8%nat)
    by by apply sha_blocks_length.
  revert H. generalize (sha_blocks (S (length (words_of (pad (utf8_encode s))))) H0 (words_of (pad (utf8_encode s)))).
  intros l H. do 9 (destruct l as [|? l]; [by try discriminate|]). done.
Qed.

#[global] Opaque _digest.
