(* ===== verification/Config.v ===== *)
(** * Priorities, bands and the configuration records (config.py)

    The five priorities and their parser [LLMPriority.coerce], the three
    scheduling bands, endpoint-name normalisation, the capacity arithmetic of
    [EndpointConfig], and [ProxyConfig.agent_config], which inserts a default
    record for a caller it has never seen. *)

From Stdlib Require Import QArith Ascii Lia ZArith.
From stdpp Require Import base list strings.
From S2P Require Import Prelude PyDict PyText.

Local Open Scope string_scope.

(** ** LLMPriority *)

Inductive LLMPriority :=
| P0_REALTIME
| P1_TURN_SUPPORT
| P2_POST_TURN
| P3_INGESTION
| P4_HYGIENE.

#[global] Instance LLMPriority_eq_dec : EqDecision LLMPriority.
Proof. solve_decision. Defined.

(** [int(p)] *)
Definition prio_int (p : LLMPriority) : Z :=
  match p with
  | P0_REALTIME => 0
  | P1_TURN_SUPPORT => 1
  | P2_POST_TURN => 2
  | P3_INGESTION => 3
  | P4_HYGIENE => 4
  end.

(** [p.name] *)
Definition prio_name (p : LLMPriority) : string :=
  match p with
  | P0_REALTIME => "P0_REALTIME"
  | P1_TURN_SUPPORT => "P1_TURN_SUPPORT"
  | P2_POST_TURN => "P2_POST_TURN"
  | P3_INGESTION => "P3_INGESTION"
  | P4_HYGIENE => "P4_HYGIENE"
  end.

(** [cls._value2member_map_] *)
Definition prio_of_int (n : Z) : option LLMPriority :=
  match n with
  | 0 => Some P0_REALTIME
  | 1 => Some P1_TURN_SUPPORT
  | 2 => Some P2_POST_TURN
  | 3 => Some P3_INGESTION
  | 4 => Some P4_HYGIENE
  | _ => None
  end%Z.

(** [cls.__members__] *)
Definition prio_members : dict string LLMPriority :=
  map (fun p => (prio_name p, p))
    [P0_REALTIME; P1_TURN_SUPPORT; P2_POST_TURN; P3_INGESTION; P4_HYGIENE].

Definition prio_aliases : dict string LLMPriority :=
  [("realtime", P0_REALTIME);
   ("turn", P1_TURN_SUPPORT);
   ("turn_support", P1_TURN_SUPPORT);
   ("post_turn", P2_POST_TURN);
   ("ingestion", P3_INGESTION);
   ("hygiene", P4_HYGIENE);
   ("background", P3_INGESTION);
   ("interactive", P1_TURN_SUPPORT);
   ("foreground", P2_POST_TURN)].

(** The values [coerce] is called with. *)
Inductive PrioValue :=
| PV_member (p : LLMPriority)
| PV_none
| PV_bool (b : bool)
| PV_int (n : Z)
| PV_str (s : string).

(** [re.match(r"^p(\d+)(?:[_-]|$)", s)], with the group's integer value. *)
Definition match_p_label (s : string) : option Z :=
  match s with
  | String "p" rest =>
      match rest with
      | String c _ =>
          if is_digit c then
            let '(n, tl) := span_digits rest 0 in
            match tl with
            | "" => Some n
            | String "_" _ | String "-" _ => Some n
            | _ => None
            end
          else None
      | "" => None
      end
  | _ => None
  end.

(** The tail of [coerce], on the text form of the value. *)
Definition coerce_text (value : string) (default : option LLMPriority) : res LLMPriority :=
  let text := strip value in
  match dget prio_members text with
  | Some p => Ret p
  | None =>
  match dget prio_members (upper text) with
  | Some p => Ret p
  | None =>
  let lowered := lower text in
  match dget prio_aliases lowered with
  | Some p => Ret p
  | None =>
  match (match match_p_label lowered with
         | Some n => prio_of_int n
         | None => None
         end) with
  | Some p => Ret p
  | None =>
  match default with
  | Some p => Ret p
  | None => Raise ValueError
  end end end end end.

Definition coerce (value : PrioValue) (default : option LLMPriority) : res LLMPriority :=
  match value with
  | PV_member p => Ret p
  | PV_none => Ret (from_option id P1_TURN_SUPPORT default)
  | PV_bool b => coerce_text (if b then "True" else "False") default
  | PV_int n =>
      match prio_of_int n with
      | Some p => Ret p
      | None =>
          match prio_of_int (Z.max 0 (Z.min n 4)) with
          | Some p => Ret p
          | None => Raise ValueError
          end
      end
  | PV_str s => coerce_text s default
  end.

(** ** PriorityBand *)

Inductive PriorityBand :=
| INTERACTIVE
| FOREGROUND
| BACKGROUND.

#[global] Instance PriorityBand_eq_dec : EqDecision PriorityBand.
Proof. solve_decision. Defined.

(** [for band in PriorityBand] *)
Definition all_bands : list PriorityBand := [INTERACTIVE; FOREGROUND; BACKGROUND].

Definition priority_to_band (p : LLMPriority) : PriorityBand :=
  if (prio_int p <=? prio_int P1_TURN_SUPPORT)%Z then INTERACTIVE
  else if (prio_int p <=? prio_int P2_POST_TURN)%Z then FOREGROUND
  else BACKGROUND.

Definition band_rank (b : PriorityBand) : Z :=
  match b with INTERACTIVE => 0 | FOREGROUND => 1 | BACKGROUND => 2 end.

(** ** normalize_endpoint *)

(** [ROLE_TO_CLASS] is built from the model catalog; it is a parameter here. *)
Definition normalize_endpoint (role_to_class : dict string string) (endpoint : string) : string :=
  let text := lower (strip endpoint) in
  match dget role_to_class text with
  | Some cls => cls
  | None => text
  end.

(** ** EndpointConfig *)

(** The fields the modelled code reads, in the order of the source: identity
    and capacity at the head of the class, then failover, goodput thresholds,
    spill and the slot policy.  The fields that shape backend requests are left
    out. *)
Record EndpointConfig := {
  endpoint_class : string;
  role : string;
  max_slots : Z;
  context_per_slot : Z;
  min_expected_slots : Z;
  failover_to : string;
  goodput_min_running : Z;
  goodput_sustain_evaluations : Z;
  goodput_max_iteration_rate : Q;
  goodput_max_generation_tps : Q;
  goodput_max_prefill_tps : Q;
  goodput_recovery_evaluations : Z;
  goodput_max_hold_s : Q;
  goodput_busy_min : Q;
  failover_dwell_s : Q;
  spill_to : string;
  background_floor_pct : Q;
  fast_path_reserve_slots : Z;
  dispatch_concurrency_cap : Z;
}.

Definition effective_max_slots (c : EndpointConfig) : Z :=
  if (0 <? dispatch_concurrency_cap c)%Z
  then Z.min (max_slots c) (dispatch_concurrency_cap c)
  else max_slots c.

Definition background_floor_slots (c : EndpointConfig) : Z :=
  Z.max 1 (Qtrunc (inject_Z (max_slots c) * background_floor_pct c)).

Definition background_cap_slots (c : EndpointConfig) : Z :=
  let cap :=
    if ((0 <? fast_path_reserve_slots c) && (0 <? effective_max_slots c))%Z%bool
    then (effective_max_slots c - fast_path_reserve_slots c)%Z
    else background_floor_slots c in
  Z.max (background_floor_slots c) cap.

(** ** AgentQuotaConfig and ProxyConfig *)

Record AgentQuotaConfig := {
  aq_agent_id : string;
  weight : Q;
  max_balance_ss : Q;
  default_priority : LLMPriority;
  degrade_ok : bool;
  spill_ok : bool;
  daily_spend_usd : option Q;
  requests_per_minute : option Q;
  content_no_store : bool;
}.

(** [AgentQuotaConfig(agent_id=...)] with the dataclass defaults. *)
Definition default_agent (agent_id : string) : AgentQuotaConfig :=
  {| aq_agent_id := agent_id;
     weight := 1;
     max_balance_ss := 60;
     default_priority := P1_TURN_SUPPORT;
     degrade_ok := false;
     spill_ok := false;
     daily_spend_usd := None;
     requests_per_minute := None;
     content_no_store := false |}.

Record ProxyConfig := {
  endpoints : dict string EndpointConfig;
  agents : dict string AgentQuotaConfig;
}.

Definition total_fleet_slots (c : ProxyConfig) : Z :=
  foldr Z.add 0%Z (map (fun e => max_slots e.2) (endpoints c)).

(** [agent_config] inserts the default record before returning it. *)
Definition agent_config (c : ProxyConfig) (agent_id : string) : AgentQuotaConfig * ProxyConfig :=
  match dget (agents c) agent_id with
  | Some a => (a, c)
  | None =>
      let a := default_agent agent_id in
      (a, {| endpoints := endpoints c; agents := dset (agents c) agent_id a |})
  end.

(** The record a lookup would see, without the insertion. *)
Definition agent_view (c : ProxyConfig) (agent_id : string) : AgentQuotaConfig :=
  from_option id (default_agent agent_id) (dget (agents c) agent_id).

(** ** Facts *)

Lemma prio_of_int_int p : prio_of_int (prio_int p) = Some p.
Proof. by destruct p. Qed.

Lemma prio_of_int_inv n p : prio_of_int n = Some p -> prio_int p = n.
Proof.
  intros H. destruct n as [|q|q]; simpl in H; [by simplify_eq| |done].
  do 3 (destruct q as [q|q|]; simpl in H; try done; try by simplify_eq).
Qed.

Lemma prio_of_int_range n : (0 <= n <= 4)%Z -> exists p, prio_of_int n = Some p.
Proof.
  intros H. assert (n = 0 \/ n = 1 \/ n = 2 \/ n = 3 \/ n = 4)%Z as D by lia.
  destruct D as [->|[->|[->|[->| ->]]]]; simpl; eauto.
Qed.

Lemma prio_int_inj p q : prio_int p = prio_int q -> p = q.
Proof. by destruct p, q. Qed.

Lemma prio_int_range p : (0 <= prio_int p <= 4)%Z.
Proof. destruct p; simpl; lia. Qed.

(** With a default, parsing a text always produces a priority. *)
Lemma coerce_text_default s d : exists p, coerce_text s (Some d) = Ret p.
Proof.
  unfold coerce_text. repeat case_match; eauto.
Qed.

Lemma coerce_int_clamps n d :
  exists p, coerce (PV_int n) d = Ret p /\ prio_int p = Z.max 0 (Z.min n 4).
Proof.
  simpl. destruct (prio_of_int n) as [p|] eqn:E.
  - exists p. split; [done|]. apply prio_of_int_inv in E. pose proof (prio_int_range p). lia.
  - destruct (prio_of_int_range (Z.max 0 (Z.min n 4))) as [p Hp]; [lia|].
    exists p. rewrite Hp. split; [done|]. by apply prio_of_int_inv.
Qed.

Lemma coerce_total v d : exists p, coerce v (Some d) = Ret p.
Proof.
  destruct v as [p| |b|n|s]; simpl; eauto using coerce_text_default.
  destruct (coerce_int_clamps n (Some d)) as (p & H & _). eauto.
Qed.

Lemma priority_to_band_mono p q :
  (prio_int p <= prio_int q)%Z ->
  (band_rank (priority_to_band p) <= band_rank (priority_to_band q))%Z.
Proof. destruct p, q; simpl; lia. Qed.

Lemma background_floor_ge_1 c : (1 <= background_floor_slots c)%Z.
Proof. unfold background_floor_slots. lia. Qed.

Lemma background_cap_ge_floor c : (background_floor_slots c <= background_cap_slots c)%Z.
Proof. unfold background_cap_slots. lia. Qed.

Lemma effective_le_max c : (effective_max_slots c <= max_slots c)%Z.
Proof. unfold effective_max_slots. case_match; lia. Qed.

Lemma agent_config_fst c a : (agent_config c a).1 = agent_view c a.
Proof. unfold agent_config, agent_view. by case_match. Qed.

Lemma agent_config_endpoints c a : endpoints (agent_config c a).2 = endpoints c.
Proof. unfold agent_config. by case_match. Qed.

Lemma agent_view_default c a b : agent_view (agent_config c a).2 b = agent_view c b.
Proof.
  unfold agent_config, agent_view. destruct (dget (agents c) a) eqn:E; [done|]. simpl.
  rewrite dget_dset. case_decide; [|done]. subst. by rewrite E.
Qed.

#[export] Hint Rewrite agent_config_fst agent_config_endpoints agent_view_default : roadstead.

(** ** Properties *)

(** [coerce] never raises when the request path passes its default: every
    value, however malformed, yields one of the five priorities. *)
Theorem coerce_soft_default_total (v : PrioValue) (d : LLMPriority) :
  exists p, coerce v (Some d) = Ret p.
Proof.
  apply coerce_total.
Qed.
