(* ===== verification/Budget.v ===== *)
(** * Deficit-round-robin budgets (agent_budget.py)

    [AgentBudget] with its three methods, and [BudgetManager]: creation,
    reweighting, pruning, replenishment, charging, the retroactive adjustment
    and the DRR pick with its starvation escape. *)

From Stdlib Require Import QArith Lqa Lia ZArith.
From stdpp Require Import base list strings relations.
From S2P Require Import Prelude PyDict.

Local Open Scope Q_scope.

(** ** AgentBudget *)

Record AgentBudget := {
  agent_id : string;
  ab_weight : Q;
  replenish_rate : Q;
  max_balance : Q;
  balance : Q;
  total_consumed : Q;
  total_requests : Z;
  last_replenish_at : Q;
  last_active_at : Q;
  negative_since : Q;
}.

Definition with_balance (b : AgentBudget) (bal consumed neg : Q) : AgentBudget :=
  {| agent_id := agent_id b; ab_weight := ab_weight b; replenish_rate := replenish_rate b;
     max_balance := max_balance b; balance := bal; total_consumed := consumed;
     total_requests := total_requests b; last_replenish_at := last_replenish_at b;
     last_active_at := last_active_at b; negative_since := neg |}.

Definition with_rate (r : Q) (b : AgentBudget) : AgentBudget :=
  {| agent_id := agent_id b; ab_weight := ab_weight b; replenish_rate := r;
     max_balance := max_balance b; balance := balance b; total_consumed := total_consumed b;
     total_requests := total_requests b; last_replenish_at := last_replenish_at b;
     last_active_at := last_active_at b; negative_since := negative_since b |}.

(** [AgentBudget.charge] *)
Definition charge (b : AgentBudget) (cost_ss now : Q) : AgentBudget :=
  let bal := balance b - cost_ss in
  {| agent_id := agent_id b; ab_weight := ab_weight b; replenish_rate := replenish_rate b;
     max_balance := max_balance b;
     balance := bal;
     total_consumed := total_consumed b + cost_ss;
     total_requests := (total_requests b + 1)%Z;
     last_replenish_at := last_replenish_at b;
     last_active_at := now;
     negative_since :=
       if Qltb bal 0 && Qeq_bool (negative_since b) 0 then now else negative_since b |}.

(** [AgentBudget.refund] *)
Definition refund (b : AgentBudget) (delta_ss : Q) : AgentBudget :=
  let bal := balance b + delta_ss in
  with_balance b bal (total_consumed b - delta_ss)
    (if Qle_bool 0 bal then 0 else negative_since b).

Definition is_starving (b : AgentBudget) (now starvation_timeout_s : Q) : bool :=
  if Qeq_bool (negative_since b) 0 then false
  else Qle_bool starvation_timeout_s (now - negative_since b).

(** ** BudgetManager *)

Record BudgetManager := {
  bm_agents : dict string AgentBudget;
  bm_starvation_timeout_s : Q;
  bm_total_capacity : Q;
  bm_last_waits : dict string (Q * Q);
}.

Definition with_agents (m : BudgetManager) (ags : dict string AgentBudget) : BudgetManager :=
  {| bm_agents := ags; bm_starvation_timeout_s := bm_starvation_timeout_s m;
     bm_total_capacity := bm_total_capacity m; bm_last_waits := bm_last_waits m |}.

Definition total_weight (m : BudgetManager) : Q :=
  qsum (map ab_weight (dvals (bm_agents m))).

(** [_recalculate_rates] *)
Definition recalculate_rates (m : BudgetManager) : BudgetManager :=
  match bm_agents m with
  | [] => m
  | _ =>
      if Qle_bool (bm_total_capacity m) 0 then m
      else
        let tw := total_weight m in
        if Qle_bool tw 0 then m
        else with_agents m
               (dmap (fun b => with_rate (bm_total_capacity m * (ab_weight b / tw)) b) (bm_agents m))
  end.

(** [get_or_create(agent_id, weight=, max_balance=, now=)] *)
Definition new_budget (aid : string) (weight max_bal now : Q) : AgentBudget :=
  {| agent_id := aid; ab_weight := weight; replenish_rate := 0; max_balance := max_bal;
     balance := 0; total_consumed := 0; total_requests := 0;
     last_replenish_at := now; last_active_at := now; negative_since := 0 |}.

Definition get_or_create (m : BudgetManager) (aid : string) (weight max_bal now : Q) : BudgetManager :=
  match dget (bm_agents m) aid with
  | Some _ => m
  | None => recalculate_rates
              (with_agents m (dset (bm_agents m) aid (new_budget aid weight max_bal now)))
  end.

Definition reweight (m : BudgetManager) (aid : string) (weight max_bal : option Q)
  : bool * BudgetManager :=
  match dget (bm_agents m) aid with
  | None => (false, m)
  | Some b =>
      let b' :=
        {| agent_id := agent_id b;
           ab_weight := from_option id (ab_weight b) weight;
           replenish_rate := replenish_rate b;
           max_balance := from_option id (max_balance b) max_bal;
           balance := balance b; total_consumed := total_consumed b;
           total_requests := total_requests b; last_replenish_at := last_replenish_at b;
           last_active_at := last_active_at b; negative_since := negative_since b |} in
      (true, recalculate_rates (with_agents m (dset (bm_agents m) aid b')))
  end.

Definition remove (m : BudgetManager) (aid : string) : BudgetManager :=
  recalculate_rates (with_agents m (ddel (bm_agents m) aid)).

(** The condition of [prune_idle]: [b.last_active_at and (now - ...) > ttl]. *)
Definition idle (now idle_ttl_s : Q) (b : AgentBudget) : bool :=
  negb (Qeq_bool (last_active_at b) 0) && Qltb idle_ttl_s (now - last_active_at b).

Definition prune_idle (m : BudgetManager) (now idle_ttl_s : Q) : list string * BudgetManager :=
  let stale := map fst (filter (fun kb => Is_true (idle now idle_ttl_s kb.2)) (bm_agents m)) in
  match stale with
  | [] => ([], m)
  | _ => (stale, recalculate_rates (with_agents m (ddel_all (bm_agents m) stale)))
  end.

Definition set_total_capacity (m : BudgetManager) (total_slots : Q) : BudgetManager :=
  recalculate_rates
    {| bm_agents := bm_agents m; bm_starvation_timeout_s := bm_starvation_timeout_s m;
       bm_total_capacity := total_slots; bm_last_waits := bm_last_waits m |}.

(** The body of the [replenish] loop for one budget. *)
Definition replenish1 (now : Q) (b : AgentBudget) : AgentBudget :=
  let elapsed := now - last_replenish_at b in
  let stamped bal neg :=
    {| agent_id := agent_id b; ab_weight := ab_weight b; replenish_rate := replenish_rate b;
       max_balance := max_balance b; balance := bal; total_consumed := total_consumed b;
       total_requests := total_requests b; last_replenish_at := now;
       last_active_at := last_active_at b; negative_since := neg |} in
  if Qle_bool elapsed 0 then stamped (balance b) (negative_since b)
  else
    let credit := replenish_rate b * elapsed in
    let bal := pymin (max_balance b) (balance b + credit) in
    stamped bal (if Qle_bool 0 bal then 0 else negative_since b).

Definition replenish (m : BudgetManager) (now : Q) : BudgetManager :=
  with_agents m (dmap (replenish1 now) (bm_agents m)).

(** [BudgetManager.charge] *)
Definition bm_charge (m : BudgetManager) (aid : string) (cost_ss now : Q) : BudgetManager :=
  match dget (bm_agents m) aid with
  | Some b => with_agents m (dset (bm_agents m) aid (charge b cost_ss now))
  | None => m
  end.

Definition adjust (b : AgentBudget) (estimated actual : Q) : AgentBudget :=
  let delta := estimated - actual in
  if Qltb 0 delta then refund b delta
  else if Qltb delta 0 then
    with_balance b (balance b + delta) (total_consumed b - delta) (negative_since b)
  else b.

Definition retroactive_adjust (m : BudgetManager) (aid : string) (estimated actual : Q)
  : BudgetManager :=
  match dget (bm_agents m) aid with
  | Some b => with_agents m (dset (bm_agents m) aid (adjust b estimated actual))
  | None => m
  end.

(** *** pick_agent *)

(** [max(l, key=lambda t: t[0])]: the first pair with the greatest first
    component. *)
Fixpoint max_pair (best : Q * string) (l : list (Q * string)) : Q * string :=
  match l with
  | [] => best
  | p :: l' => max_pair (if Qltb best.1 p.1 then p else best) l'
  end.

(** [wait_by_agent.get(a, 0.0)] *)
Definition wait_of (waits : dict string Q) (a : string) : Q :=
  from_option id 0 (dget waits a).

Definition starving_candidates (timeout : Q) (waits : dict string Q) (cands : list string)
  : list (Q * string) :=
  map (fun a => (wait_of waits a, a))
    (filter (fun a => Is_true (Qle_bool timeout (wait_of waits a))) cands).

Definition score (b : AgentBudget) : Q :=
  if Qltb 0 (ab_weight b) then balance b / ab_weight b else balance b.

(** The scoring loop; [None] is the initial [(None, -inf)]. *)
Fixpoint best_scored (ags : dict string AgentBudget) (best : option (Q * string))
    (cands : list string) : option (Q * string) :=
  match cands with
  | [] => best
  | a :: rest =>
      match dget ags a with
      | None => best_scored ags best rest
      | Some b =>
          let s := score b in
          let best' := match best with
                       | None => Some (s, a)
                       | Some (s0, a0) => if Qltb s0 s then Some (s, a) else Some (s0, a0)
                       end in
          best_scored ags best' rest
      end
  end.

(** [self._last_waits[a] = (w, now)] for every observed wait. *)
Definition note_waits (m : BudgetManager) (waits : dict string Q) (now : Q) : BudgetManager :=
  {| bm_agents := bm_agents m; bm_starvation_timeout_s := bm_starvation_timeout_s m;
     bm_total_capacity := bm_total_capacity m;
     bm_last_waits := foldl (fun lw kw => dset lw kw.1 (kw.2, now)) (bm_last_waits m) waits |}.

Definition pick_agent (m : BudgetManager) (cands : list string) (now : Q) (waits : dict string Q)
  : option string * BudgetManager :=
  match cands with
  | [] => (None, m)
  | _ =>
      let m' := match waits with [] => m | _ => note_waits m waits now end in
      let starving := match waits with
                      | [] => []
                      | _ => starving_candidates (bm_starvation_timeout_s m) waits cands
                      end in
      match starving with
      | p :: ps => (Some (max_pair p ps).2, m')
      | [] => (snd <$> best_scored (bm_agents m) None cands, m')
      end
  end.

(** The [starving] field of [snapshot]: a head-of-queue wait at or past the
    timeout, observed within the last 15 seconds. *)
Definition reported_starving (m : BudgetManager) (now : Q) (aid : string) : bool :=
  match dget (bm_last_waits m) aid with
  | Some (w, at_) => Qle_bool (now - at_) 15 && Qle_bool (bm_starvation_timeout_s m) w
  | None => false
  end.

(** ** Lemmas on single budgets *)

Lemma replenish1_cap now b :
  last_replenish_at b < now -> balance (replenish1 now b) <= max_balance b.
Proof.
  intros H. unfold replenish1. destruct (Qleb_spec (now - last_replenish_at b) 0); simpl; [lra|].
  apply pymin_le_l.
Qed.

Lemma replenish1_mono now b :
  0 <= replenish_rate b -> balance b <= max_balance b ->
  balance b <= balance (replenish1 now b).
Proof.
  intros Hr Hm. unfold replenish1.
  destruct (Qleb_spec (now - last_replenish_at b) 0) as [|Hlt]; simpl; [lra|].
  apply pymin_glb; [done|].
  assert (0 <= replenish_rate b * (now - last_replenish_at b)) by (apply Qmult_le_0_compat; lra).
  lra.
Qed.

(** With room under the cap the credit is exactly rate times elapsed time. *)
Lemma replenish1_uncapped now b :
  last_replenish_at b <= now ->
  balance b + replenish_rate b * (now - last_replenish_at b) <= max_balance b ->
  balance (replenish1 now b) == balance b + replenish_rate b * (now - last_replenish_at b).
Proof.
  intros Hn Hc. unfold replenish1.
  destruct (Qleb_spec (now - last_replenish_at b) 0) as [Hle|Hlt]; simpl.
  - assert (now - last_replenish_at b == 0) as -> by lra. lra.
  - unfold pymin. qcases; lra.
Qed.

Lemma adjust_balance b est act : balance (adjust b est act) == balance b + (est - act).
Proof. unfold adjust. qcases; simpl; lra. Qed.

Lemma adjust_consumed b est act :
  total_consumed (adjust b est act) == total_consumed b - (est - act).
Proof. unfold adjust. qcases; simpl; lra. Qed.

Lemma adjust_requests b est act : total_requests (adjust b est act) = total_requests b.
Proof. unfold adjust. by qcases. Qed.

(** The stamp [negative_since] is non-zero only while the balance is negative. *)
Definition stamp_ok (b : AgentBudget) : Prop :=
  ~ negative_since b == 0 -> balance b < 0.

(** What can happen to one budget: the operations and their arguments. *)
Inductive budget_step : AgentBudget -> AgentBudget -> Prop :=
| bs_charge b cost now : 0 <= cost -> budget_step b (charge b cost now)
| bs_adjust b est act : budget_step b (adjust b est act)
| bs_replenish b now : budget_step b (replenish1 now b)
| bs_rate b r : budget_step b (with_rate r b).

Lemma stamp_ok_charge b cost now : 0 <= cost -> stamp_ok b -> stamp_ok (charge b cost now).
Proof.
  unfold stamp_ok, charge. simpl. intros Hc H.
  destruct (Qltb_spec (balance b - cost) 0); simpl; [by intros|].
  intros N. specialize (H N). lra.
Qed.

Lemma stamp_ok_adjust b est act : stamp_ok b -> stamp_ok (adjust b est act).
Proof.
  unfold stamp_ok, adjust, refund. intros H.
  destruct (Qltb_spec 0 (est - act)); [|destruct (Qltb_spec (est - act) 0)]; simpl; [|intros N; specialize (H N); lra|done].
  destruct (Qleb_spec 0 (balance b + (est - act))); [|done]. intros N. exfalso. by apply N.
Qed.

Lemma stamp_ok_replenish b now : stamp_ok b -> stamp_ok (replenish1 now b).
Proof.
  unfold stamp_ok, replenish1. intros H.
  destruct (Qleb_spec (now - last_replenish_at b) 0); simpl; [done|].
  destruct (Qleb_spec 0 (pymin (max_balance b) (balance b + replenish_rate b * (now - last_replenish_at b))));
    [|done]. intros N. exfalso. by apply N.
Qed.

Lemma stamp_ok_step b b' : budget_step b b' -> stamp_ok b -> stamp_ok b'.
Proof.
  destruct 1; eauto using stamp_ok_charge, stamp_ok_adjust, stamp_ok_replenish.
Qed.

(** ** Lemmas on the manager *)

Definition same_but_rate (b b' : AgentBudget) : Prop := b' = with_rate (replenish_rate b') b.

Lemma same_but_rate_refl b : same_but_rate b b.
Proof. by destruct b. Qed.

Lemma with_rate_same r b : same_but_rate b (with_rate r b).
Proof. done. Qed.

Lemma recalculate_cases m :
  recalculate_rates m = m \/
  (0 < bm_total_capacity m /\ 0 < total_weight m /\
   recalculate_rates m =
     with_agents m (dmap (fun b => with_rate (bm_total_capacity m * (ab_weight b / total_weight m)) b)
                      (bm_agents m))).
Proof.
  unfold recalculate_rates. destruct (bm_agents m) as [|p l]; [by left|].
  destruct (Qleb_spec (bm_total_capacity m) 0); [by left|].
  destruct (Qleb_spec (total_weight m) 0); [by left|]. by right.
Qed.

Lemma recalculate_keys m : dkeys (bm_agents (recalculate_rates m)) = dkeys (bm_agents m).
Proof.
  destruct (recalculate_cases m) as [->|(_ & _ & ->)]; [done|]. apply dkeys_dmap.
Qed.

(** Recomputing rates changes nothing but rates. *)
Lemma recalculate_get m a :
  option_Forall2 same_but_rate (dget (bm_agents m) a) (dget (bm_agents (recalculate_rates m)) a).
Proof.
  destruct (recalculate_cases m) as [->|(_ & _ & ->)].
  - destruct (dget _ a); constructor. apply same_but_rate_refl.
  - cbn [bm_agents with_agents]. rewrite dget_dmap. destruct (dget _ a); constructor.
    apply with_rate_same.
Qed.

Lemma recalculate_other m :
  bm_starvation_timeout_s (recalculate_rates m) = bm_starvation_timeout_s m /\
  bm_total_capacity (recalculate_rates m) = bm_total_capacity m /\
  bm_last_waits (recalculate_rates m) = bm_last_waits m.
Proof. by destruct (recalculate_cases m) as [->|(_ & _ & ->)]. Qed.

Definition bm_wf (m : BudgetManager) : Prop := dwf (bm_agents m).

Lemma bm_wf_recalculate m : bm_wf m -> bm_wf (recalculate_rates m).
Proof. unfold bm_wf, dwf. by rewrite recalculate_keys. Qed.

(** Whether a caller has a budget, across the operations. *)
Definition has_budget (m : BudgetManager) (a : string) : Prop := is_Some (dget (bm_agents m) a).

Lemma has_budget_recalculate m a : has_budget (recalculate_rates m) a <-> has_budget m a.
Proof.
  unfold has_budget. pose proof (recalculate_get m a) as H.
  inversion H; split; intros [? ?]; simplify_eq; eauto.
Qed.

Lemma has_budget_get_or_create m a w mb now a' :
  has_budget (get_or_create m a w mb now) a' <-> a' = a \/ has_budget m a'.
Proof.
  unfold get_or_create. destruct (dget (bm_agents m) a) eqn:E.
  - split; [by right|]. intros [->|?]; [|done]. unfold has_budget. rewrite E. eauto.
  - rewrite has_budget_recalculate. unfold has_budget. cbn [bm_agents with_agents].
    rewrite dget_dset. case_decide as D; split; eauto; intros [H|H]; simplify_eq; eauto.
Qed.

Lemma has_budget_charge m a c now a' : has_budget (bm_charge m a c now) a' <-> has_budget m a'.
Proof.
  unfold bm_charge, has_budget. destruct (dget (bm_agents m) a) eqn:E; [|done].
  cbn [bm_agents with_agents]. rewrite dget_dset. case_decide; [|done]. subst.
  rewrite E. split; eauto.
Qed.

Lemma has_budget_replenish m now a : has_budget (replenish m now) a <-> has_budget m a.
Proof.
  unfold replenish, has_budget. cbn [bm_agents with_agents]. rewrite dget_dmap.
  destruct (dget _ a); simpl; split; intros [? ?]; eauto; done.
Qed.

(** *** pick_agent *)

Lemma max_pair_spec best l :
  (max_pair best l = best \/ max_pair best l ∈ l) /\
  best.1 <= (max_pair best l).1 /\ Forall (fun p => p.1 <= (max_pair best l).1) l.
Proof.
  revert best. induction l as [|p l IH]; intros best; simpl.
  - split_and!; [by left|lra|constructor].
  - destruct (IH (if Qltb best.1 p.1 then p else best)) as (Hin & Hb & Hl).
    destruct (Qltb_spec best.1 p.1).
    + split_and!; [|lra|by constructor].
      destruct Hin as [->|Hin]; right; [by left|by right].
    + split_and!; [|done|constructor; [lra|done]].
      destruct Hin as [->|Hin]; [by left|right; by right].
Qed.

Lemma best_scored_spec ags cands best :
  match best_scored ags best cands with
  | None => best = None /\ Forall (fun a => dget ags a = None) cands
  | Some (s, a) =>
      (best = Some (s, a) \/ (a ∈ cands /\ exists b, dget ags a = Some b /\ score b = s)) /\
      (forall s0 a0, best = Some (s0, a0) -> s0 <= s) /\
      (forall a' b', a' ∈ cands -> dget ags a' = Some b' -> score b' <= s)
  end.
Proof.
  revert best. induction cands as [|c cands IH]; intros best; simpl.
  - destruct best as [[s a]|]; [|by split].
    split_and!; [by left|intros; simplify_eq; lra|intros ?? H; by apply not_elem_of_nil in H].
  - destruct (dget ags c) as [b|] eqn:E.
    + set (best' := match best with
                    | None => Some (score b, c)
                    | Some (s0, a0) => if Qltb s0 (score b) then Some (score b, c) else Some (s0, a0)
                    end).
      assert (exists s1 a1, best' = Some (s1, a1) /\ score b <= s1 /\
                (best = Some (s1, a1) \/ (a1 = c /\ score b = s1)) /\
                (forall s0 a0, best = Some (s0, a0) -> s0 <= s1)) as (s1 & a1 & Hb & Hs & Hor & Hle).
      { subst best'. destruct best as [[s0 a0]|].
        - destruct (Qltb_spec s0 (score b)).
          + exists (score b), c. split_and!; [done|lra|by right|]. intros; simplify_eq; lra.
          + exists s0, a0. split_and!; [done|lra|by left|]. intros; simplify_eq; lra.
        - exists (score b), c. split_and!; [done|lra|by right|done]. }
      specialize (IH best'). rewrite Hb in *.
      destruct (best_scored ags (Some (s1, a1)) cands) as [[s a]|]; [|by destruct IH].
      destruct IH as (Hin & Hge & Hall). specialize (Hge _ _ eq_refl). split_and!.
      * destruct Hin as [?|[? ?]]; simplify_eq.
        -- destruct Hor as [->|[-> <-]]; [by left|right].
           split; [by left|]. eauto.
        -- right. split; [by right|done].
      * intros s0 a0 H0. specialize (Hle _ _ H0). lra.
      * intros a' b' [->|H']%elem_of_cons Hd; [|eauto]. simplify_eq. lra.
    + specialize (IH best). destruct (best_scored ags best cands) as [[s a]|].
      * destruct IH as (Hin & Hge & Hall). split_and!; [|done|].
        -- destruct Hin as [->|[? ?]]; [by left|right]. split; [by right|done].
        -- intros a' b' [->|H']%elem_of_cons Hd; [congruence|eauto].
      * destruct IH as [-> HF]. split; [done|by constructor].
Qed.

Lemma wait_of_nil a : wait_of [] a = 0.
Proof. done. Qed.

Lemma starving_elem timeout waits cands p :
  p ∈ starving_candidates timeout waits cands <->
  p.2 ∈ cands /\ p.1 = wait_of waits p.2 /\ timeout <= p.1.
Proof.
  unfold starving_candidates. rewrite list_elem_of_fmap. split.
  - intros (a & -> & [H1 H2]%list_elem_of_filter). simpl. split_and!; [done|done|].
    apply Is_true_true in H1. by apply Qle_bool_iff.
  - destruct p as [w a]. simpl. intros (H1 & -> & H2). exists a. split; [done|].
    apply list_elem_of_filter. split; [|done]. apply Is_true_true. by apply Qle_bool_iff.
Qed.

Lemma starving_nil timeout waits cands :
  starving_candidates timeout waits cands = [] <->
  forall a, a ∈ cands -> wait_of waits a < timeout.
Proof.
  split.
  - intros H a Ha. apply Qnot_le_lt. intros C.
    assert ((wait_of waits a, a) ∈ starving_candidates timeout waits cands) as I
      by (by apply starving_elem).
    rewrite H in I. by apply not_elem_of_nil in I.
  - intros H. destruct (starving_candidates timeout waits cands) as [|p l] eqn:E; [done|].
    assert (p ∈ starving_candidates timeout waits cands) as I by (rewrite E; by left).
    apply starving_elem in I as (I & Ew & Hw). specialize (H _ I). rewrite <- Ew in H. lra.
Qed.

(** The pick when nobody has waited past the timeout. *)
Lemma pick_agent_scored m cands now waits :
  (forall a, a ∈ cands -> wait_of waits a < bm_starvation_timeout_s m) ->
  (pick_agent m cands now waits).1 = snd <$> best_scored (bm_agents m) None cands.
Proof.
  intros H. unfold pick_agent. destruct cands as [|c cands]; [done|].
  destruct waits as [|w waits]; [done|].
  apply starving_nil in H. by rewrite H.
Qed.

Lemma pick_agent_agents m cands now waits :
  bm_agents (pick_agent m cands now waits).2 = bm_agents m /\
  bm_starvation_timeout_s (pick_agent m cands now waits).2 = bm_starvation_timeout_s m /\
  bm_total_capacity (pick_agent m cands now waits).2 = bm_total_capacity m.
Proof. unfold pick_agent. destruct cands, waits; repeat case_match; done. Qed.

Lemma pick_agent_elem m cands now waits p :
  (pick_agent m cands now waits).1 = Some p -> p ∈ cands.
Proof.
  unfold pick_agent. destruct cands as [|c cands]; [done|].
  set (st := match waits with [] => [] | _ => _ end).
  assert (forall q, q ∈ st -> q.2 ∈ c :: cands) as Hst.
  { subst st. destruct waits; [by intros q ?%not_elem_of_nil|]. intros q Hq.
    by apply starving_elem in Hq as [? _]. }
  destruct st as [|q qs]; simpl.
  - intros H. apply fmap_Some in H as ([s a] & Hb & ->).
    pose proof (best_scored_spec (bm_agents m) (c :: cands) None) as Sp.
    unfold fmap in *. simpl in Hb. simpl in Sp. rewrite Hb in Sp.
    destruct Sp as ([?|[? _]] & _); [done|done].
  - intros H. simplify_eq. destruct (max_pair_spec q qs) as [[->|I] _]; apply Hst; [by left|by right].
Qed.

(** A pick exists as soon as one candidate has a budget. *)
Lemma pick_agent_Some m cands now waits a :
  a ∈ cands -> has_budget m a -> is_Some (pick_agent m cands now waits).1.
Proof.
  intros Ha [b Hb]. unfold pick_agent. destruct cands as [|c cands]; [by apply not_elem_of_nil in Ha|].
  case_match; [|simpl; eauto]. simpl.
  pose proof (best_scored_spec (bm_agents m) (c :: cands) None) as Sp. simpl in Sp.
  case_match; [eauto|]. destruct Sp as [_ F].
  rewrite Forall_forall in F. specialize (F _ Ha). congruence.
Qed.

(** ** Spread of weight-normalised balances *)

Definition spread_le (m : BudgetManager) (cands : list string) (D : Q) : Prop :=
  forall a a' b b', a ∈ cands -> a' ∈ cands ->
    dget (bm_agents m) a = Some b -> dget (bm_agents m) a' = Some b' ->
    score b - score b' <= D.

(** Callers that share the fleet: weights at least [wmin], rates proportional
    to weights (what [recalculate_rates] establishes), one replenish clock. *)
Definition share_ok (m : BudgetManager) (cands : list string) (wmin : Q) : Prop :=
  exists k t, forall a, a ∈ cands -> exists b, dget (bm_agents m) a = Some b /\
    wmin <= ab_weight b /\ replenish_rate b == k * ab_weight b /\ last_replenish_at b = t.

(** One scheduling action on a set of callers that all stay backlogged. *)
Inductive drr_step (cands : list string) (cmax : Q) : BudgetManager -> BudgetManager -> Prop :=
| drr_serve m now waits p cost :
    (forall a, a ∈ cands -> wait_of waits a < bm_starvation_timeout_s m) ->
    (pick_agent m cands now waits).1 = Some p ->
    0 <= cost <= cmax ->
    drr_step cands cmax m (bm_charge (pick_agent m cands now waits).2 p cost now)
| drr_replenish m now :
    (forall a b, a ∈ cands -> dget (bm_agents m) a = Some b ->
       last_replenish_at b <= now /\
       balance b + replenish_rate b * (now - last_replenish_at b) <= max_balance b) ->
    drr_step cands cmax m (replenish m now).

Lemma score_charge b cost now :
  0 < ab_weight b -> score (charge b cost now) == score b - cost / ab_weight b.
Proof.
  intros H. unfold score, charge. simpl. destruct (Qltb_spec 0 (ab_weight b)); [|lra].
  field. lra.
Qed.

Lemma charge_get m p cost now a :
  dget (bm_agents (bm_charge m p cost now)) a =
  if decide (p = a) then (fun b => charge b cost now) <$> dget (bm_agents m) a
  else dget (bm_agents m) a.
Proof.
  unfold bm_charge. destruct (dget (bm_agents m) p) as [b|] eqn:E.
  - cbn [bm_agents with_agents]. rewrite dget_dset. case_decide; subst; [by rewrite E|done].
  - case_decide; subst; [by rewrite E|done].
Qed.

(** Serving the best-scored caller cannot widen the spread past one charge. *)
Lemma serve_spread cands m p cost now b D :
  p ∈ cands -> dget (bm_agents m) p = Some b -> 0 < ab_weight b -> 0 <= cost ->
  (forall a' b', a' ∈ cands -> dget (bm_agents m) a' = Some b' -> score b' <= score b) ->
  cost / ab_weight b <= D -> spread_le m cands D ->
  spread_le (bm_charge m p cost now) cands D.
Proof.
  intros Hp Hb Hw Hc Hmax HD Hs a a' x x' Ha Ha'. rewrite !charge_get.
  assert (0 <= cost / ab_weight b) by (apply Qle_shift_div_l; lra).
  pose proof (score_charge b cost now Hw) as Hsc.
  destruct (decide (p = a)) as [<-|], (decide (p = a')) as [<-|]; intros E E'; rewrite ?Hb in *;
    simpl in *; simplify_eq.
  - lra.
  - specialize (Hs p a' b x' Hp Ha' Hb E'). lra.
  - specialize (Hmax a x Ha E). lra.
  - eauto.
Qed.

Lemma replenish_spread cands m now wmin D :
  0 < wmin -> share_ok m cands wmin ->
  (forall a b, a ∈ cands -> dget (bm_agents m) a = Some b ->
       last_replenish_at b <= now /\
       balance b + replenish_rate b * (now - last_replenish_at b) <= max_balance b) ->
  spread_le m cands D -> spread_le (replenish m now) cands D.
Proof.
  intros Hw (k & t & Hok) Hcap Hs a a' x x' Ha Ha'.
  unfold replenish. cbn [bm_agents with_agents]. rewrite !dget_dmap.
  destruct (Hok a Ha) as (b & Eb & Wb & Rb & Tb). destruct (Hok a' Ha') as (b' & Eb' & Wb' & Rb' & Tb').
  rewrite Eb, Eb'. simpl. intros ??; simplify_eq.
  assert (forall c, c ∈ cands -> forall y, dget (bm_agents m) c = Some y -> wmin <= ab_weight y ->
            replenish_rate y == k * ab_weight y -> last_replenish_at y = last_replenish_at b' ->
            score (replenish1 now y) == score y + k * (now - last_replenish_at b')) as Hshift.
  { intros c Hc y Ey Wy Ry Ty. destruct (Hcap c y Hc Ey) as [Hn Hroom].
    pose proof (replenish1_uncapped now y Hn Hroom) as Hbal.
    unfold score. assert (ab_weight (replenish1 now y) = ab_weight y) as ->.
    { unfold replenish1. by case_match. }
    destruct (Qltb_spec 0 (ab_weight y)); [|lra].
    rewrite Hbal, Ry, Ty. field. lra. }
  rewrite (Hshift a Ha b), (Hshift a' Ha' b') by (done || congruence).
  specialize (Hs a a' b b' Ha Ha' Eb Eb'). lra.
Qed.

Lemma share_ok_charge m cands wmin p cost now :
  share_ok m cands wmin -> share_ok (bm_charge m p cost now) cands wmin.
Proof.
  intros (k & t & H). exists k, t. intros a Ha. destruct (H a Ha) as (b & Eb & ? & ? & ?).
  rewrite charge_get, Eb. case_decide; simpl; eauto 6.
Qed.

Lemma share_ok_agents m m' cands wmin :
  bm_agents m = bm_agents m' -> share_ok m cands wmin -> share_ok m' cands wmin.
Proof. unfold share_ok. by intros ->. Qed.

Lemma share_ok_replenish m cands wmin now :
  share_ok m cands wmin -> share_ok (replenish m now) cands wmin.
Proof.
  intros (k & t & H). exists k, now. intros a Ha. destruct (H a Ha) as (b & Eb & ? & ? & ?).
  unfold replenish. cbn [bm_agents with_agents]. rewrite dget_dmap, Eb. simpl.
  exists (replenish1 now b). unfold replenish1. by case_match.
Qed.

Lemma drr_step_fair cands cmax wmin D m m' :
  0 < wmin -> cmax / wmin <= D ->
  drr_step cands cmax m m' -> share_ok m cands wmin /\ spread_le m cands D ->
  share_ok m' cands wmin /\ spread_le m' cands D.
Proof.
  intros Hw HD St [Hok Hs]. destruct St as [m now waits p cost Hst Hp [Hc0 Hc]|m now Hcap].
  - destruct (pick_agent_agents m cands now waits) as (Ha & _ & _).
    pose proof (pick_agent_elem _ _ _ _ _ Hp) as Hpin.
    pose proof Hok as (k & t & Hall). destruct (Hall p Hpin) as (b & Eb & Wb & _ & _).
    split; [eapply share_ok_charge, share_ok_agents; [symmetry; exact Ha|done]|].
    apply (serve_spread cands _ p cost now b); rewrite ?Ha; try done; try lra.
    + rewrite pick_agent_scored in Hp by done.
      pose proof (best_scored_spec (bm_agents m) cands None) as Sp.
      destruct (best_scored _ None cands) as [[s q]|]; simpl in Hp; simplify_eq.
      destruct Sp as (Hin & _ & Hmax). destruct Hin as [?|(_ & b0 & E0 & <-)]; [done|].
      simplify_eq. eauto.
    + assert (cost / ab_weight b <= cmax / wmin); [|lra].
      apply Qle_shift_div_l; [done|].
      apply Qle_trans with (cost / ab_weight b * ab_weight b).
      * rewrite !(Qmult_comm (cost / ab_weight b)). apply Qmult_le_compat_r; [done|].
        apply Qle_shift_div_l; lra.
      * rewrite Qmult_comm, Qmult_div_r by lra. done.
    + intros a a' x x' Ia Ia' Ex Ex'. rewrite Ha in Ex, Ex'. eauto.
  - split; [by apply share_ok_replenish|]. by eapply replenish_spread.
Qed.

(** ** Properties *)

(** C18 Deficit-round-robin fairness: whatever sequence of picks, charges (each
    at most [cmax]) and uncapped replenishments the manager performs on callers
    that all stay backlogged and unstarved, the weight-normalised balances of any two of them stay within
    [D] of each other, for every [D] at least one maximal charge divided by the
    smallest weight. *)
Theorem drr_spread_bounded cands cmax wmin D m m' :
  0 < wmin -> cmax / wmin <= D ->
  share_ok m cands wmin -> spread_le m cands D ->
  rtc (drr_step cands cmax) m m' ->
  share_ok m' cands wmin /\ spread_le m' cands D.
Proof.
  intros Hw HD Hok Hs Hrun. assert (share_ok m cands wmin /\ spread_le m cands D) as H by done.
  clear Hok Hs. induction Hrun as [|m1 m2 m3 H12 _ IH]; [done|].
  apply IH. by eapply drr_step_fair.
Qed.

(** Charging a dispatch at its estimate and adjusting it to the measured
    duration on completion debits exactly the measured duration, whichever way
    the estimate was wrong, counts one request, and touches no other caller. *)
Theorem charge_adjust_nets_actual m aid b est act now :
  dget (bm_agents m) aid = Some b ->
  exists b', dget (bm_agents (retroactive_adjust (bm_charge m aid est now) aid est act)) aid = Some b' /\
    balance b' == balance b - act /\
    total_consumed b' == total_consumed b + act /\
    total_requests b' = (total_requests b + 1)%Z /\
    forall other, other <> aid ->
      dget (bm_agents (retroactive_adjust (bm_charge m aid est now) aid est act)) other =
      dget (bm_agents m) other.
Proof.
  intros E. unfold retroactive_adjust, bm_charge. rewrite E. cbn [bm_agents with_agents].
  rewrite dget_dset_eq. cbn [bm_agents with_agents]. rewrite dget_dset_eq.
  eexists. split; [done|]. rewrite adjust_balance, adjust_consumed, adjust_requests. simpl.
  split_and!; [lra|lra|done|]. intros other N. by rewrite !dget_dset_ne by done.
Qed.

(** The replenishment rates split the fleet capacity: each caller's rate is
    capacity times its share of the total weight, and the rates sum to the
    capacity. *)
Theorem rates_partition_capacity m :
  0 < bm_total_capacity m -> 0 < total_weight m ->
  (forall a b, dget (bm_agents (recalculate_rates m)) a = Some b ->
     replenish_rate b == bm_total_capacity m * (ab_weight b / total_weight m)) /\
  qsum (map replenish_rate (dvals (bm_agents (recalculate_rates m)))) == bm_total_capacity m.
Proof.
  intros Hc Hw. assert (bm_agents m <> []) as Hne.
  { intros E. unfold total_weight in Hw. rewrite E in Hw. simpl in Hw. lra. }
  assert (recalculate_rates m =
     with_agents m (dmap (fun b => with_rate (bm_total_capacity m * (ab_weight b / total_weight m)) b)
                      (bm_agents m))) as ->.
  { unfold recalculate_rates. destruct (bm_agents m) eqn:E; [done|].
    destruct (Qleb_spec (bm_total_capacity m) 0); [lra|].
    by destruct (Qleb_spec (total_weight m) 0); [lra|]. }
  cbn [bm_agents with_agents]. split.
  - intros a b. rewrite dget_dmap. destruct (dget _ a); simpl; intros; [|done].
    simplify_eq. simpl. lra.
  - rewrite dvals_dmap, map_map. cbn [replenish_rate with_rate].
    transitivity (bm_total_capacity m / total_weight m *
                  qsum (map ab_weight (dvals (bm_agents m)))); [|unfold total_weight in *; field; lra].
    rewrite <- qsum_scale, map_map. induction (dvals (bm_agents m)) as [|x l IH]; simpl; [lra|].
    rewrite IH. field. lra.
Qed.

(** Denial of service is rescued: when some candidate's head-of-queue wait
    has reached the starvation timeout, the pick is a candidate that has, and
    no candidate has waited longer, whatever the balances are. *)
Theorem pick_agent_rescues_starving m cands now waits a :
  waits <> [] -> a ∈ cands -> bm_starvation_timeout_s m <= wait_of waits a ->
  exists p, (pick_agent m cands now waits).1 = Some p /\ p ∈ cands /\
    bm_starvation_timeout_s m <= wait_of waits p /\
    forall a', a' ∈ cands -> wait_of waits a' <= wait_of waits p.
Proof.
  intros Hw Ha Hs. unfold pick_agent. destruct cands as [|c cands]; [by apply not_elem_of_nil in Ha|].
  destruct waits as [|w0 waits]; [done|].
  set (st := starving_candidates _ _ _).
  assert ((wait_of (w0 :: waits) a, a) ∈ st) as I by (by apply starving_elem).
  destruct st as [|q qs] eqn:E; [by apply not_elem_of_nil in I|].
  destruct (max_pair_spec q qs) as (Hin & Hq & Hqs).
  assert (max_pair q qs ∈ st) as Hmem.
  { rewrite E. destruct Hin as [->|?]; [by left|by right]. }
  apply starving_elem in Hmem as (Hc & Hwt & Hto). exists (max_pair q qs).2. simpl.
  split_and!; [done|done|by rewrite <- Hwt|]. intros a' Ha'. rewrite <- Hwt.
  destruct (Qlt_le_dec (wait_of (w0 :: waits) a') (bm_starvation_timeout_s m)) as [|Hge]; [lra|].
  assert ((wait_of (w0 :: waits) a', a') ∈ st) as I' by (by apply starving_elem).
  rewrite E in I'. apply elem_of_cons in I' as [<-|I']; [done|].
  rewrite Forall_forall in Hqs. by apply (Hqs _ I').
Qed.

(** Without starvation the pick is the candidate with the greatest
    weight-normalised balance among those that have a budget; there is no pick
    exactly when no candidate has one. *)
Theorem pick_agent_is_argmax m cands now waits :
  (forall a, a ∈ cands -> wait_of waits a < bm_starvation_timeout_s m) ->
  match (pick_agent m cands now waits).1 with
  | Some p => p ∈ cands /\ exists b, dget (bm_agents m) p = Some b /\
      forall a' b', a' ∈ cands -> dget (bm_agents m) a' = Some b' -> score b' <= score b
  | None => forall a, a ∈ cands -> dget (bm_agents m) a = None
  end.
Proof.
  intros H. rewrite pick_agent_scored by done.
  pose proof (best_scored_spec (bm_agents m) cands None) as Sp.
  destruct (best_scored _ None cands) as [[s p]|]; simpl.
  - destruct Sp as ([?|(Hp & b & Eb & <-)] & _ & Hmax); [done|]. eauto.
  - destruct Sp as [_ F]. by rewrite Forall_forall in F.
Qed.

(** The [negative_since] stamp is sound through every operation on a budget:
    a budget the balance-health signal reports as starving has a negative
    balance. *)
Theorem is_starving_sound b b' now timeout :
  negative_since b == 0 -> rtc budget_step b b' ->
  is_starving b' now timeout = true -> balance b' < 0.
Proof.
  intros H0 Hrun Hst. assert (stamp_ok b) as Hok by (intros N; by destruct N).
  assert (stamp_ok b') as Hok'.
  { clear H0 Hst. induction Hrun; [done|]. eauto using stamp_ok_step. }
  apply Hok'. unfold is_starving in Hst. by destruct (Qeqb_spec (negative_since b') 0).
Qed.

(** Pruning evicts exactly the idle callers and leaves every other budget's
    balance, weight and cap alone. *)
Lemma prune_idle_exact m now ttl a :
  bm_wf m ->
  match dget (bm_agents m) a with
  | None => dget (bm_agents (prune_idle m now ttl).2) a = None
  | Some b =>
      if idle now ttl b
      then a ∈ (prune_idle m now ttl).1 /\ dget (bm_agents (prune_idle m now ttl).2) a = None
      else exists b', dget (bm_agents (prune_idle m now ttl).2) a = Some b' /\ same_but_rate b b'
  end.
Proof.
  intros W. unfold prune_idle.
  set (stale := map fst _).
  assert (forall x, x ∈ stale <-> exists b, dget (bm_agents m) x = Some b /\ idle now ttl b = true) as Hst.
  { intros x. subst stale. rewrite list_elem_of_fmap. split.
    - intros ([k b] & -> & [H1 H2]%list_elem_of_filter). exists b.
      split; [by apply elem_dget|by apply Is_true_true in H1].
    - intros (b & Hb & Hi). exists (x, b). split; [done|]. apply list_elem_of_filter.
      split; [by apply Is_true_true|by apply dget_elem]. }
  assert (forall x, dget (bm_agents m) x = None -> x ∉ stale) as Hno.
  { intros x Hx Hin. apply Hst in Hin as (b & Hb & _). congruence. }
  assert (forall x, option_Forall2 same_but_rate
            (if decide (x ∈ stale) then None else dget (bm_agents m) x)
            (dget (bm_agents (match stale with [] => ([], m) | _ => (stale,
               recalculate_rates (with_agents m (ddel_all (bm_agents m) stale))) end).2) x)) as Hget.
  { intros x. destruct stale as [|y ys] eqn:E.
    - rewrite decide_False by apply not_elem_of_nil. simpl. destruct (dget _ x); constructor.
      apply same_but_rate_refl.
    - rewrite <- E in *. cbn [snd]. rewrite <- dget_ddel_all by done.
      apply (recalculate_get (with_agents m (ddel_all (bm_agents m) stale))). }
  specialize (Hget a). destruct (dget (bm_agents m) a) as [b|] eqn:Eb.
  - destruct (idle now ttl b) eqn:Ei.
    + assert (a ∈ stale) as Hin by (apply Hst; eauto). rewrite decide_True in Hget by done.
      split; [|by inversion Hget]. clear Hget. destruct stale; [by apply not_elem_of_nil in Hin|done].
    + rewrite decide_False in Hget; [by inversion Hget; eauto|].
      intros (b1 & ? & ?)%Hst. congruence.
  - rewrite decide_False in Hget by auto. by inversion Hget.
Qed.

(** A caller evicted as idle and seen again starts from balance zero: unless
    its idle balance was zero it is not recreated at the state it left. *)
Theorem prune_recreate_resets_balance m now ttl a b w mb now' :
  bm_wf m -> dget (bm_agents m) a = Some b -> idle now ttl b = true ->
  exists b', dget (bm_agents (get_or_create (prune_idle m now ttl).2 a w mb now')) a = Some b' /\
    balance b' = 0.
Proof.
  intros W Hb Hi. pose proof (prune_idle_exact m now ttl a W) as H. rewrite Hb, Hi in H.
  destruct H as [_ Hn]. unfold get_or_create. rewrite Hn.
  pose proof (recalculate_get (with_agents (prune_idle m now ttl).2
    (dset (bm_agents (prune_idle m now ttl).2) a (new_budget a w mb now'))) a) as R.
  cbn [bm_agents with_agents] in R. rewrite dget_dset_eq in R.
  inversion R as [b0 b' Hs E1 E2|]. eexists. split; [by symmetry|]. rewrite Hs. done.
Qed.

(** ** Witnesses *)

Definition demo_budget (aid : string) (w bal : Q) : AgentBudget :=
  {| agent_id := aid; ab_weight := w; replenish_rate := 1 * w; max_balance := 60;
     balance := bal; total_consumed := 0; total_requests := 0;
     last_replenish_at := 0; last_active_at := 1; negative_since := 0 |}.

(** Two callers, weights 1 and 3, on a fleet of four slots. *)
Definition demo_bm : BudgetManager :=
  {| bm_agents := [("a"%string, demo_budget "a" 1 0); ("b"%string, demo_budget "b" 3 0)];
     bm_starvation_timeout_s := 30; bm_total_capacity := 4; bm_last_waits := [] |}.

Definition demo_cands : list string := ["a"%string; "b"%string].

Definition demo_waits : dict string Q := [("a"%string, 2); ("b"%string, 3)].

Lemma demo_share_ok : share_ok demo_bm demo_cands 1.
Proof.
  exists 1, 0. intros a [->|[->|H%not_elem_of_nil]%elem_of_cons]%elem_of_cons; [| |done];
    (eexists; split; [reflexivity|]); simpl; split_and!; [lra|lra|done|lra|lra|done].
Defined.

Lemma demo_spread : spread_le demo_bm demo_cands 8.
Proof.
  intros a a' b b' [->|[->|H%not_elem_of_nil]%elem_of_cons]%elem_of_cons
    [->|[->|H'%not_elem_of_nil]%elem_of_cons]%elem_of_cons E E'; try done;
    simpl in E, E'; simplify_eq; vm_compute; congruence.
Defined.

Lemma drr_spread_bounded_witness :
  let m1 := bm_charge (pick_agent demo_bm demo_cands 1 demo_waits).2 "a" 5 1 in
  share_ok (replenish m1 2) demo_cands 1 /\ spread_le (replenish m1 2) demo_cands 8.
Proof.
  intros m1. apply (drr_spread_bounded demo_cands 8 1 8 demo_bm (replenish m1 2)).
  - lra.
  - vm_compute. congruence.
  - apply demo_share_ok.
  - apply demo_spread.
  - eapply rtc_l; [|eapply rtc_once].
    + apply (drr_serve demo_cands 8 demo_bm 1 demo_waits "a" 5).
      * intros a [->|[->|H%not_elem_of_nil]%elem_of_cons]%elem_of_cons; [reflexivity|reflexivity|done].
      * reflexivity.
      * split; vm_compute; congruence.
    + apply drr_replenish.
      intros a b [->|[->|H%not_elem_of_nil]%elem_of_cons]%elem_of_cons E; try done;
        vm_compute in E; simplify_eq; split; vm_compute; congruence.
Defined.

Lemma charge_adjust_nets_actual_witness :
  exists b', dget (bm_agents (retroactive_adjust (bm_charge demo_bm "b" 5 1) "b" 5 7)) "b"%string = Some b' /\
    balance b' == 0 - 7 /\ total_consumed b' == 0 + 7 /\ total_requests b' = 1%Z /\
    forall other, other <> "b"%string ->
      dget (bm_agents (retroactive_adjust (bm_charge demo_bm "b" 5 1) "b" 5 7)) other =
      dget (bm_agents demo_bm) other.
Proof. apply (charge_adjust_nets_actual demo_bm "b" (demo_budget "b" 3 0) 5 7 1). reflexivity. Defined.

Lemma rates_partition_capacity_witness :
  (forall a b, dget (bm_agents (recalculate_rates demo_bm)) a = Some b ->
     replenish_rate b == 4 * (ab_weight b / total_weight demo_bm)) /\
  qsum (map replenish_rate (dvals (bm_agents (recalculate_rates demo_bm)))) == 4.
Proof. apply (rates_partition_capacity demo_bm); reflexivity. Defined.

Lemma pick_agent_rescues_starving_witness :
  exists p, (pick_agent demo_bm demo_cands 50 [("a"%string, 31); ("b"%string, 40)]).1 = Some p /\
    p ∈ demo_cands /\ 30 <= wait_of [("a"%string, 31); ("b"%string, 40)] p /\
    forall a', a' ∈ demo_cands ->
      wait_of [("a"%string, 31); ("b"%string, 40)] a' <= wait_of [("a"%string, 31); ("b"%string, 40)] p.
Proof.
  apply (pick_agent_rescues_starving demo_bm demo_cands 50 [("a"%string, 31); ("b"%string, 40)] "a").
  - done.
  - by left.
  - vm_compute. congruence.
Defined.

Lemma pick_agent_is_argmax_witness :
  (pick_agent demo_bm demo_cands 1 demo_waits).1 = Some "a"%string /\
  "a"%string ∈ demo_cands /\ exists b, dget (bm_agents demo_bm) "a"%string = Some b /\
    forall a' b', a' ∈ demo_cands -> dget (bm_agents demo_bm) a' = Some b' -> score b' <= score b.
Proof.
  split; [reflexivity|]. apply (pick_agent_is_argmax demo_bm demo_cands 1 demo_waits).
  intros a [->|[->|H%not_elem_of_nil]%elem_of_cons]%elem_of_cons; [reflexivity|reflexivity|done].
Defined.

Lemma is_starving_sound_witness :
  balance (charge (demo_budget "a" 1 0) 5 1) < 0.
Proof.
  apply (is_starving_sound (demo_budget "a" 1 0) (charge (demo_budget "a" 1 0) 5 1) 40 30).
  - reflexivity.
  - apply rtc_once, bs_charge. vm_compute. congruence.
  - reflexivity.
Defined.

Lemma prune_recreate_resets_balance_witness :
  exists b', dget (bm_agents (get_or_create (prune_idle
      (with_agents demo_bm [("a"%string, demo_budget "a" 1 60)]) 4000 3600).2 "a" 1 60 4001)) "a"%string = Some b' /\
    balance b' = 0.
Proof.
  apply (prune_recreate_resets_balance (with_agents demo_bm [("a"%string, demo_budget "a" 1 60)])
           4000 3600 "a" (demo_budget "a" 1 60)).
  - apply NoDup_singleton.
  - reflexivity.
  - reflexivity.
Defined.
