(* ===== verification/Json.v ===== *)
(** * JSON values as Python sees them

    The payloads the proxy carries, with the Python operations the modelled
    code applies to them: truth value, numeric reading, [float()], [str()] and
    [json.dumps].  A float carries its [repr] beside its value; NaN and the
    infinities are outside the model. *)

From Stdlib Require Import QArith Ascii Lia ZArith.
From stdpp Require Import base list strings sorting.
From S2P Require Import Prelude PyDict PyText.

Local Open Scope string_scope.

#[warnings="-register-all"]
Inductive json :=
| JNull
| JBool (b : bool)
| JInt (n : Z)
| JFloat (repr : string) (q : Q)
| JStr (s : string)
| JList (l : list json)
| JDict (d : list (string * json)).

(** [bool(x)] *)
Definition truthy (j : json) : bool :=
  match j with
  | JNull => false
  | JBool b => b
  | JInt n => negb (n =? 0)%Z
  | JFloat _ q => negb (Qeq_bool q 0)
  | JStr s => negb (String.eqb s "")
  | JList l => match l with [] => false | _ => true end
  | JDict d => match d with [] => false | _ => true end
  end.

(** [payload.get(k)]: a missing key reads as [None]. *)
Definition jget (d : dict string json) (k : string) : json :=
  from_option id JNull (dget d k).

(** The value of a Python number; a bool is an int. *)
Definition py_number (j : json) : option Q :=
  match j with
  | JBool b => Some (if b then 1 else 0)%Q
  | JInt n => Some (inject_Z n)
  | JFloat _ q => Some q
  | _ => None
  end.

(** [isinstance(x, int)], with its value. *)
Definition py_int (j : json) : option Z :=
  match j with
  | JBool b => Some (if b then 1 else 0)%Z
  | JInt n => Some n
  | _ => None
  end.

(** *** float(str): decimal literals with an optional fraction and exponent *)

(** A run of digits, single underscores allowed between digits: value, number
    of digits, rest. *)
Fixpoint digits_us (s : string) (acc n : Z) : Z * Z * string :=
  match s with
  | String "_" (String c _ as s1) =>
      if (is_digit c && (0 <? n)%Z)%bool then
        match s1 with
        | String c s2 => digits_us s2 (10 * acc + (ord c - 48))%Z (n + 1)%Z
        | "" => (acc, n, s)
        end
      else (acc, n, s)
  | String c s1 =>
      if is_digit c then digits_us s1 (10 * acc + (ord c - 48))%Z (n + 1)%Z else (acc, n, s)
  | "" => (acc, n, "")
  end.

Definition parse_sign (s : string) : Z * string :=
  match s with
  | String "-" s' => ((-1)%Z, s')
  | String "+" s' => (1%Z, s')
  | _ => (1%Z, s)
  end.

Definition q_pow10 (e : Z) : Q := Qpower 10 e.

Definition float_of_str (s0 : string) : res Q :=
  let '(sg, s) := parse_sign (strip s0) in
  let '(ip, ni, s) := digits_us s 0 0 in
  let '(fp, nf, s) := match s with
                      | String "." s' => digits_us s' 0 0
                      | _ => (0%Z, 0%Z, s)
                      end in
  if (ni + nf =? 0)%Z then Raise ValueError
  else
    let mant := (inject_Z ip + inject_Z fp * q_pow10 (- nf))%Q in
    match s with
    | "" => Ret (inject_Z sg * mant)%Q
    | String c s' =>
        if (Ascii.eqb c "e" || Ascii.eqb c "E")%bool then
          let '(esg, s'') := parse_sign s' in
          let '(e, ne, s'') := digits_us s'' 0 0 in
          if ((ne =? 0)%Z || negb (String.eqb s'' ""))%bool then Raise ValueError
          else Ret (inject_Z sg * mant * q_pow10 (esg * e))%Q
        else Raise ValueError
    end.

(** [float(x)] *)
Definition py_float (j : json) : res Q :=
  match j with
  | JBool b => Ret (if b then 1 else 0)%Q
  | JInt n => Ret (inject_Z n)
  | JFloat _ q => Ret q
  | JStr s => float_of_str s
  | JNull | JList _ | JDict _ => Raise TypeError
  end.

(** *** json.dumps *)

Definition hex_digit (d : Z) : ascii :=
  ascii_of_N (Z.to_N (if (d <? 10)%Z then 48 + d else 87 + d)).

(** The double quote character. *)
Definition dquote : ascii := ascii_of_N 34.

(** One character under [ensure_ascii]. *)
Definition escape_char (c : ascii) : string :=
  let n := ord c in
  if (n =? 34)%Z then String "\" (String dquote "")
  else if (n =? 92)%Z then "\\"
  else if (n =? 10)%Z then "\n"
  else if (n =? 13)%Z then "\r"
  else if (n =? 9)%Z then "\t"
  else if (n =? 12)%Z then "\f"
  else if (n =? 8)%Z then "\b"
  else if ((32 <=? n) && (n <=? 126))%Z then String c ""
  else "\u00" +:+ String (hex_digit (n / 16)) (String (hex_digit (n mod 16)) "").

Fixpoint escape_str (s : string) : string :=
  match s with
  | "" => ""
  | String c s' => escape_char c +:+ escape_str s'
  end.

Definition quote_str (s : string) : string :=
  String dquote (escape_str s +:+ String dquote "").

Fixpoint sep_concat (sep : string) (l : list string) : string :=
  match l with
  | [] => ""
  | [x] => x
  | x :: l' => x +:+ sep +:+ sep_concat sep l'
  end.

(** One step of a stable sort by key. *)
Fixpoint insert_item (x : string * string) (l : list (string * string)) : list (string * string) :=
  match l with
  | [] => [x]
  | y :: l' => if String.leb x.1 y.1 then x :: y :: l' else y :: insert_item x l'
  end.

(** [json.dumps(j, sort_keys=, separators=(isep, ksep))] *)
Section Dumps.
Context (isep ksep : string) (sort_keys : bool).

Definition sort_items (l : list (string * string)) : list (string * string) :=
  if sort_keys then foldr insert_item [] l else l.

Fixpoint dumps_with (j : json) : string :=
  match j with
  | JNull => "null"
  | JBool b => if b then "true" else "false"
  | JInt n => str_of_Z n
  | JFloat r _ => r
  | JStr s => quote_str s
  | JList l => "[" +:+ sep_concat isep (map dumps_with l) +:+ "]"
  | JDict d =>
      let items := sort_items (map (fun kv => (kv.1, dumps_with kv.2)) d) in
      "{" +:+ sep_concat isep (map (fun kv => quote_str kv.1 +:+ ksep +:+ kv.2) items) +:+ "}"
  end.
End Dumps.

(** The default separators. *)
Definition dumps (j : json) : string := dumps_with ", " ": " false j.

(** [json.dumps(j, ensure_ascii=False)]: what is beyond ASCII stays as it is. *)
Definition raw_char (c : ascii) : string := if (127 <=? ord c)%Z then String c "" else escape_char c.

Fixpoint raw_str (s : string) : string :=
  match s with
  | "" => ""
  | String c s' => raw_char c +:+ raw_str s'
  end.

(** The writer over the escaping of a text, keys in their order. *)
Section Write.
Context (isep ksep : string) (esc : string -> string).

Definition quoted (s : string) : string := String dquote (esc s +:+ String dquote "").

Fixpoint write (j : json) : string :=
  match j with
  | JNull => "null"
  | JBool b => if b then "true" else "false"
  | JInt n => str_of_Z n
  | JFloat r _ => r
  | JStr s => quoted s
  | JList l => "[" +:+ sep_concat isep (map write l) +:+ "]"
  | JDict d => "{" +:+ sep_concat isep (map (fun kv => quoted kv.1 +:+ ksep +:+ write kv.2) d) +:+ "}"
  end.
End Write.

Definition dumps_raw (j : json) : string := write ", " ": " raw_str j.

(** *** str(x) *)

(** [str.isprintable] on the code points 0..255. *)
Definition is_printable (c : ascii) : bool :=
  let n := ord c in
  ((32 <=? n) && (n <=? 126) || (161 <=? n) && negb (n =? 173))%Z.

Definition has_char (c : ascii) (s : string) : bool :=
  existsb (Ascii.eqb c) (String.list_ascii_of_string s).

Definition repr_char (q c : ascii) : string :=
  let n := ord c in
  if (Ascii.eqb c q || (n =? 92)%Z)%bool then String "\" (String c "")
  else if (n =? 10)%Z then "\n"
  else if (n =? 13)%Z then "\r"
  else if (n =? 9)%Z then "\t"
  else if is_printable c then String c ""
  else "\x" +:+ String (hex_digit (n / 16)) (String (hex_digit (n mod 16)) "").

(** [repr] of a string: single quotes unless it holds one and no double quote. *)
Definition repr_str (s : string) : string :=
  let q := if (has_char "'" s && negb (has_char dquote s))%bool then dquote else "'"%char in
  String q (foldr (fun c acc => repr_char q c +:+ acc) "" (String.list_ascii_of_string s) +:+ String q "").

Fixpoint py_repr (j : json) : string :=
  match j with
  | JNull => "None"
  | JBool b => if b then "True" else "False"
  | JInt n => str_of_Z n
  | JFloat r _ => r
  | JStr s => repr_str s
  | JList l => "[" +:+ sep_concat ", " (map py_repr l) +:+ "]"
  | JDict d =>
      "{" +:+ sep_concat ", " (map (fun kv => repr_str kv.1 +:+ ": " +:+ py_repr kv.2) d) +:+ "}"
  end.

(** [str(x)] *)
Definition py_str (j : json) : string :=
  match j with
  | JStr s => s
  | _ => py_repr j
  end.

Definition slen (s : string) : Z := Z.of_nat (String.length s).

Lemma slen_nonneg s : (0 <= slen s)%Z.
Proof. unfold slen. lia. Qed.

#[export] Hint Resolve slen_nonneg : roadstead.

Example dumps_example :
  dumps (JDict [("a", JList [JInt 10; JNull; JBool true]); ("b", JStr "x")]) =
  "{" +:+ quote_str "a" +:+ ": [10, null, true], " +:+ quote_str "b" +:+ ": " +:+ quote_str "x" +:+ "}".
Proof. reflexivity. Qed.

Example float_of_str_example :
  Qeq_bool (match float_of_str " -12.50e1 " with Ret q => q | Raise _ => 0%Q end) (-125) = true.
Proof. reflexivity. Qed.

(** Induction that reaches the elements of lists and dictionaries. *)
Lemma json_nested_ind (P : json -> Prop) :
  P JNull -> (forall b, P (JBool b)) -> (forall n, P (JInt n)) ->
  (forall r q, P (JFloat r q)) -> (forall s, P (JStr s)) ->
  (forall l, Forall P l -> P (JList l)) ->
  (forall d, Forall (fun kv => P kv.2) d -> P (JDict d)) ->
  forall j, P j.
Proof.
  intros H0 H1 H2 H3 H4 H5 H6. fix IH 1. intros [|b|n|r q|s|l|d].
  - exact H0.
  - apply H1.
  - apply H2.
  - apply H3.
  - apply H4.
  - apply H5. induction l as [|x l IHl]; constructor; [apply IH|exact IHl].
  - apply H6. induction d as [|[k x] d IHd]; constructor; [apply IH|exact IHd].
Qed.

(** Every dictionary inside has distinct keys, as any Python [dict] has. *)
Fixpoint jwf (j : json) : bool :=
  match j with
  | JList l => forallb jwf l
  | JDict d => bool_decide (NoDup (map fst d)) && forallb (fun kv => jwf kv.2) d
  | _ => true
  end.

Lemma jwf_dict d : jwf (JDict d) = true -> dwf d.
Proof. simpl. rewrite andb_true_iff. intros [H _]. by apply bool_decide_eq_true_1 in H. Qed.

Lemma jwf_get d k v : jwf (JDict d) = true -> dget d k = Some v -> jwf v = true.
Proof.
  simpl. rewrite andb_true_iff. intros [_ H] Hk. apply dget_elem in Hk.
  rewrite forallb_forall in H. apply list_elem_of_In in Hk. by apply (H (k, v)).
Qed.

Lemma jwf_dict_iff d : jwf (JDict d) = true <-> dwf d /\ Forall (fun kv => jwf kv.2 = true) d.
Proof.
  cbn [jwf]. rewrite andb_true_iff, bool_decide_eq_true, forallb_forall, List.Forall_forall. done.
Qed.

Lemma jwf_dset d k v : jwf (JDict d) = true -> jwf v = true -> jwf (JDict (dset d k v)) = true.
Proof.
  rewrite !jwf_dict_iff. intros [W F] Hv. split; [by apply dwf_dset|]. clear W.
  induction F as [|[a b] d Hb F IH]; simpl; [by repeat constructor|].
  case_decide; constructor; try done.
Qed.

Lemma jwf_ddel d k : jwf (JDict d) = true -> jwf (JDict (ddel d k)) = true.
Proof.
  rewrite !jwf_dict_iff. intros [W F]. split; [by apply dwf_ddel|]. clear W.
  induction F as [|[a b] d Hb F IH]; simpl; [done|]. case_decide; [done|]. by constructor.
Qed.
