(* ===== verification/Cost.v ===== *)
(** * The slot-second cost model and the context-fit predicate (cost_model.py)

    EWMA trackers, the per-endpoint model with its calibration, the fleet-wide
    [CostModel], the token estimator over JSON payloads, and [context_fit]. *)

From Stdlib Require Import QArith Qpower Qround Lqa Lia ZArith.
From stdpp Require Import base list strings relations.
From S2P Require Import Prelude PyDict PyText Json.

Local Open Scope Q_scope.

(** ** EWMATracker *)

Record EWMATracker := {
  alpha : Q;
  value : Q;
  variance : Q;
  sample_count : Z;
}.

Definition new_ewma (a : Q) : EWMATracker :=
  {| alpha := a; value := 0; variance := 0; sample_count := 0 |}.

(** [EWMATracker.update] *)
Definition ewma_update (t : EWMATracker) (sample : Q) : EWMATracker :=
  if (sample_count t =? 0)%Z then
    {| alpha := alpha t; value := sample; variance := 0; sample_count := (sample_count t + 1)%Z |}
  else
    let delta := sample - value t in
    {| alpha := alpha t;
       value := value t + alpha t * delta;
       variance := (1 - alpha t) * (variance t + alpha t * delta * delta);
       sample_count := (sample_count t + 1)%Z |}.

(** [math.sqrt], rounded down to 52 fractional bits. *)
Definition Qsqrt (x : Q) : Q :=
  inject_Z (Z.sqrt (Qfloor (x * inject_Z (2 ^ 104)))) / inject_Z (2 ^ 52).

Definition stddev (t : EWMATracker) : Q := Qsqrt (pymax 0 (variance t)).

Definition p95 (t : EWMATracker) : Q := value t + (1645 # 1000) * stddev t.

(** ** EndpointCostModel *)

Record EndpointCostModel := {
  cm_endpoint : string;
  cm_max_slots : Z;
  prefill_k : Q;
  decode_tps : list Q;
  output_length_ewma : dict string EWMATracker;
  prefill_ewma : EWMATracker;
  decode_tps_ewma : dict Z EWMATracker;
}.

(** [_default_decode_curve] *)
Definition default_decode_curve (slots : Z) : list Q :=
  let curve := map (fun i => 40 * Qpower (88 # 100) (Z.of_nat i)) (seq 0 (Z.to_nat slots)) in
  match curve with
  | [] => [40]
  | _ => curve
  end.

(** [decode_tps[i]] for a non-negative index. *)
Definition tps_at (l : list Q) (i : Z) : res Q :=
  match l !! Z.to_nat i with
  | Some x => Ret x
  | None => Raise IndexError
  end.

(** [decode_tps[-1]] *)
Definition tps_last (l : list Q) : res Q :=
  match last l with
  | Some x => Ret x
  | None => Raise IndexError
  end.

Definition zlen {A} (l : list A) : Z := Z.of_nat (length l).

(** A division by a number read from the payload: only a number can be one. *)
Definition num_or_type_error (o : option Q) : res Q :=
  match o with
  | Some q => Ret q
  | None => Raise TypeError
  end.

(** The output-length estimate: [None] is a payload value that is not a number
    and has not been used as one yet. *)
Definition est_output (m : EndpointCostModel) (max_output : json) (call_site : string)
  : res (option Q) :=
  match dget (output_length_ewma m) call_site with
  | Some e =>
      if (5 <=? sample_count e)%Z then
        mo ← num_or_type_error (py_number max_output);
        Ret (Some (pymax 1 (pymin mo (inject_Z (Qtrunc (p95 e))))))
      else Ret (py_number max_output)
  | None => Ret (py_number max_output)
  end.

Definition estimate_cost_ss (m : EndpointCostModel) (input_tokens : Z) (max_output : json)
    (call_site : string) (current_occupancy : Z) : res Q :=
  let prefill_s := prefill_k m * inject_Z input_tokens in
  est ← est_output m max_output call_site;
  if bool_decide (decode_tps m = []) || (cm_max_slots m <=? 0)%Z then
    e ← num_or_type_error est;
    Ret (prefill_s + e / 40)
  else
    let occ := Z.min (Z.max 1 (current_occupancy + 1)) (cm_max_slots m) in
    tps ← (if (occ <=? zlen (decode_tps m))%Z then tps_at (decode_tps m) (occ - 1)
           else tps_last (decode_tps m));
    decode_s ← (if Qltb 0 tps then e ← num_or_type_error est; Ret (e / tps) else Ret 30);
    Ret (prefill_s + decode_s).

Definition with_ewmas (m : EndpointCostModel) k tps outs pre dec : EndpointCostModel :=
  {| cm_endpoint := cm_endpoint m; cm_max_slots := cm_max_slots m; prefill_k := k;
     decode_tps := tps; output_length_ewma := outs; prefill_ewma := pre; decode_tps_ewma := dec |}.

(** The decode-throughput half of [update_from_completion]. *)
Definition calibrate_decode (m : EndpointCostModel) (output_tokens : Z) (est_decode : Q)
    (occupancy_during : Z) : EndpointCostModel :=
  if (1 <=? occupancy_during)%Z then
    let observed := inject_Z output_tokens / est_decode in
    let occ := Z.min occupancy_during (cm_max_slots m) in
    let e := ewma_update (from_option id (new_ewma (1 # 10)) (dget (decode_tps_ewma m) occ)) observed in
    let tps := if ((3 <=? sample_count e) && (occ <=? zlen (decode_tps m)))%Z%bool
               then <[Z.to_nat (occ - 1) := value e]> (decode_tps m) else decode_tps m in
    with_ewmas m (prefill_k m) tps (output_length_ewma m) (prefill_ewma m)
      (dset (decode_tps_ewma m) occ e)
  else m.

(** The prefill half. *)
Definition calibrate_prefill (m : EndpointCostModel) (input_tokens output_tokens : Z)
    (duration_s est_decode : Q) (occupancy_during : Z) : res EndpointCostModel :=
  if (100 <? input_tokens)%Z then
    let occ_idx := Z.min (Z.max occupancy_during 1) (cm_max_slots m) in
    tps ← (if (occ_idx <=? zlen (decode_tps m))%Z then tps_at (decode_tps m) (occ_idx - 1) else Ret 40);
    let implied_decode := if Qltb 0 tps then inject_Z output_tokens / tps else est_decode in
    let implied_prefill := pymax 0 (duration_s - implied_decode) in
    let implied_k := if (0 <? input_tokens)%Z then implied_prefill / inject_Z input_tokens else 0 in
    if Qltb 0 implied_k then
      let pe := ewma_update (prefill_ewma m) implied_k in
      Ret (with_ewmas m (if (10 <=? sample_count pe)%Z then value pe else prefill_k m)
             (decode_tps m) (output_length_ewma m) pe (decode_tps_ewma m))
    else Ret m
  else Ret m.

Definition update_from_completion (m : EndpointCostModel) (call_site : string)
    (input_tokens output_tokens : Z) (duration_s : Q) (occupancy_during : Z) : res EndpointCostModel :=
  if Qle_bool duration_s 0 || (output_tokens <=? 0)%Z then Ret m
  else
    let oe := ewma_update (from_option id (new_ewma (1 # 10)) (dget (output_length_ewma m) call_site))
                (inject_Z output_tokens) in
    let m1 := with_ewmas m (prefill_k m) (decode_tps m) (dset (output_length_ewma m) call_site oe)
                (prefill_ewma m) (decode_tps_ewma m) in
    if (cm_max_slots m1 <? 1)%Z || bool_decide (decode_tps m1 = []) then Ret m1
    else
      let est_prefill := prefill_k m1 * inject_Z input_tokens in
      let est_decode := pymax (1 # 100) (duration_s - est_prefill) in
      calibrate_prefill (calibrate_decode m1 output_tokens est_decode occupancy_during)
        input_tokens output_tokens duration_s est_decode occupancy_during.

(** ** CostModel *)

Definition CostModel : Type := dict string EndpointCostModel.

Definition register_endpoint (cm : CostModel) (endpoint : string) (slots : Z) (k : Q)
    (tps : option (list Q)) : CostModel :=
  let curve := match tps with
               | Some (x :: l) => x :: l
               | _ => default_decode_curve slots
               end in
  dset cm endpoint
    {| cm_endpoint := endpoint; cm_max_slots := slots; prefill_k := k; decode_tps := curve;
       output_length_ewma := []; prefill_ewma := new_ewma (5 # 100); decode_tps_ewma := [] |}.

Definition estimate_cost (cm : CostModel) (endpoint : string) (input_tokens : Z) (max_output : json)
    (call_site : string) (current_occupancy : Z) : res Q :=
  match dget cm endpoint with
  | None => f ← py_float max_output; Ret (f / 40)
  | Some m => estimate_cost_ss m input_tokens max_output call_site current_occupancy
  end.

Definition record_completion (cm : CostModel) (endpoint call_site : string)
    (input_tokens output_tokens : Z) (duration_s : Q) (occupancy_during : Z) : res CostModel :=
  match dget cm endpoint with
  | None => Ret cm
  | Some m =>
      m' ← update_from_completion m call_site input_tokens output_tokens duration_s occupancy_during;
      Ret (dset cm endpoint m')
  end.

Definition resize_curve (curve : list Q) (old_max new_max : Z) : list Q :=
  if (old_max <? new_max)%Z then
    curve ++ replicate (Z.to_nat (new_max - old_max)) (from_option id 40 (last curve) * (88 # 100))
  else if (new_max <? old_max)%Z then take (Z.to_nat new_max) curve
  else curve.

Definition update_max_slots (cm : CostModel) (endpoint : string) (new_max : Z) : CostModel :=
  match dget cm endpoint with
  | None => cm
  | Some m =>
      let curve := if (new_max <=? 0)%Z then [] else resize_curve (decode_tps m) (cm_max_slots m) new_max in
      dset cm endpoint
        {| cm_endpoint := cm_endpoint m; cm_max_slots := new_max; prefill_k := prefill_k m;
           decode_tps := curve; output_length_ewma := output_length_ewma m;
           prefill_ewma := prefill_ewma m; decode_tps_ewma := decode_tps_ewma m |}
  end.

(** ** The token estimator *)

Local Open Scope string_scope.
Local Open Scope Z_scope.

Definition non_text_part_types : list string :=
  ["image"; "image_url"; "input_audio"; "audio"; "video"; "file"; "document"].

(** [_json_chars] *)
Definition json_chars (j : json) : Z :=
  match j with
  | JNull => 0
  | JStr s => slen s
  | _ => slen (dumps j)
  end.

(** [str(x or "")] *)
Definition str_or_empty (j : json) : string := if truthy j then py_str j else "".

(** The [elif] chain of [_content_chars] on a dictionary part with no [text]
    string, given the counts its own children would have. *)
Definition typed_part_chars (d : dict string json) (children : dict string (res Z)) : res Z :=
  match jget d "type" with
  | JStr t =>
      if String.eqb t "tool_use" then
        Ret (slen (str_or_empty (jget d "name")) + json_chars (jget d "input"))
      else if String.eqb t "tool_result" then from_option id (Ret 0) (dget children "content")
      else if bool_decide (t ∈ non_text_part_types) then Ret 0
      else Ret (json_chars (JDict d))
  | JList _ | JDict _ => Raise TypeError
  | _ => Ret (json_chars (JDict d))
  end.

Definition part_chars (d : dict string json) (children : dict string (res Z)) : res Z :=
  match jget d "text" with
  | JStr s => Ret (slen s)
  | _ => typed_part_chars d children
  end.

Fixpoint content_chars (content : json) : res Z :=
  match content with
  | JStr s => Ret (slen s)
  | JDict d => Ret (json_chars (JDict d))
  | JList l =>
      (fix go (l : list json) : res Z :=
         match l with
         | [] => Ret 0
         | part :: l' =>
             n ← match part with
                 | JStr s => Ret (slen s)
                 | JDict d => part_chars d (map (fun kv => (kv.1, content_chars kv.2)) d)
                 | _ => Ret 0
                 end;
             r ← go l';
             Ret (n + r)
         end) l
  | _ => Ret 0
  end.

Definition estimate_tokens_from_chars (n_chars : Z) : Z := Z.max 1 (n_chars / 4).

(** The iteration of [for msg in messages] over a JSON value. *)
Definition iterate (j : json) : res (list json) :=
  match j with
  | JList l => Ret l
  | JDict d => Ret (map (fun kv => JStr kv.1) d)
  | JStr s => Ret (map (fun c => JStr (String c "")) (String.list_ascii_of_string s))
  | _ => Raise TypeError
  end.

Definition system_chars (system : json) : Z :=
  match system with
  | JStr s => slen s
  | JList l =>
      foldr (fun part acc =>
        match part with
        | JDict d => slen (py_str (from_option id (JStr "") (dget d "text"))) + acc
        | JStr s => slen s + acc
        | _ => acc
        end) 0 l
  | _ => 0
  end.

Definition call_chars (fn : dict string json) : Z :=
  slen (str_or_empty (jget fn "name")) + json_chars (jget fn "arguments").

Definition tool_calls_chars (calls : json) : Z :=
  match calls with
  | JList l =>
      foldr (fun call acc =>
        match call with
        | JDict c => match jget c "function" with
                     | JDict fn => call_chars fn + acc
                     | _ => call_chars [] + acc
                     end
        | _ => acc
        end) 0 l
  | _ => 0
  end.

Definition message_chars (msg : json) : res Z :=
  match msg with
  | JStr s => Ret (slen s)
  | JDict d =>
      c ← content_chars (jget d "content");
      let fc := match jget d "function_call" with JDict fn => call_chars fn | _ => 0 end in
      Ret (c + tool_calls_chars (jget d "tool_calls") + fc)
  | _ => Ret 0
  end.

Fixpoint messages_chars (l : list json) : res Z :=
  match l with
  | [] => Ret 0
  | msg :: l' => n ← message_chars msg; r ← messages_chars l'; Ret (n + r)
  end.

Definition estimate_input_tokens (payload : dict string json) : res Z :=
  let sys := system_chars (jget payload "system") in
  let tools := jget payload "tools" in
  let tc := if truthy tools then json_chars tools else 0 in
  let messages := jget payload "messages" in
  msgs ← (if truthy messages then iterate messages else Ret []);
  mc ← messages_chars msgs;
  Ret (estimate_tokens_from_chars (sys + tc + mc)).

(** ** context_fit *)

Record ContextFit := {
  fits : bool;
  est_in : Z;
  est_out : Z;
  limit : Z;
}.

Definition declared_max_tokens (payload : dict string json) : Z :=
  match py_int (jget payload "max_tokens") with
  | Some n => if 0 <? n then n else 0
  | None => 0
  end.

Definition context_fit (payload : dict string json) (payload_type : string) (ctx_limit : Z)
  : res ContextFit :=
  if negb (String.eqb payload_type "chat_completion") || (ctx_limit <=? 0) then
    Ret {| fits := true; est_in := 0; est_out := 0; limit := ctx_limit |}
  else
    let eo := declared_max_tokens payload in
    ei ← estimate_input_tokens payload;
    Ret {| fits := ei + eo <=? ctx_limit; est_in := ei; est_out := eo; limit := ctx_limit |}.

(** ** EWMA facts *)

Local Open Scope Q_scope.

Definition in_range (lo hi x : Q) : Prop := lo <= x /\ x <= hi.

Definition smoothing (a : Q) : Prop := 0 <= a /\ a <= 1.

Lemma ewma_update_alpha t s : alpha (ewma_update t s) = alpha t.
Proof. unfold ewma_update. by case_match. Qed.

Lemma ewma_update_count t s : sample_count (ewma_update t s) = (sample_count t + 1)%Z.
Proof. unfold ewma_update. by case_match. Qed.

(** A convex combination of two points of an interval stays in it. *)
Lemma convex_range a lo hi v s :
  smoothing a -> in_range lo hi v -> in_range lo hi s -> in_range lo hi (v + a * (s - v)).
Proof.
  intros [Ha Hb] [H1 H2] [H3 H4].
  assert (v + a * (s - v) == (1 - a) * v + a * s) as E by ring. unfold in_range. rewrite E.
  assert (0 <= (1 - a) * (v - lo)) by (apply Qmult_le_0_compat; lra).
  assert (0 <= a * (s - lo)) by (apply Qmult_le_0_compat; lra).
  assert (0 <= (1 - a) * (hi - v)) by (apply Qmult_le_0_compat; lra).
  assert (0 <= a * (hi - s)) by (apply Qmult_le_0_compat; lra).
  split; lra.
Qed.

(** A tracker whose average, once it has one, lies in the interval. *)
Definition tracker_in (lo hi : Q) (t : EWMATracker) : Prop :=
  smoothing (alpha t) /\ (0 <= sample_count t)%Z /\ 0 <= variance t /\
  ((0 < sample_count t)%Z -> in_range lo hi (value t)).

Lemma ewma_update_in lo hi t s :
  tracker_in lo hi t -> in_range lo hi s ->
  tracker_in lo hi (ewma_update t s) /\ in_range lo hi (value (ewma_update t s)).
Proof.
  intros (Ha & Hc & Hv & Hr) Hs. unfold tracker_in.
  rewrite ewma_update_alpha, ewma_update_count. unfold ewma_update.
  destruct (Z.eqb_spec (sample_count t) 0); simpl.
  - split_and!; try done; try lia; apply Hs.
  - specialize (Hr ltac:(lia)).
    assert (in_range lo hi (value t + alpha t * (s - value t))) as HR by by apply convex_range.
    assert (0 <= (1 - alpha t) * (variance t + alpha t * (s - value t) * (s - value t))).
    { destruct Ha. apply Qmult_le_0_compat; [lra|].
      assert (0 <= alpha t * ((s - value t) * (s - value t))); [|lra].
      apply Qmult_le_0_compat; [lra|]. apply Qsqr_nonneg. }
    split_and!; try done; try lia; apply HR.
Qed.

Lemma tracker_in_new lo hi a : smoothing a -> tracker_in lo hi (new_ewma a).
Proof. intros H. unfold tracker_in. simpl. split_and!; try done; try lra; apply H. Qed.

(** Positive averages: the half-open interval version. *)
Definition tracker_pos (t : EWMATracker) : Prop :=
  smoothing (alpha t) /\ (0 <= sample_count t)%Z /\ ((0 < sample_count t)%Z -> 0 < value t).

Lemma tracker_pos_new a : smoothing a -> tracker_pos (new_ewma a).
Proof. intros H. unfold tracker_pos. simpl. split_and!; try done; try lia; apply H. Qed.

Lemma ewma_update_pos t s :
  tracker_pos t -> 0 < s -> tracker_pos (ewma_update t s) /\ 0 < value (ewma_update t s).
Proof.
  intros ([Ha Hb] & Hc & Hv) Hs. unfold tracker_pos.
  rewrite ewma_update_alpha, ewma_update_count. unfold ewma_update.
  destruct (Z.eqb_spec (sample_count t) 0); simpl.
  - split_and!; try done; lia.
  - specialize (Hv ltac:(lia)).
    assert (0 < value t + alpha t * (s - value t)) as HP.
    { assert (value t + alpha t * (s - value t) == (1 - alpha t) * value t + alpha t * s) as -> by ring.
      destruct (Qlt_le_dec 0 (alpha t)) as [Hp|Hz].
      - assert (0 < alpha t * s) by (apply Qmult_lt_0_compat; lra).
        assert (0 <= (1 - alpha t) * value t) by (apply Qmult_le_0_compat; lra). lra.
      - assert (alpha t == 0) as -> by lra. lra. }
    split_and!; try done; try lia.
Qed.

(** ** The model invariant *)

Definition model_ok (m : EndpointCostModel) : Prop :=
  0 <= prefill_k m /\ Forall (fun x => 0 < x) (decode_tps m) /\
  tracker_pos (prefill_ewma m) /\
  (forall k t, dget (decode_tps_ewma m) k = Some t -> tracker_pos t) /\
  (forall k t, dget (output_length_ewma m) k = Some t -> tracker_pos t).

Definition costs_ok (cm : CostModel) : Prop := forall e m, dget cm e = Some m -> model_ok m.

Lemma smoothing_tenth : smoothing (1 # 10).
Proof. split; lra. Qed.

Lemma tracker_pos_get {K} `{EqDecision K} (d : dict K EWMATracker) k a s :
  smoothing a -> (forall k t, dget d k = Some t -> tracker_pos t) -> 0 < s ->
  let e := ewma_update (from_option id (new_ewma a) (dget d k)) s in
  (tracker_pos e /\ 0 < value e) /\ (forall k' t, dget (dset d k e) k' = Some t -> tracker_pos t).
Proof.
  intros Ha Hd Hs e.
  assert (tracker_pos e /\ 0 < value e) as He.
  { apply ewma_update_pos; [|done]. destruct (dget d k) eqn:E; simpl; [eauto|by apply tracker_pos_new]. }
  split; [done|]. intros k' t. rewrite dget_dset. case_decide; [|apply Hd].
  intros; simplify_eq. apply He.
Qed.

Lemma Qdiv_pos a b : 0 < a -> 0 < b -> 0 < a / b.
Proof. intros. apply Qlt_shift_div_l; lra. Qed.
Lemma Qdiv_nonneg a b : 0 <= a -> 0 < b -> 0 <= a / b.
Proof. intros. apply Qle_shift_div_l; lra. Qed.

Lemma calibrate_decode_ok m out ed occ :
  model_ok m -> (0 < out)%Z -> 0 < ed -> model_ok (calibrate_decode m out ed occ).
Proof.
  intros (Hk & Ht & Hp & Hd & Ho) Hout Hed. unfold calibrate_decode.
  destruct (1 <=? occ)%Z; [|done].
  assert (0 < inject_Z out / ed) as Hobs by (apply Qdiv_pos; auto using inject_Z_pos).
  destruct (tracker_pos_get (decode_tps_ewma m) (Z.min occ (cm_max_slots m)) (1 # 10) _
              smoothing_tenth Hd Hobs) as [[He Hv] Hset].
  unfold model_ok. cbn [prefill_k decode_tps prefill_ewma decode_tps_ewma output_length_ewma with_ewmas].
  split_and!; try done. case_match; [|done]. by apply Forall_insert.
Qed.

Lemma calibrate_decode_shape m out ed occ :
  cm_max_slots (calibrate_decode m out ed occ) = cm_max_slots m /\
  length (decode_tps (calibrate_decode m out ed occ)) = length (decode_tps m).
Proof.
  unfold calibrate_decode. destruct (1 <=? occ)%Z; [|done].
  cbn [cm_max_slots decode_tps with_ewmas]. split; [done|].
  case_match; [apply length_insert|done].
Qed.

(** Reading the curve at an occupancy within its length cannot fail. *)
Lemma tps_at_total l i : (0 <= i < zlen l)%Z -> exists x, tps_at l i = Ret x /\ x ∈ l.
Proof.
  intros H. unfold tps_at, zlen in *.
  destruct (lookup_lt_is_Some_2 l (Z.to_nat i)) as [x Hx]; [lia|].
  rewrite Hx. exists x. split; [done|]. by eapply list_elem_of_lookup_2.
Qed.

Lemma tps_last_total l : l <> [] -> exists x, tps_last l = Ret x /\ x ∈ l.
Proof.
  intros H. unfold tps_last. destruct (last l) as [x|] eqn:E.
  - exists x. split; [done|]. apply last_Some in E as [l' ->]. apply elem_of_app. right. by left.
  - by apply last_None in E.
Qed.

Lemma calibrate_prefill_ret m inp out dur ed occ :
  (1 <= cm_max_slots m)%Z ->
  exists m', calibrate_prefill m inp out dur ed occ = Ret m' /\ (model_ok m -> model_ok m').
Proof.
  intros Hs. unfold calibrate_prefill. destruct (Z.ltb_spec 100 inp); [|eauto].
  set (idx := Z.min (Z.max occ 1) (cm_max_slots m)).
  assert (exists tps, (if (idx <=? zlen (decode_tps m))%Z then tps_at (decode_tps m) (idx - 1) else Ret 40)
            = Ret tps) as [tps ->].
  { destruct (Z.leb_spec idx (zlen (decode_tps m))); [|eauto].
    destruct (tps_at_total (decode_tps m) (idx - 1)) as (x & Hx & _); [lia|eauto]. }
  cbn [mbind res_bind]. set (ik := if (0 <? inp)%Z then _ else 0). clearbody ik.
  destruct (Qltb_spec 0 ik) as [Hik|]; [|eauto].
  eexists. split; [done|]. intros (Hk & Ht & Hp & Hd & Ho). unfold model_ok.
  cbn [prefill_k decode_tps prefill_ewma decode_tps_ewma output_length_ewma with_ewmas].
  destruct (ewma_update_pos (prefill_ewma m) ik Hp Hik) as [Hp' Hv].
  split_and!; try done. case_match; [lra|done].
Qed.

(** Calibration always returns a model, and keeps the invariant. *)
Lemma update_from_completion_ret m cs inp out dur occ :
  exists m', update_from_completion m cs inp out dur occ = Ret m' /\ (model_ok m -> model_ok m').
Proof.
  unfold update_from_completion.
  destruct (Qleb_spec dur 0); [eauto|]. destruct (Z.leb_spec out 0) as [|Hout]; [eauto|]. cbn [orb].
  set (m1 := with_ewmas m _ _ (dset _ cs _) _ _).
  assert (model_ok m -> model_ok m1) as H1.
  { intros (Hk & Ht & Hp & Hd & Ho).
    destruct (tracker_pos_get (output_length_ewma m) cs (1 # 10) (inject_Z out) smoothing_tenth Ho)
      as [_ Hset]; [by apply inject_Z_pos|].
    subst m1. unfold model_ok.
    cbn [prefill_k decode_tps prefill_ewma decode_tps_ewma output_length_ewma with_ewmas].
    split_and!; done. }
  destruct ((cm_max_slots m1 <? 1)%Z || bool_decide (decode_tps m1 = [])) eqn:Hg; [eauto|].
  apply orb_false_iff in Hg as [Hg%Z.ltb_ge _].
  set (ed := pymax _ _). set (m2 := calibrate_decode m1 out ed occ).
  assert (0 < ed) as Hed by (apply Qlt_le_trans with (1 # 100); [done|apply pymax_ge_l]).
  destruct (calibrate_prefill_ret m2 inp out dur ed occ) as (m3 & -> & H3).
  { subst m2. destruct (calibrate_decode_shape m1 out ed occ) as [-> _]. lia. }
  eexists. split; [done|]. intros Hok. apply H3, calibrate_decode_ok; auto.
Qed.

Lemma default_curve_pos slots : Forall (fun x => 0 < x) (default_decode_curve slots).
Proof.
  assert (Forall (fun x => 0 < x)
    (map (fun i => 40 * Qpower (88 # 100) (Z.of_nat i)) (seq 0 (Z.to_nat slots)))) as H.
  { apply Forall_forall. intros x (i & -> & _)%list_elem_of_fmap.
    apply Qmult_lt_0_compat; [lra|]. apply Qpower_0_lt. reflexivity. }
  unfold default_decode_curve. case_match; [repeat constructor|done].
Qed.

Lemma register_endpoint_ok cm e slots k tps :
  costs_ok cm -> 0 <= k -> (forall l, tps = Some l -> Forall (fun x => 0 < x) l) ->
  costs_ok (register_endpoint cm e slots k tps).
Proof.
  intros Hcm Hk Ht e' m. unfold register_endpoint. rewrite dget_dset. case_decide; [|apply Hcm].
  intros; simplify_eq. unfold model_ok. cbn [prefill_k decode_tps prefill_ewma decode_tps_ewma output_length_ewma].
  split_and!; try done.
  destruct tps as [[|x l]|]; [apply default_curve_pos| |apply default_curve_pos].
  by apply Ht.
Qed.

Lemma resize_curve_pos curve old new :
  Forall (fun x => 0 < x) curve -> Forall (fun x => 0 < x) (resize_curve curve old new).
Proof.
  intros H. unfold resize_curve. repeat case_match; [|by apply Forall_take|done].
  apply Forall_app. split; [done|]. apply Forall_replicate.
  assert (0 < from_option id 40 (last curve)) as Hl.
  { destruct (last curve) as [x|] eqn:E; simpl; [|lra].
    apply last_Some in E as [l' ->]. apply Forall_app in H as [_ H]. by inversion H. }
  apply Qmult_lt_0_compat; [done|lra].
Qed.

Lemma update_max_slots_ok cm e n : costs_ok cm -> costs_ok (update_max_slots cm e n).
Proof.
  intros H. unfold update_max_slots. destruct (dget cm e) as [m|] eqn:E; [|done].
  intros e' m'. rewrite dget_dset. case_decide; [|apply H]. intros; simplify_eq.
  destruct (H _ _ E) as (Hk & Ht & Hp & Hd & Ho). unfold model_ok.
  cbn [prefill_k decode_tps prefill_ewma decode_tps_ewma output_length_ewma].
  split_and!; try done. case_match; [constructor|by apply resize_curve_pos].
Qed.

Lemma record_completion_ret cm e cs inp out dur occ :
  exists cm', record_completion cm e cs inp out dur occ = Ret cm' /\
    (costs_ok cm -> costs_ok cm') /\ dkeys cm' = dkeys cm.
Proof.
  unfold record_completion. destruct (dget cm e) as [m|] eqn:E; [|eauto].
  destruct (update_from_completion_ret m cs inp out dur occ) as (m' & -> & Hm). simpl.
  eexists. split; [done|]. split.
  - intros H e' x. rewrite dget_dset. case_decide; [|apply H]. intros; simplify_eq.
    apply Hm. by eapply H.
  - rewrite dkeys_dset, decide_True; [done|]. by eapply dget_Some_keys.
Qed.

(** ** Estimates *)

Lemma est_output_num m mo cs q :
  py_number mo = Some q -> exists e, est_output m mo cs = Ret (Some e) /\ (0 <= q -> 0 <= e).
Proof.
  intros Hq. unfold est_output. rewrite Hq.
  destruct (dget _ cs) as [t|]; [case_match|]; simpl; eauto.
  eexists. split; [done|]. intros _.
  apply Qle_trans with 1; [lra|apply pymax_ge_l].
Qed.

Lemma est_output_err m mo cs e : est_output m mo cs = Raise e -> e = TypeError /\ py_number mo = None.
Proof.
  unfold est_output. destruct (dget _ cs); [case_match|]; try done.
  destruct (py_number mo); simpl; [done|]. intros; by simplify_eq.
Qed.

Lemma est_output_None m mo cs : est_output m mo cs = Ret None -> py_number mo = None.
Proof.
  unfold est_output. destruct (dget _ cs); [case_match|]; try by intros [=].
  destruct (py_number mo); simpl; [by intros [=]|done].
Qed.

(** The throughput read for an occupancy exists and comes from the curve. *)
Lemma tps_read_ret m occ :
  decode_tps m <> [] -> (0 < cm_max_slots m)%Z ->
  let o := Z.min (Z.max 1 (occ + 1)) (cm_max_slots m) in
  exists x, (if (o <=? zlen (decode_tps m))%Z then tps_at (decode_tps m) (o - 1)
             else tps_last (decode_tps m)) = Ret x /\ x ∈ decode_tps m.
Proof.
  intros Hne Hs o. destruct (Z.leb_spec o (zlen (decode_tps m))).
  - apply tps_at_total. lia.
  - by apply tps_last_total.
Qed.

Lemma estimate_cost_ss_num m inp mo cs occ q :
  py_number mo = Some q ->
  exists c, estimate_cost_ss m inp mo cs occ = Ret c /\
    (model_ok m -> (0 <= inp)%Z -> 0 <= q -> 0 <= c).
Proof.
  intros Hq. unfold estimate_cost_ss. destruct (est_output_num m mo cs q Hq) as (e & -> & He).
  cbn [mbind res_bind]. assert (forall d, (model_ok m -> 0 <= q -> 0 <= d) ->
    model_ok m -> (0 <= inp)%Z -> 0 <= q -> 0 <= prefill_k m * inject_Z inp + d) as Hsum.
  { intros d Hd Hm Hi H0. specialize (Hd Hm H0).
    assert (0 <= prefill_k m * inject_Z inp); [|lra].
    apply Qmult_le_0_compat; [apply Hm|by apply inject_Z_nonneg]. }
  case_match eqn:G.
  - simpl. eexists. split; [done|]. apply Hsum. intros _ H0. apply Qdiv_nonneg; [auto|lra].
  - apply orb_false_iff in G as [G1%bool_decide_eq_false G2%Z.leb_gt].
    destruct (tps_read_ret m occ G1 G2) as (x & -> & Hx). cbn [mbind res_bind].
    destruct (Qltb_spec 0 x); simpl; (eexists; split; [done|]); apply Hsum; [|lra].
    intros _ H0. apply Qdiv_nonneg; auto.
Qed.

Lemma estimate_cost_ss_err m inp mo cs occ e :
  estimate_cost_ss m inp mo cs occ = Raise e -> e = TypeError /\ py_number mo = None.
Proof.
  intros H. destruct (py_number mo) as [q|] eqn:Hq.
  { destruct (estimate_cost_ss_num m inp mo cs occ q Hq) as (c & Hc & _). congruence. }
  split; [|done]. revert H. unfold estimate_cost_ss.
  destruct (est_output m mo cs) as [[x|]|e'] eqn:E; cbn [mbind res_bind].
  - exfalso. revert E. unfold est_output. rewrite Hq. destruct (dget _ cs); [case_match|]; done.
  - case_match eqn:G; [intros [=]; done|].
    apply orb_false_iff in G as [G1%bool_decide_eq_false G2%Z.leb_gt].
    destruct (tps_read_ret m occ G1 G2) as (x & -> & Hx). cbn [mbind res_bind].
    case_match; simpl; intros [=]; done.
  - intros [=]. subst. by apply est_output_err in E as [? _].
Qed.

(** ** The token estimator: when it answers *)

Local Open Scope string_scope.
Local Open Scope Z_scope.

(** A content value none of whose typed parts has a list or dictionary as its
    [type] (which Python cannot hash). *)
Definition typed_part_ok (d : dict string json) (children : dict string bool) : bool :=
  match jget d "type" with
  | JStr t => if String.eqb t "tool_result" then from_option id true (dget children "content") else true
  | JList _ | JDict _ => false
  | _ => true
  end.

Definition part_ok (d : dict string json) (children : dict string bool) : bool :=
  match jget d "text" with
  | JStr _ => true
  | _ => typed_part_ok d children
  end.

Fixpoint content_ok (content : json) : bool :=
  match content with
  | JList l =>
      forallb (fun part => match part with
                           | JDict d => part_ok d (map (fun kv => (kv.1, content_ok kv.2)) d)
                           | _ => true
                           end) l
  | _ => true
  end.

Definition message_ok (msg : json) : bool :=
  match msg with
  | JDict d => content_ok (jget d "content")
  | _ => true
  end.

Definition is_ret {A} (r : res A) : bool := match r with Ret _ => true | Raise _ => false end.

Lemma json_chars_nonneg j : 0 <= json_chars j.
Proof. destruct j; simpl; try lia; apply slen_nonneg. Qed.

Lemma call_chars_nonneg fn : 0 <= call_chars fn.
Proof. unfold call_chars. pose proof (slen_nonneg (str_or_empty (jget fn "name"))).
  pose proof (json_chars_nonneg (jget fn "arguments")). lia. Qed.

Lemma tool_calls_chars_nonneg j : 0 <= tool_calls_chars j.
Proof.
  destruct j as [| | | | |l|]; simpl; try lia.
  induction l as [|c l IH]; simpl; [lia|]. destruct c; try done.
  pose proof (call_chars_nonneg []). case_match; try lia.
  pose proof (call_chars_nonneg d0). lia.
Qed.

Lemma dget_map_snd {A B} (f : A -> B) (d : dict string A) k :
  dget (map (fun kv => (kv.1, f kv.2)) d) k = f <$> dget d k.
Proof. induction d as [|[a b] d IH]; simpl; [done|]. by case_decide. Qed.

(** What a count is expected to be: an answer exactly when [ok], and then a
    non-negative one. *)
Definition counts (r : res Z) (ok : bool) : Prop :=
  is_ret r = ok /\ forall n, r = Ret n -> 0 <= n.

Lemma counts_ret x : 0 <= x -> counts (Ret x) true.
Proof. intros H. split; [done|]. by intros n [= <-]. Qed.

Lemma counts_raise e : counts (Raise e) false.
Proof. by split. Qed.

Lemma counts_add r1 ok1 r2 ok2 :
  counts r1 ok1 -> counts r2 ok2 ->
  counts (n ← r1; m ← r2; Ret (n + m)) (ok1 && ok2).
Proof.
  intros [<- H1] [<- H2]. destruct r1 as [x|]; simpl; [|apply counts_raise].
  destruct r2 as [y|]; simpl; [|apply counts_raise]. apply counts_ret.
  specialize (H1 _ eq_refl). specialize (H2 _ eq_refl). lia.
Qed.

Lemma typed_part_chars_ok d :
  Forall (fun kv => counts (content_chars kv.2) (content_ok kv.2)) d ->
  counts (typed_part_chars d (map (fun kv => (kv.1, content_chars kv.2)) d))
    (typed_part_ok d (map (fun kv => (kv.1, content_ok kv.2)) d)).
Proof.
  intros HF. unfold typed_part_chars, typed_part_ok. rewrite !dget_map_snd.
  pose proof (counts_ret _ (json_chars_nonneg (JDict d))) as Hd.
  destruct (jget d "type") as [| | | |t| |]; try done.
  destruct (String.eqb_spec t "tool_use") as [->|].
  - apply counts_ret. pose proof (slen_nonneg (str_or_empty (jget d "name"))).
    pose proof (json_chars_nonneg (jget d "input")). lia.
  - destruct (String.eqb_spec t "tool_result") as [->|].
    + destruct (dget d "content") as [c|] eqn:E; simpl; [|by apply counts_ret].
      apply dget_elem in E. rewrite Forall_forall in HF. apply (HF _ E).
    + case_bool_decide; [by apply counts_ret|done].
Qed.

Lemma part_chars_ok d :
  Forall (fun kv => counts (content_chars kv.2) (content_ok kv.2)) d ->
  counts (part_chars d (map (fun kv => (kv.1, content_chars kv.2)) d))
    (part_ok d (map (fun kv => (kv.1, content_ok kv.2)) d)).
Proof.
  intros HF. pose proof (typed_part_chars_ok d HF). unfold part_chars, part_ok.
  destruct (jget d "text"); try done. apply counts_ret, slen_nonneg.
Qed.

Lemma content_chars_ok : forall c, counts (content_chars c) (content_ok c).
Proof.
  (* The claim for a dictionary's values travels with the dictionary, because a
     part's own content is reached through it. *)
  assert (forall c, counts (content_chars c) (content_ok c) /\
            match c with
            | JDict d => Forall (fun kv => counts (content_chars kv.2) (content_ok kv.2)) d
            | _ => True
            end) as H; [|intros c; apply H].
  induction c as [| | | |s|l IH|d IH] using json_nested_ind;
    try (split; [by apply counts_ret|done]).
  - split; [|done]. apply counts_ret, slen_nonneg.
  - split; [|done]. induction IH as [|part l [Hp Hd] _ IHl]; [by apply counts_ret|].
    cbn [content_chars content_ok forallb]. apply counts_add; [|exact IHl].
    destruct part; try (by apply counts_ret); [apply counts_ret, slen_nonneg|].
    by apply part_chars_ok.
  - split; [apply counts_ret, (json_chars_nonneg (JDict d))|].
    eapply Forall_impl; [exact IH|]. intros kv [H _]. exact H.
Qed.

Lemma message_chars_ok msg : counts (message_chars msg) (message_ok msg).
Proof.
  destruct msg as [| | | |s| |d]; try (by apply counts_ret); [apply counts_ret, slen_nonneg|].
  simpl. destruct (content_chars_ok (jget d "content")) as [<- H].
  destruct (content_chars (jget d "content")) as [n|]; simpl; [|apply counts_raise].
  apply counts_ret. specialize (H _ eq_refl). pose proof (tool_calls_chars_nonneg (jget d "tool_calls")).
  case_match; try lia. pose proof (call_chars_nonneg d0). lia.
Qed.

Lemma messages_chars_ok l : counts (messages_chars l) (forallb message_ok l).
Proof.
  induction l as [|msg l IH]; [by apply counts_ret|].
  cbn [messages_chars forallb]. apply counts_add; [apply message_chars_ok|exact IH].
Qed.

Lemma messages_chars_app l k :
  messages_chars (l ++ k) = n ← messages_chars l; m ← messages_chars k; Ret (n + m).
Proof.
  induction l as [|msg l IH]; simpl.
  - by destruct (messages_chars k).
  - rewrite IH. destruct (message_chars msg); simpl; [|done].
    destruct (messages_chars l); simpl; [|done].
    destruct (messages_chars k); simpl; [|done]. f_equal. lia.
Qed.

Lemma estimate_tokens_mono a b : a <= b -> estimate_tokens_from_chars a <= estimate_tokens_from_chars b.
Proof.
  intros H. unfold estimate_tokens_from_chars.
  pose proof (Z.div_le_mono a b 4 ltac:(lia) H). lia.
Qed.

Lemma system_chars_nonneg j : 0 <= system_chars j.
Proof.
  destruct j as [| | | |s|l|]; simpl; try lia; [apply slen_nonneg|].
  induction l as [|p l IH]; simpl; [lia|]. destruct p as [| | | |s| |d]; try done.
  - pose proof (slen_nonneg s). lia.
  - pose proof (slen_nonneg (py_str (from_option id (JStr "") (dget d "text")))). lia.
Qed.

(** The estimate of a payload whose messages are the list [l]. *)
Lemma estimate_of_list p l n :
  jget p "messages" = JList l -> estimate_input_tokens p = Ret n ->
  exists c, messages_chars l = Ret c /\
    n = estimate_tokens_from_chars
          (system_chars (jget p "system") +
           (if truthy (jget p "tools") then json_chars (jget p "tools") else 0) + c).
Proof.
  intros Hm. unfold estimate_input_tokens. rewrite Hm.
  assert ((if truthy (JList l) then iterate (JList l) else Ret []) = Ret l) as -> by (by destruct l).
  simpl. destruct (messages_chars l) as [c|]; simpl; [|done]. intros [= <-]. eauto.
Qed.

Definition with_messages (p : dict string json) (l : list json) : dict string json :=
  dset p "messages" (JList l).

Lemma jget_with_messages p l k :
  jget (with_messages p l) k = if String.eqb k "messages" then JList l else jget p k.
Proof.
  unfold jget, with_messages. rewrite dget_dset.
  destruct (String.eqb_spec k "messages"); [subst; by rewrite decide_True|].
  by rewrite decide_False by congruence.
Qed.

Lemma estimate_append_mono p l k n n' :
  estimate_input_tokens (with_messages p l) = Ret n ->
  estimate_input_tokens (with_messages p (l ++ k)) = Ret n' -> n <= n'.
Proof.
  intros H H'. apply estimate_of_list with (l := l) in H as (c & Hc & ->);
    [|by rewrite jget_with_messages].
  apply estimate_of_list with (l := (l ++ k)%list) in H' as (c' & Hc' & ->);
    [|by rewrite jget_with_messages].
  rewrite messages_chars_app, Hc in Hc'. simpl in Hc'.
  destruct (messages_chars k) as [d|] eqn:Hd; simpl in Hc'; [|done]. injection Hc' as <-.
  pose proof (proj2 (messages_chars_ok k) d Hd). rewrite !jget_with_messages. simpl.
  apply estimate_tokens_mono. lia.
Qed.

Lemma estimate_prefix_answers p l k n :
  estimate_input_tokens (with_messages p (l ++ k)) = Ret n ->
  exists n0, estimate_input_tokens (with_messages p l) = Ret n0.
Proof.
  intros H. apply estimate_of_list with (l := (l ++ k)%list) in H as (c & Hc & _);
    [|by rewrite jget_with_messages].
  rewrite messages_chars_app in Hc. unfold estimate_input_tokens.
  rewrite (jget_with_messages p l "messages"). simpl String.eqb. cbv iota.
  assert ((if truthy (JList l) then iterate (JList l) else Ret []) = Ret l) as -> by (by destruct l).
  simpl. destruct (messages_chars l); simpl in *; [eauto|done].
Qed.

(** ** Properties *)

Local Open Scope Q_scope.

(** An EWMA never leaves the range of its samples: after any non-empty
    sequence of updates with samples between [lo] and [hi] the average lies
    between them and the variance is not negative. *)
Theorem ewma_stays_in_hull a lo hi samples :
  smoothing a -> samples <> [] -> Forall (in_range lo hi) samples ->
  let t := foldl ewma_update (new_ewma a) samples in
  in_range lo hi (value t) /\ 0 <= variance t /\ sample_count t = zlen samples.
Proof.
  intros Ha Hne HF t.
  assert (forall l u, Forall (in_range lo hi) l -> tracker_in lo hi u ->
     tracker_in lo hi (foldl ewma_update u l) /\
     sample_count (foldl ewma_update u l) = (sample_count u + zlen l)%Z) as H.
  { unfold zlen. induction l as [|x l IH]; intros u Hl Hu; simpl; [split; [done|lia]|].
    inversion Hl as [|? ? Hx Hl']; subst. destruct (ewma_update_in lo hi u x Hu Hx) as [Hu' _].
    destruct (IH _ Hl' Hu') as [? ->]. rewrite ewma_update_count. split; [done|lia]. }
  destruct (H samples (new_ewma a) HF (tracker_in_new _ _ _ Ha)) as [(_ & _ & Hv & Hr) Hc].
  fold t in Hv, Hr, Hc. simpl in Hc. split_and!; [|done|done]. apply Hr. rewrite Hc.
  unfold zlen. destruct samples; [done|]. simpl. lia.
Qed.

(** What can happen to the fleet cost model while the proxy runs. *)
Inductive cost_step : CostModel -> CostModel -> Prop :=
| cs_register cm e slots k tps :
    0 <= k -> (forall l, tps = Some l -> Forall (fun x => 0 < x) l) ->
    cost_step cm (register_endpoint cm e slots k tps)
| cs_record cm e cs inp out dur occ cm' :
    record_completion cm e cs inp out dur occ = Ret cm' -> cost_step cm cm'
| cs_resize cm e n : cost_step cm (update_max_slots cm e n).

Lemma cost_step_ok cm cm' : cost_step cm cm' -> costs_ok cm -> costs_ok cm'.
Proof.
  destruct 1 as [cm e slots k tps Hk Ht|cm e cs inp out dur occ cm' H|cm e n]; intros Hok.
  - by apply register_endpoint_ok.
  - destruct (record_completion_ret cm e cs inp out dur occ) as (cm1 & H1 & Hk & _).
    assert (cm1 = cm') as <- by congruence. auto.
  - by apply update_max_slots_ok.
Qed.

(** In every cost model the proxy can build up, by registering endpoints,
    calibrating from any completion and resizing to any discovered slot count
    (zero included), every request with a numeric non-negative output budget
    gets an estimate, at any occupancy, and the estimate is not negative. *)
Theorem reachable_estimate_nonneg cm e inp mo cs occ q :
  rtc cost_step [] cm -> py_number mo = Some q -> 0 <= q -> (0 <= inp)%Z ->
  exists c, estimate_cost cm e inp mo cs occ = Ret c /\ 0 <= c.
Proof.
  intros Hrun Hq H0 Hi. assert (costs_ok cm) as Hok.
  { assert (costs_ok []) as Hnil by done. revert Hnil.
    induction Hrun; eauto using cost_step_ok. }
  unfold estimate_cost. destruct (dget cm e) as [m|] eqn:E.
  - destruct (estimate_cost_ss_num m inp mo cs occ q Hq) as (c & Hc & Hn). eauto.
  - assert (py_float mo = Ret q) as -> by (destruct mo; simpl in *; congruence).
    eexists. split; [done|]. apply Qdiv_nonneg; [done|lra].
Qed.

(** Calibration cannot fail: whatever the model's curve, slot count and the
    reported occupancy, no index is out of range. *)
Theorem record_completion_total cm e cs inp out dur occ :
  exists cm', record_completion cm e cs inp out dur occ = Ret cm' /\ dkeys cm' = dkeys cm.
Proof. destruct (record_completion_ret cm e cs inp out dur occ) as (cm' & ? & _ & ?). eauto. Qed.

(** On a registered endpoint an estimate fails only with [TypeError], and
    only for an output budget that is not a number; an explicit null budget on
    a freshly registered endpoint with slots does fail. *)
Theorem estimate_fails_only_on_non_number m inp mo cs occ :
  (forall e, estimate_cost_ss m inp mo cs occ = Raise e -> e = TypeError /\ py_number mo = None) /\
  (dget (output_length_ewma m) cs = None -> decode_tps m <> [] -> (0 < cm_max_slots m)%Z ->
   Forall (fun x => 0 < x) (decode_tps m) ->
   estimate_cost_ss m inp JNull cs occ = Raise TypeError).
Proof.
  split; [intros e; apply estimate_cost_ss_err|]. intros Hn Hne Hs Hp.
  unfold estimate_cost_ss, est_output. rewrite Hn. cbn [mbind res_bind].
  rewrite bool_decide_eq_false_2 by done. destruct (Z.leb_spec (cm_max_slots m) 0); [lia|].
  cbn [orb]. destruct (tps_read_ret m occ Hne Hs) as (x & -> & Hx). cbn [mbind res_bind].
  rewrite Forall_forall in Hp. specialize (Hp _ Hx). by destruct (Qltb_spec 0 x); [|lra].
Qed.

Local Open Scope Z_scope.

(** The payloads the estimator answers on. *)
Definition estimator_answers (p : dict string json) : bool :=
  let messages := jget p "messages" in
  if truthy messages then
    match iterate messages with
    | Ret l => forallb message_ok l
    | Raise _ => false
    end
  else true.

(** The token estimator answers exactly on payloads whose messages are
    absent, empty or iterable with no content part of an unhashable [type], and
    its answer is at least one token: it does raise on the rest. *)
Theorem estimator_answers_iff p :
  is_ret (estimate_input_tokens p) = estimator_answers p /\
  forall n, estimate_input_tokens p = Ret n -> 1 <= n.
Proof.
  unfold estimate_input_tokens, estimator_answers.
  assert (forall l, is_ret (mc ← messages_chars l; Ret (estimate_tokens_from_chars
      (system_chars (jget p "system") + (if truthy (jget p "tools") then json_chars (jget p "tools") else 0) + mc)))
      = forallb message_ok l) as H.
  { intros l. rewrite <- (proj1 (messages_chars_ok l)). by destruct (messages_chars l). }
  split.
  - destruct (truthy (jget p "messages")); [|apply (H [])].
    destruct (iterate (jget p "messages")); [apply H|done].
  - intros n Hn. apply res_bind_Ret in Hn as (l & _ & Hn).
    apply res_bind_Ret in Hn as (c & _ & [= <-]). unfold estimate_tokens_from_chars. lia.
Qed.

(** The context gate is monotone: if a transcript fits a ceiling then every
    prefix of it fits every higher ceiling. *)
Theorem context_fit_monotone p t l k lim lim' f :
  0 < lim -> lim <= lim' ->
  context_fit (with_messages p (l ++ k)) t lim = Ret f -> fits f = true ->
  exists f', context_fit (with_messages p l) t lim' = Ret f' /\ fits f' = true /\ est_in f' <= est_in f.
Proof.
  intros Hl Hle. unfold context_fit. destruct (negb (String.eqb t "chat_completion")).
  { cbn [orb]. intros [= <-] _. eexists. split; [done|]. simpl. split; [done|lia]. }
  destruct (Z.leb_spec lim 0); [lia|]. destruct (Z.leb_spec lim' 0); [lia|]. cbn [orb].
  intros (n & Hn & [= <-])%res_bind_Ret. simpl. intros Hf%Z.leb_le.
  destruct (estimate_prefix_answers _ _ _ _ Hn) as [n0 Hn0]. rewrite Hn0. simpl.
  pose proof (estimate_append_mono _ _ _ _ _ Hn0 Hn).
  assert (declared_max_tokens (with_messages p l) = declared_max_tokens (with_messages p (l ++ k))) as ->.
  { unfold declared_max_tokens. by rewrite !jget_with_messages. }
  eexists. split; [done|]. simpl. split; [apply Z.leb_le; lia|done].
Qed.

(** ** Witnesses and concrete runs *)

Local Open Scope Q_scope.

Lemma ewma_stays_in_hull_witness :
  in_range 1 9 (value (foldl ewma_update (new_ewma (1 # 10)) [3; 9; 1; 5])) /\
  sample_count (foldl ewma_update (new_ewma (1 # 10)) [3; 9; 1; 5]) = 4%Z.
Proof.
  destruct (ewma_stays_in_hull (1 # 10) 1 9 [3; 9; 1; 5]) as (H1 & _ & H3).
  - split; lra.
  - done.
  - repeat constructor; simpl; lra.
  - by split.
Defined.

Definition demo_costs : CostModel :=
  update_max_slots (register_endpoint [] "thinker" 4 (1 # 1000) None) "thinker" 2.

Lemma reachable_estimate_nonneg_witness :
  exists c, estimate_cost demo_costs "thinker" 1000 (JInt 256) "chat" 1 = Ret c /\ 0 <= c.
Proof.
  apply (reachable_estimate_nonneg demo_costs "thinker" 1000 (JInt 256) "chat" 1 (inject_Z 256)).
  - eapply rtc_l.
    + apply (cs_register [] "thinker" 4 (1 # 1000) None); [lra|done].
    + apply rtc_once. apply cs_resize.
  - reflexivity.
  - unfold Qle; simpl; lia.
  - lia.
Defined.

Definition demo_model : EndpointCostModel :=
  {| cm_endpoint := "thinker"; cm_max_slots := 2; prefill_k := 1 # 1000; decode_tps := [40; 35];
     output_length_ewma := []; prefill_ewma := new_ewma (5 # 100); decode_tps_ewma := [] |}.

Lemma estimate_fails_only_on_non_number_witness :
  estimate_cost_ss demo_model 10 JNull "chat" 0 = Raise TypeError.
Proof.
  apply (proj2 (estimate_fails_only_on_non_number demo_model 10 JNull "chat" 0)).
  - reflexivity.
  - discriminate.
  - simpl; lia.
  - repeat constructor; lra.
Defined.

Definition demo_turns : list json :=
  [JDict [("role", JStr "user"); ("content", JStr "hello world, a prompt")]].

Lemma context_fit_monotone_witness :
  exists f', context_fit (with_messages [("max_tokens", JInt 4)] []) "chat_completion" 20 = Ret f' /\
    fits f' = true /\ (est_in f' <= 5)%Z.
Proof.
  apply (context_fit_monotone [("max_tokens", JInt 4)] "chat_completion" [] demo_turns 10 20
           {| fits := true; est_in := 5; est_out := 4; limit := 10 |}).
  - lia.
  - lia.
  - vm_compute. reflexivity.
  - reflexivity.
Defined.

(** Two payloads the estimator raises on. *)
Example estimator_raises_on_int_messages :
  estimate_input_tokens [("messages", JInt 5)] = Raise TypeError.
Proof. reflexivity. Qed.

Example estimator_raises_on_list_type :
  estimate_input_tokens
    [("messages", JList [JDict [("role", JStr "user"); ("content", JList [JDict [("type", JList [])]])]])]
  = Raise TypeError.
Proof. reflexivity. Qed.
