(* ===== verification/Queue.v ===== *)
(** * Requests and the per-endpoint queue (scheduler.py, first half)

    [QueuedRequest] with its constructor, the context gate on a request, and
    [EndpointQueue]: one FIFO deque per band and agent with a round-robin order
    per band.  [bq_ok] is the representation invariant tying the deques to the
    round-robin order; every operation keeps it and its effect on the multiset
    of queued requests is stated as a permutation. *)

From Stdlib Require Import QArith Lqa Lia ZArith Permutation Sorted.
From stdpp Require Import base list strings.
From S2P Require Import Prelude PyDict PyText Config Json Cost.

Local Open Scope Z_scope.

(** ** QueuedRequest *)

Record QueuedRequest := {
  r_request_id : string;
  r_agent_id : string;
  r_endpoint : string;
  r_priority : LLMPriority;
  r_band : PriorityBand;
  r_call_site : string;
  r_payload_type : string;
  r_payload : dict string json;
  r_timeout_deadline : Q;
  r_enqueued_at : Q;
  r_estimated_cost_ss : Q;
  r_est_input_tokens : Z;
  r_session_id : option string;
  r_turn_id : option string;
  r_caller_id : option string;
  r_declared_agent_id : string;
  r_asserted_by_key_id : string;
  r_timeout_s : Q;
  r_stream : bool;
  r_ctx_per_slot_at_admission : Z;
  r_json_object_stripped : bool;
  r_forced_tool_schema : option json;
  r_forced_tool_name : string;
  r_deadline_is_default : bool;
  r_degraded_from : option string;
  r_spilled_from : option string;
  r_requested : string;
  r_routed_to : string;
  r_allow_degrade : option bool;
  r_allow_spill : option bool;
  r_no_store_outcome : string;
}.

(** [if x:] on an optional string. *)
Definition str_truthy (o : option string) : bool :=
  match o with
  | Some s => negb (String.eqb s "")
  | None => false
  end.

(** [QueuedRequest.no_store] *)
Definition no_store (r : QueuedRequest) : bool := String.eqb (r_no_store_outcome r) "honoured".

(** The keyword arguments of [QueuedRequest.create]; [ca_fresh] is the generated
    identifier used when the caller sent none, [ca_now] the clock reading. *)
Record CreateArgs := {
  ca_agent_id : string;
  ca_endpoint : string;
  ca_priority : PrioValue;
  ca_call_site : string;
  ca_payload_type : string;
  ca_payload : dict string json;
  ca_timeout_s : Q;
  ca_session_id : option string;
  ca_turn_id : option string;
  ca_caller_id : option string;
  ca_request_id : option string;
  ca_now : Q;
  ca_deadline_is_default : bool;
  ca_declared_agent_id : string;
  ca_asserted_by_key_id : string;
  ca_requested : string;
  ca_allow_degrade : option bool;
  ca_allow_spill : option bool;
  ca_no_store_outcome : string;
  ca_fresh : string;
}.

(** [QueuedRequest.create] *)
Definition create (role_to_class : dict string string) (a : CreateArgs) : res QueuedRequest :=
  pri ← coerce (ca_priority a) (Some P1_TURN_SUPPORT);
  let ep := normalize_endpoint role_to_class (ca_endpoint a) in
  Ret {| r_request_id := if str_truthy (ca_request_id a)
                         then from_option id EmptyString (ca_request_id a) else ca_fresh a;
         r_agent_id := ca_agent_id a;
         r_endpoint := ep;
         r_priority := pri;
         r_band := priority_to_band pri;
         r_call_site := ca_call_site a;
         r_payload_type := ca_payload_type a;
         r_payload := ca_payload a;
         r_timeout_deadline := (ca_now a + ca_timeout_s a)%Q;
         r_enqueued_at := ca_now a;
         r_estimated_cost_ss := 0%Q;
         r_est_input_tokens := 0;
         r_session_id := ca_session_id a;
         r_turn_id := ca_turn_id a;
         r_caller_id := ca_caller_id a;
         r_declared_agent_id := ca_declared_agent_id a;
         r_asserted_by_key_id := ca_asserted_by_key_id a;
         r_timeout_s := ca_timeout_s a;
         r_stream := truthy (jget (ca_payload a) "stream");
         r_ctx_per_slot_at_admission := 0;
         r_json_object_stripped := false;
         r_forced_tool_schema := None;
         r_forced_tool_name := EmptyString;
         r_deadline_is_default := ca_deadline_is_default a;
         r_degraded_from := None;
         r_spilled_from := None;
         r_requested := if negb (String.eqb (ca_requested a) "") then ca_requested a else ca_endpoint a;
         r_routed_to := ep;
         r_allow_degrade := ca_allow_degrade a;
         r_allow_spill := ca_allow_spill a;
         r_no_store_outcome := ca_no_store_outcome a |}.

(** [req.est_input_tokens = n; req.estimated_cost_ss = c] *)
Definition with_cost (r : QueuedRequest) (n : Z) (c : Q) : QueuedRequest :=
  {| r_request_id := r_request_id r; r_agent_id := r_agent_id r; r_endpoint := r_endpoint r;
     r_priority := r_priority r; r_band := r_band r; r_call_site := r_call_site r;
     r_payload_type := r_payload_type r; r_payload := r_payload r;
     r_timeout_deadline := r_timeout_deadline r; r_enqueued_at := r_enqueued_at r;
     r_estimated_cost_ss := c; r_est_input_tokens := n;
     r_session_id := r_session_id r; r_turn_id := r_turn_id r; r_caller_id := r_caller_id r;
     r_declared_agent_id := r_declared_agent_id r; r_asserted_by_key_id := r_asserted_by_key_id r;
     r_timeout_s := r_timeout_s r; r_stream := r_stream r;
     r_ctx_per_slot_at_admission := r_ctx_per_slot_at_admission r;
     r_json_object_stripped := r_json_object_stripped r;
     r_forced_tool_schema := r_forced_tool_schema r; r_forced_tool_name := r_forced_tool_name r;
     r_deadline_is_default := r_deadline_is_default r; r_degraded_from := r_degraded_from r;
     r_spilled_from := r_spilled_from r; r_requested := r_requested r; r_routed_to := r_routed_to r;
     r_allow_degrade := r_allow_degrade r; r_allow_spill := r_allow_spill r;
     r_no_store_outcome := r_no_store_outcome r |}.

(** [req.spilled_from], [req.degraded_from], [req.endpoint] and
    [req.ctx_per_slot_at_admission] re-pointed at another endpoint. *)
Definition moved (r : QueuedRequest) (deg spilled : option string) (target : string) (ctx : Z)
  : QueuedRequest :=
  {| r_request_id := r_request_id r; r_agent_id := r_agent_id r; r_endpoint := target;
     r_priority := r_priority r; r_band := r_band r; r_call_site := r_call_site r;
     r_payload_type := r_payload_type r; r_payload := r_payload r;
     r_timeout_deadline := r_timeout_deadline r; r_enqueued_at := r_enqueued_at r;
     r_estimated_cost_ss := r_estimated_cost_ss r; r_est_input_tokens := r_est_input_tokens r;
     r_session_id := r_session_id r; r_turn_id := r_turn_id r; r_caller_id := r_caller_id r;
     r_declared_agent_id := r_declared_agent_id r; r_asserted_by_key_id := r_asserted_by_key_id r;
     r_timeout_s := r_timeout_s r; r_stream := r_stream r;
     r_ctx_per_slot_at_admission := ctx;
     r_json_object_stripped := r_json_object_stripped r;
     r_forced_tool_schema := r_forced_tool_schema r; r_forced_tool_name := r_forced_tool_name r;
     r_deadline_is_default := r_deadline_is_default r; r_degraded_from := deg;
     r_spilled_from := spilled; r_requested := r_requested r; r_routed_to := r_routed_to r;
     r_allow_degrade := r_allow_degrade r; r_allow_spill := r_allow_spill r;
     r_no_store_outcome := r_no_store_outcome r |}.

(** [_fits_context] *)
Definition fits_context (r : QueuedRequest) (ctx_limit : Z) : res bool :=
  f ← context_fit (r_payload r) (r_payload_type r) ctx_limit;
  Ret (fits f).

(** ** EndpointQueue *)

(** One band: the agent deques and the round-robin order. *)
Record BandQueue := {
  bq_agents : dict string (list QueuedRequest);
  bq_robin : list string;
}.

Record EndpointQueue := {
  eq_interactive : BandQueue;
  eq_foreground : BandQueue;
  eq_background : BandQueue;
}.

Definition empty_band : BandQueue := {| bq_agents := []; bq_robin := [] |}.

Definition empty_queue : EndpointQueue :=
  {| eq_interactive := empty_band; eq_foreground := empty_band; eq_background := empty_band |}.

(** [self._queues[band]], [self._robin[band]] *)
Definition band_of (eq : EndpointQueue) (b : PriorityBand) : BandQueue :=
  match b with
  | INTERACTIVE => eq_interactive eq
  | FOREGROUND => eq_foreground eq
  | BACKGROUND => eq_background eq
  end.

Definition set_band (eq : EndpointQueue) (b : PriorityBand) (q : BandQueue) : EndpointQueue :=
  match b with
  | INTERACTIVE => {| eq_interactive := q; eq_foreground := eq_foreground eq; eq_background := eq_background eq |}
  | FOREGROUND => {| eq_interactive := eq_interactive eq; eq_foreground := q; eq_background := eq_background eq |}
  | BACKGROUND => {| eq_interactive := eq_interactive eq; eq_foreground := eq_foreground eq; eq_background := q |}
  end.

(** A deque as the code reads it: absent and empty are the same. *)
Definition deque_of (q : BandQueue) (a : string) : list QueuedRequest :=
  from_option id [] (dget (bq_agents q) a).

Definition bq_enqueue (q : BandQueue) (r : QueuedRequest) : BandQueue :=
  match dget (bq_agents q) (r_agent_id r) with
  | Some d => {| bq_agents := dset (bq_agents q) (r_agent_id r) (d ++ [r]); bq_robin := bq_robin q |}
  | None => {| bq_agents := dset (bq_agents q) (r_agent_id r) [r];
               bq_robin := bq_robin q ++ [r_agent_id r] |}
  end.

(** Store a shortened deque: an emptied agent leaves the band and its robin. *)
Definition put_deque (q : BandQueue) (a : string) (d : list QueuedRequest) : BandQueue :=
  match d with
  | [] => {| bq_agents := ddel (bq_agents q) a; bq_robin := remove1 a (bq_robin q) |}
  | _ => {| bq_agents := dset (bq_agents q) a d; bq_robin := bq_robin q |}
  end.

Definition bq_dequeue (q : BandQueue) (a : string) : option QueuedRequest * BandQueue :=
  match deque_of q a with
  | [] => (None, q)
  | r :: d => (Some r, put_deque q a d)
  end.

Definition bq_depth (q : BandQueue) : Z :=
  foldr Z.add 0 (map zlen (dvals (bq_agents q))).

Definition bq_rotate (q : BandQueue) : BandQueue :=
  {| bq_agents := bq_agents q; bq_robin := rotate_left (bq_robin q) |}.

(** [q[0].timeout_deadline <= deadline] *)
Definition past (deadline : Q) (r : QueuedRequest) : bool :=
  Qle_bool (r_timeout_deadline r) deadline.

(** One agent of the expiry loop. *)
Definition expire_agent (deadline : Q) (st : list QueuedRequest * BandQueue) (a : string)
  : list QueuedRequest * BandQueue :=
  let '(expired, q) := st in
  let d := deque_of q a in
  (expired ++ take_while (past deadline) d, put_deque q a (drop_while (past deadline) d)).

Definition expire_band (deadline : Q) (expired : list QueuedRequest) (q : BandQueue)
  : list QueuedRequest * BandQueue :=
  foldl (expire_agent deadline) (expired, q) (dkeys (bq_agents q)).

(** [EndpointQueue.enqueue] *)
Definition eq_enqueue (eq : EndpointQueue) (r : QueuedRequest) : EndpointQueue :=
  set_band eq (r_band r) (bq_enqueue (band_of eq (r_band r)) r).

(** [EndpointQueue.dequeue] *)
Definition dequeue (eq : EndpointQueue) (b : PriorityBand) (a : string)
  : option QueuedRequest * EndpointQueue :=
  let '(r, q) := bq_dequeue (band_of eq b) a in (r, set_band eq b q).

(** [EndpointQueue.peek] *)
Definition peek (eq : EndpointQueue) (b : PriorityBand) (a : string) : option QueuedRequest :=
  head (deque_of (band_of eq b) a).

Definition agents_in_band (eq : EndpointQueue) (b : PriorityBand) : list string :=
  bq_robin (band_of eq b).

Definition band_depth (eq : EndpointQueue) (b : PriorityBand) : Z := bq_depth (band_of eq b).

Definition agent_depth (eq : EndpointQueue) (b : PriorityBand) (a : string) : Z :=
  zlen (deque_of (band_of eq b) a).

Definition total_depth (eq : EndpointQueue) : Z :=
  foldr Z.add 0 (map (band_depth eq) all_bands).

Definition rotate_robin (eq : EndpointQueue) (b : PriorityBand) : EndpointQueue :=
  set_band eq b (bq_rotate (band_of eq b)).

(** [EndpointQueue.expire_before] *)
Definition expire_before (eq : EndpointQueue) (deadline : Q) : list QueuedRequest * EndpointQueue :=
  foldl (fun st b =>
           let '(expired, eq) := st in
           let '(expired', q) := expire_band deadline expired (band_of eq b) in
           (expired', set_band eq b q))
    ([], eq) all_bands.

(** Delete the first request with this identifier ([del q[i]]). *)
Fixpoint delete_id (id_ : string) (d : list QueuedRequest) : option (list QueuedRequest) :=
  match d with
  | [] => None
  | r :: d' => if String.eqb (r_request_id r) id_ then Some d' else cons r <$> delete_id id_ d'
  end.

(** The agent loop of [Scheduler.cancel] in one band. *)
Fixpoint cancel_agents (id_ : string) (q : BandQueue) (keys : list string) : option BandQueue :=
  match keys with
  | [] => None
  | a :: keys' =>
      match delete_id id_ (deque_of q a) with
      | Some d => Some (put_deque q a d)
      | None => cancel_agents id_ q keys'
      end
  end.

Fixpoint cancel_bands (id_ : string) (eq : EndpointQueue) (bands : list PriorityBand)
  : option EndpointQueue :=
  match bands with
  | [] => None
  | b :: bands' =>
      match cancel_agents id_ (band_of eq b) (dkeys (bq_agents (band_of eq b))) with
      | Some q => Some (set_band eq b q)
      | None => cancel_bands id_ eq bands'
      end
  end.

(** ** The representation invariant *)

Definition tagged (b : PriorityBand) (a : string) (r : QueuedRequest) : Prop :=
  r_agent_id r = a /\ r_band r = b.

Record bq_ok (b : PriorityBand) (q : BandQueue) : Prop := {
  bq_keys : dwf (bq_agents q);
  bq_order : bq_robin q ≡ₚ dkeys (bq_agents q);
  bq_deques : forall a d, dget (bq_agents q) a = Some d -> d <> [] /\ Forall (tagged b a) d;
}.

Definition eq_ok (eq : EndpointQueue) : Prop := forall b, bq_ok b (band_of eq b).

(** The queued requests, as a list up to permutation. *)
Definition bq_reqs (q : BandQueue) : list QueuedRequest := concat (dvals (bq_agents q)).

Definition eq_reqs (eq : EndpointQueue) : list QueuedRequest :=
  concat (map (fun b => bq_reqs (band_of eq b)) all_bands).

(** *** Bands of a queue *)

Lemma band_of_set eq b q b' :
  band_of (set_band eq b q) b' = if decide (b = b') then q else band_of eq b'.
Proof. by destruct b, b'. Qed.

Lemma set_band_same eq b : set_band eq b (band_of eq b) = eq.
Proof. by destruct b, eq. Qed.

Lemma all_bands_all b : b ∈ all_bands.
Proof. destruct b; unfold all_bands; rewrite !elem_of_cons; auto. Qed.

Lemma eq_ok_set eq b q : eq_ok eq -> bq_ok b q -> eq_ok (set_band eq b q).
Proof. intros H Hq b'. rewrite band_of_set. case_decide; [by subst|done]. Qed.

(** Replacing one band replaces its share of the queued requests. *)
Lemma eq_reqs_set eq b q :
  exists rest, eq_reqs eq ≡ₚ bq_reqs (band_of eq b) ++ rest /\
               eq_reqs (set_band eq b q) ≡ₚ bq_reqs q ++ rest.
Proof.
  unfold eq_reqs, all_bands. destruct b; simpl; rewrite ?app_nil_r.
  - by exists (bq_reqs (eq_foreground eq) ++ bq_reqs (eq_background eq)).
  - exists (bq_reqs (eq_interactive eq) ++ bq_reqs (eq_background eq)). by split; solve_Permutation.
  - exists (bq_reqs (eq_interactive eq) ++ bq_reqs (eq_foreground eq)). by split; solve_Permutation.
Qed.

Lemma eq_reqs_elem eq r : r ∈ eq_reqs eq <-> exists b, r ∈ bq_reqs (band_of eq b).
Proof.
  unfold eq_reqs, all_bands. simpl. rewrite !elem_of_app. split.
  - intros [H|[H|[H|H]]]; [by exists INTERACTIVE|by exists FOREGROUND|by exists BACKGROUND|].
    by apply not_elem_of_nil in H.
  - intros [[] H]; auto.
Qed.

Lemma bq_ok_empty b : bq_ok b empty_band.
Proof. split; simpl; [apply dwf_nil|done|done]. Qed.

Lemma eq_ok_empty : eq_ok empty_queue.
Proof. intros []; apply bq_ok_empty. Qed.

Lemma zlen_app {A} (l k : list A) : zlen (l ++ k) = zlen l + zlen k.
Proof. unfold zlen. rewrite length_app. lia. Qed.

Lemma zlen_cons {A} (x : A) l : zlen (x :: l) = 1 + zlen l.
Proof. unfold zlen. simpl. lia. Qed.

Lemma zlen_perm {A} (l k : list A) : l ≡ₚ k -> zlen l = zlen k.
Proof. intros H. unfold zlen. by rewrite H. Qed.

Lemma zlen_nonneg {A} (l : list A) : 0 <= zlen l.
Proof. unfold zlen. lia. Qed.

Lemma zlen_nil_inv {A} (l : list A) : zlen l <= 0 -> l = [].
Proof. destruct l; [done|]. unfold zlen. simpl. lia. Qed.

Lemma bq_depth_reqs q : bq_depth q = zlen (bq_reqs q).
Proof.
  unfold bq_depth, bq_reqs. induction (dvals (bq_agents q)) as [|d l IH]; simpl; [done|].
  by rewrite zlen_app, IH.
Qed.

Lemma total_depth_reqs eq : total_depth eq = zlen (eq_reqs eq).
Proof.
  unfold total_depth, eq_reqs, band_depth, all_bands. simpl.
  rewrite !bq_depth_reqs, !zlen_app. done.
Qed.

Lemma bq_reqs_elem b q r :
  bq_ok b q -> r ∈ bq_reqs q <-> exists a, r ∈ deque_of q a.
Proof.
  intros Hq. unfold bq_reqs, deque_of, dvals.
  split.
  - intros (d & Hd & Hr)%list_elem_of_In%in_concat.
    apply list_elem_of_In in Hr. apply list_elem_of_In, list_elem_of_fmap in Hd as ([a d'] & -> & Hd).
    exists a. by rewrite (elem_dget _ a d' (bq_keys _ _ Hq) Hd).
  - intros [a Hr]. destruct (dget (bq_agents q) a) as [d|] eqn:E; simpl in Hr; [|by apply not_elem_of_nil in Hr].
    apply list_elem_of_In, in_concat. exists d. split; [|by apply list_elem_of_In].
    apply list_elem_of_In, list_elem_of_fmap. exists (a, d). split; [done|]. by apply dget_elem.
Qed.

(** *** Writing one deque *)

Lemma put_deque_reqs q a d0 d :
  dget (bq_agents q) a = Some d0 ->
  exists rest, bq_reqs q ≡ₚ d0 ++ rest /\ bq_reqs (put_deque q a d) ≡ₚ d ++ rest.
Proof.
  intros H. unfold bq_reqs. exists (concat (dvals (ddel (bq_agents q) a))).
  unfold dvals. split; [by rewrite (ddel_perm _ a d0 H) at 1|].
  destruct d as [|r d]; [done|]. unfold put_deque; cbn [bq_agents].
  by rewrite (dset_perm _ a d0 (r :: d) H).
Qed.

Lemma deque_of_put b q a d a' :
  bq_ok b q -> deque_of (put_deque q a d) a' = if decide (a = a') then d else deque_of q a'.
Proof.
  intros Hq. unfold deque_of, put_deque. destruct d; simpl.
  - rewrite dget_ddel by apply Hq. by case_decide.
  - rewrite dget_dset. by case_decide.
Qed.

Lemma put_deque_ok b q a d0 d :
  bq_ok b q -> dget (bq_agents q) a = Some d0 -> Forall (tagged b a) d -> bq_ok b (put_deque q a d).
Proof.
  intros [Hk Ho Hd] H Hf. destruct d as [|r d]; simpl; split; simpl.
  - by apply dwf_ddel.
  - assert (a ∈ bq_robin q) as Ha by (rewrite Ho; by eapply dget_Some_keys).
    apply (Permutation_cons_inv (a := a)). rewrite <- remove1_perm by done. rewrite Ho.
    unfold dkeys. by rewrite (ddel_perm _ a d0 H) at 1.
  - intros a' d'. rewrite dget_ddel by done. case_decide; [done|]. apply Hd.
  - by apply dwf_dset.
  - rewrite dkeys_dset, decide_True by by eapply dget_Some_keys. done.
  - intros a' d'. rewrite dget_dset. case_decide; [|apply Hd]. intros; simplify_eq. done.
Qed.

(** *** Operations on a band *)

Lemma bq_enqueue_ok b q r : bq_ok b q -> r_band r = b -> bq_ok b (bq_enqueue q r).
Proof.
  intros [Hk Ho Hd] Hb. unfold bq_enqueue.
  destruct (dget (bq_agents q) (r_agent_id r)) as [d|] eqn:E; split; simpl; try by apply dwf_dset.
  - rewrite dkeys_dset, decide_True by by eapply dget_Some_keys. done.
  - intros a d'. rewrite dget_dset. case_decide; [|apply Hd]. intros; simplify_eq.
    destruct (Hd _ _ E) as [_ F]. split; [by destruct d|].
    apply Forall_app. split; [done|]. by repeat constructor.
  - rewrite dkeys_dset, decide_False by by apply dget_None. by rewrite Ho.
  - intros a d'. rewrite dget_dset. case_decide; [|apply Hd]. intros; simplify_eq.
    split; [done|]. by repeat constructor.
Qed.

Lemma bq_enqueue_reqs q r : bq_reqs (bq_enqueue q r) ≡ₚ r :: bq_reqs q.
Proof.
  unfold bq_reqs, bq_enqueue. destruct (dget (bq_agents q) (r_agent_id r)) as [d|] eqn:E; cbn [bq_agents].
  - destruct (Permutation_dvals_dset _ _ d (d ++ [r]) E) as (rest & -> & ->). simpl. by solve_Permutation.
  - rewrite dset_new by done. unfold dvals. rewrite map_app, concat_app. simpl. by solve_Permutation.
Qed.

Lemma deque_of_enqueue q r a :
  deque_of (bq_enqueue q r) a = if decide (r_agent_id r = a) then deque_of q a ++ [r] else deque_of q a.
Proof.
  unfold deque_of, bq_enqueue. destruct (dget (bq_agents q) (r_agent_id r)) as [d|] eqn:E; simpl;
    rewrite dget_dset; case_decide; subst; by rewrite ?E.
Qed.

Lemma deque_of_some q a r d : deque_of q a = r :: d -> dget (bq_agents q) a = Some (r :: d).
Proof. unfold deque_of. destruct (dget (bq_agents q) a); simpl; congruence. Qed.

(** Popping the head [r] of an agent's deque: what is left. *)
Lemma bq_dequeue_spec b q a r :
  bq_ok b q -> head (deque_of q a) = Some r ->
  exists q', bq_dequeue q a = (Some r, q') /\ bq_ok b q' /\ bq_reqs q ≡ₚ r :: bq_reqs q' /\
    tagged b a r /\ deque_of q a = r :: deque_of q' a /\
    (forall a', a' <> a -> deque_of q' a' = deque_of q a') /\ bq_robin q' ⊆+ bq_robin q.
Proof.
  intros Hq Hh. destruct (deque_of q a) as [|r' d] eqn:E; [done|]. simplify_eq/=.
  pose proof (deque_of_some _ _ _ _ E) as Eg. destruct (bq_deques _ _ Hq _ _ Eg) as [_ HF].
  inversion HF as [|? ? Ht HF']; subst. exists (put_deque q a d).
  unfold bq_dequeue. rewrite E. split_and!; try done.
  - by eapply put_deque_ok.
  - destruct (put_deque_reqs q a _ d Eg) as (rest & -> & ->). done.
  - rewrite (deque_of_put b) by done. by rewrite decide_True.
  - intros a' Ha. rewrite (deque_of_put b) by done. by rewrite decide_False by congruence.
  - unfold put_deque. destruct d; simpl; [|done].
    assert (a ∈ bq_robin q) as Ha by (rewrite (bq_order _ _ Hq); by eapply dget_Some_keys).
    rewrite (remove1_perm a (bq_robin q) Ha) at 2. by apply submseteq_cons.
Qed.

Lemma bq_rotate_ok b q : bq_ok b q -> bq_ok b (bq_rotate q).
Proof. intros [Hk Ho Hd]. split; simpl; [done| |done]. by rewrite rotate_left_perm. Qed.

(** Every agent of the robin has a head request. *)
Lemma bq_head b q a : bq_ok b q -> a ∈ bq_robin q -> exists r, head (deque_of q a) = Some r.
Proof.
  intros Hq Ha. rewrite (bq_order _ _ Hq) in Ha. apply dkeys_get in Ha as [d Hd].
  unfold deque_of. rewrite Hd. destruct (bq_deques _ _ Hq _ _ Hd) as [Hne _]. destruct d; [done|]. by eexists.
Qed.

Lemma bq_robin_elem b q a r : bq_ok b q -> head (deque_of q a) = Some r -> a ∈ bq_robin q.
Proof.
  intros Hq Hh. destruct (deque_of q a) as [|r' d] eqn:E; [done|].
  apply deque_of_some in E. rewrite (bq_order _ _ Hq). by eapply dget_Some_keys.
Qed.

Lemma bq_robin_nil b q : bq_ok b q -> bq_robin q = [] -> bq_reqs q = [].
Proof.
  intros Hq Hr. pose proof (bq_order _ _ Hq) as Ho. rewrite Hr in Ho.
  apply Permutation_nil in Ho. unfold bq_reqs, dvals, dkeys in *. by destruct (bq_agents q).
Qed.

(** *** Expiry *)

(** What expiry does to a band: the requests taken, and every deque left with
    its longest expired prefix removed. *)
Definition expires (b : PriorityBand) (now : Q) (q : BandQueue) (gone : list QueuedRequest)
    (q' : BandQueue) : Prop :=
  bq_ok b q' /\ bq_reqs q ≡ₚ gone ++ bq_reqs q' /\ Forall (fun r => past now r = true) gone.

Lemma Forall_drop_while {A} (P : A -> Prop) f l : Forall P l -> Forall P (drop_while f l).
Proof. intros H. destruct (drop_while_suffix f l) as [k E]. rewrite E in H. by apply Forall_app in H as [_ ?]. Qed.

Lemma expire_agent_spec b now exp q a d :
  bq_ok b q -> dget (bq_agents q) a = Some d ->
  exists gone q', expire_agent now (exp, q) a = (exp ++ gone, q') /\ expires b now q gone q' /\
    (forall a', deque_of q' a' = if decide (a = a') then drop_while (past now) d else deque_of q a').
Proof.
  intros Hq Hd. unfold expire_agent. assert (deque_of q a = d) as -> by (unfold deque_of; by rewrite Hd).
  do 2 eexists. split; [done|]. split.
  - split; [|split].
    + eapply put_deque_ok; [done..|]. apply Forall_drop_while. by eapply bq_deques.
    + destruct (put_deque_reqs q a d (drop_while (past now) d) Hd) as (rest & -> & ->).
      rewrite (assoc_L (++)), take_drop_while. done.
    + apply take_while_Forall.
  - intros a'. by rewrite (deque_of_put b).
Qed.

Lemma expires_trans b now q1 g1 q2 g2 q3 :
  expires b now q1 g1 q2 -> expires b now q2 g2 q3 -> expires b now q1 (g1 ++ g2) q3.
Proof.
  intros (_ & P1 & F1) (K & P2 & F2). split; [done|]. split.
  - rewrite P1, P2. by rewrite (assoc_L (++)).
  - by apply Forall_app.
Qed.

Lemma expire_agents_spec b now ks exp q :
  bq_ok b q -> NoDup ks -> (forall a, a ∈ ks -> is_Some (dget (bq_agents q) a)) ->
  exists gone q', foldl (expire_agent now) (exp, q) ks = (exp ++ gone, q') /\ expires b now q gone q' /\
    (forall a, deque_of q' a = if decide (a ∈ ks) then drop_while (past now) (deque_of q a) else deque_of q a).
Proof.
  revert exp q. induction ks as [|k ks IH]; intros exp q Hq Hn Hin; cbn [foldl].
  - exists [], q. rewrite app_nil_r. split; [done|]. split; [split_and!; [done|done|constructor]|].
    intros a. by rewrite decide_False by apply not_elem_of_nil.
  - apply NoDup_cons in Hn as [Hk Hn]. destruct (Hin k) as [d Hd]; [by left|].
    destruct (expire_agent_spec b now exp q k d Hq Hd) as (g1 & q1 & -> & E1 & D1).
    destruct (IH (exp ++ g1) q1) as (g2 & q2 & -> & E2 & D2); [apply E1|done| |].
    { intros a Ha. assert (k <> a) as Hne by (intros ->; done).
      destruct (Hin a) as [d' Hd']; [by right|]. specialize (D1 a). rewrite decide_False in D1 by done.
      unfold deque_of in D1. rewrite Hd' in D1. simpl in D1.
      destruct (dget (bq_agents q1) a); [eauto|]. simpl in D1. subst.
      destruct (bq_deques _ _ Hq _ _ Hd'). done. }
    exists (g1 ++ g2), q2. rewrite (assoc_L (++)). split; [done|]. split; [by eapply expires_trans|].
    intros a. rewrite D2, D1. destruct (decide (k = a)) as [->|Hne].
    + rewrite decide_False by done. rewrite decide_True by by left. unfold deque_of. by rewrite Hd.
    + destruct (decide (a ∈ ks)); [by rewrite decide_True by by right|].
      rewrite decide_False; [done|]. by intros [?|?]%elem_of_cons.
Qed.

Lemma expire_band_spec b now exp q :
  bq_ok b q ->
  exists gone q', expire_band now exp q = (exp ++ gone, q') /\ expires b now q gone q' /\
    (forall a, deque_of q' a = drop_while (past now) (deque_of q a)).
Proof.
  intros Hq. destruct (expire_agents_spec b now (dkeys (bq_agents q)) exp q Hq) as (g & q' & E & X & D).
  - apply Hq.
  - intros a Ha. apply dkeys_get in Ha as [d ?]. eauto.
  - exists g, q'. split; [done|]. split; [done|]. intros a. rewrite D. case_decide as C; [done|].
    unfold deque_of. apply dget_None in C. by rewrite C.
Qed.

Lemma expire_before_spec eq now :
  eq_ok eq ->
  exists gone eq', expire_before eq now = (gone, eq') /\ eq_ok eq' /\ eq_reqs eq ≡ₚ gone ++ eq_reqs eq' /\
    Forall (fun r => past now r = true) gone /\
    (forall b a, deque_of (band_of eq' b) a = drop_while (past now) (deque_of (band_of eq b) a)).
Proof.
  intros Hq. unfold expire_before, all_bands. cbn [foldl].
  destruct (expire_band_spec INTERACTIVE now [] _ (Hq INTERACTIVE)) as (g1 & q1 & -> & (K1 & P1 & F1) & D1).
  cbn [band_of set_band eq_interactive eq_foreground eq_background].
  destruct (expire_band_spec FOREGROUND now ([] ++ g1) _ (Hq FOREGROUND)) as (g2 & q2 & E2 & (K2 & P2 & F2) & D2).
  cbn [band_of] in E2. rewrite E2. cbn [band_of set_band eq_interactive eq_foreground eq_background].
  destruct (expire_band_spec BACKGROUND now (([] ++ g1) ++ g2) _ (Hq BACKGROUND)) as (g3 & q3 & E3 & (K3 & P3 & F3) & D3).
  cbn [band_of] in E3. rewrite E3. do 2 eexists. split; [done|]. split_and!.
  - by intros [].
  - unfold eq_reqs, all_bands. cbn [map concat band_of eq_interactive eq_foreground eq_background] in *.
    rewrite P1, P2, P3. simpl. by solve_Permutation.
  - rewrite !Forall_app. repeat split; done || constructor.
  - intros [] a; simpl; auto.
Qed.

(** *** Cancellation *)

Lemma delete_id_Some i d d' :
  delete_id i d = Some d' -> exists r, r_request_id r = i /\ d ≡ₚ r :: d' /\ sublist d' d.
Proof.
  revert d'. induction d as [|r d IH]; intros d'; simpl; [done|].
  destruct (String.eqb_spec (r_request_id r) i).
  - intros; simplify_eq. exists r. split_and!; [done..|]. apply sublist_cons. done.
  - intros (d1 & E & ->)%fmap_Some. destruct (IH _ E) as (r' & ? & P & S). exists r'.
    split_and!; [done| |by apply sublist_skip]. rewrite P. apply perm_swap.
Qed.

Lemma delete_id_None i d : delete_id i d = None -> i ∉ map r_request_id d.
Proof.
  induction d as [|r d IH]; simpl; [intros _; apply not_elem_of_nil|].
  destruct (String.eqb_spec (r_request_id r) i); [done|]. intros H%fmap_None.
  apply not_elem_of_cons. split; [congruence|auto].
Qed.

Lemma cancel_agents_Some b i q ks q' :
  bq_ok b q -> cancel_agents i q ks = Some q' ->
  exists r, r_request_id r = i /\ bq_ok b q' /\ bq_reqs q ≡ₚ r :: bq_reqs q'.
Proof.
  intros Hq. induction ks as [|a ks IH]; simpl; [done|].
  destruct (delete_id i (deque_of q a)) as [d'|] eqn:E; [|done]. intros [= <-].
  destruct (delete_id_Some _ _ _ E) as (r & Hr & P & S). exists r. split; [done|].
  assert (dget (bq_agents q) a = Some (deque_of q a)) as Hd.
  { destruct (deque_of q a) eqn:E'; [done|]. by apply deque_of_some. }
  split.
  - eapply put_deque_ok; [done..|]. destruct (bq_deques _ _ Hq _ _ Hd) as [_ F].
    rewrite P in F. by inversion F.
  - destruct (put_deque_reqs q a _ d' Hd) as (rest & -> & ->). by rewrite P.
Qed.

Lemma cancel_agents_None i q ks a :
  cancel_agents i q ks = None -> a ∈ ks -> i ∉ map r_request_id (deque_of q a).
Proof.
  induction ks as [|k ks IH]; simpl; [intros _ H; by apply not_elem_of_nil in H|].
  destruct (delete_id i (deque_of q k)) eqn:E; [done|].
  intros H [->|Ha]%elem_of_cons; [by apply delete_id_None|auto].
Qed.

Lemma cancel_bands_Some i eq bs eq' :
  eq_ok eq -> cancel_bands i eq bs = Some eq' ->
  exists r, r_request_id r = i /\ eq_ok eq' /\ eq_reqs eq ≡ₚ r :: eq_reqs eq'.
Proof.
  intros Hq. induction bs as [|b bs IH]; simpl; [done|].
  destruct (cancel_agents i (band_of eq b) _) as [q'|] eqn:E; [|done]. intros [= <-].
  destruct (cancel_agents_Some b i _ _ q' (Hq b) E) as (r & Hr & Hq' & P). exists r.
  split_and!; [done|by apply eq_ok_set|].
  destruct (eq_reqs_set eq b q') as (rest & -> & ->). by rewrite P.
Qed.

Lemma cancel_bands_None i eq :
  eq_ok eq -> cancel_bands i eq all_bands = None -> i ∉ map r_request_id (eq_reqs eq).
Proof.
  intros Hq H (r & -> & Hr)%list_elem_of_fmap.
  apply eq_reqs_elem in Hr as [b Hr]. apply (bq_reqs_elem b) in Hr as [a Ha]; [|done].
  assert (forall bs, b ∈ bs -> cancel_bands (r_request_id r) eq bs = None ->
    cancel_agents (r_request_id r) (band_of eq b) (dkeys (bq_agents (band_of eq b))) = None) as Hb.
  { induction bs as [|b' bs IH]; simpl; [intros X; by apply not_elem_of_nil in X|].
    intros [<-|X]%elem_of_cons; case_match; auto; done. }
  specialize (Hb all_bands (all_bands_all b) H).
  eapply cancel_agents_None in Hb; [apply Hb; apply list_elem_of_fmap; eauto|].
  unfold deque_of in Ha.
  destruct (dget (bq_agents (band_of eq b)) a) eqn:E; [by eapply dget_Some_keys|].
  by apply not_elem_of_nil in Ha.
Qed.

(** *** Operations on an endpoint queue *)

Lemma eq_enqueue_ok eq r : eq_ok eq -> eq_ok (eq_enqueue eq r).
Proof. intros H. apply eq_ok_set; [done|]. by apply bq_enqueue_ok. Qed.

Lemma eq_enqueue_reqs eq r : eq_reqs (eq_enqueue eq r) ≡ₚ r :: eq_reqs eq.
Proof.
  unfold eq_enqueue. destruct (eq_reqs_set eq (r_band r) (bq_enqueue (band_of eq (r_band r)) r)) as (rest & -> & ->).
  by rewrite bq_enqueue_reqs.
Qed.

Lemma rotate_robin_ok eq b : eq_ok eq -> eq_ok (rotate_robin eq b).
Proof. intros H. apply eq_ok_set; [done|]. by apply bq_rotate_ok. Qed.

Lemma rotate_robin_reqs eq b : eq_reqs (rotate_robin eq b) = eq_reqs eq.
Proof. by destruct b. Qed.

Lemma rotate_robin_deque eq b b' a :
  deque_of (band_of (rotate_robin eq b) b') a = deque_of (band_of eq b') a.
Proof. unfold rotate_robin. rewrite band_of_set. case_decide; by subst. Qed.

Lemma dequeue_spec eq b a r :
  eq_ok eq -> peek eq b a = Some r ->
  exists eq', dequeue eq b a = (Some r, eq') /\ eq_ok eq' /\ eq_reqs eq ≡ₚ r :: eq_reqs eq' /\
    bq_reqs (band_of eq b) ≡ₚ r :: bq_reqs (band_of eq' b) /\
    tagged b a r /\ deque_of (band_of eq b) a = r :: deque_of (band_of eq' b) a /\
    (forall b' a', (b', a') <> (b, a) -> deque_of (band_of eq' b') a' = deque_of (band_of eq b') a') /\
    (forall b', b' <> b -> band_of eq' b' = band_of eq b') /\
    agents_in_band eq' b ⊆+ agents_in_band eq b.
Proof.
  intros Hq Hp. destruct (bq_dequeue_spec b _ a r (Hq b) Hp) as (q' & E & K & P & T & D & D' & R).
  exists (set_band eq b q'). unfold dequeue, agents_in_band. rewrite E, band_of_set, decide_True by done.
  split_and!; try done.
  - by apply eq_ok_set.
  - destruct (eq_reqs_set eq b q') as (rest & -> & ->). by rewrite P.
  - intros b' a' Hne. rewrite band_of_set. case_decide as Hb; [|done]. subst. apply D'. congruence.
  - intros b' Hne. rewrite band_of_set. by rewrite decide_False by congruence.
Qed.

Lemma peek_robin eq b a : eq_ok eq -> a ∈ agents_in_band eq b -> exists r, peek eq b a = Some r.
Proof. intros H. apply (bq_head b). apply H. Qed.

#[export] Hint Resolve eq_ok_empty eq_ok_set eq_enqueue_ok rotate_robin_ok bq_rotate_ok : roadstead.

(** ** Properties *)

Definition by_deadline (d : list QueuedRequest) : Prop :=
  StronglySorted (fun r r' => (r_timeout_deadline r <= r_timeout_deadline r')%Q) d.

Lemma drop_while_live now d r :
  by_deadline d -> r ∈ drop_while (past now) d -> past now r = false.
Proof.
  induction 1 as [|x d HS IH HF]; simpl; [intros H; by apply not_elem_of_nil in H|].
  destruct (past now x) eqn:E; [done|]. intros [->|Hr]%elem_of_cons; [done|].
  rewrite Forall_forall in HF. specialize (HF _ Hr). unfold past in *. qcases; try done.
  destruct (Qleb_spec (r_timeout_deadline x) now); [done|lra].
Qed.

(** Expiry loses nothing and invents nothing: what was queued is what
    expired plus what is still queued, only requests past their deadline
    expire, the invariant holds after it, no deque keeps an expired head, and
    where an agent's deque is in deadline order no expired request of that
    agent stays queued. *)
Theorem expire_before_exact eq now gone eq' :
  eq_ok eq -> expire_before eq now = (gone, eq') ->
  eq_ok eq' /\ eq_reqs eq ≡ₚ gone ++ eq_reqs eq' /\
  (forall r, r ∈ gone -> (r_timeout_deadline r <= now)%Q) /\
  (forall b a r, peek eq' b a = Some r -> (now < r_timeout_deadline r)%Q) /\
  (forall b a r, by_deadline (deque_of (band_of eq b) a) ->
     r ∈ deque_of (band_of eq' b) a -> (now < r_timeout_deadline r)%Q).
Proof.
  intros Hq He. destruct (expire_before_spec eq now Hq) as (g & e & E & K & P & F & D).
  rewrite E in He. injection He as <- <-. split_and!; [done|done| | |].
  - intros r Hr. rewrite Forall_forall in F. specialize (F _ Hr). unfold past in F. by qcases_in F.
  - intros b a r. unfold peek. rewrite D. destruct (drop_while _ _) eqn:E'; [done|].
    apply drop_while_head in E'. intros [= ->]. unfold past in E'. by qcases_in E'.
  - intros b a r Hs. rewrite D. intros Hr. pose proof (drop_while_live _ _ _ Hs Hr) as E'.
    unfold past in E'. by qcases_in E'.
Qed.

(** The constructor never raises, whatever priority value the caller sent,
    and what it builds is consistent: the band is the band of the coerced
    priority, the serving and the routed endpoint are the normalised one, the
    deadline is the submission time plus the timeout, and the request carries
    no substitution mark. *)
Theorem create_consistent rtc a :
  exists r, create rtc a = Ret r /\
    r_band r = priority_to_band (r_priority r) /\
    r_endpoint r = normalize_endpoint rtc (ca_endpoint a) /\ r_routed_to r = r_endpoint r /\
    (r_timeout_deadline r == r_enqueued_at r + r_timeout_s r)%Q /\
    r_degraded_from r = None /\ r_spilled_from r = None /\
    (str_truthy (ca_request_id a) = true -> ca_request_id a = Some (r_request_id r)) /\
    coerce (ca_priority a) (Some P1_TURN_SUPPORT) = Ret (r_priority r).
Proof.
  unfold create. destruct (coerce_total (ca_priority a) P1_TURN_SUPPORT) as [p Hp].
  rewrite Hp. simpl. eexists. split; [done|]. simpl. split_and!; try done.
  destruct (ca_request_id a) as [s|]; simpl; [|done]. by destruct (String.eqb s "").
Qed.

(** ** Witnesses *)

(** A background request of an agent, with a deadline. *)
Definition demo_req (i a e : string) (b : PriorityBand) (at_ deadline : Q) : QueuedRequest :=
  {| r_request_id := i; r_agent_id := a; r_endpoint := e; r_priority := P1_TURN_SUPPORT;
     r_band := b; r_call_site := "chat"; r_payload_type := "chat_completion";
     r_payload := [("max_tokens"%string, JInt 64)];
     r_timeout_deadline := deadline; r_enqueued_at := at_; r_estimated_cost_ss := 2;
     r_est_input_tokens := 1; r_session_id := None; r_turn_id := None; r_caller_id := None;
     r_declared_agent_id := ""; r_asserted_by_key_id := ""; r_timeout_s := 180; r_stream := false;
     r_ctx_per_slot_at_admission := 0; r_json_object_stripped := false; r_forced_tool_schema := None;
     r_forced_tool_name := ""; r_deadline_is_default := false; r_degraded_from := None;
     r_spilled_from := None; r_requested := ""; r_routed_to := e; r_allow_degrade := None;
     r_allow_spill := None; r_no_store_outcome := "" |}.

Definition demo_queue : EndpointQueue :=
  eq_enqueue (eq_enqueue empty_queue (demo_req "r1" "a" "t" BACKGROUND 0 10))
    (demo_req "r2" "a" "t" BACKGROUND 0 30).

Lemma expire_before_exact_witness :
  eq_ok (expire_before demo_queue 20).2 /\
  (forall r, r ∈ deque_of (band_of (expire_before demo_queue 20).2 BACKGROUND) "a" ->
     (20 < r_timeout_deadline r)%Q).
Proof.
  destruct (expire_before_exact demo_queue 20 (expire_before demo_queue 20).1
              (expire_before demo_queue 20).2) as (H1 & _ & _ & _ & H5).
  - apply eq_enqueue_ok, eq_enqueue_ok, eq_ok_empty.
  - reflexivity.
  - split; [done|]. intros r. apply (H5 BACKGROUND "a" r).
    repeat constructor; simpl; lra.
Defined.

(** A request past its deadline stays queued behind a head with a later one:
    expiry looks at heads only. *)
Example expire_before_skips_non_head :
  let q := eq_enqueue (eq_enqueue empty_queue (demo_req "r1" "a" "t" BACKGROUND 0 90))
             (demo_req "r2" "a" "t" BACKGROUND 0 10) in
  (expire_before q 20).1 = [] /\ zlen (eq_reqs (expire_before q 20).2) = 2.
Proof. by split. Qed.
