(* ===== verification/Scheduler.v ===== *)
(** * The scheduler (scheduler.py, second half)

    [Scheduler]'s state and every one of its operations: [enqueue], [tick] with
    its three phases, [complete], [cancel], the read-only views, and the
    dispatch loop with [_available_for_band], [_spill_target], [_admit] and
    [_spill].  Operations run in the state-and-exception monad, so the state a
    raising call leaves behind is part of the model.  The service's callbacks
    are the hooks record (health and spending, which the loop asks) and the
    event log (dispatch, timeout and spill notifications, which it sends). *)

From Stdlib Require Import QArith Lqa Lia ZArith Permutation.
From stdpp Require Import base list strings.
From S2P Require Import Prelude PyDict PyText Config Budget Json Cost Queue.

Local Open Scope Z_scope.

(** ** State *)

Inductive Admission := DISPATCH | SPILL | DEFER.

Record ActiveRequest := {
  ar_request : QueuedRequest;
  dispatched_at : Q;
  estimated_remaining_s : Q;
}.

Record DispatchDecision := {
  dd_request : QueuedRequest;
  queue_wait_ms : Q;
  occupancy_at_dispatch : Z;
}.

Record CompletionRecord := {
  cr_request_id : string;
  duration_s : Q;
  input_tokens : Z;
  output_tokens : Z;
  success : bool;
  occupancy_during : Z;
}.

(** The notifications [on_timeout], [on_dispatch] and [on_spill] receive. *)
Inductive SchedEvent :=
| EvTimeout (r : QueuedRequest)
| EvDispatch (d : DispatchDecision)
| EvSpill (r : QueuedRequest) (src target : string).

Record Sched := {
  sc_config : ProxyConfig;
  sc_cost : CostModel;
  sc_budgets : BudgetManager;
  sc_queues : dict string EndpointQueue;
  sc_active : dict string (dict string ActiveRequest);
  sc_total_dispatched : Z;
  sc_total_timeouts : Z;
  sc_total_completed : Z;
  sc_total_spilled : Z;
  sc_events : list SchedEvent;
}.

(** [is_endpoint_healthy] and [may_spend]; [None] is a hook nobody set. *)
Record Hooks := {
  is_endpoint_healthy : option (string -> bool);
  may_spend : option (string -> bool);
}.

Definition hook (h : option (string -> bool)) (x : string) : bool :=
  match h with
  | Some f => f x
  | None => true
  end.

(** [Scheduler.__init__] *)
Definition init_sched (c : ProxyConfig) (cm : CostModel) (bm : BudgetManager) : Sched :=
  {| sc_config := c; sc_cost := cm; sc_budgets := bm;
     sc_queues := map (fun kv => (kv.1, empty_queue)) (endpoints c);
     sc_active := map (fun kv => (kv.1, [])) (endpoints c);
     sc_total_dispatched := 0; sc_total_timeouts := 0; sc_total_completed := 0;
     sc_total_spilled := 0; sc_events := [] |}.

(** *** Field updates *)

Definition set_config (c : ProxyConfig) (s : Sched) : Sched :=
  {| sc_config := c; sc_cost := sc_cost s; sc_budgets := sc_budgets s; sc_queues := sc_queues s;
     sc_active := sc_active s; sc_total_dispatched := sc_total_dispatched s;
     sc_total_timeouts := sc_total_timeouts s; sc_total_completed := sc_total_completed s;
     sc_total_spilled := sc_total_spilled s; sc_events := sc_events s |}.

Definition set_cost (c : CostModel) (s : Sched) : Sched :=
  {| sc_config := sc_config s; sc_cost := c; sc_budgets := sc_budgets s; sc_queues := sc_queues s;
     sc_active := sc_active s; sc_total_dispatched := sc_total_dispatched s;
     sc_total_timeouts := sc_total_timeouts s; sc_total_completed := sc_total_completed s;
     sc_total_spilled := sc_total_spilled s; sc_events := sc_events s |}.

Definition set_budgets (b : BudgetManager) (s : Sched) : Sched :=
  {| sc_config := sc_config s; sc_cost := sc_cost s; sc_budgets := b; sc_queues := sc_queues s;
     sc_active := sc_active s; sc_total_dispatched := sc_total_dispatched s;
     sc_total_timeouts := sc_total_timeouts s; sc_total_completed := sc_total_completed s;
     sc_total_spilled := sc_total_spilled s; sc_events := sc_events s |}.

Definition set_queues (q : dict string EndpointQueue) (s : Sched) : Sched :=
  {| sc_config := sc_config s; sc_cost := sc_cost s; sc_budgets := sc_budgets s; sc_queues := q;
     sc_active := sc_active s; sc_total_dispatched := sc_total_dispatched s;
     sc_total_timeouts := sc_total_timeouts s; sc_total_completed := sc_total_completed s;
     sc_total_spilled := sc_total_spilled s; sc_events := sc_events s |}.

Definition set_active (a : dict string (dict string ActiveRequest)) (s : Sched) : Sched :=
  {| sc_config := sc_config s; sc_cost := sc_cost s; sc_budgets := sc_budgets s;
     sc_queues := sc_queues s; sc_active := a; sc_total_dispatched := sc_total_dispatched s;
     sc_total_timeouts := sc_total_timeouts s; sc_total_completed := sc_total_completed s;
     sc_total_spilled := sc_total_spilled s; sc_events := sc_events s |}.

(** Counter increments, with the notification that follows. *)
Definition note (disp tmo comp spill : Z) (ev : list SchedEvent) (s : Sched) : Sched :=
  {| sc_config := sc_config s; sc_cost := sc_cost s; sc_budgets := sc_budgets s;
     sc_queues := sc_queues s; sc_active := sc_active s;
     sc_total_dispatched := sc_total_dispatched s + disp;
     sc_total_timeouts := sc_total_timeouts s + tmo;
     sc_total_completed := sc_total_completed s + comp;
     sc_total_spilled := sc_total_spilled s + spill;
     sc_events := sc_events s ++ ev |}.

Definition put_queue (ep : string) (eq : EndpointQueue) (s : Sched) : Sched :=
  set_queues (dset (sc_queues s) ep eq) s.

(** [self._active.get(ep, {})] *)
Definition active_of (s : Sched) (ep : string) : dict string ActiveRequest :=
  from_option id [] (dget (sc_active s) ep).

(** ** Reads *)

Definition active_count (s : Sched) (ep : string) : Z := zlen (active_of s ep).

Definition queue_depth (s : Sched) (ep : string) : Z :=
  match dget (sc_queues s) ep with
  | Some eq => total_depth eq
  | None => 0
  end.

Definition queued_requests (s : Sched) (ep : string) (bands : list PriorityBand)
  : list QueuedRequest :=
  match dget (sc_queues s) ep with
  | Some eq => concat (map (fun b => concat (dvals (bq_agents (band_of eq b)))) bands)
  | None => []
  end.

(** [r.degraded_from == source] *)
Definition degraded_by (src : string) (r : QueuedRequest) : bool :=
  bool_decide (r_degraded_from r = Some src).

Definition count_if {A} (p : A -> bool) (l : list A) : Z := zlen (filter (fun x => Is_true (p x)) l).

Definition degraded_inflight (s : Sched) (src : string) : Z :=
  foldr Z.add 0
    (map (fun m => count_if (fun ar => degraded_by src (ar_request ar)) (dvals m)) (dvals (sc_active s)))
  + foldr Z.add 0
      (map (fun eq => foldr Z.add 0
         (map (fun b => foldr Z.add 0
            (map (count_if (degraded_by src)) (dvals (bq_agents (band_of eq b))))) all_bands))
       (dvals (sc_queues s))).

(** The [queued] and [in_flight] counts of [agent_snapshot]. *)
Definition agent_snapshot (s : Sched) (aid : string) : Z * Z :=
  (foldr Z.add 0 (map (fun eq => foldr Z.add 0 (map (fun b => agent_depth eq b aid) all_bands))
                    (dvals (sc_queues s))),
   foldr Z.add 0 (map (fun m => count_if (fun ar => String.eqb (r_agent_id (ar_request ar)) aid) (dvals m))
                    (dvals (sc_active s)))).

Record EndpointSnapshot := {
  es_max_slots : Z;
  es_in_flight : Z;
  es_queued : Z;
  es_queue_by_band : list (PriorityBand * Z);
}.

Definition endpoint_snapshot (s : Sched) (ep : string) : EndpointSnapshot :=
  let eq := dget (sc_queues s) ep in
  {| es_max_slots := match dget (endpoints (sc_config s)) ep with Some c => max_slots c | None => 0 end;
     es_in_flight := zlen (active_of s ep);
     es_queued := match eq with Some q => total_depth q | None => 0 end;
     es_queue_by_band :=
       map (fun b => (b, match eq with Some q => band_depth q b | None => 0 end)) all_bands |}.

Definition is_bg (ar : ActiveRequest) : bool := bool_decide (r_band (ar_request ar) = BACKGROUND).

(** The in-flight background requests of an endpoint class. *)
Definition bg_in_flight (s : Sched) (ep : string) : Z := count_if is_bg (dvals (active_of s ep)).

(** [_available_for_band] *)
Definition available_for_band (s : Sched) (ep_cfg : EndpointConfig) (band : PriorityBand)
    (current_in_flight : Z) (eq : EndpointQueue) : Z :=
  let total_free := effective_max_slots ep_cfg - current_in_flight in
  if total_free <=? 0 then 0
  else if bool_decide (band = BACKGROUND) then
    Z.min total_free (Z.max 0 (background_cap_slots ep_cfg - bg_in_flight s (endpoint_class ep_cfg)))
  else if 0 <? band_depth eq BACKGROUND then
    let ceiling := Z.max 1 (effective_max_slots ep_cfg - background_floor_slots ep_cfg) in
    let non_bg_in_flight := current_in_flight - bg_in_flight s (endpoint_class ep_cfg) in
    Z.max 0 (ceiling - non_bg_in_flight)
  else total_free.

Definition background_available (s : Sched) (ep : string) (extra_occupied : Z) : Z :=
  match dget (sc_queues s) ep, dget (endpoints (sc_config s)) ep with
  | Some eq, Some ep_cfg =>
      available_for_band s ep_cfg BACKGROUND (zlen (active_of s ep) + Z.max 0 extra_occupied) eq
  | _, _ => 0
  end.

(** ** Operations *)

(** [if ep not in self._queues]: a queue and an active map for a new endpoint. *)
Definition open_endpoint (ep : string) (s : Sched) : Sched :=
  if dmem (sc_queues s) ep then s
  else set_active (dset (sc_active s) ep []) (put_queue ep empty_queue s).

(** [Scheduler.enqueue]; the result is the request object as the call leaves
    it, with its token estimate and its cost filled in. *)
Definition enqueue (r : QueuedRequest) : SE Sched QueuedRequest :=
  let ep := r_endpoint r in
  se_modify (open_endpoint ep);;
  s ← se_get;
  let '(acfg, cfg) := agent_config (sc_config s) (r_agent_id r) in
  se_modify (set_config cfg);;
  se_modify (fun s => set_budgets (get_or_create (sc_budgets s) (r_agent_id r) (weight acfg)
                                     (max_balance_ss acfg) (r_enqueued_at r)) s);;
  n ← se_lift (estimate_input_tokens (r_payload r));
  let max_output := from_option id (JInt 256) (dget (r_payload r) "max_tokens"%string) in
  s ← se_get;
  c ← se_lift (estimate_cost (sc_cost s) ep n max_output (r_call_site r) (active_count s ep));
  se_modify (fun s =>
    match dget (sc_queues s) ep with
    | Some eq => put_queue ep (eq_enqueue eq (with_cost r n c)) s
    | None => s
    end);;
  mret (with_cost r n c).

(** [_spill_target]; the empty string is "no target". *)
Definition spill_target (h : Hooks) (s : Sched) (ep_cfg : EndpointConfig) : string :=
  let target := spill_to ep_cfg in
  if String.eqb target "" || negb (dmem (endpoints (sc_config s)) target) then ""
  else if String.eqb target (endpoint_class ep_cfg) then ""
  else if negb (hook (is_endpoint_healthy h) target) then ""
  else target.

(** [_admit] *)
Definition _admit (h : Hooks) (ep_cfg : EndpointConfig) (req : QueuedRequest)
    (current_occupancy band_available : Z) (target : string) : SE Sched Admission :=
  if max_slots ep_cfg <=? 0 then mret DEFER
  else if (0 <? band_available) && (current_occupancy <? effective_max_slots ep_cfg) then mret DISPATCH
  else if String.eqb target "" then mret DEFER
  else if str_truthy (r_spilled_from req) then mret DEFER
  else
    s ← se_get;
    let '(acfg, cfg) := agent_config (sc_config s) (r_agent_id req) in
    se_modify (set_config cfg);;
    if negb (spill_ok acfg) then mret DEFER
    else if bool_decide (r_allow_spill req = Some false) then mret DEFER
    else if negb (hook (may_spend h) (r_agent_id req)) then mret DEFER
    else
      s ← se_get;
      match dget (endpoints (sc_config s)) target with
      | None => se_lift (Raise KeyError)
      | Some tgt_cfg =>
          ok ← se_lift (fits_context req (context_per_slot tgt_cfg));
          if negb ok then mret DEFER
          else if effective_max_slots tgt_cfg <=? active_count s target then mret DEFER
          else mret SPILL
      end.

(** [_spill] *)
Definition spill (req : QueuedRequest) (target : string) : SE Sched unit :=
  s ← se_get;
  match dget (endpoints (sc_config s)) target with
  | None => se_lift (Raise KeyError)
  | Some tgt_cfg =>
      let src := r_endpoint req in
      let req' := moved req (r_degraded_from req) (Some src) target (context_per_slot tgt_cfg) in
      se_modify (note 0 0 0 1 []);;
      req'' ← enqueue req';
      se_modify (note 0 0 0 0 [EvSpill req'' src target])
  end.

(** [wait_by_agent] of the dispatch loop. *)
Definition head_waits (eq : EndpointQueue) (b : PriorityBand) (now : Q) (cands : list string)
  : dict string Q :=
  foldl (fun w a => match peek eq b a with
                    | Some r => dset w a (now - r_enqueued_at r)%Q
                    | None => w
                    end) [] cands.

(** The state changes of the dispatch arm, the request already dequeued. *)
Definition start_request (ep aid : string) (now : Q) (total_occ : Z) (req : QueuedRequest) (s : Sched)
  : DispatchDecision * Sched :=
  let s := set_budgets (bm_charge (sc_budgets s) aid (r_estimated_cost_ss req) now) s in
  let ar := {| ar_request := req; dispatched_at := now; estimated_remaining_s := r_estimated_cost_ss req |} in
  let s := set_active (dset (sc_active s) ep (dset (active_of s ep) (r_request_id req) ar)) s in
  let d := {| dd_request := req; queue_wait_ms := ((now - r_enqueued_at req) * 1000)%Q;
              occupancy_at_dispatch := total_occ |} in
  (d, note 1 0 0 0 [EvDispatch d] s).

(** [eq.rotate_robin(band)] on the shared queue object of [ep]. *)
Definition rotate_at (ep : string) (band : PriorityBand) (s : Sched) : Sched :=
  match dget (sc_queues s) ep with
  | Some eq => put_queue ep (rotate_robin eq band) s
  | None => s
  end.

(** One pass through the body of the [while] loop: [None] is [break],
    [Some (available, decisions)] the loop variables of the next pass. *)
Definition attempt (h : Hooks) (ep : string) (ep_cfg : EndpointConfig) (now : Q) (band : PriorityBand)
    (in_flight : Z) (target : string) (available : Z) (decs : list DispatchDecision)
  : SE Sched (option (Z * list DispatchDecision)) :=
  s ← se_get;
  match dget (sc_queues s) ep with
  | None => mret None
  | Some eq =>
      let candidates := agents_in_band eq band in
      if bool_decide (candidates = []) then mret None
      else
        let '(pick, bm) := pick_agent (sc_budgets s) candidates now (head_waits eq band now candidates) in
        se_modify (set_budgets bm);;
        match pick with
        | None => mret None
        | Some aid =>
            match peek eq band aid with
            | None =>
                se_modify (rotate_at ep band);;
                mret (Some (available, decs))
            | Some req =>
                let total_occ := in_flight + zlen decs in
                verdict ← _admit h ep_cfg req total_occ available target;
                match verdict with
                | DEFER => mret None
                | SPILL =>
                    let '(spilled, eq') := dequeue eq band aid in
                    se_modify (put_queue ep eq');;
                    match spilled with
                    | Some r => spill r target
                    | None => mret tt
                    end;;
                    se_modify (rotate_at ep band);;
                    mret (Some (available, decs))
                | DISPATCH =>
                    let '(taken, eq') := dequeue eq band aid in
                    se_modify (put_queue ep eq');;
                    match taken with
                    | None => mret (Some (available, decs))
                    | Some r =>
                        s ← se_get;
                        let '(d, s') := start_request ep aid now total_occ r s in
                        se_modify (fun _ => s');;
                        se_modify (rotate_at ep band);;
                        mret (Some (available - 1, decs ++ [d]))
                    end
                end
            end
        end
  end.

(** The depth of a band of an endpoint, read from the store. *)
Definition depth_at (s : Sched) (ep : string) (b : PriorityBand) : Z :=
  match dget (sc_queues s) ep with
  | Some eq => band_depth eq b
  | None => 0
  end.

(** [while eq.band_depth(band) > 0 and attempts < max_attempts] *)
Fixpoint band_loop (h : Hooks) (ep : string) (ep_cfg : EndpointConfig) (now : Q) (band : PriorityBand)
    (in_flight : Z) (target : string) (attempts : nat) (available : Z) (decs : list DispatchDecision)
  : SE Sched (list DispatchDecision) :=
  match attempts with
  | O => mret decs
  | S n =>
      s ← se_get;
      if depth_at s ep band <=? 0 then mret decs
      else
        o ← attempt h ep ep_cfg now band in_flight target available decs;
        match o with
        | None => mret decs
        | Some (available', decs') => band_loop h ep ep_cfg now band in_flight target n available' decs'
        end
  end.

(** One band of [_dispatch_endpoint]. *)
Definition dispatch_band (h : Hooks) (ep : string) (ep_cfg : EndpointConfig) (now : Q) (in_flight : Z)
    (decs : list DispatchDecision) (band : PriorityBand) : SE Sched (list DispatchDecision) :=
  s ← se_get;
  match dget (sc_queues s) ep with
  | None => mret decs
  | Some eq =>
      if band_depth eq band =? 0 then mret decs
      else
        let available := available_for_band s ep_cfg band (in_flight + zlen decs) eq in
        let target := spill_target h s ep_cfg in
        if (available <=? 0) && String.eqb target "" then mret decs
        else
          let max_attempts := band_depth eq band + zlen (agents_in_band eq band) in
          band_loop h ep ep_cfg now band in_flight target (Z.to_nat max_attempts) available decs
  end.

(** [_dispatch_endpoint] *)
Definition dispatch_endpoint (h : Hooks) (now : Q) (decs : list DispatchDecision)
    (e : string * EndpointConfig) : SE Sched (list DispatchDecision) :=
  let '(ep, ep_cfg) := e in
  s ← se_get;
  if negb (dmem (sc_queues s) ep) then mret decs
  else if negb (hook (is_endpoint_healthy h) ep) then mret decs
  else
    let in_flight := zlen (active_of s ep) in
    ds ← se_fold (dispatch_band h ep ep_cfg now in_flight) [] all_bands;
    mret (decs ++ ds).

(** The expiry phase of [tick] on one endpoint. *)
Definition expire_endpoint (now : Q) (s : Sched) (ep : string) : Sched :=
  match dget (sc_queues s) ep with
  | None => s
  | Some eq =>
      let '(expired, eq') := expire_before eq now in
      note 0 (zlen expired) 0 0 (map EvTimeout expired) (put_queue ep eq' s)
  end.

Definition expire_all (now : Q) (s : Sched) : Sched :=
  foldl (expire_endpoint now) s (dkeys (sc_queues s)).

(** [Scheduler.tick] *)
Definition tick (h : Hooks) (now : Q) : SE Sched (list DispatchDecision) :=
  se_modify (fun s => set_budgets (replenish (sc_budgets s) now) s);;
  se_modify (expire_all now);;
  s ← se_get;
  se_fold (dispatch_endpoint h now) [] (endpoints (sc_config s)).

(** The first endpoint whose active map holds the identifier. *)
Fixpoint find_active (id_ : string) (l : dict string (dict string ActiveRequest))
  : option (string * dict string ActiveRequest * ActiveRequest) :=
  match l with
  | [] => None
  | (ep, m) :: l' =>
      match dget m id_ with
      | Some ar => Some (ep, m, ar)
      | None => find_active id_ l'
      end
  end.

(** [Scheduler.complete] *)
Definition complete (c : CompletionRecord) : SE Sched unit :=
  s ← se_get;
  match find_active (cr_request_id c) (sc_active s) with
  | None => mret tt
  | Some (ep, m, ar) =>
      se_modify (fun s => set_active (dset (sc_active s) ep (ddel m (cr_request_id c))) (note 0 0 1 0 [] s));;
      se_modify (fun s => set_budgets (retroactive_adjust (sc_budgets s) (r_agent_id (ar_request ar))
                                         (r_estimated_cost_ss (ar_request ar)) (duration_s c)) s);;
      if success c then
        s ← se_get;
        cm ← se_lift (record_completion (sc_cost s) ep (r_call_site (ar_request ar))
                        (input_tokens c) (output_tokens c) (duration_s c) (occupancy_during c));
        se_modify (set_cost cm)
      else mret tt
  end.

(** The endpoint loop of [Scheduler.cancel]. *)
Fixpoint cancel_endpoints (id_ : string) (l : dict string EndpointQueue)
  : option (dict string EndpointQueue) :=
  match l with
  | [] => None
  | (ep, eq) :: l' =>
      match cancel_bands id_ eq all_bands with
      | Some eq' => Some ((ep, eq') :: l')
      | None => cons (ep, eq) <$> cancel_endpoints id_ l'
      end
  end.

Definition cancel (id_ : string) (s : Sched) : bool * Sched :=
  match cancel_endpoints id_ (sc_queues s) with
  | Some qs => (true, set_queues qs s)
  | None => (false, s)
  end.
