(* ===== verification/SchedSteps.v ===== *)
(** * How the scheduler's state evolves

    The representation invariant [sched_ok], the multisets of waiting and
    running requests, and the case analysis of one pass of the dispatch loop
    into the steps it is made of: a dispatch, a spill, a spill whose
    re-enqueue raised, or nothing. *)

From Stdlib Require Import QArith Lqa Lia ZArith Permutation.
From stdpp Require Import base list strings relations.
From S2P Require Import Prelude PyDict PyText Config Budget Json Cost Queue Scheduler.

Local Open Scope Z_scope.

(** ** Views of the state *)

Definition queue_at (s : Sched) (ep : string) : EndpointQueue :=
  from_option id empty_queue (dget (sc_queues s) ep).

(** An agent's deque at an endpoint and band. *)
Definition line (s : Sched) (ep : string) (b : PriorityBand) (a : string) : list QueuedRequest :=
  deque_of (band_of (queue_at s ep) b) a.

Definition waiting_all (s : Sched) : list QueuedRequest := concat (map eq_reqs (dvals (sc_queues s))).

Definition running (m : dict string ActiveRequest) : list QueuedRequest := map ar_request (dvals m).

Definition running_all (s : Sched) : list QueuedRequest := concat (map running (dvals (sc_active s))).

Record sched_ok (s : Sched) : Prop := {
  so_queues_wf : dwf (sc_queues s);
  so_queues : forall ep eq, dget (sc_queues s) ep = Some eq -> eq_ok eq;
  so_home : forall ep eq r, dget (sc_queues s) ep = Some eq -> r ∈ eq_reqs eq -> r_endpoint r = ep;
  so_active_wf : dwf (sc_active s);
  so_active : forall ep m, dget (sc_active s) ep = Some m ->
    dwf m /\ forall i ar, dget m i = Some ar ->
      r_request_id (ar_request ar) = i /\ r_endpoint (ar_request ar) = ep;
  so_keys : forall ep, dget (sc_queues s) ep = None -> dget (sc_active s) ep = None;
}.

(** What no operation of a tick changes. *)
Record stable (s s' : Sched) : Prop := {
  st_endpoints : endpoints (sc_config s') = endpoints (sc_config s);
  st_agents : forall a, agent_view (sc_config s') a = agent_view (sc_config s) a;
  st_cost : sc_cost s' = sc_cost s;
  st_budget : forall a, has_budget (sc_budgets s) a -> has_budget (sc_budgets s') a;
  st_completed : sc_total_completed s' = sc_total_completed s;
  st_open : forall ep, is_Some (dget (sc_queues s) ep) -> is_Some (dget (sc_queues s') ep);
}.

(** Only budgets and default agent records differ. *)
Record quiet (s s' : Sched) : Prop := {
  qt_stable : stable s s';
  qt_queues : sc_queues s' = sc_queues s;
  qt_active : sc_active s' = sc_active s;
  qt_events : sc_events s' = sc_events s;
  qt_dispatched : sc_total_dispatched s' = sc_total_dispatched s;
  qt_timeouts : sc_total_timeouts s' = sc_total_timeouts s;
  qt_spilled : sc_total_spilled s' = sc_total_spilled s;
}.

#[global] Instance stable_preorder : PreOrder stable.
Proof.
  split; [by intros s; split|].
  intros s1 s2 s3 [] []. split; try congruence; eauto.
Qed.

#[global] Instance quiet_preorder : PreOrder quiet.
Proof.
  split; [by intros s; split|].
  intros s1 s2 s3 [] []. split; try congruence. by etransitivity.
Qed.

(** Two states with the same queues and active maps have the same views. *)
Definition same_store (s s' : Sched) : Prop :=
  sc_queues s' = sc_queues s /\ sc_active s' = sc_active s.

Lemma quiet_store s s' : quiet s s' -> same_store s s'.
Proof. intros []. by split. Qed.

Lemma sched_ok_store s s' : same_store s s' -> sched_ok s -> sched_ok s'.
Proof. intros [Hq Ha] []. split; rewrite ?Hq, ?Ha; eauto. Qed.

Lemma waiting_store s s' : same_store s s' -> waiting_all s' = waiting_all s.
Proof. intros [Hq _]. unfold waiting_all. by rewrite Hq. Qed.

Lemma running_store s s' : same_store s s' -> running_all s' = running_all s.
Proof. intros [_ Ha]. unfold running_all. by rewrite Ha. Qed.

Lemma line_store s s' ep b a : same_store s s' -> line s' ep b a = line s ep b a.
Proof. intros [Hq _]. unfold line, queue_at. by rewrite Hq. Qed.

Lemma active_of_store s s' ep : same_store s s' -> active_of s' ep = active_of s ep.
Proof. intros [_ Ha]. unfold active_of. by rewrite Ha. Qed.

(** ** Writing one queue *)

Lemma eq_ok_queue_at s ep : sched_ok s -> eq_ok (queue_at s ep).
Proof.
  intros Hs. unfold queue_at. destruct (dget (sc_queues s) ep) eqn:E; simpl; [by eapply so_queues|apply eq_ok_empty].
Qed.

Lemma put_queue_ok ep eq s :
  sched_ok s -> eq_ok eq -> (forall r, r ∈ eq_reqs eq -> r_endpoint r = ep) -> sched_ok (put_queue ep eq s).
Proof.
  intros [Hd Hq Hh Haw Ha Hk] He Hr. split; simpl; auto with roadstead.
  - intros ep' eq'. rewrite dget_dset. case_decide; [|apply Hq]. intros; by simplify_eq.
  - intros ep' eq' r. rewrite dget_dset. case_decide; [|apply Hh]. intros; simplify_eq. auto.
  - intros ep'. rewrite dget_dset. case_decide; [done|auto].
Qed.

Lemma queue_at_put ep eq s ep' :
  queue_at (put_queue ep eq s) ep' = if decide (ep = ep') then eq else queue_at s ep'.
Proof. unfold queue_at. simpl. rewrite dget_dset. by case_decide. Qed.

Lemma waiting_put ep eq0 eq s :
  dget (sc_queues s) ep = Some eq0 ->
  exists rest, waiting_all s ≡ₚ eq_reqs eq0 ++ rest /\ waiting_all (put_queue ep eq s) ≡ₚ eq_reqs eq ++ rest.
Proof.
  intros H. unfold waiting_all. simpl.
  destruct (Permutation_dvals_dset _ _ _ eq H) as (rest & P & P').
  exists (concat (map eq_reqs rest)). by rewrite P, P'.
Qed.

Lemma home_queue_at s ep r : sched_ok s -> r ∈ eq_reqs (queue_at s ep) -> r_endpoint r = ep.
Proof.
  intros Hs. unfold queue_at. destruct (dget (sc_queues s) ep) eqn:E; simpl.
  - by eapply so_home.
  - intros H. by apply not_elem_of_nil in H.
Qed.

Lemma waiting_elem s ep r : r ∈ eq_reqs (queue_at s ep) -> r ∈ waiting_all s.
Proof.
  unfold queue_at. destruct (dget (sc_queues s) ep) eqn:E; simpl; [|intros H; by apply not_elem_of_nil in H].
  intros H. destruct (waiting_put ep _ e s E) as (rest & P & _). rewrite P. apply elem_of_app. by left.
Qed.

Lemma dset_is_Some {V} (d : dict string V) k v k' : is_Some (dget d k') -> is_Some (dget (dset d k v) k').
Proof. intros H. rewrite dget_dset. case_decide; eauto. Qed.

Lemma put_queue_stable ep eq s : stable s (put_queue ep eq s).
Proof. split; try done. intros ep'. apply dset_is_Some. Qed.

#[local] Hint Resolve dset_is_Some put_queue_stable : roadstead.

(** *** Rotating *)

Lemma rotate_at_ok ep b s : sched_ok s -> sched_ok (rotate_at ep b s).
Proof.
  intros Hs. unfold rotate_at. destruct (dget (sc_queues s) ep) eqn:E; [|done].
  apply put_queue_ok; [done|apply rotate_robin_ok; by eapply so_queues|].
  intros r. rewrite rotate_robin_reqs. by eapply so_home.
Qed.

Lemma rotate_at_waiting ep b s : waiting_all (rotate_at ep b s) ≡ₚ waiting_all s.
Proof.
  unfold rotate_at. destruct (dget (sc_queues s) ep) eqn:E; [|done].
  destruct (waiting_put ep _ (rotate_robin e b) s E) as (rest & P & P').
  by rewrite P, P', rotate_robin_reqs.
Qed.

Lemma rotate_at_queue ep b s ep' :
  sc_queues (rotate_at ep b s) = sc_queues s \/
  queue_at (rotate_at ep b s) ep' = if decide (ep = ep') then rotate_robin (queue_at s ep) b else queue_at s ep'.
Proof.
  unfold rotate_at. destruct (dget (sc_queues s) ep) eqn:E; [right|by left].
  rewrite queue_at_put. unfold queue_at at 2. by rewrite E.
Qed.

Lemma rotate_at_line ep b s ep' b' a : line (rotate_at ep b s) ep' b' a = line s ep' b' a.
Proof.
  unfold line. destruct (rotate_at_queue ep b s ep') as [H|H].
  - unfold queue_at. by rewrite H.
  - rewrite H. case_decide; [|done]. subst. apply rotate_robin_deque.
Qed.

Lemma rotate_at_other ep b s :
  stable s (rotate_at ep b s) /\ sc_active (rotate_at ep b s) = sc_active s /\
  sc_events (rotate_at ep b s) = sc_events s /\
  sc_total_dispatched (rotate_at ep b s) = sc_total_dispatched s /\
  sc_total_timeouts (rotate_at ep b s) = sc_total_timeouts s /\
  sc_total_spilled (rotate_at ep b s) = sc_total_spilled s.
Proof. unfold rotate_at. case_match; split_and!; auto with roadstead; done. Qed.

(** The depth of a band, from its queued requests. *)
Lemma depth_at_reqs s ep b : depth_at s ep b = zlen (bq_reqs (band_of (queue_at s ep) b)).
Proof.
  unfold depth_at, queue_at, band_depth. destruct (dget (sc_queues s) ep); simpl;
    [apply bq_depth_reqs|by destruct b].
Qed.

Lemma rotate_at_depth ep b s ep' b' : depth_at (rotate_at ep b s) ep' b' = depth_at s ep' b'.
Proof.
  rewrite !depth_at_reqs. destruct (rotate_at_queue ep b s ep') as [H|H].
  - unfold queue_at. by rewrite H.
  - rewrite H. case_decide; [|done]. subst. unfold rotate_robin. rewrite band_of_set. case_decide; by subst.
Qed.

(** *** Taking the head of a deque *)

Record taken (ep : string) (b : PriorityBand) (aid : string) (r : QueuedRequest) (s s1 : Sched) : Prop := {
  tk_ok : sched_ok s1;
  tk_waiting : waiting_all s ≡ₚ r :: waiting_all s1;
  tk_tag : tagged b aid r;
  tk_home : r_endpoint r = ep;
  tk_elem : r ∈ eq_reqs (queue_at s ep);
  tk_line : line s ep b aid = r :: line s1 ep b aid;
  tk_lines : forall ep' b' a', (ep', b', a') <> (ep, b, aid) -> line s1 ep' b' a' = line s ep' b' a';
  tk_depth : depth_at s ep b = 1 + depth_at s1 ep b;
  tk_depths : forall ep' b', (ep', b') <> (ep, b) -> depth_at s1 ep' b' = depth_at s ep' b';
}.

Lemma queue_at_get s ep eq : dget (sc_queues s) ep = Some eq -> queue_at s ep = eq.
Proof. intros H. unfold queue_at. by rewrite H. Qed.

Lemma take_head ep b aid r eq s :
  sched_ok s -> dget (sc_queues s) ep = Some eq -> peek eq b aid = Some r ->
  exists eq', dequeue eq b aid = (Some r, eq') /\ taken ep b aid r s (put_queue ep eq' s).
Proof.
  intros Hs E Hp. pose proof (queue_at_get _ _ _ E) as Eq.
  destruct (dequeue_spec eq b aid r (so_queues _ Hs _ _ E) Hp)
    as (eq' & Hd & K & P & Pb & T & D & D' & B & R).
  assert (r ∈ eq_reqs eq) as Hin by (rewrite P; by left).
  exists eq'. split; [done|]. split; try done.
  - apply put_queue_ok; [done|done|]. intros r' Hr. apply (so_home _ Hs _ _ r' E). rewrite P. by right.
  - destruct (waiting_put ep eq eq' s E) as (rest & -> & ->). by rewrite P.
  - by apply (so_home _ Hs _ _ r E).
  - by rewrite Eq.
  - unfold line. rewrite queue_at_put, Eq. by rewrite decide_True.
  - intros ep' b' a' Hne. unfold line. rewrite queue_at_put. case_decide; [|done]. subst. apply D'. congruence.
  - rewrite !depth_at_reqs, queue_at_put, decide_True, Eq by done. rewrite <- (zlen_cons r). by apply zlen_perm.
  - intros ep' b' Hne. rewrite !depth_at_reqs, queue_at_put. case_decide; [|done]. subst.
    rewrite B by congruence. done.
Qed.

(** *** Opening an endpoint and adding a request *)

Lemma open_endpoint_get ep s : dget (sc_queues (open_endpoint ep s)) ep = Some (queue_at s ep).
Proof.
  unfold open_endpoint, queue_at, dmem. destruct (dget (sc_queues s) ep) eqn:E; simpl; [done|].
  apply dget_dset_eq.
Qed.

Lemma open_endpoint_queue ep s ep' : queue_at (open_endpoint ep s) ep' = queue_at s ep'.
Proof.
  unfold open_endpoint, dmem. destruct (dget (sc_queues s) ep) eqn:E; [done|].
  unfold queue_at. simpl. rewrite dget_dset. case_decide; [|done]. subst. by rewrite E.
Qed.

Lemma open_endpoint_ok ep s : sched_ok s -> sched_ok (open_endpoint ep s).
Proof.
  intros Hs. unfold open_endpoint, dmem. destruct (dget (sc_queues s) ep) eqn:E; [done|].
  assert (sched_ok (put_queue ep empty_queue s)) as [Hd Hq Hh Haw Ha Hk].
  { apply put_queue_ok; [done|apply eq_ok_empty|]. intros r H. by apply not_elem_of_nil in H. }
  split; simpl in *; auto with roadstead.
  - intros ep' m. rewrite dget_dset. case_decide; [|apply Ha]. intros; simplify_eq.
    split; [apply dwf_nil|done].
  - intros ep'. specialize (Hk ep'). rewrite dget_dset in Hk |- *. rewrite dget_dset. by case_decide.
Qed.

Lemma open_endpoint_waiting ep s : waiting_all (open_endpoint ep s) ≡ₚ waiting_all s.
Proof.
  unfold open_endpoint, dmem. destruct (dget (sc_queues s) ep) eqn:E; [done|].
  unfold waiting_all. simpl. rewrite dset_new by done. unfold dvals.
  rewrite !map_app, concat_app. simpl. by rewrite app_nil_r.
Qed.

Lemma open_endpoint_active ep s ep' : sched_ok s -> active_of (open_endpoint ep s) ep' = active_of s ep'.
Proof.
  intros Hs. unfold open_endpoint, dmem. destruct (dget (sc_queues s) ep) eqn:E; [done|].
  unfold active_of. simpl. rewrite dget_dset. case_decide; [|done]. subst.
  by rewrite (so_keys _ Hs _ E).
Qed.

Lemma open_endpoint_running ep s : sched_ok s -> running_all (open_endpoint ep s) = running_all s.
Proof.
  intros Hs. unfold open_endpoint, dmem. destruct (dget (sc_queues s) ep) eqn:E; [done|].
  unfold running_all. simpl. rewrite dset_new by by apply so_keys. unfold dvals.
  rewrite !map_app, concat_app. simpl. by rewrite app_nil_r.
Qed.

Lemma open_endpoint_other ep s :
  stable s (open_endpoint ep s) /\ sc_events (open_endpoint ep s) = sc_events s /\
  sc_total_dispatched (open_endpoint ep s) = sc_total_dispatched s /\
  sc_total_timeouts (open_endpoint ep s) = sc_total_timeouts s /\
  sc_total_spilled (open_endpoint ep s) = sc_total_spilled s.
Proof.
  unfold open_endpoint. case_match; split_and!; try done. split; try done. simpl. auto with roadstead.
Qed.

Definition push (r : QueuedRequest) (s : Sched) : Sched :=
  let ep := r_endpoint r in
  put_queue ep (eq_enqueue (queue_at s ep) r) (open_endpoint ep s).

Lemma push_ok r s : sched_ok s -> sched_ok (push r s).
Proof.
  intros Hs. apply put_queue_ok; [by apply open_endpoint_ok|by apply eq_enqueue_ok, eq_ok_queue_at|].
  intros r'. rewrite eq_enqueue_reqs. intros [->|H]%elem_of_cons; [done|]. by eapply home_queue_at.
Qed.

Lemma push_waiting r s : waiting_all (push r s) ≡ₚ r :: waiting_all s.
Proof.
  unfold push. destruct (waiting_put (r_endpoint r) _ (eq_enqueue (queue_at s (r_endpoint r)) r)
    (open_endpoint (r_endpoint r) s) (open_endpoint_get _ _)) as (rest & P & P').
  rewrite P', <- (open_endpoint_waiting (r_endpoint r) s), P. by rewrite eq_enqueue_reqs.
Qed.

Lemma push_queue r s ep :
  queue_at (push r s) ep = if decide (r_endpoint r = ep) then eq_enqueue (queue_at s ep) r else queue_at s ep.
Proof.
  unfold push. rewrite queue_at_put. case_decide; [by subst|]. apply open_endpoint_queue.
Qed.

(** Only the store, budgets and default agent records may differ. *)
Record same_log (s s' : Sched) : Prop := {
  sl_stable : stable s s';
  sl_events : sc_events s' = sc_events s;
  sl_dispatched : sc_total_dispatched s' = sc_total_dispatched s;
  sl_timeouts : sc_total_timeouts s' = sc_total_timeouts s;
  sl_spilled : sc_total_spilled s' = sc_total_spilled s;
}.

#[global] Instance same_log_preorder : PreOrder same_log.
Proof.
  split; [by intros s; split|].
  intros s1 s2 s3 [] []. split; try congruence. by etransitivity.
Qed.

Lemma quiet_log s s' : quiet s s' -> same_log s s'.
Proof. intros []. by split. Qed.

Lemma open_endpoint_log ep s : same_log s (open_endpoint ep s).
Proof. destruct (open_endpoint_other ep s) as (? & ? & ? & ? & ?). by split. Qed.

(** The output budget a request is costed with. *)
Definition max_output_of (r : QueuedRequest) : json :=
  from_option id (JInt 256) (dget (r_payload r) "max_tokens"%string).

(** A request whose token count or whose cost cannot be computed. *)
Definition costing_fails (r : QueuedRequest) : Prop :=
  (exists e, estimate_input_tokens (r_payload r) = Raise e) \/
  (exists cm ep n cs occ e, estimate_cost cm ep n (max_output_of r) cs occ = Raise e).

(** [enqueue] either adds the costed request or raises having only opened its
    endpoint. *)
Lemma enqueue_cases r s :
  match enqueue r s with
  | (Ret r', s') =>
      (exists n c, r' = with_cost r n c) /\ same_store (push r' s) s' /\ same_log s s' /\
      has_budget (sc_budgets s') (r_agent_id r)
  | (Raise _, s') =>
      same_store (open_endpoint (r_endpoint r) s) s' /\ same_log s s' /\ costing_fails r
  end.
Proof.
  unfold enqueue. se_run.
  set (s1 := open_endpoint (r_endpoint r) s).
  pose proof (agent_config_endpoints (sc_config s1) (r_agent_id r)) as He.
  pose proof (agent_view_default (sc_config s1) (r_agent_id r)) as Hv.
  destruct (agent_config (sc_config s1) (r_agent_id r)) as [acfg cfg].
  cbn [fst snd] in He, Hv. se_run.
  set (s2 := set_budgets _ _).
  assert (quiet s1 s2 /\ has_budget (sc_budgets s2) (r_agent_id r)) as [Hq Hb].
  { split; [|apply has_budget_get_or_create; by left].
    split; try done. split; try done. intros a Ha. apply has_budget_get_or_create. by right. }
  assert (same_log s s2) as Hl.
  { etransitivity; [apply open_endpoint_log|by apply quiet_log]. }
  destruct (estimate_input_tokens (r_payload r)) as [n|e] eqn:En.
  2: { split_and!; [by apply quiet_store|done|left; eauto]. }
  se_run. destruct (estimate_cost _ _ _ _ _ _) as [c|e] eqn:Ec.
  2: { split_and!; [by apply quiet_store|done|right; do 6 eexists; done]. }
  se_run. unfold mret, se_ret. split; [eauto|].
  assert (dget (sc_queues s2) (r_endpoint r) = Some (queue_at s (r_endpoint r))) as ->.
  { rewrite (qt_queues _ _ Hq). apply open_endpoint_get. }
  split; [|split; [|done]].
  - by split.
  - destruct Hl as [[? ? ? ? ? Ho] ? ? ? ?]. split; try done. split; try done. simpl. auto with roadstead.
Qed.

(** ** The admission decision *)

(** Local capacity says yes. *)
Definition local_room (c : EndpointConfig) (occ av : Z) : Prop := 0 < av /\ occ < effective_max_slots c.

(** Everything a spill to [target] needs besides a full local endpoint. *)
Record may_leave (h : Hooks) (s : Sched) (r : QueuedRequest) (target : string) : Prop := {
  ml_target : target <> EmptyString;
  ml_once : str_truthy (r_spilled_from r) = false;
  ml_granted : spill_ok (agent_view (sc_config s) (r_agent_id r)) = true;
  ml_allowed : r_allow_spill r <> Some false;
  ml_spend : hook (may_spend h) (r_agent_id r) = true;
  ml_room : exists tc, dget (endpoints (sc_config s)) target = Some tc /\
              fits_context r (context_per_slot tc) = Ret true /\
              active_count s target < effective_max_slots tc;
}.

(** Why an admission raises: an unknown target, or an unreadable payload. *)
Definition admit_fails (s : Sched) (r : QueuedRequest) (target : string) (e : PyErr) : Prop :=
  (dget (endpoints (sc_config s)) target = None) \/
  exists tc, dget (endpoints (sc_config s)) target = Some tc /\
    fits_context r (context_per_slot tc) = Raise e.

Lemma set_config_quiet s a : quiet s (set_config (agent_config (sc_config s) a).2 s).
Proof.
  split; try done. split; simpl; try done; [apply agent_config_endpoints|apply agent_view_default].
Qed.

Lemma admit_cases h c r occ av target s :
  match _admit h c r occ av target s with
  | (Ret DISPATCH, s') => s' = s /\ 0 < max_slots c /\ local_room c occ av
  | (Ret SPILL, s') => quiet s s' /\ 0 < max_slots c /\ ~ local_room c occ av /\ may_leave h s r target
  | (Ret DEFER, s') => quiet s s' /\ (max_slots c <= 0 \/ ~ local_room c occ av)
  | (Raise e, s') => quiet s s' /\ target <> EmptyString /\ admit_fails s r target e
  end.
Proof.
  unfold _admit, local_room. destruct (Z.leb_spec (max_slots c) 0) as [Hm|Hm]; [split; [done|by left]|].
  destruct (Z.ltb_spec 0 av) as [Ha|Ha], (Z.ltb_spec occ (effective_max_slots c)) as [Ho|Ho];
    cbn [andb]; [done|..].
  all: destruct (String.eqb_spec target "") as [|Ht]; [split; [done|]; right; lia|].
  all: destruct (str_truthy (r_spilled_from r)) eqn:E1; [split; [done|]; right; lia|].
  all: se_run; pose proof (set_config_quiet s (r_agent_id r)) as Hq;
    pose proof (agent_config_fst (sc_config s) (r_agent_id r)) as Hf;
    destruct (agent_config (sc_config s) (r_agent_id r)) as [acfg cfg]; simpl in Hf, Hq; se_run.
  all: destruct (spill_ok acfg) eqn:E2; [cbn [negb]|split; [done|]; right; lia].
  all: case_bool_decide as E3; [split; [done|]; right; lia|].
  all: destruct (hook (may_spend h) (r_agent_id r)) eqn:E4; [cbn [negb]|split; [done|]; right; lia].
  all: se_run; pose proof (st_endpoints _ _ (qt_stable _ _ Hq)) as He; rewrite He; unfold admit_fails.
  all: destruct (dget (endpoints (sc_config s)) target) as [tc|] eqn:E5; [|cbn; split_and!; [done|done|by left]].
  all: se_run; destruct (fits_context r (context_per_slot tc)) as [[]|] eqn:E6; cbn [negb];
    [|split; [done|]; right; lia|split_and!; [done|done|right; by exists tc]].
  all: destruct (Z.leb_spec (effective_max_slots tc) (active_count (set_config cfg s) target)) as [E7|E7];
    [split; [done|]; right; lia|].
  all: split_and!; [done|done|lia|]; split; try done; [by rewrite <- Hf|]; exists tc; done.
Qed.

(** ** One pass of the dispatch loop *)

(** A dispatch: the head of a deque starts running. *)
Record dispatched (ep : string) (b : PriorityBand) (aid : string) (now : Q) (d : DispatchDecision)
    (s s' : Sched) : Prop := {
  dp_taken : exists s1, taken ep b aid (dd_request d) s s1 /\
    waiting_all s' ≡ₚ waiting_all s1 /\
    (forall ep' b' a', line s' ep' b' a' = line s1 ep' b' a') /\
    (forall ep' b', depth_at s' ep' b' = depth_at s1 ep' b');
  dp_ok : sched_ok s';
  dp_active : sc_active s' = dset (sc_active s) ep (dset (active_of s ep) (r_request_id (dd_request d))
    {| ar_request := dd_request d; dispatched_at := now;
       estimated_remaining_s := r_estimated_cost_ss (dd_request d) |});
  dp_stable : stable s s';
  dp_events : sc_events s' = sc_events s ++ [EvDispatch d];
  dp_count : sc_total_dispatched s' = sc_total_dispatched s + 1;
  dp_timeouts : sc_total_timeouts s' = sc_total_timeouts s;
  dp_spilled : sc_total_spilled s' = sc_total_spilled s;
}.

(** [r'] is [r] moved from [ep] to [target], with its cost estimated again. *)
Definition moved_to (r r' : QueuedRequest) (ep target : string) : Prop :=
  exists ctx n c, r' = with_cost (moved r (r_degraded_from r) (Some ep) target ctx) n c.

(** A spill: the head of a deque joins the target's queue. *)
Record spilled (h : Hooks) (ep : string) (b : PriorityBand) (aid target : string) (r r' : QueuedRequest)
    (s s' : Sched) : Prop := {
  sp_leave : may_leave h s r target;
  sp_moved : moved_to r r' ep target;
  sp_taken : exists s1, taken ep b aid r s s1 /\
    waiting_all s' ≡ₚ r' :: waiting_all s1 /\
    (forall ep' b' a', line s' ep' b' a' =
       if decide ((ep', b', a') = (target, b, aid)) then line s1 ep' b' a' ++ [r'] else line s1 ep' b' a') /\
    (forall ep' b', depth_at s' ep' b' = depth_at s1 ep' b' + if decide ((ep', b') = (target, b)) then 1 else 0);
  sp_ok : sched_ok s';
  sp_active : forall ep', active_of s' ep' = active_of s ep';
  sp_running : running_all s' = running_all s;
  sp_stable : stable s s';
  sp_budget : has_budget (sc_budgets s') (r_agent_id r);
  sp_events : sc_events s' = sc_events s ++ [EvSpill r' ep target];
  sp_dispatched : sc_total_dispatched s' = sc_total_dispatched s;
  sp_timeouts : sc_total_timeouts s' = sc_total_timeouts s;
  sp_count : sc_total_spilled s' = sc_total_spilled s + 1;
}.

(** A spill whose re-enqueue raised: the request has left its deque and is
    nowhere. *)
Record lost (h : Hooks) (ep : string) (b : PriorityBand) (aid target : string) (r : QueuedRequest) (s s' : Sched)
    : Prop := {
  ls_leave : may_leave h s r target;
  ls_taken : exists s1, taken ep b aid r s s1 /\ waiting_all s' ≡ₚ waiting_all s1;
  ls_ok : sched_ok s';
  ls_active : forall ep', active_of s' ep' = active_of s ep';
  ls_stable : stable s s';
  ls_dispatched : sc_total_dispatched s' = sc_total_dispatched s;
  ls_count : sc_total_spilled s' = sc_total_spilled s + 1;
  ls_reason : costing_fails r;
}.

Lemma push_line r s ep b a :
  line (push r s) ep b a =
  if decide ((ep, b, a) = (r_endpoint r, r_band r, r_agent_id r)) then line s ep b a ++ [r] else line s ep b a.
Proof.
  unfold line. rewrite push_queue. case_decide as E.
  - unfold eq_enqueue. rewrite band_of_set. case_decide as E2.
    + subst. rewrite deque_of_enqueue. repeat case_decide; simplify_eq; done.
    + rewrite decide_False by congruence. done.
  - rewrite decide_False by congruence. done.
Qed.

Lemma push_depth r s ep b :
  depth_at (push r s) ep b = depth_at s ep b + if decide ((ep, b) = (r_endpoint r, r_band r)) then 1 else 0.
Proof.
  rewrite !depth_at_reqs, push_queue. case_decide as E.
  - unfold eq_enqueue. rewrite band_of_set. case_decide as E2.
    + subst. rewrite decide_True by done. rewrite (zlen_perm _ _ (bq_enqueue_reqs _ _)), zlen_cons. lia.
    + rewrite decide_False by congruence. lia.
  - rewrite decide_False by congruence. lia.
Qed.

Lemma line_queues s s' ep b a : sc_queues s' = sc_queues s -> line s' ep b a = line s ep b a.
Proof. intros H. unfold line, queue_at. by rewrite H. Qed.

Lemma depth_queues s s' ep b : sc_queues s' = sc_queues s -> depth_at s' ep b = depth_at s ep b.
Proof. intros H. unfold depth_at. by rewrite H. Qed.

Lemma waiting_queues s s' : sc_queues s' = sc_queues s -> waiting_all s' = waiting_all s.
Proof. intros H. unfold waiting_all. by rewrite H. Qed.

Lemma set_active_ok s s' ep m :
  sched_ok s -> sc_queues s' = sc_queues s -> sc_active s' = dset (sc_active s) ep m ->
  is_Some (dget (sc_queues s) ep) -> dwf m ->
  (forall i ar, dget m i = Some ar -> r_request_id (ar_request ar) = i /\ r_endpoint (ar_request ar) = ep) ->
  sched_ok s'.
Proof.
  intros [Hd Hq Hh Haw Ha Hk] Eq Ea [q Hin] Hm Hids. split; rewrite ?Eq, ?Ea; auto with roadstead.
  - intros ep' m'. rewrite dget_dset. case_decide; [|apply Ha]. intros; by simplify_eq.
  - intros ep' Hn. rewrite dget_dset. case_decide; [congruence|auto].
Qed.

Lemma active_of_ids s ep i ar :
  sched_ok s -> dget (active_of s ep) i = Some ar ->
  r_request_id (ar_request ar) = i /\ r_endpoint (ar_request ar) = ep.
Proof.
  intros Hs. unfold active_of. destruct (dget (sc_active s) ep) eqn:E; simpl; [|done].
  by apply (so_active _ Hs _ _ E).
Qed.

Lemma active_of_wf s ep : sched_ok s -> dwf (active_of s ep).
Proof.
  intros Hs. unfold active_of. destruct (dget (sc_active s) ep) eqn:E; simpl; [|apply dwf_nil].
  by apply (so_active _ Hs _ _ E).
Qed.

Lemma dispatch_step ep b aid now occ r eq s :
  sched_ok s -> dget (sc_queues s) ep = Some eq -> peek eq b aid = Some r ->
  exists eq', dequeue eq b aid = (Some r, eq') /\
    let '(d, s2) := start_request ep aid now occ r (put_queue ep eq' s) in
    dd_request d = r /\ occupancy_at_dispatch d = occ /\
    dispatched ep b aid now d s (rotate_at ep b s2).
Proof.
  intros Hs E Hp. destruct (take_head ep b aid r eq s Hs E Hp) as (eq' & Hd & T).
  exists eq'. split; [done|]. unfold start_request. set (s1 := put_queue ep eq' s) in *.
  set (d := Build_DispatchDecision _ _ _). set (s2 := note _ _ _ _ _ _).
  assert (sched_ok s2) as Hok2.
  { eapply (set_active_ok s1); [apply T|done|done| | |].
    - exists eq'. apply dget_dset_eq.
    - apply dwf_dset. apply (active_of_wf s1), T.
    - intros i ar. rewrite dget_dset. case_decide; [|apply (active_of_ids s1); apply T].
      intros; simplify_eq. by destruct T. }
  destruct (rotate_at_other ep b s2) as (R1 & R2 & R3 & R4 & R5 & R6).
  split_and!; [done|done|]. split; rewrite ?R2, ?R3, ?R4, ?R5, ?R6; try done.
  - exists s1. split; [done|]. split; [by rewrite rotate_at_waiting|]. split; intros.
    + rewrite rotate_at_line. by apply line_queues.
    + rewrite rotate_at_depth. by apply depth_queues.
  - by apply rotate_at_ok.
  - etransitivity; [|done]. split; try done; simpl; [|lia|auto with roadstead].
    intros a Ha. by apply has_budget_charge.
  - simpl. lia.
  - simpl. lia.
Qed.

Lemma moved_keeps r r' ep target :
  moved_to r r' ep target ->
  r_request_id r' = r_request_id r /\ r_agent_id r' = r_agent_id r /\ r_band r' = r_band r /\
  r_endpoint r' = target /\ r_spilled_from r' = Some ep /\ r_payload r' = r_payload r /\
  r_timeout_deadline r' = r_timeout_deadline r /\ r_enqueued_at r' = r_enqueued_at r.
Proof. by intros (ctx & n & c & ->). Qed.

(** A spill whose re-submission returns. *)
Lemma spill_lands h ep b aid target r r' eq' tc s s2 :
  sched_ok s -> may_leave h s r target -> dget (endpoints (sc_config s)) target = Some tc ->
  taken ep b aid r s (put_queue ep eq' s) -> sched_ok (note 0 0 0 1 [] (put_queue ep eq' s)) ->
  enqueue (moved r (r_degraded_from r) (Some (r_endpoint r)) target (context_per_slot tc))
    (note 0 0 0 1 [] (put_queue ep eq' s)) = (Ret r', s2) ->
  spilled h ep b aid target r r' s (rotate_at ep b (note 0 0 0 0 [EvSpill r' (r_endpoint r) target] s2)).
Proof.
  intros Hs HL Et T Hn E. set (s1 := put_queue ep eq' s) in *. set (m := moved _ _ _ _ _) in *.
  pose proof (enqueue_cases m (note 0 0 0 1 [] s1)) as HE. rewrite E in HE.
  destruct HE as ((n & c & Hr') & Hst & Hlog & Hb).
  assert (moved_to r r' ep target) as Hmv by (exists (context_per_slot tc), n, c; rewrite <- (tk_home _ _ _ _ _ _ T); done).
  destruct (moved_keeps _ _ _ _ Hmv) as (K1 & K2 & K3 & K4 & _).
  destruct (tk_tag _ _ _ _ _ _ T) as [G1 G2].
  assert (sched_ok s2) as Hok2 by (eapply sched_ok_store; [done|]; by apply push_ok).
  rewrite (tk_home _ _ _ _ _ _ T).
  set (s3 := note 0 0 0 0 [EvSpill r' ep target] s2).
  destruct (rotate_at_other ep b s3) as (R1 & R2 & R3 & R4 & R5 & R6).
  assert (forall ep', active_of s2 ep' = active_of s ep') as Hact.
  { intros ep'. rewrite (active_of_store _ _ _ Hst). unfold push.
    etransitivity; [|apply (open_endpoint_active (r_endpoint r') _ ep' Hn)]. done. }
  split; rewrite ?R3, ?R4, ?R5, ?R6; try done.
  + exists s1. split; [done|]. split; [|split].
    * rewrite rotate_at_waiting. change (waiting_all s3) with (waiting_all s2).
      rewrite (waiting_store _ _ Hst), push_waiting. done.
    * intros ep' b' a'. rewrite rotate_at_line. change (line s3 ep' b' a') with (line s2 ep' b' a').
      rewrite (line_store _ _ _ _ _ Hst), push_line, K4, K3, K2, G1, G2. done.
    * intros ep' b'. rewrite rotate_at_depth. change (depth_at s3 ep' b') with (depth_at s2 ep' b').
      rewrite (depth_queues (push r' (note 0 0 0 1 [] s1)) s2) by apply Hst.
      rewrite push_depth, K4, K3, G2. done.
  + apply rotate_at_ok. by apply (sched_ok_store s2).
  + intros ep'. unfold active_of. rewrite R2. apply Hact.
  + unfold running_all. rewrite R2. change (running_all s2 = running_all s).
    rewrite (running_store _ _ Hst). unfold push.
    etransitivity; [|apply (open_endpoint_running (r_endpoint r') _ Hn)]. done.
  + etransitivity; [|done]. destruct (sl_stable _ _ Hlog) as [? ? ? ? Hc ?]. split; try done.
    * simpl in Hc |- *. lia.
    * simpl in *. auto with roadstead.
  + by apply (st_budget _ _ R1).
  + simpl. rewrite (sl_events _ _ Hlog). simpl. by rewrite app_nil_r.
  + simpl. rewrite (sl_dispatched _ _ Hlog). simpl. lia.
  + simpl. rewrite (sl_timeouts _ _ Hlog). simpl. lia.
  + simpl. rewrite (sl_spilled _ _ Hlog). simpl. lia.
Qed.

(** A spill whose re-submission raises: the request is gone. *)
Lemma spill_loses h ep b aid target r eq' tc s s2 e :
  sched_ok s -> may_leave h s r target -> dget (endpoints (sc_config s)) target = Some tc ->
  taken ep b aid r s (put_queue ep eq' s) -> sched_ok (note 0 0 0 1 [] (put_queue ep eq' s)) ->
  enqueue (moved r (r_degraded_from r) (Some (r_endpoint r)) target (context_per_slot tc))
    (note 0 0 0 1 [] (put_queue ep eq' s)) = (Raise e, s2) ->
  lost h ep b aid target r s s2.
Proof.
  intros Hs HL Et T Hn E. set (s1 := put_queue ep eq' s) in *. set (m := moved _ _ _ _ _) in *.
  pose proof (enqueue_cases m (note 0 0 0 1 [] s1)) as HE. rewrite E in HE. destruct HE as (Hst & Hlog & Hcf).
  split; try done.
  + exists s1. split; [done|]. rewrite (waiting_store _ _ Hst). by rewrite open_endpoint_waiting.
  + eapply sched_ok_store; [done|]. by apply open_endpoint_ok.
  + intros ep'. rewrite (active_of_store _ _ _ Hst). by rewrite open_endpoint_active.
  + destruct (sl_stable _ _ Hlog) as [? ? ? ? Hc ?]. split; try done.
    * simpl in Hc |- *. lia.
    * simpl in *. auto with roadstead.
  + rewrite (sl_dispatched _ _ Hlog). simpl. lia.
  + rewrite (sl_spilled _ _ Hlog). done.
Qed.

Lemma spill_step h ep b aid target r eq s :
  sched_ok s -> dget (sc_queues s) ep = Some eq -> peek eq b aid = Some r -> may_leave h s r target ->
  exists eq', dequeue eq b aid = (Some r, eq') /\
    match spill r target (put_queue ep eq' s) with
    | (Ret _, s2) => exists r', spilled h ep b aid target r r' s (rotate_at ep b s2)
    | (Raise e, s2) => lost h ep b aid target r s s2
    end.
Proof.
  intros Hs E Hp HL. destruct (take_head ep b aid r eq s Hs E Hp) as (eq' & Hd & T).
  exists eq'. split; [done|]. unfold spill. destruct (ml_room _ _ _ _ HL) as (tc & Et & _).
  se_run. change (sc_config (put_queue ep eq' s)) with (sc_config s). rewrite Et. se_run. rewrite run_bind.
  assert (sched_ok (note 0 0 0 1 [] (put_queue ep eq' s))) as Hn by by eapply sched_ok_store, T.
  destruct (enqueue _ _) as [[r'|e] s2] eqn:EQ.
  - exists r'. by eapply spill_lands.
  - by eapply spill_loses.
Qed.

(** *** A quiet prefix changes none of this *)

Lemma taken_queues ep b aid r s0 s s1 :
  sc_queues s0 = sc_queues s -> taken ep b aid r s0 s1 -> taken ep b aid r s s1.
Proof.
  intros Eq [H1 H2 H3 H4 H5 H6 H7 H8 H9]. unfold line, waiting_all, depth_at, queue_at in *.
  rewrite Eq in *. by split.
Qed.

Lemma quiet_taken ep b aid r s s0 s1 : quiet s s0 -> taken ep b aid r s0 s1 -> taken ep b aid r s s1.
Proof. intros Hq. apply taken_queues. apply Hq. Qed.

Lemma quiet_may_leave h s s0 r target : quiet s s0 -> may_leave h s0 r target -> may_leave h s r target.
Proof.
  intros [[Hc Ha _ _ _ _] _ Hac _ _ _ _] [H1 H2 H3 H4 H5 H6]. split; try done.
  - by rewrite <- Ha.
  - unfold active_count, active_of in *. by rewrite Hc, Hac in H6.
Qed.

Lemma quiet_dispatched ep b aid now d s s0 s' :
  quiet s s0 -> dispatched ep b aid now d s0 s' -> dispatched ep b aid now d s s'.
Proof.
  intros Hq [(s1 & H1 & H2 & H3) H4 H5 H6 H7 H8 H9 H10].
  pose proof Hq as [Q1 Q2 Q3 Q4 Q5 Q6 Q7]. split; try congruence.
  - exists s1. split; [by eapply quiet_taken|done].
  - unfold active_of in *. by rewrite <- Q3.
  - by etransitivity.
Qed.

Lemma quiet_spilled h ep b aid target r r' s s0 s' :
  quiet s s0 -> spilled h ep b aid target r r' s0 s' -> spilled h ep b aid target r r' s s'.
Proof.
  intros Hq [H1 H2 (s1 & H3 & H3') H4 H5 H6 H7 H8 H9 H10 H11 H12].
  pose proof Hq as [Q1 Q2 Q3 Q4 Q5 Q6 Q7]. split; try congruence.
  - by eapply quiet_may_leave.
  - exists s1. split; [by eapply quiet_taken|done].
  - intros ep'. rewrite H5. apply active_of_store, quiet_store, Hq.
  - rewrite H6. apply running_store, quiet_store, Hq.
  - by etransitivity.
Qed.

Lemma quiet_lost h ep b aid target r s s0 s' :
  quiet s s0 -> lost h ep b aid target r s0 s' -> lost h ep b aid target r s s'.
Proof.
  intros Hq [H1 (s1 & H2 & H3) H4 H5 H6 H7 H8 H9].
  pose proof Hq as [Q1 Q2 Q3 Q4 Q5 Q6 Q7]. split; try congruence.
  - by eapply quiet_may_leave.
  - exists s1. split; [by eapply quiet_taken|done].
  - intros ep'. rewrite H5. apply active_of_store, quiet_store, Hq.
  - by etransitivity.
Qed.

(** Why the loop stops before its bound. *)
Definition stuck (s : Sched) (ep : string) (b : PriorityBand) (c : EndpointConfig) (occ av : Z) : Prop :=
  depth_at s ep b = 0 \/
  (exists r, r ∈ bq_reqs (band_of (queue_at s ep) b) /\ ~ has_budget (sc_budgets s) (r_agent_id r)) \/
  max_slots c <= 0 \/ ~ local_room c occ av.

Inductive pass (h : Hooks) (ep : string) (b : PriorityBand) (c : EndpointConfig) (now : Q) (inf : Z)
    (target : string) (av : Z) (ds : list DispatchDecision) (s : Sched)
  : res (option (Z * list DispatchDecision)) * Sched -> Prop :=
| pass_break s' :
    quiet s s' -> stuck s ep b c (inf + zlen ds) av -> pass h ep b c now inf target av ds s (Ret None, s')
| pass_dispatch aid d s' :
    0 < max_slots c -> local_room c (inf + zlen ds) av -> occupancy_at_dispatch d = inf + zlen ds ->
    dispatched ep b aid now d s s' ->
    pass h ep b c now inf target av ds s (Ret (Some (av - 1, ds ++ [d])), s')
| pass_spill aid r r' s' :
    0 < max_slots c -> ~ local_room c (inf + zlen ds) av -> spilled h ep b aid target r r' s s' ->
    pass h ep b c now inf target av ds s (Ret (Some (av, ds)), s')
| pass_lost aid r e s' :
    lost h ep b aid target r s s' -> pass h ep b c now inf target av ds s (Raise e, s')
| pass_refused aid r e s' :
    quiet s s' -> target <> EmptyString -> line s ep b aid <> [] -> head (line s ep b aid) = Some r ->
    admit_fails s r target e -> pass h ep b c now inf target av ds s (Raise e, s').

Lemma pick_quiet s bm cands now waits :
  (pick_agent (sc_budgets s) cands now waits).2 = bm -> quiet s (set_budgets bm s).
Proof.
  intros <-. split; try done. split; try done. intros a. unfold has_budget. simpl.
  by destruct (pick_agent_agents (sc_budgets s) cands now waits) as [-> _].
Qed.

Lemma attempt_cases h ep c now b inf target av ds s :
  sched_ok s -> is_Some (dget (sc_queues s) ep) ->
  pass h ep b c now inf target av ds s (attempt h ep c now b inf target av ds s).
Proof.
  intros Hs [eq E]. unfold attempt. se_run. rewrite E.
  pose proof (so_queues _ Hs _ _ E) as Heq. pose proof (queue_at_get _ _ _ E) as Eq.
  case_bool_decide as Hc.
  { apply pass_break; [done|]. left. rewrite depth_at_reqs, Eq.
    by rewrite (bq_robin_nil b _ (Heq b) Hc). }
  destruct (pick_agent (sc_budgets s) (agents_in_band eq b) now _) as [pick bm] eqn:Ep.
  se_run. assert (quiet s (set_budgets bm s)) as Hq by (eapply pick_quiet; by rewrite Ep).
  destruct pick as [aid|].
  2: { apply pass_break; [done|]. right. left.
    destruct (agents_in_band eq b) as [|a l] eqn:El; [done|].
    destruct (peek_robin eq b a Heq) as [r Hr]; [rewrite El; by left|]. exists r.
    destruct (bq_dequeue_spec b _ a r (Heq b) Hr) as (q' & _ & _ & P & [Ht _] & _).
    rewrite Eq, P. split; [by left|]. rewrite Ht. intros Hb.
    destruct (pick_agent_Some (sc_budgets s) (a :: l) now
      (head_waits eq b now (a :: l)) a) as [x Hx]; [by left|done|]. by rewrite Ep in Hx. }
  assert (aid ∈ agents_in_band eq b) as Hin.
  { eapply pick_agent_elem. by rewrite Ep. }
  destruct (peek_robin eq b aid Heq Hin) as [r Hr]. rewrite Hr.
  set (s0 := set_budgets bm s) in *. se_run. rewrite run_bind.
  pose proof (admit_cases h c r (inf + zlen ds) av target s0) as HA.
  assert (sched_ok s0) as Hs0 by (eapply sched_ok_store; [by apply quiet_store|done]).
  destruct (_admit h c r (inf + zlen ds) av target s0) as [[[]|e] s1].
  - destruct HA as (-> & Hm & Hl).
    destruct (dispatch_step ep b aid now (inf + zlen ds) r eq s0 Hs0 E Hr) as (eq' & Hd & D).
    rewrite Hd. se_run. destruct (start_request _ _ _ _ _ _) as [d s2]. se_run.
    destruct D as (D1 & D2 & D3). eapply pass_dispatch; try done. by eapply quiet_dispatched.
  - destruct HA as (Hq1 & Hm & Hl & HL). pose proof (qt_queues _ _ Hq1) as Q1.
    assert (sched_ok s1) as Hs1 by (eapply sched_ok_store; [by apply quiet_store|done]).
    destruct (spill_step h ep b aid target r eq s1) as (eq' & Hd & D); [done|by rewrite Q1|done| |].
    { destruct Hq1 as [[Hcf Hag _ _ _ _] _ Hac _ _ _ _]. destruct HL as [L1 L2 L3 L4 L5 L6]. split; try done.
      - by rewrite Hag.
      - unfold active_count, active_of in *. by rewrite Hcf, Hac. }
    rewrite Hd. se_run. rewrite run_bind.
    destruct (spill r target (put_queue ep eq' s1)) as [[[]|e] s2].
    + destruct D as [r' D]. se_run. eapply pass_spill; [done|done|].
      eapply quiet_spilled; [|done]. by etransitivity.
    + eapply pass_lost. eapply quiet_lost; [|done]. by etransitivity.
  - destruct HA as (Hq1 & Hl). apply pass_break; [by etransitivity|]. right; right. done.
  - destruct HA as (Hq1 & Hne & Hf). eapply (pass_refused _ _ _ _ _ _ _ _ _ _ aid r).
    + by etransitivity.
    + done.
    + unfold line. rewrite Eq. unfold peek in Hr. intros Hnil. by rewrite Hnil in Hr.
    + unfold line. rewrite Eq. done.
    + unfold admit_fails in *. simpl in Hf. done.
Qed.

(** ** Runs of the dispatch phase *)

Definition live_ids (s : Sched) : list string := map r_request_id (waiting_all s ++ running_all s).

(** The ceiling non-background work is held to while background work waits. *)
Definition reserve_ceiling (c : EndpointConfig) : Z :=
  Z.max 1 (effective_max_slots c - background_floor_slots c).

(** One step of a dispatch phase that goes on. *)
Inductive sstep (h : Hooks) (now : Q) : Sched -> Sched -> Prop :=
| ss_quiet s s' : quiet s s' -> sched_ok s -> sstep h now s s'
| ss_dispatch ep b aid d c s s' :
    (ep, c) ∈ endpoints (sc_config s) -> hook (is_endpoint_healthy h) ep = true -> sched_ok s ->
    active_count s ep <= occupancy_at_dispatch d -> occupancy_at_dispatch d < effective_max_slots c ->
    (b = BACKGROUND -> endpoint_class c = ep -> bg_in_flight s ep < background_cap_slots c) ->
    dispatched ep b aid now d s s' -> sstep h now s s'
| ss_spill ep b aid target r r' c s s' :
    (ep, c) ∈ endpoints (sc_config s) -> hook (is_endpoint_healthy h) ep = true -> sched_ok s ->
    spill_to c = target -> target <> endpoint_class c -> hook (is_endpoint_healthy h) target = true ->
    spilled h ep b aid target r r' s s' -> sstep h now s s'.

(** The step that raises: the request [r] could not be costed. *)
Inductive sfail (h : Hooks) (target : string) (r : QueuedRequest) : Sched -> Sched -> Prop :=
| sf_lost ep b aid s s' :
    r ∈ waiting_all s -> lost h ep b aid target r s s' -> sfail h target r s s'
| sf_refused e s s' :
    r ∈ waiting_all s -> quiet s s' -> target <> EmptyString -> admit_fails s r target e ->
    sfail h target r s s'.

Lemma taken_waiting ep b aid r s s1 : taken ep b aid r s s1 -> r ∈ waiting_all s.
Proof. intros T. rewrite (tk_waiting _ _ _ _ _ _ T). by left. Qed.

Lemma line_waiting s ep b a r : sched_ok s -> r ∈ line s ep b a -> r ∈ waiting_all s.
Proof.
  intros Hs Hr. apply (waiting_elem s ep). apply eq_reqs_elem. exists b.
  apply (bq_reqs_elem b); [by apply eq_ok_queue_at|]. by exists a.
Qed.

Section BandLoop.
Context (h : Hooks) (ep : string) (c : EndpointConfig) (now : Q) (b : PriorityBand) (inf : Z) (target : string).
Context (J : Z -> list DispatchDecision -> Sched -> Prop) (E : PyErr -> Sched -> Prop).

Hypothesis J_ok : forall av ds s, J av ds s -> sched_ok s /\ is_Some (dget (sc_queues s) ep).
Hypothesis J_quiet : forall av ds s s', J av ds s -> quiet s s' -> J av ds s'.
Hypothesis J_dispatch : forall av ds s s' aid d,
  J av ds s -> 0 < max_slots c -> local_room c (inf + zlen ds) av -> occupancy_at_dispatch d = inf + zlen ds ->
  dispatched ep b aid now d s s' -> J (av - 1) (ds ++ [d]) s'.
Hypothesis J_spill : forall av ds s s' aid r r',
  J av ds s -> ~ local_room c (inf + zlen ds) av -> spilled h ep b aid target r r' s s' -> J av ds s'.
Hypothesis E_fail : forall av ds s s' r e, J av ds s -> sfail h target r s s' -> E e s'.

(** An invariant of the loop variables and the state survives the loop. *)
Lemma band_loop_rule n av ds :
  triple (J av ds) (band_loop h ep c now b inf target n av ds) (fun ds' s' => exists av', J av' ds' s') E.
Proof using All.
  revert av ds. induction n as [|n IH]; intros av ds s HJ; cbn [band_loop]; [by exists av|].
  rewrite run_get. destruct (depth_at s ep b <=? 0); [by exists av|].
  rewrite run_bind. destruct (J_ok _ _ _ HJ) as [Hs Hin].
  destruct (attempt_cases h ep c now b inf target av ds s Hs Hin) as
    [s' Hq Hst|aid d s' Hm Hl Ho D|aid r r' s' Hm Hl S|aid r e s' L|aid r e s' Hq Ht Hl Hr Hf].
  - exists av. by eapply J_quiet.
  - apply IH. by eapply J_dispatch.
  - apply IH. by eapply J_spill.
  - eapply E_fail; [done|]. eapply sf_lost; [|done].
    destruct (ls_taken _ _ _ _ _ _ _ _ L) as (s1 & T & _). by eapply taken_waiting.
  - eapply E_fail; [done|]. eapply sf_refused; try done.
    apply (line_waiting s ep b aid); [done|]. by apply head_Some_elem_of.
Qed.
End BandLoop.

Lemma quiet_open s s' ep : quiet s s' -> is_Some (dget (sc_queues s) ep) -> is_Some (dget (sc_queues s') ep).
Proof. intros Hq. apply Hq. Qed.

Lemma sstep_stable h now s s' : sstep h now s s' -> stable s s'.
Proof. destruct 1; [by apply qt_stable|by eapply dp_stable|by eapply sp_stable]. Qed.

Lemma sstep_ok h now s s' : sstep h now s s' -> sched_ok s'.
Proof.
  destruct 1; [|by eapply dp_ok|by eapply sp_ok].
  eapply sched_ok_store; [by apply quiet_store|done].
Qed.

Lemma sfail_ok h target r s s' : sched_ok s -> sfail h target r s s' -> sched_ok s'.
Proof.
  intros Hs Hf. destruct Hf; [by eapply ls_ok|]. eapply sched_ok_store; [by apply quiet_store|done].
Qed.

Lemma ssteps_stable h now s s' : rtc (sstep h now) s s' -> stable s s'.
Proof. induction 1; [done|]. etransitivity; [by eapply sstep_stable|done]. Qed.

Lemma ssteps_ok h now s s' : sched_ok s -> rtc (sstep h now) s s' -> sched_ok s'.
Proof. intros Hs H. induction H; [done|]. eauto using sstep_ok. Qed.

(** A size of the in-flight map after a start. *)
Lemma dset_zlen {V} (m : dict string V) k v : zlen (dset m k v) <= 1 + zlen m.
Proof.
  unfold zlen. induction m as [|[a x] m IH]; simpl; [lia|]. case_decide; simpl; lia.
Qed.

Lemma active_dispatched ep b aid now d s s' ep' :
  dispatched ep b aid now d s s' ->
  active_of s' ep' = if decide (ep = ep') then dset (active_of s ep) (r_request_id (dd_request d))
      {| ar_request := dd_request d; dispatched_at := now;
         estimated_remaining_s := r_estimated_cost_ss (dd_request d) |}
    else active_of s ep'.
Proof.
  intros D. unfold active_of at 1. rewrite (dp_active _ _ _ _ _ _ _ D), dget_dset. by case_decide.
Qed.

Lemma count_dispatched ep b aid now d s s' :
  dispatched ep b aid now d s s' -> active_count s' ep <= 1 + active_count s ep.
Proof.
  intros D. unfold active_count. rewrite (active_dispatched _ _ _ _ _ _ _ ep D), decide_True by done.
  apply dset_zlen.
Qed.

Lemma spill_target_spec h s c :
  spill_target h s c <> EmptyString ->
  spill_target h s c = spill_to c /\ spill_to c <> endpoint_class c /\
  hook (is_endpoint_healthy h) (spill_to c) = true /\ is_Some (dget (endpoints (sc_config s)) (spill_to c)).
Proof.
  unfold spill_target. destruct (String.eqb_spec (spill_to c) ""); [done|].
  destruct (dmem (endpoints (sc_config s)) (spill_to c)) eqn:M; [|done]. simpl.
  destruct (String.eqb_spec (spill_to c) (endpoint_class c)); [done|].
  destruct (hook (is_endpoint_healthy h) (spill_to c)) eqn:Hh; [|done]. intros _. simpl.
  split_and!; try done. by apply dmem_true.
Qed.

Lemma fits_context_fails r lim e : fits_context r lim = Raise e -> costing_fails r.
Proof.
  unfold fits_context, context_fit. destruct (_ || _); [done|]. intros H. left.
  destruct (estimate_input_tokens (r_payload r)); [done|eauto].
Qed.

Lemma count_if_cons {A} (p : A -> bool) x l :
  count_if p (x :: l) = (if p x then 1 else 0) + count_if p l.
Proof.
  unfold count_if. rewrite filter_cons. destruct (p x); [rewrite decide_True by done|rewrite decide_False by auto].
  - apply zlen_cons.
  - lia.
Qed.

Lemma count_if_nonneg {A} (p : A -> bool) l : 0 <= count_if p l.
Proof. apply zlen_nonneg. Qed.

Lemma count_if_le {A} (p : A -> bool) l : count_if p l <= zlen l.
Proof. unfold count_if, zlen. apply inj_le, length_filter. Qed.

Lemma count_if_perm {A} (p : A -> bool) l l' : l ≡ₚ l' -> count_if p l = count_if p l'.
Proof. intros H. unfold count_if. apply zlen_perm. by rewrite H. Qed.

(** Writing one value moves a count by at most one. *)
Lemma count_if_dset {V} (p : V -> bool) (m : dict string V) k v :
  count_if p (dvals (dset m k v)) <= (if p v then 1 else 0) + count_if p (dvals m).
Proof.
  unfold dvals. induction m as [|[a x] m IH]; simpl; [rewrite count_if_cons; lia|].
  case_decide; simpl; rewrite !count_if_cons; [destruct (p x); lia|lia].
Qed.

Lemma bg_dispatched ep b aid now d s s' :
  dispatched ep b aid now d s s' ->
  bg_in_flight s' ep <= (if bool_decide (b = BACKGROUND) then 1 else 0) + bg_in_flight s ep.
Proof.
  intros D. unfold bg_in_flight. rewrite (active_dispatched _ _ _ _ _ _ _ ep D), decide_True by done.
  destruct (dp_taken _ _ _ _ _ _ _ D) as (s1 & T & _). destruct (tk_tag _ _ _ _ _ _ T) as [_ <-].
  apply (count_if_dset is_bg).
Qed.

Lemma available_background s c x eq :
  available_for_band s c BACKGROUND x eq <=
  Z.max 0 (background_cap_slots c - bg_in_flight s (endpoint_class c)).
Proof.
  unfold available_for_band. destruct (Z.leb_spec (effective_max_slots c - x) 0); [lia|].
  rewrite bool_decide_eq_true_2 by done. lia.
Qed.

(** The decisions the event log records. *)
Definition ev_decision (e : SchedEvent) : option DispatchDecision :=
  match e with EvDispatch d => Some d | _ => None end.

Definition dispatch_log (s : Sched) : list DispatchDecision := omap ev_decision (sc_events s).

(** A run of the dispatch phase from [s0] that has produced the decisions [ds]. *)
Record reaches (h : Hooks) (now : Q) (s0 : Sched) (ds : list DispatchDecision) (s : Sched) : Prop := {
  rc_steps : rtc (sstep h now) s0 s;
  rc_ok : sched_ok s;
  rc_log : dispatch_log s = dispatch_log s0 ++ ds;
}.

(** A run that ended in a raise. *)
Definition breaks (h : Hooks) (now : Q) (s0 s : Sched) : Prop :=
  exists s1 r target, rtc (sstep h now) s0 s1 /\ sched_ok s1 /\ sfail h target r s1 s /\
    r ∈ waiting_all s1 /\ costing_fails r.

Lemma dispatched_log ep b aid now d s s' :
  dispatched ep b aid now d s s' -> dispatch_log s' = dispatch_log s ++ [d].
Proof. intros D. unfold dispatch_log. by rewrite (dp_events _ _ _ _ _ _ _ D), omap_app. Qed.

Lemma spilled_log h ep b aid target r r' s s' :
  spilled h ep b aid target r r' s s' -> dispatch_log s' = dispatch_log s.
Proof.
  intros S. unfold dispatch_log. rewrite (sp_events _ _ _ _ _ _ _ _ _ S), omap_app. apply app_nil_r.
Qed.

Lemma reaches_quiet h now s0 ds s s' : reaches h now s0 ds s -> quiet s s' -> reaches h now s0 ds s'.
Proof.
  intros [HR Hs Hl] Hq. split.
  - eapply rtc_r; [done|]. by apply ss_quiet.
  - eapply sched_ok_store; [by apply quiet_store|done].
  - unfold dispatch_log in *. by rewrite (qt_events _ _ Hq).
Qed.

(** The loop invariant of one band. *)
Record band_inv (h : Hooks) (now : Q) (s0 : Sched) (pre : list DispatchDecision) (ep : string)
    (c : EndpointConfig) (b : PriorityBand) (inf : Z) (av : Z) (ds : list DispatchDecision) (s : Sched) : Prop := {
  bi_reaches : reaches h now s0 (pre ++ ds) s;
  bi_open : is_Some (dget (sc_queues s) ep);
  bi_count : active_count s ep <= inf + zlen ds;
  bi_bg : b = BACKGROUND -> endpoint_class c = ep -> av <= Z.max 0 (background_cap_slots c - bg_in_flight s ep);
}.

Section BandInv.
Context (h : Hooks) (now : Q) (s0 : Sched) (pre : list DispatchDecision) (ep : string) (c : EndpointConfig)
  (b : PriorityBand) (inf : Z).
Context (Hin : (ep, c) ∈ endpoints (sc_config s0)) (Hh : hook (is_endpoint_healthy h) ep = true).
Abbreviation inv := (band_inv h now s0 pre ep c b inf).

Lemma band_inv_quiet av ds s s' : inv av ds s -> quiet s s' -> inv av ds s'.
Proof.
  intros [HR Ho Ha Hb] Hq. pose proof (active_of_store s s' ep (quiet_store _ _ Hq)) as Ea.
  split; unfold active_count, bg_in_flight in *; rewrite ?Ea; try done.
  - by eapply reaches_quiet.
  - by eapply quiet_open.
Qed.

Lemma reaches_in ds s : reaches h now s0 ds s -> (ep, c) ∈ endpoints (sc_config s).
Proof using Hin. intros [HR _ _]. by rewrite (st_endpoints _ _ (ssteps_stable _ _ _ _ HR)). Qed.

Lemma band_inv_dispatch av ds s s' aid d :
  inv av ds s -> local_room c (inf + zlen ds) av -> occupancy_at_dispatch d = inf + zlen ds ->
  dispatched ep b aid now d s s' -> inv (av - 1) (ds ++ [d]) s'.
Proof using Hin Hh.
  intros [HR Ho Ha Hb] [Hl1 Hl2] Hocc D. split.
  - pose proof (reaches_in _ _ HR). destruct HR as [HR Hs Hl]. split.
    + eapply rtc_r; [done|]. eapply (ss_dispatch h now ep b aid d c); try done; try lia.
      intros Eb Ec. specialize (Hb Eb Ec). lia.
    + by eapply dp_ok.
    + rewrite (dispatched_log _ _ _ _ _ _ _ D), Hl. by rewrite !(assoc_L (++)).
  - by apply (st_open _ _ (dp_stable _ _ _ _ _ _ _ D)).
  - rewrite zlen_app. change (zlen [d]) with 1. pose proof (count_dispatched _ _ _ _ _ _ _ D). lia.
  - intros Eb Ec. specialize (Hb Eb Ec). pose proof (bg_dispatched _ _ _ _ _ _ _ D) as Hg.
    rewrite bool_decide_eq_true_2 in Hg by done. lia.
Qed.

Lemma band_inv_spill av ds s s' aid r r' target :
  (target <> EmptyString ->
     target = spill_to c /\ target <> endpoint_class c /\ hook (is_endpoint_healthy h) target = true) ->
  inv av ds s -> spilled h ep b aid target r r' s s' -> inv av ds s'.
Proof using Hin Hh.
  intros Ht [HR Ho Ha Hb] S. pose proof (sp_active _ _ _ _ _ _ _ _ _ S ep) as Ea.
  destruct (Ht (ml_target _ _ _ _ (sp_leave _ _ _ _ _ _ _ _ _ S))) as (T1 & T2 & T3).
  split; unfold active_count, bg_in_flight in *; rewrite ?Ea; try done.
  - pose proof (reaches_in _ _ HR). destruct HR as [HR Hs Hl]. split.
    + eapply rtc_r; [done|]. by eapply (ss_spill h now ep b aid target r r' c).
    + by eapply sp_ok.
    + by rewrite (spilled_log _ _ _ _ _ _ _ _ _ S).
  - by apply (st_open _ _ (sp_stable _ _ _ _ _ _ _ _ _ S)).
Qed.
End BandInv.

(** What is carried from band to band: the invariant without the loop bound. *)
Definition bands_inv h now s0 pre ep inf (ds : list DispatchDecision) (s : Sched) : Prop :=
  reaches h now s0 (pre ++ ds) s /\ is_Some (dget (sc_queues s) ep) /\ active_count s ep <= inf + zlen ds.

Lemma sfail_breaks h now s0 s1 s r target :
  rtc (sstep h now) s0 s1 -> sched_ok s1 -> sfail h target r s1 s ->
  (target <> EmptyString -> is_Some (dget (endpoints (sc_config s1)) target)) -> breaks h now s0 s.
Proof.
  intros HR Hs Hf Ht. exists s1, r, target. split_and!; try done; destruct Hf as [? ? ? ? ? Hw L|e ? ? Hw Hq Hne [Hf|Hf]];
    try done.
  - apply L.
  - destruct (Ht Hne). congruence.
  - destruct Hf as (tc & _ & Hf). by eapply fits_context_fails.
Qed.

Lemma dispatch_band_steps h now s0 pre ep c inf ds b :
  (ep, c) ∈ endpoints (sc_config s0) -> hook (is_endpoint_healthy h) ep = true ->
  triple (bands_inv h now s0 pre ep inf ds) (dispatch_band h ep c now inf ds b)
    (bands_inv h now s0 pre ep inf) (fun _ s => breaks h now s0 s).
Proof.
  intros Hin Hh s (HR & Ho & Ha). unfold dispatch_band. rewrite run_get. pose proof Ho as [eq Eq]. rewrite Eq.
  destruct (band_depth eq b =? 0); [done|]. destruct ((_ <=? 0) && _); [done|].
  set (tgt := spill_target h s c). pose proof (spill_target_spec h s c) as Ht. fold tgt in Ht.
  refine (triple_conseq _ (band_inv h now s0 pre ep c b inf (available_for_band s c b (inf + zlen ds) eq) ds) _ _
            (fun ds' s' => exists av', band_inv h now s0 pre ep c b inf av' ds' s') _
            (band_loop_rule h ep c now b inf tgt _ (fun _ => breaks h now s0) _ _ _ _ _ _ _ _)
            (fun _ H => H) _ s _).
  - intros av ds' s1 [[]]. done.
  - intros av ds' s1 s2. apply band_inv_quiet.
  - intros av ds' s1 s2 aid d HJ _. by apply band_inv_dispatch.
  - intros av ds' s1 s2 aid r r' HJ _. apply band_inv_spill; try done. intros Hne. by destruct (Ht Hne) as (<- & ? & ? & _).
  - intros av ds' s1 s2 r e [[HR1 Hs1 _] _ _ _] Hf. eapply sfail_breaks; try done.
    intros Hne. destruct (Ht Hne) as (-> & _ & _ & He).
    rewrite (st_endpoints _ _ (ssteps_stable _ _ _ _ HR1)).
    by rewrite <- (st_endpoints _ _ (ssteps_stable _ _ _ _ (rc_steps _ _ _ _ _ HR))).
  - intros ds' s' [av' [? ? ? _]]. done.
  - split; try done. intros -> <-. apply available_background.
Qed.

Lemma dispatch_endpoint_steps h now s0 e pre :
  e ∈ endpoints (sc_config s0) ->
  triple (reaches h now s0 pre) (dispatch_endpoint h now pre e) (reaches h now s0) (fun _ => breaks h now s0).
Proof.
  destruct e as [ep c]. intros Hin s HR. unfold dispatch_endpoint. rewrite run_get.
  destruct (dmem (sc_queues s) ep) eqn:M; [|done]. cbn [negb]. apply dmem_true in M.
  destruct (hook (is_endpoint_healthy h) ep) eqn:Hh; [|done]. cbn [negb].
  refine (triple_bind (bands_inv h now s0 pre ep (zlen (active_of s ep)) []) _
            (bands_inv h now s0 pre ep (zlen (active_of s ep))) _ _ _ _ _ s _).
  - apply se_fold_rule. intros b a _. by apply dispatch_band_steps.
  - intros ds'. apply triple_ret. by intros s' [? _].
  - split; [by rewrite app_nil_r|]. split; [done|]. unfold active_count. change (zlen []) with 0. lia.
Qed.

Lemma dispatch_phase_steps h now s0 l ds :
  (forall e, e ∈ l -> e ∈ endpoints (sc_config s0)) ->
  triple (reaches h now s0 ds) (se_fold (dispatch_endpoint h now) ds l)
    (reaches h now s0) (fun _ => breaks h now s0).
Proof.
  intros Hl. apply (se_fold_rule _ (reaches h now s0)).
  intros e a He. apply dispatch_endpoint_steps. auto.
Qed.

(** ** The expiry phase *)

Record expired (now : Q) (gone : list QueuedRequest) (s s' : Sched) : Prop := {
  ex_ok : sched_ok s';
  ex_waiting : waiting_all s ≡ₚ gone ++ waiting_all s';
  ex_past : forall r, r ∈ gone -> (r_timeout_deadline r <= now)%Q;
  ex_line : forall ep b a, line s' ep b a `suffix_of` line s ep b a;
  ex_active : sc_active s' = sc_active s;
  ex_stable : stable s s';
  ex_keys : dkeys (sc_queues s') = dkeys (sc_queues s);
  ex_events : sc_events s' = sc_events s ++ map EvTimeout gone;
  ex_dispatched : sc_total_dispatched s' = sc_total_dispatched s;
  ex_timeouts : sc_total_timeouts s' = sc_total_timeouts s + zlen gone;
  ex_spilled : sc_total_spilled s' = sc_total_spilled s;
}.

Lemma expired_refl now s : sched_ok s -> expired now [] s s.
Proof.
  intros Hs. split; try done; [by intros r H%not_elem_of_nil| by rewrite app_nil_r|].
  change (zlen []) with 0. lia.
Qed.

Lemma expired_trans now g1 g2 s1 s2 s3 :
  expired now g1 s1 s2 -> expired now g2 s2 s3 -> expired now (g1 ++ g2) s1 s3.
Proof.
  intros [A1 A2 A3 A0 A4 A5 A7 A8 A9 A10 A11] [B1 B2 B3 B0 B4 B5 B7 B8 B9 B10 B11].
  split; try congruence.
  - by rewrite A2, B2, (assoc_L (++)).
  - intros r [?|?]%elem_of_app; auto.
  - intros ep b a. etransitivity; [apply B0|apply A0].
  - by etransitivity.
  - by rewrite B8, A8, map_app, (assoc_L (++)).
  - rewrite zlen_app. lia.
Qed.

Lemma expire_endpoint_spec now s ep :
  sched_ok s -> exists gone, expired now gone s (expire_endpoint now s ep).
Proof.
  intros Hs. unfold expire_endpoint. destruct (dget (sc_queues s) ep) as [eq|] eqn:E;
    [|exists []; by apply expired_refl].
  destruct (expire_before_spec eq now (so_queues _ Hs _ _ E)) as (gone & eq' & He & K & P & F & D).
  rewrite He. exists gone. assert (sched_ok (put_queue ep eq' s)) as Hok.
  { apply put_queue_ok; [done|done|]. intros r Hr. apply (so_home _ Hs _ _ r E). rewrite P.
    apply elem_of_app. by right. }
  split; simpl; try done; try lia.
  - by apply (sched_ok_store (put_queue ep eq' s)).
  - destruct (waiting_put ep eq eq' s E) as (rest & Q & Q').
    change (waiting_all s ≡ₚ gone ++ waiting_all (put_queue ep eq' s)).
    by rewrite Q, Q', P, (assoc_L (++)).
  - intros r Hr. rewrite Forall_forall in F. specialize (F _ Hr). unfold past in F. by qcases_in F.
  - intros ep' b a. change (line (put_queue ep eq' s) ep' b a `suffix_of` line s ep' b a).
    unfold line. rewrite queue_at_put. case_decide; [|done]. subst.
    rewrite D, (queue_at_get _ _ _ E). apply drop_while_suffix.
  - destruct (put_queue_stable ep eq' s). split; try done. simpl in *. lia.
  - rewrite dkeys_dset. by rewrite decide_True by by eapply dget_Some_keys.
Qed.

Lemma expire_all_spec now s : sched_ok s -> exists gone, expired now gone s (expire_all now s).
Proof.
  unfold expire_all. generalize (dkeys (sc_queues s)) as ks. intros ks. revert s.
  induction ks as [|k ks IH]; intros s Hs; cbn [foldl]; [exists []; by apply expired_refl|].
  destruct (expire_endpoint_spec now s k Hs) as [g1 X1].
  destruct (IH _ (ex_ok _ _ _ _ X1)) as [g2 X2]. exists (g1 ++ g2). by eapply expired_trans.
Qed.

(** A tick is an expiry phase followed by a run of the dispatch phase. *)
Lemma tick_steps h now s :
  sched_ok s ->
  exists gone s1, expired now gone s s1 /\
    match tick h now s with
    | (Ret ds, s') => reaches h now s1 ds s'
    | (Raise _, s') => breaks h now s1 s'
    end.
Proof.
  intros Hs. unfold tick. se_run. set (s0 := set_budgets _ s).
  assert (sched_ok s0) as Hs0 by by apply (sched_ok_store s).
  destruct (expire_all_spec now s0 Hs0) as [gone X]. exists gone, (expire_all now s0). split.
  - destruct X as [X1 X2 X3 X0 X4 [] X7 X8 X9 X10 X11]. split; try done.
    split; try done. intros a Ha. apply (st_budget0 a). by apply has_budget_replenish.
  - se_run. set (s1 := expire_all now s0) in *.
    pose proof (dispatch_phase_steps h now s1 (endpoints (sc_config s1)) [] ltac:(done) s1) as HT.
    destruct (se_fold _ _ _ _) as [[ds|e] s']; apply HT; split; try done; by apply X || rewrite app_nil_r.
Qed.
