(* ===== verification/SchedProps.v ===== *)
(** * What the scheduler guarantees

    The specification a tick refines (an abstract machine over the multisets of
    waiting and running requests, whose labels are the scheduler's own event
    log), the capacity bounds, the per-caller order, work conservation, the
    absence of exceptions, and the exactness of [cancel] and [complete]. *)

From Stdlib Require Import QArith Lqa Lia ZArith Permutation.
From stdpp Require Import base list strings relations.
From S2P Require Import Prelude PyDict PyText Config Budget Json Cost Queue Scheduler SchedSteps.

Local Open Scope Z_scope.

(** ** The abstract machine *)

(** Waiting and running requests, each a multiset. *)
Definition world : Type := list QueuedRequest * list QueuedRequest.

Definition world_of (s : Sched) : world := (waiting_all s, running_all s).

(** What a configuration and the hooks allow a tick at [now] to do. *)
Inductive astep (h : Hooks) (cfg : ProxyConfig) (now : Q) : world -> SchedEvent -> world -> Prop :=
| a_timeout w w' run r :
    w ≡ₚ r :: w' -> (r_timeout_deadline r <= now)%Q -> astep h cfg now (w, run) (EvTimeout r) (w', run)
| a_dispatch w w' run run' d c :
    w ≡ₚ dd_request d :: w' -> run' ≡ₚ dd_request d :: run ->
    (r_endpoint (dd_request d), c) ∈ endpoints cfg ->
    hook (is_endpoint_healthy h) (r_endpoint (dd_request d)) = true ->
    occupancy_at_dispatch d < effective_max_slots c ->
    astep h cfg now (w, run) (EvDispatch d) (w', run')
| a_spill w w' w'' run r r' src target c :
    w ≡ₚ r :: w' -> w'' ≡ₚ r' :: w' ->
    r_endpoint r = src -> (src, c) ∈ endpoints cfg -> spill_to c = target -> target <> endpoint_class c ->
    hook (is_endpoint_healthy h) src = true -> hook (is_endpoint_healthy h) target = true ->
    str_truthy (r_spilled_from r) = false ->
    spill_ok (agent_view cfg (r_agent_id r)) = true -> r_allow_spill r <> Some false ->
    hook (may_spend h) (r_agent_id r) = true ->
    moved_to r r' src target ->
    astep h cfg now (w, run) (EvSpill r' src target) (w'', run).

(** A trace of the machine; multisets are compared up to permutation. *)
Inductive aruns (h : Hooks) (cfg : ProxyConfig) (now : Q) : world -> list SchedEvent -> world -> Prop :=
| ar_nil w w' run run' : w ≡ₚ w' -> run ≡ₚ run' -> aruns h cfg now (w, run) [] (w', run')
| ar_cons w1 e w2 tr w3 : astep h cfg now w1 e w2 -> aruns h cfg now w2 tr w3 -> aruns h cfg now w1 (e :: tr) w3.

Lemma astep_perm h cfg now w run w1 run1 e w2 :
  w ≡ₚ w1 -> run ≡ₚ run1 -> astep h cfg now (w1, run1) e w2 ->
  exists w3 run3, astep h cfg now (w, run) e (w3, run3) /\ w3 ≡ₚ w2.1 /\ run3 ≡ₚ w2.2.
Proof.
  intros Hw Hr H. inversion H; subst.
  - exists w', run. split; [|done]. apply a_timeout; [by rewrite Hw|done].
  - exists w', run'. split; [|done]. eapply a_dispatch; try done; [by rewrite Hw|by rewrite Hr].
  - exists w'', run. split; [|done]. eapply (a_spill _ _ _ w w' w''); try done. by rewrite Hw.
Qed.

Lemma aruns_perm h cfg now w run w1 run1 tr w2 run2 w3 run3 :
  w ≡ₚ w1 -> run ≡ₚ run1 -> aruns h cfg now (w1, run1) tr (w2, run2) -> w2 ≡ₚ w3 -> run2 ≡ₚ run3 ->
  aruns h cfg now (w, run) tr (w3, run3).
Proof.
  intros Hw Hr H Hw2 Hr2. remember (w1, run1) as a eqn:Ea. remember (w2, run2) as z eqn:Ez.
  revert w run w1 run1 Ea Hw Hr w2 run2 Ez Hw2 Hr2.
  induction H as [x x' y y' P P'|x e y tr z Hs _ IH]; intros; simplify_eq.
  - constructor; [by rewrite Hw, P|by rewrite Hr, P'].
  - destruct (astep_perm _ _ _ _ _ _ _ _ _ Hw Hr Hs) as (w4 & run4 & Hs' & P1 & P2).
    eapply ar_cons; [done|]. destruct y as [y1 y2]. by eapply IH.
Qed.

Lemma aruns_app h cfg now w1 tr1 w2 tr2 w3 :
  aruns h cfg now w1 tr1 w2 -> aruns h cfg now w2 tr2 w3 -> aruns h cfg now w1 (tr1 ++ tr2) w3.
Proof.
  intros H H2. induction H as [x x' y y' P P'|]; simpl.
  - destruct w3 as [a b]. by eapply aruns_perm.
  - eapply ar_cons; eauto.
Qed.

(** ** A step of the scheduler is a step of the machine *)

Lemma running_elem s ep i ar :
  dget (active_of s ep) i = Some ar -> ar_request ar ∈ running_all s.
Proof.
  unfold active_of. destruct (dget (sc_active s) ep) as [m|] eqn:E; simpl; [|done]. intros H.
  unfold running_all, running, dvals. apply dget_elem in H, E.
  apply list_elem_of_In, in_concat. exists (map ar_request (map snd m)).
  split; apply list_elem_of_In.
  - apply (list_elem_of_fmap_2 (fun m => map ar_request (map snd m)) (map snd (sc_active s)) m).
    apply list_elem_of_fmap. by exists (ep, m).
  - apply list_elem_of_fmap. exists ar. split; [done|]. apply list_elem_of_fmap. by exists (i, ar).
Qed.

(** Starting a request whose identifier is not running adds it to the running
    ones. *)
Lemma running_dispatched ep b aid now d s s' :
  sched_ok s -> dispatched ep b aid now d s s' ->
  r_request_id (dd_request d) ∉ map r_request_id (running_all s) ->
  running_all s' ≡ₚ dd_request d :: running_all s.
Proof.
  intros Hs D Hn. set (i := r_request_id (dd_request d)) in *.
  assert (dget (active_of s ep) i = None) as Hnone.
  { destruct (dget (active_of s ep) i) as [ar|] eqn:E; [|done]. exfalso. apply Hn.
    destruct (active_of_ids _ _ _ _ Hs E) as [<- _]. apply list_elem_of_fmap.
    exists (ar_request ar). split; [done|]. by eapply running_elem. }
  unfold running_all. rewrite (dp_active _ _ _ _ _ _ _ D), (dset_new (active_of s ep)) by done.
  fold i. set (ar := Build_ActiveRequest _ _ _). unfold active_of.
  destruct (dget (sc_active s) ep) as [m|] eqn:E; simpl.
  - destruct (Permutation_dvals_dset _ _ m (m ++ [(i, ar)]) E) as (rest & P & P').
    rewrite P, P'. unfold running, dvals. simpl. rewrite !map_app. simpl. by solve_Permutation.
  - rewrite dset_new by done. unfold dvals. rewrite map_app, map_app, concat_app. simpl.
    by solve_Permutation.
Qed.

Lemma live_dispatched ep b aid now d s s' :
  sched_ok s -> NoDup (live_ids s) -> dispatched ep b aid now d s s' ->
  exists w, waiting_all s ≡ₚ dd_request d :: w /\ waiting_all s' ≡ₚ w /\
    running_all s' ≡ₚ dd_request d :: running_all s.
Proof.
  intros Hs Hn D. destruct (dp_taken _ _ _ _ _ _ _ D) as (s1 & T & P & _).
  exists (waiting_all s1). split; [apply T|]. split; [done|].
  apply (running_dispatched ep b aid now); try done.
  unfold live_ids in Hn. rewrite (tk_waiting _ _ _ _ _ _ T) in Hn. simpl in Hn.
  apply NoDup_cons in Hn as [Hn _]. intros H. apply Hn. rewrite map_app. apply elem_of_app. by right.
Qed.

Lemma dispatched_nodup ep b aid now d s s' :
  sched_ok s -> dispatched ep b aid now d s s' -> NoDup (live_ids s) -> NoDup (live_ids s').
Proof.
  intros Hs D Hn. destruct (live_dispatched _ _ _ _ _ _ _ Hs Hn D) as (w & P1 & P2 & P3).
  revert Hn. unfold live_ids. rewrite P1, P2, P3. by rewrite <- app_comm_cons, <- Permutation_middle.
Qed.

Lemma spilled_nodup h ep b aid target r r' s s' :
  spilled h ep b aid target r r' s s' -> NoDup (live_ids s) -> NoDup (live_ids s').
Proof.
  intros S. destruct (sp_taken _ _ _ _ _ _ _ _ _ S) as (s1 & T & P & _). unfold live_ids.
  rewrite (tk_waiting _ _ _ _ _ _ T), P, (sp_running _ _ _ _ _ _ _ _ _ S). simpl.
  by destruct (moved_keeps _ _ _ _ (sp_moved _ _ _ _ _ _ _ _ _ S)) as [-> _].
Qed.

Lemma quiet_nodup s s' : quiet s s' -> NoDup (live_ids s) -> NoDup (live_ids s').
Proof.
  intros Hq. unfold live_ids. by rewrite (waiting_store s s'), (running_store s s') by by apply quiet_store.
Qed.

(** A step of the dispatch phase, as a trace of length at most one. *)
Lemma sstep_refines h now s s' :
  sstep h now s s' -> NoDup (live_ids s) ->
  exists tr, sc_events s' = sc_events s ++ tr /\
    aruns h (sc_config s) now (world_of s) tr (world_of s') /\ NoDup (live_ids s').
Proof.
  intros H Hn. destruct H as [s s' Hq Hs|ep b aid d c s s' Hin Hh Hs Ha Ho Hb D|ep b aid target r r' c s s' Hin Hh Hs Ht Hne Hht S].
  - exists []. rewrite app_nil_r. split; [apply Hq|]. unfold world_of, live_ids.
    rewrite (waiting_store s s'), (running_store s s') by by apply quiet_store. split; [by constructor|done].
  - destruct (live_dispatched _ _ _ _ _ _ _ Hs Hn D) as (w & P1 & P2 & P3). exists [EvDispatch d].
    split; [apply D|]. destruct (dp_taken _ _ _ _ _ _ _ D) as (s1 & T & _).
    pose proof (tk_home _ _ _ _ _ _ T) as Hhome. split.
    + apply (ar_cons _ _ _ _ _ (w, running_all s')); [|by apply ar_nil]. unfold world_of.
      eapply (a_dispatch h _ now (waiting_all s) w _ (running_all s') d c); try done; by rewrite Hhome.
    + by eapply dispatched_nodup.
  - destruct (sp_taken _ _ _ _ _ _ _ _ _ S) as (s1 & T & P & _). exists [EvSpill r' ep target].
    split; [apply S|]. pose proof (tk_waiting _ _ _ _ _ _ T) as P1.
    destruct (sp_leave _ _ _ _ _ _ _ _ _ S) as [L1 L2 L3 L4 L5 _]. split.
    + apply (ar_cons _ _ _ _ _ (waiting_all s', running_all s)); [|by apply ar_nil; rewrite ?(sp_running _ _ _ _ _ _ _ _ _ S)].
      unfold world_of. eapply (a_spill h _ now (waiting_all s) (waiting_all s1) _ _ r r' ep target c); try done; [apply T|apply S].
    + by eapply spilled_nodup.
Qed.

Lemma aruns_stable h now s s' w tr w' :
  stable s s' -> aruns h (sc_config s') now w tr w' -> aruns h (sc_config s) now w tr w'.
Proof.
  intros [He Ha _ _ _ _] H. induction H as [|w1 e w2 tr w3 Hs _ IH]; [by constructor|].
  eapply ar_cons; [|done]. destruct Hs; [by eapply a_timeout| |].
  - eapply a_dispatch; try done. by rewrite <- He.
  - eapply a_spill; try done; [by rewrite <- He|by rewrite <- Ha].
Qed.

Lemma ssteps_refine h now s s' :
  rtc (sstep h now) s s' -> NoDup (live_ids s) ->
  exists tr, sc_events s' = sc_events s ++ tr /\
    aruns h (sc_config s) now (world_of s) tr (world_of s') /\ NoDup (live_ids s').
Proof.
  induction 1 as [s|s1 s2 s3 Hs _ IH]; intros Hn.
  - exists []. rewrite app_nil_r. split_and!; [done|by constructor|done].
  - destruct (sstep_refines _ _ _ _ Hs Hn) as (tr1 & E1 & R1 & Hn1).
    destruct (IH Hn1) as (tr2 & E2 & R2 & Hn2). exists (tr1 ++ tr2).
    rewrite E2, E1, (assoc_L (++)). split_and!; [done| |done]. eapply aruns_app; [done|].
    eapply aruns_stable; [|done]. by eapply sstep_stable.
Qed.

Lemma timeouts_refine h cfg now gone w run :
  (forall r, r ∈ gone -> (r_timeout_deadline r <= now)%Q) ->
  aruns h cfg now (gone ++ w, run) (map EvTimeout gone) (w, run).
Proof.
  induction gone as [|r gone IH]; intros H; simpl; [by constructor|].
  eapply ar_cons; [apply a_timeout; [done|apply H; by left]|]. apply IH. intros r' Hr. apply H. by right.
Qed.

Lemma expired_refine h now gone s s1 :
  expired now gone s s1 -> NoDup (live_ids s) ->
  aruns h (sc_config s) now (world_of s) (map EvTimeout gone) (world_of s1) /\ NoDup (live_ids s1).
Proof.
  intros X Hn. pose proof (ex_waiting _ _ _ _ X) as P.
  assert (running_all s1 = running_all s) as Er by (unfold running_all; by rewrite (ex_active _ _ _ _ X)).
  unfold world_of. split.
  - eapply aruns_perm; [exact P|reflexivity|apply timeouts_refine; apply X|done|by rewrite Er].
  - revert Hn. unfold live_ids. rewrite P, Er, <- (assoc_L (++)), map_app. by intros (_ & _ & ?)%NoDup_app.
Qed.

Lemma omap_timeouts gone : omap ev_decision (map EvTimeout gone) = [].
Proof. by induction gone. Qed.

(** C1 A tick refines the specification.  With distinct live identifiers, a
    tick that returns has behaved as the abstract machine along exactly the
    notifications it sent: every waiting request timed out past its deadline,
    started running on a healthy configured endpoint below its slot limit, was
    moved by a permitted spill, or still waits, and nothing else happened to
    the waiting and running requests.  The decisions returned are the starts of
    that trace, in order, and identifiers stay distinct. *)
Theorem tick_refines_spec h now s ds s' :
  sched_ok s -> NoDup (live_ids s) -> tick h now s = (Ret ds, s') ->
  exists tr, sc_events s' = sc_events s ++ tr /\
    aruns h (sc_config s) now (world_of s) tr (world_of s') /\
    ds = omap ev_decision tr /\ NoDup (live_ids s').
Proof.
  intros Hs Hn Ht. destruct (tick_steps h now s Hs) as (gone & s1 & X & HR). rewrite Ht in HR.
  destruct HR as [HR Hok Hlog]. destruct (expired_refine h _ _ _ _ X Hn) as [R1 Hn1].
  destruct (ssteps_refine _ _ _ _ HR Hn1) as (tr & E & R2 & Hn2).
  exists (map EvTimeout gone ++ tr). pose proof (ex_events _ _ _ _ X) as E1.
  split; [by rewrite E, E1, (assoc_L (++))|]. split; [|split; [|done]].
  - eapply aruns_app; [done|]. eapply aruns_stable; [|done]. apply X.
  - unfold dispatch_log in Hlog. rewrite E, omap_app in Hlog. apply app_inv_head in Hlog.
    rewrite omap_app, omap_timeouts. done.
Qed.

(** ** Capacity *)

Lemma sfail_active h target r s s' ep : sfail h target r s s' -> active_of s' ep = active_of s ep.
Proof. destruct 1 as [? ? ? s s' _ L|? s s' _ Hq]; [apply L|by apply active_of_store, quiet_store]. Qed.

Lemma elem_endpoints_eq (c1 c2 : EndpointConfig) ep (d : dict string EndpointConfig) :
  dwf d -> (ep, c1) ∈ d -> (ep, c2) ∈ d -> c1 = c2.
Proof. intros Hd H1 H2. apply elem_dget in H1, H2; try done. congruence. Qed.

(** A quantity read off the in-flight map of [ep] that only a dispatch below
    the bound can raise, and only by one, stays under that bound. *)
Lemma ssteps_bound h now ep c (f : Sched -> Z) (bound : Z) s s' :
  (forall s s', active_of s' ep = active_of s ep -> f s' = f s) ->
  (forall b aid d s s', sched_ok s -> active_count s ep <= occupancy_at_dispatch d ->
     occupancy_at_dispatch d < effective_max_slots c ->
     (b = BACKGROUND -> endpoint_class c = ep -> bg_in_flight s ep < background_cap_slots c) ->
     dispatched ep b aid now d s s' -> f s' <= Z.max (f s) bound) ->
  dwf (endpoints (sc_config s)) -> (ep, c) ∈ endpoints (sc_config s) ->
  rtc (sstep h now) s s' -> f s' <= Z.max (f s) bound.
Proof.
  intros Hf Hd Hw Hin H. induction H as [s|s1 s2 s3 Hs _ IH]; [lia|].
  pose proof (sstep_stable _ _ _ _ Hs) as Hst.
  rewrite (st_endpoints _ _ Hst) in IH. specialize (IH Hw Hin).
  enough (f s2 <= Z.max (f s1) bound) by lia.
  destruct Hs as [s1 s2 Hq Hs|ep' b aid d c' s1 s2 Hin' Hh Hs Ha Ho Hb D|ep' b aid target r r' c' s1 s2 _ _ _ _ _ _ S].
  - rewrite (Hf s1 s2); [lia|]. by apply active_of_store, quiet_store.
  - destruct (decide (ep' = ep)) as [->|Hne].
    + assert (c' = c) as -> by by eapply elem_endpoints_eq. by eapply Hd.
    + rewrite (Hf s1 s2); [lia|]. rewrite (active_dispatched _ _ _ _ _ _ _ ep D). by rewrite decide_False.
  - rewrite (Hf s1 s2); [lia|]. apply S.
Qed.

(** The two phases and the raising step, for such a quantity. *)
Lemma tick_bound h now ep c (f : Sched -> Z) (bound : Z) s :
  (forall s s', active_of s' ep = active_of s ep -> f s' = f s) ->
  (forall b aid d s s', sched_ok s -> active_count s ep <= occupancy_at_dispatch d ->
     occupancy_at_dispatch d < effective_max_slots c ->
     (b = BACKGROUND -> endpoint_class c = ep -> bg_in_flight s ep < background_cap_slots c) ->
     dispatched ep b aid now d s s' -> f s' <= Z.max (f s) bound) ->
  sched_ok s -> dwf (endpoints (sc_config s)) -> (ep, c) ∈ endpoints (sc_config s) ->
  f (tick h now s).2 <= Z.max (f s) bound.
Proof.
  intros Hf Hd Hs Hw Hin. destruct (tick_steps h now s Hs) as (gone & s1 & X & HR).
  assert (f s1 = f s) as E1. { apply Hf. unfold active_of. by rewrite (ex_active _ _ _ _ X). }
  pose proof (st_endpoints _ _ (ex_stable _ _ _ _ X)) as He.
  destruct (tick h now s) as [[ds|e] s'].
  - rewrite <- E1. eapply ssteps_bound; eauto; [by rewrite He|by rewrite He|apply HR].
  - destruct HR as (s2 & r & target & HR & _ & Hf2 & _). simpl.
    rewrite (Hf s2 s') by by eapply sfail_active. rewrite <- E1.
    eapply ssteps_bound; eauto; by rewrite He.
Qed.

(** C2 Capacity.  No tick, returning or raising, ever takes an endpoint's
    in-flight count above its effective slot limit; a count already above it
    (the limit was lowered) is not raised further. *)
Theorem tick_respects_capacity h now s ep c :
  sched_ok s -> dwf (endpoints (sc_config s)) -> (ep, c) ∈ endpoints (sc_config s) ->
  active_count (tick h now s).2 ep <= Z.max (active_count s ep) (effective_max_slots c).
Proof.
  intros Hs Hw Hin. apply (tick_bound h now ep c (fun s => active_count s ep)); try done.
  - intros s1 s2 E. unfold active_count. by rewrite E.
  - intros b aid d s1 s2 _ Ha Ho _ D. pose proof (count_dispatched _ _ _ _ _ _ _ D). lia.
Qed.

(** Background work is capped: no tick takes the in-flight background
    requests of an endpoint above [background_cap_slots]. *)
Theorem tick_respects_background_cap h now s ep c :
  sched_ok s -> dwf (endpoints (sc_config s)) -> (ep, c) ∈ endpoints (sc_config s) -> endpoint_class c = ep ->
  bg_in_flight (tick h now s).2 ep <= Z.max (bg_in_flight s ep) (background_cap_slots c).
Proof.
  intros Hs Hw Hin Hc. apply (tick_bound h now ep c (fun s => bg_in_flight s ep)); try done.
  - intros s1 s2 E. unfold bg_in_flight. by rewrite E.
  - intros b aid d s1 s2 _ _ _ Hb D. pose proof (bg_dispatched _ _ _ _ _ _ _ D) as Hg.
    case_bool_decide as Eb; [specialize (Hb Eb Hc)|]; lia.
Qed.

(** ** Order within one caller's line *)

(** The request belongs to this caller's line. *)
Definition mine (ep : string) (b : PriorityBand) (a : string) (r : QueuedRequest) : bool :=
  bool_decide (r_endpoint r = ep) && bool_decide (r_band r = b) && bool_decide (r_agent_id r = a).

Definition starts_of (ep : string) (b : PriorityBand) (a : string) (ds : list DispatchDecision)
  : list QueuedRequest :=
  filter (fun r => Is_true (mine ep b a r)) (map dd_request ds).

Lemma starts_of_app ep b a ds ds' : starts_of ep b a (ds ++ ds') = starts_of ep b a ds ++ starts_of ep b a ds'.
Proof. unfold starts_of. by rewrite map_app, filter_app. Qed.

(** A line before and after: a prefix left in order, spilled requests joined at
    the end, and the starts are among those that left. *)
Definition flows (ep : string) (b : PriorityBand) (a : string) (ds : list DispatchDecision) (s s' : Sched) : Prop :=
  exists out inn, line s ep b a ++ inn = out ++ line s' ep b a /\
    sublist (starts_of ep b a ds) out /\ Forall (fun r => is_Some (r_spilled_from r)) inn.

Lemma flows_trans ep b a ds1 ds2 s1 s2 s3 :
  flows ep b a ds1 s1 s2 -> flows ep b a ds2 s2 s3 -> flows ep b a (ds1 ++ ds2) s1 s3.
Proof.
  intros (o1 & i1 & E1 & S1 & F1) (o2 & i2 & E2 & S2 & F2). exists (o1 ++ o2), (i1 ++ i2).
  split_and!.
  - by rewrite (assoc_L (++)), E1, <- (assoc_L (++)), E2, (assoc_L (++)).
  - rewrite starts_of_app. by apply sublist_app.
  - by apply Forall_app.
Qed.

Lemma sstep_flows h now s s' ep b a :
  sstep h now s s' -> exists ds, dispatch_log s' = dispatch_log s ++ ds /\ flows ep b a ds s s'.
Proof.
  destruct 1 as [s s' Hq Hs|ep' b' aid d c s s' _ _ Hs _ _ _ D|ep' b' aid target r r' c s s' _ _ Hs _ _ _ S].
  - exists []. rewrite app_nil_r. split; [unfold dispatch_log; by rewrite (qt_events _ _ Hq)|].
    exists [], []. rewrite app_nil_r, (line_store s s') by by apply quiet_store. by split_and!.
  - exists [d]. split; [by eapply dispatched_log|].
    destruct (dp_taken _ _ _ _ _ _ _ D) as (s1 & T & _ & Hl & _). destruct (tk_tag _ _ _ _ _ _ T) as [G1 G2].
    pose proof (tk_home _ _ _ _ _ _ T) as G3. unfold flows, starts_of. rewrite Hl.
    destruct (decide ((ep, b, a) = (ep', b', aid))) as [E|Hne]; simplify_eq.
    + exists [dd_request d], []. rewrite app_nil_r. split_and!; [|apply sublist_filter|done].
      apply T.
    + exists [], []. rewrite app_nil_r, (tk_lines _ _ _ _ _ _ T) by done. split_and!; [done| |done].
      cbn [map]. rewrite filter_cons, decide_False; [done|]. unfold mine. intros HT. apply Hne.
      repeat case_bool_decide; try done. congruence.
  - exists []. rewrite app_nil_r. split; [by eapply spilled_log|].
    destruct (sp_taken _ _ _ _ _ _ _ _ _ S) as (s1 & T & _ & Hl & _).
    assert (is_Some (r_spilled_from r')) as Hsp.
    { destruct (moved_keeps _ _ _ _ (sp_moved _ _ _ _ _ _ _ _ _ S)) as (_ & _ & _ & _ & -> & _). eauto. }
    assert (exists out, line s ep b a = out ++ line s1 ep b a) as [out Ho].
    { destruct (decide ((ep, b, a) = (ep', b', aid))) as [E|Hne]; simplify_eq.
      - exists [r]. apply T.
      - exists []. by rewrite (tk_lines _ _ _ _ _ _ T). }
    unfold flows. rewrite Hl. exists out. case_decide.
    + exists [r']. rewrite Ho, (assoc_L (++)). split_and!; [done|apply sublist_nil_l|by constructor].
    + exists []. rewrite app_nil_r. split_and!; [done|apply sublist_nil_l|done].
Qed.

Lemma ssteps_flows h now s s' ep b a :
  rtc (sstep h now) s s' -> exists ds, dispatch_log s' = dispatch_log s ++ ds /\ flows ep b a ds s s'.
Proof.
  induction 1 as [s|s1 s2 s3 Hs _ (ds2 & L2 & F2)].
  - exists []. rewrite app_nil_r. split; [done|]. exists [], []. by rewrite app_nil_r.
  - destruct (sstep_flows _ _ _ _ ep b a Hs) as (ds1 & L1 & F1). exists (ds1 ++ ds2).
    rewrite L2, L1, (assoc_L (++)). split; [done|]. by eapply flows_trans.
Qed.

(** One caller's requests in one band of one endpoint keep their order: in a
    tick a prefix of the line leaves, the requests started are among that
    prefix in the same order, and whatever joins (a spill from elsewhere) joins
    behind. *)
Theorem tick_fifo_per_caller h now s ds s' ep b a :
  sched_ok s -> tick h now s = (Ret ds, s') -> flows ep b a ds s s'.
Proof.
  intros Hs Ht. destruct (tick_steps h now s Hs) as (gone & s1 & X & HR). rewrite Ht in HR.
  destruct HR as [HR _ Hlog]. destruct (ssteps_flows _ _ _ _ ep b a HR) as (ds' & L & out & inn & E & S & F).
  assert (ds' = ds) as -> by (eapply app_inv_head; by rewrite <- L, <- Hlog).
  destruct (ex_line _ _ _ _ X ep b a) as [k Hk]. exists (k ++ out), inn. split_and!.
  - by rewrite Hk, <- !(assoc_L (++)), E.
  - by apply sublist_inserts_l.
  - done.
Qed.

(** ** No exception *)

(** A payload the estimator reads and whose output budget, if present, is a
    number. *)
Definition payload_ok (r : QueuedRequest) : Prop :=
  is_ret (estimate_input_tokens (r_payload r)) = true /\ is_Some (py_number (max_output_of r)).

Lemma payload_ok_costs r : payload_ok r -> ~ costing_fails r.
Proof.
  intros [H1 [q Hq]] [[e He]|(cm & ep & n & cs & occ & e & He)]; [by rewrite He in H1|].
  unfold estimate_cost in He. destruct (dget cm ep).
  - destruct (estimate_cost_ss_num e0 n (max_output_of r) cs occ q Hq) as (x & Hx & _). congruence.
  - destruct (max_output_of r); simpl in *; congruence.
Qed.

Lemma sstep_payloads h now s s' :
  sstep h now s s' -> Forall payload_ok (waiting_all s) -> Forall payload_ok (waiting_all s').
Proof.
  destruct 1 as [s s' Hq Hs|ep b aid d c s s' _ _ _ _ _ _ D|ep b aid target r r' c s s' _ _ _ _ _ _ S].
  - by rewrite (waiting_store s s') by by apply quiet_store.
  - destruct (dp_taken _ _ _ _ _ _ _ D) as (s1 & T & P & _). rewrite (tk_waiting _ _ _ _ _ _ T), P.
    by intros [_ ?]%Forall_cons.
  - destruct (sp_taken _ _ _ _ _ _ _ _ _ S) as (s1 & T & P & _). rewrite (tk_waiting _ _ _ _ _ _ T), P.
    intros [H1 H2]%Forall_cons. constructor; [|done].
    destruct (sp_moved _ _ _ _ _ _ _ _ _ S) as (ctx & n & x & ->). exact H1.
Qed.

Lemma ssteps_payloads h now s s' :
  rtc (sstep h now) s s' -> Forall payload_ok (waiting_all s) -> Forall payload_ok (waiting_all s').
Proof. induction 1; eauto using sstep_payloads. Qed.

(** A tick does not raise while every waiting payload can be costed: spilling
    re-estimates a request for its new endpoint and cannot fail on it. *)
Theorem tick_never_raises h now s :
  sched_ok s -> Forall payload_ok (waiting_all s) -> exists ds s', tick h now s = (Ret ds, s').
Proof.
  intros Hs HF. destruct (tick_steps h now s Hs) as (gone & s1 & X & HR).
  destruct (tick h now s) as [[ds|e] s']; [eauto|].
  destruct HR as (s2 & r & target & HR & _ & _ & Hin & Hc). exfalso.
  rewrite (ex_waiting _ _ _ _ X) in HF. apply Forall_app in HF as [_ HF].
  pose proof (ssteps_payloads _ _ _ _ HR HF) as HF2. rewrite Forall_forall in HF2.
  by apply (payload_ok_costs r (HF2 r Hin)).
Qed.

(** ** Cancellation *)

Lemma cancel_endpoints_Some i l l' :
  dwf l -> cancel_endpoints i l = Some l' ->
  exists ep eq eq', dget l ep = Some eq /\ cancel_bands i eq all_bands = Some eq' /\ l' = dset l ep eq'.
Proof.
  unfold dwf. revert l'. induction l as [|[ep eq] l IH]; intros l' Hd; cbn [cancel_endpoints]; [done|].
  cbn [dkeys map fst] in Hd. apply NoDup_cons in Hd as [Hk Hd].
  destruct (cancel_bands i eq all_bands) as [eq'|] eqn:E.
  - intros [= <-]. exists ep, eq, eq'. cbn [dget dset]. rewrite !decide_True by done. done.
  - intros (l1 & E1 & ->)%fmap_Some. destruct (IH l1 Hd E1) as (ep1 & eq1 & eq1' & G & C & ->).
    exists ep1, eq1, eq1'. cbn [dget dset]. assert (ep <> ep1) as Hne.
    { intros ->. apply Hk. by eapply dget_Some_keys. }
    rewrite !decide_False by done. done.
Qed.

Lemma cancel_endpoints_None i l ep eq :
  cancel_endpoints i l = None -> dget l ep = Some eq -> cancel_bands i eq all_bands = None.
Proof.
  induction l as [|[k q] l IH]; cbn [cancel_endpoints dget]; [done|].
  destruct (cancel_bands i q all_bands) eqn:E; [done|]. intros H%fmap_None.
  case_decide; [intros; by simplify_eq|auto].
Qed.

Lemma waiting_inv s r : sched_ok s -> r ∈ waiting_all s -> exists ep eq, dget (sc_queues s) ep = Some eq /\ r ∈ eq_reqs eq.
Proof.
  intros Hs Hr. unfold waiting_all in Hr. apply list_elem_of_In, in_concat in Hr as (l & Hl & Hr).
  apply list_elem_of_In, list_elem_of_fmap in Hl as (eq & -> & Hl).
  apply list_elem_of_fmap in Hl as ([ep eq'] & -> & Hl). apply elem_dget in Hl; [|by apply Hs].
  exists ep, eq'. split; [done|]. by apply list_elem_of_In.
Qed.

Lemma cancel_cases i s :
  sched_ok s ->
  match cancel i s with
  | (true, s') => exists r ep eq, r_request_id r = i /\ waiting_all s ≡ₚ r :: waiting_all s' /\
      s' = put_queue ep eq s /\ sched_ok s'
  | (false, s') => s' = s /\ i ∉ map r_request_id (waiting_all s)
  end.
Proof.
  intros Hs. unfold cancel. destruct (cancel_endpoints i (sc_queues s)) as [qs|] eqn:E.
  - apply cancel_endpoints_Some in E as (ep & eq & eq' & G & C & ->); [|apply Hs].
    destruct (cancel_bands_Some i eq all_bands eq' (so_queues _ Hs _ _ G) C) as (r & Hr & K & P).
    exists r, ep, eq'. split_and!; [done| |done|].
    + destruct (waiting_put ep eq eq' s G) as (rest & P1 & P2). change (set_queues _ s) with (put_queue ep eq' s).
      by rewrite P1, P2, P.
    + apply put_queue_ok; [done|done|]. intros r' Hr'. apply (so_home _ Hs _ _ r' G). rewrite P. by right.
  - split; [done|]. intros (r & -> & Hr)%list_elem_of_fmap.
    destruct (waiting_inv s r Hs Hr) as (ep & eq & G & Hin).
    pose proof (cancel_endpoints_None _ _ _ _ E G) as Hc. apply cancel_bands_None in Hc; [|by eapply so_queues].
    apply Hc. apply list_elem_of_fmap. eauto.
Qed.

(** [cancel] answers whether the identifier is queued; on yes exactly one
    request with it leaves the queues and nothing in flight changes, on no the
    state is unchanged. *)
Theorem cancel_exact i s :
  sched_ok s ->
  let '(found, s') := cancel i s in
  sched_ok s' /\ sc_active s' = sc_active s /\ sc_budgets s' = sc_budgets s /\
  (found = true <-> i ∈ map r_request_id (waiting_all s)) /\
  (if found then exists r, r_request_id r = i /\ waiting_all s ≡ₚ r :: waiting_all s' else s' = s).
Proof.
  intros Hs. pose proof (cancel_cases i s Hs) as H. destruct (cancel i s) as [[] s'].
  - destruct H as (r & ep & eq & Hr & P & -> & Hok). split_and!; try done; [|by eauto].
    split; [|done]. intros _. rewrite P. subst i. simpl. by left.
  - destruct H as [-> Hn]. split_and!; try done.
Qed.

(** ** Completion *)

Lemma find_active_Some i l ep m ar :
  dwf l -> find_active i l = Some (ep, m, ar) -> dget l ep = Some m /\ dget m i = Some ar.
Proof.
  unfold dwf. induction l as [|[k v] l IH]; intros Hd; cbn [find_active dget]; [done|].
  cbn [dkeys map fst] in Hd. apply NoDup_cons in Hd as [Hk Hd].
  destruct (dget v i) eqn:E.
  - intros; simplify_eq. by rewrite decide_True.
  - intros H. destruct (IH Hd H) as [G1 G2]. rewrite decide_False; [done|].
    intros ->. apply Hk. by eapply dget_Some_keys.
Qed.

Lemma find_active_None i l ep m : find_active i l = None -> dget l ep = Some m -> dget m i = None.
Proof.
  induction l as [|[k v] l IH]; cbn [find_active dget]; [done|].
  destruct (dget v i) eqn:E; [done|]. case_decide; [intros; by simplify_eq|auto].
Qed.

Lemma running_inv s r :
  sched_ok s -> r ∈ running_all s ->
  exists ep m ar, dget (sc_active s) ep = Some m /\ dget m (r_request_id r) = Some ar /\ ar_request ar = r.
Proof.
  intros Hs Hr. unfold running_all in Hr. apply list_elem_of_In, in_concat in Hr as (l & Hl & Hr).
  apply list_elem_of_In, list_elem_of_fmap in Hl as (m & -> & Hl).
  apply list_elem_of_fmap in Hl as ([ep m'] & -> & Hl). apply elem_dget in Hl; [|by apply Hs].
  apply list_elem_of_In, list_elem_of_fmap in Hr as (ar & -> & Hr).
  apply list_elem_of_fmap in Hr as ([i ar'] & -> & Hr).
  destruct (so_active _ Hs _ _ Hl) as [Hm Hids]. apply elem_dget in Hr; [|done].
  exists ep, m', ar'. simpl. split_and!; try done. by destruct (Hids _ _ Hr) as [-> _].
Qed.

Lemma complete_missing c s :
  sched_ok s -> cr_request_id c ∉ map r_request_id (running_all s) -> complete c s = (Ret tt, s).
Proof.
  intros Hs Hn. unfold complete. se_run. destruct (find_active _ _) as [[[ep m] ar]|] eqn:E; [|done].
  exfalso. apply Hn. apply find_active_Some in E as [G1 G2]; [|apply Hs].
  destruct (so_active _ Hs _ _ G1) as [_ Hids]. destruct (Hids _ _ G2) as [<- _].
  apply list_elem_of_fmap. exists (ar_request ar). split; [done|].
  apply (running_elem s ep (cr_request_id c)). unfold active_of. by rewrite G1.
Qed.

Lemma running_ddel m i ar : dget m i = Some ar -> running m ≡ₚ ar_request ar :: running (ddel m i).
Proof. intros H. unfold running, dvals. by rewrite (ddel_perm _ _ _ H) at 1. Qed.

(** The state changes of a completion that finds its request. *)
Definition completed (c : CompletionRecord) (r : QueuedRequest) (s s' : Sched) : Prop :=
  r_request_id r = cr_request_id c /\ running_all s ≡ₚ r :: running_all s' /\ sc_queues s' = sc_queues s /\
  sc_budgets s' = retroactive_adjust (sc_budgets s) (r_agent_id r) (r_estimated_cost_ss r) (duration_s c) /\
  sc_total_completed s' = sc_total_completed s + 1 /\
  sc_config s' = sc_config s /\ sc_total_spilled s' = sc_total_spilled s.

Lemma complete_found c s :
  sched_ok s -> cr_request_id c ∈ map r_request_id (running_all s) ->
  exists r s', complete c s = (Ret tt, s') /\ sched_ok s' /\ completed c r s s'.
Proof.
  intros Hs (r0 & Hi & Hr0)%list_elem_of_fmap.
  destruct (running_inv s r0 Hs Hr0) as (ep0 & m0 & ar0 & A1 & A2 & _). rewrite <- Hi in A2.
  unfold complete. se_run. destruct (find_active _ _) as [[[ep m] ar]|] eqn:E.
  2: { pose proof (find_active_None _ _ _ _ E A1). congruence. }
  apply find_active_Some in E as [G1 G2]; [|apply Hs]. exists (ar_request ar).
  destruct (so_active _ Hs _ _ G1) as [Hm Hids]. destruct (Hids _ _ G2) as [Hid _].
  se_run. set (s1 := set_active _ _). set (s2 := set_budgets _ _).
  assert (sched_ok s2) as Hok.
  { eapply (set_active_ok s s2 ep (ddel m (cr_request_id c)) Hs); try done.
    - destruct (dget (sc_queues s) ep) eqn:Q; [eauto|]. pose proof (so_keys _ Hs _ Q). congruence.
    - by apply dwf_ddel.
    - intros i ar'. rewrite dget_ddel by done. case_decide; [done|]. apply Hids. }
  assert (completed c (ar_request ar) s s2) as HC.
  { split_and!; try done; [|simpl; lia]. unfold running_all. simpl.
    destruct (Permutation_dvals_dset _ _ m (ddel m (cr_request_id c)) G1) as (rest & P & P').
    rewrite P, P'. simpl. by rewrite (running_ddel _ _ _ G2). }
  destruct (success c); [|by exists s2].
  se_run. destruct (record_completion_ret (sc_cost s2) ep (r_call_site (ar_request ar)) (input_tokens c)
    (output_tokens c) (duration_s c) (occupancy_during c)) as (cm & Hcm & _). rewrite Hcm. se_run.
  eexists. split; [done|]. split; [by apply (sched_ok_store s2)|]. done.
Qed.

(** C38 [complete] never raises.  A report for a running request removes exactly
    that request, settles its caller's budget from estimate to actual and
    counts it once; a second report for it, and any report for a request that
    is not running, changes nothing. *)
Theorem complete_exactly_once c s :
  sched_ok s -> NoDup (map r_request_id (running_all s)) ->
  exists s', complete c s = (Ret tt, s') /\ sched_ok s' /\ complete c s' = (Ret tt, s') /\
    (cr_request_id c ∉ map r_request_id (running_all s) -> s' = s) /\
    (cr_request_id c ∈ map r_request_id (running_all s) -> exists r, completed c r s s').
Proof.
  intros Hs Hn. destruct (decide (cr_request_id c ∈ map r_request_id (running_all s))) as [Hin|Hout].
  - destruct (complete_found c s Hs Hin) as (r & s' & E & Hok & HC). exists s'.
    split_and!; try done; [|by eauto]. apply complete_missing; [done|].
    destruct HC as (Hid & P & _). rewrite P in Hn. simpl in Hn. apply NoDup_cons in Hn as [Hn _].
    by rewrite <- Hid.
  - exists s. pose proof (complete_missing c s Hs Hout). by split_and!.
Qed.

(** ** Work conservation and the background reservation *)

(** Every waiting caller has a budget: [enqueue] creates it. *)
Definition budgeted (s : Sched) : Prop :=
  Forall (fun r => has_budget (sc_budgets s) (r_agent_id r)) (waiting_all s).

Lemma budgeted_take s s' r w w' :
  stable s s' -> waiting_all s ≡ₚ r :: w -> waiting_all s' ≡ₚ w' ->
  (forall r0, r0 ∈ w' -> r0 ∈ w \/ has_budget (sc_budgets s') (r_agent_id r0)) ->
  budgeted s -> budgeted s'.
Proof.
  intros Hst P P' Hw. unfold budgeted. rewrite P, P', !Forall_forall. intros H r0 Hr.
  destruct (Hw r0 Hr) as [Hin|]; [|done]. apply (st_budget _ _ Hst). apply H. by right.
Qed.

Lemma budgeted_quiet s s' : quiet s s' -> budgeted s -> budgeted s'.
Proof.
  intros Hq. unfold budgeted. rewrite (waiting_store s s') by by apply quiet_store. rewrite !Forall_forall.
  intros H r Hr. apply (st_budget _ _ (qt_stable _ _ Hq)). auto.
Qed.

Lemma budgeted_dispatched ep b aid now d s s' :
  dispatched ep b aid now d s s' -> budgeted s -> budgeted s'.
Proof.
  intros D. destruct (dp_taken _ _ _ _ _ _ _ D) as (s1 & T & P & _).
  eapply budgeted_take; [apply D|apply T|done|auto].
Qed.

Lemma budgeted_spilled h ep b aid target r r' s s' :
  spilled h ep b aid target r r' s s' -> budgeted s -> budgeted s'.
Proof.
  intros S. destruct (sp_taken _ _ _ _ _ _ _ _ _ S) as (s1 & T & P & _).
  eapply budgeted_take; [apply S|apply T|done|]. intros r0 [->|H]%elem_of_cons; [|by left]. right.
  destruct (moved_keeps _ _ _ _ (sp_moved _ _ _ _ _ _ _ _ _ S)) as (_ & -> & _).
  exact (sp_budget _ _ _ _ _ _ _ _ _ S).
Qed.

(** With distinct identifiers a dispatch moves the in-flight counts exactly. *)
Lemma dispatched_exact ep b aid now d s s' :
  sched_ok s -> NoDup (live_ids s) -> dispatched ep b aid now d s s' ->
  active_count s' ep = active_count s ep + 1 /\
  bg_in_flight s' ep = bg_in_flight s ep + (if bool_decide (b = BACKGROUND) then 1 else 0).
Proof.
  intros Hs Hn D. unfold active_count, bg_in_flight.
  rewrite (active_dispatched _ _ _ _ _ _ _ ep D), decide_True by done.
  destruct (dp_taken _ _ _ _ _ _ _ D) as (s1 & T & _).
  rewrite dset_new.
  - unfold dvals. rewrite map_app. split; [by rewrite zlen_app|].
    rewrite (count_if_perm _ _ _ (Permutation_app_comm _ _)). simpl. rewrite count_if_cons.
    destruct (tk_tag _ _ _ _ _ _ T) as [_ <-]. unfold is_bg at 1. simpl. lia.
  - destruct (dget (active_of s ep) _) as [ar|] eqn:E; [|done]. exfalso.
    destruct (active_of_ids _ _ _ _ Hs E) as [Hid _]. apply running_elem in E.
    unfold live_ids in Hn. rewrite (tk_waiting _ _ _ _ _ _ T) in Hn. simpl in Hn.
    apply NoDup_cons in Hn as [Hn _]. apply Hn. rewrite <- Hid, map_app. apply elem_of_app. right.
    apply list_elem_of_fmap. eauto.
Qed.

(** What a band's loop did, given enough attempts. *)
Record loop_result (ep : string) (c : EndpointConfig) (b : PriorityBand) (inf av : Z)
    (ds ds' : list DispatchDecision) (s s' : Sched) (k : Z) : Prop := {
  lr_k : 0 <= k;
  lr_len : zlen ds' = zlen ds + k;
  lr_room : 0 < k -> k <= av /\ inf + zlen ds' <= effective_max_slots c;
  lr_active : active_count s' ep = active_count s ep + k;
  lr_bg : bg_in_flight s' ep = bg_in_flight s ep + (if bool_decide (b = BACKGROUND) then k else 0);
  lr_depths : forall b', b' <> b -> depth_at s' ep b' = depth_at s ep b';
  lr_done : 0 < max_slots c ->
    depth_at s' ep b = 0 \/ av - k <= 0 \/ effective_max_slots c <= inf + zlen ds';
}.

Lemma loop_result_cons ep c b inf av av1 ds ds1 ds' s s1 s' k j :
  0 <= j <= 1 -> av1 = av - j -> zlen ds1 = zlen ds + j ->
  (j = 1 -> 0 < av /\ inf + zlen ds < effective_max_slots c) ->
  active_count s1 ep = active_count s ep + j ->
  bg_in_flight s1 ep = bg_in_flight s ep + (if bool_decide (b = BACKGROUND) then j else 0) ->
  (forall b', b' <> b -> depth_at s1 ep b' = depth_at s ep b') ->
  loop_result ep c b inf av1 ds1 ds' s1 s' k -> loop_result ep c b inf av ds ds' s s' (j + k).
Proof.
  intros Hj -> Hl Hr Ha Hb Hd [K1 K2 K3 K4 K5 K6 K7]. split; try lia.
  - rewrite K5, Hb. case_bool_decide; lia.
  - intros b' Hne. by rewrite K6, Hd.
Qed.

Lemma loop_result_nil ep c b inf av ds s s' :
  active_of s' ep = active_of s ep -> (forall b, depth_at s' ep b = depth_at s ep b) ->
  (0 < max_slots c -> depth_at s ep b = 0 \/ av <= 0 \/ effective_max_slots c <= inf + zlen ds) ->
  loop_result ep c b inf av ds ds s s' 0.
Proof.
  intros Ha Hd Hm. split; unfold active_count, bg_in_flight; rewrite ?Ha; intros; rewrite ?Hd; try done; try lia.
  case_bool_decide; lia.
Qed.

Lemma band_loop_exact h ep c now b inf target n av ds s :
  sched_ok s -> is_Some (dget (sc_queues s) ep) -> NoDup (live_ids s) -> budgeted s -> (target <> EmptyString -> target <> ep) ->
  depth_at s ep b <= Z.of_nat n ->
  match band_loop h ep c now b inf target n av ds s with
  | (Ret ds', s') => exists k, loop_result ep c b inf av ds ds' s s' k
  | (Raise _, _) => True
  end.
Proof.
  revert av ds s. induction n as [|n IH]; intros av ds s Hs Ho Hn Hb Ht Hd; cbn [band_loop].
  { exists 0. apply loop_result_nil; try done. intros _. left. rewrite depth_at_reqs in *.
    pose proof (zlen_nonneg (bq_reqs (band_of (queue_at s ep) b))). lia. }
  rewrite run_get. destruct (Z.leb_spec (depth_at s ep b) 0) as [H0|H0].
  { exists 0. apply loop_result_nil; try done. intros _. left. rewrite depth_at_reqs in *.
    pose proof (zlen_nonneg (bq_reqs (band_of (queue_at s ep) b))). lia. }
  rewrite run_bind.
  destruct (attempt_cases h ep c now b inf target av ds s Hs Ho) as
    [s' Hq Hst|aid d s' Hm Hl Hocc D|aid r r' s' Hm Hl S|aid r e s' L|aid r e s' Hq Hne Hl Hr Hf]; try done.
  - exists 0. apply loop_result_nil.
    + by apply active_of_store, quiet_store.
    + intros b'. apply depth_queues. apply Hq.
    + intros Hm. destruct Hst as [?|[(r & Hr & Hnb)|[?|Hl]]]; [by left| |lia|unfold local_room in Hl; lia].
      exfalso. apply Hnb. unfold budgeted in Hb. rewrite Forall_forall in Hb. apply Hb.
      apply (waiting_elem s ep). apply eq_reqs_elem. eauto.
  - pose proof (dispatched_exact _ _ _ _ _ _ _ Hs Hn D) as [Ea Eb].
    destruct (dp_taken _ _ _ _ _ _ _ D) as (s1 & T & _ & _ & Hdp).
    specialize (IH (av - 1) (ds ++ [d]) s'). cbv beta iota in IH |- *.
    destruct (band_loop h ep c now b inf target n (av - 1) (ds ++ [d]) s') as [[ds'|e] s2] eqn:EL; [|done].
    destruct IH as [k HK].
    + apply D.
    + by apply (st_open _ _ (dp_stable _ _ _ _ _ _ _ D)).
    + by eapply dispatched_nodup.
    + by eapply budgeted_dispatched.
    + done.
    + rewrite Hdp. pose proof (tk_depth _ _ _ _ _ _ T). lia.
    + exists (1 + k). apply (loop_result_cons ep c b inf av (av - 1) ds (ds ++ [d]) ds' s s' s2); try done; try lia.
      * rewrite zlen_app. done.
      * intros b' Hb'. rewrite Hdp. apply (tk_depths _ _ _ _ _ _ T). congruence.
  - destruct (sp_taken _ _ _ _ _ _ _ _ _ S) as (s1 & T & _ & _ & Hdp).
    assert (forall b', depth_at s' ep b' = depth_at s1 ep b') as Hdp'.
    { intros b'. pose proof (Ht (ml_target _ _ _ _ (sp_leave _ _ _ _ _ _ _ _ _ S))).
      rewrite Hdp, decide_False by congruence. lia. }
    specialize (IH av ds s'). cbv beta iota in IH |- *.
    destruct (band_loop h ep c now b inf target n av ds s') as [[ds'|e] s2] eqn:EL; [|done].
    destruct IH as [k HK].
    + apply S.
    + by apply (st_open _ _ (sp_stable _ _ _ _ _ _ _ _ _ S)).
    + by eapply spilled_nodup.
    + by eapply budgeted_spilled.
    + done.
    + rewrite Hdp'. pose proof (tk_depth _ _ _ _ _ _ T). lia.
    + exists (0 + k). apply (loop_result_cons ep c b inf av av ds ds ds' s s' s2); try done; try lia.
      * unfold active_count. rewrite (sp_active _ _ _ _ _ _ _ _ _ S). lia.
      * unfold bg_in_flight. rewrite (sp_active _ _ _ _ _ _ _ _ _ S). case_bool_decide; lia.
      * intros b' Hb'. rewrite Hdp'. apply (tk_depths _ _ _ _ _ _ T). congruence.
Qed.

(** The slots a band of [ep] could still take in state [s]. *)
Definition band_room (s : Sched) (ep : string) (c : EndpointConfig) (b : PriorityBand) : Z :=
  available_for_band s c b (active_count s ep) (queue_at s ep).

Lemma band_depth_at s ep b : band_depth (queue_at s ep) b = depth_at s ep b.
Proof. rewrite depth_at_reqs. apply bq_depth_reqs. Qed.

(** One band of the dispatch phase, on a state where the loop's occupancy is
    the real one. *)
Record band_start (ep : string) (c : EndpointConfig) (inf : Z) (ds : list DispatchDecision) (s : Sched) : Prop := {
  bs_ok : sched_ok s;
  bs_open : is_Some (dget (sc_queues s) ep);
  bs_ids : NoDup (live_ids s);
  bs_budgets : budgeted s;
  bs_class : endpoint_class c = ep;
  bs_occ : active_count s ep = inf + zlen ds;
}.

Lemma dispatch_band_result h ep c now inf ds b s ds' s' :
  band_start ep c inf ds s -> dispatch_band h ep c now inf ds b s = (Ret ds', s') ->
  exists k, loop_result ep c b inf (band_room s ep c b) ds ds' s s' k.
Proof.
  intros [Hs Ho Hn Hb Hc Hocc]. unfold dispatch_band. rewrite run_get. destruct Ho as [eq Eq]. rewrite Eq.
  pose proof (queue_at_get _ _ _ Eq) as Q. unfold band_room. rewrite Q, Hocc.
  assert (band_depth eq b = depth_at s ep b) as Ed by (rewrite <- Q; apply band_depth_at).
  destruct (Z.eqb_spec (band_depth eq b) 0) as [E0|E0].
  { intros [= <- <-]. exists 0. apply loop_result_nil; try done. intros _. left. lia. }
  set (av := available_for_band s c b (inf + zlen ds) eq).
  destruct (Z.leb_spec av 0) as [Ha|Ha], (String.eqb_spec (spill_target h s c) "") as [Ht|Ht]; cbn [andb].
  { intros [= <- <-]. exists 0. apply loop_result_nil; try done. intros _. right. by left. }
  all: intros HL; pose proof (band_loop_exact h ep c now b inf (spill_target h s c)
    (Z.to_nat (band_depth eq b + zlen (agents_in_band eq b))) av ds s) as HR; rewrite HL in HR;
    apply HR; try done.
  all: try (pose proof (zlen_nonneg (agents_in_band eq b)); lia).
  all: intros Et; pose proof (spill_target_spec h s c Et) as (E1 & E2 & _); congruence.
Qed.

(** C37 Work conservation, within one pass: when the pass over a band of an open
    endpoint with slots returns, either no request of the band is waiting or the
    band has no slot left under the capacity rules: nothing is held back
    otherwise.  The pass starts as [_dispatch_band] is called: the scheduler is
    well formed, the endpoint is filed under its own name, and the occupancy it
    is given, with the dispatches made so far, is the number in flight there.
    Two things are assumed of the state: no two live requests share an
    identifier (with a shared one the second takes the place of the first in the
    in-flight map, and the pass counts a slot that the map does not show), and
    every waiting caller has a budget. *)
Theorem band_work_conserving h ep c now inf ds b s ds' s' :
  band_start ep c inf ds s -> 0 < max_slots c -> dispatch_band h ep c now inf ds b s = (Ret ds', s') ->
  depth_at s' ep b = 0 \/ band_room s' ep c b <= 0.
Proof.
  intros HB Hm HD. destruct (dispatch_band_result _ _ _ _ _ _ _ _ _ _ HB HD) as [k [K1 K2 K3 K4 K5 K6 K7]].
  destruct HB as [_ _ _ _ Hc Hocc]. destruct (K7 Hm) as [?|Hr]; [by left|]. right.
  unfold band_room, available_for_band in *. rewrite !band_depth_at in *. rewrite K4, Hc, K5 in *.
  destruct (Z.leb_spec (effective_max_slots c - (active_count s ep + k)) 0) as [|Hfree]; [lia|].
  destruct (Z.leb_spec (effective_max_slots c - active_count s ep) 0); [lia|].
  repeat case_bool_decide; [lia|]. rewrite (K6 BACKGROUND) by done.
  destruct (0 <? depth_at s ep BACKGROUND); lia.
Qed.

(** The background reservation.  While background work waits on an endpoint,
    a pass over the interactive or the foreground band takes the non-background
    in-flight requests no higher than the slots left beside the background
    floor (and never below one slot). *)
Theorem band_respects_reservation h ep c now inf ds b s ds' s' :
  band_start ep c inf ds s -> b <> BACKGROUND -> 0 < depth_at s ep BACKGROUND ->
  dispatch_band h ep c now inf ds b s = (Ret ds', s') ->
  active_count s' ep - bg_in_flight s' ep <=
  Z.max (active_count s ep - bg_in_flight s ep) (reserve_ceiling c).
Proof.
  intros HB Hb Hq HD. destruct (dispatch_band_result _ _ _ _ _ _ _ _ _ _ HB HD) as [k [K1 K2 K3 K4 K5 K6 _]].
  destruct HB as [_ _ _ _ Hc Hocc]. rewrite K4, K5, bool_decide_eq_false_2 by done.
  destruct (decide (0 < k)) as [Hk|]; [|lia]. destruct (K3 Hk) as [Hav _].
  unfold band_room, available_for_band, reserve_ceiling in *. rewrite band_depth_at, Hc in Hav.
  rewrite bool_decide_eq_false_2 in Hav by done.
  destruct (Z.ltb_spec 0 (depth_at s ep BACKGROUND)); [|lia].
  destruct (Z.leb_spec (effective_max_slots c - active_count s ep) 0); lia.
Qed.

(** ** Submission *)

(** Submitting a request that can be costed never raises: it joins the end
    of its caller's line at its endpoint with its estimates filled in,
    its caller has a budget, nothing else waiting or running changes, and every
    waiting caller still has a budget. *)
Theorem enqueue_appends r s :
  sched_ok s -> payload_ok r ->
  exists n c s', enqueue r s = (Ret (with_cost r n c), s') /\ sched_ok s' /\
    waiting_all s' ≡ₚ with_cost r n c :: waiting_all s /\ running_all s' = running_all s /\
    line s' (r_endpoint r) (r_band r) (r_agent_id r)
      = line s (r_endpoint r) (r_band r) (r_agent_id r) ++ [with_cost r n c] /\
    has_budget (sc_budgets s') (r_agent_id r) /\ (budgeted s -> budgeted s').
Proof.
  intros Hs Hp. pose proof (enqueue_cases r s) as H. destruct (enqueue r s) as [[r'|e] s'].
  2: { destruct H as (_ & _ & Hf). by apply payload_ok_costs in Hp. }
  destruct H as ((n & c & ->) & Hst & Hlog & Hb). exists n, c, s'.
  assert (waiting_all s' ≡ₚ with_cost r n c :: waiting_all s) as P
    by by rewrite (waiting_store _ _ Hst), push_waiting.
  split_and!; try done.
  - eapply sched_ok_store; [done|]. by apply push_ok.
  - rewrite (running_store _ _ Hst). apply (open_endpoint_running (r_endpoint r) s Hs).
  - rewrite (line_store _ _ _ _ _ Hst), push_line. by rewrite decide_True.
  - unfold budgeted. rewrite P. intros HF. constructor; [done|]. rewrite Forall_forall in HF |- *.
    intros r0 Hr. apply (st_budget _ _ (sl_stable _ _ Hlog)). auto.
Qed.

(** ** Every state the service can reach *)

(** What happens to a scheduler: its own operations, with the hooks as they are
    at that moment, and what the rest of the proxy writes into the shared
    budget, cost and configuration objects. *)
Inductive Op :=
| OpEnqueue (r : QueuedRequest)
| OpTick (h : Hooks) (now : Q)
| OpComplete (c : CompletionRecord)
| OpCancel (id_ : string)
| OpBudgets (bm : BudgetManager)
| OpCost (cm : CostModel)
| OpConfig (cfg : ProxyConfig).

(** The state an operation leaves, whether it returned or raised. *)
Definition apply_op (s : Sched) (o : Op) : Sched :=
  match o with
  | OpEnqueue r => (enqueue r s).2
  | OpTick h now => (tick h now s).2
  | OpComplete c => (complete c s).2
  | OpCancel i => (cancel i s).2
  | OpBudgets bm => set_budgets bm s
  | OpCost cm => set_cost cm s
  | OpConfig cfg => set_config cfg s
  end.

Lemma init_sched_ok c cm bm : dwf (endpoints c) -> sched_ok (init_sched c cm bm).
Proof.
  intros Hd. unfold dwf, dkeys in Hd.
  assert (forall {V} (v : V) k w, dget (map (fun kv : string * EndpointConfig => (kv.1, v)) (endpoints c)) k = Some w -> w = v) as Hv.
  { intros V v k w H. apply dget_elem, list_elem_of_fmap in H as (? & ? & _). congruence. }
  split; simpl; unfold dwf, dkeys; rewrite ?map_map; try done.
  - intros ep eq ->%Hv. apply eq_ok_empty.
  - intros ep eq r ->%Hv H. by apply not_elem_of_nil in H.
  - intros ep m ->%Hv. split; [constructor|done].
  - intros ep H. apply dget_None in H. apply dget_None. unfold dkeys in *. by rewrite map_map in *.
Qed.

Lemma enqueue_ok r s : sched_ok s -> sched_ok (enqueue r s).2.
Proof.
  intros Hs. pose proof (enqueue_cases r s) as H. destruct (enqueue r s) as [[r'|e] s']; simpl.
  - destruct H as (_ & Hst & _). eapply sched_ok_store; [done|]. by apply push_ok.
  - destruct H as (Hst & _). eapply sched_ok_store; [done|]. by apply open_endpoint_ok.
Qed.

Lemma tick_ok h now s : sched_ok s -> sched_ok (tick h now s).2.
Proof.
  intros Hs. destruct (tick_steps h now s Hs) as (gone & s1 & X & HR).
  destruct (tick h now s) as [[ds|e] s']; simpl; [apply HR|].
  destruct HR as (s2 & r & target & _ & Hok & Hf & _). by eapply sfail_ok.
Qed.

Lemma complete_ok c s : sched_ok s -> sched_ok (complete c s).2.
Proof.
  intros Hs. destruct (decide (cr_request_id c ∈ map r_request_id (running_all s))) as [Hin|Hout].
  - destruct (complete_found c s Hs Hin) as (r & s' & -> & Hok & _). done.
  - by rewrite complete_missing.
Qed.

Lemma cancel_ok i s : sched_ok s -> sched_ok (cancel i s).2.
Proof.
  intros Hs. pose proof (cancel_cases i s Hs) as H. destruct (cancel i s) as [[] s']; simpl.
  - by destruct H as (? & ? & ? & _ & _ & _ & ?).
  - by destruct H as [-> _].
Qed.

#[local] Hint Resolve enqueue_ok tick_ok complete_ok cancel_ok : roadstead.

Lemma apply_op_ok s o : sched_ok s -> sched_ok (apply_op s o).
Proof. destruct o; simpl; auto with roadstead; by apply sched_ok_store. Qed.

Lemma run_ok s ops : sched_ok s -> sched_ok (foldl apply_op s ops).
Proof. revert s. induction ops; simpl; auto using apply_op_ok. Qed.

(** C16 In every state the scheduler can reach, by any interleaving of its
    operations (returning or raising) with changes to the budgets, the cost
    model and the configuration, the queues are well formed: in each band the
    round-robin order lists without repetition exactly the callers with a
    request queued there, every queued request sits under its own endpoint,
    band and caller, and every in-flight entry under its own identifier. *)
Theorem reachable_queues_well_formed c cm bm ops :
  dwf (endpoints c) ->
  let s := foldl apply_op (init_sched c cm bm) ops in
  sched_ok s /\
  forall ep eq b, dget (sc_queues s) ep = Some eq ->
    NoDup (agents_in_band eq b) /\
    (forall a, a ∈ agents_in_band eq b <-> is_Some (peek eq b a)) /\
    (forall a r, r ∈ deque_of (band_of eq b) a -> r_endpoint r = ep /\ r_band r = b /\ r_agent_id r = a).
Proof.
  intros Hd s. assert (sched_ok s) as Hs by (apply run_ok, init_sched_ok, Hd). split; [done|].
  intros ep eq b Eq. pose proof (so_queues _ Hs _ _ Eq b) as Hb. split_and!.
  - unfold agents_in_band. rewrite (bq_order _ _ Hb). apply Hb.
  - intros a. split; [by apply (bq_head b)|]. intros [r Hr]. by eapply bq_robin_elem.
  - intros a r Hr. assert (r ∈ eq_reqs eq) as Hin.
    { apply eq_reqs_elem. exists b. apply (bq_reqs_elem b); [done|]. by exists a. }
    split; [by apply (so_home _ Hs _ _ r Eq)|]. unfold deque_of in Hr.
    destruct (dget (bq_agents (band_of eq b)) a) as [d|] eqn:E; simpl in Hr; [|by apply not_elem_of_nil in Hr].
    destruct (bq_deques _ _ Hb _ _ E) as [_ F]. rewrite Forall_forall in F. destruct (F _ Hr). done.
Qed.

(** *** Each request is spilled at most once *)

Definition unspilled (r : QueuedRequest) : bool := negb (str_truthy (r_spilled_from r)).

(** Spills so far plus the waiting requests that could still be spilled. *)
Definition spill_credit (s : Sched) : Z := sc_total_spilled s + count_if unspilled (waiting_all s).

Lemma count_if_app {A} (p : A -> bool) l l' : count_if p (l ++ l') = count_if p l + count_if p l'.
Proof. unfold count_if. by rewrite filter_app, zlen_app. Qed.

Definition named (cfg : ProxyConfig) : Prop := forall c, ("" : string, c) ∉ endpoints cfg.

Lemma sstep_credit h now s s' : named (sc_config s) -> sstep h now s s' -> spill_credit s' <= spill_credit s.
Proof.
  intros Hnm H. unfold spill_credit.
  destruct H as [s s' Hq Hs|ep b aid d c s s' _ _ _ _ _ _ D|ep b aid target r r' c s s' Hin _ _ _ _ _ S].
  - rewrite (waiting_store s s') by by apply quiet_store. rewrite (qt_spilled _ _ Hq). lia.
  - destruct (dp_taken _ _ _ _ _ _ _ D) as (s1 & T & P & _).
    rewrite (count_if_perm _ _ _ P), (count_if_perm _ _ _ (tk_waiting _ _ _ _ _ _ T)), count_if_cons.
    rewrite (dp_spilled _ _ _ _ _ _ _ D). destruct (unspilled (dd_request d)); lia.
  - destruct (sp_taken _ _ _ _ _ _ _ _ _ S) as (s1 & T & P & _).
    rewrite (count_if_perm _ _ _ P), (count_if_perm _ _ _ (tk_waiting _ _ _ _ _ _ T)), !count_if_cons.
    rewrite (sp_count _ _ _ _ _ _ _ _ _ S). unfold unspilled at 1 3.
    rewrite (ml_once _ _ _ _ (sp_leave _ _ _ _ _ _ _ _ _ S)).
    destruct (moved_keeps _ _ _ _ (sp_moved _ _ _ _ _ _ _ _ _ S)) as (_ & _ & _ & _ & -> & _). simpl.
    destruct (String.eqb_spec ep ""); simpl; [subst; by apply Hnm in Hin|lia].
Qed.

Lemma ssteps_credit h now s s' :
  named (sc_config s) -> rtc (sstep h now) s s' -> spill_credit s' <= spill_credit s.
Proof.
  intros Hn H. induction H as [|s1 s2 s3 Hs _ IH]; [lia|].
  pose proof (sstep_credit _ _ _ _ Hn Hs). assert (named (sc_config s2)) as Hn2.
  { intros c. rewrite (st_endpoints _ _ (sstep_stable _ _ _ _ Hs)). apply Hn. }
  specialize (IH Hn2). lia.
Qed.

Lemma sfail_credit h target r s s' : sfail h target r s s' -> spill_credit s' <= spill_credit s.
Proof.
  unfold spill_credit. destruct 1 as [ep b aid s s' _ L|e s s' _ Hq].
  - destruct (ls_taken _ _ _ _ _ _ _ _ L) as (s1 & T & P).
    rewrite (count_if_perm _ _ _ P), (count_if_perm _ _ _ (tk_waiting _ _ _ _ _ _ T)), count_if_cons.
    rewrite (ls_count _ _ _ _ _ _ _ _ L). unfold unspilled at 2.
    rewrite (ml_once _ _ _ _ (ls_leave _ _ _ _ _ _ _ _ L)). simpl. lia.
  - rewrite (waiting_store s s') by by apply quiet_store. rewrite (qt_spilled _ _ Hq). lia.
Qed.

Lemma tick_credit h now s : sched_ok s -> named (sc_config s) -> spill_credit (tick h now s).2 <= spill_credit s.
Proof.
  intros Hs Hn. destruct (tick_steps h now s Hs) as (gone & s1 & X & HR).
  assert (spill_credit s1 <= spill_credit s) as H1.
  { unfold spill_credit. rewrite (count_if_perm _ _ _ (ex_waiting _ _ _ _ X)), count_if_app.
    rewrite (ex_spilled _ _ _ _ X). pose proof (count_if_nonneg unspilled gone). lia. }
  assert (named (sc_config s1)) as Hn1.
  { intros c. rewrite (st_endpoints _ _ (ex_stable _ _ _ _ X)). apply Hn. }
  destruct (tick h now s) as [[ds|e] s']; simpl.
  - destruct HR as [HR _ _]. pose proof (ssteps_credit _ _ _ _ Hn1 HR). lia.
  - destruct HR as (s2 & r & target & HR & _ & Hf & _).
    pose proof (ssteps_credit _ _ _ _ Hn1 HR). pose proof (sfail_credit _ _ _ _ _ Hf). lia.
Qed.

Lemma enqueue_credit r s : spill_credit (enqueue r s).2 <= spill_credit s + 1.
Proof.
  unfold spill_credit. pose proof (enqueue_cases r s) as H. destruct (enqueue r s) as [[r'|e] s']; simpl.
  - destruct H as (_ & Hst & Hlog & _). rewrite (waiting_store _ _ Hst), (sl_spilled _ _ Hlog).
    rewrite (count_if_perm _ _ _ (push_waiting r' s)), count_if_cons. destruct (unspilled r'); lia.
  - destruct H as (Hst & Hlog & _). rewrite (waiting_store _ _ Hst), (sl_spilled _ _ Hlog).
    rewrite (count_if_perm _ _ _ (open_endpoint_waiting _ s)). lia.
Qed.

(** The operation's cost against the bound, and the configurations it may set. *)
Definition is_enqueue (o : Op) : bool := match o with OpEnqueue _ => true | _ => false end.

Definition op_named (o : Op) : Prop := match o with OpConfig cfg => named cfg | _ => True end.

Lemma apply_op_named s o : op_named o -> sched_ok s -> named (sc_config s) -> named (sc_config (apply_op s o)).
Proof.
  intros Ho Hs Hn. destruct o; simpl; try done; intros x.
  - pose proof (enqueue_cases r s) as H. destruct (enqueue r s) as [[r'|e] s']; simpl.
    + destruct H as (_ & _ & Hl & _). rewrite (st_endpoints _ _ (sl_stable _ _ Hl)). apply Hn.
    + destruct H as (_ & Hl & _). rewrite (st_endpoints _ _ (sl_stable _ _ Hl)). apply Hn.
  - destruct (tick_steps h now s Hs) as (gone & s1 & X & HR).
    pose proof (st_endpoints _ _ (ex_stable _ _ _ _ X)) as E1.
    destruct (tick h now s) as [[ds|e] s']; simpl.
    + rewrite (st_endpoints _ _ (ssteps_stable _ _ _ _ (rc_steps _ _ _ _ _ HR))), E1. apply Hn.
    + destruct HR as (s2 & r & target & HR & _ & Hf & _).
      assert (stable s2 s') as Hst by (destruct Hf as [? ? ? ? ? _ L|? ? ? _ Hq]; [apply L|apply Hq]).
      rewrite (st_endpoints _ _ Hst), (st_endpoints _ _ (ssteps_stable _ _ _ _ HR)), E1. apply Hn.
  - destruct (decide (cr_request_id c ∈ map r_request_id (running_all s))) as [Hin|Hout].
    + destruct (complete_found c s Hs Hin) as (r & s' & -> & _ & (_ & _ & _ & _ & _ & Hc & _)). simpl. rewrite Hc. apply Hn.
    + rewrite complete_missing by done. apply Hn.
  - pose proof (cancel_cases id_ s Hs) as H. destruct (cancel id_ s) as [[] s']; simpl.
    + destruct H as (? & ? & ? & _ & _ & -> & _). apply Hn.
    + destruct H as [-> _]. apply Hn.
Qed.

Lemma apply_op_credit s o :
  sched_ok s -> named (sc_config s) ->
  spill_credit (apply_op s o) <= spill_credit s + (if is_enqueue o then 1 else 0).
Proof.
  intros Hs Hn. destruct o; cbn [apply_op is_enqueue]; try (unfold spill_credit; simpl; change (waiting_all _) with (waiting_all s); lia).
  - apply enqueue_credit.
  - pose proof (tick_credit h now s Hs Hn). lia.
  - unfold spill_credit. destruct (decide (cr_request_id c ∈ map r_request_id (running_all s))) as [Hin|Hout].
    + destruct (complete_found c s Hs Hin) as (r & s' & -> & _ & (_ & _ & Hq & _ & _ & _ & Hsp)). simpl.
      rewrite Hsp, (waiting_queues s s' Hq). lia.
    + rewrite complete_missing by done. simpl. lia.
  - unfold spill_credit. pose proof (cancel_cases id_ s Hs) as H. destruct (cancel id_ s) as [[] s']; simpl.
    + destruct H as (r & ep & eq & _ & P & -> & _). rewrite (count_if_perm _ _ _ P), count_if_cons.
      change (sc_total_spilled (put_queue ep eq s)) with (sc_total_spilled s). destruct (unspilled r); lia.
    + destruct H as [-> _]. lia.
Qed.

Lemma run_credit s ops :
  sched_ok s -> named (sc_config s) -> Forall op_named ops ->
  spill_credit (foldl apply_op s ops) <= spill_credit s + count_if is_enqueue ops.
Proof.
  revert s. induction ops as [|o ops IH]; intros s Hs Hn HF; cbn [foldl]; [change (count_if _ []) with 0; lia|].
  apply Forall_cons in HF as [Ho HF]. rewrite count_if_cons.
  pose proof (apply_op_credit s o Hs Hn).
  specialize (IH (apply_op s o) (apply_op_ok s o Hs) (apply_op_named s o Ho Hs Hn) HF). lia.
Qed.

(** Spill never chains: whatever the sequence of operations and of hook and
    configuration changes, the number of spills never exceeds the number of
    submissions, so no request is moved to paid capacity twice. *)
Theorem spills_bounded_by_submissions c cm bm ops :
  dwf (endpoints c) -> named c -> Forall op_named ops ->
  sc_total_spilled (foldl apply_op (init_sched c cm bm) ops) <= count_if is_enqueue ops.
Proof.
  intros Hd Hn HF. pose proof (run_credit (init_sched c cm bm) ops (init_sched_ok c cm bm Hd) Hn HF) as H.
  unfold spill_credit in H at 1. pose proof (count_if_nonneg unspilled (waiting_all (foldl apply_op (init_sched c cm bm) ops))).
  assert (spill_credit (init_sched c cm bm) = 0) as E; [|lia].
  unfold spill_credit. assert (waiting_all (init_sched c cm bm) = []) as ->; [|done].
  unfold waiting_all. simpl. clear. by induction (endpoints c) as [|[k v] l IH].
Qed.
