(* ===== verification/SchedDemo.v ===== *)
(** * Concrete scheduler runs

    A two-endpoint fleet (a two-slot local endpoint that spills to a remote
    one) on which the scheduler's theorems are applied, and the runs that show
    what happens outside their hypotheses. *)

From Stdlib Require Import QArith Lqa Lia ZArith Permutation.
From stdpp Require Import base list strings relations.
From S2P Require Import Prelude PyDict PyText Config Budget Json Cost Queue Scheduler SchedSteps SchedProps.

Local Open Scope string_scope.
Local Open Scope Z_scope.

(** ** The fleet *)

Definition ep_thinker : EndpointConfig :=
  {| endpoint_class := "thinker"; role := "thinker"; max_slots := 2; context_per_slot := 4096;
     min_expected_slots := 0; failover_to := ""; goodput_min_running := 0; goodput_sustain_evaluations := 0;
     goodput_max_iteration_rate := 0; goodput_max_generation_tps := 0; goodput_max_prefill_tps := 0;
     goodput_recovery_evaluations := 0; goodput_max_hold_s := 0; goodput_busy_min := 0;
     failover_dwell_s := 60; spill_to := "remote";
     background_floor_pct := 1 # 4; fast_path_reserve_slots := 0; dispatch_concurrency_cap := 0 |}.

Definition ep_remote : EndpointConfig :=
  {| endpoint_class := "remote"; role := "remote"; max_slots := 2; context_per_slot := 8192;
     min_expected_slots := 0; failover_to := ""; goodput_min_running := 0; goodput_sustain_evaluations := 0;
     goodput_max_iteration_rate := 0; goodput_max_generation_tps := 0; goodput_max_prefill_tps := 0;
     goodput_recovery_evaluations := 0; goodput_max_hold_s := 0; goodput_busy_min := 0;
     failover_dwell_s := 60; spill_to := "";
     background_floor_pct := 1 # 4; fast_path_reserve_slots := 0; dispatch_concurrency_cap := 0 |}.

Definition agent_a : AgentQuotaConfig :=
  {| aq_agent_id := "a"; weight := 1; max_balance_ss := 60; default_priority := P1_TURN_SUPPORT;
     degrade_ok := false; spill_ok := true; daily_spend_usd := None; requests_per_minute := None;
     content_no_store := false |}.

Definition demo_cfg : ProxyConfig :=
  {| endpoints := [("thinker", ep_thinker); ("remote", ep_remote)]; agents := [("a", agent_a)] |}.

Definition demo_cost : CostModel :=
  register_endpoint (register_endpoint [] "thinker" 2 (1 # 1000) (Some [40; 35]%Q)) "remote" 2 (1 # 1000)
    (Some [80; 80]%Q).

Definition no_budgets : BudgetManager :=
  {| bm_agents := []; bm_starvation_timeout_s := 30; bm_total_capacity := 4; bm_last_waits := [] |}.

Definition s_init : Sched := init_sched demo_cfg demo_cost no_budgets.

Definition no_hooks : Hooks := {| is_endpoint_healthy := None; may_spend := None |}.

(** Three interactive requests of [a], one of [b] and one background request. *)
Definition demo_ops : list Op :=
  [OpEnqueue (demo_req "r1" "a" "thinker" INTERACTIVE 1 100);
   OpEnqueue (demo_req "r2" "a" "thinker" INTERACTIVE 2 100);
   OpEnqueue (demo_req "r3" "a" "thinker" INTERACTIVE 3 100);
   OpEnqueue (demo_req "r4" "b" "thinker" FOREGROUND 3 100);
   OpEnqueue (demo_req "r5" "c" "thinker" BACKGROUND 3 4)].

Definition s_loaded : Sched := foldl apply_op s_init demo_ops.

Lemma demo_wf : dwf (endpoints demo_cfg).
Proof. apply (bool_decide_unpack _). vm_compute. done. Qed.

Lemma s_loaded_ok : sched_ok s_loaded.
Proof. apply run_ok, init_sched_ok, demo_wf. Qed.

Lemma s_loaded_ids : NoDup (live_ids s_loaded).
Proof. apply (bool_decide_unpack _). vm_compute. done. Qed.

(** One tick at time 5: the background request has expired, both slots fill
    with [a]'s first two requests, [a]'s third spills to the remote endpoint
    and starts there, and [b]'s request waits. *)
Example demo_tick :
  let '(r, s') := tick no_hooks 5 s_loaded in
  match r with
  | Ret ds => map (fun d => (r_request_id (dd_request d), r_endpoint (dd_request d))) ds
              = [("r1", "thinker"); ("r2", "thinker"); ("r3", "remote")]
  | Raise _ => False
  end /\ map r_request_id (waiting_all s') = ["r4"] /\ active_count s' "thinker" = 2 /\
  sc_total_spilled s' = 1 /\ sc_total_timeouts s' = 1.
Proof. by vm_compute. Qed.

Definition s_ticked : Sched := (tick no_hooks 5 s_loaded).2.

Definition demo_decisions : list DispatchDecision :=
  match (tick no_hooks 5 s_loaded).1 with Ret ds => ds | Raise _ => [] end.

(** Replace a closed list of the goal by its value. *)
Ltac list_evaluated l :=
  let v := eval vm_compute in l in
  let H := fresh in assert (l = v) as H by (vm_compute; reflexivity); rewrite H; clear H.

(** ** Witnesses *)

Lemma tick_refines_spec_witness :
  exists tr, sc_events s_ticked = (sc_events s_loaded ++ tr)%list /\
    aruns no_hooks (sc_config s_loaded) 5 (world_of s_loaded) tr (world_of s_ticked) /\
    demo_decisions = omap ev_decision tr /\ NoDup (live_ids s_ticked).
Proof.
  apply (tick_refines_spec no_hooks 5 s_loaded demo_decisions s_ticked).
  - apply s_loaded_ok.
  - apply s_loaded_ids.
  - vm_compute. reflexivity.
Defined.

Lemma tick_respects_capacity_witness :
  active_count s_ticked "thinker" <= Z.max (active_count s_loaded "thinker") 2.
Proof.
  apply (tick_respects_capacity no_hooks 5 s_loaded "thinker" ep_thinker).
  - apply s_loaded_ok.
  - apply (bool_decide_unpack _). vm_compute. done.
  - vm_compute. by left.
Defined.

Lemma tick_respects_background_cap_witness :
  bg_in_flight s_ticked "thinker" <= Z.max (bg_in_flight s_loaded "thinker") (background_cap_slots ep_thinker).
Proof.
  apply (tick_respects_background_cap no_hooks 5 s_loaded "thinker" ep_thinker).
  - apply s_loaded_ok.
  - apply (bool_decide_unpack _). vm_compute. done.
  - vm_compute. by left.
  - reflexivity.
Defined.

Lemma tick_fifo_per_caller_witness :
  flows "thinker" INTERACTIVE "a" demo_decisions s_loaded s_ticked.
Proof.
  apply (tick_fifo_per_caller no_hooks 5 s_loaded).
  - apply s_loaded_ok.
  - vm_compute. reflexivity.
Defined.

Lemma tick_never_raises_witness : exists ds s', tick no_hooks 5 s_loaded = (Ret ds, s').
Proof.
  apply (tick_never_raises no_hooks 5 s_loaded).
  - apply s_loaded_ok.
  - list_evaluated (waiting_all s_loaded).
    repeat (constructor; [split; [reflexivity|eexists; reflexivity]|]). constructor.
Defined.

Lemma cancel_exact_witness :
  let '(found, s') := cancel "r2" s_loaded in
  sched_ok s' /\ (if found then exists r, r_request_id r = "r2" /\ waiting_all s_loaded ≡ₚ r :: waiting_all s' else s' = s_loaded).
Proof.
  pose proof (cancel_exact "r2" s_loaded s_loaded_ok) as H.
  destruct (cancel "r2" s_loaded) as [found s']. destruct H as (H1 & _ & _ & _ & H5). split; assumption.
Defined.

Definition demo_completion : CompletionRecord :=
  {| cr_request_id := "r1"; duration_s := 3; input_tokens := 10; output_tokens := 20; success := true;
     occupancy_during := 2 |}.

Lemma s_ticked_ok : sched_ok s_ticked.
Proof. apply tick_ok, s_loaded_ok. Qed.

Lemma complete_exactly_once_witness :
  exists s', complete demo_completion s_ticked = (Ret tt, s') /\ complete demo_completion s' = (Ret tt, s').
Proof.
  destruct (complete_exactly_once demo_completion s_ticked) as (s' & H1 & _ & H2 & _).
  - apply s_ticked_ok.
  - apply (bool_decide_unpack _). vm_compute. done.
  - exists s'. split; assumption.
Defined.

Lemma demo_band_start : band_start "thinker" ep_thinker 0 [] s_loaded.
Proof.
  split.
  - apply s_loaded_ok.
  - vm_compute. eauto.
  - apply s_loaded_ids.
  - unfold budgeted. list_evaluated (waiting_all s_loaded).
    repeat (constructor; [apply dmem_true; vm_compute; reflexivity|]). constructor.
  - reflexivity.
  - reflexivity.
Qed.

(** The pass over the interactive band of the loaded state. *)
Definition demo_band : res (list DispatchDecision) * Sched :=
  dispatch_band no_hooks "thinker" ep_thinker 3 0 [] INTERACTIVE s_loaded.

Definition demo_band_ds : list DispatchDecision :=
  match demo_band.1 with Ret ds => ds | Raise _ => [] end.

Lemma band_work_conserving_witness :
  depth_at demo_band.2 "thinker" INTERACTIVE = 0 \/ band_room demo_band.2 "thinker" ep_thinker INTERACTIVE <= 0.
Proof.
  apply (band_work_conserving no_hooks "thinker" ep_thinker 3 0 [] INTERACTIVE s_loaded demo_band_ds demo_band.2).
  - apply demo_band_start.
  - simpl. lia.
  - vm_compute. reflexivity.
Defined.

Lemma band_respects_reservation_witness :
  active_count demo_band.2 "thinker" - bg_in_flight demo_band.2 "thinker" <= 1.
Proof.
  apply (band_respects_reservation no_hooks "thinker" ep_thinker 3 0 [] INTERACTIVE s_loaded demo_band_ds demo_band.2).
  - apply demo_band_start.
  - discriminate.
  - vm_compute. reflexivity.
  - vm_compute. reflexivity.
Defined.

Lemma reachable_queues_well_formed_witness : sched_ok (foldl apply_op s_init demo_ops).
Proof. apply (reachable_queues_well_formed demo_cfg demo_cost no_budgets demo_ops). apply demo_wf. Defined.

Lemma spills_bounded_by_submissions_witness :
  sc_total_spilled (foldl apply_op s_init (demo_ops ++ [OpTick no_hooks 5])%list) <= 5.
Proof.
  apply (spills_bounded_by_submissions demo_cfg demo_cost no_budgets (demo_ops ++ [OpTick no_hooks 5])%list).
  - apply demo_wf.
  - intros c H. vm_compute in H. by repeat (apply elem_of_cons in H as [H|H]; [congruence|]); apply not_elem_of_nil in H.
  - repeat constructor.
Defined.

Lemma enqueue_appends_witness :
  exists n c s', enqueue (demo_req "r9" "b" "remote" INTERACTIVE 4 100) s_loaded
    = (Ret (with_cost (demo_req "r9" "b" "remote" INTERACTIVE 4 100) n c), s') /\ sched_ok s'.
Proof.
  destruct (enqueue_appends (demo_req "r9" "b" "remote" INTERACTIVE 4 100) s_loaded)
    as (n & c & s' & H1 & H2 & _).
  - apply s_loaded_ok.
  - split; [reflexivity|]. eexists. reflexivity.
  - exists n, c, s'. split; assumption.
Defined.

(** ** Outside the hypotheses *)

(** Two live requests with one identifier: the second start overwrites the
    first in the in-flight map, so the endpoint looks half empty and a third
    request starts.  Three requests run on two slots. *)
Example duplicate_ids_exceed_capacity :
  let s := foldl apply_op s_init
    [OpEnqueue (demo_req "x" "b" "thinker" INTERACTIVE 1 100);
     OpEnqueue (demo_req "x" "b" "thinker" INTERACTIVE 1 100);
     OpTick no_hooks 2;
     OpEnqueue (demo_req "y" "b" "thinker" INTERACTIVE 3 100);
     OpTick no_hooks 4] in
  sc_total_dispatched s = 3 /\ sc_total_completed s = 0 /\ active_count s "thinker" = 2 /\
  effective_max_slots ep_thinker = 2.
Proof. by vm_compute. Qed.

(** A request whose [max_tokens] is null. *)
Definition null_req : QueuedRequest :=
  let r := demo_req "n1" "newcomer" "thinker" INTERACTIVE 1 100 in
  {| r_request_id := r_request_id r; r_agent_id := r_agent_id r; r_endpoint := r_endpoint r;
     r_priority := r_priority r; r_band := r_band r; r_call_site := r_call_site r;
     r_payload_type := r_payload_type r; r_payload := [("max_tokens", JNull)];
     r_timeout_deadline := r_timeout_deadline r; r_enqueued_at := r_enqueued_at r;
     r_estimated_cost_ss := 0; r_est_input_tokens := 0; r_session_id := None; r_turn_id := None;
     r_caller_id := None; r_declared_agent_id := ""; r_asserted_by_key_id := ""; r_timeout_s := 180;
     r_stream := false; r_ctx_per_slot_at_admission := 0; r_json_object_stripped := false;
     r_forced_tool_schema := None; r_forced_tool_name := ""; r_deadline_is_default := false;
     r_degraded_from := None; r_spilled_from := None; r_requested := ""; r_routed_to := "thinker";
     r_allow_degrade := None; r_allow_spill := None; r_no_store_outcome := "" |}.

(** Submitting it raises, after its caller has been given a budget. *)
Example null_max_tokens_raises :
  (enqueue null_req s_init).1 = Raise TypeError /\
  dmem (bm_agents (sc_budgets (enqueue null_req s_init).2)) "newcomer" = true.
Proof. by vm_compute. Qed.
