(* ===== verification/Spend.v ===== *)
(** * Prices and spending (usage_rates.py, spend.py)

    The avoided-cost rate table and its two readers, token prices with what
    kind of money they mean, the price book's precedence, the per-caller
    ledger, and a caller's standing against its daily cap. *)

From Stdlib Require Import QArith Qround Lqa Lia ZArith Permutation Sorted.
From stdpp Require Import base list strings.
From S2P Require Import Prelude PyDict PyText Config.

Local Open Scope string_scope.
Local Open Scope Q_scope.

(** ** usage_rates *)

Definition rates_by_class : dict string (Q * Q) :=
  [("tier3", (14 # 100, 28 # 100)); ("tier2", (15 # 100, 55 # 100)); ("tier1", (4 # 100, 8 # 100));
   ("embed", (1 # 100, 0)); ("rerank", (2 # 100, 2 # 100))].

Definition audio_hour_rate : dict string Q :=
  [("stt", 111 # 1000); ("diarize", 12 # 100); ("stem", 75 # 100)].

Definition hours_per_input_token : Q := 1 / (100 * 3600).

Definition tts_char_rate : Q := 15.

Definition endpoint_class_table : dict string (option string) :=
  [("tier3", Some "tier3"); ("reasoner", Some "tier3"); ("thinker", Some "tier3");
   ("composer", Some "tier3"); ("creative", Some "tier3"); ("vision", Some "tier3");
   ("tier2", Some "tier2"); ("chat", Some "tier2"); ("analyst", Some "tier2");
   ("tier2-chat", Some "tier2"); ("tier2-analyst", Some "tier2"); ("tier2-flash", Some "tier2");
   ("halogen", Some "tier2"); ("flash", Some "tier2"); ("tier1", Some "tier1"); ("router", Some "tier1");
   ("small", Some "tier1"); ("fast-chat", Some "tier1"); ("classify", Some "tier1");
   ("classifier", Some "tier1"); ("gemma", Some "tier1"); ("gemma-router", Some "tier1");
   ("gemma-greeter", Some "tier1"); ("usersim", Some "tier1"); ("embed", Some "embed");
   ("embeddings", Some "embed"); ("embed-mm", Some "embed"); ("eg2-embed", Some "embed");
   ("rerank", Some "rerank"); ("spill-chat", None); ("spill-reasoning", None); ("stt", Some "stt");
   ("whisper-1", Some "stt"); ("transcribe", Some "stt"); ("diarize", Some "diarize");
   ("stem", Some "stem"); ("cortex-diarize", Some "diarize"); ("cortex-diarize-offline", Some "diarize");
   ("diarize-gpu", Some "diarize"); ("unraid-whisper", Some "stt"); ("unraid-whisper-lyrics", Some "stt");
   ("unraid-diarize", Some "diarize"); ("unraid-htdemucs", Some "stem"); ("tts", Some "tts");
   ("speak", Some "tts"); ("orpheus-tts", Some "tts"); ("chatterbox-tts", Some "tts");
   ("cortex-orpheus-tts", Some "tts"); ("cortex-chatterbox-tts", Some "tts"); ("stream", None);
   ("cortex-stream", None); ("ocr", None); ("musicgen", None); ("imagegen", None); ("video", None);
   ("comfyui", None); ("meshgen", None); ("videogen", None); ("probe", None); ("asr", None);
   ("cortex-asr", None); ("got-ocr", None)].

(** [_capability] *)
Definition capability (endpoint : string) : option string :=
  from_option id None (dget endpoint_class_table (lower (strip endpoint))).

(** [int(x or 0)] on a token count that may be missing. *)
Definition tokens (x : option Z) : Z := from_option id 0%Z x.

Definition per_million (n : Z) (rate : Q) : Q := (inject_Z n / 1000000) * rate.

Definition cloud_cost_usd (endpoint : string) (input_tokens output_tokens : option Z) : Q :=
  match capability endpoint with
  | None => 0
  | Some cap =>
      let ti := tokens input_tokens in
      let to := tokens output_tokens in
      match dget rates_by_class cap with
      | Some (rin, rout) => per_million ti rin + per_million to rout
      | None =>
          match dget audio_hour_rate cap with
          | Some hour_rate => inject_Z ti * hours_per_input_token * hour_rate
          | None => if String.eqb cap "tts" then per_million ti tts_char_rate else 0
          end
      end
  end.

Definition cloud_rate (endpoint : string) : Q * Q :=
  match capability endpoint with
  | Some cap =>
      if negb (String.eqb cap "") && dmem rates_by_class cap
      then from_option id (0, 0) (dget rates_by_class cap) else (0, 0)
  | None => (0, 0)
  end.

(** ** Prices *)

Inductive PriceSource := SOURCE_PROVIDER | SOURCE_CONFIG | SOURCE_IMPUTED.

Record TokenPrice := {
  input_usd_per_mtok : Q;
  output_usd_per_mtok : Q;
  source : PriceSource;
}.

(** [TokenPrice.real] *)
Definition real (p : TokenPrice) : bool :=
  match source p with
  | SOURCE_PROVIDER | SOURCE_CONFIG => true
  | SOURCE_IMPUTED => false
  end.

(** [TokenPrice.cost_usd] *)
Definition cost_usd (p : TokenPrice) (input_tokens output_tokens : option Z) : Q :=
  let ti := Z.max 0 (tokens input_tokens) in
  let to := Z.max 0 (tokens output_tokens) in
  per_million ti (input_usd_per_mtok p) + per_million to (output_usd_per_mtok p).

Record PriceBook := {
  pb_declared : dict string TokenPrice;
  pb_discovered : dict string TokenPrice;
}.

Definition declare (b : PriceBook) (endpoint : string) (p : TokenPrice) : PriceBook :=
  {| pb_declared := dset (pb_declared b) endpoint p; pb_discovered := pb_discovered b |}.

Definition observe (b : PriceBook) (endpoint : string) (p : TokenPrice) : PriceBook :=
  {| pb_declared := pb_declared b; pb_discovered := dset (pb_discovered b) endpoint p |}.

(** [_imputed_price] *)
Definition imputed_price (endpoint : string) : TokenPrice :=
  let '(rin, rout) := cloud_rate endpoint in
  {| input_usd_per_mtok := rin; output_usd_per_mtok := rout; source := SOURCE_IMPUTED |}.

(** [PriceBook.price] *)
Definition price (b : PriceBook) (endpoint : string) : TokenPrice :=
  let ep := strip endpoint in
  match dget (pb_declared b) ep with
  | Some p => p
  | None =>
      match dget (pb_discovered b) ep with
      | Some p => p
      | None => imputed_price ep
      end
  end.

Definition pb_cost_usd (b : PriceBook) (endpoint : string) (ti to : option Z) : Q :=
  cost_usd (price b endpoint) ti to.

(** [declared_price], on the two optional price attributes of an endpoint. *)
Definition declared_price (price_in price_out : option Q) : option TokenPrice :=
  match price_in, price_out with
  | None, None => None
  | _, _ => Some {| input_usd_per_mtok := from_option id 0 price_in;
                    output_usd_per_mtok := from_option id 0 price_out; source := SOURCE_CONFIG |}
  end.

(** ** The ledger *)

Record AgentSpend := {
  as_agent_id : string;
  tokens_in : Z;
  tokens_out : Z;
  spent_usd : Q;
  avoided_usd : Q;
  requests : Z;
  day : Z;
  day_spent_usd : Q;
  by_endpoint : dict string Q;
}.

Definition new_account (aid : string) : AgentSpend :=
  {| as_agent_id := aid; tokens_in := 0; tokens_out := 0; spent_usd := 0; avoided_usd := 0; requests := 0;
     day := 0; day_spent_usd := 0; by_endpoint := [] |}.

Record SpendLedger := {
  prices : PriceBook;
  sl_agents : dict string AgentSpend;
}.

Definition day_bucket (now : Q) : Z := Qfloordiv now 86400.

Definition day_start (now : Q) : Q := inject_Z (day_bucket now) * 86400.

(** The account's update for one completion at a price; the real cost with it. *)
Definition book (acct : AgentSpend) (p : TokenPrice) (endpoint : string) (input_tokens output_tokens : option Z)
    (now : Q) (n : Z) : Q * AgentSpend :=
  let ti := Z.max 0 (tokens input_tokens) in
  let to := Z.max 0 (tokens output_tokens) in
  let amount := cost_usd p (Some ti) (Some to) in
  if negb (real p) then
    (0, {| as_agent_id := as_agent_id acct; tokens_in := tokens_in acct + ti;
           tokens_out := tokens_out acct + to; spent_usd := spent_usd acct;
           avoided_usd := avoided_usd acct + amount; requests := requests acct + Z.max 0 n;
           day := day acct; day_spent_usd := day_spent_usd acct; by_endpoint := by_endpoint acct |})
  else
    let today := day_bucket now in
    let base := if (day acct =? today)%Z then day_spent_usd acct else 0 in
    (amount, {| as_agent_id := as_agent_id acct; tokens_in := tokens_in acct + ti;
                tokens_out := tokens_out acct + to; spent_usd := spent_usd acct + amount;
                avoided_usd := avoided_usd acct; requests := requests acct + Z.max 0 n;
                day := today; day_spent_usd := base + amount;
                by_endpoint := dset (by_endpoint acct) endpoint
                                 (from_option id 0 (dget (by_endpoint acct) endpoint) + amount) |}).

(** [SpendLedger.charge] *)
Definition spend_charge (l : SpendLedger) (aid endpoint : string) (input_tokens output_tokens : option Z)
    (now : Q) (n : Z) : Q * SpendLedger :=
  let acct := from_option id (new_account aid) (dget (sl_agents l) aid) in
  let '(amount, acct') := book acct (price (prices l) endpoint) endpoint input_tokens output_tokens now n in
  (amount, {| prices := prices l; sl_agents := dset (sl_agents l) aid acct' |}).

(** [SpendLedger.spent_today] *)
Definition spent_today (l : SpendLedger) (aid : string) (now : Q) : Q :=
  match dget (sl_agents l) aid with
  | None => 0
  | Some acct => if (day acct =? day_bucket now)%Z then day_spent_usd acct else 0
  end.

(** ** Standing *)

Record SpendStanding := {
  ss_agent_id : string;
  spent_today_usd : Q;
  cap_usd : option Q;
}.

(** [SpendStanding.over] *)
Definition spend_over (s : SpendStanding) : bool :=
  match cap_usd s with
  | Some cap => Qle_bool cap (spent_today_usd s)
  | None => false
  end.

(** [LLMPriority.coerce(min(int(declared) + 1, int(P4_HYGIENE)))] *)
Definition one_down (declared : LLMPriority) : res LLMPriority :=
  coerce (PV_int (Z.min (prio_int declared + 1) (prio_int P4_HYGIENE))) None.

(** [SpendStanding.effective_priority] *)
Definition spend_effective (s : SpendStanding) (declared : LLMPriority) : res LLMPriority :=
  if negb (spend_over s) then Ret declared else one_down declared.

Definition spend_standing_of (l : SpendLedger) (aid : string) (cap : option Q) (now : Q) : SpendStanding :=
  {| ss_agent_id := aid; spent_today_usd := spent_today l aid now; cap_usd := cap |}.

(** ** Facts *)

Local Open Scope list_scope.

Lemma one_down_spec p : exists p', one_down p = Ret p' /\ prio_int p' = Z.min (prio_int p + 1) 4.
Proof. by destruct p; eexists. Qed.

(** What a threshold standing promises the priority policy: whether the caller
    is over it, and a priority that is one step down exactly then. *)
Class Standing (A : Type) := {
  st_over : A -> bool;
  st_effective : A -> LLMPriority -> res LLMPriority;
  st_effective_spec : forall (a : A) p, exists q,
    st_effective a p = Ret q /\ prio_int q = (if st_over a then Z.min (prio_int p + 1) 4 else prio_int p)%Z;
}.

#[global] Program Instance spend_is_standing : Standing SpendStanding := {|
  st_over := spend_over;
  st_effective := spend_effective;
|}.
Next Obligation.
  intros a p. unfold spend_effective. destruct (spend_over a); cbn [negb]; [apply one_down_spec|by exists p].
Qed.

Lemma per_million_nonneg n r : (0 <= n)%Z -> 0 <= r -> 0 <= per_million n r.
Proof.
  intros Hn Hr. unfold per_million. apply Qmult_le_0_compat; [|done].
  apply Qle_shift_div_l; [lra|]. rewrite Qmult_0_l. by apply inject_Z_nonneg.
Qed.

(** One completion as the completion path reports it. *)
Record Charge := {
  ch_agent : string;
  ch_endpoint : string;
  ch_in : option Z;
  ch_out : option Z;
  ch_now : Q;
  ch_n : Z;
}.

Definition charge_all (l : SpendLedger) (cs : list Charge) : SpendLedger :=
  foldl (fun l c => (spend_charge l (ch_agent c) (ch_endpoint c) (ch_in c) (ch_out c) (ch_now c) (ch_n c)).2) l cs.

(** What one completion costs at the book's prices. *)
Definition ch_amount (b : PriceBook) (c : Charge) : Q :=
  cost_usd (price b (ch_endpoint c)) (Some (Z.max 0 (tokens (ch_in c)))) (Some (Z.max 0 (tokens (ch_out c)))).

Definition ch_real (b : PriceBook) (c : Charge) : bool := real (price b (ch_endpoint c)).

(** The sum of the amounts of the charges a predicate selects. *)
Definition total_of (b : PriceBook) (p : Charge -> bool) (cs : list Charge) : Q :=
  qsum (map (fun c => if p c then ch_amount b c else 0) cs).

Lemma total_of_snoc b p cs c :
  total_of b p (cs ++ [c]) == total_of b p cs + (if p c then ch_amount b c else 0).
Proof. unfold total_of. rewrite map_app, qsum_app. simpl. lra. Qed.

Lemma total_of_ext b p q cs : Forall (fun c => p c = q c) cs -> total_of b p cs == total_of b q cs.
Proof. induction 1 as [|c cs Hc _ IH]; unfold total_of in *; simpl; [lra|]. rewrite Hc, IH. lra. Qed.

Definition by_agent (a : string) (c : Charge) : bool := String.eqb (ch_agent c) a.

Definition spent_by (b : PriceBook) (a : string) (c : Charge) : bool := by_agent a c && ch_real b c.

Definition on_day (b : PriceBook) (a : string) (d : Z) (c : Charge) : bool :=
  spent_by b a c && (day_bucket (ch_now c) =? d)%Z.

(** The account of [a] after the charges [cs]. *)
Record account_ok (b : PriceBook) (a : string) (cs : list Charge) (acct : AgentSpend) : Prop := {
  ac_spent : spent_usd acct == total_of b (spent_by b a) cs;
  ac_avoided : avoided_usd acct == total_of b (fun c => by_agent a c && negb (ch_real b c)) cs;
  ac_day : day_spent_usd acct == total_of b (on_day b a (day acct)) cs;
  ac_last : Forall (fun c => spent_by b a c = true -> (day_bucket (ch_now c) <= day acct)%Z) cs;
  ac_from : (exists c, c ∈ cs /\ spent_by b a c = true /\ day_bucket (ch_now c) = day acct) \/
            Forall (fun c => spent_by b a c = false) cs;
}.

Definition account (l : SpendLedger) (a : string) : AgentSpend :=
  from_option id (new_account a) (dget (sl_agents l) a).

Lemma total_of_later b a d cs :
  Forall (fun c => spent_by b a c = true -> (day_bucket (ch_now c) < d)%Z) cs -> total_of b (on_day b a d) cs == 0.
Proof.
  intros H. induction H as [|c cs Hc _ IH]; unfold total_of in *; simpl; [lra|]. rewrite IH.
  unfold on_day. destruct (spent_by b a c) eqn:E; [|simpl; lra]. specialize (Hc eq_refl). simpl.
  destruct (Z.eqb_spec (day_bucket (ch_now c)) d); [lia|lra].
Qed.

Lemma from_snoc b a cs c d :
  spent_by b a c = false ->
  (exists c, c ∈ cs /\ spent_by b a c = true /\ day_bucket (ch_now c) = d) \/
    Forall (fun c => spent_by b a c = false) cs ->
  (exists c', c' ∈ cs ++ [c] /\ spent_by b a c' = true /\ day_bucket (ch_now c') = d) \/
    Forall (fun c => spent_by b a c = false) (cs ++ [c]).
Proof.
  intros E [(c' & Hc & H)|H]; [left; exists c'; rewrite elem_of_app; auto|right].
  apply Forall_app. split; [done|]. by repeat constructor.
Qed.

(** Another caller's charge adds nothing to the account. *)
Lemma account_ok_other b a cs c acct :
  ch_agent c <> a -> account_ok b a cs acct -> account_ok b a (cs ++ [c]) acct.
Proof.
  intros Hne [H1 H2 H3 H4 H5]. assert (by_agent a c = false) as E.
  { unfold by_agent. by destruct (String.eqb_spec (ch_agent c) a). }
  assert (spent_by b a c = false) as E1 by (unfold spent_by; by rewrite E).
  assert (forall d, on_day b a d c = false) as E2 by (intros d; unfold on_day; by rewrite E1).
  split; rewrite ?total_of_snoc, ?E, ?E1, ?E2; cbn [andb]; try lra.
  - apply Forall_app. split; [done|]. constructor; [|done]. by rewrite E1.
  - by apply from_snoc.
Qed.

(** The caller's own charge, no earlier than the account's day. *)
Lemma account_ok_own b a cs c acct :
  ch_agent c = a -> (forall c', c' ∈ cs -> spent_by b a c' = true -> (day_bucket (ch_now c') <= day_bucket (ch_now c))%Z) ->
  account_ok b a cs acct ->
  account_ok b a (cs ++ [c])
    (book acct (price b (ch_endpoint c)) (ch_endpoint c) (ch_in c) (ch_out c) (ch_now c) (ch_n c)).2.
Proof.
  intros Ha Hl [H1 H2 H3 H4 H5]. assert (by_agent a c = true) as E by (unfold by_agent; by apply String.eqb_eq).
  assert (spent_by b a c = ch_real b c) as E1 by (unfold spent_by; by rewrite E).
  assert (forall d, on_day b a d c = ch_real b c && (day_bucket (ch_now c) =? d)%Z) as E2
    by (intros d; unfold on_day; by rewrite E1).
  unfold book. fold (ch_amount b c). change (real (price b (ch_endpoint c))) with (ch_real b c).
  destruct (ch_real b c) eqn:R; cbn [negb snd]; split; cbn [spent_usd avoided_usd day_spent_usd day];
    rewrite ?total_of_snoc, ?E, ?E1, ?E2, ?R; cbn [andb negb]; try lra.
  - rewrite Z.eqb_refl. destruct (Z.eqb_spec (day acct) (day_bucket (ch_now c))) as [Ed|Ed].
    + rewrite H3, Ed. lra.
    + assert (total_of b (on_day b a (day_bucket (ch_now c))) cs == 0) as ->; [|lra].
      apply total_of_later. rewrite Forall_forall in H4 |- *. intros c' Hc' Hs.
      specialize (H4 _ Hc' Hs). pose proof (Hl _ Hc' Hs).
      destruct H5 as [(c2 & Hc2 & Hs2 & Hd2)|H5].
      * specialize (Hl _ Hc2 Hs2). lia.
      * rewrite Forall_forall in H5. specialize (H5 _ Hc'). congruence.
  - apply Forall_app. split; [|by repeat constructor]. apply Forall_forall. intros c' Hc'. by apply Hl.
  - left. exists c. rewrite elem_of_app, E1. split; [right; by left|done].
  - apply Forall_app. split; [done|]. constructor; [|done]. by rewrite E1.
  - apply from_snoc; [by rewrite E1|done].
Qed.

Lemma charge_all_snoc l cs c :
  charge_all l (cs ++ [c]) =
  (spend_charge (charge_all l cs) (ch_agent c) (ch_endpoint c) (ch_in c) (ch_out c) (ch_now c) (ch_n c)).2.
Proof. unfold charge_all. by rewrite foldl_app. Qed.

Lemma spend_charge_account l c a :
  let l' := (spend_charge l (ch_agent c) (ch_endpoint c) (ch_in c) (ch_out c) (ch_now c) (ch_n c)).2 in
  prices l' = prices l /\
  account l' a = if decide (ch_agent c = a)
    then (book (account l a) (price (prices l) (ch_endpoint c)) (ch_endpoint c) (ch_in c) (ch_out c)
            (ch_now c) (ch_n c)).2
    else account l a.
Proof.
  unfold spend_charge, account. destruct (book _ _ _ _ _ _ _) as [amt acct] eqn:E. simpl.
  split; [done|]. rewrite dget_dset. case_decide as D; [|done]. subst. by rewrite E.
Qed.

(** Charges in the order of their days, as a clock that does not run back
    reports them. *)
Definition chronological (cs : list Charge) : Prop :=
  StronglySorted (fun c c' => (day_bucket (ch_now c) <= day_bucket (ch_now c'))%Z) cs.

Lemma chronological_snoc cs c :
  chronological (cs ++ [c]) ->
  chronological cs /\ (forall c', c' ∈ cs -> (day_bucket (ch_now c') <= day_bucket (ch_now c))%Z).
Proof.
  unfold chronological. induction cs as [|x cs IH]; simpl; intros H.
  - split; [constructor|]. intros c' Hc. by apply not_elem_of_nil in Hc.
  - inversion H as [|? ? H1 H2]; subst. destruct (IH H1) as [S1 S2]. apply Forall_app in H2 as [F1 F2].
    split; [by constructor|]. intros c' [->|Hc]%elem_of_cons; [by inversion F2|auto].
Qed.

Lemma charge_all_account b a cs :
  chronological cs ->
  let l := charge_all {| prices := b; sl_agents := [] |} cs in
  prices l = b /\ account_ok b a cs (account l a).
Proof.
  induction cs as [|c cs IH] using rev_ind; intros Hc.
  - split; [done|]. split; unfold total_of; simpl; [lra|lra|lra|by constructor|right; by constructor].
  - destruct (chronological_snoc _ _ Hc) as [Hc1 Hc2]. destruct (IH Hc1) as [Hp Hok]. clear IH.
    rewrite charge_all_snoc. set (l := charge_all _ cs) in *.
    destruct (spend_charge_account l c a) as [E1 E2]. rewrite Hp in E1, E2. split; [done|].
    rewrite E2. case_decide as D; [|by apply account_ok_other].
    apply account_ok_own; [done| |done]. intros c' Hin _. auto.
Qed.

Lemma charge_all_absent l cs a :
  dget (sl_agents (charge_all l cs)) a = None -> Forall (fun c => ch_agent c <> a) cs.
Proof.
  induction cs as [|c cs IH] using rev_ind; [constructor|]. rewrite charge_all_snoc.
  unfold spend_charge. destruct (book _ _ _ _ _ _ _) as [amt acct]. simpl. rewrite dget_dset.
  case_decide; [done|]. intros Hd. apply Forall_app. split; [auto|]. by repeat constructor.
Qed.

(** ** Properties *)

(** The live ledger agrees with the charge history.  Over any sequence of
    completions of any callers in clock order, a caller's spend today is the
    sum of the real costs of its own completions in today's bucket, so a cap
    crossed yesterday is gone today; its lifetime spend is the sum of its real
    costs, and imputed costs only ever land in the avoided total. *)
Theorem ledger_is_charge_history b a cs now :
  chronological cs -> Forall (fun c => (day_bucket (ch_now c) <= day_bucket now)%Z) cs ->
  let l := charge_all {| prices := b; sl_agents := [] |} cs in
  spent_today l a now == total_of b (on_day b a (day_bucket now)) cs /\
  spent_usd (account l a) == total_of b (spent_by b a) cs /\
  avoided_usd (account l a) == total_of b (fun c => by_agent a c && negb (ch_real b c)) cs.
Proof.
  intros Hc Hn l. destruct (charge_all_account b a cs Hc) as [_ [H1 H2 H3 H4 H5]]. fold l in H1, H2, H3, H4, H5.
  split; [|done]. unfold spent_today. unfold account in *.
  destruct (dget (sl_agents l) a) as [acct|] eqn:E; simpl in *.
  - destruct (Z.eqb_spec (day acct) (day_bucket now)) as [<-|Hd]; [done|]. symmetry. apply total_of_later.
    rewrite Forall_forall in H4, Hn |- *. intros c Hin Hs. specialize (H4 _ Hin Hs). pose proof (Hn _ Hin).
    destruct H5 as [(c2 & Hc2 & Hs2 & Hd2)|H5].
    + specialize (Hn _ Hc2). lia.
    + rewrite Forall_forall in H5. specialize (H5 _ Hin). congruence.
  - symmetry. apply total_of_later. apply charge_all_absent in E. rewrite Forall_forall in E |- *.
    intros c Hin Hs. destruct (E _ Hin). unfold spent_by, by_agent in Hs.
    by destruct (String.eqb_spec (ch_agent c) a).
Qed.

(** Precedence of prices: an operator's declaration wins whatever is
    discovered before or after it, a discovered price wins over the table, and
    an endpoint nobody priced costs no real money. *)
Theorem price_precedence b ep p obs :
  strip ep = ep ->
  price (foldl (fun b o => observe b o.1 o.2) (declare b ep p) obs) ep = p /\
  (dget (pb_declared b) ep = None -> price (observe b ep p) ep = p) /\
  (dget (pb_declared b) ep = None -> dget (pb_discovered b) ep = None -> real (price b ep) = false).
Proof.
  intros Hs. unfold price. rewrite Hs. split_and!.
  - assert (forall b', dget (pb_declared b') ep = Some p ->
      dget (pb_declared (foldl (fun b o => observe b o.1 o.2) b' obs)) ep = Some p) as H.
    { induction obs as [|o obs IH]; intros b' Hb; simpl; [done|]. by apply IH. }
    rewrite H; [done|]. simpl. by rewrite dget_dset_eq.
  - intros H. simpl. by rewrite H, dget_dset_eq.
  - intros H1 H2. rewrite H1, H2. unfold imputed_price. by destruct (cloud_rate ep).
Qed.

(** The names the rate table prices per token, or not at all. *)
Definition token_priced (endpoint : string) : bool :=
  match capability endpoint with
  | Some cap => dmem rates_by_class cap
  | None => true
  end.

(** The two readers of the rate table agree: for every endpoint priced per
    token (or unpriced) and any non-negative counts, the imputed price and
    [cloud_cost_usd] give the same amount, which is not negative. *)
Theorem imputed_price_agrees ep ti to :
  token_priced ep = true -> (0 <= tokens ti)%Z -> (0 <= tokens to)%Z ->
  cost_usd (imputed_price ep) ti to == cloud_cost_usd ep ti to /\ 0 <= cost_usd (imputed_price ep) ti to.
Proof.
  unfold token_priced, imputed_price, cloud_rate, cloud_cost_usd, cost_usd. intros Ht H1 H2.
  rewrite !Z.max_r by done. destruct (capability ep) as [cap|].
  - assert (forall c p, dget rates_by_class c = Some p -> c <> "" /\ 0 <= p.1 /\ 0 <= p.2) as Hr.
    { intros c p Hc%dget_elem. unfold rates_by_class in Hc.
      repeat (apply elem_of_cons in Hc as [Hc|Hc]; [simplify_eq; simpl; split_and!; [done|lra..]|]).
      by apply not_elem_of_nil in Hc. }
    rewrite Ht. apply dmem_true in Ht as [[ri ro] E]. destruct (Hr _ _ E) as (Hne & P1 & P2).
    destruct (String.eqb_spec cap ""); [done|]. rewrite E. cbn [negb andb from_option id fst snd] in *.
    cbn. split; [lra|].
    pose proof (per_million_nonneg _ ri H1 P1). pose proof (per_million_nonneg _ ro H2 P2). lra.
  - cbn. unfold per_million. split; lra.
Qed.

(** ** Witnesses *)

Definition demo_book : PriceBook :=
  declare {| pb_declared := []; pb_discovered := [] |} "remote"
    {| input_usd_per_mtok := 2; output_usd_per_mtok := 10; source := SOURCE_CONFIG |}.

Definition demo_charge (ep : string) (n : Z) (at_ : Q) : Charge :=
  {| ch_agent := "a"; ch_endpoint := ep; ch_in := Some n; ch_out := Some 0%Z; ch_now := at_; ch_n := 1 |}.

Definition demo_charges : list Charge :=
  [demo_charge "remote" 1000000 100; demo_charge "tier3" 1000000 200; demo_charge "remote" 500000 90000].

Lemma demo_chronological : chronological demo_charges.
Proof. repeat constructor; vm_compute; discriminate. Qed.

Lemma ledger_is_charge_history_witness :
  spent_today (charge_all {| prices := demo_book; sl_agents := [] |} demo_charges) "a" 90001
    == total_of demo_book (on_day demo_book "a" 1) demo_charges.
Proof.
  destruct (ledger_is_charge_history demo_book "a" demo_charges 90001) as [H _].
  - apply demo_chronological.
  - repeat constructor; vm_compute; discriminate.
  - exact H.
Defined.

Lemma price_precedence_witness :
  price (foldl (fun b o => observe b o.1 o.2) demo_book
           [("remote", {| input_usd_per_mtok := 7; output_usd_per_mtok := 7; source := SOURCE_PROVIDER |})]) "remote"
  = {| input_usd_per_mtok := 2; output_usd_per_mtok := 10; source := SOURCE_CONFIG |}.
Proof. apply price_precedence. reflexivity. Defined.

Lemma imputed_price_agrees_witness :
  cost_usd (imputed_price "thinker") (Some 1000%Z) (Some 10%Z) == cloud_cost_usd "thinker" (Some 1000%Z) (Some 10%Z).
Proof.
  apply (imputed_price_agrees "thinker" (Some 1000%Z) (Some 10%Z)).
  - reflexivity.
  - simpl; lia.
  - simpl; lia.
Defined.
