(* ===== verification/Policy.v ===== *)
(** * Request rates and the demotion policy (rate.py, state.py)

    [RateLedger]'s sliding windows, a caller's standing against its rate
    threshold, and the policy of [ProxyState] that joins spending and rate: one
    band down at most, no paid spill while over, and a notice the first time a
    threshold bites in a day. *)

From Stdlib Require Import QArith Qround Lqa Lia ZArith Permutation Sorted.
From stdpp Require Import base list strings.
From S2P Require Import Prelude PyDict PyText Config Spend.

Local Open Scope Q_scope.

(** ** RateLedger *)

Definition WINDOW_S : Q := 60.
Definition MAX_SAMPLES : nat := 4096.

Definition RateLedger : Type := dict string (list Q).

(** [_trim] *)
Definition trim (now : Q) (w : list Q) : list Q := drop_while (fun t => Qltb t (now - WINDOW_S)) w.

Definition window (l : RateLedger) (aid : string) : list Q := from_option id [] (dget l aid).

(** [RateLedger.record] *)
Definition record (l : RateLedger) (aid : string) (now : Q) : RateLedger :=
  let w := window l aid ++ [now] in
  let w := if (MAX_SAMPLES <? length w)%nat then tail w else w in
  dset l aid (trim now w).

(** [RateLedger.observed]: the rate, and the ledger with the window trimmed. *)
Definition observed (l : RateLedger) (aid : string) (now : Q) : Q * RateLedger :=
  match window l aid with
  | [] => (0, l)
  | w => let w' := trim now w in
         (inject_Z (Z.of_nat (length w')) * (60 / WINDOW_S), dset l aid w')
  end.

Definition forget (l : RateLedger) (aid : string) : RateLedger := ddel l aid.

(** [RateLedger.prune]: trim every window, drop the empty ones. *)
Definition prune (l : RateLedger) (now : Q) : Z * RateLedger :=
  let trimmed := dmap (trim now) l in
  let stale := map fst (filter (fun kw => kw.2 = []) trimmed) in
  (Z.of_nat (length stale), ddel_all trimmed stale).

Record RateStanding := {
  rs_agent_id : string;
  observed_per_min : Q;
  limit_per_min : option Q;
}.

(** [RateStanding.over] *)
Definition rate_over (s : RateStanding) : bool :=
  match limit_per_min s with
  | Some lim => Qltb lim (observed_per_min s)
  | None => false
  end.

(** [RateStanding.effective_priority] *)
Definition rate_effective (s : RateStanding) (declared : LLMPriority) : res LLMPriority :=
  if negb (rate_over s) then Ret declared else one_down declared.

(** ** The policy state of ProxyState *)

Inductive Component := C_spend | C_rate.

#[global] Instance Component_eq_dec : EqDecision Component.
Proof. solve_decision. Defined.

(** A [hooks.degradation] report: which threshold, which caller, which day. *)
Record Notice := {
  nt_component : Component;
  nt_agent : string;
  nt_day : Z;
}.

Record Policy := {
  ps_config : ProxyConfig;
  ps_spend : SpendLedger;
  ps_rate : RateLedger;
  ps_spend_noted : dict string Z;
  ps_rate_noted : dict string Z;
  ps_notices : list Notice;
}.

Definition ps_set_config (c : ProxyConfig) (s : Policy) : Policy :=
  {| ps_config := c; ps_spend := ps_spend s; ps_rate := ps_rate s; ps_spend_noted := ps_spend_noted s;
     ps_rate_noted := ps_rate_noted s; ps_notices := ps_notices s |}.

Definition ps_set_rate (r : RateLedger) (s : Policy) : Policy :=
  {| ps_config := ps_config s; ps_spend := ps_spend s; ps_rate := r; ps_spend_noted := ps_spend_noted s;
     ps_rate_noted := ps_rate_noted s; ps_notices := ps_notices s |}.

Definition ps_set_noted (sn rn : dict string Z) (ns : list Notice) (s : Policy) : Policy :=
  {| ps_config := ps_config s; ps_spend := ps_spend s; ps_rate := ps_rate s; ps_spend_noted := sn;
     ps_rate_noted := rn; ps_notices := ns |}.

(** [ProxyState.spend_standing], at the wall clock [now]. *)
Definition spend_standing (aid : string) (now : Q) : SE Policy SpendStanding :=
  s ← se_get;
  let '(acfg, cfg) := agent_config (ps_config s) aid in
  se_modify (ps_set_config cfg);;
  mret (spend_standing_of (ps_spend s) aid (daily_spend_usd acfg) now).

(** [ProxyState.rate_standing] *)
Definition rate_standing (aid : string) (now : Q) : SE Policy RateStanding :=
  s ← se_get;
  let '(acfg, cfg) := agent_config (ps_config s) aid in
  se_modify (ps_set_config cfg);;
  let '(obs, r) := observed (ps_rate s) aid now in
  se_modify (ps_set_rate r);;
  mret {| rs_agent_id := aid; observed_per_min := obs; limit_per_min := requests_per_minute acfg |}.

Definition record_request (aid : string) (now : Q) (s : Policy) : Policy :=
  ps_set_rate (record (ps_rate s) aid now) s.

(** [ProxyState.prune_rate_state] *)
Definition prune_rate_state (now : Q) (s : Policy) : Z * Policy :=
  let '(dropped, r) := prune (ps_rate s) now in
  let s := ps_set_rate r s in
  if (dropped =? 0)%Z then (dropped, s)
  else (dropped, ps_set_noted (ps_spend_noted s)
                   (ddel_all (ps_rate_noted s) (filter (fun a => dget r a = None) (dkeys (ps_rate_noted s))))
                   (ps_notices s) s).

(** [ProxyState.spend_may_spill]: the second standing is read only if the first
    allows. *)
Definition spend_may_spill (aid : string) (now : Q) : SE Policy bool :=
  ss ← spend_standing aid now;
  if spend_over ss then mret false
  else rs ← rate_standing aid now; mret (negb (rate_over rs)).

#[global] Program Instance rate_is_standing : Standing RateStanding := {|
  st_over := rate_over;
  st_effective := rate_effective;
|}.
Next Obligation.
  intros a p. unfold rate_effective. destruct (rate_over a); cbn [negb]; [apply one_down_spec|by exists p].
Qed.

(** [ProxyState.effective_priority]: the two standings are asked through what
    they have in common. *)
Definition effective_priority (aid : string) (declared : LLMPriority) (now : Q) : SE Policy LLMPriority :=
  ss ← spend_standing aid now;
  if st_over ss then se_lift (st_effective ss declared)
  else
    rs ← rate_standing aid now;
    if st_over rs then se_lift (st_effective rs declared) else mret declared.

(** The report of one crossed threshold, once per caller and day. *)
Definition note_once (over : bool) (comp : Component) (aid : string) (today : Z) (s : Policy) : Policy :=
  let noted := match comp with C_spend => ps_spend_noted s | C_rate => ps_rate_noted s end in
  if over && negb (bool_decide (dget noted aid = Some today)) then
    let n := {| nt_component := comp; nt_agent := aid; nt_day := today |} in
    match comp with
    | C_spend => ps_set_noted (dset (ps_spend_noted s) aid today) (ps_rate_noted s) (ps_notices s ++ [n]) s
    | C_rate => ps_set_noted (ps_spend_noted s) (dset (ps_rate_noted s) aid today) (ps_notices s ++ [n]) s
    end
  else s.

(** [ProxyState.spend_demote] *)
Definition spend_demote (aid : string) (declared : LLMPriority) (now : Q) : SE Policy LLMPriority :=
  ss ← spend_standing aid now;
  rs ← rate_standing aid now;
  effective ← effective_priority aid declared now;
  if bool_decide (effective = declared) then mret declared
  else
    let today := day_bucket now in
    se_modify (note_once (spend_over ss) C_spend aid today);;
    se_modify (note_once (rate_over rs) C_rate aid today);;
    mret effective.

(** ** Facts on windows *)

Definition recent (now t : Q) : bool := Qle_bool (now - WINDOW_S) t.

(** Requests in clock order. *)
Definition in_order (ts : list Q) : Prop := StronglySorted Qle ts.

Definition times_of (aid : string) (evs : list (string * Q)) : list Q :=
  map snd (filter (fun e => e.1 = aid) evs).

Definition record_all (evs : list (string * Q)) : RateLedger := foldl (fun l e => record l e.1 e.2) [] evs.

Definition count_recent (now : Q) (ts : list Q) : Z := Z.of_nat (length (filter (fun t => Is_true (recent now t)) ts)).

Lemma count_recent_app now l k : count_recent now (l ++ k) = (count_recent now l + count_recent now k)%Z.
Proof. unfold count_recent. rewrite filter_app, length_app. lia. Qed.

Lemma filter_everything {A} (P : A -> Prop) `{forall x, Decision (P x)} l : Forall P l -> filter P l = l.
Proof. induction 1; [done|]. rewrite filter_cons, decide_True by done. congruence. Qed.

(** On a window in clock order, trimming keeps exactly the recent entries. *)
Lemma trim_count now w : in_order w -> Z.of_nat (length (trim now w)) = count_recent now w.
Proof.
  unfold trim, count_recent, recent. induction 1 as [|t w Hs IH HF]; [done|]. cbn [drop_while].
  rewrite filter_cons. destruct (Qltb_spec t (now - WINDOW_S)) as [Hlt|Hge].
  - rewrite decide_False; [done|]. destruct (Qleb_spec (now - WINDOW_S) t); [lra|auto].
  - rewrite decide_True by (destruct (Qleb_spec (now - WINDOW_S) t); [done|lra]). simpl.
    rewrite filter_everything; [done|]. eapply Forall_impl; [exact HF|]. intros x Hx. simpl in Hx.
    by destruct (Qleb_spec (now - WINDOW_S) x); [|lra].
Qed.

Lemma times_of_snoc aid evs e :
  times_of aid (evs ++ [e]) = times_of aid evs ++ (if decide (e.1 = aid) then [e.2] else []).
Proof. unfold times_of. rewrite filter_app, map_app, filter_cons. by case_decide. Qed.

Lemma record_all_snoc evs e : record_all (evs ++ [e]) = record (record_all evs) e.1 e.2.
Proof. unfold record_all. by rewrite foldl_app. Qed.

Lemma window_record l aid now a :
  window (record l aid now) a =
  if decide (aid = a)
  then trim now (if (MAX_SAMPLES <? length (window l a ++ [now]))%nat then tail (window l a ++ [now])
                 else window l a ++ [now])
  else window l a.
Proof. unfold window, record. rewrite dget_dset. by case_decide; subst. Qed.

(** The window is the tail of the caller's requests; while no more than
    [MAX_SAMPLES] were made, everything dropped is out of the window. *)
Record window_ok (a : string) (evs : list (string * Q)) (w : list Q) : Prop := {
  wk_split : exists old, times_of a evs = old ++ w /\
    ((length (times_of a evs) <= MAX_SAMPLES)%nat ->
     forall now, Forall (fun e => e.2 <= now) evs -> count_recent now old = 0%Z);
}.

Lemma trim_split now w : exists old, w = old ++ trim now w /\ Forall (fun t => t < now - WINDOW_S) old.
Proof.
  exists (take_while (fun t => Qltb t (now - WINDOW_S)) w). split; [symmetry; apply take_drop_while|].
  eapply Forall_impl; [apply take_while_Forall|]. intros t Ht. simpl in Ht. by destruct (Qltb_spec t (now - WINDOW_S)).
Qed.

Lemma count_recent_zero now l : Forall (fun t => t < now - WINDOW_S) l -> count_recent now l = 0%Z.
Proof.
  unfold count_recent, recent. induction 1 as [|t l Ht _ IH]; [done|]. rewrite filter_cons, decide_False; [done|].
  destruct (Qleb_spec (now - WINDOW_S) t); [lra|auto].
Qed.

Lemma window_ok_record a evs w e :
  e.1 = a -> window_ok a evs w ->
  window_ok a (evs ++ [e])
    (trim e.2 (if (MAX_SAMPLES <? length (w ++ [e.2]))%nat then tail (w ++ [e.2]) else w ++ [e.2])).
Proof.
  intros Ha [(old & Hs & Hd)]. split. rewrite times_of_snoc, decide_True by done.
  set (w1 := if (_ <? _)%nat then _ else _).
  assert (exists cut, w ++ [e.2] = cut ++ w1 /\ ((length w < MAX_SAMPLES)%nat -> cut = [])) as (cut & Hc & Hn).
  { subst w1. rewrite length_app. cbn [length]. destruct (Nat.ltb_spec MAX_SAMPLES (length w + 1)).
    - destruct (w ++ [e.2]) as [|x k] eqn:E; [by destruct w|]. exists [x]. split; [done|]. lia.
    - by exists []. }
  destruct (trim_split e.2 w1) as (gone & Hg & Hold). exists (old ++ cut ++ gone). split.
  - rewrite Hs, <- !(assoc_L (++)), Hc. rewrite Hg at 1. done.
  - rewrite length_app. cbn [length]. intros Hlen now HF. apply Forall_app in HF as [HF1 HF2].
    apply Forall_cons in HF2 as [He _]. rewrite !count_recent_app, (Hd ltac:(lia) now HF1).
    rewrite Hs, length_app in Hlen. rewrite (Hn ltac:(lia)).
    rewrite (count_recent_zero now gone); [done|]. eapply Forall_impl; [exact Hold|]. intros t Ht. simpl in *. lra.
Qed.

Lemma window_ok_other a evs w e : e.1 <> a -> window_ok a evs w -> window_ok a (evs ++ [e]) w.
Proof.
  intros Ha [(old & Hs & Hd)]. split. rewrite times_of_snoc, decide_False, app_nil_r by done.
  exists old. split; [done|]. intros Hl now HF. apply Forall_app in HF as [HF _]. auto.
Qed.

Lemma record_all_ok a evs : window_ok a evs (window (record_all evs) a).
Proof.
  induction evs as [|e evs IH] using rev_ind.
  - split. exists []. done.
  - rewrite record_all_snoc, window_record. case_decide; [by apply window_ok_record|by apply window_ok_other].
Qed.

Lemma in_order_suffix l k : in_order (l ++ k) -> in_order k.
Proof. unfold in_order. induction l; simpl; [done|]. inversion 1; auto. Qed.

(** ** Properties of the ledger *)

(** The observed rate is the number of the caller's requests in the last
    minute: for callers' requests in clock order it never exceeds that number,
    and equals it as long as the caller has made no more requests than the
    window remembers. *)
Theorem observed_counts_last_minute a evs now :
  in_order (times_of a evs) -> Forall (fun e => e.2 <= now) evs ->
  let obs := (observed (record_all evs) a now).1 in
  obs <= inject_Z (count_recent now (times_of a evs)) /\
  ((length (times_of a evs) <= MAX_SAMPLES)%nat -> obs == inject_Z (count_recent now (times_of a evs))).
Proof.
  intros Ho HF obs. destruct (record_all_ok a evs) as [(old & Hs & Hd)].
  assert (obs == inject_Z (count_recent now (window (record_all evs) a))) as Eo.
  { subst obs. unfold observed. destruct (window (record_all evs) a) as [|t w] eqn:E; [done|].
    rewrite Hs in Ho. pose proof (trim_count now _ (in_order_suffix _ _ Ho)) as Ht. cbn [fst].
    rewrite Ht. assert (60 / WINDOW_S == 1) as -> by done. lra. }
  rewrite Hs, count_recent_app, Eo. split.
  - apply inject_Z_le. unfold count_recent. lia.
  - intros Hl. rewrite <- Hs in Hl. rewrite (Hd Hl now HF). done.
Qed.

(** ** What a standing is, without the reads' side effects *)

Definition spend_view (s : Policy) (aid : string) (now : Q) : SpendStanding :=
  spend_standing_of (ps_spend s) aid (daily_spend_usd (agent_view (ps_config s) aid)) now.

Definition rate_view (s : Policy) (aid : string) (now : Q) : RateStanding :=
  {| rs_agent_id := aid; observed_per_min := (observed (ps_rate s) aid now).1;
     limit_per_min := requests_per_minute (agent_view (ps_config s) aid) |}.

(** A read leaves every standing at its own time, the notes and the notices. *)
Record settled (now : Q) (s s' : Policy) : Prop := {
  se_agents : forall a, agent_view (ps_config s') a = agent_view (ps_config s) a;
  se_spend : ps_spend s' = ps_spend s;
  se_rate : forall a, (observed (ps_rate s') a now).1 == (observed (ps_rate s) a now).1;
  se_spend_noted : ps_spend_noted s' = ps_spend_noted s;
  se_rate_noted : ps_rate_noted s' = ps_rate_noted s;
  se_notices : ps_notices s' = ps_notices s;
}.

#[global] Instance settled_preorder now : PreOrder (settled now).
Proof.
  split; [by intros s; split|]. intros s1 s2 s3 [A1 A2 A3 A4 A5 A6] [B1 B2 B3 B4 B5 B6].
  split; try congruence. intros a. by rewrite B3, A3.
Qed.

Lemma settled_views now s s' aid :
  settled now s s' ->
  spend_view s' aid now = spend_view s aid now /\ rate_over (rate_view s' aid now) = rate_over (rate_view s aid now).
Proof.
  intros [Ha Hs Hr _ _ _]. unfold spend_view, rate_view, rate_over. simpl. rewrite Ha, Hs. split; [done|].
  case_match; [|done]. by rewrite Hr.
Qed.

Lemma drop_while_idem {A} (p : A -> bool) l : drop_while p (drop_while p l) = drop_while p l.
Proof. induction l as [|x l IH]; simpl; [done|]. destruct (p x) eqn:E; [done|]. simpl. by rewrite E. Qed.

Lemma observed_fst l a now :
  (observed l a now).1 = match window l a with
                         | [] => 0
                         | w => inject_Z (Z.of_nat (length (trim now w))) * (60 / WINDOW_S)
                         end.
Proof. unfold observed. by destruct (window l a). Qed.

Lemma observed_settled l aid now a : (observed (observed l aid now).2 a now).1 == (observed l a now).1.
Proof.
  rewrite !observed_fst. unfold observed. destruct (window l aid) as [|t w] eqn:E; [done|]. cbn [snd].
  unfold window at 1. rewrite dget_dset. case_decide as D; [|done]. subst. cbn [from_option id]. rewrite E.
  unfold trim at 1. destruct (drop_while _ (t :: w)) as [|t' w'] eqn:E'.
  - unfold trim. rewrite E'. done.
  - unfold trim. rewrite <- E', drop_while_idem. done.
Qed.

Lemma spend_standing_run aid now s :
  exists s', spend_standing aid now s = (Ret (spend_view s aid now), s') /\ settled now s s'.
Proof.
  unfold spend_standing. se_run. pose proof (agent_config_fst (ps_config s) aid) as Hf.
  pose proof (agent_view_default (ps_config s) aid) as Hv.
  destruct (agent_config (ps_config s) aid) as [acfg cfg]. se_run. simpl in Hf, Hv. subst acfg.
  eexists. split; [done|]. by split.
Qed.

Lemma rate_standing_run aid now s :
  exists s', rate_standing aid now s = (Ret (rate_view s aid now), s') /\ settled now s s'.
Proof.
  unfold rate_standing. se_run. pose proof (agent_config_fst (ps_config s) aid) as Hf.
  pose proof (agent_view_default (ps_config s) aid) as Hv. pose proof (observed_settled (ps_rate s) aid now) as Ho.
  destruct (agent_config (ps_config s) aid) as [acfg cfg]. se_run. simpl in Hf, Hv. subst acfg.
  unfold rate_view. destruct (observed (ps_rate s) aid now) as [obs r]. se_run.
  eexists. split; [done|]. by split.
Qed.

(** The caller is over at least one of its thresholds. *)
Definition over_any (s : Policy) (aid : string) (now : Q) : bool :=
  spend_over (spend_view s aid now) || rate_over (rate_view s aid now).

Lemma effective_priority_run aid declared now s :
  exists p s', effective_priority aid declared now s = (Ret p, s') /\ settled now s s' /\
    prio_int p = if over_any s aid now then Z.min (prio_int declared + 1) 4 else prio_int declared.
Proof.
  unfold effective_priority, over_any. rewrite run_bind.
  destruct (spend_standing_run aid now s) as (s1 & -> & H1).
  destruct (st_effective_spec (spend_view s aid now) declared) as (q & Hq & Hqi).
  destruct (st_over (spend_view s aid now)) eqn:Eo; cbn [st_over spend_is_standing] in Eo; rewrite Eo; cbn [orb].
  { exists q, s1. unfold se_lift. by rewrite Hq. }
  rewrite run_bind. destruct (rate_standing_run aid now s1) as (s2 & -> & H2).
  destruct (settled_views _ _ _ aid H1) as [_ Er].
  assert (settled now s s2) by (by etransitivity).
  destruct (st_effective_spec (rate_view s1 aid now) declared) as (q' & Hq' & Hqi').
  destruct (st_over (rate_view s1 aid now)) eqn:Eo'; cbn [st_over rate_is_standing] in Eo'; rewrite Er in Eo'; rewrite Eo'.
  - exists q', s2. unfold se_lift. by rewrite Hq'.
  - by exists declared, s2.
Qed.

(** ** Properties of the policy *)

(** Degradations do not stack and never refuse: whatever thresholds a
    caller has crossed, its priority drops by exactly one step, floored at the
    lowest, and with none crossed it is unchanged; the question always gets an
    answer. *)
Theorem demotion_is_one_step aid declared now s :
  exists p s', effective_priority aid declared now s = (Ret p, s') /\
    prio_int p = (if over_any s aid now then Z.min (prio_int declared + 1) 4 else prio_int declared) /\
    (band_rank (priority_to_band p) <= band_rank (priority_to_band declared) + 1)%Z.
Proof.
  destruct (effective_priority_run aid declared now s) as (p & s' & E & _ & Hp).
  exists p, s'. split_and!; [done|done|]. destruct (over_any s aid now); destruct p, declared; simpl in *; lia.
Qed.

(** Either threshold removes paid spill, and nothing else does. *)
Theorem may_spill_iff_inside_thresholds aid now s :
  exists s', spend_may_spill aid now s = (Ret (negb (over_any s aid now)), s').
Proof.
  unfold spend_may_spill, over_any. rewrite run_bind.
  destruct (spend_standing_run aid now s) as (s1 & -> & H1).
  destruct (spend_over (spend_view s aid now)); [by exists s1|]. rewrite run_bind.
  destruct (rate_standing_run aid now s1) as (s2 & -> & _).
  destruct (settled_views _ _ _ aid H1) as [_ ->]. by exists s2.
Qed.

(** *** Notices *)

(** The state of the notes after a demotion. *)
Lemma spend_demote_run aid declared now s :
  exists p s' s1, spend_demote aid declared now s = (Ret p, s') /\ settled now s s1 /\
    prio_int p = (if over_any s aid now then Z.min (prio_int declared + 1) 4 else prio_int declared) /\
    s' = (if bool_decide (p = declared) then s1
          else note_once (rate_over (rate_view s aid now)) C_rate aid (day_bucket now)
                 (note_once (spend_over (spend_view s aid now)) C_spend aid (day_bucket now) s1)).
Proof.
  unfold spend_demote. rewrite run_bind. destruct (spend_standing_run aid now s) as (s1 & -> & H1).
  rewrite run_bind. destruct (rate_standing_run aid now s1) as (s2 & -> & H2).
  rewrite run_bind. destruct (effective_priority_run aid declared now s2) as (p & s3 & -> & H3 & Hp).
  destruct (settled_views _ _ _ aid H1) as [_ Er]. rewrite Er.
  assert (settled now s s2) as H12 by by etransitivity.
  destruct (settled_views _ _ _ aid H12) as [E1 E2]. unfold over_any in Hp. rewrite E1, E2 in Hp.
  fold (over_any s aid now) in Hp. assert (settled now s s3) as H13 by by etransitivity.
  case_bool_decide as Ep.
  - subst p. exists declared, s3, s3. rewrite bool_decide_eq_true_2 by done. done.
  - se_run. exists p, (note_once (rate_over (rate_view s aid now)) C_rate aid (day_bucket now)
                 (note_once (spend_over (spend_view s aid now)) C_spend aid (day_bucket now) s3)), s3.
    rewrite bool_decide_eq_false_2 by done. done.
Qed.

Definition spend_notices (s : Policy) : list (string * Z) :=
  map (fun n => (nt_agent n, nt_day n)) (filter (fun n => nt_component n = C_spend) (ps_notices s)).

(** Every spend notice is recorded under its caller with a day at least as
    late, and no notice is repeated. *)
Record noted_ok (today : Z) (s : Policy) : Prop := {
  no_nodup : NoDup (spend_notices s);
  no_noted : forall a d, (a, d) ∈ spend_notices s ->
    exists d', dget (ps_spend_noted s) a = Some d' /\ (d <= d')%Z /\ (d' <= today)%Z;
}.

Lemma spend_notices_rate over aid today s :
  spend_notices (note_once over C_rate aid today s) = spend_notices s /\
  ps_spend_noted (note_once over C_rate aid today s) = ps_spend_noted s.
Proof.
  unfold note_once. destruct (over && _); [|done]. unfold spend_notices. simpl.
  split; [|done]. rewrite filter_app, map_app. simpl. by rewrite app_nil_r.
Qed.

Lemma noted_ok_note over aid today s : noted_ok today s -> noted_ok today (note_once over C_spend aid today s).
Proof.
  intros [Hn Hd]. unfold note_once. destruct over; cbn [andb]; [|done].
  case_bool_decide as Ed; cbn [negb]; [done|].
  set (s' := ps_set_noted _ _ _ s).
  assert (spend_notices s' = spend_notices s ++ [(aid, today)]) as E.
  { unfold spend_notices, s'. simpl. rewrite filter_app, map_app. done. }
  split; rewrite E.
  - apply NoDup_app. split_and!; [done| |apply NoDup_singleton]. intros [a d] Hin Hs%list_elem_of_singleton. simplify_eq.
    destruct (Hd _ _ Hin) as (d' & Hg & H1 & H2). apply Ed. rewrite Hg. f_equal. lia.
  - intros a d [Hin|Hs%list_elem_of_singleton]%elem_of_app; simplify_eq; unfold s'; cbn [ps_set_noted ps_spend_noted]; rewrite dget_dset.
    + case_decide; [|auto]. subst. exists today. split; [done|]. destruct (Hd _ _ Hin) as (d' & _ & H1 & H2). lia.
    + rewrite decide_True by done. exists today. split; [done|]. lia.
Qed.

Definition demote_all (s : Policy) (calls : list (string * LLMPriority * Q)) : Policy :=
  foldl (fun s c => (spend_demote c.1.1 c.1.2 c.2 s).2) s calls.

Lemma noted_ok_later today today' s : (today <= today')%Z -> noted_ok today s -> noted_ok today' s.
Proof.
  intros H [H1 H2]. split; [done|]. intros a d Hin. destruct (H2 _ _ Hin) as (d' & ? & ? & ?). exists d'. split; [done|]. lia.
Qed.

Lemma noted_ok_demote aid declared now s :
  noted_ok (day_bucket now) s -> noted_ok (day_bucket now) (spend_demote aid declared now s).2.
Proof.
  intros H. destruct (spend_demote_run aid declared now s) as (p & s' & s1 & E & [_ _ _ Hsn _ Hns] & _ & Hs').
  rewrite E. cbn [snd]. assert (noted_ok (day_bucket now) s1) as H1.
  { destruct H as [A B]. unfold spend_notices in *. split; unfold spend_notices; rewrite Hns, ?Hsn; done. }
  rewrite Hs'. case_bool_decide; [done|].
  apply (noted_ok_note (spend_over (spend_view s aid now)) aid) in H1. destruct H1 as [A B].
  set (t := note_once _ C_spend _ _ _) in *.
  destruct (spend_notices_rate (rate_over (rate_view s aid now)) aid (day_bucket now) t) as [E1 E2].
  split; rewrite ?E1, ?E2; done.
Qed.

Lemma demote_all_ok calls s day0 :
  StronglySorted (fun c c' => (day_bucket c.2 <= day_bucket c'.2)%Z) calls ->
  Forall (fun c => (day0 <= day_bucket c.2)%Z) calls -> noted_ok day0 s -> exists d, noted_ok d (demote_all s calls).
Proof.
  revert s day0. induction calls as [|c calls IH]; intros s day0 Hs HF H; cbn [demote_all foldl]; [eauto|].
  inversion Hs as [|? ? Hs1 Hs2]; subst. apply Forall_cons in HF as [Hc _].
  apply (IH _ (day_bucket c.2) Hs1 Hs2). apply noted_ok_demote. by eapply noted_ok_later.
Qed.

(** A caller is reported at most once a day for crossing its spend cap,
    however many of its requests are demoted and whoever else is demoted in
    between. *)
Theorem spend_notice_once_a_day s calls :
  ps_notices s = [] -> StronglySorted (fun c c' => (day_bucket c.2 <= day_bucket c'.2)%Z) calls ->
  NoDup (spend_notices (demote_all s calls)).
Proof.
  intros Hn Hs. destruct calls as [|c calls]; [unfold spend_notices; simpl; rewrite Hn; constructor|].
  destruct (demote_all_ok (c :: calls) s (day_bucket c.2)) as [d Hd]; [done| | |apply Hd].
  - inversion Hs; subst. by constructor.
  - split; unfold spend_notices; rewrite Hn; [constructor|]. intros a d H. by apply not_elem_of_nil in H.
Qed.

(** Pruning forgets no live caller: it drops exactly the callers with no
    request in the last minute, and changes nobody's observed rate. *)
Theorem prune_keeps_rates l now a :
  dwf l ->
  (observed (prune l now).2 a now).1 == (observed l a now).1 /\
  (dget (prune l now).2 a = None <-> trim now (window l a) = []).
Proof.
  intros Hw. unfold prune. cbn [snd]. set (tr := dmap (trim now) l).
  set (stale := map fst (filter (fun kw => kw.2 = []) tr)).
  assert (dwf tr) as Hw' by by apply dwf_dmap.
  assert (a ∈ stale <-> dget tr a = Some []) as Hst.
  { unfold stale. rewrite list_elem_of_fmap. split.
    - intros ([k v] & -> & [Hv Hin]%list_elem_of_filter). simpl in *. subst. by apply elem_dget.
    - intros H. exists (a, []). split; [done|]. apply list_elem_of_filter. split; [done|]. by apply dget_elem. }
  assert (dget tr a = trim now <$> dget l a) as Et by apply dget_dmap.
  rewrite !observed_fst, dget_ddel_all by done. unfold window. rewrite dget_ddel_all by done.
  destruct (decide (a ∈ stale)) as [Hin|Hout].
  - apply Hst in Hin. rewrite Et in Hin. apply fmap_Some in Hin as (w & Ew & Hw0). rewrite Ew. cbn [from_option id].
    split; [|done]. destruct w; [done|]. rewrite <- Hw0. done.
  - rewrite Et. destruct (dget l a) as [w|] eqn:Ew; cbn [fmap option_fmap option_map from_option id].
    + assert (trim now w <> []) as Hne by (intros E; apply Hout, Hst; rewrite Et; simpl; by rewrite E).
      split; [|by split]. destruct (trim now w) as [|t w'] eqn:E; [done|]. destruct w as [|t0 w0]; [done|].
      cbn [fst]. assert (trim now (t :: w') = t :: w') as -> by (rewrite <- E; apply drop_while_idem).
      rewrite E. lra.
    + split; [lra|done].
Qed.

(** ** Witnesses *)

Local Open Scope string_scope.

Definition demo_events : list (string * Q) := [("a", 1); ("b", 2); ("a", 50); ("a", 100)].

Lemma observed_counts_last_minute_witness :
  (observed (record_all demo_events) "a" 105).1 == inject_Z (count_recent 105 (times_of "a" demo_events)).
Proof.
  destruct (observed_counts_last_minute "a" demo_events 105) as [_ H].
  - repeat constructor; unfold Qle; simpl; lia.
  - repeat constructor; unfold Qle; simpl; lia.
  - apply H. apply Nat.leb_le. vm_compute. reflexivity.
Defined.

Definition capped_agent : AgentQuotaConfig :=
  {| aq_agent_id := "a"; weight := 1; max_balance_ss := 60; default_priority := P1_TURN_SUPPORT;
     degrade_ok := false; spill_ok := true; daily_spend_usd := Some 0; requests_per_minute := Some 2;
     content_no_store := false |}.

Definition demo_policy : Policy :=
  {| ps_config := {| endpoints := []; agents := [("a", capped_agent)] |};
     ps_spend := {| prices := demo_book; sl_agents := [] |}; ps_rate := record_all demo_events;
     ps_spend_noted := []; ps_rate_noted := []; ps_notices := [] |}.

Definition demo_calls : list (string * LLMPriority * Q) :=
  [("a", P1_TURN_SUPPORT, 105); ("b", P1_TURN_SUPPORT, 106); ("a", P2_POST_TURN, 107)].

Lemma spend_notice_once_a_day_witness : NoDup (spend_notices (demote_all demo_policy demo_calls)).
Proof.
  apply (spend_notice_once_a_day demo_policy demo_calls).
  - reflexivity.
  - repeat constructor; vm_compute; discriminate.
Defined.

(** The run above does report [a] once, and demotes it by one step. *)
Example demo_demotion :
  (spend_demote "a" P1_TURN_SUPPORT 105 demo_policy).1 = Ret P2_POST_TURN /\
  spend_notices (demote_all demo_policy demo_calls) = [("a", 0%Z)].
Proof. by vm_compute. Qed.

Lemma prune_keeps_rates_witness :
  (observed (prune (record_all demo_events) 200).2 "a" 200).1 == (observed (record_all demo_events) "a" 200).1.
Proof.
  apply prune_keeps_rates. apply (bool_decide_unpack _). vm_compute. done.
Defined.
