(* ===== verification/Failover.v ===== *)
(** * Endpoint health and failover (health.py, failover.py)

    [Health.endpoint_healthy] over the state it reads, and [Failover]: the
    usable source/target pairs, the degraded-mode state machine driven by
    [refresh], the admission gates of [plan], the re-pointing of a request by
    [apply] and the refusal counters.  The wording of log lines and of a
    refusal's detail clause is left out; refusal codes are kept. *)

From Stdlib Require Import QArith Lqa Lia ZArith.
From stdpp Require Import base list strings gmap.
From S2P Require Import Prelude PyDict PyText Config Json Cost Queue Budget Scheduler.

Local Open Scope string_scope.

(** ** endpoint_healthy *)

(** What the health verdict reads.  [hs_manages] is the on-demand manager's
    membership test, [hs_roles] the catalog's role table. *)
Record HealthState := {
  hs_roles : dict string string;
  hs_paused : gset string;
  hs_cooldown_enabled : bool;
  hs_cooldown_until : dict string Q;
  hs_collapsed : gset string;
  hs_collapse_enforce : bool;
  hs_manages : string -> bool;
  hs_probe : dict string bool;
}.

Definition endpoint_healthy (h : HealthState) (now : Q) (endpoint : string) : bool :=
  let ep := normalize_endpoint (hs_roles h) endpoint in
  if bool_decide (ep ∈ hs_paused h) then false
  else if hs_cooldown_enabled h &&
          (let until := from_option id 0%Q (dget (hs_cooldown_until h) ep) in
           negb (Qeq_bool until 0) && Qltb now until) then false
  else if bool_decide (ep ∈ hs_collapsed h) && hs_collapse_enforce h then false
  else if hs_manages h ep then true
  else from_option id true (dget (hs_probe h) ep).

(** ** The failover state *)

Record FailState := {
  fs_config : ProxyConfig;
  fs_degraded : gset string;
  fs_since : dict string Q;
  fs_rerouted : dict string Z;
  fs_refused : dict string (dict string Z);
}.

Definition fs_set_config (c : ProxyConfig) (s : FailState) : FailState :=
  {| fs_config := c; fs_degraded := fs_degraded s; fs_since := fs_since s;
     fs_rerouted := fs_rerouted s; fs_refused := fs_refused s |}.

Definition fs_set_mode (d : gset string) (t : dict string Q) (s : FailState) : FailState :=
  {| fs_config := fs_config s; fs_degraded := d; fs_since := t;
     fs_rerouted := fs_rerouted s; fs_refused := fs_refused s |}.

Definition CODE_NOT_OPTED_IN : string := "degraded_not_opted_in".
Definition CODE_CONTEXT_OVERFLOW : string := "degraded_context_overflow".

Record FailoverPlan := {
  fp_target : option string;
  fp_refusal_code : option string;
}.

Definition no_plan : FailoverPlan := {| fp_target := None; fp_refusal_code := None |}.
Definition refuse (code : string) : FailoverPlan := {| fp_target := None; fp_refusal_code := Some code |}.

(** The condition of [Failover.pairs]. *)
Definition usable_target (h : HealthState) (c : ProxyConfig) (cfg : EndpointConfig) : bool :=
  negb (String.eqb (failover_to cfg) "") && dmem (endpoints c) (failover_to cfg) &&
  negb (hs_manages h (failover_to cfg)).

Definition pairs (h : HealthState) (c : ProxyConfig) : dict string string :=
  map (fun e => (e.1, failover_to e.2)) (filter (fun e => Is_true (usable_target h c e.2)) (endpoints c)).

Definition is_degraded (h : HealthState) (s : FailState) (endpoint : string) : bool :=
  bool_decide (normalize_endpoint (hs_roles h) endpoint ∈ fs_degraded s).

(** One pair of the [refresh] loop; [sched] answers [degraded_inflight]. *)
Definition refresh_pair (h : HealthState) (sched : Sched) (now : Q) (s : FailState) (p : string * string)
  : FailState :=
  let '(src, tgt) := p in
  let src_healthy := endpoint_healthy h now src in
  if bool_decide (src ∈ fs_degraded s) then
    if negb src_healthy then s
    else
      let dwell := from_option failover_dwell_s 0%Q (dget (endpoints (fs_config s)) src) in
      let since := from_option id now (dget (fs_since s) src) in
      if negb (degraded_inflight sched src =? 0)%Z then s
      else if Qltb (now - since)%Q dwell then s
      else fs_set_mode (fs_degraded s ∖ {[src]}) (ddel (fs_since s) src) s
  else
    if src_healthy || negb (endpoint_healthy h now tgt) then s
    else fs_set_mode ({[src]} ∪ fs_degraded s) (dset (fs_since s) src now) s.

(** [Failover.refresh] *)
Definition refresh (h : HealthState) (sched : Sched) (now : Q) (s : FailState) : FailState :=
  foldl (refresh_pair h sched now) s (pairs h (fs_config s)).

(** [Failover.plan] *)
Definition plan (h : HealthState) (now : Q) (req : QueuedRequest) : SE FailState FailoverPlan :=
  s ← se_get;
  let src := normalize_endpoint (hs_roles h) (r_endpoint req) in
  let tgt := from_option id "" (dget (pairs h (fs_config s)) src) in
  if String.eqb tgt "" || negb (bool_decide (src ∈ fs_degraded s)) then mret no_plan
  else if negb (endpoint_healthy h now tgt) then mret no_plan
  else
    let '(acfg, cfg) := agent_config (fs_config s) (r_agent_id req) in
    se_modify (fs_set_config cfg);;
    if negb (degrade_ok acfg) then mret (refuse CODE_NOT_OPTED_IN)
    else if bool_decide (r_allow_degrade req = Some false) then mret (refuse CODE_NOT_OPTED_IN)
    else
      match dget (endpoints (fs_config s)) tgt with
      | None => se_lift (Raise KeyError)
      | Some tgt_cfg =>
          fit ← se_lift (context_fit (r_payload req) (r_payload_type req) (context_per_slot tgt_cfg));
          if negb (fits fit) then mret (refuse CODE_CONTEXT_OVERFLOW)
          else mret {| fp_target := Some tgt; fp_refusal_code := None |}
      end.

(** [Failover.apply]; the result is the request as re-pointed. *)
Definition apply (h : HealthState) (req : QueuedRequest) (target : string) : SE FailState QueuedRequest :=
  s ← se_get;
  let src := normalize_endpoint (hs_roles h) (r_endpoint req) in
  match dget (endpoints (fs_config s)) target with
  | None => se_lift (Raise KeyError)
  | Some tgt_cfg =>
      se_modify (fun s =>
        {| fs_config := fs_config s; fs_degraded := fs_degraded s; fs_since := fs_since s;
           fs_rerouted := dset (fs_rerouted s) src (from_option id 0%Z (dget (fs_rerouted s) src) + 1)%Z;
           fs_refused := fs_refused s |});;
      mret (moved req (Some src) (r_spilled_from req) target (context_per_slot tgt_cfg))
  end.

(** [Failover.record_refusal] *)
Definition record_refusal (h : HealthState) (req : QueuedRequest) (p : FailoverPlan) (s : FailState) : FailState :=
  match fp_refusal_code p with
  | None => s
  | Some code =>
      let src := if str_truthy (r_degraded_from req) then from_option id "" (r_degraded_from req)
                 else normalize_endpoint (hs_roles h) (r_endpoint req) in
      let by_code := from_option id [] (dget (fs_refused s) src) in
      {| fs_config := fs_config s; fs_degraded := fs_degraded s; fs_since := fs_since s;
         fs_rerouted := fs_rerouted s;
         fs_refused := dset (fs_refused s) src
                         (dset by_code code (from_option id 0%Z (dget by_code code) + 1)%Z) |}
  end.

(** ** Facts *)

Lemma pairs_get h c src :
  dwf (endpoints c) ->
  dget (pairs h c) src = match dget (endpoints c) src with
                         | Some cfg => if usable_target h c cfg then Some (failover_to cfg) else None
                         | None => None
                         end.
Proof.
  unfold pairs, dwf, dict. generalize (usable_target h c) as u. intros u.
  induction (endpoints c) as [|[k v] d IH]; [done|]. cbn [dkeys map fst]. intros [Hk Hw]%NoDup_cons.
  rewrite filter_cons. cbn [dget snd fst]. destruct (u v) eqn:E.
  - rewrite decide_True by done. cbn [map dget fst snd]. case_decide as D; [by rewrite E|auto].
  - rewrite decide_False by auto. rewrite IH by done. case_decide as D; [|done]. subst.
    destruct (dget d src) eqn:G; [|by rewrite E]. exfalso. apply Hk. by eapply dget_Some_keys.
Qed.

Lemma pairs_wf h c : dwf (endpoints c) -> NoDup (map fst (pairs h c)).
Proof.
  unfold pairs, dwf, dkeys. rewrite map_map. simpl. intros H.
  eapply sublist_NoDup; [exact H|]. apply fmap_sublist. apply sublist_filter.
Qed.

Lemma refresh_pair_config h sched now s p : fs_config (refresh_pair h sched now s p) = fs_config s.
Proof. destruct p. unfold refresh_pair. repeat case_match; done. Qed.

(** A pair's step changes no other endpoint. *)
Lemma refresh_pair_other h sched now s p src :
  p.1 <> src ->
  (src ∈ fs_degraded (refresh_pair h sched now s p) <-> src ∈ fs_degraded s) /\
  (dwf (fs_since s) -> dget (fs_since (refresh_pair h sched now s p)) src = dget (fs_since s) src).
Proof.
  destruct p as [a b]. simpl. intros Hne. unfold refresh_pair. repeat case_match; simpl; try done.
  - split; [rewrite elem_of_difference, elem_of_singleton; naive_solver|].
    intros. rewrite dget_ddel by done. by rewrite decide_False.
  - split; [rewrite elem_of_union, elem_of_singleton; naive_solver|]. intros. by rewrite dget_dset_ne.
Qed.

Lemma refresh_pair_wf h sched now s p : dwf (fs_since s) -> dwf (fs_since (refresh_pair h sched now s p)).
Proof. destruct p. unfold refresh_pair. repeat case_match; simpl; auto with roadstead. Qed.

Lemma refresh_others h sched now l s src :
  src ∉ map fst l -> dwf (fs_since s) ->
  (src ∈ fs_degraded (foldl (refresh_pair h sched now) s l) <-> src ∈ fs_degraded s) /\
  dget (fs_since (foldl (refresh_pair h sched now) s l)) src = dget (fs_since s) src.
Proof.
  revert s. induction l as [|p l IH]; intros s Hn Hw; simpl; [done|]. cbn [map] in Hn.
  apply not_elem_of_cons in Hn as [Hp Hn].
  destruct (refresh_pair_other h sched now s p src) as [H1 H2]; [congruence|].
  destruct (IH (refresh_pair h sched now s p) Hn (refresh_pair_wf _ _ _ _ _ Hw)) as [H3 H4].
  rewrite H3, H4, H1, (H2 Hw). done.
Qed.

(** What [refresh] does to one endpoint is what its own pair's step does. *)
Lemma refresh_at h sched now s src tgt :
  dwf (endpoints (fs_config s)) -> dwf (fs_since s) -> dget (pairs h (fs_config s)) src = Some tgt ->
  (src ∈ fs_degraded (refresh h sched now s) <-> src ∈ fs_degraded (refresh_pair h sched now s (src, tgt))) /\
  dget (fs_since (refresh h sched now s)) src = dget (fs_since (refresh_pair h sched now s (src, tgt))) src.
Proof.
  intros Hw Hs Hp. unfold refresh. pose proof (pairs_wf h (fs_config s) Hw) as Hn.
  apply dget_elem, list_elem_of_split in Hp as (l1 & l2 & E). rewrite E in *.
  rewrite map_app in Hn. simpl in Hn. apply NoDup_app in Hn as (_ & Hx & Hn2).
  apply NoDup_cons in Hn2 as [Hn2 _].
  assert (src ∉ map fst l1) as Hn1. { intros H. apply (Hx _ H). by left. }
  rewrite foldl_app. cbn [foldl]. set (s1 := foldl (refresh_pair h sched now) s l1).
  destruct (refresh_others h sched now l1 s src Hn1 Hs) as [A1 A2]. fold s1 in A1, A2.
  assert (dwf (fs_since s1)) as Hw1.
  { subst s1. clear -Hs. revert s Hs. induction l1; simpl; auto using refresh_pair_wf. }
  assert (fs_config s1 = fs_config s) as Ec.
  { subst s1. clear. revert s. induction l1 as [|p l IH]; intros s; simpl; [done|].
    by rewrite IH, refresh_pair_config. }
  destruct (refresh_others h sched now l2 (refresh_pair h sched now s1 (src, tgt)) src Hn2
    (refresh_pair_wf _ _ _ _ _ Hw1)) as [B1 B2].
  rewrite B1, B2. clear B1 B2. unfold refresh_pair. rewrite Ec, A2, (bool_decide_ext _ _ A1).
  repeat case_match; simpl; try done; rewrite ?A1.
  - split; [set_solver|]. rewrite !dget_ddel by done. by rewrite !decide_True.
  - split; [set_solver|]. by rewrite !dget_dset_eq.
Qed.

Lemma refresh_config h sched now s : fs_config (refresh h sched now s) = fs_config s.
Proof.
  unfold refresh. generalize (pairs h (fs_config s)) as l. intros l. revert s.
  induction l as [|p l IH]; intros s; simpl; [done|]. by rewrite IH, refresh_pair_config.
Qed.

Lemma refresh_wf h sched now s : dwf (fs_since s) -> dwf (fs_since (refresh h sched now s)).
Proof.
  unfold refresh. generalize (pairs h (fs_config s)) as l. intros l. revert s.
  induction l; simpl; auto using refresh_pair_wf.
Qed.

(** Everything [refresh] needs to end an endpoint's degradation. *)
Definition recovered (h : HealthState) (sched : Sched) (now : Q) (s : FailState) (src : string) : Prop :=
  endpoint_healthy h now src = true /\ degraded_inflight sched src = 0%Z /\
  (from_option failover_dwell_s 0%Q (dget (endpoints (fs_config s)) src)
     <= now - from_option id now (dget (fs_since s) src))%Q.

(** The cases of one endpoint's step. *)
Lemma refresh_cases h sched now s src tgt :
  dwf (endpoints (fs_config s)) -> dwf (fs_since s) -> dget (pairs h (fs_config s)) src = Some tgt ->
  let s' := refresh h sched now s in
  (src ∉ fs_degraded s /\ endpoint_healthy h now src = false /\ endpoint_healthy h now tgt = true /\
     src ∈ fs_degraded s' /\ dget (fs_since s') src = Some now) \/
  (src ∈ fs_degraded s /\ recovered h sched now s src /\ src ∉ fs_degraded s' /\ dget (fs_since s') src = None) \/
  ((src ∉ fs_degraded s -> endpoint_healthy h now src = true \/ endpoint_healthy h now tgt = false) /\
   (src ∈ fs_degraded s -> ~ recovered h sched now s src) /\
   (src ∈ fs_degraded s' <-> src ∈ fs_degraded s) /\ dget (fs_since s') src = dget (fs_since s) src).
Proof.
  intros Hw Hs Hp s'. destruct (refresh_at h sched now s src tgt Hw Hs Hp) as [H1 H2]. fold s' in H1, H2.
  rewrite H1, H2. clear H1 H2 s'. unfold refresh_pair, recovered.
  case_bool_decide as Hd.
  - right. destruct (endpoint_healthy h now src); cbn [negb]; [|right; split_and!; done || naive_solver].
    destruct (Z.eqb_spec (degraded_inflight sched src) 0); cbn [negb]; [|right; split_and!; done || naive_solver].
    destruct (Qltb_spec (now - from_option id now (dget (fs_since s) src))
                (from_option failover_dwell_s 0%Q (dget (endpoints (fs_config s)) src))) as [Hl|Hl].
    + right. split_and!; try done. intros _ (_ & _ & Hd'). lra.
    + left. cbn [fs_set_mode fs_degraded fs_since]. split_and!; try done.
      * rewrite elem_of_difference, elem_of_singleton. tauto.
      * rewrite dget_ddel by done. by rewrite decide_True.
  - destruct (endpoint_healthy h now src); cbn [orb]; [right; right; split_and!; done || naive_solver|].
    destruct (endpoint_healthy h now tgt); cbn [negb]; [left|right; right; split_and!; done || naive_solver].
    cbn [fs_set_mode fs_degraded fs_since]. split_and!; try done.
    + rewrite elem_of_union, elem_of_singleton. by left.
    + apply dget_dset_eq.
Qed.

(** ** Properties *)

(** The degraded-mode state machine.  A refresh puts a source into degraded
    mode exactly when it is unhealthy and its target is healthy, takes it out
    exactly when it is healthy again, its degraded cohort has drained and the
    dwell has elapsed, and otherwise leaves it as it was. *)
Theorem refresh_transitions h sched now s src tgt :
  dwf (endpoints (fs_config s)) -> dwf (fs_since s) -> dget (pairs h (fs_config s)) src = Some tgt ->
  (src ∈ fs_degraded (refresh h sched now s) <->
   (src ∉ fs_degraded s /\ endpoint_healthy h now src = false /\ endpoint_healthy h now tgt = true) \/
   (src ∈ fs_degraded s /\ ~ recovered h sched now s src)).
Proof.
  intros Hw Hs Hp.
  destruct (refresh_cases h sched now s src tgt Hw Hs Hp) as
    [(H1 & H2 & H3 & H4 & _)|[(H1 & H2 & H3 & _)|(H1 & H2 & H3 & _)]].
  - tauto.
  - tauto.
  - rewrite H3. split; [tauto|]. intros [(Hn & E1 & E2)|[]]; [|done]. destruct (H1 Hn); congruence.
Qed.

(** One call of [refresh] with what it saw. *)
Definition Look : Type := HealthState * Sched * Q.

Definition refresh_all (s : FailState) (looks : list Look) : FailState :=
  foldl (fun s l => refresh l.1.1 l.1.2 l.2 s) s looks.

Lemma refresh_all_config looks s : fs_config (refresh_all s looks) = fs_config s.
Proof.
  revert s. induction looks as [|l looks IH]; intros s; cbn [refresh_all foldl]; [done|].
  unfold refresh_all in IH. by rewrite IH, refresh_config.
Qed.

Lemma refresh_all_wf looks s : dwf (fs_since s) -> dwf (fs_since (refresh_all s looks)).
Proof. revert s. induction looks; simpl; auto using refresh_wf. Qed.

(** While degraded, the stamp is the time of an earlier look at which the source
    was unhealthy and its target healthy. *)
Lemma degraded_stamp s looks src tgt :
  dwf (endpoints (fs_config s)) -> dwf (fs_since s) -> src ∉ fs_degraded s ->
  Forall (fun l => dget (pairs l.1.1 (fs_config s)) src = Some tgt) looks ->
  src ∈ fs_degraded (refresh_all s looks) ->
  exists l, l ∈ looks /\ dget (fs_since (refresh_all s looks)) src = Some l.2 /\
    endpoint_healthy l.1.1 l.2 src = false /\ endpoint_healthy l.1.1 l.2 tgt = true.
Proof.
  intros Hw Hs Hn. induction looks as [|l looks IH] using rev_ind; intros HF; [done|].
  apply Forall_app in HF as [HF Hl]. apply Forall_cons in Hl as [Hl _].
  unfold refresh_all in *. rewrite foldl_app. cbn [foldl].
  set (s1 := foldl _ s looks) in *. fold (refresh_all s looks) in s1.
  assert (fs_config s1 = fs_config s) as Ec by apply refresh_all_config.
  assert (dwf (fs_since s1)) as Hs1 by by apply refresh_all_wf.
  rewrite <- Ec in Hl, Hw. intros Hd.
  destruct (refresh_cases l.1.1 l.1.2 l.2 s1 src tgt Hw Hs1 Hl) as
    [(H1 & H2 & H3 & H4 & H5)|[(_ & _ & H3 & _)|(_ & _ & H3 & H4)]].
  - exists l. rewrite elem_of_app. split; [right; by left|done].
  - done.
  - destruct (IH HF (proj1 H3 Hd)) as (l0 & Hin & E & R). exists l0. rewrite elem_of_app, H4. auto.
Qed.

(** Minimum dwell.  Along any sequence of refreshes, whatever health and
    load they see, an endpoint leaves degraded mode only at a look at which it
    is healthy and drained, at least its dwell after the look at which it
    entered, which saw it unhealthy with a healthy target. *)
Theorem degraded_mode_dwells s looks l src tgt cfg :
  dwf (endpoints (fs_config s)) -> dwf (fs_since s) -> src ∉ fs_degraded s ->
  dget (endpoints (fs_config s)) src = Some cfg ->
  Forall (fun l => dget (pairs l.1.1 (fs_config s)) src = Some tgt) (looks ++ [l])%list ->
  src ∈ fs_degraded (refresh_all s looks) -> src ∉ fs_degraded (refresh_all s (looks ++ [l])%list) ->
  endpoint_healthy l.1.1 l.2 src = true /\ degraded_inflight l.1.2 src = 0%Z /\
  exists l0, l0 ∈ looks /\ endpoint_healthy l0.1.1 l0.2 src = false /\
    endpoint_healthy l0.1.1 l0.2 tgt = true /\ (failover_dwell_s cfg <= l.2 - l0.2)%Q.
Proof.
  intros Hw Hs Hn Hc HF Hd Hl. apply Forall_app in HF as [HF Hp]. apply Forall_cons in Hp as [Hp _].
  destruct (degraded_stamp s looks src tgt Hw Hs Hn HF Hd) as (l0 & Hin & E & R1 & R2).
  unfold refresh_all in Hl. rewrite foldl_app in Hl. cbn [foldl] in Hl. fold (refresh_all s looks) in Hl.
  set (s1 := refresh_all s looks) in *. assert (fs_config s1 = fs_config s) as Ec by apply refresh_all_config.
  assert (dwf (fs_since s1)) as Hs1 by by apply refresh_all_wf. rewrite <- Ec in Hp, Hw.
  destruct (refresh_cases l.1.1 l.1.2 l.2 s1 src tgt Hw Hs1 Hp) as
    [(H1 & _)|[(_ & (G1 & G2 & G3) & _)|(_ & _ & H3 & _)]]; [done| |tauto].
  split_and!; [done|done|]. exists l0. rewrite Ec, Hc, E in G3. simpl in G3. done.
Qed.

(** [refresh] is idempotent: repeating it with the same health, load and
    clock changes nothing. *)
Theorem refresh_idempotent h sched now s src :
  dwf (endpoints (fs_config s)) -> dwf (fs_since s) ->
  let s' := refresh h sched now s in
  (src ∈ fs_degraded (refresh h sched now s') <-> src ∈ fs_degraded s') /\
  dget (fs_since (refresh h sched now s')) src = dget (fs_since s') src.
Proof.
  intros Hw Hs s'. assert (fs_config s' = fs_config s) as Ec by apply refresh_config.
  assert (dwf (fs_since s')) as Hs' by by apply refresh_wf.
  destruct (dget (pairs h (fs_config s)) src) as [tgt|] eqn:Hp.
  - assert (dget (pairs h (fs_config s')) src = Some tgt) as Hp' by by rewrite Ec.
    assert (dwf (endpoints (fs_config s'))) as Hw' by by rewrite Ec.
    pose proof (refresh_cases h sched now s' src tgt Hw' Hs' Hp') as R2.
    pose proof (refresh_cases h sched now s src tgt Hw Hs Hp) as R1. fold s' in R1.
    destruct R2 as [(A1 & A2 & A3 & A4 & A5)|[(A1 & (A2 & A3 & A4) & A5 & A6)|(_ & _ & A3 & A4)]]; [| |done].
    + exfalso. destruct R1 as [(B1 & _ & _ & B4 & _)|[(_ & (B2 & _) & _)|(B1 & B2 & B3 & _)]]; [done|congruence|].
      rewrite B3 in A1. destruct (B1 A1); congruence.
    + exfalso. destruct R1 as [(_ & B2 & _)|[(_ & _ & B3 & _)|(B1 & B2 & B3 & B4)]]; [congruence|done|].
      rewrite B3 in A1. apply (B2 A1). unfold recovered in *. rewrite Ec, B4 in A4. done.
  - assert (src ∉ map fst (pairs h (fs_config s'))) as Hn.
    { rewrite Ec. by apply dget_None. }
    apply refresh_others; [exact Hn|done].
Qed.

(** The gates of a reroute to [tgt]. *)
Definition may_reroute (h : HealthState) (now : Q) (s : FailState) (req : QueuedRequest) (tgt : string) : Prop :=
  let src := normalize_endpoint (hs_roles h) (r_endpoint req) in
  dget (pairs h (fs_config s)) src = Some tgt /\ src ∈ fs_degraded s /\ endpoint_healthy h now tgt = true /\
  degrade_ok (agent_view (fs_config s) (r_agent_id req)) = true /\ r_allow_degrade req <> Some false /\
  exists tc f, dget (endpoints (fs_config s)) tgt = Some tc /\
    context_fit (r_payload req) (r_payload_type req) (context_per_slot tc) = Ret f /\ fits f = true.

Lemma pairs_target h c src tgt :
  dwf (endpoints c) -> dget (pairs h c) src = Some tgt ->
  tgt <> "" /\ is_Some (dget (endpoints c) tgt) /\ hs_manages h tgt = false.
Proof.
  intros Hw. rewrite pairs_get by done. destruct (dget (endpoints c) src) as [cfg|]; [|done].
  destruct (usable_target h c cfg) eqn:E; [|done]. intros [= <-]. unfold usable_target in E.
  apply andb_true_iff in E as [E E3]. apply andb_true_iff in E as [E1 E2].
  split_and!; [|by apply dmem_true|by destruct (hs_manages h (failover_to cfg))].
  by destruct (String.eqb_spec (failover_to cfg) "").
Qed.

(** What planning for [req] in [s] has done when it returned [p] and [s']. *)
Definition planned (h : HealthState) (now : Q) (req : QueuedRequest) (s : FailState) (p : FailoverPlan)
    (s' : FailState) : Prop :=
  fs_degraded s' = fs_degraded s /\ fs_since s' = fs_since s /\
  fs_rerouted s' = fs_rerouted s /\ fs_refused s' = fs_refused s /\
  (forall tgt, fp_target p = Some tgt <-> may_reroute h now s req tgt) /\
  (forall tgt, fp_target p = Some tgt -> hs_manages h tgt = false /\ fp_refusal_code p = None).

(** An outcome without a target, when some gate is closed. *)
Lemma planned_none h now req s p cfg :
  fp_target p = None -> (forall tgt, ~ may_reroute h now s req tgt) ->
  planned h now req s p (fs_set_config cfg s).
Proof.
  intros Hp Hn. unfold planned. rewrite Hp. split_and!; try done.
  intros tgt. split; [done|]. intros H. by apply Hn in H.
Qed.

Lemma fs_set_config_same s : fs_set_config (fs_config s) s = s.
Proof. by destruct s. Qed.

Lemma context_fit_answers payload t lim :
  is_ret (estimate_input_tokens payload) = true -> exists f, context_fit payload t lim = Ret f.
Proof.
  intros H. unfold context_fit. destruct (_ || _); [eauto|].
  destruct (estimate_input_tokens payload); [simpl; eauto|done].
Qed.

Lemma plan_planned h now req s :
  dwf (endpoints (fs_config s)) -> is_ret (estimate_input_tokens (r_payload req)) = true ->
  exists p s', plan h now req s = (Ret p, s') /\ planned h now req s p s'.
Proof.
  intros Hw He. unfold plan. se_run. set (src := normalize_endpoint (hs_roles h) (r_endpoint req)).
  destruct (dget (pairs h (fs_config s)) src) as [tgt|] eqn:Hp; cbn [from_option id].
  2: { exists no_plan, (fs_set_config (fs_config s) s). rewrite fs_set_config_same at 1. split; [done|].
    apply planned_none; [done|]. intros tgt (E & _). fold src in E. congruence. }
  destruct (pairs_target h _ _ _ Hw Hp) as (Hne & [tc Htc] & Hm).
  assert (forall t, may_reroute h now s req t -> t = tgt) as Ht.
  { intros t (E & _). fold src in E. congruence. }
  destruct (String.eqb_spec tgt ""); [done|]. cbn [orb].
  case_bool_decide as Hd; cbn [negb].
  2: { exists no_plan, (fs_set_config (fs_config s) s). rewrite fs_set_config_same at 1. split; [done|].
    apply planned_none; [done|]. intros t (_ & E & _). done. }
  destruct (endpoint_healthy h now tgt) eqn:Hh; cbn [negb].
  2: { exists no_plan, (fs_set_config (fs_config s) s). rewrite fs_set_config_same at 1. split; [done|].
    apply planned_none; [done|]. intros t Hr. pose proof (Ht _ Hr). subst. destruct Hr as (_ & _ & E & _). congruence. }
  pose proof (agent_config_fst (fs_config s) (r_agent_id req)) as Hf.
  destruct (agent_config (fs_config s) (r_agent_id req)) as [acfg cfg]. simpl in Hf. se_run.
  destruct (degrade_ok acfg) eqn:Hk; cbn [negb].
  2: { do 2 eexists. split; [done|]. apply planned_none; [done|]. intros t (_ & _ & _ & E & _). congruence. }
  case_bool_decide as Ha.
  { do 2 eexists. split; [done|]. apply planned_none; [done|]. intros t (_ & _ & _ & _ & E & _). done. }
  rewrite Htc. se_run. destruct (context_fit_answers _ (r_payload_type req) (context_per_slot tc) He) as [f Ef].
  rewrite Ef. destruct (fits f) eqn:Hfit; cbn [negb]; do 2 eexists; (split; [done|]).
  - split_and!; try done; cbn [fp_target fp_refusal_code].
    + intros t. split; [intros [= <-]|intros Hr; by rewrite (Ht _ Hr)].
      unfold may_reroute. fold src. rewrite <- Hf. split_and!; try done. by exists tc, f.
    + by intros t [= <-].
  - apply planned_none; [done|]. intros t Hr. pose proof (Ht _ Hr). subst.
    destruct Hr as (_ & _ & _ & _ & _ & tc' & f' & E1 & E2 & E3). congruence.
Qed.

(** A plan reroutes a request exactly when every gate is open: the source is
    degraded, its declared target is configured, loaded and healthy, the
    operator opted the caller in, the request did not decline, and the request
    fits the target's context.  It never plans onto an on-demand endpoint, and
    planning changes neither the mode nor the counters. *)
Theorem plan_reroutes_iff h now req s :
  dwf (endpoints (fs_config s)) ->
  is_ret (estimate_input_tokens (r_payload req)) = true ->
  exists p s', plan h now req s = (Ret p, s') /\
    fs_degraded s' = fs_degraded s /\ fs_since s' = fs_since s /\
    fs_rerouted s' = fs_rerouted s /\ fs_refused s' = fs_refused s /\
    (forall tgt, fp_target p = Some tgt <-> may_reroute h now s req tgt) /\
    (forall tgt, fp_target p = Some tgt -> hs_manages h tgt = false /\ fp_refusal_code p = None).
Proof. intros Hw He. apply (plan_planned h now req s Hw He). Qed.

(** ** Witnesses *)

(** A small tier-3 endpoint that fails over to tier 2. *)
Definition fo_ep (name target : string) : EndpointConfig :=
  {| endpoint_class := name; role := name; max_slots := 2; context_per_slot := 4096; min_expected_slots := 0;
     failover_to := target; goodput_min_running := 0; goodput_sustain_evaluations := 0;
     goodput_max_iteration_rate := 0; goodput_max_generation_tps := 0; goodput_max_prefill_tps := 0;
     goodput_recovery_evaluations := 0; goodput_max_hold_s := 0; goodput_busy_min := 0;
     failover_dwell_s := 60; spill_to := ""; background_floor_pct := 1 # 4;
     fast_path_reserve_slots := 0; dispatch_concurrency_cap := 0 |}.

Definition fo_agent : AgentQuotaConfig :=
  {| aq_agent_id := "a"; weight := 1; max_balance_ss := 60; default_priority := P1_TURN_SUPPORT;
     degrade_ok := true; spill_ok := false; daily_spend_usd := None; requests_per_minute := None;
     content_no_store := false |}.

Definition fo_config : ProxyConfig :=
  {| endpoints := [("tier3", fo_ep "tier3" "tier2"); ("tier2", fo_ep "tier2" "")]; agents := [("a", fo_agent)] |}.

Definition fo_health (up : bool) : HealthState :=
  {| hs_roles := []; hs_paused := ∅; hs_cooldown_enabled := false; hs_cooldown_until := []; hs_collapsed := ∅;
     hs_collapse_enforce := false; hs_manages := fun _ => false; hs_probe := [("tier3", up); ("tier2", true)] |}.

Definition fo_sched : Sched :=
  init_sched fo_config [] {| bm_agents := []; bm_starvation_timeout_s := 30; bm_total_capacity := 4; bm_last_waits := [] |}.

Definition fo_state : FailState :=
  {| fs_config := fo_config; fs_degraded := ∅; fs_since := []; fs_rerouted := []; fs_refused := [] |}.

Lemma fo_wf : dwf (endpoints (fs_config fo_state)) /\ dwf (fs_since fo_state).
Proof. split; apply (bool_decide_unpack _); vm_compute; done. Qed.

Lemma refresh_transitions_witness :
  "tier3" ∈ fs_degraded (refresh (fo_health false) fo_sched 10 fo_state).
Proof.
  apply (refresh_transitions (fo_health false) fo_sched 10 fo_state "tier3" "tier2").
  - apply fo_wf.
  - apply fo_wf.
  - reflexivity.
  - left. split; [|split; reflexivity]. apply (bool_decide_unpack _). vm_compute. done.
Defined.

Definition fo_looks : list Look := [(fo_health false, fo_sched, 10%Q); (fo_health true, fo_sched, 20%Q)].

(** Down at 10, up at 20 (too soon), still up at 80: it leaves at 80. *)
Lemma degraded_mode_dwells_witness :
  exists l0, l0 ∈ fo_looks /\ (60 <= 80 - l0.2)%Q.
Proof.
  destruct (degraded_mode_dwells fo_state fo_looks (fo_health true, fo_sched, 80%Q) "tier3" "tier2"
              (fo_ep "tier3" "tier2")) as (_ & _ & l0 & H1 & _ & _ & H4).
  - apply fo_wf.
  - apply fo_wf.
  - apply (bool_decide_unpack _). vm_compute. done.
  - reflexivity.
  - repeat constructor.
  - apply (bool_decide_unpack _). vm_compute. done.
  - apply (bool_decide_unpack _). vm_compute. done.
  - exists l0. split; assumption.
Defined.

Lemma refresh_idempotent_witness :
  let s' := refresh (fo_health false) fo_sched 10 fo_state in
  "tier3" ∈ fs_degraded (refresh (fo_health false) fo_sched 10 s') <-> "tier3" ∈ fs_degraded s'.
Proof. apply refresh_idempotent; apply fo_wf. Defined.

Lemma plan_reroutes_iff_witness :
  exists p s', plan (fo_health false) 10 (demo_req "r" "a" "tier3" INTERACTIVE 1 100)
                 (refresh (fo_health false) fo_sched 10 fo_state) = (Ret p, s') /\
    fs_rerouted s' = [].
Proof.
  destruct (plan_reroutes_iff (fo_health false) 10 (demo_req "r" "a" "tier3" INTERACTIVE 1 100)
              (refresh (fo_health false) fo_sched 10 fo_state)) as (p & s' & E & _ & _ & H & _).
  - apply fo_wf.
  - reflexivity.
  - exists p, s'. split; [exact E|]. rewrite H. reflexivity.
Defined.

Example demo_reroute :
  (plan (fo_health false) 10 (demo_req "r" "a" "tier3" INTERACTIVE 1 100)
     (refresh (fo_health false) fo_sched 10 fo_state)).1
  = Ret {| fp_target := Some "tier2"; fp_refusal_code := None |}.
Proof. by vm_compute. Qed.
