(* ===== verification/Goodput.v ===== *)
(** * Goodput-collapse detection (goodput.py; health.py, [sample_goodput])

    The endpoint-level detector: per-endpoint rings of counter samples, the
    three-valued verdict over the trailing window, the trip latch, and the
    handler of the capacity poller that feeds them and keeps the set of
    collapsed endpoints that [endpoint_healthy] reads.  Counter names, clause
    names and blindness reasons, strings in the source, are inductive types
    here.  Probe answers are inputs; log lines are left out. *)

From Stdlib Require Import QArith Qround Lqa Lia ZArith.
From stdpp Require Import base list strings gmap.
From S2P Require Import Prelude PyDict PyText Config.

Local Open Scope Q_scope.

(** ** Data *)

Inductive Counter := K_iterations | K_generation | K_prompt | K_running | K_busy.

#[global] Instance Counter_eq_dec : EqDecision Counter.
Proof. solve_decision. Defined.

Definition CUMULATIVE_KEYS : list Counter := [K_iterations; K_generation; K_prompt].
Definition GAUGE_KEYS : list Counter := [K_running].
Definition GAUGE_FLOAT_KEYS : list Counter := [K_busy].

Definition RING_CAPACITY : Z := 6.
Definition RATE_WINDOW_S : Q := 25.
Definition MIN_SAMPLES : nat := 2.
Definition MIN_WINDOW_S : Q := 5.
Definition RECOVERY_EVALUATIONS : Z := 2.
Definition MAX_HOLD_S : Q := 300.

Inductive Verdict := HEALTHY | COLLAPSED | UNKNOWN.

#[global] Instance Verdict_eq_dec : EqDecision Verdict.
Proof. solve_decision. Defined.

(** [LatchAction]; [NONE] is spelled [STAY]. *)
Inductive LatchAction := STAY | TRIP | CLEAR.

#[global] Instance LatchAction_eq_dec : EqDecision LatchAction.
Proof. solve_decision. Defined.

Inductive Clause :=
| CLAUSE_OCCUPANCY
| CLAUSE_ITERATIONS
| CLAUSE_GENERATION
| CLAUSE_PREFILL
| CLAUSE_ENGINE_IDLE.

#[global] Instance Clause_eq_dec : EqDecision Clause.
Proof. solve_decision. Defined.

Record GoodputThresholds := {
  min_running : Z;
  sustain_evaluations : Z;
  max_iteration_rate : option Q;
  max_generation_tps_per_request : option Q;
  max_prefill_tps : option Q;
  busy_min : Q;
  recovery_evaluations : Z;
  max_hold_s : Q;
}.

(** [x is not None and x > 0] *)
Definition declared (o : option Q) : bool :=
  match o with
  | Some q => Qltb 0 q
  | None => false
  end.

Definition progress_clauses (t : GoodputThresholds) : list Clause :=
  (if declared (max_iteration_rate t) then [CLAUSE_ITERATIONS] else []) ++
  (if declared (max_generation_tps_per_request t) then [CLAUSE_GENERATION] else []) ++
  (if declared (max_prefill_tps t) then [CLAUSE_PREFILL] else []) ++
  (if Qltb 0 (busy_min t) then [CLAUSE_ENGINE_IDLE] else []).

Definition armed (t : GoodputThresholds) : bool :=
  (1 <=? min_running t)%Z && (1 <=? sustain_evaluations t)%Z && negb (bool_decide (progress_clauses t = [])).

Definition effective_recovery_evaluations (t : GoodputThresholds) : Z :=
  if (recovery_evaluations t =? 0)%Z then RECOVERY_EVALUATIONS else recovery_evaluations t.

Definition effective_max_hold_s (t : GoodputThresholds) : Q :=
  if Qeq_bool (max_hold_s t) 0 then MAX_HOLD_S else max_hold_s t.

(** Why a verdict is [UNKNOWN]; [R_none] is the empty string. *)
Inductive Reason :=
| R_none
| R_not_configured
| R_no_samples
| R_too_few_samples
| R_window_too_short
| R_counter_reset
| R_counters_absent (ks : list Counter)
| R_rate_unavailable (c : Clause).

Record GoodputVerdict := {
  outcome : Verdict;
  gv_samples : Z;
  window_s : Q;
  running_min : option Q;
  running_mean : option Q;
  iteration_rate : option Q;
  generation_tps : option Q;
  generation_tps_per_request : option Q;
  prefill_tps : option Q;
  busy_max : option Q;
  clauses_held : list Clause;
  clauses_cleared : list Clause;
  reason : Reason;
}.

Record Sample := {
  s_ts : Q;
  s_values : dict Counter (option Q);
}.

Record LatchState := {
  consecutive_collapsed : Z;
  consecutive_healthy : Z;
  tripped_at : Q;
  latch_trips : Z;
}.

Definition new_latch : LatchState :=
  {| consecutive_collapsed := 0; consecutive_healthy := 0; tripped_at := 0; latch_trips := 0 |}.

Record GoodputMonitor := {
  gm_ring_capacity : Z;
  gm_rate_window_s : Q;
  gm_rings : dict string (list Sample);
  gm_latches : dict string LatchState;
}.

(** [GoodputMonitor.__init__] *)
Definition new_monitor (ring_capacity : Z) (rate_window : Q) : GoodputMonitor :=
  {| gm_ring_capacity := Z.max (Z.of_nat MIN_SAMPLES) ring_capacity; gm_rate_window_s := rate_window;
     gm_rings := []; gm_latches := [] |}.

Definition set_rings (r : dict string (list Sample)) (m : GoodputMonitor) : GoodputMonitor :=
  {| gm_ring_capacity := gm_ring_capacity m; gm_rate_window_s := gm_rate_window_s m;
     gm_rings := r; gm_latches := gm_latches m |}.

Definition set_latches (l : dict string LatchState) (m : GoodputMonitor) : GoodputMonitor :=
  {| gm_ring_capacity := gm_ring_capacity m; gm_rate_window_s := gm_rate_window_s m;
     gm_rings := gm_rings m; gm_latches := l |}.

(** ** Observation *)

(** [counters.get(key)] of a scrape that may have failed. *)
Definition scraped (counters : option (dict Counter (option Q))) (k : Counter) : option Q :=
  match counters with
  | None => None
  | Some d => from_option id None (dget d k)
  end.

Definition sample_of (ts : Q) (counters : option (dict Counter (option Q))) : Sample :=
  let ints := foldl (fun d k => dset d k ((fun q => inject_Z (Qtrunc q)) <$> scraped counters k)) []
                    (CUMULATIVE_KEYS ++ GAUGE_KEYS) in
  {| s_ts := ts; s_values := foldl (fun d k => dset d k (scraped counters k)) ints GAUGE_FLOAT_KEYS |}.

(** [observe] *)
Definition observe (ep : string) (ts : Q) (counters : option (dict Counter (option Q)))
    (m : GoodputMonitor) : GoodputMonitor :=
  let ring := from_option id [] (dget (gm_rings m) ep) in
  set_rings (dset (gm_rings m) ep
               (append_maxlen (Z.to_nat (gm_ring_capacity m)) ring (sample_of ts counters))) m.

(** [forget] *)
Definition forget_endpoint (ep : string) (m : GoodputMonitor) : GoodputMonitor :=
  set_latches (ddel (gm_latches m) ep) (set_rings (ddel (gm_rings m) ep) m).

Definition trips (m : GoodputMonitor) (ep : string) : Z :=
  match dget (gm_latches m) ep with
  | Some l => latch_trips l
  | None => 0
  end.

Definition tripped_for_s (m : GoodputMonitor) (ep : string) (now : Q) : option Q :=
  match dget (gm_latches m) ep with
  | None => None
  | Some l => if Qeq_bool (tripped_at l) 0 then None else Some (pymax 0 (now - tripped_at l))
  end.

(** ** The verdict *)

(** [sample.values.get(key)] *)
Definition read (k : Counter) (s : Sample) : option Q := from_option id None (dget (s_values s) k).

(** The inner loop of [_reset_detected], over the readings of one counter. *)
Fixpoint goes_back (prev : option Q) (l : list (option Q)) : bool :=
  match l with
  | [] => false
  | None :: l' => goes_back None l'
  | Some cur :: l' =>
      match prev with
      | Some p => if Qltb cur p then true else goes_back (Some cur) l'
      | None => goes_back (Some cur) l'
      end
  end.

Definition reset_detected (w : list Sample) : bool :=
  existsb (fun k => goes_back None (map (read k) w)) CUMULATIVE_KEYS.

Definition needed_keys (c : Clause) : list Counter :=
  match c with
  | CLAUSE_OCCUPANCY => [K_running]
  | CLAUSE_ITERATIONS => [K_iterations]
  | CLAUSE_GENERATION => [K_generation; K_running]
  | CLAUSE_PREFILL => [K_prompt]
  | CLAUSE_ENGINE_IDLE => [K_busy]
  end.

(** [dict.fromkeys(l)], iterated. *)
Definition fromkeys (l : list Counter) : list Counter := dkeys (foldl (fun d k => dset d k tt) [] l).

Definition absent_in (w : list Sample) (k : Counter) : bool :=
  existsb (fun s => bool_decide (read k s = None)) w.

Definition missing_counters (w : list Sample) (clauses : list Clause) : list Counter :=
  filter (fun k => Is_true (absent_in w k)) (fromkeys (concat (map needed_keys clauses))).

(** [window[0]] and [window[-1]] *)
Definition first_last (w : list Sample) : res (Sample * Sample) :=
  match head w, last w with
  | Some f, Some l => Ret (f, l)
  | _, _ => Raise IndexError
  end.

Definition rate (w : list Sample) (k : Counter) (span : Q) : res (option Q) :=
  if Qle_bool span 0 then Ret None
  else
    '(f, l) ← first_last w;
    match read k f, read k l with
    | Some a, Some b => Ret (Some ((b - a) / span))
    | _, _ => Ret None
    end.

(** [min(l)] and [max(l)] of a list of floats. *)
Definition list_extreme (pick : Q -> Q -> Q) (l : list Q) : res Q :=
  match l with
  | [] => Raise ValueError
  | x :: l' => Ret (foldl pick x l')
  end.

Definition max_level (w : list Sample) (k : Counter) : res (option Q) :=
  if absent_in w k then Ret None
  else q ← list_extreme pymax (omap (read k) w); Ret (Some q).

(** [float(s.values["running"])] over the window: a missing reading raises. *)
Fixpoint runnings (w : list Sample) : res (list Q) :=
  match w with
  | [] => Ret []
  | s :: w' =>
      match dget (s_values s) K_running with
      | None => Raise KeyError
      | Some None => Raise TypeError
      | Some (Some q) => l ← runnings w'; Ret (q :: l)
      end
  end.

(** The loop over the clause table: [inl c] is the early return for a clause
    whose value is not computable. *)
Fixpoint judge (progress : list Clause) (terms : list (Clause * option Q * option Q))
    (held cleared : list Clause) : res (Clause + list Clause * list Clause) :=
  match terms with
  | [] => Ret (inr (held, cleared))
  | (c, v, ceiling) :: terms' =>
      if negb (bool_decide (c ∈ progress)) then judge progress terms' held cleared
      else
        match v, ceiling with
        | None, _ => Ret (inl c)
        | Some _, None => Raise TypeError
        | Some x, Some y =>
            if Qltb x y then judge progress terms' (held ++ [c]) cleared
            else judge progress terms' held (cleared ++ [c])
        end
  end.

(** [None if generation_tps is None or running_mean <= 0 else ...] *)
Definition per_request (gen : option Q) (rmean : Q) : option Q :=
  match gen with
  | Some g => if Qle_bool rmean 0 then None else Some (g / rmean)
  | None => None
  end.

(** A verdict with no rates. *)
Definition blind (samples : Z) (window : Q) (rmin rmean : option Q) (r : Reason) : GoodputVerdict :=
  {| outcome := UNKNOWN; gv_samples := samples; window_s := window; running_min := rmin; running_mean := rmean;
     iteration_rate := None; generation_tps := None; generation_tps_per_request := None; prefill_tps := None;
     busy_max := None; clauses_held := []; clauses_cleared := []; reason := r |}.

Definition window_of (m : GoodputMonitor) (ring : list Sample) (now : Q) : list Sample :=
  filter (fun s => Is_true (Qle_bool (now - s_ts s) (gm_rate_window_s m))) ring.

(** The part of [evaluate] after the blindness checks: pure. *)
Definition weigh (t : GoodputThresholds) (w : list Sample) (span : Q) : res GoodputVerdict :=
  let n := Z.of_nat (length w) in
  rs ← runnings w;
  rmin ← list_extreme pymin rs;
  let rmean := qsum rs / inject_Z n in
  it ← rate w K_iterations span;
  pre ← rate w K_prompt span;
  gen ← rate w K_generation span;
  let per_req := per_request gen rmean in
  busy ← max_level w K_busy;
  let report o held cleared :=
    {| outcome := o; gv_samples := n; window_s := py_round 3 span; running_min := Some rmin;
       running_mean := Some (py_round 2 rmean); iteration_rate := py_round 4 <$> it;
       generation_tps := py_round 3 <$> gen; generation_tps_per_request := py_round 3 <$> per_req;
       prefill_tps := py_round 2 <$> pre; busy_max := py_round 2 <$> busy;
       clauses_held := held; clauses_cleared := cleared; reason := R_none |} in
  if Qltb rmin (inject_Z (min_running t)) then Ret (report HEALTHY [] [CLAUSE_OCCUPANCY])
  else
    j ← judge (progress_clauses t)
          [(CLAUSE_ITERATIONS, it, max_iteration_rate t);
           (CLAUSE_GENERATION, per_req, max_generation_tps_per_request t);
           (CLAUSE_PREFILL, pre, max_prefill_tps t);
           (CLAUSE_ENGINE_IDLE, busy, Some (busy_min t))]
          [CLAUSE_OCCUPANCY] [];
    match j with
    | inl c => Ret (blind n (py_round 3 span) (Some rmin) (Some (py_round 2 rmean)) (R_rate_unavailable c))
    | inr (held, cleared) =>
        let collapsed := bool_decide (length held = S (length (progress_clauses t))) in
        Ret (report (if collapsed then COLLAPSED else HEALTHY) held cleared)
    end.

(** [evaluate] *)
Definition evaluate (ep : string) (t : GoodputThresholds) (now : Q) : SE GoodputMonitor GoodputVerdict :=
  if negb (armed t) then mret (blind 0 0 None None R_not_configured)
  else
    m ← se_get;
    let ring := from_option id [] (dget (gm_rings m) ep) in
    if bool_decide (length ring = 0%nat) then mret (blind 0 0 None None R_no_samples)
    else
      let w := window_of m ring now in
      let n := Z.of_nat (length w) in
      if (length w <? MIN_SAMPLES)%nat then mret (blind n 0 None None R_too_few_samples)
      else
        '(f, l) ← se_lift (first_last w);
        let span := s_ts l - s_ts f in
        if Qltb span MIN_WINDOW_S then mret (blind n (py_round 3 span) None None R_window_too_short)
        else if reset_detected w then
          '(_, newest) ← se_lift (first_last ring);
          se_modify (set_rings (dset (gm_rings m) ep [newest]));;
          mret (blind n (py_round 3 span) None None R_counter_reset)
        else
          let missing := missing_counters w (CLAUSE_OCCUPANCY :: progress_clauses t) in
          if negb (bool_decide (missing = [])) then
            mret (blind n (py_round 3 span) None None (R_counters_absent missing))
          else se_lift (weigh t w span).

(** ** The latch *)

(** The body of [step] on the endpoint's latch. *)
Definition latch_step (t : GoodputThresholds) (tripped : bool) (v : Verdict) (now : Q) (l : LatchState)
  : LatchAction * LatchState :=
  if tripped && negb (Qeq_bool (tripped_at l) 0) && Qle_bool (effective_max_hold_s t) (now - tripped_at l) then
    (CLEAR, {| consecutive_collapsed := 0; consecutive_healthy := 0; tripped_at := 0;
               latch_trips := latch_trips l |})
  else
    match v with
    | COLLAPSED =>
        let c := Z.min (consecutive_collapsed l + 1) (sustain_evaluations t) in
        if negb tripped && (sustain_evaluations t <=? c)%Z then
          (TRIP, {| consecutive_collapsed := 0; consecutive_healthy := 0; tripped_at := now;
                    latch_trips := latch_trips l + 1 |})
        else
          (STAY, {| consecutive_collapsed := c; consecutive_healthy := 0; tripped_at := tripped_at l;
                    latch_trips := latch_trips l |})
    | HEALTHY =>
        let h := (consecutive_healthy l + 1)%Z in
        if tripped && (effective_recovery_evaluations t <=? h)%Z then
          (CLEAR, {| consecutive_collapsed := 0; consecutive_healthy := 0; tripped_at := 0;
                     latch_trips := latch_trips l |})
        else
          (STAY, {| consecutive_collapsed := 0; consecutive_healthy := h; tripped_at := tripped_at l;
                    latch_trips := latch_trips l |})
    | UNKNOWN =>
        (STAY, {| consecutive_collapsed := 0; consecutive_healthy := 0; tripped_at := tripped_at l;
                  latch_trips := latch_trips l |})
    end.

(** [step] *)
Definition step (ep : string) (v : GoodputVerdict) (tripped : bool) (t : GoodputThresholds) (now : Q)
    (m : GoodputMonitor) : LatchAction * GoodputMonitor :=
  let '(a, l) := latch_step t tripped (outcome v) now (from_option id new_latch (dget (gm_latches m) ep)) in
  (a, set_latches (dset (gm_latches m) ep l) m).

(** ** The poller's handler *)

(** [0] is "undeclared" in the catalog. *)
Definition rate_ceiling (q : Q) : option Q := if Qeq_bool q 0 then None else Some q.

Definition goodput_thresholds (c : EndpointConfig) : GoodputThresholds :=
  {| min_running := goodput_min_running c;
     sustain_evaluations := goodput_sustain_evaluations c;
     max_iteration_rate := rate_ceiling (goodput_max_iteration_rate c);
     max_generation_tps_per_request := rate_ceiling (goodput_max_generation_tps c);
     max_prefill_tps := rate_ceiling (goodput_max_prefill_tps c);
     busy_min := goodput_busy_min c;
     recovery_evaluations := goodput_recovery_evaluations c;
     max_hold_s := goodput_max_hold_s c |}.

(** What the handler does to the rest of the service. *)
Inductive GoodputEvent :=
| GE_fast_fail_interactive (ep : string)
| GE_dispatch_wakeup.

Record GoodputState := {
  gs_monitor : GoodputMonitor;
  gs_verdicts : dict string GoodputVerdict;
  gs_collapsed : gset string;
  gs_enforce : bool;
  gs_events : list GoodputEvent;
}.

Definition gs_set_monitor (m : GoodputMonitor) (s : GoodputState) : GoodputState :=
  {| gs_monitor := m; gs_verdicts := gs_verdicts s; gs_collapsed := gs_collapsed s;
     gs_enforce := gs_enforce s; gs_events := gs_events s |}.

Definition gs_set_verdicts (v : dict string GoodputVerdict) (s : GoodputState) : GoodputState :=
  {| gs_monitor := gs_monitor s; gs_verdicts := v; gs_collapsed := gs_collapsed s;
     gs_enforce := gs_enforce s; gs_events := gs_events s |}.

(** A change of the collapsed set, with the enforcement effect that follows. *)
Definition gs_react (c : gset string) (e : GoodputEvent) (s : GoodputState) : GoodputState :=
  {| gs_monitor := gs_monitor s; gs_verdicts := gs_verdicts s; gs_collapsed := c;
     gs_enforce := gs_enforce s; gs_events := if gs_enforce s then gs_events s ++ [e] else gs_events s |}.

(** The counters handed to [observe]: with the busy clause declared, the second
    probe's answer is merged in, and a failed first probe becomes an empty
    dictionary. *)
Definition merged_counters (t : GoodputThresholds) (progress : option (dict Counter (option Q)))
    (busy : option Q) : option (dict Counter (option Q)) :=
  if Qltb 0 (busy_min t) then Some (dset (from_option id [] progress) K_busy busy) else progress.

(** [sample_goodput], with the answers of the two probes as arguments. *)
Definition sample_goodput (roles : dict string string) (ep_name : string) (ep_cfg : EndpointConfig)
    (progress : option (dict Counter (option Q))) (busy : option Q) (now : Q) : SE GoodputState unit :=
  let t := goodput_thresholds ep_cfg in
  if negb (armed t) then mret tt
  else
    let ep := normalize_endpoint roles ep_name in
    se_modify (fun s => gs_set_monitor (observe ep now (merged_counters t progress busy) (gs_monitor s)) s);;
    s ← se_get;
    let '(r, m) := evaluate ep t now (gs_monitor s) in
    se_modify (gs_set_monitor m);;
    v ← se_lift r;
    se_modify (fun s => gs_set_verdicts (dset (gs_verdicts s) ep v) s);;
    s ← se_get;
    let tripped := bool_decide (ep ∈ gs_collapsed s) in
    let '(action, m) := step ep v tripped t now (gs_monitor s) in
    se_modify (gs_set_monitor m);;
    match action with
    | TRIP => se_modify (fun s => gs_react (gs_collapsed s ∪ {[ep]}) (GE_fast_fail_interactive ep) s)
    | CLEAR => se_modify (fun s => gs_react (gs_collapsed s ∖ {[ep]}) GE_dispatch_wakeup s)
    | STAY => mret tt
    end.

(** ** The rule, stated on the window *)

(** Every sample of the window has a reading of the counter. *)
Definition measured (w : list Sample) (k : Counter) : Prop := Forall (fun s => is_Some (read k s)) w.

(** The counter grew by [d] from the first to the last sample. *)
Definition grew (w : list Sample) (k : Counter) (d : Q) : Prop :=
  exists f l a b, head w = Some f /\ last w = Some l /\ read k f = Some a /\ read k l = Some b /\ d = b - a.

Definition mean_running (w : list Sample) : Q :=
  qsum (omap (read K_running) w) / inject_Z (Z.of_nat (length w)).

(** Growth below a declared rate over [span] units. *)
Definition slower (w : list Sample) (k : Counter) (ceiling : option Q) (span : Q) : Prop :=
  measured w k /\ exists d y, grew w k d /\ ceiling = Some y /\ d < y * span.

Definition clause_holds (t : GoodputThresholds) (w : list Sample) (span : Q) (c : Clause) : Prop :=
  match c with
  | CLAUSE_OCCUPANCY => Forall (fun s => exists r, read K_running s = Some r /\ inject_Z (min_running t) <= r) w
  | CLAUSE_ITERATIONS => slower w K_iterations (max_iteration_rate t) span
  | CLAUSE_GENERATION => slower w K_generation (max_generation_tps_per_request t) (mean_running w * span)
  | CLAUSE_PREFILL => slower w K_prompt (max_prefill_tps t) span
  | CLAUSE_ENGINE_IDLE => Forall (fun s => exists b, read K_busy s = Some b /\ b < busy_min t) w
  end.

(** No cumulative counter goes down between two consecutive readings. *)
Definition monotone_readings (l : list (option Q)) : Prop :=
  forall i a b, l !! i = Some (Some a) -> l !! S i = Some (Some b) -> a <= b.

Definition monotone_counters (w : list Sample) : Prop :=
  forall k, k ∈ CUMULATIVE_KEYS -> monotone_readings (map (read k) w).

(** The endpoint is armed and its window shows every configured clause of the
    collapse, each from complete readings. *)
Definition wedged (t : GoodputThresholds) (w : list Sample) : Prop :=
  armed t = true /\ (MIN_SAMPLES <= length w)%nat /\
  exists f l, head w = Some f /\ last w = Some l /\ MIN_WINDOW_S <= s_ts l - s_ts f /\
    monotone_counters w /\
    forall c, c ∈ CLAUSE_OCCUPANCY :: progress_clauses t -> clause_holds t w (s_ts l - s_ts f) c.

(** ** Facts *)

Lemma armed_inv t : armed t = true -> (1 <= min_running t)%Z /\ (1 <= sustain_evaluations t)%Z.
Proof. unfold armed. rewrite !andb_true_iff, !Z.leb_le. tauto. Qed.

Lemma monotone_readings_cons x l :
  monotone_readings (x :: l) <->
  (forall a b, x = Some a -> head l = Some (Some b) -> a <= b) /\ monotone_readings l.
Proof.
  split.
  - intros H. split.
    + intros a b -> E. apply (H 0%nat); [done|]. by destruct l; simplify_eq/=.
    + intros i a b Ha Hb. apply (H (S i)); done.
  - intros [H0 H] [|i] a b Ha Hb; simpl in *; simplify_eq.
    + apply H0; [done|]. destruct l; simplify_eq/=; done.
    + by apply (H i).
Qed.

Lemma goes_back_spec l : forall prev, goes_back prev l = false <-> monotone_readings (prev :: l).
Proof.
  induction l as [|[cur|] l IH]; intros prev; rewrite monotone_readings_cons; simpl.
  - split; [|done]. intros _. split; [done|]. intros i a b H. by rewrite lookup_nil in H.
  - destruct prev as [p|].
    + destruct (Qltb_spec cur p) as [H|H].
      * split; [done|]. intros [H0 _]. specialize (H0 p cur eq_refl eq_refl). lra.
      * rewrite IH. split; [|by intros [_ ?]]. intros Hm. split; [|done].
        intros a b [= ->] [= ->]. done.
    + rewrite IH. split; [|by intros [_ ?]]. intros Hm. split; done.
  - rewrite IH. split; [|by intros [_ ?]]. intros Hm. split; done.
Qed.

Lemma reset_detected_spec w : reset_detected w = false <-> monotone_counters w.
Proof.
  assert (forall l, goes_back None l = false <-> monotone_readings l) as G.
  { intros l. rewrite goes_back_spec, monotone_readings_cons. split; [by intros [_ ?]|]. split; done. }
  unfold reset_detected, monotone_counters, CUMULATIVE_KEYS. simpl. rewrite !orb_false_iff, !G. split.
  - intros (H1 & H2 & H3 & _) k. rewrite !elem_of_cons, elem_of_nil. naive_solver.
  - intros H. repeat split; apply H; set_solver.
Qed.

Lemma fromkeys_elem l k : k ∈ fromkeys l <-> k ∈ l.
Proof.
  unfold fromkeys. assert (forall d : dict Counter unit,
    k ∈ dkeys (foldl (fun d k => dset d k tt) d l) <-> k ∈ dkeys d \/ k ∈ l) as H.
  { induction l as [|x l IH]; intros d; simpl; [set_solver|].
    rewrite IH, dkeys_dset, elem_of_cons. case_decide; [|rewrite elem_of_app, list_elem_of_singleton]; naive_solver. }
  rewrite H. simpl. set_solver.
Qed.

Lemma absent_in_spec w k : absent_in w k = false <-> measured w k.
Proof.
  unfold absent_in, measured. rewrite Forall_forall. split.
  - intros H s Hs. destruct (read k s) eqn:E; [done|]. exfalso.
    apply not_true_iff_false in H. apply H. apply existsb_exists. exists s.
    split; [by apply list_elem_of_In|]. by apply bool_decide_eq_true.
  - intros H. apply not_true_iff_false. intros (s & Hs & E)%existsb_exists.
    apply bool_decide_eq_true in E. apply list_elem_of_In in Hs. specialize (H s Hs).
    rewrite E in H. by destruct H.
Qed.

Lemma missing_counters_spec w cs :
  missing_counters w cs = [] <-> forall c k, c ∈ cs -> k ∈ needed_keys c -> measured w k.
Proof.
  unfold missing_counters. split.
  - intros H c k Hc Hk. apply absent_in_spec. apply not_true_iff_false. intros Ha.
    assert (k ∈ filter (fun k => Is_true (absent_in w k)) (fromkeys (concat (map needed_keys cs)))) as E.
    { apply list_elem_of_filter. split; [by rewrite Ha|]. apply fromkeys_elem, list_elem_of_In, in_concat.
      exists (needed_keys c). split; [|by apply list_elem_of_In]. by apply in_map, list_elem_of_In. }
    rewrite H in E. by apply not_elem_of_nil in E.
  - intros H. destruct (filter _ _) as [|k l] eqn:E; [done|]. exfalso.
    assert (k ∈ k :: l) as Hk by left. rewrite <- E in Hk. apply list_elem_of_filter in Hk as [Ha Hk].
    apply fromkeys_elem, list_elem_of_In, in_concat in Hk as (ks & Hks & Hk).
    apply in_map_iff in Hks as (c & <- & Hc). apply list_elem_of_In in Hc, Hk.
    specialize (H c k Hc Hk). apply absent_in_spec in H. rewrite H in Ha. done.
Qed.

Lemma runnings_measured w : measured w K_running -> runnings w = Ret (omap (read K_running) w).
Proof.
  induction 1 as [|s w [q Hq] _ IH]; [done|]. simpl. rewrite Hq. unfold read in Hq.
  destruct (dget (s_values s) K_running) as [o|]; simpl in Hq; [subst o|done]. by rewrite IH.
Qed.

Lemma foldl_pymin_ge n l : forall x, n <= foldl pymin x l <-> Forall (fun y => n <= y) (x :: l).
Proof.
  induction l as [|y l IH]; intros x; simpl; [by rewrite Forall_singleton|].
  rewrite IH, !Forall_cons. unfold pymin. qcases; split; intros (H1 & H2); repeat split; try done; try lra;
    destruct H2; try done; lra.
Qed.

Lemma foldl_pymax_lt n l : forall x, foldl pymax x l < n <-> Forall (fun y => y < n) (x :: l).
Proof.
  induction l as [|y l IH]; intros x; simpl; [by rewrite Forall_singleton|].
  rewrite IH, !Forall_cons. unfold pymax. qcases; split; intros (H1 & H2); repeat split; try done; try lra;
    destruct H2; try done; lra.
Qed.

(** The readings of a counter every sample has. *)
Lemma readings_cons w k : w <> [] -> measured w k -> exists x l, omap (read k) w = x :: l.
Proof. intros Hne H. destruct H as [|s w [q Hq] _]; [done|]. simpl. rewrite Hq. eauto. Qed.

Lemma Forall_readings (P : Q -> Prop) w k : measured w k ->
  Forall P (omap (read k) w) <-> Forall (fun s => exists q, read k s = Some q /\ P q) w.
Proof.
  induction 1 as [|s w [q Hq] _ IH]; simpl; [done|]. rewrite Hq, !Forall_cons, IH. naive_solver.
Qed.

Lemma readings_length w k : measured w k -> length (omap (read k) w) = length w.
Proof. induction 1 as [|s w [q Hq] _ IH]; simpl; [done|]. rewrite Hq. simpl. f_equal. exact IH. Qed.

Lemma qsum_ge n l : Forall (fun y => n <= y) l -> n * inject_Z (Z.of_nat (length l)) <= qsum l.
Proof.
  induction 1 as [|x l Hx _ IH]; [change (n * 0 <= 0); lra|]. cbn [length qsum foldr]. fold (qsum l).
  rewrite Nat2Z.inj_succ, <- Z.add_1_r, inject_Z_plus. change (inject_Z 1) with 1. lra.
Qed.

Lemma first_last_ret w : w <> [] -> exists f l, head w = Some f /\ last w = Some l /\ first_last w = Ret (f, l).
Proof.
  intros H. unfold first_last. destruct w as [|s w]; [done|]. destruct (last (s :: w)) as [l|] eqn:E.
  - simpl. eauto.
  - by apply last_None in E.
Qed.

Lemma div_lt_iff a b c : 0 < b -> a / b < c <-> a < c * b.
Proof.
  intros Hb. split; intros H.
  - apply (Qmult_lt_r _ _ b) in H; [|done]. by rewrite Qmult_comm, Qmult_div_r in H by lra.
  - by apply Qlt_shift_div_r.
Qed.

Lemma measured_ends w k f l : measured w k -> head w = Some f -> last w = Some l ->
  exists a b, read k f = Some a /\ read k l = Some b.
Proof.
  intros H Hf Hl. unfold measured in H. rewrite Forall_forall in H.
  destruct (H f) as [a Ha]; [by apply head_Some_elem_of|].
  destruct (H l) as [b Hb]; [by apply last_Some_elem_of|]. eauto.
Qed.

(** The rate of a counter, where it is measured. *)
Lemma rate_ret w k span : w <> [] -> 0 < span ->
  exists o, rate w k span = Ret o /\
    (measured w k -> exists d, grew w k d /\ o = Some (d / span)).
Proof.
  intros Hne Hs. unfold rate. destruct (Qleb_spec span 0); [lra|].
  destruct (first_last_ret w Hne) as (f & l & Hf & Hl & ->). cbn [mbind res_bind].
  destruct (read k f) as [a|] eqn:Ea; [destruct (read k l) as [b|] eqn:Eb|].
  - eexists. split; [done|]. intros _. exists (b - a). split; [|done]. by exists f, l, a, b.
  - eexists. split; [done|]. intros M. destruct (measured_ends w k f l M Hf Hl) as (? & ? & ? & ?). congruence.
  - eexists. split; [done|]. intros M. destruct (measured_ends w k f l M Hf Hl) as (? & ? & ? & ?). congruence.
Qed.

Lemma grew_unique w k d d' : grew w k d -> grew w k d' -> d = d'.
Proof. intros (?&?&?&?&?&?&?&?&?) (?&?&?&?&?&?&?&?&?). simplify_eq. congruence. Qed.

Lemma slower_rate w k d o y span : measured w k -> grew w k d -> o = Some y -> 0 < span ->
  slower w k o span <-> d / span < y.
Proof.
  intros M G E Hs. rewrite div_lt_iff by done. split.
  - intros (_ & d' & y' & G' & E' & H). rewrite (grew_unique _ _ _ _ G G'). congruence.
  - intros H. split; [done|]. by exists d, y.
Qed.

Lemma max_level_ret w k : w <> [] ->
  exists o, max_level w k = Ret o /\
    (measured w k -> exists x, o = Some x /\ forall n, x < n <-> Forall (fun s => exists b, read k s = Some b /\ b < n) w).
Proof.
  intros Hne. unfold max_level. destruct (absent_in w k) eqn:E.
  - eexists. split; [done|]. intros M. apply absent_in_spec in M. congruence.
  - apply absent_in_spec in E. destruct (readings_cons w k Hne E) as (x & l & El). rewrite El.
    cbn [list_extreme mbind res_bind]. eexists. split; [done|]. intros _. eexists. split; [done|].
    intros n. rewrite foldl_pymax_lt, <- El. by apply (Forall_readings (fun b => b < n)).
Qed.

Lemma progress_elem t c :
  c ∈ progress_clauses t <->
  match c with
  | CLAUSE_OCCUPANCY => False
  | CLAUSE_ITERATIONS => declared (max_iteration_rate t) = true
  | CLAUSE_GENERATION => declared (max_generation_tps_per_request t) = true
  | CLAUSE_PREFILL => declared (max_prefill_tps t) = true
  | CLAUSE_ENGINE_IDLE => Qltb 0 (busy_min t) = true
  end.
Proof.
  unfold progress_clauses. rewrite !elem_of_app.
  destruct (declared (max_iteration_rate t)), (declared (max_generation_tps_per_request t)),
    (declared (max_prefill_tps t)), (Qltb 0 (busy_min t)), c;
    rewrite ?list_elem_of_singleton, ?elem_of_nil; intuition congruence.
Qed.

Lemma declared_Some o : declared o = true -> exists y, o = Some y /\ 0 < y.
Proof. destruct o as [q|]; simpl; [|done]. destruct (Qltb_spec 0 q); eauto; done. Qed.

(** The clause table of [evaluate]. *)
Definition clause_table (t : GoodputThresholds) (it per_req pre busy : option Q)
  : list (Clause * option Q * option Q) :=
  [(CLAUSE_ITERATIONS, it, max_iteration_rate t);
   (CLAUSE_GENERATION, per_req, max_generation_tps_per_request t);
   (CLAUSE_PREFILL, pre, max_prefill_tps t);
   (CLAUSE_ENGINE_IDLE, busy, Some (busy_min t))].

Definition in_rule (progress : list Clause) (x : Clause * option Q * option Q) : Prop := x.1.1 ∈ progress.

#[global] Instance in_rule_dec progress x : Decision (in_rule progress x).
Proof. unfold in_rule. apply _. Defined.

Lemma table_in_rule t it per_req pre busy :
  length (filter (in_rule (progress_clauses t)) (clause_table t it per_req pre busy))
  = length (progress_clauses t).
Proof.
  unfold clause_table. rewrite !filter_cons, filter_nil. unfold in_rule, progress_clauses. simpl.
  destruct (declared (max_iteration_rate t)), (declared (max_generation_tps_per_request t)),
    (declared (max_prefill_tps t)), (Qltb 0 (busy_min t)); reflexivity.
Qed.

(** With every clause of the rule computable the loop reaches its end, and all
    clauses are held exactly when each one's value is below its ceiling. *)
Lemma judge_spec progress terms : forall held cleared,
  Forall (fun x => in_rule progress x -> is_Some x.1.2 /\ is_Some x.2) terms ->
  exists h cl, judge progress terms held cleared = Ret (inr (held ++ h, cl)) /\
    (length h <= length (filter (in_rule progress) terms))%nat /\
    (length h = length (filter (in_rule progress) terms) <->
     Forall (fun x => in_rule progress x -> exists a b, x.1.2 = Some a /\ x.2 = Some b /\ a < b) terms).
Proof.
  induction terms as [|[[c v] ce] terms IH]; intros held cleared H; cbn [judge].
  { exists [], cleared. rewrite app_nil_r. split; [done|]. split; [done|]. split; [|done]. by constructor. }
  apply Forall_cons in H as [H0 H]. rewrite filter_cons. setoid_rewrite Forall_cons. unfold in_rule in *. simpl in *.
  case_bool_decide as Hc; simpl.
  - destruct (H0 Hc) as [[a ->] [b ->]]. rewrite decide_True by done. cbn [length].
    destruct (Qltb_spec a b) as [L|L].
    + destruct (IH (held ++ [c]) cleared H) as (h & cl & -> & Hle & Hiff).
      exists (c :: h), cl. rewrite <- app_assoc. split; [done|]. cbn [length]. split; [lia|].
      rewrite <- Hiff. split; [intros [=]|intros [_ ->]; done]. split; [|done]. intros _. by exists a, b.
    + destruct (IH held (cleared ++ [c]) H) as (h & cl & -> & Hle & Hiff).
      exists h, cl. split; [done|]. split; [lia|]. split; [lia|]. intros [Hx _].
      destruct (Hx Hc) as (? & ? & ? & ? & ?). simplify_eq. lra.
  - rewrite decide_False by done. destruct (IH held cleared H) as (h & cl & -> & Hle & Hiff).
    exists h, cl. split; [done|]. split; [done|]. rewrite Hiff. naive_solver.
Qed.

Lemma length_pos {A} (w : list A) : w <> [] -> 0 < inject_Z (Z.of_nat (length w)).
Proof. destruct w; [done|]. intros _. apply inject_Z_pos. cbn [length]. lia. Qed.

(** What [weigh] computes before it judges, on a complete window. *)
Lemma mean_running_pos w n : w <> [] -> measured w K_running -> 0 < n ->
  Forall (fun y => n <= y) (omap (read K_running) w) -> 0 < mean_running w.
Proof.
  intros Hne M Hn H. unfold mean_running. apply Qlt_shift_div_l; [by apply length_pos|].
  apply qsum_ge in H. rewrite readings_length in H by done. pose proof (length_pos w Hne).
  rewrite Qmult_0_l. apply Qlt_le_trans with (2 := H). by apply Qmult_lt_0_compat.
Qed.

(** The four table rows say what the clauses say. *)
Section Rows.
Context (t : GoodputThresholds) (w : list Sample) (span : Q).
Context (Hne : w <> []) (Hspan : 0 < span) (Hmean : 0 < mean_running w).
Context (Hm : forall c k, c ∈ progress_clauses t -> k ∈ needed_keys c -> measured w k).

Definition row_ok (x : Clause * option Q * option Q) : Prop :=
  in_rule (progress_clauses t) x ->
  exists a b, x.1.2 = Some a /\ x.2 = Some b /\ (clause_holds t w span x.1.1 <-> a < b).

Lemma row_rate c k o ceiling : needed_keys c = [k] ->
  (c ∈ progress_clauses t -> declared ceiling = true) ->
  (clause_holds t w span c <-> slower w k ceiling span) ->
  rate w k span = Ret o -> row_ok (c, o, ceiling).
Proof using All.
  intros Hk Hd Hc Hr. unfold row_ok, in_rule. simpl. intros Hin.
  assert (measured w k) as M by (apply (Hm c k Hin); rewrite Hk; by left).
  destruct (rate_ret w k span Hne Hspan) as (o' & Ho' & G). rewrite Hr in Ho'. simplify_eq.
  destruct (G M) as (d & Gd & ->). destruct (declared_Some _ (Hd Hin)) as (y & Ey & _).
  exists (d / span), y. split; [done|]. split; [done|]. rewrite Hc. by apply slower_rate.
Qed.

Lemma row_generation g : rate w K_generation span = Ret g ->
  row_ok (CLAUSE_GENERATION, per_request g (mean_running w), max_generation_tps_per_request t).
Proof using All.
  intros Hr. unfold row_ok, in_rule. simpl. intros Hin.
  assert (measured w K_generation) as M by (apply (Hm _ K_generation Hin); by left).
  destruct (rate_ret w K_generation span Hne Hspan) as (o' & Ho' & G). rewrite Hr in Ho'. simplify_eq.
  destruct (G M) as (d & Gd & ->). unfold per_request. destruct (Qleb_spec (mean_running w) 0); [lra|].
  pose proof Hin as Hd. apply progress_elem in Hd. destruct (declared_Some _ Hd) as (y & Ey & _).
  exists (d / span / mean_running w), y. split; [done|]. split; [done|].
  rewrite (slower_rate w K_generation d _ y (mean_running w * span) M Gd Ey)
    by (by apply Qmult_lt_0_compat).
  rewrite !div_lt_iff by (try done; by apply Qmult_lt_0_compat). by rewrite Qmult_assoc.
Qed.

Lemma row_idle o : max_level w K_busy = Ret o -> row_ok (CLAUSE_ENGINE_IDLE, o, Some (busy_min t)).
Proof using All.
  intros Hr. unfold row_ok, in_rule. simpl. intros Hin.
  assert (measured w K_busy) as M by (apply (Hm _ K_busy Hin); by left).
  destruct (max_level_ret w K_busy Hne) as (o' & Ho' & G). rewrite Hr in Ho'. simplify_eq.
  destruct (G M) as (x & -> & Hx). exists x, (busy_min t). split; [done|]. split; [done|]. by rewrite Hx.
Qed.

Lemma rows_table it gen pre busy :
  rate w K_iterations span = Ret it -> rate w K_generation span = Ret gen -> rate w K_prompt span = Ret pre ->
  max_level w K_busy = Ret busy ->
  Forall row_ok (clause_table t it (per_request gen (mean_running w)) pre busy).
Proof using All.
  intros Eit Egen Epre Ebusy. repeat apply Forall_cons_2; [..|by apply Forall_nil].
  - apply (row_rate CLAUSE_ITERATIONS K_iterations); try done. by intros ?%progress_elem.
  - by apply row_generation.
  - apply (row_rate CLAUSE_PREFILL K_prompt); try done. by intros ?%progress_elem.
  - by apply row_idle.
Qed.

Lemma rows_decide it per_req pre busy :
  Forall row_ok (clause_table t it per_req pre busy) ->
  Forall (fun x => in_rule (progress_clauses t) x -> exists a b, x.1.2 = Some a /\ x.2 = Some b /\ a < b)
    (clause_table t it per_req pre busy) <->
  forall c, c ∈ progress_clauses t -> clause_holds t w span c.
Proof.
  intros Hrows. split.
  - intros HF c Hc. assert (exists r, r ∈ clause_table t it per_req pre busy /\ r.1.1 = c) as (r & Hr & Er).
    { destruct c; [by apply progress_elem in Hc|..]; eexists (_, _, _); (split; [|reflexivity]);
        repeat (apply elem_of_cons; first [left; reflexivity | right]). }
    rewrite Forall_forall in HF, Hrows. subst c. destruct (HF r Hr Hc) as (a & b & Ea & Eb & Hab).
    destruct (Hrows r Hr Hc) as (a' & b' & Ea' & Eb' & Hx). rewrite Ea in Ea'. rewrite Eb in Eb'.
    simplify_eq. by apply Hx.
  - intros H. eapply Forall_impl; [exact Hrows|]. intros r Hr Hin. destruct (Hr Hin) as (a & b & -> & -> & Hx).
    exists a, b. split; [done|]. split; [done|]. by apply Hx, H.
Qed.
End Rows.

(** On a complete window [weigh] answers, and answers [COLLAPSED] exactly when
    every clause of the rule holds. *)
Lemma weigh_spec t w span :
  w <> [] -> 0 < span -> (1 <= min_running t)%Z ->
  (forall c k, c ∈ CLAUSE_OCCUPANCY :: progress_clauses t -> k ∈ needed_keys c -> measured w k) ->
  exists v, weigh t w span = Ret v /\
    (outcome v = COLLAPSED <->
     forall c, c ∈ CLAUSE_OCCUPANCY :: progress_clauses t -> clause_holds t w span c).
Proof.
  intros Hne Hs Hmin Hm.
  assert (measured w K_running) as M by (apply (Hm CLAUSE_OCCUPANCY); by left).
  unfold weigh. rewrite runnings_measured by done. destruct (readings_cons w K_running Hne M) as (x & l & El).
  assert (forall n, n <= foldl pymin x l <-> Forall (fun y => n <= y) (omap (read K_running) w)) as Hmn.
  { intros n. rewrite El. apply foldl_pymin_ge. }
  assert (list_extreme pymin (omap (read K_running) w) = Ret (foldl pymin x l)) as Ex by (by rewrite El).
  cbn [mbind res_bind]. rewrite Ex. cbn [mbind res_bind].
  fold (mean_running w).
  destruct (rate_ret w K_iterations span Hne Hs) as (it & Eit & _).
  destruct (rate_ret w K_prompt span Hne Hs) as (pre & Epre & _).
  destruct (rate_ret w K_generation span Hne Hs) as (gen & Egen & _).
  destruct (max_level_ret w K_busy Hne) as (busy & Ebusy & _).
  rewrite Eit, Epre, Egen, Ebusy. cbn [mbind res_bind].
  assert (clause_holds t w span CLAUSE_OCCUPANCY <-> inject_Z (min_running t) <= foldl pymin x l) as Hocc.
  { rewrite Hmn. simpl. by rewrite (Forall_readings (fun y => inject_Z (min_running t) <= y) w K_running). }
  destruct (Qltb_spec (foldl pymin x l) (inject_Z (min_running t))) as [Hlt|Hge].
  { eexists. split; [done|]. cbn [outcome]. split; [done|]. intros H. specialize (H CLAUSE_OCCUPANCY ltac:(by left)).
    apply Hocc in H. lra. }
  assert (0 < mean_running w) as Hmean.
  { apply (mean_running_pos w (inject_Z (min_running t)) Hne M); [apply inject_Z_pos; lia|]. by apply Hmn. }
  pose proof (rows_table t w span Hne Hs Hmean ltac:(intros c k Hc; apply Hm; by right)
                it gen pre busy Eit Egen Epre Ebusy) as Hrows.
  destruct (judge_spec (progress_clauses t) (clause_table t it (per_request gen (mean_running w)) pre busy)
              [CLAUSE_OCCUPANCY] []) as (h & cl & Ej & Hle & Hiff).
  { eapply Forall_impl; [exact Hrows|]. intros r Hr Hin. destruct (Hr Hin) as (a & b & -> & -> & _). eauto. }
  unfold clause_table in Ej at 1. rewrite Ej. cbn [mbind res_bind]. eexists. split; [done|]. cbn [outcome].
  rewrite table_in_rule in Hle, Hiff. rewrite (rows_decide t w span _ _ _ _ Hrows) in Hiff.
  rewrite length_app. cbn [length]. transitivity (length h = length (progress_clauses t)).
  { case_bool_decide; split; try done; lia. }
  rewrite Hiff. split; [|intros H c Hc; apply H; by right].
  intros H c [->|Hc]%elem_of_cons; [by apply Hocc|auto].
Qed.

(** A clause that holds has read its counters. *)
Lemma clause_holds_measured t w span c k :
  clause_holds t w span CLAUSE_OCCUPANCY -> clause_holds t w span c -> k ∈ needed_keys c -> measured w k.
Proof.
  intros Ho Hc Hk. unfold measured.
  assert (Forall (fun s => is_Some (read K_running s)) w) as Hr.
  { eapply Forall_impl; [exact Ho|]. intros s (r & Hrd & _). eauto. }
  destruct c; simpl in Hk; rewrite ?elem_of_cons, ?elem_of_nil in Hk; destruct_or?; try done; subst k; try done;
    try apply Hc.
  eapply Forall_impl; [exact Hc|]. intros s (b & Hb & _). eauto.
Qed.

(** The samples an evaluation looks at. *)
Definition window_at (m : GoodputMonitor) (ep : string) (now : Q) : list Sample :=
  window_of m (from_option id [] (dget (gm_rings m) ep)) now.

(** [evaluate] answers on every state, keeps the latches, and answers
    [COLLAPSED] exactly on a wedged window. *)
Lemma evaluate_spec ep t now m :
  exists v m', evaluate ep t now m = (Ret v, m') /\ gm_latches m' = gm_latches m /\
    (outcome v = COLLAPSED <-> wedged t (window_at m ep now)).
Proof.
  unfold evaluate, wedged, window_at. destruct (armed t) eqn:Ha; cbn [negb].
  2:{ eexists _, m. split; [done|]. split; [done|]. split; [done|]. by intros [? _]. }
  rewrite run_get. set (ring := from_option id [] (dget (gm_rings m) ep)). set (w := window_of m ring now).
  case_bool_decide as Hring.
  { eexists _, m. split; [done|]. split; [done|]. split; [done|]. intros (_ & Hl & _).
    assert (w = []) as Hw by (unfold w; destruct ring; done). rewrite Hw in Hl. unfold MIN_SAMPLES in Hl. simpl in Hl. lia. }
  destruct (Nat.ltb_spec (length w) MIN_SAMPLES) as [Hl|Hl].
  { eexists _, m. split; [done|]. split; [done|]. split; [done|]. intros (_ & ? & _). lia. }
  assert (w <> []) as Hne by (intros E; rewrite E in Hl; unfold MIN_SAMPLES in Hl; simpl in Hl; lia).
  destruct (first_last_ret w Hne) as (f & l & Hf & Hlst & ->). rewrite run_lift.
  destruct (Qltb_spec (s_ts l - s_ts f) MIN_WINDOW_S) as [Hs|Hs].
  { eexists _, m. split; [done|]. split; [done|]. split; [done|]. intros (_ & _ & f' & l' & ? & ? & ? & _).
    simplify_eq. lra. }
  destruct (reset_detected w) eqn:Hr.
  { destruct (first_last_ret ring) as (? & newest & _ & _ & ->); [by destruct ring|]. rewrite run_lift, run_modify.
    eexists _, _. split; [done|]. split; [done|]. split; [done|]. intros (_ & _ & f' & l' & ? & ? & _ & Hmono & _).
    apply reset_detected_spec in Hmono. congruence. }
  case_bool_decide as Hmiss; cbn [negb].
  2:{ eexists _, m. split; [done|]. split; [done|]. split; [done|].
      intros (_ & _ & f' & l' & ? & ? & _ & _ & Hc). exfalso. apply Hmiss, missing_counters_spec.
      intros c k Hin Hk. eapply clause_holds_measured; [apply Hc; by left|by apply Hc|done]. }
  rewrite missing_counters_spec in Hmiss.
  destruct (weigh_spec t w (s_ts l - s_ts f)) as (v & -> & Hv); [done|unfold MIN_WINDOW_S in Hs; lra|by apply armed_inv|done|].
  eexists v, m. split; [done|]. split; [done|]. rewrite Hv. split.
  - intros H. split; [done|]. split; [done|]. exists f, l. rewrite <- reset_detected_spec. auto.
  - intros (_ & _ & f' & l' & ? & ? & _ & _ & Hc). by simplify_eq.
Qed.

(** ** Runs of the poller *)

Definition latch_of (s : GoodputState) (ep : string) : LatchState :=
  from_option id new_latch (dget (gm_latches (gs_monitor s)) ep).

(** The collapsed set after a latch action. *)
Definition acted (a : LatchAction) (ep : string) (c : gset string) : gset string :=
  match a with
  | TRIP => c ∪ {[ep]}
  | CLEAR => c ∖ {[ep]}
  | STAY => c
  end.

(** One look of the poller at an endpoint. *)
Record PollLook := {
  lk_name : string;
  lk_cfg : EndpointConfig;
  lk_progress : option (dict Counter (option Q));
  lk_busy : option Q;
  lk_now : Q;
}.

Section Poller.
Context (roles : dict string string).

Definition look (s : GoodputState) (l : PollLook) : GoodputState :=
  (sample_goodput roles (lk_name l) (lk_cfg l) (lk_progress l) (lk_busy l) (lk_now l) s).2.

Definition poll (s : GoodputState) (ls : list PollLook) : GoodputState := foldl look s ls.

Definition looked_at (l : PollLook) : string := normalize_endpoint roles (lk_name l).

(** The verdicts published for [ep] along a run. *)
Fixpoint verdicts (ep : string) (s : GoodputState) (ls : list PollLook) : list Verdict :=
  match ls with
  | [] => []
  | l :: ls' =>
      let s' := look s l in
      (if bool_decide (looked_at l = ep) then
         match dget (gs_verdicts s') ep with Some v => [outcome v] | None => [] end
       else []) ++ verdicts ep s' ls'
  end.

(** A look at an armed endpoint publishes a verdict and lets the latch act on
    it; it touches no other endpoint. *)
Lemma look_armed s l :
  armed (goodput_thresholds (lk_cfg l)) = true ->
  exists v a, dget (gs_verdicts (look s l)) (looked_at l) = Some v /\
    latch_step (goodput_thresholds (lk_cfg l)) (bool_decide (looked_at l ∈ gs_collapsed s)) (outcome v)
      (lk_now l) (latch_of s (looked_at l)) = (a, latch_of (look s l) (looked_at l)) /\
    gs_collapsed (look s l) = acted a (looked_at l) (gs_collapsed s) /\
    (outcome v = COLLAPSED ->
     wedged (goodput_thresholds (lk_cfg l))
       (window_at (observe (looked_at l) (lk_now l)
                     (merged_counters (goodput_thresholds (lk_cfg l)) (lk_progress l) (lk_busy l))
                     (gs_monitor s)) (looked_at l) (lk_now l))) /\
    forall ep, ep <> looked_at l -> latch_of (look s l) ep = latch_of s ep.
Proof.
  intros Ha. unfold look, sample_goodput. rewrite Ha. cbn [negb]. fold (looked_at l).
  set (ep := looked_at l). set (t := goodput_thresholds (lk_cfg l)).
  rewrite run_modify, run_get. cbn [gs_monitor gs_set_monitor].
  set (m1 := observe ep (lk_now l) _ (gs_monitor s)).
  destruct (evaluate_spec ep t (lk_now l) m1) as (v & m2 & -> & Hm & Hv).
  rewrite run_modify, run_lift, run_modify, run_get. cbn [gs_monitor gs_set_monitor gs_set_verdicts gs_collapsed].
  unfold step. assert (from_option id new_latch (dget (gm_latches m2) ep) = latch_of s ep) as ->.
  { rewrite Hm. done. }
  destruct (latch_step t (bool_decide (ep ∈ gs_collapsed s)) (outcome v) (lk_now l) (latch_of s ep)) as [a lt] eqn:E.
  exists v, a. rewrite run_modify.
  destruct a; cbn [snd gs_verdicts gs_set_monitor gs_set_verdicts gs_react gs_collapsed acted latch_of gs_monitor set_latches gm_latches mret se_ret se_modify];
    (split; [by rewrite dget_dset_eq|]); (split; [unfold latch_of; simpl; by rewrite dget_dset_eq|]);
    (split; [done|]); (split; [by intros ?%Hv|]);
    intros ep' Hne; unfold latch_of; simpl; rewrite dget_dset_ne, Hm by done; done.
Qed.

Lemma look_unarmed s l : armed (goodput_thresholds (lk_cfg l)) = false -> look s l = s.
Proof. intros Ha. unfold look, sample_goodput. by rewrite Ha. Qed.

(** A look at another endpoint leaves an endpoint's latch and standing alone. *)
Lemma look_other s l ep : ep <> looked_at l ->
  latch_of (look s l) ep = latch_of s ep /\ (ep ∈ gs_collapsed (look s l) <-> ep ∈ gs_collapsed s).
Proof.
  intros Hne. destruct (armed (goodput_thresholds (lk_cfg l))) eqn:Ha; [|by rewrite look_unarmed].
  destruct (look_armed s l Ha) as (v & a & _ & _ & -> & _ & Ho). split; [auto|].
  unfold acted. destruct a; set_solver.
Qed.

Lemma poll_snoc s ls l : poll s (ls ++ [l]) = look (poll s ls) l.
Proof. unfold poll. by rewrite foldl_app. Qed.

Lemma verdicts_snoc ep s ls l :
  verdicts ep s (ls ++ [l]) = verdicts ep s ls ++
    (if bool_decide (looked_at l = ep) then
       match dget (gs_verdicts (look (poll s ls) l)) ep with Some v => [outcome v] | None => [] end
     else []).
Proof.
  revert s. induction ls as [|x ls IH]; intros s; simpl; [by rewrite app_nil_r|].
  by rewrite IH, app_assoc.
Qed.
End Poller.

(** A run of equal elements at the end of a list grows with the list. *)
Lemma replicate_suffix_snoc {A} (x : A) (l : list A) (c c' : Z) :
  replicate (Z.to_nat c) x `suffix_of` l -> (0 <= c)%Z -> (c' <= c + 1)%Z ->
  replicate (Z.to_nat c') x `suffix_of` l ++ [x].
Proof.
  intros [k ->] H0 H1. exists (k ++ replicate (Z.to_nat c + 1 - Z.to_nat c') x).
  change [x] with (replicate 1 x). rewrite <- !app_assoc, <- !replicate_add. do 2 f_equal. lia.
Qed.

(** What one latch step does to the sustain counter. *)
Lemma latch_counts t tripped v now l a l' :
  latch_step t tripped v now l = (a, l') -> (1 <= sustain_evaluations t)%Z ->
  (0 <= consecutive_collapsed l <= sustain_evaluations t)%Z ->
  (0 <= consecutive_collapsed l' <= sustain_evaluations t)%Z /\
  (consecutive_collapsed l' = 0%Z \/ v = COLLAPSED /\ (consecutive_collapsed l' <= consecutive_collapsed l + 1)%Z) /\
  (a = TRIP -> v = COLLAPSED /\ (sustain_evaluations t <= consecutive_collapsed l + 1)%Z).
Proof.
  unfold latch_step. intros E HS Hc.
  destruct (tripped && negb (Qeq_bool (tripped_at l) 0) && Qle_bool (effective_max_hold_s t) (now - tripped_at l)).
  { simplify_eq/=. split; [lia|]. split; [by left|done]. }
  destruct v; [destruct (tripped && _)| |]; simplify_eq/=.
  - split; [lia|]. split; [by left|done].
  - split; [lia|]. split; [by left|done].
  - destruct (negb tripped && _) eqn:B; simplify_eq/=.
    + apply andb_true_iff in B as [_ B%Z.leb_le]. split; [lia|]. split; [by left|]. split; [done|lia].
    + split; [lia|]. split; [right; split; [done|lia]|done].
  - split; [lia|]. split; [by left|done].
Qed.

(** What one latch step does to the hold. *)
Lemma latch_hold t tripped v now l a l' :
  latch_step t tripped v now l = (a, l') ->
  (a = TRIP -> tripped = false /\ tripped_at l' = now) /\
  (a = STAY -> tripped_at l' = tripped_at l /\
     (tripped = true -> ~ tripped_at l == 0 -> now - tripped_at l < effective_max_hold_s t)).
Proof.
  unfold latch_step. intros E.
  destruct (Qleb_spec (effective_max_hold_s t) (now - tripped_at l)) as [H|H];
    destruct (Qeqb_spec (tripped_at l) 0) as [H0|H0]; destruct tripped, v; simpl in E;
    repeat case_match; simplify_eq/=; (split; [done|]); intros; try done.
Qed.

Section Runs.
Context (roles : dict string string) (s0 : GoodputState) (ep : string) (t : GoodputThresholds).
Context (Hfresh : ep ∉ gs_collapsed s0) (Harmed : armed t = true).

(** The looks at [ep] all see the same thresholds. *)
Definition steady (ls : list PollLook) : Prop :=
  Forall (fun l => looked_at roles l = ep -> goodput_thresholds (lk_cfg l) = t /\ 0 < lk_now l) ls.

Lemma steady_snoc ls l : steady (ls ++ [l]) ->
  steady ls /\ (looked_at roles l = ep -> goodput_thresholds (lk_cfg l) = t /\ 0 < lk_now l).
Proof. unfold steady. by rewrite Forall_app, Forall_singleton. Qed.

Lemma sustained_inv ls : latch_of s0 ep = new_latch -> steady ls ->
  (0 <= consecutive_collapsed (latch_of (poll roles s0 ls) ep) <= sustain_evaluations t)%Z /\
  replicate (Z.to_nat (consecutive_collapsed (latch_of (poll roles s0 ls) ep))) COLLAPSED
    `suffix_of` verdicts roles ep s0 ls.
Proof using All.
  intros Hl. destruct (armed_inv t Harmed) as [_ HS]. induction ls as [|l ls IH] using rev_ind; intros Hst.
  { unfold poll. simpl. rewrite Hl. simpl. split; [lia|]. apply suffix_nil. }
  apply steady_snoc in Hst as [Hst Hl0]. destruct (IH Hst) as [Hb Hs].
  rewrite poll_snoc, verdicts_snoc. case_bool_decide as Hep.
  - destruct (Hl0 Hep) as [Et _]. destruct (look_armed roles (poll roles s0 ls) l) as (v & a & Hv & Hstep & _);
      [by rewrite Et|]. rewrite Hep, Et in *. rewrite Hv.
    destruct (latch_counts _ _ _ _ _ _ _ Hstep HS Hb) as (Hb' & [H0|[-> H1]] & _); (split; [done|]).
    + rewrite H0. apply suffix_nil.
    + eapply replicate_suffix_snoc; [done|lia|done].
  - destruct (look_other roles (poll roles s0 ls) l ep ltac:(congruence)) as [-> _]. by rewrite app_nil_r.
Qed.

(** The state of a hold along a run. *)
Lemma hold_inv ls : steady ls -> ep ∈ gs_collapsed (poll roles s0 ls) ->
  exists pre l0 post, ls = pre ++ l0 :: post /\ looked_at roles l0 = ep /\
    ep ∉ gs_collapsed (poll roles s0 pre) /\ ep ∈ gs_collapsed (poll roles s0 (pre ++ [l0])) /\
    tripped_at (latch_of (poll roles s0 ls) ep) = lk_now l0 /\ 0 < lk_now l0.
Proof using All.
  induction ls as [|l ls IH] using rev_ind; intros Hst Hin; [done|].
  apply steady_snoc in Hst as [Hst Hl0]. rewrite poll_snoc in *.
  destruct (decide (looked_at roles l = ep)) as [Hep|Hep].
  - destruct (Hl0 Hep) as [Et Hnow]. destruct (look_armed roles (poll roles s0 ls) l) as (v & a & _ & Hstep & Hc & _);
      [by rewrite Et|]. rewrite Hep, Et in *. destruct (latch_hold _ _ _ _ _ _ _ Hstep) as [HT HS].
    rewrite Hc in Hin. destruct a; unfold acted in Hin.
    + destruct (HS eq_refl) as [Hta _]. destruct (IH Hst Hin) as (pre & l0 & post & -> & E0 & Hn & Hi & Ht & Hp).
      exists pre, l0, (post ++ [l]). rewrite <- app_assoc. split; [done|]. split; [done|]. split; [done|]. split; [done|].
      split; [by rewrite Hta|done].
    + destruct (HT eq_refl) as [Hd Hta]. exists ls, l, []. split; [done|]. split; [done|].
      apply bool_decide_eq_false in Hd. split; [done|]. rewrite poll_snoc, Hc. split; [set_solver|]. split; done.
    + set_solver.
  - destruct (look_other roles (poll roles s0 ls) l ep ltac:(congruence)) as [Hlt Hio]. apply Hio in Hin.
    destruct (IH Hst Hin) as (pre & l0 & post & -> & E0 & Hn & Hi & Ht & Hp).
    exists pre, l0, (post ++ [l]). rewrite <- app_assoc. split; [done|]. split; [done|]. split; [done|]. split; [done|].
    split; [by rewrite Hlt|done].
Qed.
End Runs.

(** ** Properties *)

(** The detector decides the published rule.  [evaluate] never raises, on any
    sequence of samples, and its verdict is [COLLAPSED] exactly when the
    endpoint is armed and the trailing window, long enough, without a counter
    reset and with every counter a configured clause needs present in every
    sample, shows the slots busy and each configured progress clause below its
    threshold: blindness never reads as collapse. *)
Theorem evaluate_collapses_iff ep t now m :
  exists v m', evaluate ep t now m = (Ret v, m') /\
    (outcome v = COLLAPSED <-> wedged t (window_at m ep now)).
Proof.
  destruct (evaluate_spec ep t now m) as (v & m' & E & _ & H). eauto.
Qed.

(** A trip needs a sustained collapse: whatever the poller saw of this and of
    other endpoints, an endpoint enters the collapsed set only at a look that
    ends a run of [sustain_evaluations] consecutive [COLLAPSED] verdicts of its
    own. *)
Theorem trip_needs_sustained_collapse roles s0 ep t ls l :
  ep ∉ gs_collapsed s0 -> latch_of s0 ep = new_latch -> armed t = true -> steady roles ep t (ls ++ [l]) ->
  ep ∉ gs_collapsed (poll roles s0 ls) -> ep ∈ gs_collapsed (poll roles s0 (ls ++ [l])) ->
  replicate (Z.to_nat (sustain_evaluations t)) COLLAPSED `suffix_of` verdicts roles ep s0 (ls ++ [l]).
Proof.
  intros Hf Hl Ha Hst Hout Hin.
  apply steady_snoc in Hst as [Hst Hl0].
  destruct (sustained_inv roles s0 ep t Hf Ha ls Hl Hst) as [Hb Hs]. rewrite poll_snoc in Hin.
  destruct (decide (looked_at roles l = ep)) as [Hep|Hep].
  2:{ destruct (look_other roles (poll roles s0 ls) l ep ltac:(congruence)) as [_ Ho]. tauto. }
  destruct (Hl0 Hep) as [Et _]. destruct (look_armed roles (poll roles s0 ls) l) as (v & a & Hv & Hstep & Hc & _);
    [by rewrite Et|]. rewrite Hep, Et in *. rewrite Hc in Hin. destruct a; unfold acted in Hin; [tauto| |set_solver].
  destruct (latch_counts _ _ _ _ _ _ _ Hstep) as (_ & _ & HT); [by apply armed_inv|done|].
  destruct (HT eq_refl) as [Ev Hc1]. rewrite verdicts_snoc, bool_decide_eq_true_2, Hv, Ev by done.
  eapply replicate_suffix_snoc; [done|lia|done].
Qed.

(** No trip is held for ever: an endpoint still in the collapsed set after a
    look at it was put there at an earlier look (or this one) less than the
    maximum hold before, even if every verdict since was [UNKNOWN]. *)
Theorem hold_is_bounded roles s0 ep t ls l :
  ep ∉ gs_collapsed s0 -> armed t = true -> 0 < effective_max_hold_s t -> steady roles ep t (ls ++ [l]) ->
  looked_at roles l = ep -> ep ∈ gs_collapsed (poll roles s0 (ls ++ [l])) ->
  exists pre l0 post, ls ++ [l] = pre ++ l0 :: post /\ looked_at roles l0 = ep /\
    ep ∉ gs_collapsed (poll roles s0 pre) /\ ep ∈ gs_collapsed (poll roles s0 (pre ++ [l0])) /\
    lk_now l - lk_now l0 < effective_max_hold_s t.
Proof.
  intros Hf Ha Hh Hst Hep Hin.
  destruct (hold_inv roles s0 ep t Hf Ha (ls ++ [l]) Hst Hin) as (pre & l0 & post & E & E0 & Hn & Hi & Ht & Hp).
  exists pre, l0, post. repeat (split; [done|]).
  apply steady_snoc in Hst as [Hst Hl0]. destruct (Hl0 Hep) as [Et _].
  rewrite poll_snoc in Hin, Ht.
  destruct (look_armed roles (poll roles s0 ls) l) as (v & a & _ & Hstep & Hc & _); [by rewrite Et|].
  rewrite Hep, Et in *. destruct (latch_hold _ _ _ _ _ _ _ Hstep) as [HT HS].
  rewrite Hc in Hin. destruct a; unfold acted in Hin; [| |set_solver].
  - destruct (HS eq_refl) as [Hta Hlt]. rewrite <- Ht, Hta. apply Hlt; [by apply bool_decide_eq_true|].
    rewrite <- Hta, Ht. lra.
  - destruct (HT eq_refl) as [_ Hta]. rewrite <- Ht, Hta. lra.
Qed.

(** ** Witnesses *)

Definition gp_ep : EndpointConfig :=
  {| endpoint_class := "tier3"; role := "tier3"; max_slots := 8; context_per_slot := 4096; min_expected_slots := 0;
     failover_to := ""; goodput_min_running := 4; goodput_sustain_evaluations := 2;
     goodput_max_iteration_rate := 1; goodput_max_generation_tps := 1 # 2; goodput_max_prefill_tps := 300;
     goodput_recovery_evaluations := 0; goodput_max_hold_s := 0; goodput_busy_min := 0;
     failover_dwell_s := 60; spill_to := ""; background_floor_pct := 1 # 4;
     fast_path_reserve_slots := 0; dispatch_concurrency_cap := 0 |}.

(** A look that finds six slots busy and the counters where they were. *)
Definition gp_look (now : Q) : PollLook :=
  {| lk_name := "tier3"; lk_cfg := gp_ep; lk_busy := None; lk_now := now;
     lk_progress := Some [(K_iterations, Some 100); (K_generation, Some 50); (K_prompt, Some 9000); (K_running, Some 6)] |}.

Definition gp_start : GoodputState :=
  {| gs_monitor := new_monitor RING_CAPACITY RATE_WINDOW_S; gs_verdicts := []; gs_collapsed := ∅;
     gs_enforce := true; gs_events := [] |}.

Example gp_trip :
  gs_events (poll [] gp_start [gp_look 10; gp_look 20; gp_look 30]) = [GE_fast_fail_interactive "tier3"] /\
  verdicts [] "tier3" gp_start [gp_look 10; gp_look 20; gp_look 30] = [UNKNOWN; COLLAPSED; COLLAPSED].
Proof. by vm_compute. Qed.

Lemma gp_steady l : Forall (fun x => 0 < lk_now x /\ lk_cfg x = gp_ep) l -> steady [] "tier3" (goodput_thresholds gp_ep) l.
Proof. intros H. eapply Forall_impl; [exact H|]. intros x [? ->] _. done. Qed.

Lemma trip_needs_sustained_collapse_witness :
  replicate 2 COLLAPSED `suffix_of` verdicts [] "tier3" gp_start ([gp_look 10; gp_look 20] ++ [gp_look 30]).
Proof.
  apply (trip_needs_sustained_collapse [] gp_start "tier3" (goodput_thresholds gp_ep) [gp_look 10; gp_look 20] (gp_look 30)).
  - apply (bool_decide_unpack _). by vm_compute.
  - reflexivity.
  - reflexivity.
  - apply gp_steady. by repeat constructor.
  - apply (bool_decide_unpack _). by vm_compute.
  - apply (bool_decide_unpack _). by vm_compute.
Defined.

Lemma hold_is_bounded_witness :
  exists pre l0 post, [gp_look 10; gp_look 20; gp_look 30] ++ [gp_look 40] = pre ++ l0 :: post /\
    looked_at [] l0 = "tier3"%string /\
    "tier3"%string ∉ gs_collapsed (poll [] gp_start pre) /\
    "tier3"%string ∈ gs_collapsed (poll [] gp_start (pre ++ [l0])) /\
    lk_now (gp_look 40) - lk_now l0 < effective_max_hold_s (goodput_thresholds gp_ep).
Proof.
  apply (hold_is_bounded [] gp_start "tier3" (goodput_thresholds gp_ep) [gp_look 10; gp_look 20; gp_look 30] (gp_look 40)).
  - apply (bool_decide_unpack _). by vm_compute.
  - reflexivity.
  - by vm_compute.
  - apply gp_steady. by repeat constructor.
  - reflexivity.
  - apply (bool_decide_unpack _). by vm_compute.
Defined.
