(* ===== verification/Timeout.v ===== *)
(** * Timeout advice (timeout_model.py; state.py, [effective_timeout_advice])

    [TimeoutModel]: the latency cells, the fallback ladder with its memo table,
    the monotonicity guard, the decode-rate floor, and the load and size
    uplift bounded by the ceiling.  Two numbers the source computes with the C
    mathematical library, the natural logarithm and the size-unit ratio (a
    fourth root), are parameters. *)

From Stdlib Require Import QArith Qround Lqa Lia ZArith.
From stdpp Require Import base list strings sorting.
From S2P Require Import Prelude PyDict PyText Config Budget Json Cost Queue Scheduler.

Local Open Scope Q_scope.

(** ** Constants and pure helpers *)

Definition FLOOR_S : dict string Q :=
  [("tier3"%string, 180); ("tier2"%string, 120); ("tier1"%string, 60); ("embed"%string, 15); ("rerank"%string, 10)].

Definition DEFAULT_FLOOR_S : Q := 60.
Definition INTERACTIVE_CEILING_S : Q := 600.
Definition BACKGROUND_CEILING_S : Q := 1800.
Definition DECODE_FLOOR_MARGIN : Q := 5 # 4.
Definition OUT_EDGES : list Z := [128; 512; 2048; 8192]%Z.
Definition IN_EDGES : list Z := [1024; 4096; 16384; 32768; 65536; 131072; 262144]%Z.
Definition UNKNOWN_OUT_PCT : Q := 95.
Definition UNKNOWN_OUT_FALLBACK_BUCKET : nat := 2.
Definition SIZE_STRETCH_REF_TOKENS : Z := 16384.

(** [resolve_ceiling_s] *)
Definition resolve_ceiling_s (roles : dict string string) (endpoint : string) (interactive : bool)
    (role_ceilings : dict string Q) (floor_s interactive_s background_s : Q) : Q :=
  let ep := normalize_endpoint roles endpoint in
  let band := if interactive then interactive_s else background_s in
  let ceiling := match dget role_ceilings ep with
                 | Some o => if Qltb 0 o then o else band
                 | None => band
                 end in
  pymax ceiling floor_s.

(** [decode_rate_floor_ms] *)
Definition decode_rate_floor_ms (est_out : Z) (decode_tok_s : Q) : Q :=
  if Qle_bool decode_tok_s 0 || (est_out <=? 0)%Z then 0
  else pymin (inject_Z est_out / decode_tok_s * DECODE_FLOOR_MARGIN) BACKGROUND_CEILING_S * 1000.

(** [surge_factor] *)
Definition surge_factor (in_flight queued slots : Z) (k_load surge_max : Q) : Q :=
  if (slots <=? 0)%Z then 1
  else
    let over := pymax 0 (inject_Z (in_flight + queued - slots) / inject_Z slots) in
    1 + k_load * pymin over surge_max.

(** [size_stretch], at its default reference and exponent. *)
Definition size_stretch (log : Q -> Q) (unit_ratio : Q) (est_in : Z) (k_size size_max : Q) : Q :=
  if (est_in <=? SIZE_STRETCH_REF_TOKENS)%Z then 1
  else
    let ref := inject_Z SIZE_STRETCH_REF_TOKENS in
    let linear := pymin (inject_Z (est_in - SIZE_STRETCH_REF_TOKENS) / ref) size_max in
    let units := log (inject_Z est_in / ref) / log unit_ratio in
    let capped := pymin units size_max in
    1 + k_size * pymax linear (capped * capped).

(** [bisect_left] on ascending edges. *)
Fixpoint bisect_left (edges : list Z) (x : Z) : nat :=
  match edges with
  | [] => 0
  | e :: edges' => if (e <? x)%Z then S (bisect_left edges' x) else 0
  end.

(** [_bucket] *)
Definition bucket (n : Z) (edges : list Z) : nat := bisect_left edges (Z.max 0 n).

(** [percentile]; the index is in range, the list not being empty. *)
Definition percentile (sorted_values : list Q) (pct : Z) : Q :=
  match sorted_values with
  | [] => 0
  | _ =>
      let idx := Z.quot (Z.of_nat (length sorted_values) * pct) 100 in
      let idx := Z.min idx (Z.of_nat (length sorted_values) - 1) in
      from_option id 0 (sorted_values !! Z.to_nat idx)
  end.

(** ** The model *)

(** [(endpoint_class, priority, in_bucket, out_bucket)] *)
Definition CellKey : Type := string * Z * nat * nat.

Record TimeoutModel := {
  tm_margin : Q;
  tm_window_s : Q;
  tm_min_samples : Z;
  tm_max_per_cell : Z;
  tm_floors : dict string Q;
  tm_decode_rates : dict string Q;
  tm_cells : dict CellKey (list (Q * Q));
}.

Definition set_cells (c : dict CellKey (list (Q * Q))) (m : TimeoutModel) : TimeoutModel :=
  {| tm_margin := tm_margin m; tm_window_s := tm_window_s m; tm_min_samples := tm_min_samples m;
     tm_max_per_cell := tm_max_per_cell m; tm_floors := tm_floors m; tm_decode_rates := tm_decode_rates m;
     tm_cells := c |}.

(** [record] *)
Definition tm_record (roles : dict string string) (endpoint : string) (priority input_tokens output_tokens : Z)
    (end_to_end_ms : Q) (status : string) (now : Q) (m : TimeoutModel) : TimeoutModel :=
  if negb (String.eqb status "ok") || Qle_bool end_to_end_ms 0 then m
  else
    let key := (normalize_endpoint roles endpoint, priority, bucket input_tokens IN_EDGES,
                bucket output_tokens OUT_EDGES) in
    let cell := from_option id [] (dget (tm_cells m) key) in
    set_cells (dset (tm_cells m) key (append_maxlen (Z.to_nat (tm_max_per_cell m)) cell (now, end_to_end_ms))) m.

(** [prune] *)
Definition tm_prune (now : Q) (m : TimeoutModel) : TimeoutModel :=
  let cutoff := now - tm_window_s m in
  let cells := dmap (drop_while (fun s : Q * Q => Qltb s.1 cutoff)) (tm_cells m) in
  let empty := map fst (filter (fun kv => kv.2 = []) cells) in
  set_cells (ddel_all cells empty) m.

(** A filter of [_collect]: [None] aggregates over the dimension. *)
Definition CellFilter : Type := option Z * option nat * option nat.

Definition matches {A} `{EqDecision A} (o : option A) (x : A) : bool :=
  match o with
  | Some y => bool_decide (x = y)
  | None => true
  end.

(** [_collect] *)
Definition collect (m : TimeoutModel) (ep : string) (f : CellFilter) : list Q :=
  match f with
  | (Some p, Some i, Some o) =>
      match dget (tm_cells m) (ep, p, i, o) with
      | Some cell => map snd cell
      | None => []
      end
  | (p, i, o) =>
      concat (map (fun kv : CellKey * list (Q * Q) =>
                     let '(k_ep, k_pri, k_in, k_out) := kv.1 in
                     if bool_decide (k_ep = ep) && matches p k_pri && matches i k_in && matches o k_out
                     then map snd kv.2 else []) (tm_cells m))
  end.

Definition floor_ms (roles : dict string string) (m : TimeoutModel) (endpoint : string) : Q :=
  from_option id DEFAULT_FLOOR_S (dget (tm_floors m) (normalize_endpoint roles endpoint)) * 1000.

Definition decode_floor_ms (roles : dict string string) (m : TimeoutModel) (endpoint : string) (est_out : Z) : Q :=
  decode_rate_floor_ms est_out (from_option id 0 (dget (tm_decode_rates m) (normalize_endpoint roles endpoint))).

(** The output-size histogram of the cells a predicate selects. *)
Definition out_counts (m : TimeoutModel) (keep : string -> Z -> bool) : dict nat Z :=
  foldl (fun c (kv : CellKey * list (Q * Q)) =>
           let '(k_ep, k_pri, _, k_out) := kv.1 in
           if keep k_ep k_pri
           then dset c k_out (from_option id 0%Z (dget c k_out) + Z.of_nat (length kv.2))%Z else c)
        [] (tm_cells m).

(** The first bucket, in ascending order, at which the running count reaches
    [target]. *)
Fixpoint reach (counts : dict nat Z) (target : Q) (cum : Z) (bs : list nat) : option nat :=
  match bs with
  | [] => None
  | b :: bs' =>
      let cum := (cum + from_option id 0 (dget counts b))%Z in
      if Qle_bool target (inject_Z cum) then Some b else reach counts target cum bs'
  end.

(** [_resolve_unknown_out_bucket] *)
Definition resolve_unknown_out_bucket (m : TimeoutModel) (ep : string) (pri : Z) : nat :=
  let counts := out_counts m (fun e p => bool_decide (e = ep) && bool_decide (p = pri)) in
  let counts := if bool_decide (counts = []) then out_counts m (fun e _ => bool_decide (e = ep)) else counts in
  if bool_decide (counts = []) then UNKNOWN_OUT_FALLBACK_BUCKET
  else
    let target := inject_Z (foldr Z.add 0%Z (dvals counts)) * UNKNOWN_OUT_PCT / 100 in
    let sorted := isort Nat.leb (dkeys counts) in
    match reach counts target 0 sorted with
    | Some b => b
    | None => foldr Nat.max 0%nat (dkeys counts)
    end.

(** ** Advice *)

(** The levels of the fallback ladder, with the names reported as [source]. *)
Definition levels (pri : Z) (in_b out_b : nat) : list (string * CellFilter) :=
  [("cell"%string, (Some pri, Some in_b, Some out_b)); ("tier_out"%string, (Some pri, None, Some out_b));
   ("tier"%string, (Some pri, None, None)); ("endpoint"%string, (None, None, None))].

(** The memo table of one [advise] call. *)
Definition Memo : Type := dict CellFilter (list Q).

(** [_collect] through the memo table, if there is one. *)
Definition collect_memo (m : TimeoutModel) (ep : string) (f : CellFilter) (cache : option Memo)
  : list Q * option Memo :=
  match cache with
  | None => (collect m ep f, None)
  | Some c =>
      match dget c f with
      | Some l => (l, cache)
      | None => let l := collect m ep f in (l, Some (dset c f l))
      end
  end.

(** The search for the first level with enough samples. *)
Fixpoint ladder (m : TimeoutModel) (ep : string) (ls : list (string * CellFilter)) (cache : option Memo)
  : option (string * CellFilter * list Q) * option Memo :=
  match ls with
  | [] => (None, cache)
  | (name, f) :: ls' =>
      let '(l, cache) := collect_memo m ep f cache in
      if (tm_min_samples m <=? Z.of_nat (length l))%Z then (Some (name, f, l), cache)
      else ladder m ep ls' cache
  end.

Record Rung := {
  rg_min : Q;
  rg_median : Q;
  rg_p95 : Q;
  rg_recommended : Q;
  rg_n : Z;
  rg_source : string;
}.

(** [_advise_at]; [samples.sort()] sorts the memoised list in place. *)
Definition advise_at (m : TimeoutModel) (ep : string) (pri : Z) (in_b out_b : nat) (floor : Q)
    (cache : option Memo) : Rung * option Memo :=
  let '(found, cache) := ladder m ep (levels pri in_b out_b) cache in
  let source := match found with Some (name, _, _) => name | None => "floor"%string end in
  let cold := {| rg_min := floor; rg_median := floor; rg_p95 := floor; rg_recommended := floor; rg_n := 0;
                 rg_source := source |} in
  match found with
  | Some (_, f, x :: l) =>
      let samples := isort Qle_bool (x :: l) in
      ({| rg_min := from_option id 0 (head samples); rg_median := percentile samples 50;
          rg_p95 := percentile samples 95;
          rg_recommended := pymax (percentile samples 99 * tm_margin m) floor;
          rg_n := Z.of_nat (length samples); rg_source := source |},
       (fun c => dset c f samples) <$> cache)
  | _ => (cold, cache)
  end.

(** The loop variables of the monotonicity guard. *)
Record Guard := {
  gd_recommended : Q;
  gd_lifted_out : option nat;
  gd_lifted_in : option nat;
  gd_cache : option Memo;
}.

Definition guard_cell (m : TimeoutModel) (ep : string) (pri : Z) (in_b out_b : nat) (floor : Q)
    (g : Guard) (lo : nat * nat) : Guard :=
  if bool_decide (lo = (in_b, out_b)) then g
  else
    let '(r, cache) := advise_at m ep pri lo.1 lo.2 floor (gd_cache g) in
    if Qltb (gd_recommended g) (rg_recommended r) then
      {| gd_recommended := rg_recommended r;
         gd_lifted_out := if (lo.2 <? out_b)%nat then Some lo.2 else None;
         gd_lifted_in := if (lo.1 <? in_b)%nat then Some lo.1 else None;
         gd_cache := cache |}
    else
      {| gd_recommended := gd_recommended g; gd_lifted_out := gd_lifted_out g; gd_lifted_in := gd_lifted_in g;
         gd_cache := cache |}.

(** [for lo_in in range(in_b + 1): for lo_out in range(out_b + 1)] *)
Definition lattice (in_b out_b : nat) : list (nat * nat) :=
  concat (map (fun i => map (fun o => (i, o)) (seq 0 (S out_b))) (seq 0 (S in_b))).

(** The answer; the optional keys of the dictionary are options. *)
Record Advice := {
  ad_min_ms : Q;
  ad_median_ms : Q;
  ad_p95_ms : Q;
  ad_recommended_ms : Q;
  ad_recommended_timeout_s : Z;
  ad_sample_count : Z;
  ad_source : string;
  ad_out_bucket_unknown_resolved_to : option nat;
  ad_lift_from_out_bucket : option nat;
  ad_lift_from_in_bucket : option nat;
  ad_decode_floor_applied_ms : option Q;
  ad_uplift : option (Q * Q * Q);
}.

(** [advise], from a given memo table; the source starts from an empty one. *)
Definition advise_from (cache : option Memo) (roles : dict string string) (m : TimeoutModel)
    (endpoint : string) (pri est_in est_out : Z) : Advice :=
  let ep := normalize_endpoint roles endpoint in
  let in_b := bucket est_in IN_EDGES in
  let out_unknown := (est_out <=? 0)%Z in
  let out_b := if out_unknown then resolve_unknown_out_bucket m ep pri else bucket est_out OUT_EDGES in
  let floor := floor_ms roles m ep in
  let '(r, cache) := advise_at m ep pri in_b out_b floor cache in
  let g := foldl (guard_cell m ep pri in_b out_b floor)
             {| gd_recommended := rg_recommended r; gd_lifted_out := None; gd_lifted_in := None; gd_cache := cache |}
             (lattice in_b out_b) in
  let decode_floor := decode_floor_ms roles m ep est_out in
  let applied := Qltb (gd_recommended g) decode_floor in
  let recommended := if applied then decode_floor else gd_recommended g in
  {| ad_min_ms := py_round 1 (rg_min r); ad_median_ms := py_round 1 (rg_median r);
     ad_p95_ms := py_round 1 (rg_p95 r); ad_recommended_ms := py_round 1 recommended;
     ad_recommended_timeout_s := Qceiling (recommended / 1000);
     ad_sample_count := rg_n r; ad_source := rg_source r;
     ad_out_bucket_unknown_resolved_to := if out_unknown then Some out_b else None;
     ad_lift_from_out_bucket := gd_lifted_out g; ad_lift_from_in_bucket := gd_lifted_in g;
     ad_decode_floor_applied_ms := if applied then Some (py_round 1 decode_floor) else None;
     ad_uplift := None |}.

Definition advise := advise_from (Some []).

(** ** The uplift for load and size *)

(** [apply_load_and_ceiling] *)
Definition apply_load_and_ceiling (log : Q -> Q) (unit_ratio recommended_ms : Q) (in_flight queued slots est_in : Z)
    (ceiling_ms k_load surge_max k_size size_max : Q) : Q * Q * Q :=
  let surge := surge_factor in_flight queued slots k_load surge_max in
  let stretch := size_stretch log unit_ratio est_in k_size size_max in
  (pymin (recommended_ms * surge * stretch) ceiling_ms, surge, stretch).

(** The [timeout_*] fields of the proxy configuration. *)
Record TimeoutKnobs := {
  timeout_surge_k : Q;
  timeout_surge_max : Q;
  timeout_size_k : Q;
  timeout_size_max : Q;
  timeout_ceiling_interactive_s : Q;
  timeout_ceiling_background_s : Q;
}.

(** The ceiling [effective_timeout_advice] resolves, in seconds. *)
Definition effective_ceiling_s (roles : dict string string) (m : TimeoutModel) (k : TimeoutKnobs)
    (ceilings : dict string Q) (endpoint : string) (pri est_out : Z) : Q :=
  resolve_ceiling_s roles endpoint (pri <=? 2)%Z ceilings
    (pymax (floor_ms roles m endpoint / 1000) (decode_floor_ms roles m endpoint est_out / 1000))
    (timeout_ceiling_interactive_s k) (timeout_ceiling_background_s k).

(** [effective_timeout_advice]; nothing inside its [try] raises on these types,
    so the handler that returns the raw advice is not reached. *)
Definition effective_timeout_advice (log : Q -> Q) (unit_ratio : Q) (roles : dict string string)
    (m : TimeoutModel) (k : TimeoutKnobs) (ceilings : dict string Q) (s : Sched)
    (endpoint : string) (pri est_in est_out : Z) : Advice :=
  let advice := advise roles m endpoint pri est_in est_out in
  let snap := endpoint_snapshot s (normalize_endpoint roles endpoint) in
  let ceiling_s := effective_ceiling_s roles m k ceilings endpoint pri est_out in
  let '(effective, surge, stretch) :=
    apply_load_and_ceiling log unit_ratio (ad_recommended_ms advice) (es_in_flight snap) (es_queued snap)
      (es_max_slots snap) est_in (ceiling_s * 1000) (timeout_surge_k k) (timeout_surge_max k)
      (timeout_size_k k) (timeout_size_max k) in
  {| ad_min_ms := ad_min_ms advice; ad_median_ms := ad_median_ms advice; ad_p95_ms := ad_p95_ms advice;
     ad_recommended_ms := py_round 1 effective;
     ad_recommended_timeout_s := Qceiling (effective / 1000);
     ad_sample_count := ad_sample_count advice; ad_source := ad_source advice;
     ad_out_bucket_unknown_resolved_to := ad_out_bucket_unknown_resolved_to advice;
     ad_lift_from_out_bucket := ad_lift_from_out_bucket advice;
     ad_lift_from_in_bucket := ad_lift_from_in_bucket advice;
     ad_decode_floor_applied_ms := ad_decode_floor_applied_ms advice;
     ad_uplift := Some (py_round 3 surge, py_round 3 stretch, py_round 1 ceiling_s) |}.

(** ** The memo table *)

Definition memo_ok (m : TimeoutModel) (ep : string) (cache : option Memo) : Prop :=
  forall c f l, cache = Some c -> dget c f = Some l -> l = collect m ep f \/ l = isort Qle_bool (collect m ep f).

(** Two answers of the ladder that differ at most in the order of the samples. *)
Definition same_find (a b : option (string * CellFilter * list Q)) : Prop :=
  match a, b with
  | Some (n, f, l), Some (n', f', l') => n = n' /\ f = f' /\ (l = l' \/ l = isort Qle_bool l')
  | None, None => True
  | _, _ => False
  end.

Lemma isort_length {A} (leb : A -> A -> bool) l : length (isort leb l) = length l.
Proof. apply Permutation_length, isort_perm. Qed.

Lemma Qle_bool_total x y : Qle_bool x y = false -> Qle_bool y x = true.
Proof. destruct (Qleb_spec x y); [done|]. intros _. apply Qle_bool_iff. lra. Qed.

Lemma Qle_bool_trans x y z : Qle_bool x y = true -> Qle_bool y z = true -> Qle_bool x z = true.
Proof. rewrite !Qle_bool_iff. lra. Qed.

Lemma sort_twice l : isort Qle_bool (isort Qle_bool l) = isort Qle_bool l.
Proof. apply isort_idem; [exact Qle_bool_total|exact Qle_bool_trans]. Qed.

Lemma memo_ok_dset m ep c f l : memo_ok m ep (Some c) ->
  l = collect m ep f \/ l = isort Qle_bool (collect m ep f) -> memo_ok m ep (Some (dset c f l)).
Proof.
  intros H Hl c' f' l' [= <-]. rewrite dget_dset. case_decide; [|by apply H]. intros. by simplify_eq.
Qed.

Lemma collect_memo_ok m ep f cache : memo_ok m ep cache ->
  memo_ok m ep (collect_memo m ep f cache).2 /\
  ((collect_memo m ep f cache).1 = collect m ep f \/
   (collect_memo m ep f cache).1 = isort Qle_bool (collect m ep f)).
Proof.
  intros H. destruct cache as [c|]; simpl; [|by split; [|left]].
  destruct (dget c f) as [l|] eqn:E; simpl; [by split; [|eapply H]|].
  split; [|by left]. apply memo_ok_dset; [done|by left].
Qed.

Lemma ladder_memo m ep ls : forall cache, memo_ok m ep cache ->
  memo_ok m ep (ladder m ep ls cache).2 /\ same_find (ladder m ep ls cache).1 (ladder m ep ls None).1 /\
  forall n f l, (ladder m ep ls None).1 = Some (n, f, l) -> l = collect m ep f.
Proof.
  induction ls as [|[n f] ls IH]; intros cache H; simpl; [done|].
  destruct (collect_memo_ok m ep f cache H) as [Hm Hl]. destruct (collect_memo m ep f cache) as [l cache'].
  simpl in Hm, Hl. assert (length l = length (collect m ep f)) as EL.
  { destruct Hl as [->| ->]; [done|]. by rewrite isort_length. }
  rewrite EL. destruct (tm_min_samples m <=? Z.of_nat (length (collect m ep f)))%Z; simpl.
  - split; [done|]. split; [done|]. by intros ? ? ? [= <- <- <-].
  - apply (IH cache' Hm).
Qed.

(** The memo table changes no answer of [_advise_at]. *)
Lemma advise_at_memo m ep pri i o fl cache : memo_ok m ep cache ->
  (advise_at m ep pri i o fl cache).1 = (advise_at m ep pri i o fl None).1 /\
  memo_ok m ep (advise_at m ep pri i o fl cache).2.
Proof.
  intros H. unfold advise_at. destruct (ladder_memo m ep (levels pri i o) cache H) as (Hm & Hs & Hc).
  destruct (ladder m ep (levels pri i o) cache) as [r c], (ladder m ep (levels pri i o) None) as [r' c'].
  cbn [fst snd] in *. destruct r as [[[n f] l]|], r' as [[[n' f'] l']|]; simpl in Hs; try done.
  destruct Hs as (<- & <- & Hl). specialize (Hc _ _ _ eq_refl). subst l'.
  assert (isort Qle_bool l = isort Qle_bool (collect m ep f)) as Es.
  { destruct Hl as [->| ->]; [done|]. apply sort_twice. }
  assert (length l = length (collect m ep f)) as EL.
  { destruct Hl as [->| ->]; [done|]. by rewrite isort_length. }
  destruct l as [|x l], (collect m ep f) as [|x' l'] eqn:Ec; try done. rewrite Es. split; [done|].
  destruct c as [c|]; [|done]. apply memo_ok_dset; [done|]. right. by rewrite Ec.
Qed.

Lemma advise_at_none m ep pri i o fl : (advise_at m ep pri i o fl None).2 = None.
Proof.
  unfold advise_at. assert (forall ls, (ladder m ep ls None).2 = None) as Hl.
  { induction ls as [|[n f] ls IH]; simpl; [done|]. by case_match. }
  specialize (Hl (levels pri i o)). destruct (ladder m ep (levels pri i o) None) as [r c].
  simpl in Hl. subst c. by repeat case_match.
Qed.

(** The same guard state, the memo tables aside. *)
Definition same_guard (a b : Guard) : Prop :=
  gd_recommended a = gd_recommended b /\ gd_lifted_out a = gd_lifted_out b /\ gd_lifted_in a = gd_lifted_in b.

Lemma guard_memo m ep pri i o fl l : forall g g',
  memo_ok m ep (gd_cache g) -> gd_cache g' = None -> same_guard g g' ->
  same_guard (foldl (guard_cell m ep pri i o fl) g l) (foldl (guard_cell m ep pri i o fl) g' l).
Proof.
  induction l as [|lo l IH]; intros g g' Hm Hc Hs; simpl; [done|].
  unfold guard_cell at 2 4. case_bool_decide; [by apply IH|].
  destruct (advise_at_memo m ep pri lo.1 lo.2 fl (gd_cache g) Hm) as [E Hm'].
  rewrite Hc. pose proof (advise_at_none m ep pri lo.1 lo.2 fl) as Hn. destruct (advise_at m ep pri lo.1 lo.2 fl (gd_cache g)) as [r c].
  destruct (advise_at m ep pri lo.1 lo.2 fl None) as [r' c']. simpl in E, Hm', Hn. subst r' c'.
  destruct Hs as (E1 & E2 & E3). rewrite E1. apply IH; destruct (Qltb _ _); done.
Qed.

(** ** The value recommended *)

(** The ladder's recommendation for one cell. *)
Definition rung (m : TimeoutModel) (ep : string) (pri : Z) (fl : Q) (i o : nat) : Q :=
  rg_recommended (advise_at m ep pri i o fl None).1.

(** [advise]'s recommendation before it is rounded: the guard's, or the decode
    floor when that is greater. *)
Definition guarded (m : TimeoutModel) (ep : string) (pri : Z) (fl : Q) (i o : nat) : Q :=
  gd_recommended (foldl (guard_cell m ep pri i o fl)
    {| gd_recommended := rung m ep pri fl i o; gd_lifted_out := None; gd_lifted_in := None; gd_cache := None |}
    (lattice i o)).

Lemma guard_fold_le m ep pri i o fl x l : forall g, gd_cache g = None ->
  gd_recommended (foldl (guard_cell m ep pri i o fl) g l) <= x <->
  gd_recommended g <= x /\ forall lo, lo ∈ l -> lo <> (i, o) -> rung m ep pri fl lo.1 lo.2 <= x.
Proof.
  induction l as [|lo l IH]; intros g Hg; cbn [foldl].
  { split; [|by intros [? _]]. intros H. split; [done|]. intros lo Hlo. by apply not_elem_of_nil in Hlo. }
  setoid_rewrite elem_of_cons. unfold guard_cell at 2. case_bool_decide as E.
  { rewrite IH by done. naive_solver. }
  pose proof (advise_at_none m ep pri lo.1 lo.2 fl) as Hc. rewrite Hg.
  assert (rung m ep pri fl lo.1 lo.2 = rg_recommended (advise_at m ep pri lo.1 lo.2 fl None).1) as Er by done.
  destruct (advise_at m ep pri lo.1 lo.2 fl None) as [r c]. cbn [fst snd] in *. subst c. rewrite <- Er in *.
  destruct (Qltb_spec (gd_recommended g) (rung m ep pri fl lo.1 lo.2)) as [L|L];
    rewrite IH by done; cbn [gd_recommended]; split; intros [H1 H2].
  - split; [lra|]. intros lo' [->|Hlo] Hne; [done|auto].
  - split; [apply H2; [by left|done]|]. intros lo' Hlo. apply H2. by right.
  - split; [done|]. intros lo' [->|Hlo] Hne; [lra|auto].
  - split; [done|]. intros lo' Hlo. apply H2. by right.
Qed.

Lemma lattice_elem i o lo : lo ∈ lattice i o <-> (lo.1 <= i)%nat /\ (lo.2 <= o)%nat.
Proof.
  unfold lattice. rewrite list_elem_of_In, in_concat. split.
  - intros (l & Hl & Hlo). apply in_map_iff in Hl as (a & <- & Ha). apply in_map_iff in Hlo as (b & <- & Hb).
    apply in_seq in Ha, Hb. simpl. lia.
  - intros [H1 H2]. destruct lo as [a b]. exists (map (fun o => (a, o)) (seq 0 (S o))). split.
    + apply in_map_iff. exists a. split; [done|]. apply in_seq. simpl in H1. lia.
    + apply in_map_iff. exists b. split; [done|]. apply in_seq. simpl in H2. lia.
Qed.

(** The guard's value is the least upper bound of the ladder over the cells
    below. *)
Lemma guarded_le m ep pri fl i o x :
  guarded m ep pri fl i o <= x <->
  forall a b, (a <= i)%nat -> (b <= o)%nat -> rung m ep pri fl a b <= x.
Proof.
  unfold guarded. rewrite guard_fold_le by done. cbn [gd_recommended]. split.
  - intros [H0 H] a b Ha Hb. destruct (decide ((a, b) = (i, o))) as [[= -> ->]|Hne]; [done|].
    apply (H (a, b)); [by apply lattice_elem|done].
  - intros H. split; [by apply H|]. intros lo [Hi Ho]%lattice_elem _. by apply H.
Qed.

Lemma guarded_mono m ep pri fl i o i' o' : (i <= i')%nat -> (o <= o')%nat ->
  guarded m ep pri fl i o <= guarded m ep pri fl i' o'.
Proof.
  intros Hi Ho. apply guarded_le. intros a b Ha Hb.
  apply (proj1 (guarded_le m ep pri fl i' o' (guarded m ep pri fl i' o'))); [lra|lia|lia].
Qed.

Lemma rung_ge_floor m ep pri fl i o : fl <= rung m ep pri fl i o.
Proof.
  unfold rung, advise_at. destruct (ladder _ _ _ _) as [[[[n f] [|x l]]|] c]; simpl; try lra. apply pymax_ge_r.
Qed.

Lemma bisect_left_mono edges x y : (x <= y)%Z -> (bisect_left edges x <= bisect_left edges y)%nat.
Proof.
  intros H. induction edges as [|e edges IH]; simpl; [lia|].
  destruct (Z.ltb_spec e x), (Z.ltb_spec e y); lia.
Qed.

Lemma bucket_mono edges x y : (x <= y)%Z -> (bucket x edges <= bucket y edges)%nat.
Proof. intros H. apply bisect_left_mono. lia. Qed.

Lemma decode_floor_nonneg est_out r : 0 <= decode_rate_floor_ms est_out r.
Proof.
  unfold decode_rate_floor_ms. destruct (Qleb_spec r 0); simpl; [lra|]. destruct (Z.leb_spec est_out 0); simpl; [lra|].
  apply Qmult_le_0_compat; [|lra]. apply pymin_glb; [|unfold BACKGROUND_CEILING_S; lra].
  apply Qmult_le_0_compat; [|unfold DECODE_FLOOR_MARGIN; lra].
  apply Qle_shift_div_l; [done|]. rewrite Qmult_0_l. apply inject_Z_nonneg. lia.
Qed.

Lemma decode_floor_mono o o' r : (o <= o')%Z -> decode_rate_floor_ms o r <= decode_rate_floor_ms o' r.
Proof.
  intros H. unfold decode_rate_floor_ms at 1. destruct (Qleb_spec r 0); simpl; [apply decode_floor_nonneg|].
  destruct (Z.leb_spec o 0); simpl; [apply decode_floor_nonneg|].
  unfold decode_rate_floor_ms. destruct (Qleb_spec r 0); [lra|]. destruct (Z.leb_spec o' 0); [lia|]. simpl.
  apply Qmult_le_compat_r; [|lra]. apply pymin_mono; [|lra].
  apply Qmult_le_compat_r; [|unfold DECODE_FLOOR_MARGIN; lra].
  apply Qmult_le_compat_r; [by apply inject_Z_le|]. apply Qlt_le_weak, Qinv_lt_0_compat. done.
Qed.

Lemma advise_memo roles m e p i o : advise roles m e p i o = advise_from None roles m e p i o.
Proof.
  unfold advise, advise_from. set (ep := normalize_endpoint roles e). set (ib := bucket i IN_EDGES).
  set (ob := if (o <=? 0)%Z then _ else _). set (fl := floor_ms roles m ep).
  assert (memo_ok m ep (Some [])) as H0 by (intros c f l [= <-]; done).
  destruct (advise_at_memo m ep p ib ob fl (Some []) H0) as [E Hm].
  pose proof (advise_at_none m ep p ib ob fl) as Hn.
  destruct (advise_at m ep p ib ob fl (Some [])) as [r c], (advise_at m ep p ib ob fl None) as [r' c'].
  cbn [fst snd] in *. subst r' c'.
  destruct (guard_memo m ep p ib ob fl (lattice ib ob)
    {| gd_recommended := rg_recommended r; gd_lifted_out := None; gd_lifted_in := None; gd_cache := c |}
    {| gd_recommended := rg_recommended r; gd_lifted_out := None; gd_lifted_in := None; gd_cache := None |})
    as (-> & -> & ->); done.
Qed.

(** The output bucket a query is answered from. *)
Definition out_bucket (m : TimeoutModel) (ep : string) (pri est_out : Z) : nat :=
  if (est_out <=? 0)%Z then resolve_unknown_out_bucket m ep pri else bucket est_out OUT_EDGES.

Definition recommendation (roles : dict string string) (m : TimeoutModel) (endpoint : string)
    (pri est_in est_out : Z) : Q :=
  let ep := normalize_endpoint roles endpoint in
  pymax (guarded m ep pri (floor_ms roles m ep) (bucket est_in IN_EDGES) (out_bucket m ep pri est_out))
        (decode_floor_ms roles m ep est_out).

Lemma advise_recommendation roles m e p i o :
  ad_recommended_ms (advise roles m e p i o) = py_round 1 (recommendation roles m e p i o) /\
  ad_recommended_timeout_s (advise roles m e p i o) = Qceiling (recommendation roles m e p i o / 1000).
Proof.
  rewrite advise_memo. unfold advise_from, recommendation, guarded, rung. fold (out_bucket m (normalize_endpoint roles e) p o).
  set (ep := normalize_endpoint roles e). set (ob := out_bucket m ep p o).
  pose proof (advise_at_none m ep p (bucket i IN_EDGES) ob (floor_ms roles m ep)) as Hn.
  destruct (advise_at m ep p (bucket i IN_EDGES) ob (floor_ms roles m ep) None) as [r c]. cbn [fst snd] in *. subst c.
  done.
Qed.

(** Asking for more: a larger prompt, and the same or a larger declared output. *)
Definition asks_more (est_in est_out est_in' est_out' : Z) : Prop :=
  (est_in <= est_in')%Z /\ (est_out = est_out' \/ 0 < est_out <= est_out')%Z.

Lemma recommendation_mono roles m e p i o i' o' : asks_more i o i' o' ->
  recommendation roles m e p i o <= recommendation roles m e p i' o'.
Proof.
  intros [Hi Ho]. unfold recommendation. apply pymax_mono.
  - apply guarded_mono; [by apply bucket_mono|]. unfold out_bucket. destruct Ho as [->|[H1 H2]]; [done|].
    destruct (Z.leb_spec o 0), (Z.leb_spec o' 0); try lia. by apply bucket_mono.
  - apply decode_floor_mono. lia.
Qed.

Lemma recommendation_floors roles m e p i o : let ep := normalize_endpoint roles e in
  pymax (floor_ms roles m ep) (decode_floor_ms roles m ep o) <= recommendation roles m e p i o.
Proof.
  cbn zeta. unfold recommendation. apply pymax_mono; [|lra].
  eapply Qle_trans; [apply rung_ge_floor|]. apply (proj1 (guarded_le _ _ _ _ _ _ _) (Qle_refl _) _ _ (le_n _) (le_n _)).
Qed.

Lemma recommendation_nonneg roles m e p i o : 0 <= recommendation roles m e p i o.
Proof.
  eapply Qle_trans; [|apply recommendation_floors]. eapply Qle_trans; [|apply pymax_ge_r]. apply decode_floor_nonneg.
Qed.

Lemma ceiling_div_mono a b : a <= b -> (Qceiling (a / 1000) <= Qceiling (b / 1000))%Z.
Proof. intros H. apply Qceiling_resp_le. apply Qmult_le_compat_r; [done|]. by vm_compute. Qed.

Lemma py_round_int n q z : q * inject_Z (10 ^ Z.of_nat n) == inject_Z z -> py_round n q == q.
Proof.
  intros H. unfold py_round. set (s := inject_Z (10 ^ Z.of_nat n)) in *.
  assert (0 < s) as Hs by (apply inject_Z_pos; lia).
  assert (round_half_even (q * s) = z) as ->.
  { destruct (round_half_even_spec (q * s)) as [[A1 A2] _]. cbn zeta in A1, A2.
    set (r := round_half_even (q * s)) in *. clearbody r. rewrite H in A1, A2.
    apply Z.le_antisymm; apply Z.lt_succ_r; apply inject_Z_lt_inv;
      rewrite <- Z.add_1_r, inject_Z_plus; change (inject_Z 1) with 1; lra. }
  rewrite <- H. field. lra.
Qed.

Lemma py_round_idem n q : py_round n (py_round n q) == py_round n q.
Proof.
  apply (py_round_int n _ (round_half_even (q * inject_Z (10 ^ Z.of_nat n)))). unfold py_round.
  set (s := inject_Z (10 ^ Z.of_nat n)). assert (0 < s) as Hs by (apply inject_Z_pos; lia). field. lra.
Qed.

Lemma py_round_0 n : py_round n 0 == 0.
Proof. apply (py_round_int n 0 0). by rewrite Qmult_0_l. Qed.

(** ** The uplift *)

(** Knobs that can only widen a deadline. *)
Record knobs_ok (k : TimeoutKnobs) : Prop := {
  ko_surge_k : 0 <= timeout_surge_k k;
  ko_surge_max : 0 <= timeout_surge_max k;
  ko_size_k : 0 <= timeout_size_k k;
  ko_size_max : 0 <= timeout_size_max k;
}.

(** What the uplift relies on of the logarithm. *)
Record log_ok (log : Q -> Q) (unit_ratio : Q) : Prop := {
  lo_mono : forall x y, 1 <= x -> x <= y -> log x <= log y;
  lo_one : 0 <= log 1;
  lo_unit : 0 < log unit_ratio;
}.

Lemma surge_ge_1 a b c k sm : 0 <= k -> 0 <= sm -> 1 <= surge_factor a b c k sm.
Proof.
  intros Hk Hs. unfold surge_factor. destruct (c <=? 0)%Z; [lra|].
  assert (0 <= k * pymin (pymax 0 (inject_Z (a + b - c) / inject_Z c)) sm); [|lra].
  apply Qmult_le_0_compat; [done|]. apply pymin_glb; [apply pymax_ge_l|done].
Qed.

Lemma stretch_ge_1 log u n k sm : 0 <= k -> 0 <= sm -> 1 <= size_stretch log u n k sm.
Proof.
  intros Hk Hs. unfold size_stretch. destruct (Z.leb_spec n SIZE_STRETCH_REF_TOKENS) as [|H]; [lra|].
  match goal with |- 1 <= 1 + k * ?x => assert (0 <= k * x); [|lra] end.
  apply Qmult_le_0_compat; [done|]. eapply Qle_trans; [|apply pymax_ge_l]. apply pymin_glb; [|done].
  apply Qle_shift_div_l; [by vm_compute|]. rewrite Qmult_0_l. apply inject_Z_nonneg. lia.
Qed.

Lemma Qmult_le_compat_nonneg' a b c d : 0 <= a -> a <= b -> 0 <= c -> c <= d -> a * c <= b * d.
Proof. intros. apply Qmult_le_compat_nonneg; split; done. Qed.

Lemma stretch_mono log u n n' k sm : log_ok log u -> 0 <= k -> 0 <= sm -> (n <= n')%Z ->
  size_stretch log u n k sm <= size_stretch log u n' k sm.
Proof.
  intros L Hk Hs Hn. unfold size_stretch at 1. destruct (Z.leb_spec n SIZE_STRETCH_REF_TOKENS) as [|H]; [by apply stretch_ge_1|].
  unfold size_stretch. destruct (Z.leb_spec n' SIZE_STRETCH_REF_TOKENS) as [|H']; [lia|].
  set (ref := inject_Z SIZE_STRETCH_REF_TOKENS). assert (0 < ref) as Hr by by vm_compute.
  assert (forall x y, x <= y -> x / ref <= y / ref) as Hd.
  { intros x y Hxy. apply Qmult_le_compat_r; [done|]. by apply Qlt_le_weak, Qinv_lt_0_compat. }
  assert (1 <= inject_Z n / ref) as H1.
  { apply Qle_shift_div_l; [done|]. rewrite Qmult_1_l. apply inject_Z_le. lia. }
  pose proof (lo_unit _ _ L) as Hu. assert (0 <= / log u) as Hi by (by apply Qlt_le_weak, Qinv_lt_0_compat).
  match goal with |- 1 + k * ?x <= 1 + k * ?y => assert (k * x <= k * y); [|lra] end.
  apply Qmult_le_compat_nonneg'; [done|lra| |].
  - eapply Qle_trans; [|apply pymax_ge_l]. apply pymin_glb; [|done].
    apply Qle_shift_div_l; [done|]. rewrite Qmult_0_l. apply inject_Z_nonneg. lia.
  - assert (inject_Z n / ref <= inject_Z n' / ref) as Hnn by (by apply Hd, inject_Z_le).
    assert (0 <= log (inject_Z n / ref)) as H0.
    { eapply Qle_trans; [apply (lo_one _ _ L)|]. apply (lo_mono _ _ L); lra. }
    apply pymax_mono.
    + apply pymin_mono; [|lra]. apply Hd, inject_Z_le. lia.
    + assert (0 <= pymin (log (inject_Z n / ref) / log u) sm) as Hc.
      { apply pymin_glb; [|done]. by apply Qmult_le_0_compat. }
      assert (pymin (log (inject_Z n / ref) / log u) sm <= pymin (log (inject_Z n' / ref) / log u) sm) as Hcc.
      { apply pymin_mono; [|lra]. apply Qmult_le_compat_r; [|done]. by apply (lo_mono _ _ L). }
      by apply Qmult_le_compat_nonneg'.
Qed.

(** The deadline of [effective_timeout_advice] before it is rounded. *)
Definition effective_ms (log : Q -> Q) (u : Q) (roles : dict string string) (m : TimeoutModel) (k : TimeoutKnobs)
    (ceilings : dict string Q) (s : Sched) (e : string) (p i o : Z) : Q :=
  let snap := endpoint_snapshot s (normalize_endpoint roles e) in
  pymin (py_round 1 (recommendation roles m e p i o)
         * surge_factor (es_in_flight snap) (es_queued snap) (es_max_slots snap) (timeout_surge_k k) (timeout_surge_max k)
         * size_stretch log u i (timeout_size_k k) (timeout_size_max k))
        (effective_ceiling_s roles m k ceilings e p o * 1000).

Lemma effective_advice_ms log u roles m k ceilings s e p i o :
  ad_recommended_ms (effective_timeout_advice log u roles m k ceilings s e p i o)
    = py_round 1 (effective_ms log u roles m k ceilings s e p i o) /\
  ad_recommended_timeout_s (effective_timeout_advice log u roles m k ceilings s e p i o)
    = Qceiling (effective_ms log u roles m k ceilings s e p i o / 1000).
Proof.
  unfold effective_timeout_advice, effective_ms, apply_load_and_ceiling. simpl.
  by rewrite (proj1 (advise_recommendation roles m e p i o)).
Qed.

Lemma ceiling_floors roles m k ceilings e p o :
  pymax (floor_ms roles m e) (decode_floor_ms roles m e o) <= effective_ceiling_s roles m k ceilings e p o * 1000.
Proof.
  unfold effective_ceiling_s, resolve_ceiling_s. set (F := floor_ms roles m e). set (D := decode_floor_ms roles m e o).
  match goal with |- _ <= pymax ?c ?f * 1000 => pose proof (pymax_ge_r c f) as H end.
  pose proof (pymax_ge_l (F / 1000) (D / 1000)) as H1. pose proof (pymax_ge_r (F / 1000) (D / 1000)) as H2.
  assert (forall x y, x / 1000 <= y -> x <= y * 1000) as E.
  { intros x y Hxy. apply Qle_trans with (x / 1000 * 1000); [|apply Qmult_le_compat_r; lra].
    apply Qle_lteq. right. field. }
  apply pymax_lub; apply E; lra.
Qed.

Lemma ceiling_mono roles m k ceilings e p o o' : (o <= o')%Z ->
  effective_ceiling_s roles m k ceilings e p o <= effective_ceiling_s roles m k ceilings e p o'.
Proof.
  intros H. unfold effective_ceiling_s, resolve_ceiling_s. apply pymax_mono; [lra|]. apply pymax_mono; [lra|].
  apply Qmult_le_compat_r; [|by vm_compute]. by apply decode_floor_mono.
Qed.

Lemma round_rec_nonneg roles m e p i o : 0 <= py_round 1 (recommendation roles m e p i o).
Proof.
  eapply Qle_trans; [|apply py_round_mono, recommendation_nonneg]. rewrite py_round_0. lra.
Qed.

(** A product with two factors of at least one. *)
Lemma uplift_ge x a b : 0 <= x -> 1 <= a -> 1 <= b -> x <= x * a * b.
Proof.
  intros Hx Ha Hb. assert (x <= x * a) as H1.
  { rewrite <- (Qmult_1_r x) at 1. apply Qmult_le_compat_nonneg'; lra. }
  rewrite <- (Qmult_1_r x) at 1. apply Qmult_le_compat_nonneg'; lra.
Qed.

(** ** Properties *)

(** The memo table is transparent: the memoised [advise], whose lists are
    sorted in place while they sit in the table, gives exactly the answer of
    the same computation without a table. *)
Theorem advise_memo_transparent roles m e p i o :
  advise roles m e p i o = advise_from None roles m e p i o.
Proof. apply advise_memo. Qed.

(** The monotonicity guard: on any recorded history, a request with a larger
    prompt, and the same or a larger declared output, is never recommended a
    shorter deadline on the same endpoint and priority. *)
Theorem advise_monotone roles m e p i o i' o' :
  asks_more i o i' o' ->
  ad_recommended_ms (advise roles m e p i o) <= ad_recommended_ms (advise roles m e p i' o') /\
  (ad_recommended_timeout_s (advise roles m e p i o) <= ad_recommended_timeout_s (advise roles m e p i' o'))%Z.
Proof.
  intros H. pose proof (recommendation_mono roles m e p _ _ _ _ H) as Hr.
  destruct (advise_recommendation roles m e p i o) as [-> ->], (advise_recommendation roles m e p i' o') as [-> ->].
  split; [by apply py_round_mono|by apply ceiling_div_mono].
Qed.

(** The deadline a caller gets is bounded on both sides: never below the
    class floor or the decode-rate floor of the output asked for, so that the
    ceiling cannot clip a physically necessary deadline, and never above the
    ceiling resolved for its class and priority; load and prompt size only ever
    widen it. *)
Theorem effective_advice_bounded log u roles m k ceilings s e p i o :
  knobs_ok k -> normalize_endpoint roles (normalize_endpoint roles e) = normalize_endpoint roles e ->
  let rec := ad_recommended_ms (effective_timeout_advice log u roles m k ceilings s e p i o) in
  py_round 1 (pymax (floor_ms roles m e) (decode_floor_ms roles m e o)) <= rec /\
  rec <= py_round 1 (effective_ceiling_s roles m k ceilings e p o * 1000) /\
  pymin (ad_recommended_ms (advise roles m e p i o)) (py_round 1 (effective_ceiling_s roles m k ceilings e p o * 1000)) <= rec.
Proof.
  intros [K1 K2 K3 K4] Hn. cbn zeta. rewrite (proj1 (effective_advice_ms log u roles m k ceilings s e p i o)).
  rewrite (proj1 (advise_recommendation roles m e p i o)). unfold effective_ms.
  set (R := recommendation roles m e p i o). set (C := effective_ceiling_s roles m k ceilings e p o * 1000).
  match goal with |- context [py_round 1 R * ?a * ?b] => assert (py_round 1 R <= py_round 1 R * a * b) as HU end.
  { apply uplift_ge; [apply round_rec_nonneg|by apply surge_ge_1|by apply stretch_ge_1]. }
  match goal with |- context [pymin ?x C] => set (X := x) in * end.
  set (M := pymax (floor_ms roles m e) (decode_floor_ms roles m e o)).
  assert (M <= R) as HM.
  { pose proof (recommendation_floors roles m e p i o) as H. cbn zeta in H.
    unfold floor_ms, decode_floor_ms in H. rewrite Hn in H. exact H. }
  assert (M <= C) as HC by apply ceiling_floors.
  assert (py_round 1 M <= py_round 1 X) as HX.
  { rewrite <- (py_round_idem 1 M). apply py_round_mono. eapply Qle_trans; [|exact HU]. by apply py_round_mono. }
  assert (py_round 1 (py_round 1 R) <= py_round 1 X) as HR by (by apply py_round_mono).
  rewrite py_round_idem in HR. pose proof (pymin_le_r X C) as HY.
  assert (pymin X C = C \/ pymin X C = X) as [E|E] by (unfold pymin; case_match; auto);
    rewrite E in *.
  - split; [by apply py_round_mono|]. split; [lra|apply pymin_le_r].
  - split; [done|]. split; [|by eapply Qle_trans; [apply pymin_le_l|]].
    by apply py_round_mono.
Qed.

(** The uplift keeps the guard's promise: under the same load a request that
    asks for more is never given a shorter deadline. *)
Theorem effective_advice_monotone log u roles m k ceilings s e p i o i' o' :
  log_ok log u -> knobs_ok k -> asks_more i o i' o' ->
  ad_recommended_ms (effective_timeout_advice log u roles m k ceilings s e p i o)
    <= ad_recommended_ms (effective_timeout_advice log u roles m k ceilings s e p i' o') /\
  (ad_recommended_timeout_s (effective_timeout_advice log u roles m k ceilings s e p i o)
    <= ad_recommended_timeout_s (effective_timeout_advice log u roles m k ceilings s e p i' o'))%Z.
Proof.
  intros L [K1 K2 K3 K4] H. pose proof (recommendation_mono roles m e p _ _ _ _ H) as Hr.
  destruct (effective_advice_ms log u roles m k ceilings s e p i o) as [-> ->],
    (effective_advice_ms log u roles m k ceilings s e p i' o') as [-> ->].
  assert (effective_ms log u roles m k ceilings s e p i o <= effective_ms log u roles m k ceilings s e p i' o') as HE.
  { unfold effective_ms. apply pymin_mono.
    - match goal with |- context [surge_factor ?a ?b ?c ?d ?e] => pose proof (surge_ge_1 a b c d e K1 K2) as Hs;
        set (S := surge_factor a b c d e) in * end.
      pose proof (round_rec_nonneg roles m e p i o) as H0. pose proof (stretch_ge_1 log u i _ _ K3 K4) as H1.
      apply Qmult_le_compat_nonneg'; [apply Qmult_le_0_compat; [exact H0|lra]| |lra|].
      + apply Qmult_le_compat_r; [by apply py_round_mono|lra].
      + apply stretch_mono; try done. by apply H.
    - apply Qmult_le_compat_r; [|lra]. apply ceiling_mono. destruct H as [_ [->|?]]; lia. }
  split; [by apply py_round_mono|by apply ceiling_div_mono].
Qed.

(** ** Witnesses *)

(** A model that has seen one slow medium answer and 120 fast short ones on
    tier 3. *)
Definition to_model : TimeoutModel :=
  Nat.iter 120 (tm_record [] "tier3" 3 500 60 2000 "ok" 10)
    (tm_record [] "tier3" 3 90000 1500 400000 "ok" 5
      {| tm_margin := 3 # 2; tm_window_s := 604800; tm_min_samples := 1; tm_max_per_cell := 2000;
         tm_floors := FLOOR_S; tm_decode_rates := [("tier3"%string, 25)]; tm_cells := [] |}).

Definition to_knobs : TimeoutKnobs :=
  {| timeout_surge_k := 1 # 2; timeout_surge_max := 3; timeout_size_k := 1 # 2; timeout_size_max := 4;
     timeout_ceiling_interactive_s := INTERACTIVE_CEILING_S; timeout_ceiling_background_s := BACKGROUND_CEILING_S |}.

Definition to_sched : Sched :=
  init_sched {| endpoints := []; agents := [] |} []
    {| bm_agents := []; bm_total_capacity := 1; bm_starvation_timeout_s := 30; bm_last_waits := [] |}.

(** A stand-in for the logarithm. *)
Definition to_log (x : Q) : Q := x - 1.

Lemma to_log_ok : log_ok to_log 3.
Proof. split; unfold to_log; intros; lra. Qed.

Lemma to_knobs_ok : knobs_ok to_knobs.
Proof. split; by vm_compute. Qed.

(** The thin cell for a long answer is lifted to the recommendation of the
    medium one, and a very long answer gets its decode time. *)
Example to_lift :
  let a := advise [] to_model "tier3" 3 100000 4000 in
  ad_recommended_timeout_s a = 600%Z /\ ad_lift_from_out_bucket a = Some 2%nat /\
  ad_recommended_timeout_s (advise [] to_model "tier3" 3 500 20000) = 1000%Z.
Proof. vm_compute. done. Qed.

Lemma advise_monotone_witness :
  ad_recommended_ms (advise [] to_model "tier3" 3 90000 1500) <= ad_recommended_ms (advise [] to_model "tier3" 3 100000 4000) /\
  (ad_recommended_timeout_s (advise [] to_model "tier3" 3 90000 1500)
   <= ad_recommended_timeout_s (advise [] to_model "tier3" 3 100000 4000))%Z.
Proof. apply advise_monotone. split; [lia|right; lia]. Defined.

Lemma effective_advice_bounded_witness :
  let rec := ad_recommended_ms (effective_timeout_advice to_log 3 [] to_model to_knobs [] to_sched "tier3" 1 500 40000) in
  py_round 1 (pymax (floor_ms [] to_model "tier3") (decode_floor_ms [] to_model "tier3" 40000)) <= rec /\
  rec <= py_round 1 (effective_ceiling_s [] to_model to_knobs [] "tier3" 1 40000 * 1000) /\
  pymin (ad_recommended_ms (advise [] to_model "tier3" 1 500 40000))
    (py_round 1 (effective_ceiling_s [] to_model to_knobs [] "tier3" 1 40000 * 1000)) <= rec.
Proof. apply (effective_advice_bounded to_log 3 []); [apply to_knobs_ok|reflexivity]. Defined.

Lemma effective_advice_monotone_witness :
  ad_recommended_ms (effective_timeout_advice to_log 3 [] to_model to_knobs [] to_sched "tier3" 3 500 60)
    <= ad_recommended_ms (effective_timeout_advice to_log 3 [] to_model to_knobs [] to_sched "tier3" 3 90000 1500) /\
  (ad_recommended_timeout_s (effective_timeout_advice to_log 3 [] to_model to_knobs [] to_sched "tier3" 3 500 60)
    <= ad_recommended_timeout_s (effective_timeout_advice to_log 3 [] to_model to_knobs [] to_sched "tier3" 3 90000 1500))%Z.
Proof. apply effective_advice_monotone; [apply to_log_ok|apply to_knobs_ok|]. split; [lia|right; lia]. Defined.
