(* ===== verification/Cache.v ===== *)
(** * The deterministic response cache (coalesce.py)

    [DeterministicCache]: the key of a cacheable request, and the
    least-recently-used table with its time to live.  The table is an ordered
    dictionary, oldest use first.  [hashlib.sha256] is a parameter of the key. *)

From Stdlib Require Import QArith Lqa Lia ZArith Permutation.
From stdpp Require Import base list strings.
From S2P Require Import Prelude PyDict PyText Json.

Local Open Scope Q_scope.

(** ** Keys *)

(** [cache_key]: [None] is "not cacheable".  A payload is JSON, so [json.dumps]
    does not raise on it. *)
Definition cache_key (sha256_hex : string -> string) (endpoint : string) (payload : dict string json)
  : option string :=
  match py_number (jget payload "temperature") with
  | None => None
  | Some temp =>
      if negb (Qeq_bool temp 0) then None
      else if truthy (jget payload "stream") then None
      else Some (sha256_hex (dumps_with "," ":" true
                   (JDict [("endpoint"%string, JStr endpoint); ("payload"%string, JDict payload)])))
  end.

(** ** The table *)

Record DeterministicCache := {
  dc_cache : dict string (Q * json);
  dc_max_size : Z;
  dc_ttl_s : Q;
  dc_hits : Z;
  dc_misses : Z;
}.

(** [DeterministicCache.__init__] *)
Definition new_cache (max_size : Z) (ttl_s : Q) : DeterministicCache :=
  {| dc_cache := []; dc_max_size := max_size; dc_ttl_s := ttl_s; dc_hits := 0; dc_misses := 0 |}.

Definition dc_set (c : dict string (Q * json)) (hits misses : Z) (d : DeterministicCache) : DeterministicCache :=
  {| dc_cache := c; dc_max_size := dc_max_size d; dc_ttl_s := dc_ttl_s d;
     dc_hits := dc_hits d + hits; dc_misses := dc_misses d + misses |}.

(** [OrderedDict.move_to_end] of a key that is present. *)
Definition move_to_end (c : dict string (Q * json)) (k : string) : dict string (Q * json) :=
  match dget c k with
  | Some v => ddel c k ++ [(k, v)]
  | None => c
  end.

(** [get], at the clock reading [now]. *)
Definition cache_get (k : string) (now : Q) (d : DeterministicCache) : option json * DeterministicCache :=
  match dget (dc_cache d) k with
  | None => (None, dc_set (dc_cache d) 0 1 d)
  | Some (expires_at, response) =>
      if Qltb expires_at now then (None, dc_set (ddel (dc_cache d) k) 0 1 d)
      else (Some response, dc_set (move_to_end (dc_cache d) k) 1 0 d)
  end.

(** [while len(self._cache) > self._max_size: self._cache.popitem(last=False)] *)
Fixpoint evict (max_size : Z) (c : dict string (Q * json)) : res (dict string (Q * json)) :=
  if (Z.of_nat (length c) <=? max_size)%Z then Ret c
  else
    match c with
    | [] => Raise KeyError
    | _ :: c' => evict max_size c'
    end.

(** [put] *)
Definition cache_put (k : string) (response : json) (now : Q) : SE DeterministicCache unit :=
  d ← se_get;
  let c := if dmem (dc_cache d) k then move_to_end (dc_cache d) k else dc_cache d in
  let c := dset c k (now + dc_ttl_s d, response) in
  match evict (dc_max_size d) c with
  | Ret c' => se_modify (dc_set c' 0 0);; mret tt
  | Raise e => se_modify (dc_set [] 0 0);; se_lift (Raise e)
  end.

Definition hit_rate_pct (d : DeterministicCache) : Q :=
  let total := (dc_hits d + dc_misses d)%Z in
  if (total =? 0)%Z then 0 else inject_Z (dc_hits d) / inject_Z total * 100.

(** ** Runs *)

Inductive CacheOp :=
| OpGet (k : string) (now : Q)
| OpPut (k : string) (response : json) (now : Q).

Definition cache_op (d : DeterministicCache) (o : CacheOp) : DeterministicCache :=
  match o with
  | OpGet k now => (cache_get k now d).2
  | OpPut k r now => (cache_put k r now d).2
  end.

Definition cache_run (d : DeterministicCache) (os : list CacheOp) : DeterministicCache := foldl cache_op d os.

(** The latest response put under a key, with the time it was put. *)
Definition last_put (k : string) (os : list CacheOp) : option (Q * json) :=
  foldl (fun acc o => match o with
                      | OpPut k' r now => if decide (k' = k) then Some (now, r) else acc
                      | OpGet _ _ => acc
                      end) None os.

Definition op_key (o : CacheOp) : string := match o with OpGet k _ => k | OpPut k _ _ => k end.
Definition op_time (o : CacheOp) : Q := match o with OpGet _ t => t | OpPut _ _ t => t end.

(** ** Facts *)

Lemma evict_drop c max_size : (0 <= max_size)%Z ->
  evict max_size c = Ret (drop (length c - Z.to_nat max_size) c).
Proof.
  intros H. induction c as [|x c IH].
  { cbn [evict length]. destruct (Z.leb_spec (Z.of_nat 0) max_size); [by rewrite drop_nil|lia]. }
  cbn [evict]. destruct (Z.leb_spec (Z.of_nat (length (x :: c))) max_size) as [L|L].
  - cbn [length] in L. replace (length (x :: c) - Z.to_nat max_size)%nat with 0%nat by (cbn [length]; lia). done.
  - rewrite IH. cbn [length] in *. by replace (S (length c) - Z.to_nat max_size)%nat
      with (S (length c - Z.to_nat max_size)) by lia.
Qed.

Lemma dset_last (c : dict string (Q * json)) k v v' : k ∉ dkeys c -> dset (c ++ [(k, v)]) k v' = c ++ [(k, v')].
Proof.
  induction c as [|[a b] c IH]; simpl; intros H; [by rewrite decide_True|].
  apply not_elem_of_cons in H as [H1 H2]. rewrite decide_False by congruence. by rewrite IH.
Qed.

Lemma ddel_notin (c : dict string (Q * json)) k : dwf c -> k ∉ dkeys (ddel c k).
Proof. intros H. apply dget_None. rewrite dget_ddel by done. by rewrite decide_True. Qed.

(** A store before eviction: the key goes to the recent end. *)
Lemma put_last c k v : dwf c ->
  dset (if dmem c k then move_to_end c k else c) k v = ddel c k ++ [(k, v)].
Proof.
  intros H. unfold dmem, move_to_end. destruct (dget c k) as [w|] eqn:E.
  - apply dset_last. by apply ddel_notin.
  - rewrite dset_new, ddel_None by done. done.
Qed.

Lemma cache_put_run k r now d : dwf (dc_cache d) -> (0 <= dc_max_size d)%Z ->
  let c := ddel (dc_cache d) k ++ [(k, (now + dc_ttl_s d, r))] in
  cache_put k r now d = (Ret tt, dc_set (drop (length c - Z.to_nat (dc_max_size d)) c) 0 0 d).
Proof.
  intros Hw Hm. cbn zeta. unfold cache_put. rewrite run_get, put_last, evict_drop by done. done.
Qed.

Lemma dwf_snoc (c : dict string (Q * json)) k v : dwf c -> k ∉ dkeys c -> dwf (c ++ [(k, v)]).
Proof.
  unfold dwf, dkeys. intros H N. rewrite map_app. simpl. apply NoDup_app. split; [done|]. split; [|apply NoDup_singleton].
  intros x Hx. rewrite list_elem_of_singleton. by intros ->.
Qed.

Lemma dwf_drop (c : dict string (Q * json)) n : dwf c -> dwf (drop n c).
Proof.
  unfold dwf, dkeys. intros H. rewrite <- (take_drop n c), map_app in H. by apply NoDup_app in H as (_ & _ & ?).
Qed.

Lemma dget_app_snoc (c : dict string (Q * json)) k v x :
  dget (c ++ [(k, v)]) x = match dget c x with Some w => Some w | None => if decide (k = x) then Some v else None end.
Proof. induction c as [|[a b] c IH]; simpl; [done|]. destruct (decide (a = x)); [done|apply IH]. Qed.

Lemma dget_drop (c : dict string (Q * json)) n k v : dwf c -> dget (drop n c) k = Some v -> dget c k = Some v.
Proof.
  intros H E. apply elem_dget; [done|]. apply dget_elem in E. rewrite <- (take_drop n c), elem_of_app. by right.
Qed.

(** A read, when the table is a dictionary. *)
Lemma move_to_end_wf c k : dwf c -> dwf (move_to_end c k).
Proof.
  intros H. unfold move_to_end. destruct (dget c k) eqn:E; [|done].
  apply dwf_snoc; [by apply dwf_ddel|by apply ddel_notin].
Qed.

Lemma dget_move_to_end c k x : dwf c -> dget (move_to_end c k) x = dget c x.
Proof.
  intros H. unfold move_to_end. destruct (dget c k) as [v|] eqn:E; [|done].
  rewrite dget_app_snoc, dget_ddel by done. case_decide; [by subst|]. by destruct (dget c x).
Qed.

Lemma cache_op_params d o : dwf (dc_cache d) -> (0 <= dc_max_size d)%Z ->
  dwf (dc_cache (cache_op d o)) /\ dc_max_size (cache_op d o) = dc_max_size d /\ dc_ttl_s (cache_op d o) = dc_ttl_s d.
Proof.
  intros Hw Hm. destruct o as [k now|k r now]; simpl.
  - unfold cache_get. destruct (dget (dc_cache d) k) as [[e r]|]; [destruct (Qltb e now)|]; simpl; auto.
    + split; [by apply dwf_ddel|done].
    + split; [by apply move_to_end_wf|done].
  - rewrite cache_put_run by done. simpl. split; [|done]. apply dwf_drop, dwf_snoc; [by apply dwf_ddel|by apply ddel_notin].
Qed.

(** Every entry is the latest put under its key, expiring one time to live
    after it. *)
Definition entries_ok (os : list CacheOp) (d : DeterministicCache) : Prop :=
  forall k e r, dget (dc_cache d) k = Some (e, r) -> exists t, last_put k os = Some (t, r) /\ e = t + dc_ttl_s d.

Lemma last_put_snoc k os o :
  last_put k (os ++ [o]) = match o with
                           | OpPut k' r now => if decide (k' = k) then Some (now, r) else last_put k os
                           | OpGet _ _ => last_put k os
                           end.
Proof. unfold last_put. by rewrite foldl_app. Qed.

Lemma entries_ok_op os d o : dwf (dc_cache d) -> (0 <= dc_max_size d)%Z ->
  entries_ok os d -> entries_ok (os ++ [o]) (cache_op d o).
Proof.
  intros Hw Hm H k e r. rewrite last_put_snoc. destruct o as [k' now|k' r' now]; simpl.
  - unfold cache_get. destruct (dget (dc_cache d) k') as [[e' r']|] eqn:E; [destruct (Qltb e' now)|]; simpl.
    + rewrite dget_ddel by done. case_decide; [done|]. apply H.
    + rewrite dget_move_to_end by done. apply H.
    + apply H.
  - rewrite cache_put_run by done. simpl. intros E. apply dget_drop in E.
    2:{ apply dwf_snoc; [by apply dwf_ddel|by apply ddel_notin]. }
    rewrite dget_app_snoc, dget_ddel in E by done. case_decide; subst.
    + simplify_eq. eauto.
    + destruct (dget (dc_cache d) k) as [w|] eqn:Ek; [|done]. simplify_eq. by apply H.
Qed.

Definition size_ok (d : DeterministicCache) : Prop := (Z.of_nat (length (dc_cache d)) <= dc_max_size d)%Z.

Lemma move_to_end_length c k : length (move_to_end c k) = length c.
Proof.
  unfold move_to_end. destruct (dget c k) as [v|] eqn:E; [|done].
  rewrite (Permutation_length (ddel_perm _ _ _ E)), length_app. simpl. lia.
Qed.

Lemma size_ok_op d o : dwf (dc_cache d) -> (0 <= dc_max_size d)%Z -> size_ok d -> size_ok (cache_op d o).
Proof.
  unfold size_ok. intros Hw Hm H. destruct o as [k now|k r now]; simpl.
  - unfold cache_get. destruct (dget (dc_cache d) k) as [[e r]|]; [destruct (Qltb e now)|]; simpl; [| |done].
    + pose proof (ddel_length_le (dc_cache d) k). lia.
    + by rewrite move_to_end_length.
  - rewrite cache_put_run by done. simpl. rewrite length_drop. lia.
Qed.

(** The state of a run. *)
Lemma cache_run_ok n ttl os : (0 <= n)%Z ->
  let d := cache_run (new_cache n ttl) os in
  dwf (dc_cache d) /\ dc_max_size d = n /\ dc_ttl_s d = ttl /\ entries_ok os d /\ size_ok d.
Proof.
  intros Hn. cbn zeta. unfold cache_run. induction os as [|o os IH] using rev_ind.
  { simpl. split; [apply dwf_nil|]. split; [done|]. split; [done|]. split; [done|]. unfold size_ok. simpl. lia. }
  rewrite foldl_app. simpl. destruct IH as (Hw & Em & Et & He & Hs). assert (0 <= dc_max_size (foldl cache_op (new_cache n ttl) os))%Z by lia.
  destruct (cache_op_params (foldl cache_op (new_cache n ttl) os) o) as (Hw' & Em' & Et'); [done..|].
  split; [done|]. split; [congruence|]. split; [congruence|]. split; [by apply entries_ok_op|by apply size_ok_op].
Qed.

(** ** Retention *)

(** The keys of the table more recent than [k] are among [touched]. *)
Definition fresh_since (k : string) (v : Q * json) (touched : list string) (d : DeterministicCache) : Prop :=
  exists pre post, dc_cache d = pre ++ (k, v) :: post /\ forall x, x ∈ dkeys post -> x ∈ touched.

Lemma ddel_app (l m : dict string (Q * json)) k : k ∉ dkeys l -> ddel (l ++ m) k = l ++ ddel m k.
Proof.
  induction l as [|[a b] l IH]; simpl; intros H; [done|]. apply not_elem_of_cons in H as [H1 H2].
  rewrite decide_False by congruence. by rewrite IH.
Qed.

(** Deleting another key leaves [k] where it is. *)
Lemma ddel_around (pre post : dict string (Q * json)) k v k' : k' <> k ->
  exists pre' post', ddel (pre ++ (k, v) :: post) k' = pre' ++ (k, v) :: post' /\
    forall x, x ∈ dkeys post' -> x ∈ dkeys post.
Proof.
  intros Hne. destruct (decide (k' ∈ dkeys pre)) as [Hi|Hi].
  - exists (ddel pre k'), post. split; [|done]. clear Hne. induction pre as [|[a b] pre IH]; [by apply not_elem_of_nil in Hi|].
    simpl. case_decide; [done|]. simpl. f_equal. apply IH. apply elem_of_cons in Hi as [->|]; done.
  - exists pre, (ddel post k'). split; [rewrite ddel_app by done; simpl; by rewrite decide_False by congruence|].
    intros x Hx. destruct (dkeys_get _ _ Hx) as [w Hw]. apply dget_elem in Hw. apply (elem_dkeys _ _ w).
    clear Hx. revert Hw. induction post as [|[a b] post IH]; simpl; [done|]. case_decide; [by right|].
    rewrite !elem_of_cons. intros [?|?]; auto.
Qed.

Lemma dget_middle (pre post : dict string (Q * json)) k v : dwf (pre ++ (k, v) :: post) ->
  dget (pre ++ (k, v) :: post) k = Some v.
Proof. intros H. apply elem_dget; [done|]. rewrite elem_of_app, elem_of_cons. auto. Qed.

Lemma move_to_end_fresh pre post k v : dwf (pre ++ (k, v) :: post) ->
  exists c, move_to_end (pre ++ (k, v) :: post) k = c ++ [(k, v)].
Proof. intros H. unfold move_to_end. rewrite dget_middle by done. eauto. Qed.

(** Moving another key to the end makes it a recent one. *)
Lemma move_to_end_other pre post k v k' : k' <> k ->
  exists pre' post', move_to_end (pre ++ (k, v) :: post) k' = pre' ++ (k, v) :: post' /\
    forall x, x ∈ dkeys post' -> x ∈ k' :: dkeys post.
Proof.
  intros Hne. unfold move_to_end. destruct (dget _ k') as [w|]; [|exists pre, post; split; [done|by right]].
  destruct (ddel_around pre post k v k' Hne) as (pre' & post' & -> & Hx). exists pre', (post' ++ [(k', w)]).
  rewrite <- app_assoc. split; [done|]. unfold dkeys in *. intros x. rewrite map_app, elem_of_app. simpl.
  rewrite list_elem_of_singleton, elem_of_cons. naive_solver.
Qed.

Lemma fresh_since_get k v T d k' now : dwf (dc_cache d) -> fresh_since k v T d ->
  (k' = k -> now <= v.1) -> fresh_since k v (if decide (k' = k) then T else k' :: T) (cache_get k' now d).2.
Proof.
  intros Hw (pre & post & E & HT) Hk. unfold cache_get. case_decide as D.
  - subst k'. rewrite E in *. rewrite dget_middle by done. destruct v as [e r]. simpl in Hk.
    destruct (Qltb_spec e now) as [L|L]; [specialize (Hk eq_refl); lra|].
    destruct (move_to_end_fresh pre post k (e, r) Hw) as [c Hc]. exists c, []. simpl. rewrite Hc. split; [done|].
    intros x Hx. by apply not_elem_of_nil in Hx.
  - destruct (dget (dc_cache d) k') as [[e r]|]; [destruct (Qltb e now)|]; simpl; rewrite E.
    + destruct (ddel_around pre post k v k' D) as (pre' & post' & Ed & Hx). exists pre', post'. simpl. split; [done|].
      intros x Hin. right. auto.
    + destruct (move_to_end_other pre post k v k' D) as (pre' & post' & Em & Hx). exists pre', post'. simpl.
      split; [done|]. intros x Hin%Hx. apply elem_of_cons in Hin as [->|Hin]; [by left|right; auto].
    + exists pre, post. simpl. split; [done|]. intros x Hin. right. auto.
Qed.

Lemma drop_keeps_tail {A} (n : nat) (pre tl : list A) x : (n <= length pre)%nat ->
  drop n (pre ++ x :: tl) = drop n pre ++ x :: tl.
Proof. intros H. rewrite drop_app. rewrite (proj2 (Nat.sub_0_le n (length pre)) H). done. Qed.

Lemma fresh_since_put k v T d k' r now : dwf (dc_cache d) -> (0 <= dc_max_size d)%Z -> fresh_since k v T d ->
  k' <> k -> (Z.of_nat (length (remove_dups (k' :: T))) < dc_max_size d)%Z ->
  fresh_since k v (k' :: T) (cache_put k' r now d).2.
Proof.
  intros Hw Hm (pre & post & E & HT) Hne Hlen. rewrite cache_put_run by done.
  unfold fresh_since. cbn [snd dc_set dc_cache].
  assert (dwf (ddel (dc_cache d) k' ++ [(k', (now + dc_ttl_s d, r))])) as Hw'.
  { apply dwf_snoc; [by apply dwf_ddel|by apply ddel_notin]. }
  rewrite E in *. destruct (ddel_around pre post k v k' Hne) as (pre' & post' & Ed & Hx). rewrite Ed in *.
  rewrite <- app_assoc in *. cbn [app] in *. set (tl := post' ++ [(k', (now + dc_ttl_s d, r))]) in *.
  assert (forall x, x ∈ dkeys tl -> x ∈ k' :: T) as Htl.
  { unfold tl, dkeys in *. intros x. rewrite map_app, elem_of_app, elem_of_cons. simpl.
    rewrite list_elem_of_singleton. naive_solver. }
  assert (length tl <= length (remove_dups (k' :: T)))%nat as Hl.
  { rewrite <- (length_map fst). apply submseteq_length, NoDup_submseteq.
    - unfold dwf, dkeys in Hw'. rewrite map_app in Hw'. simpl in Hw'. apply NoDup_app in Hw' as (_ & _ & Hn).
      by apply NoDup_cons in Hn as [_ ?].
    - intros x Hin. apply elem_of_remove_dups. by apply Htl. }
  eexists _, tl. split; [|done]. apply drop_keeps_tail. rewrite length_app. cbn [length]. lia.
Qed.

(** Responses put under [k] do not matter for what follows; reads of [k] before
    it expires do. *)
Definition keeps (k : string) (until : Q) (o : CacheOp) : Prop :=
  match o with
  | OpGet k' now => k' = k -> now <= until
  | OpPut k' _ _ => k' <> k
  end.

Definition other_keys (k : string) (os : list CacheOp) : list string :=
  remove_dups (filter (fun x => x <> k) (map op_key os)).

Lemma remove_dups_length_mono (l m : list string) : (forall x, x ∈ l -> x ∈ m) ->
  (length (remove_dups l) <= length (remove_dups m))%nat.
Proof.
  intros H. apply submseteq_length, NoDup_submseteq; [apply NoDup_remove_dups|].
  intros x. rewrite !elem_of_remove_dups. apply H.
Qed.

Lemma other_keys_snoc k os o :
  (length (other_keys k os) <= length (other_keys k (os ++ [o])))%nat.
Proof.
  apply remove_dups_length_mono. intros x. rewrite map_app, filter_app, elem_of_app. auto.
Qed.

Lemma fresh_since_run k v os d :
  dwf (dc_cache d) -> (0 <= dc_max_size d)%Z -> fresh_since k v [] d -> Forall (keeps k v.1) os ->
  (Z.of_nat (length (other_keys k os)) < dc_max_size d)%Z ->
  let d' := cache_run d os in
  dwf (dc_cache d') /\ dc_max_size d' = dc_max_size d /\
  exists T, fresh_since k v T d' /\ forall x, x ∈ T -> x ∈ other_keys k os.
Proof.
  intros Hw Hm Hf. cbn zeta. unfold cache_run. induction os as [|o os IH] using rev_ind; intros HF Hlen.
  { split; [done|]. split; [done|]. exists []. split; [done|]. intros x Hx. by apply not_elem_of_nil in Hx. }
  apply Forall_app in HF as [HF Ho]. apply Forall_inv in Ho. pose proof (other_keys_snoc k os o) as Hmono.
  destruct IH as (Hw' & Em & T & Hfr & HT); [done|lia|]. rewrite foldl_app. simpl.
  destruct (cache_op_params (foldl cache_op d os) o) as (Hw'' & Em' & _); [done|lia|].
  split; [done|]. split; [congruence|].
  assert (forall x, x ∈ (if decide (op_key o = k) then T else op_key o :: T) -> x ∈ other_keys k (os ++ [o])) as HT'.
  { intros x Hx. unfold other_keys in *. apply elem_of_remove_dups. rewrite map_app, filter_app, elem_of_app.
    assert (x ∈ T -> x ∈ filter (fun x => x <> k) (map op_key os)) as HTx.
    { intros Hin. by apply elem_of_remove_dups, HT. }
    case_decide as D; [auto|]. apply elem_of_cons in Hx as [->|Hx]; [|auto]. right. simpl.
    rewrite filter_cons, decide_True by done. by left. }
  exists (if decide (op_key o = k) then T else op_key o :: T). split; [|done].
  destruct o as [k' now|k' r now]; simpl in *; [apply fresh_since_get; [exact Hw'|exact Hfr|exact Ho]|].
  rewrite decide_False in HT' |- * by done. apply fresh_since_put; try done; [lia|].
  eapply Z.le_lt_trans; [|rewrite Em; exact Hlen]. apply inj_le. etrans; [apply (remove_dups_length_mono _ (other_keys k (os ++ [OpPut k' r now]))); exact HT'|].
  apply submseteq_length, NoDup_submseteq; [apply NoDup_remove_dups|]. intros x. by rewrite elem_of_remove_dups.
Qed.

(** ** Properties *)

(** A hit is the latest answer and not a stale one: after any history of
    reads and stores, a read that answers returns the response of the latest
    store under that key, made at most one time to live before, and the table
    never holds more than its maximum. *)
Theorem cache_hit_is_latest n ttl os k now r :
  (0 <= n)%Z -> (cache_get k now (cache_run (new_cache n ttl) os)).1 = Some r ->
  (exists t, last_put k os = Some (t, r) /\ now <= t + ttl) /\
  (Z.of_nat (length (dc_cache (cache_run (new_cache n ttl) os))) <= n)%Z.
Proof.
  intros Hn Hg. destruct (cache_run_ok n ttl os Hn) as (_ & Em & Et & He & Hs).
  split; [|unfold size_ok in Hs; lia]. unfold cache_get in Hg.
  destruct (dget _ k) as [[e r']|] eqn:E; [|done]. destruct (Qltb_spec e now) as [L|L]; [done|]. simplify_eq/=.
  destruct (He _ _ _ E) as (t & Ht & ->). exists t. rewrite Et in L. done.
Qed.

(** Least-recently-used retention: a stored response is still served until it
    expires, whatever came before the store, as long as fewer other keys than
    the table's size were touched since. *)
Theorem cache_retains_recent n ttl os k r t os' now :
  Forall (keeps k (t + ttl)) os' -> (Z.of_nat (length (other_keys k os')) < n)%Z -> now <= t + ttl ->
  (cache_get k now (cache_run (new_cache n ttl) (os ++ OpPut k r t :: os'))).1 = Some r.
Proof.
  intros HF Hlen Hnow. assert (0 <= n)%Z as Hn by lia.
  unfold cache_run. rewrite foldl_app. cbn [foldl]. fold (cache_run (new_cache n ttl) os).
  destruct (cache_run_ok n ttl os Hn) as (Hw & Em & Et & _). set (d := cache_run (new_cache n ttl) os) in *.
  destruct (cache_op_params d (OpPut k r t)) as (Hw' & Em' & _); [done|lia|].
  destruct (fresh_since_run k (t + ttl, r) os' (cache_op d (OpPut k r t))) as (Hw2 & _ & T & (pre & post & E & _) & _);
    [done|lia| |done|lia|].
  { cbn [cache_op]. rewrite cache_put_run by (done || lia). rewrite Em, Et.
    eexists _, []. split; [|intros x Hx; by apply not_elem_of_nil in Hx]. cbn [snd dc_set dc_cache].
    apply drop_keeps_tail. rewrite length_app. cbn [length]. lia. }
  fold (cache_run (cache_op d (OpPut k r t)) os'). unfold cache_get. rewrite E in *. rewrite dget_middle by done.
  destruct (Qltb_spec (t + ttl) now); [lra|done].
Qed.

(** ** Witnesses *)

Definition ca_history : list CacheOp :=
  [OpPut "a" (JInt 1) 0; OpPut "b" (JInt 2) 1; OpGet "a" 2; OpPut "c" (JInt 3) 3].

(** With room for two, the read of [a] makes [b] the one that goes. *)
Example ca_evicts_lru :
  dkeys (dc_cache (cache_run (new_cache 2 300) ca_history)) = ["a"%string; "c"%string].
Proof. by vm_compute. Qed.

Lemma cache_hit_is_latest_witness :
  (exists t, last_put "a" ca_history = Some (t, JInt 1) /\ 10 <= t + 300) /\
  (Z.of_nat (length (dc_cache (cache_run (new_cache 2 300) ca_history))) <= 2)%Z.
Proof. apply (cache_hit_is_latest 2 300 ca_history "a" 10 (JInt 1)); [lia|by vm_compute]. Defined.

Lemma cache_retains_recent_witness :
  (cache_get "b" 20 (cache_run (new_cache 2 300)
     ([OpPut "a" (JInt 1) 0] ++ OpPut "b" (JInt 2) 1 :: [OpGet "a" 2; OpGet "b" 5]))).1 = Some (JInt 2).
Proof.
  apply (cache_retains_recent 2 300 [OpPut "a" (JInt 1) 0] "b" (JInt 2) 1 [OpGet "a" 2; OpGet "b" 5] 20).
  - repeat constructor; intros; by vm_compute.
  - by vm_compute.
  - by vm_compute.
Defined.
