(* ===== verification/ThinkSwitch.v ===== *)
(** * The thinking switch on its way to a backend (think_bleed.py, section 1)

    An endpoint declares which chat-template keys switch its reasoning
    ([policy.thinking_kwargs]).  Where it declares none, [strip_thinking_switch]
    removes every spelling of the switch from a payload; where it declares some,
    [rename_thinking_switch] carries the caller's value onto the declared keys.
    Both are copy-on-write: the definitions return, beside the value, whether a
    copy was made, which is Python's [is not] on the result. *)

From Stdlib Require Import Ascii Lia ZArith.
From stdpp Require Import base list strings.
From S2P Require Import Prelude PyDict PyText Json.

Local Open Scope string_scope.

Definition _THINKING_KWARG_NAMES : list string := ["thinking"; "enable_thinking"].

(** [type(value).__name__], with the constants named apart. *)
Definition _value_label (value : json) : string :=
  match value with
  | JBool true => "true"
  | JBool false => "false"
  | JNull => "null"
  | JInt _ => "int"
  | JFloat _ _ => "float"
  | JStr _ => "str"
  | JList _ => "list"
  | JDict _ => "dict"
  end.

Definition _is_none_effort (value : json) : bool :=
  match value with
  | JStr s => String.eqb (lower (strip s)) "none"
  | _ => false
  end.

(** The value of [container.get(k)] when it is a dict. *)
Definition get_dict (container : dict string json) (k : string) : option (dict string json) :=
  match dget container k with
  | Some (JDict d) => Some d
  | _ => None
  end.

(** [{k: v for k, v in obj.items() if k != "effort"}] *)
Definition drop_effort (obj : list (string * json)) : dict string json :=
  filter (fun kv => kv.1 <> "effort") obj.

(** The chat-template part of [_strip_container]: the cleaned keyword
    dictionary and the labels found. *)
Definition strip_kwargs (prefix : string) (ck : dict string json) : dict string json * list string :=
  let keys := filter (fun k => k ∈ _THINKING_KWARG_NAMES) (dkeys ck) in
  let found := map (fun k => prefix ++ "chat_template_kwargs." ++ k ++ "="
                                    ++ _value_label (jget ck k)) keys in
  let new_ck := ddel_all ck keys in
  if _is_none_effort (jget new_ck "reasoning_effort")
  then (ddel new_ck "reasoning_effort",
        (found ++ [prefix +:+ "chat_template_kwargs.reasoning_effort=none"])%list)
  else (new_ck, found).

(** Result, whether it is a copy, and the labels appended to [found]. *)
Definition _strip_container (container : dict string json) (prefix : string) (found : list string)
  : dict string json * bool * list string :=
  let '(out, copied, found) :=
    match get_dict container "chat_template_kwargs" with
    | Some ck =>
        let '(new_ck, labels) := strip_kwargs prefix ck in
        let found := (found ++ labels)%list in
        if (length new_ck =? length ck)%nat then (container, false, found)
        else if truthy (JDict new_ck)
             then (dset container "chat_template_kwargs" (JDict new_ck), true, found)
             else (ddel container "chat_template_kwargs", true, found)
    | None => (container, false, found)
    end in
  let '(out, copied, found) :=
    if _is_none_effort (jget container "reasoning_effort")
    then (ddel out "reasoning_effort", true, (found ++ [prefix +:+ "reasoning_effort=none"])%list)
    else (out, copied, found) in
  match get_dict container "reasoning" with
  | Some obj =>
      if _is_none_effort (jget obj "effort") then
        let rest := drop_effort obj in
        (if truthy (JDict rest) then dset out "reasoning" (JDict rest) else ddel out "reasoning",
         true, (found ++ [prefix +:+ "reasoning.effort=none"])%list)
      else (out, copied, found)
  | None => (out, copied, found)
  end.

Definition strip_thinking_switch (payload : json) : json * list string :=
  match payload with
  | JDict p =>
      let '(out, _, found) := _strip_container p "" [] in
      match get_dict out "extra_body" with
      | Some eb =>
          let '(new_eb, copied, found) := _strip_container eb "extra_body." found in
          (JDict (if copied then dset out "extra_body" (JDict new_eb) else out), found)
      | None => (JDict out, found)
      end
  | _ => (payload, [])
  end.

Definition _as_switch_value (value : json) : option bool :=
  match value with
  | JBool b => Some b
  | JDict d =>
      let t := jget d "type" in
      let kind := lower (strip (if truthy t then py_str t else "")) in
      if bool_decide (kind ∈ ["enabled"; "adaptive"]) then Some true
      else if String.eqb kind "disabled" then Some false
      else None
  | _ => None
  end.

(** [_value_label(values[0])] *)
Definition switch_label (v : option bool) : string :=
  _value_label (match v with Some b => JBool b | None => JNull end).

Definition _rename_container (container : dict string json) (prefix : string) (declared : list string)
    (found : list string) : dict string json * bool * list string :=
  match get_dict container "chat_template_kwargs" with
  | None => (container, false, found)
  | Some ck =>
      let foreign := filter (fun k => dmem ck k = true /\ k ∉ declared) ["thinking"; "enable_thinking"] in
      let values := map (fun k => _as_switch_value (jget ck k)) foreign in
      match values with
      | [] => (container, false, found)
      | v0 :: _ =>
          let agreed := bool_decide (v0 <> None) && forallb (fun v => bool_decide (v = v0)) values in
          let new_ck := filter (fun kv => kv.1 ∉ foreign) ck in
          let '(new_ck, landed) :=
            match v0 with
            | Some b =>
                if agreed then
                  foldl (fun '(c, l) key =>
                           if dmem c key then (c, l)
                           else (dset c key (JBool b), (l ++ [key])%list)) (new_ck, []) declared
                else (new_ck, [])
            | None => (new_ck, [])
            end in
          let landed_txt := sep_concat "+" landed in
          let label := sep_concat "->" [sep_concat "+" foreign;
                         if String.eqb landed_txt "" then "dropped" else landed_txt] in
          let entry := prefix ++ "chat_template_kwargs." ++ label
                       ++ (match landed with [] => "" | _ => "=" ++ switch_label v0 end) in
          (dset container "chat_template_kwargs" (JDict new_ck), true, (found ++ [entry])%list)
      end
  end.

Definition rename_thinking_switch (payload : json) (declared : list string) : json * list string :=
  match payload, declared with
  | JDict p, _ :: _ =>
      let '(out, _, found) := _rename_container p "" declared [] in
      match get_dict out "extra_body" with
      | Some eb =>
          let '(new_eb, copied, found) := _rename_container eb "extra_body." declared found in
          (JDict (if copied then dset out "extra_body" (JDict new_eb) else out), found)
      | None => (JDict out, found)
      end
  | _, _ => (payload, [])
  end.

Example strip_example :
  strip_thinking_switch
    (JDict [("model", JStr "m"); ("reasoning_effort", JStr " None ");
            ("chat_template_kwargs", JDict [("thinking", JBool false)]);
            ("extra_body", JDict [("chat_template_kwargs",
                JDict [("enable_thinking", JInt 1); ("x", JInt 2)])])]) =
  (JDict [("model", JStr "m");
          ("extra_body", JDict [("chat_template_kwargs", JDict [("x", JInt 2)])])],
   ["chat_template_kwargs.thinking=false"; "reasoning_effort=none";
    "extra_body.chat_template_kwargs.enable_thinking=int"]).
Proof. reflexivity. Qed.

Example rename_example :
  rename_thinking_switch
    (JDict [("chat_template_kwargs", JDict [("thinking", JDict [("type", JStr "Enabled")]); ("x", JInt 2)])])
    ["enable_thinking"] =
  (JDict [("chat_template_kwargs", JDict [("x", JInt 2); ("enable_thinking", JBool true)])],
   ["chat_template_kwargs.thinking->enable_thinking=true"]).
Proof. reflexivity. Qed.

(** ** Stripping *)

(** A container that carries no spelling of the switch. *)
Definition kwargs_free (ck : dict string json) : Prop :=
  (forall n, n ∈ _THINKING_KWARG_NAMES -> dget ck n = None)
  /\ _is_none_effort (jget ck "reasoning_effort") = false.

Definition switch_free (c : dict string json) : Prop :=
  (forall ck, get_dict c "chat_template_kwargs" = Some ck -> kwargs_free ck)
  /\ _is_none_effort (jget c "reasoning_effort") = false
  /\ (forall obj, get_dict c "reasoning" = Some obj -> _is_none_effort (jget obj "effort") = false).

Definition payload_switch_free (p : dict string json) : Prop :=
  switch_free p /\ (forall eb, get_dict p "extra_body" = Some eb -> switch_free eb).

Lemma get_dict_Some c k d : get_dict c k = Some d <-> dget c k = Some (JDict d).
Proof. unfold get_dict. destruct (dget c k) as [[]|]; naive_solver. Qed.

Lemma jwf_get_dict c k d : jwf (JDict c) = true -> get_dict c k = Some d -> jwf (JDict d) = true.
Proof. intros W H%get_dict_Some. by eapply jwf_get. Qed.

Lemma drop_effort_get obj : dget (drop_effort obj) "effort" = None.
Proof. apply dget_filter_out. simpl. auto. Qed.

Lemma effort_not_name : "reasoning_effort" ∉ _THINKING_KWARG_NAMES.
Proof. apply (bool_decide_unpack _). by vm_compute. Qed.

Lemma strip_kwargs_get prefix ck k :
  dwf ck ->
  dget (strip_kwargs prefix ck).1 k =
  if decide (k ∈ _THINKING_KWARG_NAMES) then None
  else if (String.eqb k "reasoning_effort" && _is_none_effort (jget ck "reasoning_effort"))%bool
       then None else dget ck k.
Proof.
  intros W. unfold strip_kwargs. set (keys := filter _ _).
  assert (G : forall k, dget (ddel_all ck keys) k
                        = if decide (k ∈ _THINKING_KWARG_NAMES) then None else dget ck k).
  { intros k'. rewrite dget_ddel_all by done. unfold keys.
    destruct (decide (k' ∈ _THINKING_KWARG_NAMES)) as [I|I].
    - case_decide as J; [done|]. apply dget_None. intros Hk. by apply J, list_elem_of_filter.
    - rewrite decide_False; [done|]. by intros [? _]%list_elem_of_filter. }
  assert (E : jget (ddel_all ck keys) "reasoning_effort" = jget ck "reasoning_effort").
  { unfold jget. rewrite G. by rewrite decide_False by apply effort_not_name. }
  rewrite E. destruct (_is_none_effort (jget ck "reasoning_effort")); simpl.
  - rewrite dget_ddel, G by by apply dwf_ddel_all.
    destruct (String.eqb_spec k "reasoning_effort") as [->|N]; simpl.
    + by repeat case_decide.
    + by rewrite (decide_False (P := "reasoning_effort" = k)).
  - rewrite G, andb_false_r. done.
Qed.

Lemma strip_kwargs_free prefix ck : dwf ck -> kwargs_free (strip_kwargs prefix ck).1.
Proof.
  intros W. split.
  - intros n Hn. by rewrite strip_kwargs_get, decide_True.
  - unfold jget at 1. rewrite strip_kwargs_get by done. rewrite decide_False by apply effort_not_name.
    rewrite String.eqb_refl. simpl.
    destruct (_is_none_effort (jget ck "reasoning_effort")) eqn:E; done.
Qed.

Lemma strip_kwargs_id prefix ck : kwargs_free ck -> strip_kwargs prefix ck = (ck, []).
Proof.
  intros [Hn He]. unfold strip_kwargs.
  assert (filter (fun k => k ∈ _THINKING_KWARG_NAMES) (dkeys ck) = []) as ->.
  { destruct (filter _ _) as [|k l] eqn:E; [done|].
    assert (I : k ∈ filter (fun k => k ∈ _THINKING_KWARG_NAMES) (dkeys ck)) by (rewrite E; left).
    apply list_elem_of_filter in I as [I1 I2]. apply Hn in I1. by apply dget_None in I1. }
  change (ddel_all ck []) with ck. by rewrite He.
Qed.

(** The kwargs dictionary shrinks exactly when it held a spelling. *)
Lemma strip_kwargs_length prefix ck :
  dwf ck -> (length (strip_kwargs prefix ck).1 =? length ck)%nat = true -> kwargs_free ck.
Proof.
  intros W. unfold strip_kwargs. set (keys := filter _ _). intros HL%Nat.eqb_eq.
  assert (K : keys = []).
  { destruct keys as [|k l] eqn:E; [done|]. exfalso.
    assert (I : k ∈ keys) by (rewrite E; left).
    apply list_elem_of_filter in I as [_ I]. apply dkeys_get in I as [v Hv].
    assert (L1 : length ck = S (length (ddel ck k))) by by apply ddel_length.
    pose proof (ddel_all_length_le (ddel ck k) l) as L2.
    change (ddel_all ck (k :: l)) with (ddel_all (ddel ck k) l) in HL.
    destruct (_is_none_effort _) in HL; simpl in HL; [|lia].
    pose proof (ddel_length_le (ddel_all (ddel ck k) l) "reasoning_effort"). lia. }
  rewrite K in HL. change (ddel_all ck []) with ck in HL. split.
  - intros n Hn. apply dget_None. intros I.
    assert (J : n ∈ keys) by by apply list_elem_of_filter. rewrite K in J. by apply not_elem_of_nil in J.
  - destruct (_is_none_effort (jget ck "reasoning_effort")) eqn:E; [|done]. exfalso. simpl in HL.
    unfold jget in E. destruct (dget ck "reasoning_effort") eqn:D; [|done].
    assert (length ck = S (length (ddel ck "reasoning_effort"))) by (apply ddel_length; eauto). lia.
Qed.

(** What [_strip_container] leaves under each key. *)
Definition stripped_kwargs (v : option json) : option json :=
  match v with
  | Some (JDict ck) =>
      let new_ck := (strip_kwargs "" ck).1 in
      if (length new_ck =? length ck)%nat then v
      else if truthy (JDict new_ck) then Some (JDict new_ck) else None
  | _ => v
  end.

Definition stripped_reasoning (v : option json) : option json :=
  match v with
  | Some (JDict obj) =>
      if _is_none_effort (jget obj "effort")
      then let rest := drop_effort obj in
           if truthy (JDict rest) then Some (JDict rest) else None
      else v
  | _ => v
  end.

Definition stripped_entry (c : dict string json) (k : string) : option json :=
  if decide (k = "chat_template_kwargs") then stripped_kwargs (dget c k)
  else if decide (k = "reasoning_effort") then
    if _is_none_effort (jget c k) then None else dget c k
  else if decide (k = "reasoning") then stripped_reasoning (dget c k)
  else dget c k.

Lemma strip_kwargs_prefix prefix ck : (strip_kwargs prefix ck).1 = (strip_kwargs "" ck).1.
Proof. unfold strip_kwargs. by destruct (_is_none_effort _). Qed.

(** The container after each of the three steps. *)
Definition strip_step1 (c : dict string json) : dict string json :=
  match get_dict c "chat_template_kwargs" with
  | Some ck =>
      let new_ck := (strip_kwargs "" ck).1 in
      if (length new_ck =? length ck)%nat then c
      else if truthy (JDict new_ck)
           then dset c "chat_template_kwargs" (JDict new_ck)
           else ddel c "chat_template_kwargs"
  | None => c
  end.

Definition strip_step2 (c out : dict string json) : dict string json :=
  if _is_none_effort (jget c "reasoning_effort") then ddel out "reasoning_effort" else out.

Definition strip_step3 (c out : dict string json) : dict string json :=
  match get_dict c "reasoning" with
  | Some obj =>
      if _is_none_effort (jget obj "effort") then
        let rest := drop_effort obj in
        if truthy (JDict rest) then dset out "reasoning" (JDict rest) else ddel out "reasoning"
      else out
  | None => out
  end.

Lemma strip_container_steps c prefix found :
  (_strip_container c prefix found).1.1 = strip_step3 c (strip_step2 c (strip_step1 c)).
Proof.
  unfold _strip_container, strip_step1, strip_step2, strip_step3.
  destruct (get_dict c "chat_template_kwargs") as [ck|].
  - rewrite <- (strip_kwargs_prefix prefix ck). destruct (strip_kwargs prefix ck) as [n labels]. cbn [fst].
    destruct (length n =? length ck)%nat, (truthy (JDict n)), (_is_none_effort _);
      destruct (get_dict c "reasoning") as [obj|]; try done; by destruct (_is_none_effort _).
  - destruct (_is_none_effort _);
      destruct (get_dict c "reasoning") as [obj|]; try done; by destruct (_is_none_effort _).
Qed.

Lemma strip_step1_spec c k :
  dwf c -> dwf (strip_step1 c)
  /\ dget (strip_step1 c) k
     = if decide (k = "chat_template_kwargs") then stripped_kwargs (dget c k) else dget c k.
Proof.
  intros W. unfold strip_step1, get_dict, stripped_kwargs.
  destruct (dget c "chat_template_kwargs") as [[]|] eqn:E;
    try (split; [done|]; case_decide as Hk; [by subst; rewrite E|done]).
  destruct (_ =? _)%nat eqn:L; [split; [done|]; case_decide as Hk; [by subst; rewrite E, L|done]|].
  destruct (truthy _) eqn:T.
  - split; [by apply dwf_dset|]. rewrite dget_dset.
    destruct (decide (k = "chat_template_kwargs")) as [->|N]; [by rewrite decide_True, E, L, T|].
    by rewrite decide_False.
  - split; [by apply dwf_ddel|]. rewrite dget_ddel by done.
    destruct (decide (k = "chat_template_kwargs")) as [->|N]; [by rewrite decide_True, E, L, T|].
    by rewrite decide_False.
Qed.

Lemma strip_step2_spec c out k :
  dwf out -> dwf (strip_step2 c out)
  /\ dget (strip_step2 c out) k
     = if decide (k = "reasoning_effort") then
         if _is_none_effort (jget c k) then None else dget out k
       else dget out k.
Proof.
  intros W. unfold strip_step2.
  destruct (_is_none_effort (jget c "reasoning_effort")) eqn:F.
  - split; [by apply dwf_ddel|]. rewrite dget_ddel by done.
    destruct (decide (k = "reasoning_effort")) as [->|N]; [by rewrite decide_True, F|].
    by rewrite decide_False.
  - split; [done|]. case_decide as Hk; [|done]. subst. by rewrite F.
Qed.

Lemma strip_step3_spec c out k :
  dwf out -> dget out "reasoning" = dget c "reasoning" ->
  dwf (strip_step3 c out)
  /\ dget (strip_step3 c out) k
     = if decide (k = "reasoning") then stripped_reasoning (dget c k) else dget out k.
Proof.
  intros W R. unfold strip_step3, get_dict, stripped_reasoning.
  destruct (dget c "reasoning") as [[]|] eqn:E;
    try (split; [done|]; case_decide as Hk; [by subst; rewrite E|done]).
  destruct (_is_none_effort _) eqn:F; [|split; [done|]; case_decide as Hk; [by subst; rewrite E, F|done]].
  cbv zeta. destruct (truthy _) eqn:T.
  - split; [by apply dwf_dset|]. rewrite dget_dset.
    destruct (decide (k = "reasoning")) as [->|N]; [by rewrite decide_True, E, F, T|].
    by rewrite decide_False.
  - split; [by apply dwf_ddel|]. rewrite dget_ddel by done.
    destruct (decide (k = "reasoning")) as [->|N]; [by rewrite decide_True, E, F, T|].
    by rewrite decide_False.
Qed.

Lemma strip_container_get c prefix found k :
  dwf c -> dwf (_strip_container c prefix found).1.1
           /\ dget (_strip_container c prefix found).1.1 k = stripped_entry c k.
Proof.
  intros W. rewrite strip_container_steps.
  assert (W1 : dwf (strip_step1 c)) by by apply (strip_step1_spec c "").
  assert (W2 : dwf (strip_step2 c (strip_step1 c))) by by apply (strip_step2_spec c _ "").
  assert (R : dget (strip_step2 c (strip_step1 c)) "reasoning" = dget c "reasoning").
  { destruct (strip_step2_spec c _ "reasoning" W1) as [_ ->].
    destruct (strip_step1_spec c "reasoning" W) as [_ ->]. by rewrite !decide_False. }
  destruct (strip_step3_spec c _ k W2 R) as [W3 ->]. split; [done|].
  destruct (strip_step2_spec c _ k W1) as [_ ->]. destruct (strip_step1_spec c k W) as [_ ->].
  unfold stripped_entry. by repeat case_decide; subst.
Qed.

Lemma strip_container_switch_free c prefix found :
  jwf (JDict c) = true -> switch_free (_strip_container c prefix found).1.1.
Proof.
  intros W. pose proof (jwf_dict _ W) as D.
  assert (G : forall k, dget (_strip_container c prefix found).1.1 k = stripped_entry c k)
    by (intros k; by apply strip_container_get).
  split; [|split].
  - intros ck H%get_dict_Some. rewrite G in H. unfold stripped_entry, stripped_kwargs in H.
    rewrite decide_True in H by done.
    destruct (dget c "chat_template_kwargs") as [[| | | | | |ck0]|] eqn:E; try congruence.
    assert (W0 : dwf ck0) by (eapply jwf_dict, jwf_get; eauto).
    destruct (_ =? _)%nat eqn:L in H; [injection H as <-; by eapply strip_kwargs_length|].
    destruct (truthy _) in H; [injection H as <-|done]. by apply strip_kwargs_free.
  - unfold jget. rewrite G. unfold stripped_entry. rewrite decide_False, decide_True by done.
    unfold jget.
    destruct (_is_none_effort (from_option id JNull (dget c "reasoning_effort"))) eqn:E; [done|]. exact E.
  - intros obj H%get_dict_Some. rewrite G in H. unfold stripped_entry, stripped_reasoning in H.
    rewrite !decide_False, decide_True in H by done.
    destruct (dget c "reasoning") as [[| | | | | |ob]|] eqn:E; try congruence.
    destruct (_is_none_effort _) eqn:F in H; [|by injection H as <-].
    cbv zeta in H. destruct (truthy _) in H; [injection H as <-|done].
    unfold jget. by rewrite drop_effort_get.
Qed.

Lemma strip_container_id c prefix found :
  switch_free c -> _strip_container c prefix found = (c, false, found).
Proof.
  intros (H1 & H2 & H3). unfold _strip_container.
  destruct (get_dict c "chat_template_kwargs") as [ck|] eqn:E.
  - rewrite strip_kwargs_id by auto. rewrite Nat.eqb_refl, H2, app_nil_r.
    destruct (get_dict c "reasoning") as [obj|] eqn:F; [|done]. by rewrite H3.
  - rewrite H2. destruct (get_dict c "reasoning") as [obj|] eqn:F; [|done]. by rewrite H3.
Qed.

Lemma strip_container_copies c prefix found out found' :
  jwf (JDict c) = true -> _strip_container c prefix found = (out, false, found') ->
  switch_free c.
Proof.
  intros W. unfold _strip_container.
  assert (K : forall ck, get_dict c "chat_template_kwargs" = Some ck -> dwf ck).
  { intros ck H. by eapply jwf_dict, jwf_get_dict. }
  destruct (get_dict c "chat_template_kwargs") as [ck|] eqn:E.
  - pose proof (strip_kwargs_length prefix ck (K ck eq_refl)) as L.
    destruct (strip_kwargs prefix ck) as [n labels]. cbn [fst] in L.
    destruct (_ =? _)%nat; destruct (truthy (JDict n));
      destruct (_is_none_effort (jget c "reasoning_effort")) eqn:F;
      destruct (get_dict c "reasoning") as [obj|] eqn:R; try congruence;
      try (destruct (_is_none_effort (jget obj "effort")) eqn:G; try congruence);
      intros _; (split; [|split]); naive_solver.
  - destruct (_is_none_effort (jget c "reasoning_effort")) eqn:F;
      destruct (get_dict c "reasoning") as [obj|] eqn:R; try congruence;
      try (destruct (_is_none_effort (jget obj "effort")) eqn:G; try congruence);
      intros _; (split; [|split]); naive_solver.
Qed.

Lemma strip_kwargs_no_label prefix ck n : strip_kwargs prefix ck = (n, []) -> n = ck.
Proof.
  unfold strip_kwargs. set (keys := filter _ _). destruct keys as [|k l]; simpl.
  - change (ddel_all ck []) with ck. by destruct (_is_none_effort _); intros [= <-].
  - by destruct (_is_none_effort _); intros [=].
Qed.

(** A copy is made only for a label that says what it removed. *)
Definition labelled (found : list string) (copied : bool) (found' : list string) : Prop :=
  exists e, found' = (found ++ e)%list /\ (copied = true -> e <> []).

Lemma labelled_refl found : labelled found false found.
Proof. exists []. by rewrite app_nil_r. Qed.

Lemma labelled_snoc found copied found' x :
  labelled found copied found' -> labelled found true (found' ++ [x])%list.
Proof.
  intros (e & -> & _). exists (e ++ [x])%list. rewrite app_assoc. split; [done|].
  intros _ [_ ?]%app_eq_nil. done.
Qed.

Lemma strip_container_labelled c prefix found out copied found' :
  _strip_container c prefix found = (out, copied, found') -> labelled found copied found'.
Proof.
  unfold _strip_container.
  match goal with |- match ?t with _ => _ end = _ -> _ => destruct t as [[o1 c1] f1] eqn:E1 end.
  assert (L1 : labelled found c1 f1).
  { destruct (get_dict c "chat_template_kwargs") as [ck|];
      [|injection E1 as <- <- <-; apply labelled_refl].
    destruct (strip_kwargs prefix ck) as [n labels] eqn:E.
    destruct (_ =? _)%nat eqn:L in E1; [|destruct (truthy _) in E1]; injection E1 as <- <- <-;
      exists labels; (split; [done|]); intros ? ->; try done;
      apply strip_kwargs_no_label in E as ->; by rewrite Nat.eqb_refl in L. }
  match goal with |- match ?t with _ => _ end = _ -> _ => destruct t as [[o2 c2] f2] eqn:E2 end.
  assert (L2 : labelled found c2 f2).
  { destruct (_is_none_effort (jget c "reasoning_effort")); injection E2 as <- <- <-; [|done]. by eapply labelled_snoc. }
  destruct (get_dict c "reasoning") as [obj|]; [destruct (_is_none_effort (jget obj "effort"))|];
    intros E; simplify_eq; [by eapply labelled_snoc|done|done].
Qed.

(** Stripping a container either returns it unchanged or a switch-free copy. *)
Lemma strip_container_cases c prefix found :
  jwf (JDict c) = true ->
  (switch_free c /\ _strip_container c prefix found = (c, false, found))
  \/ (~ switch_free c
      /\ exists out e, _strip_container c prefix found = (out, true, (found ++ e)%list) /\ e <> []
         /\ switch_free out /\ (forall k, dget out k = stripped_entry c k)).
Proof.
  intros W. destruct (_strip_container c prefix found) as [[out []] found'] eqn:E.
  - right. split.
    + intros F. rewrite strip_container_id in E by done. done.
    + destruct (strip_container_labelled _ _ _ _ _ _ E) as (e & -> & He).
      exists out, e. split; [done|]. split; [by apply He|]. split.
      * pose proof (strip_container_switch_free c prefix found W) as S. by rewrite E in S.
      * intros k. pose proof (strip_container_get c prefix found k (jwf_dict _ W)) as [_ S].
        by rewrite E in S.
  - left. assert (F : switch_free c) by by eapply strip_container_copies.
    split; [done|]. by rewrite <- E, strip_container_id.
Qed.

(** The payload fields stripping may touch. *)
Definition switch_fields : list string :=
  ["chat_template_kwargs"; "reasoning_effort"; "reasoning"; "extra_body"].

Lemma stripped_entry_other c k :
  k ∉ ["chat_template_kwargs"; "reasoning_effort"; "reasoning"] -> stripped_entry c k = dget c k.
Proof.
  rewrite !not_elem_of_cons. intros (H1 & H2 & H3 & _).
  unfold stripped_entry. by rewrite !decide_False.
Qed.

Lemma switch_free_ext c d :
  (forall k, k ∈ ["chat_template_kwargs"; "reasoning_effort"; "reasoning"] -> dget c k = dget d k) ->
  switch_free c -> switch_free d.
Proof.
  intros E. unfold switch_free, get_dict, jget.
  rewrite !(E _) by (apply (bool_decide_unpack _); by vm_compute). done.
Qed.

Lemma strip_switch_free_id p :
  payload_switch_free p -> strip_thinking_switch (JDict p) = (JDict p, []).
Proof.
  intros [F E]. unfold strip_thinking_switch. rewrite strip_container_id by done.
  destruct (get_dict p "extra_body") as [eb|]; [|done]. by rewrite strip_container_id by auto.
Qed.

(** The second half of a strip: [extra_body] of an already stripped payload. *)
Lemma strip_extra_body out found :
  switch_free out ->
  (forall eb, get_dict out "extra_body" = Some eb -> jwf (JDict eb) = true) ->
  exists out' e,
    match get_dict out "extra_body" with
    | Some eb =>
        let '(new_eb, copied, found) := _strip_container eb "extra_body." found in
        (JDict (if copied then dset out "extra_body" (JDict new_eb) else out), found)
    | None => (JDict out, found)
    end = (JDict out', (found ++ e)%list)
    /\ payload_switch_free out'
    /\ (e = [] -> payload_switch_free out) /\ (payload_switch_free out -> out' = out /\ e = [])
    /\ (forall k, k <> "extra_body" -> dget out' k = dget out k).
Proof.
  intros F W. destruct (get_dict out "extra_body") as [eb|] eqn:E.
  - destruct (strip_container_cases eb "extra_body." found (W _ eq_refl))
      as [[F' ->]|(F' & eo & e & -> & He & FO & G)].
    + exists out, []. rewrite app_nil_r.
      assert (payload_switch_free out) by (split; [done|intros eb'; rewrite E; by intros [= <-]]). done.
    + exists (dset out "extra_body" (JDict eo)), e. split_and!; [done|..|done| |].
      * split.
        -- apply (switch_free_ext out); [|done]. intros k Hk. rewrite dget_dset_ne; [done|].
           intros <-. revert Hk. apply (bool_decide_unpack _). by vm_compute.
        -- intros eb' H%get_dict_Some. rewrite dget_dset_eq in H. by injection H as <-.
      * intros [_ H]. by destruct F'; apply H.
      * intros k Hk. by apply dget_dset_ne.
  - exists out, []. rewrite app_nil_r.
    assert (payload_switch_free out) by (split; [done|intros eb'; by rewrite E]). done.
Qed.

(** On an endpoint that declares no thinking switch, the payload sent on
    carries no spelling of one: neither in [chat_template_kwargs] at any value,
    nor as a "none" reasoning effort, at the top level and in [extra_body].
    Every field that cannot hold a switch is kept, a second strip changes
    nothing, and the payload is unchanged with no label reported exactly when
    it held no switch. *)
Theorem strip_thinking_switch_removes p :
  jwf (JDict p) = true ->
  exists out found,
    strip_thinking_switch (JDict p) = (JDict out, found)
    /\ payload_switch_free out
    /\ strip_thinking_switch (JDict out) = (JDict out, [])
    /\ (payload_switch_free p -> out = p) /\ (found = [] <-> payload_switch_free p)
    /\ (forall k, k ∉ switch_fields -> dget out k = dget p k).
Proof.
  intros W.
  destruct (strip_container_get p "" [] "extra_body" (jwf_dict _ W)) as [_ GE].
  rewrite stripped_entry_other in GE by (apply (bool_decide_unpack _); by vm_compute).
  assert (EB : forall eb, get_dict (_strip_container p "" []).1.1 "extra_body" = Some eb
                          -> jwf (JDict eb) = true).
  { intros eb. unfold get_dict at 1. rewrite GE. intros H. by eapply (jwf_get_dict p "extra_body"). }
  unfold strip_thinking_switch at 1.
  destruct (strip_container_cases p "" [] W) as [[F E1]|(F & o1 & e1 & E1 & He & FO & G)];
    rewrite E1 in EB; rewrite E1; cbn [fst] in EB.
  - destruct (strip_extra_body p [] F EB) as (out & e & -> & PF & HE & HI & GO).
    exists out, e. split_and!; [done|done|by apply strip_switch_free_id|..].
    + intros HP. by apply HI.
    + split; [done|]. intros HP. by apply HI.
    + intros k Hk. apply GO. intros ->. by apply Hk; right; right; right; left.
  - destruct (strip_extra_body o1 ([] ++ e1)%list FO EB) as (out & e & -> & PF & HE & HI & GO).
    exists out, (([] ++ e1) ++ e)%list. split_and!; [done|done|by apply strip_switch_free_id|..].
    + intros [HP _]. done.
    + split; [|by intros [? _]]. by intros [? _]%app_eq_nil.
    + intros k Hk. unfold switch_fields in Hk. rewrite !not_elem_of_cons in Hk.
      destruct Hk as (? & ? & ? & ? & _). rewrite GO by done. rewrite G. apply stripped_entry_other.
      rewrite !not_elem_of_cons. repeat split; try done. apply not_elem_of_nil.
Qed.

(** ** Renaming *)

(** The spellings a caller used that the endpoint does not declare. *)
Definition foreign_keys (declared : list string) (ck : dict string json) : list string :=
  filter (fun k => dmem ck k = true /\ k ∉ declared) ["thinking"; "enable_thinking"].

(** The one value those spellings agree on, if they do. *)
Definition carried (declared : list string) (ck : dict string json) : option bool :=
  match map (fun k => _as_switch_value (jget ck k)) (foreign_keys declared ck) with
  | Some b :: vs => if forallb (fun v => bool_decide (v = Some b)) vs then Some b else None
  | _ => None
  end.

(** What a renamed keyword dictionary holds: undeclared spellings are gone, a
    declared key the caller sent keeps its value, any other declared key has the
    carried value, and every other keyword is kept. *)
Definition renamed_entry (declared : list string) (ck : dict string json) (k : string) : option json :=
  if decide (k ∈ foreign_keys declared ck) then None
  else match dget ck k with
       | Some v => Some v
       | None => if decide (k ∈ declared) then JBool <$> carried declared ck else None
       end.

Definition land (b : bool) (declared : list string) (c : dict string json) (l : list string)
  : dict string json * list string :=
  foldl (fun '(c, l) key => if dmem c key then (c, l) else (dset c key (JBool b), (l ++ [key])%list))
    (c, l) declared.

Lemma land_get b declared c l k :
  dget (land b declared c l).1 k =
  match dget c k with
  | Some v => Some v
  | None => if decide (k ∈ declared) then Some (JBool b) else None
  end.
Proof.
  unfold land. revert c l. induction declared as [|x d IH]; intros c l; cbn [foldl fst].
  - destruct (dget c k); [done|]. by rewrite decide_False by apply not_elem_of_nil.
  - destruct (dmem c x) eqn:M.
    + rewrite IH. destruct (dget c k) eqn:E; [done|].
      destruct (decide (k ∈ d)) as [I|I]; [by rewrite decide_True by by right|].
      rewrite decide_False; [done|]. intros [->|?]%elem_of_cons; [|done].
      unfold dmem in M. by rewrite E in M.
    + rewrite IH, dget_dset. destruct (decide (x = k)) as [->|N].
      * unfold dmem in M. destruct (dget c k); [done|]. by rewrite decide_True by left.
      * destruct (dget c k); [done|]. destruct (decide (k ∈ d)) as [I|I].
        -- by rewrite decide_True by by right.
        -- rewrite decide_False; [done|]. intros [->|?]%elem_of_cons; done.
Qed.

Lemma foreign_absent declared ck k :
  k ∈ foreign_keys declared ck ->
  dget (filter (fun kv => kv.1 ∉ foreign_keys declared ck) ck) k = None.
Proof. intros H. apply dget_filter_out. simpl. auto. Qed.

Lemma foreign_kept declared ck k :
  k ∉ foreign_keys declared ck ->
  dget (filter (fun kv => kv.1 ∉ foreign_keys declared ck) ck) k = dget ck k.
Proof. intros H. by apply dget_filter_in. Qed.

Lemma foreign_not_declared declared ck k : k ∈ foreign_keys declared ck -> k ∉ declared.
Proof. by intros [[_ H] _]%list_elem_of_filter. Qed.

(** Renaming one container: untouched without a foreign spelling, otherwise the
    keyword dictionary becomes the one [renamed_entry] describes. *)
Lemma rename_container_cases c prefix declared found :
  match get_dict c "chat_template_kwargs" with
  | None => _rename_container c prefix declared found = (c, false, found)
  | Some ck =>
      (foreign_keys declared ck = [] /\ _rename_container c prefix declared found = (c, false, found))
      \/ (foreign_keys declared ck <> []
          /\ exists ck' e, _rename_container c prefix declared found
              = (dset c "chat_template_kwargs" (JDict ck'), true, (found ++ [e])%list)
             /\ forall k, dget ck' k = renamed_entry declared ck k)
  end.
Proof.
  unfold _rename_container. destruct (get_dict c "chat_template_kwargs") as [ck|]; [|done].
  fold (foreign_keys declared ck).
  destruct (foreign_keys declared ck) as [|f fs] eqn:EF; [by left|right].
  split; [done|]. cbn [map]. set (v0 := _as_switch_value (jget ck f)).
  set (rest := filter (fun kv => kv.1 ∉ f :: fs) ck).
  assert (RA : forall k, k ∈ f :: fs -> dget rest k = None)
    by (intros k; unfold rest; rewrite <- EF; apply foreign_absent).
  assert (RK : forall k, k ∉ f :: fs -> dget rest k = dget ck k)
    by (intros k; unfold rest; rewrite <- EF; apply foreign_kept).
  assert (CA : carried declared ck = match v0 with
    | Some b => if forallb (fun v => bool_decide (v = Some b))
                     (map (fun k => _as_switch_value (jget ck k)) fs) then Some b else None
    | None => None end) by (unfold carried; by rewrite EF).
  match goal with |- context [let '(_, _) := ?t in _] => destruct t as [n landed] eqn:EN end.
  assert (HN : n = match carried declared ck with
                   | Some b => (land b declared rest []).1 | None => rest end).
  { rewrite CA. destruct v0 as [b|]; [|by injection EN as <- _].
    cbn [forallb] in EN. rewrite !bool_decide_true in EN by done. cbn [andb] in EN.
    destruct (forallb _ _); [|by injection EN as <- _].
    unfold land. by rewrite EN. }
  eexists n, _. split; [done|]. intros k. rewrite HN. unfold renamed_entry. rewrite EF.
  assert (ND : k ∈ f :: fs -> k ∉ declared) by (rewrite <- EF; apply foreign_not_declared).
  destruct (carried declared ck) as [b|]; [rewrite land_get|];
    (destruct (decide (k ∈ f :: fs)) as [I|I]; [rewrite (RA k I)|rewrite (RK k I)]); try done.
  - by rewrite decide_False by auto.
  - destruct (dget ck k); [done|]. by case_decide.
Qed.

(** A renamed container, seen through its keyword dictionary. *)
Definition renamed (declared : list string) (c c' : dict string json) : Prop :=
  forall ck, get_dict c "chat_template_kwargs" = Some ck ->
  exists ck', get_dict c' "chat_template_kwargs" = Some ck'
              /\ forall k, dget ck' k = renamed_entry declared ck k.

Lemma renamed_entry_no_foreign declared ck k :
  foreign_keys declared ck = [] -> renamed_entry declared ck k = dget ck k.
Proof.
  intros E. unfold renamed_entry, carried. rewrite E. rewrite decide_False by apply not_elem_of_nil.
  simpl. destruct (dget ck k); [done|]. by case_decide.
Qed.

(** After a rename no foreign spelling is left. *)
Lemma renamed_no_foreign declared ck ck' :
  (forall k, dget ck' k = renamed_entry declared ck k) -> foreign_keys declared ck' = [].
Proof.
  intros G. destruct (foreign_keys declared ck') as [|k l] eqn:E; [done|]. exfalso.
  assert (I : k ∈ foreign_keys declared ck') by (rewrite E; left).
  apply list_elem_of_filter in I as [[M ND] IN]. apply dmem_true in M as [v Hv].
  rewrite G in Hv. unfold renamed_entry in Hv. case_decide as F; [done|].
  destruct (dget ck k) eqn:D; [|by rewrite decide_False in Hv].
  apply F, list_elem_of_filter. split; [|done]. split; [|done]. apply dmem_true. eauto.
Qed.

Definition rename_stable (declared : list string) (c : dict string json) : Prop :=
  forall ck, get_dict c "chat_template_kwargs" = Some ck -> foreign_keys declared ck = [].

Lemma rename_stable_id declared c prefix found :
  rename_stable declared c -> _rename_container c prefix declared found = (c, false, found).
Proof.
  intros S. pose proof (rename_container_cases c prefix declared found) as H.
  destruct (get_dict c "chat_template_kwargs") as [ck|] eqn:E; [|done].
  destruct H as [[_ H]|[H _]]; [done|]. by destruct H; apply S.
Qed.

Lemma rename_container_spec c prefix declared found :
  exists c' copied e, _rename_container c prefix declared found = (c', copied, (found ++ e)%list)
    /\ renamed declared c c'
    /\ (copied = false -> c' = c)
    /\ (forall k, k <> "chat_template_kwargs" -> dget c' k = dget c k)
    /\ rename_stable declared c'.
Proof.
  pose proof (rename_container_cases c prefix declared found) as H.
  destruct (get_dict c "chat_template_kwargs") as [ck|] eqn:E.
  - destruct H as [[F ->]|(F & ck' & e & -> & G)].
    + exists c, false, []. rewrite app_nil_r. split_and!; try done.
      * intros k. rewrite E. intros [= <-]. exists ck. split; [done|].
        intros k. by rewrite renamed_entry_no_foreign.
      * intros k. rewrite E. by intros [= <-].
    + exists (dset c "chat_template_kwargs" (JDict ck')), true, [e].
      assert (GD : get_dict (dset c "chat_template_kwargs" (JDict ck')) "chat_template_kwargs" = Some ck')
        by apply get_dict_Some, dget_dset_eq.
      split_and!; try done.
      * intros k. rewrite E. intros [= <-]. by exists ck'.
      * intros k Hk. by apply dget_dset_ne.
      * intros k. rewrite GD. intros [= <-]. by eapply renamed_no_foreign.
  - rewrite H. exists c, false, []. rewrite app_nil_r.
    split_and!; try done; intros ck; by rewrite E.
Qed.

(** On an endpoint that declares its switch keys, the caller's switch is
    carried onto them, in the payload and in [extra_body]: an undeclared
    spelling is removed, a declared key the caller sent keeps its own value, and
    the other declared keys get the value the undeclared spellings agree on, or
    nothing when they disagree.  Every other keyword and field is kept, and
    renaming again changes nothing. *)
Theorem rename_thinking_switch_carries p declared :
  declared <> [] ->
  exists out found,
    rename_thinking_switch (JDict p) declared = (JDict out, found)
    /\ renamed declared p out
    /\ (forall eb, get_dict p "extra_body" = Some eb ->
          exists eb', get_dict out "extra_body" = Some eb' /\ renamed declared eb eb')
    /\ (forall k, k <> "chat_template_kwargs" -> k <> "extra_body" -> dget out k = dget p k)
    /\ rename_thinking_switch (JDict out) declared = (JDict out, []).
Proof.
  intros HD. destruct declared as [|d0 ds]; [done|]. set (D := d0 :: ds).
  destruct (rename_container_spec p "" D []) as (c & cp & e & E & R & _ & K & ID).
  unfold rename_thinking_switch. fold D. rewrite E.
  assert (EB : get_dict c "extra_body" = get_dict p "extra_body") by (unfold get_dict; by rewrite K).
  rewrite EB. destruct (get_dict p "extra_body") as [eb|] eqn:B.
  - destruct (rename_container_spec eb "extra_body." D ([] ++ e)%list)
      as (eb' & cp' & e' & E' & R' & NC & K' & ID').
    rewrite E'. destruct cp'.
    + eexists _, _. split_and!; [done|..].
      * intros ck Hck. destruct (R ck Hck) as (ck' & G1 & G2). exists ck'. split; [|done].
        apply get_dict_Some in G1. by apply get_dict_Some; rewrite dget_dset_ne.
      * intros ? [= <-]. exists eb'. split; [apply get_dict_Some, dget_dset_eq|done].
      * intros k H1 H2. rewrite dget_dset_ne by done. by apply K.
      * rewrite rename_stable_id.
        -- rewrite (proj2 (get_dict_Some _ _ eb') (dget_dset_eq _ _ _)). by rewrite rename_stable_id.
        -- intros ck. unfold get_dict. rewrite dget_dset_ne by done. apply ID.
    + rewrite (NC eq_refl) in *. eexists _, _. split_and!; [done|done|..].
      * intros ? [= <-]. by exists eb.
      * intros k H1 H2. by apply K.
      * by rewrite rename_stable_id, EB, rename_stable_id.
  - eexists _, _. split_and!; [done|done|done|intros; by apply K|]. by rewrite rename_stable_id, EB.
Qed.

Definition switch_payload : json :=
  JDict [("model", JStr "m"); ("reasoning_effort", JStr "none");
         ("extra_body", JDict [("chat_template_kwargs", JDict [("thinking", JBool false); ("n", JInt 1)])])].

Lemma strip_thinking_switch_removes_witness :
  jwf switch_payload = true /\ payload_switch_free
    [("model", JStr "m"); ("extra_body", JDict [("chat_template_kwargs", JDict [("n", JInt 1)])])].
Proof.
  split; [reflexivity|].
  destruct (strip_thinking_switch_removes
    [("model", JStr "m"); ("reasoning_effort", JStr "none");
     ("extra_body", JDict [("chat_template_kwargs", JDict [("thinking", JBool false); ("n", JInt 1)])])]
    eq_refl) as (out & found & E & F & _).
  vm_compute in E. injection E as <- _. exact F.
Defined.

Lemma rename_thinking_switch_carries_witness :
  ["enable_thinking"] <> [] /\
  exists out, (rename_thinking_switch switch_payload ["enable_thinking"]).1 = JDict out
    /\ forall eb, get_dict out "extra_body" = Some eb ->
       get_dict eb "chat_template_kwargs" = Some [("n", JInt 1); ("enable_thinking", JBool false)].
Proof.
  split; [done|].
  destruct (rename_thinking_switch_carries
    [("model", JStr "m"); ("reasoning_effort", JStr "none");
     ("extra_body", JDict [("chat_template_kwargs", JDict [("thinking", JBool false); ("n", JInt 1)])])]
    ["enable_thinking"] ltac:(done)) as (out & found & E & _).
  exists out. unfold switch_payload. rewrite E. split; [done|].
  vm_compute in E. injection E as <- _. intros eb. vm_compute. by intros [= <-].
Defined.
