(* ===== verification/ThinkBleed.v ===== *)
(** * Repairing a reasoning trace left in [content] (think_bleed.py, section 2)

    [_split] finds a tagged trace in a whole answer; [repair_message] and
    [repair_body] move it to the reasoning field of a response.  [StreamRepair]
    does the same on a stream of chunks, holding back no more text than it needs
    to recognise a tag.  The state of the repair is the record of its fields, an
    operation returns the frames to relay and the next state, and the theorems at
    the end relate the stream to [_split] of the whole text, for any chunking. *)

From Stdlib Require Import Ascii Lia ZArith QArith.
From stdpp Require Import base list strings.
From S2P Require Import Prelude PyDict PyText Json.

Local Open Scope string_scope.

Definition THINK_OPEN : string := "<think>".
Definition THINK_CLOSE : string := "</think>".
Definition HOLD_LIMIT_CHARS : Z := 65536.
Definition PREFIX_HOLD_CHARS : Z := 16.
Definition _LOG_INTERVAL_S : Q := 60.
Definition _REASONING_KEYS : list string := ["reasoning"; "reasoning_content"].

Definition CR : string := String "013" "".
Definition LF : string := String "010" "".

Definition default_reasoning_key (engine : string) : string :=
  if String.eqb engine "vllm" then "reasoning" else "reasoning_content".

Definition _after_tag (text : string) : string :=
  if startswith (CR ++ LF) text then sdrop 2 text
  else if startswith LF text then sdrop 1 text else text.

(** ** Whole responses *)

Definition _split (content : string) (close_only : bool) : option (string * string * string) :=
  let lead := lstrip content in
  if startswith THINK_OPEN lead then
    let body := sdrop (String.length THINK_OPEN) lead in
    match sfind THINK_CLOSE body with
    | None => Some (strip body, "", "unclosed")
    | Some i => Some (strip (stake i body), _after_tag (sdrop (i + String.length THINK_CLOSE) body),
                      "open_tag")
    end
  else if close_only then
    match sfind THINK_CLOSE content with
    | Some i => Some (strip (stake i content), _after_tag (sdrop (i + String.length THINK_CLOSE) content),
                      "close_only")
    | None => None
    end
  else None.

(** [str(msg.get(k) or "").strip()] is non-empty. *)
Definition has_text (msg : dict string json) (k : string) : bool :=
  let v := jget msg k in
  negb (String.eqb (strip (if truthy v then py_str v else "")) "").

(** [next((k for k in _REASONING_KEYS if k in msg), None)] *)
Definition present_key (msg : dict string json) : option string :=
  head (filter (fun k => dmem msg k = true) _REASONING_KEYS).

(** The message after the call and the returned triple. *)
Definition repair_message (msg : json) (close_only : bool) (default_key : string)
  : json * option (string * Z * Z) :=
  match msg with
  | JDict m =>
      match jget m "content" with
      | JStr content =>
          if String.eqb content "" then (msg, None)
          else if existsb (has_text m) _REASONING_KEYS then (msg, None)
          else match _split content close_only with
               | None => (msg, None)
               | Some (reasoning, answer, shape) =>
                   let key := default default_key (present_key m) in
                   (JDict (dset (dset m key (JStr reasoning)) "content" (JStr answer)),
                    Some (shape, slen reasoning, slen answer))
               end
      | _ => (msg, None)
      end
  | _ => (msg, None)
  end.

(** [repair_message] on [choices[0].message], in place; a body without that
    path is left alone. *)
Definition repair_body (body : json) (close_only : bool) (default_key : string)
  : json * option (string * Z * Z) :=
  match body with
  | JDict b =>
      match dget b "choices" with
      | Some (JList (JDict ch :: cs)) =>
          match dget ch "message" with
          | Some msg =>
              let '(msg', r) := repair_message msg close_only default_key in
              (JDict (dset b "choices" (JList (JDict (dset ch "message" msg') :: cs))), r)
          | None => (body, None)
          end
      | _ => (body, None)
      end
  | _ => (body, None)
  end.

(** ** Streams *)

Inductive SRState := _UNDECIDED | _IN_THINK | _ANSWER_LEAD | _PASS.

#[global] Instance SRState_eq_dec : EqDecision SRState.
Proof. solve_decision. Defined.

Definition Frame : Type := json * string.

(** The longest suffix of [text] that is a proper prefix of the closing tag. *)
Fixpoint partial_from (k : nat) (text : string) : nat :=
  match k with
  | O => O
  | S k' => if startswith (sdrop (String.length text - k) text) THINK_CLOSE then k
            else partial_from k' text
  end.

Definition _partial_close_len (text : string) : nat :=
  partial_from (Nat.min (String.length THINK_CLOSE - 1) (String.length text)) text.

Record StreamRepair := mkSR {
  _hold_close : bool;
  _key : string;
  _limit : Z;
  _state : SRState;
  _buf : string;
  _strip_reasoning_lead : bool;
  _last : option (dict string json);
  _whole : bool;
  sr_shape : option string;
  reasoning_chars : Z;
  answer_chars : Z }.

Definition StreamRepair_init (hold_for_close_tag : bool) (default_key : string) (hold_limit : Z) : StreamRepair :=
  mkSR hold_for_close_tag default_key hold_limit _UNDECIDED "" false None false None 0 0.

Definition repaired (s : StreamRepair) : bool := bool_decide (sr_shape s <> None).

Definition set_state (v : SRState) (s : StreamRepair) : StreamRepair :=
  mkSR (_hold_close s) (_key s) (_limit s) v (_buf s) (_strip_reasoning_lead s) (_last s) (_whole s)
    (sr_shape s) (reasoning_chars s) (answer_chars s).
Definition set_buf (v : string) (s : StreamRepair) : StreamRepair :=
  mkSR (_hold_close s) (_key s) (_limit s) (_state s) v (_strip_reasoning_lead s) (_last s) (_whole s)
    (sr_shape s) (reasoning_chars s) (answer_chars s).
Definition set_strip_lead (v : bool) (s : StreamRepair) : StreamRepair :=
  mkSR (_hold_close s) (_key s) (_limit s) (_state s) (_buf s) v (_last s) (_whole s)
    (sr_shape s) (reasoning_chars s) (answer_chars s).
Definition set_last (v : dict string json) (s : StreamRepair) : StreamRepair :=
  mkSR (_hold_close s) (_key s) (_limit s) (_state s) (_buf s) (_strip_reasoning_lead s) (Some v) (_whole s)
    (sr_shape s) (reasoning_chars s) (answer_chars s).
Definition set_whole (v : bool) (s : StreamRepair) : StreamRepair :=
  mkSR (_hold_close s) (_key s) (_limit s) (_state s) (_buf s) (_strip_reasoning_lead s) (_last s) v
    (sr_shape s) (reasoning_chars s) (answer_chars s).
Definition set_shape (v : string) (s : StreamRepair) : StreamRepair :=
  mkSR (_hold_close s) (_key s) (_limit s) (_state s) (_buf s) (_strip_reasoning_lead s) (_last s) (_whole s)
    (Some v) (reasoning_chars s) (answer_chars s).
Definition add_reasoning_chars (n : Z) (s : StreamRepair) : StreamRepair :=
  mkSR (_hold_close s) (_key s) (_limit s) (_state s) (_buf s) (_strip_reasoning_lead s) (_last s) (_whole s)
    (sr_shape s) (reasoning_chars s + n) (answer_chars s).
Definition add_answer_chars (n : Z) (s : StreamRepair) : StreamRepair :=
  mkSR (_hold_close s) (_key s) (_limit s) (_state s) (_buf s) (_strip_reasoning_lead s) (_last s) (_whole s)
    (sr_shape s) (reasoning_chars s) (answer_chars s + n).

Definition _frame (s : StreamRepair) (delta : dict string json) : Frame :=
  let base := filter (fun kv => kv.1 ∉ ["choices"; "usage"]) (default [] (_last s) : list (string * json)) in
  let base := JDict (dset base "choices"
    (JList [JDict [("index", JInt 0); ("delta", JDict delta); ("finish_reason", JNull)]])) in
  (base, dumps base).

Definition _reasoning (text : string) (s : StreamRepair) : list Frame * StreamRepair :=
  let '(text, s) :=
    if _strip_reasoning_lead s then
      let text := lstrip text in
      (text, if String.eqb text "" then s else set_strip_lead false s)
    else (text, s) in
  if String.eqb text "" then ([], s)
  else ([_frame s [(_key s, JStr text)]], add_reasoning_chars (slen text) s).

Definition _content (text : string) (s : StreamRepair) : list Frame :=
  if String.eqb text "" then [] else [_frame s [("content", JStr text)]].

Definition _answer (rest : string) (s : StreamRepair) : list Frame * StreamRepair :=
  if (String.eqb rest "" || String.eqb rest CR)%bool
  then ([], set_buf rest (set_state _ANSWER_LEAD s))
  else
    let s := set_state _PASS s in
    let rest := _after_tag rest in
    let s := add_answer_chars (slen rest) s in
    (_content rest s, s).

Definition _think (text : string) (s : StreamRepair) : list Frame * StreamRepair :=
  let text := _buf s ++ text in
  let s := set_buf "" s in
  match sfind THINK_CLOSE text with
  | Some i =>
      let '(f1, s) := _reasoning (stake i text) s in
      let '(f2, s) := _answer (sdrop (i + String.length THINK_CLOSE) text) s in
      ((f1 ++ f2)%list, s)
  | None =>
      let keep := _partial_close_len text in
      let '(text, s) :=
        if (keep =? 0)%nat then (text, s)
        else (stake (String.length text - keep) text,
              set_buf (sdrop (String.length text - keep) text) s) in
      _reasoning text s
  end.

Definition _consume (piece : string) (held_before : bool) (s : StreamRepair) : list Frame * StreamRepair :=
  match _state s with
  | _IN_THINK => _think piece s
  | _ANSWER_LEAD =>
      let piece := _buf s ++ piece in
      let s := set_buf "" s in
      if String.eqb piece CR then ([], set_buf piece s)
      else
        let s := set_state _PASS s in
        let out := _after_tag piece in
        let s := add_answer_chars (slen out) s in
        (_content out s, s)
  | _ =>
      let buf := _buf s ++ piece in
      let lead := lstrip buf in
      let decided s :=
        let s := set_state _PASS (set_buf "" s) in
        if held_before then (_content buf s, s) else ([], set_whole true s) in
      if startswith THINK_OPEN lead then
        let s := set_buf "" (set_strip_lead true (set_shape "open_tag" (set_state _IN_THINK s))) in
        _think (sdrop (String.length THINK_OPEN) lead) s
      else if _hold_close s then
        match sfind THINK_CLOSE buf with
        | Some i =>
            let s := set_strip_lead true (set_buf "" (set_shape "close_only" s)) in
            let '(f1, s) := _reasoning (stake i buf) s in
            let '(f2, s) := _answer (sdrop (i + String.length THINK_CLOSE) buf) s in
            ((f1 ++ f2)%list, s)
        | None => if (slen buf <=? _limit s)%Z then ([], set_buf buf s) else decided s
        end
      else if ((String.eqb lead "" || startswith lead THINK_OPEN) && (slen buf <=? PREFIX_HOLD_CHARS)%Z)%bool
      then ([], set_buf buf s)
      else decided s
  end.

Definition _settle (s : StreamRepair) : list Frame * StreamRepair :=
  let '(out, s) :=
    match _state s with
    | _UNDECIDED => ((if String.eqb (_buf s) "" then [] else _content (_buf s) s), s)
    | _ANSWER_LEAD => (_content (_buf s) s, s)
    | _IN_THINK =>
        let s := if bool_decide (sr_shape s = Some "open_tag") then set_shape "unclosed" s else s in
        _reasoning (_buf s) s
    | _PASS => ([], s)
    end in
  (out, set_state _PASS (set_buf "" s)).

(** [choices[0]] of a truthy [choices]. *)
Definition first_choice (choices : json) : res json :=
  match choices with
  | JList (x :: _) => Ret x
  | JList [] => Raise IndexError
  | JStr (String c _) => Ret (JStr (String c ""))
  | JStr "" => Raise IndexError
  | JDict _ => Raise KeyError
  | _ => Raise TypeError
  end.

(** [choice.get("index", 0) != 0] *)
Definition other_index (choice : dict string json) : bool :=
  match dget choice "index" with
  | None => false
  | Some j => match py_number j with Some q => negb (Qeq_bool q 0) | None => true end
  end.

(** [isinstance(delta.get(k), str) and delta[k]] *)
Definition nonempty_str (delta : dict string json) (k : string) : bool :=
  match dget delta k with Some (JStr s) => negb (String.eqb s "") | _ => false end.

Definition text_or_empty (j : json) : string := match j with JStr s => s | _ => "" end.

(** The part of [feed] that runs once the chunk is known to carry choice 0. *)
Definition feed_choice (parsed : dict string json) (data : string) (choice : dict string json)
    (s : StreamRepair) : list Frame * StreamRepair :=
  let s := set_last parsed s in
  let delta : dict string json := match jget choice "delta" with JDict d => d | _ => [] end in
  let finish := jget choice "finish_reason" in
  let original : Frame := (JDict parsed, data) in
  if existsb (nonempty_str delta) _REASONING_KEYS then
    let '(out, s) := if String.eqb (_buf s) "" then ([], s) else _settle s in
    ((out ++ [original])%list, set_state _PASS s)
  else
    let piece := text_or_empty (jget delta "content") in
    let held_before := negb (String.eqb (_buf s) "") in
    let s := set_whole false s in
    let '(out, s) := if String.eqb piece "" then ([], s) else _consume piece held_before s in
    if _whole s then ([original], s)
    else
      let '(out, s) :=
        if (truthy (jget delta "tool_calls") || truthy finish)%bool
        then let '(o, s) := _settle s in ((out ++ o)%list, s)
        else (out, s) in
      if String.eqb piece "" then ((out ++ [original])%list, s)
      else
        let residual : dict string json := filter (fun kv => kv.1 <> "content") (delta : list (string * json)) in
        if (truthy (JDict residual) || truthy finish)%bool then
          let ch := dset choice "delta" (JDict residual) in
          let rest := match jget parsed "choices" with JList (_ :: cs) => cs | _ => [] end in
          let r := JDict (dset parsed "choices" (JList (JDict ch :: rest))) in
          ((out ++ [(r, dumps r)])%list, s)
        else (out, s).

Definition feed (parsed : json) (data : string) (s : StreamRepair) : res (list Frame) * StreamRepair :=
  match _state s with
  | _PASS => (Ret [(parsed, data)], s)
  | _ =>
      match parsed with
      | JDict p =>
          if dmem p "error" then
            let '(out, s) := _settle s in (Ret (out ++ [(parsed, data)])%list, s)
          else if truthy (jget p "choices") then
            match first_choice (jget p "choices") with
            | Raise e => (Raise e, s)
            | Ret (JDict choice) =>
                if other_index choice then (Ret [(parsed, data)], s)
                else let '(out, s) := feed_choice p data choice s in (Ret out, s)
            | Ret _ => (Ret [(parsed, data)], s)
            end
          else (Ret [(parsed, data)], s)
      | _ => (Ret [(parsed, data)], s)
      end
  end.

Definition finish (s : StreamRepair) : list Frame * StreamRepair := _settle s.

(** The relay of a whole stream, [feed] for each chunk and [finish] at the end. *)
Fixpoint feed_all (chunks : list (json * string)) (s : StreamRepair) : res (list Frame) * StreamRepair :=
  match chunks with
  | [] => (Ret [], s)
  | (p, d) :: cs =>
      match feed p d s with
      | (Raise e, s) => (Raise e, s)
      | (Ret out, s) =>
          match feed_all cs s with
          | (Ret out', s) => (Ret (out ++ out')%list, s)
          | (Raise e, s) => (Raise e, s)
          end
      end
  end.

Definition relay (chunks : list (json * string)) (s : StreamRepair) : res (list Frame) * StreamRepair :=
  match feed_all chunks s with
  | (Raise e, s) => (Raise e, s)
  | (Ret out, s) => let '(o, s) := finish s in (Ret (out ++ o)%list, s)
  end.

(** ** What a client reads off the frames *)

(** [choices[0].delta[k]] of a relayed frame, when it is text. *)
Definition delta_text (k : string) (parsed : json) : string :=
  match parsed with
  | JDict p =>
      match jget p "choices" with
      | JList (JDict ch :: _) =>
          match jget ch "delta" with
          | JDict d => text_or_empty (jget d k)
          | _ => ""
          end
      | _ => ""
      end
  | _ => ""
  end.

Definition ftext (k : string) (fs : list Frame) : string := sjoin (map (fun f => delta_text k f.1) fs).

(** The delta of a choice, as [feed] reads it: one that is no object is empty. *)
Definition delta_of (ch : dict string json) : dict string json :=
  match jget ch "delta" with JDict d => d | _ => [] end.

(** A choice that [feed] reads for text: choice 0, with no reasoning text of its
    own. *)
Definition text_choice (ch : dict string json) : bool :=
  negb (other_index ch || existsb (nonempty_str (delta_of ch)) _REASONING_KEYS)%bool.

(** Whether a choice ends the repair: its message is finished, or it turns to
    tool calls. *)
Definition settles (ch : dict string json) : bool :=
  (truthy (jget (delta_of ch) "tool_calls") || truthy (jget ch "finish_reason"))%bool.

Definition choice_text (ch : dict string json) : string := text_or_empty (jget (delta_of ch) "content").

(** The text of a chunk in the middle of an answer: "" when it has no choices
    (usage) or a delta with no content (a role, a null content). *)
Definition text_of_chunk (parsed : json) : option string :=
  match parsed with
  | JDict p =>
      if dmem p "error" then None
      else if truthy (jget p "choices") then
        match jget p "choices" with
        | JList (JDict ch :: _) => if (text_choice ch && negb (settles ch))%bool then Some (choice_text ch) else None
        | _ => None
        end
      else Some ""
  | _ => None
  end.

(** The text of the chunk that ends the answer's text: it carries a finish
    reason, or tool calls. *)
Definition closing_text (parsed : json) : option string :=
  match parsed with
  | JDict p =>
      match jget p "choices" with
      | JList (JDict ch :: _) =>
          if (negb (dmem p "error") && text_choice ch && settles ch)%bool then Some (choice_text ch) else None
      | _ => None
      end
  | _ => None
  end.

(** A chunk with no text a client reads: more of a tool call, usage, an error. *)
Definition silent (parsed : json) : Prop :=
  forall k, k ∈ "content" :: _REASONING_KEYS -> delta_text k parsed = "".

(** How a stream ends: after its last text, or with a closing chunk (that may
    carry text) and any number of chunks without text. *)
Definition stream_end (tail : list (json * string)) (t : string) : Prop :=
  (tail = [] /\ t = "")
  \/ exists c rest, tail = c :: rest /\ closing_text c.1 = Some t /\ Forall (fun c => silent c.1) rest.

Lemma ftext_app k a b : ftext k (a ++ b)%list = ftext k a ++ ftext k b.
Proof. unfold ftext. by rewrite map_app, sjoin_app. Qed.

Lemma ftext_one k f : ftext k [f] = delta_text k f.1.
Proof. unfold ftext. simpl. apply sapp_nil_r. Qed.

Lemma frame_text s k k' t : delta_text k (_frame s [(k', JStr t)]).1 = if decide (k' = k) then t else "".
Proof.
  unfold _frame, delta_text. cbn [fst]. unfold jget at 1. rewrite dget_dset_eq.
  unfold jget. cbn [from_option id dget]. rewrite decide_False, decide_True by done. cbn. by case_decide.
Qed.

Lemma content_text s t : ftext "content" (_content t s) = t.
Proof.
  unfold _content. destruct (String.eqb_spec t "") as [->|]; [done|].
  by rewrite ftext_one, frame_text, decide_True.
Qed.

Lemma content_no_reasoning s t k : k ∈ _REASONING_KEYS -> ftext k (_content t s) = "".
Proof.
  intros Hk. unfold _content. destruct (String.eqb_spec t "") as [->|]; [done|].
  rewrite ftext_one, frame_text, decide_False; [done|]. intros <-. revert Hk.
  apply (bool_decide_unpack _). by vm_compute.
Qed.

(** What [_reasoning] emits and how it moves the strip flag. *)
Lemma reasoning_spec text s :
  _key s ∈ _REASONING_KEYS ->
  exists fs rc,
    _reasoning text s = (fs, mkSR (_hold_close s) (_key s) (_limit s) (_state s) (_buf s)
       (_strip_reasoning_lead s && String.eqb (lstrip text) "")%bool (_last s) (_whole s) (sr_shape s) rc
       (answer_chars s))
    /\ ftext (_key s) fs = (if _strip_reasoning_lead s then lstrip text else text)
    /\ ftext "content" fs = "".
Proof.
  intros Hk. destruct s as [h key lim st buf fl last wh sh rc ac]. cbn in Hk |- *.
  assert (Hc : key <> "content") by (intros ->; revert Hk; apply (bool_decide_unpack _); by vm_compute).
  unfold _reasoning. cbn. destruct fl; cbn.
  - destruct (String.eqb_spec (lstrip text) "") as [E|N]; cbn.
    + exists [], rc. by rewrite E.
    + eexists _, _. split; [done|]. rewrite !ftext_one, !frame_text. cbn.
      by rewrite decide_True, decide_False.
  - destruct (String.eqb_spec text "") as [->|N]; cbn.
    + by exists [], rc.
    + eexists _, _. split; [done|]. rewrite !ftext_one, !frame_text. cbn.
      by rewrite decide_True, decide_False.
Qed.

(** ** The tag, by position *)

(** Where the closing tag of a tagged text is: the trace, the text after the
    tag, and the shape [_split] reports. *)
Inductive tagged (h : bool) : string -> string -> string -> string -> Prop :=
| tagged_open fed body i :
    lstrip fed = THINK_OPEN ++ body -> sfind THINK_CLOSE body = Some i ->
    tagged h fed (stake i body) (sdrop (i + String.length THINK_CLOSE) body) "open_tag"
| tagged_close fed i :
    h = true -> startswith THINK_OPEN (lstrip fed) = false -> sfind THINK_CLOSE fed = Some i ->
    tagged h fed (stake i fed) (sdrop (i + String.length THINK_CLOSE) fed) "close_only".

Lemma find_slices p s i x :
  sfind p s = Some i ->
  stake i (s ++ x) = stake i s
  /\ sdrop (i + String.length p) (s ++ x) = sdrop (i + String.length p) s ++ x.
Proof.
  intros H. destruct (sfind_Some _ _ _ H) as [E L].
  set (a := stake i s) in *. set (b := sdrop (i + String.length p) s) in *.
  rewrite E, !sapp_assoc. rewrite <- L at 1 2. split; [by rewrite stake_app_length|].
  rewrite <- sapp_assoc, <- slength_app, sdrop_app_length. done.
Qed.

Lemma tagged_split h fed r rest sh :
  tagged h fed r rest sh -> _split fed h = Some (strip r, _after_tag rest, sh).
Proof.
  intros [fed' body i E F|fed' i -> E F]; unfold _split.
  - rewrite E, startswith_refl_app, sdrop_app_length. by rewrite F.
  - by rewrite E, F.
Qed.

Lemma lstrip_app_nonempty s t : lstrip s <> "" -> lstrip (s ++ t) = lstrip s ++ t.
Proof. intros H. rewrite lstrip_app. by destruct (String.eqb_spec (lstrip s) ""). Qed.

Lemma closed_long s i : sfind THINK_CLOSE s = Some i -> (8 <= String.length (lstrip s))%nat.
Proof.
  intros [-> _]%sfind_Some. rewrite lstrip_app.
  destruct (String.eqb_spec (lstrip (stake i s)) "").
  - change (lstrip (THINK_CLOSE ++ ?t)) with (THINK_CLOSE ++ t). rewrite slength_app. simpl. lia.
  - rewrite !slength_app. simpl. lia.
Qed.

(** A text whose visible part is at least as long as the opening tag, and does
    not start with it, never will. *)
Lemma not_open_app s t :
  (7 <= String.length (lstrip s))%nat -> startswith THINK_OPEN (lstrip s) = false ->
  startswith THINK_OPEN (lstrip (s ++ t)) = false.
Proof.
  intros L F. rewrite lstrip_app_nonempty by (intros E; rewrite E in L; simpl in L; lia).
  destruct (startswith THINK_OPEN (lstrip s ++ t)) eqn:E; [|done].
  destruct (startswith_app_inv _ _ _ E) as [E'|[_ E']]; [congruence|]. simpl in E'. lia.
Qed.

Lemma tagged_app h fed r rest sh x :
  tagged h fed r rest sh -> tagged h (fed ++ x) r (rest ++ x) sh.
Proof.
  intros [fed' body i E F|fed' i -> E F].
  - destruct (find_slices _ _ _ x F) as [<- <-]. apply tagged_open; [|by apply sfind_app_Some].
    by rewrite lstrip_app, E, sapp_assoc.
  - destruct (find_slices _ _ _ x F) as [<- <-]. apply tagged_close; [done| |by apply sfind_app_Some].
    apply not_open_app; [|done]. pose proof (closed_long _ _ F). lia.
Qed.

(** ** The partial-tag test *)

Lemma partial_from_le k text : (partial_from k text <= k)%nat.
Proof. induction k as [|k IH]; simpl; [done|]. destruct (startswith _ _); lia. Qed.

Lemma partial_from_max k text j :
  (partial_from k text < j <= k)%nat -> startswith (sdrop (String.length text - j) text) THINK_CLOSE = false.
Proof.
  induction k as [|k IH]; simpl; [lia|].
  destruct (startswith (sdrop (String.length text - S k) text) THINK_CLOSE) eqn:E; [lia|].
  intros H. destruct (decide (j = S k)) as [->|]; [done|]. apply IH. lia.
Qed.

(** Forgetting all but the partial suffix loses no occurrence of the tag. *)
Lemma partial_search_past text :
  sfind THINK_CLOSE text = None ->
  let n := (String.length text - _partial_close_len text)%nat in
  search_past THINK_CLOSE (stake n text) (sdrop n text).
Proof.
  intros F n. apply search_past_intro; [by rewrite stake_sdrop|].
  intros a b E Hb. destruct (startswith (b ++ sdrop n text) THINK_CLOSE) eqn:S; [|done]. exfalso.
  pose proof (startswith_length _ _ S) as HL. rewrite slength_app, slength_sdrop in HL.
  assert (T : text = a ++ b ++ sdrop n text) by (rewrite <- sapp_assoc, <- E; by rewrite stake_sdrop).
  pose proof (partial_from_le (Nat.min 7 (String.length text)) text) as HP.
  fold (_partial_close_len text) in HP.
  assert (LT : String.length text = (String.length a + (String.length b + String.length (sdrop n text)))%nat)
    by (rewrite T at 1; by rewrite !slength_app).
  rewrite slength_sdrop in LT.
  assert (0 < String.length b)%nat by (destruct b; [done|simpl; lia]).
  change (String.length THINK_CLOSE) with 8%nat in HL.
  set (j := (String.length b + (String.length text - n))%nat) in *.
  assert (D : sdrop (String.length text - j) text = b ++ sdrop n text).
  { replace (String.length text - j)%nat with (String.length a) by lia.
    rewrite T at 1. apply sdrop_app_length. }
  destruct (decide (j = 8%nat)) as [J|J].
  - assert (X : b ++ sdrop n text = THINK_CLOSE).
    { apply startswith_iff in S as (u & U). pose proof (f_equal String.length U) as UL.
      rewrite !slength_app, slength_sdrop in UL. change (String.length THINK_CLOSE) with 8%nat in UL.
      rewrite U, (slength_0 u) by lia. by rewrite sapp_nil_r. }
    rewrite T, X in F. apply (sfind_occurs THINK_CLOSE a ""). by rewrite sapp_nil_r.
  - assert (P : startswith (sdrop (String.length text - j) text) THINK_CLOSE = false).
    { apply (partial_from_max (Nat.min 7 (String.length text))). unfold _partial_close_len in n.
      change (String.length THINK_CLOSE - 1)%nat with 7%nat in *. unfold j. unfold _partial_close_len in *.
      change (String.length THINK_CLOSE - 1)%nat with 7%nat in *. lia. }
    rewrite D in P. congruence.
Qed.

(** ** The state as a view of the text fed so far *)

Section View.
Context (h : bool) (key : string) (lim : Z).
Hypothesis key_ok : key ∈ _REASONING_KEYS.

(** The test that lets an undecided stream keep holding. *)
Definition holdable (buf : string) : bool :=
  if h then (slen buf <=? lim)%Z
  else ((String.eqb (lstrip buf) "" || startswith (lstrip buf) THINK_OPEN)
        && (slen buf <=? PREFIX_HOLD_CHARS)%Z)%bool.

(** No tag is recognisable in [buf]. *)
Definition untagged (buf : string) : Prop :=
  startswith THINK_OPEN (lstrip buf) = false /\ (h = true -> sfind THINK_CLOSE buf = None).

(** [view s fed R C]: after the text [fed], with reasoning [R] and content [C]
    already relayed, the repair is in state [s]. *)
Inductive view : StreamRepair -> string -> string -> string -> Prop :=
| view_undecided buf fl last wh rc ac :
    untagged buf -> (buf = "" \/ holdable buf = true) ->
    view (mkSR h key lim _UNDECIDED buf fl last wh None rc ac) buf "" ""
| view_think fed c k last wh rc ac :
    lstrip fed = THINK_OPEN ++ c ++ k -> sfind THINK_CLOSE (c ++ k) = None ->
    search_past THINK_CLOSE c k ->
    view (mkSR h key lim _IN_THINK k (String.eqb (lstrip c) "") last wh (Some "open_tag") rc ac)
      fed (lstrip c) ""
| view_lead fed r rest sh fl last wh rc ac :
    tagged h fed r rest sh -> (rest = "" \/ rest = CR) ->
    view (mkSR h key lim _ANSWER_LEAD rest fl last wh (Some sh) rc ac) fed (lstrip r) ""
| view_answer fed r rest sh fl last wh rc ac :
    tagged h fed r rest sh -> rest <> "" -> rest <> CR ->
    view (mkSR h key lim _PASS "" fl last wh (Some sh) rc ac) fed (lstrip r) (_after_tag rest)
| view_plain buf x fl last wh rc ac :
    untagged buf -> holdable buf = false ->
    view (mkSR h key lim _PASS "" fl last wh None rc ac) (buf ++ x) "" (buf ++ x).

Lemma after_tag_app rest x : rest <> "" -> rest <> CR -> _after_tag (rest ++ x) = _after_tag rest ++ x.
Proof.
  intros H1 H2. unfold _after_tag, CR, LF in *.
  destruct rest as [|a [|b rest]]; [done|..]; cbn [String.append startswith].
  - destruct (Ascii.eqb_spec "013" a) as [<-|N]; [done|]. cbn [andb].
    by destruct (Ascii.eqb "010" a).
  - destruct (Ascii.eqb "013" a), (Ascii.eqb "010" b), (Ascii.eqb "010" a); done.
Qed.

(** [_answer] on the text after a closing tag. *)
Lemma answer_view fed r rest sh st buf fl last wh rc ac :
  tagged h fed r rest sh ->
  exists fs s', _answer rest (mkSR h key lim st buf fl last wh (Some sh) rc ac) = (fs, s')
    /\ _whole s' = wh /\ ftext key fs = ""
    /\ (st <> _PASS -> buf = "" -> view s' fed (lstrip r) (ftext "content" fs)).
Proof.
  intros T. unfold _answer.
  destruct (String.eqb_spec rest "") as [->|N1]; [|destruct (String.eqb_spec rest CR) as [->|N2]]; cbn.
  - eexists _, _. split_and!; [done..|]. intros _ _. apply view_lead with (rest := ""); auto.
  - eexists _, _. split_and!; [done..|]. intros _ _. apply view_lead with (rest := CR); auto.
  - eexists _, _. split_and!; [done|done|by apply content_no_reasoning|]. intros _ ->.
    rewrite content_text. by econstructor.
Qed.

(** Reasoning up to the tag, then the answer: the step both tagged shapes take. *)
Lemma reasoning_answer_view fed r rest sh c st last rc ac :
  tagged h fed (c ++ r) rest sh -> st <> _PASS ->
  exists fs s',
    (let '(f1, s) := _reasoning r (mkSR h key lim st "" (String.eqb (lstrip c) "") last false (Some sh) rc ac) in
     let '(f2, s) := _answer rest s in ((f1 ++ f2)%list, s)) = (fs, s')
    /\ _whole s' = false
    /\ view s' fed (lstrip c ++ ftext key fs) (ftext "content" fs).
Proof.
  intros T Hst.
  destruct (reasoning_spec r (mkSR h key lim st "" (String.eqb (lstrip c) "") last false (Some sh) rc ac) key_ok)
    as (f1 & rc' & -> & K & Cn). cbn in K |- *.
  destruct (answer_view fed (c ++ r) rest sh st "" (String.eqb (lstrip c) "" && String.eqb (lstrip r) "")
              last false rc' ac T) as (f2 & s' & -> & W & K2 & V).
  eexists _, _. split_and!; [done|done|].
  rewrite !ftext_app, K, K2, Cn, sapp_nil_r. specialize (V Hst eq_refl).
  rewrite lstrip_app in V. by destruct (String.eqb_spec (lstrip c) "") as [E|N]; rewrite ?E.
Qed.

(** [_think] with [c] already streamed out. *)
Lemma think_view fed c k piece last rc ac :
  lstrip fed = THINK_OPEN ++ c ++ k ++ piece -> search_past THINK_CLOSE c k ->
  exists fs s',
    _think piece (mkSR h key lim _IN_THINK k (String.eqb (lstrip c) "") last false (Some "open_tag") rc ac)
      = (fs, s')
    /\ _whole s' = false
    /\ view s' fed (lstrip c ++ ftext key fs) (ftext "content" fs).
Proof.
  intros E P. unfold _think.
  set (s0 := mkSR h key lim _IN_THINK "" (String.eqb (lstrip c) "") last false (Some "open_tag") rc ac).
  change (set_buf "" _) with s0. cbn [_buf]. cbv zeta.
  destruct (sfind THINK_CLOSE (k ++ piece)) as [i|] eqn:F.
  - apply reasoning_answer_view; [|done].
    assert (S : sfind THINK_CLOSE (c ++ k ++ piece) = Some (String.length c + i)%nat) by by rewrite P, F.
    pose proof (tagged_open h fed _ _ E S) as T.
    by rewrite stake_app_add, <- Nat.add_assoc, sdrop_app_add in T.
  - set (text := k ++ piece) in *.
    assert (SP : search_past THINK_CLOSE (c ++ stake (String.length text - _partial_close_len text) text)
                   (sdrop (String.length text - _partial_close_len text) text)).
    { apply search_past_app; [|by apply partial_search_past]. rewrite stake_sdrop.
      intros x. unfold text. rewrite sapp_assoc. apply P. }
    set (n := (String.length text - _partial_close_len text)%nat) in *.
    assert (HB : (if (_partial_close_len text =? 0)%nat then (text, s0)
                  else (stake n text, set_buf (sdrop n text) s0)) = (stake n text, set_buf (sdrop n text) s0)).
    { destruct (Nat.eqb_spec (_partial_close_len text) 0) as [Z0|_]; [|done].
      unfold n. rewrite Z0, Nat.sub_0_r, stake_all, sdrop_all. done. }
    rewrite HB. destruct (reasoning_spec (stake n text) (set_buf (sdrop n text) s0) key_ok)
      as (f1 & rc' & -> & K & Cn). cbn in K |- *.
    eexists _, _. split_and!; [done|done|]. rewrite K, Cn.
    replace (String.eqb (lstrip c) "" && String.eqb (lstrip (stake n text)) "")%bool
      with (String.eqb (lstrip (c ++ stake n text)) "").
    2:{ rewrite lstrip_app. by destruct (String.eqb (lstrip c) "") eqn:EC; [|destruct (lstrip c)]. }
    replace (lstrip c ++ _) with (lstrip (c ++ stake n text)).
    2:{ rewrite lstrip_app. by destruct (String.eqb_spec (lstrip c) "") as [EC|]; rewrite ?EC. }
    apply view_think; [|rewrite sapp_assoc, stake_sdrop; specialize (P piece); fold text in P; by rewrite P, F|done].
    by rewrite sapp_assoc, stake_sdrop.
Qed.
End View.

(** One piece of text in the undecided state. *)
Lemma undecided_view h key lim fed piece fl last rc ac :
  key ∈ _REASONING_KEYS ->
  exists fs s',
    _consume piece (negb (String.eqb fed "")) (mkSR h key lim _UNDECIDED fed fl last false None rc ac) = (fs, s')
    /\ ((_whole s' = false /\ view h key lim s' (fed ++ piece) (ftext key fs) (ftext "content" fs))
        \/ (_whole s' = true /\ _state s' = _PASS /\ fed = "" /\ fs = [] /\ view h key lim s' piece "" piece)).
Proof.
  intros KO. unfold _consume. cbn [_state _buf _hold_close _limit]. set (buf := fed ++ piece). cbv zeta.
  destruct (startswith THINK_OPEN (lstrip buf)) eqn:EO.
  - apply startswith_iff in EO as (body & EO). rewrite EO, sdrop_app_length.
    destruct (think_view h key lim KO buf "" "" body last rc ac EO (search_past_nil _ _)) as (fs & s' & E & W & V).
    exists fs, s'. split; [exact E|]. by left.
  - set (u := mkSR h key lim _UNDECIDED fed fl last false None rc ac).
    assert (D : sfind THINK_CLOSE buf = None \/ h = false -> holdable h lim buf = false -> exists fs s',
      (if negb (String.eqb fed "")
       then (_content buf (set_state _PASS (set_buf "" u)), set_state _PASS (set_buf "" u))
       else ([], set_whole true (set_state _PASS (set_buf "" u)))) = (fs, s')
      /\ ((_whole s' = false /\ view h key lim s' buf (ftext key fs) (ftext "content" fs))
          \/ (_whole s' = true /\ _state s' = _PASS /\ fed = "" /\ fs = [] /\ view h key lim s' piece "" piece))).
    { intros N H0. assert (U : untagged h buf) by (split; [done|intros ->; by destruct N]).
      pose proof (view_plain h key lim buf "" fl last) as VP. rewrite sapp_nil_r in VP.
      destruct (String.eqb_spec fed "") as [F|F]; cbn [negb].
      - eexists _, _. split; [done|]. right. split_and!; [done..|].
        unfold buf in *. rewrite F in *. by apply VP.
      - eexists _, _. split; [done|]. left. split; [done|].
        rewrite content_text, content_no_reasoning by exact KO. by apply VP. }
    unfold holdable in D. destruct h.
    + destruct (sfind THINK_CLOSE buf) as [i|] eqn:EC.
      * pose proof (tagged_close true buf i eq_refl EO EC) as T.
        destruct (reasoning_answer_view true key lim KO buf (stake i buf) _ _ "" _UNDECIDED last rc ac T ltac:(done))
          as (fs & s' & E & W & V).
        exists fs, s'. split; [exact E|]. by left.
      * destruct (slen buf <=? lim)%Z eqn:EL; [|by apply D; auto].
        eexists _, _. split; [done|]. left. split; [done|].
        apply (view_undecided true key lim buf); [done|by right].
    + destruct (_ && _)%bool eqn:EL; [|by apply D; auto].
      eexists _, _. split; [done|]. left. split; [done|].
      apply (view_undecided false key lim buf); [done|by right].
Qed.

Lemma consume_view h key lim s fed R C piece :
  key ∈ _REASONING_KEYS -> view h key lim s fed R C -> _state s <> _PASS -> _whole s = false -> piece <> "" ->
  exists fs s', _consume piece (negb (String.eqb (_buf s) "")) s = (fs, s')
    /\ ((_whole s' = false /\ view h key lim s' (fed ++ piece) (R ++ ftext key fs) (C ++ ftext "content" fs))
        \/ (_whole s' = true /\ _state s' = _PASS /\ fs = []
            /\ view h key lim s' (fed ++ piece) R (C ++ piece))).
Proof.
  intros KO V HP HW Hne. destruct V as [buf fl last wh rc ac U HB|fed c k last wh rc ac E N P
    |fed r rest sh fl last wh rc ac T HR|fed r rest sh fl last wh rc ac T H1 H2|buf x fl last wh rc ac U HB];
    try done; cbn in HW; subst wh.
  - destruct (undecided_view h key lim buf piece fl last rc ac KO) as (fs & s' & E & [[W V]|(W & ST & F & F' & V)]);
      exists fs, s'; (split; [exact E|]); [by left|right]. by subst.
  - destruct (think_view h key lim KO (fed ++ piece) c k piece last rc ac) as (fs & s' & F & W & V).
    + rewrite lstrip_app_nonempty by by rewrite E. by rewrite E, !sapp_assoc.
    + done.
    + exists fs, s'. split; [exact F|]. by left.
  - unfold _consume. cbn [_state _buf]. cbv zeta. apply (tagged_app _ _ _ _ _ piece) in T.
    destruct (String.eqb_spec (rest ++ piece) CR) as [Q|Q].
    + eexists _, _. split; [done|]. left. split; [done|]. rewrite sapp_nil_r.
      apply (view_lead h key lim _ _ (rest ++ piece)); auto.
    + eexists _, _. split; [done|]. left. split; [done|].
      rewrite content_text, content_no_reasoning, sapp_nil_r by done.
      apply (view_answer h key lim _ _ (rest ++ piece)); [done| |done].
      by intros [_ ?]%sapp_eq_nil.
Qed.

(** Chunks after the decision pass through. *)
Lemma pass_view h key lim s fed R C t :
  view h key lim s fed R C -> _state s = _PASS -> view h key lim s (fed ++ t) R (C ++ t).
Proof.
  intros V. destruct V as [| | |fed r rest sh fl last wh rc ac T H1 H2|buf x fl last wh rc ac U HB]; try done; intros _.
  - rewrite <- after_tag_app by done. apply (view_answer h key lim _ _ (rest ++ t)).
    + by apply tagged_app.
    + by intros [? _]%sapp_eq_nil.
    + intros Q. destruct rest as [|a [|b rest]]; [done| |done].
      simpl in Q. injection Q as -> ->. done.
  - rewrite sapp_assoc. by apply view_plain.
Qed.

(** The bookkeeping fields do not matter to the view. *)
Lemma view_last h key lim s fed R C p :
  view h key lim s fed R C -> view h key lim (set_whole false (set_last p s)) fed R C.
Proof. intros V. destruct V; by econstructor. Qed.

Lemma view_pass_state h key lim s fed R C :
  view h key lim s fed R C -> _key s = key.
Proof. by intros []. Qed.

(** A chunk with a text choice, taken apart. *)
Definition text_parts (parsed : json) (p ch : dict string json) (cs : list json) : Prop :=
  parsed = JDict p /\ jget p "choices" = JList (JDict ch :: cs) /\ dmem p "error" = false /\ other_index ch = false
  /\ existsb (nonempty_str (delta_of ch)) _REASONING_KEYS = false.

Lemma text_of_chunk_inv parsed t :
  text_of_chunk parsed = Some t ->
  (exists p, parsed = JDict p /\ dmem p "error" = false /\ truthy (jget p "choices") = false /\ t = "")
  \/ exists p ch cs, text_parts parsed p ch cs /\ settles ch = false /\ t = choice_text ch.
Proof.
  unfold text_of_chunk, text_parts, text_choice. destruct parsed as [| | | | | |p]; try done.
  destruct (dmem p "error") eqn:ER; [done|]. destruct (truthy (jget p "choices")) eqn:TR.
  - destruct (jget p "choices") as [| | | | |[|[| | | | | |ch] cs]|] eqn:EP; try done.
    destruct (_ && _)%bool eqn:EX; [|done]. intros [= <-]. right. exists p, ch, cs.
    rewrite andb_true_iff, !negb_true_iff, orb_false_iff in EX. by destruct EX as ((? & ?) & ?).
  - intros [= <-]. left. by exists p.
Qed.

Lemma closing_text_inv parsed t :
  closing_text parsed = Some t ->
  exists p ch cs, text_parts parsed p ch cs /\ settles ch = true /\ t = choice_text ch.
Proof.
  unfold closing_text, text_parts, text_choice. destruct parsed as [| | | | | |p]; try done.
  destruct (jget p "choices") as [| | | | |[|[| | | | | |ch] cs]|] eqn:EP; try done.
  destruct (_ && _)%bool eqn:EX; [|done]. intros [= <-]. exists p, ch, cs.
  rewrite !andb_true_iff, !negb_true_iff, orb_false_iff in EX. by destruct EX as ((? & ? & ?) & ?).
Qed.

(** A delta without reasoning text reads as none under either key. *)
Lemma no_reasoning_text d k :
  existsb (nonempty_str d) _REASONING_KEYS = false -> k ∈ _REASONING_KEYS -> text_or_empty (jget d k) = "".
Proof.
  intros E Hk. assert (F : nonempty_str d k = false).
  { destruct (nonempty_str d k) eqn:N; [|done]. rewrite <- E. symmetry. apply existsb_exists.
    exists k. split; [by apply list_elem_of_In|done]. }
  unfold nonempty_str, jget in *. destruct (dget d k) as [[]|]; try done. simpl.
  by destruct (String.eqb_spec s "").
Qed.

Lemma choice_texts parsed p ch cs key :
  text_parts parsed p ch cs -> key ∈ _REASONING_KEYS ->
  delta_text "content" parsed = choice_text ch /\ delta_text key parsed = "".
Proof.
  intros (-> & E1 & _ & _ & E4) KO. unfold delta_text, choice_text, delta_of in *. rewrite E1.
  destruct (jget ch "delta"); try done. split; [done|]. by apply no_reasoning_text.
Qed.

Lemma chunk_texts parsed t key :
  text_of_chunk parsed = Some t -> key ∈ _REASONING_KEYS ->
  delta_text "content" parsed = t /\ delta_text key parsed = "".
Proof.
  intros [(p & -> & _ & T & ->)|(p & ch & cs & P & _ & ->)]%text_of_chunk_inv KO.
  - unfold delta_text. by destruct (jget p "choices") as [| | | | |[]|].
  - by apply (choice_texts _ _ _ _ _ P).
Qed.

(** The frame that carries what a repaired chunk held besides its text. *)
Lemma residual_texts (p ch d : dict string json) cs key :
  existsb (nonempty_str d) _REASONING_KEYS = false -> key ∈ _REASONING_KEYS ->
  let r := JDict (dset p "choices" (JList (JDict (dset ch "delta"
             (JDict (filter (fun kv => kv.1 <> "content") (d : list (string * json))))) :: cs))) in
  delta_text "content" r = "" /\ delta_text key r = "".
Proof.
  intros E KO r. unfold r, delta_text, jget. rewrite !dget_dset_eq. cbn [from_option id].
  rewrite dget_dset_eq. cbn [from_option id]. split.
  - rewrite dget_filter_out; [done|]. simpl. auto.
  - rewrite dget_filter_in; [by apply no_reasoning_text|]. simpl. intros _ ->. revert KO.
    apply (bool_decide_unpack _). by vm_compute.
Qed.

(** What is relayed of a chunk beside its text. *)
Definition remains (p ch : dict string json) (data piece : string) : list Frame :=
  if String.eqb piece "" then [(JDict p, data)]
  else
    let residual : dict string json := filter (fun kv => kv.1 <> "content") (delta_of ch : list (string * json)) in
    if (truthy (JDict residual) || truthy (jget ch "finish_reason"))%bool then
      let rest := match jget p "choices" with JList (_ :: cs) => cs | _ => [] end in
      let r := JDict (dset p "choices" (JList (JDict (dset ch "delta" (JDict residual)) :: rest))) in [(r, dumps r)]
    else [].

Lemma remains_texts parsed p ch cs data key :
  text_parts parsed p ch cs -> key ∈ _REASONING_KEYS ->
  ftext "content" (remains p ch data (choice_text ch)) = "" /\ ftext key (remains p ch data (choice_text ch)) = "".
Proof.
  intros P KO. pose proof P as (-> & E1 & _ & _ & E4). destruct (choice_texts _ _ _ _ _ P KO) as [TC TK].
  unfold remains. destruct (String.eqb_spec (choice_text ch) "") as [E|E].
  - rewrite !ftext_one. cbn [fst]. by rewrite TC, TK.
  - rewrite E1. destruct (_ || _)%bool; [|done]. rewrite !ftext_one. cbn [fst]. by apply residual_texts.
Qed.

(** The text of a choice, consumed. *)
Definition consumed (p : dict string json) (t : string) (s : StreamRepair) : list Frame * StreamRepair :=
  let s0 := set_whole false (set_last p s) in
  if String.eqb t "" then ([], s0) else _consume t (negb (String.eqb (_buf s) "")) s0.

Lemma feed_choice_parts p data ch cs s :
  text_parts (JDict p) p ch cs ->
  feed_choice p data ch s =
    let '(out, s1) := consumed p (choice_text ch) s in
    if _whole s1 then ([(JDict p, data)], s1)
    else if settles ch then let '(o, s2) := _settle s1 in ((out ++ o) ++ remains p ch data (choice_text ch), s2)%list
    else ((out ++ remains p ch data (choice_text ch))%list, s1).
Proof.
  intros (_ & E1 & _ & _ & E4). unfold feed_choice, consumed, remains, settles. fold (delta_of ch). rewrite E4.
  fold (choice_text ch). cbv zeta. change (_buf (set_last p s)) with (_buf s).
  destruct (String.eqb (choice_text ch) "").
  - destruct (_ || _)%bool; [|done]. by destruct (_settle _).
  - destruct (_consume _ _ _) as [out s1]. destruct (_whole s1); [done|].
    destruct (truthy (jget (delta_of ch) "tool_calls") || truthy (jget ch "finish_reason"))%bool;
      [destruct (_settle s1) as [o s2]|]; destruct (_ || _)%bool; by rewrite ?app_nil_r.
Qed.

Lemma consumed_view h key lim s fed R C p t :
  key ∈ _REASONING_KEYS -> view h key lim s fed R C -> _state s <> _PASS ->
  exists fs s', consumed p t s = (fs, s')
    /\ ((_whole s' = false /\ view h key lim s' (fed ++ t) (R ++ ftext key fs) (C ++ ftext "content" fs))
        \/ (_whole s' = true /\ _state s' = _PASS /\ fs = [] /\ view h key lim s' (fed ++ t) R (C ++ t))).
Proof.
  intros KO V HP. unfold consumed. cbv zeta.
  pose proof (view_last h key lim s fed R C p V) as V0. set (s0 := set_whole false (set_last p s)) in *.
  change (_buf s) with (_buf s0). destruct (String.eqb_spec t "") as [->|Hne].
  - eexists _, _. split; [done|]. left. split; [done|]. change (ftext _ []) with "". by rewrite !sapp_nil_r.
  - by apply consume_view.
Qed.

Lemma feed_choice_view h key lim s fed R C p ch cs data :
  key ∈ _REASONING_KEYS -> view h key lim s fed R C -> _state s <> _PASS ->
  text_parts (JDict p) p ch cs -> settles ch = false ->
  exists fs s', feed_choice p data ch s = (fs, s')
    /\ view h key lim s' (fed ++ choice_text ch) (R ++ ftext key fs) (C ++ ftext "content" fs).
Proof.
  intros KO V HP P N. rewrite (feed_choice_parts _ _ _ _ _ P), N.
  destruct (consumed_view h key lim s fed R C p (choice_text ch) KO V HP) as (fs & s' & -> & [[W V']|(W & _ & -> & V')]);
    rewrite W; (eexists _, _; split; [done|]).
  - destruct (remains_texts _ _ _ _ data _ P KO) as [RC RK]. by rewrite !ftext_app, RC, RK, !sapp_nil_r.
  - destruct (choice_texts _ _ _ _ _ P KO) as [TC TK]. rewrite !ftext_one. cbn [fst]. by rewrite TC, TK, sapp_nil_r.
Qed.

Lemma feed_text_choice p data ch cs s :
  text_parts (JDict p) p ch cs -> _state s <> _PASS ->
  feed (JDict p) data s = (Ret (feed_choice p data ch s).1, (feed_choice p data ch s).2).
Proof.
  intros (_ & E1 & E2 & E3 & _) HP. unfold feed. rewrite E2, E1. cbn [truthy first_choice]. rewrite E3.
  destruct (feed_choice p data ch s). by destruct (_state s).
Qed.

Lemma feed_pass parsed data s : _state s = _PASS -> feed parsed data s = (Ret [(parsed, data)], s).
Proof. intros E. unfold feed. by rewrite E. Qed.

Lemma feed_view h key lim s fed R C parsed data t :
  key ∈ _REASONING_KEYS -> view h key lim s fed R C -> text_of_chunk parsed = Some t ->
  exists fs s', feed parsed data s = (Ret fs, s')
    /\ view h key lim s' (fed ++ t) (R ++ ftext key fs) (C ++ ftext "content" fs).
Proof.
  intros KO V HT. destruct (decide (_state s = _PASS)) as [HP|HP].
  - rewrite feed_pass by done. eexists _, _. split; [done|]. rewrite !ftext_one. cbn [fst].
    destruct (chunk_texts _ _ key HT KO) as [-> ->]. rewrite sapp_nil_r. by apply pass_view.
  - destruct (text_of_chunk_inv _ _ HT) as [(p & -> & E1 & E2 & ->)|(p & ch & cs & P & N & ->)].
    + exists [(JDict p, data)], s. split; [unfold feed; rewrite E1, E2; by destruct (_state s)|].
      rewrite !ftext_one. cbn [fst]. destruct (chunk_texts _ _ key HT KO) as [-> ->]. by rewrite !sapp_nil_r.
    + pose proof P as [-> _]. rewrite (feed_text_choice _ _ _ _ _ P HP).
      destruct (feed_choice_view h key lim s fed R C p ch cs data KO V HP P N) as (fs & s' & -> & V').
      by exists fs, s'.
Qed.

Lemma feed_all_view h key lim chunks texts :
  key ∈ _REASONING_KEYS -> Forall2 (fun c t => text_of_chunk c.1 = Some t) chunks texts ->
  forall s fed R C, view h key lim s fed R C ->
  exists fs s', feed_all chunks s = (Ret fs, s')
    /\ view h key lim s' (fed ++ sjoin texts) (R ++ ftext key fs) (C ++ ftext "content" fs).
Proof.
  intros KO F. induction F as [|[p d] t chunks texts HT F IH]; intros s fed R C V; cbn [feed_all].
  - eexists _, _. split; [done|]. simpl. by rewrite !sapp_nil_r.
  - destruct (feed_view h key lim s fed R C p d t KO V HT) as (f1 & s1 & -> & V1).
    destruct (IH s1 _ _ _ V1) as (f2 & s2 & -> & V2).
    eexists _, _. split; [done|]. cbn [sjoin foldr]. rewrite !ftext_app.
    by rewrite <- !sapp_assoc.
Qed.

Lemma feed_all_app a b s :
  feed_all (a ++ b) s = match feed_all a s with
    | (Ret fs, s') => match feed_all b s' with (Ret gs, s2) => (Ret (fs ++ gs)%list, s2) | (Raise e, s2) => (Raise e, s2) end
    | (Raise e, s') => (Raise e, s')
    end.
Proof.
  revert s. induction a as [|[p d] a IH]; intros s; cbn [feed_all app]; [by destruct (feed_all b s) as [[]]|].
  destruct (feed p d s) as [[fs|e] s1]; [|done]. rewrite IH. destruct (feed_all a s1) as [[gs|e] s2]; [|done].
  destruct (feed_all b s2) as [[hs|e] s3]; [|done]. by rewrite app_assoc.
Qed.

(** The bound on how far into the text a tag may end: past it the stream has
    been released as content. *)
Definition tag_in_reach (h : bool) (lim : Z) (text : string) : Prop :=
  let w := (slen text - slen (lstrip text))%Z in
  (startswith THINK_OPEN (lstrip text) = true -> (w + 6 <= if h then lim else PREFIX_HOLD_CHARS)%Z)
  /\ (startswith THINK_OPEN (lstrip text) = false -> h = true ->
      forall i, sfind THINK_CLOSE text = Some i -> (Z.of_nat i + 7 <= lim)%Z).

Lemma untagged_split h text : untagged h text -> _split text h = None.
Proof. intros [H1 H2]. unfold _split. rewrite H1. destruct h; [|done]. by rewrite H2. Qed.

Lemma lstrip_length s : (String.length (lstrip s) <= String.length s)%nat.
Proof. destruct (lstrip_split s) as (w & E & _). rewrite E at 2. rewrite slength_app. lia. Qed.

(** The visible part of a text grows by at most what is appended. *)
Lemma lstrip_lead_mono s t :
  (String.length s - String.length (lstrip s) <= String.length (s ++ t) - String.length (lstrip (s ++ t)))%nat.
Proof.
  rewrite lstrip_app, slength_app. pose proof (lstrip_length s). pose proof (lstrip_length t).
  destruct (String.eqb_spec (lstrip s) "") as [E|]; [|rewrite slength_app; lia].
  rewrite E. simpl. lia.
Qed.

(** A text released as content because nothing was recognisable stays untagged,
    if its tag was in reach. *)
Lemma released_untagged h lim buf x :
  untagged h buf -> holdable h lim buf = false -> tag_in_reach h lim (buf ++ x) -> untagged h (buf ++ x).
Proof.
  intros [U1 U2] HB [R1 R2].
  pose proof (lstrip_lead_mono buf x) as LM. pose proof (lstrip_length buf). pose proof (lstrip_length (buf ++ x)).
  assert (O : startswith THINK_OPEN (lstrip (buf ++ x)) = false).
  { destruct (startswith THINK_OPEN (lstrip (buf ++ x))) eqn:E; [|done]. exfalso.
    specialize (R1 eq_refl). unfold slen in R1.
    assert (SB : String.eqb (lstrip buf) "" = true \/ (startswith (lstrip buf) THINK_OPEN = true)).
    { rewrite lstrip_app in E. destruct (String.eqb (lstrip buf) ""); [by left|right].
      destruct (startswith_app_inv _ _ _ E) as [?|[? _]]; [congruence|done]. }
    assert (SL : (String.length (lstrip buf) <= 6)%nat).
    { rewrite lstrip_app in E. destruct (String.eqb_spec (lstrip buf) "") as [->|]; [simpl; lia|].
      destruct (startswith_app_inv _ _ _ E) as [?|[_ L]]; [congruence|simpl in L; lia]. }
    unfold holdable, slen in HB. destruct h.
    - apply Z.leb_gt in HB. lia.
    - assert ((String.eqb (lstrip buf) "" || startswith (lstrip buf) THINK_OPEN)%bool = true) as SB'
        by (apply orb_true_iff; naive_solver).
      rewrite SB' in HB. cbn [andb] in HB. apply Z.leb_gt in HB. lia. }
  split; [done|]. intros ->. destruct (sfind THINK_CLOSE (buf ++ x)) as [i|] eqn:F; [|done]. exfalso.
  specialize (R2 O eq_refl i eq_refl). unfold holdable, slen in HB. apply Z.leb_gt in HB.
  destruct (sfind_Some _ _ _ F) as [E L].
  assert (B : exists e, buf = (stake i (buf ++ x) ++ THINK_CLOSE) ++ e).
  { symmetry in E. rewrite <- sapp_assoc in E.
    destruct (sapp_split_eq _ _ _ _ E) as (e & Q & _); [|by exists e].
    rewrite slength_app, L. simpl. lia. }
  destruct B as (e & B). specialize (U2 eq_refl). rewrite B, sapp_assoc in U2. by eapply sfind_occurs.
Qed.

(** The reasoning, the content and the shape are those [_split] finds in the
    whole text (trailing blanks of the reasoning apart). *)
Definition whole_repair (h : bool) (text R C : string) (shape : option string) : Prop :=
  match _split text h with
  | Some (r, a, sh) => rstrip R = r /\ C = a /\ shape = Some sh
  | None => R = "" /\ C = text /\ shape = None
  end.

Lemma settle_view h key lim s fed R C :
  key ∈ _REASONING_KEYS -> view h key lim s fed R C -> tag_in_reach h lim fed ->
  exists fs s', _settle s = (fs, s') /\ whole_repair h fed (R ++ ftext key fs) (C ++ ftext "content" fs) (sr_shape s').
Proof.
  unfold whole_repair. intros KO V TR. destruct V as [buf fl last wh rc ac U HB|fed c k last wh rc ac E N P
    |fed r rest sh fl last wh rc ac T HR|fed r rest sh fl last wh rc ac T H1 H2|buf x fl last wh rc ac U HB].
  - rewrite untagged_split by done. unfold _settle. cbn [_state _buf].
    destruct (String.eqb_spec buf "") as [->|Hn]; (eexists _, _; split; [done|]); [done|].
    by rewrite content_text, content_no_reasoning.
  - unfold _settle. cbn [_state sr_shape]. rewrite bool_decide_true by done. cbv zeta.
    destruct (reasoning_spec k (set_shape "unclosed"
      (mkSR h key lim _IN_THINK k (String.eqb (lstrip c) "") last wh (Some "open_tag") rc ac)) KO)
      as (fs & rc' & RE & K & Cn).
    change (_buf (set_shape _ _)) with k. rewrite RE. eexists _, _. split; [done|].
    unfold _split. rewrite E, startswith_refl_app, sdrop_app_length, N. cbn in K |- *.
    rewrite K, Cn. split; [|done]. unfold strip. f_equal. rewrite lstrip_app.
    by destruct (String.eqb_spec (lstrip c) "") as [EC|]; rewrite ?EC.
  - rewrite (tagged_split _ _ _ _ _ T). unfold _settle. cbn [_state _buf]. eexists _, _. split; [done|].
    rewrite content_text, content_no_reasoning, sapp_nil_r by done. split_and!; try done.
    by destruct HR as [->| ->].
  - rewrite (tagged_split _ _ _ _ _ T). eexists _, _. split; [done|].
    change (ftext _ []) with "". by rewrite !sapp_nil_r.
  - rewrite untagged_split by by eapply released_untagged. eexists _, _. split; [done|].
    change (ftext _ []) with "". by rewrite !sapp_nil_r.
Qed.

Lemma default_key_ok engine : default_reasoning_key engine ∈ _REASONING_KEYS.
Proof.
  unfold default_reasoning_key. destruct (String.eqb engine "vllm");
    apply (bool_decide_unpack _); by vm_compute.
Qed.

(** In the passing state nothing is held, and a chunk is relayed as it came. *)
Lemma settle_pass s : _state s = _PASS -> _settle s = ([], set_state _PASS (set_buf "" s)).
Proof. intros E. unfold _settle. by rewrite E. Qed.

Lemma feed_all_silent key rest s :
  key ∈ _REASONING_KEYS -> _state s = _PASS -> Forall (fun c => silent c.1) rest ->
  feed_all rest s = (Ret rest, s) /\ ftext key rest = "" /\ ftext "content" rest = "".
Proof.
  intros KO HP F. induction F as [|[p d] rest S F IH]; cbn [feed_all]; [done|].
  rewrite feed_pass by done. destruct IH as (-> & A & B). split; [done|]. change ((p, d) :: rest) with ([(p, d)] ++ rest)%list.
  rewrite !ftext_app, !ftext_one, A, B, !sapp_nil_r. cbn [fst]. split; apply S; [by right|by left].
Qed.

(** The closing chunk leaves the repair settled. *)
Lemma feed_closing_view h key lim s fed R C parsed data t :
  key ∈ _REASONING_KEYS -> view h key lim s fed R C -> closing_text parsed = Some t -> tag_in_reach h lim (fed ++ t) ->
  exists fs s', feed parsed data s = (Ret fs, s') /\ _state s' = _PASS
    /\ whole_repair h (fed ++ t) (R ++ ftext key fs) (C ++ ftext "content" fs) (sr_shape s').
Proof.
  intros KO V (p & ch & cs & P & N & ->)%closing_text_inv TR. pose proof P as [-> _].
  destruct (choice_texts _ _ _ _ _ P KO) as [TC TK].
  assert (PASS : forall s' fs, view h key lim s' (fed ++ choice_text ch) R (C ++ choice_text ch) -> _state s' = _PASS ->
            fs = [(JDict p, data)] ->
            whole_repair h (fed ++ choice_text ch) (R ++ ftext key fs) (C ++ ftext "content" fs) (sr_shape s')).
  { intros s' fs V' HP' ->. destruct (settle_view _ _ _ _ _ _ _ KO V' TR) as (f2 & s2 & S2 & M).
    rewrite settle_pass in S2 by done. injection S2 as <- <-. revert M. rewrite !ftext_one. cbn [fst].
    by rewrite TC, TK, !sapp_nil_r. }
  destruct (decide (_state s = _PASS)) as [HP|HP].
  - rewrite feed_pass by done. eexists _, _. split; [done|]. split; [done|]. apply PASS; [|done..]. by apply pass_view.
  - rewrite (feed_text_choice _ _ _ _ _ P HP), (feed_choice_parts _ _ _ _ _ P), N.
    destruct (consumed_view h key lim s fed R C p (choice_text ch) KO V HP) as (f1 & s1 & -> & [[W V']|(W & HP' & -> & V')]);
      rewrite W.
    + destruct (settle_view _ _ _ _ _ _ _ KO V' TR) as (f2 & s2 & S2 & M). rewrite S2. cbn [fst snd].
      destruct (remains_texts _ _ _ _ data _ P KO) as [RC RK]. eexists _, _. split; [done|]. split.
      * unfold _settle in S2. revert S2. destruct (match _state s1 with _UNDECIDED => _ | _ => _ end). by intros [= _ <-].
      * by rewrite !ftext_app, RC, RK, !sapp_nil_r, <- !sapp_assoc.
    + eexists _, _. split; [done|]. split; [done|]. by apply PASS.
Qed.

(** C36 Repairing a stream gives what repairing the whole answer gives, however
    its text is cut into chunks: the reasoning relayed is the trace [_split]
    finds (up to trailing blanks, already sent when the tag arrives), the content
    relayed is exactly its answer, and the shape is the same; a text with no tag
    arrives unchanged as content.  The stream is one whose chunks carry text,
    a role, usage or nothing, up to the end of the stream or to one chunk that
    has a finish reason or the first tool call (and may carry the last text);
    what follows that chunk carries no more text.  With that chunk everything
    held has been sent, and the rest is relayed as it came, with nothing after it.
    A stream with reasoning of its own, with text after a tool call or a finish
    reason, with an error frame before its end, or with a chunk whose first choice
    is not choice 0, is not one of these.  The tag must end within the text the
    stream is allowed to hold. *)
Theorem stream_repair_equals_split engine h lim body texts tail t :
  Forall2 (fun c t => text_of_chunk c.1 = Some t) body texts -> stream_end tail t ->
  tag_in_reach h lim (sjoin texts ++ t) ->
  let key := default_reasoning_key engine in
  exists fs s', relay (body ++ tail) (StreamRepair_init h key lim) = (Ret fs, s')
    /\ match _split (sjoin texts ++ t) h with
       | Some (r, a, sh) => rstrip (ftext key fs) = r /\ ftext "content" fs = a /\ sr_shape s' = Some sh
       | None => ftext key fs = "" /\ ftext "content" fs = sjoin texts ++ t /\ sr_shape s' = None
       end
    /\ (forall c rest, tail = c :: rest -> exists sent s1,
          feed_all (body ++ [c]) (StreamRepair_init h key lim) = (Ret sent, s1) /\ fs = (sent ++ rest)%list).
Proof.
  intros HF HE TR key. pose proof (default_key_ok engine) as KO. fold key in KO.
  assert (V : view h key lim (StreamRepair_init h key lim) "" "" "").
  { apply view_undecided; [|by left]. done. }
  destruct (feed_all_view h key lim body texts KO HF _ _ _ _ V) as (f1 & s1 & E1 & V1).
  unfold relay, finish. rewrite feed_all_app, E1.
  destruct HE as [[-> ->]|([c d] & rest & -> & CT & SL)].
  - rewrite sapp_nil_r in *. destruct (settle_view h key lim s1 _ _ _ KO V1 TR) as (f2 & s2 & E2 & M).
    cbn [feed_all]. rewrite E2, app_nil_r. eexists _, _. split; [done|]. split; [|done]. rewrite !ftext_app. exact M.
  - destruct (feed_closing_view h key lim s1 _ _ _ c d t KO V1 CT TR) as (f2 & s2 & E2 & HP & M).
    destruct (feed_all_silent key rest s2 KO HP SL) as (E3 & K3 & C3).
    cbn [feed_all]. rewrite E2, E3, settle_pass by done. eexists _, _. split; [done|]. rewrite app_nil_r. split.
    + rewrite !ftext_app, K3, C3, !sapp_nil_r. exact M.
    + intros c' rest' [= <- <-]. exists (f1 ++ f2)%list, s2. rewrite feed_all_app, E1. cbn [feed_all].
      by rewrite E2, app_nil_r, app_assoc.
Qed.

(** ** How much a stream may hold *)

Definition hold_bound (h : bool) (lim : Z) : Z := if h then Z.max lim 7 else PREFIX_HOLD_CHARS.

Definition within_hold (h : bool) (lim : Z) (s : StreamRepair) : Prop :=
  _hold_close s = h /\ _limit s = lim /\ (slen (_buf s) <= hold_bound h lim)%Z.

Lemma hold_bound_7 h lim : (7 <= hold_bound h lim)%Z.
Proof. destruct h; unfold hold_bound, PREFIX_HOLD_CHARS; lia. Qed.

Lemma within_hold_small h lim s b :
  within_hold h lim s -> (String.length b <= 7)%nat -> within_hold h lim (set_buf b s).
Proof.
  intros (H1 & H2 & _) L. split_and!; [done..|]. cbn. unfold slen.
  pose proof (hold_bound_7 h lim). lia.
Qed.

(** The operations that leave the configuration and the buffer alone. *)
Lemma within_hold_reasoning h lim s text : within_hold h lim s -> within_hold h lim (_reasoning text s).2.
Proof.
  intros W. unfold _reasoning. destruct (_strip_reasoning_lead s); destruct (String.eqb _ ""); try done.
  all: cbn [fst snd]; try done. all: by destruct (String.eqb _ "").
Qed.

Lemma within_hold_answer h lim s rest : within_hold h lim s -> within_hold h lim (_answer rest s).2.
Proof.
  intros W. unfold _answer. destruct (String.eqb_spec rest "") as [->|]; [apply within_hold_small; [done|simpl; lia]|].
  destruct (String.eqb_spec rest CR) as [->|]; [apply within_hold_small; [done|simpl; lia]|done].
Qed.

Lemma within_hold_tag h lim s r rest :
  within_hold h lim s ->
  within_hold h lim (let '(f1, s) := _reasoning r s in
                     let '(f2, s) := _answer rest s in ((f1 ++ f2)%list, s)).2.
Proof.
  intros W. pose proof (within_hold_reasoning _ _ _ r W) as W1.
  destruct (_reasoning r s) as [f1 s1]. cbn [snd] in W1. pose proof (within_hold_answer _ _ _ rest W1) as W2.
  by destruct (_answer rest s1) as [f2 s2].
Qed.

Lemma partial_close_len_le text : (_partial_close_len text <= 7)%nat.
Proof.
  unfold _partial_close_len. etransitivity; [apply partial_from_le|].
  change (String.length THINK_CLOSE - 1)%nat with 7%nat. lia.
Qed.

Lemma within_hold_think h lim s text : within_hold h lim s -> within_hold h lim (_think text s).2.
Proof.
  intros W. unfold _think. assert (W0 : within_hold h lim (set_buf "" s)) by (apply within_hold_small; [done|simpl; lia]).
  destruct (sfind THINK_CLOSE (_buf s ++ text)) as [i|]; [by apply within_hold_tag|].
  pose proof (partial_close_len_le (_buf s ++ text)).
  destruct (_ =? 0)%nat; apply within_hold_reasoning; [done|].
  apply within_hold_small; [done|]. rewrite slength_sdrop. lia.
Qed.

Lemma within_hold_consume h lim s piece held :
  within_hold h lim s -> _state s <> _PASS -> within_hold h lim (_consume piece held s).2.
Proof.
  intros W HP. pose proof W as (U1 & U2 & _).
  assert (W0 : within_hold h lim (set_buf "" s)) by (apply within_hold_small; [done|simpl; lia]).
  unfold _consume. destruct (_state s) eqn:ST; [|by apply within_hold_think| |done].
  - destruct (startswith THINK_OPEN _); [by apply within_hold_think|].
    rewrite U1, U2. destruct h.
    + destruct (sfind THINK_CLOSE _) as [i|]; [by apply within_hold_tag|].
      destruct (_ <=? lim)%Z eqn:L; [|by destruct held].
      apply Z.leb_le in L. split_and!; [done..|]. cbn. lia.
    + destruct (_ && _)%bool eqn:L; [|by destruct held].
      apply andb_true_iff in L as [_ L]. apply Z.leb_le in L. split_and!; [done..|]. exact L.
  - destruct (String.eqb_spec (_buf s ++ piece) CR) as [->|]; [|done].
    apply within_hold_small; [done|simpl; lia].
Qed.

Lemma within_hold_settle h lim s : within_hold h lim s -> within_hold h lim (_settle s).2.
Proof.
  intros W. unfold _settle. destruct (_state s).
  - apply (within_hold_small _ _ (set_state _PASS s)); [done|simpl; lia].
  - assert (W1 : within_hold h lim (if bool_decide (sr_shape s = Some "open_tag") then set_shape "unclosed" s else s))
      by by destruct (bool_decide _).
    pose proof (within_hold_reasoning _ _ _ (_buf s) W1) as W2.
    replace (_buf (if bool_decide (sr_shape s = Some "open_tag") then set_shape "unclosed" s else s))
      with (_buf s) by by destruct (bool_decide _).
    destruct (_reasoning _ _) as [f s']. apply (within_hold_small _ _ (set_state _PASS s')); [done|simpl; lia].
  - apply (within_hold_small _ _ (set_state _PASS s)); [done|simpl; lia].
  - apply (within_hold_small _ _ (set_state _PASS s)); [done|simpl; lia].
Qed.

Lemma within_hold_feed_choice h lim s p data ch :
  within_hold h lim s -> _state s <> _PASS -> within_hold h lim (feed_choice p data ch s).2.
Proof.
  intros W HP. unfold feed_choice. set (d := match jget ch "delta" with JDict d => d | _ => [] end).
  cbv zeta. set (s0 := set_last p s). assert (W0 : within_hold h lim s0) by done.
  destruct (existsb _ _).
  - pose proof (within_hold_settle _ _ _ W0) as WS.
    destruct (String.eqb (_buf s0) ""); [done|]. by destruct (_settle s0).
  - set (s1 := set_whole false s0). assert (W1 : within_hold h lim s1) by done.
    set (t := text_or_empty _).
    match goal with |- within_hold h lim (let '(_, _) := ?x in _).2 =>
      assert (W2 : within_hold h lim x.2) by (destruct (String.eqb t ""); [done|by apply within_hold_consume]);
      destruct x as [out s2] end.
    cbn [snd] in W2. destruct (_whole s2); [done|].
    match goal with |- within_hold h lim (let '(_, _) := ?x in _).2 =>
      assert (W3 : within_hold h lim x.2); [|destruct x as [out' s3]] end.
    { pose proof (within_hold_settle _ _ _ W2) as WS. destruct (_ || _)%bool; [|done].
      by destruct (_settle s2). }
    destruct (String.eqb t ""); [done|]. by destruct (_ || _)%bool.
Qed.

Lemma within_hold_feed h lim s parsed data : within_hold h lim s -> within_hold h lim (feed parsed data s).2.
Proof.
  intros W. unfold feed. pose proof (within_hold_settle _ _ _ W) as WS.
  destruct (_state s) eqn:ST; [..|done].
  all: destruct parsed as [| | | | | |p]; try done.
  all: destruct (dmem p "error"); [by destruct (_settle s)|].
  all: destruct (truthy _); [|done]; destruct (first_choice _) as [[| | | | | |ch]|]; try done.
  all: destruct (other_index ch); [done|].
  all: pose proof (within_hold_feed_choice h lim s p data ch W ltac:(congruence)) as WF.
  all: by destruct (feed_choice p data ch s).
Qed.

(** However the backend cuts or garbles the stream, the text a repair holds
    back stays bounded: at most 16 characters on an ordinary endpoint, and at
    most the hold limit (or the 7 characters of a half tag) on one that waits
    for a closing tag. *)
Theorem stream_hold_bounded h key lim chunks :
  let s := (feed_all chunks (StreamRepair_init h key lim)).2 in
  (slen (_buf s) <= hold_bound h lim)%Z.
Proof.
  assert (G : forall s, within_hold h lim s -> within_hold h lim (feed_all chunks s).2).
  { induction chunks as [|[p d] cs IH]; intros s W; [done|]. cbn [feed_all].
    pose proof (within_hold_feed h lim s p d W) as W1. destruct (feed p d s) as [[out|e] s1]; [|done].
    specialize (IH s1 W1). by destruct (feed_all cs s1) as [[]]. }
  apply G. split_and!; [done..|]. change (slen _) with 0%Z. pose proof (hold_bound_7 h lim). lia.
Qed.

(** ** Nothing is lost *)

(** The text a split describes: blanks, the tags of its shape, the trace, the
    newline after the tag and the answer. *)
Definition reassemble (sh w b1 r b2 nl a : string) : string :=
  if String.eqb sh "unclosed" then w ++ THINK_OPEN ++ b1 ++ r ++ b2
  else if String.eqb sh "open_tag" then w ++ THINK_OPEN ++ b1 ++ r ++ b2 ++ THINK_CLOSE ++ nl ++ a
  else b1 ++ r ++ b2 ++ THINK_CLOSE ++ nl ++ a.

Lemma after_tag_split text : exists nl, text = nl ++ _after_tag text /\ nl ∈ [""; LF; CR ++ LF].
Proof.
  unfold _after_tag. destruct (startswith (CR ++ LF) text) eqn:E.
  - exists (CR ++ LF). apply startswith_iff in E as (t & ->).
    split; [done|]. by right; right; left.
  - destruct (startswith LF text) eqn:F.
    + exists LF. apply startswith_iff in F as (t & ->). split; [done|]. by right; left.
    + exists "". split; [done|]. by left.
Qed.

(** Splitting an answer loses nothing but blanks and the tags: the original
    text is put back together from the trace, the answer, the tags of the shape,
    runs of blanks and at most one line break after the closing tag; and an
    unclosed trace leaves no answer. *)
Theorem split_reassembles content close_only r a sh :
  _split content close_only = Some (r, a, sh) ->
  exists w b1 b2 nl,
    content = reassemble sh w b1 r b2 nl a
    /\ Forall (fun b => sforall is_space b = true) [w; b1; b2] /\ nl ∈ [""; LF; CR ++ LF]
    /\ (sh = "unclosed" -> a = "").
Proof.
  unfold _split. destruct (startswith THINK_OPEN (lstrip content)) eqn:EO.
  - apply startswith_iff in EO as (body & EO). rewrite EO, sdrop_app_length.
    destruct (lstrip_split content) as (w & EW & HW). rewrite EO in EW.
    destruct (sfind THINK_CLOSE body) as [i|] eqn:F; intros [= <- <- <-].
    + destruct (sfind_Some _ _ _ F) as [EB _].
      destruct (strip_split (stake i body)) as (b1 & b2 & ES & H1 & H2).
      destruct (after_tag_split (sdrop (i + String.length THINK_CLOSE) body)) as (nl & EN & HN).
      exists w, b1, b2, nl. split_and!; [|by repeat constructor|done|done].
      rewrite EW at 1. unfold reassemble. cbn [String.eqb Ascii.eqb Bool.eqb]. rewrite EB at 1.
      rewrite ES at 1. rewrite EN at 1. by rewrite !sapp_assoc.
    + destruct (strip_split body) as (b1 & b2 & ES & H1 & H2).
      exists w, b1, b2, "". split_and!; [|by repeat constructor|by left|done].
      rewrite EW at 1. unfold reassemble. cbn [String.eqb Ascii.eqb Bool.eqb]. by rewrite ES at 1.
  - destruct close_only; [|done]. destruct (sfind THINK_CLOSE content) as [i|] eqn:F; [|done].
    intros [= <- <- <-]. destruct (sfind_Some _ _ _ F) as [EB _].
    destruct (strip_split (stake i content)) as (b1 & b2 & ES & H1 & H2).
    destruct (after_tag_split (sdrop (i + String.length THINK_CLOSE) content)) as (nl & EN & HN).
    exists "", b1, b2, nl. split_and!; [|by repeat constructor|done|done].
    rewrite EB at 1. rewrite ES at 1. rewrite EN at 1. unfold reassemble.
    cbn [String.eqb Ascii.eqb Bool.eqb]. by rewrite !sapp_assoc.
Qed.

Definition sample_trace : string := " <think> a b </think>" ++ LF ++ "ok".

Definition text_chunk (t : string) : json * string :=
  let c := JDict [("id", JStr "x"); ("choices", JList [JDict [("index", JInt 0);
             ("delta", JDict [("content", JStr t)])]])] in (c, dumps c).

Lemma split_reassembles_witness :
  _split sample_trace false = Some ("a b", "ok", "open_tag") /\
  exists w b1 b2 nl, sample_trace = reassemble "open_tag" w b1 "a b" b2 nl "ok".
Proof.
  split; [reflexivity|].
  destruct (split_reassembles sample_trace false "a b" "ok" "open_tag" eq_refl) as (w & b1 & b2 & nl & E & _).
  by exists w, b1, b2, nl.
Defined.

(** A chunk that ends an answer, and one with usage only. *)
Definition closing_chunk (t : string) : json * string :=
  let c := JDict [("id", JStr "x"); ("choices", JList [JDict [("index", JInt 0);
             ("delta", JDict [("content", JStr t)]); ("finish_reason", JStr "stop")]])] in (c, dumps c).

Definition usage_chunk : json * string :=
  let c := JDict [("id", JStr "x"); ("choices", JList []); ("usage", JDict [("completion_tokens", JInt 3)])] in (c, dumps c).

Lemma stream_repair_equals_split_witness :
  let body := map text_chunk [" <thi"; "nk> a b </th"; ""; "ink>"; LF; "o"] in
  exists fs s', relay (body ++ [closing_chunk "k"; usage_chunk]) (StreamRepair_init false "reasoning" 0) = (Ret fs, s')
    /\ (rstrip (ftext "reasoning" fs) = "a b" /\ ftext "content" fs = "ok" /\ sr_shape s' = Some "open_tag")
    /\ (forall c rest, [closing_chunk "k"; usage_chunk] = c :: rest -> exists sent s1,
          feed_all (body ++ [c]) (StreamRepair_init false "reasoning" 0) = (Ret sent, s1) /\ fs = (sent ++ rest)%list).
Proof.
  pose proof (stream_repair_equals_split "vllm" false 0
    (map text_chunk [" <thi"; "nk> a b </th"; ""; "ink>"; LF; "o"])
    [" <thi"; "nk> a b </th"; ""; "ink>"; LF; "o"] [closing_chunk "k"; usage_chunk] "k") as T.
  apply T.
  - repeat constructor.
  - right. exists (closing_chunk "k"), [usage_chunk]. split_and!; [done..|]. constructor; [|constructor].
    intros k' _. vm_compute. done.
  - split; [intros _; vm_compute; discriminate|]. intros _ [=].
Defined.
