(* ===== verification/ThinkStats.v ===== *)
(** * Counters of the thinking-switch and trace repairs (think_bleed.py, [ThinkBleedStats])

    Three tallies with a breakdown per endpoint, and a rate limit on the log
    line each event may write.  The operations return how many events the log
    line stands for (0: no line); the clock is an argument. *)

From Stdlib Require Import Lia ZArith QArith.
From stdpp Require Import base list strings.
From S2P Require Import Prelude PyDict ThinkBleed.

Local Open Scope string_scope.

(** A row of [switch_stripped_by_endpoint] or [switch_renamed_by_endpoint]. *)
Record SwitchRow := { sw_count : Z; sw_labels : dict string Z }.

(** A row of [bleed_repaired_by_endpoint]. *)
Record BleedRow := { bl_count : Z; bl_shapes : dict string Z; bl_stream : Z; bl_sync : Z }.

Record ThinkBleedStats := mkTBS {
  switch_stripped : Z;
  switch_stripped_by_endpoint : dict string SwitchRow;
  switch_renamed : Z;
  switch_renamed_by_endpoint : dict string SwitchRow;
  bleed_repaired : Z;
  bleed_repaired_by_endpoint : dict string BleedRow;
  _logged : dict (string * string) (option Q * Z) }.

Definition ThinkBleedStats_init : ThinkBleedStats := mkTBS 0 [] 0 [] 0 [] [].

(** [d[k] = d.get(k, 0) + 1] *)
Definition bump (d : dict string Z) (k : string) : dict string Z :=
  dset d k (default 0%Z (dget d k) + 1)%Z.

Definition _should_log (logged : dict (string * string) (option Q * Z)) (now : Q) (kind endpoint : string)
  : Z * dict (string * string) (option Q * Z) :=
  let '(last, pending) := default (None, 0%Z) (dget logged (kind, endpoint)) in
  let pending := (pending + 1)%Z in
  match last with
  | Some l =>
      if Qltb (now - l) _LOG_INTERVAL_S
      then (0%Z, dset logged (kind, endpoint) (Some l, pending))
      else (pending, dset logged (kind, endpoint) (Some now, 0%Z))
  | None => (pending, dset logged (kind, endpoint) (Some now, 0%Z))
  end.

Definition bump_row (rows : dict string SwitchRow) (endpoint : string) (labels : list string) : dict string SwitchRow :=
  let row := default {| sw_count := 0; sw_labels := [] |} (dget rows endpoint) in
  dset rows endpoint {| sw_count := sw_count row + 1; sw_labels := foldl bump (sw_labels row) labels |}.

Definition note_stripped (endpoint : string) (spellings : list string) (now : Q) (s : ThinkBleedStats)
  : Z * ThinkBleedStats :=
  let '(n, logged) := _should_log (_logged s) now "stripped" endpoint in
  (n, mkTBS (switch_stripped s + 1) (bump_row (switch_stripped_by_endpoint s) endpoint spellings)
        (switch_renamed s) (switch_renamed_by_endpoint s)
        (bleed_repaired s) (bleed_repaired_by_endpoint s) logged).

Definition note_renamed (endpoint : string) (renames : list string) (now : Q) (s : ThinkBleedStats)
  : Z * ThinkBleedStats :=
  let '(n, logged) := _should_log (_logged s) now "renamed" endpoint in
  (n, mkTBS (switch_stripped s) (switch_stripped_by_endpoint s)
        (switch_renamed s + 1) (bump_row (switch_renamed_by_endpoint s) endpoint renames)
        (bleed_repaired s) (bleed_repaired_by_endpoint s) logged).

Definition note_repaired (endpoint shape : string) (stream : bool) (now : Q) (s : ThinkBleedStats)
  : Z * ThinkBleedStats :=
  let '(n, logged) := _should_log (_logged s) now "repaired" endpoint in
  let rows := bleed_repaired_by_endpoint s in
  let row := default {| bl_count := 0; bl_shapes := []; bl_stream := 0; bl_sync := 0 |} (dget rows endpoint) in
  (n, mkTBS (switch_stripped s) (switch_stripped_by_endpoint s)
        (switch_renamed s) (switch_renamed_by_endpoint s)
        (bleed_repaired s + 1)
        (dset rows endpoint {| bl_count := bl_count row + 1; bl_shapes := bump (bl_shapes row) shape;
           bl_stream := bl_stream row + (if stream then 1 else 0);
           bl_sync := bl_sync row + (if stream then 0 else 1) |})
        logged).

Inductive Event :=
| Stripped (endpoint : string) (spellings : list string)
| Renamed (endpoint : string) (renames : list string)
| Repaired (endpoint shape : string) (stream : bool).

Definition event_key (e : Event) : string * string :=
  match e with
  | Stripped ep _ => ("stripped", ep)
  | Renamed ep _ => ("renamed", ep)
  | Repaired ep _ _ => ("repaired", ep)
  end.

Definition note (e : Event) (now : Q) (s : ThinkBleedStats) : Z * ThinkBleedStats :=
  match e with
  | Stripped ep l => note_stripped ep l now s
  | Renamed ep l => note_renamed ep l now s
  | Repaired ep sh st => note_repaired ep sh st now s
  end.

(** The lines written by a sequence of timed events: key, time, events. *)
Fixpoint notes (es : list (Event * Q)) (s : ThinkBleedStats) : list ((string * string) * Q * Z) * ThinkBleedStats :=
  match es with
  | [] => ([], s)
  | (e, now) :: es =>
      let '(n, s) := note e now s in
      let '(lines, s) := notes es s in
      ((if (n =? 0)%Z then lines else (event_key e, now, n) :: lines), s)
  end.

Definition zsum (l : list Z) : Z := foldr Z.add 0%Z l.

Definition lines_of (k : string * string) (lines : list ((string * string) * Q * Z)) : list ((string * string) * Q * Z) :=
  filter (fun l => l.1.1 = k) lines.

Definition pending_of (s : ThinkBleedStats) (k : string * string) : Z :=
  (default (None, 0%Z) (dget (_logged s) k)).2.

Definition events_of (k : string * string) (es : list (Event * Q)) : list (Event * Q) :=
  filter (fun e => event_key e.1 = k) es.

(** One event either joins the pending ones or is written with all of them. *)
Lemma note_logged e now s n s' k :
  note e now s = (n, s') ->
  pending_of s' k = if decide (event_key e = k) then (pending_of s k + 1 - n)%Z else pending_of s k.
Proof.
  assert (G : forall kind ep, let '(n, l) := _should_log (_logged s) now kind ep in
    forall k, (default (None, 0%Z) (dget l k)).2
      = if decide ((kind, ep) = k) then (pending_of s k + 1 - n)%Z else pending_of s k).
  { intros kind ep. unfold _should_log, pending_of.
    destruct (default (None, 0%Z) (dget (_logged s) (kind, ep))) as [[l|] p] eqn:E; [destruct (Qltb _ _)|];
      intros k'; rewrite dget_dset; (destruct (decide _) as [<-|]; [rewrite E; simpl; lia|done]). }
  intros N.
  destruct e as [ep l|ep l|ep sh st]; cbn [note event_key] in *;
    unfold note_stripped, note_renamed, note_repaired in N;
    [specialize (G "stripped" ep)|specialize (G "renamed" ep)|specialize (G "repaired" ep)];
    destruct (_should_log _ _ _ _) as [m lg]; injection N as <- <-; apply G.
Qed.

(** Every event is accounted for: for each kind and endpoint, the events the log
    lines stand for and those still pending add up to the events noted. *)
Theorem log_lines_account es k :
  let '(lines, s) := notes es ThinkBleedStats_init in
  (zsum (map snd (lines_of k lines)) + pending_of s k = Z.of_nat (length (events_of k es)))%Z.
Proof.
  assert (G : forall s0, let '(lines, s) := notes es s0 in
    (zsum (map snd (lines_of k lines)) + pending_of s k = pending_of s0 k + Z.of_nat (length (events_of k es)))%Z).
  { induction es as [|[e now] es IH]; intros s0; cbn [notes]; [simpl; lia|].
    destruct (note e now s0) as [n s1] eqn:N. pose proof (note_logged e now s0 n s1 k N) as A.
    specialize (IH s1). destruct (notes es s1) as [lines s2].
    unfold lines_of, events_of in *. rewrite filter_cons. cbn [fst].
    destruct (Z.eqb_spec n 0) as [->|Hn]; rewrite ?filter_cons; cbn [fst];
      destruct (decide (event_key e = k)); cbn [map snd zsum foldr length] in *; unfold zsum in *; lia. }
  specialize (G ThinkBleedStats_init). destruct (notes es ThinkBleedStats_init). exact G.
Qed.
