(* ===== verification/Acl.v ===== *)
(** * Address-based access control (acl.py, and the identity grammar of identity.py)

    [parse_identity_spec] reads [agent_id[:priority][:min_timeout_s][:admin][:readonly]];
    [IPIdentityMap] maps a source address to an identity and keeps the lists of
    networks that decide who may reach the admin plane.  Warnings are not
    modelled; an operation that only warns leaves the state alone. *)

From Stdlib Require Import Ascii Lia ZArith QArith.
From stdpp Require Import base list strings.
From S2P Require Import Prelude PyDict PyText Json Config IpAddr.

Local Open Scope string_scope.

(** ** The identity grammar *)

Record IdentitySpec := mkSpec {
  spec_agent_id : string;
  spec_priority : LLMPriority;
  spec_min_timeout_s : option Q;
  spec_admin : bool;
  spec_readonly : bool;
  spec_priority_declared : bool }.

Definition spec_segment (s : IdentitySpec) (segment : string) : IdentitySpec :=
  if String.eqb segment "" then s
  else if String.eqb (lower segment) "admin" then
    mkSpec (spec_agent_id s) (spec_priority s) (spec_min_timeout_s s) true (spec_readonly s)
      (spec_priority_declared s)
  else if String.eqb (lower segment) "readonly" then
    mkSpec (spec_agent_id s) (spec_priority s) (spec_min_timeout_s s) (spec_admin s) true
      (spec_priority_declared s)
  else match float_of_str segment with
  | Ret q => mkSpec (spec_agent_id s) (spec_priority s) (Some q) (spec_admin s) (spec_readonly s)
               (spec_priority_declared s)
  | Raise _ =>
      match coerce (PV_str segment) None with
      | Ret p => mkSpec (spec_agent_id s) p (spec_min_timeout_s s) (spec_admin s) (spec_readonly s) true
      | Raise _ => s
      end
  end.

Definition parse_identity_spec (spec : string) (default_priority : LLMPriority) : IdentitySpec :=
  let parts := map strip (split_on ":" spec) in
  let agent_id := default "" (head parts) in
  foldl spec_segment (mkSpec agent_id default_priority None false false false) (tail parts).

(** ** The address registry *)

Record _Registration := mkReg {
  reg_agent_id : string;
  reg_priority : LLMPriority;
  reg_min_timeout_s : option Q;
  reg_priority_declared : bool }.

Record IPIdentityMap := mkAcl {
  _exact : dict string _Registration;
  _subnets : list (net * _Registration);
  _admin_nets : list net;
  _operator_admin_nets : list net;
  _readonly_admin_nets : list net;
  _reach_nets : list net }.

(** The networks written in the constructor. *)
Definition net_loopback4 : net := mkNet 4 2130706432 8 None.    (* 127.0.0.0/8 *)
Definition net_docker : net := mkNet 4 2886729728 12 None.      (* 172.16.0.0/12 *)
Definition net_loopback6 : net := mkNet 6 1 128 None.           (* ::1/128 *)

Definition _internal_nets : list net := [net_loopback4; net_docker; net_loopback6].
Definition _loopback_nets : list net := [net_loopback4; net_loopback6].
Definition _docker_nets : list net := [net_docker].

Example builtin_nets_parse :
  ip_network "127.0.0.0/8" = Some net_loopback4 /\ ip_network "172.16.0.0/12" = Some net_docker
  /\ ip_network "::1/128" = Some net_loopback6.
Proof. repeat split; vm_compute; reflexivity. Qed.

Definition IPIdentityMap_init : IPIdentityMap :=
  mkAcl [] [] _internal_nets [] [] (_loopback_nets ++ _docker_nets).

Definition _rebuild_reach (a : IPIdentityMap) : IPIdentityMap :=
  let nets := match _operator_admin_nets a with
              | [] => (_loopback_nets ++ _docker_nets)%list
              | ops => (_loopback_nets ++ filter (fun n => n ∉ _loopback_nets) ops)%list
              end in
  mkAcl (_exact a) (_subnets a) (_admin_nets a) (_operator_admin_nets a) (_readonly_admin_nets a) nets.

Definition register_address (ip_or_subnet agent_id : string) (priority : LLMPriority)
    (min_timeout_s : option Q) (priority_declared : bool) (a : IPIdentityMap) : IPIdentityMap :=
  let reg := mkReg agent_id priority min_timeout_s priority_declared in
  match ip_network ip_or_subnet with
  | Some n =>
      if (net_prefixlen n =? max_prefix (net_version n))%Z
      then mkAcl (dset (_exact a) (str_ip (mkIp (net_version n) (net_int n) (net_scope n))) reg) (_subnets a)
             (_admin_nets a) (_operator_admin_nets a) (_readonly_admin_nets a) (_reach_nets a)
      else mkAcl (_exact a) (_subnets a ++ [(n, reg)])%list
             (_admin_nets a) (_operator_admin_nets a) (_readonly_admin_nets a) (_reach_nets a)
  | None => a
  end.

Definition register_admin_net (ip_or_subnet : string) (readonly : bool) (a : IPIdentityMap) : IPIdentityMap :=
  match ip_network ip_or_subnet with
  | None => a
  | Some n =>
      _rebuild_reach
        (mkAcl (_exact a) (_subnets a) (_admin_nets a ++ [n])%list (_operator_admin_nets a ++ [n])%list
           (if readonly then (_readonly_admin_nets a ++ [n])%list else _readonly_admin_nets a)
           (_reach_nets a))
  end.

Definition internal_registration : _Registration := mkReg "internal" P1_TURN_SUPPORT None false.

Definition _lookup (a : IPIdentityMap) (remote_ip : string) : option _Registration :=
  match dget (_exact a) remote_ip with
  | Some reg => Some reg
  | None =>
      match ip_address remote_ip with
      | None => None
      | Some addr =>
          if in_any addr _internal_nets then Some internal_registration
          else snd <$> find (fun nr => in_net addr nr.1) (_subnets a)
      end
  end.

Definition identify (a : IPIdentityMap) (remote_ip : string) : option (string * LLMPriority) :=
  (fun reg => (reg_agent_id reg, reg_priority reg)) <$> _lookup a remote_ip.

Definition acl_priority_declared (a : IPIdentityMap) (remote_ip : string) : bool :=
  match _lookup a remote_ip with Some reg => reg_priority_declared reg | None => false end.

Definition acl_min_timeout_s (a : IPIdentityMap) (remote_ip : string) : option Q :=
  match _lookup a remote_ip with Some reg => reg_min_timeout_s reg | None => None end.

Definition is_allowed (a : IPIdentityMap) (remote_ip : string) : bool :=
  bool_decide (identify a remote_ip <> None).

Definition is_internal (remote_ip : string) : bool :=
  match ip_address remote_ip with Some addr => in_any addr _internal_nets | None => false end.

Definition may_reach_admin (a : IPIdentityMap) (remote_ip : string) (trust_builtin_nets : bool) : bool :=
  match ip_address remote_ip with
  | Some addr =>
      in_any addr (if trust_builtin_nets then _reach_nets a
                   else (_operator_admin_nets a ++ _loopback_nets)%list)
  | None => false
  end.

Definition acl_is_admin (a : IPIdentityMap) (remote_ip : string) (trust_builtin_nets : bool) : bool :=
  match ip_address remote_ip with
  | Some addr => in_any addr (if trust_builtin_nets then _admin_nets a else _operator_admin_nets a)
  | None => false
  end.

Definition is_admin_readonly (a : IPIdentityMap) (remote_ip : string) : bool :=
  match ip_address remote_ip with
  | Some addr => in_any addr (_readonly_admin_nets a)
  | None => false
  end.

(** [frozenset]: without duplicates. *)
Definition address_identities (a : IPIdentityMap) : list string :=
  remove_dups ("internal" :: (map (fun kv => reg_agent_id kv.2) (_exact a)
                              ++ map (fun nr => reg_agent_id nr.2) (_subnets a)))%list.

Record AclEntry := mkEntry { en_agent_id : string; en_priority : LLMPriority; en_min_timeout_s : option Q }.

Definition entry_of (reg : _Registration) : AclEntry :=
  mkEntry (reg_agent_id reg) (reg_priority reg) (reg_min_timeout_s reg).

Definition entries (a : IPIdentityMap) : dict string AclEntry :=
  let out := foldl (fun out kv => dset out kv.1 (entry_of kv.2)) [] (_exact a) in
  foldl (fun out nr => dset out (str_net nr.1) (entry_of nr.2)) out (_subnets a).

Definition builtin_admin_nets : list string := map str_net _internal_nets.
Definition operator_admin_nets (a : IPIdentityMap) : list string := map str_net (_operator_admin_nets a).
Definition readonly_admin_nets (a : IPIdentityMap) : list string := map str_net (_readonly_admin_nets a).
Definition reach_nets (a : IPIdentityMap) : list string := map str_net (_reach_nets a).

(** One comma-separated entry of [ROADSTEAD_ACL]. *)
Definition from_env_entry (a : IPIdentityMap) (raw : string) : IPIdentityMap :=
  let entry := strip raw in
  match split_once "=" entry with
  | None => a
  | Some (ip_part, spec) =>
      let s := parse_identity_spec (strip spec) P3_INGESTION in
      let ip_part := strip ip_part in
      let a := register_address ip_part (spec_agent_id s) (spec_priority s) (spec_min_timeout_s s)
                 (spec_priority_declared s) a in
      if spec_admin s then register_admin_net ip_part (spec_readonly s) a else a
  end.

(** [from_env], on the values of [LLM_PROXY_ACL], [ROADSTEAD_ACL] and
    [ROADSTEAD_ADMIN_NETS]. *)
Definition IPIdentityMap_from_env (legacy_acl acl admin_nets : string) : IPIdentityMap :=
  let a := foldl from_env_entry IPIdentityMap_init (split_on "," legacy_acl) in
  let a := foldl from_env_entry a (split_on "," acl) in
  foldl (fun a raw => let n := strip raw in if String.eqb n "" then a else register_admin_net n false a)
    a (split_on "," admin_nets).

Example from_env_example :
  let a := IPIdentityMap_from_env "" "192.0.2.9=ingest:P3_INGESTION, 192.0.2.0/24=lan:1800:p1_turn_support:admin:readonly" "10.0.0.0/8" in
  identify a "192.0.2.9" = Some ("ingest", P3_INGESTION) /\ identify a "192.0.2.10" = Some ("lan", P1_TURN_SUPPORT)
  /\ identify a "203.0.113.1" = None /\ identify a "127.0.0.1" = Some ("internal", P1_TURN_SUPPORT)
  /\ is_admin_readonly a "192.0.2.9" = true /\ may_reach_admin a "172.17.0.2" true = false
  /\ may_reach_admin a "10.1.1.1" true = true /\ may_reach_admin a "::1" false = true.
Proof. vm_compute. repeat split. Qed.

(** ** Reachable registries *)

(** The registries any sequence of registrations can build. *)
Inductive acl_reachable : IPIdentityMap -> Prop :=
| acl_start : acl_reachable IPIdentityMap_init
| acl_register a s agent p t d : acl_reachable a -> acl_reachable (register_address s agent p t d a)
| acl_admin a s ro : acl_reachable a -> acl_reachable (register_admin_net s ro a).

Record acl_inv (a : IPIdentityMap) : Prop := {
  inv_reach : _reach_nets a = _reach_nets (_rebuild_reach a);
  inv_admin : _admin_nets a = (_internal_nets ++ _operator_admin_nets a)%list;
  inv_readonly : _readonly_admin_nets a ⊆ _operator_admin_nets a;
  inv_exact : dwf (_exact a) }.

Lemma acl_reachable_inv a : acl_reachable a -> acl_inv a.
Proof.
  induction 1 as [|a s agent p t d R [I1 I2 I3 I4]|a s ro R [I1 I2 I3 I4]].
  - split; try done. apply dwf_nil.
  - unfold register_address. destruct (ip_network s) as [n|]; [|done].
    destruct (_ =? _)%Z; split; try done. by apply dwf_dset.
  - unfold register_admin_net. destruct (ip_network s) as [n|]; [|done]. split; try done.
    + change ((_admin_nets a ++ [n])%list = (_internal_nets ++ (_operator_admin_nets a ++ [n]))%list).
      by rewrite I2, app_assoc.
    + cbn. destruct ro.
      * intros x [Hx|Hx]%elem_of_app; apply elem_of_app; auto.
      * intros x Hx. apply elem_of_app. auto.
Qed.

Lemma in_any_app addr l k : in_any addr (l ++ k)%list = (in_any addr l || in_any addr k)%bool.
Proof. unfold in_any. by rewrite existsb_app. Qed.

(** Dropping from the operator nets those already in the loopback list does not
    change who is in reach. *)
Lemma in_any_reach addr ops :
  in_any addr (_loopback_nets ++ filter (fun n => n ∉ _loopback_nets) ops)%list
  = (in_any addr _loopback_nets || in_any addr ops)%bool.
Proof.
  rewrite in_any_app. induction ops as [|n ops IH]; [done|]. rewrite filter_cons.
  destruct (decide (n ∉ _loopback_nets)) as [D|D]; cbn [in_any existsb];
    fold (in_any addr (filter (fun n => n ∉ _loopback_nets) ops)); fold (in_any addr ops).
  - destruct (in_net addr n); [by rewrite !orb_true_r|]. cbn [orb]. apply IH.
  - rewrite IH. destruct (in_net addr n) eqn:E; [|done]. cbn [orb]. rewrite orb_true_r.
    assert (L : in_any addr _loopback_nets = true); [|by rewrite L].
    apply existsb_exists. exists n. split; [|done]. apply list_elem_of_In.
    destruct (decide (n ∈ _loopback_nets)); [done|]. by destruct D.
Qed.

(** Who may reach the admin plane, whatever was registered and in whatever
    order: a loopback address always, an address of an operator's net always,
    and a docker-internal address only while no operator net was named.  A
    forwarded address ([trust_builtin_nets] false) never reaches it through the
    docker default. *)
Theorem admin_reach_exact a s addr trust :
  acl_reachable a -> ip_address s = Some addr ->
  may_reach_admin a s trust = true <->
  in_any addr _loopback_nets = true \/ in_any addr (_operator_admin_nets a) = true
  \/ (trust = true /\ _operator_admin_nets a = [] /\ in_any addr _docker_nets = true).
Proof.
  intros [I _ _ _]%acl_reachable_inv E. unfold may_reach_admin. rewrite E.
  destruct trust.
  - rewrite I. unfold _rebuild_reach. cbn [_reach_nets]. destruct (_operator_admin_nets a) as [|n ops] eqn:EO.
    + rewrite in_any_app, orb_true_iff. unfold in_any at 4. simpl existsb. naive_solver.
    + rewrite in_any_reach, orb_true_iff. naive_solver.
  - rewrite in_any_app, orb_true_iff. naive_solver.
Qed.

(** Enrolling one address enrols exactly that address, and wins over the
    built-in networks: afterwards it is identified by the entry, and every other
    address is identified as before. *)
Theorem register_then_identify a n agent p t d :
  (0 <= n < 2 ^ 32)%Z ->
  let a' := register_address (str_ipv4 n) agent p t d a in
  _lookup a' (str_ipv4 n) = Some (mkReg agent p t d)
  /\ (forall s, s <> str_ipv4 n -> _lookup a' s = _lookup a s).
Proof.
  intros H a'. unfold a', register_address. rewrite ip_network_v4 by done. cbn [net_prefixlen net_version].
  change (32 =? max_prefix 4)%Z with true. cbn [net_int net_scope]. unfold _lookup. cbn [_exact _subnets].
  change (str_ip (mkIp 4 n None)) with (str_ipv4 n). split.
  - by rewrite dget_dset_eq.
  - intros s Hs. by rewrite dget_dset_ne.
Qed.

Definition sample_acl : IPIdentityMap :=
  register_admin_net "10.0.0.0/8" false (register_address "192.0.2.0/24" "lan" P3_INGESTION None false IPIdentityMap_init).

Lemma admin_reach_exact_witness :
  acl_reachable sample_acl /\ ip_address "127.0.0.1" = Some (mkIp 4 2130706433 None)
  /\ may_reach_admin sample_acl "127.0.0.1" true = true.
Proof.
  assert (R : acl_reachable sample_acl) by repeat constructor.
  assert (E : ip_address "127.0.0.1" = Some (mkIp 4 2130706433 None)) by (vm_compute; reflexivity).
  split_and!; [exact R|exact E|].
  apply (admin_reach_exact sample_acl "127.0.0.1" (mkIp 4 2130706433 None) true R E). left.
  vm_compute. reflexivity.
Defined.

Lemma register_then_identify_witness :
  (0 <= 2130706433 < 2 ^ 32)%Z
  /\ _lookup (register_address (str_ipv4 2130706433) "me" P0_REALTIME None true sample_acl) (str_ipv4 2130706433)
     = Some (mkReg "me" P0_REALTIME None true).
Proof.
  assert (R : (0 <= 2130706433 < 2 ^ 32)%Z) by lia. split; [exact R|].
  apply (register_then_identify sample_acl 2130706433 "me" P0_REALTIME None true R).
Defined.
