(* ===== verification/Identity.v ===== *)
(** * Caller identity and authorization (identity.py)

    The key registry, the placeholder bearers, the trusted proxies and the
    resolver that decides who a request is from and whether it may use the admin
    plane.  A refusal carries its code, its status and which sentence it says
    (the sentences themselves are prose with the values shown here).  Time is an
    argument.  The loading of a keys file (YAML) and the log lines are not
    modelled. *)

From Stdlib Require Import Ascii Lia ZArith QArith.
From stdpp Require Import base list strings.
From S2P Require Import Prelude PyDict PyText IpAddr Sha256 Json Config Acl.

Local Open Scope string_scope.

Definition _BEARER_PREFIX : string := "bearer ".
Definition _BASIC_PREFIX : string := "basic ".
Definition _CSRF_HEADER : string := "X-Roadstead-Request".
Definition _FORWARDED_FOR : string := "X-Forwarded-For".
Definition _UNKNOWN_ADDRESS : string := "unknown".
Definition _MAX_FORWARDED_HOPS : nat := 32.
Definition _MAX_TRACKED_PLACEHOLDER_ADDRESSES : nat := 256.
Definition SAFE_METHODS : list string := ["GET"; "HEAD"; "OPTIONS"].

(** ** The records *)

Record Principal := mkPrincipal {
  agent_id : string;
  priority : LLMPriority;
  priority_declared : bool;
  min_timeout_s : option Q;
  admin : bool;
  admin_readonly : bool;
  calls_push : bool;
  source : string;
  key_id : option string;
  may_assert : list string }.

Definition authenticated (p : Principal) : bool := String.eqb (source p) "api_key".
Definition may_admin_write (p : Principal) : bool := (admin p && negb (admin_readonly p))%bool.

(** Which sentence a refusal says, with the values it names. *)
Inductive DenialReason :=
| ExpiredKey (key : option string) (at_time : option Q)
| UnknownKey
| KeyRequired
| AddressDenied (ip : string)
| NotAssertable (name : string) (permitted : list string)
| BoundElsewhere (key : option string) (bind : list string) (ip : string) (forwarded : bool)
| AdminUnreachable (ip : string)
| ReadonlyAdmin (method : string)
| IngestOnly (method : string)
| WrongMediaType (content_type : string)
| CrossSite
| CsrfHeaderMissing.

Record Denial := mkDenial { code : string; status : Z; reason : DenialReason }.

Definition openai_type (d : Denial) : string :=
  if String.eqb (code d) "access_denied" then "access_denied" else "invalid_request_error".

Record KeyLookup := mkLookup {
  kl_principal : option Principal;
  expired_at : option Q;
  kl_key_id : option string;
  kl_bind : list string }.

Definition no_key : KeyLookup := mkLookup None None None [].
Definition lookup_expired (l : KeyLookup) : bool := bool_decide (expired_at l <> None).

(** Exactly one half is set. *)
Inductive Resolution :=
| Granted (p : Principal)
| Denied (d : Denial).

(** ** The key registry *)

Record Credential := mkCred {
  cr_source : string;
  created_at : option Q;
  expires_at : option Q;
  bind : list string }.

(** What [self._credential.get(d, {})] reads as when nothing is stored. *)
Definition no_cred : Credential := mkCred "file" None None [].

Record KeyRegistry := mkKeys {
  _by_digest : dict string Principal;
  _credential : dict string Credential;
  _bootstrap : list string }.

Definition KeyRegistry_init : KeyRegistry := mkKeys [] [] [].

Definition cred_of (k : KeyRegistry) (digest : string) : Credential := default no_cred (dget (_credential k) digest).

Definition is_bootstrap (k : KeyRegistry) (secret : string) : bool := bool_decide (_digest secret ∈ _bootstrap k).

Definition configured (k : KeyRegistry) : bool :=
  existsb (fun d => bool_decide (d ∉ _bootstrap k)) (dkeys (_by_digest k)).

(** The arguments of [register]. *)
Record KeySpec := mkKeySpec {
  ks_agent_id : string;
  ks_secret : option string;
  ks_key_sha256 : option string;
  ks_priority : LLMPriority;
  ks_priority_declared : bool;
  ks_min_timeout_s : option Q;
  ks_admin : bool;
  ks_admin_readonly : bool;
  ks_calls_push : bool;
  ks_expires_at : option Q;
  ks_bind : list string;
  ks_may_assert : list string;
  ks_key_id : option string;
  ks_source : string;
  ks_bootstrap : bool }.

(** [bool(x)] of an optional string. *)
Definition given (x : option string) : bool := match x with Some s => negb (String.eqb s "") | None => false end.

Definition is_hex_lower (c : ascii) : bool :=
  (is_digit c || ((97 <=? ord c) && (ord c <=? 102))%Z)%bool.

(** The digest an entry is stored under, or [None] when it is rejected. *)
Definition spec_digest (s : KeySpec) : option string :=
  if Bool.eqb (given (ks_secret s)) (given (ks_key_sha256 s)) then None
  else match ks_secret s with
       | Some secret => Some (_digest secret)
       | None =>
           let d := lower (strip (default "None" (ks_key_sha256 s))) in
           if (negb (String.length d =? 64)%nat || negb (sforall is_hex_lower d))%bool then None else Some d
       end.

(** [frozenset(n for n in (str(x).strip() for x in xs) if n)] *)
Definition assertable (xs : list string) : list string :=
  remove_dups (filter (fun n => n <> "") (map strip xs)).

Definition register_key (s : KeySpec) (now : Q) (k : KeyRegistry) : option string * KeyRegistry :=
  match spec_digest s with
  | None => (None, k)
  | Some digest =>
      if String.eqb (ks_agent_id s) "" then (None, k)
      else
        let label := match ks_key_id s with
                     | Some i => if String.eqb i "" then stake 8 digest else i
                     | None => stake 8 digest
                     end in
        if (ks_calls_push s && ks_admin s)%bool then (None, k)
        else if dmem (_by_digest k) digest then (None, k)
        else
          (Some label,
           mkKeys
             (dset (_by_digest k) digest
                (mkPrincipal (ks_agent_id s) (ks_priority s) (ks_priority_declared s) (ks_min_timeout_s s)
                   (ks_admin s) (ks_admin_readonly s) (ks_calls_push s) "api_key" (Some label)
                   (assertable (ks_may_assert s))))
             (dset (_credential k) digest (mkCred (ks_source s) (Some now) (ks_expires_at s) (ks_bind s)))
             (if (ks_bootstrap s && negb (bool_decide (digest ∈ _bootstrap k)))%bool
              then (_bootstrap k ++ [digest])%list else _bootstrap k))
  end.

(** The first stored digest whose principal carries the label. *)
Definition digest_labelled (k : KeyRegistry) (label : string) : option string :=
  fst <$> find (fun dp => bool_decide (key_id dp.2 = Some label)) (_by_digest k).

Definition revoke (label : string) (k : KeyRegistry) : bool * KeyRegistry :=
  match digest_labelled k label with
  | Some d => (true, mkKeys (ddel (_by_digest k) d) (ddel (_credential k) d) (_bootstrap k))
  | None => (false, k)
  end.

Definition is_expired (k : KeyRegistry) (digest : string) (now : Q) : bool :=
  match expires_at (cred_of k digest) with
  | None => false
  | Some e => Qle_bool e now
  end.

Definition binding (k : KeyRegistry) (label : string) : list string :=
  match digest_labelled k label with
  | Some d => bind (cred_of k d)
  | None => []
  end.

Definition lookup_key (k : KeyRegistry) (presented : string) (now : Q) : KeyLookup :=
  if String.eqb presented "" then no_key
  else
    let digest := _digest presented in
    match dget (_by_digest k) digest with
    | None => no_key
    | Some p =>
        if is_expired k digest now
        then mkLookup None (expires_at (cred_of k digest)) (key_id p) []
        else mkLookup (Some p) None (key_id p) (bind (cred_of k digest))
    end.

Definition set_expiry (label : string) (e : option Q) (k : KeyRegistry) : bool * KeyRegistry :=
  match digest_labelled k label with
  | Some d =>
      let c := cred_of k d in
      (true, mkKeys (_by_digest k) (dset (_credential k) d (mkCred (cr_source c) (created_at c) e (bind c)))
               (_bootstrap k))
  | None => (false, k)
  end.

Definition resolve_key (k : KeyRegistry) (presented : string) (now : Q) : option Principal :=
  kl_principal (lookup_key k presented now).

(** One entry of [ROADSTEAD_API_KEYS]. *)
Definition load_env_entry (now : Q) (k : KeyRegistry) (raw : string) : KeyRegistry :=
  match split_once "=" (strip raw) with
  | None => k
  | Some (secret, spec) =>
      let s := parse_identity_spec (strip spec) P3_INGESTION in
      (register_key (mkKeySpec (spec_agent_id s) (Some (strip secret)) None (spec_priority s)
         (spec_priority_declared s) (spec_min_timeout_s s) (spec_admin s) (spec_readonly s) false None [] []
         None "env" false) now k).2
  end.

Definition _load_env (raw : string) (now : Q) (k : KeyRegistry) : KeyRegistry :=
  foldl (load_env_entry now) k (split_on "," raw).

(** ** The request *)

(** [headers.get], the host of the peer and the method. *)
Record Request := mkRequest {
  req_header : string -> option string;
  req_client : option string;
  req_method : option string }.

Definition _header (r : Request) (name : string) : string :=
  default "" (head (filter (fun v => v <> "")
    (map (fun spelling => default "" (req_header r spelling)) [name; lower name; title name; upper name]))).

(** [base64.b64decode(blob, validate=True)]: groups of four, padding only in
    the last. *)
Definition b64_value (c : ascii) : option Z :=
  let n := ord c in
  if is_upper c then Some (n - 65)%Z
  else if is_lower c then Some (n - 71)%Z
  else if is_digit c then Some (n + 4)%Z
  else if (n =? 43)%Z then Some 62%Z else if (n =? 47)%Z then Some 63%Z else None.

Definition byte_string (bs : list Z) : string :=
  foldr (fun b acc => String (ascii_of_N (Z.to_N b)) acc) "" bs.

Fixpoint b64decode (s : string) : option (list Z) :=
  match s with
  | "" => Some []
  | String a (String b (String "=" (String "=" ""))) =>
      match b64_value a, b64_value b with
      | Some x, Some y => Some [Z.lor (Z.shiftl x 2) (Z.shiftr y 4)]
      | _, _ => None
      end
  | String a (String b (String c (String "=" ""))) =>
      match b64_value a, b64_value b, b64_value c with
      | Some x, Some y, Some z =>
          Some [Z.lor (Z.shiftl x 2) (Z.shiftr y 4); Z.lor (Z.shiftl (Z.land y 15) 4) (Z.shiftr z 2)]
      | _, _, _ => None
      end
  | String a (String b (String c (String d rest))) =>
      match b64_value a, b64_value b, b64_value c, b64_value d, b64decode rest with
      | Some x, Some y, Some z, Some w, Some bs =>
          Some (Z.lor (Z.shiftl x 2) (Z.shiftr y 4) :: Z.lor (Z.shiftl (Z.land y 15) 4) (Z.shiftr z 2)
                :: Z.lor (Z.shiftl (Z.land z 3) 6) w :: bs)
      | _, _, _, _, _ => None
      end
  | _ => None
  end.

(** [.decode("utf-8")] of text whose code points are below 256 (the strings of
    the model); other bytes do not decode. *)
Fixpoint utf8_decode (bs : list Z) : option string :=
  match bs with
  | [] => Some ""
  | b :: rest =>
      if (b <? 128)%Z then String (ascii_of_N (Z.to_N b)) <$> utf8_decode rest
      else match rest with
           | c :: rest' =>
               if ((194 <=? b) && (b <=? 195) && (128 <=? c) && (c <? 192))%Z%bool
               then String (ascii_of_N (Z.to_N (Z.lor (Z.shiftl (Z.land b 3) 6) (Z.land c 63)))) <$> utf8_decode rest'
               else None
           | [] => None
           end
  end.

Definition _basic_password (blob : string) : string :=
  match b64decode blob with
  | None => ""
  | Some bs =>
      match utf8_decode bs with
      | None => ""
      | Some decoded =>
          match split_once ":" decoded with
          | Some (_, password) => strip password
          | None => ""
          end
      end
  end.

Definition presented_bearer (r : Request) : string :=
  let auth := strip (_header r "Authorization") in
  if startswith _BEARER_PREFIX (lower auth) then strip (sdrop (String.length _BEARER_PREFIX) auth) else "".

Definition presented_key (r : Request) : string :=
  let auth := strip (_header r "Authorization") in
  if startswith _BEARER_PREFIX (lower auth) then strip (sdrop (String.length _BEARER_PREFIX) auth)
  else if startswith _BASIC_PREFIX (lower auth) then
    _basic_password (strip (sdrop (String.length _BASIC_PREFIX) auth))
  else strip (_header r "X-API-Key").

Definition remote_ip (r : Request) : string :=
  match req_client r with
  | Some h => if String.eqb h "" then _UNKNOWN_ADDRESS else h
  | None => _UNKNOWN_ADDRESS
  end.

(** ** Placeholder bearers *)

Record BearerPlaceholders := mkPH {
  _values : list string;
  tally_count : Z;
  by_address : dict string Z;
  _notified : dict (string * string) Z }.

Definition BearerPlaceholders_init (values : list string) : BearerPlaceholders :=
  let texts := filter (fun t => t <> "") (map strip values) in
  mkPH (dkeys (foldl (fun d t => dset d t tt) [] texts)) 0 [] [].

Definition declares (ph : BearerPlaceholders) (token : string) : bool :=
  (negb (String.eqb token "") && bool_decide (token ∈ _values ph))%bool.

(** Raises when a placeholder is the plaintext of a registered key. *)
Definition assert_not_registered (ph : BearerPlaceholders) (k : KeyRegistry) (now : Q) : res unit :=
  if existsb (fun v => bool_decide (kl_key_id (lookup_key k v now) <> None)) (_values ph)
  then Raise ValueError else Ret tt.

(** One count per request: [noted] is the marker kept on the request. *)
Definition note_placeholder (noted : bool) (value address : string) (today : Z) (ph : BearerPlaceholders)
  : bool * BearerPlaceholders :=
  if noted then (true, ph)
  else
    let ba := by_address ph in
    let ba := if (dmem ba address || (length ba <? _MAX_TRACKED_PLACEHOLDER_ADDRESSES)%nat)%bool
              then dset ba address (default 0%Z (dget ba address) + 1)%Z else ba in
    let mark := (value, address) in
    let nt := _notified ph in
    let nt := if bool_decide (dget nt mark = Some today) then nt
              else dset (if (_MAX_TRACKED_PLACEHOLDER_ADDRESSES <=? length nt)%nat then [] else nt) mark today in
    (true, mkPH (_values ph) (tally_count ph + 1) ba nt).

(** ** Forwarded addresses *)

Definition trusts (nets : list net) (address : string) : bool :=
  match nets with
  | [] => false
  | _ => if String.eqb address "" then false
         else match ip_address address with Some a => in_any a nets | None => false end
  end.

(** [TrustedProxies.parse] *)
Definition parse_proxies (raw : string) : list net :=
  omap (fun e => let e := strip e in if String.eqb e "" then None else ip_network e) (split_on "," raw).

Record ClientAddress := mkCA { ca_ip : string; forwarded : bool }.

Definition _forwarded_hop (raw : string) : option string :=
  let text := strip raw in
  if startswith "[" text then
    match sfind "]" text with
    | None => None
    | Some e => str_ip <$> ip_address (sdrop 1 (stake e text))
    end
  else
    let text := if (count_char ":" text =? 1)%nat
                then match split_once ":" text with Some (h, _) => h | None => text end else text in
    str_ip <$> ip_address text.

(** The walk over the reversed chain; [hop] is the last address seen. *)
Fixpoint walk_hops (nets : list net) (hop : string) (rchain : list string) : ClientAddress :=
  match rchain with
  | [] => mkCA hop true
  | raw :: rest =>
      match _forwarded_hop raw with
      | None => mkCA _UNKNOWN_ADDRESS true
      | Some h => if trusts nets h then walk_hops nets h rest else mkCA h true
      end
  end.

Definition forwarded_chain (r : Request) : list string :=
  filter (fun part => strip part <> "") (split_on "," (_header r _FORWARDED_FOR)).

Definition client_address (r : Request) (nets : list net) : ClientAddress :=
  let peer := remote_ip r in
  if negb (trusts nets peer) then mkCA peer false
  else
    let chain := forwarded_chain r in
    match chain with
    | [] => mkCA peer true
    | _ => if (_MAX_FORWARDED_HOPS <? length chain)%nat then mkCA _UNKNOWN_ADDRESS true
           else walk_hops nets "None" (reverse chain)
    end.

Definition _address_in_any (s : string) (cidrs : list string) : bool :=
  match ip_address s with
  | None => false
  | Some a => existsb (fun raw => match ip_network raw with Some n => in_net a n | None => false end) cidrs
  end.

(** ** The resolver *)

Record IdentityResolver := mkResolver {
  acl : IPIdentityMap;
  keys : KeyRegistry;
  proxies : list net;
  placeholders : BearerPlaceholders;
  require_key : bool }.

(** The constructor refuses a placeholder that is a key. *)
Definition IdentityResolver_init (a : IPIdentityMap) (k : KeyRegistry) (nets : list net) (ph : BearerPlaceholders)
    (require : bool) (now : Q) : res IdentityResolver :=
  match assert_not_registered ph k now with
  | Ret _ => Ret (mkResolver a k nets ph require)
  | Raise e => Raise e
  end.

Definition client_ip (s : IdentityResolver) (r : Request) : string := ca_ip (client_address r (proxies s)).

Definition _binding_denial (s : IdentityResolver) (r : Request) (found : KeyLookup) : option Denial :=
  match kl_bind found with
  | [] => None
  | cidrs =>
      let address := client_address r (proxies s) in
      if _address_in_any (ca_ip address) cidrs then None
      else Some (mkDenial "invalid_api_key" 401
                   (BoundElsewhere (kl_key_id found) cidrs (ca_ip address) (forwarded address)))
  end.

(** The key a request is judged by: a declared placeholder reads as no
    [Authorization] header. *)
Definition effective_key (s : IdentityResolver) (r : Request) : string :=
  let key := presented_key r in
  if (negb (String.eqb key "") && declares (placeholders s) (presented_bearer r))%bool
  then strip (_header r "X-API-Key") else key.

(** [resolve] after the placeholder rule. *)
Definition resolve_with (s : IdentityResolver) (r : Request) (key : string) (now : Q) : Resolution :=
  if (negb (String.eqb key "") && (configured (keys s) || is_bootstrap (keys s) key))%bool then
    let found := lookup_key (keys s) key now in
    match kl_principal found with
    | Some p => match _binding_denial s r found with Some d => Denied d | None => Granted p end
    | None =>
        if lookup_expired found then Denied (mkDenial "invalid_api_key" 401 (ExpiredKey (kl_key_id found) (expired_at found)))
        else Denied (mkDenial "invalid_api_key" 401 UnknownKey)
    end
  else if require_key s then Denied (mkDenial "invalid_api_key" 401 KeyRequired)
  else
    let ip := client_ip s r in
    match identify (acl s) ip with
    | None => Denied (mkDenial "access_denied" 403 (AddressDenied ip))
    | Some (agent, prio) =>
        Granted (mkPrincipal agent prio (acl_priority_declared (acl s) ip) (acl_min_timeout_s (acl s) ip)
                   false false false "ip" None [])
    end.

Definition set_placeholders (s : IdentityResolver) (ph : BearerPlaceholders) : IdentityResolver :=
  mkResolver (acl s) (keys s) (proxies s) ph (require_key s).

(** [resolve]: the answer, the marker left on the request and the resolver with
    its placeholder tally. *)
Definition resolve (s : IdentityResolver) (r : Request) (noted : bool) (now : Q) (today : Z)
  : Resolution * bool * IdentityResolver :=
  let key := presented_key r in
  let '(noted, s') :=
    if (negb (String.eqb key "") && declares (placeholders s) (presented_bearer r))%bool
    then let '(n, ph) := note_placeholder noted key (client_ip s r) today (placeholders s) in
         (n, set_placeholders s ph)
    else (noted, s) in
  (resolve_with s r (effective_key s r) now, noted, s').

(** The answer alone. *)
Definition resolution (s : IdentityResolver) (r : Request) (now : Q) : Resolution :=
  resolve_with s r (effective_key s r) now.

(** [str(declared or "")], for a declared [agent_id] of any JSON value. *)
Definition delegate (p : Principal) (declared : json) : Resolution :=
  let name := strip (if truthy declared then py_str declared else "") in
  if (String.eqb name "" || String.eqb name (agent_id p))%bool then Granted p
  else match may_assert p with
       | [] => Granted p
       | allowed =>
           if bool_decide (name ∈ allowed)
           then Granted (mkPrincipal name (priority p) (priority_declared p) (min_timeout_s p) (admin p)
                           (admin_readonly p) (calls_push p) (source p) (key_id p) (may_assert p))
           else Denied (mkDenial "access_denied" 403 (NotAssertable name allowed))
       end.

Definition identity_min_timeout_s (s : IdentityResolver) (r : Request) (now : Q) : option Q :=
  match resolution s r now with Granted p => min_timeout_s p | Denied _ => None end.

Definition is_admin (s : IdentityResolver) (r : Request) (now : Q) : bool :=
  match resolution s r now with Granted p => admin p | Denied _ => false end.

Record Actor := mkActor { ac_key_id : option string; ac_agent_id : option string; ac_source : string; ac_address : string }.

Definition actor (s : IdentityResolver) (r : Request) (now : Q) : Actor :=
  match resolution s r now with
  | Granted p => mkActor (key_id p) (Some (agent_id p)) (source p) (client_ip s r)
  | Denied _ => mkActor None None "unknown" (client_ip s r)
  end.

Record AdminScope := mkScope {
  sc_key_id : option string; sc_agent_id : option string; sc_source : string; sc_admin : bool; sc_may_write : bool }.

Definition admin_scope (s : IdentityResolver) (r : Request) (now : Q) : AdminScope :=
  match resolution s r now with
  | Granted p => mkScope (key_id p) (Some (agent_id p)) (source p) (admin p) (may_admin_write p)
  | Denied _ => mkScope None None "unknown" false false
  end.

Definition method_of (r : Request) : string :=
  let m := default "GET" (req_method r) in upper (if String.eqb m "" then "GET" else m).

Definition _admin_reach_denial (s : IdentityResolver) (r : Request) : option Denial :=
  let address := client_address r (proxies s) in
  if may_reach_admin (acl s) (ca_ip address) (negb (forwarded address)) then None
  else Some (mkDenial "access_denied" 403 (AdminUnreachable (ca_ip address))).

Definition _csrf_denial (r : Request) : option Denial :=
  let content_type := _header r "Content-Type" in
  let media_type := lower (strip (default content_type (fst <$> split_once ";" content_type))) in
  if negb (String.eqb media_type "application/json")
  then Some (mkDenial "invalid_request_error" 415 (WrongMediaType content_type))
  else if String.eqb (lower (strip (_header r "Sec-Fetch-Site"))) "cross-site"
  then Some (mkDenial "access_denied" 403 CrossSite)
  else if (startswith _BASIC_PREFIX (lower (strip (_header r "Authorization")))
           && negb (String.eqb (strip (_header r _CSRF_HEADER)) "1"))%bool
  then Some (mkDenial "access_denied" 403 CsrfHeaderMissing)
  else None.

Definition admin_denial (s : IdentityResolver) (r : Request) (now : Q) : option Denial :=
  match _admin_reach_denial s r with
  | Some d => Some d
  | None =>
      match resolution s r now with
      | Denied d => Some d
      | Granted p =>
          if negb (admin p) then Some (mkDenial "access_denied" 403 (AddressDenied (client_ip s r)))
          else
            let method := method_of r in
            let safe := bool_decide (method ∈ SAFE_METHODS) in
            if (negb safe && negb (may_admin_write p))%bool
            then Some (mkDenial "access_denied" 403 (ReadonlyAdmin method))
            else if safe then None else _csrf_denial r
      end
  end.

Definition calls_push_denial (s : IdentityResolver) (r : Request) (now : Q) : option Denial :=
  match _admin_reach_denial s r with
  | Some d => Some d
  | None =>
      match resolution s r now with
      | Granted p =>
          if (admin p || negb (calls_push p))%bool then admin_denial s r now
          else
            let method := method_of r in
            if negb (String.eqb method "POST") then Some (mkDenial "access_denied" 403 (IngestOnly method))
            else _csrf_denial r
      | Denied _ => admin_denial s r now
      end
  end.

(** [ROADSTEAD_REQUIRE_API_KEY] *)
Definition _require_key_from_env (raw : string) : bool :=
  bool_decide (lower (strip raw) ∈ ["1"; "true"; "yes"; "on"]).
