(* ===== verification/IdentityProps.v ===== *)
(** * Theorems about identity and authorization

    A credential decides alone once it is presented; an address never grants a
    scope; the admin gate opens exactly for an unexpired admin key in reach; a
    forged forwarding header changes nothing; delegation moves the fair-share
    name and no privilege; and the life cycle of a key in the registry. *)

From Stdlib Require Import Ascii Lia ZArith QArith.
From stdpp Require Import base list strings.
From S2P Require Import Prelude PyDict PyText IpAddr Sha256 Json Config Acl Identity.

Local Open Scope string_scope.

(** ** Reachable registries *)

Inductive keys_reachable : KeyRegistry -> Prop :=
| keys_start : keys_reachable KeyRegistry_init
| keys_register k s now : keys_reachable k -> keys_reachable (register_key s now k).2
| keys_revoke k label : keys_reachable k -> keys_reachable (revoke label k).2
| keys_expiry k label e : keys_reachable k -> keys_reachable (set_expiry label e k).2.

(** What every stored principal satisfies. *)
Definition key_principal_ok (p : Principal) : Prop :=
  source p = "api_key" /\ agent_id p <> "" /\ key_id p <> None /\ (admin p && calls_push p)%bool = false.

Record keys_inv (k : KeyRegistry) : Prop := {
  ki_wf : dwf (_by_digest k);
  ki_cred_wf : dwf (_credential k);
  ki_cred : forall d, dget (_by_digest k) d = None <-> dget (_credential k) d = None;
  ki_ok : forall d p, dget (_by_digest k) d = Some p -> key_principal_ok p }.

Lemma digest_labelled_Some k label d :
  digest_labelled k label = Some d -> exists p, (d, p) ∈ _by_digest k /\ key_id p = Some label.
Proof.
  unfold digest_labelled. intros ([d' p] & F & [= <-])%fmap_Some.
  apply find_some in F as [I E]. exists p. split; [by apply list_elem_of_In|].
  by apply bool_decide_eq_true_1 in E.
Qed.

(** The outcome of a registration: refused and unchanged, or one new entry. *)
Lemma register_key_cases s now k :
  register_key s now k = (None, k)
  \/ exists d label, spec_digest s = Some d /\ dget (_by_digest k) d = None
     /\ ks_agent_id s <> "" /\ (ks_calls_push s && ks_admin s)%bool = false
     /\ register_key s now k
        = (Some label,
           mkKeys
             (dset (_by_digest k) d
                (mkPrincipal (ks_agent_id s) (ks_priority s) (ks_priority_declared s) (ks_min_timeout_s s)
                   (ks_admin s) (ks_admin_readonly s) (ks_calls_push s) "api_key" (Some label)
                   (assertable (ks_may_assert s))))
             (dset (_credential k) d (mkCred (ks_source s) (Some now) (ks_expires_at s) (ks_bind s)))
             (_bootstrap (register_key s now k).2)).
Proof.
  unfold register_key. destruct (spec_digest s) as [d|] eqn:E; [|by left].
  destruct (String.eqb_spec (ks_agent_id s) "") as [|Ha]; [by left|].
  destruct (ks_calls_push s && ks_admin s)%bool eqn:C; [by left|].
  destruct (dmem (_by_digest k) d) eqn:M; [by left|]. right.
  unfold dmem in M. destruct (dget (_by_digest k) d) eqn:G; [done|]. eexists d, _. by split_and!.
Qed.

Lemma keys_reachable_inv k : keys_reachable k -> keys_inv k.
Proof.
  induction 1 as [|k s now R [I1 I2 I3 I4]|k label R [I1 I2 I3 I4]|k label e R [I1 I2 I3 I4]].
  - split; try apply dwf_nil; done.
  - destruct (register_key_cases s now k) as [->|(d & label & E & G & Ha & C & ->)]; [done|].
    split; cbn [_by_digest _credential snd].
    + by apply dwf_dset.
    + by apply dwf_dset.
    + intros x. rewrite !dget_dset. destruct (decide (d = x)); [done|]. apply I3.
    + intros x p. rewrite dget_dset. destruct (decide (d = x)); [|apply I4].
      intros [= <-]. split_and!; try done. cbn. by rewrite andb_comm.
  - unfold revoke. destruct (digest_labelled k label) as [d|]; [|done]. split; cbn [_by_digest _credential snd].
    + by apply dwf_ddel.
    + by apply dwf_ddel.
    + intros x. rewrite !dget_ddel by done. destruct (decide (d = x)); [done|]. apply I3.
    + intros x p. rewrite dget_ddel by done. destruct (decide (d = x)); [done|]. apply I4.
  - unfold set_expiry. destruct (digest_labelled k label) as [d|] eqn:L; [|done].
    split; cbn [_by_digest _credential snd]; try done; [by apply dwf_dset|].
    intros x. rewrite dget_dset. destruct (decide (d = x)) as [<-|]; [|apply I3].
    apply digest_labelled_Some in L as (p & L & _). by rewrite (elem_dget _ _ _ I1 L).
Qed.

(** ** Resolution *)

(** The key is registered, in date, and presented from where it may be. *)
Definition key_usable (s : IdentityResolver) (r : Request) (key : string) (now : Q) (p : Principal) : Prop :=
  dget (_by_digest (keys s)) (_digest key) = Some p
  /\ (forall e, expires_at (cred_of (keys s) (_digest key)) = Some e -> now < e)%Q
  /\ (bind (cred_of (keys s) (_digest key)) = []
      \/ _address_in_any (client_ip s r) (bind (cred_of (keys s) (_digest key))) = true).

(** The registry is in play for this key. *)
Definition registry_decides (s : IdentityResolver) (key : string) : Prop :=
  key <> "" /\ (configured (keys s) = true \/ is_bootstrap (keys s) key = true).

Lemma is_expired_false k d now :
  is_expired k d now = false <-> (forall e, expires_at (cred_of k d) = Some e -> now < e)%Q.
Proof.
  unfold is_expired. destruct (expires_at (cred_of k d)) as [e|]; [|naive_solver].
  destruct (Qleb_spec e now) as [H|H].
  - split; [done|]. intros G. specialize (G e eq_refl). by apply Qlt_not_le in G.
  - split; [|done]. by intros _ ? [= <-].
Qed.

Lemma binding_denial_None s r l :
  _binding_denial s r l = None <-> kl_bind l = [] \/ _address_in_any (client_ip s r) (kl_bind l) = true.
Proof.
  unfold _binding_denial, client_ip. destruct (kl_bind l) as [|c cs]; [naive_solver|].
  destruct (_address_in_any _ _); naive_solver.
Qed.

Lemma binding_denial_401 s r l d : _binding_denial s r l = Some d -> code d = "invalid_api_key" /\ status d = 401%Z.
Proof.
  unfold _binding_denial. destruct (kl_bind l); [done|]. destruct (_address_in_any _ _); [done|]. by intros [= <-].
Qed.

Lemma registry_decides_bool s key :
  registry_decides s key <->
  (negb (String.eqb key "") && (configured (keys s) || is_bootstrap (keys s) key))%bool = true.
Proof.
  unfold registry_decides. rewrite andb_true_iff, orb_true_iff, negb_true_iff, String.eqb_neq. done.
Qed.

Lemma key_decides s r key now :
  registry_decides s key ->
  match resolve_with s r key now with
  | Granted p => key_usable s r key now p
  | Denied d => (forall p, ~ key_usable s r key now p) /\ code d = "invalid_api_key" /\ status d = 401%Z
  end.
Proof.
  intros H. pose proof H as H'%registry_decides_bool. unfold resolve_with. rewrite H'.
  destruct H as [Hne _]. unfold lookup_key. rewrite (proj2 (String.eqb_neq key "") Hne).
  unfold key_usable. destruct (dget (_by_digest (keys s)) (_digest key)) as [p|] eqn:G.
  - destruct (is_expired (keys s) (_digest key) now) eqn:X.
    + cbn [kl_principal]. assert (N : ~ (forall e, expires_at (cred_of (keys s) (_digest key)) = Some e -> now < e)%Q).
      { intros Q%is_expired_false. congruence. }
      destruct (lookup_expired _); (split; [|done]); intros p' (_ & ? & _); by apply N.
    + cbn [kl_principal]. destruct (_binding_denial s r _) as [d|] eqn:B.
      * split; [|by eapply binding_denial_401]. intros p' (_ & _ & HB).
        assert (HN : _binding_denial s r (mkLookup (Some p) None (key_id p) (bind (cred_of (keys s) (_digest key)))) = None)
          by (by apply binding_denial_None). congruence.
      * apply binding_denial_None in B. split_and!; [done|by apply is_expired_false|done].
  - cbn [kl_principal no_key]. split; [|done]. intros p (? & _). congruence.
Qed.

(** A presented key is the whole answer once keys are configured: the request
    is that key's principal exactly when the key is registered, in date and
    presented from where it may be, and otherwise it is refused with 401, never
    identified by its address instead. *)
Theorem presented_key_decides s r now p :
  registry_decides s (effective_key s r) ->
  (resolution s r now = Granted p <-> key_usable s r (effective_key s r) now p)
  /\ (forall d, resolution s r now = Denied d -> code d = "invalid_api_key" /\ status d = 401%Z).
Proof.
  intros H. pose proof (key_decides s r _ now H) as K. unfold resolution.
  destruct (resolve_with s r (effective_key s r) now) as [q|d].
  - split; [|done]. split; [by intros [= <-]|].
    intros (G & _). destruct K as (G' & _). rewrite G in G'. by injection G' as <-.
  - destruct K as [N E]. split; [|by intros ? [= <-]]. split; [done|]. intros U. by destruct (N p).
Qed.

(** Without a usable key an identity has no privilege. *)
Lemma address_identity s r key now p :
  ~ registry_decides s key -> resolve_with s r key now = Granted p ->
  admin p = false /\ calls_push p = false /\ may_assert p = [] /\ source p = "ip" /\ require_key s = false
  /\ identify (acl s) (client_ip s r) = Some (agent_id p, priority p).
Proof.
  intros H. unfold resolve_with.
  destruct (_ && _)%bool eqn:E; [by apply registry_decides_bool in E|].
  destruct (require_key s); [done|]. destruct (identify (acl s) (client_ip s r)) as [[a pr]|]; [|done].
  by intros [= <-].
Qed.

Lemma registry_decides_dec s key : registry_decides s key \/ ~ registry_decides s key.
Proof.
  rewrite registry_decides_bool. destruct (_ && _)%bool; [by left|by right].
Qed.

(** C3 Default deny for addresses: without a key the registry knows about, a
    request is identified only if no key is required and its address is
    enrolled (or internal), and the identity it gets carries no admin scope, no
    ingest scope and no delegation. *)
Theorem address_confers_no_scope s r now p :
  ~ registry_decides s (effective_key s r) ->
  resolution s r now = Granted p ->
  admin p = false /\ calls_push p = false /\ may_assert p = [] /\ require_key s = false
  /\ identify (acl s) (client_ip s r) = Some (agent_id p, priority p).
Proof.
  intros H E. destruct (address_identity s r _ now p H E) as (? & ? & ? & ? & ? & ?). by split_and!.
Qed.

(** ** The admin gate *)

(** A request whose network may reach the admin plane. *)
Definition in_reach (s : IdentityResolver) (r : Request) : Prop :=
  let address := client_address r (proxies s) in
  may_reach_admin (acl s) (ca_ip address) (negb (forwarded address)) = true.

(** The extra conditions on a request that changes something. *)
Definition csrf_safe (r : Request) : Prop :=
  lower (strip (default (_header r "Content-Type") (fst <$> split_once ";" (_header r "Content-Type"))))
    = "application/json"
  /\ lower (strip (_header r "Sec-Fetch-Site")) <> "cross-site"
  /\ (startswith _BASIC_PREFIX (lower (strip (_header r "Authorization"))) = true ->
      strip (_header r _CSRF_HEADER) = "1").

Lemma csrf_denial_None r : _csrf_denial r = None <-> csrf_safe r.
Proof.
  unfold _csrf_denial, csrf_safe.
  destruct (String.eqb_spec (lower (strip (default (_header r "Content-Type")
              (fst <$> split_once ";" (_header r "Content-Type"))))) "application/json"); [|naive_solver].
  cbn [negb]. destruct (String.eqb_spec (lower (strip (_header r "Sec-Fetch-Site"))) "cross-site"); [naive_solver|].
  destruct (startswith _BASIC_PREFIX _); [|naive_solver]. cbn [andb].
  destruct (String.eqb_spec (strip (_header r _CSRF_HEADER)) "1"); naive_solver.
Qed.

Lemma reach_denial_None s r : _admin_reach_denial s r = None <-> in_reach s r.
Proof. unfold _admin_reach_denial, in_reach. destruct (may_reach_admin _ _ _); naive_solver. Qed.

(** The gate, for a given resolution. *)
Lemma admin_denial_None s r now :
  admin_denial s r now = None <->
  in_reach s r /\ exists p, resolution s r now = Granted p /\ admin p = true
    /\ (method_of r ∈ SAFE_METHODS \/ (may_admin_write p = true /\ csrf_safe r)).
Proof.
  unfold admin_denial. rewrite <- reach_denial_None. destruct (_admin_reach_denial s r); [naive_solver|].
  destruct (resolution s r now) as [p|d]; [|by split; [done|]; intros (_ & ? & ? & _)].
  destruct (admin p) eqn:A; cbn [negb];
    [|split; [done|]; intros (_ & q & E & A' & _); injection E as <-; congruence].
  cbv zeta. case_bool_decide as M; cbn [negb andb].
  - split; [|done]. intros _. split; [done|]. exists p. auto.
  - destruct (may_admin_write p) eqn:W; cbn [negb].
    + rewrite csrf_denial_None. split; [intros C; split; [done|]; exists p; auto|].
      intros (_ & q & E & _ & M'). injection E as <-. by destruct M' as [|[_ ?]].
    + split; [done|]. intros (_ & q & E & _ & M'). injection E as <-. destruct M' as [|[? _]]; [done|congruence].
Qed.

(** The admin plane opens exactly for a request that comes from a network
    in reach and presents a registered, unexpired key with the admin scope; a
    request that changes something also needs the key not to be read-only, a
    JSON media type, no cross-site label, and for a Basic credential the
    custom header.  No address grants it. *)
Theorem admin_plane_needs_admin_key s r now :
  admin_denial s r now = None <->
  in_reach s r /\ exists p,
    registry_decides s (effective_key s r) /\ key_usable s r (effective_key s r) now p /\ admin p = true
    /\ (method_of r ∈ SAFE_METHODS \/ (admin_readonly p = false /\ csrf_safe r)).
Proof.
  rewrite admin_denial_None.
  assert (W : forall p, admin p = true -> may_admin_write p = true <-> admin_readonly p = false).
  { intros p A. unfold may_admin_write. rewrite A. by destruct (admin_readonly p). }
  split; intros [HR HP]; (split; [done|]).
  - destruct HP as (p & E & A & M). exists p.
    destruct (registry_decides_dec s (effective_key s r)) as [D|D].
    + pose proof (key_decides s r _ now D) as K. unfold resolution in E. rewrite E in K.
      split_and!; try done. destruct M as [|[M C]]; [by left|right]. split; [by apply W|done].
    + destruct (address_identity s r _ now p D E) as [A' _]. congruence.
  - destruct HP as (p & D & U & A & M). exists p.
    pose proof (key_decides s r _ now D) as K. unfold resolution.
    destruct (resolve_with s r (effective_key s r) now) as [q|d]; [|by destruct K as [N _]; destruct (N p)].
    destruct K as (G' & _). destruct U as (G & _). rewrite G in G'. injection G' as <-.
    split_and!; try done. destruct M as [|[M C]]; [by left|right]. split; [by apply W|done].
Qed.

(** The ingest scope is confined to one route and one method: with any
    registry the program can build, a key that carries it is refused on every
    admin route, and the ingest route admits it only for a POST that passes the
    same network and CSRF checks. *)
Theorem ingest_scope_confined s r now p :
  keys_reachable (keys s) -> resolution s r now = Granted p -> calls_push p = true ->
  admin_denial s r now <> None
  /\ (calls_push_denial s r now = None <-> in_reach s r /\ method_of r = "POST" /\ csrf_safe r).
Proof.
  intros HK%keys_reachable_inv E C.
  assert (A : admin p = false).
  { destruct (registry_decides_dec s (effective_key s r)) as [D|D].
    - pose proof (key_decides s r _ now D) as K. unfold resolution in E. rewrite E in K.
      destruct K as (G & _). destruct (ki_ok _ HK _ _ G) as (_ & _ & _ & X).
      rewrite C, andb_true_r in X. done.
    - by destruct (address_identity s r _ now p D E) as [? _]. }
  split.
  - rewrite admin_denial_None. intros (_ & q & E' & A' & _). rewrite E in E'. injection E' as <-. congruence.
  - unfold calls_push_denial. rewrite <- reach_denial_None. destruct (_admin_reach_denial s r); [naive_solver|].
    rewrite E, A, C. cbn [orb negb]. destruct (String.eqb_spec (method_of r) "POST"); cbn [negb].
    + rewrite csrf_denial_None. naive_solver.
    + naive_solver.
Qed.

(** ** Forwarded addresses *)

(** The walk answers at the first hop from the right that is not a proxy. *)
Definition stops_walk (nets : list net) (raw : string) : bool :=
  match _forwarded_hop raw with None => true | Some h => negb (trusts nets h) end.

Lemma walk_hops_app nets hop near far :
  existsb (stops_walk nets) near = true ->
  walk_hops nets hop (near ++ far)%list = walk_hops nets hop near.
Proof.
  revert hop. induction near as [|x near IH]; intros hop; [done|]. cbn [existsb app walk_hops].
  unfold stops_walk at 1. destruct (_forwarded_hop x) as [h|]; [|done].
  destruct (trusts nets h); [|done]. cbn [negb orb]. by apply IH.
Qed.

(** C39 A caller cannot choose its address by forging the forwarding header:
    whatever hops stand to the left of the first one a trusted proxy did not
    vouch for, the address resolved is the same, as long as the chain is within
    the hop limit. *)
Theorem forged_hops_ignored nets r r' forged chain :
  remote_ip r = remote_ip r' ->
  forwarded_chain r = (forged ++ chain)%list -> forwarded_chain r' = chain ->
  (length (forged ++ chain) <= _MAX_FORWARDED_HOPS)%nat ->
  existsb (stops_walk nets) chain = true ->
  client_address r nets = client_address r' nets.
Proof.
  intros HP E E' HL HS. unfold client_address. rewrite E, E', HP.
  destruct (trusts nets (remote_ip r')); [|done]. cbn [negb].
  destruct chain as [|c cs] eqn:EC; [done|]. rewrite <- EC in *.
  destruct (forged ++ chain)%list eqn:EF; [by rewrite EC in EF; destruct forged|]. rewrite <- EF in *.
  rewrite length_app in HL.
  rewrite !(proj2 (Nat.ltb_ge _ _)) by (rewrite ?length_app; lia).
  rewrite reverse_app. rewrite walk_hops_app; [done|].
  apply existsb_exists in HS as (x & I & S). apply existsb_exists. exists x. split; [|done].
  apply list_elem_of_In, elem_of_reverse. by apply list_elem_of_In.
Qed.

(** An address that came from a header, or is unreadable, is marked so; and the
    header is not read at all unless the peer is a trusted proxy. *)
Lemma untrusted_peer_address nets r :
  trusts nets (remote_ip r) = false -> client_address r nets = mkCA (remote_ip r) false.
Proof. intros H. unfold client_address. by rewrite H. Qed.

(** ** Delegation *)

(** Delegation moves the fair-share name and nothing else: a caller acts as
    another only when its own credential lists that name, keeping its band, its
    deadline floor and its scopes; a credential without a list ignores the
    declared name; and it is refused exactly when a list exists that does not
    contain the name. *)
Theorem delegate_moves_name_only p declared :
  let name := strip (if truthy declared then py_str declared else "") in
  match delegate p declared with
  | Granted q =>
      q = mkPrincipal (agent_id q) (priority p) (priority_declared p) (min_timeout_s p) (admin p)
            (admin_readonly p) (calls_push p) (source p) (key_id p) (may_assert p)
      /\ (agent_id q = agent_id p \/ (agent_id q = name /\ name ∈ may_assert p))
  | Denied d =>
      status d = 403%Z /\ name <> "" /\ name <> agent_id p /\ may_assert p <> [] /\ name ∉ may_assert p
  end.
Proof.
  unfold delegate. set (name := strip _). destruct p as [ag pr pd mt ad ar cp so ki ma]. cbn.
  destruct (String.eqb_spec name "") as [|N1]; [cbn; auto|].
  destruct (String.eqb_spec name ag) as [|N2]; [cbn; auto|]. cbn [orb].
  destruct ma as [|m ma]; [cbn; auto|]. by case_bool_decide; cbn; auto.
Qed.

(** ** The life of a key *)

(** The registry after one step, seen through a presented secret. *)
Lemma lookup_key_stored k secret p now :
  secret <> "" -> dget (_by_digest k) (_digest secret) = Some p ->
  resolve_key k secret now = (if is_expired k (_digest secret) now then None else Some p).
Proof.
  intros Hne G. unfold resolve_key, lookup_key. rewrite (proj2 (String.eqb_neq _ _) Hne), G.
  by destruct (is_expired _ _ _).
Qed.

Lemma lookup_key_absent k secret now :
  dget (_by_digest k) (_digest secret) = None -> resolve_key k secret now = None.
Proof.
  intros G. unfold resolve_key, lookup_key. rewrite G. by destruct (String.eqb secret "").
Qed.

(** Enrolling a key and presenting it: a registration that succeeds makes
    its secret resolve to the identity written, until the moment it expires and
    never from then on, and leaves what every other secret resolves to as it
    was; a refused registration changes nothing. *)
Theorem enrolled_key_resolves s now k secret label k' :
  ks_secret s = Some secret -> secret <> "" -> register_key s now k = (Some label, k') ->
  (forall t, (forall e, ks_expires_at s = Some e -> t < e)%Q ->
     exists p, resolve_key k' secret t = Some p /\ agent_id p = ks_agent_id s /\ key_id p = Some label
               /\ admin p = ks_admin s /\ priority p = ks_priority s)
  /\ (forall e t, ks_expires_at s = Some e -> (e <= t)%Q -> resolve_key k' secret t = None)
  /\ (forall other t, _digest other <> _digest secret -> resolve_key k' other t = resolve_key k other t).
Proof.
  intros HS Hne HR. destruct (register_key_cases s now k) as [E|(d & lb & HD & G & _ & _ & E)];
    [congruence|]. rewrite HR in E. injection E as <- E. cbn [snd] in E.
  unfold spec_digest in HD. rewrite HS in HD.
  destruct (Bool.eqb (given (Some secret)) (given (ks_key_sha256 s))) eqn:EQ; [done|]. injection HD as <-.
  assert (GP : dget (_by_digest k') (_digest secret) = Some
    (mkPrincipal (ks_agent_id s) (ks_priority s) (ks_priority_declared s) (ks_min_timeout_s s)
       (ks_admin s) (ks_admin_readonly s) (ks_calls_push s) "api_key" (Some label) (assertable (ks_may_assert s))))
    by (rewrite E; apply dget_dset_eq).
  assert (GC : expires_at (cred_of k' (_digest secret)) = ks_expires_at s)
    by (unfold cred_of; rewrite E; cbn [_credential]; by rewrite dget_dset_eq).
  split_and!.
  - intros t HT. eexists. rewrite (lookup_key_stored _ _ _ _ Hne GP).
    rewrite (proj2 (is_expired_false _ _ _)) by by rewrite GC. by split_and!.
  - intros e t HE HT. rewrite (lookup_key_stored _ _ _ _ Hne GP). unfold is_expired. rewrite GC, HE.
    by rewrite (proj2 (Qle_bool_iff _ _) HT).
  - intros other t HN. unfold resolve_key, lookup_key, is_expired, cred_of. rewrite E. cbn [_by_digest _credential].
    destruct (String.eqb other ""); [done|]. by rewrite !dget_dset_ne by congruence.
Qed.

(** Revocation removes one key and takes effect at once: the secret of the
    key it removes no longer resolves, every other secret resolves as before,
    and it reports failure exactly when no key carries the label.  Labels are not
    unique: of two keys enrolled under one label, one is still registered after
    the revocation. *)
Theorem revoke_removes_first_labelled k label ok k' :
  keys_reachable k -> revoke label k = (ok, k') ->
  (ok = false <-> forall d p, dget (_by_digest k) d = Some p -> key_id p <> Some label)
  /\ (ok = true -> exists d p, dget (_by_digest k) d = Some p /\ key_id p = Some label
       /\ (forall secret now, _digest secret = d -> resolve_key k' secret now = None)
       /\ (forall secret now, _digest secret <> d -> resolve_key k' secret now = resolve_key k secret now))
  /\ (forall d1 d2 p1 p2, d1 <> d2 ->
        dget (_by_digest k) d1 = Some p1 -> dget (_by_digest k) d2 = Some p2 ->
        key_id p1 = Some label -> key_id p2 = Some label ->
        exists d p, dget (_by_digest k') d = Some p /\ key_id p = Some label).
Proof.
  intros HK%keys_reachable_inv. unfold revoke. destruct (digest_labelled k label) as [d|] eqn:L.
  - intros [= <- <-]. apply digest_labelled_Some in L as (p & I & KI).
    pose proof (elem_dget _ _ _ (ki_wf _ HK) I) as G. split; [|split].
    + split; [done|]. intros N. by destruct (N d p G).
    + intros _. exists d, p. split_and!; try done.
      * intros secret now <-. apply lookup_key_absent. cbn [_by_digest].
        by rewrite dget_ddel, decide_True by (done || apply HK).
      * intros secret now N. unfold resolve_key, lookup_key, is_expired, cred_of. cbn [_by_digest _credential].
        destruct (String.eqb secret ""); [done|].
        by rewrite !dget_ddel, !decide_False by (congruence || apply HK).
    + intros d1 d2 p1 p2 N G1 G2 K1 K2. cbn [_by_digest]. destruct (decide (d = d1)) as [<-|Nd].
      * exists d2, p2. by rewrite dget_ddel, decide_False by (congruence || apply HK).
      * exists d1, p1. by rewrite dget_ddel, decide_False by (congruence || apply HK).
  - intros [= <- <-]. split; [|split; [done|eauto]]. split; [|done]. intros _ d p G KI.
    unfold digest_labelled in L. apply fmap_None in L.
    pose proof (find_none _ _ L (d, p)) as F. cbn in F. rewrite bool_decide_true in F by done.
    by discriminate F; apply list_elem_of_In, dget_elem.
Qed.

(** ** Instances *)

Definition ops_key (secret : string) (push adm : bool) : KeySpec :=
  mkKeySpec "ops" (Some secret) None P2_POST_TURN true None adm false push (Some 100%Q) [] ["chat"] (Some "ops") "file" false.

Definition sample_keys : KeyRegistry :=
  (register_key (ops_key "s2" true false) 0 (register_key (ops_key "s1" false true) 0 KeyRegistry_init).2).2.

Definition sample_resolver : IdentityResolver :=
  mkResolver IPIdentityMap_init sample_keys [net_docker] (BearerPlaceholders_init ["EMPTY"]) false.

(** A request with an [Authorization] value and a forwarding header. *)
Definition sample_request (auth xff peer method : string) : Request :=
  mkRequest (fun h => dget [("Authorization", auth); ("X-Forwarded-For", xff); ("Content-Type", "application/json")] h)
    (Some peer) (Some method).

Lemma sample_keys_reachable : keys_reachable sample_keys.
Proof. apply keys_register, keys_register, keys_start. Qed.

(** Two keys under one label can be enrolled. *)
Example two_keys_one_label :
  bool_decide (length (_by_digest sample_keys) = 2%nat) && bool_decide (Forall (fun dp => key_id dp.2 = Some "ops") (_by_digest sample_keys)) = true.
Proof. by vm_compute. Qed.

Lemma presented_key_decides_witness :
  let r := sample_request "Bearer s1" "" "127.0.0.1" "GET" in
  registry_decides sample_resolver (effective_key sample_resolver r)
  /\ (forall d, resolution sample_resolver r 200 = Denied d -> status d = 401%Z).
Proof.
  intros r.
  assert (D : registry_decides sample_resolver (effective_key sample_resolver r)).
  { apply registry_decides_bool. vm_compute. reflexivity. }
  split; [exact D|]. intros d E.
  destruct (presented_key_decides sample_resolver r 200 (mkPrincipal "x" P0_REALTIME false None false false false "ip" None []) D)
    as [_ X].
  by destruct (X d E).
Defined.

Lemma address_confers_no_scope_witness :
  let r := sample_request "Bearer EMPTY" "" "127.0.0.1" "GET" in
  ~ registry_decides sample_resolver (effective_key sample_resolver r)
  /\ exists p, resolution sample_resolver r 0 = Granted p /\ admin p = false.
Proof.
  intros r.
  assert (D : ~ registry_decides sample_resolver (effective_key sample_resolver r)).
  { rewrite registry_decides_bool. vm_compute. discriminate. }
  split; [exact D|]. destruct (resolution sample_resolver r 0) as [p|d] eqn:E; [|by vm_compute in E].
  exists p. split; [done|]. apply (address_confers_no_scope sample_resolver r 0 p D E).
Defined.

Lemma ingest_scope_confined_witness :
  let r := sample_request "Bearer s2" "" "127.0.0.1" "POST" in
  keys_reachable (keys sample_resolver) /\ admin_denial sample_resolver r 0 <> None.
Proof.
  intros r. split; [exact sample_keys_reachable|].
  eapply (ingest_scope_confined sample_resolver r 0);
    [exact sample_keys_reachable|vm_compute; reflexivity|vm_compute; reflexivity].
Defined.

Lemma forged_hops_ignored_witness :
  let r := sample_request "" "127.0.0.1, 198.51.100.7, 172.17.0.3" "172.17.0.2" "GET" in
  let r' := sample_request "" " 198.51.100.7, 172.17.0.3" "172.17.0.2" "GET" in
  client_address r [net_docker] = client_address r' [net_docker]
  /\ client_address r' [net_docker] = mkCA "198.51.100.7" true.
Proof.
  intros r r'. split; [|vm_compute; reflexivity].
  apply (forged_hops_ignored [net_docker] r r' ["127.0.0.1"] [" 198.51.100.7"; " 172.17.0.3"]);
    [reflexivity|vm_compute; reflexivity|vm_compute; reflexivity|vm_compute; lia|vm_compute; reflexivity].
Defined.

Lemma enrolled_key_resolves_witness :
  exists k', register_key (ops_key "s1" false true) 0 KeyRegistry_init = (Some "ops", k')
    /\ resolve_key k' "s1" 100 = None.
Proof.
  destruct (register_key (ops_key "s1" false true) 0 KeyRegistry_init) as [o k'] eqn:E.
  assert (O : o = Some "ops").
  { assert (X : (register_key (ops_key "s1" false true) 0 KeyRegistry_init).1 = Some "ops") by (vm_compute; reflexivity).
    rewrite E in X. exact X. }
  subst o. exists k'. split; [reflexivity|].
  destruct (enrolled_key_resolves (ops_key "s1" false true) 0 KeyRegistry_init "s1" "ops" k' eq_refl ltac:(discriminate) E)
    as (_ & X & _).
  apply (X 100%Q); [reflexivity|apply Qle_refl].
Defined.

Lemma revoke_removes_first_labelled_witness :
  keys_reachable sample_keys
  /\ exists k', revoke "ops" sample_keys = (true, k')
     /\ exists d p, dget (_by_digest sample_keys) d = Some p /\ key_id p = Some "ops".
Proof.
  split; [exact sample_keys_reachable|].
  destruct (revoke "ops" sample_keys) as [ok k'] eqn:E.
  assert (O : ok = true).
  { assert (X : (revoke "ops" sample_keys).1 = true) by (vm_compute; reflexivity). rewrite E in X. exact X. }
  subst ok. exists k'. split; [reflexivity|].
  destruct (revoke_removes_first_labelled sample_keys "ops" true k' sample_keys_reachable E) as (_ & X & _).
  destruct (X eq_refl) as (d & p & G & K & _). exists d, p. split; assumption.
Defined.
