(* ===== verification/JsonRead.v ===== *)
(** * Reading JSON text (the [json] decoder)

    [raw_decode] parses one value at the very start of a text and returns what
    follows it; [loads] allows blanks around one value and nothing else.  The
    parser is written with consuming combinators; [stable] says that a parser's
    answer depends only on what it consumed, so text after a value cannot change
    it.  The text printed for a float literal is a parameter; the literals NaN
    and Infinity, and escapes beyond Latin-1, are outside the model and do not
    parse. *)

From Stdlib Require Import Ascii Lia ZArith QArith.
From stdpp Require Import base list strings.
From S2P Require Import Prelude PyDict PyText IpAddr Json.

Local Open Scope string_scope.

(** ** Parsers *)

Definition parser (A : Type) : Type := string -> option (A * string).

Definition p_ret {A} (a : A) : parser A := fun s => Some (a, s).
Definition p_fail {A} : parser A := fun _ => None.
Definition p_bind {A B} (p : parser A) (f : A -> parser B) : parser B := fun s =>
  match p s with
  | Some (a, s') => f a s'
  | None => None
  end.

(** The next character, consumed. *)
Definition p_next : parser ascii := fun s =>
  match s with
  | "" => None
  | String c s' => Some (c, s')
  end.

Definition is_json_space (c : ascii) : bool :=
  let n := ord c in ((n =? 32) || (n =? 9) || (n =? 10) || (n =? 13))%Z.

Fixpoint skip_ws (s : string) : string :=
  match s with
  | String c s' => if is_json_space c then skip_ws s' else s
  | "" => ""
  end.

Definition p_ws : parser unit := fun s => Some (tt, skip_ws s).

(** A fixed text. *)
Fixpoint p_lit (w : string) : parser unit := fun s =>
  match w with
  | "" => Some (tt, s)
  | String a w' =>
      match s with
      | String b s' => if Ascii.eqb a b then p_lit w' s' else None
      | "" => None
      end
  end.

(** ** Strings *)

Definition simple_escape (c : ascii) : option ascii :=
  if Ascii.eqb c dquote then Some dquote
  else if Ascii.eqb c "\" then Some "\"%char
  else if Ascii.eqb c "/" then Some "/"%char
  else if Ascii.eqb c "b" then Some "008"%char
  else if Ascii.eqb c "f" then Some "012"%char
  else if Ascii.eqb c "n" then Some "010"%char
  else if Ascii.eqb c "r" then Some "013"%char
  else if Ascii.eqb c "t" then Some "009"%char
  else None.

Definition hex4 (a b c d : ascii) : option Z :=
  match hex_value a, hex_value b, hex_value c, hex_value d with
  | Some w, Some x, Some y, Some z => Some (((w * 16 + x) * 16 + y) * 16 + z)%Z
  | _, _, _, _ => None
  end.

(** The rest of a string literal, after its opening quote. *)
Fixpoint p_string (s : string) : option (string * string) :=
  match s with
  | "" => None
  | String c t =>
      if Ascii.eqb c dquote then Some ("", t)
      else if Ascii.eqb c "\" then
        match t with
        | "" => None
        | String e t1 =>
            if Ascii.eqb e "u" then
              match t1 with
              | String h1 (String h2 (String h3 (String h4 t2))) =>
                  match hex4 h1 h2 h3 h4 with
                  | Some n => if (n <? 256)%Z then
                                match p_string t2 with
                                | Some (w, r) => Some (String (ascii_of_N (Z.to_N n)) w, r)
                                | None => None
                                end
                              else None
                  | None => None
                  end
              | _ => None
              end
            else match simple_escape e with
                 | Some x => match p_string t1 with Some (w, r) => Some (String x w, r) | None => None end
                 | None => None
                 end
        end
      else if (ord c <? 32)%Z then None
      else match p_string t with Some (w, r) => Some (String c w, r) | None => None end
  end.

(** ** Numbers *)

Fixpoint p_digits (s : string) : string * string :=
  match s with
  | String c t => if is_digit c then let '(d, r) := p_digits t in (String c d, r) else ("", s)
  | "" => ("", "")
  end.

(** The optional fraction and exponent; empty when absent. *)
Definition p_frac (s : string) : string * string :=
  match s with
  | String c (String d t) =>
      if (Ascii.eqb c "." && is_digit d)%bool
      then let '(ds, r) := p_digits t in (String c (String d ds), r) else ("", s)
  | _ => ("", s)
  end.

Definition is_exp (c : ascii) : bool := (Ascii.eqb c "e" || Ascii.eqb c "E")%bool.
Definition is_sign (c : ascii) : bool := (Ascii.eqb c "+" || Ascii.eqb c "-")%bool.

Definition p_exp (s : string) : string * string :=
  match s with
  | String e (String d t) =>
      if (is_exp e && is_digit d)%bool then let '(ds, r) := p_digits t in (String e (String d ds), r)
      else match t with
           | String d' t' =>
               if (is_exp e && is_sign d && is_digit d')%bool
               then let '(ds, r) := p_digits t' in (String e (String d (String d' ds)), r) else ("", s)
           | "" => ("", s)
           end
  | _ => ("", s)
  end.

Section Read.
Context (float_text : string -> string).

(** The value of a number literal: sign, integer digits, fraction, exponent. *)
Definition number (neg : bool) (ip fr ex : string) : option json :=
  let lit := (if neg then "-" else "") ++ ip ++ fr ++ ex in
  if (String.eqb fr "" && String.eqb ex "")%bool
  then Some (JInt (let n := (span_digits ip 0).1 in if neg then (- n)%Z else n))
  else match float_of_str lit with
       | Ret q => Some (JFloat (float_text lit) q)
       | Raise _ => None
       end.

(** The rest of a number whose first digit is [c]. *)
Definition p_number (neg : bool) (c : ascii) : parser json := fun s =>
  let '(ds, s1) := if Ascii.eqb c "0" then ("", s) else p_digits s in
  let '(fr, s2) := p_frac s1 in
  let '(ex, s3) := p_exp s2 in
  match number neg (String c ds) fr ex with
  | Some j => Some (j, s3)
  | None => None
  end.

(** ** Values

    [n] bounds the nesting of calls; each call consumes a character or is
    followed by one that does, so [2 * length + 2] is enough ([raw_decode]). *)
Fixpoint p_value (n : nat) (c : ascii) {struct n} : parser json :=
  match n with
  | O => p_fail
  | S n' =>
      if Ascii.eqb c dquote then p_bind p_string (fun w => p_ret (JStr w))
      else if Ascii.eqb c "{" then
        p_bind p_ws (fun _ => p_bind p_next (fun d =>
          if Ascii.eqb d "}" then p_ret (JDict []) else p_members n' [] d))
      else if Ascii.eqb c "[" then
        p_bind p_ws (fun _ => p_bind p_next (fun d =>
          if Ascii.eqb d "]" then p_ret (JList []) else p_elems n' [] d))
      else if Ascii.eqb c "n" then p_bind (p_lit "ull") (fun _ => p_ret JNull)
      else if Ascii.eqb c "t" then p_bind (p_lit "rue") (fun _ => p_ret (JBool true))
      else if Ascii.eqb c "f" then p_bind (p_lit "alse") (fun _ => p_ret (JBool false))
      else if Ascii.eqb c "-" then
        p_bind p_next (fun d => if is_digit d then p_number true d else p_fail)
      else if is_digit c then p_number false c
      else p_fail
  end
(** The members of an object, from the quote [c] of a key; [acc] holds those
    before, a repeated key keeping its place and taking the last value. *)
with p_members (n : nat) (acc : dict string json) (c : ascii) {struct n} : parser json :=
  match n with
  | O => p_fail
  | S n' =>
      if Ascii.eqb c dquote then
        p_bind p_string (fun k => p_bind p_ws (fun _ => p_bind p_next (fun d =>
          if Ascii.eqb d ":" then
            p_bind p_ws (fun _ => p_bind p_next (fun e => p_bind (p_value n' e) (fun v =>
              let acc := dset acc k v in
              p_bind p_ws (fun _ => p_bind p_next (fun f =>
                if Ascii.eqb f "}" then p_ret (JDict acc)
                else if Ascii.eqb f "," then
                  p_bind p_ws (fun _ => p_bind p_next (fun g => p_members n' acc g))
                else p_fail)))))
          else p_fail)))
      else p_fail
  end
with p_elems (n : nat) (acc : list json) (c : ascii) {struct n} : parser json :=
  match n with
  | O => p_fail
  | S n' =>
      p_bind (p_value n' c) (fun v =>
        let acc := (acc ++ [v])%list in
        p_bind p_ws (fun _ => p_bind p_next (fun f =>
          if Ascii.eqb f "]" then p_ret (JList acc)
          else if Ascii.eqb f "," then
            p_bind p_ws (fun _ => p_bind p_next (fun g => p_elems n' acc g))
          else p_fail)))
  end.

Definition read_fuel (s : string) : nat := 2 * String.length s + 2.

(** [json.JSONDecoder().raw_decode(s)]: the value and the text after it. *)
Definition raw_decode (s : string) : option (json * string) :=
  p_bind p_next (fun c => p_value (read_fuel s) c) s.

(** [json.loads(s)] *)
Definition loads (s : string) : option json :=
  match raw_decode (skip_ws s) with
  | Some (j, rest) => if String.eqb (skip_ws rest) "" then Some j else None
  | None => None
  end.
End Read.

Definition q1 : string := String dquote "".

Example loads_example :
  loads id (" {" ++ q1 ++ "a" ++ q1 ++ ": [1, -2, true, null, {}], " ++ q1 ++ "b\n" ++ q1 ++ " :" ++ q1 ++ "\u00e9\" ++ q1 ++ q1 ++ "} ")
  = Some (JDict [("a", JList [JInt 1; JInt (-2); JBool true; JNull; JDict []]);
                 ("b" ++ String "010" "", JStr (String "233" q1))]).
Proof. vm_compute. reflexivity. Qed.

Example raw_decode_examples :
  raw_decode id "{}}" = Some (JDict [], "}") /\ raw_decode id " {}" = None /\ raw_decode id "01" = Some (JInt 0, "1")
  /\ raw_decode id "[1,]" = None /\ raw_decode id "1.e3" = Some (JInt 1, ".e3") /\ raw_decode id "-" = None
  /\ raw_decode id "1e2]" = Some (JFloat "1e2" 100, "]").
Proof. repeat split; vm_compute; reflexivity. Qed.

(** ** What a parser consumed decides its answer *)

(** [p] consumes a prefix of its input, and cutting the input anywhere after
    that prefix changes neither the value nor what was consumed. *)
Definition stable {A} (p : parser A) : Prop :=
  forall s a rest, p s = Some (a, rest) ->
  exists used, s = used ++ rest
    /\ forall mid r0, rest = mid ++ r0 -> p (used ++ mid) = Some (a, mid).

(** [p] consumes at least [n] characters. *)
Definition consumes {A} (n : nat) (p : parser A) : Prop :=
  forall s a rest, p s = Some (a, rest) -> (n + String.length rest <= String.length s)%nat.

Lemma stable_ret {A} (a : A) : stable (p_ret a).
Proof. intros s b rest [= <- <-]. exists "". split; [done|]. by intros mid r0 _. Qed.

Lemma stable_fail {A} : stable (@p_fail A).
Proof. intros s a rest [=]. Qed.

Lemma stable_bind {A B} (p : parser A) (f : A -> parser B) :
  stable p -> (forall a, stable (f a)) -> stable (p_bind p f).
Proof.
  intros Hp Hf s b rest. unfold p_bind. destruct (p s) as [[a s1]|] eqn:E; [|done]. intros F.
  destruct (Hp _ _ _ E) as (u1 & -> & T1). destruct (Hf a _ _ _ F) as (u2 & -> & T2).
  exists (u1 ++ u2). split; [by rewrite sapp_assoc|]. intros mid r0 Hr.
  rewrite sapp_assoc. rewrite (T1 (u2 ++ mid) r0) by (by rewrite Hr, sapp_assoc). by eapply T2.
Qed.

Lemma stable_next : stable p_next.
Proof.
  intros [|c s] a rest; [done|]. intros [= <- <-]. exists (String c ""). split; [done|]. by intros mid r0 ->.
Qed.

Lemma stable_if {A} (b : bool) (p q : parser A) : stable p -> stable q -> stable (if b then p else q).
Proof. by destruct b. Qed.

Lemma stable_lit w : stable (p_lit w).
Proof.
  intros s [] rest. revert s. induction w as [|a w IH]; intros s; simpl.
  - intros [= <-]. exists "". split; [done|]. by intros mid r0 _.
  - destruct s as [|b s]; [done|]. destruct (Ascii.eqb_spec a b) as [<-|]; [|done]. intros F.
    destruct (IH _ F) as (u & -> & T). exists (String a u). split; [done|].
    intros mid r0 Hr. simpl. rewrite Ascii.eqb_refl. by eapply T.
Qed.

Lemma stable_ws : stable p_ws.
Proof.
  intros s [] rest [= <-]. induction s as [|c s (u & E & T)]; simpl.
  - exists "". split; [done|]. intros [|c mid] r0; done.
  - destruct (is_json_space c) eqn:EC.
    + exists (String c u). split; [simpl; by rewrite <- E|]. intros mid r0 Hr.
      unfold p_ws in *. simpl. rewrite EC. by eapply T.
    + exists "". split; [done|]. intros mid r0 Hr. unfold p_ws. destruct mid as [|d mid]; [done|].
      simpl in *. injection Hr as <- _. by rewrite EC.
Qed.

(** A string literal is decided by its own characters. *)
Lemma p_string_spec s w rest :
  p_string s = Some (w, rest) ->
  exists used, s = used ++ rest /\ used <> "" /\ forall x, p_string (used ++ x) = Some (w, x).
Proof.
  remember (String.length s) as n eqn:Hn. revert s w Hn.
  induction n as [n IH] using lt_wf_ind. intros s w Hn H. subst n.
  destruct s as [|c t]; [done|]. simpl in H.
  destruct (Ascii.eqb_spec c dquote) as [->|N1].
  { injection H as <- <-. exists q1. split; [done|]. split; [done|]. done. }
  apply Ascii.eqb_neq in N1.
  assert (STEP : forall (pre : string) t' x w', p_string t' = Some (w', rest) ->
    String c t = pre ++ t' -> pre <> "" -> w = String x w' ->
    (forall y, p_string (pre ++ y) = match p_string y with Some (v, r) => Some (String x v, r) | None => None end) ->
    exists used, String c t = used ++ rest /\ used <> "" /\ forall y, p_string (used ++ y) = Some (w, y)).
  { intros pre t' x w' HP E Hne -> HS.
    destruct (IH (String.length t')) with (s := t') (w := w') as (u & -> & _ & T); [|done|done|].
    - rewrite E, slength_app. destruct pre; [done|]. simpl. lia.
    - exists (pre ++ u). split; [by rewrite E, sapp_assoc|]. split; [by destruct pre|].
      intros y. by rewrite sapp_assoc, HS, T. }
  destruct (Ascii.eqb_spec c "\") as [->|N2].
  - destruct t as [|e t1]; [done|]. destruct (Ascii.eqb e "u") eqn:EU.
    + destruct t1 as [|h1 [|h2 [|h3 [|h4 t2]]]]; try done.
      destruct (hex4 h1 h2 h3 h4) as [k|] eqn:EH; [|done]. destruct (k <? 256)%Z eqn:EK; [|done].
      destruct (p_string t2) as [[w' r]|] eqn:EP; [|done]. injection H as <- <-.
      apply (STEP (String "\" (String e (String h1 (String h2 (String h3 (String h4 "")))))) t2 (ascii_of_N (Z.to_N k)) w' EP); try done.
      intros y. simpl. by rewrite EU, EH, EK.
    + destruct (simple_escape e) as [x|] eqn:ES; [|done].
      destruct (p_string t1) as [[w' r]|] eqn:EP; [|done]. injection H as <- <-.
      apply (STEP (String "\" (String e "")) t1 x w' EP); try done.
      intros y. simpl. by rewrite EU, ES.
  - apply Ascii.eqb_neq in N2. destruct (ord c <? 32)%Z eqn:EO; [done|].
    destruct (p_string t) as [[w' r]|] eqn:EP; [|done]. injection H as <- <-.
    apply (STEP (String c "") t c w' EP); try done.
    intros y. cbn [String.append p_string]. by rewrite N1, N2, EO.
Qed.

Lemma stable_string : stable p_string.
Proof.
  intros s w rest H. destruct (p_string_spec s w rest H) as (u & E & _ & T). exists u.
  split; [done|]. intros mid r0 _. apply T.
Qed.

(** The same for the scanners that always succeed. *)
Definition tstable (f : string -> string * string) : Prop :=
  forall s, exists used, s = used ++ (f s).2
    /\ forall mid r0, (f s).2 = mid ++ r0 -> f (used ++ mid) = ((f s).1, mid).

Lemma tstable_digits : tstable p_digits.
Proof.
  intros s. induction s as [|c s (u & E & T)]; simpl.
  - exists "". split; [done|]. by intros [|] r0.
  - destruct (is_digit c) eqn:D.
    + destruct (p_digits s) as [d r] eqn:P. cbn [fst snd] in *. exists (String c u).
      split; [simpl; by rewrite <- E|]. intros mid r0 Hr. simpl. rewrite D. by rewrite (T mid r0 Hr).
    + exists "". split; [done|]. intros mid r0 Hr. destruct mid as [|x mid]; [done|].
      simpl in *. injection Hr as <- _. by rewrite D.
Qed.

(** A scan that consumed nothing consumes nothing of any prefix either. *)
Definition prefix_quiet (f : string -> string * string) : Prop :=
  forall mid r0, f (mid ++ r0) = ("", mid ++ r0) -> f mid = ("", mid).

Lemma prefix_quiet_frac : prefix_quiet p_frac.
Proof.
  intros [|c [|d mid]] r0; try done. simpl.
  destruct (_ && _)%bool; [|done]. by destruct (p_digits (mid ++ r0)).
Qed.

Lemma prefix_quiet_exp : prefix_quiet p_exp.
Proof.
  intros [|e [|d mid]] r0; try done. simpl. destruct (is_exp e && is_digit d)%bool.
  - by destruct (p_digits (mid ++ r0)).
  - destruct mid as [|d' mid]; simpl; [done|].
    destruct (_ && _)%bool; [|done]. by destruct (p_digits (mid ++ r0)).
Qed.

Lemma tstable_frac : tstable p_frac.
Proof.
  intros s. assert (Q : p_frac s = ("", s) -> exists used, s = used ++ (p_frac s).2
    /\ forall mid r0, (p_frac s).2 = mid ++ r0 -> p_frac (used ++ mid) = ((p_frac s).1, mid)).
  { intros E. exists "". rewrite E. split; [done|]. cbn [snd fst]. intros mid r0 ->.
    by eapply prefix_quiet_frac. }
  destruct s as [|c [|d t]]; try by apply Q. simpl in *.
  destruct (Ascii.eqb c "." && is_digit d)%bool eqn:B; [|by apply Q].
  destruct (tstable_digits t) as (u & E & T). destruct (p_digits t) as [ds r]. cbn [fst snd] in *.
  exists (String c (String d u)). split; [simpl; by rewrite E|]. intros mid r0 Hr. simpl. rewrite B.
  by rewrite (T mid r0 Hr).
Qed.

Lemma tstable_exp : tstable p_exp.
Proof.
  intros s. assert (Q : p_exp s = ("", s) -> exists used, s = used ++ (p_exp s).2
    /\ forall mid r0, (p_exp s).2 = mid ++ r0 -> p_exp (used ++ mid) = ((p_exp s).1, mid)).
  { intros E. exists "". rewrite E. split; [done|]. cbn [snd fst]. intros mid r0 ->.
    by eapply prefix_quiet_exp. }
  destruct s as [|e [|d t]]; try by apply Q. simpl in *.
  destruct (is_exp e && is_digit d)%bool eqn:B.
  - destruct (tstable_digits t) as (u & E & T). destruct (p_digits t) as [ds r]. cbn [fst snd] in *.
    exists (String e (String d u)). split; [simpl; by rewrite E|]. intros mid r0 Hr. simpl. rewrite B.
    by rewrite (T mid r0 Hr).
  - destruct t as [|d' t]; [by apply Q|].
    destruct (is_exp e && is_sign d && is_digit d')%bool eqn:B'; [|by apply Q].
    destruct (tstable_digits t) as (u & E & T). destruct (p_digits t) as [ds r]. cbn [fst snd] in *.
    exists (String e (String d (String d' u))). split; [simpl; by rewrite E|]. intros mid r0 Hr. simpl.
    rewrite B, B'. by rewrite (T mid r0 Hr).
Qed.

Ltac p_solve :=
  repeat first [ apply stable_ret | apply stable_fail | apply stable_next | apply stable_ws
               | apply stable_string | apply stable_lit | apply stable_bind
               | match goal with |- stable (if _ then _ else _) => apply stable_if end
               | match goal with |- forall _, _ => intro end ].

Section ReadProofs.
Context (float_text : string -> string).

Lemma stable_number neg c : stable (p_number float_text neg c).
Proof.
  intros s j rest H. unfold p_number in H.
  assert (TD : tstable (fun s => if Ascii.eqb c "0" then ("", s) else p_digits s)).
  { destruct (Ascii.eqb c "0"); [|apply tstable_digits]. intros x. exists "". split; [done|]. by intros mid r0 _. }
  destruct (TD s) as (u1 & E1 & T1).
  destruct (if Ascii.eqb c "0" then ("", s) else p_digits s) as [ds s1] eqn:P1. cbn [fst snd] in *.
  destruct (tstable_frac s1) as (u2 & E2 & T2). destruct (p_frac s1) as [fr s2] eqn:P2. cbn [fst snd] in *.
  destruct (tstable_exp s2) as (u3 & E3 & T3). destruct (p_exp s2) as [ex s3] eqn:P3. cbn [fst snd] in *.
  destruct (number float_text neg (String c ds) fr ex) as [j'|] eqn:EN; [|done]. injection H as <- <-.
  exists (u1 ++ u2 ++ u3). split; [by rewrite E1, E2, E3, !sapp_assoc|].
  intros mid r0 Hr. unfold p_number. rewrite !sapp_assoc.
  rewrite (T1 (u2 ++ u3 ++ mid) r0) by (by rewrite E2, E3, Hr, !sapp_assoc).
  rewrite (T2 (u3 ++ mid) r0) by (by rewrite E3, Hr, !sapp_assoc).
  rewrite (T3 mid r0 Hr). by rewrite EN.
Qed.

Lemma stable_value_all n :
  (forall c, stable (p_value float_text n c))
  /\ (forall acc c, stable (p_members float_text n acc c))
  /\ (forall acc c, stable (p_elems float_text n acc c)).
Proof.
  induction n as [|n (IV & IM & IE)]; [by split_and!; intros; apply stable_fail|].
  split_and!; intros; cbn [p_value p_members p_elems]; cbv zeta; p_solve;
    first [ apply stable_number | apply IV | apply IM | apply IE ].
Qed.

(** ** The fuel is enough *)

Lemma stable_length {A} (p : parser A) s a rest :
  stable p -> p s = Some (a, rest) -> (String.length rest <= String.length s)%nat.
Proof. intros Hp H. destruct (Hp _ _ _ H) as (u & -> & _). rewrite slength_app. lia. Qed.

Lemma next_length s a rest : p_next s = Some (a, rest) -> (String.length s = S (String.length rest))%nat.
Proof. destruct s; [done|]. by intros [= <- <-]. Qed.

Lemma p_bind_ext {A B} (p : parser A) (f g : A -> parser B) s :
  (forall a rest, p s = Some (a, rest) -> f a rest = g a rest) -> p_bind p f s = p_bind p g s.
Proof. unfold p_bind. destruct (p s) as [[a r]|] eqn:E; [|done]. intros H. by apply H. Qed.

Lemma p_bind_ext2 {A B} (p q : parser A) (f g : A -> parser B) s :
  p s = q s -> (forall a rest, p s = Some (a, rest) -> f a rest = g a rest) -> p_bind p f s = p_bind q g s.
Proof. unfold p_bind. intros <-. destruct (p s) as [[a r]|] eqn:E; [|done]. intros H. by apply H. Qed.

Ltac fuel_step :=
  match goal with
  | |- p_bind (p_value _ _ _) _ _ = _ => apply p_bind_ext2; [|intros]
  | |- p_bind _ _ _ = _ => apply p_bind_ext; intros
  | |- (if ?b then _ else _) _ = _ => destruct b
  | |- ?x = ?x => reflexivity
  | H : p_next _ = Some _ |- _ => apply next_length in H
  | H : p_ws _ = Some _ |- _ => apply (stable_length _ _ _ _ stable_ws) in H
  | H : p_string _ = Some _ |- _ => apply (stable_length _ _ _ _ stable_string) in H
  | H : p_value _ ?n _ _ = Some _ |- _ => apply (stable_length _ _ _ _ (proj1 (stable_value_all n) _)) in H
  end.

Lemma fuel_enough_all n : forall m,
  (forall c s, 2 * String.length s + 1 <= n -> 2 * String.length s + 1 <= m ->
     p_value float_text n c s = p_value float_text m c s)%nat
  /\ (forall acc c s, 2 * String.length s + 2 <= n -> 2 * String.length s + 2 <= m ->
     p_members float_text n acc c s = p_members float_text m acc c s)%nat
  /\ (forall acc c s, 2 * String.length s + 2 <= n -> 2 * String.length s + 2 <= m ->
     p_elems float_text n acc c s = p_elems float_text m acc c s)%nat.
Proof.
  induction n as [|n IH]; intros m; [split_and!; intros; lia|].
  destruct m as [|m]; [split_and!; intros; lia|]. destruct (IH m) as (IV & IM & IE).
  split_and!; intros; cbn [p_value p_members p_elems]; cbv zeta; repeat fuel_step;
    first [apply IV | apply IM | apply IE]; lia.
Qed.

(** Any fuel from [read_fuel] on gives [raw_decode]'s answer. *)
Lemma raw_decode_fuel n s :
  (read_fuel s <= n)%nat -> p_bind p_next (fun c => p_value float_text n c) s = raw_decode float_text s.
Proof.
  intros Hn. unfold raw_decode. apply p_bind_ext. intros c rest Hc. apply next_length in Hc.
  unfold read_fuel in *. apply (fuel_enough_all n (2 * String.length s + 2)); lia.
Qed.

(** ** A complete value *)

(** The text a value was read from reads as that value wherever it stands, and
    alone with nothing left over. *)
Lemma raw_decode_split s v rest :
  raw_decode float_text s = Some (v, rest) ->
  exists used, s = used ++ rest /\ used <> "" /\ raw_decode float_text used = Some (v, "").
Proof.
  intros H. assert (ST : forall n, stable (p_bind p_next (fun c => p_value float_text n c))).
  { intros n. apply stable_bind; [apply stable_next|]. intros c. apply stable_value_all. }
  destruct (ST _ _ _ _ H) as (u & -> & T). exists u. specialize (T "" rest eq_refl).
  rewrite sapp_nil_r in T. split_and!; [done| |].
  - intros ->. done.
  - rewrite <- T. symmetry. apply raw_decode_fuel. unfold read_fuel. rewrite slength_app. lia.
Qed.

(** ** What is read is a well-formed value *)

Definition yields {A} (P : A -> Prop) (p : parser A) : Prop :=
  forall s a rest, p s = Some (a, rest) -> P a.

Lemma yields_bind {A B} (Q : A -> Prop) (P : B -> Prop) (p : parser A) f :
  yields Q p -> (forall a, Q a -> yields P (f a)) -> yields P (p_bind p f).
Proof.
  intros Hp Hf s b rest. unfold p_bind. destruct (p s) as [[a s']|] eqn:E; [|done].
  apply Hf. by eapply Hp.
Qed.

Lemma yields_skip {A B} (P : B -> Prop) (p : parser A) f :
  (forall a, yields P (f a)) -> yields P (p_bind p f).
Proof. intros Hf. eapply (yields_bind (fun _ : A => True)); [done|]. intros a _. apply Hf. Qed.

Lemma yields_ret {A} (P : A -> Prop) a : P a -> yields P (p_ret a).
Proof. intros H s b rest [= <- <-]. done. Qed.

Lemma yields_fail {A} (P : A -> Prop) : yields P p_fail.
Proof. intros s a rest [=]. Qed.

Lemma yields_number neg c : yields (fun j => jwf j = true) (p_number float_text neg c).
Proof.
  intros s j rest. unfold p_number. destruct (if Ascii.eqb c "0" then ("", s) else p_digits s) as [ds s1], (p_frac s1) as [fr s2], (p_exp s2) as [ex s3].
  unfold number. destruct (_ && _)%bool; [by intros [= <- <-]|].
  destruct (float_of_str _); [by intros [= <- <-]|done].
Qed.

Ltac y_step :=
  match goal with
  | |- yields _ (p_ret _) => apply yields_ret
  | |- yields _ p_fail => apply yields_fail
  | |- yields _ (p_bind (p_value _ _ _) _) => fail 1
  | |- yields _ (p_members _ _ _ _) => fail 1
  | |- yields _ (p_bind _ _) => apply yields_skip; intros ?
  | |- yields _ (if ?b then _ else _) => destruct b
  | |- yields _ (p_number _ _ _) => apply yields_number
  end.

Lemma yields_all n :
  (forall c, yields (fun j => jwf j = true) (p_value float_text n c))
  /\ (forall acc c, jwf (JDict acc) = true -> yields (fun j => jwf j = true) (p_members float_text n acc c))
  /\ (forall acc c, jwf (JList acc) = true -> yields (fun j => jwf j = true) (p_elems float_text n acc c)).
Proof.
  induction n as [|n (IV & IM & IE)]; [by split_and!; intros; apply yields_fail|].
  split_and!; intros; cbn [p_value p_members p_elems]; cbv zeta; repeat y_step; try done.
  - by apply IM.
  - by apply IE.
  - eapply yields_bind; [apply IV|]. intros v Hv. repeat y_step; [|apply IM]; by apply jwf_dset.
  - eapply yields_bind; [apply IV|]. intros v Hv.
    assert (W : jwf (JList (acc ++ [v])) = true) by (cbn [jwf] in *; by rewrite forallb_app, H; simpl; rewrite Hv).
    repeat y_step; [|apply IE]; done.
Qed.

(** Every dictionary of a value read has distinct keys. *)
Lemma loads_wf s j : loads float_text s = Some j -> jwf j = true.
Proof.
  unfold loads. destruct (raw_decode float_text (skip_ws s)) as [[v rest]|] eqn:E; [|done].
  destruct (String.eqb _ _); [|done]. intros [= <-].
  eapply (yields_skip (fun j => jwf j = true) p_next); [|exact E]. intros c. apply yields_all.
Qed.
End ReadProofs.
