(* ===== verification/JsonRound.v ===== *)
(** * JSON text read back

    [json.loads(json.dumps(j)) == j] for every value whose dictionaries have
    distinct keys and whose floats print as texts that read back as themselves.
    A chunk the proxy rebuilds is therefore read by the client as exactly the
    value the proxy built. *)

From Stdlib Require Import Ascii Lia ZArith QArith.
From stdpp Require Import base list strings.
From S2P Require Import Prelude PyDict PyText IpAddr Json JsonRead.

Local Open Scope string_scope.

(** ** Decimal digits *)

Lemma span_digits_app ds t acc :
  sforall is_digit ds = true -> span_digits (ds ++ t) acc = span_digits t (span_digits ds acc).1.
Proof.
  revert acc. induction ds as [|c ds IH]; intros acc; simpl; [done|]. rewrite andb_true_iff. intros [-> H].
  by apply IH.
Qed.

Lemma digit_char_spec d : (0 <= d < 10)%Z -> is_digit (digit_char d) = true /\ ord (digit_char d) = (48 + d)%Z.
Proof.
  intros H. assert (O : ord (digit_char d) = (48 + d)%Z).
  { unfold ord, digit_char. rewrite ascii_inj_N; lia. }
  split; [|done]. unfold is_digit. rewrite O. apply andb_true_iff. split; apply Z.leb_le; lia.
Qed.

(** The digits of [m]: no leading zero but for 0 itself. *)
Lemma digits_fuel_spec f m acc :
  (0 <= m < 10 ^ Z.of_nat f)%Z -> (0 < f)%nat ->
  exists c ds, digits_fuel f m acc = String c ds ++ acc /\ sforall is_digit (String c ds) = true
    /\ (span_digits (String c ds) 0).1 = m /\ (c = "0"%char -> ds = "" /\ m = 0%Z).
Proof.
  revert m acc. induction f as [|f IH]; intros m acc Hm Hf; [lia|]. cbn [digits_fuel].
  pose proof (Z.mod_pos_bound m 10 ltac:(lia)) as Hd.
  destruct (digit_char_spec _ Hd) as [D O].
  destruct (Z.ltb_spec m 10) as [Hs|Hs].
  - exists (digit_char (m mod 10)), "". rewrite Z.mod_small in * by lia. simpl. rewrite D. split_and!; try done.
    + cbn [span_digits fst]. rewrite O. lia.
    + intros E. split; [done|]. rewrite E in O. change (ord "0") with 48%Z in O. lia.
  - destruct f as [|f]; [simpl in Hm; lia|].
    pose proof (Z.div_mod m 10 ltac:(lia)) as DM.
    destruct (IH (m / 10)%Z (String (digit_char (m mod 10)) acc)) as (c & ds & E & S & V & Z0); [|lia|].
    { split; [apply Z.div_pos; lia|]. apply Z.div_lt_upper_bound; [lia|].
      rewrite (Nat2Z.inj_succ (S f)), Z.pow_succ_r in Hm by lia. lia. }
    exists c, (ds ++ String (digit_char (m mod 10)) ""). split_and!.
    + rewrite E. simpl. by rewrite sapp_assoc.
    + change (String c (ds ++ String (digit_char (m mod 10)) "")) with (String c ds ++ String (digit_char (m mod 10)) "").
      rewrite sforall_app, S. simpl. by rewrite D.
    + change (String c (ds ++ String (digit_char (m mod 10)) "")) with (String c ds ++ String (digit_char (m mod 10)) "").
      rewrite span_digits_app, V by done. cbn [span_digits]. rewrite D. cbn [fst]. rewrite O. lia.
    + intros H. destruct (Z0 H) as [_ ?]. pose proof (Z.div_le_mono 10 m 10 ltac:(lia) ltac:(lia)).
      change (10 / 10)%Z with 1%Z in *. lia.
Qed.

Lemma str_of_Z_spec n :
  exists c ds, str_of_Z n = (if (n <? 0)%Z then String "-" "" else "") ++ String c ds
    /\ sforall is_digit (String c ds) = true
    /\ (span_digits (String c ds) 0).1 = Z.abs n /\ (c = "0"%char -> ds = "").
Proof.
  unfold str_of_Z. destruct (digits_fuel_spec (S (Z.to_nat (Z.log2 (Z.abs n)))) (Z.abs n) "") as (c & ds & E & S & V & Z0).
  - split; [lia|]. rewrite Nat2Z.inj_succ, Z2Nat.id by apply Z.log2_nonneg.
    destruct (decide (n = 0%Z)) as [->|N]; [by vm_compute|].
    pose proof (Z.log2_spec (Z.abs n) ltac:(lia)) as [_ L]. eapply Z.lt_le_trans; [exact L|].
    apply Z.pow_le_mono_l. lia.
  - lia.
  - exists c, ds. rewrite E, sapp_nil_r. split_and!; try done; [by destruct (n <? 0)%Z|]. intros H. by destruct (Z0 H).
Qed.

(** ** What may follow a value *)

Definition value_end (t : string) : bool :=
  match t with
  | "" => true
  | String c _ => (Ascii.eqb c "," || Ascii.eqb c "]" || Ascii.eqb c "}")%bool
  end.

Lemma value_end_cases t :
  value_end t = true -> t = "" \/ exists c t', t = String c t' /\ (c = ","%char \/ c = "]"%char \/ c = "}"%char).
Proof.
  destruct t as [|c t]; [by left|]. simpl. rewrite !orb_true_iff, !Ascii.eqb_eq. intros H. right. exists c, t. tauto.
Qed.

Lemma p_digits_all ds t :
  sforall is_digit ds = true -> value_end t = true -> p_digits (ds ++ t) = (ds, t).
Proof.
  intros H E. induction ds as [|c ds IH]; simpl in *.
  - by apply value_end_cases in E as [->|(c & t' & -> & [->|[->| ->]])].
  - apply andb_true_iff in H as [-> H]. by rewrite (IH H).
Qed.

Lemma p_tail_quiet t : value_end t = true -> p_frac t = ("", t) /\ p_exp t = ("", t).
Proof.
  intros E. apply value_end_cases in E as [->|(c & t' & -> & [->|[->| ->]])]; [done|..]; destruct t' as [|d [|e t']]; done.
Qed.

Lemma p_string_escape c r :
  p_string (escape_char c ++ r) = match p_string r with Some (w, x) => Some (String c w, x) | None => None end.
Proof. destruct c as [[] [] [] [] [] [] [] []]; reflexivity. Qed.

Lemma p_string_quote s t : p_string (escape_str s ++ String dquote t) = Some (s, t).
Proof.
  induction s as [|c s IH]; [done|]. cbn [escape_str].
  change (escape_char c +:+ escape_str s) with (escape_char c ++ escape_str s).
  by rewrite sapp_assoc, p_string_escape, IH.
Qed.

(** ** Numbers followed by the end of a value *)

(** Text that may follow a value does not change a scan. *)
Definition extends (f : string -> string * string) : Prop :=
  forall s t, value_end t = true -> f (s ++ t) = ((f s).1, (f s).2 ++ t).

Lemma extends_digits : extends p_digits.
Proof.
  intros s t E. induction s as [|c s IH]; simpl.
  - by apply (p_digits_all "" t).
  - destruct (is_digit c); [|done]. rewrite IH. by destruct (p_digits s).
Qed.

Lemma extends_frac : extends p_frac.
Proof.
  intros [|c [|d s]] t E; simpl.
  - by destruct (p_tail_quiet t E) as [-> _].
  - apply value_end_cases in E as [->|(x & t' & -> & [->|[->| ->]])]; [done|..]; by rewrite andb_false_r.
  - destruct (_ && _)%bool; [|done]. rewrite extends_digits by done. by destruct (p_digits s).
Qed.

Lemma extends_exp : extends p_exp.
Proof.
  intros [|c [|d [|d' s]]] t E; simpl.
  - by destruct (p_tail_quiet t E) as [_ ->].
  - apply value_end_cases in E as [->|(x & t' & -> & [->|[->| ->]])]; [done|..]; rewrite andb_false_r;
      destruct t'; try done; by rewrite !andb_false_r.
  - destruct (_ && _)%bool.
    { by rewrite (extends_digits "" t E : p_digits t = _). }
    apply value_end_cases in E as [->|(x & t' & -> & [->|[->| ->]])]; [done|..]; by rewrite andb_false_r.
  - destruct (is_exp c && is_digit d)%bool.
    { destruct (is_digit d'); [|done]. rewrite extends_digits by done. by destruct (p_digits s). }
    destruct (_ && _)%bool; [|done]. rewrite extends_digits by done. by destruct (p_digits s).
Qed.

Section Round.
Context (float_text : string -> string).

Abbreviation p_value := (p_value float_text).

Lemma p_number_extends neg c s j t :
  value_end t = true -> p_number float_text neg c s = Some (j, "") -> p_number float_text neg c (s ++ t) = Some (j, t).
Proof.
  intros E. unfold p_number.
  assert (EX : extends (fun s => if Ascii.eqb c "0" then ("", s) else p_digits s)).
  { destruct (Ascii.eqb c "0"); [done|apply extends_digits]. }
  rewrite (EX s t E). destruct (if Ascii.eqb c "0" then ("", s) else p_digits s) as [ds s1]. cbn [fst snd].
  rewrite extends_frac by done. destruct (p_frac s1) as [fr s2]. cbn [fst snd].
  rewrite extends_exp by done. destruct (p_exp s2) as [ex s3]. cbn [fst snd].
  destruct (number _ _ _ _ _); [|done]. by intros [= -> ->].
Qed.

(** A number literal at the start of a text. *)
Definition read_number (s : string) : option (json * string) :=
  match s with
  | String c s' =>
      if Ascii.eqb c "-" then
        match s' with
        | String d s'' => if is_digit d then p_number float_text true d s'' else None
        | "" => None
        end
      else if is_digit c then p_number float_text false c s' else None
  | "" => None
  end.

Lemma read_number_value n s j t :
  value_end t = true -> read_number s = Some (j, "") ->
  exists c s', s ++ t = String c s' /\ is_json_space c = false /\ p_value (S n) c s' = Some (j, t).
Proof.
  intros E. destruct s as [|c s]; [done|]. simpl. destruct (Ascii.eqb_spec c "-") as [->|N].
  - destruct s as [|d s]; [done|]. destruct (is_digit d) eqn:D; [|done]. intros H. exists "-"%char, (String d (s ++ t)).
    split_and!; [done|done|]. cbn. unfold p_bind. simpl. rewrite D. by apply p_number_extends.
  - destruct (is_digit c) eqn:D; [|done]. intros H. exists c, (s ++ t).
    assert (forall x, p_value (S n) c x = p_number float_text false c x /\ is_json_space c = false) as P.
    { intros x. clear -D. destruct c as [[] [] [] [] [] [] [] []]; try discriminate D; done. }
    destruct (P (s ++ t)) as [PV ?]. split_and!; [done|done|].
    exact (eq_trans PV (p_number_extends _ _ _ _ _ E H)).
Qed.

Lemma read_int n : read_number (str_of_Z n) = Some (JInt n, "").
Proof.
  destruct (str_of_Z_spec n) as (c & ds & -> & S & V & Z0). pose proof S as S'. simpl in S'. apply andb_true_iff in S' as [D S'].
  assert (P : forall neg, p_number float_text neg c ds = Some (JInt (if neg then - Z.abs n else Z.abs n)%Z, "")).
  { intros neg. unfold p_number, number. destruct (Ascii.eqb_spec c "0") as [->|N].
    - rewrite (Z0 eq_refl) in *. cbn -[span_digits]. by rewrite V.
    - rewrite <- (sapp_nil_r ds) at 1. rewrite p_digits_all by done. cbn -[span_digits]. by rewrite V. }
  destruct (Z.ltb_spec n 0) as [L|L]; simpl.
  - rewrite D, P. do 3 f_equal. lia.
  - destruct (Ascii.eqb_spec c "-") as [->|_]; [done|]. rewrite D, P. do 3 f_equal. lia.
Qed.

(** ** Values *)

(** [txt] reads as [j] wherever a value may end after it. *)
Definition reads (j : json) (txt : string) : Prop :=
  forall t, value_end t = true ->
  exists c s, txt ++ t = String c s /\ is_json_space c = false
    /\ exists n0, forall n, (n0 <= n)%nat -> p_value n c s = Some (j, t).

Lemma reads_number j txt : read_number txt = Some (j, "") -> reads j txt.
Proof.
  intros H t E. destruct (read_number_value 0 txt j t E H) as (c & s & Hs & Hc & _). exists c, s. split_and!; [done..|].
  exists 1%nat. intros [|n] Hn; [lia|].
  destruct (read_number_value n txt j t E H) as (c' & s' & Hs' & _ & V). rewrite Hs in Hs'. by injection Hs' as <- <-.
Qed.

Lemma skip_ws_stop c s : is_json_space c = false -> skip_ws (String c s) = String c s.
Proof. intros H. simpl. by rewrite H. Qed.

(** A reading value is none of the closing brackets. *)
Lemma reads_head j txt t c s : reads j txt -> value_end t = true -> txt ++ t = String c s ->
  Ascii.eqb c "]" = false /\ is_json_space c = false /\ exists n0, forall n, (n0 <= n)%nat -> p_value n c s = Some (j, t).
Proof.
  intros R E H. destruct (R t E) as (c' & s' & H' & Hc & n0 & V). rewrite H in H'. injection H' as <- <-.
  split_and!; [|done|eauto]. destruct (Ascii.eqb_spec c "]") as [->|]; [|done]. by specialize (V (S n0) ltac:(lia)).
Qed.

Lemma run_ws {A} (f : unit -> parser A) s : p_bind p_ws f s = f tt (skip_ws s).
Proof. done. Qed.
Lemma run_next {A} (f : ascii -> parser A) c s : p_bind p_next f (String c s) = f c s.
Proof. done. Qed.
Lemma run_parser {A B} (p : parser A) (f : A -> parser B) s a s' : p s = Some (a, s') -> p_bind p f s = f a s'.
Proof. unfold p_bind. by intros ->. Qed.

(** The separators: [sp] says whether a blank follows the comma and the colon. *)
Context (sp : bool).

(** The escaping of a text, and that it reads back. *)
Context (esc : string -> string) (esc_reads : forall s t, p_string (esc s ++ String dquote t) = Some (s, t)).

Definition gap (s : string) : string := if sp then String " " s else s.
Definition isep : string := "," ++ gap "".
Definition ksep : string := ":" ++ gap "".

Lemma isep_app t : isep ++ t = String "," (gap t).
Proof. unfold isep, gap. by destruct sp. Qed.

Lemma ksep_app t : ksep ++ t = String ":" (gap t).
Proof. unfold ksep, gap. by destruct sp. Qed.

Lemma skip_gap c s : is_json_space c = false -> skip_ws (gap (String c s)) = String c s.
Proof. intros H. unfold gap. destruct sp; simpl; by rewrite H. Qed.

Lemma sep_concat_cons2 sep x y l : sep_concat sep (x :: y :: l) = x ++ sep ++ sep_concat sep (y :: l).
Proof. done. Qed.

Lemma reads_elems (l : list json) (f : json -> string) :
  Forall (fun j => reads j (f j)) l -> l <> [] ->
  forall acc t, exists c s, sep_concat isep (map f l) ++ "]" ++ t = String c s /\ is_json_space c = false
    /\ Ascii.eqb c "]" = false
    /\ exists n0, forall n, (n0 <= n)%nat -> p_elems float_text n acc c s = Some (JList (acc ++ l), t).
Proof.
  intros F. induction F as [|x l Hx F IH]; [done|]. intros _ acc t. destruct l as [|y l].
  - cbn [map sep_concat]. destruct (Hx ("]" ++ t) eq_refl) as (c & s & E & _).
    destruct (reads_head _ _ ("]" ++ t) _ _ Hx eq_refl E) as (HB & Hc & n0 & V).
    exists c, s. split_and!; try done. exists (S n0). intros [|n] Hn; [lia|]. cbn [p_elems].
    rewrite (run_parser _ _ _ _ _ (V n ltac:(lia))). done.
  - cbn [map]. rewrite sep_concat_cons2.
    destruct (IH ltac:(done) (acc ++ [x])%list t) as (c2 & s2 & E2 & Hc2 & _ & n2 & V2). cbn [map] in E2.
    destruct (Hx (String "," (gap (String c2 s2))) eq_refl) as (c & s & E & _).
    destruct (reads_head _ _ (String "," (gap (String c2 s2))) _ _ Hx eq_refl E) as (HB & Hc & n0 & V).
    exists c, s. split_and!; try done. { by rewrite !sapp_assoc, E2, isep_app, E. }
    exists (S (n0 `max` n2)). intros [|n] Hn; [lia|]. cbn [p_elems].
    rewrite (run_parser _ _ _ _ _ (V n ltac:(lia))). cbv zeta.
    rewrite run_ws. rewrite skip_ws_stop by done. rewrite run_next.
    change (Ascii.eqb "," "]") with false. change (Ascii.eqb "," ",") with true. cbv iota.
    rewrite run_ws. rewrite skip_gap by done. rewrite run_next, V2 by lia. by rewrite <- app_assoc.
Qed.

(** A member of an object: a quoted key, a colon and a value. *)
Definition member_text (k v : string) : string := quoted esc k ++ ksep ++ v.

Lemma member_text_app k v t : member_text k v ++ t = String dquote (esc k ++ String dquote (ksep ++ v ++ t)).
Proof. unfold member_text, quoted. cbn [String.append]. by rewrite !sapp_assoc. Qed.

(** The members loop up to the value of the first member. *)
Lemma members_value n acc k v f c s t :
  is_json_space c = false -> f ++ t = String c s -> p_value n c s = Some (v, t) ->
  p_members float_text (S n) acc dquote (esc k ++ String dquote (ksep ++ f ++ t))
  = p_bind p_ws (fun _ => p_bind p_next (fun e =>
      if Ascii.eqb e "}" then p_ret (JDict (dset acc k v))
      else if Ascii.eqb e "," then
        p_bind p_ws (fun _ => p_bind p_next (fun g => p_members float_text n (dset acc k v) g))
      else p_fail)) t.
Proof.
  intros Hc E V. cbn [p_members]. change (Ascii.eqb dquote dquote) with true. cbv iota.
  rewrite (run_parser _ _ _ _ _ (esc_reads k (ksep ++ f ++ t))). rewrite run_ws, ksep_app.
  rewrite skip_ws_stop by done. rewrite run_next. change (Ascii.eqb ":" ":") with true. cbv iota.
  rewrite run_ws, E. rewrite skip_gap by done. rewrite run_next. by rewrite (run_parser _ _ _ _ _ V).
Qed.

Lemma reads_members (d : list (string * json)) (f : json -> string) :
  Forall (fun kv => reads kv.2 (f kv.2)) d -> d <> [] ->
  forall (acc : dict string json) t, NoDup (dkeys (acc ++ d)%list) ->
  exists s, sep_concat isep (map (fun kv => member_text kv.1 (f kv.2)) d) ++ "}" ++ t = String dquote s
    /\ exists n0, forall n, (n0 <= n)%nat -> p_members float_text n acc dquote s = Some (JDict (acc ++ d)%list, t).
Proof.
  intros F. induction F as [|[k x] d Hx F IH]; [done|]. intros _ acc t ND. cbn [snd fst] in *.
  assert (NK : k ∉ dkeys acc).
  { unfold dkeys in *. rewrite map_app in ND. apply NoDup_app in ND as (_ & H & _). intros Hk. apply (H _ Hk). by left. }
  destruct d as [|[k2 y] d].
  - cbn [map sep_concat fst snd]. rewrite member_text_app.
    exists (esc k ++ String dquote (ksep ++ f x ++ "}" ++ t)). split; [done|].
    destruct (Hx ("}" ++ t) eq_refl) as (c & s & E & Hc & n0 & V).
    exists (S n0). intros [|n] Hn; [lia|]. rewrite (members_value n acc k x _ c s _ Hc E) by (apply V; lia).
    cbn. by rewrite dset_new by (by apply dget_None).
  - cbn [map]. rewrite sep_concat_cons2.
    assert (ND2 : NoDup (dkeys ((acc ++ [(k, x)]) ++ (k2, y) :: d)%list)) by (by rewrite <- app_assoc).
    destruct (IH ltac:(done) (acc ++ [(k, x)])%list t ND2) as (s2 & E2 & n2 & V2). cbn [map] in E2.
    rewrite !sapp_assoc, E2, member_text_app.
    exists (esc k ++ String dquote (ksep ++ f x ++ String "," (gap (String dquote s2)))). split; [by rewrite isep_app|].
    destruct (Hx (String "," (gap (String dquote s2))) eq_refl) as (c & s & E & Hc & n0 & V).
    exists (S (n0 `max` n2)). intros [|n] Hn; [lia|].
    rewrite (members_value n acc k x _ c s _ Hc E) by (apply V; lia).
    rewrite run_ws. rewrite skip_ws_stop by done. rewrite run_next.
    change (Ascii.eqb "," "}") with false. change (Ascii.eqb "," ",") with true. cbv iota.
    rewrite run_ws, skip_gap by done. rewrite run_next.
    rewrite dset_new, V2 by (lia || by apply dget_None). by rewrite <- app_assoc.
Qed.

(** Every float inside prints as a literal that reads back as that float. *)
Fixpoint floats_ok (j : json) : Prop :=
  match j with
  | JFloat r q => read_number r = Some (JFloat r q, "")
  | JList l => foldr (fun x P => floats_ok x /\ P) True l
  | JDict d => foldr (fun kv P => floats_ok kv.2 /\ P) True d
  | _ => True
  end.

Lemma floats_ok_list l : floats_ok (JList l) <-> Forall floats_ok l.
Proof. simpl. induction l as [|x l IH]; simpl; [done|]. rewrite IH, Forall_cons. done. Qed.

Lemma floats_ok_dict d : floats_ok (JDict d) <-> Forall (fun kv => floats_ok kv.2) d.
Proof. simpl. induction d as [|x d IH]; simpl; [done|]. rewrite IH, Forall_cons. done. Qed.

#[local] Abbreviation dumps := (write isep ksep esc).

Lemma dumps_dict d :
  dumps (JDict d) = "{" ++ sep_concat isep (map (fun kv => member_text kv.1 (dumps kv.2)) d) ++ "}".
Proof. done. Qed.

Lemma dumps_list l : dumps (JList l) = "[" ++ sep_concat isep (map dumps l) ++ "]".
Proof. done. Qed.

Lemma reads_list l : Forall (fun j => reads j (dumps j)) l -> reads (JList l) (dumps (JList l)).
Proof.
  intros F t E. rewrite dumps_list. cbn [String.append]. rewrite sapp_assoc. eexists _, _. split_and!; [done|done|].
  destruct (decide (l = [])) as [->|NE].
  - exists 1%nat. intros [|n] Hn; [lia|done].
  - destruct (reads_elems l dumps F NE [] t) as (c & s & -> & Hc & HB & n0 & V).
    exists (S n0). intros [|n] Hn; [lia|]. cbn [JsonRead.p_value].
    change (Ascii.eqb "[" dquote) with false. change (Ascii.eqb "[" "{") with false. change (Ascii.eqb "[" "[") with true.
    cbv iota. rewrite run_ws, skip_ws_stop by done. rewrite run_next, HB. by apply V; lia.
Qed.

(** An object ends by itself: any text may follow it. *)
Lemma reads_dict_any d t :
  NoDup (dkeys d) -> Forall (fun kv => reads kv.2 (dumps kv.2)) d ->
  exists c s, dumps (JDict d) ++ t = String c s /\ is_json_space c = false
    /\ exists n0, forall n, (n0 <= n)%nat -> p_value n c s = Some (JDict d, t).
Proof.
  intros ND F. rewrite dumps_dict. cbn [String.append]. rewrite sapp_assoc. eexists _, _. split_and!; [done|done|].
  destruct (decide (d = [])) as [->|NE].
  - exists 1%nat. intros [|n] Hn; [lia|done].
  - destruct (reads_members d dumps F NE [] t ND) as (s & -> & n0 & V).
    exists (S n0). intros [|n] Hn; [lia|]. cbn [JsonRead.p_value].
    change (Ascii.eqb "{" dquote) with false. change (Ascii.eqb "{" "{") with true.
    cbv iota. rewrite run_ws, skip_ws_stop by done. rewrite run_next. change (Ascii.eqb dquote "}") with false.
    by apply V; lia.
Qed.

Lemma reads_dict d :
  NoDup (dkeys d) -> Forall (fun kv => reads kv.2 (dumps kv.2)) d -> reads (JDict d) (dumps (JDict d)).
Proof. intros ND F t _. by apply reads_dict_any. Qed.

Lemma reads_dumps j : jwf j = true -> floats_ok j -> reads j (dumps j).
Proof.
  induction j as [|b|n|r q|s|l IH|d IH] using json_nested_ind; intros W FO.
  - intros t E. exists "n"%char, ("ull" ++ t). split_and!; [done|done|]. exists 1%nat. intros [|n] Hn; [lia|done].
  - intros t E. destruct b.
    + exists "t"%char, ("rue" ++ t). split_and!; [done|done|]. exists 1%nat. intros [|n] Hn; [lia|done].
    + exists "f"%char, ("alse" ++ t). split_and!; [done|done|]. exists 1%nat. intros [|n] Hn; [lia|done].
  - apply reads_number, read_int.
  - by apply reads_number.
  - intros t E. exists dquote, (esc s ++ String dquote t). split_and!; [|done|].
    + cbn. unfold quoted. cbn [String.append]. by rewrite sapp_assoc.
    + exists 1%nat. intros [|n] Hn; [lia|]. cbn [JsonRead.p_value]. change (Ascii.eqb dquote dquote) with true. cbv iota.
      by rewrite (run_parser _ _ _ _ _ (esc_reads s t)).
  - apply reads_list. apply floats_ok_list in FO. cbn [jwf] in W. rewrite forallb_forall in W.
    rewrite Forall_forall in IH, FO |- *. intros x Hx. apply IH; [done| |by apply FO].
    apply W. by apply list_elem_of_In.
  - apply floats_ok_dict in FO. apply jwf_dict_iff in W as [ND W]. apply reads_dict; [exact ND|].
    rewrite Forall_forall in IH, FO, W |- *. intros x Hx. apply IH; auto.
Qed.

(** An object is decoded out of any text it begins. *)
Lemma decodes_dict d t :
  jwf (JDict d) = true -> floats_ok (JDict d) -> raw_decode float_text (dumps (JDict d) ++ t) = Some (JDict d, t).
Proof.
  intros W FO. apply jwf_dict_iff in W as [ND W]. apply floats_ok_dict in FO.
  assert (F : Forall (fun kv => reads kv.2 (dumps kv.2)) d).
  { rewrite Forall_forall in FO, W |- *. intros x Hx. apply reads_dumps; auto. }
  destruct (reads_dict_any d t ND F) as (c & s & E & Hc & n0 & V). rewrite E.
  rewrite <- (raw_decode_fuel float_text (n0 `max` read_fuel (String c s))) by lia. by rewrite run_next, V by lia.
Qed.

(** What is written, [loads] reads as the same value. *)
Lemma loads_dumps_with j : jwf j = true -> floats_ok j -> loads float_text (dumps j) = Some j.
Proof.
  intros W FO. destruct (reads_dumps j W FO "" eq_refl) as (c & s & E & Hc & n0 & V). rewrite sapp_nil_r in E.
  unfold loads. rewrite E, skip_ws_stop by done.
  rewrite <- (raw_decode_fuel float_text (n0 `max` read_fuel (String c s))) by lia.
  rewrite run_next, V by lia. done.
Qed.
End Round.

(** The writer with the escaping of [ensure_ascii] is [dumps_with]. *)
Lemma dumps_with_write isep ksep j : dumps_with isep ksep false j = write isep ksep escape_str j.
Proof.
  induction j as [|b|n|r q|s|l IH|d IH] using json_nested_ind; try done.
  - cbn [dumps_with write]. do 2 f_equal. f_equal. induction IH as [|x l E IH' IH2]; [done|]. cbn [map]. by rewrite E, IH2.
  - cbn [dumps_with write sort_items]. do 2 f_equal. f_equal. rewrite map_map. cbn [fst snd].
    induction IH as [|x l E IH' IH2]; [done|]. cbn [map]. by rewrite E, IH2.
Qed.

Lemma p_string_raw_char c r :
  p_string (raw_char c ++ r) = match p_string r with Some (w, x) => Some (String c w, x) | None => None end.
Proof. destruct c as [[] [] [] [] [] [] [] []]; reflexivity. Qed.

Lemma p_string_raw s t : p_string (raw_str s ++ String dquote t) = Some (s, t).
Proof.
  induction s as [|c s IH]; [done|]. cbn [raw_str]. change (raw_char c +:+ raw_str s) with (raw_char c ++ raw_str s).
  by rewrite sapp_assoc, p_string_raw_char, IH.
Qed.

(** With the default separators, with [separators=(",", ":")], and without
    [ensure_ascii]. *)
Lemma loads_dumps float_text j : jwf j = true -> floats_ok float_text j -> loads float_text (dumps j) = Some j.
Proof. unfold dumps. rewrite dumps_with_write. exact (loads_dumps_with float_text true escape_str p_string_quote j). Qed.

Lemma loads_compact float_text j :
  jwf j = true -> floats_ok float_text j -> loads float_text (dumps_with "," ":" false j) = Some j.
Proof. rewrite dumps_with_write. exact (loads_dumps_with float_text false escape_str p_string_quote j). Qed.

Lemma loads_raw float_text j : jwf j = true -> floats_ok float_text j -> loads float_text (dumps_raw j) = Some j.
Proof. exact (loads_dumps_with float_text true raw_str p_string_raw j). Qed.

Lemma decodes_raw float_text d t :
  jwf (JDict d) = true -> floats_ok float_text (JDict d) -> raw_decode float_text (dumps_raw (JDict d) ++ t) = Some (JDict d, t).
Proof. exact (decodes_dict float_text true raw_str p_string_raw d t). Qed.
