(* ===== verification/ToolStream.v ===== *)
(** * Streamed tool calls (correction.py, [_ToolCallStreamSanitizer])

    A backend streams a tool call as fragments; a strict client opens the call
    at the first fragment and fails on a call that never gets a name or whose
    arguments are not one JSON value.  The sanitizer buffers each call in a slot
    and lets it out once, whole.  The module also holds the two judgements of
    finished calls that share its decoder, [has_cut_tool_call] and
    [tool_call_is_complete].

    A slot is referred to by its position in the table: slots are never
    removed, and a call queued for output shares its slot with the table, so a
    field set by a later fragment of the same chunk is seen in the output. *)

From Stdlib Require Import Ascii Lia ZArith QArith.
From stdpp Require Import base list strings.
From S2P Require Import Prelude PyDict PyText Json JsonRead.

Local Open Scope string_scope.

(** [a == b] where one side is hashable: numbers (bools included) by value;
    [None] and strings by identity of kind and value. *)
Definition py_eqb (a b : json) : bool :=
  match a, b with
  | JNull, JNull => true
  | JStr x, JStr y => String.eqb x y
  | _, _ => match py_number a, py_number b with
            | Some p, Some q => Qeq_bool p q
            | _, _ => false
            end
  end.

Definition hashable (j : json) : bool :=
  match j with
  | JList _ | JDict _ => false
  | _ => true
  end.

(** [x.get(k)] when it is a string. *)
Definition jstr (j : json) : option string :=
  match j with
  | JStr s => Some s
  | _ => None
  end.

Definition jdict (j : json) : option (dict string json) :=
  match j with
  | JDict d => Some d
  | _ => None
  end.

(** [x or y] on optional strings set once. *)
Definition first_set (old new : option string) : option string :=
  match old with
  | Some _ => old
  | None => new
  end.

Record Slot := mkSlot {
  sl_id : option string;
  sl_type : option string;
  sl_name : option string;
  sl_buf : string;
  sl_done : bool
}.

(** [(choice_index, tool_index) -> slot], in insertion order. *)
Abbreviation slots := (list (json * json * Slot)).

(** A call to put out on this chunk: index, slot, arguments. *)
Record Emit := mkEmit { em_idx : json; em_slot : nat; em_args : string }.

Definition new_slot : Slot := mkSlot None None None "" false.

Definition set_done (st : Slot) : Slot :=
  mkSlot (sl_id st) (sl_type st) (sl_name st) (sl_buf st) true.

Section ToolStream.
Context (float_text : string -> string).

(** [_complete_value(text)]: the text of the value at the start, if complete. *)
Definition _complete_value (text : string) : option string :=
  if String.eqb (strip text) "" then None
  else match raw_decode float_text text with
       | Some (_, rest) => Some (stake (String.length text - String.length rest) text)
       | None => None
       end.

Definition _pending (sl : slots) : bool := existsb (fun e => negb (sl_done e.2)) sl.

Fixpoint find_slot (sl : slots) (ci idx : json) : option nat :=
  match sl with
  | [] => None
  | (c, x, _) :: sl' =>
      if (py_eqb c ci && py_eqb x idx)%bool then Some 0%nat
      else match find_slot sl' ci idx with
           | Some i => Some (S i)
           | None => None
           end
  end.

(** One fragment's fields taken into its slot. *)
Definition take_fragment (tc : dict string json) (st : Slot) : Slot :=
  let fn := match jget tc "function" with JDict f => f | _ => [] end in
  let rn := match jget fn "name" with JStr n => if String.eqb n "" then None else Some n | _ => None end in
  mkSlot (first_set (sl_id st) (jstr (jget tc "id")))
         (first_set (sl_type st) (jstr (jget tc "type")))
         (first_set (sl_name st) rn)
         (match jget fn "arguments" with JStr a => sl_buf st ++ a | _ => sl_buf st end)
         (sl_done st).

(** What the slot lets out after a fragment. *)
Definition slot_ready (st : Slot) : option string :=
  if sl_done st then None
  else match sl_name st with
       | None => None
       | Some _ => _complete_value (sl_buf st)
       end.

(** One entry of [delta["tool_calls"]]; an unhashable index raises. *)
Definition buffer_call (ci : json) (emit : list Emit) (tc : json) : SE slots (list Emit) :=
  match tc with
  | JDict d =>
      let idx := jget d "index" in
      if negb (hashable ci && hashable idx) then se_lift (Raise TypeError)
      else fun sl =>
        let '(i, sl) := match find_slot sl ci idx with
                        | Some i => (i, sl)
                        | None => (length sl, (sl ++ [(ci, idx, new_slot)])%list)
                        end in
        let sl := alter (fun e => (e.1, take_fragment d e.2)) i sl in
        match sl !! i ≫= (fun e => slot_ready e.2) with
        | Some args => (Ret (emit ++ [mkEmit idx i args])%list, alter (fun e => (e.1, set_done e.2)) i sl)
        | None => (Ret emit, sl)
        end
  | _ => mret emit
  end.

(** The finish chunk of choice [ci]: the slots from position [i] on, the calls
    they let out, and whether a named call was cut. *)
Fixpoint finalize (ci : json) (i : nat) (sl : slots) : slots * list Emit * bool :=
  match sl with
  | [] => ([], [], false)
  | (c, x, st) :: sl' =>
      let '(sl', em, tr) := finalize ci (S i) sl' in
      if (negb (py_eqb c ci) || sl_done st)%bool then ((c, x, st) :: sl', em, tr)
      else match sl_name st with
           | Some _ =>
               if String.eqb (strip (sl_buf st)) ""
               then ((c, x, set_done st) :: sl', mkEmit x i "{}" :: em, tr)
               else ((c, x, set_done st) :: sl', em, true)
           | None => ((c, x, set_done st) :: sl', em, tr)
           end
  end.

(** The call as the client sees it. *)
Definition call_json (sl : slots) (e : Emit) : json :=
  let st := from_option snd new_slot (sl !! em_slot e) in
  let ostr := fun o : option string => from_option JStr JNull o in
  JDict [("index", em_idx e);
         ("id", ostr (sl_id st));
         ("type", JStr (match sl_type st with
                        | Some t => if String.eqb t "" then "function" else t
                        | None => "function"
                        end));
         ("function", JDict [("name", ostr (sl_name st)); ("arguments", JStr (em_args e))])].

(** Step 1: the fragments of the chunk, when its delta carries a list of them. *)
Definition choice_fragments (delta : option (dict string json)) : option (list json) :=
  match delta with
  | Some d => match jget d "tool_calls" with JList l => Some l | _ => None end
  | None => None
  end.

(** Step 2: a finish reason closes every slot of the choice. *)
Definition finish_slots (ci fr : json) (emit : list Emit) (sl : slots) : slots * list Emit * bool :=
  match fr with
  | JNull => (sl, emit, false)
  | _ => let '(sl, em, tr) := finalize ci 0 sl in (sl, (emit ++ em)%list, tr)
  end.

(** Step 3: the delta rebuilt from the calls put out. *)
Definition rebuild (c : dict string json) (delta : option (dict string json)) (sl : slots) (emit : list Emit)
    (changed : bool) : json * bool :=
  match delta with
  | Some d =>
      match emit with
      | [] => if dmem d "tool_calls"
              then (JDict (dset c "delta" (JDict (ddel d "tool_calls"))), true)
              else (JDict c, changed)
      | _ => (JDict (dset c "delta" (JDict (dset d "tool_calls" (JList (map (call_json sl) emit))))), true)
      end
  | None => (JDict c, changed)
  end.

(** One choice of a chunk: the choice as sent on, and whether it changed. *)
Definition feed_choice (ch : json) : SE slots (json * bool) :=
  match ch with
  | JDict c =>
      let ci := from_option id (JInt 0) (dget c "index") in
      let delta := jdict (jget c "delta") in
      let calls := choice_fragments delta in
      emit ← se_fold (buffer_call ci) [] (default [] calls);
      let fr := jget c "finish_reason" in
      sl ← se_get;
      let '(sl, emit, truncated) := finish_slots ci fr emit sl in
      se_modify (fun _ => sl);;
      let relabel := (truncated && (py_eqb fr (JStr "tool_calls") || py_eqb fr (JStr "stop")))%bool in
      let c := if relabel then dset c "finish_reason" (JStr "length") else c in
      mret (rebuild c delta sl emit (bool_decide (is_Some calls) || relabel))
  | _ => mret (ch, false)
  end.

(** The loop over the choices; a truthy value that cannot be iterated raises,
    a string or an object yields no choice. *)
Definition feed_choices (choices : json) : SE slots (json * bool) :=
  if negb (truthy choices) then mret (choices, false)
  else match choices with
       | JList l =>
           r ← se_fold (fun acc ch => r ← feed_choice ch; mret ((acc.1 ++ [r.1])%list, (acc.2 || r.2)%bool))
                 ([], false) l;
           mret (JList r.1, r.2)
       | JStr _ | JDict _ => mret (choices, false)
       | _ => se_lift (Raise TypeError)
       end.

(** The quoted key the fast path looks for. *)
Definition tool_calls_key : string := String dquote ("tool_calls" ++ String dquote "").

(** [feed(data)] *)
Definition feed (data : string) (sl : slots) : string * slots :=
  if negb (contains tool_calls_key data || _pending sl) then (data, sl)
  else match loads float_text data with
       | Some (JDict obj) =>
           match feed_choices (jget obj "choices") sl with
           | (Ret (choices, changed), sl') =>
               (if changed then dumps (JDict (dset obj "choices" choices)) else data, sl')
           | (Raise _, sl') => (data, sl')
           end
       | _ => (data, sl)
       end.

Fixpoint feed_all (chunks : list string) (sl : slots) : list string * slots :=
  match chunks with
  | [] => ([], sl)
  | x :: rest =>
      let '(y, sl) := feed x sl in
      let '(ys, sl) := feed_all rest sl in
      (y :: ys, sl)
  end.

(** ** Judgements of finished calls *)

Definition _arg_str_valid (tc : json) : bool :=
  match tc with
  | JDict d =>
      let fn := jget d "function" in
      let args := if truthy fn then match fn with JDict f => Some (jget f "arguments") | _ => None end
                  else Some JNull in
      match args with
      | None => true
      | Some (JStr a) =>
          if String.eqb (strip a) "" then true
          else match loads float_text a with Some _ => true | None => false end
      | Some _ => true
      end
  | _ => true
  end.

(** The name of a call, when it is more than blanks. *)
Definition real_name (j : json) : bool :=
  match j with
  | JStr n => negb (String.eqb (strip n) "")
  | _ => false
  end.

Definition is_cut (tc : json) : bool :=
  match jdict tc with
  | Some d =>
      match jdict (jget d "function") with
      | Some fn =>
          if negb (real_name (jget fn "name")) then false
          else match jget fn "arguments" with
               | JStr a => if String.eqb (strip a) "" then false
                           else match _complete_value a with Some _ => false | None => true end
               | _ => false
               end
      | None => false
      end
  | None => false
  end.

Definition has_cut_tool_call (tool_calls : list json) : bool := existsb is_cut tool_calls.

Definition request_declares_tools (payload : json) : bool :=
  match jdict payload with
  | Some p => match jget p "tools" with JList (_ :: _) => true | _ => false end
  | None => false
  end.

Definition tool_call_is_complete (tc : json) : bool :=
  match jdict tc with
  | Some d =>
      match jdict (jget d "function") with
      | Some fn =>
          if negb (real_name (jget fn "name")) then false
          else match jget fn "arguments" with
               | JDict _ => true
               | JStr a => if String.eqb (strip a) "" then false
                           else match loads float_text a with Some (JDict _) => true | _ => false end
               | _ => false
               end
      | None => false
      end
  | None => false
  end.
End ToolStream.
