(* ===== verification/ToolStreamProps.v ===== *)
(** * What the tool-call sanitizer promises

    Slots only grow ([grows]); a call put out has a name, arguments that are
    one complete JSON value, and was not put out before ([emit_ok]); so every
    chunk sent on to the client is [chunk_safe]. *)

From Stdlib Require Import Ascii Lia ZArith QArith.
From stdpp Require Import base list strings.
From S2P Require Import Prelude PyDict PyText Json JsonRead JsonRound ToolStream.

Local Open Scope string_scope.

Section Props.
Context (float_text : string -> string).

Abbreviation buffer_call := (buffer_call float_text).
Abbreviation feed_choice := (feed_choice float_text).
Abbreviation feed := (feed float_text).

(** ** What a client may receive *)

(** The text is one JSON value and nothing else. *)
Definition complete_text (a : string) : bool :=
  match raw_decode float_text a with
  | Some (_, "") => true
  | _ => false
  end.

(** A call a strict client can open and dispatch. *)
Definition call_safe (tc : json) : bool :=
  match tc with
  | JDict d =>
      match jget d "function" with
      | JDict fn =>
          match jget fn "name", jget fn "arguments" with
          | JStr n, JStr a => (negb (String.eqb n "") && complete_text a)%bool
          | _, _ => false
          end
      | _ => false
      end
  | _ => false
  end.

(** The [tool_calls] entry of a choice's delta. *)
Definition choice_calls (ch : json) : option json :=
  match ch with
  | JDict c =>
      match jget c "delta" with
      | JDict d => dget d "tool_calls"
      | _ => None
      end
  | _ => None
  end.

Definition choice_safe (ch : json) : bool :=
  match choice_calls ch with
  | None => true
  | Some (JList l) => forallb call_safe l
  | Some _ => false
  end.

Definition chunk_safe (o : dict string json) : bool :=
  match jget o "choices" with
  | JList l => forallb choice_safe l
  | _ => true
  end.

(** ** Complete values *)

Lemma stake_used (u r : string) : stake (String.length (u ++ r) - String.length r) (u ++ r) = u.
Proof.
  rewrite slength_app. replace (_ - _)%nat with (String.length u) by lia.
  induction u; simpl; [by destruct r|]. by rewrite IHu.
Qed.

Lemma complete_value_sound t a : _complete_value float_text t = Some a -> complete_text a = true.
Proof.
  unfold _complete_value, complete_text. destruct (String.eqb _ _); [done|].
  destruct (raw_decode float_text t) as [[v rest]|] eqn:E; [|done]. intros [= <-].
  destruct (raw_decode_split _ _ _ _ E) as (u & -> & _ & Hu). by rewrite stake_used, Hu.
Qed.

(** ** Slots only grow *)

Definition slot_le (a b : Slot) : Prop :=
  (sl_done a = true -> b = mkSlot (sl_id b) (sl_type b) (sl_name b) (sl_buf b) true)
  /\ (forall n, sl_name a = Some n -> sl_name b = Some n)
  /\ (forall n, sl_id a = Some n -> sl_id b = Some n)
  /\ exists x, sl_buf b = sl_buf a ++ x.

#[local] Instance slot_le_preorder : PreOrder slot_le.
Proof.
  split.
  - intros a. unfold slot_le. split_and!; eauto; [intros <-; by destruct a|]. exists "". by rewrite sapp_nil_r.
  - intros a b c (D1 & N1 & I1 & x & B1) (D2 & N2 & I2 & y & B2). unfold slot_le. split_and!; eauto.
    + intros Ha. apply D2. specialize (D1 Ha). by destruct b; simplify_eq/=.
    + exists (x ++ y). by rewrite B2, B1, sapp_assoc.
Qed.

Definition grows (sl sl' : slots) : Prop :=
  forall i k st, sl !! i = Some (k, st) -> exists st', sl' !! i = Some (k, st') /\ slot_le st st'.

#[local] Instance grows_preorder : PreOrder grows.
Proof.
  split.
  - intros sl i k st H. exists st. by split.
  - intros a b c H1 H2 i k st H. destruct (H1 _ _ _ H) as (st1 & E1 & L1).
    destruct (H2 _ _ _ E1) as (st2 & E2 & L2). exists st2. split; [done|]. by etransitivity.
Qed.

Lemma slot_le_fragment d st : slot_le st (take_fragment d st).
Proof.
  unfold slot_le, take_fragment. simpl. split_and!.
  - by intros ->.
  - by intros n ->.
  - by intros n ->.
  - destruct (jget _ "arguments"); eauto; exists ""; by rewrite sapp_nil_r.
Qed.

Lemma slot_le_done st : slot_le st (set_done st).
Proof. unfold slot_le, set_done. simpl. split_and!; eauto. exists "". by rewrite sapp_nil_r. Qed.

Lemma grows_alter sl i (f : Slot -> Slot) :
  (forall st, slot_le st (f st)) -> grows sl (alter (fun e => (e.1, f e.2)) i sl).
Proof.
  intros Hf j k st H. destruct (decide (i = j)) as [<-|N].
  - exists (f st). split; [|apply Hf]. by rewrite list_lookup_alter_eq, H.
  - exists st. split; [|done]. by rewrite list_lookup_alter_ne.
Qed.

Lemma grows_app sl x : grows sl (sl ++ x)%list.
Proof. intros i k st H. exists st. split; [|done]. by apply lookup_app_l_Some. Qed.

(** No slot is named by the empty text, and its index is a well-formed value. *)
Definition names_ok (sl : slots) : Prop := Forall (fun e => sl_name e.2 <> Some "" /\ jwf e.1.2 = true) sl.

Lemma names_ok_alter sl i (f : Slot -> Slot) :
  (forall st, sl_name st <> Some "" -> sl_name (f st) <> Some "") ->
  names_ok sl -> names_ok (alter (fun e => (e.1, f e.2)) i sl).
Proof.
  intros Hf H. apply Forall_alter; [done|]. intros [k st] _ [Hst Hk]. split; [by apply Hf|done].
Qed.

Lemma name_fragment d st : sl_name st <> Some "" -> sl_name (take_fragment d st) <> Some "".
Proof.
  unfold take_fragment. simpl. destruct (sl_name st) as [n|]; [done|]. intros _. simpl.
  destruct (jget _ "name") as [| | | |s| |]; try done. by destruct (String.eqb_spec s "") as [|N]; [|intros [=]].
Qed.

(** ** Calls put out *)

Lemma hashable_wf j : hashable j = true -> jwf j = true.
Proof. by destruct j. Qed.

(** [e] puts out a slot still open in [sl0], closed in [sl], with a name and
    complete arguments. *)
Definition emit_ok (sl0 sl : slots) (e : Emit) : Prop :=
  exists k st n, sl !! em_slot e = Some (k, st) /\ sl_done st = true /\ sl_name st = Some n
    /\ (forall k0 st0, sl0 !! em_slot e = Some (k0, st0) -> sl_done st0 = false)
    /\ complete_text (em_args e) = true /\ jwf (em_idx e) = true.

Lemma emit_ok_grows sl0 sl sl' e : grows sl sl' -> emit_ok sl0 sl e -> emit_ok sl0 sl' e.
Proof.
  intros G (k & st & n & E & D & N & F & C & J). destruct (G _ _ _ E) as (st' & E' & (LD & LN & _)).
  exists k, st', n. split_and!; auto. by rewrite (LD D).
Qed.

(** The loop invariant of a chunk that started at [sl0]. *)
Definition chunk_inv (sl0 : slots) (emit : list Emit) (sl : slots) : Prop :=
  names_ok sl /\ grows sl0 sl /\ Forall (emit_ok sl0 sl) emit /\ NoDup (map em_slot emit).

Lemma chunk_inv_grows sl0 emit sl sl' :
  names_ok sl' -> grows sl sl' -> chunk_inv sl0 emit sl -> chunk_inv sl0 emit sl'.
Proof.
  intros N G (_ & G0 & F & ND). split_and!; [done|by etransitivity| |done].
  eapply Forall_impl; [exact F|]. intros e. by apply emit_ok_grows.
Qed.

(** A slot open now was open before, and has not been put out. *)
Lemma open_not_emitted sl0 sl emit i k st :
  chunk_inv sl0 emit sl -> sl !! i = Some (k, st) -> sl_done st = false -> i ∉ map em_slot emit.
Proof.
  intros (_ & _ & F & _) E D Hin. apply list_elem_of_fmap in Hin as (e & -> & He).
  rewrite Forall_forall in F. destruct (F e He) as (k' & st' & n & E' & D' & _). congruence.
Qed.

Lemma open_before sl0 sl i k st k0 st0 :
  grows sl0 sl -> sl !! i = Some (k, st) -> sl_done st = false -> sl0 !! i = Some (k0, st0) -> sl_done st0 = false.
Proof.
  intros G E D E0. destruct (G _ _ _ E0) as (st' & E' & (LD & _)). destruct (sl_done st0) eqn:D0; [|done].
  specialize (LD eq_refl). assert (st' = st) as -> by congruence. rewrite LD in D. done.
Qed.

(** Closing an open, named slot and putting out complete arguments. *)
Lemma chunk_inv_emit sl0 sl emit i k st n idx a :
  chunk_inv sl0 emit sl -> sl !! i = Some (k, st) -> sl_done st = false -> sl_name st = Some n ->
  complete_text a = true -> jwf idx = true ->
  chunk_inv sl0 (emit ++ [mkEmit idx i a])%list (alter (fun e => (e.1, set_done e.2)) i sl).
Proof.
  intros I E D N C J. pose proof I as (HN & HG & HF & HD).
  assert (G : grows sl (alter (fun e => (e.1, set_done e.2)) i sl)) by apply grows_alter, slot_le_done.
  split_and!.
  - by apply names_ok_alter.
  - by etransitivity.
  - apply Forall_app. split.
    + eapply Forall_impl; [exact HF|]. intros e. by apply emit_ok_grows.
    + constructor; [|done]. exists k, (set_done st), n. simpl. rewrite list_lookup_alter_eq, E. split_and!; try done.
      intros k0 st0. by eapply open_before.
  - rewrite map_app. apply NoDup_app. split_and!; [done| |apply NoDup_singleton].
    intros x Hx Hi. apply list_elem_of_singleton in Hi as ->. by eapply open_not_emitted.
Qed.

Lemma lookup_Some_ready st a :
  slot_ready float_text st = Some a ->
  sl_done st = false /\ (exists n, sl_name st = Some n) /\ complete_text a = true.
Proof.
  unfold slot_ready. destruct (sl_done st); [done|]. destruct (sl_name st) as [n|]; [|done].
  intros H. apply complete_value_sound in H. eauto.
Qed.

Definition err_inv (sl0 : slots) (_ : PyErr) (sl : slots) : Prop := names_ok sl /\ grows sl0 sl.

Lemma buffer_call_inv ci sl0 tc emit :
  triple (chunk_inv sl0 emit) (buffer_call ci emit tc) (chunk_inv sl0) (err_inv sl0).
Proof.
  intros sl I. destruct tc as [| | | | | |d]; try exact I. unfold ToolStream.buffer_call.
  destruct (hashable ci && hashable (jget d "index"))%bool eqn:HH; [|simpl; split; apply I].
  apply andb_true_iff in HH as [_ HI]. apply hashable_wf in HI. cbn [negb]. cbv beta iota zeta.
  set (p := match find_slot sl ci (jget d "index") with Some i => (i, sl)
            | None => (length sl, (sl ++ [(ci, jget d "index", new_slot)])%list) end).
  assert (P : grows sl p.2 /\ names_ok p.2).
  { unfold p. destruct (find_slot _ _ _); simpl; [split; [done|apply I]|].
    split; [apply grows_app|]. apply Forall_app. split; [apply I|]. by repeat constructor. }
  destruct p as [i sl1]. destruct P as [G1 N1]. simpl in G1, N1. cbv zeta.
  set (sl2 := alter _ i sl1).
  assert (I2 : chunk_inv sl0 emit sl2).
  { apply (chunk_inv_grows _ _ sl); [|etransitivity; [exact G1|]|exact I].
    - apply names_ok_alter; [|done]. intros st. apply name_fragment.
    - apply grows_alter. apply slot_le_fragment. }
  destruct (sl2 !! i) as [[k st]|] eqn:E; simpl; [|exact I2].
  destruct (slot_ready float_text st) as [a|] eqn:R; [|exact I2].
  apply lookup_Some_ready in R as (D & [n N] & C). by eapply chunk_inv_emit.
Qed.

(** ** The finish chunk *)

(** A call cut off: open, of this choice, named, with arguments that are more
    than blanks. *)
Definition cut_slot (ci : json) (e : json * json * Slot) : Prop :=
  py_eqb e.1.1 ci = true /\ sl_done e.2 = false /\ (exists n, sl_name e.2 = Some n) /\ strip (sl_buf e.2) <> "".

(** What the finish does to one slot. *)
Definition close_slot (ci : json) (e : json * json * Slot) : json * json * Slot :=
  if (negb (py_eqb e.1.1 ci) || sl_done e.2)%bool then e else (e.1, set_done e.2).

Lemma finalize_slots ci i sl : (finalize ci i sl).1.1 = map (close_slot ci) sl.
Proof.
  revert i. induction sl as [|[[c x] st] sl IH]; intros i; [done|]. cbn [finalize map].
  specialize (IH (S i)). destruct (finalize ci (S i) sl) as [[sl' em] tr]. cbn [fst] in IH. subst sl'.
  replace (close_slot ci (c, x, st)) with (if (negb (py_eqb c ci) || sl_done st)%bool then (c, x, st) else (c, x, set_done st)) by done.
  destruct (_ || _)%bool; [done|].
  destruct (sl_name st); [destruct (String.eqb _ _)|]; done.
Qed.

Lemma finalize_cut ci i sl : (finalize ci i sl).2 = true <-> Exists (cut_slot ci) sl.
Proof.
  revert i. induction sl as [|[[c x] st] sl IH]; intros i.
  - simpl. rewrite Exists_nil. done.
  - cbn [finalize]. rewrite Exists_cons, <- (IH (S i)). destruct (finalize ci (S i) sl) as [[sl' em] tr]. cbn [snd].
    unfold cut_slot. cbn [fst snd]. destruct (py_eqb c ci), (sl_done st), (sl_name st) as [n|] eqn:N; simpl;
      try (split; [by right|by intros [(? & ? & [? ?] & ?)|]]).
    destruct (String.eqb_spec (strip (sl_buf st)) ""); simpl; naive_solver.
Qed.

(** The calls a finish puts out: open named slots of the choice, in order. *)
Lemma finalize_emits ci i sl :
  Forall (fun e => exists j k st n, em_slot e = (i + j)%nat /\ sl !! j = Some (k, st) /\ em_args e = "{}" /\ em_idx e = k.2
            /\ py_eqb k.1 ci = true /\ sl_done st = false /\ sl_name st = Some n) (finalize ci i sl).1.2
  /\ NoDup (map em_slot (finalize ci i sl).1.2).
Proof.
  revert i. induction sl as [|[[c x] st] sl IH]; intros i; [by split; constructor|].
  cbn [finalize]. specialize (IH (S i)). destruct (finalize ci (S i) sl) as [[sl' em] tr]. cbn [fst snd] in IH.
  destruct IH as [F ND].
  assert (F' : Forall (fun e => exists j k st' n, em_slot e = (i + S j)%nat /\ ((c, x, st) :: sl) !! S j = Some (k, st')
            /\ em_args e = "{}" /\ em_idx e = k.2 /\ py_eqb k.1 ci = true /\ sl_done st' = false /\ sl_name st' = Some n) em).
  { eapply Forall_impl; [exact F|]. intros e (j & k & st' & n & H1 & H2). exists j, k, st', n.
    split; [lia|exact H2]. }
  assert (F2 : Forall (fun e => exists j k st' n, em_slot e = (i + j)%nat /\ ((c, x, st) :: sl) !! j = Some (k, st')
            /\ em_args e = "{}" /\ em_idx e = k.2 /\ py_eqb k.1 ci = true /\ sl_done st' = false /\ sl_name st' = Some n) em).
  { eapply Forall_impl; [exact F'|]. intros e (j & H). by exists (S j). }
  destruct (py_eqb c ci) eqn:EC, (sl_done st) eqn:ED; simpl; try (split; [exact F2|exact ND]).
  destruct (sl_name st) as [n|] eqn:EN; [destruct (String.eqb _ _)|]; cbn [fst snd]; try (split; [exact F2|exact ND]).
  split.
  - constructor; [|exact F2]. exists 0%nat, (c, x), st, n. simpl. split_and!; auto with lia.
  - simpl. constructor; [|exact ND]. intros Hin. apply list_elem_of_fmap in Hin as (e & He & Hin).
    rewrite Forall_forall in F'. destruct (F' e Hin) as (j & _ & _ & _ & H & _). lia.
Qed.

Lemma grows_close ci sl : grows sl (map (close_slot ci) sl).
Proof.
  intros i k st H. rewrite list_lookup_fmap, H. simpl. unfold close_slot. cbn [fst snd].
  destruct (_ || _)%bool; eexists; (split; [done|]); [reflexivity|apply slot_le_done].
Qed.

Lemma names_ok_close ci sl : names_ok sl -> names_ok (map (close_slot ci) sl).
Proof.
  unfold names_ok. intros H. apply Forall_fmap. eapply Forall_impl; [exact H|]. intros [k st]. unfold compose, close_slot. cbn [fst snd].
  by destruct (_ || _)%bool.
Qed.

Lemma finalize_inv ci sl0 emit sl :
  chunk_inv sl0 emit sl -> chunk_inv sl0 (emit ++ (finalize ci 0 sl).1.2)%list (finalize ci 0 sl).1.1.
Proof.
  intros I. rewrite finalize_slots. destruct (finalize_emits ci 0 sl) as [F ND].
  pose proof (grows_close ci sl) as G. pose proof I as (HN & HG & HF & HD). split_and!.
  - by apply names_ok_close.
  - by etransitivity.
  - apply Forall_app. split.
    + eapply Forall_impl; [exact HF|]. intros e. by apply emit_ok_grows.
    + eapply Forall_impl; [exact F|]. intros e (j & k & st & n & Hs & E & Ha & Hi & EC & D & N). simpl in Hs.
      unfold emit_ok. rewrite Hs. exists k, (set_done st), n. rewrite list_lookup_fmap, E. simpl. unfold close_slot. cbn [fst snd].
      rewrite EC, D. simpl. split_and!; try done.
      * intros k0 st0. by eapply open_before.
      * rewrite Ha. by vm_compute.
      * rewrite Hi. by apply (Forall_lookup_1 _ _ _ _ HN) in E as [_ ?].
  - rewrite map_app. apply NoDup_app. split_and!; [done| |done]. intros x Hx Hin.
    apply list_elem_of_fmap in Hin as (e & -> & Hin). rewrite Forall_forall in F.
    destruct (F e Hin) as (j & k & st & n & Hs & E & _ & _ & _ & D & _). simpl in Hs.
    rewrite Hs in Hx. by eapply (open_not_emitted sl0 sl emit j).
Qed.

(** ** One choice *)

Lemma call_json_safe sl0 sl e : names_ok sl -> emit_ok sl0 sl e -> call_safe (call_json sl e) = true.
Proof.
  intros N (k & st & n & E & _ & Hn & _ & C & _). unfold call_json. rewrite E. simpl. rewrite Hn. simpl.
  rewrite C, andb_true_r. destruct (String.eqb_spec n "") as [->|]; [|done].
  apply (Forall_lookup_1 _ _ _ _ N) in E as [E _]. done.
Qed.

Lemma jget_dset (d : dict string json) k v : jget (dset d k v) k = v.
Proof. unfold jget. by rewrite dget_dset_eq. Qed.

Lemma rebuild_calls c delta sl emit changed :
  (jget c "delta" = from_option JDict (jget c "delta") delta) -> (delta = None -> jdict (jget c "delta") = None) ->
  jwf (JDict c) = true ->
  choice_calls (rebuild c delta sl emit changed).1 = None
  \/ choice_calls (rebuild c delta sl emit changed).1 = Some (JList (map (call_json sl) emit)).
Proof.
  intros E EN W. destruct delta as [d|]; simpl in *.
  - destruct emit as [|e emit]; simpl.
    + destruct (dmem d "tool_calls") eqn:M; simpl.
      * left. rewrite jget_dset. rewrite dget_ddel; [by case_decide|]. unfold jget in E.
        destruct (dget c "delta") as [v|] eqn:G; simpl in E; [|done]. apply jwf_dict.
        apply (jwf_get c "delta"); [exact W|]. by rewrite G, E.
      * left. rewrite E. unfold dmem in M. by destruct (dget d "tool_calls").
    + right. rewrite jget_dset. apply dget_dset_eq.
  - left. specialize (EN eq_refl). destruct (jget c "delta"); done.
Qed.

Lemma call_json_wf sl0 sl e : emit_ok sl0 sl e -> jwf (call_json sl e) = true.
Proof.
  intros (k & st & n & E & _ & Hn & _ & _ & J). unfold call_json. rewrite E. cbn [from_option snd jwf].
  rewrite Hn. cbn [forallb snd jwf]. rewrite J. destruct (sl_id st); by vm_compute.
Qed.

Lemma rebuild_wf sl0 c delta sl emit changed :
  jwf (JDict c) = true -> from_option (fun d => jwf (JDict d)) true delta = true -> Forall (emit_ok sl0 sl) emit ->
  jwf (rebuild c delta sl emit changed).1 = true.
Proof.
  intros W WD F. unfold rebuild. destruct delta as [d|]; [|done]. simpl in WD. destruct emit as [|e emit].
  - destruct (dmem d "tool_calls"); [|done]. apply jwf_dset; [done|]. by apply jwf_ddel.
  - apply jwf_dset; [done|]. apply jwf_dset; [done|]. cbn [jwf]. apply forallb_forall. intros x Hx.
    apply in_map_iff in Hx as (e' & <- & He). apply list_elem_of_In in He. rewrite Forall_forall in F.
    eapply call_json_wf. by apply F.
Qed.

Lemma finish_slots_inv ci fr sl0 emit sl sl' emit' tr :
  chunk_inv sl0 emit sl -> finish_slots ci fr emit sl = (sl', emit', tr) -> chunk_inv sl0 emit' sl'.
Proof.
  intros I. unfold finish_slots. pose proof (finalize_inv ci sl0 emit sl I) as F.
  destruct (finalize ci 0 sl) as [[a b] c]. cbn [fst snd] in F. by destruct fr; intros [= <- <- <-].
Qed.

Lemma chunk_inv_start sl : names_ok sl -> chunk_inv sl [] sl.
Proof. intros N. split_and!; [done|reflexivity|constructor|constructor]. Qed.

Lemma buffer_all_inv ci sl0 l emit :
  triple (chunk_inv sl0 emit) (se_fold (buffer_call ci) emit l) (chunk_inv sl0) (err_inv sl0).
Proof. apply (se_fold_rule _ (chunk_inv sl0)). intros x a _. apply buffer_call_inv. Qed.

Lemma jwf_jget d k j : jwf (JDict d) = true -> jget d k = j -> jwf j = true.
Proof. intros W <-. unfold jget. destruct (dget d k) eqn:G; [|done]. by eapply jwf_get. Qed.

Lemma jdict_Some j d : jdict j = Some d -> j = JDict d.
Proof. destruct j; simpl; congruence. Qed.

(** A choice is sent on with exactly the calls put out in it. *)
Lemma feed_choice_spec ch sl0 :
  jwf ch = true -> names_ok sl0 ->
  match feed_choice ch sl0 with
  | (Ret (ch', changed), sl) =>
      (exists emit, chunk_inv sl0 emit sl
         /\ (choice_calls ch' = None \/ choice_calls ch' = Some (JList (map (call_json sl) emit))))
      /\ (changed = false -> ch' = ch) /\ jwf ch' = true
  | (Raise e, sl) => err_inv sl0 e sl
  end.
Proof.
  intros W N. destruct ch as [| | | | | |c];
    try (by simpl; split_and!; [exists []; split; [by apply chunk_inv_start|by left]|..]).
  unfold ToolStream.feed_choice. cbv zeta. rewrite run_bind.
  set (ci := from_option id (JInt 0) (dget c "index")). set (delta := jdict (jget c "delta")).
  pose proof (buffer_all_inv ci sl0 (default [] (choice_fragments delta)) [] sl0 (chunk_inv_start _ N)) as B.
  destruct (se_fold _ _ _ sl0) as [[emit|e] sl]; [|exact B]. rewrite run_get.
  destruct (finish_slots ci (jget c "finish_reason") emit sl) as [[sl' emit'] tr] eqn:F.
  apply (finish_slots_inv _ _ _ _ _ _ _ _ B) in F. rewrite run_modify. cbn [mret se_ret].
  set (rl := (tr && _)%bool). set (c' := if rl then dset c "finish_reason" (JStr "length") else c).
  assert (E : jget c' "delta" = jget c "delta").
  { unfold c', jget. destruct rl; [|done]. by rewrite dget_dset_ne. }
  assert (W' : jwf (JDict c') = true) by (unfold c'; destruct rl; [by apply jwf_dset|done]).
  unfold mret, se_ret. cbv iota beta.
  match goal with |- context [rebuild c' delta sl' emit' ?b] => set (chg := b) end.
  assert (R : choice_calls (rebuild c' delta sl' emit' chg).1 = None
    \/ choice_calls (rebuild c' delta sl' emit' chg).1 = Some (JList (map (call_json sl') emit'))).
  { apply rebuild_calls; [|intros D; by rewrite E|exact W'].
    unfold delta. destruct (jdict (jget c "delta")) as [d|] eqn:D; [|done]. simpl.
    rewrite E. by apply jdict_Some in D. }
  assert (S : (rebuild c' delta sl' emit' chg).2 = false -> (rebuild c' delta sl' emit' chg).1 = JDict c).
  { unfold rebuild, chg, c'. destruct delta as [d|]; [destruct emit'; [destruct (dmem d "tool_calls")|]|]; simpl; try done;
      destruct rl; rewrite ?orb_true_r; done. }
  assert (RW : jwf (rebuild c' delta sl' emit' chg).1 = true).
  { eapply rebuild_wf; [exact W'| |apply F]. unfold delta. destruct (jdict (jget c "delta")) as [d|] eqn:D; [|done].
    apply jdict_Some in D. exact (jwf_jget c "delta" _ W D). }
  destruct (rebuild c' delta sl' emit' chg) as [ch' b]. split_and!; [|exact S|exact RW]. exists emit'. by split.
Qed.

Lemma choice_calls_safe sl0 sl emit ch :
  chunk_inv sl0 emit sl ->
  choice_calls ch = None \/ choice_calls ch = Some (JList (map (call_json sl) emit)) -> choice_safe ch = true.
Proof.
  intros (N & _ & F & _) [E|E]; unfold choice_safe; rewrite E; [done|].
  apply forallb_forall. intros x Hx. apply in_map_iff in Hx as (e & <- & He).
  apply list_elem_of_In in He. rewrite Forall_forall in F. eapply call_json_safe; [exact N|by apply F].
Qed.

(** ** One chunk *)

Definition feed_step (acc : list json * bool) (ch : json) : SE slots (list json * bool) :=
  r ← feed_choice ch; mret ((acc.1 ++ [r.1])%list, (acc.2 || r.2)%bool).

Lemma feed_list_spec l acc sl0 :
  forallb jwf l = true -> names_ok sl0 ->
  match se_fold feed_step acc l sl0 with
  | (Ret r, sl) =>
      names_ok sl /\ grows sl0 sl
      /\ exists l', r.1 = (acc.1 ++ l')%list /\ forallb choice_safe l' = true /\ forallb jwf l' = true
           /\ (r.2 = false -> acc.2 = false /\ l' = l)
  | (Raise e, sl) => err_inv sl0 e sl
  end.
Proof.
  revert acc sl0. induction l as [|ch l IH]; intros acc sl0; cbn [se_fold forallb].
  - intros _ N. simpl. split_and!; [done|reflexivity|]. exists []. by rewrite app_nil_r.
  - rewrite andb_true_iff. intros [Wc Wl] N. rewrite run_bind. unfold feed_step at 1. rewrite run_bind.
    pose proof (feed_choice_spec ch sl0 Wc N) as C.
    destruct (feed_choice ch sl0) as [[[ch' b]|e] sl1]; [|exact C].
    destruct C as ((emit & I & CC) & S & WC). pose proof I as (N1 & G1 & _). cbn [mret se_ret fst snd].
    specialize (IH ((acc.1 ++ [ch'])%list, (acc.2 || b)%bool) sl1 Wl N1).
    destruct (se_fold _ _ _ _) as [[r|e] sl2].
    + destruct IH as (N2 & G2 & l' & E & SF & WL & SAME). split_and!; [done|by etransitivity|].
      exists (ch' :: l'). cbn [fst snd] in *. split_and!.
      * by rewrite E, <- app_assoc.
      * simpl. rewrite SF, andb_true_r. by eapply choice_calls_safe.
      * simpl. by rewrite WC, WL.
      * intros H. destruct (SAME H) as [Hab ->]. apply orb_false_iff in Hab as [? Hb]. by rewrite (S Hb).
    + destruct IH as [N2 G2]. split; [done|by etransitivity].
Qed.

Lemma feed_choices_spec choices sl0 :
  jwf choices = true -> names_ok sl0 ->
  match feed_choices float_text choices sl0 with
  | (Ret (ch', changed), sl) =>
      names_ok sl /\ grows sl0 sl
      /\ (match ch' with JList l => forallb choice_safe l = true | _ => True end)
      /\ (changed = false -> ch' = choices) /\ jwf ch' = true
  | (Raise e, sl) => err_inv sl0 e sl
  end.
Proof.
  intros W N. unfold feed_choices. destruct (truthy choices) eqn:T; simpl.
  - destruct choices as [|b|n|r q|s|l|d]; simpl; try (by split; [|reflexivity]); try (by split_and!; [|reflexivity|..]).
    rewrite run_bind. pose proof (feed_list_spec l ([], false) sl0 W N) as F. unfold feed_step in F.
    destruct (se_fold _ _ _ _) as [[r|e] sl]; [|exact F]. destruct F as (N1 & G & l' & E & SF & WL & SAME). simpl in *.
    rewrite E. split_and!; try done. intros H. by destruct (SAME H) as [_ ->].
  - split_and!; try done. destruct choices as [| | | | |[]|]; done.
Qed.

(** Feeding never loses a slot or reopens one. *)
Lemma feed_grows data sl out sl' :
  names_ok sl -> feed data sl = (out, sl') -> names_ok sl' /\ grows sl sl'.
Proof.
  intros N. unfold ToolStream.feed. destruct (negb _); [by intros [= <- <-]|].
  destruct (loads float_text data) as [[| | | | | |o]|] eqn:L; try (by intros [= <- <-]).
  apply loads_wf in L.
  assert (W : jwf (jget o "choices") = true) by (by eapply jwf_jget).
  pose proof (feed_choices_spec _ sl W N) as F. destruct (feed_choices _ _ _) as [[[ch b]|e] sl1].
  - intros [= _ <-]. destruct F as (? & ? & _). done.
  - intros [= _ <-]. exact F.
Qed.

Lemma feed_all_names chunks sl outs sl' :
  names_ok sl -> feed_all float_text chunks sl = (outs, sl') -> names_ok sl'.
Proof.
  revert sl outs. induction chunks as [|x chunks IH]; intros sl outs N; simpl; [by intros [= <- <-]|].
  destruct (feed x sl) as [y sl1] eqn:F. apply (feed_grows _ _ _ _ N) in F as [N1 _].
  destruct (feed_all float_text chunks sl1) as [ys sl2] eqn:FA. intros [= <- <-]. by eapply IH.
Qed.

(** ** When a chunk can be processed *)

(** The keys of the slots a choice names can be hashed. *)
Definition choice_hashable (ch : json) : bool :=
  match ch with
  | JDict c =>
      let ci := from_option id (JInt 0) (dget c "index") in
      forallb (fun tc => match tc with
                         | JDict d => (hashable ci && hashable (jget d "index"))%bool
                         | _ => true
                         end) (default [] (choice_fragments (jdict (jget c "delta"))))
  | _ => true
  end.

Definition chunk_hashable (o : dict string json) : bool :=
  match jget o "choices" with
  | JList l => forallb choice_hashable l
  | _ => true
  end.

(** A computation that returns from every state. *)
Definition returns {A} (m : SE slots A) : Prop := forall sl, exists a sl', m sl = (Ret a, sl').

Lemma returns_bind {A B} (m : SE slots A) (f : A -> SE slots B) :
  returns m -> (forall a, returns (f a)) -> returns (m ≫= f).
Proof. intros Hm Hf sl. rewrite run_bind. destruct (Hm sl) as (a & sl' & ->). apply Hf. Qed.

Lemma returns_fold {A B} (f : A -> B -> SE slots A) acc l :
  (forall a x, x ∈ l -> returns (f a x)) -> returns (se_fold f acc l).
Proof.
  revert acc. induction l as [|x l IH]; intros acc H; cbn [se_fold]; [intros sl; by repeat eexists|].
  apply returns_bind; [apply H; by left|]. intros a. apply IH. intros b y Hy. apply H. by right.
Qed.

Lemma buffer_call_returns ci emit tc :
  match tc with JDict d => (hashable ci && hashable (jget d "index"))%bool | _ => true end = true ->
  returns (buffer_call ci emit tc).
Proof.
  intros H sl. destruct tc as [| | | | | |d]; try (by repeat eexists). unfold ToolStream.buffer_call. rewrite H.
  cbn [negb]. cbv beta iota zeta. destruct (match find_slot sl ci _ with Some i => _ | None => _ end) as [i sl1].
  destruct (_ ≫= _); by repeat eexists.
Qed.

Lemma feed_choice_returns ch : choice_hashable ch = true -> returns (feed_choice ch).
Proof.
  destruct ch as [| | | | | |c]; try (by intros _ sl; repeat eexists). intros H. unfold ToolStream.feed_choice.
  cbv zeta. apply returns_bind.
  - apply returns_fold. intros a x Hx. apply buffer_call_returns. unfold choice_hashable in H.
    rewrite forallb_forall in H. apply H. by apply list_elem_of_In.
  - intros emit sl. rewrite run_get. destruct (finish_slots _ _ _ _) as [[sl' em] tr].
    rewrite run_modify. by repeat eexists.
Qed.

Lemma feed_choices_returns o :
  chunk_hashable o = true ->
  returns (feed_choices float_text (jget o "choices")) \/ match jget o "choices" with JList _ => False | _ => True end.
Proof.
  unfold chunk_hashable, feed_choices. intros H. destruct (jget o "choices") as [| | | | |l|]; try (by right).
  left. destruct (negb _); [intros sl; by repeat eexists|]. apply returns_bind; [|intros r sl; by repeat eexists].
  apply returns_fold. intros a x Hx. apply returns_bind; [|intros r sl; by repeat eexists].
  apply feed_choice_returns. rewrite forallb_forall in H. apply H. by apply list_elem_of_In.
Qed.

(** A processed chunk: what is sent on is [o'], with only safe calls. *)
Lemma feed_safe data o sl out sl' :
  names_ok sl -> loads float_text data = Some (JDict o) -> chunk_hashable o = true ->
  (contains tool_calls_key data || _pending sl)%bool = true -> feed data sl = (out, sl') ->
  exists o', chunk_safe o' = true /\ jwf (JDict o') = true
    /\ (out = dumps (JDict o') \/ out = data /\ o' = o).
Proof.
  intros N L H E. unfold ToolStream.feed. rewrite E, L. cbn [negb]. cbv iota. apply loads_wf in L.
  assert (W : jwf (jget o "choices") = true) by (by eapply jwf_jget).
  pose proof (feed_choices_spec _ sl W N) as F.
  destruct (feed_choices_returns o H) as [R|R].
  - destruct (R sl) as ([ch b] & sl1 & ER). rewrite ER in F |- *. destruct F as (_ & _ & S & SAME & WC). destruct b.
    + intros [= <- <-]. exists (dset o "choices" ch). split_and!; [|by apply jwf_dset|by left].
      unfold chunk_safe. rewrite jget_dset. by destruct ch.
    + intros [= <- <-]. exists o. split_and!; [|done|by right]. specialize (SAME eq_refl). subst ch.
      unfold chunk_safe. by destruct (jget o "choices").
  - intros F'. exists o. assert (chunk_safe o = true) by (unfold chunk_safe; by destruct (jget o "choices")).
    split_and!; [done|done|]. right. split; [|done]. revert F'. unfold feed_choices in *.
    destruct (jget o "choices"); simpl; repeat (case_match; simpl); try done; by intros [= <- <-].
Qed.
End Props.

(** ** Theorems *)

(** C35 Whatever was streamed before, a chunk the sanitizer processes reaches the
    client holding only calls with a non-empty name and arguments that are
    exactly one complete JSON value; and when the floats of the chunk print as
    they read, the text sent is read by the client as exactly that chunk. *)
Theorem sanitized_calls_complete float_text chunks outs sl data o out sl' :
  feed_all float_text chunks [] = (outs, sl) ->
  loads float_text data = Some (JDict o) -> chunk_hashable o = true ->
  (contains tool_calls_key data || _pending sl)%bool = true ->
  feed float_text data sl = (out, sl') ->
  exists o', chunk_safe float_text o' = true
    /\ (out = dumps (JDict o') \/ out = data /\ o' = o)
    /\ (floats_ok float_text (JDict o') -> loads float_text out = Some (JDict o')).
Proof.
  intros FA L H E F. apply feed_all_names in FA; [|constructor].
  destruct (feed_safe _ _ _ _ _ _ FA L H E F) as (o' & S & W & C). exists o'. split_and!; [done|done|].
  intros FO. destruct C as [->|[-> ->]]; [|done]. by apply loads_dumps.
Qed.

Definition demo_chunk (calls : list json) (extra : list (string * json)) : string :=
  dumps (JDict [("choices", JList [JDict ([("index", JInt 0); ("delta", JDict [("tool_calls", JList calls)])] ++ extra)])]).

Definition demo_call (i : Z) (name : json) (args : string) : json :=
  JDict [("index", JInt i); ("id", JStr "c"); ("function", JDict [("name", name); ("arguments", JStr args)])].

(** A call in two fragments, the second with a stray bracket, and a phantom. *)
Definition demo_first : string := demo_chunk [demo_call 0 (JStr "ls") "{"] [].
Definition demo_second : string :=
  demo_chunk [demo_call 0 JNull "}}"; demo_call 1 JNull ""] [("finish_reason", JStr "tool_calls")].

Lemma sanitized_calls_complete_witness :
  exists o', chunk_safe id o' = true
    /\ ((feed id demo_second (feed_all id [demo_first] []).2).1 = dumps (JDict o')
        \/ (feed id demo_second (feed_all id [demo_first] []).2).1 = demo_second /\ o' = default [] (loads id demo_second ≫= jdict))
    /\ (floats_ok id (JDict o') -> loads id (feed id demo_second (feed_all id [demo_first] []).2).1 = Some (JDict o')).
Proof.
  eapply (sanitized_calls_complete id [demo_first] (feed_all id [demo_first] []).1 (feed_all id [demo_first] []).2 demo_second);
    [vm_compute; reflexivity..].
Defined.

Example demo_stream :
  map (loads id) (feed_all id [demo_first; demo_second] []).1
  = [Some (JDict [("choices", JList [JDict [("index", JInt 0); ("delta", JDict [])]])]);
     Some (JDict [("choices", JList [JDict [("index", JInt 0);
        ("delta", JDict [("tool_calls", JList [JDict [("index", JInt 0); ("id", JStr "c"); ("type", JStr "function");
            ("function", JDict [("name", JStr "ls"); ("arguments", JStr "{}")])]])]);
        ("finish_reason", JStr "tool_calls")]])])].
Proof. vm_compute. reflexivity. Qed.

(** A choice is sent on with the calls of [emit] and no others: each from a
    different slot, open before this chunk and closed after it, and a closed
    slot stays closed; so over a whole stream a call is released at most once. *)
Theorem call_released_once float_text ch sl0 ch' changed sl :
  jwf ch = true -> names_ok sl0 ->
  feed_choice float_text ch sl0 = (Ret (ch', changed), sl) ->
  exists emit,
    (choice_calls ch' = None \/ choice_calls ch' = Some (JList (map (call_json sl) emit)))
    /\ NoDup (map em_slot emit)
    /\ (forall e, e ∈ emit -> exists k st, sl !! em_slot e = Some (k, st) /\ sl_done st = true
          /\ forall k0 st0, sl0 !! em_slot e = Some (k0, st0) -> sl_done st0 = false)
    /\ (forall i k st, sl0 !! i = Some (k, st) -> sl_done st = true ->
          exists st', sl !! i = Some (k, st') /\ sl_done st' = true).
Proof.
  intros W N H. pose proof (feed_choice_spec float_text ch sl0 W N) as F. rewrite H in F.
  destruct F as ((emit & (_ & G & FE & ND) & CC) & _). exists emit. split_and!; try done.
  - intros e He. rewrite Forall_forall in FE. destruct (FE e He) as (k & st & n & E & D & _ & O & _). eauto.
  - intros i k st E D. destruct (G _ _ _ E) as (st' & E' & LD & _). exists st'. split; [done|]. by rewrite (LD D).
Qed.

Lemma call_released_once_witness :
  exists emit,
    (choice_calls (JDict [("delta", JDict [])]) = None
     \/ choice_calls (JDict [("delta", JDict [])])
        = Some (JList (map (call_json [(JInt 0, JInt 0, mkSlot (Some "c") None None "{" false)]) emit)))
    /\ NoDup (map em_slot emit)
    /\ (forall e, e ∈ emit -> exists k st,
          ([(JInt 0, JInt 0, mkSlot (Some "c") None None "{" false)] : slots) !! em_slot e = Some (k, st) /\ sl_done st = true
          /\ forall k0 st0, ([] : slots) !! em_slot e = Some (k0, st0) -> sl_done st0 = false)
    /\ (forall i k st, ([] : slots) !! i = Some (k, st) -> sl_done st = true ->
          exists st', ([(JInt 0, JInt 0, mkSlot (Some "c") None None "{" false)] : slots) !! i = Some (k, st') /\ sl_done st' = true).
Proof.
  apply (call_released_once id (JDict [("delta", JDict [("tool_calls", JList [demo_call 0 JNull "{"])])]) []
           _ true); [vm_compute; reflexivity|constructor|vm_compute; reflexivity].
Defined.

(** The finish reason a choice is sent on with. *)
Definition out_finish (ch : json) : json := from_option (fun d => jget d "finish_reason") JNull (jdict ch).

Lemma rebuild_finish c delta sl em b : out_finish (rebuild c delta sl em b).1 = jget c "finish_reason".
Proof.
  unfold out_finish, rebuild, jget. destruct delta; [destruct em; [destruct (dmem _ _)|]|]; simpl;
    rewrite ?dget_dset_ne by done; done.
Qed.

(** A choice with a finish reason, as one step. *)
Lemma feed_choice_finish float_text c sl ch' changed sl' :
  let ci := from_option id (JInt 0) (dget c "index") in
  let delta := jdict (jget c "delta") in
  let fr := jget c "finish_reason" in
  fr <> JNull -> feed_choice float_text (JDict c) sl = (Ret (ch', changed), sl') ->
  exists emit sl1, se_fold (buffer_call float_text ci) [] (default [] (choice_fragments delta)) sl = (Ret emit, sl1)
    /\ sl' = map (close_slot ci) sl1
    /\ let rl := ((finalize ci 0 sl1).2 && (py_eqb fr (JStr "tool_calls") || py_eqb fr (JStr "stop")))%bool in
       rebuild (if rl then dset c "finish_reason" (JStr "length") else c) delta (map (close_slot ci) sl1)
         (emit ++ (finalize ci 0 sl1).1.2) (bool_decide (is_Some (choice_fragments delta)) || rl) = (ch', changed).
Proof.
  intros ci delta fr HF. unfold feed_choice. fold ci delta fr. cbv zeta. rewrite run_bind.
  destruct (se_fold _ _ _ sl) as [[emit|e] sl1] eqn:SF; [|done]. rewrite run_get.
  assert (FS : finish_slots ci fr emit sl1
    = ((finalize ci 0 sl1).1.1, (emit ++ (finalize ci 0 sl1).1.2)%list, (finalize ci 0 sl1).2)).
  { unfold finish_slots. destruct (finalize ci 0 sl1) as [[a b] t]. by destruct fr. }
  rewrite FS. clear FS. rewrite finalize_slots, run_modify. unfold mret, se_ret. intros [= HR <-].
  exists emit, sl1. by split_and!.
Qed.

(** The finish chunk leaves no slot of its choice open; and when it carries no
    fragments and some named call of the choice never formed a complete value,
    a finish of [tool_calls] or [stop] is relabelled [length]. *)
Theorem finish_closes_choice float_text c sl ch' changed sl' :
  let ci := from_option id (JInt 0) (dget c "index") in
  jget c "finish_reason" <> JNull ->
  feed_choice float_text (JDict c) sl = (Ret (ch', changed), sl') ->
  (forall e, e ∈ sl' -> py_eqb e.1.1 ci = true -> sl_done e.2 = true)
  /\ (choice_fragments (jdict (jget c "delta")) = None ->
      jget c "finish_reason" ∈ [JStr "tool_calls"; JStr "stop"] ->
      (Exists (cut_slot ci) sl <-> out_finish ch' = JStr "length")).
Proof.
  intros ci HF H. apply feed_choice_finish in H as (emit & sl1 & SF & -> & HR); [|done]. fold ci in SF, HR |- *. split.
  - intros e He. apply list_elem_of_fmap in He as (e0 & -> & _). unfold close_slot.
    destruct (py_eqb e0.1.1 ci) eqn:E, (sl_done e0.2) eqn:D; simpl; rewrite ?E; done.
  - intros HC HR2. rewrite HC in SF. cbn in SF. injection SF as <- <-.
    rewrite <- (finalize_cut float_text ci 0 sl). apply (f_equal (fun r => out_finish r.1)) in HR. cbn [fst] in HR.
    rewrite <- HR, rebuild_finish. clear HR.
    set (fr := jget c "finish_reason") in *.
    assert (EQ : (py_eqb fr (JStr "tool_calls") || py_eqb fr (JStr "stop"))%bool = true /\ fr <> JStr "length").
    { rewrite elem_of_cons, list_elem_of_singleton in HR2. by destruct HR2 as [-> | ->]. }
    destruct EQ as [-> NL]. rewrite andb_true_r. destruct (finalize ci 0 sl).2; [|done].
    by rewrite jget_dset.
Qed.

Definition demo_cut : slots := [(JInt 0, JInt 0, mkSlot (Some "c") None (Some "ls") "{" false)].

Lemma finish_closes_choice_witness :
  (forall e, e ∈ map (close_slot (JInt 0)) demo_cut -> py_eqb e.1.1 (JInt 0) = true -> sl_done e.2 = true)
  /\ (choice_fragments (Some []) = None ->
      JStr "tool_calls" ∈ [JStr "tool_calls"; JStr "stop"] ->
      (Exists (cut_slot (JInt 0)) demo_cut
       <-> out_finish (JDict [("delta", JDict []); ("finish_reason", JStr "length")]) = JStr "length")).
Proof.
  apply (finish_closes_choice id [("delta", JDict []); ("finish_reason", JStr "tool_calls")] demo_cut _ true);
    [done|vm_compute; reflexivity].
Defined.

(** A stream with no tool call in it passes through untouched. *)
Theorem plain_stream_untouched float_text chunks :
  Forall (fun x => contains tool_calls_key x = false) chunks ->
  feed_all float_text chunks [] = (chunks, []).
Proof.
  induction 1 as [|x chunks H F IH]; [done|]. cbn [feed_all]. unfold feed at 1. rewrite H. simpl. by rewrite IH.
Qed.

Lemma plain_stream_untouched_witness : feed_all id ["{}"; "[DONE]"] [] = (["{}"; "[DONE]"], []).
Proof. apply plain_stream_untouched. repeat constructor; vm_compute; reflexivity. Defined.

(** The judgement of a finished call agrees with the sanitizer: a call with a
    name of more than blanks, sent whole on the finish chunk, is judged cut
    exactly when the sanitizer drops it and reports [length]. *)
Theorem cut_judgement_agrees float_text n a ch' changed sl' :
  strip n <> "" ->
  let tc := JDict [("index", JInt 0); ("function", JDict [("name", JStr n); ("arguments", JStr a)])] in
  feed_choice float_text
    (JDict [("delta", JDict [("tool_calls", JList [tc])]); ("finish_reason", JStr "tool_calls")]) []
    = (Ret (ch', changed), sl') ->
  (out_finish ch' = JStr "length" <-> has_cut_tool_call float_text [tc] = true)
  /\ (out_finish ch' = JStr "length" -> choice_calls ch' = None).
Proof.
  intros Hn. destruct n as [|c n]; [by vm_compute in Hn|].
  lazy -[strip _complete_value iff not].
  destruct (strip (String c n)) as [|c' n'] eqn:SN; [done|]. clear Hn SN.
  destruct (_complete_value float_text a) as [v|] eqn:CV; lazy -[strip _complete_value iff not]; rewrite ?CV.
  - intros [= <- <- <-]. destruct (strip a); done.
  - destruct (strip a); intros [= <- <- <-]; done.
Qed.

Lemma cut_judgement_agrees_witness :
  let tc := JDict [("index", JInt 0); ("function", JDict [("name", JStr "ls"); ("arguments", JStr "{")])] in
  (out_finish (JDict [("delta", JDict []); ("finish_reason", JStr "length")]) = JStr "length"
     <-> has_cut_tool_call id [tc] = true)
  /\ (out_finish (JDict [("delta", JDict []); ("finish_reason", JStr "length")]) = JStr "length"
      -> choice_calls (JDict [("delta", JDict []); ("finish_reason", JStr "length")]) = None).
Proof.
  intros tc. apply (cut_judgement_agrees id "ls" "{" _ true (map (close_slot (JInt 0)) [(JInt 0, JInt 0, mkSlot None None (Some "ls") "{" false)]));
    [done|vm_compute; reflexivity].
Defined.

(** Arguments that begin with a JSON blank never count as complete, whatever
    follows, although the comment on [_complete_value] allows them. *)
Theorem blank_led_arguments_never_complete float_text c a :
  is_json_space c = true -> _complete_value float_text (String c a) = None.
Proof.
  intros H. unfold _complete_value. destruct (String.eqb _ _); [done|].
  unfold raw_decode. rewrite run_next.
  assert (forall m x, p_value float_text (S m) c x = None) as P.
  { intros m x. clear -H. destruct c as [[] [] [] [] [] [] [] []]; try discriminate H; done. }
  unfold read_fuel. simpl String.length. rewrite Nat.add_succ_r. by rewrite P.
Qed.

Lemma blank_led_arguments_never_complete_witness : _complete_value id " {}" = None.
Proof. by apply blank_led_arguments_never_complete. Defined.
