(* ===== verification/Degen.v ===== *)
(** * Degenerate output (correction.py, first part)

    The arms that judge a finished body ([_degenerate_text_arm]) and the two
    detectors that watch a stream: [ReasoningLoopDetector], which keeps a
    trimmed window and must see exactly what it would have seen with the whole
    text, and [StructuredBlankRunDetector], which keeps two counters.

    Text is a list of code points, so the zero-width characters the blank arms
    count are in the model. *)

From Stdlib Require Import QArith Qround Lqa Lia ZArith.
From stdpp Require Import base list.
From S2P Require Import Prelude.

Abbreviation text := (list Z).

(** [s[-w:]] *)
Definition last_chars {A} (w : Z) (l : list A) : list A :=
  if (w <=? 0)%Z then drop (Z.to_nat (- w)) l else drop (length l - Z.to_nat w) l.

(** [str.isspace] on code points, as [str.split()] uses it. *)
Definition is_py_space (c : Z) : bool :=
  (((9 <=? c) && (c <=? 13)) || ((28 <=? c) && (c <=? 32)) || (c =? 133) || (c =? 160) || (c =? 5760)
   || ((8192 <=? c) && (c <=? 8202)) || (c =? 8232) || (c =? 8233) || (c =? 8239) || (c =? 8287) || (c =? 12288))%Z.

(** [s.split()]: the runs of other characters; [cur] is the current one, reversed. *)
Fixpoint split_words (cur : text) (s : text) : list text :=
  match s with
  | [] => match cur with [] => [] | _ => [rev cur] end
  | c :: s' =>
      if is_py_space c
      then match cur with [] => split_words [] s' | _ => rev cur :: split_words [] s' end
      else split_words (c :: cur) s'
  end.

Definition words (s : text) : list text := split_words [] s.

(** ** Constants *)

Definition _DEGEN_GRAM : nat := 6.
Definition _DEGEN_MIN_WORDS : nat := 40.
Definition _DEGEN_MIN_REPS : nat := 6.
Definition _DEGEN_MIN_FRACTION : Q := 10 # 100.
Definition _DEGEN_TAIL_CHARS : Z := 2000.
Definition _DEGEN_TAIL_MIN_CHARS : nat := 200.
Definition _DEGEN_BLANK_RATIO : Q := 90 # 100.
Definition _DEGEN_TAIL_GRAM : nat := 24.
Definition _DEGEN_TAIL_MIN_DISTINCT : Q := 8 # 100.
Definition _REASONING_LOOP_HEAD_CHARS : Z := 12000.

Definition _BLANK_CHARS : list Z := [32; 9; 10; 13; 11; 12; 160; 8203; 8204; 8205; 8288; 65279]%Z.

Definition is_blank (c : Z) : bool := existsb (Z.eqb c) _BLANK_CHARS.

(** ** Measures of a body *)

Definition _degen_tail (s : text) : text := last_chars _DEGEN_TAIL_CHARS s.

Definition ratio (a b : nat) : Q := (inject_Z (Z.of_nat a) / inject_Z (Z.of_nat b))%Q.

Definition _blank_ratio (s : text) : Q :=
  let tail := _degen_tail s in
  match tail with
  | [] => 0
  | _ => ratio (length (List.filter is_blank tail)) (length tail)
  end.

(** The runs of [g] consecutive elements. *)
Definition shingles {A} (g : nat) (l : list A) : list (list A) :=
  map (fun i => take g (drop i l)) (seq 0 (length l + 1 - g)).

Definition distinct {A} `{EqDecision A} (l : list A) : nat := length (remove_dups l).

Definition distinct_gram_ratio_over (s : text) (window : Z) (gram : nat) : Q :=
  let grams := shingles gram (last_chars window s) in
  match grams with
  | [] => 1
  | _ => ratio (distinct grams) (length grams)
  end.

Definition _distinct_gram_ratio (s : text) : Q :=
  distinct_gram_ratio_over s _DEGEN_TAIL_CHARS _DEGEN_TAIL_GRAM.

(** How often the commonest word shingle occurs, and how many shingles there are. *)
Definition _top_shingle_reps (s : text) : nat * nat :=
  let grams := shingles _DEGEN_GRAM (words s) in
  match grams with
  | [] => (0, 0)%nat
  | _ => (foldr Nat.max 0%nat (map (fun g => length (List.filter (fun x => bool_decide (x = g)) grams)) grams), length grams)
  end.

Inductive Arm := word_shingle | blank_ratio | distinct_gram.

Definition _degenerate_text_arm (s : text) : option Arm :=
  let tail_arm :=
    if (length s <? _DEGEN_TAIL_MIN_CHARS)%nat then None
    else if Qle_bool _DEGEN_BLANK_RATIO (_blank_ratio s) then Some blank_ratio
    else if Qle_bool (_distinct_gram_ratio s) _DEGEN_TAIL_MIN_DISTINCT then Some distinct_gram
    else None in
  if (_DEGEN_MIN_WORDS <=? length (words s))%nat then
    let '(reps, total) := _top_shingle_reps s in
    if ((0 <? total)%nat && (_DEGEN_MIN_REPS <=? reps)%nat && Qle_bool _DEGEN_MIN_FRACTION (ratio reps total))%bool
    then Some word_shingle
    else tail_arm
  else tail_arm.

Definition _is_degenerate_text (s : text) : bool := bool_decide (is_Some (_degenerate_text_arm s)).

Record Evidence := mkEvidence {
  ev_measurable : bool;
  ev_blank_ratio : option Q;
  ev_distinct_gram : option Q;
  ev_tail_chars : nat
}.

Definition _degeneracy_evidence (s : text) : Evidence :=
  let tail := _degen_tail s in
  let measurable := ((_DEGEN_TAIL_MIN_CHARS <=? length s)%nat && (0 <? length tail)%nat)%bool in
  mkEvidence measurable
    (if measurable then Some (_blank_ratio s) else None)
    (if (measurable && (_DEGEN_TAIL_GRAM <=? length tail)%nat)%bool then Some (_distinct_gram_ratio s) else None)
    (length tail).

(** [text.rstrip] of the blank characters. *)
Fixpoint strip_trailing_blank_chars (s : text) : text :=
  match s with
  | [] => []
  | c :: s' =>
      match strip_trailing_blank_chars s' with
      | [] => if is_blank c then [] else [c]
      | r => c :: r
      end
  end.

(** ** The reasoning-loop detector *)

Record LoopVerdict := mkLoopVerdict {
  lv_ratio : Q;
  lv_window : Z;
  lv_threshold : Q;
  lv_seen : Z
}.

Record LoopConf := mkLoopConf {
  lc_window : Z;
  lc_min_chars : Z;
  lc_max_distinct : Q;
  lc_check_every : Z
}.

Record LoopDet := mkLoopDet {
  ld_buf : list text;
  ld_buf_len : Z;
  ld_seen : Z;
  ld_next_check : Z;
  ld_verdict : option LoopVerdict;
  ld_head : list text;
  ld_head_len : Z
}.

Definition loop_init (c : LoopConf) : LoopDet :=
  mkLoopDet [] 0 0 (Z.max (lc_min_chars c) 1) None [] 0.

Definition loop_armed (c : LoopConf) : bool :=
  ((0 <? lc_window c) && (0 <? lc_min_chars c) && (0 <? lc_check_every c))%Z
  && Qltb 0 (lc_max_distinct c) && Qltb (lc_max_distinct c) 1.

(** [d.head] *)
Definition loop_head (d : LoopDet) : text := concat (ld_head d).

Definition tlen (s : text) : Z := Z.of_nat (length s).

(** The head kept for a re-ask, filled once. *)
Definition feed_head (d : LoopDet) (delta : text) : list text * Z :=
  if (ld_head_len d <? _REASONING_LOOP_HEAD_CHARS)%Z
  then let room := (_REASONING_LOOP_HEAD_CHARS - ld_head_len d)%Z in
       (ld_head d ++ [take (Z.to_nat room) delta], ld_head_len d + Z.min (tlen delta) room)%Z
  else (ld_head d, ld_head_len d).

(** The buffer with the delta, collapsed to the window once twice as long. *)
Definition feed_buf (c : LoopConf) (d : LoopDet) (delta : text) : list text * Z :=
  let buf := (ld_buf d ++ [delta])%list in
  let len := (ld_buf_len d + tlen delta)%Z in
  if (lc_window c * 2 <? len)%Z
  then let tail := last_chars (lc_window c) (concat buf) in ([tail], tlen tail)
  else (buf, len).

(** [feed(delta)]; [None] stands for a delta that is not a string. *)
Definition loop_feed (c : LoopConf) (d : LoopDet) (delta : option text) : option LoopVerdict * LoopDet :=
  if (negb (loop_armed c) || bool_decide (is_Some (ld_verdict d)))%bool then (None, d)
  else match delta with
  | None | Some [] => (None, d)
  | Some delta =>
      let '(head, head_len) := feed_head d delta in
      let '(buf, buf_len) := feed_buf c d delta in
      let seen := (ld_seen d + tlen delta)%Z in
      if ((seen <? lc_min_chars c) || (seen <? ld_next_check d))%Z
      then (None, mkLoopDet buf buf_len seen (ld_next_check d) None head head_len)
      else
        let next := (seen + lc_check_every c)%Z in
        let r := distinct_gram_ratio_over (concat buf) (lc_window c) _DEGEN_TAIL_GRAM in
        if Qltb (lc_max_distinct c) r
        then (None, mkLoopDet buf buf_len seen next None head head_len)
        else let v := mkLoopVerdict (py_round 4 r) (lc_window c) (lc_max_distinct c) seen in
             (Some v, mkLoopDet buf buf_len seen next (Some v) head head_len)
  end.

(** ** The blank-run detector *)

Record BlankVerdict := mkBlankVerdict {
  bv_run : Z;
  bv_threshold : Z;
  bv_content : Z
}.

Record BlankDet := mkBlankDet {
  bd_threshold : Z;
  bd_run : Z;
  bd_content : Z;
  bd_verdict : option BlankVerdict
}.

Definition blank_init (threshold : Z) : BlankDet := mkBlankDet threshold 0 0 None.

(** The scan of one delta: the run at its end, and whether it reached the
    threshold on the way. *)
Fixpoint blank_scan (threshold run : Z) (s : text) : Z * bool :=
  match s with
  | [] => (run, false)
  | c :: s' =>
      if is_blank c then
        if (threshold <=? run + 1)%Z then ((run + 1)%Z, true) else blank_scan threshold (run + 1) s'
      else blank_scan threshold 0 s'
  end.

Definition blank_feed (d : BlankDet) (delta : option text) : option BlankVerdict * BlankDet :=
  if (negb (0 <? bd_threshold d)%Z || bool_decide (is_Some (bd_verdict d)))%bool then (None, d)
  else match delta with
  | None | Some [] => (None, d)
  | Some delta =>
      let content := (bd_content d + tlen delta)%Z in
      let '(run, fired) := blank_scan (bd_threshold d) (bd_run d) delta in
      let v := if fired then Some (mkBlankVerdict run (bd_threshold d) content) else None in
      (v, mkBlankDet (bd_threshold d) run content v)
  end.
