(* ===== verification/DegenProps.v ===== *)
(** * What the degeneration detectors promise *)

From Stdlib Require Import QArith Qround Lqa Lia ZArith.
From stdpp Require Import base list.
From S2P Require Import Prelude Degen.

(** ** The last characters of a text *)

Lemma last_chars_pos {A} w (l : list A) : (0 < w)%Z -> last_chars w l = drop (length l - Z.to_nat w) l.
Proof. intros H. unfold last_chars. destruct (Z.leb_spec w 0); [lia|done]. Qed.

Lemma last_chars_length {A} w (l : list A) : (0 < w)%Z -> length (last_chars w l) = (length l `min` Z.to_nat w)%nat.
Proof. intros H. rewrite last_chars_pos, length_drop by done. lia. Qed.

(** Cutting to the window before adding text does not change the window. *)
Lemma last_chars_app {A} w (l d : list A) :
  (0 < w)%Z -> last_chars w (last_chars w l ++ d) = last_chars w (l ++ d).
Proof.
  intros H. rewrite !last_chars_pos by done. rewrite !length_app, length_drop.
  destruct (decide (Z.to_nat w <= length d)%nat) as [L|L].
  - rewrite !drop_app_ge by (rewrite ?length_drop; lia). f_equal. rewrite length_drop. lia.
  - rewrite !drop_app_le by (rewrite ?length_drop; lia). rewrite drop_drop. do 2 f_equal. lia.
Qed.

Lemma last_chars_idem {A} w (l : list A) : (0 < w)%Z -> last_chars w (last_chars w l) = last_chars w l.
Proof.
  intros H. pose proof (last_chars_app w l [] H) as E. by rewrite !app_nil_r in E.
Qed.

(** ** The reasoning-loop detector against the whole text *)

(** The detector with nothing trimmed: it keeps every character fed. *)
Record LoopSpec := mkLoopSpec { sp_all : text; sp_next : Z; sp_verdict : option LoopVerdict }.

Definition spec_init (c : LoopConf) : LoopSpec := mkLoopSpec [] (Z.max (lc_min_chars c) 1) None.

Definition spec_feed (c : LoopConf) (s : LoopSpec) (delta : option text) : option LoopVerdict * LoopSpec :=
  let all := (sp_all s ++ default [] delta)%list in
  if (negb (loop_armed c) || bool_decide (is_Some (sp_verdict s)) || bool_decide (default [] delta = []))%bool
  then (None, s)
  else if ((tlen all <? lc_min_chars c) || (tlen all <? sp_next s))%Z
  then (None, mkLoopSpec all (sp_next s) None)
  else
    let r := distinct_gram_ratio_over all (lc_window c) _DEGEN_TAIL_GRAM in
    let v := if Qltb (lc_max_distinct c) r then None
             else Some (mkLoopVerdict (py_round 4 r) (lc_window c) (lc_max_distinct c) (tlen all)) in
    (v, mkLoopSpec all (tlen all + lc_check_every c) v).

Fixpoint run_feed {S D V} (f : S -> D -> V * S) (s : S) (ds : list D) : list V * S :=
  match ds with
  | [] => ([], s)
  | x :: ds' =>
      let '(v, s) := f s x in
      let '(vs, s) := run_feed f s ds' in
      (v :: vs, s)
  end.

(** What the trimmed state keeps of the whole text. *)
Record loop_rel (c : LoopConf) (d : LoopDet) (s : LoopSpec) : Prop := {
  lr_seen : ld_seen d = tlen (sp_all s);
  lr_next : ld_next_check d = sp_next s;
  lr_verdict : ld_verdict d = sp_verdict s;
  lr_len : ld_buf_len d = tlen (concat (ld_buf d));
  lr_window : last_chars (lc_window c) (concat (ld_buf d)) = last_chars (lc_window c) (sp_all s);
  lr_bound : (ld_buf_len d <= 2 * lc_window c)%Z;
  lr_head : loop_head d = take (Z.to_nat _REASONING_LOOP_HEAD_CHARS) (sp_all s);
  lr_head_len : ld_head_len d = Z.min _REASONING_LOOP_HEAD_CHARS (tlen (sp_all s))
}.

Lemma concat_snoc {A} (l : list (list A)) x : concat (l ++ [x]) = concat l ++ x.
Proof. rewrite concat_app. simpl. by rewrite app_nil_r. Qed.

Lemma tlen_app a b : tlen (a ++ b) = (tlen a + tlen b)%Z.
Proof. unfold tlen. rewrite length_app. lia. Qed.

Lemma feed_head_rel c d s delta :
  loop_rel c d s ->
  concat (feed_head d delta).1 = take (Z.to_nat _REASONING_LOOP_HEAD_CHARS) (sp_all s ++ delta)
  /\ (feed_head d delta).2 = Z.min _REASONING_LOOP_HEAD_CHARS (tlen (sp_all s ++ delta)).
Proof.
  intros R. pose proof (lr_head _ _ _ R) as H. pose proof (lr_head_len _ _ _ R) as L. unfold loop_head in H.
  unfold feed_head. rewrite tlen_app, L. set (cap := _REASONING_LOOP_HEAD_CHARS) in *.
  assert (0 < cap)%Z by (by unfold cap).
  destruct (Z.ltb_spec (Z.min cap (tlen (sp_all s))) cap) as [B|B]; cbn [fst snd]; unfold tlen in *.
  - rewrite concat_snoc, H. split; [|lia].
    rewrite (take_ge (sp_all s)) by lia. rewrite take_app. f_equal; [symmetry; apply take_ge; lia|].
    f_equal. lia.
  - split; [|lia]. by rewrite H, take_app_le by lia.
Qed.

Lemma feed_buf_rel c d s delta :
  (0 < lc_window c)%Z -> loop_rel c d s ->
  let '(buf, len) := feed_buf c d delta in
  len = tlen (concat buf) /\ (len <= 2 * lc_window c)%Z
  /\ last_chars (lc_window c) (concat buf) = last_chars (lc_window c) (sp_all s ++ delta).
Proof.
  intros W R. pose proof (lr_len _ _ _ R) as L. pose proof (lr_window _ _ _ R) as H.
  assert (E : last_chars (lc_window c) (concat (ld_buf d) ++ delta) = last_chars (lc_window c) (sp_all s ++ delta)).
  { by rewrite <- last_chars_app, H, last_chars_app. }
  unfold feed_buf. rewrite L. destruct (Z.ltb_spec (lc_window c * 2) (tlen (concat (ld_buf d)) + tlen delta)) as [B|B].
  - rewrite concat_snoc. cbn [concat]. rewrite app_nil_r. split_and!; [done| |].
    + unfold tlen. rewrite last_chars_length by done. lia.
    + by rewrite last_chars_idem.
  - rewrite concat_snoc, tlen_app. split_and!; [lia|lia|done].
Qed.

Lemma loop_armed_window c : loop_armed c = true -> (0 < lc_window c)%Z.
Proof. unfold loop_armed. rewrite !andb_true_iff, Z.ltb_lt. tauto. Qed.

Lemma loop_step c d s delta :
  loop_rel c d s ->
  (loop_feed c d delta).1 = (spec_feed c s delta).1
  /\ loop_rel c (loop_feed c d delta).2 (spec_feed c s delta).2.
Proof.
  intros R. unfold loop_feed, spec_feed. rewrite (lr_verdict _ _ _ R).
  destruct (loop_armed c) eqn:A; [|done]. apply loop_armed_window in A.
  destruct (bool_decide (is_Some (sp_verdict s))) eqn:V; [done|]. cbn [negb orb].
  destruct delta as [delta|]; [|done]. destruct (decide (delta = [])) as [->|NE]; [done|].
  rewrite bool_decide_eq_false_2 by done. cbn [default from_option id].
  pose proof (feed_head_rel c d s delta R) as [HH HL]. pose proof (feed_buf_rel c d s delta A R) as B.
  destruct (feed_head d delta) as [head hl]. destruct (feed_buf c d delta) as [buf len]. cbn [fst snd] in *.
  destruct B as (BL & BB & BW). rewrite (lr_seen _ _ _ R), (lr_next _ _ _ R), <- tlen_app.
  assert (RR : forall nx v, loop_rel c (mkLoopDet buf len (tlen (sp_all s ++ delta)) nx v head hl) (mkLoopSpec (sp_all s ++ delta) nx v)).
  { intros nx v. by constructor. }
  destruct delta as [|x delta]; [done|].
  destruct (_ || _)%bool; [by split|].
  assert (E : distinct_gram_ratio_over (concat buf) (lc_window c) _DEGEN_TAIL_GRAM
            = distinct_gram_ratio_over (sp_all s ++ x :: delta) (lc_window c) _DEGEN_TAIL_GRAM).
  { unfold distinct_gram_ratio_over. by rewrite BW. }
  rewrite E. destruct (Qltb _ _); by split.
Qed.

Lemma loop_run c d s ds :
  loop_rel c d s ->
  (run_feed (loop_feed c) d ds).1 = (run_feed (spec_feed c) s ds).1
  /\ loop_rel c (run_feed (loop_feed c) d ds).2 (run_feed (spec_feed c) s ds).2.
Proof.
  revert d s. induction ds as [|x ds IH]; intros d s R; cbn [run_feed]; [by split|].
  destruct (loop_step c d s x R) as [E1 R1]. destruct (loop_feed c d x) as [v d1], (spec_feed c s x) as [v' s1].
  cbn [fst snd] in *. subst v'. destruct (IH d1 s1 R1) as [E2 R2].
  destruct (run_feed (loop_feed c) d1 ds), (run_feed (spec_feed c) s1 ds). cbn [fst snd] in *. by subst.
Qed.

Lemma loop_rel_init c : (0 <= lc_window c)%Z -> loop_rel c (loop_init c) (spec_init c).
Proof. intros H. constructor; simpl; try done; lia. Qed.

(** The trimmed detector answers exactly as one that keeps the whole text: the
    same verdict at the same delta, measured over the same window; the head it
    keeps is the first [_REASONING_LOOP_HEAD_CHARS] characters, and its buffer
    never holds more than twice the window. *)
Theorem loop_detector_refines_whole_text c ds :
  loop_armed c = true ->
  let d := (run_feed (loop_feed c) (loop_init c) ds).2 in
  let s := (run_feed (spec_feed c) (spec_init c) ds).2 in
  (run_feed (loop_feed c) (loop_init c) ds).1 = (run_feed (spec_feed c) (spec_init c) ds).1
  /\ ld_verdict d = sp_verdict s
  /\ loop_head d = take (Z.to_nat _REASONING_LOOP_HEAD_CHARS) (sp_all s)
  /\ (tlen (concat (ld_buf d)) <= 2 * lc_window c)%Z.
Proof.
  intros A d s. apply loop_armed_window in A. destruct (loop_run c _ _ ds (loop_rel_init c ltac:(lia))) as [E R].
  pose proof (lr_len _ _ _ R). pose proof (lr_bound _ _ _ R).
  split_and!; [exact E|apply R|apply R|]. unfold d. lia.
Qed.

Definition demo_loop : LoopConf := mkLoopConf 60 50 (2 # 5) 10.
Definition demo_deltas : list (option text) := repeat (Some [97; 98; 99; 100; 101]%Z) 30.

Lemma loop_detector_refines_whole_text_witness :
  let d := (run_feed (loop_feed demo_loop) (loop_init demo_loop) demo_deltas).2 in
  let s := (run_feed (spec_feed demo_loop) (spec_init demo_loop) demo_deltas).2 in
  (run_feed (loop_feed demo_loop) (loop_init demo_loop) demo_deltas).1
    = (run_feed (spec_feed demo_loop) (spec_init demo_loop) demo_deltas).1
  /\ ld_verdict d = sp_verdict s
  /\ loop_head d = take (Z.to_nat _REASONING_LOOP_HEAD_CHARS) (sp_all s)
  /\ (tlen (concat (ld_buf d)) <= 2 * lc_window demo_loop)%Z.
Proof. apply (loop_detector_refines_whole_text demo_loop demo_deltas). vm_compute. reflexivity. Defined.

(** ** A loop that lasts is reported *)

Definition fired (s : LoopSpec) : Prop := is_Some (sp_verdict s).

Lemma spec_fired_stays c s x : fired s -> (spec_feed c s x).2 = s.
Proof. intros F. unfold spec_feed. rewrite (bool_decide_eq_true_2 _ F), orb_true_r. done. Qed.

Lemma spec_run_fired c s ds : fired s -> (run_feed (spec_feed c) s ds).2 = s.
Proof.
  intros F. induction ds as [|x ds IH]; [done|]. cbn [run_feed]. pose proof (spec_fired_stays c s x F) as E.
  destruct (spec_feed c s x) as [v s1]. simpl in E. subst. by destruct (run_feed _ s ds).
Qed.

Lemma spec_run_cons c s x ds :
  (run_feed (spec_feed c) s (x :: ds)).2 = (run_feed (spec_feed c) (spec_feed c s x).2 ds).2.
Proof. cbn [run_feed]. destruct (spec_feed c s x) as [v s1]. cbn [snd]. by destruct (run_feed (spec_feed c) s1 ds). Qed.

Lemma spec_run_app c s ds ds' :
  (run_feed (spec_feed c) s (ds ++ ds')).2 = (run_feed (spec_feed c) (run_feed (spec_feed c) s ds).2 ds').2.
Proof. revert s. induction ds as [|x ds IH]; intros s; [done|]. cbn [app]. rewrite !spec_run_cons. apply IH. Qed.

(** One delta of an armed detector that has not fired. *)
Lemma spec_feed_open c s x :
  loop_armed c = true -> ~ fired s -> x <> [] ->
  let all := (sp_all s ++ x)%list in
  spec_feed c s (Some x)
  = if ((tlen all <? lc_min_chars c) || (tlen all <? sp_next s))%Z then (None, mkLoopSpec all (sp_next s) None)
    else let r := distinct_gram_ratio_over all (lc_window c) _DEGEN_TAIL_GRAM in
         let v := if Qltb (lc_max_distinct c) r then None
                  else Some (mkLoopVerdict (py_round 4 r) (lc_window c) (lc_max_distinct c) (tlen all)) in
         (v, mkLoopSpec all (tlen all + lc_check_every c) v).
Proof.
  intros A NF NE all. unfold spec_feed. rewrite A, (bool_decide_eq_false_2 _ NF). cbn [default from_option id negb orb].
  by rewrite (bool_decide_eq_false_2 _ NE).
Qed.

Lemma spec_feed_empty c s : (spec_feed c s (Some [])).2 = s.
Proof. unfold spec_feed. cbn [default from_option id]. by rewrite (bool_decide_eq_true_2 ([] = [])), orb_true_r by done. Qed.

(** While nothing was reported: all text is kept, and the next check is ahead
    but no further than one interval. *)
Definition open_inv (c : LoopConf) (all : text) (s : LoopSpec) : Prop :=
  fired s \/ (sp_verdict s = None /\ sp_all s = all
    /\ (lc_min_chars c <= sp_next s)%Z /\ (tlen all < sp_next s)%Z
    /\ (sp_next s <= Z.max (Z.max (lc_min_chars c) 1) (tlen all + lc_check_every c))%Z).

Lemma armed_positive c :
  loop_armed c = true -> (0 < lc_window c /\ 0 < lc_min_chars c /\ 0 < lc_check_every c)%Z.
Proof. unfold loop_armed. rewrite !andb_true_iff, !Z.ltb_lt. tauto. Qed.

Lemma open_inv_step c all s x :
  loop_armed c = true -> open_inv c all s -> open_inv c (all ++ x) (spec_feed c s (Some x)).2.
Proof.
  intros A [F|(V & <- & N0 & N1 & N2)]; [left; by rewrite spec_fired_stays|].
  destruct (decide (x = [])) as [->|NE]; [right; rewrite spec_feed_empty, app_nil_r; done|].
  assert (NF : ~ fired s) by (unfold fired; rewrite V; by intros [? ?]).
  pose proof (armed_positive c A). rewrite (spec_feed_open c s x A NF NE). cbv zeta. unfold open_inv.
  assert (tlen (sp_all s) <= tlen (sp_all s ++ x))%Z by (rewrite tlen_app; unfold tlen; lia).
  destruct (Z.ltb_spec (tlen (sp_all s ++ x)) (lc_min_chars c)), (Z.ltb_spec (tlen (sp_all s ++ x)) (sp_next s));
    cbn [orb snd sp_all sp_next sp_verdict].
  - right. split_and!; try done; lia.
  - lia.
  - right. split_and!; try done; lia.
  - destruct (Qltb _ _); [right|left; by eexists]. cbn. split_and!; try done; lia.
Qed.

Lemma open_inv_run c all s (ds : list text) :
  loop_armed c = true -> open_inv c all s ->
  open_inv c (all ++ concat ds) (run_feed (spec_feed c) s (map Some ds)).2.
Proof.
  intros A. revert all s. induction ds as [|x ds IH]; intros all s I; [by rewrite app_nil_r|].
  cbn [map concat]. rewrite spec_run_cons, app_assoc. apply IH. by apply open_inv_step.
Qed.

(** Every text from here on, up to the end of [ds], measures as a loop. *)
Definition looping (c : LoopConf) (all : text) (ds : list text) : Prop :=
  forall k, (0 < k <= length ds)%nat ->
    (distinct_gram_ratio_over (all ++ concat (take k ds)) (lc_window c) _DEGEN_TAIL_GRAM <= lc_max_distinct c)%Q.

Lemma looping_fires c all s ds :
  loop_armed c = true -> open_inv c all s -> (lc_min_chars c <= tlen all)%Z ->
  (fired s \/ sp_next s <= tlen (all ++ concat ds))%Z -> looping c all ds ->
  fired (run_feed (spec_feed c) s (map Some ds)).2.
Proof.
  intros A. revert all s. induction ds as [|x ds IH]; intros all s I M N L.
  - destruct I as [F|(V & E & _ & N1 & _)]; [done|]. destruct N as [F|N]; [done|].
    simpl in N. rewrite app_nil_r in N. lia.
  - destruct I as [F|(V & E & N0 & N1 & N2)]; [by rewrite spec_run_fired|].
    destruct N as [F|N]; [by rewrite spec_run_fired|]. subst all.
    assert (NF : ~ fired s) by (unfold fired; rewrite V; by intros [? ?]).
    cbn [map]. rewrite spec_run_cons.
    assert (I' : open_inv c (sp_all s ++ x) (spec_feed c s (Some x)).2) by (apply open_inv_step; [done|right; done]).
    apply (IH (sp_all s ++ x)%list); [exact I'| | |].
    + rewrite tlen_app. unfold tlen in *. lia.
    + destruct (decide (x = [])) as [->|NE].
      { rewrite spec_feed_empty, app_nil_r. by right. }
      rewrite (spec_feed_open c s x A NF NE). cbv zeta.
      destruct (Z.ltb_spec (tlen (sp_all s ++ x)) (lc_min_chars c)); [rewrite tlen_app in *; unfold tlen in *; lia|].
      destruct (Z.ltb_spec (tlen (sp_all s ++ x)) (sp_next s)); cbn [orb snd].
      * right. cbn. cbn [concat] in N. by rewrite <- app_assoc.
      * left. pose proof (L 1%nat ltac:(simpl; lia)) as Q. simpl in Q. rewrite app_nil_r in Q.
        destruct (Qltb_spec (lc_max_distinct c) (distinct_gram_ratio_over (sp_all s ++ x) (lc_window c) _DEGEN_TAIL_GRAM)) as [B|B].
        -- exfalso. by apply (Qlt_not_le _ _ B).
        -- by eexists.
    + intros k Hk. specialize (L (S k) ltac:(simpl; lia)). simpl in L. by rewrite app_assoc in L.
Qed.

(** A loop is reported within one check interval: once the stream has passed
    the minimum length, if [check_every] more characters arrive and after each
    delta the window measures as a loop, the detector has its verdict. *)
Theorem persistent_loop_detected c (ds ds' : list text) :
  loop_armed c = true -> (lc_min_chars c <= tlen (concat ds))%Z ->
  (lc_check_every c <= tlen (concat ds'))%Z -> looping c (concat ds) ds' ->
  is_Some (ld_verdict (run_feed (loop_feed c) (loop_init c) (map Some (ds ++ ds'))).2).
Proof.
  intros A M C L. pose proof (armed_positive c A) as P.
  destruct (loop_run c _ _ (map Some (ds ++ ds')) (loop_rel_init c ltac:(lia))) as [_ R]. rewrite (lr_verdict _ _ _ R).
  assert (I : open_inv c ([] ++ concat ds) (run_feed (spec_feed c) (spec_init c) (map Some ds)).2).
  { apply open_inv_run; [done|]. right. unfold spec_init, tlen. simpl. split_and!; try done; lia. }
  rewrite map_app, spec_run_app. eapply looping_fires; [done|exact I|done| |exact L].
  destruct I as [F|(_ & _ & _ & _ & N)]; [by left|right]. simpl app in *. rewrite tlen_app. lia.
Qed.

Lemma persistent_loop_detected_witness :
  is_Some (ld_verdict (run_feed (loop_feed demo_loop) (loop_init demo_loop)
    (map Some (repeat [97; 98; 99; 100; 101]%Z 12 ++ repeat [97; 98; 99; 100; 101]%Z 2))).2).
Proof.
  apply (persistent_loop_detected demo_loop); [vm_compute; reflexivity|apply Z.leb_le; vm_compute; reflexivity..|].
  intros k Hk. apply Qle_bool_iff. destruct k as [|[|[|k]]]; simpl in Hk; [lia|vm_compute; reflexivity..|lia].
Defined.

(** ** The blank-run detector *)

(** The text holds [t] blank characters in a row. *)
Definition has_blank_run (t : Z) (s : text) : Prop :=
  exists a b c, s = a ++ b ++ c /\ Forall (fun x => is_blank x = true) b /\ tlen b = t.

Lemma blank_scan_app t run a b :
  blank_scan t run (a ++ b) = if (blank_scan t run a).2 then blank_scan t run a else blank_scan t (blank_scan t run a).1 b.
Proof.
  revert run. induction a as [|c a IH]; intros run; simpl; [done|].
  destruct (is_blank c); [|apply IH]. destruct (_ <=? _)%Z; [done|apply IH].
Qed.

(** A run longer than a blank prefix [p] cannot span a non-blank after it. *)
Lemma run_past_mark (p : text) x s a b c :
  is_blank x = false -> Forall (fun x => is_blank x = true) b -> (length p < length b)%nat ->
  p ++ x :: s = a ++ b ++ c -> exists a', s = a' ++ b ++ c.
Proof.
  intros NX FB L E. destruct (decide (length a <= length p)%nat) as [LA|LA].
  - exfalso. assert (X : (p ++ x :: s) !! length p = Some x) by (by rewrite lookup_app_r, Nat.sub_diag).
    rewrite E, lookup_app_r in X by lia. rewrite lookup_app_l in X by lia.
    apply (Forall_lookup_1 _ _ _ _ FB) in X. congruence.
  - exists (drop (S (length p)) a). apply (f_equal (drop (S (length p)))) in E.
    rewrite drop_app_ge in E by lia. replace (S (length p) - length p)%nat with 1%nat in E by lia. simpl in E.
    rewrite drop_app_le in E by lia. done.
Qed.

Lemma blank_scan_spec t p s :
  Forall (fun x => is_blank x = true) p -> (tlen p < t)%Z ->
  ((blank_scan t (tlen p) s).2 = true <-> has_blank_run t (p ++ s)).
Proof.
  revert p. induction s as [|x s IH]; intros p FP L; simpl.
  - split; [done|]. rewrite app_nil_r. intros (a & b & c & -> & _ & E). rewrite !tlen_app in L. unfold tlen in *. lia.
  - destruct (is_blank x) eqn:B.
    + assert (FP' : Forall (fun x => is_blank x = true) (p ++ [x])) by (apply Forall_app; split; [done|by constructor]).
      assert (TL : tlen (p ++ [x]) = (tlen p + 1)%Z) by (by rewrite tlen_app).
      destruct (Z.leb_spec t (tlen p + 1)) as [G|G]; simpl.
      * split; [|done]. intros _. exists [], (p ++ [x]), s. rewrite <- app_assoc. split_and!; [done|done|lia].
      * rewrite <- TL, (IH (p ++ [x])) by (done || lia). by rewrite <- app_assoc.
    + change 0%Z with (tlen []). rewrite (IH []) by (by constructor || (unfold tlen in *; simpl in *; lia)). simpl. split.
      * intros (a & b & c & -> & F & E). exists (p ++ x :: a), b, c. by rewrite <- app_assoc.
      * intros (a & b & c & E & F & T). destruct (run_past_mark p x s a b c B F) as [a' ->]; [unfold tlen in *; lia|done|].
        by exists a', b, c.
Qed.

Lemma blank_scan_fired t run s : (0 < t)%Z -> (run < t)%Z -> (blank_scan t run s).2 = true -> (blank_scan t run s).1 = t.
Proof.
  intros T. revert run. induction s as [|x s IH]; intros run L; simpl; [done|].
  destruct (is_blank x); [|by apply IH]. destruct (Z.leb_spec t (run + 1)); simpl; [lia|]. apply IH. lia.
Qed.

Lemma blank_scan_run t run s : (0 < t)%Z -> (run < t)%Z -> (blank_scan t run s).2 = false -> ((blank_scan t run s).1 < t)%Z.
Proof.
  intros T. revert run. induction s as [|x s IH]; intros run L; simpl; [done|].
  destruct (is_blank x); [|by apply IH]. destruct (Z.leb_spec t (run + 1)); simpl; [done|]. apply IH. lia.
Qed.

(** The text a stream of deltas carries. *)
Definition fed (ds : list (option text)) : text := concat (map (default []) ds).

Definition blank_inv (t : Z) (all : text) (d : BlankDet) : Prop :=
  bd_threshold d = t
  /\ match bd_verdict d with
     | None => blank_scan t 0 all = (bd_run d, false)
     | Some v => (blank_scan t 0 all).2 = true /\ bv_run v = t /\ bv_threshold v = t
     end.

Lemma blank_inv_step t all d x :
  (0 < t)%Z -> blank_inv t all d -> blank_inv t (all ++ default [] x) (blank_feed d x).2.
Proof.
  intros T (E & I). unfold blank_feed. rewrite E. replace (0 <? t)%Z with true by (symmetry; by apply Z.ltb_lt).
  unfold blank_inv. destruct (bd_verdict d) as [v|] eqn:V; cbn [negb orb].
  - rewrite bool_decide_eq_true_2 by eauto. cbn [snd]. rewrite V. split; [done|].
    destruct I as (I1 & I2 & I3). rewrite blank_scan_app, I1. done.
  - rewrite bool_decide_eq_false_2 by (by intros [? ?]). cbn [orb].
    destruct x as [[|c x]|]; cbn [default from_option id snd]; try (rewrite app_nil_r, V; done).
    rewrite blank_scan_app, I. cbn [fst snd].
    pose proof (blank_scan_run t 0 all T T) as RL. rewrite I in RL. specialize (RL eq_refl). cbn [fst] in RL.
    pose proof (blank_scan_fired t (bd_run d) (c :: x) T RL) as RF.
    destruct (blank_scan t (bd_run d) (c :: x)) as [r f]. cbn [fst snd] in RF. destruct f; cbn; [|done].
    split_and!; auto.
Qed.

Lemma blank_inv_run t all d ds :
  (0 < t)%Z -> blank_inv t all d -> blank_inv t (all ++ fed ds) (run_feed blank_feed d ds).2.
Proof.
  intros T. revert all d. induction ds as [|x ds IH]; intros all d I; cbn [run_feed].
  - unfold fed. simpl. by rewrite app_nil_r.
  - pose proof (IH _ _ (blank_inv_step t all d x T I)) as H. rewrite <- app_assoc in H.
    destruct (blank_feed d x) as [v d1]. cbn [snd] in H. by destruct (run_feed blank_feed d1 ds).
Qed.

(** The blank-run detector reports exactly when the whole stream so far holds
    [threshold] blank characters in a row, however it was cut into deltas, and
    the run it reports is the threshold itself. *)
Theorem blank_run_detected_exactly t ds :
  (0 < t)%Z ->
  let d := (run_feed blank_feed (blank_init t) ds).2 in
  (is_Some (bd_verdict d) <-> has_blank_run t (fed ds))
  /\ forall v, bd_verdict d = Some v -> bv_run v = t.
Proof.
  intros T d. pose proof (blank_inv_run t [] (blank_init t) ds T) as [_ I]; [done|]. fold d in I. simpl app in I.
  assert (S : (blank_scan t 0 (fed ds)).2 = true <-> has_blank_run t (fed ds)).
  { change 0%Z with (tlen []). rewrite (blank_scan_spec t []) by (constructor || (unfold tlen; simpl; lia)). done. }
  rewrite <- S. destruct (bd_verdict d) as [v|].
  - destruct I as (I1 & I2 & _). rewrite I1. split; [done|]. by intros v' [= <-].
  - rewrite I. split; [|done]. split; [by intros [? ?]|done].
Qed.

Lemma blank_run_detected_exactly_witness :
  let d := (run_feed blank_feed (blank_init 3) [Some [123; 32]%Z; None; Some [10; 8203; 125]%Z]).2 in
  (is_Some (bd_verdict d) <-> has_blank_run 3 (fed [Some [123; 32]%Z; None; Some [10; 8203; 125]%Z]))
  /\ forall v, bd_verdict d = Some v -> bv_run v = 3%Z.
Proof. apply blank_run_detected_exactly. lia. Defined.

(** ** Trailing blanks *)

(** The salvage strip removes exactly the trailing blank characters. *)
Lemma strip_trailing_spec s :
  exists b, s = strip_trailing_blank_chars s ++ b /\ Forall (fun x => is_blank x = true) b
    /\ match last (strip_trailing_blank_chars s) with Some x => is_blank x = false | None => True end.
Proof.
  induction s as [|x s (b & E & F & L)]; simpl; [by exists []|].
  destruct (strip_trailing_blank_chars s) as [|y r].
  - simpl in E. subst b. destruct (is_blank x) eqn:B.
    + exists (x :: s). split_and!; [done|by constructor|done].
    + exists s. split_and!; done.
  - exists b. split_and!; [|done|].
    + simpl in E |- *. by rewrite <- E.
    + by rewrite last_cons_cons.
Qed.

(** ** Repetition *)

(** The text repeats with period [p]. *)
Definition periodic {A} (p : nat) (l : list A) : Prop :=
  forall i, (i + p < length l)%nat -> l !! i = l !! (i + p)%nat.

Lemma shingle_shift {A} p g (l : list A) i :
  periodic p l -> (i + p + g <= length l)%nat -> take g (drop (i + p) l) = take g (drop i l).
Proof.
  intros P H. apply list_eq. intros j. destruct (decide (j < g)%nat) as [L|L].
  - rewrite !lookup_take_lt, !lookup_drop by done. rewrite (P (i + j)%nat) by lia. f_equal. lia.
  - rewrite !lookup_take_ge by lia. done.
Qed.

Lemma shingle_reduce {A} p g (l : list A) i :
  (0 < p)%nat -> periodic p l -> (i + g <= length l)%nat ->
  exists j, (j < p)%nat /\ (j + g <= length l)%nat /\ take g (drop i l) = take g (drop j l).
Proof.
  intros HP P. induction i as [i IH] using lt_wf_ind. intros H. destruct (decide (i < p)%nat) as [L|L]; [by exists i|].
  destruct (IH (i - p)%nat) as (j & J1 & J2 & E); [lia|lia|]. exists j. split_and!; [done|done|]. rewrite <- E.
  rewrite <- (shingle_shift p g l (i - p)) by (done || lia). do 2 f_equal. lia.
Qed.

(** A text of period [p] has at most [p] different shingles. *)
Lemma periodic_distinct {A} `{EqDecision A} p g (l : list A) :
  (0 < p)%nat -> periodic p l -> (distinct (shingles g l) <= p)%nat.
Proof.
  intros HP P. unfold distinct. transitivity (length (map (fun j => take g (drop j l)) (seq 0 p)));
    [|rewrite length_map, length_seq; lia].
  apply submseteq_length, NoDup_submseteq; [apply NoDup_remove_dups|].
  intros x Hx. rewrite elem_of_remove_dups in Hx. unfold shingles in Hx.
  apply list_elem_of_fmap in Hx as (i & -> & Hi). apply elem_of_seq in Hi.
  destruct (shingle_reduce p g l i HP P) as (j & J1 & _ & E); [lia|]. apply list_elem_of_fmap. exists j.
  split; [done|]. apply elem_of_seq. lia.
Qed.

Lemma shingles_length {A} g (l : list A) : length (shingles g l) = (length l + 1 - g)%nat.
Proof. unfold shingles. by rewrite length_map, length_seq. Qed.

Lemma ratio_le a b (q : Q) : (0 < b)%nat -> (inject_Z (Z.of_nat a) <= q * inject_Z (Z.of_nat b))%Q -> (ratio a b <= q)%Q.
Proof.
  intros Hb H. unfold ratio. apply Qle_shift_div_r; [|done]. unfold Qlt, inject_Z. simpl. lia.
Qed.

(** The measure of a window of period [p]. *)
Lemma periodic_ratio s w g p (q : Q) :
  (0 < p)%nat -> periodic p (last_chars w s) -> (g <= length (last_chars w s))%nat ->
  (inject_Z (Z.of_nat p) <= q * inject_Z (Z.of_nat (length (last_chars w s) + 1 - g)))%Q ->
  (distinct_gram_ratio_over s w g <= q)%Q.
Proof.
  intros HP P G H. unfold distinct_gram_ratio_over. set (l := last_chars w s) in *.
  pose proof (shingles_length g l) as SL. pose proof (periodic_distinct p g l HP P) as D.
  destruct (shingles g l) as [|x xs]; [simpl in SL; lia|]. apply ratio_le; [simpl; lia|]. rewrite SL.
  eapply Qle_trans; [|exact H]. rewrite <- Zle_Qle. lia.
Qed.

Lemma arm_of_distinct s :
  (_DEGEN_TAIL_MIN_CHARS <= length s)%nat -> (_distinct_gram_ratio s <= _DEGEN_TAIL_MIN_DISTINCT)%Q ->
  _is_degenerate_text s = true.
Proof.
  intros L R. unfold _is_degenerate_text. apply bool_decide_eq_true_2. unfold _degenerate_text_arm.
  apply Qle_bool_iff in R. rewrite R. destruct (Nat.ltb_spec (length s) _DEGEN_TAIL_MIN_CHARS); [lia|].
  destruct (_ <=? _)%nat; [destruct (_top_shingle_reps s) as [reps total]; destruct (_ && _)%bool; [by eexists|]|];
    destruct (Qle_bool _DEGEN_BLANK_RATIO _); by eexists.
Qed.

(** A body whose last 2000 characters repeat with a period of up to 158
    characters is judged degenerate, whatever comes before and whatever the
    repeated text is. *)
Theorem short_period_flagged s p :
  (2000 <= length s)%nat -> (0 < p <= 158)%nat -> periodic p (_degen_tail s) ->
  _is_degenerate_text s = true.
Proof.
  intros L HP P. apply arm_of_distinct; [unfold _DEGEN_TAIL_MIN_CHARS; lia|].
  assert (LL : length (last_chars _DEGEN_TAIL_CHARS s) = 2000%nat).
  { rewrite last_chars_length by done. unfold _DEGEN_TAIL_CHARS. lia. }
  apply (periodic_ratio s _DEGEN_TAIL_CHARS _DEGEN_TAIL_GRAM p); [lia|exact P|rewrite LL; unfold _DEGEN_TAIL_GRAM; lia|].
  rewrite LL. change (inject_Z (Z.of_nat (2000 + 1 - _DEGEN_TAIL_GRAM))) with (1977 # 1).
  apply (Qle_trans _ (158 # 1)); [|by apply Qle_bool_iff]. unfold Qle, inject_Z. simpl. lia.
Qed.

Definition demo_body : text := repeat 97%Z 2000.

Lemma short_period_flagged_witness : _is_degenerate_text demo_body = true.
Proof.
  apply (short_period_flagged demo_body 1); [apply Nat.leb_le; vm_compute; reflexivity|lia|].
  assert (E : _degen_tail demo_body = repeat 97%Z 2000) by (vm_compute; reflexivity). rewrite E. clear E.
  intros i. rewrite repeat_length. intros H.
  assert (X : forall j, (j < 2000)%nat -> repeat 97%Z 2000 !! j = Some 97%Z).
  { intros j Hj. apply (lookup_replicate_2 2000 97%Z). done. }
  by rewrite !X by lia.
Defined.
