(* ===== verification/Intent.v ===== *)
(** * Routing by intent (intent.py)

    A caller names an endpoint (a pin), a profile or bare requirements;
    [parse_intent] normalises the request body and [resolve] picks the endpoint,
    ranks the alternatives and says why every other candidate was refused.  The
    map from a caller's spelling to an endpoint class and the table of profiles
    are parameters, as in the code. *)

From Stdlib Require Import QArith Lqa Lia ZArith Permutation Sorted.
From stdpp Require Import base list strings.
From S2P Require Import Prelude PyDict PyText Json.

Local Open Scope string_scope.

(** ** Vocabulary *)

Definition KNOWN_CAPABILITIES : list string :=
  ["vision"; "reasoning"; "streaming"; "tool_calling"; "structured_output"].
Definition KNOWN_KINDS : list string := ["chat"; "embed"; "rerank"].
Definition PREFERENCES : list string := ["balanced"; "latency"; "capacity"; "context"; "cost"].
Definition DEFAULT_PREFERENCE : string := "balanced".

Definition mem (x : string) (l : list string) : bool := bool_decide (x ∈ l).

Record Profile := mkProfile {
  p_name : string;
  p_kind : string;
  p_requires : list string;
  p_prefer : string
}.

Definition BUILTIN_PROFILES : dict string Profile :=
  map (fun p => (p_name p, p))
    [mkProfile "fast-chat" "chat" [] "latency";
     mkProfile "chat" "chat" [] "balanced";
     mkProfile "reasoning" "chat" ["reasoning"] "balanced";
     mkProfile "vision" "chat" ["vision"] "balanced";
     mkProfile "tools" "chat" ["tool_calling"] "balanced";
     mkProfile "structured" "chat" ["structured_output"] "balanced";
     mkProfile "long-context" "chat" [] "context";
     mkProfile "embed" "embed" [] "balanced";
     mkProfile "rerank" "rerank" [] "balanced"].

(** ** What is known of an endpoint *)

Record ModelFacts := mkFacts {
  mf_endpoint : string;
  mf_kind : string;
  mf_context : Z;
  mf_capabilities : list string;
  mf_routed : bool;
  mf_healthy : bool;
  mf_max_slots : Z;
  mf_in_flight : Z;
  mf_typical_ms : Q;
  mf_input_usd : Q;
  mf_output_usd : Q;
  mf_real_cost : bool
}.

Definition free_slots (f : ModelFacts) : Z := Z.max 0 (mf_max_slots f - mf_in_flight f).

(** A sort key part: a number, infinity or a text. *)
Inductive KeyPart := KNum (q : Q) | KInf | KStr (s : string).

Definition latency_key (f : ModelFacts) : KeyPart :=
  if Qltb 0 (mf_typical_ms f) then KNum (mf_typical_ms f) else KInf.

Definition price_key (f : ModelFacts) : Q := (mf_input_usd f + mf_output_usd f)%Q.

(** ** The request *)

Record Intent := mkIntent {
  in_pin : string;
  in_pin_as_written : string;
  in_profile : string;
  in_requires : list string;
  in_kind : string;
  in_min_context : Z;
  in_prefer : string;
  in_exclude : list string;
  in_exclude_pairs : list (string * string)
}.

(** [sorted] of a set of texts. *)
Definition sorted_strs (l : list string) : list string := isort String.leb (remove_dups l).

Definition exclude_as_written (i : Intent) : list string := map snd (in_exclude_pairs i).

(** [x is None] *)
Definition is_none (j : json) : bool := match j with JNull => true | _ => false end.

(** [x or y] on texts. *)
Definition or_else (x y : string) : string := if String.eqb x "" then y else x.

Definition declared (i : Intent) : string :=
  or_else (in_pin_as_written i) (or_else (in_pin i) (or_else (in_profile i)
    (match in_requires i with
     | [] => in_kind i
     | r => sep_concat "+" (sorted_strs r)
     end))).

(** The causes of an [IntentError]. *)
Inductive IntentError :=
| UnknownIntent (key : string)
| ExcludeNotList
| NothingDeclared
| PinExcluded (raw pin : string)
| RequiresNotList
| UnknownCapability (name : string)
| UnknownKind (kind : string)
| UnknownPreference (prefer : string)
| MinContextNotInt (raw : json)
| MinContextNegative.

Definition resolve_profile (table : dict string Profile) (name : string) : IntentError + Profile :=
  let key := strip name in
  match dget table key with
  | Some p => inr p
  | None => inl (UnknownIntent key)
  end.

(** [str(body.get(k) or "").strip()] *)
Definition text_field (body : dict string json) (k : string) : string :=
  let v := jget body k in strip (if truthy v then py_str v else "").

(** [int(s)] of a text. *)
Definition int_of_str (s : string) : option Z :=
  let '(sg, s) := parse_sign (strip s) in
  let '(v, n, rest) := digits_us s 0 0 in
  if ((0 <? n)%Z && String.eqb rest "")%bool then Some (sg * v)%Z else None.

(** [int(x or 0)] *)
Definition int_or_zero (j : json) : option Z :=
  if negb (truthy j) then Some 0%Z
  else match j with
       | JBool _ => Some 1%Z
       | JInt n => Some n
       | JFloat _ q => Some (Qtrunc q)
       | JStr s => int_of_str s
       | _ => None
       end.

(** A field that is absent, one text or a list: the texts of its entries. *)
Definition str_list (j : json) : option (list string) :=
  match j with
  | JStr s => Some [strip s]
  | JList l => Some (map (fun x => strip (py_str x)) l)
  | _ => None
  end.

(** The capabilities asked for, each known; [requires] grows as a set. *)
Fixpoint add_requires (acc : list string) (names : list string) : IntentError + list string :=
  match names with
  | [] => inr acc
  | n :: names' =>
      if mem n KNOWN_CAPABILITIES then add_requires (if mem n acc then acc else (acc ++ [n])%list) names'
      else inl (UnknownCapability n)
  end.

(** Errors short-circuit. *)
Definition bind_err {A B} (m : IntentError + A) (f : A -> IntentError + B) : IntentError + B :=
  match m with
  | inl e => inl e
  | inr a => f a
  end.
Notation "'let!' x := m 'in' k" := (bind_err m (fun x => k)) (at level 10, x pattern, k at level 200).

Section Parse.
Context (table : dict string Profile) (normalize : string -> string).

(** The endpoints refused, as the caller wrote them. *)
Definition parse_exclude (body : dict string json) : IntentError + list string :=
  match jget body "exclude" with
  | JNull => inr []
  | j => match str_list j with
         | Some l => inr (List.filter (fun n => negb (String.eqb n "")) l)
         | None => inl ExcludeNotList
         end
  end.

Definition parse_requires (acc : list string) (body : dict string json) : IntentError + list string :=
  match jget body "requires" with
  | JNull => inr acc
  | j => match str_list j with
         | Some l => add_requires acc l
         | None => inl RequiresNotList
         end
  end.

(** The profile's share: its requirements, and its kind and preference where
    the caller gave none. *)
Definition with_profile (name kind prefer : string) : IntentError + (string * list string * string * string) :=
  if String.eqb name "" then inr ("", [], kind, prefer)
  else let! p := resolve_profile table name in
       inr (p_name p, remove_dups (p_requires p), or_else kind (p_kind p), or_else prefer (p_prefer p)).

Definition check {A} (b : bool) (e : IntentError) (k : IntentError + A) : IntentError + A :=
  if b then k else inl e.

Definition parse_intent (body : dict string json) : IntentError + Intent :=
  let raw_pin := text_field body "model" in
  let pin := if String.eqb raw_pin "" then raw_pin else normalize raw_pin in
  let profile_name := text_field body "intent" in
  let! written := parse_exclude body in
  let pairs := map (fun n => (normalize n, n)) written in
  let exclude := remove_dups (map fst pairs) in
  check (negb (String.eqb pin "" && String.eqb profile_name ""
               && is_none (jget body "requires") && bool_decide (exclude = []))) NothingDeclared
  (check (negb (negb (String.eqb pin "") && mem pin exclude)) (PinExcluded raw_pin pin)
  (let! (name, req, kind, prefer) := with_profile profile_name (text_field body "kind") (text_field body "prefer") in
   let! req := parse_requires req body in
   let kind := or_else kind "chat" in
   check (mem kind KNOWN_KINDS) (UnknownKind kind)
   (let prefer := or_else prefer DEFAULT_PREFERENCE in
    check (mem prefer PREFERENCES) (UnknownPreference prefer)
    (match int_or_zero (jget body "min_context") with
     | None => inl (MinContextNotInt (jget body "min_context"))
     | Some n => check (0 <=? n)%Z MinContextNegative
                   (inr (mkIntent pin raw_pin name req kind n prefer exclude pairs))
     end)))).
End Parse.

(** ** The decision *)

Inductive Reason :=
| REJECT_NOT_ROUTED
| REJECT_WRONG_KIND
| REJECT_MISSING_CAPABILITY
| REJECT_CONTEXT_TOO_SMALL
| REJECT_EXCLUDED
| REJECT_UNKNOWN_ENDPOINT.

#[global] Instance Reason_eq_dec : EqDecision Reason.
Proof. solve_decision. Defined.

Definition reason_text (r : Reason) : string :=
  match r with
  | REJECT_NOT_ROUTED => "not_routed"
  | REJECT_WRONG_KIND => "wrong_kind"
  | REJECT_MISSING_CAPABILITY => "missing_capability"
  | REJECT_CONTEXT_TOO_SMALL => "context_too_small"
  | REJECT_EXCLUDED => "excluded"
  | REJECT_UNKNOWN_ENDPOINT => "unknown_endpoint"
  end.

Record Rejection := mkRejection { rj_endpoint : string; rj_reason : Reason; rj_detail : string }.

Record Resolution := mkResolution {
  rs_intent : Intent;
  rs_endpoint : option string;
  rs_ranked : list string;
  rs_rejected : list Rejection;
  rs_unmatched : list string
}.

Definition near_misses (r : Resolution) : list Rejection :=
  List.filter (fun x => negb (bool_decide (rj_reason x = REJECT_WRONG_KIND))) (rs_rejected r).

Definition KZ (n : Z) : KeyPart := KNum (inject_Z n).

Definition _preference_key (prefer : string) (f : ModelFacts) : list KeyPart :=
  if String.eqb prefer "latency" then [latency_key f; KZ (- free_slots f)]
  else if String.eqb prefer "capacity" then [KZ (- free_slots f); latency_key f]
  else if String.eqb prefer "context" then [KZ (- mf_context f); latency_key f]
  else if String.eqb prefer "cost" then [KNum (price_key f); latency_key f]
  else [KZ (if (0 <? free_slots f)%Z then 0 else 1); latency_key f; KZ (- free_slots f)].

Definition sort_key (prefer : string) (f : ModelFacts) : list KeyPart :=
  ([KZ (if mf_real_cost f then 1 else 0); KZ (if mf_healthy f then 0 else 1)]
   ++ _preference_key prefer f ++ [KStr (mf_endpoint f)])%list.

(** [a < b] and [a == b] of two parts of the same place in a key. *)
Definition part_ltb (a b : KeyPart) : bool :=
  match a, b with
  | KNum p, KNum q => Qltb p q
  | KNum _, KInf => true
  | KStr x, KStr y => String.ltb x y
  | _, _ => false
  end.

Definition part_eqb (a b : KeyPart) : bool :=
  match a, b with
  | KNum p, KNum q => Qeq_bool p q
  | KInf, KInf => true
  | KStr x, KStr y => String.eqb x y
  | _, _ => false
  end.

(** Tuples in order: the first place that differs decides. *)
Fixpoint key_leb (a b : list KeyPart) : bool :=
  match a, b with
  | [], _ => true
  | _, [] => false
  | x :: a', y :: b' => if part_eqb x y then key_leb a' b' else part_ltb x y
  end.

(** Why a candidate cannot serve, [None] when it can. *)
Definition refusal (i : Intent) (f : ModelFacts) : option Rejection :=
  let missing := sorted_strs (List.filter (fun c => negb (mem c (mf_capabilities f))) (in_requires i)) in
  if mem (mf_endpoint f) (in_exclude i)
  then Some (mkRejection (mf_endpoint f) REJECT_EXCLUDED "excluded by the request")
  else if negb (mf_routed f)
  then Some (mkRejection (mf_endpoint f) REJECT_NOT_ROUTED "endpoint is not routed")
  else if negb (String.eqb (mf_kind f) (in_kind i))
  then Some (mkRejection (mf_endpoint f) REJECT_WRONG_KIND
               ("kind is " ++ repr_str (mf_kind f) ++ ", not " ++ repr_str (in_kind i)))
  else if negb (bool_decide (missing = []))
  then Some (mkRejection (mf_endpoint f) REJECT_MISSING_CAPABILITY ("does not declare " ++ sep_concat ", " missing))
  else if (negb (in_min_context i =? 0) && negb (mf_context f =? 0) && (mf_context f <? in_min_context i))%Z
  then Some (mkRejection (mf_endpoint f) REJECT_CONTEXT_TOO_SMALL
               ("context " ++ str_of_Z (mf_context f) ++ " < required " ++ str_of_Z (in_min_context i)))
  else None.

Definition candidates (i : Intent) (facts : list ModelFacts) : list ModelFacts :=
  let pin := strip (in_pin i) in
  if String.eqb pin "" then facts else List.filter (fun f => String.eqb (mf_endpoint f) pin) facts.

(** The exclusions that name nothing here, as the caller wrote them. *)
Definition unmatched (i : Intent) (facts : list ModelFacts) : list string :=
  map snd (List.filter (fun p => negb (mem p.1 (map mf_endpoint facts))) (in_exclude_pairs i)).

Definition eligible (i : Intent) (f : ModelFacts) : bool :=
  match refusal i f with None => true | Some _ => false end.

Definition ranking (i : Intent) (fs : list ModelFacts) : list ModelFacts :=
  isort (fun a b => key_leb (sort_key (in_prefer i) a) (sort_key (in_prefer i) b)) fs.

Definition resolve (i : Intent) (facts : list ModelFacts) : Resolution :=
  match unmatched i facts with
  | (_ :: _) as un =>
      mkResolution i None [] (map (fun n => mkRejection n REJECT_UNKNOWN_ENDPOINT "no such endpoint to exclude") un) un
  | [] =>
      let pin := strip (in_pin i) in
      let cands := candidates i facts in
      if (negb (String.eqb pin "") && bool_decide (length cands = 0%nat))%bool
      then mkResolution i None []
             [mkRejection (or_else (in_pin_as_written i) pin) REJECT_UNKNOWN_ENDPOINT "no such endpoint"] []
      else
        let rejected := omap (refusal i) cands in
        match ranking i (List.filter (eligible i) cands) with
        | [] => mkResolution i None [] rejected []
        | (f :: _) as ranked => mkResolution i (Some (mf_endpoint f)) (map mf_endpoint ranked) rejected []
        end
  end.

(** [repr] of a list of texts. *)
Definition repr_strs (l : list string) : string := py_repr (JList (map JStr l)).

(** [failure_message()]; its dashes are the UTF-8 bytes of the source text. *)
Definition failure_message (r : Resolution) : string :=
  let i := rs_intent r in
  let want :=
    ((if String.eqb (in_pin i) "" then [] else ["model=" +:+ repr_str (in_pin i)])
     ++ (if String.eqb (in_profile i) "" then [] else ["intent=" +:+ repr_str (in_profile i)])
     ++ (if bool_decide (in_requires i = []) then [] else ["requires=" +:+ repr_strs (sorted_strs (in_requires i))])
     ++ (if (in_min_context i =? 0)%Z then [] else ["min_context=" +:+ str_of_Z (in_min_context i)])
     ++ (if bool_decide (in_exclude i = []) then []
         else ["exclude=" +:+ repr_strs (isort String.leb (match exclude_as_written i with [] => in_exclude i | w => w end))])
     ++ ["kind=" +:+ repr_str (in_kind i)])%list in
  if bool_decide (is_Some (rs_endpoint r)) then ""
  else match rs_unmatched r with
  | (_ :: _) as un =>
      "`exclude` names " ++ sep_concat ", " (map repr_str un)
      ++ " — no such endpoint, role or alias, so the exclusion cannot be checked. Remove it, or correct it to a name this fleet serves."
  | [] =>
      if existsb (fun x => bool_decide (rj_reason x = REJECT_UNKNOWN_ENDPOINT)) (rs_rejected r)
      then "unknown model " ++ repr_str (or_else (in_pin_as_written i) (in_pin i))
           ++ " — no such endpoint, role or alias"
      else
        let detail := sep_concat "; " (map (fun x => rj_endpoint x ++ ": " ++ or_else (rj_detail x) (reason_text (rj_reason x))) (near_misses r)) in
        "no endpoint satisfies " ++ sep_concat ", " want ++ (if String.eqb detail "" then "" else " — " ++ detail)
  end.
