(* ===== verification/IntentProps.v ===== *)
(** * What intent resolution promises *)

From Stdlib Require Import QArith Lqa Lia ZArith Permutation Sorted OrderedTypeEx.
From stdpp Require Import base list strings.
From S2P Require Import Prelude PyDict PyText Json Intent.

Local Open Scope string_scope.

(** ** The order of sort keys *)

Lemma string_ltb_lt x y : String.ltb x y = true <-> String_as_OT.lt x y.
Proof.
  rewrite <- String_as_OT.cmp_lt. unfold String.ltb, String_as_OT.cmp. by destruct (String.compare x y).
Qed.

Lemma string_ltb_trans x y z : String.ltb x y = true -> String.ltb y z = true -> String.ltb x z = true.
Proof. rewrite !string_ltb_lt. apply String_as_OT.lt_trans. Qed.

Lemma string_ltb_total x y : String.eqb x y = false -> String.ltb x y = false -> String.ltb y x = true.
Proof.
  rewrite String.eqb_neq. unfold String.ltb. rewrite (String.compare_antisym y x).
  destruct (String.compare x y) eqn:E; try done. intros N. by apply String.compare_eq_iff in E.
Qed.

(** Two parts that may stand at the same place of a key. *)
Definition is_text (p : KeyPart) : bool := match p with KStr _ => true | _ => false end.

Lemma part_eqb_refl a : part_eqb a a = true.
Proof. destruct a; simpl; [by apply Qeq_bool_iff|done|by apply String.eqb_refl]. Qed.

Lemma part_eqb_sym a b : part_eqb a b = part_eqb b a.
Proof.
  destruct a as [p| |x], b as [q| |y]; simpl; try done; [|apply String.eqb_sym].
  apply eq_true_iff_eq. rewrite !Qeq_bool_iff. split; intros H; by rewrite H.
Qed.

Lemma part_total a b : is_text a = is_text b -> part_eqb a b = false -> part_ltb a b = false -> part_ltb b a = true.
Proof.
  destruct a as [p| |x], b as [q| |y]; simpl; try done.
  - intros _ E L. destruct (Qltb_spec p q) as [|G]; [done|]. destruct (Qltb_spec q p) as [|G']; [done|].
    exfalso. apply Qeq_bool_neq in E. apply E. by apply Qle_antisym.
  - intros _. apply string_ltb_total.
Qed.

Lemma part_eq_l a b c : part_eqb a b = true -> part_eqb a c = part_eqb b c /\ part_ltb a c = part_ltb b c.
Proof.
  destruct a as [p| |x], b as [q| |y]; simpl; try done.
  - rewrite Qeq_bool_iff. intros E. destruct c as [r| |z]; simpl; try done. split.
    + apply eq_true_iff_eq. rewrite !Qeq_bool_iff. by rewrite E.
    + destruct (Qltb_spec p r), (Qltb_spec q r); try done; exfalso; rewrite E in *; lra.
  - by rewrite String.eqb_eq; intros ->.
Qed.

Lemma part_eq_r a b c : part_eqb a b = true -> part_ltb c a = part_ltb c b.
Proof.
  destruct a as [p| |x], b as [q| |y]; simpl; try done.
  - rewrite Qeq_bool_iff. intros E. destruct c as [r| |z]; simpl; try done.
    destruct (Qltb_spec r p), (Qltb_spec r q); try done; exfalso; rewrite E in *; lra.
  - by rewrite String.eqb_eq; intros ->.
Qed.

Lemma part_lt_trans a b c : part_ltb a b = true -> part_ltb b c = true -> part_ltb a c = true.
Proof.
  destruct a as [p| |x], b as [q| |y], c as [r| |z]; simpl; try done; [|apply string_ltb_trans].
  destruct (Qltb_spec p q), (Qltb_spec q r), (Qltb_spec p r); try done. intros. exfalso. lra.
Qed.

Lemma part_lt_not_eq a b : part_ltb a b = true -> part_eqb a b = false.
Proof.
  destruct a as [p| |x], b as [q| |y]; simpl; try done.
  - destruct (Qltb_spec p q) as [L|]; [|done]. intros _. apply not_true_iff_false. rewrite Qeq_bool_iff. lra.
  - rewrite string_ltb_lt, String.eqb_neq. apply String_as_OT.lt_not_eq.
Qed.

Lemma key_total a b :
  map is_text a = map is_text b -> key_leb a b = false -> key_leb b a = true.
Proof.
  revert b. induction a as [|x a IH]; intros [|y b]; simpl; try done. intros [= S1 S2].
  rewrite (part_eqb_sym y x). destruct (part_eqb x y) eqn:E; [by apply IH|]. by apply part_total.
Qed.

Lemma key_trans a b c : key_leb a b = true -> key_leb b c = true -> key_leb a c = true.
Proof.
  revert b c. induction a as [|x a IH]; intros [|y b] [|z c]; simpl; try done.
  destruct (part_eqb x y) eqn:E.
  - destruct (part_eq_l _ _ z E) as [-> ->]. destruct (part_eqb y z); [apply IH|done].
  - intros L. destruct (part_eqb y z) eqn:E2.
    + intros _. destruct (part_eqb x z) eqn:E3.
      * exfalso. apply part_lt_not_eq in L. rewrite part_eqb_sym in E2.
        destruct (part_eq_l _ _ y (eq_trans (part_eqb_sym z x) E3)) as [H _]. congruence.
      * by rewrite <- (part_eq_r _ _ x E2).
    + intros L2. pose proof (part_lt_trans _ _ _ L L2) as L3. by rewrite (part_lt_not_eq _ _ L3), L3.
Qed.

Lemma latency_not_text f : is_text (latency_key f) = false.
Proof. unfold latency_key. by destruct (Qltb _ _). Qed.

(** Under one preference all keys have the same shape. *)
Lemma sort_key_shape prefer f g : map is_text (sort_key prefer f) = map is_text (sort_key prefer g).
Proof.
  unfold sort_key, _preference_key. repeat (destruct (String.eqb _ _)); simpl; by rewrite !latency_not_text.
Qed.

Definition rank_leb (prefer : string) (a b : ModelFacts) : bool := key_leb (sort_key prefer a) (sort_key prefer b).

Lemma rank_total prefer a b : rank_leb prefer a b = false -> rank_leb prefer b a = true.
Proof. apply key_total, sort_key_shape. Qed.

Lemma rank_trans prefer a b c : rank_leb prefer a b = true -> rank_leb prefer b c = true -> rank_leb prefer a c = true.
Proof. apply key_trans. Qed.

Lemma ranking_sorted i fs : in_sort_order (rank_leb (in_prefer i)) (ranking i fs).
Proof. apply isort_sorted; [apply rank_total|apply rank_trans]. Qed.

Lemma ranking_perm i fs : ranking i fs ≡ₚ fs.
Proof. apply isort_perm. Qed.

(** ** What can serve *)

Lemma mem_true x l : mem x l = true <-> x ∈ l.
Proof. unfold mem. apply bool_decide_eq_true. Qed.

Lemma sorted_strs_nil l : sorted_strs l = [] <-> l = [].
Proof.
  unfold sorted_strs. split; [|by intros ->]. intros E.
  assert (P : isort String.leb (remove_dups l) ≡ₚ remove_dups l) by apply isort_perm. rewrite E in P.
  apply Permutation_nil_l in P. destruct l as [|x l]; [done|]. exfalso.
  assert (x ∈ remove_dups (x :: l)) as H by (apply elem_of_remove_dups; by left). rewrite <- P in H. by apply elem_of_nil in H.
Qed.

Lemma sorted_filter_nil (p : string -> bool) l : sorted_strs (List.filter p l) = [] <-> forall x, x ∈ l -> p x = false.
Proof.
  rewrite sorted_strs_nil. split.
  - intros E x Hx. destruct (p x) eqn:P; [|done]. exfalso. apply list_elem_of_In in Hx.
    assert (In x (List.filter p l)) as H by (by apply filter_In). by rewrite E in H.
  - intros H. destruct (List.filter p l) as [|x f] eqn:E; [done|]. exfalso.
    assert (In x (List.filter p l)) as I by (rewrite E; by left). apply filter_In in I as [I P].
    apply list_elem_of_In in I. rewrite (H x I) in P. done.
Qed.

(** An endpoint can serve when it is not refused by the caller, is routed, is
    of the kind asked for, declares every capability required and is not known
    to have too small a context. *)
Lemma eligible_iff i f :
  eligible i f = true <->
  mf_endpoint f ∉ in_exclude i /\ mf_routed f = true /\ mf_kind f = in_kind i
  /\ (forall c, c ∈ in_requires i -> c ∈ mf_capabilities f)
  /\ (in_min_context i = 0 \/ mf_context f = 0 \/ in_min_context i <= mf_context f)%Z.
Proof.
  unfold eligible, refusal.
  assert (M : sorted_strs (List.filter (fun c => negb (mem c (mf_capabilities f))) (in_requires i)) = []
    <-> forall c, c ∈ in_requires i -> c ∈ mf_capabilities f).
  { rewrite sorted_filter_nil. setoid_rewrite negb_false_iff. by setoid_rewrite mem_true. }
  set (missing := sorted_strs _) in *.
  destruct (mem (mf_endpoint f) (in_exclude i)) eqn:EX.
  { apply mem_true in EX. split; [done|]. tauto. }
  assert (NX : mf_endpoint f ∉ in_exclude i) by (rewrite <- mem_true; congruence).
  destruct (mf_routed f); simpl; [|split; [done|intros (_ & ? & _); done]].
  destruct (String.eqb_spec (mf_kind f) (in_kind i)) as [K|K]; simpl; [|split; [done|tauto]].
  destruct (bool_decide (missing = [])) eqn:BM; simpl.
  2:{ apply bool_decide_eq_false in BM. split; [done|]. rewrite <- M. tauto. }
  apply bool_decide_eq_true in BM. rewrite M in BM.
  destruct (Z.eqb_spec (in_min_context i) 0), (Z.eqb_spec (mf_context f) 0), (Z.ltb_spec (mf_context f) (in_min_context i));
    simpl; split; try done; intros; try tauto; try (split_and!; auto; lia); naive_solver lia.
Qed.

(** The candidates that can serve. *)
Definition servers (i : Intent) (facts : list ModelFacts) : list ModelFacts :=
  List.filter (eligible i) (candidates i facts).

(** [resolve] in terms of the unmatched exclusions and the servers. *)
Lemma resolve_cases i facts :
  (unmatched i facts <> [] /\ rs_endpoint (resolve i facts) = None /\ rs_ranked (resolve i facts) = [])
  \/ (unmatched i facts = [] /\ rs_ranked (resolve i facts) = map mf_endpoint (ranking i (servers i facts))
      /\ rs_endpoint (resolve i facts) = mf_endpoint <$> head (ranking i (servers i facts))).
Proof.
  unfold resolve. destruct (unmatched i facts) as [|u us]; [right|by left]. split; [done|].
  destruct (negb _ && _)%bool eqn:B.
  - apply andb_true_iff in B as [_ B]. apply bool_decide_eq_true in B. apply length_zero_iff_nil in B.
    unfold servers. by rewrite B.
  - fold (servers i facts). by destruct (ranking i (servers i facts)) as [|f r].
Qed.

Lemma ranking_head i fs f : head (ranking i fs) = Some f -> f ∈ fs /\ forall g, g ∈ fs -> g = f \/ rank_leb (in_prefer i) f g = true.
Proof.
  pose proof (ranking_sorted i fs) as S. pose proof (ranking_perm i fs) as P.
  destruct (ranking i fs) as [|x r] eqn:E; [done|]. intros [= ->]. split; [rewrite <- P; by left|].
  intros g Hg. rewrite <- P in Hg. apply elem_of_cons in Hg as [->|Hg]; [by left|]. right.
  inversion S as [|? ? _ F]; subst. rewrite Forall_forall in F. by apply F.
Qed.

(** ** Theorems *)

(** Resolution answers exactly when every exclusion names an endpoint of the
    fleet and some candidate can serve; what it answers is a candidate that can
    serve, and no other one that can ranks before it. *)
Theorem resolve_picks_best i facts :
  (is_Some (rs_endpoint (resolve i facts)) <-> unmatched i facts = [] /\ servers i facts <> [])
  /\ forall ep, rs_endpoint (resolve i facts) = Some ep ->
       exists f, f ∈ servers i facts /\ mf_endpoint f = ep
         /\ forall g, g ∈ servers i facts -> g = f \/ rank_leb (in_prefer i) f g = true.
Proof.
  destruct (resolve_cases i facts) as [(U & E & _)|(U & _ & E)]; rewrite E.
  - split; [|done]. split; [by intros [? ?]|intros [? _]; done].
  - assert (N : ranking i (servers i facts) = [] <-> servers i facts = []).
    { pose proof (ranking_perm i (servers i facts)) as P. split; intros H; rewrite H in P.
      - by apply Permutation_nil_l in P.
      - by rewrite H. }
    split.
    + destruct (ranking i (servers i facts)) as [|f r]; simpl.
      * split; [by intros [? ?]|]. intros [_ ?]. tauto.
      * split; [|by eexists]. intros _. split; [done|]. intros H. apply N in H. done.
    + intros ep H. destruct (head (ranking i (servers i facts))) as [f|] eqn:H2; [|done]. injection H as <-.
      apply ranking_head in H2 as [? ?]. eauto.
Qed.

Lemma rank_real_cost prefer f g : rank_leb prefer f g = true -> mf_real_cost f = true -> mf_real_cost g = true.
Proof. unfold rank_leb, sort_key. destruct (mf_real_cost f), (mf_real_cost g); simpl; done. Qed.

(** Money first: under every preference, an endpoint whose price is an invoice
    is chosen only when every endpoint that can serve costs money too. *)
Theorem real_cost_only_as_overflow i facts ep :
  rs_endpoint (resolve i facts) = Some ep ->
  (forall f, f ∈ servers i facts -> mf_endpoint f = ep -> mf_real_cost f = true) ->
  forall g, g ∈ servers i facts -> mf_real_cost g = true.
Proof.
  intros H R g Hg. destruct (resolve_cases i facts) as [(_ & E & _)|(U & _ & E)]; rewrite E in H; [done|].
  destruct (head _) as [f|] eqn:HH; [|done]. injection H as <-. apply ranking_head in HH as [Hf B].
  specialize (R f Hf eq_refl). destruct (B g Hg) as [->|L]; [done|]. by eapply rank_real_cost.
Qed.

Definition demo_fact (name : string) (ms : Q) (free : Z) (real : bool) : ModelFacts :=
  mkFacts name "chat" 8192 ["vision"] true true free 0 ms 0 0 real.
Definition demo_intent (prefer : string) : Intent := mkIntent "" "" "" ["vision"] "chat" 0 prefer [] [].

Lemma real_cost_only_as_overflow_witness :
  forall g, g ∈ servers (demo_intent "latency") [demo_fact "cloud" 1 9 true] -> mf_real_cost g = true.
Proof.
  apply (real_cost_only_as_overflow (demo_intent "latency") [demo_fact "cloud" 1 9 true] "cloud").
  - vm_compute. reflexivity.
  - intros f Hf _. assert (E : servers (demo_intent "latency") [demo_fact "cloud" 1 9 true] = [demo_fact "cloud" 1 9 true])
      by (vm_compute; reflexivity). rewrite E in Hf. apply list_elem_of_singleton in Hf as ->. reflexivity.
Defined.

Example local_before_faster_cloud :
  rs_ranked (resolve (demo_intent "latency") [demo_fact "cloud" 1 9 true; demo_fact "t2" 900 1 false; demo_fact "t1" 0 9 false])
  = ["t2"; "t1"; "cloud"].
Proof. vm_compute. reflexivity. Qed.

(** An endpoint never measured is not preferred for speed: under [latency] it
    is chosen only when no endpoint that can serve, of the same cost class and
    health, has been measured. *)
Theorem unmeasured_not_fast i facts f :
  in_prefer i = "latency" -> head (ranking i (servers i facts)) = Some f -> (mf_typical_ms f <= 0)%Q ->
  forall g, g ∈ servers i facts -> mf_real_cost g = mf_real_cost f -> mf_healthy g = mf_healthy f ->
  (mf_typical_ms g <= 0)%Q.
Proof.
  intros P H U g Hg RC HH. apply ranking_head in H as [_ B]. destruct (B g Hg) as [->|L]; [done|].
  revert L. unfold rank_leb, sort_key, _preference_key. rewrite P, RC, HH. cbn [app String.eqb].
  cbn [key_leb]. rewrite !part_eqb_refl.
  change (latency_key f) with (if Qltb 0 (mf_typical_ms f) then KNum (mf_typical_ms f) else KInf).
  change (latency_key g) with (if Qltb 0 (mf_typical_ms g) then KNum (mf_typical_ms g) else KInf).
  destruct (Qltb_spec 0 (mf_typical_ms f)) as [A|A]; [exfalso; lra|].
  destruct (Qltb_spec 0 (mf_typical_ms g)) as [A'|A']; [done|]. intros _. exact A'.
Qed.

Lemma unmeasured_not_fast_witness :
  forall g, g ∈ servers (demo_intent "latency") [demo_fact "t1" 0 9 false; demo_fact "t2" 0 9 false] ->
  mf_real_cost g = false -> mf_healthy g = true -> (mf_typical_ms g <= 0)%Q.
Proof.
  apply (unmeasured_not_fast (demo_intent "latency") [demo_fact "t1" 0 9 false; demo_fact "t2" 0 9 false] (demo_fact "t1" 0 9 false));
    [reflexivity|vm_compute; reflexivity|apply Qle_refl].
Defined.

Lemma refusal_endpoint i f r : refusal i f = Some r -> rj_endpoint r = mf_endpoint f.
Proof. unfold refusal. repeat (case_match; [intros [= <-]; done|]). done. Qed.

Lemma split_candidates i fs :
  map rj_endpoint (omap (refusal i) fs) ++ map mf_endpoint (List.filter (eligible i) fs) ≡ₚ map mf_endpoint fs.
Proof.
  induction fs as [|f fs IH]; [done|]. cbn [omap list_omap List.filter map]. unfold eligible at 1.
  destruct (refusal i f) as [r|] eqn:E; cbn [map app].
  - by rewrite (refusal_endpoint _ _ _ E), IH.
  - by rewrite <- Permutation_middle, IH.
Qed.

(** Every candidate is accounted for exactly once: it is ranked, or refused
    with a reason. *)
Theorem every_candidate_answered i facts :
  unmatched i facts = [] -> candidates i facts <> [] ->
  map rj_endpoint (rs_rejected (resolve i facts)) ++ rs_ranked (resolve i facts) ≡ₚ map mf_endpoint (candidates i facts).
Proof.
  intros U C. unfold resolve. rewrite U.
  destruct (negb _ && _)%bool eqn:B.
  { apply andb_true_iff in B as [_ B]. apply bool_decide_eq_true, length_zero_iff_nil in B. done. }
  rewrite <- (split_candidates i (candidates i facts)).
  pose proof (ranking_perm i (List.filter (eligible i) (candidates i facts))) as P.
  destruct (ranking i _) as [|f r]; cbn [rs_rejected rs_ranked].
  - apply Permutation_nil_l in P. by rewrite <- P.
  - by rewrite <- P.
Qed.

Lemma every_candidate_answered_witness :
  map rj_endpoint (rs_rejected (resolve (demo_intent "cost") [demo_fact "t1" 0 9 false; mkFacts "e" "embed" 0 [] true true 1 0 0 0 0 false]))
    ++ rs_ranked (resolve (demo_intent "cost") [demo_fact "t1" 0 9 false; mkFacts "e" "embed" 0 [] true true 1 0 0 0 0 false])
  ≡ₚ ["t1"; "e"].
Proof.
  apply (every_candidate_answered (demo_intent "cost") [demo_fact "t1" 0 9 false; mkFacts "e" "embed" 0 [] true true 1 0 0 0 0 false]);
    [vm_compute; reflexivity|discriminate].
Defined.

(** ** The order of the facts does not matter *)

(** Two facts that rank equal have the same name. *)
Lemma rank_antisym prefer f g :
  rank_leb prefer f g = true -> rank_leb prefer g f = true -> mf_endpoint f = mf_endpoint g.
Proof.
  intros L1 L2.
  assert (K : forall a b, key_leb a b = true -> key_leb b a = true -> Forall2 (fun x y => part_eqb x y = true) a b).
  { clear. induction a as [|x a IH]; intros [|y b]; simpl; try done. rewrite (part_eqb_sym y x).
    destruct (part_eqb x y) eqn:E; [intros; constructor; auto|]. intros A B. exfalso.
    pose proof (part_lt_trans _ _ _ A B) as C. apply part_lt_not_eq in C. by rewrite part_eqb_refl in C. }
  specialize (K _ _ L1 L2). unfold sort_key in K. rewrite !app_assoc in K. apply Forall2_app_inv in K as [_ K].
  - inversion K as [|? ? ? ? E _]; subst. simpl in E. by apply String.eqb_eq in E.
  - unfold _preference_key. repeat (destruct (String.eqb _ _)); done.
Qed.

(** A sorted list is determined by its elements when equal rank means equal. *)
Lemma sorted_unique prefer (l l' : list ModelFacts) :
  (forall f g, f ∈ l -> g ∈ l -> mf_endpoint f = mf_endpoint g -> f = g) ->
  in_sort_order (rank_leb prefer) l -> in_sort_order (rank_leb prefer) l' -> l ≡ₚ l' -> l = l'.
Proof.
  intros D S. revert l' D. induction S as [|x l S IH F]; intros l' D S' P.
  - apply Permutation_nil_l in P. done.
  - destruct S' as [|y l' S' F']; [by apply Permutation_nil_r in P|].
    assert (E : x = y).
    { assert (Hx : x ∈ y :: l') by (rewrite <- P; by left). assert (Hy : y ∈ x :: l) by (rewrite P; by left).
      apply elem_of_cons in Hx as [->|Hx]; [done|]. apply elem_of_cons in Hy as [->|Hy]; [done|].
      rewrite Forall_forall in F, F'. apply D; [by left|by right|].
      by apply (rank_antisym prefer); [apply F|apply F']. }
    subst y. f_equal. apply IH; [|done|].
    + intros f g Hf Hg. apply D; by right.
    + by apply Permutation_cons_inv in P.
Qed.

Lemma filter_perm {A} (p : A -> bool) (l l' : list A) : l ≡ₚ l' -> List.filter p l ≡ₚ List.filter p l'.
Proof.
  induction 1; simpl; [done| | |by etransitivity].
  - destruct (p x); by rewrite ?IHPermutation.
  - destruct (p x), (p y); try done. apply perm_swap.
Qed.

Lemma servers_perm i facts facts' : facts ≡ₚ facts' -> servers i facts ≡ₚ servers i facts'.
Proof.
  intros P. unfold servers, candidates. apply filter_perm. destruct (String.eqb _ _); [done|]. by apply filter_perm.
Qed.

Lemma servers_incl i facts f : f ∈ servers i facts -> f ∈ facts.
Proof.
  unfold servers, candidates. rewrite !list_elem_of_In, filter_In. intros [H _]. destruct (String.eqb _ _); [done|].
  by apply filter_In in H as [H _].
Qed.

Lemma unmatched_perm i facts facts' : facts ≡ₚ facts' -> unmatched i facts = unmatched i facts'.
Proof.
  intros P. unfold unmatched. f_equal. apply filter_ext. intros [n w]. simpl. f_equal. unfold mem.
  apply bool_decide_ext. by rewrite P.
Qed.

Lemma nodup_names facts f g :
  NoDup (map mf_endpoint facts) -> f ∈ facts -> g ∈ facts -> mf_endpoint f = mf_endpoint g -> f = g.
Proof.
  induction facts as [|h facts IH]; [by intros _ ?%elem_of_nil|]. cbn [map]. intros [N ND]%NoDup_cons Hf Hg E.
  apply elem_of_cons in Hf as [->|Hf], Hg as [->|Hg]; try done; [exfalso|exfalso|by apply IH]; apply N;
    apply list_elem_of_fmap; eauto.
Qed.

(** The answer and the ranking of the alternatives depend only on which
    endpoints there are, not on the order they are listed in: two identical
    requests against one fleet cannot oscillate. *)
Theorem resolution_order_independent i facts facts' :
  NoDup (map mf_endpoint facts) -> facts ≡ₚ facts' ->
  rs_endpoint (resolve i facts) = rs_endpoint (resolve i facts')
  /\ rs_ranked (resolve i facts) = rs_ranked (resolve i facts').
Proof.
  intros ND P.
  assert (R : ranking i (servers i facts) = ranking i (servers i facts')).
  { apply (sorted_unique (in_prefer i)); try apply ranking_sorted; [|by rewrite !ranking_perm, (servers_perm i _ _ P)].
    intros f g Hf Hg E. rewrite ranking_perm in Hf, Hg. apply servers_incl in Hf, Hg. by eapply nodup_names. }
  pose proof (unmatched_perm i _ _ P) as U.
  destruct (resolve_cases i facts) as [(U1 & -> & ->)|(U1 & -> & ->)], (resolve_cases i facts') as [(U2 & -> & ->)|(U2 & -> & ->)];
    try congruence; by rewrite ?R.
Qed.

Lemma resolution_order_independent_witness :
  rs_endpoint (resolve (demo_intent "balanced") [demo_fact "t1" 5 9 false; demo_fact "t2" 5 9 false])
    = rs_endpoint (resolve (demo_intent "balanced") [demo_fact "t2" 5 9 false; demo_fact "t1" 5 9 false])
  /\ rs_ranked (resolve (demo_intent "balanced") [demo_fact "t1" 5 9 false; demo_fact "t2" 5 9 false])
    = rs_ranked (resolve (demo_intent "balanced") [demo_fact "t2" 5 9 false; demo_fact "t1" 5 9 false]).
Proof.
  apply resolution_order_independent; [|apply perm_swap].
  apply (bool_decide_unpack _). by vm_compute.
Defined.

(** ** A parsed intent *)

(** The table's profiles ask only for known capabilities. *)
Definition table_ok (table : dict string Profile) : Prop :=
  forall k p, dget table k = Some p -> Forall (fun c => c ∈ KNOWN_CAPABILITIES) (p_requires p).

Record intent_ok (i : Intent) : Prop := {
  io_requires : Forall (fun c => c ∈ KNOWN_CAPABILITIES) (in_requires i);
  io_requires_set : NoDup (in_requires i);
  io_kind : in_kind i ∈ KNOWN_KINDS;
  io_prefer : in_prefer i ∈ PREFERENCES;
  io_context : (0 <= in_min_context i)%Z;
  io_pin : in_pin i <> "" -> in_pin i ∉ in_exclude i;
  io_exclude : forall e, e ∈ in_exclude i <-> e ∈ map fst (in_exclude_pairs i)
}.

Lemma add_requires_ok acc names r :
  NoDup acc -> Forall (fun c => c ∈ KNOWN_CAPABILITIES) acc -> add_requires acc names = inr r ->
  NoDup r /\ Forall (fun c => c ∈ KNOWN_CAPABILITIES) r.
Proof.
  revert acc. induction names as [|n names IH]; intros acc ND F; simpl; [by intros [= <-]|].
  destruct (mem n KNOWN_CAPABILITIES) eqn:K; [|done]. apply mem_true in K. destruct (mem n acc) eqn:M; [by apply IH|].
  apply IH; [|by apply Forall_app; split; [|constructor]]. apply NoDup_app. split_and!; [done| |apply NoDup_singleton].
  intros x Hx Hn. apply list_elem_of_singleton in Hn as ->. apply mem_true in Hx. congruence.
Qed.

Lemma with_profile_ok table name kind prefer r :
  table_ok table -> with_profile table name kind prefer = inr r ->
  NoDup r.1.1.2 /\ Forall (fun c => c ∈ KNOWN_CAPABILITIES) r.1.1.2.
Proof.
  intros T. unfold with_profile, resolve_profile. destruct (String.eqb name ""); [intros [= <-]; by repeat constructor|].
  destruct (dget table (strip name)) as [p|] eqn:D; simpl; [|done]. intros [= <-]. simpl. split; [apply NoDup_remove_dups|].
  specialize (T _ _ D). rewrite Forall_forall in T |- *. intros c Hc. apply T. by apply elem_of_remove_dups.
Qed.

Lemma check_inr {A} b e (k : IntentError + A) r : check b e k = inr r -> b = true /\ k = inr r.
Proof. unfold check. destruct b; [done|]. intros [=]. Qed.

(** An intent that parses is well formed: its capabilities, kind and preference
    are known ones, its context bound is not negative, and it never both pins
    and excludes an endpoint. *)
Theorem parsed_intent_well_formed table normalize body i :
  table_ok table -> parse_intent table normalize body = inr i -> intent_ok i.
Proof.
  intros T. unfold parse_intent. destruct (parse_exclude body) as [e|written]; [done|]. cbn [bind_err].
  intros [_ H]%check_inr. revert H. intros [HP H]%check_inr. revert H.
  destruct (with_profile table _ _ _) as [e|[[[name req] kind] prefer]] eqn:WP; [done|]. cbn [bind_err].
  apply with_profile_ok in WP as [ND F]; [|done]. cbn [fst snd] in *.
  destruct (parse_requires req body) as [e|req'] eqn:PR; [done|]. cbn [bind_err].
  intros [HK H]%check_inr. revert H. intros [HQ H]%check_inr. revert H.
  destruct (int_or_zero _) as [n|]; [|done]. intros [HN [= <-]]%check_inr.
  assert (R : NoDup req' /\ Forall (fun c => c ∈ KNOWN_CAPABILITIES) req').
  { unfold parse_requires in PR. destruct (jget body "requires"); cbn [str_list] in PR; try discriminate PR;
      [by injection PR as <-|exact (add_requires_ok _ _ _ ND F PR)..]. }
  destruct R as [R1 R2]. constructor; cbn; try done.
  - by apply mem_true.
  - by apply mem_true.
  - by apply Z.leb_le.
  - intros NE HI. apply String.eqb_neq in NE. rewrite NE in HP. simpl in HP. apply mem_true in HI. by rewrite HI in HP.
  - intros e. apply elem_of_remove_dups.
Qed.

Lemma builtin_ok : table_ok BUILTIN_PROFILES.
Proof.
  intros k p H. apply dget_elem in H. apply list_elem_of_In in H.
  repeat (destruct H as [H|H]; [injection H as <- <-; apply (bool_decide_unpack _); by vm_compute|]). destruct H.
Qed.

Lemma parsed_intent_well_formed_witness :
  intent_ok (mkIntent "tier3" "Tier3" "vision" ["vision"; "tool_calling"] "chat" 4096 "capacity" ["tier2"] [("tier2", "TIER2")]).
Proof.
  apply (parsed_intent_well_formed BUILTIN_PROFILES lower
    [("model", JStr "Tier3"); ("intent", JStr "vision"); ("requires", JList [JStr "vision"; JStr "tool_calling"]);
     ("prefer", JStr "capacity"); ("min_context", JStr "4_096"); ("exclude", JStr "TIER2")]); [exact builtin_ok|].
  vm_compute. reflexivity.
Defined.
