(* ===== verification/Replay.v ===== *)
(** * Reasoning replay (reasoning_replay.py and its two uses in correction.py)

    The proxy remembers the reasoning behind each assistant turn, keyed by the
    conversation before it and by what was answered, and puts it back when a
    caller replays the turn without it.  The store is an ordered dictionary,
    oldest use first, bounded in entries, bytes and age. *)

From Stdlib Require Import QArith Lqa Lia ZArith Permutation.
From stdpp Require Import base list strings.
From S2P Require Import Prelude PyDict PyText Json Config Sha256 JsonRead.

Local Open Scope string_scope.

Section Replay.
Context (float_text : string -> string).

(** ** The key of a turn *)

Definition is_reasoning_key (k : string) : bool :=
  (String.eqb k "reasoning" || String.eqb k "reasoning_content")%bool.

Definition _normalize_message (m : json) : json :=
  match m with
  | JDict d => JDict (List.filter (fun kv => negb (is_reasoning_key kv.1)) d)
  | _ => m
  end.

Definition _canonical (j : json) : string := dumps_with "," ":" true j.

(** One call of a turn: its name and its arguments, parsed when they parse. *)
Definition normal_call (tc : json) : json :=
  let fn := match tc with JDict d => jget d "function" | _ => JNull end in
  match fn with
  | JDict f =>
      let args := match jget f "arguments" with
                  | JStr a => match loads float_text a with Some v => v | None => JStr (strip a) end
                  | v => v
                  end in
      JList [jget f "name"; args]
  | _ => JStr (_canonical tc)
  end.

Definition _normalize_tool_calls (tool_calls : json) : json :=
  match tool_calls with
  | JList (_ :: _ as l) => JList (map normal_call l)
  | _ => JNull
  end.

Definition normal_content (content : json) : json :=
  match content with JStr s => JStr (strip s) | _ => JStr "" end.

Definition replay_key (before : list json) (system content tool_calls : json) : string :=
  _digest (_canonical (JDict
    ([("messages", JList (map _normalize_message before));
      ("content", normal_content content);
      ("tool_calls", _normalize_tool_calls tool_calls)]
     ++ match system with JNull => [] | s => [("system", s)] end))).

(** ** Streamed tool calls folded together *)

Record CallAcc := mkCallAcc { ca_id : json; ca_type : json; ca_name : string; ca_args : string }.

Definition new_call : CallAcc := mkCallAcc (JStr "") (JStr "function") "" "".

(** The slot a fragment belongs to: its [index] when that is an int. *)
Definition delta_index (d : dict string json) : Z :=
  match dget d "index" with
  | Some j => default 0%Z (py_int j)
  | None => 0%Z
  end.

Definition str_or_empty (j : json) : string := match j with JStr s => s | _ => "" end.

Definition accumulate_one (acc : dict Z CallAcc) (delta : json) : dict Z CallAcc :=
  match delta with
  | JDict d =>
      let idx := delta_index d in
      let e := default new_call (dget acc idx) in
      let fn := match jget d "function" with JDict f => f | _ => [] end in
      dset acc idx
        (mkCallAcc (if truthy (jget d "id") then jget d "id" else ca_id e)
                   (if truthy (jget d "type") then jget d "type" else ca_type e)
                   (ca_name e ++ str_or_empty (jget fn "name"))
                   (ca_args e ++ str_or_empty (jget fn "arguments")))
  | _ => acc
  end.

Definition accumulate_tool_call_deltas (acc : dict Z CallAcc) (deltas : json) : dict Z CallAcc :=
  match deltas with
  | JList l => foldl accumulate_one acc l
  | _ => acc
  end.

(** ** The store *)

Record Entry := mkEntry { en_reasoning : string; en_expires_at : Q; en_size : Z }.

Record ReplayStore := mkReplayStore {
  rr_cache : dict string Entry;
  rr_max_entries : Z;
  rr_max_bytes : Z;
  rr_ttl_s : Q;
  rr_total_bytes : Z
}.

Definition new_store (max_entries max_bytes : Z) (ttl_s : Q) : ReplayStore :=
  mkReplayStore [] max_entries max_bytes ttl_s 0.

Definition with_cache (s : ReplayStore) (c : dict string Entry) (total : Z) : ReplayStore :=
  mkReplayStore c (rr_max_entries s) (rr_max_bytes s) (rr_ttl_s s) total.

(** [_evict()]: the oldest go while a bound is exceeded. *)
Fixpoint _evict (max_entries max_bytes : Z) (c : dict string Entry) (total : Z) : dict string Entry * Z :=
  match c with
  | [] => ([], total)
  | (_, victim) :: c' =>
      if ((max_entries <? Z.of_nat (length c)) || (max_bytes <? total))%Z
      then _evict max_entries max_bytes c' (total - en_size victim)
      else (c, total)
  end.

(** [len(text.encode("utf-8"))] *)
Definition utf8_size (s : string) : Z := Z.of_nat (length (utf8_encode s)).

Definition replay_put (key reasoning : string) (now : Q) (s : ReplayStore) : ReplayStore :=
  if String.eqb reasoning "" then s
  else
    let size := utf8_size reasoning in
    if (rr_max_bytes s <? size)%Z then s
    else
      let total := (rr_total_bytes s - match dget (rr_cache s) key with Some e => en_size e | None => 0 end)%Z in
      let c := dset (ddel (rr_cache s) key) key (mkEntry reasoning (now + rr_ttl_s s) size) in
      let '(c, total) := _evict (rr_max_entries s) (rr_max_bytes s) c (total + size)%Z in
      with_cache s c total.

Definition replay_get (key : string) (now : Q) (s : ReplayStore) : option string * ReplayStore :=
  match dget (rr_cache s) key with
  | None => (None, s)
  | Some e =>
      if Qltb (en_expires_at e) now
      then (None, with_cache s (ddel (rr_cache s) key) (rr_total_bytes s - en_size e))
      else (Some (en_reasoning e), with_cache s (ddel (rr_cache s) key ++ [(key, e)])%list (rr_total_bytes s))
  end.

(** ** The two corrections *)

Record Tally := mkTally { ta_stored : Z; ta_restored : Z; ta_miss : Z; ta_skipped : Z }.

Definition tally_add (a b : Tally) : Tally :=
  mkTally (ta_stored a + ta_stored b) (ta_restored a + ta_restored b) (ta_miss a + ta_miss b) (ta_skipped a + ta_skipped b).

Definition tally0 : Tally := mkTally 0 0 0 0.

(** The proxy state the corrections touch: the store, the process totals and
    the tally of each endpoint. *)
Record ReplayState := mkReplayState {
  rp_store : ReplayStore;
  rp_total : Tally;
  rp_by_endpoint : dict string Tally
}.

Definition count (endpoint : string) (t : Tally) (s : ReplayState) : ReplayState :=
  mkReplayState (rp_store s) (tally_add (rp_total s) t)
    (dset (rp_by_endpoint s) endpoint (tally_add (default tally0 (dget (rp_by_endpoint s) endpoint)) t)).

Definition set_store (st : ReplayStore) (s : ReplayState) : ReplayState :=
  mkReplayState st (rp_total s) (rp_by_endpoint s).

(** [setdefault(endpoint, {...})] *)
Definition open_tally (endpoint : string) (s : ReplayState) : ReplayState := count endpoint tally0 s.

Record ReplayReq := mkReplayReq {
  rq_payload_type : string;
  rq_no_store : bool;
  rq_endpoint : string;
  rq_payload : json
}.

(** Endpoints by class, with their [replay_reasoning_history]. *)
Context (roles : dict string string) (replays : dict string bool).

Definition opted_in (req : ReplayReq) : bool :=
  default false (dget replays (normalize_endpoint roles (rq_endpoint req))).

Definition has_reasoning (m : dict string json) : bool :=
  (truthy (jget m "reasoning") || truthy (jget m "reasoning_content"))%bool.

Definition is_assistant (m : dict string json) : bool :=
  match jget m "role" with JStr r => String.eqb r "assistant" | _ => false end.

(** One message of the history, with the messages before it. *)
Definition restore_message (endpoint : string) (system : json) (before : list json) (now : Q) (m : json) (s : ReplayState)
  : json * ReplayState :=
  match m with
  | JDict d =>
      if negb (is_assistant d) then (m, s)
      else if has_reasoning d then (m, count endpoint (mkTally 0 0 0 1) s)
      else
        let '(r, st) := replay_get (replay_key before system (jget d "content") (jget d "tool_calls")) now (rp_store s) in
        let s := set_store st s in
        match r with
        | None => (m, count endpoint (mkTally 0 0 1 0) s)
        | Some reasoning =>
            (JDict (dset d "reasoning_content" (JStr reasoning)), count endpoint (mkTally 0 1 0 0) s)
        end
  | _ => (m, s)
  end.

(** The loop over the history; [clock i] is the time of the look-up of message
    [i], and [before] holds the messages as the caller sent them. *)
Fixpoint restore_loop (endpoint : string) (system : json) (clock : nat -> Q) (before rest : list json) (s : ReplayState)
  : list json * ReplayState :=
  match rest with
  | [] => ([], s)
  | m :: rest' =>
      let '(m', s) := restore_message endpoint system before (clock (length before)) m s in
      let '(ms, s) := restore_loop endpoint system clock (before ++ [m])%list rest' s in
      (m' :: ms, s)
  end.

Definition apply_reasoning_replay_restore (clock : nat -> Q) (req : ReplayReq) (s : ReplayState) : json * ReplayState :=
  let unchanged := (rq_payload req, s) in
  if negb (String.eqb (rq_payload_type req) "chat_completion") then unchanged
  else if rq_no_store req then unchanged
  else match rq_payload req with
  | JDict p =>
      if negb (opted_in req) then unchanged
      else match jget p "messages" with
           | JList messages =>
               let '(ms, s) := restore_loop (rq_endpoint req) (jget p "system") clock [] messages
                                 (open_tally (rq_endpoint req) s) in
               (JDict (dset p "messages" (JList ms)), s)
           | _ => unchanged
           end
  | _ => unchanged
  end.

Definition store_reasoning_replay (req : ReplayReq) (content tool_calls reasoning : json) (now : Q) (s : ReplayState)
  : ReplayState :=
  if (negb (String.eqb (rq_payload_type req) "chat_completion") || rq_no_store req)%bool then s
  else if negb (opted_in req) then s
  else
    let s := open_tally (rq_endpoint req) s in
    let skip := count (rq_endpoint req) (mkTally 0 0 0 1) s in
    match reasoning with
    | JStr r =>
        if String.eqb (strip r) "" then skip
        else match rq_payload req with
             | JDict p =>
                 match jget p "messages" with
                 | JList messages =>
                     let key := replay_key messages (jget p "system") content tool_calls in
                     count (rq_endpoint req) (mkTally 1 0 0 0) (set_store (replay_put key r now (rp_store s)) s)
                 | _ => skip
                 end
             | _ => skip
             end
    | _ => skip
    end.
End Replay.
