(* ===== verification/ReplayProps.v ===== *)
(** * What reasoning replay promises *)

From Stdlib Require Import QArith Lqa Lia ZArith Permutation.
From stdpp Require Import base list strings.
From S2P Require Import Prelude PyDict PyText Json Config Sha256 JsonRead Replay.

Local Open Scope string_scope.
Local Open Scope list_scope.

(** ** The bounds of the store *)

Definition total_size (c : dict string Entry) : Z := foldr (fun kv z => (en_size kv.2 + z)%Z) 0%Z c.

Lemma total_size_app a b : total_size (a ++ b) = (total_size a + total_size b)%Z.
Proof. unfold total_size. induction a as [|x a IH]; simpl; [done|]. rewrite IH. lia. Qed.

Lemma total_size_ddel c k :
  total_size (ddel c k) = (total_size c - match dget c k with Some e => en_size e | None => 0 end)%Z.
Proof. unfold total_size. induction c as [|[a b] c IH]; simpl; [done|]. case_decide; simpl; [lia|]. rewrite IH. lia. Qed.

Record store_ok (s : ReplayStore) : Prop := {
  so_wf : dwf (rr_cache s);
  so_total : rr_total_bytes s = total_size (rr_cache s);
  so_entries : (Z.of_nat (length (rr_cache s)) <= Z.max 0 (rr_max_entries s))%Z;
  so_bytes : (rr_total_bytes s <= Z.max 0 (rr_max_bytes s))%Z;
  so_sizes : Forall (fun kv => en_size kv.2 = utf8_size (en_reasoning kv.2)) (rr_cache s)
}.

(** Eviction drops a prefix, keeps the account and meets both bounds. *)
Lemma evict_spec me mb c :
  exists pre, c = pre ++ (_evict me mb c (total_size c)).1
    /\ (_evict me mb c (total_size c)).2 = total_size (_evict me mb c (total_size c)).1
    /\ (Z.of_nat (length (_evict me mb c (total_size c)).1) <= Z.max 0 me)%Z
    /\ (total_size (_evict me mb c (total_size c)).1 <= Z.max 0 mb)%Z.
Proof.
  induction c as [|[k v] c (pre & E & T & L & B)].
  { exists []. simpl. split_and!; [done|done|lia|unfold total_size; simpl; lia]. }
  cbn [_evict].
  destruct (Z.ltb_spec me (Z.of_nat (length ((k, v) :: c)))) as [H1|H1], (Z.ltb_spec mb (total_size ((k, v) :: c))) as [H2|H2];
    cbn [orb].
  4:{ exists []. cbn [fst snd]. split_and!; [done|done|lia|lia]. }
  all: replace (total_size ((k, v) :: c) - en_size v)%Z with (total_size c) by (unfold total_size; simpl; lia);
    exists ((k, v) :: pre); split_and!; [simpl; by rewrite <- E|done..].
Qed.

(** The newest entry survives when it fits on its own. *)
Lemma evict_keeps_last me mb c k v :
  (1 <= me)%Z -> (en_size v <= mb)%Z ->
  exists c', (_evict me mb (c ++ [(k, v)]) (total_size (c ++ [(k, v)]))).1 = c' ++ [(k, v)].
Proof.
  intros HE HB. induction c as [|[k0 v0] c [c' IH]].
  - exists []. unfold total_size. cbn [app _evict foldr length snd].
    destruct (Z.ltb_spec me (Z.of_nat 1)); [lia|]. destruct (Z.ltb_spec mb (en_size v + 0)); [lia|]. done.
  - cbn [app _evict]. destruct (_ || _)%bool; [|by eexists ((k0, v0) :: c)].
    replace (total_size ((k0, v0) :: c ++ [(k, v)]) - en_size v0)%Z with (total_size (c ++ [(k, v)]))
      by (unfold total_size; simpl; lia). by exists c'.
Qed.

Lemma dset_ddel_last (c : dict string Entry) k v : dwf c -> dset (ddel c k) k v = (ddel c k ++ [(k, v)])%list.
Proof. intros W. apply dset_new. rewrite dget_ddel by done. by rewrite decide_True. Qed.

(** A store as one step. *)
Lemma put_run s k r now :
  dwf (rr_cache s) -> rr_total_bytes s = total_size (rr_cache s) -> r <> "" -> (utf8_size r <= rr_max_bytes s)%Z ->
  let e := mkEntry r (now + rr_ttl_s s) (utf8_size r) in
  let c := (ddel (rr_cache s) k ++ [(k, e)])%list in
  replay_put k r now s
  = with_cache s (_evict (rr_max_entries s) (rr_max_bytes s) c (total_size c)).1
      (_evict (rr_max_entries s) (rr_max_bytes s) c (total_size c)).2.
Proof.
  intros W T R B e c. unfold replay_put. apply String.eqb_neq in R. rewrite R.
  destruct (Z.ltb_spec (rr_max_bytes s) (utf8_size r)); [lia|]. rewrite dset_ddel_last by done. fold e c.
  replace (rr_total_bytes s - match dget (rr_cache s) k with Some e0 => en_size e0 | None => 0 end + utf8_size r)%Z
    with (total_size c).
  - by destruct (_evict _ _ c (total_size c)).
  - unfold c. rewrite total_size_app, total_size_ddel, T. unfold total_size at 2. simpl. lia.
Qed.

Lemma put_ok k r now s : store_ok s -> store_ok (replay_put k r now s).
Proof.
  intros [W T E B S]. destruct (decide (r = "")) as [->|NE]; [by constructor|].
  destruct (decide (utf8_size r <= rr_max_bytes s)%Z) as [L|L].
  2:{ unfold replay_put. apply String.eqb_neq in NE. rewrite NE. destruct (Z.ltb_spec (rr_max_bytes s) (utf8_size r)); [by constructor|lia]. }
  rewrite (put_run s k r now W T NE L). cbv zeta.
  set (c := (ddel (rr_cache s) k ++ _)%list).
  destruct (evict_spec (rr_max_entries s) (rr_max_bytes s) c) as (pre & EC & ET & EL & EB).
  set (ev := _evict _ _ c (total_size c)) in *.
  assert (WC : dwf c).
  { unfold c. rewrite <- dset_ddel_last by done. apply dwf_dset, dwf_ddel, W. }
  assert (SC : Forall (fun kv => en_size kv.2 = utf8_size (en_reasoning kv.2)) c).
  { unfold c. apply Forall_app. split; [|by repeat constructor]. clear -S.
    induction S as [|[a b] l H F IH]; simpl; [constructor|]. case_decide; [done|by constructor]. }
  constructor; cbn [with_cache rr_cache rr_total_bytes rr_max_entries rr_max_bytes].
  - unfold dwf, dkeys in *. rewrite EC, map_app in WC. by apply NoDup_app in WC as (_ & _ & ?).
  - done.
  - done.
  - rewrite ET. done.
  - rewrite EC in SC. by apply Forall_app in SC as [_ ?].
Qed.

Lemma ddel_snoc_perm (c : dict string Entry) k e : dget c k = Some e -> c ≡ₚ ddel c k ++ [(k, e)].
Proof.
  intros H. rewrite (ddel_perm c k e H) at 1. by rewrite Permutation_app_comm.
Qed.

Lemma get_ok k now s : store_ok s -> store_ok (replay_get k now s).2.
Proof.
  intros [W T E B S]. unfold replay_get. destruct (dget (rr_cache s) k) as [e|] eqn:D; [|by constructor].
  pose proof (ddel_snoc_perm _ _ _ D) as P. pose proof (total_size_ddel (rr_cache s) k) as TD. rewrite D in TD.
  pose proof (ddel_length_le (rr_cache s) k) as LL.
  assert (SZ : (0 <= en_size e)%Z).
  { apply dget_elem in D. rewrite Forall_forall in S. specialize (S _ D). simpl in S. rewrite S. unfold utf8_size. lia. }
  assert (SD : Forall (fun kv => en_size kv.2 = utf8_size (en_reasoning kv.2)) (ddel (rr_cache s) k ++ [(k, e)])).
  { rewrite <- P. done. }
  destruct (Qltb _ _); constructor; cbn [snd with_cache rr_cache rr_total_bytes rr_max_entries rr_max_bytes].
  - by apply dwf_ddel.
  - lia.
  - lia.
  - lia.
  - by apply Forall_app in SD as [? _].
  - unfold dwf, dkeys in *. by rewrite <- P.
  - rewrite total_size_app. unfold total_size at 2. simpl. lia.
  - rewrite length_app. simpl. rewrite P, length_app in E. simpl in E. lia.
  - done.
  - done.
Qed.

Inductive StoreOp := OpPut (key reasoning : string) (now : Q) | OpGet (key : string) (now : Q).

Definition store_op (s : ReplayStore) (o : StoreOp) : ReplayStore :=
  match o with
  | OpPut k r now => replay_put k r now s
  | OpGet k now => (replay_get k now s).2
  end.

Lemma store_op_limits s o :
  rr_max_entries (store_op s o) = rr_max_entries s /\ rr_max_bytes (store_op s o) = rr_max_bytes s.
Proof.
  destruct o as [k r now|k now]; simpl.
  - unfold replay_put. destruct (String.eqb _ _); [done|]. destruct (_ <? _)%Z; [done|].
    by destruct (_evict _ _ _ _).
  - unfold replay_get. destruct (dget _ _); [|done]. by destruct (Qltb _ _).
Qed.

Lemma store_run_ok s os :
  store_ok s -> store_ok (foldl store_op s os)
  /\ rr_max_entries (foldl store_op s os) = rr_max_entries s /\ rr_max_bytes (foldl store_op s os) = rr_max_bytes s.
Proof.
  revert s. induction os as [|o os IH]; intros s H; simpl; [done|].
  destruct (IH (store_op s o)) as (A & B & C); [destruct o; [by apply put_ok|by apply get_ok]|].
  destruct (store_op_limits s o) as [-> ->] in B, C. done.
Qed.

(** However the store is used, it holds at most [max_entries] turns and
    [max_bytes] bytes of reasoning, no key twice, and its byte account is exactly
    the encoded size of what it holds. *)
Theorem replay_store_bounded max_entries max_bytes ttl os :
  let s := foldl store_op (new_store max_entries max_bytes ttl) os in
  (Z.of_nat (length (rr_cache s)) <= Z.max 0 max_entries)%Z
  /\ (rr_total_bytes s <= Z.max 0 max_bytes)%Z
  /\ rr_total_bytes s = foldr (fun kv z => (utf8_size (en_reasoning kv.2) + z)%Z) 0%Z (rr_cache s)
  /\ NoDup (dkeys (rr_cache s)).
Proof.
  intros s. destruct (store_run_ok (new_store max_entries max_bytes ttl) os) as ([W T E B S] & M1 & M2).
  { constructor; simpl; try constructor; lia. }
  fold s in W, T, E, B, S, M1, M2. rewrite M1 in E. rewrite M2 in B. split_and!; try done.
  rewrite T. clear -S. induction S as [|kv c H F IH]; simpl; [done|]. by rewrite H, IH.
Qed.

(** ** Keys *)

(** The message as the caller sent it, or with reasoning put back. *)
Definition restored_from (m m' : json) : Prop :=
  m' = m \/ exists d r, m = JDict d /\ m' = JDict (dset d "reasoning_content" (JStr r)).

Lemma normalize_restored m m' : restored_from m m' -> _normalize_message m' = _normalize_message m.
Proof.
  intros [->|(d & r & -> & ->)]; [done|]. simpl. f_equal.
  induction d as [|[k v] d IH]; simpl; [done|]. case_decide as E; simpl; [by subst|]. by rewrite IH.
Qed.

Lemma replay_key_normal ft before before' system c c' t t' :
  map _normalize_message before = map _normalize_message before' ->
  normal_content c = normal_content c' -> _normalize_tool_calls ft t = _normalize_tool_calls ft t' ->
  replay_key ft before system c t = replay_key ft before' system c' t'.
Proof. intros H1 H2 H3. unfold replay_key. by rewrite H1, H2, H3. Qed.

(** Putting reasoning back does not move a conversation to another key: the
    history as sent and the history as restored key every turn alike. *)
Theorem restored_history_same_key ft before before' system content tool_calls :
  Forall2 restored_from before before' ->
  replay_key ft before' system content tool_calls = replay_key ft before system content tool_calls.
Proof.
  intros F. apply replay_key_normal; [|done|done].
  induction F as [|m m' l l' H F IH]; simpl; [done|]. by rewrite (normalize_restored m m' H), IH.
Qed.

Lemma restored_history_same_key_witness :
  replay_key id [JDict [("role", JStr "assistant"); ("content", JStr "hi"); ("reasoning_content", JStr "why")]] JNull (JStr "ok") JNull
  = replay_key id [JDict [("role", JStr "assistant"); ("content", JStr "hi")]] JNull (JStr "ok") JNull.
Proof.
  apply (restored_history_same_key id [JDict [("role", JStr "assistant"); ("content", JStr "hi")]]).
  constructor; [|constructor]. right. exists [("role", JStr "assistant"); ("content", JStr "hi")], "why". by split.
Defined.

(** ** Store, then restore *)

(** The entry for a key is in the store and alive at [t]. *)
Definition alive (k r : string) (t : Q) (s : ReplayStore) : Prop :=
  exists e, dget (rr_cache s) k = Some e /\ en_reasoning e = r /\ Qltb (en_expires_at e) t = false.

Lemma put_alive k r now t s :
  store_ok s -> r <> "" -> (utf8_size r <= rr_max_bytes s)%Z -> (1 <= rr_max_entries s)%Z ->
  Qltb (now + rr_ttl_s s) t = false -> alive k r t (replay_put k r now s).
Proof.
  intros [W T _ _ _] R B M L. rewrite (put_run s k r now W T R B). cbv zeta.
  destruct (evict_keeps_last (rr_max_entries s) (rr_max_bytes s) (ddel (rr_cache s) k) k
              (mkEntry r (now + rr_ttl_s s) (utf8_size r)) M B) as [c' E].
  destruct (evict_spec (rr_max_entries s) (rr_max_bytes s)
              (ddel (rr_cache s) k ++ [(k, mkEntry r (now + rr_ttl_s s) (utf8_size r))])) as (pre & EC & _).
  rewrite E in EC. exists (mkEntry r (now + rr_ttl_s s) (utf8_size r)). cbn [with_cache rr_cache]. rewrite E.
  split_and!; try done.
  assert (N : k ∉ dkeys (pre ++ c')).
  { rewrite app_assoc in EC. apply app_inj_2 in EC as [EC _]; [|done]. rewrite <- EC.
    apply dget_None. rewrite dget_ddel by done. by rewrite decide_True. }
  assert (N' : k ∉ dkeys c').
  { intros H. apply N. unfold dkeys in *. rewrite map_app. apply elem_of_app. by right. }
  clear -N'. induction c' as [|[a b] c' IH]; simpl; [by rewrite decide_True|].
  apply not_elem_of_cons in N' as [N1 N2]. rewrite decide_False by done. by apply IH.
Qed.

Lemma alive_get k r k' now t s : dwf (rr_cache s) -> (now <= t)%Q -> alive k r t s -> alive k r t (replay_get k' now s).2.
Proof.
  intros W L (e & D & R & A). unfold replay_get. destruct (dget (rr_cache s) k') as [e'|] eqn:D'; [|by exists e].
  destruct (decide (k' = k)) as [->|NE].
  - assert (e' = e) as -> by congruence.
    destruct (Qltb_spec (en_expires_at e) now) as [B|B].
    { exfalso. destruct (Qltb_spec (en_expires_at e) t); [done|]. lra. }
    exists e. split_and!; try done. cbn [snd with_cache rr_cache].
    rewrite <- dset_ddel_last by done. apply dget_dset_eq.
  - assert (DD : dget (ddel (rr_cache s) k') k = Some e) by (rewrite dget_ddel, decide_False by done; done).
    exists e. destruct (Qltb _ now); cbn [snd with_cache rr_cache]; split_and!; try done.
    rewrite <- dset_ddel_last by done. by rewrite dget_dset_ne.
Qed.

Lemma alive_hit k r now t s : (now <= t)%Q -> alive k r t s -> (replay_get k now s).1 = Some r.
Proof.
  intros L (e & D & <- & A). unfold replay_get. rewrite D. destruct (Qltb_spec (en_expires_at e) now) as [B|B]; [|done].
  exfalso. destruct (Qltb_spec (en_expires_at e) t); [done|]. lra.
Qed.

(** A message of the history leaves the reasoning of another turn alive. *)
Lemma restore_message_alive ft ep sys before now m s k r t :
  store_ok (rp_store s) -> (now <= t)%Q -> alive k r t (rp_store s) ->
  store_ok (rp_store (restore_message ft ep sys before now m s).2)
  /\ alive k r t (rp_store (restore_message ft ep sys before now m s).2).
Proof.
  intros SO L A. destruct m as [| | | | | |d]; try done. simpl. destruct (negb (is_assistant d)); [done|].
  destruct (has_reasoning d); [done|].
  set (k' := replay_key ft before sys _ _).
  pose proof (get_ok k' now (rp_store s) SO) as SO'. pose proof (alive_get k r k' now t _ (so_wf _ SO) L A) as A'.
  destruct (replay_get k' now (rp_store s)) as [[x|] st]; done.
Qed.

Lemma restore_loop_app ft ep sys clock before a b s :
  restore_loop ft ep sys clock before (a ++ b) s
  = ((restore_loop ft ep sys clock before a s).1
       ++ (restore_loop ft ep sys clock (before ++ a) b (restore_loop ft ep sys clock before a s).2).1,
     (restore_loop ft ep sys clock (before ++ a) b (restore_loop ft ep sys clock before a s).2).2).
Proof.
  revert before s. induction a as [|m a IH]; intros before s.
  - simpl. rewrite app_nil_r. by destruct (restore_loop ft ep sys clock before b s).
  - cbn [app restore_loop]. destruct (restore_message ft ep sys before (clock (length before)) m s) as [m' s1].
    rewrite IH, <- app_assoc. cbn [app]. by destruct (restore_loop ft ep sys clock (before ++ [m]) a s1) as [l1 s2].
Qed.

Lemma restore_loop_length ft ep sys clock before a s : length (restore_loop ft ep sys clock before a s).1 = length a.
Proof.
  revert before s. induction a as [|m a IH]; intros before s; [done|]. cbn [restore_loop].
  destruct (restore_message _ _ _ _ _ _ _) as [m' s1]. specialize (IH (before ++ [m]) s1).
  destruct (restore_loop _ _ _ _ _ a s1). simpl in *. by rewrite IH.
Qed.

Lemma restore_loop_alive ft ep sys clock before a s k r t :
  (forall i, (i < length before + length a)%nat -> (clock i <= t)%Q) ->
  store_ok (rp_store s) -> alive k r t (rp_store s) ->
  store_ok (rp_store (restore_loop ft ep sys clock before a s).2)
  /\ alive k r t (rp_store (restore_loop ft ep sys clock before a s).2).
Proof.
  revert before s. induction a as [|m a IH]; intros before s C SO A; [done|]. cbn [restore_loop].
  destruct (restore_message_alive ft ep sys before (clock (length before)) m s k r t SO) as [SO1 A1];
    [apply C; simpl; lia|done|].
  destruct (restore_message _ _ _ _ _ _ _) as [m' s1]. cbn [snd] in *.
  destruct (IH (before ++ [m]) s1) as [SO2 A2]; [|done|done|].
  { intros i Hi. apply C. rewrite length_app in Hi. simpl in *. lia. }
  by destruct (restore_loop _ _ _ _ _ a s1).
Qed.

(** The message the turn is replayed in, restored. *)
Lemma restore_message_hit ft ep sys before now d s r t :
  is_assistant d = true -> has_reasoning d = false -> (now <= t)%Q ->
  alive (replay_key ft before sys (jget d "content") (jget d "tool_calls")) r t (rp_store s) ->
  (restore_message ft ep sys before now (JDict d) s).1 = JDict (dset d "reasoning_content" (JStr r)).
Proof.
  intros A H L AL. simpl. rewrite A, H. simpl. apply (alive_hit _ _ now) in AL; [|done].
  destruct (replay_get _ now _) as [o st]. simpl in AL. by subst.
Qed.

(** The reasoning of a turn comes back: once a turn's reasoning is stored, a
    caller that replays the conversation with that turn in it (its own history
    perhaps with reasoning put back, the content trimmed, the tool-call
    arguments re-serialised) and without the reasoning gets it restored on that
    message, on every endpoint opted in, as long as the entry has not expired. *)
Theorem stored_reasoning_restored ft roles replays req p msgs content tool_calls r now s
    req' p' before d rest clock t :
  store_ok (rp_store s) -> (1 <= rr_max_entries (rp_store s))%Z ->
  (utf8_size r <= rr_max_bytes (rp_store s))%Z -> strip r <> "" ->
  rq_payload_type req = "chat_completion" -> rq_no_store req = false -> opted_in roles replays req = true ->
  rq_payload req = JDict p -> jget p "messages" = JList msgs ->
  rq_payload_type req' = "chat_completion" -> rq_no_store req' = false -> opted_in roles replays req' = true ->
  rq_payload req' = JDict p' -> jget p' "messages" = JList (before ++ JDict d :: rest) -> jget p' "system" = jget p "system" ->
  map _normalize_message before = map _normalize_message msgs ->
  is_assistant d = true -> has_reasoning d = false ->
  normal_content (jget d "content") = normal_content content ->
  _normalize_tool_calls ft (jget d "tool_calls") = _normalize_tool_calls ft tool_calls ->
  (forall i, (i <= length before)%nat -> (clock i <= t)%Q) -> Qltb (now + rr_ttl_s (rp_store s)) t = false ->
  exists ms, (apply_reasoning_replay_restore ft roles replays clock req'
                (store_reasoning_replay ft roles replays req content tool_calls (JStr r) now s)).1
             = JDict (dset p' "messages" (JList ms))
    /\ ms !! length before = Some (JDict (dset d "reasoning_content" (JStr r))).
Proof.
  intros SO M B R PT NS OI P MS PT' NS' OI' P' MS' SY HB HA HR HC HT CL EX.
  assert (NE : r <> "") by (intros ->; by vm_compute in R).
  unfold store_reasoning_replay. rewrite PT, NS, OI, P, MS. apply String.eqb_neq in R. rewrite R, String.eqb_refl. cbn [negb orb].
  set (k := replay_key ft msgs (jget p "system") content tool_calls).
  set (s1 := count _ _ _).
  assert (SO1 : store_ok (rp_store s1)) by (apply put_ok; done).
  assert (A1 : alive k r t (rp_store s1)) by (apply put_alive; done).
  clearbody s1. unfold apply_reasoning_replay_restore. rewrite PT', NS', P', OI', MS', String.eqb_refl. cbn [negb].
  rewrite restore_loop_app. set (s2 := open_tally _ s1).
  destruct (restore_loop_alive ft (rq_endpoint req') (jget p' "system") clock [] before s2 k r t) as [SO2 A2];
    [intros i Hi; apply CL; simpl in Hi; lia|done|done|].
  pose proof (restore_loop_length ft (rq_endpoint req') (jget p' "system") clock [] before s2) as LEN.
  destruct (restore_loop _ _ _ _ [] before s2) as [l1 s3]. cbn [fst snd] in *. cbn [restore_loop app].
  pose proof (restore_message_hit ft (rq_endpoint req') (jget p' "system") before (clock (length before)) d s3 r t HA HR
    (CL (length before) (le_n _))) as HIT.
  rewrite SY, (replay_key_normal ft before msgs (jget p "system") _ content _ tool_calls) in HIT by done.
  specialize (HIT A2). rewrite SY. destruct (restore_message _ _ _ _ _ _ s3) as [m' s4]. cbn [fst] in HIT. subst m'.
  destruct (restore_loop _ _ _ _ _ rest s4) as [l2 s5]. cbn [fst]. eexists. split; [done|].
  rewrite lookup_app_r by lia. by rewrite LEN, Nat.sub_diag.
Qed.

Definition demo_turn : dict string json := [("role", JStr "assistant"); ("content", JStr "hi")].
Definition demo_user : json := JDict [("role", JStr "user"); ("content", JStr "hello")].
Definition demo_payload (ms : list json) : dict string json := [("messages", JList ms)].
Definition demo_req (ms : list json) : ReplayReq := mkReplayReq "chat_completion" false "t3" (JDict (demo_payload ms)).
Definition demo_state : ReplayState := mkReplayState (new_store 4 1000 60) tally0 [].

Lemma stored_reasoning_restored_witness :
  exists ms, (apply_reasoning_replay_restore id [] [("t3", true)] (fun _ => 10%Q) (demo_req [demo_user; JDict demo_turn])
                (store_reasoning_replay id [] [("t3", true)] (demo_req [demo_user]) (JStr " hi") JNull (JStr "because") 0 demo_state)).1
             = JDict (dset (demo_payload [demo_user; JDict demo_turn]) "messages" (JList ms))
    /\ ms !! 1%nat = Some (JDict (dset demo_turn "reasoning_content" (JStr "because"))).
Proof.
  apply (stored_reasoning_restored id [] [("t3", true)] (demo_req [demo_user]) (demo_payload [demo_user]) [demo_user]
           (JStr " hi") JNull "because" 0 demo_state (demo_req [demo_user; JDict demo_turn])
           (demo_payload [demo_user; JDict demo_turn]) [demo_user] demo_turn [] (fun _ => 10%Q) 10);
    try reflexivity; try (vm_compute; congruence); try (intros; apply Qle_refl).
  constructor; simpl; try constructor; try lia.
Defined.

(** ** Streamed fragments *)

(** The fragments of the call at [i], in order. *)
Definition fragments_of (field : string) (i : Z) (l : list json) : string :=
  sjoin (map (fun j => match j with
                       | JDict d => if (delta_index d =? i)%Z
                                    then match jget d "function" with JDict f => str_or_empty (jget f field) | _ => "" end
                                    else ""
                       | _ => ""
                       end) l).

Lemma accumulate_one_get acc j i :
  dget (accumulate_one acc j) i
  = match j with
    | JDict d => if (delta_index d =? i)%Z then dget (accumulate_one acc j) (delta_index d) else dget acc i
    | _ => dget acc i
    end.
Proof.
  destruct j as [| | | | | |d]; try done. simpl. rewrite !dget_dset.
  destruct (Z.eqb_spec (delta_index d) i) as [->|N]; [done|]. by rewrite decide_False.
Qed.

(** A streamed tool call is reassembled whatever the chunking: the name and the
    arguments of call [i] are its fragments, concatenated in order. *)
Theorem fragments_concatenated chunks i e :
  dget (foldl accumulate_tool_call_deltas [] (map JList chunks)) i = Some e ->
  ca_name e = fragments_of "name" i (concat chunks) /\ ca_args e = fragments_of "arguments" i (concat chunks).
Proof.
  assert (FL : forall acc, foldl accumulate_tool_call_deltas acc (map JList chunks) = foldl accumulate_one acc (concat chunks)).
  { induction chunks as [|c cs IH]; intros acc; simpl; [done|]. by rewrite IH, foldl_app. }
  rewrite FL. clear FL. generalize (concat chunks) as l. clear chunks. intros l.
  assert (G : forall acc, dget (foldl accumulate_one acc l) i = Some e ->
    ca_name e = (from_option ca_name "" (dget acc i) +:+ fragments_of "name" i l)
    /\ ca_args e = (from_option ca_args "" (dget acc i) +:+ fragments_of "arguments" i l)).
  { induction l as [|j l IH]; intros acc; simpl.
    - intros ->. unfold fragments_of. simpl. by rewrite !sapp_nil_r.
    - intros H. destruct (IH _ H) as [-> ->]. clear IH H. rewrite accumulate_one_get. unfold fragments_of. simpl.
      destruct j as [| | | | | |d]; try done. destruct (Z.eqb_spec (delta_index d) i) as [<-|N]; [|done].
      cbn [accumulate_one]. rewrite dget_dset_eq. cbn [from_option ca_name ca_args].
      destruct (dget acc (delta_index d)) as [x|]; simpl; (split; rewrite ?sapp_assoc; f_equal; destruct (jget d "function"); done). }
  intros H. destruct (G [] H) as [-> ->]. done.
Qed.

Lemma fragments_concatenated_witness :
  ca_name (mkCallAcc (JStr "c") (JStr "function") "ls" "{}")
    = fragments_of "name" 0 (concat [[JDict [("id", JStr "c"); ("function", JDict [("name", JStr "ls"); ("arguments", JStr "{")])]];
                                     [JDict [("index", JInt 0); ("function", JDict [("arguments", JStr "}")])]]])
  /\ ca_args (mkCallAcc (JStr "c") (JStr "function") "ls" "{}")
    = fragments_of "arguments" 0 (concat [[JDict [("id", JStr "c"); ("function", JDict [("name", JStr "ls"); ("arguments", JStr "{")])]];
                                          [JDict [("index", JInt 0); ("function", JDict [("arguments", JStr "}")])]]]).
Proof. apply fragments_concatenated. vm_compute. reflexivity. Defined.
