(* ===== verification/NoStore.v ===== *)
(** * Content that may not be stored (no_store.py)

    The header a request asks with, the operator's decision, and the summary
    kept in place of the content. *)

From Stdlib Require Import Ascii Lia ZArith Permutation.
From stdpp Require Import base list strings.
From S2P Require Import Prelude PyDict PyText Json.

Local Open Scope string_scope.

Definition HEADER : string := "X-Roadstead-No-Store".
Definition SCOPE_CONTENT : string := "content".
Definition OUTCOME_HONOURED : string := "honoured".
Definition OUTCOME_REFUSED_PREFIX : string := "refused:".
Definition REASON_NOT_AUTHENTICATED : string := "not_authenticated".
Definition REASON_SHARED_IDENTITY : string := "shared_identity".
Definition REASON_NOT_GRANTED : string := "not_granted".
Definition WITHHELD : string := "<withheld: no-store>".

(** The header under the spellings tried, in order. *)
Definition read_header (headers : dict string string) : option string :=
  match dget headers HEADER with
  | Some v => Some v
  | None => match dget headers (lower HEADER) with
            | Some v => Some v
            | None => dget headers (upper HEADER)
            end
  end.

(** Whether the request asked; a value not defined is an error. *)
Definition parse_header (raw : option string) : res bool :=
  match raw with
  | None => Ret false
  | Some raw =>
      let value := lower (strip raw) in
      if String.eqb value "" then Ret false
      else if String.eqb value SCOPE_CONTENT then Ret true
      else Raise ValueError
  end.

Record Decision := mkDecision { de_outcome : string; de_reason : string }.

Definition requested (d : Decision) : bool := negb (String.eqb (de_outcome d) "").
Definition honoured (d : Decision) : bool := String.eqb (de_outcome d) OUTCOME_HONOURED.
Definition NOT_REQUESTED : Decision := mkDecision "" "".
Definition _refused (reason : string) : Decision := mkDecision (OUTCOME_REFUSED_PREFIX ++ reason) reason.

Definition decide_no_store (asked authenticated : bool) (agent_id : string) (granted : bool) (shared : list string) : Decision :=
  if negb asked then NOT_REQUESTED
  else if negb authenticated then _refused REASON_NOT_AUTHENTICATED
  else if bool_decide (agent_id ∈ shared) then _refused REASON_SHARED_IDENTITY
  else if negb granted then _refused REASON_NOT_GRANTED
  else mkDecision OUTCOME_HONOURED "".

Definition redact (no_store : bool) (text : string) : string := if no_store then WITHHELD else text.

(** ** The summary *)

Definition _ROLES : list string := ["system"; "developer"; "user"; "assistant"; "tool"; "function"].

Definition is_alnum (c : ascii) : bool := (is_upper c || is_lower c || is_digit c)%bool.

Definition in_chars (extra : string) (c : ascii) : bool := (is_alnum c || has_char c extra)%bool.

(** [^[class]{1,n}$]: one to [n] characters of the class, with at most one
    newline after them. *)
Definition class_text (extra : string) (n : nat) (s : string) : bool :=
  let ok t := (negb (String.eqb t "") && (String.length t <=? n)%nat && sforall (in_chars extra) t)%bool in
  (ok s || (endswith (String "010" "") s && ok (stake (String.length s - 1) s)))%bool.

Definition name_ok (s : string) : bool := class_text "_.:-" 64 s.
Definition model_ok (s : string) : bool := class_text "_.:/@+-" 128 s.
Definition _MAX_NAMES : nat := 64.

Definition _clean_name (j : json) : string :=
  match j with
  | JStr s => if name_ok s then s else "other"
  | _ => "other"
  end.

(** The function name of one entry of [tools] or [tool_calls]. *)
Definition function_name (item : json) : json :=
  match item with
  | JDict d => match jget d "function" with JDict f => jget f "name" | _ => JNull end
  | _ => JNull
  end.

(** The names found, before they are sorted. *)
Definition raw_names (items : json) : list string :=
  match items with
  | JList l => omap (fun i => match function_name i with JNull => None | n => Some (_clean_name n) end) l
  | _ => []
  end.

(** [sorted(set)[:_MAX_NAMES]] *)
Definition sorted_names (l : list string) : list string := take _MAX_NAMES (isort String.leb (remove_dups l)).

Definition _names (items : json) : list string := sorted_names (raw_names items).

Definition _size (j : json) : Z := Z.of_nat (String.length (dumps_with "," ":" false j)).

(** The role of a message, as a key; an unhashable one raises. *)
Definition role_key (m : json) : res string :=
  let role := match m with JDict d => jget d "role" | _ => JNull end in
  match role with
  | JStr r => Ret (if bool_decide (r ∈ _ROLES) then r else "other")
  | JList _ | JDict _ => Raise TypeError
  | _ => Ret "other"
  end.

Fixpoint count_roles (roles : dict string json) (ms : list json) : res (dict string json) :=
  match ms with
  | [] => Ret roles
  | m :: ms' =>
      match role_key m with
      | Ret k =>
          let n := match dget roles k with Some (JInt n) => n | _ => 0%Z end in
          count_roles (dset roles k (JInt (n + 1))) ms'
      | Raise e => Raise e
      end
  end.

Definition set_names (k : string) (names : list string) (out : dict string json) : dict string json :=
  match names with
  | [] => out
  | _ => dset out k (JList (map JStr names))
  end.

Definition set_count (k : string) (j : json) (out : dict string json) : dict string json :=
  match j with
  | JList l => dset out k (JInt (Z.of_nat (length l)))
  | _ => out
  end.

Definition payload_summary (p : dict string json) (out : dict string json) : res (dict string json) :=
  let out := dset out "payload_bytes" (JInt (_size (JDict p))) in
  out ← match jget p "messages" with
        | JList ms => match count_roles [] ms with
                      | Ret roles => Ret (dset (dset out "message_count" (JInt (Z.of_nat (length ms)))) "roles" (JDict roles))
                      | Raise e => Raise e
                      end
        | _ => Ret out
        end;
  let out := set_names "tools_declared" (_names (jget p "tools")) out in
  Ret (set_count "input_count" (jget p "texts") (set_count "input_count" (jget p "input") out)).

Definition set_model (k : string) (j : json) (out : dict string json) : dict string json :=
  match j with
  | JStr s => if model_ok s then dset out k (JStr s) else out
  | _ => out
  end.

(** The names called by one choice. *)
Definition choice_names (ch : json) : list string :=
  match ch with
  | JDict c => match jget c "message" with JDict m => _names (jget m "tool_calls") | _ => [] end
  | _ => []
  end.

Definition response_summary (r : dict string json) (out : dict string json) : dict string json :=
  let out := set_model "model_source" (jget r "model_source") (set_model "model" (jget r "model") out) in
  match jget r "choices" with
  | JList choices =>
      let out := dset (dset out "response_bytes" (JInt (_size (JDict r)))) "choice_count" (JInt (Z.of_nat (length choices))) in
      set_names "tool_calls" (sorted_names (concat (map choice_names choices))) out
  | _ => out
  end.

Definition content_summary (payload response : option (dict string json)) : res (dict string json) :=
  let out := [("v", JInt 1)] in
  out ← match payload with Some p => payload_summary p out | None => Ret out end;
  Ret match response with Some r => response_summary r out | None => out end.

(** ** What the summary can hold *)

(** The texts among the values of a JSON value, keys left aside. *)
Fixpoint value_texts (j : json) : list string :=
  match j with
  | JStr s => [s]
  | JList l => concat (map value_texts l)
  | JDict d => concat (map (fun kv => value_texts kv.2) d)
  | _ => []
  end.

(** A text short and plain enough to be an identifier. *)
Definition plain (s : string) : Prop := name_ok s = true \/ model_ok s = true.

Definition all_plain (d : dict string json) : Prop := Forall plain (value_texts (JDict d)).

Lemma value_texts_dset d k v s :
  s ∈ value_texts (JDict (dset d k v)) -> s ∈ value_texts (JDict d) \/ s ∈ value_texts v.
Proof.
  simpl. induction d as [|[a b] d IH]; simpl; [rewrite app_nil_r; by right|].
  case_decide; simpl; rewrite !elem_of_app; intuition.
Qed.

Lemma all_plain_dset d k v : all_plain d -> Forall plain (value_texts v) -> all_plain (dset d k v).
Proof.
  unfold all_plain. rewrite !Forall_forall. intros D V s H. apply value_texts_dset in H as [H|H]; auto.
Qed.

Lemma clean_name_plain j : plain (_clean_name j).
Proof.
  unfold _clean_name. destruct j as [| | | |s| |]; try (left; by vm_compute).
  destruct (name_ok s) eqn:E; left; [done|by vm_compute].
Qed.

Lemma sorted_names_plain l : Forall plain l -> Forall plain (sorted_names l).
Proof.
  intros F. unfold sorted_names. apply Forall_take. rewrite isort_perm. rewrite Forall_forall in F |- *.
  intros s H. apply F. by apply elem_of_remove_dups.
Qed.

Lemma names_plain j : Forall plain (_names j).
Proof.
  apply sorted_names_plain. unfold raw_names. destruct j as [| | | | |l|]; try constructor.
  apply Forall_forall. intros s H. apply list_elem_of_omap in H as (i & _ & H).
  assert (E : s = _clean_name (function_name i)) by (destruct (function_name i); congruence).
  rewrite E. apply clean_name_plain.
Qed.

Lemma texts_of_names l : value_texts (JList (map JStr l)) = l.
Proof. simpl. induction l; simpl; [done|]. by rewrite IHl. Qed.

Lemma all_plain_names k l d : Forall plain l -> all_plain d -> all_plain (set_names k l d).
Proof.
  intros F D. unfold set_names. destruct l as [|x l]; [done|]. apply all_plain_dset; [done|].
  by rewrite texts_of_names.
Qed.

Lemma all_plain_count k j d : all_plain d -> all_plain (set_count k j d).
Proof. intros D. unfold set_count. destruct j; try done. apply all_plain_dset; [done|constructor]. Qed.

Lemma all_plain_model k j d : all_plain d -> all_plain (set_model k j d).
Proof.
  intros D. unfold set_model. destruct j as [| | | |s| |]; try done. destruct (model_ok s) eqn:E; [|done].
  apply all_plain_dset; [done|]. constructor; [by right|constructor].
Qed.

Lemma count_roles_plain ms roles out : all_plain roles -> count_roles roles ms = Ret out -> all_plain out.
Proof.
  revert roles. induction ms as [|m ms IH]; intros roles P; simpl; [by intros [= <-]|].
  destruct (role_key m) as [k|e]; [|done]. apply IH. apply all_plain_dset; [done|constructor].
Qed.

(** The keys of the role counts are the roles known, or [other]. *)
Lemma count_roles_keys ms roles out :
  Forall (fun k => k ∈ "other" :: _ROLES) (dkeys roles) -> count_roles roles ms = Ret out ->
  Forall (fun k => k ∈ "other" :: _ROLES) (dkeys out).
Proof.
  revert roles. induction ms as [|m ms IH]; intros roles P; simpl; [by intros [= <-]|].
  destruct (role_key m) as [k|e] eqn:RK; [|done]. apply IH. apply Forall_forall. intros x Hx.
  rewrite Forall_forall in P. assert (x = k \/ x ∈ dkeys roles) as [->|Hx'].
  { rewrite dkeys_dset in Hx. case_decide; [by right|]. apply elem_of_app in Hx as [?|?%list_elem_of_singleton]; auto. }
  2: by apply P.
  unfold role_key in RK. destruct (match m with JDict d => jget d "role" | _ => JNull end); try (by injection RK as <-; left); try done.
  injection RK as <-. destruct (bool_decide_reflect (s ∈ _ROLES)); [by right|by left].
Qed.

(** A count of roles fails exactly on a message whose role is a list or a dict. *)
Definition unhashable_role (m : json) : bool :=
  match m with
  | JDict d => match jget d "role" with JList _ | JDict _ => true | _ => false end
  | _ => false
  end.

Lemma role_key_raises m : (exists e, role_key m = Raise e) <-> unhashable_role m = true.
Proof.
  unfold role_key, unhashable_role. destruct m; try (split; [by intros [e E]|done]).
  destruct (jget d "role"); split; try done; try (by intros [e E]); eauto.
Qed.

Lemma count_roles_raises ms roles :
  (exists e, count_roles roles ms = Raise e) <-> existsb unhashable_role ms = true.
Proof.
  revert roles. induction ms as [|m ms IH]; intros roles; simpl; [split; [by intros [e E]|done]|].
  rewrite orb_true_iff, <- role_key_raises, <- (IH (dset roles (match role_key m with Ret k => k | _ => "" end)
    (JInt (match dget roles (match role_key m with Ret k => k | _ => "" end) with Some (JInt n) => n | _ => 0%Z end + 1)))).
  destruct (role_key m) as [k|e]; split; eauto; intros [H|H]; eauto. by destruct H.
Qed.

Lemma payload_summary_plain p d out : all_plain d -> payload_summary p d = Ret out -> all_plain out.
Proof.
  intros D. unfold payload_summary.
  set (base := dset d "payload_bytes" _). assert (B : all_plain base) by (apply all_plain_dset; [done|constructor]).
  clearbody base.
  assert (Tail : forall o, all_plain o ->
    all_plain (set_count "input_count" (jget p "texts") (set_count "input_count" (jget p "input") (set_names "tools_declared" (_names (jget p "tools")) o)))).
  { intros o O. do 2 apply all_plain_count. apply all_plain_names; [apply names_plain|done]. }
  destruct (jget p "messages") as [| | | | |ms|] eqn:EM; simpl; try (intros [= <-]; by apply Tail).
  destruct (count_roles [] ms) as [roles|e] eqn:CR; [|done]. simpl. intros [= <-]. apply Tail.
  apply all_plain_dset; [apply all_plain_dset; [done|constructor]|].
  apply (count_roles_plain ms [] roles); [constructor|done].
Qed.

Lemma response_summary_plain r d : all_plain d -> all_plain (response_summary r d).
Proof.
  intros D. unfold response_summary.
  assert (M : all_plain (set_model "model_source" (jget r "model_source") (set_model "model" (jget r "model") d)))
    by (do 2 apply all_plain_model; done).
  destruct (jget r "choices") as [| | | | |cs|]; try done. apply all_plain_names.
  - apply sorted_names_plain. apply Forall_concat. apply Forall_map. apply Forall_forall. intros c _.
    unfold choice_names. destruct c; try constructor. destruct (jget d0 "message"); try constructor. apply names_plain.
  - do 2 (apply all_plain_dset; [|constructor]). done.
Qed.

(** ** The keys of the summary *)

Definition SUMMARY_KEYS : list string :=
  ["v"; "payload_bytes"; "message_count"; "roles"; "tools_declared"; "input_count"; "model"; "model_source";
   "response_bytes"; "choice_count"; "tool_calls"].

(** The keys are the summary's own, and those of the role counts known roles. *)
Definition shape_ok (d : dict string json) : Prop :=
  Forall (fun k => k ∈ SUMMARY_KEYS) (dkeys d)
  /\ (forall v, dget d "roles" = Some v -> exists roles, v = JDict roles /\ Forall (fun k => k ∈ "other" :: _ROLES) (dkeys roles)).

Lemma shape_dset d k v :
  k ∈ SUMMARY_KEYS -> k <> "roles" -> shape_ok d -> shape_ok (dset d k v).
Proof.
  intros K N [F R]. split.
  - rewrite dkeys_dset. case_decide; [done|]. apply Forall_app. split; [done|]. constructor; [done|constructor].
  - intros w. rewrite dget_dset. case_decide; [congruence|]. apply R.
Qed.

Ltac in_keys := apply (bool_decide_unpack _); by vm_compute.

Lemma shape_names k l d : k ∈ SUMMARY_KEYS -> k <> "roles" -> shape_ok d -> shape_ok (set_names k l d).
Proof. intros. unfold set_names. destruct l; [done|]. by apply shape_dset. Qed.

Lemma shape_count k j d : k ∈ SUMMARY_KEYS -> k <> "roles" -> shape_ok d -> shape_ok (set_count k j d).
Proof. intros. unfold set_count. destruct j; try done. by apply shape_dset. Qed.

Lemma shape_model k j d : k ∈ SUMMARY_KEYS -> k <> "roles" -> shape_ok d -> shape_ok (set_model k j d).
Proof. intros. unfold set_model. destruct j as [| | | |s| |]; try done. destruct (model_ok s); [|done]. by apply shape_dset. Qed.

Lemma payload_summary_shape p d out : shape_ok d -> payload_summary p d = Ret out -> shape_ok out.
Proof.
  intros D. unfold payload_summary.
  set (base := dset d "payload_bytes" _). assert (B : shape_ok base) by (apply shape_dset; [in_keys|done|done]).
  clearbody base.
  assert (Tail : forall o, shape_ok o ->
    shape_ok (set_count "input_count" (jget p "texts") (set_count "input_count" (jget p "input") (set_names "tools_declared" (_names (jget p "tools")) o)))).
  { intros o O. do 2 (apply shape_count; [in_keys|done|]). apply shape_names; [in_keys|done|done]. }
  destruct (jget p "messages") as [| | | | |ms|] eqn:EM; simpl; try (intros [= <-]; by apply Tail).
  destruct (count_roles [] ms) as [roles|e] eqn:CR; [|done]. simpl. intros [= <-]. apply Tail.
  assert (S : shape_ok (dset base "message_count" (JInt (Z.of_nat (length ms))))) by (apply shape_dset; [in_keys|done|done]).
  split.
  - rewrite dkeys_dset. case_decide; [apply S|]. apply Forall_app. split; [apply S|]. constructor; [in_keys|constructor].
  - intros v. rewrite dget_dset, decide_True by done. intros [= <-]. exists roles. split; [done|].
    apply (count_roles_keys ms []); [constructor|done].
Qed.

Lemma response_summary_shape r d : shape_ok d -> shape_ok (response_summary r d).
Proof.
  intros D. unfold response_summary.
  assert (M : shape_ok (set_model "model_source" (jget r "model_source") (set_model "model" (jget r "model") d)))
    by (do 2 (apply shape_model; [in_keys|done|]); done).
  destruct (jget r "choices") as [| | | | |cs|]; try done. apply shape_names; [in_keys|done|].
  do 2 (apply shape_dset; [in_keys|done|]). done.
Qed.

Lemma content_summary_clean payload response out :
  content_summary payload response = Ret out -> all_plain out /\ shape_ok out.
Proof.
  unfold content_summary.
  assert (V : all_plain [("v", JInt 1)]) by constructor.
  assert (W : shape_ok [("v", JInt 1)]) by (split; [constructor; [in_keys|constructor]|done]).
  assert (R : forall d, all_plain d -> shape_ok d ->
    forall o, Ret match response with Some r => response_summary r d | None => d end = Ret o -> all_plain o /\ shape_ok o).
  { intros d P S o [= <-]. destruct response as [r|]; [|done].
    split; [by apply response_summary_plain|by apply response_summary_shape]. }
  destruct payload as [p|]; [|by apply R].
  destruct (payload_summary p _) as [d|e] eqn:E; [|done].
  apply R; [by apply (payload_summary_plain _ _ _ V E)|by apply (payload_summary_shape _ _ _ W E)].
Qed.

(** ** Properties *)

(** C0. What is kept in place of withheld content holds none of it: every text
    among its values is a short plain identifier, its keys are the summary's
    own, and the keys of the role counts are the protocol's roles or [other]. *)
Theorem summary_holds_no_prose payload response out :
  content_summary payload response = Ret out -> all_plain out /\ shape_ok out.
Proof. apply content_summary_clean. Qed.

(** C0. The summary of a request fails exactly when a message carries a role
    that is a list or an object, which the code looks up in a set. *)
Theorem summary_raises_exactly p response :
  (exists e, content_summary (Some p) response = Raise e)
  <-> exists ms, jget p "messages" = JList ms /\ existsb unhashable_role ms = true.
Proof.
  unfold content_summary, payload_summary. destruct (jget p "messages") as [| | | | |ms|];
    try (split; [by intros [e E]|by intros (? & [=] & _)]).
  destruct (count_roles [] ms) as [roles|e] eqn:CR; simpl.
  - split; [by intros [e E]|]. intros (ms' & [= <-] & H). apply (count_roles_raises ms []) in H as [e E]. congruence.
  - split; [|eauto]. intros _. exists ms. split; [done|]. apply (count_roles_raises ms []). eauto.
Qed.

(** C0. Content is withheld exactly for a caller that asked, presented a
    credential, is not a shared identity and was granted it; whoever asked
    and is refused is told why. *)
Theorem no_store_honoured_exactly asked authenticated agent_id granted shared :
  (honoured (decide_no_store asked authenticated agent_id granted shared) = true
   <-> asked = true /\ authenticated = true /\ agent_id ∉ shared /\ granted = true)
  /\ requested (decide_no_store asked authenticated agent_id granted shared) = asked
  /\ (honoured (decide_no_store asked authenticated agent_id granted shared) = false ->
      asked = true -> de_reason (decide_no_store asked authenticated agent_id granted shared) <> "").
Proof.
  unfold decide_no_store. destruct asked, authenticated; simpl; try (by intuition).
  - case_bool_decide; simpl; [by intuition|]. destruct granted; simpl; by intuition.
Qed.

Definition demo_payload : dict string json :=
  [("messages", JList [JDict [("role", JStr "user"); ("content", JStr "a secret, at length")]; JDict [("role", JStr "my secret role")]]);
   ("tools", JList [JDict [("function", JDict [("name", JStr "look up")])]])].

Definition demo_reply : dict string json :=
  [("model", JStr "qwen3-8b"); ("choices", JList [JDict [("message", JDict [("tool_calls", JList [JDict [("function", JDict [("name", JStr "search")])]])])]])].

Lemma summary_holds_no_prose_witness :
  exists out, content_summary (Some demo_payload) (Some demo_reply) = Ret out /\ all_plain out /\ shape_ok out.
Proof.
  eexists. split; [by vm_compute|].
  apply (summary_holds_no_prose (Some demo_payload) (Some demo_reply)). by vm_compute.
Defined.
