(* ===== verification/Wal.v ===== *)
(** * The persistent queue (queue.py)

    The tables the proxy writes and reads back: the restart log [proxy_queue],
    the completion rows, the lifetime savings rollup, the budgets, the overflow
    tallies, the key/value blobs, the timeout rows, the maintenance windows and
    the cache snapshots; the SQL statements as operations on them;
    and the writer: statements are submitted to a bounded queue and applied by
    one thread in order.  SQLite itself is the meaning given to the statements
    here.  The reporting queries are not modelled. *)

From Stdlib Require Import QArith Qminmax Lqa Lia ZArith Permutation.
From stdpp Require Import base list strings.
From S2P Require Import Prelude PyDict PyText Json Config Queue JsonRead NoStore.

Local Open Scope string_scope.

(** ** Tables *)

Inductive QStatus := Queued | Dispatched.

#[global] Instance QStatus_eq_dec : EqDecision QStatus.
Proof. solve_decision. Defined.

(** A row of [proxy_queue]. *)
Record QRow := mkQRow {
  q_request_id : string;
  q_agent_id : string;
  q_endpoint : string;
  q_priority : Z;
  q_call_site : string;
  q_payload_type : string;
  q_payload_json : string;
  q_status : QStatus;
  q_enqueued_at : Q;
  q_timeout_deadline : Q;
  q_estimated_cost : Q;
  q_session_id : option string;
  q_turn_id : option string;
  q_stream : bool;
  q_enqueued_wall : option Q;
  q_timeout_s : option Q;
  q_caller_id : option string
}.

(** A row of [proxy_completions]. *)
Record CRow := mkCRow {
  c_request_id : string;
  c_agent_id : string;
  c_endpoint : string;
  c_call_site : string;
  c_priority : Z;
  c_input_tokens : Z;
  c_output_tokens : Z;
  c_cached_tokens : option Z;
  c_duration_s : Q;
  c_queue_wait_ms : Q;
  c_status : string;
  c_completed_at : Q;
  c_payload_json : option string;
  c_response_json : option string;
  c_session_id : option string;
  c_turn_id : option string;
  c_caller_id : option string;
  c_finish_reason : option string;
  c_kind : option string;
  c_key_id : option string;
  c_no_store : option string;
  c_content_meta : option string
}.

(** A row of [proxy_timeout_shadow]. *)
Record SRow := mkSRow {
  s_request_id : string;
  s_completed_at : Q;
  s_endpoint : string;
  s_priority : Z;
  s_est_in : Z;
  s_est_out : Z;
  s_actual_out : Z;
  s_actual_total_ms : Q;
  s_applied_timeout_s : Q;
  s_recommended_ms : Q;
  s_p95_ms : Q;
  s_median_ms : Q;
  s_min_ms : Q;
  s_source : string;
  s_would_timeout : bool
}.

(** A row of [proxy_timeouts], its serial number left aside. *)
Record TRow := mkTRow {
  to_request_id : string;
  to_occurred_at : Q;
  to_endpoint : string;
  to_priority : Z;
  to_agent_id : string;
  to_call_site : string;
  to_layer : string;
  to_elapsed_s : Q;
  to_applied_timeout_s : Q;
  to_queue_wait_ms : option Q;
  to_in_flight : Z;
  to_queued : Z;
  to_max_slots : Z;
  to_est_in : Z;
  to_est_out : Z;
  to_recommended_ms : Q;
  to_under_recommended : bool;
  to_session_id : option string;
  to_turn_id : option string;
  to_caller_id : option string;
  to_context_window : Z;
  to_context_used_pct : option Q;
  to_abort_reason : option string
}.

(** A row of [proxy_maintenance]: a window, open while it has no end. *)
Record MRow := mkMRow {
  m_id : Z;
  m_endpoint : string;
  m_started_at : Q;
  m_ended_at : option Q;
  m_reason : option string;
  m_operator : option string;
  m_source : string
}.

(** A row of [proxy_cache_stats], its serial number left aside. *)
Record KRow := mkKRow {
  k_snapshot_at : Q;
  k_endpoint : string;
  k_cum_hits : option Z;
  k_cum_queries : option Z;
  k_screen_json : string
}.

(** A row of [proxy_agent_budgets]. *)
Record BRow := mkBRow { b_agent_id : string; b_weight : Q; b_balance : Q; b_total_consumed : Q; b_last_replenish_at : Q }.

(** A row of [proxy_context_overflows]. *)
Record ORow := mkORow { o_count : Z; o_max_est_in : Z; o_last_at : Q }.

Record DB := mkDB {
  t_queue : list QRow;
  t_completions : list CRow;
  t_savings : dict (string * Z) (Z * Z);
  t_budgets : list BRow;
  t_overflows : dict (string * string) ORow;
  t_kv : dict string string;
  t_shadow : list SRow;
  t_timeouts : list TRow;
  t_maintenance : list MRow;
  t_maint_seq : Z;
  t_cache_stats : list KRow
}.

Definition empty_db : DB := mkDB [] [] [] [] [] [] [] [] [] 0 [].

(** ** Statements *)

Inductive Stmt :=
| INSERT_QUEUE (r : QRow)
| UPDATE_DISPATCHED (id : string)
| DELETE_QUEUE (id : string)
| INSERT_COMPLETION (r : CRow)
| FINALISE_SAVINGS
| PRUNE_COMPLETIONS (cutoff : Q)
| PRUNE_SHADOW (cutoff : Q)
| PRUNE_TIMEOUTS (cutoff : Q)
| NULL_PAYLOADS (cutoff : Q)
| UPSERT_BUDGET (b : BRow)
| DELETE_BUDGET (agent_id : string)
| UPSERT_OVERFLOW (endpoint caller : string) (est_in : Z) (at_ : Q)
| UPSERT_KV (key value : string)
| INSERT_SHADOW (r : SRow)
| INSERT_TIMEOUT (r : TRow)
| INSERT_MAINTENANCE (endpoint : string) (started_at : Q) (ended_at : option Q) (reason operator : option string) (source : string)
| CLOSE_MAINTENANCE (endpoint : string) (ended_at : Q)
| INSERT_CACHE_STATS (r : KRow)
| PRUNE_CACHE_STATS (cutoff : Q).

(** [CAST(t / 86400 AS INTEGER) * 86400] *)
Definition day_bucket_of (t : Q) : Z := (Qtrunc (t / 86400) * 86400)%Z.

Definition row_bucket (r : CRow) : string * Z := (c_endpoint r, day_bucket_of (c_completed_at r)).

(** The token sums of one bucket of [proxy_completions]. *)
Definition live_tokens (rows : list CRow) (b : string * Z) : Z * Z :=
  let rs := List.filter (fun r => bool_decide (row_bucket r = b)) rows in
  (foldr (fun r z => c_input_tokens r + z)%Z 0%Z rs, foldr (fun r z => c_output_tokens r + z)%Z 0%Z rs).

Definition max2 (a b : Z * Z) : Z * Z := (Z.max a.1 b.1, Z.max a.2 b.2).

(** [_FINALISE_SAVINGS_SQL]: every bucket present, upserted by maximum. *)
Definition finalise (rows : list CRow) (savings : dict (string * Z) (Z * Z)) : dict (string * Z) (Z * Z) :=
  foldl (fun d b => dset d b (match dget d b with
                              | Some old => max2 old (live_tokens rows b)
                              | None => live_tokens rows b
                              end)) savings (remove_dups (map row_bucket rows)).

Definition set_queue (f : list QRow -> list QRow) (d : DB) : DB :=
  mkDB (f (t_queue d)) (t_completions d) (t_savings d) (t_budgets d) (t_overflows d) (t_kv d) (t_shadow d) (t_timeouts d) (t_maintenance d) (t_maint_seq d) (t_cache_stats d).
Definition set_completions (f : list CRow -> list CRow) (d : DB) : DB :=
  mkDB (t_queue d) (f (t_completions d)) (t_savings d) (t_budgets d) (t_overflows d) (t_kv d) (t_shadow d) (t_timeouts d) (t_maintenance d) (t_maint_seq d) (t_cache_stats d).
Definition set_savings (s : dict (string * Z) (Z * Z)) (d : DB) : DB :=
  mkDB (t_queue d) (t_completions d) s (t_budgets d) (t_overflows d) (t_kv d) (t_shadow d) (t_timeouts d) (t_maintenance d) (t_maint_seq d) (t_cache_stats d).
Definition set_budgets (f : list BRow -> list BRow) (d : DB) : DB :=
  mkDB (t_queue d) (t_completions d) (t_savings d) (f (t_budgets d)) (t_overflows d) (t_kv d) (t_shadow d) (t_timeouts d) (t_maintenance d) (t_maint_seq d) (t_cache_stats d).
Definition set_overflows (o : dict (string * string) ORow) (d : DB) : DB :=
  mkDB (t_queue d) (t_completions d) (t_savings d) (t_budgets d) o (t_kv d) (t_shadow d) (t_timeouts d) (t_maintenance d) (t_maint_seq d) (t_cache_stats d).
Definition set_kv (k : dict string string) (d : DB) : DB :=
  mkDB (t_queue d) (t_completions d) (t_savings d) (t_budgets d) (t_overflows d) k (t_shadow d) (t_timeouts d) (t_maintenance d) (t_maint_seq d) (t_cache_stats d).
Definition set_shadow (f : list SRow -> list SRow) (d : DB) : DB :=
  mkDB (t_queue d) (t_completions d) (t_savings d) (t_budgets d) (t_overflows d) (t_kv d) (f (t_shadow d)) (t_timeouts d) (t_maintenance d) (t_maint_seq d) (t_cache_stats d).
Definition set_timeouts (f : list TRow -> list TRow) (d : DB) : DB :=
  mkDB (t_queue d) (t_completions d) (t_savings d) (t_budgets d) (t_overflows d) (t_kv d) (t_shadow d) (f (t_timeouts d)) (t_maintenance d) (t_maint_seq d) (t_cache_stats d).
Definition set_maintenance (f : list MRow -> list MRow) (seq : Z) (d : DB) : DB :=
  mkDB (t_queue d) (t_completions d) (t_savings d) (t_budgets d) (t_overflows d) (t_kv d) (t_shadow d) (t_timeouts d) (f (t_maintenance d)) seq (t_cache_stats d).
Definition set_cache_stats (f : list KRow -> list KRow) (d : DB) : DB :=
  mkDB (t_queue d) (t_completions d) (t_savings d) (t_budgets d) (t_overflows d) (t_kv d) (t_shadow d) (t_timeouts d) (t_maintenance d) (t_maint_seq d) (f (t_cache_stats d)).

Definition dispatch_row (r : QRow) : QRow :=
  mkQRow (q_request_id r) (q_agent_id r) (q_endpoint r) (q_priority r) (q_call_site r) (q_payload_type r)
    (q_payload_json r) Dispatched (q_enqueued_at r) (q_timeout_deadline r) (q_estimated_cost r) (q_session_id r)
    (q_turn_id r) (q_stream r) (q_enqueued_wall r) (q_timeout_s r) (q_caller_id r).

(** Whether a completion row may be pruned: old enough, and its bucket is in
    the rollup. *)
Definition prunable (savings : dict (string * Z) (Z * Z)) (cutoff : Q) (r : CRow) : bool :=
  (Qltb (c_completed_at r) cutoff && dmem savings (row_bucket r))%bool.

Definition null_payload (cutoff : Q) (r : CRow) : CRow :=
  if Qltb (c_completed_at r) cutoff
  then mkCRow (c_request_id r) (c_agent_id r) (c_endpoint r) (c_call_site r) (c_priority r) (c_input_tokens r)
         (c_output_tokens r) (c_cached_tokens r) (c_duration_s r) (c_queue_wait_ms r) (c_status r) (c_completed_at r) None None
         (c_session_id r) (c_turn_id r) (c_caller_id r) (c_finish_reason r) (c_kind r) (c_key_id r) (c_no_store r)
         (c_content_meta r)
  else r.

(** An open window of the endpoint is given an end. *)
Definition close_window (endpoint : string) (ended_at : Q) (m : MRow) : MRow :=
  if (String.eqb (m_endpoint m) endpoint && bool_decide (m_ended_at m = None))%bool
  then mkMRow (m_id m) (m_endpoint m) (m_started_at m) (Some ended_at) (m_reason m) (m_operator m) (m_source m)
  else m.

Definition exec (d : DB) (s : Stmt) : DB :=
  match s with
  | INSERT_QUEUE r =>
      set_queue (fun t => (List.filter (fun x => negb (String.eqb (q_request_id x) (q_request_id r))) t ++ [r])%list) d
  | UPDATE_DISPATCHED id =>
      set_queue (map (fun r => if String.eqb (q_request_id r) id then dispatch_row r else r)) d
  | DELETE_QUEUE id => set_queue (List.filter (fun r => negb (String.eqb (q_request_id r) id))) d
  | INSERT_COMPLETION r =>
      set_completions (fun t => (List.filter (fun x => negb (String.eqb (c_request_id x) (c_request_id r))) t ++ [r])%list) d
  | FINALISE_SAVINGS => set_savings (finalise (t_completions d) (t_savings d)) d
  | PRUNE_COMPLETIONS cutoff => set_completions (List.filter (fun r => negb (prunable (t_savings d) cutoff r))) d
  | NULL_PAYLOADS cutoff => set_completions (map (null_payload cutoff)) d
  | UPSERT_BUDGET b =>
      set_budgets (fun t => (List.filter (fun x => negb (String.eqb (b_agent_id x) (b_agent_id b))) t ++ [b])%list) d
  | DELETE_BUDGET aid => set_budgets (List.filter (fun b => negb (String.eqb (b_agent_id b) aid))) d
  | UPSERT_OVERFLOW ep caller est at_ =>
      set_overflows (dset (t_overflows d) (ep, caller)
        (match dget (t_overflows d) (ep, caller) with
         | Some o => mkORow (o_count o + 1) (Z.max (o_max_est_in o) est) at_
         | None => mkORow 1 est at_
         end)) d
  | UPSERT_KV k v => set_kv (dset (t_kv d) k v) d
  | PRUNE_SHADOW cutoff => set_shadow (List.filter (fun r => negb (Qltb (s_completed_at r) cutoff))) d
  | PRUNE_TIMEOUTS cutoff => set_timeouts (List.filter (fun r => negb (Qltb (to_occurred_at r) cutoff))) d
  | INSERT_SHADOW r =>
      set_shadow (fun t => (List.filter (fun x => negb (String.eqb (s_request_id x) (s_request_id r))) t ++ [r])%list) d
  | INSERT_TIMEOUT r => set_timeouts (fun t => (t ++ [r])%list) d
  | INSERT_MAINTENANCE ep st en reason op src =>
      set_maintenance (fun t => (t ++ [mkMRow (t_maint_seq d + 1) ep st en reason op src])%list) (t_maint_seq d + 1) d
  | CLOSE_MAINTENANCE ep en => set_maintenance (map (close_window ep en)) (t_maint_seq d) d
  | INSERT_CACHE_STATS r => set_cache_stats (fun t => (t ++ [r])%list) d
  | PRUNE_CACHE_STATS cutoff => set_cache_stats (List.filter (fun r => negb (Qltb (k_snapshot_at r) cutoff))) d
  end.

(** ** The writer *)

Inductive Writer := NotStarted | Alive | Dead.

Record WState := mkWState {
  w_db : DB;
  w_writer : Writer;
  w_queue : list Stmt;
  w_maxsize : nat;
  w_dropped : Z;
  w_restarts : Z
}.

Definition w_set (db : DB) (wr : Writer) (q : list Stmt) (dropped restarts : Z) (s : WState) : WState :=
  mkWState db wr q (w_maxsize s) (w_dropped s + dropped) (w_restarts s + restarts).

(** [put_nowait], dropping when the queue is full. *)
Definition put_nowait (st : Stmt) (restarts : Z) (s : WState) : WState :=
  if (w_maxsize s <=? length (w_queue s))%nat
  then w_set (w_db s) Alive (w_queue s) 1 restarts s
  else w_set (w_db s) Alive (w_queue s ++ [st])%list 0 restarts s.

(** [_w(sql)]; [revives] says whether starting a new thread works when the
    writer is found dead. *)
Definition _w (revives : bool) (st : Stmt) (s : WState) : WState :=
  match w_writer s with
  | Alive => put_nowait st 0 s
  | NotStarted => w_set (exec (w_db s) st) NotStarted (w_queue s) 0 0 s
  | Dead => if revives then put_nowait st 1 s
            else w_set (exec (w_db s) st) Dead (w_queue s) 0 1 s
  end.

(** One statement applied by the writer thread. *)
Definition writer_step (s : WState) : option WState :=
  match w_writer s, w_queue s with
  | Alive, st :: q => Some (w_set (exec (w_db s) st) Alive q 0 0 s)
  | _, _ => None
  end.

(** [start_async_writer()] *)
Definition start_async_writer (maxsize : nat) (s : WState) : WState :=
  match w_writer s with
  | NotStarted => mkWState (w_db s) Alive [] maxsize (w_dropped s) (w_restarts s)
  | _ => s
  end.

(** ** Operations: the statements each submits *)

Section Ops.
Context (wall : Q).

Definition compact (j : json) : string := dumps_with "," ":" false j.

Definition enqueue_row (r : QueuedRequest) : QRow :=
  mkQRow (r_request_id r) (r_agent_id r) (r_endpoint r) (prio_int (r_priority r)) (r_call_site r) (r_payload_type r)
    (compact (JDict (r_payload r))) Queued (r_enqueued_at r) (r_timeout_deadline r) (r_estimated_cost_ss r)
    (r_session_id r) (r_turn_id r) (r_stream r) (Some wall) (Some (r_timeout_s r)) (r_caller_id r).

Definition persist_enqueue (r : QueuedRequest) : list Stmt :=
  if no_store r then [] else [INSERT_QUEUE (enqueue_row r)].

Definition persist_dispatch (id : string) : list Stmt := [UPDATE_DISPATCHED id].

Definition persist_expire (id : string) : list Stmt := [DELETE_QUEUE id].

(** [json.dumps(x) if x else None] *)
Definition body_text (b : option (dict string json)) : option string :=
  match b with
  | Some ((_ :: _) as d) => Some (compact (JDict d))
  | _ => None
  end.

(** The arguments of [persist_complete]. *)
Record Completion := mkCompletion {
  cp_request_id : string;
  cp_agent_id : string;
  cp_endpoint : string;
  cp_call_site : string;
  cp_priority : Z;
  cp_input_tokens : Z;
  cp_output_tokens : Z;
  cp_duration_s : Q;
  cp_queue_wait_ms : Q;
  cp_status : string;
  cp_payload : option (dict string json);
  cp_response : option (dict string json);
  cp_session_id : option string;
  cp_turn_id : option string;
  cp_caller_id : option string;
  cp_finish_reason : option string;
  cp_kind : option string;
  cp_cached_tokens : option Z;
  cp_key_id : option string;
  cp_no_store : option string
}.

(** The two statements of a finished request; the summary of a withheld one
    may raise, and then nothing is written. *)
Definition persist_complete (c : Completion) : res (list Stmt) :=
  let honoured := bool_decide (cp_no_store c = Some OUTCOME_HONOURED) in
  meta ← (if honoured
          then match content_summary (cp_payload c) (cp_response c) with
               | Ret out => Ret (Some (compact (JDict out)))
               | Raise e => Raise e
               end
          else Ret None);
  Ret [DELETE_QUEUE (cp_request_id c);
       INSERT_COMPLETION (mkCRow (cp_request_id c) (cp_agent_id c) (cp_endpoint c) (cp_call_site c) (cp_priority c)
         (cp_input_tokens c) (cp_output_tokens c) (cp_cached_tokens c) (cp_duration_s c) (cp_queue_wait_ms c) (cp_status c) wall
         (if honoured then None else body_text (cp_payload c))
         (if honoured then None else body_text (cp_response c))
         (cp_session_id c) (cp_turn_id c) (cp_caller_id c) (cp_finish_reason c) (cp_kind c) (cp_key_id c)
         (if str_truthy (cp_no_store c) then cp_no_store c else None) meta)].

Definition cleanup_old_completions (max_age_s : Q) : list Stmt :=
  let cutoff := (wall - max_age_s)%Q in
  [FINALISE_SAVINGS; PRUNE_COMPLETIONS cutoff; PRUNE_SHADOW cutoff; PRUNE_TIMEOUTS cutoff].

Definition cleanup_old_payloads (max_age_s : Q) : list Stmt := [NULL_PAYLOADS (wall - max_age_s)].

Definition save_budgets (bs : list (string * Q * Q * Q)) : list Stmt :=
  map (fun b => UPSERT_BUDGET (mkBRow b.1.1.1 b.1.1.2 b.1.2 b.2 wall)) bs.

Definition delete_budgets (ids : list string) : list Stmt := map DELETE_BUDGET ids.

Definition record_context_overflow (endpoint caller : string) (est_in : Z) : list Stmt :=
  [UPSERT_OVERFLOW endpoint caller est_in wall].

Definition kv_set (key : string) (value : json) : list Stmt := [UPSERT_KV key (dumps value)].

(** A shadow row and a timeout row carry the time of the call in place of
    the one given. *)
Definition persist_timeout_shadow (r : SRow) : list Stmt :=
  [INSERT_SHADOW (mkSRow (s_request_id r) wall (s_endpoint r) (s_priority r) (s_est_in r) (s_est_out r) (s_actual_out r)
     (s_actual_total_ms r) (s_applied_timeout_s r) (s_recommended_ms r) (s_p95_ms r) (s_median_ms r) (s_min_ms r) (s_source r)
     (s_would_timeout r))].

Definition persist_timeout_event (r : TRow) : list Stmt :=
  [INSERT_TIMEOUT (mkTRow (to_request_id r) wall (to_endpoint r) (to_priority r) (to_agent_id r) (to_call_site r) (to_layer r)
     (to_elapsed_s r) (to_applied_timeout_s r) (to_queue_wait_ms r) (to_in_flight r) (to_queued r) (to_max_slots r) (to_est_in r)
     (to_est_out r) (to_recommended_ms r) (to_under_recommended r) (to_session_id r) (to_turn_id r) (to_caller_id r)
     (to_context_window r) (to_context_used_pct r) (to_abort_reason r))].

(** A call of another service, filed as a completion with no bodies. *)
Definition persist_external_call (roles : dict string string) (request_id agent_id endpoint call_site kind : string)
    (input_tokens output_tokens : Z) (duration_s : Q) (status : string) (priority : Z) (caller_id : option string) : list Stmt :=
  [INSERT_COMPLETION (mkCRow request_id agent_id (normalize_endpoint roles endpoint) call_site priority input_tokens output_tokens
     None duration_s 0 status wall None None None None caller_id None (Some kind) None None None)].

(** ** Maintenance windows *)

Definition _norm_maint_endpoint (roles : dict string string) (endpoint : string) : string :=
  if String.eqb endpoint "*" then "*" else normalize_endpoint roles endpoint.

(** [x or None] *)
Definition or_none (x : string) : option string := if String.eqb x "" then None else Some x.

Definition maintenance_open (roles : dict string string) (endpoint reason operator source : string) (started_at : option Q) : list Stmt :=
  [INSERT_MAINTENANCE (_norm_maint_endpoint roles endpoint) (default wall started_at) None (or_none reason) (or_none operator) source].

Definition maintenance_close (roles : dict string string) (endpoint : string) (ended_at : option Q) : list Stmt :=
  [CLOSE_MAINTENANCE (_norm_maint_endpoint roles endpoint) (default wall ended_at)].

Definition maintenance_record (roles : dict string string) (endpoint : string) (started_at ended_at : Q) (reason operator source : string) : list Stmt :=
  [INSERT_MAINTENANCE (_norm_maint_endpoint roles endpoint) started_at (Some ended_at) (or_none reason) (or_none operator) source].

Definition persist_cache_snapshot (r : KRow) : list Stmt := [INSERT_CACHE_STATS r].

Definition prune_cache_stats (older_than_s : Q) : list Stmt := [PRUNE_CACHE_STATS (wall - older_than_s)].
(** [maintenance_windows(hours)]: the windows that reach into the last hours,
    by start; an open one reaches to now. *)
Definition maintenance_windows (d : DB) (hours : Q) : list MRow :=
  isort (fun a b => Qle_bool (m_started_at a) (m_started_at b))
    (List.filter (fun m => Qle_bool (wall - hours * 3600) (default wall (m_ended_at m))) (t_maintenance d)).

(** [load_context_overflows()]: the aggregates of the last two days, per
    endpoint, as total, count per caller and largest estimate. *)
Definition _CONTEXT_OVERFLOW_SEED_WINDOW_S : Q := 48 * 3600.

Definition load_context_overflows (d : DB) : dict string (Z * dict string Z * Z) :=
  foldl (fun out kv =>
    let '((ep, caller), o) := kv in
    let '(n, callers, mx) := default (0, [], 0)%Z (dget out ep) in
    dset out ep ((n + o_count o)%Z, dset callers caller (o_count o), Z.max mx (o_max_est_in o)))
    [] (List.filter (fun kv => Qle_bool (wall - _CONTEXT_OVERFLOW_SEED_WINDOW_S) (o_last_at kv.2)) (t_overflows d)).

(** [day_spend_rollup(since)]: requests and tokens per caller and endpoint;
    the order of the groups is not promised by SQL. *)
Definition day_spend_rollup (d : DB) (since : Q) : list (string * string * Z * Z * Z) :=
  let rows := List.filter (fun r => Qle_bool since (c_completed_at r)) (t_completions d) in
  let group k := List.filter (fun r => bool_decide ((c_agent_id r, c_endpoint r) = k)) rows in
  map (fun k => (k.1, k.2, Z.of_nat (length (group k)), foldr (fun r z => c_input_tokens r + z)%Z 0%Z (group k),
                 foldr (fun r z => c_output_tokens r + z)%Z 0%Z (group k)))
    (List.filter (fun k => negb (String.eqb k.1 "") && negb (String.eqb k.2 ""))%bool
       (remove_dups (map (fun r => (c_agent_id r, c_endpoint r)) rows))).
End Ops.

Definition submit (revives : bool) (sts : list Stmt) (s : WState) : WState :=
  foldl (fun s st => _w revives st s) s sts.

(** ** Reads *)

(** [kv_get(key, default)] *)
Definition kv_get (float_text : string -> string) (d : DB) (key : string) (dflt : json) : json :=
  match dget (t_kv d) key with
  | Some v => default dflt (loads float_text v)
  | None => dflt
  end.

Definition load_budgets (d : DB) : list (string * Q * Q * Q) :=
  map (fun b => (b_agent_id b, (if Qeq_bool (b_weight b) 0 then 1 else b_weight b)%Q, b_balance b, b_total_consumed b)) (t_budgets d).

(** The lifetime tokens of a bucket: live rows and rollup are two views of it. *)
Definition bucket_lifetime (d : DB) (b : string * Z) : Z * Z :=
  max2 (live_tokens (t_completions d) b) (default (0, 0)%Z (dget (t_savings d) b)).

(** The buckets [savings_summary] knows of, and its token totals. *)
Definition known_buckets (d : DB) : list (string * Z) :=
  remove_dups (map row_bucket (t_completions d) ++ dkeys (t_savings d)).

Definition lifetime_tokens (d : DB) : Z * Z :=
  foldr (fun b t => ((bucket_lifetime d b).1 + t.1, (bucket_lifetime d b).2 + t.2)%Z) (0, 0)%Z (known_buckets d).

(** ** Recovery after a restart *)

Section Recover.
Context (float_text : string -> string) (roles : dict string string).

(** What is left of a row's budget, and the new anchor of its clock: how long
    it has been waiting and how long it may still wait.  [None]: expired. *)
Definition rebase (wall_now : Q) (r : QRow) : option (Q * Q * Q) :=
  let budget := match q_timeout_s r with Some t => if Qeq_bool t 0 then 180%Q else t | None => 180%Q end in
  match q_enqueued_wall r with
  | Some ew =>
      if Qeq_bool ew 0 then Some (budget, 0%Q, budget)
      else
        let elapsed := Qmax 0 (wall_now - ew)%Q in
        let remaining := (budget - elapsed)%Q in
        if Qle_bool remaining 0 then None else Some (budget, elapsed, remaining)
  | None => Some (budget, 0%Q, budget)
  end.

(** A recovered request; a priority outside the enumeration raises.  The text of
    a payload is that of an object, as every row is written; a text that does
    not read as one gives the empty payload. *)
Definition recover_row (now : Q) (b : Q * Q * Q) (r : QRow) : option QueuedRequest :=
  let '(budget, elapsed, remaining) := b in
  match prio_of_int (q_priority r) with
  | None => None
  | Some pri =>
      Some {| r_request_id := q_request_id r;
              r_agent_id := q_agent_id r;
              r_endpoint := normalize_endpoint roles (q_endpoint r);
              r_priority := pri;
              r_band := priority_to_band pri;
              r_call_site := q_call_site r;
              r_payload_type := q_payload_type r;
              r_payload := match loads float_text (q_payload_json r) with Some (JDict d) => d | _ => [] end;
              r_timeout_deadline := (now + remaining)%Q;
              r_enqueued_at := (now - elapsed)%Q;
              r_estimated_cost_ss := q_estimated_cost r;
              r_est_input_tokens := 0;
              r_session_id := q_session_id r;
              r_turn_id := q_turn_id r;
              r_caller_id := q_caller_id r;
              r_declared_agent_id := "";
              r_asserted_by_key_id := "";
              r_timeout_s := budget;
              r_stream := q_stream r;
              r_ctx_per_slot_at_admission := 0;
              r_json_object_stripped := false;
              r_forced_tool_schema := None;
              r_forced_tool_name := "";
              r_deadline_is_default := false;
              r_degraded_from := None;
              r_spilled_from := None;
              r_requested := "";
              r_routed_to := "";
              r_allow_degrade := None;
              r_allow_spill := None;
              r_no_store_outcome := "" |}
  end.

(** The rows a recovery looks at: queued and not streaming. *)
Definition recoverable (r : QRow) : bool :=
  (bool_decide (q_status r = Queued) && negb (q_stream r))%bool.

(** The loop over the rows: expired rows are deleted as they are met; an unknown
    priority ends it with the deletions made so far. *)
Fixpoint recover_loop (wall_now now : Q) (rows : list QRow) (d : DB) : res (list QueuedRequest) * DB :=
  match rows with
  | [] => (Ret [], d)
  | r :: rows' =>
      match rebase wall_now r with
      | None => recover_loop wall_now now rows' (exec d (DELETE_QUEUE (q_request_id r)))
      | Some b =>
          match recover_row now b r with
          | None => (Raise ValueError, d)
          | Some req =>
              let '(o, d) := recover_loop wall_now now rows' d in
              (match o with Ret l => Ret (req :: l) | Raise e => Raise e end, d)
          end
      end
  end.

(** [recover_queued(now)] *)
Definition recover_queued (wall_now now : Q) (d : DB) : res (list QueuedRequest) * DB :=
  let d := set_queue (List.filter recoverable) d in
  recover_loop wall_now now (t_queue d) d.
End Recover.
