(* ===== verification/WalProps.v ===== *)
(** * What the persistent queue promises *)

From Stdlib Require Import QArith Qminmax Lqa Lia ZArith Permutation.
From stdpp Require Import base list strings.
From S2P Require Import Prelude PyDict PyText Json Config Queue JsonRead JsonRound NoStore Wal.

Local Open Scope string_scope.
Local Open Scope list_scope.

(** ** The writer applies what it accepted, in order *)

Inductive WEvent := Submit (st : Stmt) | WriterRuns | WriterDies.

Definition w_event (s : WState) (e : WEvent) : WState :=
  match e with
  | Submit st => _w true st s
  | WriterRuns => default s (writer_step s)
  | WriterDies => match w_writer s with
                  | Alive => w_set (w_db s) Dead (w_queue s) 0 0 s
                  | _ => s
                  end
  end.

Definition w_run (s : WState) (es : list WEvent) : WState := foldl w_event s es.

(** The tables once everything queued has been applied. *)
Definition settled (s : WState) : DB := foldl exec (w_db s) (w_queue s).

(** Whether a statement is taken when submitted in [s]. *)
Definition takes (s : WState) : bool :=
  match w_writer s with
  | NotStarted => true
  | _ => negb (w_maxsize s <=? length (w_queue s))%nat
  end.

(** The statements taken along a run. *)
Fixpoint accepted (s : WState) (es : list WEvent) : list Stmt :=
  match es with
  | [] => []
  | e :: es' =>
      let rest := accepted (w_event s e) es' in
      match e with
      | Submit st => if takes s then st :: rest else rest
      | _ => rest
      end
  end.

Definition submitted (es : list WEvent) : list Stmt :=
  omap (fun e => match e with Submit st => Some st | _ => None end) es.

(** The queue of a writer that has started never exceeds its bound; before that
    it is empty. *)
Definition w_ok (s : WState) : Prop :=
  (length (w_queue s) <= w_maxsize s)%nat /\ (w_writer s = NotStarted -> w_queue s = []).

Lemma submit_settled s st :
  w_ok s ->
  settled (_w true st s) = (if takes s then exec (settled s) st else settled s)
  /\ w_dropped (_w true st s) = (w_dropped s + if takes s then 0 else 1)%Z
  /\ w_ok (_w true st s) /\ w_maxsize (_w true st s) = w_maxsize s.
Proof.
  intros [B NS]. unfold takes, _w, put_nowait, settled, w_ok. destruct (w_writer s) eqn:W.
  - rewrite (NS eq_refl). simpl. split_and!; try done; lia.
  - destruct (Nat.leb_spec (w_maxsize s) (length (w_queue s))); simpl.
    + split_and!; try done.
    + rewrite foldl_app, length_app. simpl. split_and!; try done; lia.
  - destruct (Nat.leb_spec (w_maxsize s) (length (w_queue s))); simpl.
    + split_and!; try done.
    + rewrite foldl_app, length_app. simpl. split_and!; try done; lia.
Qed.

Lemma other_settled s e :
  w_ok s -> (forall st, e <> Submit st) ->
  settled (w_event s e) = settled s /\ w_dropped (w_event s e) = w_dropped s
  /\ w_ok (w_event s e) /\ w_maxsize (w_event s e) = w_maxsize s.
Proof.
  intros [B NS] NE. destruct e as [st| |]; [by destruct (NE st)| |]; unfold settled, w_ok; simpl.
  - unfold writer_step. destruct (w_writer s) eqn:W, (w_queue s) as [|st q] eqn:E; simpl; rewrite ?W, ?E;
      simpl in *; split_and!; try done; try lia.
  - destruct (w_writer s) eqn:W; simpl; rewrite ?W; split_and!; try done; lia.
Qed.

(** C40 The tables are always those that applying the accepted statements one by
    one would give, with the queued ones still to come: a statement is applied
    once, in the order it was submitted, or it is dropped and counted; and the
    queue never outgrows its bound.  The writer dying and being restarted makes
    no difference. *)
Theorem writer_applies_accepted_in_order s es :
  w_ok s ->
  settled (w_run s es) = foldl exec (settled s) (accepted s es)
  /\ (w_dropped (w_run s es) - w_dropped s = Z.of_nat (length (submitted es)) - Z.of_nat (length (accepted s es)))%Z
  /\ (length (w_queue (w_run s es)) <= w_maxsize s)%nat.
Proof.
  revert s. induction es as [|e es IH]; intros s OK.
  - simpl. split_and!; [done|lia|apply OK].
  - unfold w_run in *. cbn [foldl accepted submitted omap list_omap].
    assert (H : settled (w_event s e) = (match e with Submit st => if takes s then exec (settled s) st else settled s | _ => settled s end)
      /\ w_dropped (w_event s e) = (w_dropped s + match e with Submit _ => if takes s then 0 else 1 | _ => 0 end)%Z
      /\ w_ok (w_event s e) /\ w_maxsize (w_event s e) = w_maxsize s).
    { destruct e as [st| |]; [by apply submit_settled|..];
        match goal with |- context [w_event s ?e] => destruct (other_settled s e OK ltac:(done)) as (A1 & A2 & A3 & A4) end;
        rewrite A2, Z.add_0_r; done. }
    destruct H as (HS & HD & OK' & HM). destruct (IH _ OK') as (I1 & I2 & I3). rewrite HM in I3. split_and!; [| |done].
    + rewrite I1, HS. destruct e as [st| |]; [destruct (takes s)|..]; done.
    + unfold submitted in I2. revert HD. destruct e as [st| |]; [destruct (takes s)|..]; simpl in *; intros HD; lia.
Qed.

Definition demo_writer : WState := mkWState empty_db Alive [] 1 0 0.
Definition demo_events : list WEvent :=
  [Submit (UPSERT_KV "a" "1"); Submit (UPSERT_KV "a" "2"); WriterRuns; WriterDies; Submit (UPSERT_KV "b" "3")].

Lemma writer_applies_accepted_in_order_witness :
  settled (w_run demo_writer demo_events) = foldl exec (settled demo_writer) (accepted demo_writer demo_events)
  /\ (w_dropped (w_run demo_writer demo_events) - w_dropped demo_writer
      = Z.of_nat (length (submitted demo_events)) - Z.of_nat (length (accepted demo_writer demo_events)))%Z
  /\ (length (w_queue (w_run demo_writer demo_events)) <= w_maxsize demo_writer)%nat.
Proof. apply writer_applies_accepted_in_order. split; [simpl; lia|discriminate]. Defined.

Example demo_accepted : accepted demo_writer demo_events = [UPSERT_KV "a" "1"; UPSERT_KV "b" "3"].
Proof. vm_compute. reflexivity. Qed.

(** ** The lifetime rollup *)

Definition tokens_ok (d : DB) : Prop :=
  Forall (fun r => 0 <= c_input_tokens r /\ 0 <= c_output_tokens r)%Z (t_completions d).

(** [a] is at most [b] in both columns. *)
Definition le2 (a b : Z * Z) : Prop := (a.1 <= b.1 /\ a.2 <= b.2)%Z.

Lemma live_tokens_filter (p : CRow -> bool) rows b :
  Forall (fun r => 0 <= c_input_tokens r /\ 0 <= c_output_tokens r)%Z rows ->
  le2 (live_tokens (List.filter p rows) b) (live_tokens rows b).
Proof.
  unfold live_tokens, le2. induction 1 as [|r rows [H1 H2] F [I1 I2]]; simpl; [lia|].
  destruct (p r); simpl; destruct (bool_decide (row_bucket r = b)); simpl in *; lia.
Qed.

(** Rows kept whole: a bucket none of whose rows is dropped. *)
Lemma live_tokens_keep (p : CRow -> bool) rows b :
  (forall r, r ∈ rows -> row_bucket r = b -> p r = true) -> live_tokens (List.filter p rows) b = live_tokens rows b.
Proof.
  intros H. unfold live_tokens.
  assert (E : List.filter (fun r => bool_decide (row_bucket r = b)) (List.filter p rows)
            = List.filter (fun r => bool_decide (row_bucket r = b)) rows).
  { induction rows as [|r rows IH]; simpl; [done|]. destruct (p r) eqn:P; simpl.
    - rewrite IH; [done|]. intros x Hx. apply H. by right.
    - rewrite bool_decide_eq_false_2; [apply IH; intros x Hx; apply H; by right|].
      intros B. rewrite (H r) in P; [done|by left|done]. }
  by rewrite E.
Qed.

Lemma dget_finalise_in rows savings b :
  dget (finalise rows savings) b
  = if bool_decide (b ∈ map row_bucket rows)
    then Some (match dget savings b with Some old => max2 old (live_tokens rows b) | None => live_tokens rows b end)
    else dget savings b.
Proof.
  unfold finalise. assert (ND : NoDup (remove_dups (map row_bucket rows))) by apply NoDup_remove_dups.
  rewrite (bool_decide_ext (b ∈ map row_bucket rows) (b ∈ remove_dups (map row_bucket rows)))
    by (by rewrite elem_of_remove_dups).
  revert savings. induction ND as [|x l N ND IH]; intros savings; simpl; [done|].
  rewrite IH. clear IH. destruct (decide (b = x)) as [->|NE].
  - rewrite (bool_decide_eq_false_2 (x ∈ l)) by done. rewrite (bool_decide_eq_true_2 (x ∈ x :: l)) by (by left).
    by rewrite dget_dset_eq.
  - rewrite dget_dset_ne by done.
    rewrite (bool_decide_ext (b ∈ x :: l) (b ∈ l)); [done|]. rewrite elem_of_cons. naive_solver.
Qed.

Lemma max2_le a b : le2 b a -> max2 a b = a.
Proof. destruct a, b. unfold le2, max2. simpl. intros [? ?]. f_equal; lia. Qed.

Lemma max2_comm a b : max2 a b = max2 b a.
Proof. unfold max2. f_equal; lia. Qed.

Lemma live_tokens_absent rows b : b ∉ map row_bucket rows -> live_tokens rows b = (0, 0)%Z.
Proof.
  intros H. unfold live_tokens. rewrite (List.filter_ext_in _ (fun _ => false)).
  - assert (E : List.filter (fun _ : CRow => false) rows = []) by (clear; induction rows; done). by rewrite E.
  - intros r Hr. apply bool_decide_eq_false_2. intros E. apply H. apply list_elem_of_fmap. exists r. split; [done|].
    by apply list_elem_of_In.
Qed.

(** After a finalisation the rollup of every live bucket holds its lifetime. *)
Lemma finalise_bucket d b :
  b ∈ map row_bucket (t_completions d) ->
  dget (t_savings (exec d FINALISE_SAVINGS)) b = Some (match dget (t_savings d) b with
    | Some old => max2 old (live_tokens (t_completions d) b) | None => live_tokens (t_completions d) b end).
Proof. intros H. simpl. rewrite dget_finalise_in. by rewrite bool_decide_eq_true_2. Qed.

Lemma nonneg_live rows b :
  Forall (fun r => 0 <= c_input_tokens r /\ 0 <= c_output_tokens r)%Z rows -> le2 (0, 0)%Z (live_tokens rows b).
Proof.
  intros F. pose proof (live_tokens_filter (fun _ => false) rows b F) as H.
  assert (E : List.filter (fun _ : CRow => false) rows = []) by (clear; induction rows; done). rewrite E in H. exact H.
Qed.

(** A retention sweep loses nothing: after the finalisation and the prune it
    submits, every bucket's lifetime tokens are what they were, whatever the
    retention and however many rows were deleted. *)
Theorem sweep_keeps_lifetime_tokens d wall max_age b :
  tokens_ok d ->
  bucket_lifetime (foldl exec d (cleanup_old_completions wall max_age)) b = bucket_lifetime d b.
Proof.
  intros T. unfold cleanup_old_completions. cbn [foldl]. set (d1 := exec d FINALISE_SAVINGS).
  assert (C1 : t_completions d1 = t_completions d) by done.
  assert (N : le2 (0, 0)%Z (live_tokens (t_completions d) b)) by (by apply nonneg_live).
  unfold bucket_lifetime. cbn [exec set_completions set_shadow set_timeouts t_completions t_savings]. rewrite C1.
  destruct (decide (b ∈ map row_bucket (t_completions d))) as [IN|NI].
  - pose proof (finalise_bucket d b IN) as FB. fold d1 in FB. rewrite FB. cbn [default from_option id].
    pose proof (live_tokens_filter (fun r => negb (prunable (t_savings d1) (wall - max_age) r)) (t_completions d) b T) as L.
    set (live' := live_tokens (List.filter _ _) b) in *. set (live := live_tokens (t_completions d) b) in *. clearbody live' live.
    destruct (dget (t_savings d) b) as [old|]; cbn [default from_option id]; unfold max2, le2 in *; simpl in *;
      destruct live, live'; simpl in *; f_equal; lia.
  - rewrite live_tokens_keep by (intros r Hr <-; exfalso; apply NI; apply list_elem_of_fmap; eauto).
    cbn [d1 exec set_savings t_savings]. rewrite dget_finalise_in, bool_decide_eq_false_2 by done. done.
Qed.

Definition demo_row (id : string) (at_ : Q) (tokens : Z) : CRow :=
  mkCRow id "a" "t2" "c" 1 tokens 0 None 1 0 "ok" at_ None None None None None None (Some "llm") None None None.

Lemma sweep_keeps_lifetime_tokens_witness :
  bucket_lifetime (foldl exec (foldl exec empty_db [INSERT_COMPLETION (demo_row "r1" 100 5)]) (cleanup_old_completions 1000 10)) ("t2", 0%Z)
  = bucket_lifetime (foldl exec empty_db [INSERT_COMPLETION (demo_row "r1" 100 5)]) ("t2", 0%Z).
Proof. apply sweep_keeps_lifetime_tokens. repeat constructor; simpl; lia. Defined.

(** The prune is not safe on its own: when a bucket was finalised before its
    last rows came in and the next finalisation is dropped (the write queue was
    full), the prune still deletes those rows, because it asks only whether the
    bucket is in the rollup, and their tokens leave the lifetime total. *)
Theorem dropped_finalisation_loses_tokens :
  exists (before : list Stmt) (wall max_age : Q),
    let d := foldl exec empty_db before in
    tokens_ok d
    /\ lifetime_tokens d = (10, 0)%Z
    /\ lifetime_tokens (foldl exec d (tail (cleanup_old_completions wall max_age))) = (5, 0)%Z
    /\ lifetime_tokens (foldl exec d (cleanup_old_completions wall max_age)) = (10, 0)%Z.
Proof.
  exists [INSERT_COMPLETION (demo_row "r1" 100 5); FINALISE_SAVINGS; INSERT_COMPLETION (demo_row "r2" 200 5)], 1000%Q, 10%Q.
  cbv zeta. split_and!; [repeat constructor; simpl; lia|vm_compute; reflexivity..].
Qed.

(** ** No content of a request that may not be stored *)

(** The operations a request goes through. *)
Inductive QOp :=
| OpEnqueue (wall : Q) (r : QueuedRequest)
| OpDispatch (id : string)
| OpComplete (wall : Q) (c : Completion)
| OpExpire (id : string)
| OpSweep (wall max_age : Q)
| OpNullPayloads (wall max_age : Q).

(** The statements an operation submits; one that raises submits none. *)
Definition op_stmts (o : QOp) : list Stmt :=
  match o with
  | OpEnqueue wall r => persist_enqueue wall r
  | OpDispatch id => persist_dispatch id
  | OpComplete wall c => match persist_complete wall c with Ret l => l | Raise _ => [] end
  | OpExpire id => persist_expire id
  | OpSweep wall age => cleanup_old_completions wall age
  | OpNullPayloads wall age => cleanup_old_payloads wall age
  end.

(** A row of a withheld request: no body, and a summary that holds none of it. *)
Definition row_clean (r : CRow) : Prop :=
  c_no_store r = Some OUTCOME_HONOURED -> c_payload_json r = None /\ c_response_json r = None
  /\ exists out, c_content_meta r = Some (compact (JDict out)) /\ all_plain out /\ shape_ok out.

(** A statement that writes no content of a no-store request: rows it inserts
    are clean, and it puts no such request in the restart log. *)
Definition stmt_clean (banned : string -> Prop) (s : Stmt) : Prop :=
  match s with
  | INSERT_COMPLETION r => row_clean r
  | INSERT_QUEUE r => ~ banned (q_request_id r)
  | _ => True
  end.

Definition db_clean (banned : string -> Prop) (d : DB) : Prop :=
  Forall row_clean (t_completions d) /\ Forall (fun r => ~ banned (q_request_id r)) (t_queue d).

Lemma Forall_filter {A} (P : A -> Prop) (p : A -> bool) l : Forall P l -> Forall P (List.filter p l).
Proof. induction 1; simpl; [constructor|]. destruct (p x); auto. Qed.

Lemma exec_clean banned d s : stmt_clean banned s -> db_clean banned d -> db_clean banned (exec d s).
Proof.
  intros S [C Q]. destruct s; simpl; try (by split); unfold db_clean; simpl; split; try done.
  - apply Forall_app. split; [by apply Forall_filter|by constructor].
  - apply Forall_fmap. eapply Forall_impl; [exact Q|]. intros r H. unfold compose. by destruct (String.eqb _ _).
  - by apply Forall_filter.
  - apply Forall_app. split; [by apply Forall_filter|by constructor].
  - by apply Forall_filter.
  - apply Forall_fmap. eapply Forall_impl; [exact C|]. intros r H. unfold compose, null_payload.
    destruct (Qltb _ _); [|done]. intros N. apply H in N as (_ & _ & N). by split_and!.
Qed.

Lemma complete_clean banned wall c : Forall (stmt_clean banned) (op_stmts (OpComplete wall c)).
Proof.
  simpl. unfold persist_complete. case_bool_decide as HH.
  - destruct (content_summary (cp_payload c) (cp_response c)) as [out|e] eqn:CS; simpl; [|constructor].
    constructor; [done|]. constructor; [|constructor]. intros _. split_and!; [done|done|]. exists out. split; [done|].
    by apply (content_summary_clean _ _ _ CS).
  - simpl. constructor; [done|]. constructor; [|constructor]. unfold stmt_clean, row_clean. simpl. intros E.
    by destruct (str_truthy (cp_no_store c)).
Qed.

Lemma op_clean banned o :
  match o with OpEnqueue _ r => banned (r_request_id r) -> no_store r = true | _ => True end ->
  Forall (stmt_clean banned) (op_stmts o).
Proof.
  intros H. destruct o as [wall r|id|wall c|id|wall age|wall age]; simpl; try (by repeat constructor).
  - unfold persist_enqueue. destruct (no_store r) eqn:N; [constructor|]. constructor; [|constructor].
    simpl. intros B. specialize (H B). congruence.
  - by apply complete_clean.
Qed.

Lemma ops_clean banned os d :
  Forall (fun o => match o with OpEnqueue _ r => banned (r_request_id r) -> no_store r = true | _ => True end) os ->
  db_clean banned d -> db_clean banned (foldl exec d (concat (map op_stmts os))).
Proof.
  intros F. revert d. induction F as [|o os H F IH]; intros d D; simpl; [done|]. rewrite foldl_app. apply IH.
  apply op_clean in H. revert d D. induction H as [|s sts HS HF IH2]; intros d D; simpl; [done|].
  apply IH2. by apply exec_clean.
Qed.

(** C19 Whatever requests pass through, in any order, the database holds no body
    of a request whose no-store was honoured: its completion row has neither
    payload nor response and a summary of plain identifiers only, and its
    identifier is never in the restart log. *)
Theorem no_store_leaves_no_content os id :
  Forall (fun o => match o with OpEnqueue _ r => r_request_id r = id -> no_store r = true | _ => True end) os ->
  let d := foldl exec empty_db (concat (map op_stmts os)) in
  (forall r, r ∈ t_completions d -> row_clean r)
  /\ (forall r, r ∈ t_queue d -> q_request_id r <> id).
Proof.
  intros F d. destruct (ops_clean (fun x => x = id) os empty_db F) as [C Q]; [by split|].
  rewrite Forall_forall in C. pose proof (proj1 (Forall_forall _ _) Q) as Q'. split; [exact C|exact Q'].
Qed.

Definition demo_queued (id : string) (outcome : string) : QueuedRequest :=
  {| r_request_id := id; r_agent_id := "a"; r_endpoint := "t2"; r_priority := P1_TURN_SUPPORT; r_band := INTERACTIVE;
     r_call_site := "c"; r_payload_type := "chat_completion"; r_payload := [("messages", JList [JStr "secret"])];
     r_timeout_deadline := 60; r_enqueued_at := 0; r_estimated_cost_ss := 1; r_est_input_tokens := 3;
     r_session_id := None; r_turn_id := None; r_caller_id := None; r_declared_agent_id := ""; r_asserted_by_key_id := "";
     r_timeout_s := 60; r_stream := false; r_ctx_per_slot_at_admission := 0; r_json_object_stripped := false;
     r_forced_tool_schema := None; r_forced_tool_name := ""; r_deadline_is_default := false; r_degraded_from := None;
     r_spilled_from := None; r_requested := "t2"; r_routed_to := "t2"; r_allow_degrade := None; r_allow_spill := None;
     r_no_store_outcome := outcome |}.

Definition demo_ops : list QOp :=
  [OpEnqueue 5 (demo_queued "r1" "honoured"); OpEnqueue 5 (demo_queued "r2" "");
   OpComplete 6 (mkCompletion "r1" "a" "t2" "c" 1 3 4 1 0 "ok" (Some [("messages", JList [JStr "secret"])]) (Some [("x", JNull)])
     None None None None (Some "llm") None None (Some "honoured"))].

Lemma no_store_leaves_no_content_witness :
  let d := foldl exec empty_db (concat (map op_stmts demo_ops)) in
  (forall r, r ∈ t_completions d -> row_clean r)
  /\ (forall r, r ∈ t_queue d -> q_request_id r <> "r1").
Proof. apply (no_store_leaves_no_content demo_ops "r1"). repeat constructor. discriminate. Defined.

(** ** Recovery *)

Section Recovery.
Context (float_text : string -> string) (roles : dict string string).

Lemma recover_loop_spec wall_now now rows d l d' :
  recover_loop float_text roles wall_now now rows d = (Ret l, d') ->
  forall q, q ∈ l <-> exists r b, r ∈ rows /\ rebase wall_now r = Some b /\ recover_row float_text roles now b r = Some q.
Proof.
  revert d l d'. induction rows as [|r rows IH]; intros d l d'; cbn [recover_loop].
  - intros [= <- <-] q. split; [by intros ?%elem_of_nil|]. intros (r & _ & H & _). by apply elem_of_nil in H.
  - destruct (rebase wall_now r) as [b|] eqn:RB.
    + destruct (recover_row float_text roles now b r) as [req|] eqn:RR; [|done].
      destruct (recover_loop float_text roles wall_now now rows d) as [[l0|e] d0] eqn:RL; [|done].
      intros [= <- <-] q. rewrite elem_of_cons, (IH _ _ _ RL). split.
      * intros [->|(r' & b' & H1 & H2 & H3)]; [exists r, b|exists r', b']; split_and!; try done; [by left|by right].
      * intros (r' & b' & [->|H1]%elem_of_cons & H2 & H3); [left; congruence|right; eauto].
    + intros H q. rewrite (IH _ _ _ H). split.
      * intros (r' & b' & H1 & H2 & H3). exists r', b'. split_and!; [by right|done|done].
      * intros (r' & b' & [->|H1]%elem_of_cons & H2 & H3); [congruence|eauto].
Qed.

(** A request is recovered from exactly the rows that are queued, not
    streaming and not expired. *)
Lemma recover_queued_spec wall_now now d l d' :
  recover_queued float_text roles wall_now now d = (Ret l, d') ->
  forall q, q ∈ l <-> exists r b, r ∈ t_queue d /\ q_status r = Queued /\ q_stream r = false
    /\ rebase wall_now r = Some b /\ recover_row float_text roles now b r = Some q.
Proof.
  unfold recover_queued. cbv zeta. intros H q. rewrite (recover_loop_spec _ _ _ _ _ _ H). cbn [set_queue t_queue].
  split.
  - intros (r & b & H1 & H2 & H3). exists r, b. apply list_elem_of_In, filter_In in H1 as [H1 H4].
    unfold recoverable in H4. apply andb_true_iff in H4 as [H4%bool_decide_eq_true H5%negb_true_iff].
    split_and!; try done. by apply list_elem_of_In.
  - intros (r & b & H1 & H2 & H3 & H4 & H5). exists r, b. split_and!; try done. apply list_elem_of_In, filter_In.
    split; [by apply list_elem_of_In|]. unfold recoverable. by rewrite bool_decide_eq_true_2, H3.
Qed.

Lemma rebase_positive wall_now r budget elapsed remaining :
  match q_timeout_s r with Some t => (0 <= t)%Q | None => True end ->
  rebase wall_now r = Some (budget, elapsed, remaining) ->
  (0 < remaining)%Q /\ (0 <= elapsed)%Q /\ (remaining == budget - elapsed)%Q.
Proof.
  intros T. unfold rebase.
  set (b := match q_timeout_s r with Some t => if Qeq_bool t 0 then 180%Q else t | None => 180%Q end).
  assert (B : (0 < b)%Q).
  { unfold b. destruct (q_timeout_s r) as [t|]; [|done]. destruct (Qeq_bool t 0) eqn:E; [done|].
    apply Qeq_bool_neq in E. destruct (Qlt_le_dec 0 t) as [|L]; [done|]. exfalso. apply E. by apply Qle_antisym. }
  clearbody b. destruct (q_enqueued_wall r) as [ew|].
  - destruct (Qeq_bool ew 0); [intros [= <- <- <-]; split_and!; [done|lra|lra]|].
    destruct (Qle_bool (b - Qmax 0 (wall_now - ew)) 0) eqn:L; [done|]. intros [= <- <- <-]. split_and!.
    + apply Qnot_le_lt. intros H. apply Qle_bool_iff in H. congruence.
    + apply Q.le_max_l.
    + lra.
  - intros [= <- <- <-]. split_and!; [done|lra|lra].
Qed.
End Recovery.

Lemma prio_of_prio_int p : prio_of_int (prio_int p) = Some p.
Proof. by destruct p. Qed.

(** *** What the restart log holds *)

(** A log whose every row is that of a request written by [persist_enqueue] with
    a budget that is not negative, dispatched since or not. *)
Definition written (d : DB) : Prop :=
  forall row, row ∈ t_queue d -> exists wall r, (0 <= r_timeout_s r)%Q
    /\ (row = enqueue_row wall r \/ row = dispatch_row (enqueue_row wall r)).

Definition writes (s : Stmt) : Prop :=
  match s with INSERT_QUEUE row => exists wall r, (0 <= r_timeout_s r)%Q /\ row = enqueue_row wall r | _ => True end.

Lemma exec_written d s : writes s -> written d -> written (exec d s).
Proof.
  intros S W row. destruct s; simpl; try exact (W row).
  - intros [H|H]%elem_of_app.
    + apply list_elem_of_In, filter_In in H as [H%list_elem_of_In _]. by apply W.
    + apply list_elem_of_singleton in H as ->. destruct S as (wall & q & B & ->). exists wall, q. auto.
  - intros (row0 & E & H)%list_elem_of_fmap. destruct (W _ H) as (wall & q & B & [-> | ->]); exists wall, q;
      (split; [done|]); destruct (String.eqb _ _); subst row; auto.
  - intros H. apply list_elem_of_In, filter_In in H as [H%list_elem_of_In _]. by apply W.
Qed.

Lemma ops_written os d :
  Forall (fun o => match o with OpEnqueue _ r => (0 <= r_timeout_s r)%Q | _ => True end) os ->
  written d -> written (foldl exec d (concat (map op_stmts os))).
Proof.
  intros F. revert d. induction F as [|o os H F IH]; intros d W; simpl; [done|]. rewrite foldl_app. apply IH.
  assert (S : Forall writes (op_stmts o)).
  { destruct o as [wall r|id|wall c|id|wall age|wall age]; simpl; try (by repeat constructor).
    - unfold persist_enqueue. destruct (no_store r); repeat constructor. by exists wall, r.
    - destruct (persist_complete wall c) as [l|e] eqn:P; [|constructor]. unfold persist_complete in P. revert P.
      case_bool_decide; [destruct (content_summary _ _); [|done]|]; intros [= <-]; repeat constructor. }
  clear H F IH os. revert d W. induction S as [|s sts HS HF IH2]; intros d W; simpl; [done|].
  apply IH2. by apply exec_written.
Qed.

(** The log is read back whatever it holds. *)
Lemma recover_loop_returns float_text roles wall_now now rows d :
  (forall row, row ∈ rows -> exists p, q_priority row = prio_int p) ->
  exists l d', recover_loop float_text roles wall_now now rows d = (Ret l, d').
Proof.
  revert d. induction rows as [|row rows IH]; intros d P; cbn [recover_loop]; [by eauto|].
  assert (P' : forall row, row ∈ rows -> exists p, q_priority row = prio_int p) by (intros x H; apply P; by right).
  destruct (rebase wall_now row) as [[[b e] re]|]; [|by apply IH].
  destruct (P row) as (p & E); [by left|]. unfold recover_row. rewrite E, prio_of_prio_int.
  destruct (IH d P') as (l & d' & ->). eauto.
Qed.

Lemma recover_loop_rows float_text roles wall_now now rows d row :
  row ∈ t_queue (recover_loop float_text roles wall_now now rows d).2 -> row ∈ t_queue d.
Proof.
  revert d. induction rows as [|r0 rows IH]; intros d; cbn [recover_loop]; [done|].
  destruct (rebase wall_now r0) as [b|].
  - destruct (recover_row float_text roles now b r0); [|done].
    specialize (IH d). by destruct (recover_loop float_text roles wall_now now rows d) as [o d'].
  - intros H%IH. simpl in H. by apply list_elem_of_In, filter_In in H as [H%list_elem_of_In _].
Qed.

Lemma recover_queued_returns float_text roles wall_now now d :
  written d -> exists l d', recover_queued float_text roles wall_now now d = (Ret l, d') /\ written d'.
Proof.
  intros W. unfold recover_queued. cbv zeta.
  assert (W' : written (set_queue (List.filter recoverable) d)).
  { intros row H. simpl in H. apply list_elem_of_In, filter_In in H as [H%list_elem_of_In _]. by apply W. }
  destruct (recover_loop_returns float_text roles wall_now now (t_queue (set_queue (List.filter recoverable) d))
              (set_queue (List.filter recoverable) d)) as (l & d' & E).
  { intros row (wall & r & _ & [-> | ->])%W'; by exists (r_priority r). }
  exists l, d'. split; [done|]. intros row H. apply W'.
  apply (recover_loop_rows float_text roles wall_now now (t_queue (set_queue (List.filter recoverable) d))). by rewrite E.
Qed.

Lemma recovered_deadline float_text roles now b e re row q :
  recover_row float_text roles now (b, e, re) row = Some q ->
  q_status row = Queued -> r_request_id q = q_request_id row /\ r_timeout_deadline q = (now + re)%Q.
Proof. unfold recover_row. destruct (prio_of_int _); [|done]. by intros [= <-] _. Qed.

(** A row still queued, its budget not spent by the wall clock, comes back as the
    request it was written for. *)
Lemma queued_row_returns float_text roles wall r wall_now now d l d' :
  recover_queued float_text roles wall_now now d = (Ret l, d') ->
  enqueue_row wall r ∈ t_queue d -> r_stream r = false -> (0 < wall)%Q -> (0 < r_timeout_s r)%Q ->
  jwf (JDict (r_payload r)) = true -> floats_ok float_text (JDict (r_payload r)) ->
  (wall_now - wall < r_timeout_s r)%Q ->
  exists q, q ∈ l /\ r_request_id q = r_request_id r /\ r_agent_id q = r_agent_id r /\ r_priority q = r_priority r
    /\ r_payload q = r_payload r /\ r_endpoint q = normalize_endpoint roles (r_endpoint r) /\ r_timeout_s q = r_timeout_s r
    /\ (r_timeout_deadline q - now == r_timeout_s r - Qmax 0 (wall_now - wall))%Q
    /\ (now < r_timeout_deadline q)%Q.
Proof.
  intros R IN ST W T JW FO LT.
  assert (E0 : Qeq_bool (r_timeout_s r) 0 = false) by (apply not_true_iff_false; rewrite Qeq_bool_iff; lra).
  assert (W0 : Qeq_bool wall 0 = false) by (apply not_true_iff_false; rewrite Qeq_bool_iff; lra).
  assert (L0 : (Qmax 0 (wall_now - wall) < r_timeout_s r)%Q) by (apply Q.max_lub_lt; lra).
  assert (RB : rebase wall_now (enqueue_row wall r)
    = Some (r_timeout_s r, Qmax 0 (wall_now - wall), r_timeout_s r - Qmax 0 (wall_now - wall))%Q).
  { unfold rebase. cbn [enqueue_row q_timeout_s q_enqueued_wall]. rewrite E0, W0.
    destruct (Qle_bool _ 0) eqn:LB; [|done]. exfalso. apply Qle_bool_iff in LB. lra. }
  assert (RR : exists q, recover_row float_text roles now (r_timeout_s r, Qmax 0 (wall_now - wall), r_timeout_s r - Qmax 0 (wall_now - wall))%Q
      (enqueue_row wall r) = Some q /\ r_request_id q = r_request_id r /\ r_agent_id q = r_agent_id r /\ r_priority q = r_priority r
      /\ r_payload q = r_payload r /\ r_endpoint q = normalize_endpoint roles (r_endpoint r) /\ r_timeout_s q = r_timeout_s r
      /\ r_timeout_deadline q = (now + (r_timeout_s r - Qmax 0 (wall_now - wall)))%Q).
  { unfold recover_row. cbn [enqueue_row q_priority q_payload_json]. rewrite prio_of_prio_int.
    unfold compact. rewrite loads_compact by done. eexists. split; [done|]. cbn. by split_and!. }
  destruct RR as (q & RR & A1 & A2 & A3 & A4 & A5 & A6 & A7). exists q. split_and!; try done.
  - apply (recover_queued_spec _ _ _ _ _ _ _ R). eexists _, _. split_and!; [exact IN|done|exact ST|exact RB|exact RR].
  - rewrite A7. lra.
  - rewrite A7. lra.
Qed.

(** C34 The restart log is always read back: over a log that holds only rows the
    proxy wrote (with budgets that are not negative), after any operations on
    it, recovery returns, and leaves such a log.  Every request it returns was
    written to the log, was neither streaming nor dispatched, and still has time
    left on the new process's clock.  And a request whose row is still queued,
    not streaming, written at a positive wall time with a positive budget that
    the wall clock has not spent, comes back as it was (same identity, priority,
    payload, budget, and the endpoint under its current name) with exactly the
    waiting time it had left; its payload must be one the log's JSON text reads
    back: no key twice, and every number's text read as itself. *)
Theorem queued_request_survives_restart float_text roles wall_now now d0 os :
  written d0 ->
  Forall (fun o => match o with OpEnqueue _ r => (0 <= r_timeout_s r)%Q | _ => True end) os ->
  let d := foldl exec d0 (concat (map op_stmts os)) in
  exists l d', recover_queued float_text roles wall_now now d = (Ret l, d') /\ written d'
  /\ (forall q, q ∈ l -> (now < r_timeout_deadline q)%Q
        /\ exists wall r, enqueue_row wall r ∈ t_queue d /\ r_stream r = false /\ r_request_id q = r_request_id r)
  /\ (forall wall r, enqueue_row wall r ∈ t_queue d -> r_stream r = false -> (0 < wall)%Q -> (0 < r_timeout_s r)%Q ->
        jwf (JDict (r_payload r)) = true -> floats_ok float_text (JDict (r_payload r)) ->
        (wall_now - wall < r_timeout_s r)%Q ->
        exists q, q ∈ l /\ r_request_id q = r_request_id r /\ r_agent_id q = r_agent_id r /\ r_priority q = r_priority r
          /\ r_payload q = r_payload r /\ r_endpoint q = normalize_endpoint roles (r_endpoint r) /\ r_timeout_s q = r_timeout_s r
          /\ (r_timeout_deadline q - now == r_timeout_s r - Qmax 0 (wall_now - wall))%Q).
Proof.
  intros W0 F d. assert (W : written d) by by apply ops_written.
  destruct (recover_queued_returns float_text roles wall_now now d W) as (l & d' & R & W'). exists l, d'.
  split; [done|]. split; [done|]. split.
  - intros q H. apply (recover_queued_spec _ _ _ _ _ _ _ R) in H as (row & [[b e] re] & IN & ST & SM & RB & RR).
    destruct (recovered_deadline _ _ _ _ _ _ _ _ RR ST) as [ID DL].
    destruct (W _ IN) as (wall & r & B & [-> | ->]); [|done]. split; [|by exists wall, r].
    destruct (rebase_positive wall_now (enqueue_row wall r) b e re B RB) as (P & _). rewrite DL. lra.
  - intros wall r IN ST WP TP JW FO LT.
    destruct (queued_row_returns _ _ _ _ _ _ _ _ _ R IN ST WP TP JW FO LT) as (q & A0 & A1 & A2 & A3 & A4 & A5 & A6 & A7 & _).
    exists q. by split_and!.
Qed.

Definition restart_ops : list QOp :=
  [OpEnqueue 5 (demo_queued "r1" ""); OpEnqueue 5 (demo_queued "r2" ""); OpDispatch "r1"].

Lemma queued_request_survives_restart_witness :
  exists q, q ∈ default [] (match (recover_queued id [] 20 7 (foldl exec empty_db (concat (map op_stmts restart_ops)))).1 with Ret l => Some l | Raise _ => None end)
    /\ r_request_id q = "r2" /\ r_payload q = [("messages", JList [JStr "secret"])]
    /\ (r_timeout_deadline q - 7 == 60 - Qmax 0 (20 - 5))%Q.
Proof.
  destruct (queued_request_survives_restart id [] 20 7 empty_db restart_ops) as (l & d' & R & _ & _ & K).
  - by intros row H%elem_of_nil.
  - repeat constructor; discriminate.
  - destruct (K 5%Q (demo_queued "r2" "")) as (q & A0 & A1 & _ & _ & A4 & _ & _ & A7);
      [vm_compute; by (right; left)|done..|by repeat split|done|].
    exists q. rewrite R. by split_and!.
Defined.
