(* ===== verification/OnDemand.v ===== *)
(** * On-demand backends and their residency (on_demand.py, residency.py)

    The lease manager as the concurrent program it is: requests at their
    suspension points inside [ensure_loaded], the background loop at its own,
    and the dispatcher's answers as events in any order.  Between two awaits a
    coroutine runs alone, so one event is one step.  The dispatcher is a
    service outside the package: only what it is asked and what it may answer
    appears here. *)

From Stdlib Require Import QArith Lqa Lia ZArith.
From stdpp Require Import base list strings.
From S2P Require Import Prelude PyDict PyText Json.

Local Open Scope string_scope.

Definition _HEARTBEAT_S : Q := 60.
Definition _HOLD_IDLE_S : Q := 60.
Definition _STUCK_INFLIGHT_S : Q := 1200.

(** [_EndpointState]; its lock is held exactly while a request of the endpoint
    is suspended on [/ensure], so the requests' own positions carry it. *)
Record EndpointState := mkES {
  capability : string;
  lease_id : option string;
  inflight : Z;
  last_activity : Q;
  last_heartbeat : Q
}.

Definition set_lease (l : option string) (s : EndpointState) : EndpointState :=
  mkES (capability s) l (inflight s) (last_activity s) (last_heartbeat s).
Definition set_inflight (n : Z) (s : EndpointState) : EndpointState :=
  mkES (capability s) (lease_id s) n (last_activity s) (last_heartbeat s).
Definition touch (t : Q) (s : EndpointState) : EndpointState :=
  mkES (capability s) (lease_id s) (inflight s) t (last_heartbeat s).
Definition beat (t : Q) (s : EndpointState) : EndpointState :=
  mkES (capability s) (lease_id s) (inflight s) (last_activity s) t.

(** Where a request is: waiting for the endpoint's lock, suspended on
    [/ensure], or past [ensure_loaded] and not yet reported done. *)
Inductive Pc := AtLock | Posting | Running.

#[global] Instance Pc_eq_dec : EqDecision Pc.
Proof. solve_decision. Defined.

Record Task := mkTask { t_id : nat; t_ep : string; t_pc : Pc }.

(** What the manager did: its calls of the dispatcher, the warning of the leak
    guard, and the completions it was told of that were not of a request it had
    counted (no call is made for these; they are kept for the theorems).  A release
    is marked when it comes from [close]. *)
Inductive Call :=
| Ensure (endpoint capability : string)
| Heartbeat (endpoint lease : string)
| Release (closing : bool) (endpoint lease : string)
| ForceReset (endpoint : string)
| Uncounted (endpoint : string).

(** Where the background task is. *)
Inductive LoopPc :=
| NotStarted
| Sleeping
| InHeartbeat (now : Q) (ep lid : string) (rest : list string)
| InRelease (now : Q) (rest : list string)
| Closing (rest : list string)
| Closed.

Record Sys := mkSys {
  states : dict string EndpointState;
  hold_idle_s : Q;
  tasks : list Task;
  loop : LoopPc;
  now : Q;
  sent : list Call
}.

Definition with_states (st : dict string EndpointState) (s : Sys) : Sys :=
  mkSys st (hold_idle_s s) (tasks s) (loop s) (now s) (sent s).
Definition with_tasks (ts : list Task) (s : Sys) : Sys :=
  mkSys (states s) (hold_idle_s s) ts (loop s) (now s) (sent s).
Definition with_loop (l : LoopPc) (s : Sys) : Sys :=
  mkSys (states s) (hold_idle_s s) (tasks s) l (now s) (sent s).
Definition with_now (t : Q) (s : Sys) : Sys :=
  mkSys (states s) (hold_idle_s s) (tasks s) (loop s) t (sent s).
Definition call (c : Call) (s : Sys) : Sys :=
  mkSys (states s) (hold_idle_s s) (tasks s) (loop s) (now s) (sent s ++ [c])%list.

Definition upd (ep : string) (f : EndpointState -> EndpointState) (s : Sys) : Sys :=
  match dget (states s) ep with
  | Some st => with_states (dset (states s) ep (f st)) s
  | None => s
  end.

(** The part of an endpoint's configuration the manager reads. *)
Record OnDemandConf := mkOD { od_on_demand : bool; od_capability : string }.

(** [OnDemandManager(endpoints)] *)
Definition manager_init (endpoints : dict string OnDemandConf) (hold : Q) : Sys :=
  mkSys (omap (fun kv => if (od_on_demand kv.2 && negb (String.eqb (od_capability kv.2) ""))%bool
                         then Some (kv.1, mkES (od_capability kv.2) None 0 0 0) else None) endpoints)
    hold [] NotStarted 0 [].

Definition manages (s : Sys) (ep : string) : bool := dmem (states s) ep.

Definition is_loaded (s : Sys) (ep : string) : bool :=
  match dget (states s) ep with Some st => bool_decide (lease_id st <> None) | None => false end.

(** ** The request path *)

Definition of_ep (ep : string) (p : Pc -> bool) (ts : list Task) : list Task :=
  List.filter (fun t => String.eqb (t_ep t) ep && p (t_pc t))%bool ts.

Definition is_pc (p : Pc) (q : Pc) : bool := bool_decide (q = p).

Definition find_task (id : nat) (ts : list Task) : option Task :=
  List.find (fun t => bool_decide (t_id t = id)) ts.

Definition drop_task (id : nat) (ts : list Task) : list Task :=
  List.filter (fun t => negb (bool_decide (t_id t = id))) ts.

(** The body of [ensure_loaded] from the lock to the answer. *)
Definition critical (id : nat) (ep : string) (s : Sys) : Sys :=
  match dget (states s) ep with
  | None => s
  | Some st =>
      let s := upd ep (fun st => set_inflight (inflight st + 1) (touch (now s) st)) s in
      match lease_id st with
      | Some _ => with_tasks (tasks s ++ [mkTask id ep Running])%list s
      | None => call (Ensure ep (capability st)) (with_tasks (tasks s ++ [mkTask id ep Posting])%list s)
      end
  end.

(** The lock is free, and nobody is ahead in its queue. *)
Definition lock_free (ep : string) (s : Sys) : bool :=
  bool_decide (of_ep ep (fun p => is_pc Posting p || is_pc AtLock p)%bool (tasks s) = []).

(** [ensure_loaded(endpoint)] is called. *)
Definition arrive (id : nat) (ep : string) (s : Sys) : Sys :=
  if lock_free ep s then critical id ep s
  else with_tasks (tasks s ++ [mkTask id ep AtLock])%list s.

(** What [/ensure] may answer: nothing (a transport error), a status that is not
    200, 200 with a body that is not a JSON object, or a lease. *)
Inductive EnsureReply := Unreachable | Refused | BadBody | Granted (lease : option string).

Definition ensure_reply (r : EnsureReply) (id : nat) (ep : string) (s : Sys) : Sys :=
  let rest := drop_task id (tasks s) in
  match r with
  | Unreachable | Refused => with_tasks rest (upd ep (fun st => set_inflight (Z.max 0 (inflight st - 1)) st) s)
  | BadBody => with_tasks rest s
  | Granted lease =>
      with_tasks (rest ++ [mkTask id ep Running])%list (upd ep (fun st => beat (now s) (set_lease lease st)) s)
  end.

(** [request_done(endpoint)] *)
Definition request_done (ep : string) (s : Sys) : Sys :=
  upd ep (fun st => touch (now s) (set_inflight (Z.max 0 (inflight st - 1)) st)) s.

(** ** The background loop *)

(** [_release]: the handle goes first; an empty one is not posted.  [true] when
    the coroutine suspends on the call. *)
Definition release (closing : bool) (ep : string) (s : Sys) : Sys * bool :=
  match dget (states s) ep with
  | Some st =>
      let s := upd ep (set_lease None) s in
      match lease_id st with
      | Some lid => if String.eqb lid "" then (s, false) else (call (Release closing ep lid) s, true)
      | None => (s, false)
      end
  | None => (s, false)
  end.

(** The last check of a visit, then the rest of the sweep [k]. *)
Definition finish_visit (k : Sys -> Sys) (t : Q) (ep : string) (rest : list string) (s : Sys) : Sys :=
  match dget (states s) ep with
  | Some st =>
      if (bool_decide (lease_id st <> None) && (inflight st <=? 0)%Z && Qle_bool (hold_idle_s s) (t - last_activity st))%bool
      then let '(s, suspended) := release false ep s in
           if suspended then with_loop (InRelease t rest) s else k s
      else k s
  | None => k s
  end.

(** The leak guard. *)
Definition leak_guard (t : Q) (ep : string) (s : Sys) : Sys :=
  match dget (states s) ep with
  | Some st =>
      if ((0 <? inflight st)%Z && Qle_bool _STUCK_INFLIGHT_S (t - last_activity st))%bool
      then call (ForceReset ep) (upd ep (set_inflight 0) s) else s
  | None => s
  end.

(** The sweep over the endpoints left, up to its next await. *)
Fixpoint sweep (t : Q) (eps : list string) (s : Sys) : Sys :=
  match eps with
  | [] => with_loop Sleeping s
  | ep :: rest =>
      match dget (states s) ep with
      | None => sweep t rest s
      | Some st =>
          match lease_id st with
          | None => sweep t rest s
          | Some lid =>
              let s := leak_guard t ep s in
              if (Qle_bool _HEARTBEAT_S (t - last_heartbeat st) && negb (String.eqb lid ""))%bool
              then with_loop (InHeartbeat t ep lid rest) (call (Heartbeat ep lid) s)
              else finish_visit (sweep t rest) t ep rest s
          end
      end
  end.

(** The answer of [/heartbeat]: [None] a transport error, else the status. *)
Definition heartbeat_reply (status : option Z) (ep : string) (s : Sys) : Sys :=
  match status with
  | Some 200%Z => upd ep (beat (now s)) s
  | Some _ => upd ep (set_lease None) s
  | None => s
  end.

(** The releases of [close], one after the other. *)
Fixpoint close_from (eps : list string) (s : Sys) : Sys :=
  match eps with
  | [] => with_loop Closed s
  | ep :: rest =>
      let held := match dget (states s) ep with
                  | Some st => match lease_id st with Some lid => negb (String.eqb lid "") | None => false end
                  | None => false
                  end in
      if held
      then let '(s, suspended) := release true ep s in
           if suspended then with_loop (Closing rest) s else close_from rest s
      else close_from rest s
  end.

(** ** Events *)

(** [DoneUncounted]: [record_completion] reports a request that [ensure_loaded]
    never counted, such as one recovered from the log at a restart, or reports one
    again. *)
Inductive Event :=
| Arrive (id : nat) (ep : string)
| Wake (id : nat)
| EnsureAnswer (id : nat) (r : EnsureReply)
| Cancel (id : nat)
| Done (id : nat)
| DoneUncounted (ep : string)
| Start
| Tick
| HeartbeatAnswer (status : option Z)
| ReleaseAnswer
| Close.

(** A request may take the lock when it is first in its queue and nobody holds it. *)
Definition may_wake (id : nat) (ep : string) (s : Sys) : bool :=
  (bool_decide (of_ep ep (is_pc Posting) (tasks s) = [])
   && match of_ep ep (is_pc AtLock) (tasks s) with t :: _ => bool_decide (t_id t = id) | [] => false end)%bool.

(** One event at time [t]; [None] when it cannot happen here. *)
Definition step (t : Q) (e : Event) (s : Sys) : option Sys :=
  if negb (Qle_bool (now s) t) then None else
  let s := with_now t s in
  match e with
  | Arrive id ep =>
      match find_task id (tasks s) with
      | Some _ => None
      | None => if manages s ep then Some (arrive id ep s) else None
      end
  | Wake id =>
      match find_task id (tasks s) with
      | Some (mkTask _ ep AtLock) =>
          if may_wake id ep s then Some (critical id ep (with_tasks (drop_task id (tasks s)) s)) else None
      | _ => None
      end
  | EnsureAnswer id r =>
      match find_task id (tasks s) with
      | Some (mkTask _ ep Posting) => Some (ensure_reply r id ep s)
      | _ => None
      end
  | Cancel id =>
      match find_task id (tasks s) with
      | Some (mkTask _ _ AtLock) | Some (mkTask _ _ Posting) => Some (with_tasks (drop_task id (tasks s)) s)
      | _ => None
      end
  | Done id =>
      match find_task id (tasks s) with
      | Some (mkTask _ ep Running) => Some (request_done ep (with_tasks (drop_task id (tasks s)) s))
      | _ => None
      end
  | DoneUncounted ep => if manages s ep then Some (call (Uncounted ep) (request_done ep s)) else None
  | Start =>
      match loop s with
      | NotStarted => if bool_decide (states s = []) then None else Some (with_loop Sleeping s)
      | _ => None
      end
  | Tick =>
      match loop s with
      | Sleeping => Some (sweep t (dkeys (states s)) s)
      | _ => None
      end
  | HeartbeatAnswer status =>
      match loop s with
      | InHeartbeat t0 ep lid rest => Some (finish_visit (sweep t0 rest) t0 ep rest (heartbeat_reply status ep s))
      | _ => None
      end
  | ReleaseAnswer =>
      match loop s with
      | InRelease t0 rest => Some (sweep t0 rest s)
      | Closing rest => Some (close_from rest s)
      | _ => None
      end
  | Close =>
      match loop s with
      | Closing _ | Closed => None
      | _ => Some (close_from (dkeys (states s)) s)
      end
  end.

(** A run of events, each with its time. *)
Inductive reachable (s0 : Sys) : Sys -> Prop :=
| reach_init : reachable s0 s0
| reach_step s s' t e : reachable s0 s -> step t e s = Some s' -> reachable s0 s'.

Fixpoint run (es : list (Q * Event)) (s : Sys) : option Sys :=
  match es with
  | [] => Some s
  | (t, e) :: es' => match step t e s with Some s' => run es' s' | None => None end
  end.
