(* ===== verification/OnDemandProps.v ===== *)
(** * The lease manager: what its interleavings cannot do

    One load at a time, no release under a running request, and no lease
    pinned by a lost completion. *)

From Stdlib Require Import QArith Lqa Lia ZArith.
From stdpp Require Import base list strings.
From S2P Require Import Prelude PyDict PyText Json OnDemand.

Local Open Scope string_scope.

(** ** Requests of an endpoint *)

Definition active (ep : string) (ts : list Task) : Z :=
  Z.of_nat (length (of_ep ep (fun p => is_pc Posting p || is_pc Running p)%bool ts)).
Definition posting (ep : string) (ts : list Task) : Z := Z.of_nat (length (of_ep ep (is_pc Posting) ts)).

Lemma active_app ep a b : active ep (a ++ b) = (active ep a + active ep b)%Z.
Proof. unfold active, of_ep. rewrite List.filter_app, length_app. lia. Qed.
Lemma posting_app ep a b : posting ep (a ++ b) = (posting ep a + posting ep b)%Z.
Proof. unfold posting, of_ep. rewrite List.filter_app, length_app. lia. Qed.

Definition one_if (b : bool) : Z := if b then 1 else 0.

Lemma active_one ep id e p :
  active ep [mkTask id e p] = one_if (String.eqb e ep && (is_pc Posting p || is_pc Running p)).
Proof. unfold active, of_ep. simpl. by destruct (_ && _)%bool. Qed.
Lemma posting_one ep id e p : posting ep [mkTask id e p] = one_if (String.eqb e ep && is_pc Posting p).
Proof. unfold posting, of_ep. simpl. by destruct (_ && _)%bool. Qed.

Lemma find_task_split id ts x :
  find_task id ts = Some x -> NoDup (map t_id ts) ->
  exists a b, ts = (a ++ x :: b)%list /\ t_id x = id /\ drop_task id ts = (a ++ b)%list.
Proof.
  unfold find_task, drop_task. induction ts as [|y ts IH]; simpl; [done|]. intros F ND. inversion ND as [|? ? N ND']; subst.
  case_bool_decide as E.
  - injection F as <-. exists [], ts. split_and!; [done|done|]. simpl. clear IH ND ND'.
    induction ts as [|z ts IH]; simpl; [done|]. rewrite bool_decide_eq_false_2.
    + simpl. f_equal. apply IH. intros H. apply N. by right.
    + intros E2. apply N. rewrite E, <- E2. by left.
  - destruct (IH F ND') as (a & b & -> & E2 & D). exists (y :: a), b. split_and!; [done|done|]. simpl. by rewrite D.
Qed.

Lemma find_task_none id ts : find_task id ts = None -> id ∉ map t_id ts.
Proof.
  unfold find_task. induction ts as [|y ts IH]; simpl; [intros _; apply not_elem_of_nil|]. case_bool_decide as E; [done|].
  intros F. rewrite not_elem_of_cons. split; [congruence|by apply IH].
Qed.

(** ** The invariant *)

(** The count of the endpoint was lost: reset by the leak guard, or taken down by a
    completion it did not include. *)
Definition miscounted (ep : string) (l : list Call) : Prop := ForceReset ep ∈ l \/ Uncounted ep ∈ l.

Lemma miscounted_app ep l m : miscounted ep l -> miscounted ep (l ++ m)%list.
Proof. intros [H|H]; [left|right]; apply elem_of_app; by left. Qed.

Definition ok_ep (s : Sys) (ep : string) : Prop :=
  (posting ep (tasks s) <= 1)%Z /\
  match dget (states s) ep with
  | Some st => (0 <= inflight st)%Z /\ (last_activity st <= now s)%Q
      /\ ((0 < posting ep (tasks s))%Z -> lease_id st = None)
      /\ (~ miscounted ep (sent s) -> (active ep (tasks s) <= inflight st)%Z)
  | None => of_ep ep (fun _ => true) (tasks s) = []
  end.

Definition loop_ok (s : Sys) : Prop :=
  match loop s with
  | InHeartbeat t0 _ _ _ | InRelease t0 _ => (t0 <= now s)%Q
  | _ => True
  end.

Definition inv (s : Sys) : Prop :=
  NoDup (map t_id (tasks s)) /\ (forall ep, ok_ep s ep) /\ loop_ok s.

(** *** What the background side may do to a state *)

Definition quiet_le (s s' : Sys) : Prop :=
  tasks s' = tasks s /\ now s' = now s /\ hold_idle_s s' = hold_idle_s s
  /\ (exists l, sent s' = (sent s ++ l)%list)
  /\ forall ep, match dget (states s) ep, dget (states s') ep with
     | Some a, Some b => last_activity b = last_activity a /\ (lease_id b = lease_id a \/ lease_id b = None)
         /\ (inflight b = inflight a \/ (inflight b = 0%Z /\ ForceReset ep ∈ sent s'))
     | None, None => True
     | _, _ => False
     end.

Lemma quiet_refl s : quiet_le s s.
Proof.
  split_and!; try done; [exists []; by rewrite app_nil_r|]. intros ep. destruct (dget (states s) ep); [|done]. auto.
Qed.

Lemma quiet_trans a b c : quiet_le a b -> quiet_le b c -> quiet_le a c.
Proof.
  intros (A1 & A2 & A3 & [l A4] & A5) (B1 & B2 & B3 & [m B4] & B5). split_and!; try congruence.
  - exists (l ++ m)%list. by rewrite B4, A4, app_assoc.
  - intros ep. specialize (A5 ep). specialize (B5 ep).
    destruct (dget (states a) ep) as [x|], (dget (states b) ep) as [y|], (dget (states c) ep) as [z|]; try done.
    destruct A5 as (P1 & P2 & P3), B5 as (Q1 & Q2 & Q3). split_and!; [congruence|naive_solver congruence|].
    destruct Q3 as [Q3|Q3]; [|by right]. rewrite Q3. destruct P3 as [P3|[P3 P4]]; [by left|]. right. split; [done|].
    rewrite B4. apply elem_of_app. by left.
Qed.

Lemma dget_upd ep f s x :
  dget (states (upd ep f s)) x = if decide (x = ep) then f <$> dget (states s) ep else dget (states s) x.
Proof.
  unfold upd. destruct (dget (states s) ep) as [st|] eqn:E; cbn [with_states states].
  - rewrite dget_dset. case_decide; case_decide; subst; done.
  - case_decide; [by subst|done].
Qed.

Lemma upd_frame ep f s :
  tasks (upd ep f s) = tasks s /\ now (upd ep f s) = now s /\ hold_idle_s (upd ep f s) = hold_idle_s s
  /\ sent (upd ep f s) = sent s /\ loop (upd ep f s) = loop s.
Proof. unfold upd. by destruct (dget (states s) ep). Qed.

Lemma quiet_upd ep f s :
  (forall st, dget (states s) ep = Some st -> last_activity (f st) = last_activity st
     /\ (lease_id (f st) = lease_id st \/ lease_id (f st) = None) /\ inflight (f st) = inflight st) ->
  quiet_le s (upd ep f s).
Proof.
  intros H. destruct (upd_frame ep f s) as (E1 & E2 & E3 & E4 & _). split_and!; try done.
  - exists []. by rewrite E4, app_nil_r.
  - intros x. rewrite dget_upd. case_decide; subst.
    + destruct (dget (states s) ep) as [st|] eqn:E; simpl; [|done]. destruct (H st eq_refl) as (A & B & C). auto.
    + destruct (dget (states s) x); auto.
Qed.

Lemma quiet_call c s : quiet_le s (call c s).
Proof.
  split_and!; try done; [by exists [c]|]. intros ep. cbn. destruct (dget (states s) ep); auto.
Qed.

Lemma quiet_loop l s : quiet_le s (with_loop l s).
Proof. exact (quiet_refl s). Qed.

Lemma quiet_release c ep s : quiet_le s (release c ep s).1.
Proof.
  unfold release. destruct (dget (states s) ep) as [st|]; [|apply quiet_refl].
  assert (U : quiet_le s (upd ep (set_lease None) s)) by (apply quiet_upd; intros st' _; simpl; auto).
  destruct (lease_id st) as [lid|]; [|done]. destruct (String.eqb lid ""); [done|]. cbn [fst].
  eapply quiet_trans; [exact U|apply quiet_call].
Qed.

Lemma quiet_guard t ep s : quiet_le s (leak_guard t ep s).
Proof.
  unfold leak_guard. destruct (dget (states s) ep) as [st|] eqn:E; [|apply quiet_refl].
  destruct (_ && _)%bool; [|apply quiet_refl]. destruct (upd_frame ep (set_inflight 0) s) as (E1 & E2 & E3 & E4 & _).
  split_and!; try done; [exists [ForceReset ep]; cbn; by rewrite E4|]. intros x. cbn [call states sent].
  rewrite dget_upd. case_decide as EX; [subst x|by destruct (dget (states s) x); auto]. rewrite E. simpl. split_and!; auto.
  right. split; [done|]. apply elem_of_app. right. by left.
Qed.

Lemma quiet_finish k t ep rest s :
  (forall s0, quiet_le s0 (k s0)) -> quiet_le s (finish_visit k t ep rest s).
Proof.
  intros K. unfold finish_visit. destruct (dget (states s) ep) as [st|]; [|apply K]. destruct (_ && _)%bool; [|apply K].
  pose proof (quiet_release false ep s) as R. destruct (release false ep s) as [s1 b]. cbn [fst] in R.
  destruct b; [eapply quiet_trans; [exact R|apply quiet_loop]|eapply quiet_trans; [exact R|apply K]].
Qed.

Lemma quiet_sweep t eps s : quiet_le s (sweep t eps s).
Proof.
  revert s. induction eps as [|ep rest IH]; intros s; simpl; [apply quiet_loop|].
  destruct (dget (states s) ep) as [st|]; [|apply IH]. destruct (lease_id st) as [lid|]; [|apply IH].
  eapply quiet_trans; [apply (quiet_guard t ep)|]. destruct (_ && _)%bool.
  - eapply quiet_trans; [apply (quiet_call (Heartbeat ep lid))|apply quiet_loop].
  - by apply quiet_finish.
Qed.

Lemma quiet_heartbeat status ep s : quiet_le s (heartbeat_reply status ep s).
Proof.
  unfold heartbeat_reply. destruct status as [z|]; [|apply quiet_refl].
  assert (B : quiet_le s (upd ep (beat (now s)) s)) by (apply quiet_upd; intros st' _; simpl; auto).
  assert (L : quiet_le s (upd ep (set_lease None) s)) by (apply quiet_upd; intros st' _; simpl; auto).
  destruct z as [|p|p]; try done. repeat (destruct p as [p|p|]; try done).
Qed.

Lemma quiet_close eps s : quiet_le s (close_from eps s).
Proof.
  revert s. induction eps as [|ep rest IH]; intros s; cbn [close_from]; [apply quiet_loop|].
  destruct (match dget (states s) ep with Some _ => _ | None => _ end); [|apply IH].
  pose proof (quiet_release true ep s) as R. destruct (release true ep s) as [s1 b]. cbn [fst] in R.
  destruct b; [eapply quiet_trans; [exact R|apply quiet_loop]|eapply quiet_trans; [exact R|apply IH]].
Qed.

Lemma quiet_ok s s' ep : quiet_le s s' -> ok_ep s ep -> ok_ep s' ep.
Proof.
  intros (T & N & _ & [l S] & H) [P O]. unfold ok_ep. rewrite T, N. split; [done|]. specialize (H ep).
  destruct (dget (states s) ep) as [a|], (dget (states s') ep) as [b|]; try done.
  destruct H as (A & L & I), O as (O1 & O2 & O3 & O4). split_and!.
  - destruct I as [->|[-> _]]; [done|lia].
  - by rewrite A.
  - intros Q. specialize (O3 Q). destruct L as [->|]; done.
  - intros F. destruct I as [->|[_ I]]; [|by destruct F; left]. apply O4. intros M. apply F. rewrite S. by apply miscounted_app.
Qed.

(** The loop's stored time stays in the past. *)
Lemma finish_loop_ok k t ep rest s :
  (t <= now s)%Q -> (forall s0, (t <= now s0)%Q -> loop_ok (k s0)) -> loop_ok (finish_visit k t ep rest s).
Proof.
  intros T K. unfold finish_visit. destruct (dget (states s) ep) as [st|]; [|by apply K].
  destruct (_ && _)%bool; [|by apply K].
  pose proof (quiet_release false ep s) as (_ & N & _). destruct (release false ep s) as [s1 b]. cbn [fst] in N.
  destruct b; [cbn; by rewrite N|apply K; by rewrite N].
Qed.

Lemma sweep_loop_ok t eps s : (t <= now s)%Q -> loop_ok (sweep t eps s).
Proof.
  revert s. induction eps as [|ep rest IH]; intros s T; simpl; [done|].
  destruct (dget (states s) ep) as [st|]; [|by apply IH]. destruct (lease_id st) as [lid|]; [|by apply IH].
  pose proof (quiet_guard t ep s) as (_ & N & _). destruct (_ && _)%bool; [cbn; by rewrite N|].
  apply finish_loop_ok; [by rewrite N|done].
Qed.

Lemma close_loop_ok eps s : loop_ok (close_from eps s).
Proof.
  revert s. induction eps as [|ep rest IH]; intros s; cbn [close_from]; [done|].
  destruct (match dget (states s) ep with Some _ => _ | None => _ end); [|apply IH].
  destruct (release true ep s) as [s1 []]; [done|apply IH].
Qed.

Lemma quiet_inv s s' : quiet_le s s' -> loop_ok s' -> inv s -> inv s'.
Proof.
  intros Q L (N & O & _). split_and!; [|intros ep; by apply (quiet_ok s)|done]. destruct Q as (T & _). by rewrite T.
Qed.

(** *** Time passes *)

Lemma inv_now t s : (now s <= t)%Q -> inv s -> inv (with_now t s).
Proof.
  intros T (N & O & L). split_and!; [done| |].
  - intros ep. destruct (O ep) as [P H]. split; [done|]. cbn [with_now states tasks now sent] in *.
    destruct (dget (states s) ep) as [st|]; [|done]. destruct H as (A & B & C & D). split_and!; try done. lra.
  - unfold loop_ok in *. cbn [with_now loop now]. destruct (loop s); try done; lra.
Qed.

(** *** The request side *)

(** The state of one endpoint is replaced and the list of requests changed. *)
Lemma ok_change (s s' : Sys) ep f :
  now s' = now s -> states s' = states (upd ep f s) ->
  (exists l, sent s' = (sent s ++ l)%list) ->
  (forall x, x <> ep -> posting x (tasks s') = posting x (tasks s) /\ active x (tasks s') = active x (tasks s)
     /\ (of_ep x (fun _ => true) (tasks s) = [] -> of_ep x (fun _ => true) (tasks s') = [])) ->
  ok_ep s' ep -> (forall x, ok_ep s x) -> forall x, ok_ep s' x.
Proof.
  intros N S [l E] T K O x. destruct (decide (x = ep)) as [->|NE]; [done|]. destruct (T x NE) as (P & A & M).
  destruct (O x) as [O1 O2]. unfold ok_ep. rewrite P, A, N, S, dget_upd, decide_False by done. split; [done|].
  destruct (dget (states s) x) as [st|]; [|by apply M]. destruct O2 as (B1 & B2 & B3 & B4). split_and!; try done.
  intros F. apply B4. intros MC. apply F. rewrite E. by apply miscounted_app.
Qed.

Lemma of_ep_none_active ep ts : of_ep ep (fun _ => true) ts = [] -> active ep ts = 0%Z /\ posting ep ts = 0%Z.
Proof.
  unfold active, posting, of_ep. induction ts as [|t ts IH]; simpl; [done|].
  destruct (String.eqb (t_ep t) ep); simpl; [done|apply IH].
Qed.

(** Adding a request to the list. *)
Lemma tasks_add ts id ep p x :
  x <> ep ->
  posting x (ts ++ [mkTask id ep p]) = posting x ts /\ active x (ts ++ [mkTask id ep p]) = active x ts
  /\ (of_ep x (fun _ => true) ts = [] -> of_ep x (fun _ => true) (ts ++ [mkTask id ep p]) = []).
Proof.
  intros NE. assert (E : String.eqb ep x = false) by (apply String.eqb_neq; congruence).
  rewrite posting_app, active_app, posting_one, active_one. rewrite E. simpl. split_and!; [lia|lia|].
  unfold of_ep. rewrite List.filter_app. simpl. rewrite E. intros ->. done.
Qed.

(** Dropping a request from it. *)
Lemma tasks_del ts id ep p :
  NoDup (map t_id ts) -> find_task id ts = Some (mkTask id ep p) ->
  NoDup (map t_id (drop_task id ts)) /\ id ∉ map t_id (drop_task id ts)
  /\ (forall x, posting x (drop_task id ts) = (posting x ts - one_if (String.eqb ep x && is_pc Posting p))%Z)
  /\ (forall x, active x (drop_task id ts) = (active x ts - one_if (String.eqb ep x && (is_pc Posting p || is_pc Running p)))%Z)
  /\ (forall x, of_ep x (fun _ => true) ts = [] -> of_ep x (fun _ => true) (drop_task id ts) = []).
Proof.
  intros ND F. destruct (find_task_split _ _ _ F ND) as (a & b & E & _ & ->). subst ts.
  rewrite map_app in ND. cbn [map t_id] in ND. apply NoDup_app in ND as (NA & NX & NB). inversion NB as [|? ? NB1 NB2]; subst.
  split_and!.
  - rewrite map_app. apply NoDup_app. split_and!; [done| |done]. intros y Hy Hb. apply (NX y Hy). by right.
  - rewrite map_app, not_elem_of_app. split; [|done]. intros H. apply (NX id H). by left.
  - intros x. change (mkTask id ep p :: b) with ([mkTask id ep p] ++ b)%list. rewrite !posting_app, posting_one. lia.
  - intros x. change (mkTask id ep p :: b) with ([mkTask id ep p] ++ b)%list. rewrite !active_app, active_one. lia.
  - intros x. change (mkTask id ep p :: b) with ([mkTask id ep p] ++ b)%list. unfold of_ep. rewrite !List.filter_app.
    intros [H1 [H2 H3]%app_nil]%app_nil. by rewrite H1, H3.
Qed.

Lemma posting_nonneg ep ts : (0 <= posting ep ts)%Z.
Proof. unfold posting. lia. Qed.
Lemma active_nonneg ep ts : (0 <= active ep ts)%Z.
Proof. unfold active. lia. Qed.
Lemma posting_le_active ep ts : (posting ep ts <= active ep ts)%Z.
Proof.
  unfold active, posting, of_ep. induction ts as [|t ts IH]; simpl; [lia|].
  destruct (String.eqb (t_ep t) ep), (t_pc t); simpl in *; lia.
Qed.

Lemma critical_inv id ep s :
  inv s -> id ∉ map t_id (tasks s) -> posting ep (tasks s) = 0%Z -> inv (critical id ep s).
Proof.
  intros (ND & O & L) NI P0. unfold critical. destruct (dget (states s) ep) as [st|] eqn:G; [|by split_and!].
  set (f := fun st => set_inflight (inflight st + 1) (touch (now s) st)).
  destruct (upd_frame ep f s) as (U1 & U2 & U3 & U4 & U5).
  assert (NDa : forall p, NoDup (map t_id (tasks (upd ep f s) ++ [mkTask id ep p]))).
  { intros p. rewrite U1, map_app. apply NoDup_app. split_and!; [done| |apply NoDup_singleton].
    intros y Hy ->%list_elem_of_singleton. done. }
  destruct (O ep) as [O1 O2]. rewrite G in O2. destruct O2 as (B1 & B2 & B3 & B4).
  assert (Key : forall p l s', p <> AtLock -> now s' = now s -> states s' = states (upd ep f s) ->
    tasks s' = (tasks s ++ [mkTask id ep p])%list -> sent s' = (sent s ++ l)%list ->
    (p = Posting -> lease_id st = None) -> forall x, ok_ep s' x).
  { intros p l s' NP E1 E2 E3 E4 LP. apply (ok_change s s' ep f); try done; [by exists l|intros x NE; rewrite E3; by apply tasks_add|].
    unfold ok_ep. rewrite E2, E3, E4, dget_upd, decide_True, G by done. cbn [fmap option_fmap option_map].
    rewrite posting_app, active_app, posting_one, active_one, String.eqb_refl, P0, E1. cbn [f set_inflight touch inflight last_activity lease_id].
    split; [destruct p; simpl; lia|]. split_and!; [lia|lra| |].
    - intros H. apply LP. destruct p; [done|done|]. simpl in H. lia.
    - intros F. assert (active ep (tasks s) <= inflight st)%Z by (apply B4; intros M; by apply F, miscounted_app). destruct p; simpl; lia. }
  destruct (lease_id st) as [lid|] eqn:LE.
  - split_and!; [by apply NDa| |unfold loop_ok in *; cbn; by rewrite U2, U5].
    apply (Key Running []); try done; cbn; by rewrite ?U1, ?app_nil_r.
  - split_and!; [by apply NDa| |unfold loop_ok in *; cbn; by rewrite U2, U5].
    apply (Key Posting [Ensure ep (capability st)]); try done; cbn; by rewrite ?U1, ?U4.
Qed.

Lemma lock_free_posting ep s : lock_free ep s = true -> posting ep (tasks s) = 0%Z.
Proof.
  unfold lock_free. rewrite bool_decide_eq_true. unfold posting, of_ep. generalize (tasks s). intros ts H.
  induction ts as [|t ts IH]; simpl in *; [done|]. destruct (String.eqb (t_ep t) ep); simpl in *; [|by apply IH].
  destruct (t_pc t); simpl in *; try done. by apply IH.
Qed.

Lemma arrive_inv id ep s : inv s -> find_task id (tasks s) = None -> manages s ep = true -> inv (arrive id ep s).
Proof.
  intros I F M. apply find_task_none in F. unfold arrive. destruct (lock_free ep s) eqn:LF.
  { apply critical_inv; [done|done|by apply lock_free_posting]. }
  destruct I as (ND & O & L). split_and!; [|intros x|exact L].
  - cbn. rewrite map_app. apply NoDup_app. split_and!; [done| |apply NoDup_singleton]. intros y Hy ->%list_elem_of_singleton. done.
  - destruct (O x) as [P H]. unfold ok_ep. cbn [with_tasks states tasks now sent].
    rewrite posting_app, active_app, posting_one, active_one. rewrite !andb_false_r. simpl. rewrite !Z.add_0_r. split; [done|].
    destruct (dget (states s) x) as [st|] eqn:G; [done|]. unfold of_ep in *. rewrite List.filter_app, H. simpl.
    destruct (String.eqb ep x) eqn:E; [|done]. apply String.eqb_eq in E as ->. unfold manages, dmem in M.
    by rewrite G in M.
Qed.

(** A request that leaves the list, and a new state for its endpoint. *)
Lemma leave_ok s id ep p f :
  inv s -> find_task id (tasks s) = Some (mkTask id ep p) ->
  (forall st, dget (states s) ep = Some st ->
     (0 <= inflight (f st))%Z /\ (last_activity (f st) <= now s)%Q /\ lease_id (f st) = lease_id st
     /\ (inflight st - one_if (is_pc Posting p || is_pc Running p) <= inflight (f st))%Z) ->
  inv (with_tasks (drop_task id (tasks s)) (upd ep f s)).
Proof.
  intros (ND & O & L) F H. destruct (tasks_del _ _ _ _ ND F) as (D1 & D2 & D3 & D4 & D5).
  destruct (upd_frame ep f s) as (U1 & U2 & U3 & U4 & U5).
  split_and!; [done| |unfold loop_ok in *; cbn; by rewrite U2, U5]. eapply (ok_change s _ ep f); try done; cbn.
  - exists []. by rewrite U4, app_nil_r.
  - intros x NE. assert (E : String.eqb ep x = false) by (apply String.eqb_neq; congruence).
    rewrite D3, D4. rewrite E. simpl. split_and!; [lia|lia|apply D5].
  - destruct (O ep) as [P Q]. unfold ok_ep. cbn [with_tasks states tasks now sent].
    rewrite D3, D4, String.eqb_refl, dget_upd, decide_True, U2, U4 by done. cbn [andb].
    assert (PA : (0 <= one_if (is_pc Posting p))%Z) by (unfold one_if; destruct (is_pc Posting p); lia).
    split; [lia|]. destruct (dget (states s) ep) as [st|] eqn:G; cbn [fmap option_fmap option_map]; [|by apply D5].
    destruct (H st eq_refl) as (H1 & H2 & H3 & H4), Q as (Q1 & Q2 & Q3 & Q4). split_and!; try done.
    + intros R. rewrite H3. apply Q3. lia.
    + intros R. specialize (Q4 R). lia.
Qed.

(** A request that leaves with nothing else changed: a cancellation, or an
    answer that could not be read. *)
Lemma drop_inv id ep p s :
  inv s -> find_task id (tasks s) = Some (mkTask id ep p) -> inv (with_tasks (drop_task id (tasks s)) s).
Proof.
  intros (ND & O & L) F. destruct (tasks_del _ _ _ _ ND F) as (D1 & D2 & D3 & D4 & D5). split_and!; [done| |exact L].
  intros x. destruct (O x) as [P Q]. unfold ok_ep. cbn [with_tasks states tasks now sent]. rewrite D3, D4.
  assert (PA : forall b, (0 <= one_if b)%Z) by (intros []; simpl; lia).
  pose proof (PA (String.eqb ep x && is_pc Posting p)%bool). pose proof (PA (String.eqb ep x && (is_pc Posting p || is_pc Running p))%bool).
  split; [lia|]. destruct (dget (states s) x) as [st|]; [|by apply D5]. destruct Q as (Q1 & Q2 & Q3 & Q4).
  split_and!; try done; intros R; [apply Q3|specialize (Q4 R)]; lia.
Qed.

Lemma reply_inv r id ep s :
  inv s -> find_task id (tasks s) = Some (mkTask id ep Posting) -> inv (ensure_reply r id ep s).
Proof.
  intros I F. assert (I' := I). destruct I' as (ND & O & L). destruct (tasks_del _ _ _ _ ND F) as (D1 & D2 & D3 & D4 & D5).
  unfold ensure_reply. destruct r as [| | |lease].
  1,2: apply (leave_ok s id ep Posting); [done|done|]; intros st G; destruct (O ep) as [_ Q]; rewrite G in Q;
    destruct Q as (Q1 & Q2 & _); simpl; split_and!; [lia|done|done|lia].
  - by apply (drop_inv id ep Posting).
  - set (f := fun st => beat (now s) (set_lease lease st)). destruct (upd_frame ep f s) as (U1 & U2 & U3 & U4 & U5).
    split_and!; [|eapply (ok_change s _ ep f); try done; cbn|unfold loop_ok in *; cbn; by rewrite U2, U5].
    + cbn. rewrite map_app. apply NoDup_app. split_and!; [done| |apply NoDup_singleton]. intros y Hy ->%list_elem_of_singleton. done.
    + exists []. by rewrite U4, app_nil_r.
    + intros x NE. assert (E : String.eqb ep x = false) by (apply String.eqb_neq; congruence).
      destruct (tasks_add (drop_task id (tasks s)) id ep Running x NE) as (A1 & A2 & A3).
      rewrite A1, A2, D3, D4. rewrite E. simpl. split_and!; [lia|lia|auto].
    + destruct (O ep) as [P Q]. unfold ok_ep. cbn [with_tasks states tasks now sent].
      rewrite posting_app, active_app, posting_one, active_one, D3, D4, String.eqb_refl, dget_upd, decide_True, U2, U4 by done. simpl.
      split; [lia|]. destruct (dget (states s) ep) as [st|]; cbn [fmap option_fmap option_map].
      * destruct Q as (Q1 & Q2 & Q3 & Q4). cbn. split_and!; try done; [intros; lia|intros R; specialize (Q4 R); lia].
      * exfalso. destruct (of_ep_none_active _ _ Q) as [_ PZ]. pose proof (D3 ep) as D. rewrite String.eqb_refl in D. simpl in D.
        pose proof (posting_nonneg ep (drop_task id (tasks s))). lia.
Qed.

Lemma find_task_id id ts x : find_task id ts = Some x -> t_id x = id.
Proof. intros H. apply List.find_some in H as [_ H]. by apply bool_decide_eq_true in H. Qed.

Lemma wake_inv id ep s :
  inv s -> find_task id (tasks s) = Some (mkTask id ep AtLock) -> may_wake id ep s = true ->
  inv (critical id ep (with_tasks (drop_task id (tasks s)) s)).
Proof.
  intros I F W. assert (ND : NoDup (map t_id (tasks s))) by apply I. destruct (tasks_del _ _ _ _ ND F) as (D1 & D2 & D3 & _).
  apply critical_inv; [by apply (drop_inv id ep AtLock)|done|]. cbn. rewrite D3. rewrite andb_false_r. simpl.
  unfold may_wake in W. apply andb_true_iff in W as [W _]. apply bool_decide_eq_true in W. unfold posting. rewrite W. done.
Qed.

Lemma done_inv id ep s :
  inv s -> find_task id (tasks s) = Some (mkTask id ep Running) -> inv (request_done ep (with_tasks (drop_task id (tasks s)) s)).
Proof.
  intros I F. set (f := fun st => touch (now s) (set_inflight (Z.max 0 (inflight st - 1)) st)).
  assert (E : request_done ep (with_tasks (drop_task id (tasks s)) s) = with_tasks (drop_task id (tasks s)) (upd ep f s)).
  { unfold request_done, upd. cbn [with_tasks states now]. by destruct (dget (states s) ep). }
  rewrite E. apply (leave_ok s id ep Running); [done|done|]. intros st G. destruct I as (_ & O & _). destruct (O ep) as [_ Q].
  rewrite G in Q. destruct Q as (Q1 & Q2 & _). simpl. split_and!; [lia|lra|done|lia].
Qed.

Lemma uncounted_inv ep s : inv s -> inv (call (Uncounted ep) (request_done ep s)).
Proof.
  intros (ND & O & L). unfold request_done. set (f := fun st => touch (now s) (set_inflight (Z.max 0 (inflight st - 1)) st)).
  destruct (upd_frame ep f s) as (U1 & U2 & _ & U4 & U5). split_and!; [cbn; by rewrite U1| |unfold loop_ok in *; cbn; by rewrite U2, U5].
  apply (ok_change s _ ep f); try done; [by exists [Uncounted ep]; cbn; rewrite U4|intros x _; cbn; by rewrite U1|].
  destruct (O ep) as [P Q]. unfold ok_ep. cbn [call states tasks now sent]. rewrite U1, U2, dget_upd, decide_True by done.
  split; [done|]. destruct (dget (states s) ep) as [st|]; [|done]. destruct Q as (Q1 & Q2 & Q3 & _).
  cbn [fmap option_fmap option_map f touch set_inflight inflight last_activity lease_id]. split_and!; [lia|lra|exact Q3|].
  intros M. destruct M. right. apply elem_of_app. right. by left.
Qed.

Lemma step_inv t e s s' : inv s -> step t e s = Some s' -> inv s'.
Proof.
  intros I0. unfold step. destruct (Qle_bool (now s) t) eqn:T; [|done]. cbn [negb]. apply Qle_bool_iff in T.
  pose proof (inv_now t s T I0) as I. set (s1 := with_now t s) in *. assert (N1 : now s1 = t) by done. clearbody s1. clear I0 T s.
  assert (L1 : loop_ok s1) by apply I.
  destruct e as [id ep|id|id r|id|id|ep| | |status| |].
  - destruct (find_task id (tasks s1)) eqn:F; [done|]. destruct (manages s1 ep) eqn:M; [|done]. intros [= <-]. by apply arrive_inv.
  - destruct (find_task id (tasks s1)) as [[i ep []]|] eqn:F; try done. pose proof (find_task_id _ _ _ F) as E. simpl in E. subst i.
    destruct (may_wake id ep s1) eqn:W; [|done]. intros [= <-]. by apply wake_inv.
  - destruct (find_task id (tasks s1)) as [[i ep []]|] eqn:F; try done. pose proof (find_task_id _ _ _ F) as E. simpl in E. subst i.
    intros [= <-]. by apply reply_inv.
  - destruct (find_task id (tasks s1)) as [[i ep []]|] eqn:F; try done; pose proof (find_task_id _ _ _ F) as E; simpl in E; subst i;
      intros [= <-]; by eapply drop_inv.
  - destruct (find_task id (tasks s1)) as [[i ep []]|] eqn:F; try done. pose proof (find_task_id _ _ _ F) as E. simpl in E. subst i.
    intros [= <-]. by apply done_inv.
  - destruct (manages s1 ep); [|done]. intros [= <-]. by apply uncounted_inv.
  - destruct (loop s1); try done. destruct (bool_decide _); [done|]. intros [= <-]. apply (quiet_inv s1); [apply quiet_loop|done|done].
  - destruct (loop s1); try done. intros [= <-]. apply (quiet_inv s1); [apply quiet_sweep|apply sweep_loop_ok; rewrite N1; lra|done].
  - unfold loop_ok in L1. destruct (loop s1) as [| |t0 ep lid rest| | |]; try done. intros [= <-].
    pose proof (quiet_heartbeat status ep s1) as QH. destruct QH as (Q1 & Q2 & Q3).
    apply (quiet_inv s1); [|apply finish_loop_ok; [by rewrite Q2|intros; by apply sweep_loop_ok]|done].
    eapply quiet_trans; [apply (quiet_heartbeat status ep)|apply quiet_finish; intros; apply quiet_sweep].
  - unfold loop_ok in L1. destruct (loop s1) as [| | |t0 rest|rest|]; try done; intros [= <-].
    + apply (quiet_inv s1); [apply quiet_sweep|by apply sweep_loop_ok|done].
    + apply (quiet_inv s1); [apply quiet_close|apply close_loop_ok|done].
  - destruct (loop s1); try done; intros [= <-]; (apply (quiet_inv s1); [apply quiet_close|apply close_loop_ok|done]).
Qed.

Lemma init_inv endpoints hold : inv (manager_init endpoints hold).
Proof.
  split_and!; [constructor| |done]. intros ep. split; [done|]. cbn [manager_init states tasks now sent].
  destruct (dget _ ep) as [st|] eqn:G; [|done]. apply dget_elem in G. apply list_elem_of_omap in G as ([k c] & _ & G).
  cbn [fst snd] in G. destruct (_ && _)%bool; [|done]. injection G as _ <-. cbn. split_and!; [lia|lra|done|done].
Qed.

Lemma reachable_inv endpoints hold s : reachable (manager_init endpoints hold) s -> inv s.
Proof. induction 1; [apply init_inv|by eapply step_inv]. Qed.

(** ** Releases *)

(** Going from [s] to [s'], every idle release sent is of an endpoint whose
    state then shows no request in flight and an idle time long enough. *)
Definition idle_only (t : Q) (s s' : Sys) : Prop :=
  exists l, sent s' = (sent s ++ l)%list
    /\ forall ep lid, Release false ep lid ∈ l ->
       exists st, dget (states s') ep = Some st /\ (inflight st <= 0)%Z /\ lease_id st = None
         /\ (hold_idle_s s' <= t - last_activity st)%Q.

Lemma idle_silent t s s' : sent s' = sent s -> idle_only t s s'.
Proof. intros E. exists []. rewrite app_nil_r. split; [done|]. intros ep lid H. by apply elem_of_nil in H. Qed.

(** A first part that releases nothing. *)
Lemma idle_after t s s1 s' l :
  sent s1 = (sent s ++ l)%list -> (forall ep lid, Release false ep lid ∉ l) -> idle_only t s1 s' -> idle_only t s s'.
Proof.
  intros E N (m & E2 & H). exists (l ++ m)%list. split; [by rewrite E2, E, app_assoc|].
  intros ep lid [IN|IN]%elem_of_app; [by destruct (N _ _ IN)|by apply (H ep lid)].
Qed.

Lemma release_spec c ep s st :
  dget (states s) ep = Some st ->
  dget (states (release c ep s).1) ep = Some (set_lease None st) /\ hold_idle_s (release c ep s).1 = hold_idle_s s
  /\ ((release c ep s).2 = false -> sent (release c ep s).1 = sent s)
  /\ ((release c ep s).2 = true -> exists lid, sent (release c ep s).1 = (sent s ++ [Release c ep lid])%list).
Proof.
  intros G. unfold release. rewrite G. destruct (upd_frame ep (set_lease None) s) as (_ & _ & U3 & U4 & _).
  assert (D : dget (states (upd ep (set_lease None) s)) ep = Some (set_lease None st))
    by (rewrite dget_upd, decide_True, G by done; done).
  destruct (lease_id st) as [lid|]; [destruct (String.eqb lid "")|]; cbn; rewrite ?U3, ?U4; split_and!; try done. intros _. by exists lid.
Qed.

Lemma finish_idle k t ep rest s :
  (forall s0, idle_only t s0 (k s0)) -> idle_only t s (finish_visit k t ep rest s).
Proof.
  intros K. unfold finish_visit. destruct (dget (states s) ep) as [st|] eqn:G; [|apply K].
  destruct (bool_decide _ && _ && _)%bool eqn:C; [|apply K]. apply andb_true_iff in C as [[_ C1]%andb_true_iff C2].
  apply Z.leb_le in C1. apply Qle_bool_iff in C2. destruct (release_spec false ep s st G) as (R1 & R2 & R3 & R4).
  destruct (release false ep s) as [s1 b]. cbn [fst snd] in *. destruct b.
  - destruct (R4 eq_refl) as [lid E]. exists [Release false ep lid]. split; [done|]. intros ep' lid' H.
    apply list_elem_of_singleton in H. injection H as -> ->. exists (set_lease None st). cbn. rewrite R2. by split_and!.
  - apply (idle_after t s s1 _ []); [by rewrite app_nil_r, R3|intros ? ? H; by apply elem_of_nil in H|apply K].
Qed.

Lemma guard_sent t ep s : exists l, sent (leak_guard t ep s) = (sent s ++ l)%list /\ forall e lid, Release false e lid ∉ l.
Proof.
  unfold leak_guard. destruct (dget (states s) ep); [destruct (_ && _)%bool|].
  - exists [ForceReset ep]. destruct (upd_frame ep (set_inflight 0) s) as (_ & _ & _ & U4 & _). cbn. rewrite U4. split; [done|].
    intros e0 lid0 H. by apply list_elem_of_singleton in H.
  - exists []. rewrite app_nil_r. split; [done|]. intros ? ? H. by apply elem_of_nil in H.
  - exists []. rewrite app_nil_r. split; [done|]. intros ? ? H. by apply elem_of_nil in H.
Qed.

Lemma sweep_idle t eps s : idle_only t s (sweep t eps s).
Proof.
  revert s. induction eps as [|ep rest IH]; intros s; simpl; [by apply idle_silent|].
  destruct (dget (states s) ep) as [st|]; [|apply IH]. destruct (lease_id st) as [lid|]; [|apply IH].
  destruct (guard_sent t ep s) as (l & E & N). destruct (_ && _)%bool.
  - exists (l ++ [Heartbeat ep lid])%list. cbn. split; [by rewrite E, app_assoc|].
    intros e lid' [H|H]%elem_of_app; [by destruct (N _ _ H)|by apply list_elem_of_singleton in H].
  - apply (idle_after t s (leak_guard t ep s) _ l); [done|done|]. by apply finish_idle.
Qed.

Lemma close_sent eps s : exists l, sent (close_from eps s) = (sent s ++ l)%list /\ forall e lid, Release false e lid ∉ l.
Proof.
  assert (Nil : forall s : Sys, exists l, sent s = (sent s ++ l)%list /\ forall e lid, Release false e lid ∉ l).
  { intros s0. exists []. rewrite app_nil_r. split; [done|]. intros ? ? H. by apply elem_of_nil in H. }
  revert s. induction eps as [|ep rest IH]; intros s; cbn [close_from]; [apply (Nil (with_loop Closed s))|].
  destruct (match dget (states s) ep with Some _ => _ | None => _ end) eqn:HD; [|apply IH].
  destruct (dget (states s) ep) as [st|] eqn:G; [|done]. destruct (release_spec true ep s st G) as (_ & _ & R3 & R4).
  destruct (release true ep s) as [s1 []]; cbn [fst snd] in *.
  - destruct (R4 eq_refl) as [lid E]. exists [Release true ep lid]. split; [done|].
    intros e lid' H. by apply list_elem_of_singleton in H.
  - destruct (IH s1) as (l & E & N). exists l. by rewrite E, R3.
Qed.

Lemma hold_step t e s s' : step t e s = Some s' -> hold_idle_s s' = hold_idle_s s.
Proof.
  unfold step. destruct (negb _); [done|]. assert (U : forall ep f s, hold_idle_s (upd ep f s) = hold_idle_s s)
    by (intros ep f s0; apply (upd_frame ep f s0)).
  assert (C : forall id ep s, hold_idle_s (critical id ep s) = hold_idle_s s).
  { intros id ep s0. unfold critical. destruct (dget (states s0) ep) as [st|]; [|done]. destruct (lease_id st); cbn; by rewrite U. }
  assert (SW : forall t eps s, hold_idle_s (sweep t eps s) = hold_idle_s s) by (intros; apply quiet_sweep).
  assert (CL : forall eps s, hold_idle_s (close_from eps s) = hold_idle_s s) by (intros; apply quiet_close).
  destruct e as [id ep|id|id r|id|id|ep| | |status| |].
  - destruct (find_task _ _); [done|]. destruct (manages _ _); [|done]. intros [= <-]. unfold arrive.
    destruct (lock_free _ _); [by rewrite C|done].
  - destruct (find_task _ _) as [[i ep []]|]; try done. destruct (may_wake _ _ _); [|done]. intros [= <-]. by rewrite C.
  - destruct (find_task _ _) as [[i ep []]|]; try done. intros [= <-]. unfold ensure_reply. destruct r; cbn; by rewrite ?U.
  - by destruct (find_task _ _) as [[i ep []]|]; try done; intros [= <-].
  - destruct (find_task _ _) as [[i ep []]|]; try done. intros [= <-]. unfold request_done. by rewrite U.
  - destruct (manages _ _); [|done]. intros [= <-]. unfold request_done. cbn. by rewrite U.
  - destruct (loop _); try done. destruct (bool_decide _); [done|]. by intros [= <-].
  - destruct (loop _); try done. intros [= <-]. by rewrite SW.
  - destruct (loop _) as [| |t0 ep lid rest| | |]; try done. intros [= <-].
    pose proof (quiet_finish (sweep t0 rest) t0 ep rest (heartbeat_reply status ep (with_now t s)) ltac:(intros; apply quiet_sweep)) as (_ & _ & H & _).
    rewrite H. pose proof (quiet_heartbeat status ep (with_now t s)) as (_ & _ & H2 & _). by rewrite H2.
  - destruct (loop _); try done; intros [= <-]; by rewrite ?SW, ?CL.
  - destruct (loop _); try done; intros [= <-]; by rewrite ?CL.
Qed.

(** A step of the system that sends an idle release is one of the loop's, and
    the release is of an endpoint idle for long enough. *)
Lemma step_idle t e s s' :
  inv s -> step t e s = Some s' -> exists t0, (t0 <= now s')%Q /\ idle_only t0 s s'.
Proof.
  intros I H. assert (I' := step_inv t e s s' I H). revert H. unfold step.
  destruct (Qle_bool (now s) t) eqn:T; [|done]. cbn [negb]. apply Qle_bool_iff in T.
  pose proof (inv_now t s T I) as (_ & _ & L1). assert (S1 : sent (with_now t s) = sent s) by done.
  assert (N1 : now (with_now t s) = t) by done. set (s1 := with_now t s) in *. clearbody s1.
  assert (From : forall t0 s2, idle_only t0 s1 s2 -> idle_only t0 s s2).
  { intros t0 s2. apply idle_after with (l := []); [by rewrite app_nil_r|]. intros ? ? X. by apply elem_of_nil in X. }
  assert (Q : forall l s2, sent s2 = (sent s1 ++ l)%list -> (forall ep lid, Release false ep lid ∉ l) -> idle_only (now s') s s2).
  { intros l s2 E N. apply From. apply (idle_after _ s1 s2 s2 l); [done|done|by apply idle_silent]. }
  assert (Nil : forall s2, sent s2 = sent s1 -> idle_only (now s') s s2) by (intros s2 E; apply From; by apply idle_silent).
  assert (U : forall ep f s, sent (upd ep f s) = sent s) by (intros ep f s2; apply (upd_frame ep f s2)).
  assert (C : forall id ep s2, sent s2 = sent s1 -> idle_only (now s') s (critical id ep s2)).
  { intros id ep s2 E. unfold critical. destruct (dget (states s2) ep) as [st|]; [|by apply Nil].
    destruct (lease_id st); [apply Nil; cbn; by rewrite U|]. apply (Q [Ensure ep (capability st)]).
    - cbn. by rewrite U, E.
    - intros ? ? X. by apply list_elem_of_singleton in X. }
  assert (Here : forall s2, idle_only (now s') s s2 -> Some s2 = Some s' -> exists t0, (t0 <= now s')%Q /\ idle_only t0 s s').
  { intros s2 X [= ->]. exists (now s'). split; [lra|done]. }
  destruct e as [id ep|id|id r|id|id|ep| | |status| |].
  - destruct (find_task _ _); [done|]. destruct (manages _ _); [|done]. apply Here. unfold arrive.
    destruct (lock_free _ _); [by apply C|by apply Nil].
  - destruct (find_task _ _) as [[i ep []]|]; try done. destruct (may_wake _ _ _); [|done]. apply Here. by apply C.
  - destruct (find_task _ _) as [[i ep []]|]; try done. apply Here. apply Nil. unfold ensure_reply. destruct r; cbn; by rewrite ?U.
  - destruct (find_task _ _) as [[i ep []]|]; try done; apply Here; by apply Nil.
  - destruct (find_task _ _) as [[i ep []]|]; try done. apply Here. apply Nil. unfold request_done. by rewrite U.
  - destruct (manages _ _); [|done]. apply Here. apply (Q [Uncounted ep]); [unfold request_done; cbn; by rewrite U|].
    intros ? ? X. by apply list_elem_of_singleton in X.
  - destruct (loop s1); try done. destruct (bool_decide _); [done|]. apply Here. by apply Nil.
  - destruct (loop s1); try done. intros [= <-]. exists t. split; [|apply From, sweep_idle].
    pose proof (quiet_sweep t (dkeys (states s1)) s1) as (_ & E & _). rewrite E, N1. lra.
  - unfold loop_ok in L1. destruct (loop s1) as [| |t0 ep lid rest| | |]; try done. intros [= <-]. exists t0.
    pose proof (quiet_heartbeat status ep s1) as (_ & E1 & _).
    pose proof (quiet_finish (sweep t0 rest) t0 ep rest (heartbeat_reply status ep s1) ltac:(intros; apply quiet_sweep)) as (_ & E2 & _).
    split; [by rewrite E2, E1|]. apply From.
    apply (idle_after t0 s1 (heartbeat_reply status ep s1) _ []); [|intros ? ? X; by apply elem_of_nil in X|by apply finish_idle; intros; apply sweep_idle].
    rewrite app_nil_r. unfold heartbeat_reply. destruct status as [z|]; [|done].
    destruct z as [|p|p]; rewrite ?U; try done. repeat (destruct p as [p|p|]; rewrite ?U; try done).
  - unfold loop_ok in L1. destruct (loop s1) as [| | |t0 rest|rest|]; try done.
    + intros [= <-]. exists t0. split; [|apply From, sweep_idle]. pose proof (quiet_sweep t0 rest s1) as (_ & E & _). by rewrite E.
    + apply Here. destruct (close_sent rest s1) as (l & E & N). by apply (Q l).
  - destruct (loop s1); try done; apply Here; destruct (close_sent (dkeys (states s1)) s1) as (l & E & N); by apply (Q l).
Qed.

Lemma active_zero ep ts x : active ep ts = 0%Z -> x ∈ ts -> t_ep x = ep -> t_pc x = AtLock.
Proof.
  intros A IN E. destruct (t_pc x) eqn:P; [done|..]; exfalso; unfold active, of_ep in A;
    (assert (B : In x (List.filter (fun t => String.eqb (t_ep t) ep && (is_pc Posting (t_pc t) || is_pc Running (t_pc t)))%bool ts))
      by (apply filter_In; split; [by apply list_elem_of_In|rewrite E, String.eqb_refl, P; done]));
    (destruct (List.filter _ ts); [done|simpl in A; lia]).
Qed.

Lemma hold_reachable endpoints hold s : reachable (manager_init endpoints hold) s -> hold_idle_s s = hold.
Proof. induction 1 as [|s s' t e R IH H]; [done|]. by rewrite (hold_step t e s s' H). Qed.

(** ** Properties *)

(** In every interleaving, at most one request of an endpoint is asking the
    dispatcher for its slot, and only while no lease is held: concurrent
    requests share one load. *)
Theorem one_load_at_a_time endpoints hold s ep :
  reachable (manager_init endpoints hold) s ->
  (length (of_ep ep (is_pc Posting) (tasks s)) <= 1)%nat
  /\ (of_ep ep (is_pc Posting) (tasks s) <> [] -> is_loaded s ep = false).
Proof.
  intros R. destruct (reachable_inv _ _ _ R) as (_ & O & _). destruct (O ep) as [P Q]. unfold posting in *. split; [lia|].
  intros NE. unfold is_loaded. destruct (dget (states s) ep) as [st|]; [|done]. destruct Q as (_ & _ & Q & _).
  rewrite Q; [done|]. destruct (of_ep ep _ _); [done|simpl; lia].
Qed.

(** C20 A lease is given back for idleness only when the endpoint has been idle for
    the whole holding time and no request is loading it or running on it,
    whatever happened while the loop was suspended on its own calls.  This is so as
    long as the endpoint's count was not lost before: neither had the leak guard
    reset it, nor had a completion been reported for a request that the manager
    never counted, as it is for one recovered from the log at a restart
    ([uncounted_completion_releases_early]). *)
Theorem idle_release_harms_nobody endpoints hold s t e s' l ep lid :
  reachable (manager_init endpoints hold) s -> step t e s = Some s' ->
  sent s' = (sent s ++ l)%list -> Release false ep lid ∈ l -> ForceReset ep ∉ sent s' -> Uncounted ep ∉ sent s' ->
  (forall x, x ∈ tasks s' -> t_ep x = ep -> t_pc x = AtLock)
  /\ exists st, dget (states s') ep = Some st /\ lease_id st = None /\ (hold <= now s' - last_activity st)%Q.
Proof.
  intros R H E IN NF NU. pose proof (reachable_inv _ _ _ R) as I. destruct (step_idle t e s s' I H) as (t0 & T & m & E2 & K).
  rewrite E in E2. apply app_inv_head in E2. subst m. destruct (K ep lid IN) as (st & G & Z & LN & D).
  destruct (step_inv t e s s' I H) as (_ & O & _). destruct (O ep) as [_ Q]. rewrite G in Q. destruct Q as (_ & _ & _ & Q).
  assert (NM : ~ miscounted ep (sent s')) by (intros [M|M]; done). specialize (Q NM). pose proof (active_nonneg ep (tasks s')) as AN. split.
  - intros x. apply active_zero. lia.
  - exists st. split_and!; [done|done|]. rewrite <- (hold_reachable endpoints hold s R), <- (hold_step t e s s' H). lra.
Qed.

Definition demo_conf : dict string OnDemandConf := [("t9", mkOD true "creative")].

Definition demo_sys (es : list (Q * Event)) : Sys :=
  default (manager_init demo_conf 60) (run es (manager_init demo_conf 60)).

Lemma run_reachable es s0 s : run es s0 = Some s -> reachable s0 s.
Proof.
  cut (forall s1, reachable s0 s1 -> run es s1 = Some s -> reachable s0 s); [intros H; apply H; constructor|].
  induction es as [|[t e] es IH]; intros s1 R; simpl; [by intros [= <-]|].
  destruct (step t e s1) as [s2|] eqn:S; [|done]. apply IH. by eapply reach_step.
Qed.

Definition demo_two : list (Q * Event) := [(1%Q, Arrive 1 "t9"); (2%Q, Arrive 2 "t9")].

Lemma one_load_at_a_time_witness :
  (length (of_ep "t9" (is_pc Posting) (tasks (demo_sys demo_two))) <= 1)%nat
  /\ (of_ep "t9" (is_pc Posting) (tasks (demo_sys demo_two)) <> [] -> is_loaded (demo_sys demo_two) "t9" = false).
Proof. apply (one_load_at_a_time demo_conf 60). apply (run_reachable demo_two). by vm_compute. Defined.

(** One request served, then the loop's tick two minutes later; the heartbeat
    is due and answered first. *)
Definition demo_idle : list (Q * Event) :=
  [(0%Q, Start); (1%Q, Arrive 1 "t9"); (30%Q, EnsureAnswer 1 (Granted (Some "L1"))); (40%Q, Done 1); (160%Q, Tick)].

(** A mark that the history does not hold, whatever its endpoint. *)
Lemma logged (l : list Call) c : forallb (fun x => match c, x with
    | ForceReset _, ForceReset _ | Uncounted _, Uncounted _ => false
    | ForceReset _, _ | Uncounted _, _ => true
    | _, _ => false
    end) l = true -> c ∉ l.
Proof. rewrite forallb_forall. intros H IN. apply list_elem_of_In in IN. specialize (H c IN). by destruct c. Qed.

Lemma idle_release_harms_nobody_witness :
  let s := demo_sys demo_idle in
  let s' := default s (step 161 (HeartbeatAnswer (Some 200%Z)) s) in
  (forall x, x ∈ tasks s' -> t_ep x = "t9" -> t_pc x = AtLock)
  /\ exists st, dget (states s') "t9" = Some st /\ lease_id st = None /\ (60 <= now s' - last_activity st)%Q.
Proof.
  intros s s'. apply (idle_release_harms_nobody demo_conf 60 s 161 (HeartbeatAnswer (Some 200%Z)) s' [Release false "t9" "L1"] "t9" "L1").
  - apply (run_reachable demo_idle). by vm_compute.
  - by vm_compute.
  - by vm_compute.
  - by left.
  - apply logged. by vm_compute.
  - apply logged. by vm_compute.
Defined.

(** The finding behind the condition: a request runs, one recovered from the log
    ends, which nobody counted, and a minute later the lease of the running request
    is given back under it. *)
Definition demo_recovered : list (Q * Event) :=
  [(0%Q, Start); (1%Q, Arrive 1 "t9"); (30%Q, EnsureAnswer 1 (Granted (Some "L1"))); (31%Q, DoneUncounted "t9"); (92%Q, Tick);
   (93%Q, HeartbeatAnswer (Some 200%Z))].

Example uncounted_completion_releases_early :
  sent (demo_sys demo_recovered) = [Ensure "t9" "creative"; Uncounted "t9"; Heartbeat "t9" "L1"; Release false "t9" "L1"]
  /\ tasks (demo_sys demo_recovered) = [mkTask 1 "t9" Running] /\ is_loaded (demo_sys demo_recovered) "t9" = false.
Proof. by vm_compute. Qed.

(** ** A lost completion cannot pin the slot *)

(** The sweep still has to visit the endpoint, or its lease is gone. *)
Definition want (t : Q) (ep : string) (rest : list string) (s : Sys) : Prop :=
  exists st, dget (states s) ep = Some st
    /\ (lease_id st = None \/ ((_STUCK_INFLIGHT_S <= t - last_activity st)%Q /\ ep ∈ rest)).

Definition pending (t : Q) (ep : string) (s : Sys) : Prop :=
  exists st, dget (states s) ep = Some st
    /\ (lease_id st = None
        \/ ((_STUCK_INFLIGHT_S <= t - last_activity st)%Q
            /\ match loop s with
               | InHeartbeat t0 e _ rest => t0 = t /\ ((e = ep /\ (inflight st <= 0)%Z) \/ ep ∈ rest)
               | InRelease t0 rest => t0 = t /\ ep ∈ rest
               | _ => False
               end)).

Lemma quiet_want t ep rest s s' : quiet_le s s' -> want t ep rest s -> want t ep rest s'.
Proof.
  intros (_ & _ & _ & _ & H) (st & G & W). specialize (H ep). rewrite G in H.
  destruct (dget (states s') ep) as [b|] eqn:G'; [|done]. destruct H as (A & L & _). exists b. split; [done|].
  destruct W as [W|[W1 W2]]; [left; destruct L; congruence|right; by rewrite A].
Qed.

Lemma quiet_gone ep s s' st :
  quiet_le s s' -> dget (states s) ep = Some st -> lease_id st = None -> exists b, dget (states s') ep = Some b /\ lease_id b = None.
Proof.
  intros (_ & _ & _ & _ & H) G N. specialize (H ep). rewrite G in H.
  destruct (dget (states s') ep) as [b|]; [|done]. destruct H as (_ & L & _). exists b. split; [done|]. destruct L; congruence.
Qed.

Lemma finish_pending t e rest s ep st :
  (forall s0, (hold_idle_s s0 <= _STUCK_INFLIGHT_S)%Q -> want t ep rest s0 -> pending t ep (sweep t rest s0)) ->
  (hold_idle_s s <= _STUCK_INFLIGHT_S)%Q -> dget (states s) ep = Some st ->
  (lease_id st = None \/ ((_STUCK_INFLIGHT_S <= t - last_activity st)%Q /\ ((e = ep /\ (inflight st <= 0)%Z) \/ ep ∈ rest))) ->
  pending t ep (finish_visit (sweep t rest) t e rest s).
Proof.
  intros IH HD G W. unfold finish_visit. destruct (dget (states s) e) as [sx|] eqn:Ge.
  2: { apply IH; [done|]. exists st. split; [done|]. destruct W as [W|[W1 [[-> _]|W2]]]; [by left|congruence|by right]. }
  destruct (bool_decide _ && _ && _)%bool eqn:C.
  - destruct (release_spec false e s sx Ge) as (R1 & R2 & _). pose proof (quiet_release false e s) as QR.
    destruct (release false e s) as [s1 b]. cbn [fst snd] in *.
    assert (W1 : want t ep rest s1).
    { destruct W as [W|[W1 [[-> W2]|W2]]].
      - apply (quiet_want _ _ _ s s1 QR). exists st. split; [done|by left].
      - exists (set_lease None sx). split; [done|by left].
      - apply (quiet_want _ _ _ s s1 QR). exists st. split; [done|by right]. }
    destruct b; [|apply IH; [by rewrite R2|done]]. destruct W1 as (b & Gb & Wb). exists b. split; [done|].
    destruct Wb as [|[? ?]]; [by left|right]. cbn. auto.
  - apply IH; [done|]. exists st. split; [done|]. destruct W as [W|[W1 [[-> W2]|W2]]]; [by left| |by right].
    left. rewrite G in Ge. injection Ge as <-. destruct (lease_id st); [|done]. exfalso.
    rewrite bool_decide_eq_true_2 in C by done. apply Z.leb_le in W2. rewrite W2 in C. cbn [andb] in C.
    apply not_true_iff_false in C. apply C, Qle_bool_iff. lra.
Qed.

Lemma sweep_pending t eps s ep :
  (hold_idle_s s <= _STUCK_INFLIGHT_S)%Q -> want t ep eps s -> pending t ep (sweep t eps s).
Proof.
  revert s. induction eps as [|e rest IH]; intros s HD W.
  { destruct W as (st & G & [W|[_ W]]); [|by apply elem_of_nil in W]. exists st. split; [done|by left]. }
  cbn [sweep]. assert (Skip : forall st, dget (states s) e = Some st -> lease_id st = None -> want t ep rest s).
  { intros st Ge N. destruct W as (st' & G & [W|[W1 [->|W2]%elem_of_cons]]); [exists st'; auto| |exists st'; auto].
    exists st. split; [done|by left]. }
  destruct (dget (states s) e) as [sx|] eqn:Ge.
  2: { apply IH; [done|]. destruct W as (st' & G & [W|[W1 [->|W2]%elem_of_cons]]); [exists st'; auto|congruence|exists st'; auto]. }
  destruct (lease_id sx) as [lid|] eqn:LE; [|apply IH; [done|by apply (Skip sx)]].
  pose proof (quiet_guard t e s) as QG. assert (HD1 : (hold_idle_s (leak_guard t e s) <= _STUCK_INFLIGHT_S)%Q)
    by (destruct QG as (_ & _ & -> & _); done).
  assert (W1 : exists st1, dget (states (leak_guard t e s)) ep = Some st1
    /\ (lease_id st1 = None \/ ((_STUCK_INFLIGHT_S <= t - last_activity st1)%Q /\ ((e = ep /\ (inflight st1 <= 0)%Z) \/ ep ∈ rest)))).
  { destruct W as (st & G & [N|[D [->|IN]%elem_of_cons]]).
    - destruct (quiet_gone ep _ _ st QG G N) as (b & Gb & Nb). eauto.
    - rewrite Ge in G. injection G as <-. unfold leak_guard. rewrite Ge.
      apply Qle_bool_iff in D as D'. rewrite D', andb_true_r. destruct (0 <? inflight sx)%Z eqn:I.
      + exists (set_inflight 0 sx). cbn [call states]. rewrite dget_upd, decide_True, Ge by done. split; [done|]. right. cbn.
        split; [done|]. left. split; [done|lia].
      + exists sx. split; [done|]. right. split; [done|]. left. split; [done|]. apply Z.ltb_ge in I. done.
    - assert (WW : want t ep rest s) by (exists st; auto). apply (quiet_want _ _ _ _ _ QG) in WW as (b & Gb & [Wb|[? ?]]); exists b; auto. }
  destruct W1 as (st1 & G1 & P1). destruct (_ && _)%bool.
  - exists st1. cbn. split; [done|]. destruct P1 as [|[? ?]]; [by left|right]. auto.
  - by apply (finish_pending t e rest _ ep st1).
Qed.

Definition is_answer (e : Event) : Prop :=
  match e with HeartbeatAnswer _ | ReleaseAnswer => True | _ => False end.

Lemma with_now_pending t1 t ep s : pending t ep s -> pending t ep (with_now t1 s).
Proof. done. Qed.

Lemma answer_pending t t1 e s s' ep :
  is_answer e -> (hold_idle_s s <= _STUCK_INFLIGHT_S)%Q -> pending t ep s -> step t1 e s = Some s' -> pending t ep s'.
Proof.
  intros A HD P. unfold step. destruct (negb _); [done|]. apply (with_now_pending t1) in P.
  assert (HD1 : (hold_idle_s (with_now t1 s) <= _STUCK_INFLIGHT_S)%Q) by done. set (s1 := with_now t1 s) in *. clearbody s1.
  destruct P as (st & G & P). destruct e as [| | | | | | | |status| |]; try done.
  - destruct (loop s1) as [| |t0 e lid rest| | |]; try done. intros [= <-].
    pose proof (quiet_heartbeat status e s1) as QH. destruct P as [N|[D [-> K]]].
    + destruct (quiet_gone ep _ _ st QH G N) as (b & Gb & Nb).
      assert (QF : quiet_le (heartbeat_reply status e s1) (finish_visit (sweep t0 rest) t0 e rest (heartbeat_reply status e s1)))
        by (apply quiet_finish; intros; apply quiet_sweep).
      destruct (quiet_gone ep _ _ b QF Gb Nb) as (c & Gc & Nc). exists c. auto.
    + pose proof QH as (_ & _ & EH & _ & QE). specialize (QE ep). rewrite G in QE.
      destruct (dget (states (heartbeat_reply status e s1)) ep) as [b|] eqn:Gb; [|done]. destruct QE as (QA & QL & QI).
      apply (finish_pending t e rest _ ep b); [intros; by apply sweep_pending|by rewrite EH|done|].
      right. rewrite QA. split; [done|]. destruct K as [[-> K]|K]; [left|by right]. split; [done|]. destruct QI as [->|[-> _]]; lia.
  - destruct (loop s1) as [| | |t0 rest|rest|] eqn:LP; try done; intros [= <-].
    + destruct P as [N|[D [-> K]]].
      * destruct (quiet_gone ep _ _ st (quiet_sweep t0 rest s1) G N) as (b & Gb & Nb). exists b. auto.
      * apply sweep_pending; [done|]. exists st. auto.
    + destruct P as [N|[D []]]. destruct (quiet_gone ep _ _ st (quiet_close rest s1) G N) as (b & Gb & Nb). exists b. auto.
Qed.

Lemma answers_pending t ep es s s' :
  Forall (fun te => is_answer te.2) es -> (hold_idle_s s <= _STUCK_INFLIGHT_S)%Q -> pending t ep s -> run es s = Some s' -> pending t ep s'.
Proof.
  intros F. revert s. induction F as [|[t1 e] es A F IH]; intros s HD P; cbn [run]; [by intros [= <-]|].
  destruct (step t1 e s) as [s2|] eqn:S; [|done]. apply IH; [by rewrite (hold_step _ _ _ _ S)|by eapply answer_pending].
Qed.

(** A lease whose endpoint has seen no activity for the stuck ceiling is gone
    when the loop's next sweep ends, whatever its in-flight count says and
    whatever the dispatcher answers meanwhile. *)
Theorem stuck_lease_is_let_go s t es s' ep st :
  run ((t, Tick) :: es) s = Some s' -> Forall (fun te => is_answer te.2) es -> loop s' = Sleeping ->
  dget (states s) ep = Some st -> (_STUCK_INFLIGHT_S <= t - last_activity st)%Q -> (hold_idle_s s <= _STUCK_INFLIGHT_S)%Q ->
  is_loaded s' ep = false.
Proof.
  intros R F LS G D HD. cbn [run] in R. destruct (step t Tick s) as [s2|] eqn:S; [|done].
  assert (H2 := hold_step _ _ _ _ S). unfold step in S. destruct (negb _); [done|].
  change (loop (with_now t s)) with (loop s) in S. destruct (loop s); try done.
  injection S as <-. assert (P : pending t ep (sweep t (dkeys (states (with_now t s))) (with_now t s))).
  { apply sweep_pending; [done|]. exists st. split; [done|]. right. split; [done|]. by eapply dget_Some_keys. }
  apply (answers_pending t ep es _ s' F) in P; [|change (states (with_now t s)) with (states s); by rewrite H2|done].
  destruct P as (b & Gb & [N|[_ K]]); [|by rewrite LS in K]. unfold is_loaded. by rewrite Gb, N.
Qed.

(** ** A sweep ends *)

(** The answers a suspended sweep can still consume. *)
Definition left_of (l : LoopPc) : nat :=
  match l with
  | InHeartbeat _ _ _ rest => 2 * length rest + 2
  | InRelease _ rest => 2 * length rest + 1
  | Closing rest => length rest + 1
  | _ => 0
  end.

Lemma finish_left k t ep rest s :
  (forall s0, (left_of (loop (k s0)) <= 2 * length rest)%nat) -> (left_of (loop (finish_visit k t ep rest s)) <= 2 * length rest + 1)%nat.
Proof.
  intros K. unfold finish_visit. assert (K' : forall s0, (left_of (loop (k s0)) <= 2 * length rest + 1)%nat) by (intros s0; specialize (K s0); lia).
  destruct (dget (states s) ep); [|apply K']. destruct (_ && _)%bool; [|apply K']. destruct (release false ep s) as [s1 []]; [cbn; lia|apply K'].
Qed.

Lemma sweep_left t eps s : (left_of (loop (sweep t eps s)) <= 2 * length eps)%nat.
Proof.
  revert s. induction eps as [|ep rest IH]; intros s; cbn [sweep length]; [done|].
  assert (IH' : forall s0, (left_of (loop (sweep t rest s0)) <= 2 * S (length rest))%nat) by (intros s0; specialize (IH s0); lia).
  destruct (dget (states s) ep) as [st|]; [|apply IH']. destruct (lease_id st) as [lid|]; [|apply IH'].
  destruct (_ && _)%bool; [cbn; lia|]. pose proof (finish_left (sweep t rest) t ep rest (leak_guard t ep s) IH). lia.
Qed.

Lemma close_left eps s : (left_of (loop (close_from eps s)) <= length eps)%nat.
Proof.
  revert s. induction eps as [|ep rest IH]; intros s; cbn [close_from length]; [done|].
  assert (IH' : forall s0, (left_of (loop (close_from rest s0)) <= S (length rest))%nat) by (intros s0; specialize (IH s0); lia).
  destruct (match dget (states s) ep with Some _ => _ | None => _ end); [|apply IH'].
  destruct (release true ep s) as [s1 []]; [cbn; lia|apply IH'].
Qed.

Lemma answer_left t e s s' : is_answer e -> step t e s = Some s' -> (left_of (loop s') < left_of (loop s))%nat.
Proof.
  intros A. unfold step. destruct (negb _); [done|]. change (loop s) with (loop (with_now t s)). set (s1 := with_now t s). clearbody s1.
  destruct e as [| | | | | | | |status| |]; try done.
  - destruct (loop s1) as [| |t0 ep lid rest| | |]; try done. intros [= <-].
    pose proof (finish_left (sweep t0 rest) t0 ep rest (heartbeat_reply status ep s1) (sweep_left t0 rest)). cbn. lia.
  - destruct (loop s1) as [| | |t0 rest|rest|]; try done; intros [= <-].
    + pose proof (sweep_left t0 rest s1). cbn. lia.
    + pose proof (close_left rest s1). cbn. lia.
Qed.

(** A sweep of the background loop ends: after a tick at most two answers of the
    dispatcher per endpoint can be awaited before the loop is asleep again. *)
Theorem sweep_terminates s t es s' :
  run ((t, Tick) :: es) s = Some s' -> Forall (fun te => is_answer te.2) es ->
  (length es <= 2 * length (states s))%nat.
Proof.
  intros R F. cbn [run] in R. destruct (step t Tick s) as [s2|] eqn:S; [|done].
  assert (L : (left_of (loop s2) <= 2 * length (states s))%nat).
  { unfold step in S. destruct (negb _); [done|]. destruct (loop (with_now t s)); try done. injection S as <-.
    pose proof (sweep_left t (dkeys (states (with_now t s))) (with_now t s)) as H. unfold dkeys in H. rewrite length_map in H. exact H. }
  assert (B : forall s0, run es s0 = Some s' -> (length es <= left_of (loop s0))%nat).
  { clear -F. induction F as [|[t1 e] es A F IH]; intros s0; cbn [run length]; [lia|].
    destruct (step t1 e s0) as [s3|] eqn:S; [|done]. intros R. apply IH in R. apply answer_left in S; [lia|done]. }
  specialize (B s2 R). lia.
Qed.

(** An answer of 200 whose body is not the expected object leaves the request
    counted for ever: no request is left, yet a lease taken later is held
    through a sweep seventeen minutes after the last activity. *)
Theorem bad_body_keeps_counting :
  exists es s, run es (manager_init demo_conf 60) = Some s /\ tasks s = [] /\ loop s = Sleeping /\ is_loaded s "t9" = true
    /\ (exists st, dget (states s) "t9" = Some st /\ inflight st = 1%Z /\ (1000 <= now s - last_activity st)%Q)
    /\ (hold_idle_s s == 60)%Q.
Proof.
  exists [(0%Q, Start); (1%Q, Arrive 1 "t9"); (2%Q, EnsureAnswer 1 BadBody); (3%Q, Arrive 2 "t9");
          (4%Q, EnsureAnswer 2 (Granted (Some "L1"))); (5%Q, Done 2); (1010%Q, Tick); (1011%Q, HeartbeatAnswer (Some 200%Z))].
  eexists. split; [vm_compute; reflexivity|]. do 3 (split; [done|]). split; [|done].
  eexists. split; [vm_compute; reflexivity|]. split; [done|]. vm_compute. congruence.
Qed.

Definition demo_stuck : Sys :=
  demo_sys [(0%Q, Start); (1%Q, Arrive 1 "t9"); (2%Q, EnsureAnswer 1 BadBody); (3%Q, Arrive 2 "t9"); (4%Q, EnsureAnswer 2 (Granted (Some "L1"))); (5%Q, Done 2)].

Lemma stuck_lease_is_let_go_witness :
  exists s', run [(1300%Q, Tick); (1301%Q, HeartbeatAnswer None); (1302%Q, ReleaseAnswer)] demo_stuck = Some s' /\ is_loaded s' "t9" = false.
Proof.
  eexists. split; [vm_compute; reflexivity|].
  eapply (stuck_lease_is_let_go demo_stuck 1300 [(1301%Q, HeartbeatAnswer None); (1302%Q, ReleaseAnswer)] _ "t9");
    [vm_compute; reflexivity|by repeat constructor|done|vm_compute; reflexivity|vm_compute; congruence|vm_compute; congruence].
Defined.

Lemma sweep_terminates_witness : (length [(1301%Q, HeartbeatAnswer None); (1302%Q, ReleaseAnswer)] <= 2 * length (states demo_stuck))%nat.
Proof.
  eapply (sweep_terminates demo_stuck 1300 [(1301%Q, HeartbeatAnswer None); (1302%Q, ReleaseAnswer)]);
    [vm_compute; reflexivity|by repeat constructor].
Defined.
