(* ===== verification/Residency.v ===== *)
(** * Residency (residency.py)

    The cached answer of the dispatcher about which models it means to keep
    loaded.  Texts of errors, kept only for a log line, are left out. *)

From Stdlib Require Import Ascii QArith Lqa Lia ZArith.
From stdpp Require Import base list strings.
From S2P Require Import Prelude PyDict PyText Json Cost.

Local Open Scope string_scope.

Definition RESIDENT : string := "resident".
Definition EVICTED : string := "evicted".
Definition UNKNOWN : string := "unknown".
Definition _STALE_S : Q := 60.

(** [url.rstrip("/")] *)
Fixpoint drop_slashes (s : string) : string :=
  match s with
  | String c s' => if Ascii.eqb c "/"%char then drop_slashes s' else s
  | EmptyString => ""
  end.

Record ResidencyReader := mkReader {
  rr_url : string;
  rr_tenants : dict string string;
  rr_intent : option (dict string string);
  rr_read_at : Q
}.

(** [ResidencyReader(endpoints)]: the tenant an endpoint declares, if any. *)
Definition reader_init (url : string) (declared : dict string string) : ResidencyReader :=
  mkReader (srev (drop_slashes (srev url)))
    (omap (fun kv => if String.eqb (strip kv.2) "" then None else Some (kv.1, strip kv.2)) declared) None 0.

Definition tracks (r : ResidencyReader) : bool := negb (bool_decide (rr_tenants r = [])).
Definition declares (r : ResidencyReader) (ep : string) : bool := dmem (rr_tenants r) ep.

(** What the read of [/status] gave: nothing, or a status and its JSON body. *)
Inductive StatusReply := ReadFailed | StatusIs (code : Z) (body : option json).

(** The map of a good answer. *)
Definition intended_of (reply : StatusReply) : option (dict string string) :=
  match reply with
  | StatusIs 200%Z (Some (JDict d)) =>
      match jget d "intended_state" with
      | JDict m => Some (map (fun kv => (kv.1, py_str kv.2)) m)
      | _ => None
      end
  | _ => None
  end.

(** [refresh()]: one read; any failure empties the cache. *)
Definition refresh (reply : StatusReply) (t : Q) (r : ResidencyReader) : ResidencyReader :=
  if bool_decide (rr_tenants r = []) then r
  else if String.eqb (rr_url r) "" then mkReader (rr_url r) (rr_tenants r) None (rr_read_at r)
  else match intended_of reply with
       | Some m => mkReader (rr_url r) (rr_tenants r) (Some m) t
       | None => mkReader (rr_url r) (rr_tenants r) None (rr_read_at r)
       end.

(** [state(endpoint)] *)
Definition residency_state (r : ResidencyReader) (ep : string) (t : Q) : option string :=
  match dget (rr_tenants r) ep with
  | None => None
  | Some tenant =>
      Some match rr_intent r with
           | None => UNKNOWN
           | Some m =>
               if Qltb _STALE_S (t - rr_read_at r) then UNKNOWN
               else match dget m tenant with
                    | Some w => if (String.eqb w RESIDENT || String.eqb w EVICTED)%bool then w else UNKNOWN
                    | None => UNKNOWN
                    end
           end
  end.

(** ** Properties *)

(** The reader after a list of refreshes, each with its time. *)
Definition refreshed (r : ResidencyReader) (h : list (Q * StatusReply)) : ResidencyReader :=
  foldl (fun r x => refresh x.2 x.1 r) r h.

Lemma refreshed_frame r h : rr_tenants (refreshed r h) = rr_tenants r /\ rr_url (refreshed r h) = rr_url r.
Proof.
  revert r. induction h as [|[t x] h IH]; intros r; [done|].
  change (refreshed r ((t, x) :: h)) with (refreshed (refresh x t r) h). destruct (IH (refresh x t r)) as [-> ->].
  unfold refresh. destruct (bool_decide _); [done|]. destruct (String.eqb _ _); [done|]. by destruct (intended_of x).
Qed.

(** An endpoint is called evicted only on the word of the dispatcher itself: its
    last reading, no more than a minute old, was a good answer that lists the
    endpoint's tenant as evicted.  A read that failed since then, or an answer
    of another shape, leaves only [unknown]. *)
Theorem evicted_only_on_fresh_word url declared h ep t :
  residency_state (refreshed (reader_init url declared) h) ep t = Some EVICTED ->
  exists h0 t0 reply m tenant, h = (h0 ++ [(t0, reply)])%list /\ intended_of reply = Some m
    /\ dget (rr_tenants (reader_init url declared)) ep = Some tenant /\ dget m tenant = Some EVICTED /\ (t - t0 <= _STALE_S)%Q.
Proof.
  unfold residency_state. destruct (refreshed_frame (reader_init url declared) h) as [ET EU]. rewrite ET.
  destruct (dget (rr_tenants (reader_init url declared)) ep) as [tenant|] eqn:G; [|done]. intros H.
  destruct h as [|[t0 reply] h0 _] using rev_ind; [done|]. exists h0, t0, reply.
  unfold refreshed in H. rewrite foldl_app in H. cbn [foldl fst snd] in H. fold (refreshed (reader_init url declared) h0) in H.
  destruct (refreshed_frame (reader_init url declared) h0) as [ET0 EU0].
  unfold refresh in H. rewrite ET0 in H. case_bool_decide as NE; [by rewrite NE in G|].
  destruct (String.eqb _ ""); [done|]. destruct (intended_of reply) as [m|]; [|done]. cbn [rr_intent rr_read_at] in H.
  exists m, tenant. destruct (Qltb_spec _STALE_S (t - t0)) as [|L]; [done|].
  split_and!; try done. destruct (dget m tenant) as [w|]; [|done]. destruct (_ || _)%bool; [|done]. by injection H as ->.
Qed.

Lemma evicted_only_on_fresh_word_witness :
  exists h0 t0 reply m tenant,
    [(3%Q, ReadFailed); (10%Q, StatusIs 200 (Some (JDict [("intended_state", JDict [("creative", JStr "evicted")])])))] = (h0 ++ [(t0, reply)])%list
    /\ intended_of reply = Some m /\ dget (rr_tenants (reader_init "http://d/" [("t9", "creative")])) "t9" = Some tenant
    /\ dget m tenant = Some EVICTED /\ (30 - t0 <= _STALE_S)%Q.
Proof. apply (evicted_only_on_fresh_word "http://d/" [("t9", "creative")]). by vm_compute. Defined.
