(* ===== verification/Keepalive.v ===== *)
(** * Prefix keep-alive (prefix_keepalive.py, health.py)

    The prefixes worth keeping warm, the countdown of other traffic on each,
    and the touches sent when it runs out.  A tracked prefix is an object the
    scheduling task holds on to while its touch is out, so it has an identity
    of its own besides its key. *)

From Stdlib Require Import Ascii QArith Lia ZArith.
From stdpp Require Import base list strings.
From S2P Require Import Prelude PyDict PyText Json Cost Sha256 Identity.

Local Open Scope string_scope.

Definition TOUCH_MAX_TOKENS : Z := 4.
Definition HIT_RATIO : Q := 9 # 10.
Definition TOUCH_USER_PREFIX : string := "keepalive".

(** ** The prefix a request rendered *)

Fixpoint leading_system (ms : list json) : list json :=
  match ms with
  | JDict d :: ms' =>
      match jget d "role" with
      | JStr r => if String.eqb r "system" then JDict d :: leading_system ms' else []
      | _ => []
      end
  | _ => []
  end.

Definition _leading_system_messages (messages : json) : list json :=
  match messages with JList ms => leading_system ms | _ => [] end.

Definition nonempty_list (j : json) : bool := match j with JList (_ :: _) => true | _ => false end.
Definition nonempty_dict (j : json) : bool := match j with JDict (_ :: _) => true | _ => false end.

(** [x if cond else None] *)
Definition keep_if (b : bool) (j : json) : json := if b then j else JNull.

Definition derive_skeleton (payload : dict string json) : option (dict string json) :=
  let hidden := match jget payload "extra_body" with JDict eb => truthy (jget eb "system") | _ => false end in
  if hidden then None else
  let system_messages := _leading_system_messages (jget payload "messages") in
  let top := jget payload "system" in
  let tools := jget payload "tools" in
  let ck := jget payload "chat_template_kwargs" in
  if (bool_decide (system_messages = []) && negb (truthy top) && negb (nonempty_list tools))%bool then None
  else Some [("system_messages", JList system_messages);
             ("top_level_system", keep_if (truthy top) top);
             ("tools", keep_if (nonempty_list tools) tools);
             ("tool_choice", jget payload "tool_choice");
             ("model", keep_if (truthy (jget payload "model")) (jget payload "model"));
             ("chat_template_kwargs", keep_if (nonempty_dict ck) ck)].

Definition skeleton_key (skeleton : dict string json) : string :=
  _digest (dumps_with "," ":" true (JDict skeleton)).

(** ** [fnmatch.fnmatch]: shell patterns *)

Inductive Glob := GStar | GAny | GLit (c : ascii) | GClass (negated : bool) (items : list (ascii * ascii)).

Definition chr_leb (a b : ascii) : bool := (N_of_ascii a <=? N_of_ascii b)%N.

(** The ranges of a bracket expression: [c-d] where two characters surround a
    dash, the single character otherwise; a reversed range is dropped. *)
Fixpoint class_items (s : string) : list (ascii * ascii) :=
  match s with
  | String c (String "-" (String d rest)) => if chr_leb c d then (c, d) :: class_items rest else class_items rest
  | String c rest => (c, c) :: class_items rest
  | EmptyString => []
  end.

(** Up to the closing bracket, and the text after it. *)
Fixpoint until_bracket (s : string) : option (string * string) :=
  match s with
  | EmptyString => None
  | String c rest =>
      if Ascii.eqb c "]" then Some ("", rest)
      else match until_bracket rest with Some (a, b) => Some (String c a, b) | None => None end
  end.

(** A closing bracket right at the start is a member. *)
Definition bracket_body (s : string) : option (string * string) :=
  match s with
  | String "]" rest => match until_bracket rest with Some (a, b) => Some (String "]" a, b) | None => None end
  | _ => until_bracket s
  end.

(** The bracket expression that follows an opening bracket, if it is closed.
    (Python would also read as negated an expression that starts with [!] only
    after a reversed range is dropped; that corner is left out.) *)
Definition bracket (s : string) : option (Glob * string) :=
  match s with
  | String "!" rest => match bracket_body rest with Some (a, b) => Some (GClass true (class_items a), b) | None => None end
  | _ => match bracket_body s with Some (a, b) => Some (GClass false (class_items a), b) | None => None end
  end.

(** [fuel] bounds the characters left. *)
Fixpoint parse_glob (fuel : nat) (s : string) : list Glob :=
  match fuel with
  | O => []
  | S fuel =>
      match s with
      | EmptyString => []
      | String "*" rest => GStar :: parse_glob fuel rest
      | String "?" rest => GAny :: parse_glob fuel rest
      | String "[" rest =>
          match bracket rest with
          | Some (g, rest') => g :: parse_glob fuel rest'
          | None => GLit "[" :: parse_glob fuel rest
          end
      | String c rest => GLit c :: parse_glob fuel rest
      end
  end.

Definition in_class (negated : bool) (items : list (ascii * ascii)) (c : ascii) : bool :=
  xorb negated (existsb (fun r => chr_leb r.1 c && chr_leb c r.2)%bool items).

Fixpoint glob_match (g : list Glob) (s : string) : bool :=
  match g with
  | [] => String.eqb s ""
  | GStar :: g' => (fix star (s : string) : bool :=
                     (glob_match g' s || match s with String _ s' => star s' | EmptyString => false end)%bool) s
  | GAny :: g' => match s with String _ s' => glob_match g' s' | EmptyString => false end
  | GLit c :: g' => match s with String d s' => (Ascii.eqb c d && glob_match g' s')%bool | EmptyString => false end
  | GClass n items :: g' => match s with String d s' => (in_class n items d && glob_match g' s')%bool | EmptyString => false end
  end.

Definition fnmatch (name pat : string) : bool := glob_match (parse_glob (String.length pat) pat) name.

(** ** The tracker *)

(** The policy of an endpoint. *)
Record KeepaliveConf := mkKC {
  kc_call_sites : list string;
  kc_trigger_tokens : Z;
  kc_max_prefixes : Z;
  kc_idle_s : Z
}.

Record TrackedPrefix := mkTP {
  tp_ref : nat;
  tp_key : string;
  tp_skeleton : dict string json;
  tp_call_site : string;
  tp_last_real_seen : Q;
  tp_approx_tokens : Z;
  tp_tokens_since_touch : Z;
  tp_touch_in_flight : bool
}.

Record TouchStats := mkTS { ts_sent : Z; ts_hit : Z; ts_missed : Z; ts_skipped : Z }.

Record Tracker := mkTracker {
  tk_by_endpoint : dict string (dict string TrackedPrefix);
  tk_stats : dict string TouchStats;
  tk_next : nat
}.

Definition new_tracker : Tracker := mkTracker [] [] 0.

Definition enabled (c : KeepaliveConf) : bool :=
  (negb (bool_decide (kc_call_sites c = [])) && (0 <? kc_trigger_tokens c)%Z)%bool.

Definition matches (c : KeepaliveConf) (call_site : string) : bool := existsb (fnmatch call_site) (kc_call_sites c).

(** [_evict]: the oldest prefixes go while there are too many. *)
Definition _evict (max_prefixes : Z) (b : dict string TrackedPrefix) : dict string TrackedPrefix :=
  if (max_prefixes <=? 0)%Z then b else drop (length b - Z.to_nat max_prefixes) b.

(** A real use of a prefix. *)
Definition refresh_entry (now : Q) (input_tokens : option Z) (e : TrackedPrefix) : TrackedPrefix :=
  mkTP (tp_ref e) (tp_key e) (tp_skeleton e) (tp_call_site e) now
    (match input_tokens with Some n => if (n =? 0)%Z then tp_approx_tokens e else n | None => tp_approx_tokens e end)
    0 (tp_touch_in_flight e).

Definition move_last (k : string) (b : dict string TrackedPrefix) : dict string TrackedPrefix :=
  match dget b k with Some e => (ddel b k ++ [(k, e)])%list | None => b end.

(** The capture: the bucket, the next identity and the key refreshed, if any. *)
Definition capture (c : KeepaliveConf) (call_site status : string) (payload : dict string json) (input_tokens : option Z) (now : Q)
    (next : nat) (b : dict string TrackedPrefix) : dict string TrackedPrefix * nat * option string :=
  if (String.eqb status "ok" && matches c call_site)%bool then
    match derive_skeleton payload with
    | None => (b, next, None)
    | Some sk =>
        let key := skeleton_key sk in
        let '(b, next) := match dget b key with
                          | Some _ => (b, next)
                          | None => (_evict (kc_max_prefixes c) (dset b key (mkTP next key sk call_site now 0 0 false)), S next)
                          end in
        (match dget b key with
         | Some e => move_last key (dset b key (refresh_entry now input_tokens e))
         | None => b
         end, next, Some key)
    end
  else (b, next, None).

(** The countdown of the others. *)
Definition add_uncached (skip : option string) (n : Z) (kv : string * TrackedPrefix) : string * TrackedPrefix :=
  let '(k, e) := kv in
  if bool_decide (Some k = skip) then kv
  else (k, mkTP (tp_ref e) (tp_key e) (tp_skeleton e) (tp_call_site e) (tp_last_real_seen e) (tp_approx_tokens e)
             (tp_tokens_since_touch e + n) (tp_touch_in_flight e)).

Definition account (skip : option string) (input_tokens cached_tokens : option Z) (b : dict string TrackedPrefix) : dict string TrackedPrefix :=
  match input_tokens, cached_tokens with
  | Some i, Some k => if (i - k <=? 0)%Z then b else map (add_uncached skip (i - k)) b
  | _, _ => b
  end.

Definition observe_completion (ep : string) (c : KeepaliveConf) (call_site : string) (payload : dict string json) (status : string)
    (input_tokens cached_tokens : option Z) (now : Q) (t : Tracker) : Tracker :=
  if negb (enabled c) then t else
  let b := default [] (dget (tk_by_endpoint t) ep) in
  let '(b, next, key) := capture c call_site status payload input_tokens now (tk_next t) b in
  mkTracker (dset (tk_by_endpoint t) ep (account key input_tokens cached_tokens b)) (tk_stats t) next.

(** ** Touches *)

Definition in_flight_count (ep : string) (t : Tracker) : Z :=
  Z.of_nat (length (List.filter (fun kv => tp_touch_in_flight kv.2) (default [] (dget (tk_by_endpoint t) ep)))).

Definition is_due (c : KeepaliveConf) (now : Q) (e : TrackedPrefix) : bool :=
  (negb (tp_touch_in_flight e) && negb (tp_tokens_since_touch e <? kc_trigger_tokens c)%Z
   && negb ((0 <? kc_idle_s c)%Z && Qltb (inject_Z (kc_idle_s c)) (now - tp_last_real_seen e)))%bool.

Definition due_for_touch (ep : string) (c : KeepaliveConf) (now : Q) (t : Tracker) : list TrackedPrefix :=
  if (kc_trigger_tokens c <=? 0)%Z then []
  else List.filter (is_due c now) (map snd (default [] (dget (tk_by_endpoint t) ep))).

Definition set_if (b : bool) (k : string) (v : json) (d : dict string json) : dict string json := if b then dset d k v else d.

Definition not_null (j : json) : bool := match j with JNull => false | _ => true end.

(** The touch: the skeleton and one user turn that no other request has. *)
Definition build_touch_payload (nonce : string) (e : TrackedPrefix) : dict string json :=
  let sk := tp_skeleton e in
  let messages := match jget sk "system_messages" with JList l => l | _ => [] end in
  let p := [("messages", JList (messages ++ [JDict [("role", JStr "user"); ("content", JStr (TOUCH_USER_PREFIX +:+ " " +:+ nonce))]])%list);
            ("max_tokens", JInt TOUCH_MAX_TOKENS); ("temperature", JFloat "0.0" 0)] in
  let p := set_if (truthy (jget sk "top_level_system")) "system" (jget sk "top_level_system") p in
  let p := set_if (truthy (jget sk "tools")) "tools" (jget sk "tools") p in
  let p := set_if (not_null (jget sk "tool_choice")) "tool_choice" (jget sk "tool_choice") p in
  let p := set_if (truthy (jget sk "model")) "model" (jget sk "model") p in
  set_if (truthy (jget sk "chat_template_kwargs")) "chat_template_kwargs" (jget sk "chat_template_kwargs") p.

(** An entry changed through a reference held elsewhere. *)
Definition on_ref (ref : nat) (f : TrackedPrefix -> TrackedPrefix) (kv : string * TrackedPrefix) : string * TrackedPrefix :=
  if bool_decide (tp_ref kv.2 = ref) then (kv.1, f kv.2) else kv.

Definition upd_ref (ref : nat) (f : TrackedPrefix -> TrackedPrefix) (t : Tracker) : Tracker :=
  mkTracker (map (fun eb => (eb.1, map (on_ref ref f) eb.2)) (tk_by_endpoint t)) (tk_stats t) (tk_next t).

Definition record_dispatch (ref : nat) (t : Tracker) : Tracker :=
  upd_ref ref (fun e => mkTP (tp_ref e) (tp_key e) (tp_skeleton e) (tp_call_site e) (tp_last_real_seen e) (tp_approx_tokens e) 0 true) t.

Inductive TouchResult := Hit | Missed | Skipped.

Definition add_result (r : TouchResult) (s : TouchStats) : TouchStats :=
  match r with
  | Hit => mkTS (ts_sent s + 1) (ts_hit s + 1) (ts_missed s) (ts_skipped s)
  | Missed => mkTS (ts_sent s + 1) (ts_hit s) (ts_missed s + 1) (ts_skipped s)
  | Skipped => mkTS (ts_sent s) (ts_hit s) (ts_missed s) (ts_skipped s + 1)
  end.

Definition record_result (ep : string) (ref : option nat) (r : TouchResult) (t : Tracker) : Tracker :=
  let t := match ref with
           | Some ref => upd_ref ref (fun e => mkTP (tp_ref e) (tp_key e) (tp_skeleton e) (tp_call_site e) (tp_last_real_seen e)
                                               (tp_approx_tokens e) (tp_tokens_since_touch e) false) t
           | None => t
           end in
  mkTracker (tk_by_endpoint t) (dset (tk_stats t) ep (add_result r (default (mkTS 0 0 0 0) (dget (tk_stats t) ep)))) (tk_next t).

(** ** The poller's side (health.py) *)

(** A touch handed to the event loop: [None] until its body has begun. *)
Record TouchTask := mkTouch { tt_ep : string; tt_entry : TrackedPrefix; tt_payload : option (dict string json) }.

Record KState := mkKState { ks_tracker : Tracker; ks_tasks : list TouchTask }.

Definition _endpoint_has_inflight_touch (ep : string) (s : KState) : bool :=
  existsb (fun t => String.eqb (tt_ep t) ep) (ks_tasks s).

(** [_schedule_prefix_keepalive_touches]: the gates in their order, the
    scheduler's snapshot and its free background slots given the touches out. *)
Definition schedule_touches (ep : string) (c : KeepaliveConf) (now : Q) (draining healthy : bool) (queued : Z)
    (background_available : Z -> Z) (s : KState) : KState :=
  let t := ks_tracker s in
  if (negb (enabled c) || draining || negb healthy || _endpoint_has_inflight_touch ep s)%bool then s
  else match due_for_touch ep c now t with
       | [] => s
       | e :: _ =>
           if (0 <? queued)%Z then mkKState (record_result ep None Skipped t) (ks_tasks s)
           else if (background_available (in_flight_count ep t) <=? 0)%Z then mkKState (record_result ep None Skipped t) (ks_tasks s)
           else mkKState t (ks_tasks s ++ [mkTouch ep e None])%list
       end.

(** The body of a touch up to its call of the backend. *)
Definition touch_begin (ref : nat) (nonce : string) (s : KState) : KState :=
  mkKState (record_dispatch ref (ks_tracker s))
    (map (fun t => if (bool_decide (tp_ref (tt_entry t) = ref) && match tt_payload t with None => true | _ => false end)%bool
                   then mkTouch (tt_ep t) (tt_entry t) (Some (build_touch_payload nonce (tt_entry t))) else t) (ks_tasks s)).

(** The verdict of an answer. *)
Definition touch_hit (prompt cached : option Z) : bool :=
  match prompt, cached with
  | Some p, Some c => ((0 <? p)%Z && Qle_bool HIT_RATIO (inject_Z c / inject_Z p))%bool
  | _, _ => false
  end.

(** The rest of its body: [None] when the call failed. *)
Definition touch_end (ref : nat) (ep : string) (outcome : option (option Z * option Z)) (s : KState) : KState :=
  let r := match outcome with Some (p, c) => if touch_hit p c then Hit else Missed | None => Missed end in
  mkKState (record_result ep (Some ref) r (ks_tracker s))
    (List.filter (fun t => negb (bool_decide (tp_ref (tt_entry t) = ref))) (ks_tasks s)).
