(* ===== verification/KeepaliveProps.v ===== *)
(** * Prefix keep-alive: its bounds, its countdown and its touches *)

From Stdlib Require Import Ascii QArith Lia ZArith.
From stdpp Require Import base list strings.
From S2P Require Import Prelude PyDict PyText Json Cost Sha256 Identity Keepalive.

Local Open Scope string_scope.

(** ** The bucket of an endpoint *)

(** An entry filed under the key of its own skeleton, which some request
    rendered. *)
Definition entry_ok (kv : string * TrackedPrefix) : Prop :=
  tp_key kv.2 = kv.1 /\ skeleton_key (tp_skeleton kv.2) = kv.1
  /\ exists payload, derive_skeleton payload = Some (tp_skeleton kv.2).

Definition bucket_ok (m : Z) (b : dict string TrackedPrefix) : Prop :=
  Forall entry_ok b /\ ((0 < m)%Z -> (Z.of_nat (length b) <= m)%Z).

Lemma dset_elem {V} (d : dict string V) k v x : x ∈ dset d k v -> x = (k, v) \/ x ∈ d.
Proof.
  induction d as [|[a b] d IH]; cbn [dset]; [rewrite list_elem_of_singleton; auto|].
  case_decide; rewrite !elem_of_cons; naive_solver.
Qed.

Lemma dset_length {V} (d : dict string V) k v :
  length (dset d k v) = if decide (k ∈ dkeys d) then length d else S (length d).
Proof.
  pose proof (dkeys_dset d k v) as H. apply (f_equal length) in H. unfold dkeys in *. rewrite length_map in H. rewrite H.
  case_decide; [by rewrite length_map|]. rewrite length_app, length_map. simpl. lia.
Qed.

Lemma ddel_elem {V} (d : dict string V) k x : x ∈ ddel d k -> x ∈ d.
Proof. intros H. eapply elem_of_submseteq; [exact H|apply ddel_incl]. Qed.

Lemma evict_ok m b : Forall entry_ok b -> bucket_ok m (_evict m b).
Proof.
  intros F. unfold _evict. destruct (m <=? 0)%Z eqn:E; [apply Z.leb_le in E|apply Z.leb_gt in E]; split; try lia; [done|by apply Forall_drop|].
  intros _. rewrite length_drop. lia.
Qed.

Lemma move_last_ok m k b : bucket_ok m b -> bucket_ok m (move_last k b).
Proof.
  intros [F L]. unfold move_last. destruct (dget b k) as [e|] eqn:G; [|done]. split.
  - apply Forall_app. rewrite Forall_forall in F |- *. split; [intros x H; apply F; by eapply ddel_elem|].
    constructor; [|constructor]. apply (F (k, e)). by apply dget_elem.
  - intros M. specialize (L M). rewrite length_app. simpl. rewrite (ddel_length b k) in L by eauto. lia.
Qed.

Lemma refresh_ok m b k e t n : bucket_ok m b -> dget b k = Some e -> bucket_ok m (dset b k (refresh_entry t n e)).
Proof.
  intros [F L] G. split.
  - apply Forall_forall. intros x H. apply dset_elem in H as [->|H]; [|by apply (proj1 (Forall_forall _ _) F)].
    apply (proj1 (Forall_forall _ _) F (k, e)). by apply dget_elem.
  - rewrite dset_length, decide_True; [done|]. by eapply dget_Some_keys.
Qed.

Lemma capture_ok c cs st p n t next b :
  bucket_ok (kc_max_prefixes c) b -> bucket_ok (kc_max_prefixes c) (capture c cs st p n t next b).1.1.
Proof.
  intros B. unfold capture. destruct (_ && _)%bool; [|done]. destruct (derive_skeleton p) as [sk|] eqn:DS; [|done].
  destruct (dget b (skeleton_key sk)) as [e|] eqn:G; cbn [fst].
  - rewrite G. apply move_last_ok. by apply refresh_ok.
  - set (b1 := _evict _ _). assert (B1 : bucket_ok (kc_max_prefixes c) b1).
    { apply evict_ok. apply Forall_forall. intros x H. apply dset_elem in H as [->|H]; [|by apply (proj1 (Forall_forall _ _) (proj1 B))].
      split_and!; [done|done|]. by exists p. }
    destruct (dget b1 (skeleton_key sk)) as [e|] eqn:G1; [|done]. apply move_last_ok. by apply refresh_ok.
Qed.

(** Changing the counters of the entries in place. *)
Lemma map_ok m f b :
  (forall kv, (f kv).1 = kv.1 /\ tp_key (f kv).2 = tp_key kv.2 /\ tp_skeleton (f kv).2 = tp_skeleton kv.2) ->
  bucket_ok m b -> bucket_ok m (map f b).
Proof.
  intros H [F L]. split; [|by rewrite length_map]. apply Forall_map. eapply Forall_impl; [exact F|]. intros kv (E1 & E2 & E3).
  unfold entry_ok. destruct (H kv) as (-> & -> & ->). by split_and!.
Qed.

Lemma account_ok m skip i k b : bucket_ok m b -> bucket_ok m (account skip i k b).
Proof.
  intros B. unfold account. destruct i as [i|], k as [k|]; try done. destruct (i - k <=? 0)%Z; [done|]. apply map_ok; [|done].
  intros [k' e]. unfold add_uncached. by case_bool_decide.
Qed.

(** ** The whole keep-alive: completions, poller passes and touches interleaved *)

Inductive KEvent :=
| KObserve (ep call_site : string) (payload : dict string json) (status : string) (input_tokens cached_tokens : option Z) (now : Q)
| KSchedule (ep : string) (now : Q) (draining healthy : bool) (queued : Z) (background_available : Z -> Z)
| KBegin (ref : nat) (nonce : string)
| KEnd (ref : nat) (ep : string) (outcome : option (option Z * option Z)).

Section Run.
Context (conf : string -> KeepaliveConf).

Definition kstep (s : KState) (e : KEvent) : KState :=
  match e with
  | KObserve ep cs p st i k now => mkKState (observe_completion ep (conf ep) cs p st i k now (ks_tracker s)) (ks_tasks s)
  | KSchedule ep now dr he q av => schedule_touches ep (conf ep) now dr he q av s
  | KBegin ref nonce => touch_begin ref nonce s
  | KEnd ref ep out => touch_end ref ep out s
  end.

Definition krun (es : list KEvent) : KState := foldl kstep (mkKState new_tracker []) es.

Definition tracker_ok (t : Tracker) : Prop :=
  Forall (fun eb => bucket_ok (kc_max_prefixes (conf eb.1)) eb.2) (tk_by_endpoint t).

Definition task_ok (t : TouchTask) : Prop :=
  entry_ok (tp_key (tt_entry t), tt_entry t)
  /\ forall p, tt_payload t = Some p -> exists nonce, p = build_touch_payload nonce (tt_entry t).

Definition kinv (s : KState) : Prop :=
  tracker_ok (ks_tracker s) /\ Forall task_ok (ks_tasks s) /\ NoDup (map tt_ep (ks_tasks s)).

Lemma bucket_of t ep : tracker_ok t -> bucket_ok (kc_max_prefixes (conf ep)) (default [] (dget (tk_by_endpoint t) ep)).
Proof.
  intros H. destruct (dget (tk_by_endpoint t) ep) as [b|] eqn:G; cbn.
  - apply (proj1 (Forall_forall _ _) H (ep, b)). by apply dget_elem.
  - split; [constructor|]. simpl. lia.
Qed.

Lemma observe_ok ep cs p st i k now t : tracker_ok t -> tracker_ok (observe_completion ep (conf ep) cs p st i k now t).
Proof.
  intros H. unfold observe_completion. destruct (negb _); [done|].
  pose proof (capture_ok (conf ep) cs st p i now (tk_next t) _ (bucket_of t ep H)) as B.
  destruct (capture _ _ _ _ _ _ _ _) as [[b next] key]. cbn [fst] in B. apply Forall_forall. intros x Hx.
  cbn [tk_by_endpoint] in Hx. apply dset_elem in Hx as [->|Hx]; [by apply account_ok|by apply (proj1 (Forall_forall _ _) H)].
Qed.

Lemma upd_ref_ok ref f t :
  (forall e, tp_key (f e) = tp_key e /\ tp_skeleton (f e) = tp_skeleton e) -> tracker_ok t -> tracker_ok (upd_ref ref f t).
Proof.
  intros F H. apply Forall_map. eapply Forall_impl; [exact H|]. intros [ep b] B. cbn in *. apply map_ok; [|done].
  intros [k e]. unfold on_ref. cbn. case_bool_decide; [|done]. cbn. destruct (F e). by split_and!.
Qed.

Lemma result_ok ep ref r t : tracker_ok t -> tracker_ok (record_result ep ref r t).
Proof. intros H. unfold record_result. destruct ref; [|done]. by apply upd_ref_ok. Qed.

Lemma kstep_inv s e : kinv s -> kinv (kstep s e).
Proof.
  intros (T & K & N). destruct e as [ep cs p st i k now|ep now dr he q av|ref nonce|ref ep out]; cbn [kstep].
  - split_and!; [by apply observe_ok|done|done].
  - unfold schedule_touches. destruct (negb (enabled (conf ep)) || _ || _ || _)%bool eqn:G; [done|].
    apply orb_false_iff in G as [_ G].
    destruct (due_for_touch ep (conf ep) now (ks_tracker s)) as [|e es] eqn:D; [done|].
    destruct (0 <? q)%Z; [split_and!; [by apply (result_ok ep None)|done|done]|].
    destruct (_ <=? 0)%Z; [split_and!; [by apply (result_ok ep None)|done|done]|]. split_and!; [done| |]; cbn [ks_tasks].
    + apply Forall_app. split; [done|]. constructor; [|constructor]. split; [|done]. cbn.
      assert (IN : e ∈ map snd (default [] (dget (tk_by_endpoint (ks_tracker s)) ep))).
      { unfold due_for_touch in D. destruct (_ <=? 0)%Z; [done|]. apply list_elem_of_In, (filter_In (is_due (conf ep) now)). rewrite D. by left. }
      apply list_elem_of_fmap in IN as ([k e'] & -> & IN). destruct (bucket_of _ ep T) as [F _].
      pose proof (proj1 (Forall_forall _ _) F _ IN) as E. cbn. destruct E as (E1 & E2 & E3). cbn in *. by rewrite E1.
    + rewrite map_app. apply NoDup_app. split_and!; [done| |apply NoDup_singleton]. intros x Hx ->%list_elem_of_singleton.
      apply list_elem_of_fmap in Hx as (t & E & Ht). unfold _endpoint_has_inflight_touch in G.
      apply not_true_iff_false in G. apply G, existsb_exists. exists t. split; [by apply list_elem_of_In|]. cbn in E. subst ep.
      apply String.eqb_refl.
  - unfold touch_begin. split_and!; cbn [ks_tracker ks_tasks]; [by apply upd_ref_ok| |].
    + apply Forall_map. eapply Forall_impl; [exact K|]. intros t [E P]. destruct (_ && _)%bool; [|by split].
      split; [done|]. intros p [= <-]. by exists nonce.
    + rewrite map_map. erewrite map_ext; [exact N|]. intros t. by destruct (_ && _)%bool.
  - unfold touch_end. split_and!; cbn [ks_tracker ks_tasks]; [by apply (result_ok ep (Some ref))| |].
    + apply Forall_forall. intros t Ht. apply list_elem_of_In, filter_In in Ht as [Ht _]. apply (proj1 (Forall_forall _ _) K).
      by apply list_elem_of_In.
    + clear K. induction (ks_tasks s) as [|t ts IH]; simpl in *; [done|]. inversion N as [|? ? N1 N2]; subst.
      destruct (negb _); simpl; [|by apply IH]. constructor; [|by apply IH]. intros H. apply N1.
      apply list_elem_of_fmap in H as (x & E & Hx). apply list_elem_of_fmap. exists x. split; [done|].
      apply list_elem_of_In, filter_In in Hx as [Hx _]. by apply list_elem_of_In.
Qed.

Lemma krun_inv es : kinv (krun es).
Proof.
  unfold krun. assert (I : kinv (mkKState new_tracker [])) by (split_and!; constructor). revert I.
  generalize (mkKState new_tracker []). induction es as [|e es IH]; intros s I; simpl; [done|]. apply IH. by apply kstep_inv.
Qed.
End Run.

(** ** A touch renders the prefix it is for *)

Lemma leading_system_idem ms u :
  leading_system (leading_system ms ++ [JDict [("role", JStr "user"); ("content", u)]])%list = leading_system ms.
Proof.
  induction ms as [|m ms IH]; [done|]. cbn [leading_system]. destruct m; try done.
  destruct (jget d "role") eqn:R; try done. destruct (String.eqb s "system") eqn:E; [|done].
  cbn [app leading_system]. by rewrite R, E, IH.
Qed.

Lemma jget_set_if b k v d x : jget (set_if b k v d) x = if (b && String.eqb x k)%bool then v else jget d x.
Proof.
  unfold set_if, jget. destruct b; [|done]. rewrite dget_dset. cbn [andb].
  destruct (String.eqb_spec x k); case_decide; subst; done.
Qed.

(** What the touch carries, key by key. *)
Lemma touch_fields nonce ms top tools tc model ck :
  let e := mkTP 0 "" [("system_messages", JList ms); ("top_level_system", top); ("tools", tools); ("tool_choice", tc);
                      ("model", model); ("chat_template_kwargs", ck)] "" 0 0 0 false in
  let p := build_touch_payload nonce e in
  jget p "extra_body" = JNull
  /\ jget p "messages" = JList (ms ++ [JDict [("role", JStr "user"); ("content", JStr (TOUCH_USER_PREFIX +:+ " " +:+ nonce))]])%list
  /\ jget p "system" = keep_if (truthy top) top /\ jget p "tools" = keep_if (truthy tools) tools
  /\ jget p "tool_choice" = tc /\ jget p "model" = keep_if (truthy model) model
  /\ jget p "chat_template_kwargs" = keep_if (truthy ck) ck.
Proof.
  cbv zeta. unfold build_touch_payload. cbn [tp_skeleton].
  change (jget _ "system_messages") with (JList ms) at 1.
  split_and!; rewrite !jget_set_if; unfold keep_if; cbn -[truthy not_null];
    repeat match goal with |- context [if (?b && false)%bool then _ else _] => rewrite (andb_false_r b) end;
    repeat match goal with |- context [if (?b && true)%bool then _ else _] => rewrite (andb_true_r b) end; try done.
  by destruct tc.
Qed.

Lemma touch_same_skeleton nonce payload e :
  derive_skeleton payload = Some (tp_skeleton e) -> derive_skeleton (build_touch_payload nonce e) = Some (tp_skeleton e).
Proof.
  unfold derive_skeleton at 1. destruct (match jget payload "extra_body" with JDict _ => _ | _ => _ end); [done|].
  set (ms := _leading_system_messages (jget payload "messages")). set (top := jget payload "system").
  set (tools := jget payload "tools"). set (ck := jget payload "chat_template_kwargs"). set (model := jget payload "model").
  set (tc := jget payload "tool_choice").
  destruct (_ && _ && _)%bool eqn:C; [done|]. intros [= SK].
  assert (MS : leading_system (ms ++ [JDict [("role", JStr "user"); ("content", JStr (TOUCH_USER_PREFIX +:+ " " +:+ nonce))]])%list = ms).
  { unfold ms, _leading_system_messages. destruct (jget payload "messages"); try done. apply leading_system_idem. }
  destruct (touch_fields nonce ms (keep_if (truthy top) top) (keep_if (nonempty_list tools) tools) tc (keep_if (truthy model) model)
              (keep_if (nonempty_dict ck) ck)) as (F1 & F2 & F3 & F4 & F5 & F6 & F7).
  assert (EB : build_touch_payload nonce e = build_touch_payload nonce (mkTP 0 "" [("system_messages", JList ms);
      ("top_level_system", keep_if (truthy top) top); ("tools", keep_if (nonempty_list tools) tools); ("tool_choice", tc);
      ("model", keep_if (truthy model) model); ("chat_template_kwargs", keep_if (nonempty_dict ck) ck)] "" 0 0 0 false))
    by (unfold build_touch_payload; cbn [tp_skeleton]; by rewrite <- SK).
  assert (NL : nonempty_list (keep_if (truthy (keep_if (nonempty_list tools) tools)) (keep_if (nonempty_list tools) tools)) = nonempty_list tools
    /\ keep_if (truthy (keep_if (nonempty_list tools) tools)) (keep_if (nonempty_list tools) tools) = keep_if (nonempty_list tools) tools)
    by (by destruct tools as [| | | | |[]|]).
  assert (NDI : nonempty_dict (keep_if (truthy (keep_if (nonempty_dict ck) ck)) (keep_if (nonempty_dict ck) ck)) = nonempty_dict ck
    /\ keep_if (truthy (keep_if (nonempty_dict ck) ck)) (keep_if (nonempty_dict ck) ck) = keep_if (nonempty_dict ck) ck)
    by (by destruct ck as [| | | | | |[]]).
  assert (TT : forall j, truthy (keep_if (truthy (keep_if (truthy j) j)) (keep_if (truthy j) j)) = truthy j
    /\ keep_if (truthy (keep_if (truthy j) j)) (keep_if (truthy j) j) = keep_if (truthy j) j).
  { intros j. unfold keep_if. destruct (truthy j) eqn:E; cbn; rewrite ?E; cbn; rewrite ?E; done. }
  rewrite EB. unfold derive_skeleton. rewrite F1, F2, F3, F4, F5, F6, F7. cbn [_leading_system_messages].
  rewrite MS. destruct NL as [-> NL2], NDI as [-> NDI2]. destruct (TT top) as [-> TT2]. destruct (TT model) as [-> TM2].
  rewrite NL2, NDI2, TT2, TM2. rewrite C. rewrite <- SK. f_equal.
  assert (K2 : forall b j, keep_if b (keep_if b j) = keep_if b j) by (by intros [] j). by rewrite !K2.
Qed.

(** ** Properties *)

(** However completions, poller passes and touches interleave, an endpoint
    tracks no more prefixes than its policy allows, and each is filed under the
    key of the prefix a real request rendered. *)
Theorem tracked_prefixes_bounded conf es ep :
  (0 < kc_max_prefixes (conf ep))%Z ->
  let b := default [] (dget (tk_by_endpoint (ks_tracker (krun conf es))) ep) in
  (Z.of_nat (length b) <= kc_max_prefixes (conf ep))%Z
  /\ Forall (fun kv => skeleton_key (tp_skeleton kv.2) = kv.1) b.
Proof.
  intros M b. destruct (krun_inv conf es) as (T & _). destruct (bucket_of conf _ ep T) as [F L]. split; [by apply L|].
  eapply Forall_impl; [exact F|]. by intros kv (_ & H & _).
Qed.

(** Every touch in flight renders the prefix it is meant to keep warm: the proxy
    would file the touch's own payload under the same key, whatever its nonce
    and in whichever shape the system prompt came. *)
Theorem touch_renders_tracked_prefix conf es t p :
  t ∈ ks_tasks (krun conf es) -> tt_payload t = Some p ->
  exists sk, derive_skeleton p = Some sk /\ sk = tp_skeleton (tt_entry t) /\ skeleton_key sk = tp_key (tt_entry t).
Proof.
  intros H P. destruct (krun_inv conf es) as (_ & K & _). destruct (proj1 (Forall_forall _ _) K t H) as [(_ & E2 & payload & E3) N].
  destruct (N p P) as [nonce ->]. exists (tp_skeleton (tt_entry t)). cbn in *. split_and!; [|done|done].
  by apply (touch_same_skeleton nonce payload).
Qed.

(** At most one touch is out per endpoint, whatever the poller and the event
    loop do. *)
Theorem one_touch_per_endpoint conf es : NoDup (map tt_ep (ks_tasks (krun conf es))).
Proof. apply krun_inv. Qed.

(** ** The countdown *)

(** A completion as the tracker sees it. *)
Record Completed := mkCompleted {
  co_call_site : string;
  co_payload : dict string json;
  co_status : string;
  co_input : option Z;
  co_cached : option Z;
  co_now : Q
}.

(** The prefix it refreshes. *)
Definition refreshes (c : KeepaliveConf) (x : Completed) : option string :=
  if (String.eqb (co_status x) "ok" && matches c (co_call_site x))%bool then skeleton_key <$> derive_skeleton (co_payload x) else None.

(** Its own uncached prompt tokens, as far as they are known. *)
Definition uncached (x : Completed) : Z :=
  match co_input x, co_cached x with Some i, Some k => Z.max 0 (i - k) | _, _ => 0 end.

Definition observed (ep : string) (c : KeepaliveConf) (xs : list Completed) (t : Tracker) : Tracker :=
  foldl (fun t x => observe_completion ep c (co_call_site x) (co_payload x) (co_status x) (co_input x) (co_cached x) (co_now x) t) t xs.

Definition bucket (ep : string) (t : Tracker) : dict string TrackedPrefix := default [] (dget (tk_by_endpoint t) ep).

Lemma drop_wf {V} n (b : dict string V) : dwf b -> dwf (drop n b).
Proof.
  unfold dwf, dkeys. intros H. rewrite <- (take_drop n b), map_app in H. by apply NoDup_app in H as (_ & _ & H).
Qed.

Lemma move_last_wf k b : dwf b -> dwf (move_last k b).
Proof.
  intros W. unfold move_last. destruct (dget b k) as [e|]; [|done]. unfold dwf, dkeys. rewrite map_app. apply NoDup_app.
  split_and!; [by apply dwf_ddel| |apply NoDup_singleton]. intros x Hx ->%list_elem_of_singleton. cbn in Hx.
  apply list_elem_of_fmap in Hx as ([k' v] & E & Hx). cbn in E. subst k'. apply elem_dget in Hx; [|by apply dwf_ddel].
  rewrite dget_ddel, decide_True in Hx by done. done.
Qed.

Lemma evict_incl m b x : x ∈ _evict m b -> x ∈ b.
Proof. unfold _evict. destruct (m <=? 0)%Z; [done|]. apply subseteq_drop. Qed.

Lemma evict_wf m b : dwf b -> dwf (_evict m b).
Proof. intros W. unfold _evict. destruct (m <=? 0)%Z; [done|by apply drop_wf]. Qed.

Lemma move_last_incl k b x : x ∈ move_last k b -> x ∈ b.
Proof.
  unfold move_last. destruct (dget b k) as [e|] eqn:G; [|done]. intros [H| ->%list_elem_of_singleton]%elem_of_app; [by eapply ddel_elem|].
  by apply dget_elem.
Qed.

(** What a capture does: the key it refreshes, the entries of the others kept
    or dropped, and a countdown of zero for its own. *)
Lemma capture_spec c cs st p i now next b b' n' key :
  capture c cs st p i now next b = (b', n', key) -> dwf b ->
  key = refreshes c (mkCompleted cs p st i None now) /\ dwf b'
  /\ (forall k e, (k, e) ∈ b' -> (Some k <> key /\ (k, e) ∈ b) \/ (Some k = key /\ tp_tokens_since_touch e = 0%Z)).
Proof.
  unfold capture, refreshes. cbn [co_status co_call_site co_payload]. intros H W.
  destruct (_ && _)%bool; [|injection H as <- <- <-; split_and!; [done|done|by left]].
  destruct (derive_skeleton p) as [sk|]; [|injection H as <- <- <-; split_and!; [done|done|by left]].
  set (key0 := skeleton_key sk) in *. cbn [fmap option_fmap option_map].
  assert (Fin : forall b1 e, dwf b1 -> dget b1 key0 = Some e -> (forall k x, k <> key0 -> (k, x) ∈ b1 -> (k, x) ∈ b) ->
    forall k x, (k, x) ∈ move_last key0 (dset b1 key0 (refresh_entry now i e)) ->
      (Some k <> Some key0 /\ (k, x) ∈ b) \/ (Some k = Some key0 /\ tp_tokens_since_touch x = 0%Z)).
  { intros b1 e W1 G IN k x M. apply move_last_incl in M. destruct (decide (k = key0)) as [->|NE].
    - right. split; [done|]. apply elem_dget in M; [|by apply dwf_dset]. rewrite dget_dset_eq in M. by injection M as <-.
    - left. split; [congruence|]. apply dset_elem in M as [[= ->]|M]; [done|]. by apply IN. }
  destruct (dget b key0) as [e|] eqn:G.
  - rewrite G in H. injection H as <- <- <-. split_and!; [done|by apply move_last_wf, dwf_dset|]. by apply Fin.
  - set (b1 := _evict _ _) in H. assert (W1 : dwf b1) by (by apply evict_wf, dwf_dset).
    assert (IN : forall k x, k <> key0 -> (k, x) ∈ b1 -> (k, x) ∈ b).
    { intros k x NE M. apply evict_incl in M. apply dset_elem in M as [[= -> _]|M]; done. }
    destruct (dget b1 key0) as [e|] eqn:G1; injection H as <- <- <-.
    + split_and!; [done|by apply move_last_wf, dwf_dset|]. by apply Fin.
    + split_and!; [done|done|]. intros k x M. left. destruct (decide (k = key0)) as [->|NE]; [|split; [congruence|by apply IN]].
      apply elem_dget in M; [congruence|done].
Qed.

Lemma account_elem skip i k b x e :
  (x, e) ∈ account skip i k b ->
  exists e0, (x, e0) ∈ b
    /\ tp_tokens_since_touch e = (tp_tokens_since_touch e0 + if bool_decide (Some x = skip) then 0 else uncached (mkCompleted "" [] "" i k 0))%Z.
Proof.
  unfold account, uncached. cbn [co_input co_cached]. destruct i as [i|], k as [k|];
    try (intros H; exists e; split; [done|]; case_bool_decide; lia).
  destruct (i - k <=? 0)%Z eqn:L; [apply Z.leb_le in L; intros H; exists e; split; [done|]; case_bool_decide; lia|]. apply Z.leb_gt in L.
  intros H. apply list_elem_of_fmap in H as ([k0 e0] & E & H). unfold add_uncached in E. exists e0.
  case_bool_decide as S; injection E as -> ->; split; try done; [rewrite bool_decide_eq_true_2 by done; lia|].
  rewrite bool_decide_eq_false_2 by done. cbn. lia.
Qed.

Lemma account_keys skip i k b : dkeys (account skip i k b) = dkeys b.
Proof.
  unfold account. destruct i, k; try done. destruct (_ <=? 0)%Z; [done|]. unfold dkeys. rewrite map_map. apply map_ext.
  intros [x e]. unfold add_uncached. by case_bool_decide.
Qed.

(** One completion, on the bucket of its endpoint. *)
Lemma observe_bucket ep c x t :
  enabled c = true -> dwf (bucket ep t) ->
  dwf (bucket ep (observed ep c [x] t))
  /\ forall k e, (k, e) ∈ bucket ep (observed ep c [x] t) ->
     (refreshes c x = Some k /\ tp_tokens_since_touch e = 0%Z)
     \/ (refreshes c x <> Some k /\ exists e0, (k, e0) ∈ bucket ep t /\ tp_tokens_since_touch e = (tp_tokens_since_touch e0 + uncached x)%Z).
Proof.
  intros EN W. unfold observed. cbn [foldl]. unfold observe_completion. rewrite EN. cbn [negb]. fold (bucket ep t).
  destruct (capture _ _ _ _ _ _ _ _) as [[b' n'] key] eqn:C. destruct (capture_spec _ _ _ _ _ _ _ _ _ _ _ C W) as (K & W' & S).
  assert (B : bucket ep (mkTracker (dset (tk_by_endpoint t) ep (account key (co_input x) (co_cached x) b')) (tk_stats t) n')
            = account key (co_input x) (co_cached x) b') by (unfold bucket; cbn; by rewrite dget_dset_eq).
  rewrite B. split; [unfold dwf; by rewrite account_keys|]. intros k e H. apply account_elem in H as (e0 & H & E).
  assert (RK : refreshes c x = key) by (rewrite K; unfold refreshes; done). rewrite RK.
  destruct (S k e0 H) as [[NE IN]|[EQ Z0]].
  - right. split; [congruence|]. exists e0. split; [done|]. rewrite bool_decide_eq_false_2 in E by done. exact E.
  - left. split; [done|]. rewrite bool_decide_eq_true_2 in E by done. lia.
Qed.

Lemma observed_app ep c xs ys t : observed ep c (xs ++ ys) t = observed ep c ys (observed ep c xs t).
Proof. unfold observed. apply foldl_app. Qed.

Lemma observed_wf ep c xs t : enabled c = true -> dwf (bucket ep t) -> dwf (bucket ep (observed ep c xs t)).
Proof.
  intros EN. revert t. induction xs as [|x xs IH]; intros t W; [done|].
  change (x :: xs) with ([x] ++ xs)%list. rewrite observed_app. apply IH. by apply observe_bucket.
Qed.

Lemma quiet_countdown ep c xs t k e :
  enabled c = true -> dwf (bucket ep t) -> Forall (fun x => refreshes c x <> Some k) xs ->
  (k, e) ∈ bucket ep (observed ep c xs t) ->
  exists e0, (k, e0) ∈ bucket ep t /\ tp_tokens_since_touch e = (tp_tokens_since_touch e0 + foldr Z.add 0 (map uncached xs))%Z.
Proof.
  intros EN. revert t. induction xs as [|x xs IH]; intros t W F H; [exists e; split; [done|simpl; lia]|].
  apply Forall_cons in F as [F1 F2]. change (x :: xs) with ([x] ++ xs)%list in H. rewrite observed_app in H.
  destruct (observe_bucket ep c x t EN W) as [W1 S]. destruct (IH _ W1 F2 H) as (e1 & H1 & E1).
  destruct (S k e1 H1) as [[R _]|[_ (e0 & H0 & E0)]]; [done|]. exists e0. split; [done|]. simpl. lia.
Qed.

(** A prefix's countdown is exactly the uncached prompt tokens that other
    requests have sent to the endpoint since the prefix was last really used,
    whatever was tracked before; a completion whose tokens are not both known
    adds nothing. *)
Theorem countdown_counts_other_traffic ep c pre x0 xs k e :
  enabled c = true -> refreshes c x0 = Some k -> Forall (fun x => refreshes c x <> Some k) xs ->
  dget (bucket ep (observed ep c (pre ++ x0 :: xs) new_tracker)) k = Some e ->
  tp_tokens_since_touch e = foldr Z.add 0%Z (map uncached xs).
Proof.
  intros EN R F G. apply dget_elem in G. rewrite observed_app in G. set (t := observed ep c pre new_tracker) in G.
  assert (W : dwf (bucket ep t)) by (apply observed_wf; [done|constructor]).
  change (x0 :: xs) with ([x0] ++ xs)%list in G. rewrite observed_app in G.
  destruct (observe_bucket ep c x0 t EN W) as [W1 S]. destruct (quiet_countdown ep c xs _ k e EN W1 F G) as (e0 & H0 & ->).
  destruct (S k e0 H0) as [[_ ->]|[N _]]; [lia|done].
Qed.

(** ** An example of a run *)

Definition demo_kc : KeepaliveConf := mkKC ["chat.*"] 100 2 0.

Definition demo_request (system : string) : dict string json :=
  [("system", JStr system); ("messages", JList [JDict [("role", JStr "user"); ("content", JStr "hi")]])].

Definition demo_done (site system : string) (i k : Z) : Completed := mkCompleted site (demo_request system) "ok" (Some i) (Some k) 0.

Lemma countdown_counts_other_traffic_witness :
  exists e, dget (bucket "t3" (observed "t3" demo_kc ([demo_done "chat.b" "B" 5 0] ++ demo_done "chat.a" "A" 9 0 :: [demo_done "batch" "C" 70 10; demo_done "chat.b" "B" 50 20]) new_tracker))
      (skeleton_key (default [] (derive_skeleton (demo_request "A")))) = Some e /\ tp_tokens_since_touch e = 90%Z.
Proof.
  eexists. split; [vm_compute; reflexivity|].
  apply (countdown_counts_other_traffic "t3" demo_kc [demo_done "chat.b" "B" 5 0] (demo_done "chat.a" "A" 9 0)
           [demo_done "batch" "C" 70 10; demo_done "chat.b" "B" 50 20] (skeleton_key (default [] (derive_skeleton (demo_request "A")))));
    [vm_compute; reflexivity..| |vm_compute; reflexivity].
  repeat constructor; vm_compute; congruence.
Defined.

Definition demo_events : list KEvent :=
  [KObserve "t3" "chat.a" (demo_request "A") "ok" (Some 9%Z) (Some 0%Z) 0; KObserve "t3" "batch" (demo_request "C") "ok" (Some 150%Z) (Some 10%Z) 1;
   KSchedule "t3" 2 false true 0 (fun n => (3 - n)%Z); KSchedule "t3" 3 false true 0 (fun n => (3 - n)%Z); KBegin 0 "beef"].

Lemma tracked_prefixes_bounded_witness :
  (Z.of_nat (length (default [] (dget (tk_by_endpoint (ks_tracker (krun (fun _ => demo_kc) demo_events))) "t3"))) <= 2)%Z
  /\ Forall (fun kv => skeleton_key (tp_skeleton kv.2) = kv.1) (default [] (dget (tk_by_endpoint (ks_tracker (krun (fun _ => demo_kc) demo_events))) "t3")).
Proof. apply (tracked_prefixes_bounded (fun _ => demo_kc) demo_events "t3"). done. Defined.

Lemma touch_renders_tracked_prefix_witness :
  exists t p sk, t ∈ ks_tasks (krun (fun _ => demo_kc) demo_events) /\ tt_payload t = Some p /\ derive_skeleton p = Some sk
    /\ sk = tp_skeleton (tt_entry t) /\ skeleton_key sk = tp_key (tt_entry t).
Proof.
  destruct (ks_tasks (krun (fun _ => demo_kc) demo_events)) as [|t l] eqn:E; [vm_compute in E; congruence|].
  assert (T : exists p, tt_payload t = Some p).
  { assert (X : match ks_tasks (krun (fun _ => demo_kc) demo_events) with t0 :: _ => match tt_payload t0 with Some _ => true | None => false end | [] => false end = true)
      by (vm_compute; reflexivity). rewrite E in X. destruct (tt_payload t) as [p|]; [by exists p|done]. }
  destruct T as [p P].
  destruct (touch_renders_tracked_prefix (fun _ => demo_kc) demo_events t p) as (sk & S1 & S2 & S3); [rewrite E; by left|done|].
  exists t, p, sk. split_and!; [by left|done|done|done|done].
Defined.
