(* ===== verification/Grammar.v ===== *)
(** * The grammar authority (grammar.py)

    The tokenizer of GBNF, the validator, the safe normalisation, the keys of
    an object grammar, the check of an answer against them and the recovery of
    an object from noisy output.  An error carries its code and rule; its prose
    is left out, and so is a token's position, which nothing reads. *)

From Stdlib Require Import Ascii Lia ZArith.
From stdpp Require Import base list strings.
From S2P Require Import Prelude PyDict PyText Json JsonRead Intent.

Local Open Scope string_scope.

Definition MAX_REPETITION_THRESHOLD : Z := 2000.
Definition bslash : ascii := ascii_of_N 92.
Definition nl : ascii := ascii_of_N 10.

Inductive ErrCode := RepetitionOverThreshold | UndefinedRule | BadRuleName | NoRoot | Unparseable | UnknownEscape.

Record GrammarError := mkGE { ge_code : ErrCode; ge_rule : option string }.

Record GrammarResult := mkGR { gr_ok : bool; gr_grammar : string; gr_errors : list GrammarError; gr_normalized : bool }.

(** ** Tokens *)

Inductive Kind := KName | KDefine | KString | KClass | KLparen | KRparen | KPipe | KOp | KRepeat | KNewline.

#[global] Instance Kind_eq_dec : EqDecision Kind.
Proof. solve_decision. Defined.

Record Tok := mkTok { k_kind : Kind; k_text : string }.

Definition is_alpha (c : ascii) : bool := (is_upper c || is_lower c)%bool.
Definition name_char (c : ascii) : bool := (is_alpha c || is_digit c || Ascii.eqb c "-")%bool.

(** The longest prefix of a class, and the rest. *)
Fixpoint span (f : ascii -> bool) (s : string) : string * string :=
  match s with
  | String c s' => if f c then let '(a, b) := span f s' in (String c a, b) else ("", s)
  | EmptyString => ("", "")
  end.

(** A literal after its opening character: its body, whether it is closed, and
    the rest; a backslash takes the next character with it. *)
Fixpoint lit_split (close : ascii) (s : string) : string * bool * string :=
  match s with
  | EmptyString => ("", false, "")
  | String c s' =>
      if Ascii.eqb c bslash then
        match s' with
        | String d s'' => let '(a, cl, b) := lit_split close s'' in (String c (String d a), cl, b)
        | EmptyString => (String c "", false, "")
        end
      else if Ascii.eqb c close then ("", true, s')
      else let '(a, cl, b) := lit_split close s' in (String c a, cl, b)
  end.

Definition lit_body (close : ascii) (s : string) : string * string :=
  let '(a, cl, b) := lit_split close s in (if cl then a +:+ String close "" else a, b).

(** The rest of the line, its newline not included. *)
Fixpoint skip_line (s : string) : string :=
  match s with
  | String c s' => if Ascii.eqb c nl then s else skip_line s'
  | EmptyString => ""
  end.

(** Through the first [}], if there is one. *)
Fixpoint through_brace (s : string) : option (string * string) :=
  match s with
  | EmptyString => None
  | String c s' =>
      if Ascii.eqb c "}" then Some (String c "", s')
      else match through_brace s' with Some (a, b) => Some (String c a, b) | None => None end
  end.

(** One round of the loop: the token it appends, if any, and the rest. *)
Definition next_token (c : ascii) (s : string) : option Tok * string :=
  if Ascii.eqb c "#" then (None, skip_line s)
  else if Ascii.eqb c nl then (Some (mkTok KNewline (String c "")), s)
  else if (Ascii.eqb c " " || Ascii.eqb c (ascii_of_N 9) || Ascii.eqb c (ascii_of_N 13))%bool then (None, s)
  else if Ascii.eqb c dquote then let '(a, b) := lit_body dquote s in (Some (mkTok KString (String c a)), b)
  else if Ascii.eqb c "[" then let '(a, b) := lit_body "]" s in (Some (mkTok KClass (String c a)), b)
  else if startswith "::=" (String c s) then (Some (mkTok KDefine "::="), sdrop 2 s)
  else if Ascii.eqb c "(" then (Some (mkTok KLparen "("), s)
  else if Ascii.eqb c ")" then (Some (mkTok KRparen ")"), s)
  else if Ascii.eqb c "|" then (Some (mkTok KPipe "|"), s)
  else if (Ascii.eqb c "*" || Ascii.eqb c "+" || Ascii.eqb c "?")%bool then (Some (mkTok KOp (String c "")), s)
  else if Ascii.eqb c "{" then
    match through_brace s with
    | Some (a, b) => (Some (mkTok KRepeat (String c a)), b)
    | None => (Some (mkTok KOp "{"), s)
    end
  else if is_alpha c then let '(a, b) := span name_char s in (Some (mkTok KName (String c a)), b)
  else (None, s).

Fixpoint tokens (fuel : nat) (s : string) : list Tok :=
  match fuel, s with
  | S fuel, String c s' =>
      let '(t, rest) := next_token c s' in
      match t with Some t => t :: tokens fuel rest | None => tokens fuel rest end
  | _, _ => []
  end.

(** The text left is a bound on the rounds. *)
Definition _tokenize (src : string) : list Tok := tokens (String.length src) src.

(** ** Rules *)

Fixpoint defined_names (ts : list Tok) : list string :=
  match ts with
  | t :: ts' =>
      match ts' with
      | u :: _ => if (bool_decide (k_kind t = KName) && bool_decide (k_kind u = KDefine))%bool then k_text t :: defined_names ts' else defined_names ts'
      | [] => []
      end
  | [] => []
  end.

Fixpoint referenced_names (ts : list Tok) : list string :=
  match ts with
  | t :: ts' =>
      if bool_decide (k_kind t = KName) then
        match ts' with
        | u :: _ => if bool_decide (k_kind u = KDefine) then referenced_names ts' else k_text t :: referenced_names ts'
        | [] => [k_text t]
        end
      else referenced_names ts'
  | [] => []
  end.

Definition _defined_and_referenced (src : string) : list string * list string :=
  (defined_names (_tokenize src), referenced_names (_tokenize src)).

(** [text[1:-1]] *)
Definition inner (s : string) : string := stake (String.length s - 2) (sdrop 1 s).

Definition _charclass_spans (src : string) : list string :=
  map (fun t => inner (k_text t)) (List.filter (fun t => bool_decide (k_kind t = KClass)) (_tokenize src)).

(** The lines of a text, each with its newline. *)
Fixpoint lines (s : string) : list string :=
  match s with
  | EmptyString => []
  | String c s' =>
      if Ascii.eqb c nl then String c "" :: lines s'
      else match lines s' with
           | l :: ls => String c l :: ls
           | [] => [String c ""]
           end
  end.

Definition blank (c : ascii) : bool := (Ascii.eqb c " " || Ascii.eqb c (ascii_of_N 9))%bool.

(** [^[ \t]*(first rest* )[ \t]*::=] on one line: the name. *)
Definition header (first rest : ascii -> bool) (line : string) : option string :=
  match (span blank line).2 with
  | String c s =>
      if first c then
        let '(a, b) := span rest s in
        if startswith "::=" (span blank b).2 then Some (String c a) else None
      else None
  | EmptyString => None
  end.

(** [_RULE_HEADER_RE] *)
Definition rule_header (line : string) : option string := header is_alpha name_char line.

Definition under_char (c : ascii) : bool := (name_char c || Ascii.eqb c "_")%bool.

(** ** Validation *)

(** [\{\s*(\d+)\s*(?:,\s*(\d+)?)?\s*\}] after its opening brace: the bounds. *)
Definition p_repetition (s : string) : option (Z * option Z * string) :=
  let '(d, s) := span is_digit (lstrip s) in
  if String.eqb d "" then None else
  let lo := (span_digits d 0).1 in
  let s := lstrip s in
  let '(hi, s) := match s with
                  | String c s' =>
                      if Ascii.eqb c "," then
                        let '(e, r) := span is_digit (lstrip s') in
                        (if String.eqb e "" then None else Some (span_digits e 0).1, r)
                      else (None, s)
                  | EmptyString => (None, s)
                  end in
  match lstrip s with
  | String c r => if Ascii.eqb c "}" then Some (lo, hi, r) else None
  | EmptyString => None
  end.

(** The bounds of every repetition, left to right. *)
Fixpoint repetitions (fuel : nat) (s : string) : list Z :=
  match fuel, s with
  | S fuel, String c s' =>
      if Ascii.eqb c "{" then
        match p_repetition s' with
        | Some (lo, hi, r) => Z.max lo (default lo hi) :: repetitions fuel r
        | None => repetitions fuel s'
        end
      else repetitions fuel s'
  | _, _ => []
  end.

Definition valid_escape (c : ascii) : bool :=
  (Ascii.eqb c bslash || Ascii.eqb c "]" || Ascii.eqb c "[" || Ascii.eqb c dquote || Ascii.eqb c "n" || Ascii.eqb c "r"
   || Ascii.eqb c "t" || Ascii.eqb c "x" || Ascii.eqb c "u" || Ascii.eqb c "U")%bool.

(** The escapes of a class the parser does not know. *)
Fixpoint bad_escapes (s : string) : list ascii :=
  match s with
  | String c s' =>
      if Ascii.eqb c bslash then
        match s' with
        | String d s'' => if valid_escape d then bad_escapes s'' else d :: bad_escapes s''
        | EmptyString => []
        end
      else bad_escapes s'
  | EmptyString => []
  end.

Definition undefined_names (src : string) : list string :=
  let '(d, r) := _defined_and_referenced src in
  isort String.leb (List.filter (fun n => negb (bool_decide (n ∈ d))) (remove_dups r)).

Definition validate (src : string) : list GrammarError :=
  let early :=
    (map (fun _ => mkGE RepetitionOverThreshold None)
       (List.filter (fun b => MAX_REPETITION_THRESHOLD <=? b)%Z (repetitions (String.length src) src))
     ++ omap (fun l => match header under_char under_char l with
                       | Some n => if has_char "_" n then Some (mkGE BadRuleName (Some n)) else None
                       | None => None
                       end) (lines src)
     ++ concat (map (fun cc => map (fun _ => mkGE UnknownEscape None) (bad_escapes cc)) (_charclass_spans src)))%list in
  let '(d, _) := _defined_and_referenced src in
  if bool_decide (d = []) then (early ++ [mkGE Unparseable None])%list
  else (early ++ (if bool_decide ("root" ∈ d) then [] else [mkGE NoRoot None])
        ++ map (fun n => mkGE UndefinedRule (Some n)) (undefined_names src))%list.

(** ** Normalisation *)

(** Every backslash-hyphen pair removed, left to right. *)
Fixpoint drop_escaped_hyphens (s : string) : string :=
  match s with
  | EmptyString => ""
  | String c s' =>
      match s' with
      | String d s'' => if (Ascii.eqb c bslash && Ascii.eqb d "-")%bool then drop_escaped_hyphens s'' else String c (drop_escaped_hyphens s')
      | EmptyString => String c ""
      end
  end.

Definition fix_class (cc : string) : string :=
  if contains (String bslash "-") cc then
    let cc := drop_escaped_hyphens cc in
    if endswith "-" cc then cc else cc +:+ "-"
  else cc.

Fixpoint fix_hyphens (fuel : nat) (s : string) : string :=
  match fuel, s with
  | S fuel, String c s' =>
      if Ascii.eqb c dquote then let '(a, b) := lit_body dquote s' in String c (a +:+ fix_hyphens fuel b)
      else if Ascii.eqb c "#" then
        let rest := skip_line s in stake (String.length s - String.length rest) s +:+ fix_hyphens fuel rest
      else if Ascii.eqb c "[" then
        let '(a, _, b) := lit_split "]" s' in "[" +:+ fix_class a +:+ "]" +:+ fix_hyphens fuel b
      else String c (fix_hyphens fuel s')
  | _, _ => ""
  end.

Definition _fix_charclass_hyphens (src : string) : string := fix_hyphens (String.length src) src.

(** The text before the first rule, and the block of each rule. *)
Fixpoint blocks (ls : list string) : string * list string :=
  match ls with
  | [] => ("", [])
  | l :: ls' =>
      let '(pre, bs) := blocks ls' in
      match rule_header l with
      | Some _ => ("", (l +:+ pre) :: bs)
      | None => (l +:+ pre, bs)
      end
  end.

Fixpoint paren_depth (depth : Z) (s : string) : bool :=
  match s with
  | EmptyString => (depth =? 0)%Z
  | String c s' =>
      if Ascii.eqb c "(" then paren_depth (depth + 1) s'
      else if Ascii.eqb c ")" then
        if ((depth - 1 =? 0)%Z && negb (String.eqb s' ""))%bool then false else paren_depth (depth - 1) s'
      else paren_depth depth s'
  end.

Definition _is_single_paren_group (body : string) : bool :=
  (startswith "(" body && endswith ")" body && paren_depth 0 body)%bool.

(** A multi-line right-hand side is put in parentheses. *)
Definition wrap_block (block : string) : string :=
  let at_ := default 0%nat (sfind "::=" block) in
  let head := stake (at_ + 3) block in
  let rhs := sdrop (at_ + 3) block in
  let stripped := rstrip rhs in
  let trailer := sdrop (String.length stripped) rhs in
  let body := strip stripped in
  if (contains (String nl "") body && negb (_is_single_paren_group body) && negb (String.eqb body ""))%bool
  then head +:+ " (" +:+ String nl body +:+ String nl ")" +:+ trailer
  else block.

Definition normalize (src : string) : string :=
  let src := _fix_charclass_hyphens src in
  let '(pre, bs) := blocks (lines src) in
  pre +:+ sjoin (map wrap_block bs).

Definition normalize_and_validate (src : string) : GrammarResult :=
  if String.eqb (strip src) "" then mkGR false src [mkGE Unparseable None] false
  else
    let normalized := normalize src in
    let errors := validate normalized in
    let ok := bool_decide (length errors = 0%nat) in
    mkGR ok (if ok then normalized else src) errors (negb (String.eqb normalized src)).

(** ** The keys of an object grammar *)

Definition key_char (c : ascii) : bool := (is_alpha c || is_digit c || Ascii.eqb c "_")%bool.

(** A JSON key in a GBNF literal: a name between escaped quotes. *)
Definition key_literal (s : string) : option string :=
  if startswith (String bslash (String dquote "")) s then
    let '(a, b) := span key_char (sdrop 2 s) in
    if (negb (String.eqb a "") && startswith (String bslash (String dquote "")) b)%bool then Some a else None
  else None.

(** What follows the first [::=]. *)
Definition after_define (block : string) : string :=
  match sfind "::=" block with Some i => sdrop (i + 3) block | None => block end.

Definition root_object_keys (src : string) : list string :=
  match List.find (fun b => bool_decide (rule_header b = Some "root")) (blocks (lines src)).2 with
  | None => []
  | Some b => omap (fun t => if bool_decide (k_kind t = KString) then key_literal (inner (k_text t)) else None) (_tokenize (after_define b))
  end.

(** ** Answers *)

Inductive Conformance :=
| ConformsNonObject | Conforms
| Fenced | ForbiddenField (f : string) | NotJson | NotObject | UnexpectedKeys (ks : list string).

Definition conforms (c : Conformance) : bool := match c with Conforms | ConformsNonObject => true | _ => false end.

Section Answers.
Context (float_text : string -> string).

Definition verify_conformance (output grammar : string) (forbid_field : option string) : Conformance :=
  let s := strip output in
  let forbidden := match forbid_field with Some f => if String.eqb f "" then None else Some f | None => None end in
  if startswith "`" s then Fenced
  else match root_object_keys grammar with
       | [] => match forbidden with
               | Some f => if contains f s then ForbiddenField f else ConformsNonObject
               | None => ConformsNonObject
               end
       | keys =>
           match loads float_text s with
           | None => NotJson
           | Some (JDict obj) =>
               match forbidden with
               | Some f =>
                   if dmem obj f then ForbiddenField f
                   else match List.filter (fun k => negb (bool_decide (k ∈ keys))) (dkeys obj) with
                        | [] => Conforms
                        | extra => UnexpectedKeys (isort String.leb extra)
                        end
               | None => match List.filter (fun k => negb (bool_decide (k ∈ keys))) (dkeys obj) with
                         | [] => Conforms
                         | extra => UnexpectedKeys (isort String.leb extra)
                         end
               end
           | Some _ => NotObject
           end
       end.

(** The first object in the text whose keys are all allowed. *)
Fixpoint first_object (allowed : list string) (text : string) : option (dict string json) :=
  match text with
  | EmptyString => None
  | String c rest =>
      if Ascii.eqb c "{" then
        match raw_decode float_text text with
        | Some (JDict ((_ :: _) as d), _) =>
            if forallb (fun k => bool_decide (k ∈ allowed)) (dkeys d) then Some d else first_object allowed rest
        | _ => first_object allowed rest
        end
      else first_object allowed rest
  end.

Definition recover_structured_object (output : string) (grammar : option string) (allowed_keys : option (list string)) : option string :=
  let allowed := match allowed_keys, grammar with
                 | Some ks, _ => ks
                 | None, Some g => root_object_keys g
                 | None, None => []
                 end in
  match allowed with
  | [] => None
  | _ => match first_object allowed output with Some d => Some (dumps_raw (JDict d)) | None => None end
  end.
End Answers.

(** A grammar of two rules, and its keys. *)
Definition demo_grammar : string :=
  "root ::= " +:+ String dquote ("{" +:+ String dquote (" " +:+ String dquote (String bslash (String dquote ("verdict" +:+ String bslash (String dquote (String dquote (" ws val" +:+ String nl ("val ::= [0-9]+" +:+ String nl ("ws ::= [ ]?" +:+ String nl "")))))))))).

Example demo_grammar_keys : root_object_keys demo_grammar = ["verdict"].
Proof. by vm_compute. Qed.

Example demo_grammar_ok : gr_ok (normalize_and_validate demo_grammar) = true.
Proof. by vm_compute. Qed.
