(* ===== verification/GrammarProps.v ===== *)
(** * The grammar authority: what is dispatched, and what is recovered *)

From Stdlib Require Import Ascii Lia ZArith Permutation.
From stdpp Require Import base list strings.
From S2P Require Import Prelude PyDict PyText Json JsonRead JsonRound Grammar.

Local Open Scope string_scope.

(** ** The tokenizer ends *)

Lemma span_length f s : (String.length (span f s).2 <= String.length s)%nat.
Proof.
  induction s as [|c s IH]; simpl; [lia|]. destruct (f c); [|simpl; lia]. destruct (span f s) as [a b]. simpl in *. lia.
Qed.

Lemma lit_split_length close s : (String.length (lit_split close s).2 <= String.length s)%nat.
Proof.
  assert (H : forall n s, (String.length s <= n)%nat -> (String.length (lit_split close s).2 <= String.length s)%nat).
  { intros n. induction n as [|n IH]; intros s0 L; destruct s0 as [|c s0]; simpl in *; try lia.
    destruct (Ascii.eqb c bslash).
    - destruct s0 as [|d s0]; simpl in *; [lia|]. specialize (IH s0 ltac:(lia)). destruct (lit_split close s0) as [[a cl] b]. simpl in *. lia.
    - destruct (Ascii.eqb c close); simpl; [lia|]. specialize (IH s0 ltac:(lia)). destruct (lit_split close s0) as [[a cl] b]. simpl in *. lia. }
  by apply (H (String.length s)).
Qed.

Lemma lit_body_length close s : (String.length (lit_body close s).2 <= String.length s)%nat.
Proof. pose proof (lit_split_length close s) as H. unfold lit_body. destruct (lit_split close s) as [[a cl] b]. exact H. Qed.

Lemma skip_line_length s : (String.length (skip_line s) <= String.length s)%nat.
Proof. induction s as [|c s IH]; simpl; [lia|]. destruct (Ascii.eqb c nl); simpl; lia. Qed.

Lemma through_brace_length s a b : through_brace s = Some (a, b) -> (String.length b <= String.length s)%nat.
Proof.
  revert a b. induction s as [|c s IH]; intros a b; simpl; [done|]. destruct (Ascii.eqb c "}"); [intros [= <- <-]; lia|].
  destruct (through_brace s) as [[a' b']|]; [|done]. intros [= <- <-]. specialize (IH _ _ eq_refl). lia.
Qed.

Lemma sdrop_length n s : (String.length (sdrop n s) <= String.length s)%nat.
Proof. revert s. induction n as [|n IH]; intros [|c s]; simpl; try lia. specialize (IH s). lia. Qed.

Lemma next_token_length c s : (String.length (next_token c s).2 <= String.length s)%nat.
Proof.
  unfold next_token. pose proof (lit_body_length dquote s) as L1. pose proof (lit_body_length "]" s) as L2.
  pose proof (span_length name_char s) as L3.
  destruct (lit_body dquote s) as [a1 b1], (lit_body "]" s) as [a2 b2], (span name_char s) as [a3 b3]. cbn [snd] in *.
  repeat match goal with
  | |- context [if ?b then _ else _] => destruct b
  end; cbn [snd]; try lia; [apply skip_line_length|apply sdrop_length|].
  destruct (through_brace s) as [[a b]|] eqn:T; [by eapply through_brace_length|done].
Qed.

Lemma tokens_fuel n m s : (String.length s <= n)%nat -> (String.length s <= m)%nat -> tokens n s = tokens m s.
Proof.
  revert m s. induction n as [|n IH]; intros m [|c s] L M; destruct m as [|m]; cbn [tokens String.length] in *; try lia; try done.
  pose proof (next_token_length c s) as N. destruct (next_token c s) as [t rest]. cbn [snd] in N.
  destruct t; [f_equal|]; apply IH; lia.
Qed.

(** ** Objects in a text *)

Section Recover.
Context (float_text : string -> string).

Lemma first_object_spec allowed text d :
  first_object float_text allowed text = Some d ->
  exists pre used post, text = pre ++ used ++ post /\ raw_decode float_text used = Some (JDict d, "")
    /\ d <> [] /\ Forall (fun k => k ∈ allowed) (dkeys d) /\ jwf (JDict d) = true.
Proof.
  induction text as [|c rest IH]; [done|]. cbn [first_object].
  assert (Next : first_object float_text allowed rest = Some d -> exists pre used post, String c rest = pre ++ used ++ post
    /\ raw_decode float_text used = Some (JDict d, "") /\ d <> [] /\ Forall (fun k => k ∈ allowed) (dkeys d) /\ jwf (JDict d) = true).
  { intros H. destruct (IH H) as (pre & used & post & -> & R). exists (String c pre), used, post. split; [done|exact R]. }
  destruct (Ascii.eqb c "{") eqn:C; [|exact Next]. apply Ascii.eqb_eq in C as ->.
  destruct (raw_decode float_text (String "{" rest)) as [[j post]|] eqn:R; [|exact Next].
  destruct j as [| | | | | |[|x l]]; try exact Next. destruct (forallb _ _) eqn:FA; [|exact Next]. intros [= <-].
  destruct (raw_decode_split _ _ _ _ R) as (used & E & NE & D). exists "", used, post. split_and!; [done|done|done| |].
  - apply Forall_forall. intros k Hk. rewrite forallb_forall in FA. specialize (FA k). rewrite bool_decide_eq_true in FA. apply FA.
    by apply list_elem_of_In.
  - destruct used as [|u used]; [done|]. injection E as <- E. apply (loads_wf float_text (String "{" used)).
    unfold loads. change (skip_ws (String "{" used)) with (String "{" used). by rewrite D.
Qed.

Lemma raw_decode_two_braces s : raw_decode float_text (String "{" (String "{" s)) = None.
Proof. done. Qed.

(** Text without an opening brace is passed over. *)
Lemma first_object_skip allowed junk text :
  sforall (fun c => negb (Ascii.eqb c "{")) junk = true ->
  first_object float_text allowed (junk ++ text) = first_object float_text allowed text.
Proof.
  induction junk as [|c junk IH]; [done|]. cbn [sforall]. intros [H1 H2]%andb_true_iff.
  change (String c junk ++ text) with (String c (junk ++ text)). cbn [first_object].
  apply negb_true_iff in H1. rewrite H1. by apply IH.
Qed.

(** [n] opening braces. *)
Fixpoint braces (n : nat) : string := match n with O => "" | S n => String "{" (braces n) end.

Lemma dumps_raw_head d : exists s, dumps_raw (JDict d) = String "{" (s ++ "}").
Proof. eexists. reflexivity. Qed.

Lemma first_object_braces allowed n s :
  first_object float_text allowed (braces n ++ String "{" s) = first_object float_text allowed (String "{" s).
Proof.
  induction n as [|n IH]; [done|]. change (braces (S n) ++ String "{" s) with (String "{" (braces n ++ String "{" s)).
  assert (H : exists r, braces n ++ String "{" s = String "{" r) by (destruct n; eexists; reflexivity). destruct H as [r H].
  cbn [first_object]. rewrite H, raw_decode_two_braces, <- H. exact IH.
Qed.

Lemma first_object_here allowed d t :
  d <> [] -> Forall (fun k => k ∈ allowed) (dkeys d) -> jwf (JDict d) = true -> floats_ok float_text (JDict d) ->
  first_object float_text allowed (dumps_raw (JDict d) ++ t) = Some d.
Proof.
  intros NE F W FO. pose proof (decodes_raw float_text d t W FO) as D. destruct (dumps_raw_head d) as [s E]. rewrite E in *.
  change (String "{" (s ++ "}") ++ t) with (String "{" ((s ++ "}") ++ t)) in *. cbn [first_object]. rewrite D.
  destruct d as [|x d]; [done|]. destruct (forallb _ _) eqn:FA; [done|]. exfalso. apply not_true_iff_false in FA. apply FA.
  apply forallb_forall. intros k Hk. apply bool_decide_eq_true. rewrite Forall_forall in F. apply F. by apply list_elem_of_In.
Qed.

Lemma strip_object d : strip (dumps_raw (JDict d)) = dumps_raw (JDict d).
Proof.
  destruct (dumps_raw_head d) as [s ->]. unfold strip. rewrite lstrip_id by done. unfold rstrip.
  change (String "{" (s ++ "}")) with (String "{" s ++ "}"). rewrite srev_distr. change (srev "}") with (String "}" "").
  change (String "}" "" ++ srev (String "{" s)) with (String "}" (srev (String "{" s))). rewrite lstrip_id by done.
  rewrite srev_cons, srev_involutive. done.
Qed.

Lemma filter_allowed (ks l : list string) :
  Forall (fun k => k ∈ ks) l -> List.filter (fun k => negb (bool_decide (k ∈ ks))) l = [].
Proof. induction 1 as [|x l H F IH]; simpl; [done|]. by rewrite bool_decide_eq_true_2. Qed.
End Recover.

(** An object with the grammar's keys only passes the egress check. *)
Lemma object_conforms float_text d grammar forbid k0 ks :
  root_object_keys grammar = k0 :: ks -> Forall (fun k => k ∈ k0 :: ks) (dkeys d) ->
  jwf (JDict d) = true -> floats_ok float_text (JDict d) -> (forall f, forbid = Some f -> f ∉ k0 :: ks) ->
  verify_conformance float_text (dumps_raw (JDict d)) grammar forbid = Conforms.
Proof.
  intros RK F W FL NF. pose proof (strip_object d) as SO. pose proof (loads_raw float_text _ W FL) as LD.
  assert (ST : startswith "`" (dumps_raw (JDict d)) = false) by (destruct (dumps_raw_head d) as [s ->]; done).
  revert SO LD ST. generalize (dumps_raw (JDict d)). intros o SO LD ST. unfold verify_conformance. rewrite SO, RK, LD, ST.
  rewrite (filter_allowed (k0 :: ks) (dkeys d)) by done.
  destruct forbid as [f|]; [|done]. destruct (String.eqb f ""); [done|]. destruct (dmem d f) eqn:DM; [|done]. exfalso.
  unfold dmem in DM. destruct (dget d f) as [v|] eqn:G; [|done]. apply (NF f eq_refl). rewrite Forall_forall in F. apply F.
  by eapply dget_Some_keys.
Qed.

(** ** Properties *)

(** What noisy-output recovery returns conforms to the grammar it was recovered
    for: it is the text of an object that stands in the output, it has the
    grammar's keys only, and the egress check accepts it, also when a field the
    grammar does not emit is forbidden. *)
Theorem recovered_object_conforms float_text output grammar forbid out :
  recover_structured_object float_text output (Some grammar) None = Some out ->
  (forall f, forbid = Some f -> f ∉ root_object_keys grammar) ->
  exists d pre used post, out = dumps_raw (JDict d) /\ output = pre ++ used ++ post /\ raw_decode float_text used = Some (JDict d, "")
    /\ (floats_ok float_text (JDict d) -> verify_conformance float_text out grammar forbid = Conforms).
Proof.
  unfold recover_structured_object. destruct (root_object_keys grammar) as [|k0 ks] eqn:RK; [done|].
  destruct (first_object float_text (k0 :: ks) output) as [d|] eqn:FO; [|done]. intros [= <-] NF.
  destruct (first_object_spec _ _ _ _ FO) as (pre & used & post & E & D & NE & F & W). exists d, pre, used, post. do 3 (split; [done|]).
  intros FL. exact (object_conforms float_text d grammar forbid k0 ks RK F W FL NF).
Qed.

(** A conforming object behind the noise the module names (any text without a
    brace, then any number of stray opening braces) is recovered, whatever
    follows it. *)
Theorem stray_braces_recovered float_text junk n d tail ks :
  sforall (fun c => negb (Ascii.eqb c "{")) junk = true ->
  d <> [] -> Forall (fun k => k ∈ ks) (dkeys d) -> jwf (JDict d) = true -> floats_ok float_text (JDict d) ->
  recover_structured_object float_text (junk ++ braces n ++ dumps_raw (JDict d) ++ tail) None (Some ks) = Some (dumps_raw (JDict d)).
Proof.
  intros J NE F W FL. unfold recover_structured_object. destruct ks as [|k0 ks].
  { destruct d as [|x d]; [done|]. apply Forall_cons in F as [F _]. by apply elem_of_nil in F. }
  rewrite first_object_skip by done. pose proof (first_object_here float_text (k0 :: ks) d tail NE F W FL) as H.
  destruct (dumps_raw_head d) as [s E]. rewrite E in *.
  change (String "{" (s ++ "}") ++ tail) with (String "{" ((s ++ "}") ++ tail)) in *. rewrite first_object_braces, H. by rewrite E.
Qed.

(** A grammar is dispatched only when it is closed: it has a root rule, every
    rule it uses is defined, every repetition is under the engine's threshold,
    every escape in a class is one the engine knows, and no rule name carries
    an underscore.  Any other grammar comes back as the caller wrote it, with
    an error. *)
Theorem dispatched_grammar_closed src :
  let r := normalize_and_validate src in
  let g := gr_grammar r in
  if gr_ok r then
    g = normalize src /\ "root" ∈ (_defined_and_referenced g).1
    /\ (forall n, n ∈ (_defined_and_referenced g).2 -> n ∈ (_defined_and_referenced g).1)
    /\ Forall (fun b => (b < MAX_REPETITION_THRESHOLD)%Z) (repetitions (String.length g) g)
    /\ Forall (fun cc => bad_escapes cc = []) (_charclass_spans g)
    /\ Forall (fun l => forall n, header under_char under_char l = Some n -> has_char "_" n = false) (lines g)
  else g = src /\ gr_errors r <> [].
Proof.
  cbv zeta. unfold normalize_and_validate. destruct (String.eqb (strip src) ""); [done|]. cbn [gr_ok gr_grammar gr_errors].
  case_bool_decide as L; [|split; [done|by intros E; rewrite E in L]]. set (g := normalize src) in *. clearbody g.
  apply nil_length_inv in L. unfold validate in L. destruct (_defined_and_referenced g) as [d r] eqn:DR. cbn [fst snd].
  case_bool_decide as DE; [by apply app_nil in L as [_ L]|].
  apply app_nil in L as [L0 [L1 L2]%app_nil]. apply app_nil in L0 as [L3 [L4 L5]%app_nil].
  split_and!; [done|by case_bool_decide| | | |].
  - intros n Hn. destruct (decide (n ∈ d)) as [|N]; [done|]. exfalso. unfold undefined_names in L2. rewrite DR in L2.
    apply map_eq_nil in L2. assert (P : n ∈ isort String.leb (List.filter (fun n => negb (bool_decide (n ∈ d))) (remove_dups r))).
    { rewrite isort_perm. apply list_elem_of_In, filter_In. split; [by apply list_elem_of_In, elem_of_remove_dups|].
      by rewrite bool_decide_eq_false_2. }
    rewrite L2 in P. by apply elem_of_nil in P.
  - apply map_eq_nil in L3. apply Forall_forall. intros b Hb. destruct (Z.ltb_spec b MAX_REPETITION_THRESHOLD) as [|GE]; [done|]. exfalso.
    assert (IN : In b (List.filter (fun b => MAX_REPETITION_THRESHOLD <=? b)%Z (repetitions (String.length g) g))).
    { apply filter_In. split; [by apply list_elem_of_In|lia]. }
    by rewrite L3 in IN.
  - apply Forall_forall. intros cc Hc. assert (M : map (fun _ : ascii => mkGE UnknownEscape None) (bad_escapes cc) = []).
    { induction (_charclass_spans g) as [|x l IH]; [by apply elem_of_nil in Hc|]. cbn [map concat] in L5. apply app_nil in L5 as [E L5].
      apply elem_of_cons in Hc as [->|Hc]; [done|by apply IH]. }
    by apply map_eq_nil in M.
  - apply Forall_forall. intros l Hl n Hn. destruct (has_char "_" n) eqn:U; [|done]. exfalso.
    assert (IN : mkGE BadRuleName (Some n) ∈ omap (fun l => match header under_char under_char l with
                       | Some n => if has_char "_" n then Some (mkGE BadRuleName (Some n)) else None
                       | None => None
                       end) (lines g)) by (apply list_elem_of_omap; exists l; split; [done|by rewrite Hn, U]).
    rewrite L4 in IN. by apply elem_of_nil in IN.
Qed.

(** The tokenizer's loop ends within one round per character: more fuel than
    the length of the text changes nothing. *)
Theorem tokenizer_terminates src n : (String.length src <= n)%nat -> tokens n src = _tokenize src.
Proof. intros H. by apply tokens_fuel. Qed.

(** The hyphen rewrite is not set-preserving: it does not see that a backslash
    may itself be escaped, so the range from a backslash to [n] becomes the
    class of a newline and a hyphen, and the grammar still validates. *)
Theorem hyphen_rewrite_misreads_escaped_backslash :
  _fix_charclass_hyphens (String "[" (String bslash (String bslash "-n]"))) = String "[" (String bslash "n-]")
  /\ gr_ok (normalize_and_validate ("root ::= " +:+ String "[" (String bslash (String bslash "-n]")))) = true.
Proof. split; by vm_compute. Qed.

Definition demo_output : string := "ok: {" +:+ "{" +:+ dumps_raw (JDict [("verdict", JInt 7)]) +:+ " done".

Lemma recovered_object_conforms_witness :
  exists out d pre used post, recover_structured_object id demo_output (Some demo_grammar) None = Some out
    /\ out = dumps_raw (JDict d) /\ demo_output = pre ++ used ++ post /\ raw_decode id used = Some (JDict d, "")
    /\ (floats_ok id (JDict d) -> verify_conformance id out demo_grammar (Some "reason") = Conforms).
Proof.
  eexists. destruct (recovered_object_conforms id demo_output demo_grammar (Some "reason") (dumps_raw (JDict [("verdict", JInt 7)])))
    as (d & pre & used & post & H1 & H2 & H3 & H4).
  - by vm_compute.
  - intros f [= <-]. rewrite demo_grammar_keys. by intros H%list_elem_of_singleton.
  - exists d, pre, used, post. split_and!; [by vm_compute|exact H1|exact H2|exact H3|exact H4].
Defined.

Lemma stray_braces_recovered_witness :
  recover_structured_object id ("ok: " ++ braces 2 ++ dumps_raw (JDict [("verdict", JInt 7)]) ++ " done") None (Some ["verdict"; "why"])
  = Some (dumps_raw (JDict [("verdict", JInt 7)])).
Proof.
  apply (stray_braces_recovered id "ok: " 2 [("verdict", JInt 7)] " done" ["verdict"; "why"]); [by vm_compute|done| |by vm_compute|by repeat split].
  constructor; [by left|constructor].
Defined.

Lemma tokenizer_terminates_witness : tokens 1000 demo_grammar = _tokenize demo_grammar.
Proof. apply tokenizer_terminates. vm_compute. lia. Defined.
