(* ===== verification/Effort.v ===== *)
(** * How hard a model is asked to think (correction.py, request side)

    The corrections that write a request's reasoning controls: the caller's
    switch read under every spelling, the effort and the budget of an endpoint
    that always reasons, the [thinking:] opt-in, and the map of effort words.
    They run in the order of [shape_reasoning], each on the payload the last one
    left.  A request is the scheduler's [QueuedRequest]; what an endpoint
    declares about reasoning is a [Shaping]. *)

From Stdlib Require Import QArith Lia ZArith.
From stdpp Require Import base list strings.
From S2P Require Import Prelude PyDict PyText Config Json ThinkSwitch ThinkBleed ThinkStats Cost Queue JsonRead Intent Grammar.

Local Open Scope string_scope.

(** [d.setdefault(k, v)] *)
Definition setdefault {V} (d : dict string V) (k : string) (v : V) : dict string V :=
  if dmem d k then d else dset d k v.

(** The fields of [EndpointConfig] that shape a request. *)
Record Shaping := mkShaping {
  sh_class : string;
  sh_role : string;
  thinking_kwargs : list string;
  reasoning_effort : string;
  thinking_effort : string;
  forces_reasoning : bool;
  sh_forced_budget : Z;
  sh_thinking_budget : Z;
  reasoning_effort_map : dict string string;
  disable_any_whitespace : bool;
  not_implemented : list string;
  mislabels_truncated_tool_calls : bool
}.

(** A request with its payload and the marks of the two schema guards replaced. *)
Definition reshaped (r : QueuedRequest) (p : dict string json) (stripped : bool) (schema : option json) (name : string)
  : QueuedRequest :=
  {| r_request_id := r_request_id r; r_agent_id := r_agent_id r; r_endpoint := r_endpoint r;
     r_priority := r_priority r; r_band := r_band r; r_call_site := r_call_site r;
     r_payload_type := r_payload_type r; r_payload := p;
     r_timeout_deadline := r_timeout_deadline r; r_enqueued_at := r_enqueued_at r;
     r_estimated_cost_ss := r_estimated_cost_ss r; r_est_input_tokens := r_est_input_tokens r;
     r_session_id := r_session_id r; r_turn_id := r_turn_id r; r_caller_id := r_caller_id r;
     r_declared_agent_id := r_declared_agent_id r; r_asserted_by_key_id := r_asserted_by_key_id r;
     r_timeout_s := r_timeout_s r; r_stream := r_stream r;
     r_ctx_per_slot_at_admission := r_ctx_per_slot_at_admission r;
     r_json_object_stripped := stripped; r_forced_tool_schema := schema; r_forced_tool_name := name;
     r_deadline_is_default := r_deadline_is_default r; r_degraded_from := r_degraded_from r;
     r_spilled_from := r_spilled_from r; r_requested := r_requested r; r_routed_to := r_routed_to r;
     r_allow_degrade := r_allow_degrade r; r_allow_spill := r_allow_spill r;
     r_no_store_outcome := r_no_store_outcome r |}.

(** [req.payload = p] *)
Definition with_payload (r : QueuedRequest) (p : dict string json) : QueuedRequest :=
  reshaped r p (r_json_object_stripped r) (r_forced_tool_schema r) (r_forced_tool_name r).

Definition is_chat (r : QueuedRequest) : bool := String.eqb (r_payload_type r) "chat_completion".

(** ** The caller's own effort *)

Inductive EffortOutcome := EFFORT_ABSENT | EFFORT_FOLDED | EFFORT_OFF | EFFORT_LEFT.

Definition outcome_defaults (o : EffortOutcome) : bool :=
  match o with EFFORT_ABSENT | EFFORT_OFF => true | _ => false end.

(** A spelling's value, when it is more than blanks. *)
Definition effort_word (j : json) : option string :=
  match j with
  | JStr s => if String.eqb (strip s) "" then None else Some (strip s)
  | _ => None
  end.

(** [obj.get("effort") if isinstance(obj, dict) else None] *)
Definition object_effort (p : dict string json) : json :=
  match jget p "reasoning" with JDict obj => jget obj "effort" | _ => JNull end.

(** The set of the values the caller sent beside [chat_template_kwargs]. *)
Definition caller_efforts (p : dict string json) : list string :=
  remove_dups (omap effort_word [jget p "reasoning_effort"; object_effort p]).

Definition is_str (j : json) : bool := match j with JStr _ => true | _ => false end.

(** Both aliases removed. *)
Definition drop_aliases (p : dict string json) : dict string json :=
  let p1 := if is_str (jget p "reasoning_effort") then ddel p "reasoning_effort" else p in
  match jget p "reasoning" with
  | JDict obj =>
      if is_str (jget obj "effort") then
        match drop_effort obj with
        | [] => ddel p1 "reasoning"
        | rest => dset p1 "reasoning" (JDict rest)
        end
      else p1
  | _ => p1
  end.

Definition fold_caller_effort (p ck : dict string json) (switch_keys : list string)
  : EffortOutcome * dict string json * dict string json :=
  if dmem ck "reasoning_effort" then (EFFORT_LEFT, p, ck)
  else match caller_efforts p with
       | [] => (EFFORT_ABSENT, p, ck)
       | [effort] =>
           let p := drop_aliases p in
           if String.eqb effort "none"
           then (EFFORT_OFF, p, foldl (fun ck key => setdefault ck key (JBool false)) ck switch_keys)
           else (EFFORT_FOLDED, p, dset ck "reasoning_effort" (JStr effort))
       | _ => (EFFORT_LEFT, p, ck)
       end.

(** [dict(ck) if isinstance(ck, dict) else {}] *)
Definition template_kwargs (p : dict string json) : dict string json :=
  match jget p "chat_template_kwargs" with JDict ck => ck | _ => [] end.

(** ** The map of effort words *)

Fixpoint _resolve_reasoning_effort_map (value : string) (effort_map : dict string string) : option string :=
  match effort_map with
  | [] => None
  | (k, v) :: rest =>
      if String.eqb (lower (strip k)) (lower (strip value)) then Some v
      else _resolve_reasoning_effort_map value rest
  end.

(** A row of [state.reasoning_effort_remaps]. *)
Record Remap := mkRemap { re_endpoint : string; re_from : string; re_to : option string; re_count : Z }.

(** The request being shaped, and the proxy state these corrections touch. *)
Record ShapeState := mkShapeState {
  ss_req : QueuedRequest;
  ss_bleed : ThinkBleedStats;
  ss_thinking_active : dict string (list string);
  ss_remaps : dict string Remap;
  ss_remap_logged : list (string * string)
}.

Definition set_req (r : QueuedRequest) (s : ShapeState) : ShapeState :=
  mkShapeState r (ss_bleed s) (ss_thinking_active s) (ss_remaps s) (ss_remap_logged s).

Definition set_bleed (b : ThinkBleedStats) (s : ShapeState) : ShapeState :=
  mkShapeState (ss_req s) b (ss_thinking_active s) (ss_remaps s) (ss_remap_logged s).

Definition set_active (a : dict string (list string)) (s : ShapeState) : ShapeState :=
  mkShapeState (ss_req s) (ss_bleed s) a (ss_remaps s) (ss_remap_logged s).

(** The tally and the log set of one remapping. *)
Definition note_remap (requested sent : string) (s : ShapeState) : ShapeState :=
  let r := ss_req s in
  let key := r_endpoint r ++ "|" ++ requested ++ "->" ++ sent in
  let row := default (mkRemap (r_endpoint r) requested (if String.eqb sent "" then None else Some sent) 0)
               (dget (ss_remaps s) key) in
  let log_key := (r_agent_id r, requested) in
  mkShapeState r (ss_bleed s) (ss_thinking_active s)
    (dset (ss_remaps s) key (mkRemap (re_endpoint row) (re_from row) (re_to row) (re_count row + 1)))
    (if bool_decide (log_key ∈ ss_remap_logged s) then ss_remap_logged s else log_key :: ss_remap_logged s).

(** [_remap_one_effort_field]: the container after it, and what is sent. *)
Definition remap_container (container : dict string json) (requested : string) (effort_map : dict string string)
  : dict string json * string :=
  match _resolve_reasoning_effort_map requested effort_map with
  | Some mapped => (dset container "reasoning_effort" (JStr mapped), mapped)
  | None => (ddel container "reasoning_effort", "")
  end.

Section Effort.
(** Endpoint roles by name, what each endpoint class declares, the fleet-wide
    budgets and the kill switch of the opt-in. *)
Context (roles : dict string string) (shaping : dict string Shaping).
Context (forced_reasoning_budget thinking_reasoning_budget : Z) (thinking_enabled : bool).

(** [self.state.config.endpoints.get(normalize_endpoint(req.endpoint))] *)
Definition shape_of (r : QueuedRequest) : option Shaping := dget shaping (normalize_endpoint roles (r_endpoint r)).

Definition canonicalize_thinking_switch (now : Q) (s : ShapeState) : ShapeState :=
  let r := ss_req s in
  if negb (is_chat r) then s
  else match shape_of r with
       | None => s
       | Some ep =>
           match thinking_kwargs ep with
           | [] => s
           | declared =>
               match rename_thinking_switch (JDict (r_payload r)) declared with
               | (JDict out, (_ :: _) as found) =>
                   let label := if String.eqb (sh_class ep) "" then sh_role ep else sh_class ep in
                   set_bleed (note_renamed label found now (ss_bleed s)).2 (set_req (with_payload r out) s)
               | _ => s
               end
           end
       end.

(** [p["max_tokens"] = cur + budget] when [cur] is a positive int. *)
Definition pad_max_tokens (budget : Z) (p : dict string json) : dict string json :=
  match py_int (jget p "max_tokens") with
  | Some cur => if (0 <? cur)%Z then dset p "max_tokens" (JInt (cur + budget)) else p
  | None => p
  end.

(** The effort and switch of an endpoint that always reasons. *)
Definition force_effort (ep : Shaping) (p : dict string json) : dict string json :=
  match thinking_kwargs ep with
  | [] => p
  | switch_keys =>
      if String.eqb (reasoning_effort ep) "" then p
      else
        let '(outcome, p, ck) := fold_caller_effort p (template_kwargs p) switch_keys in
        let ck := foldl (fun ck key => setdefault ck key (JBool true)) ck switch_keys in
        let ck := if outcome_defaults outcome then dset ck "reasoning_effort" (JStr (reasoning_effort ep)) else ck in
        dset p "chat_template_kwargs" (JDict ck)
  end.

Definition apply_forced_reasoning_budget (r : QueuedRequest) : QueuedRequest :=
  if negb (is_chat r) then r
  else match shape_of r with
       | Some ep =>
           if negb (forces_reasoning ep) then r
           else
             let budget := if (0 <? sh_forced_budget ep)%Z then sh_forced_budget ep else forced_reasoning_budget in
             with_payload r (pad_max_tokens budget (force_effort ep (r_payload r)))
       | None => r
       end.

(** [extract_grammar(payload)]: the grammar, and whether it sits in [extra_body]. *)
Definition extract_grammar (p : dict string json) : option (string * bool) :=
  let text j := match j with JStr g => if String.eqb (strip g) "" then None else Some g | _ => None end in
  match text (jget p "grammar") with
  | Some g => Some (g, false)
  | None =>
      match jget p "extra_body" with
      | JDict eb => match text (jget eb "grammar") with Some g => Some (g, true) | None => None end
      | _ => None
      end
  end.

(** The grammar of [structured_outputs], when no other is present. *)
Definition grammar_text (p : dict string json) : option string :=
  match extract_grammar p with
  | Some (g, _) => Some g
  | None =>
      match jget p "structured_outputs" with
      | JDict so => match jget so "grammar" with
                    | JStr g => if String.eqb (strip g) "" then None else Some g
                    | _ => None
                    end
      | _ => None
      end
  end.

(** [(x or {})] where a dict is about to be read; any other truthy value raises. *)
Definition or_dict (j : json) : res (dict string json) :=
  if truthy j then match j with JDict d => Ret d | _ => Raise AttributeError end else Ret [].

Definition is_type (rf : dict string json) (t : string) : bool :=
  match jget rf "type" with JStr s => String.eqb s t | _ => false end.

Definition thinking_allowed_keys (p : dict string json) : res (list string) :=
  match grammar_text p with
  | Some g => Ret (root_object_keys g)
  | None =>
      match jget p "response_format" with
      | JDict rf =>
          if is_type rf "json_schema" then
            js ← or_dict (jget rf "json_schema");
            sch ← or_dict (jget js "schema");
            Ret (match jget sch "properties" with JDict props => dkeys props | _ => [] end)
          else Ret []
      | _ => Ret []
      end
  end.

(** The control field taken off the payload and its [extra_body]. *)
Definition take_want (p : dict string json) : json * dict string json :=
  let want := jget p "thinking" in
  match jget p "extra_body" with
  | JDict eb =>
      (if truthy want then want else jget eb "thinking",
       ddel (dset p "extra_body" (JDict (ddel eb "thinking"))) "thinking")
  | _ => (want, ddel p "thinking")
  end.

(** The headroom of an opt-in: an int asks for at most the default. *)
Definition opt_in_budget (ep : Shaping) (want : json) : Z :=
  let budget := if (0 <? sh_thinking_budget ep)%Z then sh_thinking_budget ep else thinking_reasoning_budget in
  match want with
  | JInt n => if (0 <? n)%Z then Z.min n budget else budget
  | _ => budget
  end.

(** The template keywords and cap of an opted-in request. *)
Definition opt_in_payload (ep : Shaping) (want : json) (p : dict string json) : dict string json :=
  let ck := foldl (fun ck key => dset ck key (JBool true)) (template_kwargs p) (thinking_kwargs ep) in
  let declared := if String.eqb (reasoning_effort ep) "" then thinking_effort ep else reasoning_effort ep in
  let '(p, ck) :=
    if String.eqb declared "" then (p, ck)
    else let '(outcome, p, ck) := fold_caller_effort p ck [] in
         (p, if outcome_defaults outcome then dset ck "reasoning_effort" (JStr declared) else ck) in
  let p := dset p "chat_template_kwargs" (JDict ck) in
  let cur := match py_int (jget p "max_tokens") with
             | Some n => if (0 <? n)%Z then n else 800%Z
             | None => 800%Z
             end in
  dset p "max_tokens" (JInt (cur + opt_in_budget ep want)).

Definition apply_thinking : SE ShapeState unit :=
  s ← se_get;
  let r := ss_req s in
  let '(want, p) := take_want (r_payload r) in
  _ ← se_modify (set_req (with_payload r p));
  if (negb (truthy want) || negb (is_chat r) || negb thinking_enabled)%bool then mret tt
  else match shape_of r with
       | None => mret tt
       | Some ep =>
           if (bool_decide (thinking_kwargs ep = []) && String.eqb (thinking_effort ep) "")%bool then mret tt
           else
             let p := opt_in_payload ep want p in
             _ ← se_modify (set_req (with_payload r p));
             if r_stream r then mret tt
             else
               keys ← se_lift (thinking_allowed_keys p);
               se_modify (fun s => set_active (dset (ss_thinking_active s) (r_request_id r) keys) s)
       end.

Definition apply_reasoning_effort_map (s : ShapeState) : ShapeState :=
  let r := ss_req s in
  if negb (is_chat r) then s
  else match shape_of r with
       | None => s
       | Some ep =>
           match reasoning_effort_map ep with
           | [] => s
           | effort_map =>
               let p := r_payload r in
               let '(p, s) :=
                 match jget p "chat_template_kwargs" with
                 | JDict ck =>
                     match jget ck "reasoning_effort" with
                     | JStr requested =>
                         let '(ck, sent) := remap_container ck requested effort_map in
                         (dset p "chat_template_kwargs" (JDict ck), note_remap requested sent s)
                     | _ => (p, s)
                     end
                 | _ => (p, s)
                 end in
               let '(p, s) :=
                 match jget p "reasoning_effort" with
                 | JStr requested =>
                     let '(p, sent) := remap_container p requested effort_map in (p, note_remap requested sent s)
                 | _ => (p, s)
                 end in
               set_req (with_payload r p) s
           end
       end.
End Effort.
