(* ===== verification/EffortProps.v ===== *)
(** * What the reasoning corrections guarantee

    Lemmas on the template keywords each correction of [Effort] leaves, and the
    rule that a caller's own effort and switch outrank what the endpoint
    declares. *)

From Stdlib Require Import QArith Lia ZArith.
From stdpp Require Import base list strings.
From S2P Require Import Prelude PyDict PyText Config Json ThinkSwitch ThinkBleed ThinkStats Cost Queue JsonRead Grammar Effort.

Local Open Scope string_scope.

(** ** Dictionaries *)

Lemma dget_setdefault {V} (d : dict string V) k v k' :
  dget (setdefault d k v) k' = if decide (k = k') then Some (default v (dget d k)) else dget d k'.
Proof.
  unfold setdefault, dmem. destruct (dget d k) eqn:E.
  - case_decide; [subst; by rewrite E|done].
  - rewrite dget_dset. by case_decide.
Qed.

Lemma dget_setdefaults {V} (v : V) keys d k :
  dget (foldl (fun d key => setdefault d key v) d keys) k =
  match dget d k with
  | Some x => Some x
  | None => if decide (k ∈ keys) then Some v else None
  end.
Proof.
  revert d. induction keys as [|x keys IH]; intros d; cbn [foldl].
  - destruct (dget d k); [done|]. by rewrite decide_False by apply not_elem_of_nil.
  - rewrite IH, dget_setdefault. destruct (decide (x = k)) as [->|N].
    + destruct (dget d k); [done|]. by rewrite decide_True by left.
    + destruct (dget d k); [done|]. destruct (decide (k ∈ keys)) as [I|I].
      * by rewrite decide_True by by right.
      * rewrite decide_False; [done|]. by intros [->|?]%elem_of_cons.
Qed.

Lemma jget_dset_ne d k v k' : k <> k' -> jget (dset d k v) k' = jget d k'.
Proof. intros. unfold jget. by rewrite dget_dset_ne. Qed.
Lemma jget_dset_eq d k v : jget (dset d k v) k = v.
Proof. unfold jget. by rewrite dget_dset_eq. Qed.
Lemma jget_ddel_ne d k k' : k <> k' -> jget (ddel d k) k' = jget d k'.
Proof. intros N. unfold jget. by rewrite dget_ddel_ne. Qed.
Lemma jget_ddel_eq d k : dwf d -> jget (ddel d k) k = JNull.
Proof. intros W. unfold jget. rewrite dget_ddel by done. by rewrite decide_True. Qed.

Lemma template_kwargs_ext p p' : jget p' "chat_template_kwargs" = jget p "chat_template_kwargs" ->
  template_kwargs p' = template_kwargs p.
Proof. intros E. unfold template_kwargs. by rewrite E. Qed.

Lemma template_kwargs_dset p ck : template_kwargs (dset p "chat_template_kwargs" (JDict ck)) = ck.
Proof. unfold template_kwargs. by rewrite jget_dset_eq. Qed.

Lemma caller_efforts_ext p p' :
  jget p' "reasoning_effort" = jget p "reasoning_effort" -> jget p' "reasoning" = jget p "reasoning" ->
  caller_efforts p' = caller_efforts p.
Proof. intros E1 E2. unfold caller_efforts, object_effort. by rewrite E1, E2. Qed.

(** ** Folding *)

Lemma not_str_word j : is_str j = false -> effort_word j = None.
Proof. by destruct j. Qed.

Lemma caller_efforts_none p :
  is_str (jget p "reasoning_effort") = false -> is_str (object_effort p) = false -> caller_efforts p = [].
Proof.
  intros E1%not_str_word E2%not_str_word. unfold caller_efforts. unfold omap. simpl. by rewrite E1, E2.
Qed.

Lemma drop_aliases_step1 p k : k <> "reasoning_effort" ->
  jget (if is_str (jget p "reasoning_effort") then ddel p "reasoning_effort" else p) k = jget p k.
Proof. intros N. case_match; [|done]. by apply jget_ddel_ne. Qed.

Lemma drop_aliases_top p : dwf p -> is_str (jget (drop_aliases p) "reasoning_effort") = false.
Proof.
  intros W. unfold drop_aliases. cbv zeta. set (p1 := if _ : bool then _ else _).
  assert (W1 : dwf p1) by (unfold p1; case_match; [by apply dwf_ddel|done]).
  assert (E : is_str (jget p1 "reasoning_effort") = false).
  { unfold p1. destruct (is_str (jget p "reasoning_effort")) eqn:E; [by rewrite jget_ddel_eq|done]. }
  destruct (jget p "reasoning") as [| | | | | |obj]; try done.
  destruct (is_str (jget obj "effort")); [|done].
  destruct (drop_effort obj); [by rewrite jget_ddel_ne|by rewrite jget_dset_ne].
Qed.

Lemma drop_aliases_object p : dwf p -> is_str (object_effort (drop_aliases p)) = false.
Proof.
  intros W. pose proof (drop_aliases_step1 p "reasoning" ltac:(done)) as E1.
  unfold object_effort, drop_aliases. cbv zeta. set (p1 := if _ : bool then _ else _) in *.
  assert (W1 : dwf p1) by (unfold p1; case_match; [by apply dwf_ddel|done]).
  destruct (jget p "reasoning") as [| | | | | |obj] eqn:ER; rewrite ?E1; try done.
  destruct (is_str (jget obj "effort")) eqn:E; [|by rewrite E1].
  destruct (drop_effort obj) eqn:D; [by rewrite jget_ddel_eq|].
  rewrite jget_dset_eq, <- D. unfold jget. by rewrite drop_effort_get.
Qed.

(** After the aliases are dropped the caller's effort has no other name. *)
Lemma drop_aliases_clean p : dwf p -> caller_efforts (drop_aliases p) = [].
Proof. intros W. by apply caller_efforts_none; [apply drop_aliases_top|apply drop_aliases_object]. Qed.

Lemma drop_aliases_get p k : k <> "reasoning_effort" -> k <> "reasoning" ->
  dget (drop_aliases p) k = dget p k.
Proof.
  intros N1 N2. unfold drop_aliases. cbv zeta. set (p1 := if _ : bool then _ else _) in *.
  assert (E : dget p1 k = dget p k) by (unfold p1; case_match; [by apply dget_ddel_ne|done]).
  destruct (jget p "reasoning") as [| | | | | |obj]; try done.
  destruct (is_str (jget obj "effort")); [|done].
  destruct (drop_effort obj); [by rewrite dget_ddel_ne|by rewrite dget_dset_ne].
Qed.

(** The fields folding may rewrite. *)
Definition effort_fields : list string := ["chat_template_kwargs"; "reasoning_effort"; "reasoning"; "max_tokens"].

(** Everything folding does, by how many values the caller sent. *)
Lemma fold_spec p ck keys :
  let '(o, p', ck') := fold_caller_effort p ck keys in
  (dmem ck "reasoning_effort" = true /\ o = EFFORT_LEFT /\ p' = p /\ ck' = ck)
  \/ dmem ck "reasoning_effort" = false
     /\ match caller_efforts p with
        | [] => o = EFFORT_ABSENT /\ p' = p /\ ck' = ck
        | [e] => p' = drop_aliases p
                 /\ if String.eqb e "none"
                    then o = EFFORT_OFF /\ ck' = foldl (fun ck key => setdefault ck key (JBool false)) ck keys
                    else o = EFFORT_FOLDED /\ ck' = dset ck "reasoning_effort" (JStr e)
        | _ => o = EFFORT_LEFT /\ p' = p /\ ck' = ck
        end.
Proof.
  unfold fold_caller_effort. destruct (dmem ck "reasoning_effort"); [by left|].
  destruct (caller_efforts p) as [|e [|? ?]]; [by right| |by right].
  destruct (String.eqb e "none") eqn:E; by right.
Qed.

Lemma fold_keeps p ck keys k : k <> "reasoning_effort" -> k <> "reasoning" ->
  dget (fold_caller_effort p ck keys).1.2 k = dget p k.
Proof.
  intros N1 N2. pose proof (fold_spec p ck keys) as F.
  destruct (fold_caller_effort p ck keys) as [[o p'] ck']. cbn [fst snd].
  destruct F as [(_ & _ & -> & _)|[_ F]]; [done|].
  destruct (caller_efforts p) as [|e [|? ?]]; destruct F as [F1 F2]; [by destruct F2 as [-> _]| |by destruct F2 as [-> _]].
  rewrite F1. by apply drop_aliases_get.
Qed.

(** ** An endpoint that always reasons *)

(** The effort the request must carry: the caller's, under whichever name, else
    the endpoint's; two different values from the caller are left to it. *)
Definition wanted_effort (ep : Shaping) (p : dict string json) : option json :=
  match dget (template_kwargs p) "reasoning_effort" with
  | Some v => Some v
  | None => match caller_efforts p with
            | [] => Some (JStr (reasoning_effort ep))
            | [e] => Some (JStr (if String.eqb e "none" then reasoning_effort ep else e))
            | _ => None
            end
  end.

(** The caller turned thinking off by the effort word. *)
Definition said_none (p : dict string json) : bool :=
  (negb (dmem (template_kwargs p) "reasoning_effort") && bool_decide (caller_efforts p = ["none"]))%bool.

(** The value of a keyword: the caller's, else the switch's. *)
Definition wanted_keyword (ep : Shaping) (p : dict string json) (k : string) : option json :=
  match dget (template_kwargs p) k with
  | Some v => Some v
  | None => if decide (k ∈ thinking_kwargs ep) then Some (JBool (negb (said_none p))) else None
  end.

Definition shaped_effort (ep : Shaping) (p p' : dict string json) : Prop :=
  exists ck', dget p' "chat_template_kwargs" = Some (JDict ck')
    /\ dget ck' "reasoning_effort" = wanted_effort ep p
    /\ (forall k, k <> "reasoning_effort" -> dget ck' k = wanted_keyword ep p k)
    /\ (length (caller_efforts p) = 1%nat -> dmem (template_kwargs p) "reasoning_effort" = false -> caller_efforts p' = []).

Lemma caller_efforts_dset p ck :
  caller_efforts (dset p "chat_template_kwargs" (JDict ck)) = caller_efforts p.
Proof. apply caller_efforts_ext; by apply jget_dset_ne. Qed.

Lemma force_effort_shapes ep p :
  dwf p -> reasoning_effort ep <> "" -> thinking_kwargs ep <> [] -> "reasoning_effort" ∉ thinking_kwargs ep ->
  shaped_effort ep p (force_effort ep p).
Proof.
  intros W HE HK HN. unfold force_effort.
  destruct (thinking_kwargs ep) as [|k0 ks] eqn:EK; [done|]. rewrite <- EK in *.
  rewrite (proj2 (String.eqb_neq _ _) HE).
  pose proof (fold_spec p (template_kwargs p) (thinking_kwargs ep)) as F.
  destruct (fold_caller_effort _ _ _) as [[o p1] ck1].
  set (ck2 := foldl _ ck1 _). set (ck3 := if outcome_defaults o then _ else _).
  exists ck3. split; [apply dget_dset_eq|].
  assert (G : forall k, dget ck2 k = match dget ck1 k with Some x => Some x | None => if decide (k ∈ thinking_kwargs ep) then Some (JBool true) else None end)
    by (intros; apply dget_setdefaults).
  assert (G3 : forall k, k <> "reasoning_effort" -> dget ck3 k = dget ck2 k).
  { intros k N. unfold ck3. destruct (outcome_defaults o); [by apply dget_dset_ne|done]. }
  rewrite caller_efforts_dset. unfold wanted_effort, wanted_keyword, said_none.
  destruct F as [(M & -> & -> & ->)|[M F]].
  - apply dmem_true in M as M'. destruct M' as [v Hv]. rewrite Hv, M. cbn [negb andb]. split_and!.
    + unfold ck3. cbn [outcome_defaults]. by rewrite G, Hv.
    + intros k N. by rewrite G3, G.
    + done.
  - assert (Hn : dget (template_kwargs p) "reasoning_effort" = None)
      by (unfold dmem in M; by destruct (dget _ _)).
    rewrite Hn, M. cbn [negb andb].
    destruct (caller_efforts p) as [|e [|e' es]] eqn:CE.
    + destruct F as (-> & -> & ->). split_and!; [apply dget_dset_eq| |done].
      intros k N. by rewrite G3, G.
    + destruct F as [-> F]. destruct (String.eqb_spec e "none") as [->|Ne]; destruct F as [-> ->].
      * split_and!; [apply dget_dset_eq| |by rewrite drop_aliases_clean].
        intros k N. rewrite G3, G, dget_setdefaults by done. destruct (dget _ k); [done|]. by case_decide.
      * split_and!; [|intros k N|by rewrite drop_aliases_clean].
        -- unfold ck3. cbn [outcome_defaults]. by rewrite G, dget_dset_eq.
        -- rewrite G3, G, dget_dset_ne by done. destruct (dget _ k); [done|]. rewrite bool_decide_false by congruence. done.
    + destruct F as (-> & -> & ->). split_and!; [|intros k N; rewrite G3, G by done; by rewrite bool_decide_false|intros L; discriminate L].
      unfold ck3. cbn [outcome_defaults]. by rewrite G, Hn, decide_False.
Qed.

Lemma pad_get budget p k : k <> "max_tokens" -> dget (pad_max_tokens budget p) k = dget p k.
Proof. intros N. unfold pad_max_tokens. repeat case_match; try done. by apply dget_dset_ne. Qed.

Lemma pad_jget budget p k : k <> "max_tokens" -> jget (pad_max_tokens budget p) k = jget p k.
Proof. intros N. unfold jget. by rewrite pad_get. Qed.

Lemma force_effort_other ep p k : k ∉ effort_fields -> dget (force_effort ep p) k = dget p k.
Proof.
  intros N. unfold effort_fields in N. rewrite !not_elem_of_cons in N. destruct N as (N1 & N2 & N3 & _).
  unfold force_effort. destruct (thinking_kwargs ep) as [|k0 ks]; [done|].
  destruct (String.eqb _ _); [done|].
  pose proof (fold_keeps p (template_kwargs p) (k0 :: ks) k N2 N3) as K.
  destruct (fold_caller_effort _ _ _) as [[o p1] ck1]. by rewrite dget_dset_ne.
Qed.

Section EffortProps.
Context (roles : dict string string) (shaping : dict string Shaping) (budget : Z).

(** On an endpoint that always reasons and declares an effort and its switch
    keys, the effort sent on is the caller's whenever the caller gave one,
    under any of its three names; the endpoint's is used only when the caller
    said nothing or turned thinking off.  A single effort named beside the
    template keywords ends up in them and nowhere else, a caller that sent two
    different ones gets no third, every template keyword of the caller keeps its
    value, and no other field of the request is touched. *)
Theorem caller_effort_wins r ep :
  is_chat r = true -> shape_of roles shaping r = Some ep -> forces_reasoning ep = true ->
  jwf (JDict (r_payload r)) = true -> reasoning_effort ep <> "" -> thinking_kwargs ep <> [] ->
  "reasoning_effort" ∉ thinking_kwargs ep ->
  let p' := r_payload (apply_forced_reasoning_budget roles shaping budget r) in
  shaped_effort ep (r_payload r) p' /\ (forall k, k ∉ effort_fields -> dget p' k = dget (r_payload r) k).
Proof.
  intros HC HS HF W%jwf_dict HE HK HN. unfold apply_forced_reasoning_budget. rewrite HC, HS, HF. cbn [negb r_payload with_payload reshaped].
  destruct (force_effort_shapes ep (r_payload r) W HE HK HN) as (ck & E1 & E2 & E3 & E4). split.
  - exists ck. rewrite pad_get by done. split_and!; try done. intros L M.
    rewrite <- (E4 L M). by apply caller_efforts_ext; apply pad_jget.
  - intros k N. rewrite pad_get; [by apply force_effort_other|].
    intros ->. apply N. by do 3 right; left.
Qed.

(** ** The map of effort words *)

Lemma resolve_in_map w m v : _resolve_reasoning_effort_map w m = Some v -> v ∈ map snd m.
Proof.
  induction m as [|[k x] m IH]; [done|]. simpl. destruct (String.eqb _ _); [|intros H; right; by apply IH].
  intros [= ->]. by left.
Qed.

Lemma remap_container_effort c w m v : dwf c ->
  dget (remap_container c w m).1 "reasoning_effort" = Some v -> exists s, v = JStr s /\ s ∈ map snd m.
Proof.
  intros W. unfold remap_container. destruct (_resolve_reasoning_effort_map w m) as [s|] eqn:E; cbn [fst].
  - rewrite dget_dset_eq. intros [= <-]. exists s. split; [done|by eapply resolve_in_map].
  - rewrite dget_ddel by done. by rewrite decide_True.
Qed.

Lemma remap_container_other c w m k : k <> "reasoning_effort" ->
  dget (remap_container c w m).1 k = dget c k.
Proof.
  intros N. unfold remap_container. destruct (_resolve_reasoning_effort_map w m); cbn [fst].
  - by rewrite dget_dset_ne.
  - by rewrite dget_ddel_ne.
Qed.

(** The payload after the map, each field on its own. *)
Definition mapped_kwargs (m : dict string string) (ck : dict string json) : dict string json :=
  match jget ck "reasoning_effort" with JStr w => (remap_container ck w m).1 | _ => ck end.

Lemma map_pass_payload s ep m : is_chat (ss_req s) = true -> shape_of roles shaping (ss_req s) = Some ep ->
  reasoning_effort_map ep = m -> m <> [] -> dwf (r_payload (ss_req s)) ->
  let p := r_payload (ss_req s) in
  let p' := r_payload (ss_req (apply_reasoning_effort_map roles shaping s)) in
  (forall k, k <> "reasoning_effort" -> k <> "chat_template_kwargs" -> dget p' k = dget p k)
  /\ dget p' "chat_template_kwargs" = match dget p "chat_template_kwargs" with
                                      | Some (JDict ck) => Some (JDict (mapped_kwargs m ck))
                                      | v => v
                                      end
  /\ dget p' "reasoning_effort" = match dget p "reasoning_effort" with
                                  | Some (JStr w) => JStr <$> _resolve_reasoning_effort_map w m
                                  | v => v
                                  end.
Proof.
  intros HC HS HM Hne W. unfold apply_reasoning_effort_map. rewrite HC, HS, HM. cbn [negb].
  destruct m as [|m0 ms]; [done|]. set (m := m0 :: ms) in *. clearbody m. cbv zeta. set (p := r_payload (ss_req s)) in *.
  set (X := match jget p "chat_template_kwargs" with JDict ck => _ | _ => _ end).
  assert (HX : dwf X.1 /\ (forall k, k <> "chat_template_kwargs" -> dget X.1 k = dget p k)
               /\ dget X.1 "chat_template_kwargs" = match dget p "chat_template_kwargs" with
                    | Some (JDict ck) => Some (JDict (mapped_kwargs m ck)) | v => v end).
  { unfold X, mapped_kwargs. change (jget p "chat_template_kwargs") with (from_option id JNull (dget p "chat_template_kwargs")) in *. destruct (dget p "chat_template_kwargs") as [v|] eqn:E; simpl; [|by split_and!].
    destruct v as [| | | | | |ck]; simpl; try by split_and!.
    destruct (jget ck "reasoning_effort") as [| | | |w| |]; simpl; try by split_and!.
    destruct (remap_container ck w m) as [ck' sent]; simpl. split_and!.
    - by apply dwf_dset.
    - intros k N. by apply dget_dset_ne.
    - apply dget_dset_eq. }
  destruct X as [p1 s1]. cbn [fst] in HX. destruct HX as (W1 & H1 & H2).
  assert (E : jget p1 "reasoning_effort" = jget p "reasoning_effort") by (unfold jget; by rewrite H1).
  rewrite E. assert (D : dget p1 "reasoning_effort" = dget p "reasoning_effort") by by apply H1.
  unfold jget in *. destruct (dget p "reasoning_effort") as [v|] eqn:EV; simpl.
  2: { split_and!; [|done|done]. intros k N1 N2. by apply H1. }
  destruct v as [| | | |w| |]; simpl; try (split_and!; [intros k N1 N2; by apply H1|done|done]).
  unfold remap_container. destruct (_resolve_reasoning_effort_map w m) as [x|]; simpl.
  - split_and!; [|rewrite dget_dset_ne by done; exact H2|by rewrite dget_dset_eq].
    intros k N1 N2. rewrite dget_dset_ne by done. by apply H1.
  - split_and!; [|rewrite dget_ddel by done; rewrite decide_False by done; exact H2|rewrite dget_ddel by done; by rewrite decide_True].
    intros k N1 N2. rewrite dget_ddel by done. rewrite decide_False by done. by apply H1.
Qed.

(** Where the operator mapped the effort words, no other word leaves under the
    two names the map covers: a word sent on is one the operator wrote. *)
Theorem no_unmapped_effort s ep :
  is_chat (ss_req s) = true -> shape_of roles shaping (ss_req s) = Some ep -> reasoning_effort_map ep <> [] ->
  jwf (JDict (r_payload (ss_req s))) = true ->
  let p' := r_payload (ss_req (apply_reasoning_effort_map roles shaping s)) in
  forall w, (dget (template_kwargs p') "reasoning_effort" = Some (JStr w) \/ dget p' "reasoning_effort" = Some (JStr w)) ->
  w ∈ map snd (reasoning_effort_map ep).
Proof.
  intros HC HS Hne J p'. pose proof (jwf_dict _ J) as W.
  destruct (map_pass_payload s ep _ HC HS eq_refl Hne W) as (_ & E1 & E2). fold p' in E1, E2.
  intros w [H|H].
  - revert H. unfold template_kwargs, jget. rewrite E1.
    destruct (dget (r_payload (ss_req s)) "chat_template_kwargs") as [v|] eqn:EV; [|done].
    assert (Jv : jwf v = true) by by eapply jwf_get.
    destruct v as [| | | | | |ck]; try done. cbn [from_option id]. unfold mapped_kwargs.
    destruct (jget ck "reasoning_effort") as [| | | |x| |] eqn:EW; intros H;
      try (unfold jget in EW; rewrite H in EW; done).
    apply remap_container_effort in H as (s0 & [= ->] & ?); [done|by apply jwf_dict].
  - rewrite E2 in H. destruct (dget (r_payload (ss_req s)) "reasoning_effort") as [[]|]; try done.
    destruct (_resolve_reasoning_effort_map s0 (reasoning_effort_map ep)) eqn:R; simpl in H; [|done].
    injection H as <-. by eapply resolve_in_map.
Qed.
End EffortProps.
