(* ===== verification/Forced.v ===== *)
(** * The JSON contract of a request (correction.py, request side and helpers)

    What a request declared about the shape of its answer, read off its payload
    ([request_is_structured], [request_expects_json], [_declared_schema]); the
    two guards that take a constraint off the payload before it is sent, and
    keep it on the request ([apply_json_object_guard],
    [apply_forced_tool_schema]); and the readers of an answer's body.  The
    schema validator is a parameter: [valid_schema] judges a schema and
    [satisfies] a document. *)

From Stdlib Require Import Ascii Lia ZArith QArith.
From stdpp Require Import base list strings.
From S2P Require Import Prelude PyDict PyText Config Json ThinkSwitch ThinkBleed ThinkStats Cost Queue JsonRead ToolStream Intent Grammar Effort.

Local Open Scope string_scope.

(** ** Readers of a chat completion *)

(** [(body.get("choices") or [x])[0]] *)
Definition first_choice (body : dict string json) (x : json) : res json :=
  let ch := jget body "choices" in
  if truthy ch then match ch with
                    | JList (c :: _) => Ret c
                    | JStr (String c _) => Ret (JStr (String c ""))
                    | JDict _ => Raise KeyError
                    | _ => Raise TypeError
                    end
  else Ret x.

(** [((body.get("choices") or [{}])[0] or {}).get("message") or {}] *)
Definition first_message (body : dict string json) : res (dict string json) :=
  c ← first_choice body (JDict []);
  c ← or_dict c;
  or_dict (jget c "message").

(** [_chat_completion_text(body)]: the content if it is truthy, else the empty text. *)
Definition _chat_completion_text (body : dict string json) : json :=
  match first_message body with
  | Ret msg => let c := jget msg "content" in if truthy c then c else JStr ""
  | Raise _ => JStr ""
  end.

Definition _response_tool_calls (body : dict string json) : list json :=
  match first_message body with
  | Ret msg => match jget msg "tool_calls" with JList tc => tc | _ => [] end
  | Raise _ => []
  end.

(** ** What the caller declared *)

(** The payload, and its [extra_body] when that is a dict. *)
Definition containers (p : dict string json) : list (dict string json) :=
  p :: match jget p "extra_body" with JDict eb => [eb] | _ => [] end.

Fixpoint first_schema (cs : list (dict string json)) : res (option (dict string json)) :=
  match cs with
  | [] => Ret None
  | c :: rest =>
      let guided := match jget c "guided_json" with JDict gj => Ret (Some gj) | _ => first_schema rest end in
      match jget c "response_format" with
      | JDict rf =>
          if is_type rf "json_schema" then
            js ← or_dict (jget rf "json_schema");
            match jget js "schema" with JDict sch => Ret (Some sch) | _ => guided end
          else guided
      | _ => guided
      end
  end.

Definition _extract_declared_schema (p : dict string json) : res (option (dict string json)) := first_schema (containers p).

Definition _declared_schema (r : QueuedRequest) : res (option (dict string json)) :=
  match r_forced_tool_schema r with
  | Some (JDict forced) => Ret (Some forced)
  | _ => _extract_declared_schema (r_payload r)
  end.

Definition _schema_required_keys (schema : option (dict string json)) : list string :=
  match schema with
  | Some s => match jget s "required" with
              | JList l => omap (fun k => match k with JStr k => Some k | _ => None end) l
              | _ => []
              end
  | None => []
  end.

(** [v is None or v == "" or v == [] or v == {}] *)
Definition empty_value (v : json) : bool :=
  match v with
  | JNull | JStr "" | JList [] | JDict [] => true
  | _ => false
  end.

Definition _is_answerless_object (obj : json) (schema : option (dict string json)) : bool :=
  match obj with
  | JDict [] => true
  | JDict d => match _schema_required_keys schema with
               | [] => forallb empty_value (dvals d)
               | _ => false
               end
  | _ => false
  end.

(** *** The predicates on a request *)

Definition is_structured_keys : list string :=
  ["response_format"; "structured_outputs"; "guided_grammar"; "guided_json"; "guided_choice"].

Definition request_is_structured (r : QueuedRequest) : bool :=
  let p := r_payload r in
  if negb (is_chat r) then false
  else if r_json_object_stripped r then true
  else if bool_decide (is_Some (r_forced_tool_schema r)) then true
  else if bool_decide (is_Some (extract_grammar p)) then true
  else if (truthy (jget p "response_format") || truthy (jget p "structured_outputs"))%bool then true
  else match jget p "extra_body" with
       | JDict eb => existsb (fun k => truthy (jget eb k)) is_structured_keys
       | _ => false
       end.

(** A container whose constraint implies a JSON answer. *)
Definition container_expects_json (c : dict string json) : bool :=
  (match jget c "response_format" with
   | JDict rf => is_type rf "json_object" || is_type rf "json_schema"
   | _ => false
   end || match jget c "guided_json" with JDict _ => true | _ => false end)%bool.

Definition request_expects_json (r : QueuedRequest) : bool :=
  let p := r_payload r in
  if negb (is_chat r) then false
  else if r_json_object_stripped r then true
  else if bool_decide (is_Some (r_forced_tool_schema r)) then true
  else if existsb container_expects_json (containers p) then true
  else match grammar_text p with
       | Some g => match root_object_keys g with [] => false | _ => true end
       | None => false
       end.

(** ** The bare json_object guard *)

Definition other_constraints : list string :=
  ["grammar"; "guided_grammar"; "guided_json"; "guided_choice"; "guided_regex"; "structured_outputs"].

Definition other_constraint (c : dict string json) : bool := existsb (fun k => truthy (jget c k)) other_constraints.

(** [str(rf.get("type") or "")] *)
Definition type_text (rf : dict string json) : string :=
  let t := jget rf "type" in if truthy t then py_str t else "".

Definition _is_bare_json_object (rf : json) : bool :=
  match rf with
  | JDict rf => (String.eqb (strip (type_text rf)) "json_object"
                 && negb (existsb (fun k => truthy (jget rf k)) ["schema"; "json_schema"]))%bool
  | _ => false
  end.

Definition is_schema_container (c : dict string json) : bool :=
  match jget c "response_format" with JDict rf => String.eqb (type_text rf) "json_schema" | _ => false end.

(** A container with its [response_format] taken out when it is bare. *)
Definition strip_bare (c : dict string json) : dict string json :=
  if _is_bare_json_object (jget c "response_format") then ddel c "response_format" else c.

(** [extra_body] changed in place. *)
Definition on_extra_body (f : dict string json -> dict string json) (p : dict string json) : dict string json :=
  match jget p "extra_body" with JDict eb => dset p "extra_body" (JDict (f eb)) | _ => p end.

Section Guards.
Context (roles : dict string string) (shaping : dict string Shaping).

Definition apply_json_object_guard (r : QueuedRequest) : QueuedRequest :=
  let p := r_payload r in
  if negb (is_chat r) then r
  else match shape_of roles shaping r with
       | None => r
       | Some ep =>
           if negb (disable_any_whitespace ep) then r
           else if existsb other_constraint (containers p) then r
           else if existsb is_schema_container (containers p) then r
           else if negb (existsb (fun c => _is_bare_json_object (jget c "response_format")) (containers p)) then r
           else reshaped r (strip_bare (on_extra_body strip_bare p)) true (r_forced_tool_schema r) (r_forced_tool_name r)
       end.

(** ** The schema as a forced tool call *)

Definition _FORCED_TOOL_FALLBACK_NAME : string := "structured_response".
Definition _NOT_IMPLEMENTED_RESPONSE_FORMAT : string := "response_format".

Definition _TOOL_NAME_CHARS (c : ascii) : bool :=
  (is_upper c || is_lower c || is_digit c || Ascii.eqb c "_" || Ascii.eqb c "-")%bool.

Fixpoint lstrip_char (x : ascii) (s : string) : string :=
  match s with
  | String c s' => if Ascii.eqb c x then lstrip_char x s' else s
  | EmptyString => ""
  end.

(** [s.strip("_")] *)
Definition strip_char (x : ascii) (s : string) : string := srev (lstrip_char x (srev (lstrip_char x s))).

Definition _forced_tool_name (schema_name : json) : string :=
  let raw := if truthy schema_name then py_str schema_name else "" in
  let cleaned := strip_char "_" (stake 64 (smap (fun c => if _TOOL_NAME_CHARS c then c else "_"%char) raw)) in
  if String.eqb cleaned "" then _FORCED_TOOL_FALLBACK_NAME else cleaned.

(** The [json_schema] block and its schema, for a translatable format. *)
Definition _json_schema_response_format (rf : json) : option (dict string json * dict string json) :=
  match rf with
  | JDict rf =>
      if String.eqb (strip (type_text rf)) "json_schema" then
        match jget rf "json_schema" with
        | JDict js =>
            match jget js "schema" with
            | JDict ((_ :: _) as schema) => if String.eqb (type_text schema) "object" then Some (js, schema) else None
            | _ => None
            end
        | _ => None
        end
      else None
  | _ => None
  end.

(** The function the schema becomes. *)
Definition forced_function (js schema : dict string json) : dict string json :=
  let base := [("name", JStr (_forced_tool_name (jget js "name"))); ("parameters", JDict schema)] in
  match jget js "description" with
  | JStr d => if String.eqb (strip d) "" then base else (base ++ [("description", JStr d)])%list
  | _ => base
  end.

Definition tool_turn (js schema : dict string json) (p : dict string json) : dict string json :=
  let p := dset p "tools" (JList [JDict [("type", JStr "function"); ("function", JDict (forced_function js schema))]]) in
  dset p "tool_choice"
    (JDict [("type", JStr "function"); ("function", JDict [("name", JStr (_forced_tool_name (jget js "name")))])]).

Definition declares_tools (c : dict string json) : bool := (truthy (jget c "tools") || truthy (jget c "tool_choice"))%bool.

Definition format_of (c : dict string json) : option (dict string json * dict string json) :=
  _json_schema_response_format (jget c "response_format").

Definition apply_forced_tool_schema (r : QueuedRequest) : QueuedRequest :=
  let p := r_payload r in
  if (negb (is_chat r) || r_stream r)%bool then r
  else match shape_of roles shaping r with
       | None => r
       | Some ep =>
           if negb (bool_decide (_NOT_IMPLEMENTED_RESPONSE_FORMAT ∈ not_implemented ep)) then r
           else if existsb other_constraint (containers p) then r
           else if existsb declares_tools (containers p) then r
           else
             let translate js schema p :=
               reshaped r (tool_turn js schema p) (r_json_object_stripped r) (Some (JDict schema))
                 (_forced_tool_name (jget js "name")) in
             match format_of p with
             | Some (js, schema) => translate js schema (ddel p "response_format")
             | None =>
                 match jget p "extra_body" with
                 | JDict eb =>
                     match format_of eb with
                     | Some (js, schema) => translate js schema (dset p "extra_body" (JDict (ddel eb "response_format")))
                     | None => r
                     end
                 | _ => r
                 end
             end
       end.
End Guards.

(** ** Reading answers *)

(** [l[0] = x] *)
Definition with_first_choice (body : dict string json) (f : dict string json -> dict string json) : dict string json :=
  match jget body "choices" with
  | JList (JDict c :: rest) => dset body "choices" (JList (JDict (f c) :: rest))
  | _ => body
  end.

Definition with_message (f : dict string json -> dict string json) (c : dict string json) : dict string json :=
  match jget c "message" with JDict m => dset c "message" (JDict (f m)) | _ => c end.

Section Answers.
Context (float_text : string -> string).

Definition loads_ok (s : string) : bool := bool_decide (is_Some (loads float_text s)).

(** [(tool_call.get("function") or {}).get(k)] *)
Definition function_field (tc : dict string json) (k : string) : res json :=
  fn ← or_dict (jget tc "function"); Ret (jget fn k).

Definition _forced_tool_arguments (tool_call : dict string json) : option string :=
  match function_field tool_call "arguments" with
  | Raise _ => None
  | Ret (JDict args) => Some (dumps_raw (JDict args))
  | Ret (JStr args) =>
      if String.eqb (strip args) "" then None
      else match loads float_text args with Some (JDict _) => Some args | _ => None end
  | Ret _ => None
  end.

Inductive ForcedOutcome := Translated | Absent | Unusable | Malformed.

(** The calls that carry the forced name, in order. *)
Fixpoint calls_named (name : string) (l : list json) : res (list (dict string json)) :=
  match l with
  | [] => Ret []
  | JDict tc :: rest =>
      n ← function_field tc "name";
      rest ← calls_named name rest;
      Ret (if String.eqb (if truthy n then py_str n else "") name then tc :: rest else rest)
  | _ :: rest => calls_named name rest
  end.

(** [finish in (None, "", "tool_calls")] *)
Definition replaceable_finish (finish : json) : bool :=
  match finish with
  | JNull => true
  | JStr f => (String.eqb f "" || String.eqb f "tool_calls")%bool
  | _ => false
  end.

(** The choice with the answer in its message. *)
Definition answered (args : string) (c : dict string json) : dict string json :=
  let c := with_message (fun m => ddel (dset m "content" (JStr args)) "tool_calls") c in
  if replaceable_finish (jget c "finish_reason") then dset c "finish_reason" (JStr "stop") else c.

Definition _apply_forced_tool_answer (body : dict string json) (name : string) : ForcedOutcome * dict string json :=
  match first_choice body JNull with
  | Ret (JDict choice) =>
      match jget choice "message" with
      | JDict _ =>
          match calls_named name (_response_tool_calls body) with
          | Raise _ => (Malformed, body)
          | Ret [] => (Absent, body)
          | Ret (call :: _) =>
              match _forced_tool_arguments call with
              | None => (Unusable, body)
              | Some args => (Translated, with_first_choice body (answered args))
              end
          end
      | _ => (Malformed, body)
      end
  | _ => (Malformed, body)
  end.

(** ** Judging and repairing a body *)

(** [json_repair] and [jsonschema]: what the repair reads out of a text, whether
    a schema is well formed, and whether a document satisfies it. *)
Context (repair_loads : string -> option json) (valid_schema : dict string json -> bool)
        (satisfies : dict string json -> json -> bool).

Definition _schema_valid (obj : json) (schema : option (dict string json)) : bool :=
  match schema with
  | None => true
  | Some s => if valid_schema s then satisfies s obj else true
  end.

Definition _content_valid (text : string) (schema : option (dict string json)) : bool :=
  match loads float_text text with
  | Some obj => _schema_valid obj schema
  | None => false
  end.

Definition _repair_json_text (text : string) : option json :=
  if String.eqb (strip text) "" then None
  else match repair_loads text with
       | Some JNull | Some (JStr "") => None
       | o => o
       end.

(** [nb["choices"][0]["message"]["content"] = new_content] on a copy: subscripts
    raise on a wrong shape. *)
Definition _clone_with_content (body : dict string json) (new_content : string) : res (dict string json) :=
  match jget body "choices" with
  | JList (JDict c :: _) =>
      match jget c "message" with
      | JDict _ => Ret (with_first_choice body (with_message (fun m => dset m "content" (JStr new_content))))
      | _ => Raise TypeError
      end
  | JList (_ :: _) => Raise TypeError
  | JList [] => Raise IndexError
  | _ => Raise TypeError
  end.

(** One call with its arguments repaired; [None] when they cannot be. *)
Definition repair_call (tc : json) : option json :=
  match tc with
  | JDict d =>
      match jget d "function" with
      | JDict fn =>
          match jget fn "arguments" with
          | JStr args =>
              if String.eqb (strip args) "" then Some tc
              else if loads_ok args then Some tc
              else match _repair_json_text args with
                   | Some obj => Some (JDict (dset d "function" (JDict (dset fn "arguments" (JStr (dumps_raw obj))))))
                   | None => None
                   end
          | _ => Some tc
          end
      | _ => Some tc
      end
  | _ => Some tc
  end.

Definition _clone_with_repaired_args (body : dict string json) : option (dict string json) :=
  match jget body "choices" with
  | JList (JDict c :: _) =>
      match jget c "message" with
      | JDict m =>
          match jget m "tool_calls" with
          | JList tcs =>
              match mapM repair_call tcs with
              | Some tcs' => Some (with_first_choice body (with_message (fun m => dset m "tool_calls" (JList tcs'))))
              | None => None
              end
          | _ => None
          end
      | _ => None
      end
  | _ => None
  end.

Inductive Conformed := OkBody | RepairedBody (body : dict string json) | FailedBody.

(** [content.strip()]: only a text has it. *)
Definition content_strip (content : json) : res string :=
  match content with JStr s => Ret (strip s) | _ => Raise AttributeError end.

Definition args_valid (body : dict string json) : bool := forallb (_arg_str_valid float_text) (_response_tool_calls body).

Definition _conform_body (body : dict string json) (schema : option (dict string json)) (expect_json_content : bool)
  : res Conformed :=
  let content := _chat_completion_text body in
  content_ok ← (if expect_json_content then
                  t ← content_strip content;
                  Ret (if String.eqb t "" then true
                       else match content with JStr s => _content_valid s schema | _ => false end)
                else Ret true);
  if (content_ok && args_valid body)%bool then Ret OkBody
  else
    b1 ← (if content_ok then Ret (Some body)
          else match content with
               | JStr s =>
                   match _repair_json_text s with
                   | Some obj =>
                       if _schema_valid obj schema
                       then b ← _clone_with_content body (dumps_raw obj); Ret (Some b)
                       else Ret None
                   | None => Ret None
                   end
               | _ => Ret None
               end);
    match b1 with
    | None => Ret FailedBody
    | Some b1 =>
        if args_valid body then Ret (RepairedBody b1)
        else match _clone_with_repaired_args b1 with
             | Some b2 => Ret (RepairedBody b2)
             | None => Ret FailedBody
             end
    end.
End Answers.

(** ** The request side, in the order of the submit path *)

Section Shape.
Context (roles : dict string string) (shaping : dict string Shaping).
Context (forced_reasoning_budget thinking_reasoning_budget : Z) (thinking_enabled : bool).

Definition shape_request (now : Q) : SE ShapeState unit :=
  _ ← se_modify (canonicalize_thinking_switch roles shaping now);
  _ ← se_modify (fun s => set_req (apply_forced_reasoning_budget roles shaping forced_reasoning_budget (ss_req s)) s);
  _ ← se_modify (fun s => set_req (apply_json_object_guard roles shaping (ss_req s)) s);
  _ ← se_modify (fun s => set_req (apply_forced_tool_schema roles shaping (ss_req s)) s);
  _ ← apply_thinking roles shaping thinking_reasoning_budget thinking_enabled;
  se_modify (apply_reasoning_effort_map roles shaping).
End Shape.
