(* ===== verification/ForcedProps.v ===== *)
(** * What the request side keeps, and the schema's way there and back

    The footprint of each correction of the request side ([agree_off]), and the
    facts it gives: the gates a caller's constraint armed stay armed, the
    caller's own switch is what the backend reads, and an answer given through
    the forced tool call arrives where the caller looks for it. *)

From Stdlib Require Import Ascii Lia ZArith QArith.
From stdpp Require Import base list strings.
From S2P Require Import Prelude PyDict PyText Config Json ThinkSwitch ThinkBleed ThinkStats Cost Queue JsonRead JsonRound ToolStream Intent Grammar GrammarProps Effort EffortProps Forced.

Local Open Scope string_scope.

(** ** Footprints *)

(** The payload's [extra_body], when it is a dict. *)
Definition extra (p : dict string json) : option (dict string json) :=
  match jget p "extra_body" with JDict eb => Some eb | _ => None end.

(** The two payloads hold the same under every name but the ones in [ks], at
    the top level and in [extra_body]. *)
Definition agree_off (ks : list string) (p p' : dict string json) : Prop :=
  (forall k, k <> "extra_body" -> k ∉ ks -> dget p' k = dget p k)
  /\ match extra p, extra p' with
     | Some e, Some e' => forall k, k ∉ ks -> dget e' k = dget e k
     | None, None => True
     | _, _ => False
     end.

Lemma agree_refl ks p : agree_off ks p p.
Proof. split; [done|]. by destruct (extra p). Qed.

Lemma agree_trans ks p q r : agree_off ks p q -> agree_off ks q r -> agree_off ks p r.
Proof.
  intros [A1 A2] [B1 B2]. split; [intros k N1 N2; by rewrite B1, A1|].
  destruct (extra p), (extra q), (extra r); try done. intros k N. by rewrite B2, A2.
Qed.

Lemma agree_mono ks ks' p q : ks ⊆ ks' -> agree_off ks p q -> agree_off ks' p q.
Proof.
  intros S [A1 A2]. split; [intros k N1 N2; apply A1; [done|by intros ?%S]|].
  destruct (extra p), (extra q); try done. intros k N. apply A2. by intros ?%S.
Qed.

(** A change outside [extra_body]. *)
Lemma agree_top ks p q : "extra_body" ∉ ks -> (forall k, k ∉ ks -> dget q k = dget p k) -> agree_off ks p q.
Proof.
  intros N H. split; [intros; by apply H|]. unfold extra, jget. rewrite (H "extra_body") by done.
  by destruct (from_option _ _ _).
Qed.

Lemma agree_get ks p q k : agree_off ks p q -> k <> "extra_body" -> k ∉ ks -> jget q k = jget p k.
Proof. intros [A _] N1 N2. unfold jget. by rewrite A. Qed.

Lemma extra_get_dict p : extra p = get_dict p "extra_body".
Proof. unfold extra, get_dict, jget. destruct (dget p "extra_body") as [[]|]; done. Qed.

Lemma extra_dset p e : extra (dset p "extra_body" (JDict e)) = Some e.
Proof. unfold extra. by rewrite jget_dset_eq. Qed.

(** Decides that a literal name is not in a literal list. *)
Ltac not_in := by_decide.

(** *** The corrections of the reasoning controls *)

Definition switch_field : list string := ["chat_template_kwargs"].

Lemma rename_agrees p D out found : D <> [] -> rename_thinking_switch (JDict p) D = (JDict out, found) ->
  renamed D p out /\ agree_off switch_field p out.
Proof.
  intros HD. destruct D as [|d0 ds]; [done|]. set (D := d0 :: ds).
  destruct (rename_container_spec p "" D []) as (c & cp & e & E & R & NC & K & _).
  unfold rename_thinking_switch. fold D. rewrite E.
  assert (EB : get_dict c "extra_body" = get_dict p "extra_body") by (unfold get_dict; by rewrite K).
  assert (C : agree_off switch_field p c).
  { apply agree_top; [not_in|]. intros k N. apply K. intros ->. apply N. by left. }
  rewrite EB. destruct (get_dict p "extra_body") as [eb|] eqn:B.
  2: { intros [= -> ->]. done. }
  destruct (rename_container_spec eb "extra_body." D ([] ++ e)%list) as (eb' & cp' & e' & E' & _ & NC' & K' & _).
  rewrite E'. intros [= <- <-]. destruct cp'; [|done]. split.
  - intros ck Hck. destruct (R ck Hck) as (ck' & G1 & G2). exists ck'. split; [|done].
    apply get_dict_Some in G1. by apply get_dict_Some; rewrite dget_dset_ne.
  - split.
    + intros k N1 N2. rewrite dget_dset_ne by done. destruct C as [C _]. by apply C.
    + rewrite extra_get_dict, B, extra_dset. intros k N. apply K'. intros ->. apply N. by left.
Qed.

Section Shape.
Context (roles : dict string string) (shaping : dict string Shaping).
Context (forced_reasoning_budget thinking_reasoning_budget : Z) (thinking_enabled : bool).

(** What a correction leaves of a request beside its payload. *)
Definition same_request (r r' : QueuedRequest) : Prop :=
  exists p b s n, r' = reshaped r p b s n.

Lemma reshaped_id r : reshaped r (r_payload r) (r_json_object_stripped r) (r_forced_tool_schema r) (r_forced_tool_name r) = r.
Proof. by destruct r. Qed.

Lemma same_request_refl r : same_request r r.
Proof. rewrite <- (reshaped_id r) at 2. by eexists _, _, _, _. Qed.

Lemma same_request_trans a b c : same_request a b -> same_request b c -> same_request a c.
Proof. intros (p & x & y & z & ->) (p' & x' & y' & z' & ->). by exists p', x', y', z'. Qed.

Lemma same_request_chat r r' : same_request r r' -> is_chat r' = is_chat r /\ shape_of roles shaping r' = shape_of roles shaping r.
Proof. intros (p & x & y & z & ->). done. Qed.

(** A correction that touches only the payload, off [ks]. *)
Definition payload_only (ks : list string) (r r' : QueuedRequest) : Prop :=
  (exists p, r' = with_payload r p) /\ agree_off ks (r_payload r) (r_payload r').

Lemma payload_only_refl ks r : payload_only ks r r.
Proof. split; [|apply agree_refl]. exists (r_payload r). symmetry. apply reshaped_id. Qed.

Lemma payload_only_with ks r p : agree_off ks (r_payload r) p -> payload_only ks r (with_payload r p).
Proof. intros A. split; [by exists p|done]. Qed.

Lemma payload_only_mono ks ks' r r' : ks ⊆ ks' -> payload_only ks r r' -> payload_only ks' r r'.
Proof. intros S [E A]. split; [done|by eapply agree_mono]. Qed.

Lemma payload_only_trans ks a b c : payload_only ks a b -> payload_only ks b c -> payload_only ks a c.
Proof. intros [[p ->] A] [[q ->] B]. split; [by exists q|by eapply agree_trans]. Qed.

Lemma canonicalize_footprint now s :
  payload_only switch_field (ss_req s) (ss_req (canonicalize_thinking_switch roles shaping now s)).
Proof.
  unfold canonicalize_thinking_switch. case_match; [apply payload_only_refl|].
  destruct (shape_of roles shaping (ss_req s)) as [ep|]; [|apply payload_only_refl].
  destruct (thinking_kwargs ep) as [|d ds] eqn:ED; [apply payload_only_refl|].
  destruct (rename_thinking_switch _ _) as [out found] eqn:E.
  destruct out as [| | | | | |out]; try apply payload_only_refl.
  destruct found as [|f fs]; [apply payload_only_refl|]. apply payload_only_with.
  by apply rename_agrees in E as [_ E].
Qed.

Lemma forced_budget_footprint r :
  payload_only effort_fields r (apply_forced_reasoning_budget roles shaping forced_reasoning_budget r).
Proof.
  unfold apply_forced_reasoning_budget. case_match; [apply payload_only_refl|].
  destruct (shape_of roles shaping r) as [ep|]; [|apply payload_only_refl].
  case_match; [apply payload_only_refl|]. apply payload_only_with, agree_top; [not_in|].
  intros k N. rewrite pad_get by (intros ->; apply N; by do 3 right; left). by apply force_effort_other.
Qed.

Definition opt_in_fields : list string := "thinking" :: effort_fields.

Lemma take_want_agrees p : agree_off ["thinking"] p (take_want p).2.
Proof.
  assert (N : forall k, k ∉ ["thinking"] -> "thinking" <> k) by (intros k N <-; apply N; by left).
  unfold take_want. destruct (jget p "extra_body") as [| | | | | |eb] eqn:E; cbn [snd];
    try (apply agree_top; [not_in|]; intros k Hk; apply dget_ddel_ne; auto).
  split.
  - intros k N1 N2. rewrite dget_ddel_ne, dget_dset_ne by auto. done.
  - unfold extra at 1. rewrite E. unfold extra. rewrite jget_ddel_ne, jget_dset_eq by done.
    intros k Hk. apply dget_ddel_ne; auto.
Qed.

Lemma opt_in_agrees ep want p : agree_off effort_fields p (opt_in_payload thinking_reasoning_budget ep want p).
Proof.
  apply agree_top; [not_in|]. intros k N. unfold effort_fields in N. rewrite !not_elem_of_cons in N.
  destruct N as (N1 & N2 & N3 & N4 & _). unfold opt_in_payload. cbv zeta.
  set (ck := foldl _ _ _). set (d := if String.eqb (reasoning_effort ep) "" then _ else _).
  destruct (String.eqb d "").
  - by rewrite !dget_dset_ne.
  - pose proof (fold_keeps p ck [] k N2 N3) as K. destruct (fold_caller_effort p ck []) as [[o p1] ck1].
    by rewrite !dget_dset_ne.
Qed.

Lemma thinking_footprint s :
  payload_only opt_in_fields (ss_req s) (ss_req (apply_thinking roles shaping thinking_reasoning_budget thinking_enabled s).2).
Proof.
  unfold apply_thinking. rewrite run_get. destruct (take_want (r_payload (ss_req s))) as [want p] eqn:T.
  pose proof (take_want_agrees (r_payload (ss_req s))) as A. rewrite T in A. cbn [snd] in A.
  assert (A' : agree_off opt_in_fields (r_payload (ss_req s)) p).
  { eapply agree_mono; [|exact A]. intros x ->%list_elem_of_singleton. by left. }
  rewrite run_modify. case_match; [by apply payload_only_with|].
  destruct (shape_of roles shaping (ss_req s)) as [ep|]; [|by apply payload_only_with].
  case_match; [by apply payload_only_with|].
  assert (B : agree_off opt_in_fields (r_payload (ss_req s)) (opt_in_payload thinking_reasoning_budget ep want p)).
  { eapply agree_trans; [exact A'|]. eapply agree_mono; [|apply opt_in_agrees]. intros x Hx. by right. }
  rewrite run_modify. case_match; [by apply payload_only_with|]. rewrite run_lift.
  destruct (thinking_allowed_keys _); by apply payload_only_with.
Qed.

Definition map_fields : list string := ["chat_template_kwargs"; "reasoning_effort"].

Lemma map_footprint s :
  payload_only map_fields (ss_req s) (ss_req (apply_reasoning_effort_map roles shaping s)).
Proof.
  unfold apply_reasoning_effort_map. case_match; [apply payload_only_refl|].
  destruct (shape_of roles shaping (ss_req s)) as [ep|]; [|apply payload_only_refl].
  destruct (reasoning_effort_map ep) as [|m0 ms]; [apply payload_only_refl|].
  set (m := m0 :: ms). clearbody m. set (p := r_payload (ss_req s)).
  set (X := match jget p "chat_template_kwargs" with JDict ck => _ | _ => _ end).
  assert (HX : forall k, k ∉ map_fields -> dget X.1 k = dget p k).
  { intros k N. unfold X. repeat case_match; try done. simpl. apply dget_dset_ne. intros <-. apply N. by left. }
  destruct X as [p1 s1]. cbn [fst] in HX.
  assert (G : forall k w, k ∉ map_fields -> dget (remap_container p1 w m).1 k = dget p k).
  { intros k w N. rewrite remap_container_other; [by apply HX|]. intros ->. apply N. by right; left. }
  destruct (jget p1 "reasoning_effort") as [| | | |w| |];
    try (apply payload_only_with, agree_top; [not_in|]; exact HX).
  specialize (fun k => G k w). destruct (remap_container p1 w m) as [p2 sent].
  apply payload_only_with, agree_top; [not_in|]. exact G.
Qed.

(** *** The two guards *)

Lemma on_extra_agrees ks f p : (forall e k, k ∉ ks -> dget (f e) k = dget e k) -> agree_off ks p (on_extra_body f p).
Proof.
  intros H. unfold on_extra_body. destruct (jget p "extra_body") as [| | | | | |e] eqn:E; try apply agree_refl.
  split; [intros k N _; by apply dget_dset_ne|]. unfold extra at 1. rewrite E, extra_dset. intros k. apply H.
Qed.

Lemma strip_bare_get c k : k ∉ ["response_format"] -> dget (strip_bare c) k = dget c k.
Proof. intros N. unfold strip_bare. case_match; [|done]. apply dget_ddel_ne. intros <-. apply N. by left. Qed.

Lemma json_guard_cases r :
  apply_json_object_guard roles shaping r = r
  \/ is_chat r = true /\ exists p, apply_json_object_guard roles shaping r
       = reshaped r p true (r_forced_tool_schema r) (r_forced_tool_name r) /\ agree_off ["response_format"] (r_payload r) p.
Proof.
  unfold apply_json_object_guard. destruct (is_chat r); cbn [negb]; [|by left].
  destruct (shape_of roles shaping r) as [ep|]; [|by left]. repeat (case_match; [by left|]).
  right. split; [done|]. eexists. split; [done|].
  eapply agree_trans; [apply (on_extra_agrees _ strip_bare), strip_bare_get|].
  apply agree_top; [not_in|apply strip_bare_get].
Qed.

Definition tool_fields : list string := ["response_format"; "tools"; "tool_choice"].

Lemma tool_turn_get js schema p k : k ∉ tool_fields -> dget (tool_turn js schema p) k = dget p k.
Proof.
  intros N. unfold tool_fields in N. rewrite !not_elem_of_cons in N. destruct N as (N1 & N2 & N3 & _).
  unfold tool_turn. by rewrite !dget_dset_ne.
Qed.

Lemma forced_tool_cases r :
  apply_forced_tool_schema roles shaping r = r
  \/ is_chat r = true /\ exists js schema p, apply_forced_tool_schema roles shaping r
       = reshaped r (tool_turn js schema p) (r_json_object_stripped r) (Some (JDict schema)) (_forced_tool_name (jget js "name"))
     /\ agree_off tool_fields (r_payload r) (tool_turn js schema p).
Proof.
  unfold apply_forced_tool_schema. destruct (is_chat r); cbn [negb orb]; [|by left].
  destruct (r_stream r); [by left|].
  destruct (shape_of roles shaping r) as [ep|]; [|by left]. repeat (case_match; [by left|]).
  assert (TT : forall js schema q, agree_off tool_fields q (tool_turn js schema q))
    by (intros; apply agree_top; [not_in|]; intros; by apply tool_turn_get).
  destruct (format_of (r_payload r)) as [[js schema]|].
  - right. split; [done|]. exists js, schema, (ddel (r_payload r) "response_format"). split; [done|].
    eapply agree_trans; [|apply TT]. apply agree_top; [not_in|].
    intros k N. apply dget_ddel_ne. intros <-. apply N. by left.
  - destruct (jget (r_payload r) "extra_body") as [| | | | | |eb] eqn:E; try by left.
    destruct (format_of eb) as [[js schema]|]; [|by left].
    right. split; [done|]. eexists js, schema, _. split; [done|].
    eapply agree_trans; [|apply TT]. split; [intros k N _; by apply dget_dset_ne|].
    unfold extra at 1. rewrite E, extra_dset. intros k N. apply dget_ddel_ne. intros <-. apply N. by left.
Qed.

(** ** The gates of the answer *)

(** The names the predicates read. *)
Definition contract_keys : list string :=
  ["response_format"; "structured_outputs"; "guided_json"; "guided_grammar"; "guided_choice"; "grammar"].

Lemma containers_extra p : containers p = p :: match extra p with Some e => [e] | None => [] end.
Proof. unfold containers, extra. by destruct (jget p "extra_body"). Qed.

Lemma container_expects_ext c c' : (forall k, k ∈ contract_keys -> jget c' k = jget c k) ->
  container_expects_json c' = container_expects_json c.
Proof. intros H. unfold container_expects_json. by rewrite !H by not_in. Qed.

Definition off_contract (ks : list string) : Prop := forall k, k ∈ contract_keys -> k ∉ ks.

(** The payload's part of the predicates. *)
Lemma contract_agree ks p p' : off_contract ks -> agree_off ks p p' ->
  (forall k, k ∈ contract_keys -> jget p' k = jget p k)
  /\ match extra p, extra p' with
     | Some e, Some e' => forall k, k ∈ contract_keys -> jget e' k = jget e k
     | None, None => True
     | _, _ => False
     end.
Proof.
  intros O [A B]. split.
  - intros k Hk. unfold jget. rewrite A; [done| |by apply O]. intros ->. revert Hk. not_in.
  - destruct (extra p), (extra p'); try done. intros k Hk. unfold jget. rewrite B; [done|by apply O].
Qed.

Definition extract_via (g : json) (e : option (dict string json)) : option (string * bool) :=
  let text j := match j with JStr g => if String.eqb (strip g) "" then None else Some g | _ => None end in
  match text g with
  | Some g => Some (g, false)
  | None => match e with
            | Some eb => match text (jget eb "grammar") with Some g => Some (g, true) | None => None end
            | None => None
            end
  end.

Lemma extract_grammar_extra p : extract_grammar p = extract_via (jget p "grammar") (extra p).
Proof. unfold extract_grammar, extract_via, extra. by destruct (jget p "extra_body"). Qed.

Lemma contract_grammar p p' :
  (forall k, k ∈ contract_keys -> jget p' k = jget p k) ->
  match extra p, extra p' with
  | Some e, Some e' => forall k, k ∈ contract_keys -> jget e' k = jget e k
  | None, None => True
  | _, _ => False
  end -> extract_grammar p' = extract_grammar p.
Proof.
  intros H E. rewrite !extract_grammar_extra, H by not_in. unfold extract_via.
  destruct (extra p), (extra p'); try done. by rewrite E by not_in.
Qed.

(** Marks kept and a payload changed off the contract: the gates are the same. *)
Lemma gates_agree ks r r' : off_contract ks -> payload_only ks r r' ->
  request_expects_json r' = request_expects_json r /\ request_is_structured r' = request_is_structured r.
Proof.
  intros O [[p' ->] A]. cbn [r_payload with_payload reshaped] in A.
  destruct (contract_agree _ _ _ O A) as [H E]. pose proof (contract_grammar _ _ H E) as G.
  unfold request_expects_json, request_is_structured, grammar_text.
  cbn [is_chat r_payload_type r_payload r_json_object_stripped r_forced_tool_schema with_payload reshaped].
  change (is_chat (with_payload r p')) with (is_chat r). rewrite G, !containers_extra, !H by not_in. cbn [existsb].
  rewrite (container_expects_ext (r_payload r) p') by done. split.
  - destruct (extra (r_payload r)) as [e|], (extra p') as [e'|]; try done. cbn [existsb]. by rewrite (container_expects_ext e e') by done.
  - unfold extra in E.
    destruct (jget (r_payload r) "extra_body") as [| | | | | |e], (jget p' "extra_body") as [| | | | | |e']; try done.
    cbn [existsb is_structured_keys]. by rewrite !E by not_in.
Qed.

Lemma gates_marked r p b s n : is_chat r = true -> b = true \/ is_Some s ->
  request_expects_json (reshaped r p b s n) = true /\ request_is_structured (reshaped r p b s n) = true.
Proof.
  intros C M. unfold request_expects_json, request_is_structured.
  change (is_chat (reshaped r p b s n)) with (is_chat r). rewrite C. cbn [negb r_json_object_stripped r_forced_tool_schema reshaped].
  destruct b; [done|]. destruct M as [M|M]; [done|]. by rewrite !bool_decide_true.
Qed.

(** [b] holds where [a] did. *)
Definition gates_kept (r r' : QueuedRequest) : Prop :=
  (request_expects_json r = true -> request_expects_json r' = true)
  /\ (request_is_structured r = true -> request_is_structured r' = true).

Lemma gates_kept_payload ks r r' : off_contract ks -> payload_only ks r r' -> gates_kept r r'.
Proof. intros O P. destruct (gates_agree ks r r' O P) as [E1 E2]. unfold gates_kept. by rewrite E1, E2. Qed.

Lemma gates_kept_marked r p b s n : is_chat r = true -> b = true \/ is_Some s -> gates_kept r (reshaped r p b s n).
Proof. intros C M. destruct (gates_marked r p b s n C M) as [E1 E2]. by split. Qed.

Lemma gates_kept_trans a b c : gates_kept a b -> gates_kept b c -> gates_kept a c.
Proof. unfold gates_kept. naive_solver. Qed.

Lemma off_contract_dec ks : forallb (fun k => negb (bool_decide (k ∈ ks))) contract_keys = true -> off_contract ks.
Proof.
  rewrite forallb_forall. intros H k Hk. apply list_elem_of_In, H in Hk. by apply negb_true_iff, bool_decide_eq_false in Hk.
Qed.

(** The six corrections, as states of one request. *)
Lemma shape_request_steps now s :
  let s1 := canonicalize_thinking_switch roles shaping now s in
  let r2 := apply_forced_reasoning_budget roles shaping forced_reasoning_budget (ss_req s1) in
  let r3 := apply_json_object_guard roles shaping r2 in
  let r4 := apply_forced_tool_schema roles shaping r3 in
  let x := apply_thinking roles shaping thinking_reasoning_budget thinking_enabled (set_req r4 s1) in
  (shape_request roles shaping forced_reasoning_budget thinking_reasoning_budget thinking_enabled now s).2
  = match x.1 with Ret _ => apply_reasoning_effort_map roles shaping x.2 | Raise _ => x.2 end.
Proof.
  cbv zeta. unfold shape_request. rewrite !run_modify, run_bind. cbn [set_req ss_req ss_bleed ss_thinking_active ss_remaps ss_remap_logged].
  set (x := apply_thinking _ _ _ _ _). destruct x as [[] ?]; done.
Qed.

Definition shaped_request now s : QueuedRequest :=
  ss_req (shape_request roles shaping forced_reasoning_budget thinking_reasoning_budget thinking_enabled now s).2.

(** A relation every correction keeps holds over the request side. *)
Lemma shape_chain (R : QueuedRequest -> QueuedRequest -> Prop) now s :
  (forall a b c, R a b -> R b c -> R a c) ->
  (forall r r', payload_only opt_in_fields r r' -> R r r') ->
  (forall r, R r (apply_json_object_guard roles shaping r)) ->
  (forall r, R r (apply_forced_tool_schema roles shaping r)) ->
  R (ss_req s) (shaped_request now s).
Proof.
  intros T P J F. unfold shaped_request. rewrite shape_request_steps. cbv zeta.
  set (s1 := canonicalize_thinking_switch roles shaping now s).
  set (r2 := apply_forced_reasoning_budget roles shaping forced_reasoning_budget (ss_req s1)).
  set (r4 := apply_forced_tool_schema roles shaping (apply_json_object_guard roles shaping r2)).
  set (x := apply_thinking _ _ _ _ _).
  assert (S : forall ks r r', ks ⊆ opt_in_fields -> payload_only ks r r' -> R r r')
    by (intros ks r r' I H; apply P; by eapply payload_only_mono).
  apply (T _ (ss_req s1)); [eapply S; [|apply canonicalize_footprint]; not_in|].
  apply (T _ r2); [eapply S; [|apply forced_budget_footprint]; not_in|].
  apply (T _ _ _ (J r2)), (T _ r4 _ (F _)), (T _ (ss_req x.2)).
  { exact (P _ _ (thinking_footprint (set_req r4 s1))). }
  destruct x.1; [eapply S; [|apply map_footprint]; not_in|apply P, payload_only_refl].
Qed.

Lemma gates_kept_chain now s : gates_kept (ss_req s) (shaped_request now s).
Proof.
  apply shape_chain; [exact gates_kept_trans|..].
  - intros r r'. apply gates_kept_payload. by apply off_contract_dec.
  - intros r. destruct (json_guard_cases r) as [->|(C & p & -> & _)]; [done|].
    apply gates_kept_marked; [exact C|by left].
  - intros r. destruct (forced_tool_cases r) as [->|(C & js & schema & p & -> & _)]; [done|].
    apply gates_kept_marked; [exact C|right; by eexists].
Qed.

(** Whatever the request side rewrites, an answer is judged as the caller's own
    request asked: if the constraint the caller sent implied a JSON answer it
    still does on the request that is sent, and if it made truncation an error
    it still does, although the constraint itself may have left the payload. *)
Theorem gates_stay_armed now s : gates_kept (ss_req s) (shaped_request now s).
Proof. apply gates_kept_chain. Qed.

(** The fields the request side may rewrite. *)
Definition shaped_fields : list string := opt_in_fields ++ tool_fields.

(** The request side leaves alone everything but the reasoning controls, the
    token cap, the response format and the tools: the conversation, the model
    and every other field of the payload and of its [extra_body] reach the
    backend as the caller sent them, and nothing else of the request changes. *)
Theorem request_side_footprint now s :
  same_request (ss_req s) (shaped_request now s)
  /\ agree_off shaped_fields (r_payload (ss_req s)) (r_payload (shaped_request now s)).
Proof.
  apply (shape_chain (fun r r' => same_request r r' /\ agree_off shaped_fields (r_payload r) (r_payload r'))).
  - intros a b c [A1 A2] [B1 B2]. split; [by eapply same_request_trans|by eapply agree_trans].
  - intros r r' [[p ->] A]. split; [by eexists _, _, _, _|]. eapply agree_mono; [|exact A].
    intros k Hk. apply elem_of_app. by left.
  - intros r. destruct (json_guard_cases r) as [->|(C & p & -> & A)]; [split; [apply same_request_refl|apply agree_refl]|].
    split; [by eexists _, _, _, _|]. eapply agree_mono; [|exact A]. not_in.
  - intros r. destruct (forced_tool_cases r) as [->|(C & js & schema & p & -> & A)]; [split; [apply same_request_refl|apply agree_refl]|].
    split; [by eexists _, _, _, _|]. eapply agree_mono; [|exact A]. not_in.
Qed.

(** ** The caller's switch *)

Lemma force_keeps_keyword ep p k v : k <> "reasoning_effort" ->
  dget (template_kwargs p) k = Some v -> dget (template_kwargs (force_effort ep p)) k = Some v.
Proof.
  intros N H. unfold force_effort. destruct (thinking_kwargs ep) as [|k0 ks]; [done|].
  destruct (String.eqb _ _); [done|].
  pose proof (fold_spec p (template_kwargs p) (k0 :: ks)) as F.
  destruct (fold_caller_effort _ _ _) as [[o p1] ck1]. rewrite template_kwargs_dset.
  assert (G : dget ck1 k = Some v).
  { destruct F as [(_ & _ & _ & ->)|[_ F]]; [done|].
    destruct (caller_efforts p) as [|e [|? ?]]; [by destruct F as (_ & _ & ->)| |by destruct F as (_ & _ & ->)].
    destruct F as [_ F]. destruct (String.eqb e "none"); destruct F as [_ ->];
      [by rewrite dget_setdefaults, H|by rewrite dget_dset_ne]. }
  destruct (outcome_defaults o); [rewrite dget_dset_ne by done|]; by rewrite dget_setdefaults, G.
Qed.

Lemma want_agree ks p p' : "thinking" ∉ ks -> agree_off ks p p' -> truthy (take_want p).1 = false -> truthy (take_want p').1 = false.
Proof.
  intros N A. pose proof (agree_get _ _ _ "thinking" A ltac:(done) N) as E. destruct A as [_ B].
  assert (W : forall p, truthy (take_want p).1
    = (truthy (jget p "thinking") || match extra p with Some e => truthy (jget e "thinking") | None => false end)%bool).
  { intros q. unfold take_want, extra. destruct (jget q "extra_body") as [| | | | | |e]; simpl; rewrite ?orb_false_r; try done.
    by destruct (truthy (jget q "thinking")) eqn:T. }
  rewrite !W, E. destruct (extra p) as [e|], (extra p') as [e'|]; try done.
  assert (jget e' "thinking" = jget e "thinking") as -> by (unfold jget; by rewrite B). done.
Qed.

Lemma agree_kwargs ks p p' : "chat_template_kwargs" ∉ ks -> agree_off ks p p' -> template_kwargs p' = template_kwargs p.
Proof. intros N A. apply template_kwargs_ext. by apply (agree_get ks). Qed.

Lemma no_opt_in s : truthy (take_want (r_payload (ss_req s))).1 = false ->
  apply_thinking roles shaping thinking_reasoning_budget thinking_enabled s
  = (Ret tt, set_req (with_payload (ss_req s) (take_want (r_payload (ss_req s))).2) s).
Proof. intros H. unfold apply_thinking. rewrite run_get. destruct (take_want _) as [want p]. cbn [fst] in H. rewrite run_modify, H. done. Qed.

Lemma map_keeps_keyword s k v : k <> "reasoning_effort" ->
  dget (template_kwargs (r_payload (ss_req s))) k = Some v ->
  dget (template_kwargs (r_payload (ss_req (apply_reasoning_effort_map roles shaping s)))) k = Some v.
Proof.
  intros N H. unfold apply_reasoning_effort_map. case_match; [done|].
  destruct (shape_of roles shaping (ss_req s)) as [ep|]; [|done].
  destruct (reasoning_effort_map ep) as [|m0 ms]; [done|]. set (m := m0 :: ms). clearbody m.
  set (p := r_payload (ss_req s)) in *. set (X := match jget p "chat_template_kwargs" with JDict ck => _ | _ => _ end).
  assert (HX : dget (template_kwargs X.1) k = Some v).
  { unfold X, template_kwargs in *. destruct (jget p "chat_template_kwargs") as [| | | | | |ck] eqn:E; cbn [fst]; rewrite ?E; try done.
    destruct (jget ck "reasoning_effort") as [| | | |w| |]; cbn [fst]; rewrite ?E; try done.
    pose proof (remap_container_other ck w m k N) as G. destruct (remap_container ck w m) as [ck' sent].
    simpl. rewrite jget_dset_eq. simpl in G. by rewrite G. }
  destruct X as [p1 s1]. cbn [fst] in HX. destruct (jget p1 "reasoning_effort") as [| | | |w| |]; try done.
  pose proof (remap_container_other p1 w m "chat_template_kwargs" ltac:(done)) as G.
  destruct (remap_container p1 w m) as [p2 sent]. cbn [ss_req set_req r_payload with_payload reshaped fst] in *.
  by rewrite (template_kwargs_ext p1) by (unfold jget; by rewrite G).
Qed.

(** What the caller says about a declared key: its own value there, or the value
    its other spellings agree on. *)
Definition caller_switch (D : list string) (p : dict string json) (d : string) : option json :=
  match dget (template_kwargs p) d with
  | Some v => Some v
  | None => JBool <$> carried D (template_kwargs p)
  end.

Lemma rename_reports p D ck out found : D <> [] -> get_dict p "chat_template_kwargs" = Some ck -> foreign_keys D ck <> [] ->
  rename_thinking_switch (JDict p) D = (out, found) -> found <> [].
Proof.
  intros HD G F. destruct D as [|d0 ds]; [done|]. set (D := d0 :: ds) in *.
  pose proof (rename_container_cases p "" D []) as C. rewrite G in C.
  destruct C as [[? _]|(_ & ck' & e & E & _)]; [done|]. unfold rename_thinking_switch. fold D. rewrite E.
  destruct (get_dict _ "extra_body") as [eb|]; [|by intros [= <- <-]].
  destruct (rename_container_spec eb "extra_body." D ([] ++ [e])%list) as (eb' & cp & e' & -> & _). by intros [= <- <-].
Qed.

Lemma caller_switch_entry D p d v ck : get_dict p "chat_template_kwargs" = Some ck -> d ∈ D ->
  caller_switch D p d = Some v -> renamed_entry D ck d = Some v.
Proof.
  intros G%get_dict_Some Hd. unfold caller_switch, template_kwargs, renamed_entry, jget. rewrite G. cbn [from_option id].
  rewrite decide_False by (intros [[_ ?] _]%list_elem_of_filter; done).
  destruct (dget ck d); [done|]. by rewrite decide_True.
Qed.

Lemma canonicalize_carries now s ep d v :
  is_chat (ss_req s) = true -> shape_of roles shaping (ss_req s) = Some ep -> d ∈ thinking_kwargs ep ->
  caller_switch (thinking_kwargs ep) (r_payload (ss_req s)) d = Some v ->
  dget (template_kwargs (r_payload (ss_req (canonicalize_thinking_switch roles shaping now s)))) d = Some v.
Proof.
  intros C S Hd H. unfold canonicalize_thinking_switch. rewrite C, S. cbn [negb].
  destruct (thinking_kwargs ep) as [|d0 ds] eqn:ED; [by apply not_elem_of_nil in Hd|].
  set (D := d0 :: ds) in *. assert (HD : D <> []) by done. clearbody D.
  set (p := r_payload (ss_req s)) in *.
  destruct (get_dict p "chat_template_kwargs") as [ck|] eqn:G.
  2: { exfalso. unfold caller_switch in H. assert (template_kwargs p = []) as E.
       { unfold template_kwargs, jget. unfold get_dict in G. by destruct (dget p "chat_template_kwargs") as [[]|]. }
       rewrite E in H. done. }
  pose proof (caller_switch_entry D p d v ck G Hd H) as RE.
  destruct (rename_thinking_switch (JDict p) D) as [out found] eqn:E.
  assert (O : exists o, out = JDict o) by (destruct (rename_thinking_switch_carries p D HD) as (o & f & E' & _); rewrite E' in E; injection E as <- _; by exists o).
  destruct O as [o ->]. destruct found as [|f fs].
  - destruct (foreign_keys D ck) as [|x xs] eqn:F.
    + rewrite renamed_entry_no_foreign in RE by done. apply get_dict_Some in G. unfold template_kwargs, jget.
      fold p. by rewrite G.
    + by destruct (rename_reports p D ck (JDict o) [] HD G ltac:(by rewrite F) E).
  - destruct (rename_agrees p D o _ HD E) as [R _]. destruct (R ck G) as (ck' & G' & K).
    cbn [ss_req set_bleed set_req r_payload with_payload reshaped]. apply get_dict_Some in G'.
    unfold template_kwargs, jget. rewrite G'. cbn [from_option id]. by rewrite K.
Qed.

(** A caller's own thinking switch is what the backend reads.  If the caller set
    a declared key, or set the switch under another spelling, that value is the
    declared key's in the payload sent on, whatever default the endpoint has,
    unless the caller also opted in to thinking. *)
Theorem caller_switch_survives now s ep d v :
  is_chat (ss_req s) = true -> shape_of roles shaping (ss_req s) = Some ep ->
  d ∈ thinking_kwargs ep -> d <> "reasoning_effort" ->
  truthy (take_want (r_payload (ss_req s))).1 = false ->
  caller_switch (thinking_kwargs ep) (r_payload (ss_req s)) d = Some v ->
  dget (template_kwargs (r_payload (shaped_request now s))) d = Some v.
Proof.
  intros C S Hd Hn W H. unfold shaped_request. rewrite shape_request_steps. cbv zeta.
  pose proof (canonicalize_carries now s ep d v C S Hd H) as K1.
  pose proof (canonicalize_footprint now s) as [_ A1].
  set (s1 := canonicalize_thinking_switch roles shaping now s) in *.
  pose proof (forced_budget_footprint (ss_req s1)) as [_ A2].
  set (r2 := apply_forced_reasoning_budget roles shaping forced_reasoning_budget (ss_req s1)) in *.
  assert (K2 : dget (template_kwargs (r_payload r2)) d = Some v).
  { unfold r2, apply_forced_reasoning_budget. destruct (is_chat (ss_req s1)); [|done]. cbn [negb].
    destruct (shape_of roles shaping (ss_req s1)) as [ep'|]; [|done]. destruct (forces_reasoning ep'); [|done].
    cbn [negb r_payload with_payload reshaped].
    rewrite (template_kwargs_ext (force_effort ep' (r_payload (ss_req s1)))) by by apply pad_jget.
    by apply force_keeps_keyword. }
  assert (W2 : truthy (take_want (r_payload r2)).1 = false)
    by (eapply want_agree; [|exact A2|]; [not_in|]; eapply want_agree; [|exact A1|exact W]; not_in).
  set (r4 := apply_forced_tool_schema roles shaping (apply_json_object_guard roles shaping r2)).
  assert (A4 : agree_off tool_fields (r_payload r2) (r_payload r4)).
  { unfold r4. eapply (agree_trans _ _ (r_payload (apply_json_object_guard roles shaping r2))).
    - destruct (json_guard_cases r2) as [->|(_ & p & -> & A)]; [apply agree_refl|].
      eapply agree_mono; [|exact A]. not_in.
    - destruct (forced_tool_cases (apply_json_object_guard roles shaping r2)) as [->|(_ & js & sc & p & -> & A)];
        [apply agree_refl|exact A]. }
  assert (W4 : truthy (take_want (r_payload r4)).1 = false) by (eapply want_agree; [|exact A4|done]; not_in).
  rewrite (no_opt_in (set_req r4 s1)) by done. cbn [fst snd]. apply map_keeps_keyword; [done|].
  cbn [ss_req set_req r_payload with_payload reshaped].
  rewrite (agree_kwargs ["thinking"] (r_payload r4)) by (first [not_in|apply take_want_agrees]).
  by rewrite (agree_kwargs tool_fields (r_payload r2)) by (first [not_in|exact A4]).
Qed.
End Shape.

(** ** The name of the forced tool *)

(** What every engine accepts as a function name. *)
Definition legal_tool_name (s : string) : Prop :=
  sforall _TOOL_NAME_CHARS s = true /\ (1 <= String.length s <= 64)%nat.

Lemma sforall_stake f n s : sforall f s = true -> sforall f (stake n s) = true.
Proof. intros H. rewrite <- (stake_sdrop n s), sforall_app, andb_true_iff in H. tauto. Qed.

Lemma lstrip_char_facts f x s : sforall f s = true ->
  sforall f (lstrip_char x s) = true /\ (String.length (lstrip_char x s) <= String.length s)%nat.
Proof.
  induction s as [|c s IH]; cbn [lstrip_char sforall]; [done|]. rewrite andb_true_iff. intros [Hc Hs].
  destruct (Ascii.eqb c x); [|by cbn [sforall]; rewrite Hc, Hs]. destruct (IH Hs). cbn [String.length]. split; [done|lia].
Qed.

Lemma slength_srev s : String.length (srev s) = String.length s.
Proof. induction s as [|c s IH]; [done|]. rewrite srev_cons, slength_app, IH. simpl. lia. Qed.

Lemma strip_char_facts f x s : sforall f s = true ->
  sforall f (strip_char x s) = true /\ (String.length (strip_char x s) <= String.length s)%nat.
Proof.
  intros H. unfold strip_char. destruct (lstrip_char_facts f x s H) as [H1 L1].
  destruct (lstrip_char_facts f x (srev (lstrip_char x s))) as [H2 L2]; [by rewrite sforall_srev|].
  rewrite sforall_srev, slength_srev. rewrite slength_srev in L2. split; [done|lia].
Qed.

Lemma sanitized_chars s : sforall _TOOL_NAME_CHARS (smap (fun c => if _TOOL_NAME_CHARS c then c else "_"%char) s) = true.
Proof. induction s as [|c s IH]; [done|]. cbn [smap sforall]. rewrite IH, andb_true_r. by destruct (_TOOL_NAME_CHARS c) eqn:E. Qed.

Lemma slength_stake_le n s : (String.length (stake n s) <= n)%nat.
Proof. revert s. induction n as [|n IH]; intros [|c s]; cbn [stake String.length]; try lia. specialize (IH s). lia. Qed.

Lemma forced_tool_name_legal j : legal_tool_name (_forced_tool_name j).
Proof.
  unfold _forced_tool_name. set (raw := if truthy j then _ else _).
  pose proof (sforall_stake _ 64 _ (sanitized_chars raw)) as H.
  pose proof (slength_stake_le 64 (smap (fun c => if _TOOL_NAME_CHARS c then c else "_"%char) raw)) as L.
  destruct (strip_char_facts _ "_" _ H) as [H' L']. set (x := strip_char _ _) in *.
  destruct (String.eqb_spec x "") as [E|N]; [split; [done|vm_compute; lia]|].
  split; [done|]. destruct x; [done|]. cbn [String.length] in *. lia.
Qed.

(** ** There and back *)

(** The format the guard translates: the payload's, else its [extra_body]'s. *)
Definition target_format (p : dict string json) : option (dict string json * dict string json) :=
  match format_of p with
  | Some x => Some x
  | None => match extra p with Some e => format_of e | None => None end
  end.

Section RoundTrip.
Context (float_text : string -> string) (roles : dict string string) (shaping : dict string Shaping).

(** A request whose schema must be carried by a forced tool call. *)
Definition translatable (r : QueuedRequest) (js schema : dict string json) : Prop :=
  is_chat r = true /\ r_stream r = false
  /\ (exists ep, shape_of roles shaping r = Some ep /\ _NOT_IMPLEMENTED_RESPONSE_FORMAT ∈ not_implemented ep)
  /\ existsb other_constraint (containers (r_payload r)) = false
  /\ existsb declares_tools (containers (r_payload r)) = false
  /\ target_format (r_payload r) = Some (js, schema).

(** A tool call that gives [obj] as its arguments, decoded or as text. *)
Definition carries (call obj : dict string json) : Prop :=
  function_field call "arguments" = Ret (JDict obj) /\ jwf (JDict obj) = true /\ floats_ok float_text (JDict obj)
  \/ exists a, function_field call "arguments" = Ret (JStr a) /\ strip a <> "" /\ loads float_text a = Some (JDict obj).

(** A reply whose first call under [name] gives [obj]. *)
Definition replies (body : dict string json) (name : string) (c m obj : dict string json) : Prop :=
  jwf (JDict body) = true
  /\ (exists rest, jget body "choices" = JList (JDict c :: rest)) /\ jget c "message" = JDict m
  /\ exists tcs call others, jget m "tool_calls" = JList tcs /\ calls_named name tcs = Ret (call :: others) /\ carries call obj.

(** The finish of the answer: only a missing one or [tool_calls] becomes [stop]. *)
Definition answer_finish (f : json) : json :=
  if replaceable_finish f then JStr "stop" else f.

(** What the caller reads: its object in the content, no call, the finish. *)
Definition answered_with (body : dict string json) (obj : dict string json) (finish : json) : Prop :=
  exists text c, _chat_completion_text body = JStr text /\ loads float_text text = Some (JDict obj)
  /\ _response_tool_calls body = [] /\ first_choice body JNull = Ret (JDict c) /\ jget c "finish_reason" = finish.

Lemma carries_arguments call obj : carries call obj ->
  exists args, _forced_tool_arguments float_text call = Some args /\ args <> "" /\ loads float_text args = Some (JDict obj).
Proof.
  unfold _forced_tool_arguments. intros [(-> & W & F)|(a & -> & N & L)].
  - destruct (dumps_raw_head obj) as [s E]. exists (dumps_raw (JDict obj)). split_and!; [done|by rewrite E|].
    by apply loads_raw.
  - rewrite (proj2 (String.eqb_neq _ _) N), L. exists a. split_and!; try done. by intros ->.
Qed.

Lemma jget_choice_list body c rest : jget body "choices" = JList (JDict c :: rest) -> dget body "choices" = Some (JList (JDict c :: rest)).
Proof. unfold jget. destruct (dget body "choices"); simpl; [by intros ->|done]. Qed.

Lemma jget_dict_get d k x : jget d k = JDict x -> dget d k = Some (JDict x).
Proof. unfold jget. destruct (dget d k); simpl; [by intros ->|done]. Qed.

Lemma first_message_of body c m rest : jget body "choices" = JList (JDict c :: rest) -> jget c "message" = JDict m ->
  first_message body = Ret m.
Proof.
  intros E M. unfold first_message, first_choice. rewrite E. cbn [truthy].
  assert (or_dict (JDict c) = Ret c) as O by (unfold or_dict; by destruct c).
  change (mbind ?f (Ret ?x)) with (f x). cbn beta. rewrite O.
  change (mbind ?f (Ret ?x)) with (f x). cbn beta. rewrite M. unfold or_dict. by destruct m.
Qed.

Lemma answer_arrives body name c m obj : replies body name c m obj ->
  exists body', _apply_forced_tool_answer float_text body name = (Translated, body')
    /\ answered_with body' obj (answer_finish (jget c "finish_reason")).
Proof.
  intros (W & [rest HC] & HM & tcs & call & others & HT & HN & HA).
  destruct (carries_arguments call obj HA) as (args & E & Nargs & L).
  assert (Wm : dwf m).
  { apply jwf_dict. apply (jwf_get c "message"); [|by apply jget_dict_get].
    pose proof (jwf_get _ _ _ W (jget_choice_list _ _ _ HC)) as X. cbn [jwf forallb] in X.
    apply andb_true_iff in X as [X _]. exact X. }
  pose proof (first_message_of body c m rest HC HM) as FM.
  assert (FC : first_choice body JNull = Ret (JDict c)) by (unfold first_choice; by rewrite HC).
  unfold _apply_forced_tool_answer. rewrite FC, HM. unfold _response_tool_calls at 1. rewrite FM, HT, HN, E.
  eexists. split; [done|]. unfold with_first_choice. rewrite HC.
  set (m' := ddel (dset m "content" (JStr args)) "tool_calls").
  assert (C1 : jget (with_message (fun m => ddel (dset m "content" (JStr args)) "tool_calls") c) "message" = JDict m')
    by (unfold with_message; rewrite HM; by rewrite jget_dset_eq).
  assert (C2 : jget (with_message (fun m => ddel (dset m "content" (JStr args)) "tool_calls") c) "finish_reason" = jget c "finish_reason")
    by (unfold with_message; rewrite HM; by rewrite jget_dset_ne).
  assert (A : jget (answered args c) "message" = JDict m' /\ jget (answered args c) "finish_reason" = answer_finish (jget c "finish_reason")).
  { unfold answered. cbv zeta. rewrite C2. unfold answer_finish.
    destruct (replaceable_finish (jget c "finish_reason")); [|by split]. by rewrite jget_dset_ne, jget_dset_eq. }
  destruct A as [A1 A2].
  set (body' := dset body "choices" _).
  assert (HC' : jget body' "choices" = JList (JDict (answered args c) :: rest)) by apply jget_dset_eq.
  pose proof (first_message_of body' _ _ _ HC' A1) as FM'.
  exists args, (answered args c). unfold _chat_completion_text, _response_tool_calls, first_choice. rewrite FM', HC'.
  assert (G1 : jget m' "content" = JStr args).
  { unfold m'. by rewrite jget_ddel_ne, jget_dset_eq. }
  assert (G2 : jget m' "tool_calls" = JNull) by (apply jget_ddel_eq; by apply dwf_dset).
  rewrite G1, G2. split_and!; try done. cbn [truthy]. by rewrite (proj2 (String.eqb_neq _ _) Nargs).
Qed.

(** The format that held the schema is no longer in its container. *)
Definition format_gone (p p' : dict string json) : Prop :=
  match format_of p with
  | Some _ => jget p' "response_format" = JNull
  | None => exists eb, extra p' = Some eb /\ jget eb "response_format" = JNull
  end.

(** The request half: the schema is the one tool's parameters, forced by name. *)
Lemma schema_becomes_tool r js schema : translatable r js schema -> jwf (JDict (r_payload r)) = true ->
  exists p, apply_forced_tool_schema roles shaping r
      = reshaped r (tool_turn js schema p) (r_json_object_stripped r) (Some (JDict schema)) (_forced_tool_name (jget js "name"))
    /\ format_gone (r_payload r) (tool_turn js schema p).
Proof.
  intros (C & S & (ep & HS & HN) & HO & HT & HF) W. unfold apply_forced_tool_schema, format_gone.
  rewrite C, S, HS, HO, HT. rewrite bool_decide_true by done. cbn [negb orb].
  unfold target_format in HF. destruct (format_of (r_payload r)) as [[js' schema']|].
  - injection HF as -> ->. eexists. split; [done|]. unfold tool_turn. rewrite !jget_dset_ne by done. by apply jget_ddel_eq, jwf_dict.
  - unfold extra in HF. destruct (jget (r_payload r) "extra_body") as [| | | | | |eb] eqn:X; try done.
    rewrite HF. eexists. split; [done|]. exists (ddel eb "response_format"). split.
    + unfold extra, tool_turn. rewrite !jget_dset_ne by done. by rewrite jget_dset_eq.
    + apply jget_ddel_eq, jwf_dict. unfold jget in X. destruct (dget (r_payload r) "extra_body") as [j|] eqn:G; [|done].
      cbn in X. subst j. by apply (jwf_get _ _ _ W G).
Qed.

Lemma forced_function_fields js schema :
  jget (forced_function js schema) "name" = JStr (_forced_tool_name (jget js "name"))
  /\ jget (forced_function js schema) "parameters" = JDict schema.
Proof. unfold forced_function. destruct (jget js "description") as [| | | |d| |]; try done. by destruct (String.eqb (strip d) ""). Qed.

(** C29 A schema sent to a backend without constrained decoding goes there as the
    parameters of the one tool, which [tool_choice] forces by a name every engine
    accepts; the format it was sent in is gone, nothing else of the payload is
    changed, and it stays the schema the answer is judged by.  Whatever object the
    backend then puts into that call's arguments, as text or decoded, is the object
    the caller parses out of the content; no tool call is left for it to see, and a
    truncated finish stays a truncated finish. *)
Theorem schema_answer_round_trip r js schema :
  translatable r js schema -> jwf (JDict (r_payload r)) = true ->
  let r' := apply_forced_tool_schema roles shaping r in
  let name := r_forced_tool_name r' in
  (exists f, jget (r_payload r') "tools" = JList [JDict [("type", JStr "function"); ("function", JDict f)]]
     /\ jget f "name" = JStr name /\ jget f "parameters" = JDict schema)
  /\ jget (r_payload r') "tool_choice" = JDict [("type", JStr "function"); ("function", JDict [("name", JStr name)])]
  /\ format_gone (r_payload r) (r_payload r') /\ agree_off tool_fields (r_payload r) (r_payload r')
  /\ legal_tool_name name /\ _declared_schema r' = Ret (Some schema)
  /\ (forall body c m obj, replies body name c m obj ->
       exists body', _apply_forced_tool_answer float_text body name = (Translated, body')
         /\ answered_with body' obj (answer_finish (jget c "finish_reason"))).
Proof.
  intros T W. destruct (schema_becomes_tool r js schema T W) as (p & E & GONE). cbv zeta.
  assert (A : agree_off tool_fields (r_payload r) (r_payload (apply_forced_tool_schema roles shaping r))).
  { destruct (forced_tool_cases roles shaping r) as [->|(_ & js' & schema' & p' & -> & A)]; [apply agree_refl|exact A]. }
  rewrite E in A |- *. cbn [r_payload r_forced_tool_name reshaped] in *. split_and!; try done.
  - exists (forced_function js schema). unfold tool_turn. rewrite jget_dset_ne, jget_dset_eq by done. split; [done|apply forced_function_fields].
  - unfold tool_turn. by rewrite jget_dset_eq.
  - apply forced_tool_name_legal.
  - intros body c m obj. apply answer_arrives.
Qed.
End RoundTrip.
