(* ===== verification/Correct.v ===== *)
(** * What is done to a completed answer (correction.py, response side)

    The guards [Correction.apply] runs over a finished non-streaming result, the
    detectors of a finished stream, and the judgements the submit path asks for.
    A guard is a computation over a [World]: the result dictionary and the proxy
    state the guards touch.  State attributes are read by name, as counters,
    tables of counters and tallies.  A guard that is wrapped in a try block is
    [guarded]: it keeps the mutations made before an exception and goes on.

    The backend of a re-dispatch, [json_repair] and [jsonschema] are parameters;
    a library that is not installed is the parameter that never answers
    ([repair_loads] always [None], [valid_schema] always [false]). *)

From Stdlib Require Import Ascii Lia ZArith QArith.
From stdpp Require Import base list strings.
From S2P Require Import Prelude PyDict PyText Config Json ThinkSwitch ThinkBleed ThinkStats Cost Queue JsonRead ToolStream Degen Sha256 Intent Grammar Effort Forced.

Local Open Scope string_scope.

(** ** State *)

(** A row rewritten after a correction, and a sample for the metrics. *)
Record Row := mkRow { rw_in : Z; rw_out : Z; rw_duration : Q; rw_body : dict string json; rw_finish : option string }.
Record Sample := mkSample { sm_status : string; sm_slot_seconds : Q }.

Record CorrState := mkCorrState {
  cs_count : dict string Z;
  cs_table : dict string (dict string Z);
  cs_tally : dict string (dict string (dict string Z));
  cs_active : dict string (list string);
  cs_grammars : dict string GrammarResult;
  cs_grammar_alerted : list string;
  cs_empty_window : dict string (list (Q * bool * string));
  cs_rows : list Row;
  cs_metrics : list Sample;
  cs_sent : list (string * dict string json)
}.

Record World := mkWorld { w_result : dict string json; w_state : CorrState }.

Definition set_result (d : dict string json) (w : World) : World := mkWorld d (w_state w).
Definition on_state (f : CorrState -> CorrState) (w : World) : World := mkWorld (w_result w) (f (w_state w)).

Definition with_count (c : dict string Z) (s : CorrState) : CorrState :=
  mkCorrState c (cs_table s) (cs_tally s) (cs_active s) (cs_grammars s) (cs_grammar_alerted s) (cs_empty_window s)
    (cs_rows s) (cs_metrics s) (cs_sent s).
Definition with_table (t : dict string (dict string Z)) (s : CorrState) : CorrState :=
  mkCorrState (cs_count s) t (cs_tally s) (cs_active s) (cs_grammars s) (cs_grammar_alerted s) (cs_empty_window s)
    (cs_rows s) (cs_metrics s) (cs_sent s).
Definition with_tally (t : dict string (dict string (dict string Z))) (s : CorrState) : CorrState :=
  mkCorrState (cs_count s) (cs_table s) t (cs_active s) (cs_grammars s) (cs_grammar_alerted s) (cs_empty_window s)
    (cs_rows s) (cs_metrics s) (cs_sent s).
Definition with_active (a : dict string (list string)) (s : CorrState) : CorrState :=
  mkCorrState (cs_count s) (cs_table s) (cs_tally s) a (cs_grammars s) (cs_grammar_alerted s) (cs_empty_window s)
    (cs_rows s) (cs_metrics s) (cs_sent s).
Definition with_window (x : dict string (list (Q * bool * string))) (s : CorrState) : CorrState :=
  mkCorrState (cs_count s) (cs_table s) (cs_tally s) (cs_active s) (cs_grammars s) (cs_grammar_alerted s) x
    (cs_rows s) (cs_metrics s) (cs_sent s).
Definition add_row (r : Row) (s : CorrState) : CorrState :=
  mkCorrState (cs_count s) (cs_table s) (cs_tally s) (cs_active s) (cs_grammars s) (cs_grammar_alerted s) (cs_empty_window s)
    (cs_rows s ++ [r])%list (cs_metrics s) (cs_sent s).
Definition add_sample (m : Sample) (s : CorrState) : CorrState :=
  mkCorrState (cs_count s) (cs_table s) (cs_tally s) (cs_active s) (cs_grammars s) (cs_grammar_alerted s) (cs_empty_window s)
    (cs_rows s) (cs_metrics s ++ [m])%list (cs_sent s).
Definition add_sent (id : string) (p : dict string json) (s : CorrState) : CorrState :=
  mkCorrState (cs_count s) (cs_table s) (cs_tally s) (cs_active s) (cs_grammars s) (cs_grammar_alerted s) (cs_empty_window s)
    (cs_rows s) (cs_metrics s) (cs_sent s ++ [(id, p)])%list.

Definition count_of (name : string) (s : CorrState) : Z := default 0%Z (dget (cs_count s) name).

(** [self.state.<name> += n] *)
Definition incr_by (n : Z) (name : string) (s : CorrState) : CorrState :=
  with_count (dset (cs_count s) name (count_of name s + n)%Z) s.
Definition incr : string -> CorrState -> CorrState := incr_by 1.

(** [self.state.<name>[key] = self.state.<name>.get(key, 0) + 1] *)
Definition incr_table (name key : string) (s : CorrState) : CorrState :=
  with_table (dset (cs_table s) name (bump (default [] (dget (cs_table s) name)) key)) s.

(** [self.state.<name>.setdefault(key, {f: 0 for f in fields})[field] += 1] *)
Definition incr_tally (name : string) (fields : list string) (key field : string) (s : CorrState) : CorrState :=
  let t := default [] (dget (cs_tally s) name) in
  let row := default (map (fun f => (f, 0%Z)) fields) (dget t key) in
  with_tally (dset (cs_tally s) name (dset t key (bump row field))) s.

(** [try: ... except Exception: log] *)
Definition guarded {S} (m : SE S unit) : SE S unit := fun s => (Ret tt, (m s).2).

Definition mut (f : CorrState -> CorrState) : SE World unit := se_modify (on_state f).

(** [j == text] *)
Definition text_is (j : json) (text : string) : bool := match j with JStr s => String.eqb s text | _ => false end.

Definition result_ok (d : dict string json) : bool := text_is (jget d "status") "ok".

(** [result["status"] = "error"; ...; result.pop("response", None)] *)
Definition fail_result (error : string) (code : option string) (d : dict string json) : dict string json :=
  let d := dset (dset d "status" (JStr "error")) "error" (JStr error) in
  ddel (match code with Some c => dset d "code" (JStr c) | None => d end) "response".

Definition call_site_or (d : string) (r : QueuedRequest) : string := if String.eqb (r_call_site r) "" then d else r_call_site r.

(** [int(x or 0)] *)
Definition int_field (j : json) : res Z := match int_or_zero j with Some n => Ret n | None => Raise ValueError end.

(** The answer's own count of its output, [int(usage.get(k) or 0)]. *)
Definition usage_count (k : string) (response : dict string json) : res Z :=
  int_field (match jget response "usage" with JDict u => jget u k | _ => JNull end).

(** ** Truncation *)

Definition truncation_fields : list string := ["count"; "structured"; "freetext"].

Definition record_truncation_event (r : QueuedRequest) (structured : bool) : SE World unit :=
  max_tokens ← se_lift (int_field (jget (r_payload r) "max_tokens"));
  if (negb structured && (0 <? max_tokens) && (max_tokens <=? 16))%Z%bool then mret tt
  else
    let key := r_endpoint r ++ "|" ++ r_agent_id r in
    let tally := incr_tally "truncation_by_model_caller" truncation_fields key in
    mut (fun s => incr "truncation_total" (tally (if structured then "structured" else "freetext") (tally "count" s))).

Definition record_structured_parse_failure (r : QueuedRequest) (s : CorrState) : CorrState :=
  incr_table "structured_parse_failures_by_model_caller" (r_endpoint r ++ "|" ++ r_agent_id r)
    (incr "structured_parse_failure_total" s).

Definition TRUNCATED_TOOL_TURN_CODE : string := "truncated_tool_turn".

(** ** The empty-answer window *)

Definition STRUCTURED_EMPTY_WINDOW_S : Q := 1800.
Definition _STRUCTURED_EMPTY_MAX_SAMPLES : nat := 4000.

Definition record_structured_outcome (endpoint : string) (empty : bool) (call_site : string) (now : Q) (s : CorrState) : CorrState :=
  let dq := append_maxlen _STRUCTURED_EMPTY_MAX_SAMPLES (default [] (dget (cs_empty_window s) endpoint)) (now, empty, call_site) in
  with_window (dset (cs_empty_window s) endpoint
                 (drop_while (fun e => Qltb e.1.1 (now - STRUCTURED_EMPTY_WINDOW_S)) dq)) s.

(** ** Backend errors *)

Inductive BackendExc := BackendTimeout | BackendUnavailable | BackendError (status : option Z) (detail : string) | OtherExc.

Definition is_structured_generation_fault (e : BackendExc) : bool :=
  match e with
  | BackendError (Some status) detail =>
      let detail := lower detail in
      ((status =? 500)%Z && (contains "internal server error" detail || contains "internalservererror" detail))%bool
  | _ => false
  end.

Definition is_transient_backend_error (e : BackendExc) : bool :=
  match e with
  | BackendUnavailable => true
  | BackendError _ detail => contains "empty completion" detail
  | _ => false
  end.

(** What a re-dispatch comes back with: an answer, or a failure after a while. *)
Inductive Reply :=
| Answered (body : dict string json) (duration_s : Q) (input_tokens output_tokens : Z) (finish_reason : option string)
| Failed (elapsed_s : Q).

(** The switches of the response side. *)
Record Switches := mkSwitches {
  degeneration_guard_enabled : bool;
  degeneration_shadow_only : bool;
  structured_validity_guard_enabled : bool;
  schema_backstop_enabled : bool;
  schema_backstop_shadow : bool;
  shadow_egress_detect_enabled : bool;
  uniform_correction_enabled : bool
}.

Definition _MIN_RETRY_BUDGET_S : Q := 5.

Section Correct.
Context (float_text : string -> string) (roles : dict string string) (shaping : dict string Shaping) (sw : Switches).
Context (repair_loads : string -> option json) (valid_schema : dict string json -> bool)
        (satisfies : dict string json -> json -> bool) (violation : dict string json -> json -> option string).
(** The backend by request id, payload and time allowed; the clock by reading. *)
Context (backend : string -> dict string json -> Q -> Reply) (clock : nat -> Q).

Abbreviation conform := (_conform_body float_text repair_loads valid_schema satisfies).
Abbreviation schema_ok := (_schema_valid valid_schema satisfies).

(** ** A tool turn that ran out of tokens *)

Definition is_truncated_tool_turn (r : QueuedRequest) (finish_reason : option string) (tool_calls : list json) (output_tokens : Z) : bool :=
  if negb (is_chat r) then false
  else if negb (request_declares_tools (JDict (r_payload r))) then false
  else match finish_reason with
       | Some "length" => negb (existsb (tool_call_is_complete float_text) tool_calls)
       | Some "tool_calls" | Some "stop" =>
           match tool_calls with
           | [] => false
           | _ => match jget (r_payload r) "max_tokens" with
                  | JInt cap => ((0 <? cap) && (cap <=? output_tokens))%Z
                  | _ => false
                  end
           end
       | _ => false
       end.

Definition record_truncated_tool_turn (r : QueuedRequest) (finish_reason : option string) : SE World unit :=
  _ ← mut (fun s => incr_table "truncated_tool_turns_by_endpoint" (normalize_endpoint roles (r_endpoint r))
                      (incr "truncated_tool_turns_total" s));
  if bool_decide (finish_reason = Some "length") then mret tt else record_truncation_event r false.

(** ** Grammars on the way in *)

(** [process_grammar]: the request with its grammar normalised, or the errors. *)
Definition process_grammar (r : QueuedRequest) (s : CorrState) : option (list GrammarError) * QueuedRequest * CorrState :=
  match extract_grammar (r_payload r) with
  | None => (None, r, s)
  | Some (grammar, in_extra_body) =>
      let h := _digest grammar in
      let memo := if no_store r then None else dget (cs_grammars s) h in
      let result := default (normalize_and_validate grammar) memo in
      let s := if no_store r then s
               else match memo with
                    | Some _ => s
                    | None => mkCorrState (cs_count s) (cs_table s) (cs_tally s) (cs_active s) (dset (cs_grammars s) h result)
                                (cs_grammar_alerted s) (cs_empty_window s) (cs_rows s) (cs_metrics s) (cs_sent s)
                    end in
      if gr_ok result then
        let write d := dset d "grammar" (JStr (gr_grammar result)) in
        let p := if negb (gr_normalized result) then r_payload r
                 else if in_extra_body then on_extra_body write (r_payload r) else write (r_payload r) in
        (None, with_payload r p, s)
      else
        let s := if (no_store r || bool_decide (h ∈ cs_grammar_alerted s))%bool then s
                 else mkCorrState (cs_count s) (cs_table s) (cs_tally s) (cs_active s) (cs_grammars s)
                        (h :: cs_grammar_alerted s) (cs_empty_window s) (cs_rows s) (cs_metrics s) (cs_sent s) in
        (Some (gr_errors result), r, s)
  end.

(** ** finalize_forced_tool_schema *)

Definition finalize_forced_tool_schema (r : QueuedRequest) : SE World unit := guarded (
  w ← se_get;
  let result := w_result w in
  match r_forced_tool_schema r with
  | None => mret tt
  | Some _ =>
      if (negb (result_ok result) || negb (is_chat r))%bool then mret tt
      else match jget result "response" with
           | JDict response =>
               let '(outcome, response) := _apply_forced_tool_answer float_text response (r_forced_tool_name r) in
               match outcome with
               | Malformed | Absent => mret tt
               | Unusable =>
                   out_tok ← se_lift (usage_count "completion_tokens" response);
                   _ ← record_truncation_event r true;
                   se_modify (fun w => set_result (fail_result
                     ("backend " ++ r_endpoint r ++ " truncated structured output (the forced tool call carried no parseable JSON object in its arguments, output_tokens=" ++ str_of_Z out_tok ++ ")")
                     (Some "toolcall_truncated") (w_result w)) w)
               | Translated =>
                   se_modify (fun w => set_result
                     (dset (dset (w_result w) "response" (JDict response)) "_forced_tool_translated" (JBool true)) w)
               end
           | _ => mret tt
           end
  end).

(** ** finalize_thinking *)

Definition thinking_failed (why : string) (d : dict string json) : dict string json :=
  fail_result ("thinking structured-output recovery failed: " ++ why) None d.

Definition finalize_thinking (r : QueuedRequest) : SE World unit :=
  w ← se_get;
  let info := dget (cs_active (w_state w)) (r_request_id r) in
  _ ← mut (fun s => with_active (ddel (cs_active s) (r_request_id r)) s);
  match info, jget (w_result w) "response" with
  | Some allowed, JDict response =>
      if negb (result_ok (w_result w)) then mret tt
      else match jget response "choices" with
      | JList (JDict ch0 :: _) =>
          match jget ch0 "message" with
          | JDict msg =>
              match jget msg "content" with
              | JStr content =>
                  _ ← mut (incr "thinking_requests");
                  let reasoning := if truthy (jget msg "reasoning") then jget msg "reasoning" else jget msg "reasoning_content" in
                  _ ← mut (match reasoning with
                           | JStr t => if String.eqb (strip t) "" then incr "thinking_noop" else id
                           | _ => incr "thinking_noop"
                           end);
                  match allowed with
                  | [] => mret tt
                  | _ =>
                      if match loads float_text content with
                         | Some (JDict obj) => forallb (fun k => bool_decide (k ∈ allowed)) (dkeys obj)
                         | _ => false
                         end
                      then mut (incr "thinking_clean")
                      else match recover_structured_object float_text content None (Some allowed) with
                           | Some recovered =>
                               _ ← mut (incr "thinking_recovered");
                               se_modify (fun w => set_result (dset (w_result w) "response"
                                 (JDict (with_first_choice response (with_message (fun m => dset m "content" (JStr recovered)))))) w)
                           | None =>
                               if text_is (jget ch0 "finish_reason") "length" then
                                 _ ← mut (incr "thinking_truncated");
                                 se_modify (fun w => set_result (thinking_failed
                                   "thinking output truncated (finish=length) — raise ROADSTEAD_PROXY_THINKING_BUDGET" (w_result w)) w)
                               else
                                 _ ← mut (incr "thinking_fallback");
                                 se_modify (fun w => set_result (thinking_failed "thinking structured output unrecoverable" (w_result w)) w)
                           end
                  end
              | _ => mret tt
              end
          | _ => mret tt
          end
      | _ => mret tt
      end
  | _, _ => mret tt
  end.

(** ** maybe_correct_degenerate *)

Definition code_points (s : string) : Degen.text := map ord (String.list_ascii_of_string s).

(** [_is_degenerate_text] of a content: [.split()] of anything but a text raises. *)
Definition content_degenerate (content : json) : res bool :=
  match content with
  | JStr s => Ret (_is_degenerate_text (code_points s))
  | _ => Raise AttributeError
  end.

Definition degeneration_fields : list string := ["detected"; "recovered"].

(** The escalating penalties, with the suffix of the attempt. *)
Definition penalties : list (nat * dict string json) :=
  [(1%nat, [("frequency_penalty", JFloat "0.6" (6 # 10)); ("presence_penalty", JFloat "0.3" (3 # 10))]);
   (2%nat, [("frequency_penalty", JFloat "1.0" 1); ("presence_penalty", JFloat "0.5" (5 # 10))])].

(** [{**p, **extra}] *)
Definition merged (p extra : dict string json) : dict string json := foldl (fun p kv => dset p kv.1 kv.2) p extra.

Definition remaining (r : QueuedRequest) (i : nat) : Q := (r_timeout_deadline r - clock i)%Q.

(** A request sent again, outside slot accounting. *)
Definition redispatch (r : QueuedRequest) (status suffix : string) (payload : dict string json) (rem : Q) : SE World Reply :=
  let id := r_request_id r ++ suffix in
  let reply := backend id payload (pymax 2 rem) in
  _ ← mut (add_sent id payload);
  _ ← mut (add_sample (mkSample status (match reply with Answered _ d _ _ _ => d | Failed e => e end)));
  mret reply.

(** The attempts left, from [l]: whether one gave a clean answer. *)
Fixpoint degen_attempts (r : QueuedRequest) (cs : string) (l : list (nat * dict string json)) : SE World bool :=
  match l with
  | [] => mret false
  | (i, extra) :: rest =>
      let rem := remaining r i in
      if Qltb rem _MIN_RETRY_BUDGET_S then mret false
      else
        reply ← redispatch r "degen_retry" ("-degen" ++ str_of_Z (Z.of_nat i)) (merged (r_payload r) extra) rem;
        match reply with
        | Failed _ => degen_attempts r cs rest
        | Answered body duration tin tout finish =>
            let text := _chat_completion_text body in
            degenerate ← (if truthy text then se_lift (content_degenerate text) else mret true);
            if degenerate : bool then degen_attempts r cs rest
            else
              _ ← se_modify (fun w => set_result (dset (w_result w) "response" (JDict body)) w);
              _ ← mut (fun s => incr_tally "degeneration_by_call_site" degeneration_fields cs "recovered"
                                  (incr "degeneration_recovered" s));
              _ ← mut (add_row (mkRow tin tout duration body finish));
              mret true
        end
  end.

Definition degen_unrecovered : SE World unit :=
  _ ← mut (incr "degeneration_unrecovered");
  se_modify (fun w => set_result (dset (w_result w) "_degenerate_unrecovered" (JBool true)) w).

(** [try: m finally: self.state.<name> -= 1], the slot taken before. *)
Definition in_flight {A} (name : string) (m : SE World A) : SE World A := fun w =>
  let '(x, w') := m (on_state (incr name) w) in (x, on_state (incr_by (-1) name) w').

Definition maybe_correct_degenerate (r : QueuedRequest) : SE World unit := guarded (
  w ← se_get;
  if (negb (degeneration_guard_enabled sw) || negb (result_ok (w_result w)) || negb (is_chat r))%bool then mret tt
  else match jget (w_result w) "response" with
  | JDict response =>
      degenerate ← se_lift (content_degenerate (_chat_completion_text response));
      if negb degenerate then mret tt
      else
        let cs := call_site_or "?" r in
        _ ← mut (fun s => incr_tally "degeneration_by_call_site" degeneration_fields cs "detected" (incr "degeneration_detected" s));
        if degeneration_shadow_only sw then mret tt
        else
          let fr := match first_choice response (JDict []) with Ret (JDict c) => jget c "finish_reason" | _ => JNull end in
          if text_is fr "length" then degen_unrecovered
          else match dget shaping (r_endpoint r) with
          | None => mret tt
          | Some _ =>
              w ← se_get;
              if (2 <=? count_of "degen_redispatch_inflight" (w_state w))%Z then degen_unrecovered
              else
                in_flight "degen_redispatch_inflight" (
                  found ← degen_attempts r cs penalties;
                  if found : bool then mret tt else degen_unrecovered)
          end
  | _ => mret tt
  end).

(** ** enforce_toolcall_truncation *)

Definition enforce_toolcall_truncation (r : QueuedRequest) : SE World unit := guarded (
  w ← se_get;
  if (negb (structured_validity_guard_enabled sw) || negb (result_ok (w_result w)) || negb (is_chat r))%bool then mret tt
  else match jget (w_result w) "response", shape_of roles shaping r with
  | JDict response, Some ep =>
      if (negb (mislabels_truncated_tool_calls ep) || args_valid float_text response)%bool then mret tt
      else
        out_tok ← se_lift (usage_count "completion_tokens" response);
        _ ← record_truncation_event r true;
        se_modify (fun w => set_result (fail_result
          ("backend " ++ r_endpoint r ++ " truncated structured output (finish_reason=tool_calls mislabel — tool_call arguments cut mid-JSON, output_tokens=" ++ str_of_Z out_tok ++ ")")
          (Some "toolcall_truncated") (w_result w)) w)
  | _, _ => mret tt
  end).

(** ** maybe_repair_schema *)

Definition schema_fields : list string := ["detected"; "repaired"; "retried"; "unrecoverable"].

(** [_persist_corrected]: the row rewritten, unless its counts cannot be read. *)
Definition _persist_corrected (body : dict string json) : SE World unit := guarded (
  tin ← se_lift (usage_count "prompt_tokens" body);
  tout ← se_lift (usage_count "completion_tokens" body);
  mut (add_row (mkRow tin tout 0 body None))).

Definition _validation_error (body : dict string json) (schema : option (dict string json)) : string :=
  match (match _chat_completion_text body with JStr s => loads float_text s | _ => None end) with
  | None => "the output was not valid JSON"
  | Some obj =>
      match (match schema with Some s => violation s obj | None => None end) with
      | Some msg => "the JSON did not match the schema (" ++ stake 200 msg ++ ")"
      | None => if args_valid float_text body then "the output did not satisfy the required format"
                else "a tool call's arguments were not valid JSON"
      end
  end.

Definition _with_error_feedback (payload : dict string json) (error_msg : string) : dict string json :=
  let note := "Your previous response was rejected: " ++ error_msg ++ ". Return ONLY the JSON that satisfies the required format — no prose, no markdown fences, no commentary." in
  match jget payload "messages" with
  | JList msgs => dset payload "messages" (JList (msgs ++ [JDict [("role", JStr "user"); ("content", JStr note)]])%list)
  | _ => payload
  end.

(** The reply of the retry, judged. *)
Definition retry_body (r : QueuedRequest) (schema : option (dict string json)) (expect : bool) (body : dict string json)
  : res (option (dict string json)) :=
  let body := if (bool_decide (is_Some (r_forced_tool_schema r)) && negb (String.eqb (r_forced_tool_name r) ""))%bool
              then (_apply_forced_tool_answer float_text body (r_forced_tool_name r)).2 else body in
  c ← conform body schema expect;
  Ret (match c with OkBody => Some body | RepairedBody b => Some b | FailedBody => None end).

Definition _schema_retry (r : QueuedRequest) (schema : option (dict string json)) (error_msg : string) (expect_json_content : bool)
  : SE World (option (dict string json)) :=
  w ← se_get;
  if (2 <=? count_of "schema_retry_inflight" (w_state w))%Z then mret None
  else if Qltb (remaining r 3) _MIN_RETRY_BUDGET_S then mret None
  else match dget shaping (r_endpoint r) with
  | None => mret None
  | Some _ =>
      in_flight "schema_retry_inflight" (
        reply ← redispatch r "schema_retry" "-schema" (_with_error_feedback (r_payload r) error_msg) (remaining r 3);
        match reply with
        | Failed _ => mret None
        | Answered body _ _ _ _ =>
            match retry_body r schema expect_json_content body with
            | Ret o => mret o
            | Raise _ => _ ← mut (add_sample (mkSample "schema_retry" (clock 4 - clock 3))); mret None
            end
        end)
  end.

Definition tally_schema (field cs : string) : CorrState -> CorrState := incr_tally "schema_by_call_site" schema_fields cs field.

(** The body swapped in, counted, marked and written to the row. *)
Definition swap_body (body : dict string json) (counter field mark cs : string) : SE World unit :=
  _ ← se_modify (fun w => set_result (dset (w_result w) "response" (JDict body)) w);
  _ ← mut (fun s => tally_schema field cs (incr counter s));
  _ ← se_modify (fun w => set_result (dset (w_result w) mark (JBool true)) w);
  _persist_corrected body.

Definition maybe_repair_schema (r : QueuedRequest) : SE World unit := guarded (
  w ← se_get;
  if (negb (schema_backstop_enabled sw) || negb (result_ok (w_result w)) || negb (is_chat r))%bool then mret tt
  else match jget (w_result w) "response" with
  | JDict response =>
      let payload := r_payload r in
      let is_struct := request_is_structured r in
      if negb (is_struct || truthy (jget payload "tools") || truthy (jget payload "tool_choice")) then mret tt
      else
        schema ← se_lift (_declared_schema r);
        conformed ← se_lift (conform response schema (request_expects_json r));
        match conformed with
        | OkBody => mret tt
        | RepairedBody body =>
            let cs := call_site_or "?" r in
            _ ← mut (fun s => tally_schema "detected" cs (incr "schema_detected" s));
            if schema_backstop_shadow sw then mret tt
            else swap_body body "schema_repaired" "repaired" "_schema_repaired" cs
        | FailedBody =>
            let cs := call_site_or "?" r in
            _ ← mut (fun s => tally_schema "detected" cs (incr "schema_detected" s));
            let error_msg := _validation_error response schema in
            if schema_backstop_shadow sw then mret tt
            else
              retried ← _schema_retry r schema error_msg is_struct;
              match retried with
              | Some body => swap_body body "schema_retry_recovered" "retried" "_schema_retried" cs
              | None =>
                  _ ← mut (fun s => tally_schema "unrecoverable" cs (incr "schema_unrecoverable" s));
                  se_modify (fun w => set_result
                    (let d := fail_result ("backend " ++ r_endpoint r ++ " produced schema-invalid structured output (" ++ error_msg ++ "); repair + one retry failed")
                                (Some "schema_invalid") (w_result w) in
                     dset d "_schema_unrecoverable" (JBool true)) w)
              end
        end
  | _ => mret tt
  end).

(** ** shadow_egress_detect *)

Definition _shadow_egress_check (r : QueuedRequest) (content : json) : SE World unit :=
  match extract_grammar (r_payload r), content with
  | Some (grammar, _), JStr (String _ _ as text) =>
      let cs := call_site_or "unknown" r in
      let tally := incr_tally "shadow_drop" ["checked"; "dropped"] cs in
      mut (fun s => let s := tally "checked" s in
                    if conforms (verify_conformance float_text text grammar None) then s else tally "dropped" s)
  | _, _ => mret tt
  end.

Definition shadow_egress_detect (r : QueuedRequest) : SE World unit := guarded (
  w ← se_get;
  if (negb (shadow_egress_detect_enabled sw) || negb (result_ok (w_result w)) || r_stream r || negb (is_chat r))%bool then mret tt
  else
    resp ← se_lift (or_dict (jget (w_result w) "response"));
    ch ← se_lift (first_choice resp (JDict []));
    match ch with
    | JDict ch => msg ← se_lift (or_dict (jget ch "message")); _shadow_egress_check r (jget msg "content")
    | _ => se_lift (Raise AttributeError)
    end).

(** ** enforce_structured_validity *)

Definition enforce_structured_validity (r : QueuedRequest) : SE World unit := guarded (
  w ← se_get;
  if (negb (structured_validity_guard_enabled sw) || negb (result_ok (w_result w)) || negb (is_chat r))%bool then mret tt
  else if negb (request_expects_json r) then mret tt
  else match jget (w_result w) "response" with
  | JDict response =>
      match _chat_completion_text response with
      | JStr content =>
          if (String.eqb (strip content) "" || loads_ok float_text content)%bool then mret tt
          else
            out_tok ← se_lift (usage_count "completion_tokens" response);
            _ ← mut (record_structured_parse_failure r);
            se_modify (fun w => set_result (fail_result
              ("backend " ++ r_endpoint r ++ " returned invalid JSON for a structured request (content does not parse; output_tokens=" ++ str_of_Z out_tok ++ ")")
              (Some "structured_invalid_json") (w_result w)) w)
      | _ => mret tt
      end
  | _ => mret tt
  end).

(** ** detect_structured_empty *)

Definition detect_structured_empty (r : QueuedRequest) (content : option json) (stream : bool) : SE World unit := guarded (
  w ← se_get;
  if (negb (is_chat r) || (negb stream && negb (result_ok (w_result w))) || negb (request_is_structured r))%bool then mret tt
  else
    let text := match content with
                | Some c => c
                | None => match jget (w_result w) "response" with
                          | JDict response => _chat_completion_text response
                          | _ => JNull
                          end
                end in
    match text with
    | JStr text =>
        if String.eqb (strip text) "" then mret tt
        else match loads float_text text with
        | None => mret tt
        | Some obj =>
            schema ← se_lift (_declared_schema r);
            let answerless := _is_answerless_object obj schema in
            if (answerless && bool_decide (is_Some schema) && negb (schema_ok obj schema))%bool then mret tt
            else
              let cs := call_site_or "?" r in
              if negb answerless then mut (record_structured_outcome (r_endpoint r) false cs (clock 5))
              else mut (fun s => record_structured_outcome (r_endpoint r) true cs (clock 5)
                                   (incr_table "structured_empty_by_call_site" cs (incr "structured_empty_total" s)))
        end
    | _ => mret tt
    end).

(** ** The whole response side *)

(** [Correction.apply], in its order. *)
Definition apply (r : QueuedRequest) : SE World unit :=
  _ ← finalize_forced_tool_schema r;
  _ ← finalize_thinking r;
  _ ← maybe_correct_degenerate r;
  _ ← enforce_toolcall_truncation r;
  _ ← maybe_repair_schema r;
  _ ← shadow_egress_detect r;
  _ ← enforce_structured_validity r;
  detect_structured_empty r None false.

Definition corrections_applied (r : QueuedRequest) (result : dict string json) : list string :=
  let flag (b : bool) (token : string) := if b then [token] else [] in
  (flag (r_json_object_stripped r) "json_object_stripped"
   ++ flag (truthy (jget result "_forced_tool_translated")) "forced_tool_schema"
   ++ flag (truthy (jget result "_schema_repaired")) "schema_repaired"
   ++ flag (truthy (jget result "_schema_retried")) "schema_retried"
   ++ flag (truthy (jget result "_schema_unrecoverable")) "schema_unrecoverable"
   ++ flag (truthy (jget result "_degenerate_unrecovered")) "degenerate_unrecovered"
   ++ flag (text_is (jget result "code") "toolcall_truncated") "toolcall_truncated")%list.

Definition finalize_stream (r : QueuedRequest) (content : string) : SE World unit := guarded (
  if (negb (uniform_correction_enabled sw) || negb (is_chat r))%bool then mret tt
  else
    let cs := call_site_or "?" r in
    _ ← mut (if (negb (String.eqb content "") && _is_degenerate_text (code_points content))%bool
             then fun s => incr_tally "degeneration_by_call_site" degeneration_fields cs "detected" (incr "degeneration_detected" s)
             else fun s => s);
    _ ← (if shadow_egress_detect_enabled sw then _shadow_egress_check r (JStr content) else mret tt);
    _ ← (if (schema_backstop_enabled sw && negb (String.eqb content "") && request_is_structured r)%bool then
           schema ← se_lift (_declared_schema r);
           if _content_valid float_text valid_schema satisfies content schema then mret tt
           else mut (fun s => tally_schema "detected" cs (incr "schema_invalid_stream" s))
         else mret tt);
    detect_structured_empty r (Some (JStr content)) true).
End Correct.
