(* ===== verification/CorrectProps.v ===== *)
(** * What the response side guarantees

    [keeps P m]: the computation [m] keeps [P] whether it returns or raises; the
    rules below take a guard apart, and the hint database [keeps] runs them.  On
    top of them: what reaches a caller as a success, what is passed through
    untouched, what a failed answer looks like, and how much backend work the
    corrections can cause. *)

From Stdlib Require Import Ascii Lia ZArith QArith Lqa.
From stdpp Require Import base list strings.
From S2P Require Import Prelude PyDict PyText Config Json ThinkSwitch ThinkBleed ThinkStats Cost Queue JsonRead ToolStream Degen Sha256 Intent Grammar Effort EffortProps Forced ForcedProps Correct.

Local Open Scope string_scope.

(** ** Computations that keep a property *)

Definition keeps {S A} (P : S -> Prop) (m : SE S A) : Prop := triple P m (fun _ => P) (fun _ => P).

Create HintDb keeps discriminated.

Section Keeps.
Context {S : Type} (P : S -> Prop).

Lemma keeps_ret {A} (a : A) : keeps P (mret a).
Proof. by intros s Hs. Qed.

Lemma keeps_lift {A} (x : res A) : keeps P (se_lift x).
Proof. intros s Hs. by destruct x. Qed.

Lemma keeps_bind {A B} (m : SE S A) (f : A -> SE S B) : keeps P m -> (forall a, keeps P (f a)) -> keeps P (m ≫= f).
Proof. apply triple_bind. Qed.

(** After reading the state, its value is at hand. *)
Lemma keeps_get {B} (f : S -> SE S B) : (forall s, P s -> keeps P (f s)) -> keeps P (se_get ≫= f).
Proof. intros H s Hs. exact (H s Hs s Hs). Qed.

Lemma keeps_modify f : (forall s, P s -> P (f s)) -> keeps P (se_modify f).
Proof. intros H s Hs. by apply H. Qed.

Lemma keeps_guarded m : keeps P m -> keeps P (guarded m).
Proof. intros H s Hs. unfold guarded. specialize (H s Hs). by destruct (m s) as [[] s']. Qed.

Lemma keeps_run {A} (m : SE S A) s : keeps P m -> P s -> P (m s).2.
Proof. intros H Hs. specialize (H s Hs). by destruct (m s) as [[] s']. Qed.
End Keeps.

#[export] Hint Resolve keeps_ret keeps_lift keeps_guarded : keeps.

(** [ends P R m]: from [P] the computation ends in [R], either way. *)
Definition ends {S A} (P R : S -> Prop) (m : SE S A) : Prop := triple P m (fun _ => R) (fun _ => R).

Section Ends.
Context {S : Type} (P R : S -> Prop) (HPR : forall s, P s -> R s).

Lemma ends_keeps {A} (m : SE S A) : keeps P m -> ends P R m.
Proof using HPR. intros H s Hs. specialize (H s Hs). destruct (m s) as [[] s']; by apply HPR. Qed.

Lemma ends_bind {A B} (m : SE S A) (f : A -> SE S B) : keeps P m -> (forall a, ends P R (f a)) -> ends P R (m ≫= f).
Proof using HPR.
  intros Hm Hf s Hs. specialize (Hm s Hs). unfold mbind, se_bind. destruct (m s) as [[a|e] s']; [by apply Hf|by apply HPR].
Qed.

Lemma ends_get {B} (f : S -> SE S B) : (forall s, P s -> ends P R (f s)) -> ends P R (se_get ≫= f).
Proof. intros H s Hs. exact (H s Hs s Hs). Qed.

Lemma ends_modify f : (forall s, P s -> R (f s)) -> ends P R (se_modify f).
Proof. intros H s Hs. by apply H. Qed.

Lemma ends_guarded m : ends P R m -> ends P R (guarded m).
Proof. intros H s Hs. unfold guarded. specialize (H s Hs). by destruct (m s) as [[] s']. Qed.

Lemma ends_run {A} (m : SE S A) s : ends P R m -> P s -> R (m s).2.
Proof. intros H Hs. specialize (H s Hs). by destruct (m s) as [[] s']. Qed.
End Ends.

(** Takes a computation apart down to its writes. *)
Ltac keeps_step :=
  lazymatch goal with
  | |- keeps _ (guarded _) => apply keeps_guarded
  | |- keeps _ (mbind _ se_get) => apply keeps_get; intros ? ?
  | |- keeps _ (mbind _ _) => apply keeps_bind; [|intros ?]
  | |- keeps _ (mret _) => apply keeps_ret
  | |- keeps _ (se_lift _) => apply keeps_lift
  | |- keeps _ (if ?b then _ else _) => destruct b
  | |- keeps _ (match ?x with _ => _ end) => destruct x
  | |- keeps _ (let '_ := ?x in _) => destruct x
  end.
Ltac keeps_auto := repeat (cbv zeta; first [solve [eauto with keeps] | keeps_step]).

(** A property of the result alone, and one of the state alone. *)
Definition of_result (R : dict string json -> Prop) (w : World) : Prop := R (w_result w).
Definition of_state (Q : CorrState -> Prop) (w : World) : Prop := Q (w_state w).

Lemma keeps_mut_result R f : keeps (of_result R) (mut f).
Proof. by intros w Hw. Qed.

Lemma keeps_set_result_state Q f : keeps (of_state Q) (se_modify (fun w => set_result (f w) w)).
Proof. by intros w Hw. Qed.

Lemma keeps_mut_state Q f : (forall s, Q s -> Q (f s)) -> keeps (of_state Q) (mut f).
Proof. intros H w Hw. by apply H. Qed.

#[export] Hint Resolve keeps_mut_result keeps_set_result_state : keeps.

Section CorrectProps.
Context (float_text : string -> string) (roles : dict string string) (shaping : dict string Shaping) (sw : Switches).
Context (repair_loads : string -> option json) (valid_schema : dict string json -> bool)
        (satisfies : dict string json -> json -> bool) (violation : dict string json -> json -> option string).
Context (backend : string -> dict string json -> Q -> Reply) (clock : nat -> Q).

Abbreviation run_apply := (apply float_text roles shaping sw repair_loads valid_schema satisfies violation backend clock).
Abbreviation degenerate_step := (maybe_correct_degenerate shaping sw backend clock).
Abbreviation truncation_step := (enforce_toolcall_truncation float_text roles shaping sw).
Abbreviation repair_step := (maybe_repair_schema float_text shaping sw repair_loads valid_schema satisfies violation backend clock).
Abbreviation egress_step := (shadow_egress_detect float_text sw).
Abbreviation floor_step := (enforce_structured_validity float_text sw).
Abbreviation empty_step := (detect_structured_empty float_text valid_schema satisfies clock).

(** *** The eight steps in a row *)

Lemma guarded_ret {S} (m : SE S unit) s : guarded m s = (Ret tt, (m s).2).
Proof. done. Qed.

Lemma finalize_thinking_ret r w : (finalize_thinking float_text r w).1 = Ret tt.
Proof.
  unfold finalize_thinking. rewrite run_get. unfold mut. rewrite run_modify.
  repeat first [rewrite run_modify | case_match]; done.
Qed.

Lemma run_step {S} (m : SE S unit) (k : unit -> SE S unit) s : (m s).1 = Ret tt -> (m ≫= k) s = k tt (m s).2.
Proof. intros E. rewrite run_bind. destruct (m s) as [x s']. cbn [fst snd] in *. by rewrite E. Qed.

Lemma apply_steps r w :
  (run_apply r w).2 =
  (empty_step r None false (floor_step r (egress_step r (repair_step r (truncation_step r (degenerate_step r
    (finalize_thinking float_text r (finalize_forced_tool_schema float_text r w).2).2).2).2).2).2).2).2.
Proof.
  unfold apply. rewrite run_step by done. rewrite run_step by apply finalize_thinking_ret.
  rewrite !run_step by done. done.
Qed.

(** *** Detectors do not touch the result *)

Lemma keeps_truncation_event R r b : keeps (of_result R) (record_truncation_event r b).
Proof. unfold record_truncation_event. keeps_auto. Qed.

Lemma egress_keeps_result R r : keeps (of_result R) (egress_step r).
Proof. unfold shadow_egress_detect, _shadow_egress_check. keeps_auto. Qed.

Lemma empty_keeps_result R r c b : keeps (of_result R) (empty_step r c b).
Proof. unfold detect_structured_empty. keeps_auto. Qed.

(** *** A failed answer is withheld *)

Lemma jget_fail e c d k : k ∉ ["status"; "error"; "code"; "response"] -> jget (fail_result e c d) k = jget d k.
Proof.
  rewrite !not_elem_of_cons. intros (N1 & N2 & N3 & N4 & _). unfold fail_result.
  rewrite jget_ddel_ne by done. destruct c; rewrite !jget_dset_ne by done; done.
Qed.

Lemma fail_not_ok e c d : result_ok (fail_result e c d) = false.
Proof.
  unfold result_ok, fail_result. rewrite jget_ddel_ne by done.
  destruct c; rewrite !jget_dset_ne by done; by rewrite jget_dset_eq.
Qed.

(** The shape of a result the caller is told has failed. *)
Definition withheld (d : dict string json) : Prop :=
  dget d "response" = None /\ exists e, dget d "error" = Some (JStr e).

Lemma fail_withheld e c d : dwf d -> dwf (fail_result e c d) /\ withheld (fail_result e c d).
Proof.
  intros W. unfold fail_result. set (x := match c with Some _ => _ | None => _ end).
  assert (Wx : dwf x) by (unfold x; destruct c; by repeat apply dwf_dset). split; [by apply dwf_ddel|]. split.
  - rewrite dget_ddel by done. by rewrite decide_True.
  - exists e. rewrite dget_ddel_ne by done. unfold x. destruct c; [rewrite dget_dset_ne by done|]; apply dget_dset_eq.
Qed.

(** A success so far, and a success or a withheld failure. *)
Definition succeeding (d : dict string json) : Prop := dwf d /\ result_ok d = true.
Definition settled (d : dict string json) : Prop := dwf d /\ (result_ok d = true \/ result_ok d = false /\ withheld d).

Lemma succeeding_settled w : of_result succeeding w -> of_result settled w.
Proof. intros [W O]. split; auto. Qed.

Lemma succeeding_dset d k v : k <> "status" -> succeeding d -> succeeding (dset d k v).
Proof. intros N [W O]. split; [by apply dwf_dset|]. unfold result_ok. by rewrite jget_dset_ne. Qed.

Lemma fail_settles e c d : succeeding d -> settled (fail_result e c d).
Proof. intros [W _]. destruct (fail_withheld e c d W). split; [done|right]. split; [apply fail_not_ok|done]. Qed.

Lemma keeps_write k v : k <> "status" ->
  keeps (of_result succeeding) (se_modify (fun w => set_result (dset (w_result w) k v) w)).
Proof. intros N. apply keeps_modify. intros w Hw. by apply succeeding_dset. Qed.

Lemma ends_fail e c : ends (of_result succeeding) (of_result settled) (se_modify (fun w => set_result (fail_result e c (w_result w)) w)).
Proof. apply ends_modify. intros w Hw. by apply fail_settles. Qed.

Hint Resolve keeps_truncation_event ends_fail : keeps.
Hint Extern 1 (keeps (of_result succeeding) (se_modify _)) => apply keeps_write; discriminate : keeps.

(** As [keeps_auto], to the write that fails the result. *)
Ltac ends_step :=
  lazymatch goal with
  | |- ends _ _ (guarded _) => apply ends_guarded
  | |- ends _ _ (mbind _ se_get) => apply ends_get; intros ? ?
  | |- ends _ _ (mbind _ _) => apply ends_bind; [exact succeeding_settled| |intros ?]
  | |- ends _ _ (if ?b then _ else _) => destruct b
  | |- ends _ _ (match ?x with _ => _ end) => destruct x
  | |- ends _ _ (mret _) => apply ends_keeps; [exact succeeding_settled|apply keeps_ret]
  | |- ends _ _ (se_modify (fun w => set_result (dset (w_result w) _ _) w)) => apply ends_keeps; [exact succeeding_settled|]
  | |- ends _ _ (mut _) => apply ends_keeps; [exact succeeding_settled|]
  | |- keeps _ _ => keeps_step
  end.
Ltac ends_auto := repeat (cbv zeta; first [solve [eauto with keeps] | ends_step]).

Lemma forced_settles r : ends (of_result succeeding) (of_result settled) (finalize_forced_tool_schema float_text r).
Proof.
  unfold finalize_forced_tool_schema. ends_auto.
  apply ends_keeps; [exact succeeding_settled|]. apply keeps_modify. intros w Hw. by repeat apply succeeding_dset.
Qed.

Lemma thinking_settles r : ends (of_result succeeding) (of_result settled) (finalize_thinking float_text r).
Proof. unfold finalize_thinking, thinking_failed. ends_auto. Qed.

Lemma truncation_settles r : ends (of_result succeeding) (of_result settled) (truncation_step r).
Proof. unfold enforce_toolcall_truncation. ends_auto. Qed.

Lemma floor_settles r : ends (of_result succeeding) (of_result settled) (floor_step r).
Proof. unfold enforce_structured_validity. ends_auto. Qed.

(** A slot taken and given back around a computation. *)
Lemma keeps_in_flight_result {A} R name (m : SE World A) : keeps (of_result R) m -> keeps (of_result R) (in_flight name m).
Proof.
  intros H w Hw. unfold in_flight. specialize (H (on_state (incr name) w) Hw).
  by destruct (m (on_state (incr name) w)) as [[] w'].
Qed.

Lemma keeps_redispatch_result R r status suffix p rem : keeps (of_result R) (redispatch backend r status suffix p rem).
Proof. unfold redispatch. keeps_auto. Qed.

Hint Resolve keeps_in_flight_result keeps_redispatch_result : keeps.

Lemma degen_attempts_succeeding r cs l : keeps (of_result succeeding) (degen_attempts backend clock r cs l).
Proof. induction l as [|[i extra] l IH]; cbn [degen_attempts]; keeps_auto. Qed.

Lemma degen_unrecovered_succeeding : keeps (of_result succeeding) degen_unrecovered.
Proof. unfold degen_unrecovered. keeps_auto. Qed.

Hint Resolve degen_attempts_succeeding degen_unrecovered_succeeding : keeps.

Lemma degenerate_settles r : ends (of_result succeeding) (of_result settled) (degenerate_step r).
Proof.
  apply ends_keeps; [exact succeeding_settled|]. unfold maybe_correct_degenerate. keeps_auto.
  apply keeps_in_flight_result. keeps_auto.
Qed.

Lemma persist_keeps_result R b : keeps (of_result R) (_persist_corrected b).
Proof. unfold _persist_corrected. keeps_auto. Qed.

Hint Resolve persist_keeps_result : keeps.

Lemma swap_succeeding b counter field mark cs : mark <> "status" -> keeps (of_result succeeding) (swap_body b counter field mark cs).
Proof. intros N. unfold swap_body. keeps_auto. by apply keeps_write. Qed.

Lemma retry_keeps_result R r schema msg b :
  keeps (of_result R) (_schema_retry float_text shaping repair_loads valid_schema satisfies backend clock r schema msg b).
Proof. unfold _schema_retry. keeps_auto. apply keeps_in_flight_result. keeps_auto. Qed.

Hint Resolve retry_keeps_result : keeps.
Hint Extern 1 (keeps (of_result succeeding) (swap_body _ _ _ _ _)) => apply swap_succeeding; discriminate : keeps.

Lemma repair_settles r : ends (of_result succeeding) (of_result settled) (repair_step r).
Proof.
  unfold maybe_repair_schema. ends_auto; try (apply ends_keeps; [exact succeeding_settled|]; solve [eauto with keeps]).
  apply ends_modify. intros w Hw. cbv zeta.
  lazymatch goal with |- context [fail_result ?e ?c ?d] =>
    destruct (fail_settles e c d Hw) as [W [O|[O [X1 [e' X2]]]]]; [by rewrite fail_not_ok in O|]; set (d' := fail_result e c d) in * end.
  split; [by apply dwf_dset|]. right. split; [|split; [|exists e']].
  - unfold result_ok. cbn [w_result set_result]. rewrite jget_dset_ne by done. exact O.
  - cbn [w_result set_result]. by rewrite dget_dset_ne.
  - cbn [w_result set_result]. by rewrite dget_dset_ne.
Qed.

(** *** Once failed, nothing touches the result *)

Lemma not_ok_dead r w : result_ok (w_result w) = false ->
  w_result (finalize_forced_tool_schema float_text r w).2 = w_result w
  /\ w_result (finalize_thinking float_text r w).2 = w_result w
  /\ w_result (degenerate_step r w).2 = w_result w
  /\ w_result (truncation_step r w).2 = w_result w
  /\ w_result (repair_step r w).2 = w_result w
  /\ w_result (floor_step r w).2 = w_result w.
Proof.
  intros H. split_and!.
  - unfold finalize_forced_tool_schema. rewrite guarded_ret. cbn [snd]. rewrite run_get. cbv zeta. rewrite H.
    by destruct (r_forced_tool_schema r).
  - unfold finalize_thinking, mut. rewrite run_get. cbv zeta. rewrite run_modify, H. by repeat case_match.
  - unfold maybe_correct_degenerate. rewrite guarded_ret. cbn [snd]. by rewrite run_get, H, orb_true_r.
  - unfold enforce_toolcall_truncation. rewrite guarded_ret. cbn [snd]. by rewrite run_get, H, orb_true_r.
  - unfold maybe_repair_schema. rewrite guarded_ret. cbn [snd]. by rewrite run_get, H, orb_true_r.
  - unfold enforce_structured_validity. rewrite guarded_ret. cbn [snd]. by rewrite run_get, H, orb_true_r.
Qed.

Lemma settled_step (m : SE World unit) w :
  ends (of_result succeeding) (of_result settled) m ->
  (result_ok (w_result w) = false -> w_result (m w).2 = w_result w) ->
  of_result settled w -> of_result settled (m w).2.
Proof.
  intros E D [W [O|[O H]]].
  - apply (ends_run _ _ m w E). by split.
  - unfold of_result. rewrite (D O). split; [done|by right].
Qed.

(** A result that goes in as a success comes out as a success, or as a failure
    with a message and without a body: no correction ever hands a caller an
    answer it has declared bad, and none revives a result an earlier one failed. *)
Theorem failed_answer_withheld r w :
  dwf (w_result w) -> result_ok (w_result w) = true ->
  let d := w_result (run_apply r w).2 in
  result_ok d = true \/ (result_ok d = false /\ dget d "response" = None /\ exists e, dget d "error" = Some (JStr e)).
Proof.
  intros W O. enough (X : of_result settled (run_apply r w).2) by by destruct X as [_ X].
  assert (S : of_result settled w) by (split; auto). rewrite apply_steps.
  assert (G : forall m, ends (of_result succeeding) (of_result settled) m ->
    (forall w, result_ok (w_result w) = false -> w_result (m w).2 = w_result w) ->
    forall w, of_result settled w -> of_result settled (m w).2)
    by (intros m E D w0; apply settled_step; auto).
  apply (keeps_run _ _ _ (empty_keeps_result _ r None false)).
  apply G; [apply floor_settles|intros; by apply not_ok_dead|].
  apply (keeps_run _ _ _ (egress_keeps_result _ r)).
  apply G; [apply repair_settles|intros; by apply not_ok_dead|].
  apply G; [apply truncation_settles|intros; by apply not_ok_dead|].
  apply G; [apply degenerate_settles|intros; by apply not_ok_dead|].
  apply G; [apply thinking_settles|intros; by apply not_ok_dead|].
  apply G; [apply forced_settles|intros; by apply not_ok_dead|done].
Qed.

(** *** The floor *)

(** Whatever text the answer has parses as JSON, if its token count is a number. *)
Definition parses (d : dict string json) : Prop :=
  forall response content, jget d "response" = JDict response -> _chat_completion_text response = JStr content ->
  strip content <> "" -> (exists n, usage_count "completion_tokens" response = Ret n) ->
  is_Some (loads float_text content).

Lemma expects_chat r : request_expects_json r = true -> is_chat r = true.
Proof. unfold request_expects_json. by destruct (is_chat r). Qed.

Lemma floor_passes r w :
  structured_validity_guard_enabled sw = true -> request_expects_json r = true ->
  result_ok (w_result (floor_step r w).2) = true ->
  w_result (floor_step r w).2 = w_result w /\ parses (w_result w).
Proof.
  intros HS HE. unfold enforce_structured_validity. rewrite guarded_ret. cbn [snd]. rewrite run_get, HS, HE, (expects_chat r HE).
  cbn [negb orb]. destruct (result_ok (w_result w)) eqn:O; cbn [negb orb]; [|by cbn; rewrite O].
  destruct (jget (w_result w) "response") as [| | | | | |response] eqn:ER;
    try (intros _; split; [done|]; intros ? ? E; congruence).
  destruct (_chat_completion_text response) as [| | | |content| |] eqn:EC;
    try (intros _; split; [done|]; intros ? ? E1 E2; congruence).
  destruct (String.eqb_spec (strip content) "") as [B|B]; cbn [orb].
  { intros _. split; [done|]. intros ? ? E1 E2. congruence. }
  destruct (loads_ok float_text content) eqn:L.
  { intros _. split; [done|]. intros ? ? E1 E2 _ _. unfold loads_ok in L. apply bool_decide_eq_true in L. congruence. }
  rewrite run_lift. destruct (usage_count "completion_tokens" response) as [n|e] eqn:U.
  - unfold mut. rewrite run_modify. cbn [se_modify snd w_result set_result]. by rewrite fail_not_ok.
  - intros _. split; [done|]. intros ? ? E1 E2 _ [n Hn]. congruence.
Qed.

Lemma ok_answer_parses r w :
  structured_validity_guard_enabled sw = true -> request_expects_json r = true ->
  result_ok (w_result (run_apply r w).2) = true -> parses (w_result (run_apply r w).2).
Proof.
  intros HS HE. rewrite apply_steps. set (w7 := (floor_step r _).2).
  assert (E : w_result (empty_step r None false w7).2 = w_result w7)
    by exact (keeps_run (of_result (fun d => d = w_result w7)) _ _ (empty_keeps_result _ r None false) eq_refl).
  rewrite E. intros O. destruct (floor_passes r _ HS HE O) as [E' P]. unfold w7. by rewrite E'.
Qed.

(** C17 From the request the caller sent to the answer it gets, while the operator's
    validity guard is on.  If the constraint of the request implied JSON and a
    result is handed on as a success, then its text parses, whatever the request
    side did to the constraint and however often the backend was asked; or it is
    blank, which is not judged; or the answer came with a count of its tokens that
    is no number, on which the guard raises before it has failed the result, and
    so lets it pass ([AnswerDemo.unreadable_usage_opens_floor]). *)
Theorem structured_success_parses forced_budget thinking_budget thinking_on now s w :
  structured_validity_guard_enabled sw = true -> request_expects_json (ss_req s) = true ->
  let r := shaped_request roles shaping forced_budget thinking_budget thinking_on now s in
  let d := w_result (run_apply r w).2 in
  result_ok d = true ->
  forall response content, jget d "response" = JDict response -> _chat_completion_text response = JStr content ->
  is_Some (loads float_text content) \/ strip content = "" \/ (exists e, usage_count "completion_tokens" response = Raise e).
Proof.
  intros HS HE r d O response content R C.
  assert (P : parses d).
  { apply ok_answer_parses; [done| |done]. by apply (gates_kept_chain roles shaping forced_budget thinking_budget thinking_on now s). }
  destruct (decide (strip content = "")) as [B|B]; [by right; left|].
  destruct (usage_count "completion_tokens" response) as [n|e] eqn:U; [left|right; right; by eexists].
  by apply (P response content R C B); exists n.
Qed.

(** *** Slots of the re-dispatches *)

Lemma count_incr_by n name name' s :
  count_of name' (incr_by n name s) = if decide (name = name') then (count_of name' s + n)%Z else count_of name' s.
Proof. unfold count_of at 1, incr_by. cbn [cs_count with_count]. rewrite dget_dset. by case_decide; subst. Qed.

Lemma count_incr name name' s : name <> name' -> count_of name' (incr name s) = count_of name' s.
Proof. intros N. unfold incr. rewrite count_incr_by. by rewrite decide_False. Qed.

(** [name] counts the requests in flight of one of the two corrections. *)
Definition is_slot (name : string) : Prop := name = "degen_redispatch_inflight" \/ name = "schema_retry_inflight".

Section Slots.
Context (name : string) (HN : is_slot name).
Let held (n : Z) : World -> Prop := of_state (fun s => count_of name s = n).

Lemma keeps_in_flight_slot {A} c n (m : SE World A) : (forall c, keeps (held c) m) -> keeps (held c) (in_flight n m).
Proof using HN.
  intros H w Hw. unfold in_flight. set (c' := if decide (n = name) then (c + 1)%Z else c).
  assert (E : held c' (on_state (incr n) w)).
  { unfold held, of_state, incr in *. cbn [w_state on_state]. rewrite count_incr_by. unfold c'. case_decide; by rewrite Hw. }
  specialize (H c' _ E). assert (G : forall w', held c' w' -> held c (on_state (incr_by (-1) n) w')).
  { intros w' Hw'. unfold held, of_state in *. cbn [w_state on_state]. rewrite count_incr_by, Hw'. unfold c'. case_decide; lia. }
  destruct (m (on_state (incr n) w)) as [[] w']; by apply G.
Qed.

Lemma slot_names n : n ∈ ["truncation_total"; "structured_parse_failure_total"; "structured_empty_total"; "thinking_requests"; "thinking_noop"; "thinking_clean"; "thinking_recovered"; "thinking_truncated"; "thinking_fallback"; "degeneration_detected"; "degeneration_recovered"; "degeneration_unrecovered"; "schema_detected"; "schema_repaired"; "schema_retry_recovered"; "schema_unrecoverable"] -> n <> name.
Proof using HN. intros H ->. revert H. destruct HN as [-> | ->]; not_in. Qed.

Lemma count_tally t fields key field s : count_of name (incr_tally t fields key field s) = count_of name s.
Proof. done. Qed.
Lemma count_table t key s : count_of name (incr_table t key s) = count_of name s.
Proof. done. Qed.
Lemma count_outcome ep e cs now s : count_of name (record_structured_outcome ep e cs now s) = count_of name s.
Proof. done. Qed.

(** A write of the state that is not to a slot. *)
Ltac slot_write :=
  apply keeps_mut_state; intros ? ?; unfold tally_schema, record_structured_parse_failure;
  repeat case_match; rewrite ?count_outcome, ?count_tally, ?count_table, ?count_incr by (apply slot_names; not_in);
  rewrite ?count_tally, ?count_table; assumption.

Hint Extern 2 (keeps _ (mut _)) => solve [slot_write] : keeps.
Hint Extern 1 (keeps (held _) (se_modify _)) => apply keeps_set_result_state : keeps.
Hint Extern 1 (keeps (held _) (se_modify _)) => solve [intros ? ?; assumption] : keeps.
Hint Extern 1 (keeps (held _) (in_flight _ _)) => apply keeps_in_flight_slot; intros : keeps.

Lemma truncation_event_slot c r b : keeps (held c) (record_truncation_event r b).
Proof using HN. unfold record_truncation_event. keeps_auto. Qed.

Lemma forced_slot c r : keeps (held c) (finalize_forced_tool_schema float_text r).
Proof using HN. pose proof (truncation_event_slot c). unfold finalize_forced_tool_schema. keeps_auto. Qed.

Lemma thinking_slot c r : keeps (held c) (finalize_thinking float_text r).
Proof using HN. unfold finalize_thinking. keeps_auto. Qed.

Lemma redispatch_slot c r status suffix p rem : keeps (held c) (redispatch backend r status suffix p rem).
Proof using HN. unfold redispatch. keeps_auto. Qed.

Lemma degen_attempts_slot c r cs l : keeps (held c) (degen_attempts backend clock r cs l).
Proof using HN.
  pose proof (redispatch_slot c). induction l as [|[i extra] l IH]; cbn [degen_attempts]; keeps_auto.
Qed.

Lemma degen_unrecovered_slot c : keeps (held c) degen_unrecovered.
Proof using HN. unfold degen_unrecovered. keeps_auto. Qed.

Lemma degenerate_slot c r : keeps (held c) (degenerate_step r).
Proof using HN.
  pose proof degen_attempts_slot. pose proof degen_unrecovered_slot. unfold maybe_correct_degenerate. keeps_auto.
  apply keeps_in_flight_slot. intros c0. keeps_auto.
Qed.

Lemma truncation_slot c r : keeps (held c) (truncation_step r).
Proof using HN. pose proof (truncation_event_slot c). unfold enforce_toolcall_truncation. keeps_auto. Qed.

Lemma persist_slot c b : keeps (held c) (_persist_corrected b).
Proof using HN. unfold _persist_corrected. keeps_auto. Qed.

Lemma swap_slot c b counter field mark cs : counter ∈ ["schema_repaired"; "schema_retry_recovered"] ->
  keeps (held c) (swap_body b counter field mark cs).
Proof using HN.
  intros HC. pose proof (persist_slot c). unfold swap_body. keeps_auto.
  apply keeps_mut_state. intros s Hs. unfold tally_schema. rewrite count_tally, count_incr; [done|].
  apply slot_names. apply elem_of_cons in HC as [->|HC]; [|apply list_elem_of_singleton in HC as ->]; not_in.
Qed.

Lemma retry_slot c r schema msg b :
  keeps (held c) (_schema_retry float_text shaping repair_loads valid_schema satisfies backend clock r schema msg b).
Proof using HN.
  pose proof redispatch_slot. unfold _schema_retry. keeps_auto. apply keeps_in_flight_slot. intros c0. keeps_auto.
Qed.

Lemma repair_slot c r : keeps (held c) (repair_step r).
Proof using HN.
  pose proof retry_slot. unfold maybe_repair_schema. keeps_auto; apply swap_slot; not_in.
Qed.

Lemma egress_slot c r : keeps (held c) (egress_step r).
Proof using HN. unfold shadow_egress_detect, _shadow_egress_check. keeps_auto. Qed.

Lemma floor_slot c r : keeps (held c) (floor_step r).
Proof using HN. unfold enforce_structured_validity. keeps_auto. Qed.

Lemma empty_slot c r x b : keeps (held c) (empty_step r x b).
Proof using HN. unfold detect_structured_empty. keeps_auto. Qed.

(** Every path gives its slot back. *)
Lemma slots_balanced r w : count_of name (w_state (run_apply r w).2) = count_of name (w_state w).
Proof using HN.
  rewrite apply_steps. set (c := count_of name (w_state w)).
  apply (keeps_run (held c)); [apply empty_slot|]. apply (keeps_run (held c)); [apply floor_slot|].
  apply (keeps_run (held c)); [apply egress_slot|]. apply (keeps_run (held c)); [apply repair_slot|].
  apply (keeps_run (held c)); [apply truncation_slot|]. apply (keeps_run (held c)); [apply degenerate_slot|].
  apply (keeps_run (held c)); [apply thinking_slot|]. apply (keeps_run (held c)); [apply forced_slot|done].
Qed.
End Slots.

(** *** What is sent again *)

(** The computation appends re-dispatches whose ids are, in order, among [L]. *)
Definition sends {A} (L : list string) (m : SE World A) : Prop := forall w, exists extra,
  cs_sent (w_state (m w).2) = (cs_sent (w_state w) ++ extra)%list /\ map fst extra `sublist_of` L.

Definition sent_so_far (x : list (string * dict string json)) : World -> Prop := of_state (fun s => cs_sent s = x).

Lemma sends_quiet {A} L (m : SE World A) : (forall x, keeps (sent_so_far x) m) -> sends L m.
Proof.
  intros H w. exists []. rewrite app_nil_r. split; [|apply sublist_nil_l].
  exact (keeps_run _ _ _ (H (cs_sent (w_state w))) eq_refl).
Qed.

Lemma sends_bind {A B} L1 L2 (m : SE World A) (f : A -> SE World B) :
  sends L1 m -> (forall a, sends L2 (f a)) -> sends (L1 ++ L2) (m ≫= f).
Proof.
  intros Hm Hf w. destruct (Hm w) as (e1 & E1 & S1). rewrite run_bind.
  destruct (m w) as [[a|e] w'] eqn:E; cbn [snd] in *.
  - destruct (Hf a w') as (e2 & E2 & S2). exists (e1 ++ e2)%list. rewrite E2, E1, app_assoc, map_app.
    split; [done|by apply sublist_app].
  - exists e1. split; [done|]. by apply sublist_inserts_r.
Qed.

Lemma sends_guarded L m : sends L m -> sends L (guarded m).
Proof. intros H w. exact (H w). Qed.

Lemma sends_get {B} L (f : World -> SE World B) : (forall s, sends L (f s)) -> sends L (se_get ≫= f).
Proof. intros H w. exact (H w w). Qed.

Lemma sends_in_flight {A} L name (m : SE World A) : sends L m -> sends L (in_flight name m).
Proof.
  intros H w. destruct (H (on_state (incr name) w)) as (e & E & S). exists e. unfold in_flight.
  destruct (m (on_state (incr name) w)) as [x w']. split; [exact E|exact S].
Qed.

(** A first part that sends nothing. *)
Lemma sends_after {A B} L (m : SE World A) (f : A -> SE World B) :
  (forall x, keeps (sent_so_far x) m) -> (forall a, sends L (f a)) -> sends L (m ≫= f).
Proof. intros H. apply (sends_bind [] L). by apply sends_quiet. Qed.

Ltac quiet_write := apply keeps_mut_state; intros ? <-; repeat case_match; reflexivity.
Hint Extern 2 (keeps (sent_so_far _) (mut _)) => solve [quiet_write] : keeps.
Hint Extern 1 (keeps (sent_so_far _) (se_modify _)) => solve [intros ? ?; assumption] : keeps.

Lemma truncation_event_quiet x r b : keeps (sent_so_far x) (record_truncation_event r b).
Proof. unfold record_truncation_event. keeps_auto. Qed.
Hint Resolve truncation_event_quiet : keeps.

Lemma forced_quiet x r : keeps (sent_so_far x) (finalize_forced_tool_schema float_text r).
Proof. unfold finalize_forced_tool_schema. keeps_auto. Qed.
Lemma thinking_quiet x r : keeps (sent_so_far x) (finalize_thinking float_text r).
Proof. unfold finalize_thinking. keeps_auto. Qed.
Lemma truncation_quiet x r : keeps (sent_so_far x) (truncation_step r).
Proof. unfold enforce_toolcall_truncation. keeps_auto. Qed.
Lemma egress_quiet x r : keeps (sent_so_far x) (egress_step r).
Proof. unfold shadow_egress_detect, _shadow_egress_check. keeps_auto. Qed.
Lemma floor_quiet x r : keeps (sent_so_far x) (floor_step r).
Proof. unfold enforce_structured_validity. keeps_auto. Qed.
Lemma empty_quiet x r a b : keeps (sent_so_far x) (empty_step r a b).
Proof. unfold detect_structured_empty. keeps_auto. Qed.
Lemma unrecovered_quiet x : keeps (sent_so_far x) degen_unrecovered.
Proof. unfold degen_unrecovered. keeps_auto. Qed.
Lemma swap_quiet x b counter field mark cs : keeps (sent_so_far x) (swap_body b counter field mark cs).
Proof. unfold swap_body, _persist_corrected. keeps_auto. Qed.
Hint Resolve unrecovered_quiet swap_quiet : keeps.

(** The id of attempt [i], when there was time for it. *)
Definition may_send (r : QueuedRequest) (i : nat) (suffix : string) : list string :=
  if Qltb (remaining clock r i) _MIN_RETRY_BUDGET_S then [] else [r_request_id r ++ suffix].

Lemma redispatch_sends r status suffix p rem : sends [r_request_id r ++ suffix] (redispatch backend r status suffix p rem).
Proof. intros w. exists [(r_request_id r ++ suffix, p)]. split; [reflexivity|done]. Qed.

Definition degen_suffix (i : nat) : string := "-degen" ++ str_of_Z (Z.of_nat i).

Lemma degen_attempts_sends r cs l :
  sends (flat_map (fun a => may_send r a.1 (degen_suffix a.1)) l) (degen_attempts backend clock r cs l).
Proof.
  induction l as [|[i extra] l IH]; cbn [degen_attempts flat_map fst]; [apply sends_quiet; intros; keeps_auto|].
  unfold may_send at 1. destruct (Qltb _ _); [apply sends_quiet; intros; keeps_auto|].
  apply sends_bind; [apply redispatch_sends|]. intros [body d tin tout fin|e]; [|apply IH].
  apply sends_after; [intros; keeps_auto|]. intros [|]; [apply IH|]. apply sends_quiet. intros. keeps_auto.
Qed.

Definition degen_ids (r : QueuedRequest) : list string := (may_send r 1 (degen_suffix 1) ++ may_send r 2 (degen_suffix 2))%list.

(** Branches that send nothing are quiet; the last goal is the one that sends. *)
Ltac sends_auto :=
  repeat (cbv zeta; first
    [ solve [apply sends_quiet; intros; keeps_auto]
    | lazymatch goal with
      | |- sends _ (guarded _) => apply sends_guarded
      | |- sends _ (mbind _ se_get) => apply sends_get; intros ?
      | |- sends _ (mbind _ (in_flight _ _)) => fail
      | |- sends _ (mbind _ (_schema_retry _ _ _ _ _ _ _ _ _ _ _)) => fail
      | |- sends _ (mbind _ _) => apply sends_after; [solve [intros; keeps_auto]|intros ?]
      | |- sends _ (in_flight _ _) => apply sends_in_flight
      | |- sends _ (if ?b then _ else _) => destruct b
      | |- sends _ (match ?x with _ => _ end) => destruct x
      end ]).

Lemma degenerate_sends r : sends (degen_ids r) (degenerate_step r).
Proof.
  unfold maybe_correct_degenerate. sends_auto.
  rewrite <- (app_nil_r (degen_ids r)). apply sends_bind; [|intros [|]; apply sends_quiet; intros; keeps_auto].
  unfold degen_ids. rewrite <- (app_nil_r (may_send r 2 _)). exact (degen_attempts_sends r _ penalties).
Qed.

Lemma retry_sends r schema msg b :
  sends (may_send r 3 "-schema") (_schema_retry float_text shaping repair_loads valid_schema satisfies backend clock r schema msg b).
Proof.
  unfold _schema_retry, may_send. apply sends_get. intros w. destruct (2 <=? _)%Z; [apply sends_quiet; intros; keeps_auto|].
  destruct (Qltb _ _); [apply sends_quiet; intros; keeps_auto|].
  destruct (dget shaping (r_endpoint r)); [|apply sends_quiet; intros; keeps_auto]. apply sends_in_flight.
  rewrite <- (app_nil_r [r_request_id r ++ "-schema"]). apply sends_bind; [apply redispatch_sends|].
  intros reply. apply sends_quiet. intros. keeps_auto.
Qed.

Lemma repair_sends r : sends (may_send r 3 "-schema") (repair_step r).
Proof.
  unfold maybe_repair_schema. sends_auto.
  rewrite <- (app_nil_r (may_send r 3 _)). apply sends_bind; [apply retry_sends|].
  intros [b|]; apply sends_quiet; intros; keeps_auto.
Qed.

Lemma sends_then L1 L2 (m2 : SE World unit) w x e1 :
  cs_sent (w_state w) = (x ++ e1)%list -> map fst e1 `sublist_of` L1 -> sends L2 m2 ->
  exists e2, cs_sent (w_state (m2 w).2) = (x ++ e2)%list /\ map fst e2 `sublist_of` (L1 ++ L2)%list.
Proof.
  intros E S H. destruct (H w) as (e & E' & S'). exists (e1 ++ e)%list. rewrite E', E, app_assoc, map_app.
  split; [done|by apply sublist_app].
Qed.

Lemma sends_quiet_step x L (m : SE World unit) w : (forall x, keeps (sent_so_far x) m) ->
  (exists e, cs_sent (w_state w) = (x ++ e)%list /\ map fst e `sublist_of` L) ->
  exists e, cs_sent (w_state (m w).2) = (x ++ e)%list /\ map fst e `sublist_of` L.
Proof. intros H (e & E & S). exists e. split; [|done]. exact (keeps_run _ _ _ (H _) E). Qed.

(** The extra backend work one answer can cause: at most two attempts against a
    repetition and one against a schema, in that order, each only while the
    caller's deadline leaves five seconds, and every one gives its concurrency
    slot back, whatever the backend does. *)
Theorem redispatches_bounded r w :
  let w' := (run_apply r w).2 in
  (exists extra, cs_sent (w_state w') = (cs_sent (w_state w) ++ extra)%list
     /\ map fst extra `sublist_of` (degen_ids r ++ may_send r 3 "-schema")%list)
  /\ (forall name, is_slot name -> count_of name (w_state w') = count_of name (w_state w)).
Proof.
  cbv zeta. split; [|intros name H; by apply slots_balanced].
  rewrite apply_steps. apply sends_quiet_step; [intros; apply empty_quiet|].
  apply sends_quiet_step; [intros; apply floor_quiet|]. apply sends_quiet_step; [intros; apply egress_quiet|].
  set (w2 := (finalize_thinking float_text r _).2).
  assert (E2 : cs_sent (w_state w2) = cs_sent (w_state w)).
  { unfold w2. apply (keeps_run _ _ _ (thinking_quiet _ r)). by apply (keeps_run _ _ _ (forced_quiet _ r)). }
  destruct (degenerate_sends r w2) as (e1 & E1 & S1). rewrite E2 in E1.
  eapply (sends_then (degen_ids r) _ (repair_step r)); [|exact S1|apply repair_sends].
  exact (keeps_run _ _ _ (truncation_quiet _ r) E1).
Qed.

(** *** Answers the guards have nothing to say about *)

(** The request was not translated and did not opt in to thinking. *)
Definition plain_request (r : QueuedRequest) (w : World) : Prop :=
  r_forced_tool_schema r = None /\ dget (cs_active (w_state w)) (r_request_id r) = None.

(** A text that is no repetition. *)
Definition sound_text (w : World) (response : dict string json) (content : string) : Prop :=
  jget (w_result w) "response" = JDict response /\ _chat_completion_text response = JStr content
  /\ content_degenerate (JStr content) = Ret false.

Lemma ddel_absent {V} (d : dict string V) k : dget d k = None -> ddel d k = d.
Proof. apply ddel_None. Qed.

Lemma first_three r w response content : plain_request r w -> sound_text w response content ->
  (degenerate_step r (finalize_thinking float_text r (finalize_forced_tool_schema float_text r w).2).2).2 = w.
Proof.
  intros [HF HA] (HR & HC & HD).
  assert (E1 : (finalize_forced_tool_schema float_text r w).2 = w)
    by (unfold finalize_forced_tool_schema; rewrite guarded_ret, run_get, HF; done).
  assert (E2 : (finalize_thinking float_text r w).2 = w).
  { unfold finalize_thinking, mut. rewrite run_get. cbv zeta. rewrite run_modify, HA. cbn [mret se_ret snd].
    destruct w as [d s]. unfold on_state. cbn [w_state w_result] in *. rewrite ddel_absent by done. by destruct s. }
  rewrite E1, E2. unfold maybe_correct_degenerate. rewrite guarded_ret, run_get, HR, HC. cbn [snd].
  destruct (_ || _ || _)%bool; [done|]. by rewrite HD.
Qed.

(** The answer meets what was asked of it. *)
Definition conforming (r : QueuedRequest) (response : dict string json) (content : string) : Prop :=
  args_valid float_text response = true
  /\ (request_expects_json r = true -> strip content = ""
      \/ exists schema, _declared_schema r = Ret schema
         /\ _content_valid float_text valid_schema satisfies content schema = true).

Lemma content_valid_loads content schema :
  _content_valid float_text valid_schema satisfies content schema = true -> loads_ok float_text content = true.
Proof. unfold _content_valid, loads_ok. destruct (loads float_text content) eqn:E; [|done]. intros _. by apply bool_decide_eq_true. Qed.

Lemma truncation_passes r w response : jget (w_result w) "response" = JDict response -> args_valid float_text response = true ->
  (truncation_step r w).2 = w.
Proof.
  intros HR HA. unfold enforce_toolcall_truncation. rewrite guarded_ret, run_get, HR, HA. cbn [snd].
  destruct (_ || _ || _)%bool; [done|]. destruct (shape_of roles shaping r); [|done]. by rewrite orb_true_r.
Qed.

Lemma repair_passes r w response content : jget (w_result w) "response" = JDict response ->
  _chat_completion_text response = JStr content -> conforming r response content -> (repair_step r w).2 = w.
Proof.
  intros HR HC [HA HE]. unfold maybe_repair_schema. rewrite guarded_ret, run_get, HR. cbn [snd]. cbv zeta.
  destruct (_ || _ || _)%bool; [done|]. destruct (negb _); [done|]. rewrite run_lift.
  destruct (_declared_schema r) as [schema|e] eqn:ES; [|done]. rewrite run_lift.
  assert (_conform_body float_text repair_loads valid_schema satisfies response schema (request_expects_json r) = Ret OkBody) as ->; [|done].
  unfold _conform_body. cbv zeta. rewrite HC, HA. destruct (request_expects_json r) eqn:EE; [|done].
  cbn [content_strip]. change (mbind ?f (Ret ?x)) with (f x). cbn beta.
  destruct (HE eq_refl) as [->|(sc & [= <-] & ->)]; [done|]. by destruct (String.eqb (strip content) "").
Qed.

Lemma floor_lets_pass r w response content : jget (w_result w) "response" = JDict response ->
  _chat_completion_text response = JStr content -> conforming r response content -> (floor_step r w).2 = w.
Proof.
  intros HR HC [_ HE]. unfold enforce_structured_validity. rewrite guarded_ret, run_get, HR, HC. cbn [snd].
  destruct (_ || _ || _)%bool; [done|]. destruct (request_expects_json r) eqn:EE; [|done]. cbn [negb].
  destruct (HE eq_refl) as [->|(sc & _ & V)]; [done|]. by rewrite (content_valid_loads _ _ V), orb_true_r.
Qed.

(** A good answer costs nothing and is not touched: if its text is no
    repetition, its tool calls' arguments are JSON and, where the request asked
    for JSON, its content satisfies the declared schema, then the caller gets
    the backend's own body and no request is sent again. *)
Theorem good_answer_untouched r w response content :
  plain_request r w -> sound_text w response content -> conforming r response content ->
  let w' := (run_apply r w).2 in w_result w' = w_result w /\ cs_sent (w_state w') = cs_sent (w_state w).
Proof.
  intros HP HS HC. cbv zeta. pose proof HS as (HR & HT & _). rewrite apply_steps.
  rewrite (first_three r w response content HP HS), (truncation_passes r w response HR (proj1 HC)).
  rewrite (repair_passes r w response content HR HT HC). set (w6 := (egress_step r w).2).
  assert (R6 : w_result w6 = w_result w) by exact (keeps_run _ _ _ (egress_keeps_result (fun d => d = w_result w) r) eq_refl).
  assert (S6 : cs_sent (w_state w6) = cs_sent (w_state w)) by exact (keeps_run _ _ _ (egress_quiet _ r) eq_refl).
  rewrite (floor_lets_pass r w6 response content) by (try done; by rewrite R6). split.
  - exact (keeps_run _ _ _ (empty_keeps_result (fun d => d = w_result w) r None false) R6).
  - exact (keeps_run _ _ _ (empty_quiet _ r None false) S6).
Qed.

(** *** A tool call cut in the middle *)

(** C28 On a backend declared to report a cut tool call as finished, and while the
    operator's validity guard is on, a call whose arguments are not JSON is failed
    as a truncation, before the repair could close the cut text into a command the
    model never wrote: the answer is withheld, nothing is sent again, and the
    failure is disclosed to the caller.  This is so for a chat answer that none of
    the earlier corrections takes up (the request was not translated into a forced
    call, did not opt in to thinking, and the text is no repetition), and where the
    answer's count of its tokens and the cap of the request are numbers: on others
    the rule raises and fails open. *)
Theorem cut_call_fails_loud r w response content ep :
  structured_validity_guard_enabled sw = true -> is_chat r = true -> result_ok (w_result w) = true ->
  shape_of roles shaping r = Some ep -> mislabels_truncated_tool_calls ep = true ->
  plain_request r w -> sound_text w response content -> dwf (w_result w) ->
  args_valid float_text response = false ->
  (exists n, usage_count "completion_tokens" response = Ret n) -> (exists n, int_field (jget (r_payload r) "max_tokens") = Ret n) ->
  let w' := (run_apply r w).2 in
  result_ok (w_result w') = false /\ withheld (w_result w') /\ cs_sent (w_state w') = cs_sent (w_state w)
  /\ "toolcall_truncated" ∈ corrections_applied r (w_result w').
Proof.
  intros HG HC HO HE HM HP HS HW HA [n HU] [m HX]. cbv zeta. pose proof HS as (HR & _). rewrite apply_steps.
  rewrite (first_three r w response content HP HS).
  assert (E : exists e, w_result (truncation_step r w).2 = fail_result e (Some "toolcall_truncated") (w_result w)
                        /\ cs_sent (w_state (truncation_step r w).2) = cs_sent (w_state w)).
  { eexists. split; [|exact (keeps_run _ _ _ (truncation_quiet _ r) eq_refl)].
    unfold enforce_toolcall_truncation. rewrite guarded_ret, run_get, HG, HO, HC, HR, HE, HM, HA. cbn [negb orb snd].
    rewrite run_lift, HU. unfold record_truncation_event. rewrite run_bind, run_lift, HX. cbn [negb andb]. reflexivity. }
  destruct E as (e & E & S). set (w4 := (truncation_step r w).2) in *.
  destruct (fail_withheld e (Some "toolcall_truncated") (w_result w) HW) as [W4 H4]. rewrite <- E in W4, H4.
  assert (O4 : result_ok (w_result w4) = false) by (rewrite E; apply fail_not_ok).
  assert (R : w_result (empty_step r None false (floor_step r (egress_step r (repair_step r w4).2).2).2).2 = w_result w4).
  { assert (R5 : w_result (repair_step r w4).2 = w_result w4) by by apply not_ok_dead.
    assert (R6 : w_result (egress_step r (repair_step r w4).2).2 = w_result w4)
      by exact (keeps_run _ _ _ (egress_keeps_result (fun d => d = w_result w4) r) R5).
    assert (R7 : w_result (floor_step r (egress_step r (repair_step r w4).2).2).2 = w_result w4).
    { rewrite <- R6. apply not_ok_dead. by rewrite R6. }
    exact (keeps_run _ _ _ (empty_keeps_result (fun d => d = w_result w4) r None false) R7). }
  rewrite R. split; [done|]. split; [done|]. split.
  - apply (keeps_run _ _ _ (empty_quiet _ r None false)). apply (keeps_run _ _ _ (floor_quiet _ r)).
    apply (keeps_run _ _ _ (egress_quiet _ r)). unfold maybe_repair_schema. rewrite guarded_ret, run_get, O4. cbn [negb snd].
    rewrite orb_true_r. exact S.
  - rewrite E. unfold corrections_applied. cbv zeta. rewrite !elem_of_app. repeat right.
    assert (text_is (jget (fail_result e (Some "toolcall_truncated") (w_result w)) "code") "toolcall_truncated" = true) as ->; [|by left].
    unfold fail_result. rewrite jget_ddel_ne, jget_dset_eq by done. done.
Qed.
End CorrectProps.
