(* ===== verification/Payload.v ===== *)
(** * Repairs of a chat payload shared by the local engines (providers/payload.py)

    Image blocks, strict alternation of turns, the thinking switch read in a
    payload, the sampling and the token budget of a reasoning call, and the
    fields only the proxy understands.  A payload is rebuilt on a copy, so the
    functions take and return one. *)

From Stdlib Require Import QArith Qround Lia ZArith.
From stdpp Require Import base list strings.
From S2P Require Import Prelude PyDict PyText Config Json ThinkSwitch ThinkBleed Cost Queue JsonRead ToolStream Effort Forced.

Local Open Scope string_scope.

(** [a == b] on any two values: dictionaries by content, numbers by value. *)
Fixpoint py_eq (a b : json) {struct a} : bool :=
  match a, b with
  | JList l, JList l' =>
      (fix go l l' := match l, l' with
                      | [], [] => true
                      | x :: l, y :: l' => (py_eq x y && go l l')%bool
                      | _, _ => false
                      end) l l'
  | JDict d, JDict d' =>
      (Nat.eqb (length d) (length d')
       && (fix go d := match d with
                       | [] => true
                       | (k, v) :: d => (match dget d' k with Some w => py_eq v w | None => false end && go d)%bool
                       end) d)%bool
  | _, _ => py_eqb a b
  end.

(** [for x in (j or []):] *)
Definition each_of (j : json) : res (list json) := if truthy j then iterate j else Ret [].

(** [p.update(d)] *)
Definition dict_update (p d : dict string json) : dict string json := foldl (fun p kv => dset p kv.1 kv.2) p d.

(** ** Image blocks *)

Definition is_image_block (block : json) : bool :=
  match block with JDict b => is_type b "image" | _ => false end.

Definition content_of (msg : json) : json := match msg with JDict m => jget m "content" | _ => JNull end.

Definition _has_anthropic_image_block (messages : json) : bool :=
  match messages with
  | JList l => existsb (fun msg => match content_of msg with JList bs => existsb is_image_block bs | _ => false end) l
  | _ => false
  end.

(** The address of an image: inlined when the source is base64. *)
Definition image_url (source : dict string json) : json :=
  if is_type source "base64" then
    JStr ("data:" ++ py_str (default (JStr "image/jpeg") (dget source "media_type"))
          ++ ";base64," ++ py_str (default (JStr "") (dget source "data")))
  else default (JStr "") (dget source "url").

Definition translate_block (block : json) : res json :=
  match block with
  | JDict b =>
      if is_type b "image" then
        source ← or_dict (jget b "source");
        Ret (JDict [("type", JStr "image_url"); ("image_url", JDict [("url", image_url source)])])
      else Ret block
  | _ => Ret block
  end.

Definition translate_message (msg : json) : res json :=
  match msg with
  | JDict m =>
      match jget m "content" with
      | JList bs => bs ← mapM translate_block bs; Ret (JDict (dset m "content" (JList bs)))
      | _ => Ret msg
      end
  | _ => Ret msg
  end.

Definition _translate_anthropic_image_blocks (messages : json) : res (list json) :=
  l ← each_of messages; mapM translate_message l.

(** ** Strict alternation *)

(** [isinstance(msg, dict) and msg.get("role") == role] *)
Definition has_role (role : string) (msg : json) : bool :=
  match msg with JDict m => match jget m "role" with JStr r => String.eqb r role | _ => false end | _ => false end.

Fixpoint adjacent_roles (role : string) (prev : bool) (l : list json) : bool :=
  match l with
  | [] => false
  | msg :: rest => ((has_role role msg && prev) || adjacent_roles role (has_role role msg) rest)%bool
  end.

Definition _has_consecutive_role (messages : json) (role : string) : res bool :=
  l ← each_of messages; Ret (adjacent_roles role false l).

Fixpoint leads_with_assistant (l : list json) : bool :=
  match l with
  | [] => false
  | JDict m :: rest => if has_role "system" (JDict m) then leads_with_assistant rest else has_role "assistant" (JDict m)
  | _ :: rest => leads_with_assistant rest
  end.

Definition _first_nonsystem_is_assistant (messages : json) : res bool :=
  l ← each_of messages; Ret (leads_with_assistant l).

(** The shapes a strict template rejects, on the list of messages. *)
Definition alternation_broken (l : list json) : bool :=
  (adjacent_roles "system" false l || adjacent_roles "user" false l || adjacent_roles "assistant" false l
   || leads_with_assistant l)%bool.

Definition _needs_alternation_fix (messages : json) : res bool :=
  l ← each_of messages; Ret (alternation_broken l).

Definition role_of (msg : json) : json := match msg with JDict m => jget m "role" | _ => JNull end.

(** The text two turns are joined into. *)
Definition joined (a b : string) : string := a ++ LF ++ LF ++ b.

(** The coalesced messages, the last one first, after one more. *)
Definition coalesce (out : list json) (msg : json) : res (list json) :=
  match out, role_of msg with
  | [], _ | _, JNull => Ret (msg :: out)
  | prev :: rest, role =>
      if py_eq role (JStr "tool") then Ret (msg :: out)
      else match prev with
           | JDict p =>
               match py_eq (jget p "role") role, jget p "content", content_of msg with
               | true, JStr a, JStr b => Ret (JDict (dset p "content" (JStr (joined a b))) :: rest)
               | _, _, _ => Ret (msg :: out)
               end
           | _ => Raise AttributeError
           end
  end.

Fixpoint coalesce_all (out l : list json) : res (list json) :=
  match l with
  | [] => Ret out
  | msg :: l => out ← coalesce out msg; coalesce_all out l
  end.

Fixpoint drop_assistants (l : list json) : list json :=
  match l with
  | msg :: rest => if has_role "assistant" msg then drop_assistants rest else l
  | [] => []
  end.

Definition _normalize_strict_alternation (messages : json) : res (list json) :=
  l ← each_of messages;
  out ← coalesce_all [] l;
  Ret (match rev out with
       | first :: rest => if has_role "system" first then first :: drop_assistants rest else drop_assistants (first :: rest)
       | [] => []
       end).

(** ** The thinking switch in a payload *)

Definition _has_thinking_kwarg (p : dict string json) : bool :=
  existsb (fun c => existsb (dmem (template_kwargs c)) _THINKING_KWARG_NAMES) (containers p).

Definition is_true (j : json) : bool := match j with JBool b => b | _ => false end.

Definition _thinking_is_on (p : dict string json) : bool :=
  existsb (fun c => existsb (fun name => is_true (jget (template_kwargs c) name)) _THINKING_KWARG_NAMES) (containers p).

(** A float with its [repr], as configuration gives it. *)
Record PyFloat := mkFloat { fl_repr : string; fl_val : Q }.

Definition fill_float (k : string) (f : PyFloat) (p : dict string json) : dict string json :=
  if (Qle_bool 0 (fl_val f) && match jget p k with JNull => true | _ => false end)%bool
  then dset p k (JFloat (fl_repr f) (fl_val f)) else p.

Definition _apply_thinking_sampling (temperature top_p : PyFloat) (p : dict string json) : dict string json :=
  if (Qltb (fl_val temperature) 0 && Qltb (fl_val top_p) 0)%bool then p
  else if negb (_thinking_is_on p) then p
  else fill_float "top_p" top_p (fill_float "temperature" temperature p).

(** ** The proxy's own fields *)

Definition _is_valid_backend_priority (v : json) : bool := match v with JInt _ => true | _ => false end.

Definition misspelled_priority (p : dict string json) : bool :=
  (dmem p "priority" && negb (_is_valid_backend_priority (jget p "priority")))%bool.

Definition _needs_caller_field_strip (p : dict string json) : bool := (dmem p "call_site" || misspelled_priority p)%bool.

Definition _strip_caller_only_fields (p : dict string json) : dict string json :=
  let p := ddel p "call_site" in if misspelled_priority p then ddel p "priority" else p.

(** ** The cap on reasoning *)

Definition _THINKING_BUDGET_FLOOR : Z := 2000.
Definition _THINKING_BUDGET_CEILING : Z := 16000.
Definition _THINKING_BUDGET_MIN_MAX_TOKENS : Z := 3000.
Definition _TOOL_TURN_ANSWER_RESERVE : Z := 1024.

Definition declares_tool_list (p : dict string json) : bool :=
  match jget p "tools" with JList (_ :: _) => true | _ => false end.

(** The budget of a turn, when there is one to inject. *)
Definition turn_budget (ratio : Q) (absolute : Z) (p : dict string json) : option Z :=
  let mt := py_int (jget p "max_tokens") in
  if declares_tool_list p then
    match mt with
    | Some mt =>
        if (mt <=? 0)%Z then None
        else if (mt - _TOOL_TURN_ANSWER_RESERVE <? _THINKING_BUDGET_FLOOR)%Z then None
        else Some (mt - _TOOL_TURN_ANSWER_RESERVE)%Z
    | None => None
    end
  else if (0 <? absolute)%Z then
    match mt with
    | Some mt => if ((0 <? mt) && (mt <=? absolute))%Z%bool then None else Some absolute
    | None => Some absolute
    end
  else match mt with
       | Some mt =>
           if (mt <? _THINKING_BUDGET_MIN_MAX_TOKENS)%Z then None
           else
             let budget := Z.max _THINKING_BUDGET_FLOOR (Z.min (Qtrunc (inject_Z mt * ratio)) _THINKING_BUDGET_CEILING) in
             if (mt <=? budget)%Z then None else Some budget
       | None => None
       end.

Definition switched_on (p : dict string json) : bool :=
  match jget p "chat_template_kwargs" with
  | JDict ck => (truthy (jget ck "thinking") || truthy (jget ck "enable_thinking"))%bool
  | _ => false
  end.

Definition _apply_thinking_token_budget (ratio : Q) (field : option string) (absolute : Z) (p : dict string json)
  : dict string json :=
  match field with
  | None => p
  | Some field =>
      if ((absolute =? 0)%Z && Qle_bool ratio 0)%bool then p
      else if dmem p field then p
      else if negb (switched_on p) then p
      else match turn_budget ratio absolute p with
           | Some b => dset p field (JInt b)
           | None => p
           end
  end.
