(* ===== verification/Provider.v ===== *)
(** * The adapters of inference engines (providers/)

    What each engine declares about itself, the wire form it needs of a
    request, and what it lets be read off its capacity probes.  A provider may
    refuse a request in its own words ([ProviderError]) or fail as Python does;
    [PR] keeps the two apart.  The environment of the process and the text of a
    float are parameters. *)

From Stdlib Require Import QArith Qround Lia ZArith.
From stdpp Require Import base list strings.
From S2P Require Import Prelude PyDict PyText Config Json ThinkSwitch ThinkBleed Cost Queue JsonRead ToolStream Effort Forced Payload.

Local Open Scope string_scope.

(** ** Refusals *)

Inductive ProviderErr :=
| UnsupportedRequest (why : string)
| ProviderMisconfigured (why : string)
| PyFault (e : PyErr).

Inductive PR (A : Type) := Fine (a : A) | Refused (e : ProviderErr).
Arguments Fine {A} a.
Arguments Refused {A} e.

#[global] Instance pr_ret : MRet PR := fun A a => Fine a.
#[global] Instance pr_bind : MBind PR := fun A B f m => match m with Fine a => f a | Refused e => Refused e end.

(** A Python computation inside a provider. *)
Definition py {A} (x : res A) : PR A := match x with Ret a => Fine a | Raise e => Refused (PyFault e) end.

(** ** Descriptors *)

Record ProviderDescriptor := mkDescriptor {
  pd_name : string;
  pd_kind : string;
  publishes_slot_count : bool;
  publishes_slot_context : bool;
  publishes_context_ceiling : bool;
  publishes_served_model_id : bool;
  publishes_prefix_cache_metrics : bool;
  publishes_cached_tokens : bool;
  publishes_token_costs : bool;
  addressed_by_base_url : bool;
  requires_credential : bool;
  default_base_url : string;
  lists_available_models : bool;
  validates_model_field : bool;
  grammar_field : option string;
  strict_alternation_templates : bool;
  reasoning_is_switchable : bool;
  reasoning_budget_field : option string;
  pd_mislabels_truncated_tool_calls : bool
}.

Definition llamacpp_descriptor : ProviderDescriptor := {|
  pd_name := "llama.cpp"; pd_kind := "local";
  publishes_slot_count := true; publishes_slot_context := true; publishes_context_ceiling := false;
  publishes_served_model_id := true; publishes_prefix_cache_metrics := false; publishes_cached_tokens := false;
  publishes_token_costs := false; validates_model_field := false; grammar_field := Some "grammar";
  strict_alternation_templates := true; reasoning_is_switchable := false;
  reasoning_budget_field := Some "reasoning_budget_tokens"; addressed_by_base_url := false;
  requires_credential := false; default_base_url := ""; lists_available_models := false;
  pd_mislabels_truncated_tool_calls := false |}.

Definition vllm_descriptor : ProviderDescriptor := {|
  pd_name := "vllm"; pd_kind := "local";
  publishes_slot_count := false; publishes_slot_context := false; publishes_context_ceiling := true;
  publishes_served_model_id := true; publishes_prefix_cache_metrics := true; publishes_cached_tokens := true;
  publishes_token_costs := false; validates_model_field := true; grammar_field := Some "structured_outputs";
  strict_alternation_templates := false; reasoning_is_switchable := true;
  reasoning_budget_field := Some "thinking_token_budget"; addressed_by_base_url := false;
  requires_credential := false; default_base_url := ""; lists_available_models := false;
  pd_mislabels_truncated_tool_calls := true |}.

Definition openrouter_descriptor : ProviderDescriptor := {|
  pd_name := "openrouter"; pd_kind := "remote";
  addressed_by_base_url := true; requires_credential := true; default_base_url := "https://openrouter.ai/api/v1";
  lists_available_models := true; publishes_slot_count := false; publishes_slot_context := false;
  publishes_context_ceiling := true; publishes_served_model_id := false; publishes_prefix_cache_metrics := false;
  publishes_cached_tokens := true; publishes_token_costs := true; validates_model_field := true;
  grammar_field := None; strict_alternation_templates := false; reasoning_is_switchable := true;
  reasoning_budget_field := None; pd_mislabels_truncated_tool_calls := false |}.

(** ** The registry *)

Inductive Engine := LLAMACPP | VLLM | OPENROUTER.

Definition descriptor (e : Engine) : ProviderDescriptor :=
  match e with LLAMACPP => llamacpp_descriptor | VLLM => vllm_descriptor | OPENROUTER => openrouter_descriptor end.

(** The table in the order of registration. *)
Definition _PROVIDERS : dict string Engine :=
  map (fun e => (lower (pd_name (descriptor e)), e)) [LLAMACPP; VLLM; OPENROUTER].

Definition DEFAULT_PROVIDER : Engine := LLAMACPP.

Definition provider_for_engine (engine : string) : Engine :=
  let key := lower (strip engine) in
  if String.eqb key "" then DEFAULT_PROVIDER
  else match dget _PROVIDERS key with
       | Some hit => hit
       | None => match List.find (fun kv => startswith kv.1 key) _PROVIDERS with Some (_, e) => e | None => DEFAULT_PROVIDER end
       end.

(** ** What the call passes about its endpoint *)

Record PrepareArgs := mkPrepare {
  pa_model_id : string;
  thinking_budget_ratio : Q;
  pa_thinking_kwargs : list string;
  reasoning_budget_tokens : Z;
  thinking_temperature : PyFloat;
  thinking_top_p : PyFloat
}.

(** The declarations that keep a payload from being returned as it is. *)
Definition declares_budget (a : PrepareArgs) : bool :=
  (Qltb 0 (thinking_budget_ratio a) || (0 <? reasoning_budget_tokens a)%Z
   || (Qle_bool 0 (fl_val (thinking_temperature a)) || Qle_bool 0 (fl_val (thinking_top_p a))))%bool.

(** ** Steps shared by the three *)

(** [p.pop("system")], put first among the messages. *)
Definition inline_system (p : dict string json) : res (dict string json) :=
  let system := jget p "system" in
  let p := ddel p "system" in
  if truthy system then
    l ← each_of (jget p "messages");
    Ret (dset p "messages" (JList (JDict [("role", JStr "system"); ("content", JStr (py_str system))] :: l)))
  else Ret p.

Definition translate_images (needed : bool) (p : dict string json) : res (dict string json) :=
  if needed then l ← _translate_anthropic_image_blocks (jget p "messages"); Ret (dset p "messages" (JList l)) else Ret p.

(** [p.pop("extra_body")], merged over the payload. *)
Definition merge_extra (p : dict string json) : dict string json :=
  let extra := jget p "extra_body" in
  let p := ddel p "extra_body" in
  match extra with JDict eb => dict_update p eb | _ => p end.

Definition set_model (model_id : string) (p : dict string json) : dict string json :=
  if String.eqb model_id "" then p else dset p "model" (JStr model_id).

(** [model_id and payload.get("model") != model_id] *)
Definition needs_model_set (model_id : string) (p : dict string json) : bool :=
  (negb (String.eqb model_id "") && negb (match jget p "model" with JStr m => String.eqb m model_id | _ => false end))%bool.

(** ** llama.cpp *)

Definition fix_alternation (p : dict string json) : res (dict string json) :=
  broken ← _needs_alternation_fix (jget p "messages");
  if broken : bool then l ← _normalize_strict_alternation (jget p "messages"); Ret (dset p "messages" (JList l)) else Ret p.

(** The end both local engines share. *)
Definition reasoning_limits (e : Engine) (a : PrepareArgs) (p : dict string json) : dict string json :=
  _apply_thinking_sampling (thinking_temperature a) (thinking_top_p a)
    (_apply_thinking_token_budget (thinking_budget_ratio a) (reasoning_budget_field (descriptor e)) (reasoning_budget_tokens a) p).

(** What is done when the guard finds something to do. *)
Definition llamacpp_rebuild (a : PrepareArgs) (p : dict string json) : res (dict string json) :=
  let vision := _has_anthropic_image_block (jget p "messages") in
  p ← inline_system p;
  p ← translate_images vision p;
  p ← fix_alternation p;
  Ret (reasoning_limits LLAMACPP a (_strip_caller_only_fields (merge_extra p))).

Definition llamacpp_prepare (a : PrepareArgs) (p : dict string json) : res (dict string json) :=
  broken ← _needs_alternation_fix (jget p "messages");
  if (negb (dmem p "system") && negb (dmem p "extra_body") && negb (_has_anthropic_image_block (jget p "messages"))
      && negb broken && negb (_needs_caller_field_strip p) && negb (declares_budget a))%bool
  then Ret p
  else llamacpp_rebuild a p.

(** ** vLLM *)

(** A grammar at the top level goes where the engine enforces it. *)
Definition move_grammar (p : dict string json) : dict string json :=
  match jget p "grammar" with
  | JStr g =>
      if String.eqb (strip g) "" then p
      else let so := match jget p "structured_outputs" with JDict so => so | _ => [] end in
           dset (ddel p "grammar") "structured_outputs" (JDict (setdefault so "grammar" (JStr g)))
  | _ => p
  end.

Definition thinking_off (keys : list string) (p : dict string json) : dict string json :=
  match keys with
  | [] => p
  | _ => if _has_thinking_kwarg p then p
         else dset p "chat_template_kwargs" (JDict (foldl (fun ck key => dset ck key (JBool false)) (template_kwargs p) keys))
  end.

Definition vllm_rebuild (a : PrepareArgs) (p : dict string json) : res (dict string json) :=
  let vision := _has_anthropic_image_block (jget p "messages") in
  p ← inline_system (set_model (pa_model_id a) p);
  p ← translate_images vision p;
  Ret (reasoning_limits VLLM a (thinking_off (pa_thinking_kwargs a) (move_grammar (_strip_caller_only_fields (merge_extra p))))).

Definition vllm_prepare (a : PrepareArgs) (p : dict string json) : res (dict string json) :=
  let needs_thinking_default := (negb (bool_decide (pa_thinking_kwargs a = [])) && negb (_has_thinking_kwarg p))%bool in
  if (negb (dmem p "system") && negb (dmem p "extra_body") && negb (dmem p "grammar")
      && negb (needs_model_set (pa_model_id a) p) && negb needs_thinking_default
      && negb (_has_anthropic_image_block (jget p "messages")) && negb (_needs_caller_field_strip p)
      && negb (declares_budget a))%bool
  then Ret p
  else vllm_rebuild a p.

(** ** OpenRouter *)

Definition _ENGINE_LOCAL_KEYS : list string := ["id_slot"; "chat_template_kwargs"; "thinking_token_budget"].

Definition _declares_grammar (p : dict string json) : bool :=
  (match jget p "grammar" with JStr g => negb (String.eqb (strip g) "") | _ => false end
   || match jget p "structured_outputs" with JDict so => truthy (jget so "grammar") | _ => false end)%bool.

Definition openrouter_rebuild (a : PrepareArgs) (p : dict string json) : PR (dict string json) :=
  let vision := _has_anthropic_image_block (jget p "messages") in
  p ← py (inline_system (set_model (pa_model_id a) p));
  p ← py (translate_images vision p);
  let merged := merge_extra p in
  match jget p "extra_body" with
  | JDict _ =>
      if _declares_grammar merged
      then Refused (UnsupportedRequest "openrouter cannot enforce a GBNF grammar (arrived via extra_body); refusing rather than dropping it silently")
      else Fine (ddel_all merged _ENGINE_LOCAL_KEYS)
  | _ => Fine (ddel_all merged _ENGINE_LOCAL_KEYS)
  end.

Definition openrouter_prepare (a : PrepareArgs) (p : dict string json) : PR (dict string json) :=
  if _declares_grammar p
  then Refused (UnsupportedRequest "openrouter cannot enforce a GBNF grammar; refusing rather than dropping the constraint silently")
  else if (negb (dmem p "system") && negb (dmem p "extra_body") && negb (needs_model_set (pa_model_id a) p)
           && negb (_has_anthropic_image_block (jget p "messages")) && negb (existsb (dmem p) _ENGINE_LOCAL_KEYS))%bool
  then Fine p
  else openrouter_rebuild a p.

Definition prepare_chat_payload (e : Engine) (a : PrepareArgs) (p : dict string json) : PR (dict string json) :=
  match e with
  | LLAMACPP => py (llamacpp_prepare a p)
  | VLLM => py (vllm_prepare a p)
  | OPENROUTER => openrouter_prepare a p
  end.

(** ** Routes and headers *)

Definition path_for (e : Engine) (payload_type : string) : PR string :=
  match e with
  | OPENROUTER =>
      if (String.eqb payload_type "embedding" || String.eqb payload_type "rerank")%bool
      then Refused (UnsupportedRequest ("openrouter has no " ++ payload_type ++ " route — route this payload type to a local backend"))
      else Fine "/chat/completions"
  | _ => Fine (if String.eqb payload_type "embedding" then "/embed"
               else if String.eqb payload_type "rerank" then "/rerank" else "/v1/chat/completions")
  end.

Section Environment.
(** [os.environ], and the [repr] of a float. *)
Context (environ : string -> option string) (float_repr : Q -> string).

Definition _api_key (role api_key_env : string) : PR string :=
  let name := strip api_key_env in
  if String.eqb name ""
  then Refused (ProviderMisconfigured ("endpoint " ++ role ++ ": openrouter needs api_key_env naming the environment variable that holds its API key"))
  else let key := strip (default "" (environ name)) in
       if String.eqb key "" then Refused (ProviderMisconfigured ("endpoint " ++ role ++ ": $" ++ name ++ " is unset or empty"))
       else Fine key.

Definition request_headers (e : Engine) (role api_key_env request_id : string) : PR (dict string string) :=
  match e with
  | OPENROUTER =>
      key ← _api_key role api_key_env;
      Fine [("X-Request-ID", request_id); ("Authorization", "Bearer " ++ key)]
  | _ => Fine [("X-Request-ID", request_id)]
  end.

(** ** What a probe says *)

Record CapacityReport := mkCapacity {
  cr_source : string;
  cr_slots : json;
  cr_context_per_slot : json;
  cr_input_usd_per_mtok : option Q;
  cr_output_usd_per_mtok : option Q
}.

Definition publishes_prices (c : CapacityReport) : bool :=
  bool_decide (is_Some (cr_input_usd_per_mtok c) \/ is_Some (cr_output_usd_per_mtok c)).

(** [a // b] on two truthy numbers. *)
Definition floor_div (a b : json) : res json :=
  match py_int a, py_int b with
  | Some x, Some y => Ret (JInt (x / y)%Z)
  | _, _ => match py_number a, py_number b with
            | Some x, Some y => let q := inject_Z (Qfloor (x / y)) in Ret (JFloat (float_repr q) q)
            | _, _ => Raise TypeError
            end
  end.

(** [x or None] *)
Definition or_none (j : json) : json := if truthy j then j else JNull.

Definition llamacpp_capacity (raw : dict string json) : res CapacityReport :=
  gen ← or_dict (jget raw "default_generation_settings");
  let n_parallel :=
    match jget gen "n_parallel" with
    | JNull => match jget raw "total_slots" with
               | JNull => match jget raw "slots" with JList l => JInt (Z.of_nat (length l)) | _ => JNull end
               | n => n
               end
    | n => n
    end in
  context ← (if truthy (jget gen "n_ctx") then Ret (jget gen "n_ctx")
             else if (truthy (jget raw "n_ctx") && truthy n_parallel)%bool then floor_div (jget raw "n_ctx") n_parallel
             else Ret JNull);
  Ret (mkCapacity "discovered" (or_none n_parallel) context None None).

(** [x if isinstance(x, int) and x > 0 else None] *)
Definition positive_int (j : json) : json :=
  match py_int j with Some n => if (0 <? n)%Z then j else JNull | None => JNull end.

Definition vllm_capacity (raw : dict string json) : CapacityReport :=
  mkCapacity "vLLM max_model_len" JNull (positive_int (jget raw "max_model_len")) None None.

(** A price per token, in dollars per million of them. *)
Definition price_of (pricing : dict string json) (key : string) : option Q :=
  match jget pricing key with
  | JNull | JBool _ => None
  | raw => match py_float raw with
           | Ret per_token => if Qltb per_token 0 then None else Some (per_token * 1000000)%Q
           | Raise _ => None
           end
  end.

Definition _parse_pricing (pricing : json) : option Q * option Q :=
  match pricing with
  | JDict d => (price_of d "prompt", price_of d "completion")
  | _ => (None, None)
  end.

Fixpoint find_model (model_id : string) (data : list json) : option CapacityReport :=
  match data with
  | [] => None
  | JDict entry :: rest =>
      if match jget entry "id" with JStr i => String.eqb i model_id | _ => false end then
        let '(i, o) := _parse_pricing (jget entry "pricing") in
        Some (mkCapacity "openrouter context_length + pricing" JNull (positive_int (jget entry "context_length")) i o)
      else find_model model_id rest
  | _ :: rest => find_model model_id rest
  end.

(** [parse_capacity({"models": models, "model_id": model_id})] *)
Definition openrouter_capacity (models : json) (model_id : string) : res (option CapacityReport) :=
  d ← or_dict models;
  Ret (match jget d "data" with
       | JList l => if String.eqb model_id "" then None else find_model model_id l
       | _ => None
       end).

(** A row of the catalogue. *)
Record ModelRow := mkModelRow { mr_id : string; mr_name : string; mr_context : json; mr_input : option Q; mr_output : option Q }.

Definition model_row (entry : json) : option ModelRow :=
  match entry with
  | JDict d =>
      if truthy (jget d "id") then
        let '(i, o) := _parse_pricing (jget d "pricing") in
        Some (mkModelRow (py_str (jget d "id")) (py_str (if truthy (jget d "name") then jget d "name" else jget d "id"))
                (jget d "context_length") i o)
      else None
  | _ => None
  end.

Definition parse_models (body : json) : res (list ModelRow) :=
  d ← or_dict body;
  Ret (match jget d "data" with
       | JList l => isort (fun a b => String.leb (mr_id a) (mr_id b)) (omap model_row l)
       | _ => []
       end).
End Environment.
