(* ===== verification/ProviderProps.v ===== *)
(** * What reaches an engine

    The short cut every provider takes for a payload that needs nothing is the
    long way round ([prepare_is_rebuild]); with it, what the engines are never
    sent, where a grammar ends up, who decides the thinking switch, how much of
    the allowance a reasoning cap may take, and the turns of a strict template. *)

From Stdlib Require Import QArith Qround Lia ZArith.
From stdpp Require Import base list strings.
From S2P Require Import Prelude PyDict PyText Config Json ThinkSwitch ThinkBleed Cost Queue JsonRead ToolStream Effort EffortProps Forced Payload Provider.

Local Open Scope string_scope.

(** ** Monad steps *)

Lemma res_ret_bind {A B} (a : A) (f : A -> res B) : (Ret a ≫= f) = f a.
Proof. done. Qed.

Lemma py_fine {A} (x : res A) a : py x = Fine a -> x = Ret a.
Proof. destruct x; simpl; congruence. Qed.

Lemma pr_bind_fine {A B} (m : PR A) (f : A -> PR B) b : (m ≫= f) = Fine b -> exists a, m = Fine a /\ f a = Fine b.
Proof. destruct m; simpl; [eauto|discriminate]. Qed.

(** ** Dictionaries *)

Lemma dmem_false {V} (d : dict string V) k : dmem d k = false -> dget d k = None.
Proof. unfold dmem. by destruct (dget d k). Qed.

Lemma jget_absent d k : dmem d k = false -> jget d k = JNull.
Proof. intros H%dmem_false. unfold jget. by rewrite H. Qed.

Lemma dmem_dset_ne {V} (d : dict string V) k v k' : k <> k' -> dmem (dset d k v) k' = dmem d k'.
Proof. intros N. unfold dmem. by rewrite dget_dset_ne. Qed.

Lemma ddel_absent_id {V} (d : dict string V) k : dmem d k = false -> ddel d k = d.
Proof. intros H. by apply ddel_None, dmem_false. Qed.

Lemma ddel_all_absent {V} (d : dict string V) ks : existsb (dmem d) ks = false -> ddel_all d ks = d.
Proof.
  unfold ddel_all. induction ks as [|k ks IH]; simpl; [done|].
  intros [H1 H2]%orb_false_iff. rewrite ddel_absent_id by done. by apply IH.
Qed.

Lemma dwf_update p d : dwf p -> dwf (dict_update p d).
Proof. unfold dict_update. revert p. induction d as [|kv d IH]; intros p W; simpl; [done|]. apply IH. by apply dwf_dset. Qed.

Lemma dwf_merge p : dwf p -> dwf (merge_extra p).
Proof. intros W. unfold merge_extra. destruct (jget p "extra_body"); try by apply dwf_ddel. by apply dwf_update, dwf_ddel. Qed.

(** ** The short cut *)

Lemma inline_system_absent p : dmem p "system" = false -> inline_system p = Ret p.
Proof. intros H. unfold inline_system. rewrite jget_absent, ddel_absent_id by done. done. Qed.

Lemma merge_extra_absent p : dmem p "extra_body" = false -> merge_extra p = p.
Proof. intros H. unfold merge_extra. by rewrite jget_absent, ddel_absent_id by done. Qed.

Lemma strip_nothing p : _needs_caller_field_strip p = false -> _strip_caller_only_fields p = p.
Proof.
  intros [H1 H2]%orb_false_iff. unfold _strip_caller_only_fields. by rewrite ddel_absent_id, H2 by done.
Qed.

Lemma limits_undeclared e a p : (0 <= reasoning_budget_tokens a)%Z -> declares_budget a = false -> reasoning_limits e a p = p.
Proof.
  intros H0 H. unfold declares_budget in H. rewrite !orb_false_iff in H. destruct H as [[H1 H2] [H3 H4]].
  apply Z.ltb_ge in H2. unfold reasoning_limits, _apply_thinking_token_budget.
  assert (Qle_bool (thinking_budget_ratio a) 0 = true) as -> by (unfold Qltb in H1; by destruct (Qle_bool (thinking_budget_ratio a) 0)).
  assert ((reasoning_budget_tokens a =? 0)%Z = true) as -> by (apply Z.eqb_eq; lia). cbn [andb].
  unfold _apply_thinking_sampling, Qltb. rewrite H3, H4. cbn [negb andb]. by destruct (reasoning_budget_field _).
Qed.

Lemma set_model_unneeded m p : needs_model_set m p = false -> set_model m p = p.
Proof.
  unfold needs_model_set, set_model. destruct (String.eqb m ""); [done|]. cbn [negb andb].
  intros H. apply negb_false_iff in H. unfold jget in H. destruct (dget p "model") as [v|] eqn:E; simpl in H; [|done].
  destruct v; try done. apply String.eqb_eq in H as ->. by apply dset_same.
Qed.

(** Breaks a guard into what it says. *)
Ltac guard_facts H := rewrite ?andb_true_iff, ?negb_true_iff in H; destruct_and? H.

Lemma llamacpp_rebuild_raises a p e : _needs_alternation_fix (jget p "messages") = Raise e -> llamacpp_rebuild a p = Raise e.
Proof.
  intros H. assert (E : each_of (jget p "messages") = Raise e).
  { unfold _needs_alternation_fix in H. destruct (each_of _); [done|]. by injection H as ->. }
  unfold llamacpp_rebuild, inline_system. destruct (truthy (jget p "system")).
  - by rewrite jget_ddel_ne, E.
  - rewrite res_ret_bind. assert (_has_anthropic_image_block (jget p "messages") = false) as ->.
    { destruct (jget p "messages") as [| | | | |l|]; try done. unfold each_of in E. by destruct l. }
    unfold translate_images. rewrite res_ret_bind. unfold fix_alternation. by rewrite jget_ddel_ne, H.
Qed.

Lemma llamacpp_prepare_rebuild a p : (0 <= reasoning_budget_tokens a)%Z -> llamacpp_prepare a p = llamacpp_rebuild a p.
Proof.
  intros H0. unfold llamacpp_prepare. destruct (_needs_alternation_fix (jget p "messages")) as [broken|e] eqn:EB.
  2: by rewrite (llamacpp_rebuild_raises a p e).
  rewrite res_ret_bind. destruct (_ && _)%bool eqn:G; [|done]. guard_facts G. subst broken.
  unfold llamacpp_rebuild. rewrite inline_system_absent, res_ret_bind by done.
  match goal with H : _has_anthropic_image_block _ = _ |- _ => rewrite H end. unfold translate_images. rewrite res_ret_bind.
  unfold fix_alternation. rewrite EB. cbn. by rewrite merge_extra_absent, strip_nothing, limits_undeclared by done.
Qed.

Lemma thinking_off_unneeded keys p :
  (negb (bool_decide (keys = [])) && negb (_has_thinking_kwarg p))%bool = false -> thinking_off keys p = p.
Proof.
  unfold thinking_off. destruct keys as [|k ks]; [done|].
  rewrite bool_decide_false by done. cbn [negb andb]. by intros ->%negb_false_iff.
Qed.

Lemma vllm_prepare_rebuild a p : (0 <= reasoning_budget_tokens a)%Z -> vllm_prepare a p = vllm_rebuild a p.
Proof.
  intros H0. unfold vllm_prepare. cbv zeta. destruct (_ && _)%bool eqn:G in |- *; [|done]. guard_facts G.
  unfold vllm_rebuild. rewrite set_model_unneeded, inline_system_absent, res_ret_bind by done.
  match goal with H : _has_anthropic_image_block _ = _ |- _ => rewrite H end. unfold translate_images. rewrite res_ret_bind.
  rewrite merge_extra_absent, strip_nothing by done. unfold move_grammar. rewrite jget_absent by done.
  by rewrite thinking_off_unneeded, limits_undeclared by done.
Qed.

(** The long way round, for each engine. *)
Definition rebuild (e : Engine) (a : PrepareArgs) (p : dict string json) : PR (dict string json) :=
  match e with
  | LLAMACPP => py (llamacpp_rebuild a p)
  | VLLM => py (vllm_rebuild a p)
  | OPENROUTER =>
      if _declares_grammar p
      then Refused (UnsupportedRequest "openrouter cannot enforce a GBNF grammar; refusing rather than dropping the constraint silently")
      else openrouter_rebuild a p
  end.

Lemma prepare_rebuild e a p : (0 <= reasoning_budget_tokens a)%Z -> prepare_chat_payload e a p = rebuild e a p.
Proof.
  intros H0. destruct e; simpl.
  - by rewrite llamacpp_prepare_rebuild.
  - by rewrite vllm_prepare_rebuild.
  - unfold openrouter_prepare. destruct (_declares_grammar p); [done|].
    destruct (_ && _)%bool eqn:G; [|done]. guard_facts G. unfold openrouter_rebuild.
    rewrite set_model_unneeded, inline_system_absent by done. cbn [py]. unfold mbind at 1, pr_bind.
    match goal with H : _has_anthropic_image_block _ = _ |- _ => rewrite H end. cbn [translate_images py]. unfold mbind, pr_bind.
    rewrite merge_extra_absent, ddel_all_absent by done. by rewrite jget_absent.
Qed.

(** C31 Every provider returns a payload as it came when its guard finds nothing to
    repair.  The guard forgets nothing: on every payload, and for every
    declaration of the endpoint, the answer is that of the repairs themselves,
    the refusals and the exceptions included. *)
Theorem prepare_is_rebuild e a p : (0 <= reasoning_budget_tokens a)%Z -> prepare_chat_payload e a p = rebuild e a p.
Proof. apply prepare_rebuild. Qed.

(** ** Footprints of the steps *)

(** What the steps before the merge may write. *)
Definition early_fields : list string := ["model"; "system"; "messages"].

(** The payload with its [extra_body] merged, as the steps after it see it. *)
Definition merged_as (p m : dict string json) : Prop :=
  dwf m /\ forall k, k ∉ early_fields -> dget m k = dget (merge_extra p) k.

Definition same_off (p q : dict string json) : Prop := dwf q /\ forall k, k ∉ early_fields -> dget q k = dget p k.

Lemma early_ne k : k ∉ early_fields -> k <> "model" /\ k <> "system" /\ k <> "messages".
Proof. unfold early_fields. rewrite !not_elem_of_cons. naive_solver. Qed.

Lemma same_off_refl p : dwf p -> same_off p p.
Proof. by split. Qed.

Lemma same_off_trans p q r : same_off p q -> same_off q r -> same_off p r.
Proof. intros [W1 H1] [W2 H2]. split; [done|]. intros k N. by rewrite H2, H1. Qed.

Lemma same_off_dset p k v : dwf p -> k ∈ early_fields -> same_off p (dset p k v).
Proof. intros W I. split; [by apply dwf_dset|]. intros k' N. apply dget_dset_ne. by intros ->. Qed.

Lemma set_model_off m p : dwf p -> same_off p (set_model m p).
Proof. intros W. unfold set_model. destruct (String.eqb _ _); [by apply same_off_refl|]. apply same_off_dset; [done|by left]. Qed.

Lemma inline_off p q : dwf p -> inline_system p = Ret q -> same_off p q.
Proof.
  intros W. unfold inline_system. assert (D : same_off p (ddel p "system")).
  { split; [by apply dwf_ddel|]. intros k (_ & N & _)%early_ne. apply dget_ddel_ne. congruence. }
  destruct (truthy _); [|by intros [= <-]]. destruct (each_of _); [|done]. intros [= <-].
  eapply same_off_trans; [exact D|]. apply same_off_dset; [apply D|by do 2 right; left].
Qed.

Lemma images_off b p q : dwf p -> translate_images b p = Ret q -> same_off p q.
Proof.
  intros W. unfold translate_images. destruct b; [|intros [= <-]; by apply same_off_refl].
  destruct (_translate_anthropic_image_blocks _); [|done]. intros [= <-]. apply same_off_dset; [done|by do 2 right; left].
Qed.

Lemma alternation_off p q : dwf p -> fix_alternation p = Ret q -> same_off p q.
Proof.
  intros W. unfold fix_alternation. destruct (_needs_alternation_fix _) as [[]|]; [|intros [= <-]; by apply same_off_refl|done].
  rewrite res_ret_bind. destruct (_normalize_strict_alternation _); [|done]. intros [= <-].
  apply same_off_dset; [done|by do 2 right; left].
Qed.

Lemma dget_update_ext p q d k : dget q k = dget p k -> dget (dict_update q d) k = dget (dict_update p d) k.
Proof.
  unfold dict_update. revert p q. induction d as [|[a v] d IH]; intros p q H; simpl; [done|].
  apply IH. rewrite !dget_dset. by case_decide.
Qed.

Lemma merge_off p q : dwf p -> same_off p q -> merged_as p (merge_extra q).
Proof.
  intros Wp [W H]. split; [by apply dwf_merge|]. intros k N. unfold merge_extra, jget.
  rewrite (H "extra_body") by by_decide.
  assert (E : dget (ddel q "extra_body") k = dget (ddel p "extra_body") k)
    by (rewrite !dget_ddel by done; case_decide; [done|by apply H]).
  destruct (from_option id JNull (dget p "extra_body")); try done. by apply dget_update_ext.
Qed.

(** What the local engines do to the merged payload. *)
Definition finish_payload (e : Engine) (a : PrepareArgs) (m : dict string json) : dict string json :=
  let m := _strip_caller_only_fields m in
  reasoning_limits e a (match e with VLLM => thinking_off (pa_thinking_kwargs a) (move_grammar m) | _ => m end).

Definition is_local (e : Engine) : bool := match e with OPENROUTER => false | _ => true end.

Lemma rebuild_local e a p p' : is_local e = true -> dwf p -> rebuild e a p = Fine p' ->
  exists m, merged_as p m /\ p' = finish_payload e a m.
Proof.
  intros L W. destruct e; simpl; try done; intros H%py_fine.
  - unfold llamacpp_rebuild in H. apply res_bind_Ret in H as (q1 & E1 & H). apply res_bind_Ret in H as (q2 & E2 & H).
    apply res_bind_Ret in H as (q3 & E3 & H). injection H as <-. exists (merge_extra q3). split; [|done].
    pose proof (inline_off _ _ W E1) as O1. pose proof (images_off _ _ _ (proj1 O1) E2) as O2.
    pose proof (alternation_off _ _ (proj1 O2) E3) as O3. apply merge_off; [done|]. eauto using same_off_trans.
  - unfold vllm_rebuild in H. apply res_bind_Ret in H as (q1 & E1 & H). apply res_bind_Ret in H as (q2 & E2 & H).
    injection H as <-. exists (merge_extra q2). split; [|done].
    pose proof (set_model_off (pa_model_id a) _ W) as O0. pose proof (inline_off _ _ (proj1 O0) E1) as O1.
    pose proof (images_off _ _ _ (proj1 O1) E2) as O2. apply merge_off; [done|]. eauto using same_off_trans.
Qed.

Lemma rebuild_remote a p p' : dwf p -> rebuild OPENROUTER a p = Fine p' ->
  exists m, merged_as p m /\ p' = ddel_all m _ENGINE_LOCAL_KEYS
  /\ _declares_grammar p = false /\ (forall eb, jget p "extra_body" = JDict eb -> _declares_grammar m = false).
Proof.
  intros W. simpl. destruct (_declares_grammar p) eqn:G; [done|]. unfold openrouter_rebuild.
  intros (q1 & E1%py_fine & H)%pr_bind_fine. apply pr_bind_fine in H as (q2 & E2%py_fine & H).
  pose proof (set_model_off (pa_model_id a) _ W) as O0. pose proof (inline_off _ _ (proj1 O0) E1) as O1.
  pose proof (images_off _ _ _ (proj1 O1) E2) as O2.
  assert (O : same_off p q2) by eauto using same_off_trans. pose proof (merge_off _ _ W O) as M.
  assert (X : jget q2 "extra_body" = jget p "extra_body")
    by (unfold jget; rewrite (proj2 O); [done|by_decide]).
  exists (merge_extra q2). rewrite X in H. split; [done|].
  destruct (jget p "extra_body") eqn:EX; try (injection H as <-; split; [done|]; split; [done|]; intros ? ?; discriminate).
  destruct (_declares_grammar (merge_extra q2)) eqn:G2; [done|]. injection H as <-.
  split; [done|]. split; [done|]. by intros ? _.
Qed.

(** *** Which fields the later steps write *)

Lemma limits_get e a p k : k ∉ ["thinking_token_budget"; "reasoning_budget_tokens"; "temperature"; "top_p"] ->
  dget (reasoning_limits e a p) k = dget p k.
Proof.
  rewrite !not_elem_of_cons. intros (N1 & N2 & N3 & N4 & _).
  assert (F : forall name f q, name <> k -> dget (fill_float name f q) k = dget q k)
    by (intros; unfold fill_float; case_match; [by apply dget_dset_ne|done]).
  assert (S : forall t u q, dget (_apply_thinking_sampling t u q) k = dget q k).
  { intros. unfold _apply_thinking_sampling. repeat case_match; try done. by rewrite !F by done. }
  unfold reasoning_limits. rewrite S. unfold _apply_thinking_token_budget.
  destruct e; simpl; try done; repeat case_match; try done; by apply dget_dset_ne.
Qed.

Lemma thinking_off_get keys p k : k <> "chat_template_kwargs" -> dget (thinking_off keys p) k = dget p k.
Proof. intros N. unfold thinking_off. repeat case_match; try done. by apply dget_dset_ne. Qed.

Lemma move_grammar_get p k : k <> "grammar" -> k <> "structured_outputs" -> dget (move_grammar p) k = dget p k.
Proof. intros N1 N2. unfold move_grammar. repeat case_match; try done; by rewrite dget_dset_ne, dget_ddel_ne. Qed.

Lemma strip_get p k : k <> "call_site" -> k <> "priority" -> dget (_strip_caller_only_fields p) k = dget p k.
Proof. intros N1 N2. unfold _strip_caller_only_fields. case_match; by rewrite ?dget_ddel_ne by done. Qed.

(** A field the later steps do not write reaches the engine as merged. *)
Lemma finish_get e a m k : k ∉ ["thinking_token_budget"; "reasoning_budget_tokens"; "temperature"; "top_p"] ->
  k ∉ ["chat_template_kwargs"; "grammar"; "structured_outputs"] ->
  dget (finish_payload e a m) k = dget (_strip_caller_only_fields m) k.
Proof.
  intros N1 N2. rewrite !not_elem_of_cons in N2. destruct N2 as (A & B & C & _).
  unfold finish_payload. rewrite limits_get by done. destruct e; try done.
  by rewrite thinking_off_get, move_grammar_get.
Qed.

Lemma merged_get p m k : merged_as p m -> k ∉ early_fields -> jget m k = jget (merge_extra p) k.
Proof. intros [_ H] N. unfold jget. by rewrite H. Qed.

(** The grammar of the structured outputs the caller already wrote. *)
Definition own_grammar (m : dict string json) : option json :=
  match jget m "structured_outputs" with JDict so => dget so "grammar" | _ => None end.

Lemma sent_local e a p p' : (0 <= reasoning_budget_tokens a)%Z -> dwf p -> prepare_chat_payload e a p = Fine p' ->
  is_local e = true -> exists m, merged_as p m /\ p' = finish_payload e a m.
Proof. intros H0 W H L. apply (rebuild_local e a p p' L W). by rewrite <- prepare_rebuild. Qed.

(** The proxy's own fields stay in the proxy.  Whatever the caller sent, and
    wherever it put it, a payload made for a local engine has no call site, and
    a priority only when it is the integer the engine itself understands. *)
Theorem no_proxy_field_sent e a p p' :
  (0 <= reasoning_budget_tokens a)%Z -> dwf p -> prepare_chat_payload e a p = Fine p' -> is_local e = true ->
  dget p' "call_site" = None /\ (forall v, dget p' "priority" = Some v -> exists n, v = JInt n).
Proof.
  intros H0 Wp H L. destruct (sent_local e a p p' H0 Wp H L) as (m & [W _] & ->).
  rewrite !finish_get by by_decide. unfold _strip_caller_only_fields.
  set (q := ddel m "call_site"). assert (Wq : dwf q) by by apply dwf_ddel.
  assert (C : dget q "call_site" = None) by (unfold q; rewrite dget_ddel by done; by case_decide).
  unfold misspelled_priority, dmem, jget. destruct (dget q "priority") as [v|] eqn:E; cbn [andb from_option id].
  - destruct v; cbn [_is_valid_backend_priority negb];
      try (rewrite !dget_ddel by done; split; [by case_decide|intros ?; by case_decide]).
    split; [done|]. rewrite E. intros v [= <-]. by eexists.
  - split; [done|]. rewrite E. done.
Qed.

(** C26 A grammar is never dropped silently.  One the caller sent, at the top level
    or in [extra_body], is where llama.cpp or vLLM enforces it, unless the
    caller wrote another one there itself; the engine that cannot enforce one is
    sent nothing at all. *)
Theorem grammar_enforced_or_refused e a p p' g :
  (0 <= reasoning_budget_tokens a)%Z -> dwf p -> prepare_chat_payload e a p = Fine p' ->
  jget (merge_extra p) "grammar" = JStr g -> strip g <> "" ->
  match e with
  | LLAMACPP => jget p' "grammar" = JStr g
  | VLLM => dget p' "grammar" = None
            /\ exists so, jget p' "structured_outputs" = JDict so
               /\ dget so "grammar" = Some (default (JStr g) (own_grammar (merge_extra p)))
  | OPENROUTER => False
  end.
Proof.
  intros H0 wf sent HG HS%String.eqb_neq.
  assert (N : forall k, k ∈ ["grammar"; "structured_outputs"; "extra_body"] -> k ∉ early_fields).
  { intros k. rewrite !elem_of_cons. unfold early_fields. rewrite !not_elem_of_cons, elem_of_nil. naive_solver. }
  destruct e.
  - destruct (sent_local _ a p p' H0 wf sent eq_refl) as (m & M & ->). unfold finish_payload, jget.
    rewrite limits_get, strip_get by (try done; by_decide).
    rewrite <- HG. apply merged_get; [done|apply N; by_decide].
  - destruct (sent_local _ a p p' H0 wf sent eq_refl) as (m & M & ->). unfold finish_payload. cbv zeta.
    set (q := _strip_caller_only_fields m).
    assert (Wq : dwf q) by (unfold q, _strip_caller_only_fields; destruct M; case_match; by repeat apply dwf_ddel).
    assert (Gq : jget q "grammar" = JStr g /\ jget q "structured_outputs" = jget (merge_extra p) "structured_outputs").
    { unfold q, jget. rewrite !strip_get by done. rewrite <- HG. split; apply merged_get; try done; apply N; by_decide. }
    destruct Gq as [G1 G2]. unfold jget at 1. rewrite !limits_get, !thinking_off_get by (try done; by_decide).
    unfold move_grammar. rewrite G1, HS, G2. unfold own_grammar. split.
    + rewrite dget_dset_ne by done. rewrite dget_ddel by done. by case_decide.
    + eexists. rewrite dget_dset_eq. split; [done|]. rewrite dget_setdefault, decide_True by done.
      by destruct (jget (merge_extra p) "structured_outputs").
  - rewrite prepare_rebuild in sent by done. destruct (rebuild_remote a p p' wf sent) as (m & M & _ & D1 & D2).
    destruct (jget p "extra_body") as [| | | | | |eb] eqn:EX.
    7: { specialize (D2 eb eq_refl). unfold _declares_grammar in D2.
         rewrite (merged_get p m "grammar" M), HG, HS in D2 by (apply N; by_decide). done. }
    all: unfold merge_extra, jget in HG; unfold jget in EX; rewrite EX, dget_ddel_ne in HG by done;
      unfold _declares_grammar in D1; unfold jget in D1; rewrite HG, HS in D1; done.
Qed.

(** ** The thinking switch *)

Lemma dget_sets {V} (v : V) keys (d : dict string V) k :
  dget (foldl (fun d key => dset d key v) d keys) k = if decide (k ∈ keys) then Some v else dget d k.
Proof.
  revert d. induction keys as [|x keys IH]; intros d; cbn [foldl].
  - by rewrite decide_False by apply not_elem_of_nil.
  - rewrite IH, dget_dset. destruct (decide (k ∈ keys)) as [I|I].
    + by rewrite decide_True by by right.
    + destruct (decide (x = k)) as [->|N]; [by rewrite decide_True by left|].
      rewrite decide_False; [done|]. by intros [->|?]%elem_of_cons.
Qed.

Lemma kwargs_of p q : dget q "chat_template_kwargs" = dget p "chat_template_kwargs" -> template_kwargs q = template_kwargs p.
Proof. intros E. apply template_kwargs_ext. unfold jget. by rewrite E. Qed.

Lemma has_kwarg_ext p q : dget q "chat_template_kwargs" = dget p "chat_template_kwargs" ->
  dget q "extra_body" = dget p "extra_body" -> _has_thinking_kwarg q = _has_thinking_kwarg p.
Proof.
  intros E1 E2. unfold _has_thinking_kwarg, containers, jget. rewrite E2. cbn [existsb]. rewrite (kwargs_of _ _ E1). done.
Qed.

(** On vLLM, who decides whether the model thinks.  A caller that set any known
    switch, whatever its spelling, value or place, has its template keywords
    sent as they are; for any other every key the endpoint declares is sent as
    off, beside the keywords the caller wrote. *)
Theorem thinking_is_opt_in a p p' :
  (0 <= reasoning_budget_tokens a)%Z -> dwf p -> prepare_chat_payload VLLM a p = Fine p' -> pa_thinking_kwargs a <> [] ->
  let m := merge_extra p in
  forall k, dget (template_kwargs p') k =
    if (negb (_has_thinking_kwarg m) && bool_decide (k ∈ pa_thinking_kwargs a))%bool then Some (JBool false)
    else dget (template_kwargs m) k.
Proof.
  intros H0 W sent HK m0 k. destruct (sent_local VLLM a p p' H0 W sent eq_refl) as (m & [Wm M] & ->).
  unfold finish_payload. cbv zeta. rewrite (kwargs_of (thinking_off (pa_thinking_kwargs a) (move_grammar (_strip_caller_only_fields m))))
    by (apply limits_get; by_decide).
  set (q := move_grammar (_strip_caller_only_fields m)).
  assert (E1 : dget q "chat_template_kwargs" = dget m0 "chat_template_kwargs")
    by (unfold q; rewrite move_grammar_get, strip_get by done; apply M; by_decide).
  assert (E2 : dget q "extra_body" = dget m0 "extra_body")
    by (unfold q; rewrite move_grammar_get, strip_get by done; apply M; by_decide).
  rewrite <- (has_kwarg_ext _ _ E1 E2), <- (kwargs_of _ _ E1). unfold thinking_off.
  destruct (pa_thinking_kwargs a) as [|k0 ks]; [done|]. destruct (_has_thinking_kwarg q); [done|].
  rewrite template_kwargs_dset, dget_sets. cbn [negb andb]. by destruct (decide (k ∈ k0 :: ks)); [rewrite bool_decide_true|rewrite bool_decide_false].
Qed.

(** ** The cap on reasoning *)

Lemma budget_leaves_room ratio absolute p b : (0 <= absolute)%Z -> turn_budget ratio absolute p = Some b ->
  (forall n, py_int (jget p "max_tokens") = Some n -> 0 < n -> b < n)%Z
  /\ (declares_tool_list p = true -> exists n, py_int (jget p "max_tokens") = Some n /\ b = n - 1024 /\ 2000 <= b)%Z
  /\ (declares_tool_list p = false -> absolute = 0 -> 2000 <= b <= 16000)%Z
  /\ (declares_tool_list p = false -> 0 < absolute -> b = absolute)%Z.
Proof.
  intros H0. unfold turn_budget, _TOOL_TURN_ANSWER_RESERVE, _THINKING_BUDGET_FLOOR, _THINKING_BUDGET_MIN_MAX_TOKENS, _THINKING_BUDGET_CEILING.
  destruct (declares_tool_list p).
  - destruct (py_int _) as [mt|]; [|done]. destruct (Z.leb_spec mt 0); [done|]. destruct (Z.ltb_spec (mt - 1024) 2000); [done|].
    intros [= <-]. split; [intros n [= ->]; lia|]. split; [|done]. intros _. exists mt. split; [done|]. lia.
  - destruct (Z.ltb_spec 0 absolute).
    + destruct (py_int _) as [mt|]; [|intros [= <-]; split; [done|]; split; [done|]; split; intros; lia].
      destruct (Z.ltb_spec 0 mt), (Z.leb_spec mt absolute); cbn [andb]; try done; intros [= <-];
        (split; [intros n [= ->]; lia|]); (split; [done|]); split; intros; lia.
    + destruct (py_int _) as [mt|]; [|done]. destruct (Z.ltb_spec mt 3000); [done|]. cbv zeta.
      destruct (Z.leb_spec mt (Z.max 2000 (Z.min (Qtrunc (inject_Z mt * ratio)) 16000))); [done|]. intros [= <-].
      split; [intros n [= ->]; lia|]. split; [done|]. split; lia.
Qed.

Lemma token_budget_get ratio f absolute p : dget p f = None ->
  dget (_apply_thinking_token_budget ratio (Some f) absolute p) f = None
  \/ exists b, dget (_apply_thinking_token_budget ratio (Some f) absolute p) f = Some (JInt b)
     /\ switched_on p = true /\ turn_budget ratio absolute p = Some b.
Proof.
  intros N. unfold _apply_thinking_token_budget. case_match; [by left|].
  unfold dmem. rewrite N. destruct (switched_on p); cbn [negb]; [|by left].
  destruct (turn_budget _ _ _) as [b|] eqn:E; [|by left]. right. exists b. by rewrite dget_dset_eq.
Qed.

Lemma sampling_get t u p k : k <> "temperature" -> k <> "top_p" -> dget (_apply_thinking_sampling t u p) k = dget p k.
Proof.
  intros N1 N2. assert (F : forall name f q, name <> k -> dget (fill_float name f q) k = dget q k)
    by (intros; unfold fill_float; case_match; [by apply dget_dset_ne|done]).
  unfold _apply_thinking_sampling. repeat case_match; try done. by rewrite !F by done.
Qed.

(** A cap the proxy puts on reasoning always leaves room for an answer.  Where
    the caller set no cap of its own, the one sent is below the token allowance
    it is sent with; on a turn that offers tools it is that allowance less the
    reserve, and at least the floor; otherwise it is the number the operator
    declared, or a share held between floor and ceiling. *)
Theorem reasoning_cap_leaves_room e a p p' f v :
  (0 <= reasoning_budget_tokens a)%Z -> dwf p -> prepare_chat_payload e a p = Fine p' ->
  reasoning_budget_field (descriptor e) = Some f -> dget (merge_extra p) f = None -> dget p' f = Some v ->
  exists b, v = JInt b /\ switched_on p' = true
  /\ (forall n, py_int (jget p' "max_tokens") = Some n -> 0 < n -> b < n)%Z
  /\ (if declares_tool_list p'
      then exists n, py_int (jget p' "max_tokens") = Some n /\ b = n - 1024 /\ 2000 <= b
      else (reasoning_budget_tokens a = 0 /\ 2000 <= b <= 16000) \/ (0 < reasoning_budget_tokens a /\ b = reasoning_budget_tokens a))%Z.
Proof.
  intros H0 W sent HF HN HV. assert (L : is_local e = true) by by destruct e.
  destruct (sent_local e a p p' H0 W sent L) as (m & [Wm M] & ->). unfold finish_payload in *. cbv zeta in *.
  set (q := match e with VLLM => _ | _ => _ end) in *.
  assert (Fne : f <> "temperature" /\ f <> "top_p" /\ f <> "max_tokens" /\ f <> "tools" /\ f <> "chat_template_kwargs"
                /\ f <> "call_site" /\ f <> "priority" /\ f <> "grammar" /\ f <> "structured_outputs" /\ f ∉ early_fields)
    by (destruct e; simpl in HF; simplify_eq; by_decide).
  destruct Fne as (F1 & F2 & F3 & F4 & F5 & F6 & F7 & F8 & F9 & F10).
  assert (Hq : dget q f = None).
  { unfold q. destruct e; rewrite ?thinking_off_get, ?move_grammar_get, strip_get by done; by rewrite (M f F10). }
  unfold reasoning_limits in *. rewrite HF in HV |- *. rewrite sampling_get in HV by done.
  destruct (token_budget_get (thinking_budget_ratio a) f (reasoning_budget_tokens a) q Hq) as [E|(b & E & S & T)];
    rewrite E in HV; [done|]. injection HV as <-. exists b. split; [done|].
  set (q' := _apply_thinking_sampling _ _ _).
  assert (K : forall k, k ∈ ["max_tokens"; "tools"; "chat_template_kwargs"] -> jget q' k = jget q k).
  { intros k Hk. assert (k <> "temperature" /\ k <> "top_p" /\ f <> k) as (? & ? & ?).
    { rewrite !elem_of_cons, elem_of_nil in Hk. naive_solver. }
    unfold jget, q'. rewrite sampling_get by done. unfold _apply_thinking_token_budget. repeat case_match; try done.
    by rewrite dget_dset_ne. }
  unfold switched_on, declares_tool_list. rewrite !K by by_decide.
  destruct (budget_leaves_room _ _ _ _ H0 T) as (R1 & R2 & R3 & R4). split; [done|]. split; [done|].
  unfold declares_tool_list in R2, R3, R4. destruct (jget q "tools") as [| | | | |[|? ?]|]; try (by apply R2).
  all: destruct (Z.eq_dec (reasoning_budget_tokens a) 0%Z); [left; split; [done|by apply R3]|right; split; [lia|apply R4; [done|lia]]].
Qed.

(** ** Turns of a strict template *)

(** A message with a role and a text. *)
Definition is_turn (r t : string) (msg : json) : Prop :=
  exists m, msg = JDict m /\ jget m "role" = JStr r /\ jget m "content" = JStr t.

(** The messages are turns with these roles and texts. *)
Definition turns : list (string * string) -> list json -> Prop := Forall2 (fun rt msg => is_turn rt.1 rt.2 msg).

(** One turn of [(role, text)]s, the last one first, after one more. *)
Definition join_turn (out : list (string * string)) (rt : string * string) : list (string * string) :=
  match out with
  | (r, t) :: rest => if (String.eqb r rt.1 && negb (String.eqb r "tool"))%bool then (r, joined t rt.2) :: rest else rt :: out
  | [] => [rt]
  end.

Lemma coalesce_turn out outm rt msg : turns out outm -> is_turn rt.1 rt.2 msg ->
  exists outm', coalesce outm msg = Ret outm' /\ turns (join_turn out rt) outm'.
Proof.
  intros T (m & -> & HR & HC). unfold coalesce, role_of. rewrite HR.
  assert (K : is_turn rt.1 rt.2 (JDict m)) by (by exists m).
  destruct T as [|[r t] prev out outm (p & -> & PR & PC) T]; [exists [JDict m]; split; [done|by repeat constructor]|].
  cbn [join_turn fst snd] in *. change (py_eq (JStr rt.1) (JStr "tool")) with (String.eqb rt.1 "tool").
  rewrite PR, PC. cbn [content_of]. rewrite HC. change (py_eq (JStr r) (JStr rt.1)) with (String.eqb r rt.1).
  assert (TT : turns ((r, t) :: out) (JDict p :: outm)) by (constructor; [by exists p|done]).
  destruct (String.eqb_spec r rt.1) as [->|N]; cbn [andb].
  - destruct (String.eqb rt.1 "tool"); cbn [negb]; eexists; (split; [done|]); [by constructor|].
    constructor; [|done]. cbn [fst snd]. eexists. split; [done|]. rewrite jget_dset_ne, jget_dset_eq by done. done.
  - destruct (String.eqb rt.1 "tool"); eexists; (split; [done|]); by constructor.
Qed.

Lemma coalesce_turns l lm out outm : turns l lm -> turns out outm ->
  exists outm', coalesce_all outm lm = Ret outm' /\ turns (foldl join_turn out l) outm'.
Proof.
  intros T. revert out outm. induction T as [|rt msg l lm H T IH]; intros out outm O; [by exists outm|].
  cbn [coalesce_all foldl]. destruct (coalesce_turn out outm rt msg O H) as (o & -> & O'). rewrite res_ret_bind. by apply IH.
Qed.

(** Neighbours differ in role, but for tool results. *)
Fixpoint alternating (l : list string) : Prop :=
  match l with
  | r :: ((r' :: _) as rest) => (r <> r' \/ r = "tool") /\ alternating rest
  | _ => True
  end.

Definition roles (l : list (string * string)) : list string := map fst l.

Lemma join_alternating out rt : alternating (roles out) -> alternating (roles (join_turn out rt)).
Proof.
  destruct out as [|[r t] out]; [done|]. cbn [join_turn]. intros A.
  destruct (String.eqb_spec r rt.1) as [E|N]; cbn [andb].
  - destruct (String.eqb_spec r "tool") as [T|T]; cbn [negb]; [|done].
    cbn [roles map fst alternating] in *. split; [right; congruence|done].
  - cbn [roles map fst alternating] in *. split; [left; congruence|done].
Qed.

Lemma joins_alternating l out : alternating (roles out) -> alternating (roles (foldl join_turn out l)).
Proof. revert out. induction l as [|rt l IH]; intros out A; [done|]. cbn [foldl]. by apply IH, join_alternating. Qed.

Lemma alternating_app_inv l1 l2 : alternating (l1 ++ l2) -> alternating l1 /\ alternating l2.
Proof.
  induction l1 as [|x l1 IH]; [done|]. destruct l1 as [|y l1]; simpl in *.
  - destruct l2; simpl; naive_solver.
  - intros [H A]. destruct (IH A). naive_solver.
Qed.

Lemma alternating_snoc l x y : alternating (l ++ [x]) -> (x <> y \/ x = "tool") -> alternating (l ++ [x; y]).
Proof.
  induction l as [|z l IH]; [by repeat split|]. destruct l as [|w l]; simpl in *; naive_solver.
Qed.

Lemma alternating_rev l : alternating l -> alternating (rev l).
Proof.
  induction l as [|x l IH]; [done|]. destruct l as [|y l]; [done|]. intros [H A].
  specialize (IH A). cbn [rev] in *. rewrite <- app_assoc. apply alternating_snoc; [done|].
  destruct H; [left; congruence|]. destruct (decide (x = y)); [subst; by right|left; congruence].
Qed.

Lemma turn_role r t msg role : is_turn r t msg -> has_role role msg = String.eqb r role.
Proof. intros (m & -> & HR & _). simpl. by rewrite HR. Qed.

Lemma turns_adjacent l lm role prev : turns l lm -> role <> "tool" -> alternating (roles l) ->
  (match l with (r, _) :: _ => r = role -> prev = false | [] => True end) -> adjacent_roles role prev lm = false.
Proof.
  intros T N. revert prev. induction T as [|[r t] msg l lm H T IH]; intros prev A P; [done|]. cbn [adjacent_roles].
  rewrite (turn_role r t _ role H). apply orb_false_iff. split.
  - destruct (String.eqb_spec r role) as [E|]; [|done]. cbn [andb]. by apply P.
  - destruct l as [|[r' t'] l]; [by apply IH|]. cbn [roles map alternating fst] in A. destruct A as [A1 A2].
    apply IH; [done|]. intros ->. apply String.eqb_neq. destruct A1; congruence.
Qed.

(** The turns a strict template is given: runs of one role joined, and the
    assistant turns no user turn comes before dropped. *)
Fixpoint drop_orphans (l : list (string * string)) : list (string * string) :=
  match l with
  | rt :: rest => if String.eqb rt.1 "assistant" then drop_orphans rest else l
  | [] => []
  end.

Definition strict_turns (l : list (string * string)) : list (string * string) :=
  match rev (foldl join_turn [] l) with
  | [] => []
  | rt :: rest => if String.eqb rt.1 "system" then rt :: drop_orphans rest else drop_orphans (rt :: rest)
  end.

Lemma turns_rev l lm : turns l lm -> turns (rev l) (rev lm).
Proof. intros T. induction T; [constructor|]. apply Forall2_app; [done|by repeat constructor]. Qed.

Lemma turns_drop l lm : turns l lm -> turns (drop_orphans l) (drop_assistants lm).
Proof.
  intros T. induction T as [|[r t] msg l lm H T IH]; [constructor|]. cbn [drop_orphans drop_assistants fst].
  rewrite (turn_role r t _ "assistant" H). destruct (String.eqb r "assistant"); [done|by constructor].
Qed.

Lemma drop_suffix l : exists pre, l = (pre ++ drop_orphans l)%list.
Proof.
  induction l as [|[r t] l [pre IH]]; [by exists []|]. cbn [drop_orphans fst]. destruct (String.eqb r "assistant"); [|by exists []].
  exists ((r, t) :: pre). cbn. by f_equal.
Qed.

Lemma joins_first tl out pre x : "system" ∉ roles tl -> roles out = (pre ++ [x])%list -> "system" ∉ pre ->
  exists pre', roles (foldl join_turn out tl) = (pre' ++ [x])%list /\ "system" ∉ pre'.
Proof.
  revert out pre. induction tl as [|rt tl IH]; intros out pre N E P; [by exists pre|].
  cbn [roles map] in N. apply not_elem_of_cons in N as [N1 N2]. cbn [foldl].
  destruct out as [|[r t] out]; [by destruct pre|]. cbn [join_turn]. destruct (_ && _)%bool.
  - by apply (IH _ pre).
  - apply (IH _ (rt.1 :: pre)); [done| |by apply not_elem_of_cons]. cbn [roles map app] in *. by rewrite <- E.
Qed.

Lemma no_system_leads l lm : turns l lm -> "system" ∉ roles l -> leads_with_assistant (drop_assistants lm) = false.
Proof.
  intros T. induction T as [|[r t] msg l lm H T IH]; [done|]. cbn [roles map fst]. intros [N1 N2]%not_elem_of_cons.
  cbn [drop_assistants]. rewrite (turn_role r t _ "assistant" H). destruct (String.eqb r "assistant") eqn:A; [by apply IH|].
  pose proof (turn_role r t _ "system" H) as S1. pose proof (turn_role r t _ "assistant" H) as S2.
  destruct H as (m & -> & _). cbn [leads_with_assistant]. rewrite S1, S2, A.
  by rewrite (proj2 (String.eqb_neq r "system")).
Qed.

Lemma roles_drop_incl l x : x ∈ roles (drop_orphans l) -> x ∈ roles l.
Proof. destruct (drop_suffix l) as [pre E]. intros H. rewrite E. unfold roles in *. rewrite map_app. apply elem_of_app. by right. Qed.

Lemma alternating_drop l : alternating (roles l) -> alternating (roles (drop_orphans l)).
Proof. destruct (drop_suffix l) as [pre E]. intros H. rewrite E in H. unfold roles in H. rewrite map_app in H. by apply alternating_app_inv in H as [_ H]. Qed.

Lemma no_repeat_broken l lm : turns l lm -> alternating (roles l) -> leads_with_assistant lm = false -> alternation_broken lm = false.
Proof.
  intros T A L. unfold alternation_broken. rewrite L.
  rewrite !(turns_adjacent l lm) by (done || by destruct l as [|[? ?] ?]). done.
Qed.

(** A conversation of plain text turns, with no system turn after the first
    message, is always brought into a shape a strict template accepts; the
    turns are the caller's, runs of one role joined and only the assistant turns
    that answer nobody dropped. *)
Theorem strict_template_accepts l lm :
  turns l lm -> "system" ∉ roles (tail l) ->
  exists lm', _normalize_strict_alternation (JList lm) = Ret lm' /\ turns (strict_turns l) lm'
              /\ alternation_broken lm' = false.
Proof.
  intros T N. unfold _normalize_strict_alternation.
  assert (each_of (JList lm) = Ret lm) as -> by (unfold each_of; by destruct lm). rewrite res_ret_bind.
  destruct (coalesce_turns l lm [] [] T ltac:(constructor)) as (outm & -> & O). rewrite res_ret_bind.
  pose proof (joins_alternating l [] I) as A. unfold strict_turns.
  assert (S : "system" ∉ tail (roles (rev (foldl join_turn [] l)))).
  { destruct l as [|[r t] l]; [by apply not_elem_of_nil|].
    destruct (joins_first l [(r, t)] [] r N eq_refl ltac:(apply not_elem_of_nil)) as (pre & E & P).
    unfold roles. rewrite map_rev. change (map fst ?x) with (roles x). cbn [foldl join_turn]. rewrite E, rev_app_distr. cbn [rev app tail].
    intros I%list_elem_of_In%in_rev%list_elem_of_In. done. }
  apply turns_rev in O. apply alternating_rev in A. unfold roles in A. rewrite <- map_rev in A. change (map fst ?x) with (roles x) in A.
  destruct O as [|[r t] msg out outm' H O]; [eexists; split; [done|]; split; [constructor|done]|].
  cbn [roles map fst tail] in S, A. cbn [fst]. change (map fst out) with (roles out) in *.
  rewrite (turn_role r t _ "system" H). eexists. split; [done|].
  assert (AD : alternating (roles (drop_orphans out))) by (apply alternating_drop; destruct out as [|[? ?] ?]; [done|apply A]).
  destruct (String.eqb_spec r "system") as [->|NS].
  - assert (TT : turns (("system", t) :: drop_orphans out) (msg :: drop_assistants outm')) by (constructor; [done|by apply turns_drop]).
    split; [done|]. apply (no_repeat_broken _ _ TT).
    + cbn [roles map fst]. change (map fst ?x) with (roles x). destruct (roles (drop_orphans out)) as [|r' rs] eqn:E; [done|].
      split; [|done]. left. intros <-. apply S, roles_drop_incl. rewrite E. by left.
    + destruct H as (m & -> & HR & HC). cbn [leads_with_assistant has_role]. rewrite HR. by apply (no_system_leads out).
  - pose proof (turns_drop ((r, t) :: out) (msg :: outm') ltac:(by constructor)) as TT. split; [exact TT|].
    apply (no_repeat_broken _ _ TT); [by apply alternating_drop|].
    apply (no_system_leads ((r, t) :: out)); [by constructor|]. apply not_elem_of_cons. by split; [|].
Qed.

(** ** Runs *)

Definition off_float : PyFloat := mkFloat "-1.0" (-1).

Definition demo_args : PrepareArgs := mkPrepare "served" (6 # 10) ["enable_thinking"] 0 off_float off_float.

(** A caller of the OpenAI door: a grammar and a fleet priority in [extra_body]. *)
Definition demo_sent : dict string json :=
  [("messages", JList [JDict [("role", JStr "user"); ("content", JStr "hi")]]); ("max_tokens", JInt 8000);
   ("extra_body", JDict [("grammar", JStr "root ::= [0-9]+"); ("priority", JStr "P2_POST_TURN"); ("call_site", JStr "chat");
                         ("chat_template_kwargs", JDict [("thinking", JBool true)])])].

Definition demo_wire (e : Engine) : dict string json :=
  match prepare_chat_payload e demo_args demo_sent with Fine p => p | Refused _ => [] end.

Lemma demo_sent_wf : dwf demo_sent.
Proof. by_decide. Qed.

Lemma prepare_is_rebuild_witness : prepare_chat_payload VLLM demo_args demo_sent = rebuild VLLM demo_args demo_sent.
Proof. apply (prepare_is_rebuild VLLM demo_args demo_sent). simpl. lia. Defined.

Lemma no_proxy_field_sent_witness : dget (demo_wire VLLM) "call_site" = None.
Proof.
  apply (no_proxy_field_sent VLLM demo_args demo_sent (demo_wire VLLM)); [simpl; lia|apply demo_sent_wf|vm_compute; reflexivity|reflexivity].
Defined.

Lemma grammar_enforced_or_refused_witness : jget (demo_wire LLAMACPP) "grammar" = JStr "root ::= [0-9]+".
Proof.
  apply (grammar_enforced_or_refused LLAMACPP demo_args demo_sent (demo_wire LLAMACPP) "root ::= [0-9]+");
    [simpl; lia|apply demo_sent_wf|vm_compute; reflexivity|reflexivity|vm_compute; discriminate].
Defined.

Definition plain_sent : dict string json := ddel demo_sent "extra_body".

Definition plain_wire : dict string json :=
  match prepare_chat_payload VLLM demo_args plain_sent with Fine p => p | Refused _ => [] end.

Lemma thinking_is_opt_in_witness : dget (template_kwargs plain_wire) "enable_thinking" = Some (JBool false).
Proof.
  rewrite (thinking_is_opt_in demo_args plain_sent plain_wire); [vm_compute; reflexivity|simpl; lia|by_decide|vm_compute; reflexivity|discriminate].
Defined.

Lemma reasoning_cap_leaves_room_witness : exists b, dget (demo_wire VLLM) "thinking_token_budget" = Some (JInt b) /\ (b < 8000)%Z.
Proof.
  destruct (reasoning_cap_leaves_room VLLM demo_args demo_sent (demo_wire VLLM) "thinking_token_budget" (JInt 4800))
    as (b & E & _ & H & _); [simpl; lia|apply demo_sent_wf|vm_compute; reflexivity|reflexivity|vm_compute; reflexivity|vm_compute; reflexivity|].
  exists b. rewrite <- E. split; [vm_compute; reflexivity|]. apply (H 8000%Z); [vm_compute; reflexivity|lia].
Defined.

Definition turn (r t : string) : json := JDict [("role", JStr r); ("content", JStr t)].

Definition loose_turns : list (string * string) :=
  [("system", "s"); ("assistant", "a0"); ("user", "u1"); ("user", "u2"); ("tool", "t1"); ("tool", "t2"); ("assistant", "a1")].

Lemma turn_is_turn rt : is_turn rt.1 rt.2 (turn rt.1 rt.2).
Proof. by eexists. Qed.

Lemma strict_template_accepts_witness :
  exists lm', _normalize_strict_alternation (JList (map (fun rt => turn rt.1 rt.2) loose_turns)) = Ret lm' /\ alternation_broken lm' = false.
Proof.
  destruct (strict_template_accepts loose_turns (map (fun rt => turn rt.1 rt.2) loose_turns)) as (lm' & E & _ & H).
  - repeat constructor; apply turn_is_turn.
  - by_decide.
  - exists lm'. split; [exact E|exact H].
Defined.

(** A system turn behind a leading assistant turn comes to stand beside the
    first one when the assistant turn is dropped. *)
Example interior_system_stays_broken :
  match _normalize_strict_alternation (JList [turn "system" "a"; turn "assistant" "b"; turn "system" "c"; turn "user" "d"]) with
  | Ret lm' => lm' = [turn "system" "a"; turn "system" "c"; turn "user" "d"] /\ alternation_broken lm' = true
  | Raise _ => False
  end.
Proof. vm_compute. done. Qed.

(** The served model is written before [extra_body] is merged. *)
Example extra_body_overrides_model :
  match prepare_chat_payload VLLM demo_args [("messages", JList []); ("extra_body", JDict [("model", JStr "mine")])] with
  | Fine p => jget p "model" = JStr "mine"
  | Refused _ => False
  end.
Proof. vm_compute. done. Qed.
