(* ===== verification/Catalog.v ===== *)
(** * The model catalog (model_catalog.py)

    From the parsed catalogue file to what the rest of the proxy is built of: the
    endpoints and their providers, the names that resolve to them, the intent
    profiles, the arguments of each endpoint's configuration, and the per-class
    tables.  The file is what the YAML reader makes of it, its stanzas keyed by
    texts; where a field is a name it is a text, or absent.  [ConfigNotice]
    records are kept without their prose. *)

From Stdlib Require Import Ascii QArith Lqa Lia ZArith.
From stdpp Require Import base list strings gmap.
From S2P Require Import Prelude PyDict PyText Config Json ThinkSwitch Intent Forced Payload Provider.

Local Open Scope string_scope.

(** ** Entries *)

Record ProviderEntry := mkProviderEntry {
  pe_name : string;
  pe_engine : string;
  pe_host : string;
  pe_port : Z;
  pe_base_url : string;
  pe_api_key_env : string
}.

Record EndpointEntry := mkEntry {
  ee_name : string;
  ee_provider : string;
  ee_kind : string;
  ee_status : string;
  ee_role : string;
  ee_aliases : list string;
  ee_model : string;
  ee_context_per_slot : Z;
  ee_slots : Z;
  ee_timeout_floor_s : Q;
  ee_timeout_ceiling_s : Q;
  ee_stream_hard_cap_s : Q;
  ee_decode_tok_s : Q;
  ee_failover_to : string;
  ee_spill_to : string;
  ee_capabilities : dict string json;
  ee_policy : dict string json
}.

Definition add_new (l : list string) (n : string) : list string := if (String.eqb n "" || mem n l)%bool then l else (l ++ [n])%list.

Definition all_names (e : EndpointEntry) : list string := foldl add_new [] (ee_name e :: ee_role e :: ee_aliases e).

Definition is_routed (e : EndpointEntry) : bool := mem (ee_status e) ["active"; "on_demand"].

Record Catalog := mkCatalog {
  providers : dict string ProviderEntry;
  endpoints : dict string EndpointEntry;
  hosts : dict string json;
  by_name : dict string string;
  intents : dict string Profile
}.

(** [hooks.config_notice] *)
Record ConfigNotice := mkConfigNotice { nt_subject : string; nt_problem : string; nt_keys : list string; nt_in_force : option string }.

(** *** Resolution *)

Definition canonical (c : Catalog) (name : string) : option string := dget (by_name c) (strip name).

Definition entry (c : Catalog) (name : string) : option EndpointEntry :=
  match canonical c name with
  | Some k => if String.eqb k "" then None else dget (endpoints c) k
  | None => None
  end.

Definition provider (c : Catalog) (name : string) : option ProviderEntry := dget (providers c) (strip name).

Definition provider_for_endpoint (c : Catalog) (name : string) : option ProviderEntry :=
  match entry c name with Some e => provider c (ee_provider e) | None => None end.

Definition host_at (c : Catalog) (host : string) : json := default (JStr host) (dget (hosts c) host).

Definition host_ip (c : Catalog) (name : string) : option json :=
  match provider_for_endpoint c name with
  | Some p => if String.eqb (pe_host p) "" then None else Some (host_at c (pe_host p))
  | None => None
  end.

Definition all_entries (c : Catalog) : list EndpointEntry := dvals (endpoints c).

Definition by_kind (c : Catalog) (kinds : list string) : list EndpointEntry :=
  List.filter (fun e => mem (ee_kind e) kinds) (all_entries c).

Definition routed_entries (c : Catalog) : list EndpointEntry := List.filter is_routed (all_entries c).

(** ** Reading a stanza *)

(** [raw.get(k, default)] of a text. *)
Definition text_or (d : dict string json) (k default : string) : string :=
  match dget d k with Some (JStr s) => s | Some _ => "" | None => default end.

(** [raw.get(k) or {}] and [{**x}], of a mapping. *)
Definition mapping (e : PyErr) (j : json) : res (dict string json) :=
  if truthy j then match j with JDict d => Ret d | _ => Raise e end else Ret [].

Definition int_of_field (d : dict string json) (k : string) : res Z :=
  match int_or_zero (jget d k) with
  | Some n => Ret n
  | None => Raise (match jget d k with JStr _ => ValueError | _ => TypeError end)
  end.

Definition float_field (d : dict string json) (k : string) : res Q :=
  if truthy (jget d k) then py_float (jget d k) else Ret 0%Q.

(** [_tuple] *)
Definition stripped (l : list json) : list string :=
  List.filter (fun s => negb (String.eqb s "")) (map (fun v => strip (py_str v)) l).

Definition _tuple (d : dict string json) (k : string) : res (list string) :=
  let v := jget d k in
  if negb (truthy v) then Ret []
  else match v with
       | JStr _ => Ret (stripped [v])
       | JList l => Ret (stripped l)
       | JDict m => Ret (stripped (map JStr (dkeys m)))
       | _ => Raise TypeError
       end.

Definition rstrip_slash (s : string) : string := srev (lstrip_char "/" (srev s)).

Definition _coerce_provider (name : string) (raw : dict string json) : res ProviderEntry :=
  port ← int_of_field raw "port";
  Ret (mkProviderEntry name (text_or raw "engine" "") (text_or raw "host" "") port
    (rstrip_slash (let v := jget raw "base_url" in if truthy v then py_str v else "")) (text_or raw "api_key_env" "")).

Definition status_of (raw : dict string json) : string :=
  or_else (text_or raw "status" "") (if truthy (jget raw "retired") then "retired" else "active").

Definition _coerce_endpoint (name : string) (raw : dict string json) : res EndpointEntry :=
  aliases ← _tuple raw "aliases";
  context ← int_of_field raw "context_per_slot";
  slots ← int_of_field raw "slots";
  floor ← float_field raw "timeout_floor_s";
  ceiling ← float_field raw "timeout_ceiling_s";
  cap ← float_field raw "stream_hard_cap_s";
  rate ← float_field raw "decode_tok_s";
  caps ← mapping TypeError (jget raw "capabilities");
  pol ← mapping TypeError (jget raw "policy");
  Ret (mkEntry name (text_or raw "provider" "") (text_or raw "kind" "chat") (status_of raw) (or_else (text_or raw "role" "") name)
    aliases (text_or raw "model" "") context slots floor ceiling cap rate (text_or raw "failover_to" "") (text_or raw "spill_to" "") caps pol).

(** ** Intent profiles *)

Definition _PROFILE_FIELDS : list string := ["kind"; "requires"; "prefer"; "summary"].

(** [str(raw.get(k) or default).strip()] *)
Definition word_or (raw : dict string json) (k default : string) : string :=
  let v := jget raw k in strip (if truthy v then py_str v else default).

Definition not_in (known names : list string) : list string := sorted_strs (List.filter (fun n => negb (mem n known)) names).

Definition some_notice (ks : list string) (n : ConfigNotice) : list ConfigNotice := match ks with [] => [] | _ => [n] end.

(** [_coerce_profile]: a stanza that cannot be used is refused, with its notice. *)
Definition _coerce_profile (name : string) (raw : dict string json) : res (option Profile * list ConfigNotice) :=
  let subject := "intents." ++ name in
  let unknown := not_in _PROFILE_FIELDS (dkeys raw) in
  let ns := some_notice unknown (mkConfigNotice subject "unknown_key" unknown None) in
  let unusable ks := Ret (None, ns ++ [mkConfigNotice subject "unusable" ks None])%list in
  let kind := word_or raw "kind" "chat" in
  if negb (mem kind KNOWN_KINDS) then unusable []
  else
    let prefer := word_or raw "prefer" DEFAULT_PREFERENCE in
    if negb (mem prefer PREFERENCES) then unusable []
    else
      requires ← _tuple raw "requires";
      match not_in KNOWN_CAPABILITIES requires with
      | [] => Ret (Some (mkProfile name kind (remove_dups requires) prefer), ns)
      | bad => unusable bad
      end.

(** One stanza over the table; a refused one withdraws the name. *)
Definition layer_intent (acc : dict string Profile * list ConfigNotice) (kv : string * json) : res (dict string Profile * list ConfigNotice) :=
  let key := strip kv.1 in
  if String.eqb key "" then Ret acc
  else
    body ← mapping TypeError kv.2;
    x ← _coerce_profile key body;
    Ret (match x.1 with Some p => dset acc.1 key p | None => ddel acc.1 key end, (acc.2 ++ x.2)%list).

Fixpoint res_fold {A B} (f : A -> B -> res A) (acc : A) (l : list B) : res A :=
  match l with
  | [] => Ret acc
  | x :: l => acc ← f acc x; res_fold f acc l
  end.

Definition _build_intents (raw : dict string json) : res (dict string Profile * list ConfigNotice) :=
  stanzas ← mapping AttributeError (jget raw "intents");
  res_fold layer_intent (BUILTIN_PROFILES, []) stanzas.

(** ** The overlay of the management plane *)

(** A stanza of the overlay over the section: [None] removes, a mapping is merged
    over what the file says. *)
Definition merge_stanza (base : dict string json) (kv : string * json) : res (dict string json) :=
  match kv.2 with
  | JNull => Ret (ddel base kv.1)
  | JDict s => old ← mapping TypeError (jget base kv.1); Ret (dset base kv.1 (JDict (dict_update old s)))
  | _ => Ret base
  end.

Definition merge_section (overlay merged : dict string json) (section : string) : res (dict string json) :=
  stanzas ← mapping AttributeError (jget overlay section);
  match stanzas with
  | [] => Ret merged
  | _ =>
      base ← mapping TypeError (jget merged section);
      base ← res_fold merge_stanza base stanzas;
      Ret (dset merged section (JDict base))
  end.

Definition merge_catalog_overlay (raw overlay : dict string json) : res (dict string json) :=
  match overlay with
  | [] => Ret raw
  | _ => res_fold (merge_section overlay) raw ["providers"; "endpoints"]
  end.

(** ** The names of the fleet *)

(** An alias goes to the first endpoint that claims it. *)
Definition claim_alias (e : EndpointEntry) (acc : dict string (list string) * dict string string) (alias : string)
  : dict string (list string) * dict string string :=
  (dset acc.1 alias (default [] (dget acc.1 alias) ++ [ee_name e])%list,
   if dmem acc.2 alias then acc.2 else dset acc.2 alias (ee_name e)).

Definition claim_aliases (acc : dict string (list string) * dict string string) (e : EndpointEntry) :=
  foldl (claim_alias e) acc (ee_aliases e).

(** Claims, and the table: classes over roles over aliases. *)
Definition name_table (es : list EndpointEntry) : dict string (list string) * dict string string :=
  let '(claims, t) := foldl claim_aliases ([], []) es in
  let t := foldl (fun t e => dset t (ee_role e) (ee_name e)) t es in
  (claims, foldl (fun t e => dset t (ee_name e) (ee_name e)) t es).

Definition contested (claims : dict string (list string)) (alias : string) : bool :=
  (1 <? Z.of_nat (length (default [] (dget claims alias))))%Z.

Definition duplicate_notices (claims : dict string (list string)) (t : dict string string) : list ConfigNotice :=
  omap (fun kv => if contested claims kv.1
                  then Some (mkConfigNotice ("endpoints.aliases." ++ kv.1) "duplicate" kv.2 (dget t kv.1)) else None) claims.

Definition shadowed_notices (es : list EndpointEntry) (claims : dict string (list string)) (t : dict string string) : list ConfigNotice :=
  concat (map (fun e => omap (fun alias =>
    match dget t alias with
    | Some winner => if (negb (String.eqb winner (ee_name e)) && negb (contested claims alias))%bool
                     then Some (mkConfigNotice ("endpoints." ++ ee_name e ++ ".aliases") "shadowed" [alias] (Some winner)) else None
    | None => None
    end) (ee_aliases e)) es).

(** One section, coerced. *)
Definition coerced {A} (f : string -> dict string json -> res A) (j : json) : res (dict string A) :=
  stanzas ← mapping AttributeError j;
  res_fold (fun acc kv => body ← mapping AttributeError kv.2; x ← f kv.1 body; Ret (dset acc kv.1 x)) [] stanzas.

(** The catalogue a file makes. *)
Definition parse (raw : dict string json) : res (Catalog * list ConfigNotice) :=
  ps ← coerced _coerce_provider (jget raw "providers");
  es ← coerced _coerce_endpoint (jget raw "endpoints");
  let '(claims, t) := name_table (dvals es) in
  hs ← mapping TypeError (jget raw "hosts");
  x ← _build_intents raw;
  Ret (mkCatalog ps es hs t x.1, (duplicate_notices claims t ++ shadowed_notices (dvals es) claims t ++ x.2)%list).

(** ** The catalogue in force *)

(** The fragment of the management plane, the cache by path, and the notices. *)
Record Store := mkStore { cs_overlay : dict string json; cs_cache : dict string Catalog; cs_notices : list ConfigNotice }.

Section Load.
(** The file behind a path, read as YAML. *)
Context (file : string -> option json).

Definition load_fresh (path : string) (overlay : dict string json) : option (res (Catalog * list ConfigNotice)) :=
  match file path with
  | None => None
  | Some j => Some (raw ← mapping AttributeError j; raw ← merge_catalog_overlay raw overlay; parse raw)
  end.

(** [load_catalog]; [None] where there is no such file.  A candidate ([overlay]
    given) is neither stored nor served. *)
Definition load_catalog (path : string) (force : bool) (overlay : option (dict string json)) : SE Store (option Catalog) :=
  s ← se_get;
  match (if (bool_decide (overlay = None) && negb force)%bool then dget (cs_cache s) path else None) with
  | Some c => mret (Some c)
  | None =>
      match load_fresh path (default (cs_overlay s) overlay) with
      | None => mret None
      | Some x =>
          y ← se_lift x;
          _ ← se_modify (fun s => mkStore (cs_overlay s) (if bool_decide (overlay = None) then dset (cs_cache s) path y.1 else cs_cache s)
                                    (cs_notices s ++ y.2)%list);
          mret (Some y.1)
      end
  end.

Definition set_runtime_overlay (fragment : dict string json) (s : Store) : Store := mkStore fragment [] (cs_notices s).
End Load.

(** ** The arguments of an endpoint's configuration *)

Definition _POLICY_PASSTHROUGH : list string :=
  ["background_floor_pct"; "fast_path_reserve_slots"; "dispatch_concurrency_cap"; "slot_affinity"; "skip_discovery";
    "min_expected_slots"; "documented_max_num_seqs"; "disable_any_whitespace"; "forced_reasoning_budget";
    "input_usd_per_mtok"; "output_usd_per_mtok"; "thinking_budget_ratio"; "thinking_temperature"; "thinking_top_p";
    "reasoning_budget_tokens"; "reasoning_effort"; "thinking_reasoning_budget"; "thinking_effort";
    "reasoning_effort_map"; "reasoning_loop_window_chars"; "reasoning_loop_min_chars";
    "reasoning_loop_max_distinct_ratio"; "reasoning_loop_check_every_chars"; "structured_blank_run_abort_chars";
    "readiness_critical"; "failover_dwell_s"; "goodput_min_running"; "goodput_sustain_evaluations";
    "goodput_max_iteration_rate"; "goodput_max_generation_tps"; "goodput_max_prefill_tps";
    "goodput_recovery_evaluations"; "goodput_max_hold_s"; "goodput_busy_probe_url"; "goodput_busy_probe_metric";
    "goodput_busy_min"; "replay_reasoning_history"; "repair_close_only_reasoning"; "answer_now_reasoning_budget";
    "prefix_keepalive_trigger_tokens"; "prefix_keepalive_idle_s"; "prefix_keepalive_max_prefixes"; "residency_tenant"].

Definition _POLICY_HANDLED : list string := ["model_fingerprint"; "thinking_kwargs"; "prefix_keepalive_call_sites"].

#[export] Instance Engine_eq_dec : EqDecision Engine.
Proof. solve_decision. Defined.

Definition put_if (b : bool) (k : string) (v : json) (kw : dict string json) : dict string json := if b then dset kw k v else kw.

Definition put_text (k s : string) (kw : dict string json) : dict string json := put_if (negb (String.eqb s "")) k (JStr s) kw.

(** The texts among the entries of a list, blanks left out. *)
Definition texts_of (l : list json) : list json :=
  List.filter (fun v => match v with JStr s => negb (String.eqb (strip s) "") | _ => false end) l.

(** A policy key that is a list of texts or one text. *)
Definition put_texts (k : string) (v : json) (kw : dict string json) : dict string json :=
  match v with
  | JList l => dset kw k (JList (texts_of l))
  | JStr s => put_if (negb (String.eqb (strip s) "")) k (JList [JStr (strip s)]) kw
  | _ => kw
  end.

Definition declared_capabilities (e : EndpointEntry) : list string := map fst (List.filter (fun kv => truthy kv.2) (ee_capabilities e)).

Definition connection (c : Catalog) (p : ProviderEntry) (kw : dict string json) : dict string json :=
  let kw := if String.eqb (pe_base_url p) "" then dset (dset kw "host" (host_at c (pe_host p))) "port" (JInt (pe_port p))
            else dset kw "base_url" (JStr (pe_base_url p)) in
  put_text "api_key_env" (pe_api_key_env p) kw.

(** What the endpoint's engine and capabilities say. *)
Definition nature (e : EndpointEntry) (p : ProviderEntry) (kw : dict string json) : dict string json :=
  let engine := provider_for_engine (pe_engine p) in
  let d := descriptor engine in
  let kw := put_if (negb (bool_decide (engine = DEFAULT_PROVIDER))) "backend_engine" (JStr (pe_engine p)) kw in
  let kw := put_if (negb (String.eqb (ee_model e) "") && negb (publishes_served_model_id d))%bool "served_model_id" (JStr (ee_model e)) kw in
  let kw := put_if (String.eqb (ee_status e) "on_demand") "on_demand" (JBool true) kw in
  let kw := dset (dset kw "kind" (JStr (ee_kind e))) "capabilities" (JList (map JStr (declared_capabilities e))) in
  let kw := put_if (truthy (jget (ee_capabilities e) "reasoning") && negb (reasoning_is_switchable d))%bool "forces_reasoning" (JBool true) kw in
  put_if (truthy (jget (ee_capabilities e) "vision")) "vision" (JBool true) kw.

Definition pass_policy (pol kw : dict string json) : dict string json :=
  foldl (fun kw k => match dget pol k with Some v => dset kw k v | None => kw end) kw _POLICY_PASSTHROUGH.

Definition handled_policy (pol kw : dict string json) : dict string json :=
  let kw := match jget pol "model_fingerprint" with JStr s => put_text "model_fingerprint" (strip s) kw | _ => kw end in
  let kw := put_texts "thinking_kwargs" (jget pol "thinking_kwargs") kw in
  let kw := put_if (match jget pol "thinking_kwargs" with JList [] => true | _ => false end) "no_thinking_switch" (JBool true) kw in
  put_texts "prefix_keepalive_call_sites" (jget pol "prefix_keepalive_call_sites") kw.

Definition no_provider : ProviderEntry := mkProviderEntry "" "" "" 0 "" "".

Definition endpoint_kwargs (c : Catalog) (e : EndpointEntry) : dict string json :=
  let p := default no_provider (provider c (ee_provider e)) in
  let kw : dict string json := [("endpoint_class", JStr (ee_name e)); ("role", JStr (ee_role e)); ("max_slots", JInt (ee_slots e));
             ("context_per_slot", JInt (ee_context_per_slot e))] in
  handled_policy (ee_policy e) (pass_policy (ee_policy e) (nature e p (connection c p kw))).

Definition policy_notice (e : EndpointEntry) : list ConfigNotice :=
  let unknown := not_in (_POLICY_PASSTHROUGH ++ _POLICY_HANDLED) (dkeys (ee_policy e)) in
  some_notice unknown (mkConfigNotice ("endpoints." ++ ee_name e ++ ".policy") "unknown_key" unknown None).

(** A target is armed only where it is configured itself. *)
Definition arm (k : string) (target : EndpointEntry -> string) (out : dict string (dict string json)) (e : EndpointEntry)
  : dict string (dict string json) :=
  match dget out (ee_name e) with
  | Some kw => if (negb (String.eqb (target e) "") && negb (String.eqb (target e) (ee_name e)) && dmem out (target e))%bool
               then dset out (ee_name e) (dset kw k (JStr (target e))) else out
  | None => out
  end.

Definition build_endpoint_kwargs (c : Catalog) (chosen : option (list EndpointEntry)) : dict string (dict string json) * list ConfigNotice :=
  let es := default (routed_entries c) chosen in
  let out := foldl (fun out e => dset out (ee_name e) (endpoint_kwargs c e)) [] es in
  let out := foldl (arm "failover_to" ee_failover_to) out (routed_entries c) in
  (foldl (arm "spill_to" ee_spill_to) out (routed_entries c), concat (map policy_notice es)).

(** ** The tables by class *)

(** [ROLE_TO_CLASS], what [Config.normalize_endpoint] reads. *)
Definition build_role_to_class (c : Catalog) : dict string string :=
  let t := foldl (fun t e => foldl (fun t a => dset t a (ee_name e)) t (ee_aliases e)) [] (all_entries c) in
  foldl (fun t e => dset (dset t (ee_role e) (ee_name e)) (ee_name e) (ee_name e)) t (all_entries c).

Definition build_class_to_role (c : Catalog) : dict string string :=
  foldl (fun t e => dset t (ee_name e) (ee_role e)) [] (all_entries c).

Definition _class_map (c : Catalog) (attr : EndpointEntry -> Q) : dict string Q :=
  foldl (fun t e => if Qltb 0 (attr e) then dset t (ee_name e) (attr e) else t) [] (routed_entries c).

Definition build_class_floors (c : Catalog) : dict string Q := _class_map c ee_timeout_floor_s.
Definition build_class_decode_rates (c : Catalog) : dict string Q := _class_map c ee_decode_tok_s.
Definition build_class_ceilings (c : Catalog) : dict string Q := _class_map c ee_timeout_ceiling_s.
Definition build_class_stream_hard_caps (c : Catalog) : dict string Q := _class_map c ee_stream_hard_cap_s.

(** ** Names *)

(** The last endpoint that satisfies [f]. *)
Definition last_with (f : EndpointEntry -> bool) (es : list EndpointEntry) : option EndpointEntry := List.find f (rev es).

Lemma last_with_snoc f es e : last_with f (es ++ [e]) = if f e then Some e else last_with f es.
Proof. unfold last_with. by rewrite rev_app_distr. Qed.

Lemma last_with_ext f g es : (forall e, e ∈ es -> f e = g e) -> last_with f es = last_with g es.
Proof.
  induction es as [|e es IH] using rev_ind; intros H; [done|]. rewrite !last_with_snoc, H by set_solver.
  destruct (g e); [done|]. apply IH. set_solver.
Qed.

Lemma last_with_true f es e : last_with f es = Some e -> e ∈ es /\ f e = true.
Proof. intros H. apply List.find_some in H as [H ?]. split; [|done]. by apply list_elem_of_In, in_rev. Qed.

Lemma last_with_none f es : last_with f es = None <-> forall e, e ∈ es -> f e = false.
Proof.
  split.
  - intros H e He. eapply List.find_none; [exact H|]. rewrite <- in_rev. by apply list_elem_of_In.
  - intros H. destruct (last_with f es) as [e|] eqn:E; [|done]. apply last_with_true in E as [E1 E2]. by rewrite (H e E1) in E2.
Qed.

(** Who has a name, where the later write wins. *)
Lemma later_wins (k v : EndpointEntry -> string) es t x :
  dget (foldl (fun t e => dset t (k e) (v e)) t es) x
  = match last_with (fun e => String.eqb (k e) x) es with Some e => Some (v e) | None => dget t x end.
Proof.
  induction es as [|e es IH] using rev_ind; [done|]. rewrite foldl_app, last_with_snoc. cbn [foldl]. rewrite dget_dset, IH.
  destruct (String.eqb_spec (k e) x), (decide (k e = x)); congruence.
Qed.

Definition has_alias (x : string) (e : EndpointEntry) : bool := mem x (ee_aliases e).

(** The claims on an alias, in the order of the file. *)
Definition claims_of (x : string) (es : list EndpointEntry) : list string :=
  concat (map (fun e => map (fun _ => ee_name e) (List.filter (String.eqb x) (ee_aliases e))) es).

Lemma claim_once e acc a x :
  dget (claim_alias e acc a).2 x = match dget acc.2 x with Some v => Some v | None => if String.eqb x a then Some (ee_name e) else None end
  /\ default [] (dget (claim_alias e acc a).1 x) = (default [] (dget acc.1 x) ++ if String.eqb x a then [ee_name e] else [])%list.
Proof.
  unfold claim_alias. cbn [fst snd]. rewrite dget_dset. split.
  - unfold dmem. destruct (String.eqb_spec x a) as [->|N].
    + destruct (dget acc.2 a) eqn:E; [by rewrite E|]. by rewrite dget_dset_eq.
    + destruct (dget acc.2 a); [by destruct (dget acc.2 x)|]. rewrite dget_dset_ne by done. by destruct (dget acc.2 x).
  - destruct (String.eqb_spec x a) as [->|N]; [by rewrite decide_True|]. by rewrite decide_False, app_nil_r by done.
Qed.

Lemma claims_folded e acc x :
  dget (claim_aliases acc e).2 x = match dget acc.2 x with Some v => Some v | None => if has_alias x e then Some (ee_name e) else None end
  /\ default [] (dget (claim_aliases acc e).1 x)
     = (default [] (dget acc.1 x) ++ map (fun _ => ee_name e) (List.filter (String.eqb x) (ee_aliases e)))%list.
Proof.
  unfold claim_aliases, has_alias. revert acc. induction (ee_aliases e) as [|a l IH]; intros acc; cbn [foldl].
  - split; [by destruct (dget acc.2 x)|by rewrite app_nil_r].
  - destruct (IH (claim_alias e acc a)) as [H1 H2]. destruct (claim_once e acc a x) as [C1 C2]. rewrite H1, H2, C1, C2. unfold mem.
    cbn [List.filter]. split.
    + destruct (dget acc.2 x); [done|]. destruct (String.eqb_spec x a) as [->|N].
      * by rewrite bool_decide_eq_true_2 by set_solver.
      * rewrite (bool_decide_ext (x ∈ l) (x ∈ a :: l)) by set_solver. done.
    + rewrite <- app_assoc. by destruct (String.eqb x a).
Qed.

Lemma all_claims es acc x :
  dget (foldl claim_aliases acc es).2 x
    = match dget acc.2 x with Some v => Some v | None => ee_name <$> List.find (has_alias x) es end
  /\ default [] (dget (foldl claim_aliases acc es).1 x) = (default [] (dget acc.1 x) ++ claims_of x es)%list.
Proof.
  revert acc. induction es as [|e es IH]; intros acc; cbn [foldl].
  - split; [by destruct (dget acc.2 x)|by rewrite app_nil_r].
  - destruct (IH (claim_aliases acc e)) as [H1 H2]. destruct (claims_folded e acc x) as [C1 C2]. rewrite H1, H2, C1, C2. split.
    + cbn [List.find]. destruct (dget acc.2 x); [done|]. by destruct (has_alias x e).
    + unfold claims_of. cbn [map concat]. by rewrite <- app_assoc.
Qed.

Definition has_name (x : string) (e : EndpointEntry) : bool := String.eqb (ee_name e) x.
Definition plays (x : string) (e : EndpointEntry) : bool := String.eqb (ee_role e) x.

(** Whom a name is meant to reach: the class of that name, or else the last of
    that role, or else the first with that alias. *)
Definition owner (es : list EndpointEntry) (x : string) : option string :=
  match last_with (has_name x) es with
  | Some _ => Some x
  | None => match last_with (plays x) es with Some e => Some (ee_name e) | None => ee_name <$> List.find (has_alias x) es end
  end.

Lemma name_table_owner es x : dget (name_table es).2 x = owner es x.
Proof.
  unfold name_table, owner. destruct (foldl claim_aliases ([], []) es) as [claims t] eqn:E. cbn [snd]. rewrite !later_wins.
  change (fun e => String.eqb (ee_name e) x) with (has_name x). change (fun e => String.eqb (ee_role e) x) with (plays x).
  destruct (last_with (has_name x) es) as [e|] eqn:L; [apply last_with_true in L as [_ L%String.eqb_eq]; by rewrite L|].
  destruct (last_with (plays x) es); [done|]. destruct (all_claims es ([], []) x) as [H _]. by rewrite E in H.
Qed.

Lemma name_table_claims es x : default [] (dget (name_table es).1 x) = claims_of x es.
Proof.
  unfold name_table. pose proof (proj2 (all_claims es ([], []) x)) as H. destruct (foldl claim_aliases ([], []) es) as [claims t]. exact H.
Qed.

Lemma claims_nil x es : claims_of x es = [] <-> forall e, e ∈ es -> has_alias x e = false.
Proof.
  unfold claims_of, has_alias, mem. induction es as [|e es IH]; [set_solver|]. cbn [map concat]. split.
  - intros [H1 H2]%app_eq_nil. intros e' [->|He]%elem_of_cons; [|by apply IH].
    apply bool_decide_eq_false. intros I. apply map_eq_nil in H1. apply list_elem_of_In in I.
    assert (F : In x (List.filter (String.eqb x) (ee_aliases e))) by (apply filter_In; split; [done|apply String.eqb_refl]). by rewrite H1 in F.
  - intros H. assert (E : List.filter (String.eqb x) (ee_aliases e) = []).
    { specialize (H e ltac:(set_solver)). apply bool_decide_eq_false in H. destruct (List.filter _ _) as [|a l] eqn:F; [done|]. exfalso. apply H.
      assert (I : In a (List.filter (String.eqb x) (ee_aliases e))) by (rewrite F; by left). apply filter_In in I as [I ->%String.eqb_eq].
      by apply list_elem_of_In. }
    rewrite E. cbn. apply IH. set_solver.
Qed.

Lemma find_app {A} (f : A -> bool) l l' : List.find f (l ++ l') = match List.find f l with Some x => Some x | None => List.find f l' end.
Proof. induction l as [|x l IH]; [done|]. cbn. by destruct (f x). Qed.

(** Claimed once, an alias has one holder, whichever end one looks from. *)
Lemma one_claim x es : (length (claims_of x es) <= 1)%nat -> List.find (has_alias x) es = last_with (has_alias x) es.
Proof.
  induction es as [|e es IH]; [done|]. unfold claims_of. cbn [map concat List.find]. rewrite length_app, length_map. intros L.
  destruct (has_alias x e) eqn:A.
  - assert (N : claims_of x es = []).
    { apply nil_length_inv. unfold claims_of. destruct (List.filter (String.eqb x) (ee_aliases e)) as [|y ys] eqn:F; [|cbn in L; lia].
      exfalso. unfold has_alias, mem in A. apply bool_decide_eq_true, list_elem_of_In in A.
      assert (I : In x (List.filter (String.eqb x) (ee_aliases e))) by (apply filter_In; split; [done|apply String.eqb_refl]). by rewrite F in I. }
    symmetry. unfold last_with. cbn [rev]. assert (H : last_with (has_alias x) es = None) by by apply last_with_none, claims_nil.
    unfold last_with in H. rewrite find_app, H. cbn. by rewrite A.
  - rewrite IH by (unfold claims_of; lia). unfold last_with. cbn [rev]. rewrite find_app. destruct (List.find _ (rev es)); [done|]. cbn. by rewrite A.
Qed.

(** *** The parsed catalogue *)

Lemma res_fold_inv {A B} (f : A -> B -> res A) (I : A -> Prop) acc l acc' :
  I acc -> (forall a x a', x ∈ l -> I a -> f a x = Ret a' -> I a') -> res_fold f acc l = Ret acc' -> I acc'.
Proof.
  revert acc. induction l as [|x l IH]; intros acc H F; cbn [res_fold]; [by intros [= <-]|].
  destruct (f acc x) as [a|] eqn:E; [|done]. cbn. apply IH; [exact (F acc x a (list_elem_of_here _ _) H E)|].
  intros b y b' Hy. apply F. by apply list_elem_of_further.
Qed.

Lemma mapping_Ret e j d : mapping e j = Ret d -> j = JDict d \/ d = [].
Proof. unfold mapping. destruct (truthy j); [|by intros [= <-]; right]. destruct j; try done. intros [= <-]. by left. Qed.

(** Every entry is kept under its own name. *)
Definition by_own_name (es : dict string EndpointEntry) : Prop := dwf es /\ forall n e, dget es n = Some e -> ee_name e = n.

Lemma coerced_keyed j es : coerced _coerce_endpoint j = Ret es -> by_own_name es.
Proof.
  unfold coerced. destruct (mapping AttributeError j) as [st|]; [|done]. apply res_fold_inv; [split; [constructor|done]|].
  intros acc [n b] acc' _ [W K]. cbn. destruct (mapping AttributeError b) as [body|]; [|done]. cbn.
  destruct (_coerce_endpoint n body) as [e|] eqn:E; [|done]. intros [= <-]. split; [by apply dwf_dset|].
  intros m e'. rewrite dget_dset. case_decide as D; [intros [= <-]; subst|apply K]. unfold _coerce_endpoint in E.
  repeat match type of E with (mbind _ ?x) = _ => destruct x; [cbn in E|done] end. by injection E as <-.
Qed.

Lemma parse_parts raw c ns : parse raw = Ret (c, ns) ->
  by_own_name (endpoints c) /\ by_name c = (name_table (all_entries c)).2
  /\ (forall n, n ∈ duplicate_notices (name_table (all_entries c)).1 (by_name c) -> n ∈ ns).
Proof.
  unfold parse. destruct (coerced _coerce_provider _) as [ps|]; [|done]. cbn. destruct (coerced _coerce_endpoint _) as [es|] eqn:E; [|done]. cbn.
  apply coerced_keyed in E. destruct (name_table (dvals es)) as [claims t] eqn:T. destruct (mapping TypeError _) as [hs|]; [|done]. cbn.
  destruct (_build_intents raw) as [x|]; [|done]. cbn. intros [= <- <-]. unfold all_entries. cbn [endpoints by_name]. rewrite T. cbn [fst snd].
  split; [done|]. split; [done|]. intros n H. apply elem_of_app. by left.
Qed.

(** A name reaches the class that has it, or else the last endpoint of that role,
    or else the first that claims it as an alias; no alias and no role shadows a
    class. *)
Theorem names_resolve raw c ns : parse raw = Ret (c, ns) ->
  (forall x, canonical c x = owner (all_entries c) (strip x)) /\ (forall n e, dget (endpoints c) n = Some e -> strip n = n -> n <> "" -> entry c n = Some e).
Proof.
  intros P. destruct (parse_parts raw c ns P) as ([W K] & B & _).
  assert (C : forall x, canonical c x = owner (all_entries c) (strip x)) by (intros x; unfold canonical; by rewrite B, name_table_owner).
  split; [exact C|]. intros n e E S N. unfold entry. rewrite C, S. unfold owner.
  destruct (last_with (has_name n) (all_entries c)) as [e'|] eqn:L.
  - destruct (String.eqb_spec n ""); [done|exact E].
  - exfalso. rewrite last_with_none in L. specialize (L e). unfold has_name in L. rewrite (K n e E), String.eqb_refl in L.
    discriminate L. apply list_elem_of_In. change e with ((n, e).2). apply in_map, list_elem_of_In, dget_elem, E.
Qed.

(** What [build_role_to_class] makes of a name. *)
Lemma role_table es t x :
  dget (foldl (fun t e => dset (dset t (ee_role e) (ee_name e)) (ee_name e) (ee_name e)) t es) x
  = match last_with (fun e => has_name x e || plays x e)%bool es with Some e => Some (ee_name e) | None => dget t x end.
Proof.
  induction es as [|e es IH] using rev_ind; [done|]. rewrite foldl_app, last_with_snoc. cbn [foldl]. rewrite !dget_dset, IH. unfold has_name, plays.
  destruct (String.eqb_spec (ee_name e) x), (String.eqb_spec (ee_role e) x), (decide (ee_name e = x)), (decide (ee_role e = x)); cbn; congruence.
Qed.

Lemma aliases_set (n : string) l (t : dict string string) x : dget (foldl (fun t a => dset t a n) t l) x = if mem x l then Some n else dget t x.
Proof.
  unfold mem. induction l as [|a l IH] using rev_ind; [done|]. rewrite foldl_app. cbn [foldl]. rewrite dget_dset, IH.
  destruct (decide (a = x)) as [->|N]; [by rewrite (bool_decide_eq_true_2 (x ∈ (l ++ [x])%list)) by set_solver|].
  rewrite (bool_decide_ext (x ∈ l) (x ∈ (l ++ [a])%list)) by set_solver. done.
Qed.

Lemma alias_table es t x :
  dget (foldl (fun t e => foldl (fun t a => dset t a (ee_name e)) t (ee_aliases e)) t es) x
  = match last_with (has_alias x) es with Some e => Some (ee_name e) | None => dget t x end.
Proof.
  induction es as [|e es IH] using rev_ind; [done|]. rewrite foldl_app, last_with_snoc. cbn [foldl]. rewrite aliases_set, IH. unfold has_alias.
  by destruct (mem x (ee_aliases e)).
Qed.

(** The table the scheduler reads is, on each name, the table the catalogue reads. *)
Lemma tables_agree raw c ns :
  parse raw = Ret (c, ns) ->
  Forall (fun n => nt_problem n <> "duplicate") ns ->
  (forall e e', e ∈ all_entries c -> e' ∈ all_entries c -> ee_role e = ee_name e' -> e = e') ->
  forall x, dget (build_role_to_class c) x = dget (by_name c) x.
Proof.
  intros P D R x. destruct (parse_parts raw c ns P) as (_ & B & DN).
  rewrite B, name_table_owner. unfold build_role_to_class. rewrite role_table, alias_table. cbn [dget]. unfold owner.
  destruct (last_with (has_name x) (all_entries c)) as [e0|] eqn:L0.
  - apply last_with_true in L0 as [I0 N0%String.eqb_eq]. destruct (last_with (fun e => _ || _)%bool (all_entries c)) as [e|] eqn:L.
    + apply last_with_true in L as [I [N%String.eqb_eq|N%String.eqb_eq]%orb_true_iff]; [by rewrite N|].
      rewrite (R e e0 I I0) by congruence. by rewrite N0.
    + rewrite last_with_none in L. specialize (L e0 I0). unfold has_name in L. by rewrite N0, String.eqb_refl in L.
  - rewrite (last_with_ext _ (plays x)) by (intros e I; rewrite last_with_none in L0; by rewrite (L0 e I)).
    destruct (last_with (plays x) (all_entries c)) as [e|]; [done|]. rewrite one_claim; [by destruct (last_with (has_alias x) (all_entries c))|].
    destruct (le_lt_dec (length (claims_of x (all_entries c))) 1) as [|G]; [done|]. exfalso. rewrite Forall_forall in D.
    pose proof (name_table_claims (all_entries c) x) as C. destruct (dget (name_table (all_entries c)).1 x) as [l|] eqn:DG; [|by rewrite <- C in G; cbn in G; lia].
    cbn in C. subst l. refine (D (mkConfigNotice ("endpoints.aliases." ++ x) "duplicate" (claims_of x (all_entries c)) (dget (by_name c) x)) (DN _ _) eq_refl). unfold duplicate_notices. apply list_elem_of_omap. exists (x, claims_of x (all_entries c)).
    split; [by apply dget_elem|]. cbn [fst snd]. unfold contested. rewrite DG. cbn. destruct (Z.ltb_spec 1 (Z.of_nat (length (claims_of x (all_entries c))))); [done|lia].
Qed.

(** C23 The two tables of names agree.  The scheduler's [normalize_endpoint] reads
    [build_role_to_class], the catalogue and its notices read [by_name]; they are
    built in different orders.  Where no alias is reported as claimed twice and no
    endpoint's role is another's class, they are the same table; and a name written
    in small letters reaches the same endpoint by either, or is known to neither.
    (One with a capital letter is lowered by the scheduler alone, which finds the
    small spelling or nothing: [capital_letters_are_unreachable].) *)
Theorem name_tables_agree raw c ns :
  parse raw = Ret (c, ns) ->
  Forall (fun n => nt_problem n <> "duplicate") ns ->
  (forall e e', e ∈ all_entries c -> e' ∈ all_entries c -> ee_role e = ee_name e' -> e = e') ->
  (forall x, dget (build_role_to_class c) x = dget (by_name c) x)
  /\ (forall name, normalize_endpoint (build_role_to_class c) name = default (lower (strip name)) (dget (by_name c) (lower (strip name))))
  /\ (forall name, lower (strip name) = strip name ->
       normalize_endpoint (build_role_to_class c) name = default (strip name) (canonical c name)).
Proof.
  intros P D R. pose proof (tables_agree raw c ns P D R) as T.
  assert (N : forall name, normalize_endpoint (build_role_to_class c) name = default (lower (strip name)) (dget (by_name c) (lower (strip name)))).
  { intros name. unfold normalize_endpoint. rewrite T. by destruct (dget (by_name c) (lower (strip name))). }
  split; [exact T|]. split; [exact N|]. intros name L. by rewrite N, L.
Qed.

(** ** The arguments of an endpoint *)

Lemma put_if_ne b k v kw k' : k <> k' -> dget (put_if b k v kw) k' = dget kw k'.
Proof. intros N. destruct b; [by apply dget_dset_ne|done]. Qed.

Lemma put_texts_ne k v kw k' : k <> k' -> dget (put_texts k v kw) k' = dget kw k'.
Proof. intros N. destruct v; try done; cbn; [by apply put_if_ne|by apply dget_dset_ne]. Qed.

Lemma pass_policy_get pol kw k : NoDup _POLICY_PASSTHROUGH ->
  dget (pass_policy pol kw) k = if decide (k ∈ _POLICY_PASSTHROUGH) then match dget pol k with Some v => Some v | None => dget kw k end else dget kw k.
Proof.
  unfold pass_policy. generalize _POLICY_PASSTHROUGH. intros l. revert kw. induction l as [|a l IH]; intros kw D; [done|].
  apply NoDup_cons in D as [N D]. cbn [foldl]. rewrite IH by done.
  destruct (decide (a = k)) as [->|NE].
  - rewrite (decide_True (P := k ∈ k :: l)) by set_solver. rewrite decide_False by done.
    destruct (dget pol k) eqn:E; [by rewrite dget_dset_eq|done].
  - assert (K : dget (match dget pol a with Some v => dset kw a v | None => kw end) k = dget kw k)
      by (destruct (dget pol a); [by apply dget_dset_ne|done]). rewrite K.
    destruct (decide (k ∈ l)), (decide (k ∈ a :: l)); set_solver.
Qed.

Lemma passthrough_NoDup : NoDup _POLICY_PASSTHROUGH.
Proof. apply (bool_decide_unpack _). vm_compute. done. Qed.

Lemma handled_ne pol kw k : k ∉ "no_thinking_switch" :: _POLICY_HANDLED -> dget (handled_policy pol kw) k = dget kw k.
Proof.
  intros N. unfold handled_policy. cbv zeta. rewrite put_texts_ne, put_if_ne, put_texts_ne by set_solver.
  destruct (jget pol "model_fingerprint"); try done. apply put_if_ne. set_solver.
Qed.

Definition is_target (k : string) : bool := mem k ["failover_to"; "spill_to"].

(** The arguments before the policy's keys that are read by hand. *)
Definition plain_kwargs (c : Catalog) (e : EndpointEntry) : dict string json :=
  let p := default no_provider (provider c (ee_provider e)) in
  pass_policy (ee_policy e) (nature e p (connection c p
    [("endpoint_class", JStr (ee_name e)); ("role", JStr (ee_role e)); ("max_slots", JInt (ee_slots e));
     ("context_per_slot", JInt (ee_context_per_slot e))])).

Lemma kwargs_in_two c e : endpoint_kwargs c e = handled_policy (ee_policy e) (plain_kwargs c e).
Proof. unfold endpoint_kwargs, plain_kwargs. reflexivity. Qed.

Definition late_keys : list string := ["failover_to"; "spill_to"; "model_fingerprint"; "thinking_kwargs"; "prefix_keepalive_call_sites"; "no_thinking_switch"].

Lemma late_keys_apart : Forall (fun k => k ∉ _POLICY_PASSTHROUGH) late_keys.
Proof. apply (bool_decide_unpack _). vm_compute. done. Qed.

Lemma plain_lacks c e k : k ∈ late_keys -> dget (plain_kwargs c e) k = None.
Proof.
  intros T. pose proof late_keys_apart as H. rewrite Forall_forall in H. unfold plain_kwargs. cbv zeta.
  rewrite (pass_policy_get _ _ _ passthrough_NoDup), decide_False by (by apply H). clear H. unfold late_keys in T.
  unfold nature, connection, put_text. cbv zeta. rewrite !put_if_ne, !dget_dset_ne, !put_if_ne by set_solver.
  destruct (String.eqb _ _); rewrite ?dget_dset_ne by set_solver;
    repeat (apply elem_of_cons in T as [->|T]; [done|]); by apply not_elem_of_nil in T.
Qed.

(** No argument is a target before the targets are armed. *)
Lemma kwargs_no_target c e k : is_target k = true -> dget (endpoint_kwargs c e) k = None.
Proof.
  intros T%bool_decide_eq_true. rewrite kwargs_in_two, handled_ne by (unfold _POLICY_HANDLED; set_solver).
  apply plain_lacks. unfold late_keys. set_solver.
Qed.

(** Where targets stand: on a key of their own, at an endpoint configured beside it. *)
Definition targets_ok (out : dict string (dict string json)) : Prop := forall n kw k v,
  dget out n = Some kw -> is_target k = true -> dget kw k = Some v -> exists t, v = JStr t /\ t <> "" /\ t <> n /\ dmem out t = true.

Lemma dmem_dset {V} (d : dict string V) k v x : dmem d x = true -> dmem (dset d k v) x = true.
Proof. unfold dmem. rewrite dget_dset. by case_decide. Qed.

Lemma arm_targets k target out e : is_target k = true -> targets_ok out -> targets_ok (arm k target out e).
Proof.
  intros T O. unfold arm. destruct (dget out (ee_name e)) as [kw|] eqn:E; [|done].
  destruct (_ && _)%bool eqn:B; [|done]. apply andb_true_iff in B as [[B1%negb_true_iff B2%negb_true_iff]%andb_true_iff B3].
  apply String.eqb_neq in B1, B2. intros n kw' k' v. rewrite dget_dset. case_decide as D.
  - intros [= <-] T' V. subst n. destruct (decide (k = k')) as [<-|N].
    + rewrite dget_dset_eq in V. injection V as <-. exists (target e). split_and!; [done..|by apply dmem_dset].
    + rewrite dget_dset_ne in V by done. destruct (O _ _ _ _ E T' V) as (t & -> & ? & ? & ?). exists t. split_and!; [done..|by apply dmem_dset].
  - intros G T' V. destruct (O _ _ _ _ G T' V) as (t & -> & ? & ? & ?). exists t. split_and!; [done..|by apply dmem_dset].
Qed.

Lemma arms_targets k target es out : is_target k = true -> targets_ok out -> targets_ok (foldl (arm k target) out es).
Proof. intros T. revert out. induction es as [|e es IH]; intros out O; [done|]. apply IH. by apply arm_targets. Qed.

(** A failover or a spill is armed only at an endpoint that is configured in the
    same build, and never at the endpoint itself: one that names an entry which is
    planned, retired or unknown arms nothing. *)
Theorem targets_are_configured c chosen n kw k v :
  dget (build_endpoint_kwargs c chosen).1 n = Some kw -> is_target k = true -> dget kw k = Some v ->
  exists t, v = JStr t /\ t <> "" /\ t <> n /\ dmem (build_endpoint_kwargs c chosen).1 t = true.
Proof.
  cbn [build_endpoint_kwargs fst]. apply arms_targets; [done|]. apply arms_targets; [done|]. clear.
  intros n kw k v. assert (K : forall es, forall kw, dget (foldl (fun out e => dset out (ee_name e) (endpoint_kwargs c e)) [] es) n = Some kw ->
    exists e, kw = endpoint_kwargs c e).
  { intros es. induction es as [|e es IH] using rev_ind; [done|]. intros kw0. rewrite foldl_app. cbn [foldl]. rewrite dget_dset.
    case_decide; [intros [= <-]; by eexists|apply IH]. }
  intros G T V. apply K in G as [e ->]. by rewrite kwargs_no_target in V.
Qed.

(** *** No silent drop *)

Definition chosen_entries (c : Catalog) (chosen : option (list EndpointEntry)) : list EndpointEntry := default (routed_entries c) chosen.

Lemma not_in_elem known names n : n ∈ not_in known names <-> n ∈ names /\ n ∉ known.
Proof.
  unfold not_in, sorted_strs. rewrite (isort_perm String.leb), elem_of_remove_dups, list_elem_of_In, filter_In, <- list_elem_of_In. unfold mem.
  by rewrite negb_true_iff, bool_decide_eq_false.
Qed.

Lemma passed_verbatim c e k : k ∈ _POLICY_PASSTHROUGH -> k ∈ dkeys (ee_policy e) -> dget (endpoint_kwargs c e) k = dget (ee_policy e) k.
Proof.
  intros P I. unfold endpoint_kwargs. cbv zeta. rewrite handled_ne.
  - rewrite (pass_policy_get _ _ _ passthrough_NoDup), decide_True by done. apply dkeys_get in I as [v ->]. done.
  - assert (H : Forall (fun k => k ∉ "no_thinking_switch" :: _POLICY_HANDLED) _POLICY_PASSTHROUGH) by (apply (bool_decide_unpack _); vm_compute; done).
    rewrite Forall_forall in H. by apply H.
Qed.

(** What is kept of an endpoint's arguments when targets are armed. *)
Definition keeps_args (out out' : dict string (dict string json)) : Prop := forall n kw, dget out n = Some kw ->
  exists kw', dget out' n = Some kw' /\ forall k, is_target k = false -> dget kw' k = dget kw k.

Lemma arms_keep k target es out : is_target k = true -> keeps_args out (foldl (arm k target) out es).
Proof.
  intros T. revert out. induction es as [|e es IH]; intros out n kw G; [by exists kw|]. cbn [foldl].
  assert (A : exists kw1, dget (arm k target out e) n = Some kw1 /\ forall k, is_target k = false -> dget kw1 k = dget kw k).
  { unfold arm. destruct (dget out (ee_name e)) as [kw0|] eqn:E; [|by exists kw]. destruct (_ && _)%bool; [|by exists kw].
    rewrite dget_dset. case_decide as D; [|by exists kw]. subst n. eexists. split; [done|]. intros k' N. rewrite E in G. injection G as ->.
    rewrite dget_dset_ne; [done|]. intros ->. congruence. }
  destruct A as (kw1 & G1 & K1). destruct (IH _ _ _ G1) as (kw2 & G2 & K2). exists kw2. split; [done|]. intros k' N. by rewrite K2, K1.
Qed.

Lemma configured_once c es e : NoDup (map ee_name es) -> e ∈ es ->
  dget (foldl (fun out e => dset out (ee_name e) (endpoint_kwargs c e)) [] es) (ee_name e) = Some (endpoint_kwargs c e).
Proof.
  induction es as [|e' es IH] using rev_ind; [set_solver|]. rewrite map_app, foldl_app. intros D I. cbn [foldl map] in *. rewrite dget_dset.
  apply NoDup_app in D as (D & N & _). apply elem_of_app in I as [I|I%list_elem_of_singleton]; [|subst; by rewrite decide_True].
  rewrite decide_False; [by apply IH|]. intros E. apply (N (ee_name e)); [|rewrite E; by apply list_elem_of_singleton].
  apply list_elem_of_In, in_map, list_elem_of_In, I.
Qed.

(** What is read of a key that is read by hand: a text, or the texts of a list; of a
    value of another kind, or of a blank one, nothing. *)
Definition read_texts (v : json) : option json :=
  match v with
  | JList l => Some (JList (texts_of l))
  | JStr s => if String.eqb (strip s) "" then None else Some (JList [JStr (strip s)])
  | _ => None
  end.

Definition read_by_hand (k : string) (v : json) : option json :=
  if String.eqb k "model_fingerprint"
  then match v with JStr s => if String.eqb (strip s) "" then None else Some (JStr (strip s)) | _ => None end
  else read_texts v.

Lemma put_texts_get k v kw : dget kw k = None -> dget (put_texts k v kw) k = read_texts v.
Proof.
  intros N. destruct v as [| | | |s|l|]; try done; cbn; [|by rewrite dget_dset_eq].
  destruct (String.eqb (strip s) ""); [done|by cbn; rewrite dget_dset_eq].
Qed.

Lemma handled_reads c e k : k ∈ _POLICY_HANDLED -> dget (endpoint_kwargs c e) k = read_by_hand k (jget (ee_policy e) k).
Proof.
  intros H. rewrite kwargs_in_two.
  assert (N : forall k, k ∈ _POLICY_HANDLED -> dget (plain_kwargs c e) k = None).
  { intros k' K. apply plain_lacks. unfold late_keys, _POLICY_HANDLED in *. set_solver. }
  unfold handled_policy. cbv zeta. generalize dependent (plain_kwargs c e). intros kw N.
  set (kw1 := match jget (ee_policy e) "model_fingerprint" with JStr s => _ | _ => kw end).
  assert (K1 : forall x, x <> "model_fingerprint" -> dget kw1 x = dget kw x).
  { intros x X. subst kw1. destruct (jget (ee_policy e) "model_fingerprint"); try done. by apply put_if_ne. }
  unfold _POLICY_HANDLED in H. apply elem_of_cons in H as [->|H]; [|apply elem_of_cons in H as [->|H%list_elem_of_singleton]; [|subst k]].
  - rewrite put_texts_ne, put_if_ne, put_texts_ne by done. subst kw1. specialize (N "model_fingerprint" (list_elem_of_here _ _)).
    unfold read_by_hand. rewrite String.eqb_refl. destruct (jget (ee_policy e) "model_fingerprint") as [| | | |s| |]; try exact N.
    unfold put_text. destruct (String.eqb (strip s) ""); [exact N|by cbn; rewrite dget_dset_eq].
  - rewrite put_texts_ne, put_if_ne by done. rewrite put_texts_get; [done|]. rewrite K1 by done. apply N. unfold _POLICY_HANDLED. set_solver.
  - rewrite put_texts_get; [done|]. rewrite put_if_ne, put_texts_ne, K1 by done. apply N. unfold _POLICY_HANDLED. set_solver.
Qed.

Lemma no_targets k : k ∈ _POLICY_HANDLED \/ k ∈ _POLICY_PASSTHROUGH -> is_target k = false.
Proof.
  intros H. apply bool_decide_eq_false. intros T. destruct H as [H|H].
  - unfold _POLICY_HANDLED in H. set_solver.
  - pose proof late_keys_apart as A. rewrite Forall_forall in A. apply (A k); [unfold late_keys; set_solver|done].
Qed.

(** An empty list of switches, and only that, declares that there is none. *)
Lemma no_switch_declared c e : dget (endpoint_kwargs c e) "no_thinking_switch"
  = match jget (ee_policy e) "thinking_kwargs" with JList [] => Some (JBool true) | _ => None end.
Proof.
  rewrite kwargs_in_two. unfold handled_policy. cbv zeta. rewrite put_texts_ne by done.
  assert (N : dget (plain_kwargs c e) "no_thinking_switch" = None) by (apply plain_lacks; unfold late_keys; set_solver).
  generalize dependent (plain_kwargs c e). intros kw N.
  set (kw1 := match jget (ee_policy e) "model_fingerprint" with JStr s => _ | _ => kw end).
  assert (K1 : dget kw1 "no_thinking_switch" = None).
  { subst kw1. destruct (jget (ee_policy e) "model_fingerprint"); try exact N. unfold put_text. by rewrite put_if_ne. }
  clearbody kw1. destruct (jget (ee_policy e) "thinking_kwargs") as [| | | | |[|x l]|]; cbn [put_if]; rewrite ?dget_dset_eq; try done; by rewrite put_texts_ne.
Qed.


(** ** What is served *)

(** A disk: the file behind each path, as it stands. *)
Abbreviation Disk := (string -> option json).

Definition is_fresh (file : Disk) (overlay : dict string json) (path : string) (c : Catalog) : Prop :=
  exists ns, load_fresh file path overlay = Some (Ret (c, ns)).

(** The states that loads, edits of the files and overlays lead to, with the disks
    since the overlay in force was installed, the present one first. *)
Inductive store_reach : Disk -> list Disk -> Store -> Prop :=
| reach_start d : store_reach d [] (mkStore [] [] [])
| reach_load d h path force overlay s : store_reach d h s -> store_reach d h (load_catalog d path force overlay s).2
| reach_edit d d' h s : store_reach d h s -> store_reach d' (d :: h) s
| reach_overlay d h fragment s : store_reach d h s -> store_reach d [] (set_runtime_overlay fragment s).

Definition coherent (h : list Disk) (s : Store) : Prop := forall path c, dget (cs_cache s) path = Some c ->
  exists d, d ∈ h /\ is_fresh d (cs_overlay s) path c.

(** A load, by what it answers. *)
Lemma load_cases d h path force overlay s :
  let x := load_catalog d path force overlay s in
  cs_overlay x.2 = cs_overlay s
  /\ (overlay <> None -> cs_cache x.2 = cs_cache s)
  /\ (coherent (d :: h) s -> coherent (d :: h) x.2)
  /\ forall c, x.1 = Ret (Some c) ->
       is_fresh d (default (cs_overlay s) overlay) path c
       \/ (overlay = None /\ force = false /\ dget (cs_cache s) path = Some c).
Proof.
  cbv zeta. unfold load_catalog. rewrite run_get.
  destruct (if (bool_decide (overlay = None) && negb force)%bool then dget (cs_cache s) path else None) as [c|] eqn:HIT.
  - destruct (bool_decide (overlay = None)) eqn:B; [|done]. apply bool_decide_eq_true in B as ->. destruct force; [done|]. cbn in HIT.
    cbn. split_and!; [done..|]. intros c' [= <-]. by right.
  - clear HIT. destruct (load_fresh d path _) as [[[c ns]|e]|] eqn:L; [|by split_and!|by split_and!].
    rewrite run_bind. cbn [se_lift]. rewrite run_modify. cbn [fst snd mret se_ret cs_overlay cs_cache].
    split_and!; [done|by intros N; rewrite bool_decide_eq_false_2| |intros c' [= <-]; left; by exists ns]. intros H.
    intros p c'. cbn [cs_cache cs_overlay mret se_ret fst snd]. destruct overlay as [o|]; [rewrite bool_decide_eq_false_2 by done; apply H|].
    rewrite bool_decide_eq_true_2 by done. cbv iota. rewrite dget_dset. case_decide as D; [|apply H]. intros [= <-]. subst p.
    exists d. split; [by left|by exists ns].
Qed.

Lemma reach_coherent d h s : store_reach d h s -> coherent (d :: h) s.
Proof.
  induction 1 as [d|d h path force overlay s _ IH|d d' h s _ IH|d h fragment s _ _]; [done| | |done]; [by apply load_cases|].
  intros path c G. destruct (IH path c G) as (x & I & F). exists x. split; [by right|done].
Qed.

(** C25 What is served.  After any loads, forced or not, any candidates tried by the
    management plane, any overlays installed and any edits of the file, a load
    answers the file under the overlay in force: as the file stands now where the
    load is forced, where the path is not cached, and where nothing was edited
    since the overlay was installed; and otherwise as it stood at some moment since
    then, since an edit alone does not empty the cache.  A candidate is answered
    from the file as it stands under its own overlay, and leaves no trace in the
    cache. *)
Theorem catalog_in_force d h s path force overlay c s' :
  store_reach d h s -> load_catalog d path force overlay s = (Ret (Some c), s') ->
  (exists d', d' ∈ d :: h /\ is_fresh d' (default (cs_overlay s) overlay) path c)
  /\ (force = true \/ overlay <> None \/ dget (cs_cache s) path = None -> is_fresh d (default (cs_overlay s) overlay) path c)
  /\ cs_overlay s' = cs_overlay s /\ (overlay <> None -> cs_cache s' = cs_cache s).
Proof.
  intros R E. destruct (load_cases d h path force overlay s) as (O & C & _ & F). rewrite E in O, C, F. cbn in O, C, F.
  specialize (F c eq_refl). split_and!; [|intros [X|[X|X]]; destruct F as [F|(-> & -> & G)]; congruence|done..].
  destruct F as [F|(-> & -> & G)]; [exists d; split; [by left|done]|exact (reach_coherent d h s R path c G)].
Qed.

(** ** Profiles and the overlay *)

Definition offerable (n : string) (p : Profile) : Prop :=
  p_name p = n /\ p_kind p ∈ KNOWN_KINDS /\ p_prefer p ∈ PREFERENCES /\ Forall (fun x => x ∈ KNOWN_CAPABILITIES) (p_requires p).

Lemma coerced_offerable name raw p ns : _coerce_profile name raw = Ret (Some p, ns) -> offerable name p.
Proof.
  unfold _coerce_profile. cbv zeta. destruct (mem _ KNOWN_KINDS) eqn:K; cbn [negb]; [|done]. destruct (mem _ PREFERENCES) eqn:F; cbn [negb]; [|done].
  destruct (_tuple raw "requires") as [req|]; [|done]. cbn. destruct (not_in KNOWN_CAPABILITIES req) as [|b bad] eqn:B; [|done].
  intros [= <- <-]. apply bool_decide_eq_true in K, F. split_and!; [done..|]. cbn [p_requires]. rewrite Forall_forall. intros x Hx. rewrite elem_of_remove_dups in Hx.
  destruct (decide (x ∈ KNOWN_CAPABILITIES)) as [|N]; [done|]. exfalso.
  assert (I : x ∈ not_in KNOWN_CAPABILITIES req) by (apply not_in_elem; by split). rewrite B in I. set_solver.
Qed.

(** Every profile that is offered can be asked for: its kind, its preference and
    its requirements are words the resolver knows, whatever the operator wrote.  A
    stanza that fails this is refused and takes its name with it, so the built-in
    of that name is not offered in its place. *)
Theorem offered_profiles_known raw table ns : _build_intents raw = Ret (table, ns) -> forall n p, dget table n = Some p -> offerable n p.
Proof.
  unfold _build_intents. destruct (mapping AttributeError _) as [st|]; [|done]. cbn. intros H.
  enough (I : dwf (table, ns).1 /\ forall n p, dget (table, ns).1 n = Some p -> offerable n p) by apply I. revert H.
  apply (res_fold_inv layer_intent (fun acc => dwf acc.1 /\ forall n p, dget acc.1 n = Some p -> offerable n p)).
  - split; [unfold dwf; cbn [fst]; apply (bool_decide_unpack _); vm_compute; done|]. intros n p G%dget_elem.
    assert (F : Forall (fun kv => p_name kv.2 = kv.1 /\ p_kind kv.2 ∈ KNOWN_KINDS /\ p_prefer kv.2 ∈ PREFERENCES
      /\ Forall (fun x => x ∈ KNOWN_CAPABILITIES) (p_requires kv.2)) BUILTIN_PROFILES) by (apply (bool_decide_unpack _); vm_compute; done).
    rewrite Forall_forall in F. exact (F _ G).
  - intros [t ns0] [k v] [t' ns'] _ [W O]. unfold layer_intent. cbn [fst snd] in *. destruct (String.eqb (strip k) ""); [by intros [= <- <-]|].
    destruct (mapping TypeError v) as [body|]; [|done]. cbn. destruct (_coerce_profile (strip k) body) as [[[p|] m]|] eqn:C; [| |done]; cbn; intros [= <- <-].
    + split; [by apply dwf_dset|]. intros n q. rewrite dget_dset. case_decide as D; [intros [= <-]; subst n; by eapply coerced_offerable|apply O].
    + split; [by apply dwf_ddel|]. intros n q. rewrite dget_ddel by done. case_decide; [done|apply O].
Qed.

(** One name of a section under the overlay's stanza for it. *)
Definition layered (base stanzas : dict string json) (n : string) : option json :=
  match dget stanzas n with
  | Some JNull => None
  | Some (JDict s) => Some (JDict (dict_update (match jget base n with JDict d => d | _ => [] end) s))
  | _ => dget base n
  end.

Lemma stanzas_layer stanzas base base' : dwf base -> dwf stanzas -> res_fold merge_stanza base stanzas = Ret base' ->
  forall n, dget base' n = layered base stanzas n.
Proof.
  revert base. induction stanzas as [|[k v] stanzas IH]; intros base W D; cbn [res_fold]; [by intros [= <-] n|].
  apply NoDup_cons in D as [N D]. destruct (merge_stanza base (k, v)) as [b|] eqn:M; [|done]. cbn. intros H n.
  assert (S : dwf b /\ (forall m, m <> k -> dget b m = dget base m) /\ dget b k = layered base [(k, v)] k).
  { unfold merge_stanza in M. cbn [fst snd] in M. unfold layered. cbn [dget]. rewrite decide_True by done.
    destruct v as [| | | | | |s]; try (injection M as <-; by split_and!).
    - injection M as <-. split_and!; [by apply dwf_ddel|by intros; apply dget_ddel_ne|]. by rewrite dget_ddel, decide_True.
    - destruct (mapping TypeError (jget base k)) as [old|] eqn:O; [|done]. cbn in M. injection M as <-.
      split_and!; [by apply dwf_dset|by intros; apply dget_dset_ne|]. rewrite dget_dset_eq. do 2 f_equal.
      unfold mapping in O. destruct (jget base k) as [|[]|[]|q|[]|[]|[]]; cbn in O; try done; try (by injection O as <-). by destruct (negb _); try done; injection O as <-. }
  destruct S as (Wb & NE & EQ). rewrite (IH b Wb D H n). unfold layered at 1 2. cbn [dget]. destruct (decide (k = n)) as [<-|X].
  - assert (Z : dget stanzas k = None) by by apply dget_None. rewrite Z, EQ. unfold layered. cbn [dget]. by rewrite decide_True.
  - rewrite (NE n) by done. assert (J : jget b n = jget base n) by (unfold jget; by rewrite (NE n)). by rewrite J.
Qed.

(** The management plane's overlay over the file.  In either section a stanza of
    the overlay creates its name or changes the keys it gives and no others, an
    explicit nothing deletes the name, and every name that the overlay does not
    mention, and every other section, stays as the file has it. *)
Theorem overlay_layers raw overlay raw' section stanzas base :
  merge_catalog_overlay raw overlay = Ret raw' -> section ∈ ["providers"; "endpoints"] ->
  jget overlay section = JDict stanzas -> dwf stanzas -> mapping TypeError (jget raw section) = Ret base -> dwf base ->
  exists merged, mapping TypeError (jget raw' section) = Ret merged /\ (forall n, dget merged n = layered base stanzas n)
  /\ (forall other, other ∉ ["providers"; "endpoints"] -> jget raw' other = jget raw other).
Proof.
  assert (ONE : forall section raw raw', merge_section overlay raw section = Ret raw' ->
    (forall other, other <> section -> jget raw' other = jget raw other)
    /\ (forall stanzas base, jget overlay section = JDict stanzas -> dwf stanzas -> mapping TypeError (jget raw section) = Ret base -> dwf base ->
         exists merged, mapping TypeError (jget raw' section) = Ret merged /\ forall n, dget merged n = layered base stanzas n)).
  { clear. intros section raw raw' M. unfold merge_section in M. destruct (mapping AttributeError (jget overlay section)) as [st|] eqn:A; [|done]. cbn in M.
    assert (ST : forall stanzas, jget overlay section = JDict stanzas -> st = stanzas).
    { intros stanzas J. rewrite J in A. unfold mapping in A. destruct stanzas; [by injection A as <-|by injection A as <-]. }
    destruct st as [|x st].
    - injection M as <-. split; [done|]. intros stanzas base J _ B _. apply ST in J as <-. by exists base.
    - destruct (mapping TypeError (jget raw section)) as [b0|] eqn:B0; [|done]. cbn [mbind res_bind] in M.
      destruct (res_fold merge_stanza b0 (x :: st)) as [b1|] eqn:F; [|done]. injection M as <-. split.
      + intros other N. unfold jget. by rewrite dget_dset_ne.
      + intros stanzas base J D B W. apply ST in J as <-. injection B as <-. exists b1. split.
        * unfold jget. rewrite dget_dset_eq. unfold mapping. by destruct b1.
        * by apply stanzas_layer. }
  unfold merge_catalog_overlay. destruct overlay as [|o os]; [by intros _ _ J; cbn in J|]. set (ov := o :: os) in *. cbn [res_fold].
  destruct (merge_section ov raw "providers") as [r1|] eqn:M1; [|done]. cbn [mbind res_bind].
  destruct (merge_section ov r1 "endpoints") as [r2|] eqn:M2; [|done]. cbn [mbind res_bind]. intros [= <-] S J D B W.
  destruct (ONE _ _ _ M1) as [O1 S1]. destruct (ONE _ _ _ M2) as [O2 S2].
  assert (R : forall other, other ∉ ["providers"; "endpoints"] -> jget r2 other = jget raw other)
    by (intros other N; rewrite O2, O1 by set_solver; done).
  apply elem_of_cons in S as [->|S%list_elem_of_singleton].
  - destruct (S1 stanzas base J D B W) as (m & E & L). exists m. rewrite O2 by done. by split_and!.
  - subst section. rewrite <- O1 in B by done. destruct (S2 stanzas base J D B W) as (m & E & L). exists m. by split_and!.
Qed.

(** ** A small catalogue *)

Definition demo_stanza (aliases : list string) (more : dict string json) : json :=
  JDict (("provider", JStr "box") :: ("slots", JInt 2) :: ("aliases", JList (map JStr aliases)) :: more)%list.

Definition demo_file (es : dict string json) : dict string json :=
  [("providers", JDict [("box", JDict [("engine", JStr "vllm"); ("host", JStr "h1"); ("port", JInt 8000)])]);
   ("hosts", JDict [("h1", JStr "10.0.0.1")]); ("endpoints", JDict es);
   ("intents", JDict [("reasoning", JDict [("requires", JList [JStr "raesoning"])]); ("cheap", JDict [("prefer", JStr "cost")])])].

Definition demo_endpoints : dict string json :=
  [("tier1", demo_stanza ["fast"] [("failover_to", JStr "tier2"); ("spill_to", JStr "cloud");
      ("policy", JDict [("slot_affinity", JBool true); ("slotaffinity", JInt 1)])]);
   ("tier2", demo_stanza ["slow"; "fallback"] [("role", JStr "companion")]);
   ("cloud", demo_stanza [] [("status", JStr "planned")])].

Definition parsed (es : dict string json) : Catalog * list ConfigNotice :=
  match parse (demo_file es) with Ret x => x | Raise _ => (mkCatalog [] [] [] [] [], []) end.

Definition demo_catalog : Catalog := (parsed demo_endpoints).1.

Lemma demo_parses : parse (demo_file demo_endpoints) = Ret (demo_catalog, (parsed demo_endpoints).2).
Proof. vm_compute. reflexivity. Qed.

Example demo_names :
  map (canonical demo_catalog) ["tier1"; "fast"; "companion"; "nobody"] = [Some "tier1"; Some "tier1"; Some "tier2"; None]
  /\ host_ip demo_catalog "fast" = Some (JStr "10.0.0.1") /\ dkeys (build_endpoint_kwargs demo_catalog None).1 = ["tier1"; "tier2"]
  /\ dget (intents demo_catalog) "reasoning" = None /\ dmem (intents demo_catalog) "cheap" = true
  /\ build_class_to_role demo_catalog = [("tier1", "tier1"); ("tier2", "companion"); ("cloud", "cloud")].
Proof. vm_compute. by split_and!. Qed.

Lemma names_resolve_witness : canonical demo_catalog " fast " = owner (all_entries demo_catalog) "fast".
Proof. exact (proj1 (names_resolve _ _ _ demo_parses) " fast "). Defined.

Lemma demo_roles_apart e e' : e ∈ all_entries demo_catalog -> e' ∈ all_entries demo_catalog -> ee_role e = ee_name e' -> e = e'.
Proof.
  assert (F : Forall (fun e => Forall (fun e' => ee_role e = ee_name e' -> ee_name e = ee_name e') (all_entries demo_catalog)) (all_entries demo_catalog))
      by (vm_compute; repeat constructor; congruence).
  intros I I' R. rewrite Forall_forall in F. specialize (F e I). rewrite Forall_forall in F. specialize (F e' I' R).
  clear R. revert F. vm_compute in I, I'.
  repeat (apply elem_of_cons in I as [->|I]; [repeat (apply elem_of_cons in I' as [->|I']; [done|]); by apply not_elem_of_nil in I'|]);
  by apply not_elem_of_nil in I.
Qed.

Lemma name_tables_agree_witness : normalize_endpoint (build_role_to_class demo_catalog) "Companion" = "tier2".
Proof.
  rewrite (proj1 (proj2 (name_tables_agree _ _ _ demo_parses ltac:(apply (bool_decide_unpack _); vm_compute; done) demo_roles_apart)));
    vm_compute; reflexivity.
Defined.

(** An alias that two endpoints claim: the catalogue resolves it to the first and
    says so, and requests that name it are sent to the last. *)
Example contested_alias_goes_two_ways :
  let '(c, ns) := parsed [("a", demo_stanza ["x"] []); ("b", demo_stanza ["x"] [])] in
  canonical c "x" = Some "a" /\ take 1 ns = [mkConfigNotice "endpoints.aliases.x" "duplicate" ["a"; "b"] (Some "a")]
  /\ normalize_endpoint (build_role_to_class c) "x" = "b".
Proof. vm_compute. by split_and!. Qed.

(** A class that is also the role of a later endpoint: its own requests are sent
    to the other one, and nothing is reported. *)
Example class_lost_to_a_role :
  let '(c, ns) := parsed [("chat", demo_stanza [] []); ("b", demo_stanza [] [("role", JStr "chat")])] in
  canonical c "chat" = Some "chat" /\ map nt_subject ns = ["intents.reasoning"]
  /\ normalize_endpoint (build_role_to_class c) "chat" = "b".
Proof. vm_compute. by split_and!. Qed.

(** A name with a capital letter is never found by a request. *)
Example capital_letters_are_unreachable :
  let '(c, ns) := parsed [("a", demo_stanza ["Qwen"] [])] in
  canonical c "Qwen" = Some "a" /\ normalize_endpoint (build_role_to_class c) "Qwen" = "qwen" /\ map nt_subject ns = ["intents.reasoning"].
Proof. vm_compute. by split_and!. Qed.

Definition demo_built : dict string (dict string json) * list ConfigNotice := build_endpoint_kwargs demo_catalog None.

Lemma targets_are_configured_witness :
  (dget demo_built.1 "tier1" ≫= fun kw => dget kw "failover_to") = Some (JStr "tier2") /\ dmem demo_built.1 "tier2" = true
  /\ (dget demo_built.1 "tier1" ≫= fun kw => dget kw "spill_to") = None.
Proof.
  destruct (dget demo_built.1 "tier1") as [kw|] eqn:G; [|exfalso; vm_compute in G; discriminate].
  assert (V : dget kw "failover_to" = Some (JStr "tier2")) by (vm_compute in G; injection G as <-; reflexivity).
  destruct (targets_are_configured demo_catalog None "tier1" kw "failover_to" _ G eq_refl V) as (t & [= <-] & _ & _ & D).
  split; [exact V|]. split; [exact D|]. vm_compute in G. injection G as <-. reflexivity.
Defined.

Definition demo_entry : EndpointEntry := match all_entries demo_catalog with e :: _ => e | [] => mkEntry "" "" "" "" "" [] "" 0 0 0 0 0 0 "" "" [] [] end.


(** A fingerprint that YAML reads as a number is neither kept nor reported. *)
Example numeric_fingerprint_is_dropped :
  let '(c, _) := parsed [("a", demo_stanza [] [("policy", JDict [("model_fingerprint", JInt 7)])])] in
  let built := build_endpoint_kwargs c None in
  (dget built.1 "a" ≫= fun kw => dget kw "model_fingerprint") = None /\ built.2 = [].
Proof. vm_compute. by split_and!. Qed.

Definition demo_disk (path : string) : option json := if String.eqb path "models.yaml" then Some (JDict (demo_file demo_endpoints)) else None.

(** The overlay takes [tier2] out. *)
Definition demo_overlay : dict string json := [("endpoints", JDict [("tier2", JNull); ("tier1", JDict [("slots", JInt 9)])])].

Definition demo_store : Store := set_runtime_overlay demo_overlay (load_catalog demo_disk "models.yaml" false None (mkStore [] [] [])).2.

(** The file is edited after the catalogue was loaded, and names no endpoint any
    more: what the overlay says of [tier1] is left. *)
Definition demo_edited (path : string) : option json := if String.eqb path "models.yaml" then Some (JDict (demo_file [])) else None.

Lemma catalog_in_force_witness :
  exists c, (load_catalog demo_edited "models.yaml" true None demo_store).1 = Ret (Some c) /\ is_fresh demo_edited demo_overlay "models.yaml" c
  /\ map ee_name (all_entries c) = ["tier1"].
Proof.
  destruct (load_catalog demo_edited "models.yaml" true None demo_store) as [[[c|]|e] s'] eqn:E; try (exfalso; vm_compute in E; discriminate).
  exists c. split; [done|]. split.
  - apply (catalog_in_force demo_edited [demo_disk] demo_store "models.yaml" true None c s'); [|exact E|by left].
    apply reach_edit, (reach_overlay _ []), reach_load, reach_start.
  - vm_compute in E. injection E as <- _. reflexivity.
Defined.

(** A load that is not forced answers the catalogue of before the edit. *)
Example edit_is_not_seen :
  match load_catalog demo_edited "models.yaml" false None (load_catalog demo_disk "models.yaml" false None demo_store).2 with
  | (Ret (Some c), _) => map ee_slots (all_entries c)
  | _ => []
  end = [9; 2]%Z.
Proof. vm_compute. reflexivity. Qed.

Lemma offered_profiles_known_witness :
  forall p, dget (intents demo_catalog) "cheap" = Some p -> offerable "cheap" p.
Proof.
  intros p G. destruct (_build_intents (demo_file demo_endpoints)) as [[t ns]|] eqn:B; [|exfalso; vm_compute in B; discriminate].
  apply (offered_profiles_known _ _ _ B). vm_compute in B, G |- *. injection B as <- _. exact G.
Defined.

Lemma overlay_layers_witness :
  exists raw' merged, merge_catalog_overlay (demo_file demo_endpoints) demo_overlay = Ret raw'
  /\ mapping TypeError (jget raw' "endpoints") = Ret merged /\ dget merged "tier2" = None.
Proof.
  destruct (merge_catalog_overlay (demo_file demo_endpoints) demo_overlay) as [raw'|] eqn:M; [|exfalso; vm_compute in M; discriminate].
  destruct (overlay_layers _ _ raw' "endpoints" [("tier2", JNull); ("tier1", JDict [("slots", JInt 9)])] demo_endpoints M) as (m & E & L & _);
    [set_solver|done| |done| |].
  - apply (bool_decide_unpack _). vm_compute. done.
  - apply (bool_decide_unpack _). vm_compute. done.
  - exists raw', m. split; [done|]. split; [exact E|]. by rewrite L.
Defined.
