(* ===== verification/Metrics.v ===== *)
(** * Reading a backend's Prometheus text (backend.py, the metric probes)

    The scrapes behind the goodput detector: cumulative counters with absence
    kept apart from zero, one named gauge, and the prefix-cache counters.  What
    is modelled is the reading of a 200 body; a probe that gets none answers
    [None].  The theorem shows that each counter is a function of its own
    samples, whatever the order of the lines. *)

From Stdlib Require Import Ascii QArith Qround Qminmax Lqa Lia ZArith.
From stdpp Require Import base list strings.
From S2P Require Import Prelude PyDict PyText Json.

Local Open Scope string_scope.

(** ** Text *)

(** A line boundary of [str.splitlines]. *)
Definition is_line_break (c : ascii) : bool :=
  existsb (Z.eqb (ord c)) [10; 11; 12; 13; 28; 29; 30; 133]%Z.

Fixpoint lines_from (cur : string) (s : string) : list string :=
  match s with
  | "" => if String.eqb cur "" then [] else [srev cur]
  | String c s' =>
      if is_line_break c then
        srev cur :: match s' with
                    | String d s'' => if (Ascii.eqb c "013" && Ascii.eqb d "010")%bool then lines_from "" s'' else lines_from "" s'
                    | "" => []
                    end
      else lines_from (String c cur) s'
  end.

(** [s.splitlines()] *)
Definition splitlines (s : string) : list string := lines_from "" s.

(** [s.rsplit(" ", 1)], when it has two parts. *)
Definition rsplit_space (s : string) : option (string * string) :=
  match split_once " " (srev s) with Some (val, name) => Some (srev name, srev val) | None => None end.

(** [s.partition("{")]: what is before the brace, and after it. *)
Definition partition_brace (s : string) : string * string :=
  match split_once "{" s with Some (bare, labels) => (bare, labels) | None => (s, "") end.

(** ** Floats of the exposition *)

Inductive FloatV := Finite (q : Q) | Infinity (negative : bool) | NaN.

(** The least magnitude that reads as an infinity. *)
Definition float_overflow : Q := inject_Z (2 ^ 1024 - 2 ^ 970).

(** [float(s)]; [None] where it raises. *)
Definition float_value (s : string) : option FloatV :=
  let '(sg, w) := parse_sign (lower (strip s)) in
  if String.eqb w "nan" then Some NaN
  else if (String.eqb w "inf" || String.eqb w "infinity")%bool then Some (Infinity (sg <? 0)%Z)
  else match float_of_str s with
       | Ret q => Some (if Qle_bool float_overflow q then Infinity false
                        else if Qle_bool q (- float_overflow) then Infinity true else Finite q)
       | Raise _ => None
       end.

(** [int(float(s))]; [None] where it raises. *)
Definition int_value (s : string) : option Z :=
  match float_value s with Some (Finite q) => Some (Qtrunc q) | _ => None end.

(** ** Counters *)

(** The counter a series belongs to; histograms and gauges by their full name. *)
Definition counter_key (name bare : string) : option string :=
  if startswith "vllm:prompt_tokens_total" name then Some "prompt"
  else if startswith "vllm:generation_tokens_total" name then Some "generation"
  else if String.eqb bare "vllm:iteration_tokens_total_count" then Some "iterations"
  else if String.eqb bare "vllm:num_requests_running" then Some "running"
  else if startswith "llamacpp:prompt_tokens_total" name then Some "prompt"
  else if startswith "llamacpp:n_decode_total" name then Some "generation"
  else if String.eqb bare "llamacpp:requests_processing" then Some "running"
  else None.

(** One sample of a counter: its key, its label set, its value. *)
Definition Series : Type := string * string * Z.

Definition read_series (line : string) : option Series :=
  if startswith "#" line then None
  else match rsplit_space line with
       | Some (name, val) =>
           match int_value val with
           | Some v =>
               let '(bare, labels) := partition_brace name in
               match counter_key name bare with Some key => Some (key, labels, v) | None => None end
           | None => None
           end
       | None => None
       end.

Record Scrape := mkScrape { totals : dict string Z; seen : dict string (list string); malformed : list string }.

(** [take]: a repeat of a label set, or a negative value, spoils the counter. *)
Definition take (t : Scrape) (x : Series) : Scrape :=
  let '(key, labels, v) := x in
  let spoil := mkScrape (ddel (totals t) key) (seen t) (key :: malformed t) in
  if bool_decide (key ∈ malformed t) then t
  else if (v <? 0)%Z then spoil
  else if bool_decide (labels ∈ default [] (dget (seen t) key)) then spoil
  else mkScrape (dset (totals t) key (default 0%Z (dget (totals t) key) + v)%Z)
         (dset (seen t) key (labels :: default [] (dget (seen t) key))) (malformed t).

Definition no_scrape : Scrape := mkScrape [] [] [].

Definition PROGRESS_KEYS : list string := ["prompt"; "generation"; "iterations"; "running"].

(** What the scrape answers: every key, absent or not, or nothing at all. *)
Definition scrape_counters (lines : list string) : option (dict string (option Z)) :=
  let t := foldl take no_scrape (omap read_series lines) in
  match totals t with
  | [] => None
  | _ => Some (map (fun k => (k, dget (totals t) k)) PROGRESS_KEYS)
  end.

Definition probe_progress_counters (text : string) : option (dict string (option Z)) := scrape_counters (splitlines text).

(** ** One gauge *)

(** A reading of the metric: its label set and its level, if it can be trusted. *)
Definition read_gauge (metric line : string) : option (string * option Q) :=
  if startswith "#" line then None
  else match rsplit_space line with
       | Some (name, val) =>
           let '(bare, labels) := partition_brace name in
           if negb (String.eqb bare metric) then None
           else Some (labels, match float_value val with
                              | Some (Finite q) => if Qltb q 0 then None else Some q
                              | _ => None
                              end)
       | None => None
       end.

(** The best level so far, the label sets seen, and whether the body is spoilt. *)
Definition gauge_step (s : option Q * list string * bool) (x : string * option Q) : option Q * list string * bool :=
  let '(best, labels_seen, bad) := s in
  match x with
  | (_, None) => (best, labels_seen, true)
  | (labels, Some v) =>
      if bool_decide (labels ∈ labels_seen) then (best, labels_seen, true)
      else (Some (match best with None => v | Some b => pymax b v end), labels :: labels_seen, bad)
  end.

Definition probe_busy_gauge (metric text : string) : option Q :=
  let '(best, _, bad) := foldl gauge_step (None, [], false) (omap (read_gauge metric) (splitlines text)) in
  if bad then None else best.

(** ** The prefix cache *)

(** The value of a line, read as [int(float(val))]: a value that is no number is
    skipped, an infinite one raises past the loop. *)
Fixpoint prefix_cache_scan (hits queries : option Z) (lines : list string) : option (option Z * option Z) :=
  match lines with
  | [] => Some (hits, queries)
  | line :: rest =>
      if (startswith "#" line || negb (contains "prefix_cache" line))%bool then prefix_cache_scan hits queries rest
      else match rsplit_space line with
           | None => prefix_cache_scan hits queries rest
           | Some (name, val) =>
               match float_value val with
               | Some (Infinity _) => None
               | Some (Finite q) =>
                   let v := Some (Qtrunc q) in
                   if startswith "vllm:prefix_cache_hits_total" name then prefix_cache_scan v queries rest
                   else if startswith "vllm:prefix_cache_queries_total" name then prefix_cache_scan hits v rest
                   else prefix_cache_scan hits queries rest
               | _ => prefix_cache_scan hits queries rest
               end
           end
  end.

Definition probe_prefix_cache (text : string) : option (Z * Z) :=
  match prefix_cache_scan None None (splitlines text) with
  | Some (Some hits, Some queries) => Some (hits, queries)
  | _ => None
  end.

(** ** What a scrape says *)

(** The samples of one counter, in order. *)
Definition samples_of (key : string) (l : list Series) : list (string * Z) :=
  omap (fun x => if String.eqb x.1.1 key then Some (x.1.2, x.2) else None) l.

Definition zsum_of (l : list (string * Z)) : Z := foldr (fun x acc => x.2 + acc)%Z 0%Z l.

(** Samples that cannot be believed: a negative one, or two of one series. *)
Definition spoilt (l : list (string * Z)) : Prop := Exists (fun x => x.2 < 0)%Z l \/ ~ NoDup (map fst l).

#[global] Instance spoilt_dec l : Decision (spoilt l).
Proof. unfold spoilt. apply _. Defined.

(** The level of a counter: the sum over its distinct series, and absence, which
    is not zero, when there is none or when they cannot be believed. *)
Definition counter_level (l : list (string * Z)) : option Z :=
  if decide (spoilt l) then None else match l with [] => None | _ => Some (zsum_of l) end.

Lemma samples_snoc key l x : samples_of key (l ++ [x]) =
  (samples_of key l ++ if String.eqb x.1.1 key then [(x.1.2, x.2)] else [])%list.
Proof. unfold samples_of. rewrite omap_app. simpl. by destruct (String.eqb _ _). Qed.

Lemma zsum_snoc l x : zsum_of (l ++ [x]) = (zsum_of l + x.2)%Z.
Proof. unfold zsum_of. induction l as [|y l IH]; simpl; [lia|]. rewrite IH. lia. Qed.

Lemma NoDup_snoc {A} (l : list A) x : NoDup (l ++ [x]) <-> NoDup l /\ x ∉ l.
Proof.
  rewrite NoDup_app. split.
  - intros (H1 & H2 & _). split; [done|]. intros I. apply (H2 x I). by left.
  - intros [H1 H2]. split_and!; [done| |apply NoDup_singleton]. by intros y Hy ->%list_elem_of_singleton.
Qed.

Lemma spoilt_snoc l x : spoilt (l ++ [x]) <-> spoilt l \/ (x.2 < 0)%Z \/ x.1 ∈ map fst l.
Proof.
  unfold spoilt. rewrite Exists_app, Exists_cons, Exists_nil, map_app; cbn [map]; rewrite NoDup_snoc.
  destruct (decide (NoDup (map fst l))), (decide (x.1 ∈ map fst l)); naive_solver.
Qed.

(** What a scrape holds after the series [l]. *)
Definition scraped (l : list Series) (t : Scrape) : Prop :=
  dwf (totals t) /\ forall key,
    (key ∈ malformed t <-> spoilt (samples_of key l))
    /\ dget (totals t) key = counter_level (samples_of key l)
    /\ (~ spoilt (samples_of key l) -> forall lab, lab ∈ default [] (dget (seen t) key) <-> lab ∈ map fst (samples_of key l)).

Lemma scraped_nil : scraped [] no_scrape.
Proof.
  split; [apply dwf_nil|]. intros key. cbn. split_and!; [|done|done].
  split; [by intros ?%not_elem_of_nil|]. intros [H|H]; [by apply Exists_nil in H|by destruct (H (NoDup_nil_2))].
Qed.

Lemma level_snoc l x : counter_level (l ++ [x]) =
  if decide (spoilt (l ++ [x])) then None else Some (zsum_of l + x.2)%Z.
Proof. unfold counter_level. case_decide; [done|]. rewrite zsum_snoc. by destruct l. Qed.

Lemma level_default l : ~ spoilt l -> default 0%Z (counter_level l) = zsum_of l.
Proof. intros N. unfold counter_level. rewrite decide_False by done. by destruct l. Qed.

(** A sample that spoils its counter leaves it absent, and the others alone. *)
Lemma scraped_spoil l t key lab v : scraped l t -> ((v < 0)%Z \/ lab ∈ map fst (samples_of key l)) ->
  scraped (l ++ [(key, lab, v)]) (mkScrape (ddel (totals t) key) (seen t) (key :: malformed t)).
Proof.
  intros [W H] B. split; [by apply dwf_ddel|]. intros k. rewrite samples_snoc. cbn [fst snd totals malformed seen].
  destruct (H k) as (H1 & H2 & H3). rewrite dget_ddel, elem_of_cons by done.
  destruct (String.eqb_spec key k) as [->|N].
  - assert (S : spoilt (samples_of k l ++ [(lab, v)])) by (apply spoilt_snoc; by right).
    rewrite level_snoc, !decide_True by done. split; [by split; [|left]|]. split; [done|]. by intros.
  - rewrite app_nil_r, decide_False by done. split_and!; [|done|done]. rewrite <- H1. split; [by intros [->|?]|by right].
Qed.

Lemma scraped_take l t x : scraped l t -> scraped (l ++ [x]) (take t x).
Proof.
  destruct x as [[key lab] v]. intros HS. pose proof HS as [W H]. unfold take.
  destruct (H key) as (H1 & H2 & H3).
  destruct (bool_decide_reflect (key ∈ malformed t)) as [M|M].
  { split; [done|]. intros k. rewrite samples_snoc. cbn [fst snd]. destruct (String.eqb_spec key k) as [<-|N].
    - assert (S : spoilt (samples_of key l ++ [(lab, v)])) by (apply spoilt_snoc; left; by apply H1).
      rewrite H2, level_snoc. unfold counter_level. rewrite !decide_True by (done || by apply H1).
      split; [by split|]. split; [done|]. by intros.
    - rewrite app_nil_r. apply H. }
  assert (NS : ~ spoilt (samples_of key l)) by by rewrite <- H1.
  destruct (Z.ltb_spec v 0) as [V|V]; [apply scraped_spoil; [done|by left]|].
  destruct (bool_decide_reflect (lab ∈ default [] (dget (seen t) key))) as [L|L];
    [apply scraped_spoil; [done|right; by apply H3]|].
  assert (NS' : ~ spoilt (samples_of key l ++ [(lab, v)])).
  { rewrite spoilt_snoc. cbn [fst snd]. rewrite <- (H3 NS). intros [?|[?|?]]; [done|lia|done]. }
  split; [by apply dwf_dset|]. intros k. rewrite samples_snoc. cbn [fst snd totals malformed seen].
  rewrite !dget_dset. destruct (String.eqb_spec key k) as [<-|N].
  - rewrite !decide_True by done. rewrite level_snoc, decide_False, H2, level_default by done.
    split; [by split; [intros ?%M|intros ?%NS']|]. split; [done|]. intros _ x. cbn [default from_option id].
    rewrite elem_of_cons, (H3 NS), map_app, elem_of_app. cbn [map fst]. rewrite list_elem_of_singleton. tauto.
  - rewrite app_nil_r, !decide_False by done. apply H.
Qed.

Lemma scraped_all l : scraped l (foldl take no_scrape l).
Proof. induction l as [|x l IH] using rev_ind; [apply scraped_nil|]. rewrite foldl_app. by apply scraped_take. Qed.

(** A counter's level does not depend on the order of its samples. *)
Lemma spoilt_perm l l' : l ≡ₚ l' -> spoilt l <-> spoilt l'.
Proof. intros P. unfold spoilt. by rewrite P. Qed.

Lemma zsum_perm l l' : l ≡ₚ l' -> zsum_of l = zsum_of l'.
Proof. unfold zsum_of. induction 1; simpl; lia. Qed.

Lemma level_perm l l' : l ≡ₚ l' -> counter_level l = counter_level l'.
Proof.
  intros P. unfold counter_level. pose proof (spoilt_perm l l' P) as S.
  pose proof (zsum_perm l l' P) as Z.
  destruct (decide (spoilt l)), (decide (spoilt l')); try tauto.
  rewrite Z. destruct l as [|x l]; [by apply Permutation_nil in P as ->|].
  destruct l' as [|y l']; [by apply symmetry, Permutation_nil in P|done].
Qed.

(** What the scrape of a body answers for a counter is a function of that
    counter's own samples: their sum over distinct series, and absence when
    there is no sample, when one is negative, or when a series repeats.  It
    depends neither on the order of the lines nor on the lines of any other
    counter, and the whole answer is absent exactly when every counter is. *)
Theorem counters_by_sample lines lines' :
  lines ≡ₚ lines' ->
  let level k := counter_level (samples_of k (omap read_series lines)) in
  match scrape_counters lines with
  | Some d => forall k, k ∈ PROGRESS_KEYS -> dget d k = Some (level k)
  | None => forall k, level k = None
  end /\ scrape_counters lines' = scrape_counters lines.
Proof.
  intros P level. unfold scrape_counters. set (L := omap read_series lines). set (L' := omap read_series lines').
  assert (PL : L ≡ₚ L') by by apply omap_Permutation.
  destruct (scraped_all L) as [_ H], (scraped_all L') as [_ H'].
  assert (E : forall k, dget (totals (foldl take no_scrape L')) k = dget (totals (foldl take no_scrape L)) k).
  { intros k. rewrite (proj1 (proj2 (H k))), (proj1 (proj2 (H' k))). apply level_perm.
    unfold samples_of. by apply omap_Permutation. }
  assert (N : forall d : dict string Z, (forall k, dget d k = None) -> d = []).
  { intros [|[k v] d] Hd; [done|]. specialize (Hd k). simpl in Hd. by rewrite decide_True in Hd. }
  set (t := totals (foldl take no_scrape L)) in *. set (t' := totals (foldl take no_scrape L')) in *.
  assert (Lv : forall k, dget t k = level k) by (intros; apply H).
  split.
  - destruct t as [|kv t0] eqn:Et; [intros k; by rewrite <- Lv|]. rewrite <- Et in *. intros k Hk. rewrite <- Lv.
    unfold PROGRESS_KEYS in *. rewrite !elem_of_cons, elem_of_nil in Hk. destruct_or? Hk; subst k; done.
  - destruct t as [|kv t0] eqn:Et.
    + assert (t' = []) as -> by (apply N; intros; by rewrite E). done.
    + rewrite <- Et in *. assert (t' <> []) by (intros Et'; destruct kv as [k v]; specialize (E k);
        rewrite Et, Et' in E; simpl in E; by rewrite decide_True in E).
      destruct t' eqn:Et'; [done|]. rewrite <- Et' in *. f_equal. apply map_ext. intros k. by rewrite E.
Qed.

(** Two engines of a data-parallel server, and a gauge printed twice. *)
Definition demo_scrape : list string :=
  ["vllm:generation_tokens_total{engine=0} 10.0"; "vllm:num_requests_running{engine=0} 6";
   "vllm:generation_tokens_total{engine=1} 5.0"; "vllm:num_requests_running{engine=0} 6"; "vllm:prompt_tokens_total NaN"].

Lemma counters_by_sample_witness :
  scrape_counters (rev demo_scrape) = Some [("prompt", None); ("generation", Some 15%Z); ("iterations", None); ("running", None)].
Proof.
  destruct (counters_by_sample demo_scrape (rev demo_scrape)) as [_ ->]; [apply Permutation_rev|]. vm_compute. reflexivity.
Defined.
