(* ===== verification/Backend.v ===== *)
(** * Calls to a backend (backend.py)

    The last hop of every dispatch: the payload put on the wire, the answer of
    the transport turned into a response or a typed failure, the relay of a
    stream, and the call that streams so as to be able to stop.  The transport
    is a parameter: what a request was answered is an [HttpAnswer], what a
    stream brought is its lines and how it ended.  The state is the tallies of
    the thinking-switch and trace repairs; a failing call keeps them. *)

From Stdlib Require Import Ascii QArith Lia ZArith.
From stdpp Require Import base list strings.
From S2P Require Import Prelude PyDict PyText Config Json ThinkSwitch ThinkBleed ThinkStats Cost Queue JsonRead Intent ToolStream Degen Effort Forced Correct Payload Provider.

Local Open Scope string_scope.

(** ** Counts *)

Definition extract_cached_tokens (usage : json) : option Z :=
  match usage with
  | JDict u =>
      let candidate :=
        match jget u "prompt_tokens_details" with
        | JDict details => if dmem details "cached_tokens" then Some (jget details "cached_tokens")
                           else dget u "cached_tokens"
        | _ => dget u "cached_tokens"
        end in
      match candidate with
      | Some (JInt n) => if (0 <=? n)%Z then Some n else None
      | Some (JFloat _ q) => if (0 <=? Qtrunc q)%Z then Some (Qtrunc q) else None
      | _ => None
      end
  | _ => None
  end.

Definition coerce_token_count (candidate : json) (default : Z) : Z :=
  match candidate with
  | JInt n => if (0 <=? n)%Z then n else default
  | JFloat _ q => if (0 <=? Qtrunc q)%Z then Qtrunc q else default
  | _ => default
  end.

(** ** Failures *)

Record BackendResponse := mkResponse {
  br_status_code : Z;
  br_body : json;
  br_duration_s : Q;
  br_input_tokens : Z;
  br_output_tokens : Z;
  br_finish_reason : json;
  br_cached_tokens : option Z
}.

(** [StructuredBlankRunAborted] *)
Record Aborted := mkAborted {
  ab_body_so_far : dict string json;
  ab_verdict : BlankVerdict;
  ab_input_tokens : Z;
  ab_output_tokens : Z
}.

Inductive CallFailure :=
| CallError (status : Z) (detail : string)
| CallTimeout (detail : string)
| CallUnavailable (detail : string)
| CallAborted (a : Aborted)
| CallFault (e : PyErr).

(** A call over the tallies it updates. *)
Definition BM (A : Type) : Type := ThinkBleedStats -> (CallFailure + A) * ThinkBleedStats.

#[global] Instance bm_ret : MRet BM := fun A a s => (inr a, s).
#[global] Instance bm_bind : MBind BM := fun A B f m s =>
  match m s with
  | (inr a, s') => f a s'
  | (inl e, s') => (inl e, s')
  end.

Definition throw {A} (e : CallFailure) : BM A := fun s => (inl e, s).
Definition tally (f : ThinkBleedStats -> ThinkBleedStats) : BM unit := fun s => (inr tt, f s).
Definition of_res {A} (x : res A) : BM A := match x with Ret a => mret a | Raise e => throw (CallFault e) end.

(** [content], the text so far of an aborted call. *)
Definition aborted_content (a : Aborted) : json :=
  match first_message (ab_body_so_far a) with
  | Ret msg => let c := jget msg "content" in if truthy c then c else JStr ""
  | Raise _ => JStr ""
  end.

(** [x.strip()] of a value about to be read as a text. *)
Definition strip_of (j : json) : res string :=
  if truthy j then match j with JStr s => Ret (strip s) | _ => Raise AttributeError end else Ret "".

(** The empty-completion gate: the refusal of an answer with nothing in it. *)
Definition empty_completion_error (role : string) (msg : dict string json) (finish_reason : json) (output_tokens : Z)
  : res (option CallFailure) :=
  c ← strip_of (jget msg "content");
  if (negb (String.eqb c "") || truthy (jget msg "tool_calls"))%bool then Ret None
  else
    let reasoning := if truthy (jget msg "reasoning") then jget msg "reasoning" else jget msg "reasoning_content" in
    r ← strip_of reasoning;
    if (negb (String.eqb r "") && text_is finish_reason "length")%bool then
      Ret (Some (CallError 502 ("backend " ++ role ++ " spent its ENTIRE " ++ str_of_Z output_tokens
        ++ "-token budget on REASONING and never reached content (" ++ str_of_Z (slen (py_str reasoning))
        ++ " chars of reasoning, finish_reason=length). This is a token-budget problem, NOT a broken model: raise max_tokens (reasoning is additive to the answer), or use the proxy's `thinking: <tokens>` opt-in which adds that much reasoning budget for you, or turn reasoning off with the chat_template_kwargs key THIS model reads — `thinking` for DeepSeek-V4, `enable_thinking` for Qwen (models.yaml policy.thinking_kwargs); the other family's key is a silent no-op.")))
    else
      Ret (Some (CallError 502 ("backend " ++ role ++ " returned empty completion (no content, output_tokens="
        ++ str_of_Z output_tokens ++ ", finish_reason=" ++ py_repr finish_reason ++ ")"))).

(** ** Endpoints as the last hop sees them *)

Record WireConfig := mkWire {
  wi_role : string;
  wi_class : string;
  wi_engine : string;
  wi_api_key_env : string;
  wi_capabilities : list string;
  wi_no_thinking_switch : bool;
  wi_repair_close_only : bool;
  wi_forces_reasoning : bool;
  wi_args : PrepareArgs
}.

Definition wi_name (ep : WireConfig) : string := if String.eqb (wi_class ep) "" then wi_role ep else wi_class ep.

Definition provider_for (ep : WireConfig) : Engine := provider_for_engine (wi_engine ep).

Definition _repairs_bleed (ep : WireConfig) (payload_type : string) : bool :=
  (String.eqb payload_type "chat_completion" && bool_decide ("reasoning" ∈ wi_capabilities ep))%bool.

Definition is_false (j : json) : bool := match j with JBool b => negb b | _ => false end.

Definition _thinking_switched_off (p : dict string json) : bool :=
  existsb (fun n => is_false (jget (template_kwargs p) n)) _THINKING_KWARG_NAMES.

Definition _close_only_expected (ep : WireConfig) (p : dict string json) (stream : bool) : bool :=
  if _thinking_switched_off p then false
  else if stream then wi_repair_close_only ep
  else (wi_repair_close_only ep || wi_forces_reasoning ep)%bool.

(** The switch in the form this endpoint reads. *)
Definition _canonical_switch (ep : WireConfig) (now : Q) (p : dict string json) : BM (dict string json) :=
  let as_dict j := match j with JDict d => d | _ => p end in
  if wi_no_thinking_switch ep then
    let '(out, found) := strip_thinking_switch (JDict p) in
    _ ← (match found with [] => mret tt | _ => tally (fun s => (note_stripped (wi_name ep) found now s).2) end);
    mret (as_dict out)
  else match pa_thinking_kwargs (wi_args ep) with
       | [] => mret p
       | declared =>
           let '(out, found) := rename_thinking_switch (JDict p) declared in
           _ ← (match found with [] => mret tt | _ => tally (fun s => (note_renamed (wi_name ep) found now s).2) end);
           mret (as_dict out)
       end.

(** ** The wire request *)

Record WireRequest := mkWireRequest { wr_path : string; wr_headers : dict string string; wr_payload : dict string json }.

Section Calls.
(** [repr] of a float, [os.environ] and the wall clock of a log line. *)
Context (float_text : string -> string) (environ : string -> option string) (now : Q).

(** A provider's refusal is a 400 of this pairing, not a fault of the backend. *)
Definition refused (ep : WireConfig) {A} (m : PR A) : BM A :=
  match m with
  | Fine a => mret a
  | Refused (UnsupportedRequest why) | Refused (ProviderMisconfigured why) =>
      throw (CallError 400 ("backend " ++ wi_role ep ++ " (" ++ pd_name (descriptor (provider_for ep)) ++ "): " ++ why))
  | Refused (PyFault e) => throw (CallFault e)
  end.

Definition wire_request (ep : WireConfig) (p : dict string json) (payload_type request_id : string) : BM WireRequest :=
  path ← refused ep (path_for (provider_for ep) payload_type);
  headers ← refused ep (request_headers environ (provider_for ep) (wi_role ep) (wi_api_key_env ep) request_id);
  if String.eqb payload_type "chat_completion" then
    p ← _canonical_switch ep now p;
    p ← refused ep (prepare_chat_payload (provider_for ep) (wi_args ep) p);
    mret (mkWireRequest path headers p)
  else mret (mkWireRequest path headers p).

(** ** A plain call *)

(** The read deadline given to the transport. *)
Definition _TRANSPORT_READ_MARGIN_S : Q := 30.
Definition _transport_timeout (timeout_s : Q) : Q := pymax 600 (timeout_s + _TRANSPORT_READ_MARGIN_S).

Inductive TransportFault := TimeoutError | ConnectError (exc : string) | PoolTimeout (exc : string)
                          | RemoteProtocolError (exc : string) | HTTPError (exc : string).

Inductive HttpAnswer :=
| NoAnswer (f : TransportFault)
| HttpResponse (status_code : Z) (text : string) (duration_s : Q).

Definition call_failure (ep : WireConfig) (timeout_text : string) (f : TransportFault) : CallFailure :=
  let b := "backend " ++ wi_role ep in
  match f with
  | TimeoutError => CallTimeout (b ++ " timeout after " ++ timeout_text ++ "s")
  | ConnectError exc => CallUnavailable (b ++ " unreachable: " ++ exc)
  | PoolTimeout exc => CallUnavailable (b ++ " connection pool exhausted: " ++ exc)
  | RemoteProtocolError exc => CallUnavailable (b ++ " disconnected: " ++ exc)
  | HTTPError exc => CallError 502 (b ++ " http error: " ++ exc)
  end.

(** [resp.json()], or the raw text. *)
Definition body_of (text : string) : json := default (JDict [("raw", JStr (stake 2000 text))]) (loads float_text text).

(** [body.get(k)] of a body that may not be an object. *)
Definition body_get (body : json) (k : string) : res json :=
  match body with JDict d => Ret (jget d k) | _ => Raise AttributeError end.

(** The two counts of a usage block. *)
Definition usage_tokens (usage : json) : res (Z * Z) :=
  if truthy usage then
    match usage with
    | JDict u => Ret (coerce_token_count (jget u "prompt_tokens") 0, coerce_token_count (jget u "completion_tokens") 0)
    | _ => Raise AttributeError
    end
  else Ret (0, 0)%Z.

Definition repair_answer (ep : WireConfig) (wire : dict string json) (body : json) : BM json :=
  let '(body, fixed) := repair_body body (_close_only_expected ep wire false)
                          (default_reasoning_key (pd_name (descriptor (provider_for ep)))) in
  _ ← (match fixed with
       | Some (shape, _, _) => tally (fun s => (note_repaired (wi_name ep) shape false now s).2)
       | None => mret tt
       end);
  mret body.

(** The choice and the message an answer is judged by. *)
Definition judged_message (body : json) : res (dict string json * dict string json) :=
  match body with
  | JDict d =>
      c ← Forced.first_choice d (JDict []);
      c ← or_dict c;
      m ← or_dict (jget c "message");
      Ret (c, m)
  | _ => Raise AttributeError
  end.

(** What the body of a 2xx answer becomes. *)
Definition accept_body (ep : WireConfig) (wire : dict string json) (payload_type : string) (status : Z) (body : json) (duration : Q)
  : BM BackendResponse :=
  usage ← of_res (body_get body "usage");
  let cached := extract_cached_tokens usage in
  tokens ← of_res (usage_tokens usage);
  let '(tin, tout) := (tokens : Z * Z) in
  if String.eqb payload_type "chat_completion" then
    body ← (if _repairs_bleed ep payload_type then repair_answer ep wire body else mret body);
    cm ← of_res (judged_message body);
    let '(choice, msg) := (cm : dict string json * dict string json) in
    let finish := jget choice "finish_reason" in
    err ← of_res (empty_completion_error (wi_role ep) msg finish tout);
    match err with
    | Some e => throw e
    | None => mret (mkResponse status body duration tin tout finish cached)
    end
  else mret (mkResponse status body duration tin tout JNull cached).

Definition call (ep : WireConfig) (p : dict string json) (payload_type request_id : string) (timeout_text : string)
    (post : WireRequest -> HttpAnswer) : BM BackendResponse :=
  w ← wire_request ep p payload_type request_id;
  match post w with
  | NoAnswer f => throw (call_failure ep timeout_text f)
  | HttpResponse status text duration =>
      if (400 <=? status)%Z then throw (CallError status (stake 500 text))
      else accept_body ep (wr_payload w) payload_type status (body_of text) duration
  end.

(** ** Streams *)

Inductive StreamEvent := EvChunk (data : string) (parsed : option json) | EvHold | EvDone (data : string).

(** What a stream brought: a refusal, or its lines and how they ended. *)
Inductive StreamEnd := Closed | Broken (f : TransportFault) | DeadlineFired.
Inductive StreamAnswer := StreamRefused (status : Z) (text : string) | NoStream (f : TransportFault)
                        | StreamOpen (lines : list string) (ending : StreamEnd).

Definition stream_failure (ep : WireConfig) (timeout_text : string) (f : TransportFault) : CallFailure :=
  let b := "backend " ++ wi_role ep in
  match f with
  | TimeoutError => CallTimeout (b ++ " stream timeout after " ++ timeout_text ++ "s")
  | ConnectError exc => CallUnavailable (b ++ " unreachable: " ++ exc)
  | PoolTimeout exc => CallUnavailable (b ++ " connection pool exhausted: " ++ exc)
  | RemoteProtocolError exc => CallUnavailable (b ++ " disconnected mid-stream: " ++ exc)
  | HTTPError exc => CallError 502 (b ++ " stream http error: " ++ exc)
  end.

(** The generator between two lines: the repair, if any, and the bytes seen. *)
Record Relay := mkRelay { ry_repair : option StreamRepair; ry_seen : Z }.

Definition start_relay (ep : WireConfig) (wire : dict string json) (payload_type : string) : Relay :=
  mkRelay (if _repairs_bleed ep payload_type
           then Some (StreamRepair_init (_close_only_expected ep wire true)
                        (default_reasoning_key (pd_name (descriptor (provider_for ep)))) HOLD_LIMIT_CHARS)
           else None) 0.

Definition chunk_of (f : Frame) : StreamEvent := EvChunk f.2 (Some f.1).

(** The events of one chunk. *)
Definition _relay (parsed : option json) (data : string) (repair : option StreamRepair)
  : res (list StreamEvent) * option StreamRepair :=
  match repair, parsed with
  | Some s, Some (JDict p) =>
      let '(out, s) := ThinkBleed.feed (JDict p) data s in
      (match out with
       | Ret [] => Ret [EvHold]
       | Ret frames => Ret (map chunk_of frames)
       | Raise e => Raise e
       end, Some s)
  | _, _ => (Ret [EvChunk data parsed], repair)
  end.

(** What is still held, and the repair after it. *)
Definition release (repair : option StreamRepair) : list StreamEvent * option StreamRepair :=
  match repair with
  | Some s => let '(fs, s) := ThinkBleed.finish s in (map chunk_of fs, Some s)
  | None => ([], None)
  end.

(** The length of a line in UTF-8. *)
Definition utf8_len (s : string) : Z :=
  foldr (fun c n => (n + if (ord c <? 128)%Z then 1 else 2)%Z) 0%Z (String.list_ascii_of_string s).

(** How a line ends the relay, if it does. *)
Inductive LineEnd := GoOn | StreamDone | LineFailed (f : CallFailure).

Definition relay_line (ep : WireConfig) (cap : Z) (line : string) (y : Relay) : list StreamEvent * Relay * LineEnd :=
  let bytes := (ry_seen y + utf8_len line + 1)%Z in
  let y := mkRelay (ry_repair y) bytes in
  if (cap <? bytes)%Z
  then ([], y, LineFailed (CallError 502 ("backend " ++ wi_role ep ++ " streamed response exceeded the " ++ str_of_Z cap
          ++ "-byte cap (ROADSTEAD_MAX_RESPONSE_BYTES) — aborted rather than buffered without bound")))
  else
    let line := strip line in
    if startswith "data: " line then
      let data := sdrop 6 line in
      if String.eqb data "[DONE]" then
        let '(held, r) := release (ry_repair y) in
        (held ++ [EvDone data], mkRelay r bytes, StreamDone)%list
      else
        match _relay (loads float_text data) data (ry_repair y) with
        | (Ret evs, r) => (evs, mkRelay r bytes, GoOn)
        | (Raise e, r) => ([], mkRelay r bytes, LineFailed (CallFault e))
        end
    else ([], y, GoOn).

(** The reader of a stream stops when [step] answers [inr]. *)
Fixpoint consume {A R} (step : A -> StreamEvent -> A + R) (evs : list StreamEvent) (a : A) : A + R :=
  match evs with
  | [] => inl a
  | e :: evs => match step a e with inl a => consume step evs a | inr r => inr r end
  end.

(** How reading a stream ended: run dry, stopped by the reader, failed, or cut
    by the reader's own deadline. *)
Inductive Pulled (A R : Type) :=
| Exhausted (a : A)
| Stopped (r : R)
| Failed (a : A) (f : CallFailure)
| TimedOut (a : A).
#[global] Arguments Exhausted {A R} a.
#[global] Arguments Stopped {A R} r.
#[global] Arguments Failed {A R} a f.
#[global] Arguments TimedOut {A R} a.

(** What is left of the stream once a reader has taken [evs]. *)
Definition after {A R} (step : A -> StreamEvent -> A + R) (evs : list StreamEvent) (a : A) (ended : A -> Pulled A R) : Pulled A R :=
  match consume step evs a with inl a => ended a | inr r => Stopped r end.

Fixpoint pull {A R} (step : A -> StreamEvent -> A + R) (ep : WireConfig) (cap : Z) (timeout_text : string)
    (ending : StreamEnd) (lines : list string) (y : Relay) (a : A) : Pulled A R * Relay :=
  match lines with
  | [] =>
      match ending with
      | Closed =>
          let '(held, r) := release (ry_repair y) in
          (after step held a Exhausted, mkRelay r (ry_seen y))
      | Broken f => (Failed a (stream_failure ep timeout_text f), y)
      | DeadlineFired => (TimedOut a, y)
      end
  | line :: lines =>
      let '(evs, y, e) := relay_line ep cap line y in
      match consume step evs a with
      | inr r => (Stopped r, y)
      | inl a =>
          match e with
          | GoOn => pull step ep cap timeout_text ending lines y a
          | StreamDone =>
              let '(held, r) := release (ry_repair y) in
              (after step held a Exhausted, mkRelay r (ry_seen y))
          | LineFailed f => (Failed a f, y)
          end
      end
  end.

(** The [finally] of the generator: a repaired stream counts however it ended. *)
Definition note_relay (ep : WireConfig) (y : Relay) : BM unit :=
  match ry_repair y with
  | Some s => if repaired s then tally (fun t => (note_repaired (wi_name ep) (default "?" (sr_shape s)) true now t).2) else mret tt
  | None => mret tt
  end.

Definition DEFAULT_MAX_RESPONSE_BYTES : Z := 64 * 1024 * 1024.
Definition max_response_bytes_from_env : Z :=
  match environ "ROADSTEAD_MAX_RESPONSE_BYTES" with
  | None => Z.max 1 DEFAULT_MAX_RESPONSE_BYTES
  | Some v => match int_of_str v with Some n => Z.max 1 n | None => DEFAULT_MAX_RESPONSE_BYTES end
  end.

(** A stream read by [step] from [a]. *)
Definition stream_with {A R} (step : A -> StreamEvent -> A + R) (a : A) (ep : WireConfig) (p : dict string json)
    (payload_type request_id timeout_text : string) (open : WireRequest -> StreamAnswer) : BM (Pulled A R) :=
  w ← wire_request ep p payload_type request_id;
  let start := start_relay ep (wr_payload w) payload_type in
  match open w with
  | NoStream f => mret (Failed a (stream_failure ep timeout_text f))
  | StreamRefused status text => mret (Failed a (CallError status (stake 500 text)))
  | StreamOpen lines ending =>
      let '(out, y) := pull step ep max_response_bytes_from_env timeout_text ending lines start a in
      _ ← note_relay ep y;
      mret out
  end.

(** Every event, for a reader that never stops. *)
Definition keep (evs : list StreamEvent) (e : StreamEvent) : list StreamEvent + False := inl (evs ++ [e])%list.

Definition stream (ep : WireConfig) (p : dict string json) (payload_type request_id timeout_text : string)
    (open : WireRequest -> StreamAnswer) : BM (Pulled (list StreamEvent) False) :=
  stream_with keep [] ep p payload_type request_id timeout_text open.
End Calls.

(** The proxy's reading of a failure, as the re-dispatch sees it. *)
Definition as_exc (f : CallFailure) : BackendExc :=
  match f with
  | CallError status detail => BackendError (Some status) detail
  | CallTimeout _ => BackendTimeout
  | CallUnavailable _ => BackendUnavailable
  | _ => OtherExc
  end.
