(* ===== verification/BackendProps.v ===== *)
(** * What a call brings back

    No answer without content passes a plain call ([call_never_empty]); an
    endpoint that declares no thinking switch is sent none
    ([no_switch_reaches_unswitchable]); a stream that is not repaired is
    relayed as it came, under the cap on its size ([stream_is_verbatim]). *)

From Stdlib Require Import Ascii QArith Lia ZArith.
From stdpp Require Import base list strings.
From S2P Require Import Prelude PyDict PyText Config Json ThinkSwitch ThinkBleed ThinkStats Cost Queue JsonRead ToolStream Degen Effort EffortProps Forced ForcedProps Correct Payload Provider ProviderProps Backend.

Local Open Scope string_scope.

(** ** Monad steps *)

Lemma bm_bind_inr {A B} (m : BM A) (f : A -> BM B) s b s' :
  (m ≫= f) s = (inr b, s') -> exists a s1, m s = (inr a, s1) /\ f a s1 = (inr b, s').
Proof. unfold mbind, bm_bind. destruct (m s) as [[e|a] s1]; [discriminate|eauto]. Qed.

Lemma of_res_inr {A} (x : res A) s a s' : of_res x s = (inr a, s') -> x = Ret a /\ s' = s.
Proof. destruct x; intros H; inversion H; done. Qed.

Lemma refused_inr ep {A} (m : PR A) s a s' : refused ep m s = (inr a, s') -> m = Fine a /\ s' = s.
Proof. unfold refused. destruct m as [|[]]; intros H; inversion H; done. Qed.

(** Takes one successful step of a [BM] computation. *)
Ltac step_inr H a s1 E := apply bm_bind_inr in H as (a & s1 & E & H).

(** ** The gate *)

Definition has_answer (msg : dict string json) : Prop :=
  (exists c, jget msg "content" = JStr c /\ strip c <> "") \/ truthy (jget msg "tool_calls") = true.

Lemma strip_of_Ret j s : strip_of j = Ret s -> (exists c, j = JStr c /\ s = strip c) \/ s = "".
Proof.
  unfold strip_of. destruct (truthy j); [|intros [= <-]; by right].
  destruct j; try discriminate. intros [= <-]. left. eauto.
Qed.

Lemma gate_passes role msg fin n : empty_completion_error role msg fin n = Ret None -> has_answer msg.
Proof.
  unfold empty_completion_error. intros (c & HC & H)%res_bind_Ret.
  destruct (String.eqb_spec c "") as [->|N]; cbn [negb orb] in H.
  - destruct (truthy (jget msg "tool_calls")) eqn:T; [by right|]. apply res_bind_Ret in H as (r & _ & H). by case_match.
  - left. destruct (strip_of_Ret _ _ HC) as [(c' & E & ->)| ->]; [eauto|done].
Qed.

Lemma coerce_nonneg j d : (0 <= d)%Z -> (0 <= coerce_token_count j d)%Z.
Proof. intros D. destruct j; simpl; try done; case_match; lia. Qed.

Lemma cached_nonneg u n : extract_cached_tokens u = Some n -> (0 <= n)%Z.
Proof.
  assert (F : forall c : option json, match c with Some (JInt n) => if (0 <=? n)%Z then Some n else None
    | Some (JFloat _ q) => if (0 <=? Qtrunc q)%Z then Some (Qtrunc q) else None | _ => None end = Some n -> (0 <= n)%Z).
  { intros [[]|]; try discriminate; case_match; intros [= <-]; lia. }
  unfold extract_cached_tokens. destruct u; try discriminate. apply F.
Qed.

Lemma usage_nonneg u a b : usage_tokens u = Ret (a, b) -> (0 <= a)%Z /\ (0 <= b)%Z.
Proof.
  unfold usage_tokens. destruct (truthy u); [|by intros [= <- <-]].
  destruct u; try discriminate. intros [= <- <-]. split; by apply coerce_nonneg.
Qed.

Lemma accept_body_answer now ep wire status body duration s r s' :
  accept_body now ep wire "chat_completion" status body duration s = (inr r, s') ->
  (exists choice msg, judged_message (br_body r) = Ret (choice, msg) /\ has_answer msg
                      /\ br_finish_reason r = jget choice "finish_reason")
  /\ br_status_code r = status /\ (0 <= br_input_tokens r)%Z /\ (0 <= br_output_tokens r)%Z
  /\ (forall n, br_cached_tokens r = Some n -> (0 <= n)%Z).
Proof.
  unfold accept_body. intros H. step_inr H usage s1 E1. apply of_res_inr in E1 as [_ ->].
  step_inr H tokens s1 E2. apply of_res_inr in E2 as [E2 ->]. destruct tokens as [tin tout]. apply usage_nonneg in E2 as [I O].
  rewrite String.eqb_refl in H. step_inr H body' s1 E3.
  step_inr H cm s2 E4. apply of_res_inr in E4 as [E4 ->]. destruct cm as [choice msg].
  step_inr H err s2 E5. apply of_res_inr in E5 as [E5 ->]. destruct err as [e|]; [discriminate|]. injection H as <- _.
  cbn. split; [exists choice, msg; split; [done|]; split; [by eapply gate_passes|done]|].
  split; [done|]. split; [done|]. split; [done|]. apply cached_nonneg.
Qed.

(** C22 A plain call never passes an answer with nothing in it.  Whatever the
    backend sent, a response handed on was a status below 400, its first choice
    carries a text that is not blank or tool calls, the finish reason it reports
    is that choice's, and no count in it is negative. *)
Theorem call_never_empty float_text environ now ep p request_id timeout_text post s r s' :
  call float_text environ now ep p "chat_completion" request_id timeout_text post s = (inr r, s') ->
  (exists choice msg, judged_message (br_body r) = Ret (choice, msg) /\ has_answer msg
                      /\ br_finish_reason r = jget choice "finish_reason")
  /\ (br_status_code r < 400)%Z /\ (0 <= br_input_tokens r)%Z /\ (0 <= br_output_tokens r)%Z
  /\ (forall n, br_cached_tokens r = Some n -> (0 <= n)%Z).
Proof.
  unfold call. intros H. step_inr H w s1 E1. destruct (post w) as [f|status text duration]; [discriminate|].
  destruct (Z.leb_spec 400 status) as [L|L]; [discriminate|].
  apply accept_body_answer in H as (A & -> & B). split; [done|]. split; [done|]. exact B.
Qed.

(** ** The failure of the gate *)

(** The whole budget went to a reasoning the length cut. *)
Definition spent_on_reasoning (msg : dict string json) (finish_reason : json) : Prop :=
  text_is finish_reason "length" = true
  /\ exists r, strip_of (if truthy (jget msg "reasoning") then jget msg "reasoning" else jget msg "reasoning_content") = Ret r /\ r <> "".

Lemma contains_occurs p a b : contains p (a ++ p ++ b) = true.
Proof. unfold contains. pose proof (sfind_occurs p a b). by destruct (sfind p _). Qed.

(** What the gate refuses, and what becomes of it: an answer is refused exactly
    when it carries no text and no tool call, always as a 502; and the proxy
    counts the refusal as transient, to be tried again, unless the budget was
    spent on reasoning, which another try would only repeat. *)
Theorem empty_answer_is_retried role msg fin n out :
  empty_completion_error role msg fin n = Ret out ->
  (out = None <-> has_answer msg)
  /\ forall e, out = Some e ->
       exists d, e = CallError 502 d
       /\ (~ spent_on_reasoning msg fin -> is_transient_backend_error (as_exc e) = true).
Proof.
  intros H. split.
  - split; [intros ->; by eapply gate_passes|]. intros A. unfold empty_completion_error in H.
    apply res_bind_Ret in H as (c & HC & H). destruct A as [(c' & E & N)|T].
    + rewrite E in HC. unfold strip_of in HC. cbn [truthy] in HC.
      rewrite (proj2 (String.eqb_neq c' "")) in HC by (by intros ->). cbn [negb] in HC. injection HC as <-.
      destruct (String.eqb_spec (strip c') ""); [done|]. by injection H as <-.
    + rewrite T, orb_true_r in H. by injection H as <-.
  - intros e ->. unfold empty_completion_error in H. apply res_bind_Ret in H as (c & _ & H).
    destruct (_ || _)%bool; [done|]. cbv zeta in H. apply res_bind_Ret in H as (r & HR & H).
    destruct (negb (String.eqb r "") && text_is fin "length")%bool eqn:B; injection H as <-; eexists; (split; [done|]).
    + intros NS. destruct NS. apply andb_true_iff in B as [B1 B2]. split; [done|]. exists r. split; [done|].
      intros ->. done.
    + intros _. cbn [as_exc is_transient_backend_error].
      etrans; [|exact (contains_occurs "empty completion" ("backend " ++ role ++ " returned ")
        (" (no content, output_tokens=" ++ str_of_Z n ++ ", finish_reason=" ++ py_repr fin ++ ")"))].
      f_equal. rewrite !sapp_assoc. done.
Qed.

(** ** An endpoint without a thinking switch *)

Lemma dget_update p d k : dwf d -> dget (dict_update p d) k = match dget d k with Some v => Some v | None => dget p k end.
Proof.
  unfold dict_update. revert p. induction d as [|[a v] d IH]; intros p W; [done|]. cbn [foldl fst snd].
  apply NoDup_cons in W as [N W]. rewrite IH by done. rewrite dget_dset. simpl.
  repeat case_decide; subst; try done. by rewrite (proj2 (dget_None d _) N).
Qed.

(** A stripped payload and what its [extra_body] holds have each key once. *)
Lemma strip_switch_wf p out found :
  jwf (JDict p) = true -> strip_thinking_switch (JDict p) = (JDict out, found) ->
  dwf out /\ forall eb, jget out "extra_body" = JDict eb -> dwf eb.
Proof.
  intros W. unfold strip_thinking_switch. pose proof (strip_container_get p "" [] "extra_body" (jwf_dict _ W)) as [D G].
  destruct (_strip_container p "" []) as [[q c] f]. cbn [fst] in *.
  assert (X : forall eb, get_dict q "extra_body" = Some eb -> jwf (JDict eb) = true).
  { intros eb H. apply (jwf_get_dict p "extra_body"); [done|]. unfold get_dict in *. by rewrite G in H. }
  destruct (get_dict q "extra_body") as [eb|] eqn:E.
  - pose proof (strip_container_get eb "extra_body." f "" (jwf_dict _ (X _ eq_refl))) as [De _].
    destruct (_strip_container eb "extra_body." f) as [[ne cp] f2]. cbn [fst] in De. intros [= <- _]. destruct cp.
    + split; [by apply dwf_dset|]. intros eb'. unfold jget. rewrite dget_dset_eq. by intros [= <-].
    + split; [done|]. intros eb' H. apply jget_dict_get in H. apply get_dict_Some in H. rewrite E in H. injection H as <-.
      by apply jwf_dict, X.
  - intros [= <- _]. split; [done|]. intros eb' H. apply jget_dict_get in H. apply get_dict_Some in H. by rewrite E in H.
Qed.

Lemma switch_free_merge p :
  dwf p -> (forall eb, jget p "extra_body" = JDict eb -> dwf eb) -> payload_switch_free p -> switch_free (merge_extra p).
Proof.
  intros W WE [F FE].
  assert (B : switch_free (ddel p "extra_body"))
    by (apply (switch_free_ext p); [intros k K; rewrite dget_ddel_ne; [done|intros <-; revert K; by_decide]|done]).
  unfold merge_extra. destruct (jget p "extra_body") eqn:X; try done.
  specialize (WE _ eq_refl). apply jget_dict_get in X. specialize (FE _ (proj2 (get_dict_Some _ _ _) X)).
  assert (G : forall k, dget (dict_update (ddel p "extra_body") d) k = dget d k
                        \/ dget (dict_update (ddel p "extra_body") d) k = dget (ddel p "extra_body") k).
  { intros k. rewrite dget_update by done. destruct (dget d k); auto. }
  destruct B as (B1 & B2 & B3), FE as (E1 & E2 & E3). unfold switch_free, get_dict, jget in *.
  split_and!; [destruct (G "chat_template_kwargs") as [-> | ->]|destruct (G "reasoning_effort") as [-> | ->]
              |destruct (G "reasoning") as [-> | ->]]; done.
Qed.

Lemma dget_ddel_all_incl {V} (d : dict string V) ks k v : dwf d -> dget (ddel_all d ks) k = Some v -> dget d k = Some v.
Proof.
  unfold ddel_all. revert d. induction ks as [|a ks IH]; intros d W; simpl; [done|]. intros H%IH; [|by apply dwf_ddel].
  revert H. rewrite dget_ddel by done. by case_decide.
Qed.

(** A payload without a switch is made into one without, where no keyword is
    declared to be sent as off. *)
Definition template_fields : list string := ["chat_template_kwargs"; "reasoning_effort"; "reasoning"].

Lemma template_field_cases (P : string -> Prop) :
  P "chat_template_kwargs" -> P "reasoning_effort" -> P "reasoning" -> forall k, k ∈ template_fields -> P k.
Proof. intros H1 H2 H3 k. unfold template_fields. rewrite !elem_of_cons. intros [->|[->|[->|[]%elem_of_nil]]]; done. Qed.

Lemma prepared_switch_free e a p p' :
  (0 <= reasoning_budget_tokens a)%Z -> pa_thinking_kwargs a = [] ->
  dwf p -> (forall eb, jget p "extra_body" = JDict eb -> dwf eb) -> payload_switch_free p ->
  prepare_chat_payload e a p = Fine p' -> switch_free p'.
Proof.
  intros H0 K W WE F S.
  assert (M : forall m, merged_as p m -> switch_free m).
  { intros m [Wm M]. apply (switch_free_ext (merge_extra p)); [|by apply switch_free_merge].
    apply template_field_cases; symmetry; apply M; by_decide. }
  destruct (is_local e) eqn:L.
  - destruct (sent_local e a p p' H0 W S L) as (m & Hm & ->). apply (switch_free_ext m); [|by apply M].
    apply template_field_cases; symmetry.
    + unfold finish_payload. rewrite limits_get by by_decide. rewrite K. destruct e; simpl;
        rewrite ?move_grammar_get by done; by rewrite strip_get.
    + rewrite finish_get by by_decide. by rewrite strip_get.
    + rewrite finish_get by by_decide. by rewrite strip_get.
  - destruct e; [done|done|]. rewrite prepare_rebuild in S by done.
    destruct (rebuild_remote a p p' W S) as (m & Hm & -> & _). destruct (M m Hm) as (M1 & M2 & M3). destruct Hm as [Wm _].
    assert (G : forall k, dget (ddel_all m _ENGINE_LOCAL_KEYS) k = None
                          \/ dget (ddel_all m _ENGINE_LOCAL_KEYS) k = dget m k).
    { intros k. destruct (dget (ddel_all m _ENGINE_LOCAL_KEYS) k) eqn:E; [|by left]. right.
      symmetry. by eapply dget_ddel_all_incl. }
    unfold switch_free, get_dict, jget in *.
    split_and!; [destruct (G "chat_template_kwargs") as [-> | ->]|destruct (G "reasoning_effort") as [-> | ->]
                |destruct (G "reasoning") as [-> | ->]]; done.
Qed.

(** C27 Nothing switches the thinking of a model that has no switch.  On an endpoint
    declared without one, whatever spelling the caller used and wherever it put
    it, at the top or in [extra_body], the payload on the wire holds none,
    whichever engine serves it. *)
Theorem no_switch_reaches_unswitchable environ now ep p request_id s w s' :
  (0 <= reasoning_budget_tokens (wi_args ep))%Z -> pa_thinking_kwargs (wi_args ep) = [] ->
  wi_no_thinking_switch ep = true -> jwf (JDict p) = true ->
  wire_request environ now ep p "chat_completion" request_id s = (inr w, s') -> switch_free (wr_payload w).
Proof.
  intros H0 K N W H. unfold wire_request in H. step_inr H path s1 E1. step_inr H headers s2 E2.
  rewrite String.eqb_refl in H. step_inr H q s3 E3. step_inr H q' s4 E4. injection H as <- _. cbn [wr_payload].
  apply refused_inr in E4 as [E4 _].
  destruct (strip_thinking_switch_removes p W) as (out & found & ES & FO & _).
  destruct (strip_switch_wf p out found W ES) as [Wo We].
  unfold _canonical_switch in E3. rewrite N, ES in E3. step_inr E3 u s5 E5. injection E3 as <- _.
  by eapply prepared_switch_free.
Qed.

(** ** A stream relayed as it came *)

(** The events of the data lines, up to the terminator. *)
Fixpoint relayed (float_text : string -> string) (lines : list string) : list StreamEvent :=
  match lines with
  | [] => []
  | line :: lines =>
      let line := strip line in
      if startswith "data: " line then
        let data := sdrop 6 line in
        if String.eqb data "[DONE]" then [EvDone data]
        else EvChunk data (loads float_text data) :: relayed float_text lines
      else relayed float_text lines
  end.

Definition terminates (line : string) : bool :=
  (startswith "data: " (strip line) && String.eqb (sdrop 6 (strip line)) "[DONE]")%bool.

(** The bytes the lines take, each with its line end. *)
Definition wire_size (lines : list string) : Z := foldr (fun l n => (utf8_len l + 1 + n)%Z) 0%Z lines.

Lemma wire_size_cons l ls : wire_size (l :: ls) = (utf8_len l + 1 + wire_size ls)%Z.
Proof. done. Qed.

Section PlainRelay.
Context (float_text : string -> string) (ep : WireConfig) (cap : Z) (timeout_text : string) (ending : StreamEnd).

(** What the reader has when the lines run out. *)
Definition run_out (evs : list StreamEvent) : Pulled (list StreamEvent) False :=
  match ending with
  | Closed => Exhausted evs
  | Broken f => Failed evs (stream_failure ep timeout_text f)
  | DeadlineFired => TimedOut evs
  end.

(** How far a relay gets from [n] bytes and the events [acc]: to the
    terminator, through all the lines, or to the line that is one too many. *)
Inductive relay_outcome (n : Z) (acc : list StreamEvent) : list string -> Pulled (list StreamEvent) False -> Prop :=
| relay_done pre rest :
    Exists terminates pre -> (n + wire_size pre <= cap)%Z ->
    relay_outcome n acc (pre ++ rest)%list (Exhausted (acc ++ relayed float_text pre)%list)
| relay_whole pre :
    ~ Exists terminates pre -> (n + wire_size pre <= cap)%Z ->
    relay_outcome n acc pre (run_out (acc ++ relayed float_text pre)%list)
| relay_capped pre line rest detail :
    ~ Exists terminates pre -> (n + wire_size pre <= cap < n + wire_size pre + utf8_len line + 1)%Z ->
    relay_outcome n acc (pre ++ line :: rest)%list
      (Failed (acc ++ relayed float_text pre)%list (CallError 502 detail)).

Lemma Exists_not_cons line pre : ~ terminates line -> ~ Exists terminates pre -> ~ Exists terminates (line :: pre).
Proof. intros N1 N2 [|]%Exists_cons; done. Qed.

(** One more line in front. *)
Lemma outcome_step line n acc evs lines out :
  ~ terminates line ->
  (forall l, relayed float_text (line :: l) = (evs ++ relayed float_text l)%list) ->
  relay_outcome (n + utf8_len line + 1) (acc ++ evs)%list lines out -> relay_outcome n acc (line :: lines) out.
Proof.
  intros N R H. inversion H as [pre rest D S|pre D S|pre l rest d D S]; subst; clear H; rewrite <- app_assoc, <- R.
  - apply (relay_done n acc (line :: pre)); [by apply Exists_cons_tl|rewrite ?wire_size_cons; cbn [wire_size foldr]; lia].
  - apply relay_whole; [by apply Exists_not_cons|rewrite ?wire_size_cons; cbn [wire_size foldr]; lia].
  - apply (relay_capped n acc (line :: pre)); [by apply Exists_not_cons|rewrite ?wire_size_cons; cbn [wire_size foldr]; lia].
Qed.

Lemma pull_plain lines n acc :
  (n <= cap)%Z ->
  relay_outcome n acc lines (pull float_text keep ep cap timeout_text ending lines (mkRelay None n) acc).1.
Proof.
  revert n acc. induction lines as [|line lines IH]; intros n acc L.
  - replace (pull _ _ _ _ _ _ _ _ _).1 with (run_out (acc ++ relayed float_text [])%list)
      by (rewrite app_nil_r; unfold run_out; by destruct ending).
    apply relay_whole; [by inversion 1|rewrite ?wire_size_cons; cbn [wire_size foldr]; lia].
  - cbn [pull]. unfold relay_line. cbn [ry_seen ry_repair].
    destruct (Z.ltb_spec cap (n + utf8_len line + 1)) as [C|C].
    { cbn [consume fst]. rewrite <- (app_nil_r acc) at 2. apply (relay_capped n acc []); [by inversion 1|rewrite ?wire_size_cons; cbn [wire_size foldr]; lia]. }
    destruct (startswith "data: " (strip line)) eqn:S.
    + destruct (String.eqb (sdrop 6 (strip line)) "[DONE]") eqn:E.
      * cbn. replace [EvDone _] with (relayed float_text [line]) by (cbn [relayed]; by rewrite S, E).
        apply (relay_done n acc [line]); [|rewrite ?wire_size_cons; cbn [wire_size foldr]; lia]. apply Exists_cons_hd. unfold terminates. rewrite S, E. done.
      * cbn [_relay consume keep app]. eapply outcome_step; [|intros l|apply IH; lia].
        -- unfold terminates. rewrite S, E. by intros [].
        -- cbn [relayed]. by rewrite S, E.
    + cbn [consume]. eapply (outcome_step _ _ _ []); [|intros l|rewrite app_nil_r; apply IH; lia].
      * unfold terminates. rewrite S. by intros [].
      * cbn [relayed]. by rewrite S.
Qed.

Lemma pull_unrepaired {A R} (step : A -> StreamEvent -> A + R) lines n acc :
  ry_repair (pull float_text step ep cap timeout_text ending lines (mkRelay None n) acc).2 = None.
Proof.
  revert n acc. induction lines as [|line lines IH]; intros n acc; cbn [pull]; [by destruct ending|].
  unfold relay_line. cbn [ry_seen ry_repair _relay release].
  repeat (case_match; simplify_eq; try done); by apply IH.
Qed.
End PlainRelay.

(** C32 A stream whose traces need no repair is relayed as it came.  The reader is
    given the data lines in their order, text for text, and nothing after the
    terminator; never more than the cap on the bytes of a response, beyond which
    the stream fails as a 502; and when the lines run out without a terminator,
    what ended them is what the reader is told. *)
Theorem stream_is_verbatim float_text environ now ep p payload_type request_id timeout_text open s out s' w s1 lines ending :
  stream float_text environ now ep p payload_type request_id timeout_text open s = (inr out, s') ->
  _repairs_bleed ep payload_type = false ->
  wire_request environ now ep p payload_type request_id s = (inr w, s1) -> open w = StreamOpen lines ending ->
  relay_outcome float_text ep (max_response_bytes_from_env environ) timeout_text ending 0 [] lines out /\ s' = s1.
Proof.
  unfold stream, stream_with. intros H R W O. step_inr H w' s2 E. rewrite W in E. injection E as <- <-. rewrite O in H.
  unfold start_relay in H. rewrite R in H.
  pose proof (pull_plain float_text ep (max_response_bytes_from_env environ) timeout_text ending lines 0 []) as P.
  destruct (pull _ _ _ _ _ _ _ _ _) as [out' y] eqn:Q.
  assert (Y : ry_repair y = None)
    by (pose proof (pull_unrepaired float_text ep (max_response_bytes_from_env environ) timeout_text ending keep lines 0 []) as U;
        by rewrite Q in U).
  unfold note_relay in H. rewrite Y in H. injection H as <- <-. split; [|done]. apply P.
  unfold max_response_bytes_from_env, DEFAULT_MAX_RESPONSE_BYTES. repeat case_match; lia.
Qed.
