(* ===== verification/Watched.v ===== *)
(** * The watched call (backend.py, [call_watched])

    A call whose caller wants one answer, sent over the streaming wire so that
    a run of blanks stops it: the events are folded into the answer a plain
    call would have brought, the detector reads every piece of content, and its
    verdict ends the stream there. *)

From Stdlib Require Import Ascii QArith Lia ZArith.
From stdpp Require Import base list strings.
From S2P Require Import Prelude PyDict PyText Config Json ThinkSwitch ThinkBleed ThinkStats Cost Queue JsonRead ToolStream Degen Effort Forced Correct Payload Provider Backend.

Local Open Scope string_scope.

(** [s.replace(p, "")]: [k] characters of the occurrence met are still to skip. *)
Fixpoint erase (p : string) (k : nat) (s : string) : string :=
  match s with
  | "" => ""
  | String c s' =>
      match k with
      | S k => erase p k s'
      | O => if startswith p s then erase p (pred (String.length p)) s' else String c (erase p O s')
      end
  end.

(** The locals of the loop. *)
Record Watched := mkWatched {
  wt_content : string;
  wt_reasoning : string;
  wt_reasoning_key : string;
  wt_resp_id : string;
  wt_obj : string;
  wt_created : json;
  wt_model : string;
  wt_finish_reason : json;
  wt_stop_reason : json;
  wt_logprobs : json;
  wt_input_tokens : Z;
  wt_output_tokens : Z;
  wt_cached_tokens : option Z;
  wt_last_usage : option (dict string json);
  wt_detector : BlankDet
}.

Definition watched_init (model request_id : string) (now : Q) (d : BlankDet) : Watched :=
  mkWatched "" "" "reasoning_content" ("chatcmpl-" ++ request_id) "chat.completion" (JInt (Qtrunc now)) model
    JNull JNull JNull 0 0 None None d.

(** [_assemble_body] *)
Definition assembled_message (w : Watched) : dict string json :=
  let msg : dict string json := [("role", JStr "assistant"); ("content", JStr (wt_content w))] in
  if String.eqb (wt_reasoning w) "" then msg else dset msg (wt_reasoning_key w) (JStr (wt_reasoning w)).

Definition known_usage (w : Watched) : option (dict string json) :=
  match wt_last_usage w with
  | Some u => Some u
  | None =>
      if (negb (wt_input_tokens w =? 0) || negb (wt_output_tokens w =? 0) || bool_decide (is_Some (wt_cached_tokens w)))%Z%bool then
        let usage : dict string json :=
          [("prompt_tokens", JInt (wt_input_tokens w)); ("completion_tokens", JInt (wt_output_tokens w));
           ("total_tokens", JInt (wt_input_tokens w + wt_output_tokens w)%Z)] in
        Some (match wt_cached_tokens w with
              | Some n => dset usage "prompt_tokens_details" (JDict [("cached_tokens", JInt n)])
              | None => usage
              end)
      else None
  end.

Definition _assemble_body (w : Watched) : dict string json :=
  let choice : dict string json :=
    [("index", JInt 0); ("message", JDict (assembled_message w)); ("logprobs", wt_logprobs w);
     ("finish_reason", wt_finish_reason w); ("stop_reason", wt_stop_reason w)] in
  let b : dict string json :=
    [("id", JStr (wt_resp_id w)); ("object", JStr (wt_obj w)); ("created", wt_created w);
     ("model", JStr (wt_model w)); ("choices", JList [JDict choice])] in
  match known_usage w with Some u => dset b "usage" (JDict u) | None => b end.

(** A field kept when the chunk carries a text there. *)
Definition kept_text (j : json) (old : string) : string :=
  match j with JStr s => if String.eqb s "" then old else s | _ => old end.

(** The identity fields and the usage of one chunk. *)
Definition note_envelope (parsed : dict string json) (w : Watched) : Watched :=
  let usage := jget parsed "usage" in
  let obj := match jget parsed "object" with
             | JStr s => if String.eqb s "" then wt_obj w else kept_text (JStr (erase ".chunk" 0 s)) (wt_obj w)
             | _ => wt_obj w
             end in
  let created := match jget parsed "created" with JInt n => JInt n | JBool b => JBool b | _ => wt_created w end in
  let '(tin, tout, cached, last) :=
    match usage with
    | JDict u => (coerce_token_count (jget u "prompt_tokens") (wt_input_tokens w),
                  coerce_token_count (jget u "completion_tokens") (wt_output_tokens w),
                  match extract_cached_tokens usage with Some n => Some n | None => wt_cached_tokens w end,
                  Some u)
    | _ => (wt_input_tokens w, wt_output_tokens w, wt_cached_tokens w, wt_last_usage w)
    end in
  mkWatched (wt_content w) (wt_reasoning w) (wt_reasoning_key w)
    (kept_text (jget parsed "id") (wt_resp_id w)) obj created (kept_text (jget parsed "model") (wt_model w))
    (wt_finish_reason w) (wt_stop_reason w) (wt_logprobs w) tin tout cached last (wt_detector w).

(** What the choice says of the end of the answer. *)
Definition note_choice (choice : dict string json) (w : Watched) : Watched :=
  mkWatched (wt_content w) (wt_reasoning w) (wt_reasoning_key w) (wt_resp_id w) (wt_obj w) (wt_created w) (wt_model w)
    (if truthy (jget choice "finish_reason") then jget choice "finish_reason" else wt_finish_reason w)
    (default (wt_stop_reason w) (dget choice "stop_reason"))
    (default (wt_logprobs w) (dget choice "logprobs"))
    (wt_input_tokens w) (wt_output_tokens w) (wt_cached_tokens w) (wt_last_usage w) (wt_detector w).

Definition add_content (piece : string) (d : BlankDet) (w : Watched) : Watched :=
  mkWatched (wt_content w ++ piece) (wt_reasoning w) (wt_reasoning_key w) (wt_resp_id w) (wt_obj w) (wt_created w) (wt_model w)
    (wt_finish_reason w) (wt_stop_reason w) (wt_logprobs w)
    (wt_input_tokens w) (wt_output_tokens w) (wt_cached_tokens w) (wt_last_usage w) d.

Definition add_reasoning (key piece : string) (w : Watched) : Watched :=
  mkWatched (wt_content w) (wt_reasoning w ++ piece) key (wt_resp_id w) (wt_obj w) (wt_created w) (wt_model w)
    (wt_finish_reason w) (wt_stop_reason w) (wt_logprobs w)
    (wt_input_tokens w) (wt_output_tokens w) (wt_cached_tokens w) (wt_last_usage w) (wt_detector w).

Definition take_reasoning (delta : dict string json) (w : Watched) : Watched :=
  if nonempty_str delta "reasoning" then add_reasoning "reasoning" (text_or_empty (jget delta "reasoning")) w
  else if nonempty_str delta "reasoning_content"
       then add_reasoning "reasoning_content" (text_or_empty (jget delta "reasoning_content")) w
       else w.

(** [output_tokens or estimate]. *)
Definition counted_or_estimated (w : Watched) : Z :=
  if (wt_output_tokens w =? 0)%Z then estimate_tokens_from_chars (slen (wt_content w)) else wt_output_tokens w.

(** Why the loop is left early. *)
Inductive WatchStop := SawDone (w : Watched) | BlankRun (a : Aborted) | LoopFault (e : PyErr).

Definition watch_delta (delta : dict string json) (w : Watched) : Watched + WatchStop :=
  if nonempty_str delta "content" then
    let piece := text_or_empty (jget delta "content") in
    let '(verdict, d) := blank_feed (wt_detector w) (Some (code_points piece)) in
    let w := add_content piece d w in
    match verdict with
    | Some v => inr (BlankRun (mkAborted (_assemble_body w) v (wt_input_tokens w) (counted_or_estimated w)))
    | None => inl (take_reasoning delta w)
    end
  else inl (take_reasoning delta w).

Definition watch_chunk (parsed : dict string json) (w : Watched) : Watched + WatchStop :=
  let w := note_envelope parsed w in
  let choices := jget parsed "choices" in
  if truthy choices then
    match ThinkBleed.first_choice choices with
    | Raise e => inr (LoopFault e)
    | Ret (JDict choice) =>
        let w := note_choice choice w in
        match jget choice "delta" with JDict delta => watch_delta delta w | _ => inl w end
    | Ret _ => inl w
    end
  else inl w.

Definition watch_event (w : Watched) (e : StreamEvent) : Watched + WatchStop :=
  match e with
  | EvDone _ => inr (SawDone w)
  | EvChunk _ (Some (JDict parsed)) => watch_chunk parsed w
  | _ => inl w
  end.

(** [stream_payload] *)
Definition watched_payload (p : dict string json) : dict string json :=
  let so := match jget p "stream_options" with JDict so => so | _ => [] end in
  dset (dset p "stream" (JBool true)) "stream_options" (JDict (dset so "include_usage" (JBool true))).

(** An answer whose tokens were never counted is estimated. *)
Definition settle_tokens (w : Watched) : Watched :=
  match wt_last_usage w with
  | Some _ => w
  | None =>
      if String.eqb (wt_content w) "" then w
      else mkWatched (wt_content w) (wt_reasoning w) (wt_reasoning_key w) (wt_resp_id w) (wt_obj w) (wt_created w) (wt_model w)
             (wt_finish_reason w) (wt_stop_reason w) (wt_logprobs w) (wt_input_tokens w)
             (estimate_tokens_from_chars (slen (wt_content w))) (wt_cached_tokens w) None (wt_detector w)
  end.

(** The response of a stream read to its end. *)
Definition watched_response (role payload_type : string) (duration : Q) (w : Watched) : res (CallFailure + BackendResponse) :=
  let w := settle_tokens w in
  err ← (if String.eqb payload_type "chat_completion"
         then empty_completion_error role (assembled_message w) (wt_finish_reason w) (wt_output_tokens w) else Ret None);
  match err with
  | Some e => Ret (inl e)
  | None => Ret (inr (mkResponse 200 (JDict (_assemble_body w)) duration (wt_input_tokens w) (wt_output_tokens w)
                        (wt_finish_reason w) (wt_cached_tokens w)))
  end.

Section WatchedCalls.
Context (float_text : string -> string) (environ : string -> option string) (now : Q).

Definition call_watched (ep : WireConfig) (p : dict string json) (payload_type request_id : string) (detector : BlankDet)
    (timeout_text : string) (duration : Q) (open : WireRequest -> StreamAnswer) : BM BackendResponse :=
  out ← stream_with float_text environ now watch_event (watched_init (pa_model_id (wi_args ep)) request_id now detector)
          ep (watched_payload p) payload_type request_id timeout_text open;
  let finish w := r ← of_res (watched_response (wi_role ep) payload_type duration w);
                  match r with inl e => throw e | inr resp => mret resp end in
  match out with
  | Exhausted w | Stopped (SawDone w) => finish w
  | Stopped (BlankRun a) => throw (CallAborted a)
  | Stopped (LoopFault e) => throw (CallFault e)
  | Failed _ f => throw f
  | TimedOut _ => throw (CallTimeout ("backend " ++ wi_role ep ++ " timeout after " ++ timeout_text ++ "s"))
  end.
End WatchedCalls.
