(* ===== verification/WatchedProps.v ===== *)
(** * What a watched call brings back

    The call is stopped exactly where its text first holds a run of blanks of
    the threshold ([watched_stops_at_blank_run]); with the usage counted once it
    is judged as a plain call would have been ([watched_as_called]). *)

From Stdlib Require Import Ascii QArith Lia ZArith.
From stdpp Require Import base list strings.
From S2P Require Import Prelude PyDict PyText Config Json ThinkSwitch ThinkBleed ThinkStats Cost Queue JsonRead ToolStream Degen DegenProps Effort EffortProps Forced ForcedProps Correct Payload Provider ProviderProps Backend BackendProps Watched.

Local Open Scope string_scope.

(** ** What one event carries *)

Definition delta_of (e : StreamEvent) : dict string json :=
  match e with
  | EvChunk _ (Some (JDict p)) =>
      if truthy (jget p "choices") then
        match ThinkBleed.first_choice (jget p "choices") with
        | Ret (JDict choice) => match jget choice "delta" with JDict d => d | _ => [] end
        | _ => []
        end
      else []
  | _ => []
  end.

Definition piece_of (e : StreamEvent) : string := text_or_empty (jget (delta_of e) "content").

Definition thought_of (e : StreamEvent) : string :=
  let d := delta_of e in
  if nonempty_str d "reasoning" then text_or_empty (jget d "reasoning") else text_or_empty (jget d "reasoning_content").

Definition usage_of (e : StreamEvent) : list (dict string json) :=
  match e with EvChunk _ (Some (JDict p)) => match jget p "usage" with JDict u => [u] | _ => [] end | _ => [] end.

Lemma nonempty_text d k : nonempty_str d k = negb (String.eqb (text_or_empty (jget d k)) "").
Proof. unfold nonempty_str, jget. by destruct (dget d k) as [[]|]. Qed.

Lemma code_points_app a b : code_points (a ++ b) = (code_points a ++ code_points b)%list.
Proof. unfold code_points. induction a as [|c a IH]; simpl; [done|]. by rewrite IH. Qed.

Lemma feed_verdict d x : bd_verdict d = None -> bd_verdict (blank_feed d x).2 = (blank_feed d x).1.
Proof. intros V. unfold blank_feed. repeat case_match; simplify_eq; done. Qed.

(** *** One step of the loop *)

Definition feed_piece (w : Watched) (e : StreamEvent) : option BlankVerdict * BlankDet :=
  blank_feed (wt_detector w) (Some (code_points (piece_of e))).

Lemma take_reasoning_fields d w :
  wt_content (take_reasoning d w) = wt_content w /\ wt_detector (take_reasoning d w) = wt_detector w
  /\ wt_reasoning (take_reasoning d w) = wt_reasoning w ++
       (if nonempty_str d "reasoning" then text_or_empty (jget d "reasoning") else text_or_empty (jget d "reasoning_content")).
Proof.
  unfold take_reasoning. rewrite !nonempty_text.
  destruct (String.eqb_spec (text_or_empty (jget d "reasoning")) "") as [_|N1]; cbn [negb]; [|done].
  destruct (String.eqb_spec (text_or_empty (jget d "reasoning_content")) "") as [->|N2]; cbn [negb]; [|done].
  by rewrite sapp_nil_r.
Qed.

Lemma watch_delta_inl d w w' :
  watch_delta d w = inl w' ->
  wt_content w' = wt_content w ++ text_or_empty (jget d "content")
  /\ wt_detector w' = (blank_feed (wt_detector w) (Some (code_points (text_or_empty (jget d "content"))))).2
  /\ (blank_feed (wt_detector w) (Some (code_points (text_or_empty (jget d "content"))))).1 = None
  /\ wt_reasoning w' = wt_reasoning w ++
       (if nonempty_str d "reasoning" then text_or_empty (jget d "reasoning") else text_or_empty (jget d "reasoning_content")).
Proof.
  unfold watch_delta. rewrite (nonempty_text d "content").
  destruct (String.eqb_spec (text_or_empty (jget d "content")) "") as [->|N]; cbn [negb].
  - intros [= <-]. destruct (take_reasoning_fields d w) as (-> & -> & ->). rewrite sapp_nil_r. unfold blank_feed. by case_match.
  - destruct (blank_feed _ _) as [[v|] det]; [discriminate|]. intros [= <-].
    by destruct (take_reasoning_fields d (add_content (text_or_empty (jget d "content")) det w)) as (-> & -> & ->).
Qed.

(** The counts of the tokens, and a usage block read into them. *)
Definition counts (w : Watched) : Z * Z * option Z * option (dict string json) :=
  (wt_input_tokens w, wt_output_tokens w, wt_cached_tokens w, wt_last_usage w).

Definition count_usage (c : Z * Z * option Z * option (dict string json)) (u : dict string json) :=
  let '(tin, tout, cached, _) := c in
  (coerce_token_count (jget u "prompt_tokens") tin, coerce_token_count (jget u "completion_tokens") tout,
   match extract_cached_tokens (JDict u) with Some n => Some n | None => cached end, Some u).

(** The chunk's envelope read, and its choice: the text is as it was. *)
Definition same_text (w w' : Watched) : Prop :=
  wt_content w' = wt_content w /\ wt_reasoning w' = wt_reasoning w /\ wt_detector w' = wt_detector w
  /\ wt_reasoning_key w' = wt_reasoning_key w.

Lemma envelope_text p w : same_text w (note_envelope p w).
Proof. unfold note_envelope, same_text. by destruct (jget p "usage"). Qed.

Lemma envelope_counts d p w : counts (note_envelope p w) = foldl count_usage (counts w) (usage_of (EvChunk d (Some (JDict p)))).
Proof. unfold note_envelope, usage_of. by destruct (jget p "usage"). Qed.

(** A chunk, with the delta it carries: read into [w0], whose text is the text so far. *)
Lemma watch_chunk_delta d p w :
  exists w0, same_text w w0 /\ counts w0 = foldl count_usage (counts w) (usage_of (EvChunk d (Some (JDict p))))
  /\ (watch_chunk p w = watch_delta (delta_of (EvChunk d (Some (JDict p)))) w0
      \/ (exists e, watch_chunk p w = inr (LoopFault e))
      \/ (watch_chunk p w = inl w0 /\ delta_of (EvChunk d (Some (JDict p))) = [])).
Proof.
  unfold watch_chunk, delta_of. cbv zeta.
  pose proof (envelope_text p w) as T. pose proof (envelope_counts d p w) as C.
  destruct (truthy (jget p "choices")); [|by exists (note_envelope p w); auto].
  destruct (ThinkBleed.first_choice (jget p "choices")) as [x|e].
  2: { exists (note_envelope p w). split; [done|]. split; [done|]. right; left. eauto. }
  destruct x as [| | | | | |choice]; try by exists (note_envelope p w); auto.
  exists (note_choice choice (note_envelope p w)). split; [exact T|]. split; [exact C|].
  destruct (jget choice "delta"); auto.
Qed.

Lemma watch_delta_counts d w w' : watch_delta d w = inl w' -> counts w' = counts w.
Proof.
  assert (K : forall w, counts (take_reasoning d w) = counts w) by (intros x; unfold take_reasoning; by repeat case_match).
  unfold watch_delta. case_match; [|by intros [= <-]]. destruct (blank_feed _ _) as [[v|] det]; [discriminate|].
  intros [= <-]. by rewrite K.
Qed.

(** An event the loop goes on from. *)
Lemma watch_event_inl w e w' :
  watch_event w e = inl w' ->
  wt_content w' = wt_content w ++ piece_of e /\ wt_reasoning w' = wt_reasoning w ++ thought_of e
  /\ feed_piece w e = (None, wt_detector w') /\ counts w' = foldl count_usage (counts w) (usage_of e).
Proof.
  assert (I : forall w e, delta_of e = [] -> wt_content w = wt_content w ++ piece_of e
             /\ wt_reasoning w = wt_reasoning w ++ thought_of e /\ feed_piece w e = (None, wt_detector w)).
  { intros x y E. unfold piece_of, thought_of, feed_piece, piece_of. rewrite E. cbn. rewrite !sapp_nil_r.
    split; [done|]. split; [done|]. unfold blank_feed. by case_match. }
  assert (S : forall x, delta_of x = [] -> usage_of x = [] -> inl w = inl w' :> Watched + WatchStop ->
    wt_content w' = wt_content w ++ piece_of x /\ wt_reasoning w' = wt_reasoning w ++ thought_of x
    /\ feed_piece w x = (None, wt_detector w') /\ counts w' = foldl count_usage (counts w) (usage_of x)).
  { intros x D U [= <-]. destruct (I w x D) as (A & B & C). by rewrite U. }
  destruct e as [data [[| | | | | |p]|]| |]; try (by apply S). 2: by intros [=].
  simpl. destruct (watch_chunk_delta data p w) as (w0 & (T1 & T2 & T3 & T4) & C & [->|[[e ->]|[-> D]]]); [|discriminate|].
  - intros H. destruct (watch_delta_inl _ _ _ H) as (-> & D & V & ->). rewrite (watch_delta_counts _ _ _ H).
    rewrite T1, T2. split; [done|]. split; [done|]. split; [|exact C]. unfold feed_piece. rewrite D, <- T3. rewrite T3 in *.
    unfold piece_of. destruct (blank_feed _ _); simpl in *; by subst.
  - intros [= <-]. destruct (I w0 _ D) as (A & B & E). split; [by rewrite <- T1|]. split; [by rewrite <- T2|].
    split; [|exact C]. unfold feed_piece in *. by rewrite <- T3.
Qed.

(** An event at which the loop stops. *)
Lemma watch_event_stop w e r :
  watch_event w e = inr r ->
  match r with
  | SawDone w' => w' = w
  | BlankRun a =>
      exists w', feed_piece w e = (Some (ab_verdict a), wt_detector w') /\ wt_content w' = wt_content w ++ piece_of e
      /\ ab_body_so_far a = _assemble_body w' /\ ab_output_tokens a = counted_or_estimated w'
      /\ wt_reasoning_key w' = wt_reasoning_key w
      /\ counts w' = foldl count_usage (counts w) (usage_of e)
  | LoopFault _ => True
  end.
Proof.
  destruct e as [data [[| | | | | |p]|]| |]; try by intros [=]. 2: by intros [= <-].
  simpl. destruct (watch_chunk_delta data p w) as (w0 & (T1 & T2 & T3 & T4) & C & [->|[[e ->]|[-> D]]]); [|by intros [= <-]|done].
  set (d := delta_of _). unfold watch_delta. rewrite (nonempty_text d "content").
  destruct (String.eqb_spec (text_or_empty (jget d "content")) "") as [|N]; [done|]. cbn [negb].
  destruct (blank_feed _ _) as [[v|] det] eqn:B; [|done]. intros [= <-].
  exists (add_content (text_or_empty (jget d "content")) det w0). split; [by rewrite T3 in B|]. cbn. by rewrite T1, T4.
Qed.

(** ** The text so far and its detector *)

Lemma scan_finds_run t s : (0 < t)%Z -> (blank_scan t 0 s).2 = true <-> has_blank_run t s.
Proof. intros T. change 0%Z with (tlen []). rewrite (blank_scan_spec t []); [done|constructor|unfold tlen; simpl; lia]. Qed.

(** The detector has read exactly the content, and found nothing in it. *)
Definition quiet (t : Z) (w : Watched) : Prop :=
  blank_inv t (code_points (wt_content w)) (wt_detector w) /\ bd_verdict (wt_detector w) = None.

Lemma quiet_no_run t w : (0 < t)%Z -> quiet t w -> ~ has_blank_run t (code_points (wt_content w)).
Proof. intros T [[_ I] V] H. rewrite V in I. apply scan_finds_run in H; [|done]. by rewrite I in H. Qed.

Lemma quiet_init t model request_id now : quiet t (watched_init model request_id now (blank_init t)).
Proof. done. Qed.

Lemma quiet_feed t w e :
  (0 < t)%Z -> quiet t w ->
  blank_inv t (code_points (wt_content w ++ piece_of e)) (feed_piece w e).2 /\ bd_verdict (feed_piece w e).2 = (feed_piece w e).1.
Proof.
  intros T [I V]. split; [|by apply feed_verdict]. rewrite code_points_app.
  apply (blank_inv_step t _ _ (Some (code_points (piece_of e))) T I).
Qed.

Lemma quiet_step t w e w' : (0 < t)%Z -> quiet t w -> watch_event w e = inl w' -> quiet t w'.
Proof.
  intros T Q H. destruct (watch_event_inl _ _ _ H) as (C & _ & F & _). destruct (quiet_feed t w e T Q) as [I V].
  rewrite F in I, V. unfold quiet. rewrite C. done.
Qed.

(** The counts are of tokens. *)
Definition counted (w : Watched) : Prop :=
  (0 <= wt_input_tokens w)%Z /\ (0 <= wt_output_tokens w)%Z /\ forall n, wt_cached_tokens w = Some n -> (0 <= n)%Z.

Lemma counted_step w w' us : counted w -> counts w' = foldl count_usage (counts w) us -> counted w'.
Proof.
  intros K. enough (P : let '(a, b, c, _) := foldl count_usage (counts w) us in
                        (0 <= a)%Z /\ (0 <= b)%Z /\ forall n, c = Some n -> (0 <= n)%Z).
  { intros E. rewrite <- E in P. exact P. }
  assert (K' : let '(a, b, c, _) := counts w in (0 <= a)%Z /\ (0 <= b)%Z /\ forall n, c = Some n -> (0 <= n)%Z) by exact K.
  revert K'. generalize (counts w). induction us as [|u us IH]; intros [[[a b] c] l] (A & B & C); [done|]. apply IH. unfold count_usage.
  split; [by apply coerce_nonneg|]. split; [by apply coerce_nonneg|].
  intros n. destruct (extract_cached_tokens (JDict u)) eqn:X; [intros E; injection E as <-; by eapply cached_nonneg|apply C].
Qed.

(** ** Through the relay *)

Definition aborts (f : CallFailure) : bool := match f with CallAborted _ => true | _ => false end.

Definition never_aborts {A} (m : BM A) : Prop := forall s f s', m s = (inl f, s') -> aborts f = false.

Lemma na_ret {A} (a : A) : never_aborts (mret a).
Proof. by intros s f s' [=]. Qed.
Lemma na_bind {A B} (m : BM A) (f : A -> BM B) : never_aborts m -> (forall a, never_aborts (f a)) -> never_aborts (m ≫= f).
Proof.
  intros M F s e s'. unfold mbind, bm_bind. destruct (m s) as [[e'|a] s1] eqn:E; [|apply F].
  intros [= <- <-]. by eapply M.
Qed.
Lemma na_tally g : never_aborts (tally g).
Proof. by intros s f s' [=]. Qed.
Lemma na_of_res {A} (x : res A) : never_aborts (of_res x).
Proof. intros s f s'. by destruct x; intros [=]; subst. Qed.
Lemma na_refused ep {A} (x : PR A) : never_aborts (refused ep x).
Proof. intros s f s'. by destruct x as [|[]]; intros [=]; subst. Qed.

Create HintDb aborting.
#[export] Hint Resolve na_ret na_tally na_of_res na_refused : aborting.

Lemma na_wire environ now ep p payload_type request_id : never_aborts (wire_request environ now ep p payload_type request_id).
Proof.
  assert (C : never_aborts (_canonical_switch ep now p)).
  { unfold _canonical_switch. repeat case_match; try apply na_bind; auto with aborting; intros; auto with aborting; by case_match; auto with aborting. }
  unfold wire_request. apply na_bind; [auto with aborting|intros path]. apply na_bind; [auto with aborting|intros headers].
  destruct (String.eqb payload_type "chat_completion"); [|auto with aborting].
  apply na_bind; [done|intros q]. apply na_bind; auto with aborting.
Qed.

Lemma gate_never_aborts role msg fin n e : empty_completion_error role msg fin n = Ret (Some e) -> aborts e = false.
Proof.
  unfold empty_completion_error. intros (c & _ & H)%res_bind_Ret. destruct (_ || _)%bool; [done|]. cbv zeta in H.
  apply res_bind_Ret in H as (r & _ & H). case_match; by injection H as <-.
Qed.

(** Whatever holds of a reader after every event holds of it when the stream ends. *)
Section PullInv.
Context {A R : Type} (step : A -> StreamEvent -> A + R) (I : A -> Prop) (Q : R -> Prop).
Hypothesis step_keeps : forall a e, I a -> match step a e with inl a => I a | inr r => Q r end.

Lemma consume_inv evs a : I a -> match consume step evs a with inl a => I a | inr r => Q r end.
Proof.
  revert a. induction evs as [|e evs IH]; intros a H; simpl; [done|].
  pose proof (step_keeps a e H). by destruct (step a e); [apply IH|].
Qed.

Definition pulled_ok (x : Pulled A R) : Prop :=
  match x with
  | Exhausted a | TimedOut a => I a
  | Stopped r => Q r
  | Failed a f => I a /\ aborts f = false
  end.

Lemma after_inv evs a : I a -> pulled_ok (after step evs a Exhausted).
Proof. intros H. unfold after. pose proof (consume_inv evs a H). by destruct (consume step evs a). Qed.

Lemma relay_line_failure float_text ep cap line y evs y' f :
  relay_line float_text ep cap line y = (evs, y', LineFailed f) -> aborts f = false.
Proof. unfold relay_line. intros H. repeat (case_match; simplify_eq; try done). Qed.

Lemma pull_inv float_text ep cap timeout_text ending lines y a :
  I a -> pulled_ok (pull float_text step ep cap timeout_text ending lines y a).1.
Proof.
  revert y a. induction lines as [|line lines IH]; intros y a H; cbn [pull].
  - destruct ending as [|f|]; [destruct (release _); by apply after_inv|split; [done|by destruct f]|done].
  - destruct (relay_line float_text ep cap line y) as [[evs y'] e] eqn:RL. pose proof (consume_inv evs a H) as C.
    destruct (consume step evs a) as [a'|r]; [|done]. destruct e as [| |f]; [by apply IH| |].
    + destruct (release _). by apply after_inv.
    + split; [done|]. by eapply relay_line_failure.
Qed.

Lemma stream_with_inv float_text environ now a ep p payload_type request_id timeout_text open s out s' :
  I a -> stream_with float_text environ now step a ep p payload_type request_id timeout_text open s = (inr out, s') -> pulled_ok out.
Proof.
  intros H E. unfold stream_with in E. step_inr E w s1 E1. destruct (open w) as [status text|f|lines ending].
  - injection E as <- _. done.
  - injection E as <- _. split; [done|]. by destruct f.
  - pose proof (pull_inv float_text ep (max_response_bytes_from_env environ) timeout_text ending lines
      (start_relay ep (wr_payload w) payload_type) a H) as P.
    destruct (pull _ _ _ _ _ _ _ _ _) as [x y]. step_inr E u s2 E2. by injection E as <- _.
Qed.

Lemma stream_with_never_aborts float_text environ now a ep p payload_type request_id timeout_text open :
  never_aborts (stream_with float_text environ now step a ep p payload_type request_id timeout_text open).
Proof.
  unfold stream_with. apply na_bind; [apply na_wire|intros w]. destruct (open w); [auto with aborting..|].
  destruct (pull _ _ _ _ _ _ _ _ _) as [x y]. apply na_bind; [|auto with aborting].
  unfold note_relay. repeat case_match; auto with aborting.
Qed.
End PullInv.

(** ** The answer put together *)

Definition assembled_choice (w : Watched) : dict string json :=
  [("index", JInt 0); ("message", JDict (assembled_message w)); ("logprobs", wt_logprobs w);
   ("finish_reason", wt_finish_reason w); ("stop_reason", wt_stop_reason w)].

Lemma assembled_get w k : k <> "usage" ->
  jget (_assemble_body w) k =
  jget [("id", JStr (wt_resp_id w)); ("object", JStr (wt_obj w)); ("created", wt_created w);
        ("model", JStr (wt_model w)); ("choices", JList [JDict (assembled_choice w)])] k.
Proof. intros N. unfold _assemble_body, jget. destruct (known_usage w); [|done]. by rewrite dget_dset_ne. Qed.

Lemma assembled_message_dict w : or_dict (JDict (assembled_message w)) = Ret (assembled_message w).
Proof.
  unfold or_dict. replace (truthy (JDict (assembled_message w))) with true; [done|].
  unfold assembled_message. case_match; [done|]. simpl. by repeat case_decide.
Qed.

Lemma assembled_first w : Forced.first_choice (_assemble_body w) (JDict []) = Ret (JDict (assembled_choice w)).
Proof. unfold Forced.first_choice. by rewrite assembled_get. Qed.

Lemma assembled_judged w : judged_message (JDict (_assemble_body w)) = Ret (assembled_choice w, assembled_message w).
Proof.
  unfold judged_message. rewrite assembled_first, !res_ret_bind.
  change (or_dict (JDict (assembled_choice w))) with (Ret (assembled_choice w)). rewrite res_ret_bind.
  change (jget (assembled_choice w) "message") with (JDict (assembled_message w)). by rewrite assembled_message_dict.
Qed.

Lemma assembled_content w : jget (assembled_message w) "content" = JStr (wt_content w) \/ wt_reasoning_key w = "content".
Proof.
  unfold assembled_message. case_match; [by left|]. destruct (String.eqb_spec (wt_reasoning_key w) "content") as [|N]; [by right|].
  left. unfold jget. by rewrite dget_dset_ne.
Qed.

Lemma assembled_usage w u : wt_last_usage w = Some u -> jget (_assemble_body w) "usage" = JDict u.
Proof. intros E. unfold _assemble_body, known_usage, jget. by rewrite E, dget_dset_eq. Qed.

(** The reasoning goes to a reasoning field. *)
Definition keyed (w : Watched) : Prop := wt_reasoning_key w ∈ ["reasoning"; "reasoning_content"].

Lemma keyed_content w : keyed w -> jget (assembled_message w) "content" = JStr (wt_content w).
Proof.
  intros K. destruct (assembled_content w) as [|E]; [done|]. unfold keyed in K. rewrite E in K. exfalso. revert K. by_decide.
Qed.

Lemma keyed_step w e w' : keyed w -> watch_event w e = inl w' -> keyed w'.
Proof.
  assert (T : forall d w, keyed w -> keyed (take_reasoning d w)).
  { intros d x K. unfold take_reasoning, keyed. repeat case_match; [by left|by right; left|done]. }
  assert (D : forall d w w', keyed w -> watch_delta d w = inl w' -> keyed w').
  { intros d x x' K. unfold watch_delta. case_match; [|intros [= <-]; by apply T].
    destruct (blank_feed _ _) as [[v|] det]; [discriminate|]. intros [= <-]. by apply T. }
  assert (V : forall p w, keyed w -> keyed (note_envelope p w))
    by (intros p x; unfold note_envelope, keyed; by destruct (jget p "usage")).
  intros K. destruct e as [data [[| | | | | |p]|]| |]; try (by intros [= <-]). simpl. unfold watch_chunk.
  pose proof (V p w K) as K'. destruct (truthy _); [|by intros [= <-]].
  destruct (ThinkBleed.first_choice _) as [[| | | | | |choice]|]; try (by intros [= <-]).
  destruct (jget choice "delta"); try (by intros [= <-]). by apply D.
Qed.

(** What holds of the loop's locals between two events. *)
Definition loop_inv (t : Z) (w : Watched) : Prop := quiet t w /\ counted w /\ keyed w.

Definition stop_ok (t : Z) (r : WatchStop) : Prop :=
  match r with
  | SawDone w => loop_inv t w
  | BlankRun a => exists c, aborted_content a = JStr c /\ has_blank_run t (code_points c) /\ bv_run (ab_verdict a) = t
                            /\ (1 <= ab_output_tokens a)%Z
  | LoopFault _ => True
  end.

Lemma assembled_aborted w a : jget (assembled_message w) "content" = JStr (wt_content w) ->
  ab_body_so_far a = _assemble_body w -> aborted_content a = JStr (wt_content w).
Proof.
  intros C E. unfold aborted_content, first_message. rewrite E, assembled_first, res_ret_bind.
  change (or_dict (JDict (assembled_choice w))) with (Ret (assembled_choice w)). rewrite res_ret_bind.
  change (jget (assembled_choice w) "message") with (JDict (assembled_message w)). rewrite assembled_message_dict, C.
  cbn [truthy]. by destruct (String.eqb_spec (wt_content w) "") as [->|].
Qed.

Lemma blank_stop t w e a :
  (0 < t)%Z -> loop_inv t w -> watch_event w e = inr (BlankRun a) -> stop_ok t (BlankRun a).
Proof.
  intros T (Q & C & K) H. destruct (watch_event_stop _ _ _ H) as (w' & F & CT & B & O & KE & CS).
  destruct (quiet_feed t w e T Q) as [[_ I] V]. rewrite F in I, V. cbn [fst snd] in I, V. rewrite V in I. destruct I as (I1 & I2 & _).
  rewrite <- CT in I1. apply scan_finds_run in I1; [|done]. exists (wt_content w').
  assert (K' : keyed w') by (unfold keyed; by rewrite KE).
  split; [by apply assembled_aborted; [apply keyed_content|]|]. split; [done|]. split; [done|].
  destruct (counted_step _ _ _ C CS) as (_ & N & _). rewrite O. unfold counted_or_estimated, estimate_tokens_from_chars.
  destruct (Z.eqb_spec (wt_output_tokens w') 0); lia.
Qed.

Lemma watched_step t : (0 < t)%Z -> forall w e, loop_inv t w ->
  match watch_event w e with inl w' => loop_inv t w' | inr r => stop_ok t r end.
Proof.
  intros T w e I. destruct (watch_event w e) as [w'|[w'|a|f]] eqn:E.
  - destruct I as (Q & C & K). destruct (watch_event_inl _ _ _ E) as (_ & _ & _ & CS).
    split; [by eapply quiet_step|]. split; [by eapply counted_step|by eapply keyed_step].
  - apply watch_event_stop in E as ->. done.
  - by eapply blank_stop.
  - done.
Qed.

Lemma loop_init t model request_id now : loop_inv t (watched_init model request_id now (blank_init t)).
Proof. split; [done|]. split; [|by right; left]. split; [done|]. split; [done|]. by intros n [=]. Qed.

(** ** The response *)

Lemma settle_keeps w : wt_content (settle_tokens w) = wt_content w /\ assembled_message (settle_tokens w) = assembled_message w
  /\ wt_finish_reason (settle_tokens w) = wt_finish_reason w /\ (counted w -> counted (settle_tokens w)).
Proof.
  unfold settle_tokens. destruct (wt_last_usage w); [done|]. destruct (String.eqb (wt_content w) ""); [done|].
  split; [done|]. split; [done|]. split; [done|]. intros (A & B & C). split; [done|]. split; [|done].
  cbn. unfold estimate_tokens_from_chars. lia.
Qed.

Definition good_response (t : Z) (r : BackendResponse) : Prop :=
  exists choice msg c, judged_message (br_body r) = Ret (choice, msg) /\ has_answer msg /\ br_finish_reason r = jget choice "finish_reason"
  /\ jget msg "content" = JStr c /\ ~ has_blank_run t (code_points c)
  /\ (0 <= br_input_tokens r)%Z /\ (0 <= br_output_tokens r)%Z /\ (forall n, br_cached_tokens r = Some n -> (0 <= n)%Z).

Lemma response_good t role duration w r :
  (0 < t)%Z -> loop_inv t w -> watched_response role "chat_completion" duration w = Ret (inr r) -> good_response t r.
Proof.
  intros T (Q & C & K) H. unfold watched_response in H. rewrite String.eqb_refl in H.
  destruct (settle_keeps w) as (E1 & E2 & E3 & E4). apply res_bind_Ret in H as (err & G & H).
  destruct err as [e|]; [done|]. injection H as <-. destruct (E4 C) as (N1 & N2 & N3).
  exists (assembled_choice (settle_tokens w)), (assembled_message (settle_tokens w)), (wt_content w). cbn [br_body br_finish_reason br_input_tokens br_output_tokens br_cached_tokens].
  rewrite assembled_judged. split; [done|]. split; [by eapply gate_passes|]. split; [done|].
  split; [rewrite E2; by apply keyed_content|]. split; [by apply quiet_no_run|]. done.
Qed.

(** C21 How a watched call ends.  With a threshold above zero, a response has a text
    or, where the caller is given one, tool calls, no run of blanks of that
    length in its text, and no negative count; and when the call is aborted, the
    text handed over does hold such a run, of exactly the threshold, and is
    charged at least one token. *)
Theorem watched_stops_at_blank_run float_text environ now ep p request_id t timeout_text duration open s out s' :
  (0 < t)%Z ->
  call_watched float_text environ now ep p "chat_completion" request_id (blank_init t) timeout_text duration open s = (out, s') ->
  (forall r, out = inr r -> good_response t r)
  /\ (forall a, out = inl (CallAborted a) -> stop_ok t (BlankRun a)).
Proof.
  intros T H. unfold call_watched in H. cbv zeta in H. unfold mbind, bm_bind in H.
  destruct (stream_with _ _ _ _ _ _ _ _ _ _ _ _) as [[f|x] s1] eqn:E.
  - injection H as <- <-. apply stream_with_never_aborts in E. split; [done|]. intros a [= ->]. done.
  - apply (stream_with_inv watch_event (loop_inv t) (stop_ok t) (watched_step t T)) in E; [|apply loop_init].
    assert (F : forall w s out s', loop_inv t w ->
      (of_res (watched_response (wi_role ep) "chat_completion" duration w)
         ≫= fun r => match r with inl e => throw e | inr resp => mret resp end) s = (out, s') ->
      (forall r, out = inr r -> good_response t r) /\ (forall a, out = inl (CallAborted a) -> stop_ok t (BlankRun a))).
    { intros w s2 out2 s3 I. unfold mbind, bm_bind. destruct (watched_response _ _ _ _) as [[e|resp]|e] eqn:W; intros [= <- <-].
      - split; [done|]. intros a [= ->]. unfold watched_response in W. rewrite String.eqb_refl in W.
        apply res_bind_Ret in W as ([e|] & G & W); [|done]. injection W as ->. by apply gate_never_aborts in G.
      - split; [|done]. intros r [= <-]. by eapply response_good.
      - done. }
    destruct x as [w|[w|a|e]|w f|w]; cbn [pulled_ok stop_ok] in E.
    + by eapply F.
    + by eapply F.
    + injection H as <- <-. split; [done|]. intros a' [= <-]. exact E.
    + by injection H as <- <-.
    + injection H as <- <-. split; [done|]. intros a [= ->]. by destruct E.
    + by injection H as <- <-.
Qed.

(** ** The plain call on the same answer *)

Lemma watched_reassembles evs w w' :
  consume watch_event evs w = inl w' ->
  wt_content w' = wt_content w ++ sjoin (map piece_of evs) /\ wt_reasoning w' = wt_reasoning w ++ sjoin (map thought_of evs)
  /\ counts w' = foldl count_usage (counts w) (concat (map usage_of evs)).
Proof.
  revert w. induction evs as [|e evs IH]; intros w H.
  - injection H as <-. cbn. by rewrite !sapp_nil_r.
  - cbn [consume] in H. destruct (watch_event w e) as [w1|] eqn:E; [|done].
    destruct (watch_event_inl _ _ _ E) as (C & R & _ & N). destruct (IH w1 H) as (-> & -> & ->).
    rewrite C, R, N. cbn [map sjoin foldr concat]. rewrite foldl_app, !sapp_assoc. done.
Qed.

Lemma bm_ret_res {A B} (a : A) (f : A -> BM B) s : (of_res (Ret a) ≫= f) s = f a s.
Proof. done. Qed.

Lemma bm_ret_bind {A B} (a : A) (f : A -> BM B) s : (mret a ≫= f) s = f a s.
Proof. done. Qed.

(** Which wire a request went over does not show in its answer.  For events that
    carry one usage block and no abort, the answer put together holds every piece
    of content and of reasoning in order, and where it needs no repair it is
    judged as the plain call judges the same body: the same response, counts and
    finish reason included, or the same failure. *)
Theorem watched_as_called now ep wire request_id d evs w u duration s :
  consume watch_event evs (watched_init (pa_model_id (wi_args ep)) request_id now d) = inl w ->
  concat (map usage_of evs) = [u] -> _repairs_bleed ep "chat_completion" = false ->
  wt_content w = sjoin (map piece_of evs) /\ wt_reasoning w = sjoin (map thought_of evs)
  /\ accept_body now ep wire "chat_completion" 200 (JDict (_assemble_body w)) duration s
     = (match watched_response (wi_role ep) "chat_completion" duration w with Ret x => x | Raise e => inl (CallFault e) end, s).
Proof.
  intros H U R. destruct (watched_reassembles _ _ _ H) as (C & T & N). split; [done|]. split; [done|].
  rewrite U in N. change (counts w = count_usage (0%Z, 0%Z, None, None) u) in N.
  assert (X : wt_cached_tokens w = extract_cached_tokens (JDict u))
    by (apply (f_equal (fun c => c.1.2)) in N; cbn [counts count_usage fst snd] in N; rewrite N; by destruct (extract_cached_tokens (JDict u))).
  assert (NU : wt_last_usage w = Some u) by (by apply (f_equal snd) in N).
  assert (UT : usage_tokens (JDict u) = Ret (wt_input_tokens w, wt_output_tokens w)).
  { pose proof (f_equal (fun c => c.1.1.1) N) as NI. pose proof (f_equal (fun c => c.1.1.2) N) as NO.
    cbn [counts count_usage fst snd] in NI, NO. rewrite NI, NO. unfold usage_tokens. by destruct u. }
  assert (S : settle_tokens w = w) by (unfold settle_tokens; by rewrite NU).
  unfold accept_body, watched_response. cbn [body_get]. rewrite (assembled_usage w u NU), S, R, String.eqb_refl.
  rewrite !bm_ret_res. rewrite UT, !bm_ret_res. rewrite !bm_ret_bind, assembled_judged, bm_ret_res.
  change (jget (assembled_choice w) "finish_reason") with (wt_finish_reason w).
  destruct (empty_completion_error _ _ _ _) as [[e|]|e]; [done| |done]. by rewrite X.
Qed.
