(* ===== verification/Probes.v ===== *)
(** * The probes and the client pool (backend.py)

    What the pollers ask a backend outside its traffic: every probe answers
    what the backend said or [None], never a failure.  A GET is answered by a
    [ProbeAnswer]; the body is [None] where it is no JSON.  The pool keeps one
    client per origin and the clients a larger one replaced: however it is used,
    every client it ever built is the current one of its origin, retired with its
    requests in flight, or closed ([pool_loses_no_client]). *)

From Stdlib Require Import Ascii QArith Lia ZArith.
From stdpp Require Import base list strings gmap.
From S2P Require Import Prelude PyDict PyText Config Json ThinkSwitch ThinkBleed ThinkStats Cost Queue JsonRead ToolStream Degen Effort Forced Correct Payload Provider Backend.

Local Open Scope string_scope.

Inductive ProbeAnswer := ProbeLost | ProbeStatus (status : Z) (body : option json).

(** The body of a 200. *)
Definition ok_body (a : ProbeAnswer) : option json :=
  match a with ProbeStatus status body => if (status =? 200)%Z then body else None | ProbeLost => None end.

Definition probe_props (a : ProbeAnswer) : option json := ok_body a.

Definition probe_health (a : ProbeAnswer) : bool :=
  match a with ProbeStatus status _ => (status =? 200)%Z | ProbeLost => false end.

Definition probe_json (a : ProbeAnswer) : option (dict string json) :=
  match ok_body a with Some (JDict d) => Some d | _ => None end.

(** The first row of [/v1/models]. *)
Definition first_model (a : ProbeAnswer) : option (dict string json) :=
  match probe_json a with
  | Some d => match jget d "data" with JList (JDict e :: _) => Some e | _ => None end
  | None => None
  end.

Definition probe_models (a : ProbeAnswer) : option string :=
  entry ← first_model a;
  match jget entry "id" with JStr s => if String.eqb s "" then None else Some s | _ => None end.

(** [{"max_model_len": mlen}]; a [True] there is an int to Python. *)
Definition probe_vllm_capacity (a : ProbeAnswer) : option (dict string json) :=
  entry ← first_model a;
  match jget entry "max_model_len" with
  | JInt n => if (0 <? n)%Z then Some [("max_model_len", JInt n)] else None
  | JBool true => Some [("max_model_len", JBool true)]
  | _ => None
  end.

Definition fingerprint_part (meta : dict string json) (field_label : string * string) : option string :=
  let '(field, label) := field_label in
  match jget meta field with
  | JInt n => if (0 <? n)%Z then Some (label ++ "=" ++ str_of_Z n) else None
  | JFloat _ q => if negb (Qle_bool q 0) then Some (label ++ "=" ++ str_of_Z (Qtrunc q)) else None
  | JStr s => if String.eqb (strip s) "" then None else Some (label ++ "=" ++ strip s)
  | _ => None
  end.

Definition probe_model_fingerprint (a : ProbeAnswer) : option string :=
  entry ← first_model a;
  let from_meta :=
    match jget entry "meta" with
    | JDict meta =>
        match omap (fingerprint_part meta) [("n_params", "params"); ("n_vocab", "vocab"); ("ftype", "ftype")] with
        | [] => None
        | parts => Some (String.concat ";" parts)
        end
    | _ => None
    end in
  match jget entry "root" with
  | JStr s => if String.eqb (strip s) "" then from_meta else Some (strip s)
  | _ => from_meta
  end.

Definition probe_not_implemented (a : ProbeAnswer) : option (gset string) :=
  body ← probe_json a;
  match jget body "not_implemented" with
  | JList raw => Some (list_to_set (omap (fun x => match x with JStr s => if String.eqb s "" then None else Some s | _ => None end) raw))
  | _ => None
  end.

(** ** The thinking-switch canary *)

Definition switch_probe_payload (model_id key nonce : string) : dict string json :=
  [("model", JStr model_id);
   ("messages", JList [JDict [("role", JStr "user");
                              ("content", JStr ("In one short sentence, why is the sky blue? (ref " ++ nonce ++ ")"))]]);
   ("max_tokens", JInt 200); ("temperature", JFloat "0.0" 0); ("chat_template_kwargs", JDict [(key, JBool true)])].

(** [len(x)] *)
Definition len_of (j : json) : option Z :=
  match j with
  | JStr s => Some (slen s)
  | JList l => Some (Z.of_nat (length l))
  | JDict d => Some (Z.of_nat (length d))
  | _ => None
  end.

Definition or_text (j : json) : json := if truthy j then j else JStr "".

(** How much reasoning and how much content came back. *)
Definition probe_thinking_switch (a : ProbeAnswer) : option (Z * Z) :=
  body ← probe_json a;
  match jget body "choices" with
  | JList (JDict choice :: _) =>
      msg ← match jget choice "message" with JDict m => Some m | j => if truthy j then None else Some [] end;
      let reasoning := or_text (if truthy (jget msg "reasoning") then jget msg "reasoning" else jget msg "reasoning_content") in
      r ← len_of reasoning;
      c ← len_of (or_text (jget msg "content"));
      Some (r, c)
  | _ => None
  end.

(** ** The prefix touch *)

Record TouchReport := mkTouch { prompt_tokens : option Z; cached_tokens : option Z }.

Definition touch_report (body : json) : TouchReport :=
  match body with
  | JDict d =>
      match jget d "usage" with
      | JDict ((_ :: _) as u) => mkTouch (Some (coerce_token_count (jget u "prompt_tokens") 0)) (extract_cached_tokens (JDict u))
      | _ => mkTouch None None
      end
  | _ => mkTouch None None
  end.

Definition probe_prefix_touch (environ : string -> option string) (now : Q) (ep : WireConfig) (p : dict string json)
    (token : string) (post : WireRequest -> ProbeAnswer) : BM (option TouchReport) :=
  fun s =>
    match wire_request environ now ep p "chat_completion" ("prefix-keepalive-" ++ token) s with
    | (inl (CallFault e), s) => (inl (CallFault e), s)
    | (inl _, s) => (inr None, s)
    | (inr w, s) => (inr (touch_report <$> ok_body (post w)), s)
    end.

(** ** Capacity discovery, per provider *)

Definition discover_capacity (environ : string -> option string) (float_repr : Q -> string) (ep : WireConfig) (a : ProbeAnswer) : PR (option CapacityReport) :=
  match provider_for ep with
  | LLAMACPP =>
      match probe_props a with
      | Some props =>
          if truthy props then
            match props with
            | JDict raw => py (c ← llamacpp_capacity float_repr raw; Ret (Some c))
            | _ => Refused (PyFault AttributeError)
            end
          else Fine None
      | None => Fine None
      end
  | VLLM => Fine (vllm_capacity <$> probe_vllm_capacity a)
  | OPENROUTER =>
      match request_headers environ OPENROUTER (wi_role ep) (wi_api_key_env ep) "capacity-probe" with
      | Refused (ProviderMisconfigured _) => Fine None
      | Refused e => Refused e
      | Fine _ =>
          match probe_json a with
          | Some ((_ :: _) as body) => py (openrouter_capacity (JDict body) (pa_model_id (wi_args ep)))
          | _ => Fine None
          end
      end
  end.

Definition list_available_models (environ : string -> option string) (ep : WireConfig) (a : ProbeAnswer) : PR (list ModelRow) :=
  match provider_for ep with
  | OPENROUTER =>
      _ ← request_headers environ OPENROUTER (wi_role ep) (wi_api_key_env ep) "model-list";
      py (parse_models (match probe_json a with Some body => JDict body | None => JNull end))
  | _ => Fine []
  end.

(** ** A shadow call *)

(** Its answer, or nothing: no failure of it is ever raised. *)
Definition call_shadow (payload_type : string) (duration : Q) (a : ProbeAnswer) : option BackendResponse :=
  match path_for DEFAULT_PROVIDER payload_type, a with
  | Fine _, ProbeStatus status (Some (JDict body)) =>
      if (400 <=? status)%Z then None
      else
        usage ← (if truthy (jget body "usage") then match jget body "usage" with JDict u => Some u | _ => None end else Some []);
        Some (mkResponse status (JDict body) duration (coerce_token_count (jget usage "prompt_tokens") 0)
                (coerce_token_count (jget usage "completion_tokens") 0) JNull (extract_cached_tokens (JDict usage)))
  | _, _ => None
  end.

(** ** The client pool *)

Module Pool.
(** A client: the order it was built in and its limits. *)
Record Client := mkClient { cl_id : nat; max_connections : Z; max_keepalive_connections : Z }.

Record State := mkState {
  _clients : dict string (Client * Z);
  _retired : list Client;
  built : nat
}.

Definition init : State := mkState [] [] 0.

Definition _client_for (base_url : string) (min_pool : Z) (s : State) : Client * State :=
  let want := Z.max 20 min_pool in
  let fresh := mkClient (built s) want (Z.max 10 (want / 2)) in
  match dget (_clients s) base_url with
  | Some (client, built_with) =>
      if (want <=? built_with)%Z then (client, s)
      else (fresh, mkState (dset (_clients s) base_url (fresh, want)) (_retired s ++ [client])%list (S (built s)))
  | None => (fresh, mkState (dset (_clients s) base_url (fresh, want)) (_retired s) (S (built s)))
  end.

(** The clients closed, in order, and the pool left. *)
Definition close (s : State) : list Client * State :=
  ((map (fun kv => kv.2.1) (_clients s) ++ _retired s)%list, mkState [] [] (built s)).
End Pool.

Import Pool.

Inductive PoolOp := Get (base_url : string) (min_pool : Z) | Close.

(** A use of the pool, with the clients it closes. *)
Definition pool_step (o : PoolOp) (s : State) : list Client * State :=
  match o with
  | Get base_url min_pool => ([], (_client_for base_url min_pool s).2)
  | Close => close s
  end.

Fixpoint pool_run (ops : list PoolOp) (s : State) : list Client * State :=
  match ops with
  | [] => ([], s)
  | o :: ops =>
      let '(closed, s) := pool_step o s in
      let '(closed', s) := pool_run ops s in
      ((closed ++ closed')%list, s)
  end.

Definition current (s : State) : list Client := map (fun kv : string * (Client * Z) => kv.2.1) (_clients s).
Definition held (s : State) : list Client := (current s ++ _retired s)%list.

(** A current client is as large as the pool says, and never below the floor. *)
Definition sized (s : State) : Prop :=
  dwf (_clients s) /\ forall url c n, dget (_clients s) url = Some (c, n) -> max_connections c = n /\ (20 <= n)%Z.

Lemma dset_permutes {V} (d : dict string V) k v : dwf d ->
  match dget d k with
  | None => map snd (dset d k v) = (map snd d ++ [v])%list
  | Some old => v :: map snd d ≡ₚ old :: map snd (dset d k v)
  end.
Proof.
  intros W. destruct (dget d k) as [old|] eqn:E; [|by rewrite dset_new, map_app].
  revert E W. induction d as [|[a b] d IH]; simpl; [done|]. case_decide as D.
  - intros [= ->] _. simpl. apply Permutation_swap.
  - intros E [_ W]%NoDup_cons. specialize (IH E W). simpl.
    etrans; [apply Permutation_swap|]. etrans; [apply perm_skip, IH|]. apply Permutation_swap.
Qed.

Lemma current_set s base_url c n retired k : dwf (_clients s) ->
  match dget (_clients s) base_url with
  | Some (old, _) => held (mkState (dset (_clients s) base_url (c, n)) (_retired s ++ [old])%list k) ≡ₚ c :: held s
  | None => held (mkState (dset (_clients s) base_url (c, n)) retired k) = (current s ++ c :: retired)%list
  end.
Proof.
  intros W. pose proof (dset_permutes (_clients s) base_url (c, n) W) as P.
  assert (M : forall d : dict string (Client * Z), map (fun kv => kv.2.1) d = map fst (map snd d)) by (intros; by rewrite map_map).
  unfold held, current. cbn [_clients _retired]. rewrite !M. destruct (dget (_clients s) base_url) as [[old m]|].
  - apply (Permutation_map fst) in P. cbn [map fst] in P. rewrite app_assoc.
    rewrite <- Permutation_cons_append. rewrite (app_comm_cons _ _ c), P. done.
  - rewrite P, map_app. cbn. by rewrite <- app_assoc.
Qed.

(** Every client built is held once. *)
Definition accounted (closed : list Client) (s : State) : Prop :=
  map cl_id (closed ++ held s) ≡ₚ seq 0 (built s) /\ sized s.

Lemma get_accounted base_url n closed s : accounted closed s -> accounted closed (_client_for base_url n s).2.
Proof.
  intros [P [W Z]]. unfold _client_for. cbv zeta.
  set (fresh := mkClient (built s) (Z.max 20 n) (Z.max 10 (Z.max 20 n / 2))).
  assert (SZ : forall r k, sized (mkState (dset (_clients s) base_url (fresh, Z.max 20 n)) r k)).
  { intros r k. split; cbn [_clients]; [by apply dwf_dset|]. intros url c m. rewrite dget_dset. case_decide as D; [|apply Z].
    intros [= <- <-]. split; [done|lia]. }
  assert (G : forall r k, held (mkState (dset (_clients s) base_url (fresh, Z.max 20 n)) r k) ≡ₚ fresh :: held s ->
    map cl_id (closed ++ held (mkState (dset (_clients s) base_url (fresh, Z.max 20 n)) r k)) ≡ₚ seq 0 (S (built s))).
  { intros r k ->. rewrite map_app. cbn [map]. rewrite <- Permutation_middle, <- map_app, P.
    rewrite seq_S. apply Permutation_cons_append. }
  pose proof (current_set s base_url fresh (Z.max 20 n)) as C.
  destruct (dget (_clients s) base_url) as [[old m]|] eqn:E.
  - destruct (Z.max 20 n <=? m)%Z; [by split|]. split; [|apply SZ]. apply G. by apply (C []).
  - split; [|apply SZ]. apply G. rewrite C by done. by rewrite <- Permutation_middle.
Qed.

Lemma close_accounted closed s : accounted closed s -> accounted (closed ++ (close s).1) (close s).2.
Proof.
  intros [P _]. split.
  - unfold held, close. cbn. rewrite app_nil_r. exact P.
  - split; [apply NoDup_nil_2|]. by intros url c n [=].
Qed.

Lemma run_accounted ops closed s : accounted closed s ->
  accounted (closed ++ (pool_run ops s).1) (pool_run ops s).2.
Proof.
  revert closed s. induction ops as [|o ops IH]; intros closed s A; simpl; [by rewrite app_nil_r|].
  assert (B : accounted (closed ++ (pool_step o s).1) (pool_step o s).2).
  { destruct o as [url n|]; cbn [pool_step fst snd]; [rewrite app_nil_r; by apply get_accounted|by apply close_accounted]. }
  destruct (pool_step o s) as [c1 s1]. cbn [fst snd] in B. apply IH in B.
  destruct (pool_run ops s1) as [c2 s2]. cbn [fst snd] in *. rewrite <- app_assoc in B. exact B.
Qed.

(** Through any use of the pool, a client asked for is large enough for the
    endpoint's slots and is from then on the client of its origin; the clients of
    the other origins stay; and each client ever built is, once, among those
    current, retired or closed, so a close leaves none open. *)
Theorem pool_loses_no_client ops base_url min_pool :
  let '(closed, s) := pool_run ops init in
  let '(c, s') := _client_for base_url min_pool s in
  (Z.max 20 min_pool <= max_connections c)%Z /\ (exists n, dget (_clients s') base_url = Some (c, n))
  /\ (forall url, url <> base_url -> dget (_clients s') url = dget (_clients s) url)
  /\ map cl_id (closed ++ held s') ≡ₚ seq 0 (built s') /\ held (close s').2 = [] /\ (close s').1 = held s'.
Proof.
  pose proof (run_accounted ops [] init) as A. destruct (pool_run ops init) as [closed s]. cbn [fst snd app] in A.
  assert (A0 : accounted closed s) by (apply A; split; [done|]; split; [apply NoDup_nil_2|by intros ? ? ? [=]]).
  pose proof (get_accounted base_url min_pool closed s A0) as [P _]. destruct A0 as [_ [W Z]].
  unfold _client_for in *. destruct (dget (_clients s) base_url) as [[old m]|] eqn:E.
  - destruct (Z.leb_spec (Z.max 20 min_pool) m) as [L|L].
    + split; [by destruct (Z _ _ _ E) as [-> _]|]. split; [eauto|]. done.
    + split; [done|]. cbn [_clients]. split; [rewrite dget_dset_eq; eauto|].
      split; [intros url N; by rewrite dget_dset_ne|done].
  - split; [done|]. cbn [_clients]. split; [rewrite dget_dset_eq; eauto|].
    split; [intros url N; by rewrite dget_dset_ne|done].
Qed.
