(* ===== verification/AnswerDemo.v ===== *)
(** * Runs on concrete answers

    One endpoint with every correction switched on and requests that exercise
    them; then a llama.cpp endpoint with the answers and the streams a backend
    could send it; and what the theorems say of them. *)

From Stdlib Require Import Lia ZArith QArith Ascii.
From stdpp Require Import base list strings.
From S2P Require Import Prelude PyDict PyText Config Json ThinkSwitch ThinkBleed ThinkStats Cost Queue JsonRead ToolStream Degen Effort EffortProps Forced ForcedProps Correct CorrectProps DegenProps Payload Provider ProviderProps Backend BackendProps Watched WatchedProps.

Local Open Scope string_scope.

(** ** A fleet of one model *)

Definition demo_roles : dict string string := [("thinker", "thinker")].

Definition demo_shaping (always_reasons : bool) : Shaping := {|
  sh_class := "thinker"; sh_role := "thinker"; thinking_kwargs := ["enable_thinking"]; reasoning_effort := "high";
  thinking_effort := ""; forces_reasoning := always_reasons; sh_forced_budget := 0; sh_thinking_budget := 0;
  reasoning_effort_map := [("low", "medium"); ("high", "high")]; disable_any_whitespace := true;
  not_implemented := ["response_format"]; mislabels_truncated_tool_calls := true |}.

Definition demo_fleet (always_reasons : bool) : dict string Shaping := [("thinker", demo_shaping always_reasons)].

(** Every guard on, none in shadow. *)
Definition demo_switches : Switches := mkSwitches true false true true false true true.

Definition demo_float (s : string) : string := s.

(** A repair that reads nothing, and schemas that name required keys only. *)
Definition no_repair (_ : string) : option json := None.
Definition any_schema (_ : dict string json) : bool := true.
Definition has_required (schema : dict string json) (obj : json) : bool :=
  match obj with JDict d => forallb (dmem d) (_schema_required_keys (Some schema)) | _ => false end.
Definition no_violation (_ : dict string json) (_ : json) : option string := None.

(** A backend that is down, and a clock that stands still. *)
Definition down (_ : string) (_ : dict string json) (_ : Q) : Reply := Correct.Failed 1.
Definition noon (_ : nat) : Q := 0.

Definition demo_call (p : dict string json) : QueuedRequest :=
  with_payload (demo_req "r" "a" "thinker" INTERACTIVE 0 100) p.

Definition idle_state : CorrState := mkCorrState [] [] [] [] [] [] [] [] [] [].
Definition demo_shape (p : dict string json) : ShapeState := mkShapeState (demo_call p) ThinkBleedStats_init [] [] [].

(** A finished answer: its message and its count of tokens. *)
Definition demo_answer (finish : string) (m : dict string json) : dict string json :=
  [("choices", JList [JDict [("message", JDict m); ("finish_reason", JStr finish)]]);
   ("usage", JDict [("completion_tokens", JInt 12)])].

Definition demo_world (body : dict string json) : World :=
  mkWorld [("status", JStr "ok"); ("response", JDict body)] idle_state.

Definition run_demo (r : QueuedRequest) (w : World) : World :=
  (apply demo_float demo_roles (demo_fleet false) demo_switches no_repair any_schema has_required no_violation down noon r w).2.

(** ** Reasoning controls *)

Definition low_effort : dict string json :=
  [("messages", JList []); ("reasoning", JDict [("effort", JStr "low")]); ("max_tokens", JInt 100)].

Lemma caller_effort_wins_witness :
  shaped_effort (demo_shaping true) low_effort
    (r_payload (apply_forced_reasoning_budget demo_roles (demo_fleet true) 2048 (demo_call low_effort))).
Proof.
  apply (caller_effort_wins demo_roles (demo_fleet true) 2048 (demo_call low_effort) (demo_shaping true)); try reflexivity; try discriminate.
  apply (bool_decide_unpack _). vm_compute. exact I.
Defined.

Definition mixed_efforts : ShapeState :=
  demo_shape [("reasoning_effort", JStr " LOW "); ("chat_template_kwargs", JDict [("reasoning_effort", JStr "ultra")])].

Lemma no_unmapped_effort_witness : "medium" ∈ ["medium"; "high"].
Proof.
  apply (no_unmapped_effort demo_roles (demo_fleet true) mixed_efforts (demo_shaping true)); try reflexivity; try discriminate.
  right. reflexivity.
Defined.

Definition off_by_alias : ShapeState :=
  demo_shape [("messages", JList []); ("chat_template_kwargs", JDict [("thinking", JBool false)])].

Lemma caller_switch_survives_witness :
  dget (template_kwargs (r_payload (shaped_request demo_roles (demo_fleet true) 2048 2048 true 0 off_by_alias))) "enable_thinking"
  = Some (JBool false).
Proof.
  apply (caller_switch_survives demo_roles (demo_fleet true) 2048 2048 true 0 off_by_alias (demo_shaping true)); try reflexivity; try discriminate.
  by left.
Defined.

(** ** Schemas and answers *)

Definition verdict_schema : dict string json :=
  [("type", JStr "object"); ("required", JList [JStr "verdict"])].

Definition verdict_format : dict string json := [("name", JStr "the verdict"); ("schema", JDict verdict_schema)].

Definition schema_request : dict string json :=
  [("messages", JList []); ("response_format", JDict [("type", JStr "json_schema"); ("json_schema", JDict verdict_format)])].

Definition verdict : dict string json := [("verdict", JInt 7)].

Definition verdict_call : json :=
  JDict [("function", JDict [("name", JStr "the_verdict"); ("arguments", JDict verdict)])].

Definition verdict_message : dict string json := [("content", JNull); ("tool_calls", JList [verdict_call])].

Definition verdict_choice : dict string json := [("message", JDict verdict_message); ("finish_reason", JStr "tool_calls")].

Lemma schema_answer_round_trip_witness :
  exists body', _apply_forced_tool_answer demo_float (demo_answer "tool_calls" verdict_message) "the_verdict" = (Translated, body')
    /\ answered_with demo_float body' verdict (JStr "stop").
Proof.
  destruct (schema_answer_round_trip demo_float demo_roles (demo_fleet false) (demo_call schema_request) verdict_format verdict_schema)
    as (_ & _ & _ & _ & _ & _ & H); [|vm_compute; reflexivity|].
  - split; [reflexivity|]. split; [reflexivity|]. split; [|split; [reflexivity|split; reflexivity]].
    exists (demo_shaping false). split; [reflexivity|by left].
  - apply (H (demo_answer "tool_calls" verdict_message) verdict_choice verdict_message verdict).
    split; [reflexivity|]. split; [by exists []|]. split; [reflexivity|].
    exists [verdict_call], [("function", JDict [("name", JStr "the_verdict"); ("arguments", JDict verdict)])], [].
    split; [reflexivity|]. split; [vm_compute; reflexivity|]. left. split; [reflexivity|]. split; [reflexivity|]. simpl. done.
Defined.

Definition json_request : dict string json :=
  [("messages", JList []); ("response_format", JDict [("type", JStr "json_object")])].

(** The bare constraint left the payload; the answer is still judged by it. *)
Definition stripped_request : QueuedRequest :=
  shaped_request demo_roles (demo_fleet false) 2048 2048 true 0 (demo_shape json_request).

Example constraint_gone : jget (r_payload stripped_request) "response_format" = JNull /\ r_json_object_stripped stripped_request = true.
Proof. vm_compute. done. Qed.

Definition good_world : World := demo_world (demo_answer "stop" [("content", JStr (dumps_raw (JDict verdict)))]).
Definition prose_world : World := demo_world (demo_answer "stop" [("content", JStr "the verdict is seven")]).

Lemma structured_success_parses_witness :
  let d := w_result (run_demo stripped_request good_world) in
  result_ok d = true
  /\ forall response content, jget d "response" = JDict response -> _chat_completion_text response = JStr content ->
     is_Some (loads demo_float content) \/ strip content = "" \/ (exists e, usage_count "completion_tokens" response = Raise e).
Proof.
  split; [vm_compute; reflexivity|].
  apply (structured_success_parses demo_float demo_roles (demo_fleet false) demo_switches no_repair any_schema has_required no_violation down noon
           2048 2048 true 0 (demo_shape json_request) good_world); vm_compute; reflexivity.
Defined.

Lemma failed_answer_withheld_witness :
  result_ok (w_result (run_demo stripped_request prose_world)) = false
  /\ dget (w_result (run_demo stripped_request prose_world)) "response" = None.
Proof.
  assert (O : result_ok (w_result (run_demo stripped_request prose_world)) = false) by (vm_compute; reflexivity).
  destruct (failed_answer_withheld demo_float demo_roles (demo_fleet false) demo_switches no_repair any_schema has_required no_violation down noon
              stripped_request prose_world) as [E|(E & F & _)].
  - apply (bool_decide_unpack _). vm_compute. exact I.
  - reflexivity.
  - exfalso. unfold run_demo in O. rewrite O in E. discriminate.
  - split; assumption.
Defined.

Lemma good_answer_untouched_witness : w_result (run_demo stripped_request good_world) = w_result good_world.
Proof.
  apply (good_answer_untouched demo_float demo_roles (demo_fleet false) demo_switches no_repair any_schema has_required no_violation down noon
           stripped_request good_world (demo_answer "stop" [("content", JStr (dumps_raw (JDict verdict)))]) (dumps_raw (JDict verdict))).
  - split; vm_compute; reflexivity.
  - split; [reflexivity|]. split; vm_compute; reflexivity.
  - split; [vm_compute; reflexivity|]. intros _. right. exists None. split; vm_compute; reflexivity.
Defined.

(** ** A cut call *)

Definition tool_request : QueuedRequest :=
  demo_call [("messages", JList []); ("max_tokens", JInt 12); ("tools", JList [JDict [("type", JStr "function")]])].

Definition cut_body : dict string json :=
  demo_answer "tool_calls"
    [("content", JStr ""); ("tool_calls", JList [JDict [("function", JDict [("name", JStr "rm"); ("arguments", JStr "{")])]])].

Lemma cut_call_fails_loud_witness :
  withheld (w_result (run_demo tool_request (demo_world cut_body)))
  /\ "toolcall_truncated" ∈ corrections_applied tool_request (w_result (run_demo tool_request (demo_world cut_body))).
Proof.
  destruct (cut_call_fails_loud demo_float demo_roles (demo_fleet false) demo_switches no_repair any_schema has_required no_violation down noon
              tool_request (demo_world cut_body) cut_body "" (demo_shaping false)) as (_ & H & _ & K); try (vm_compute; reflexivity).
  - split; vm_compute; reflexivity.
  - split; [reflexivity|]. split; vm_compute; reflexivity.
  - apply (bool_decide_unpack _). vm_compute. exact I.
  - exists 12%Z. vm_compute. reflexivity.
  - exists 12%Z. vm_compute. reflexivity.
  - split; assumption.
Defined.

(** ** What the guards let through *)

(** With the backstop off the floor is the last guard.  It computes the token
    count for its message before it fails the result, so a usage that is not a
    number raises inside its try block and the prose is handed on as a success. *)
Definition floor_only : Switches := mkSwitches true false true false false true true.

Definition odd_usage : dict string json :=
  [("choices", JList [JDict [("message", JDict [("content", JStr "the verdict is seven")]); ("finish_reason", JStr "stop")]]);
   ("usage", JDict [("completion_tokens", JStr "many")])].

Example unreadable_usage_opens_floor :
  let w' := (apply demo_float demo_roles (demo_fleet false) floor_only no_repair any_schema has_required no_violation down noon
               stripped_request (demo_world odd_usage)).2 in
  result_ok (w_result w') = true /\ jget (w_result w') "response" = JDict odd_usage
  /\ request_expects_json stripped_request = true /\ loads demo_float "the verdict is seven" = None.
Proof. vm_compute. done. Qed.

(** A request for one of two words that also offers a tool.  Its first answer has
    a broken call; the retry answers with the word, which the first judgement
    would accept, and it is refused because the retry is asked for JSON. *)
Definition choice_request : QueuedRequest :=
  demo_call [("messages", JList []); ("extra_body", JDict [("guided_choice", JList [JStr "yes"; JStr "no"])]);
             ("tools", JList [JDict [("type", JStr "function")]])].

Definition yes_body : dict string json := demo_answer "stop" [("content", JStr "yes")].

Definition says_yes (_ : string) (_ : dict string json) (_ : Q) : Reply := Answered yes_body 1 1 1 (Some "stop").

Definition plain_fleet : dict string Shaping :=
  [("thinker", mkShaping "thinker" "thinker" [] "" "" false 0 0 [] false [] false)].

Example retry_demands_json_of_a_word :
  let w' := (apply demo_float demo_roles plain_fleet demo_switches no_repair any_schema has_required no_violation says_yes noon
               choice_request (demo_world cut_body)).2 in
  text_is (jget (w_result w') "code") "schema_invalid" = true /\ length (cs_sent (w_state w')) = 1%nat
  /\ retry_body demo_float no_repair any_schema has_required choice_request None (request_expects_json choice_request) yes_body
     = Ret (Some yes_body).
Proof. vm_compute. done. Qed.

(** The third spelling of an effort is out of the map's reach. *)
Definition nested_effort : ShapeState := demo_shape [("reasoning", JDict [("effort", JStr "ultra")])].

Example nested_effort_not_mapped :
  r_payload (ss_req (apply_reasoning_effort_map demo_roles (demo_fleet false) nested_effort)) = r_payload (ss_req nested_effort)
  /\ reasoning_effort_map (demo_shaping false) <> [].
Proof. vm_compute. done. Qed.

(** An opt-in whose schema block is a text raises out of the request side. *)
Definition text_schema : ShapeState :=
  demo_shape [("thinking", JBool true); ("response_format", JDict [("type", JStr "json_schema"); ("json_schema", JStr "verdict")])].

Example text_schema_raises :
  (shape_request demo_roles (demo_fleet false) 2048 2048 true 0 text_schema).1 = Raise AttributeError.
Proof. vm_compute. done. Qed.

Definition demo_ep : WireConfig := mkWire "tier1" "" "llamacpp" "" [] true false false (mkPrepare "served" 0 [] 0 off_float off_float).

Definition no_env : string -> option string := fun _ => None.
Definition same : string -> string := fun s => s.

Definition answer (content : string) : json :=
  JDict [("choices", JList [JDict [("message", JDict [("role", JStr "assistant"); ("content", JStr content)]); ("finish_reason", JStr "stop")]]);
         ("usage", JDict [("prompt_tokens", JInt 9); ("completion_tokens", JInt 3)])].

Definition post_answer (content : string) (w : WireRequest) : HttpAnswer := HttpResponse 200 (dumps (answer content)) (1 # 2).

Definition backend_call (content : string) : (CallFailure + BackendResponse) * ThinkBleedStats :=
  call same no_env 0 demo_ep demo_sent "chat_completion" "r1" "180" (post_answer content) ThinkBleedStats_init.

Definition no_response : BackendResponse := mkResponse 0 JNull 0 0 0 JNull None.
Definition response_of (x : (CallFailure + BackendResponse) * ThinkBleedStats) : BackendResponse :=
  match x.1 with inr r => r | inl _ => no_response end.

Lemma call_never_empty_witness : (br_status_code (response_of (backend_call "yes")) < 400)%Z.
Proof.
  refine (proj1 (proj2 (call_never_empty same no_env 0 demo_ep demo_sent "r1" "180" (post_answer "yes") ThinkBleedStats_init
    (response_of (backend_call "yes")) (backend_call "yes").2 _))).
  vm_compute. reflexivity.
Defined.

Lemma empty_answer_is_retried_witness :
  exists d, (backend_call " ").1 = inl (CallError 502 d) /\ is_transient_backend_error (BackendError (Some 502%Z) d) = true.
Proof.
  destruct (empty_answer_is_retried "tier1" [("content", JStr " ")] (JStr "stop") 3 _ eq_refl) as [_ H].
  destruct (H _ eq_refl) as (d & E & T). injection E as <-. eexists. split; [vm_compute; reflexivity|]. apply T.
  by intros [? _].
Defined.

Lemma no_switch_reaches_unswitchable_witness :
  exists w, wire_request no_env 0 demo_ep demo_sent "chat_completion" "r1" ThinkBleedStats_init
              = (inr w, (wire_request no_env 0 demo_ep demo_sent "chat_completion" "r1" ThinkBleedStats_init).2)
            /\ switch_free (wr_payload w).
Proof.
  eexists. split; [vm_compute; reflexivity|].
  eapply (no_switch_reaches_unswitchable no_env 0 demo_ep demo_sent "r1" ThinkBleedStats_init);
    [simpl; lia|reflexivity|reflexivity|vm_compute; reflexivity|vm_compute; reflexivity].
Defined.

(** *** A stream *)

Definition piece (t : string) : json := JDict [("choices", JList [JDict [("delta", JDict [("content", JStr t)])]])].
Definition last_chunk : json :=
  JDict [("choices", JList [JDict [("delta", JDict []); ("finish_reason", JStr "stop")]]); ("usage", JDict [("prompt_tokens", JInt 9); ("completion_tokens", JInt 2)])].

Definition sse (j : json) : string := "data: " ++ dumps j.
Definition demo_lines : list string := [sse (piece "he"); ""; sse (piece "y"); sse last_chunk; "data: [DONE]"; sse (piece "late")].
Definition open_demo (w : WireRequest) : StreamAnswer := StreamOpen demo_lines Closed.

Definition demo_stream : (CallFailure + Pulled (list StreamEvent) False) * ThinkBleedStats :=
  stream same no_env 0 demo_ep demo_sent "chat_completion" "r1" "180" open_demo ThinkBleedStats_init.

Lemma stream_is_verbatim_witness :
  exists out, demo_stream.1 = inr out
  /\ relay_outcome same demo_ep (max_response_bytes_from_env no_env) "180" Closed 0 [] demo_lines out.
Proof.
  eexists. split; [vm_compute; reflexivity|].
  refine (proj1 (stream_is_verbatim same no_env 0 demo_ep demo_sent "chat_completion" "r1" "180" open_demo ThinkBleedStats_init _
    demo_stream.2 _ (wire_request no_env 0 demo_ep demo_sent "chat_completion" "r1" ThinkBleedStats_init).2 demo_lines Closed _ _ _ _));
    [vm_compute; reflexivity|reflexivity|vm_compute; reflexivity|reflexivity].
Defined.

(** *** A watched call *)

Definition demo_watched (lines : list string) : (CallFailure + BackendResponse) * ThinkBleedStats :=
  call_watched same no_env 0 demo_ep demo_sent "chat_completion" "r1" (blank_init 3) "180" (1 # 2)
    (fun _ => StreamOpen lines Closed) ThinkBleedStats_init.

Lemma watched_stops_at_blank_run_witness :
  exists a, (demo_watched [sse (piece "{ "); sse (piece "  "); sse (piece "}")]).1 = inl (CallAborted a) /\ stop_ok 3 (BlankRun a).
Proof.
  eexists. split; [vm_compute; reflexivity|].
  refine (proj2 (watched_stops_at_blank_run same no_env 0 demo_ep demo_sent "r1" 3 "180" (1 # 2)
    (fun _ => StreamOpen [sse (piece "{ "); sse (piece "  "); sse (piece "}")] Closed) ThinkBleedStats_init _
    (demo_watched [sse (piece "{ "); sse (piece "  "); sse (piece "}")]).2 _ _) _ _);
    [lia|vm_compute; reflexivity|reflexivity].
Defined.

Definition demo_events : list StreamEvent := [EvChunk "" (Some (piece "he")); EvHold; EvChunk "" (Some (piece "y")); EvChunk "" (Some last_chunk)].

Definition demo_final : Watched :=
  match consume watch_event demo_events (watched_init "served" "r1" 0 (blank_init 3)) with inl w => w | inr _ => watched_init "" "" 0 (blank_init 3) end.

Lemma watched_as_called_witness :
  accept_body 0 demo_ep [] "chat_completion" 200 (JDict (_assemble_body demo_final)) 1 ThinkBleedStats_init
  = (match watched_response "tier1" "chat_completion" 1 demo_final with Ret x => x | Raise e => inl (CallFault e) end, ThinkBleedStats_init).
Proof.
  refine (proj2 (proj2 (watched_as_called 0 demo_ep [] "r1" (blank_init 3) demo_events demo_final
    [("prompt_tokens", JInt 9); ("completion_tokens", JInt 2)] 1 ThinkBleedStats_init _ _ _)));
    [vm_compute; reflexivity|vm_compute; reflexivity|reflexivity].
Defined.

(** The pieces of a call to a tool do not reach the answer put together: an
    answer that is only such a call is refused as empty, which is why requests
    that offer tools are not watched. *)
Example watched_drops_tool_calls :
  match (demo_watched [sse (JDict [("choices", JList [JDict [("delta", JDict [("tool_calls", JList [JDict [("id", JStr "c1")]])]);
                                                            ("finish_reason", JStr "tool_calls")]])]); "data: [DONE]"]).1 with
  | inl (CallError 502 _) => True
  | _ => False
  end.
Proof. vm_compute. done. Qed.

(** A body that is no object raises past every error the call gives a name. *)
Example list_body_raises :
  (call same no_env 0 demo_ep demo_sent "chat_completion" "r1" "180" (fun _ => HttpResponse 200 "[]" 1) ThinkBleedStats_init).1
  = inl (CallFault AttributeError).
Proof. vm_compute. reflexivity. Qed.
