(* ===== verification/Completion.v ===== *)
(** * The end of a request (lifecycle.py, state.py)

    [record_completion] is where every dispatched request ends, whatever became
    of it: over the scheduler, the on-demand leases, the ledger, the keep-alive
    tracker, the correction counters and the persistent queue, in the order of
    the source.  [resolve_error] answers the caller.  [Proxy] is the shared state
    they run on, the parts of [ProxyState] they touch. *)

From Stdlib Require Import Ascii QArith Lia ZArith.
From stdpp Require Import base list strings.
From S2P Require Import Prelude PyDict PyText Config Json ThinkSwitch ThinkBleed ThinkStats Budget Cost Queue JsonRead ToolStream Degen Scheduler Spend NoStore Wal OnDemand Keepalive Intent Grammar Effort Forced Correct Backend.

Local Open Scope string_scope.

(** ** The shared state *)

(** A row of [record_timeout_event], and a report to [record_dispatch_failure]. *)
Record TimeoutNote := mkTimeoutNote { tn_request_id : string; tn_layer : string; tn_elapsed_s : Q; tn_abort_reason : string }.
Record FailureNote := mkFailureNote { fn_endpoint : string; fn_exc : BackendExc; fn_best_effort : bool }.

(** [px_futures]: the answer of each pending request once it has one.
    [px_stmts]: the statements handed to the writer. *)
Record Proxy := mkProxy {
  px_sched : Sched;
  px_corr : CorrState;
  px_spend : SpendLedger;
  px_tracker : Tracker;
  px_on_demand : Sys;
  px_stmts : list Stmt;
  px_futures : dict string (option (dict string json));
  px_timed_out : list string;
  px_timeouts : list TimeoutNote;
  px_failures : list FailureNote;
  px_shadows : list string;
  px_wake : bool
}.

Definition with_sched (x : Sched) (p : Proxy) : Proxy :=
  mkProxy x (px_corr p) (px_spend p) (px_tracker p) (px_on_demand p) (px_stmts p) (px_futures p) (px_timed_out p)
    (px_timeouts p) (px_failures p) (px_shadows p) (px_wake p).
Definition with_corr (x : CorrState) (p : Proxy) : Proxy :=
  mkProxy (px_sched p) x (px_spend p) (px_tracker p) (px_on_demand p) (px_stmts p) (px_futures p) (px_timed_out p)
    (px_timeouts p) (px_failures p) (px_shadows p) (px_wake p).
Definition with_spend (x : SpendLedger) (p : Proxy) : Proxy :=
  mkProxy (px_sched p) (px_corr p) x (px_tracker p) (px_on_demand p) (px_stmts p) (px_futures p) (px_timed_out p)
    (px_timeouts p) (px_failures p) (px_shadows p) (px_wake p).
Definition with_tracker (x : Tracker) (p : Proxy) : Proxy :=
  mkProxy (px_sched p) (px_corr p) (px_spend p) x (px_on_demand p) (px_stmts p) (px_futures p) (px_timed_out p)
    (px_timeouts p) (px_failures p) (px_shadows p) (px_wake p).
Definition with_on_demand (x : Sys) (p : Proxy) : Proxy :=
  mkProxy (px_sched p) (px_corr p) (px_spend p) (px_tracker p) x (px_stmts p) (px_futures p) (px_timed_out p)
    (px_timeouts p) (px_failures p) (px_shadows p) (px_wake p).
Definition submit (x : list Stmt) (p : Proxy) : Proxy :=
  mkProxy (px_sched p) (px_corr p) (px_spend p) (px_tracker p) (px_on_demand p) (px_stmts p ++ x)%list (px_futures p)
    (px_timed_out p) (px_timeouts p) (px_failures p) (px_shadows p) (px_wake p).
Definition with_futures (x : dict string (option (dict string json))) (p : Proxy) : Proxy :=
  mkProxy (px_sched p) (px_corr p) (px_spend p) (px_tracker p) (px_on_demand p) (px_stmts p) x (px_timed_out p)
    (px_timeouts p) (px_failures p) (px_shadows p) (px_wake p).
Definition note_failure (x : FailureNote) (p : Proxy) : Proxy :=
  mkProxy (px_sched p) (px_corr p) (px_spend p) (px_tracker p) (px_on_demand p) (px_stmts p) (px_futures p)
    (px_timed_out p) (px_timeouts p) (px_failures p ++ [x])%list (px_shadows p) (px_wake p).
Definition note_shadow (id : string) (p : Proxy) : Proxy :=
  mkProxy (px_sched p) (px_corr p) (px_spend p) (px_tracker p) (px_on_demand p) (px_stmts p) (px_futures p)
    (px_timed_out p) (px_timeouts p) (px_failures p) (px_shadows p ++ [id])%list (px_wake p).
Definition wake (p : Proxy) : Proxy :=
  mkProxy (px_sched p) (px_corr p) (px_spend p) (px_tracker p) (px_on_demand p) (px_stmts p) (px_futures p)
    (px_timed_out p) (px_timeouts p) (px_failures p) (px_shadows p) true.

(** A computation over one part of the state. *)
Definition on_sched (m : SE Sched unit) : SE Proxy unit := fun p =>
  let '(r, s) := m (px_sched p) in (r, with_sched s p).

(** The correction rules, where there is no result yet. *)
Definition on_corr (m : SE World unit) : SE Proxy unit := fun p =>
  let '(r, w) := m (mkWorld [] (px_corr p)) in (r, with_corr (w_state w) p).

Definition count_corr (f : CorrState -> CorrState) : SE Proxy unit := se_modify (fun p => with_corr (f (px_corr p)) p).

(** ** Answering the caller *)

(** [future.set_result(d)] where the future is pending. *)
Definition settle (id : string) (d : dict string json) (p : Proxy) : Proxy :=
  match dget (px_futures p) id with
  | Some None => with_futures (dset (px_futures p) id (Some d)) p
  | _ => p
  end.

(** The keyword arguments of [resolve_error]. *)
Record ErrorExtras := mkExtras { ex_backend_status : option Z; ex_partial_content : json; ex_code : option string }.
Definition no_extras : ErrorExtras := mkExtras None JNull None.

Definition error_payload (id error : string) (x : ErrorExtras) : dict string json :=
  let d : dict string json := [("request_id", JStr id); ("status", JStr "error"); ("error", JStr error)] in
  let d := match ex_backend_status x with Some n => dset d "backend_status" (JInt n) | None => d end in
  let d := if truthy (ex_partial_content x) then dset d "partial_content" (ex_partial_content x) else d in
  match ex_code x with Some c => if String.eqb c "" then d else dset d "code" (JStr c) | None => d end.

Definition resolve_error (r : QueuedRequest) (error : string) (x : ErrorExtras) (p : Proxy) : Proxy :=
  settle (r_request_id r) (error_payload (r_request_id r) error x) p.

(** The guard of [record_timeout_event]: a request's timeout is counted once. *)
Definition record_timeout_event (r : QueuedRequest) (layer : string) (elapsed_s : Q) (abort_reason : string) (p : Proxy) : Proxy :=
  let rid := r_request_id r in
  if bool_decide (rid ∈ px_timed_out p) then p
  else
    let ids := rid :: px_timed_out p in
    let ids := if (8192 <? Z.of_nat (length ids))%Z then [] else ids in
    mkProxy (px_sched p) (px_corr p) (px_spend p) (px_tracker p) (px_on_demand p) (px_stmts p) (px_futures p) ids
      (px_timeouts p ++ [mkTimeoutNote rid layer elapsed_s abort_reason])%list (px_failures p) (px_shadows p) (px_wake p).

(** ** record_completion *)

Definition _PAYLOAD_KIND : dict string string := [("chat_completion", "chat"); ("embedding", "embed"); ("rerank", "rerank")].

Definition text_option (j : json) : option string := match j with JStr s => Some s | _ => None end.

(** What is known of a request that has come to its end. *)
Record Ending := mkEnding {
  en_duration_s : Q;
  en_input_tokens : Z;
  en_output_tokens : Z;
  en_status : string;
  en_response_body : option (dict string json);
  en_finish_reason : json;
  en_cached_tokens : option Z
}.

(** [record_completion(req, decision, duration, 0, 0, status)] *)
Definition failed_ending (duration : Q) (status : string) : Ending := mkEnding duration 0 0 status None JNull None.

Section Completion.
(** The alias table, the keep-alive policy of each endpoint, and the clocks:
    [mono] the monotonic one, [wall] the time of day. *)
Context (roles : dict string string) (keepalive : string -> option KeepaliveConf) (mono wall : Q).

Definition completion_row (d : DispatchDecision) (e : Ending) : Wal.Completion :=
  let r := dd_request d in
  mkCompletion (r_request_id r) (r_agent_id r) (r_endpoint r) (r_call_site r) (prio_int (r_priority r))
    (en_input_tokens e) (en_output_tokens e) (en_duration_s e) (queue_wait_ms d) (en_status e)
    (if (is_chat r || no_store r)%bool then Some (r_payload r) else None) (en_response_body e)
    (r_session_id r) (r_turn_id r) (r_caller_id r) (text_option (en_finish_reason e))
    (Some (default "llm" (dget _PAYLOAD_KIND (r_payload_type r)))) (en_cached_tokens e)
    (if String.eqb (r_asserted_by_key_id r) "" then None else Some (r_asserted_by_key_id r))
    (Some (r_no_store_outcome r)).

Definition tally_truncation (r : QueuedRequest) (e : Ending) : SE Proxy unit :=
  if (text_is (en_finish_reason e) "length" && is_chat r)%bool
  then on_corr (guarded (record_truncation_event r (request_is_structured r)))
  else mret tt.

Definition feed_keepalive (r : QueuedRequest) (e : Ending) (p : Proxy) : Proxy :=
  if (is_chat r && negb (no_store r))%bool then
    match keepalive (normalize_endpoint roles (r_endpoint r)) with
    | Some c => with_tracker (observe_completion (r_endpoint r) c (r_call_site r) (r_payload r) (en_status e)
                                (Some (en_input_tokens e)) (en_cached_tokens e) mono (px_tracker p)) p
    | None => p
    end
  else p.

Definition charge_caller (r : QueuedRequest) (e : Ending) (p : Proxy) : Proxy :=
  with_spend (spend_charge (px_spend p) (r_agent_id r) (r_endpoint r) (Some (en_input_tokens e)) (Some (en_output_tokens e)) wall 1).2 p.

Definition record_completion (d : DispatchDecision) (e : Ending) : SE Proxy unit :=
  let r := dd_request d in
  _ ← tally_truncation r e;
  _ ← se_modify (feed_keepalive r e);
  _ ← se_modify (fun p => with_on_demand (request_done (r_endpoint r) (px_on_demand p)) p);
  _ ← on_sched (complete {| cr_request_id := r_request_id r; duration_s := en_duration_s e;
                            input_tokens := en_input_tokens e; output_tokens := en_output_tokens e;
                            success := String.eqb (en_status e) "ok"; occupancy_during := occupancy_at_dispatch d |});
  _ ← se_modify (charge_caller r e);
  rows ← se_lift (persist_complete wall (completion_row d e));
  _ ← se_modify (submit rows);
  _ ← (if (r_est_input_tokens r =? 0)%Z then se_lift (estimate_input_tokens (r_payload r)) else mret (r_est_input_tokens r));
  _ ← count_corr (add_sample (mkSample (en_status e) (en_duration_s e)));
  se_modify wake.

(** [on_admission_timeout]: a request that expired in the queue. *)
Definition on_admission_timeout (r : QueuedRequest) (p : Proxy) : Proxy :=
  let p := record_timeout_event r "admission" (mono - r_enqueued_at r) "admission_expiry" p in
  let p := settle (r_request_id r) [("request_id", JStr (r_request_id r)); ("status", JStr "timeout"); ("error", JStr "timeout")] p in
  submit (persist_expire (r_request_id r)) p.
End Completion.
