(* ===== verification/Sync.v ===== *)
(** * The dispatch of a request (lifecycle.py, [execute_dispatch] and
      [execute_sync])

    A dispatched request that is not a stream: its attempts at the backend, the
    retries each kind of failure is allowed, the salvage of an answer that was
    stopped, and the judgements before it is handed on.  What an attempt meets is
    an [Attempt] (readings of the clock, the health verdict) and the reply of the
    backend, a function of the attempt, the payload sent, whether it is watched
    and the time allowed. *)

From Stdlib Require Import Ascii QArith Qminmax Lia ZArith.
From stdpp Require Import base list strings.
From S2P Require Import Prelude PyDict PyText Config Json ThinkSwitch ThinkBleed ThinkStats Budget Cost Queue JsonRead ToolStream Degen Scheduler Spend NoStore Wal OnDemand Keepalive Intent Grammar Effort Forced Correct Payload Backend Completion.

Local Open Scope string_scope.

Definition _EMPTY_RESCUE_MIN_TOKENS : Z := 16.
Definition _BLANK_RUN_RETRY_EXTRAS : dict string json := [].

(** What the dispatch reads of the endpoint. *)
Record SyncEp := mkSyncEp {
  se_role : string;
  se_blank_run_abort_chars : Z;
  se_has_shadow : bool;
  se_slot_affinity : bool;
  se_concurrency_cap : Z;
  se_max_slots : Z
}.

(** What an attempt meets: the clock at its start, the seconds the call took,
    the clock when a retry is weighed, and the endpoint's health then. *)
Record Attempt := mkAttempt { at_start : Q; at_elapsed : Q; at_check : Q; at_healthy : bool }.

(** The eligibility for the blank-run guard. *)
Definition _blank_run_eligible (r : QueuedRequest) : bool :=
  let p := r_payload r in
  (is_chat r && request_expects_json r && negb (truthy (jget p "tools"))
   && (match jget p "n" with JNull => true | JInt n => (n =? 1)%Z | JBool b => b | JFloat _ q => Qeq_bool q 1 | _ => false end)
   && negb (truthy (jget p "logprobs") || truthy (jget p "top_logprobs")))%bool.

(** [str(exc)] of a backend error, and its status. *)
Definition failure_status (f : CallFailure) : option Z :=
  match f with
  | CallError status _ => Some status
  | CallTimeout _ => Some 504%Z
  | CallUnavailable _ => Some 503%Z
  | _ => None
  end.

Definition failure_detail (f : CallFailure) : string :=
  match f with CallError _ d | CallTimeout d | CallUnavailable d => d | _ => "" end.

Definition failure_text (f : CallFailure) : string :=
  match failure_status f with
  | Some status => "backend error " ++ str_of_Z status ++ ": " ++ failure_detail f
  | None => failure_detail f
  end.

Definition empty_completion (r : QueuedRequest) (f : CallFailure) : bool :=
  (is_chat r && contains "empty completion" (failure_detail f))%bool.

(** ** Salvage of a stopped answer *)

(** [strip_trailing_blank_chars(exc.content)]: a prefix of the text. *)
Definition strip_blank_tail (s : string) : string := stake (length (strip_trailing_blank_chars (code_points s))) s.

Definition arm_name (a : Arm) : string :=
  match a with word_shingle => "word_shingle" | blank_ratio => "blank_ratio" | distinct_gram => "distinct_gram" end.

Section Dispatch.
Context (float_text : string -> string) (float_repr : Q -> string).

(** The body served when the stopped text was a complete JSON value. *)
Definition salvaged_body (a : Aborted) : option (dict string json) :=
  let stripped := match aborted_content a with JStr s => strip_blank_tail s | _ => "" end in
  if String.eqb stripped "" then None
  else match loads float_text stripped with
       | None => None
       | Some _ =>
           let body := with_first_choice (ab_body_so_far a)
             (fun c => dset (with_message (fun m => dset m "content" (JStr stripped)) c) "finish_reason" (JStr "stop")) in
           Some (if dmem body "usage" then body
                 else dset body "usage"
                        (JDict [("prompt_tokens", JInt (ab_input_tokens a)); ("completion_tokens", JInt (ab_output_tokens a));
                                ("total_tokens", JInt (ab_input_tokens a + ab_output_tokens a)%Z)]))
       end.

(** [(body.get("usage") or {}).get("prompt_tokens_details", {}).get("cached_tokens")] *)
Definition salvaged_cached (body : dict string json) : res (option Z) :=
  match jget body "usage" with
  | JDict u =>
      match dget u "prompt_tokens_details" with
      | None => Ret None
      | Some (JDict details) => Ret (match jget details "cached_tokens" with JInt n => Some n | _ => None end)
      | Some _ => Raise AttributeError
      end
  | j => if truthy j then Raise AttributeError else Ret None
  end.

(** ** The loop's locals *)

Record Vars := mkVars {
  v_attempts : nat;
  v_payload : dict string json;
  v_rescue_armed : bool;
  v_fault_retried : bool;
  v_blank_retried : bool;
  v_blank_resolved : bool
}.

Definition vars_init (r : QueuedRequest) : Vars := mkVars 0 (r_payload r) false false false false.

(** What an attempt comes to. *)
Inductive Verdict := Again (v : Vars) | Serve (v : Vars) (resp : BackendResponse) | Over.

(** The configuration of the dispatcher, and what it meets: [best_effort] the
    judgement of [_is_best_effort_timeout], [fault_text] the [str] of an
    exception, [evidence_text] the rendering of the degeneration evidence,
    [slot_hash] the first four bytes of the session's digest. *)
Context (roles : dict string string) (keepalive : string -> option KeepaliveConf) (mono wall : Q).
Context (watch_enabled length_enforce best_effort : bool) (transient_retry_max : Z).
Context (fault_text : PyErr -> string) (evidence_text : Evidence -> string) (slot_hash : string -> Z).
Context (attempt_at : nat -> Attempt) (reply : nat -> bool -> dict string json -> Q -> CallFailure + BackendResponse).

Abbreviation finish := (record_completion roles keepalive mono wall).

Definition fail_with (d : DispatchDecision) (error : string) (x : ErrorExtras) (e : Ending) : SE Proxy unit :=
  _ ← se_modify (resolve_error (dd_request d) error x);
  finish d e.

(** Time and health for one more attempt. *)
Definition can_spend (r : QueuedRequest) (a : Attempt) : bool :=
  (Qltb _MIN_RETRY_BUDGET_S (r_timeout_deadline r - at_check a) && at_healthy a)%bool.

(** The deadline passed before the attempt. *)
Definition expired_in_queue (ep : SyncEp) (d : DispatchDecision) : SE Proxy unit :=
  let r := dd_request d in
  let b := "backend " ++ se_role ep in
  let msg := if (prio_int P3_INGESTION <=? prio_int (r_priority r))%Z
             then b ++ " deadline exceeded in queue — backpressure"
             else b ++ " deadline exceeded before dispatch" in
  _ ← fail_with d msg no_extras (failed_ending 0 "timeout");
  se_modify (record_timeout_event r "backend" 0 "queue_deadline_exhausted").

Definition blank_run_message (ep : SyncEp) (a : Aborted) : string :=
  "backend " ++ se_role ep ++ " degenerate structured output (blank-run loop, arm=blank_run, run_chars="
  ++ str_of_Z (bv_run (ab_verdict a)) ++ ", content_chars=" ++ str_of_Z (bv_content (ab_verdict a))
  ++ ", output_tokens=" ++ str_of_Z (ab_output_tokens a) ++ ")".

(** [except StructuredBlankRunAborted] *)
Definition on_blank_run (ep : SyncEp) (d : DispatchDecision) (att : Attempt) (a : Aborted) (v : Vars) : SE Proxy Verdict :=
  let r := dd_request d in
  _ ← count_corr (incr "structured_blank_runs_detected");
  match salvaged_body a with
  | Some body =>
      _ ← count_corr (incr "structured_blank_runs_salvaged");
      cached ← se_lift (salvaged_cached body);
      mret (Serve (mkVars (v_attempts v) (v_payload v) (v_rescue_armed v) (v_fault_retried v) (v_blank_retried v) true)
              (mkResponse 200 (JDict body) (at_elapsed att) (ab_input_tokens a) (ab_output_tokens a) (JStr "stop") cached))
  | None =>
      if (negb (v_blank_retried v) && can_spend r att)%bool then
        _ ← count_corr (incr "structured_blank_runs_retried");
        mret (Again (mkVars (v_attempts v) (dict_update (r_payload r) _BLANK_RUN_RETRY_EXTRAS) (v_rescue_armed v) (v_fault_retried v) true
                       (v_blank_resolved v)))
      else
        _ ← count_corr (incr "structured_blank_runs_unrecovered");
        _ ← fail_with d (blank_run_message ep a) no_extras
              (mkEnding (at_elapsed att) (ab_input_tokens a) (ab_output_tokens a) "truncated" None JNull None);
        mret Over
  end.

(** [except BackendTimeout] *)
Definition on_timeout (d : DispatchDecision) (att : Attempt) (f : CallFailure) : SE Proxy Verdict :=
  let r := dd_request d in
  _ ← fail_with d (failure_text f) no_extras (failed_ending (at_elapsed att) "timeout");
  _ ← se_modify (record_timeout_event r "backend" (at_elapsed att) "backend_transport_deadline");
  _ ← se_modify (note_failure (mkFailureNote (r_endpoint r) BackendTimeout best_effort));
  mret Over.

(** [except (BackendUnavailable, BackendError)] *)
Definition on_backend_error (d : DispatchDecision) (att : Attempt) (f : CallFailure) (v : Vars) : SE Proxy Verdict :=
  let r := dd_request d in
  _ ← (if empty_completion r f
       then count_corr (incr_table "empty_completion_by_endpoint" (normalize_endpoint roles (r_endpoint r))) else mret tt);
  let structured_fault := (negb (v_fault_retried v) && is_structured_generation_fault (as_exc f) && request_is_structured r)%bool in
  if ((is_transient_backend_error (as_exc f) || structured_fault)
      && (Z.of_nat (v_attempts v) <=? transient_retry_max)%Z && can_spend r att)%bool then
    if empty_completion r f then
      _ ← count_corr (incr "empty_rescue_attempts");
      mret (Again (mkVars (v_attempts v) (dset (r_payload r) "min_tokens" (JInt _EMPTY_RESCUE_MIN_TOKENS)) true (v_fault_retried v)
                     (v_blank_retried v) (v_blank_resolved v)))
    else if structured_fault then
      _ ← count_corr (incr "structured_fault_retries");
      mret (Again (mkVars (v_attempts v) (v_payload v) (v_rescue_armed v) true (v_blank_retried v) (v_blank_resolved v)))
    else mret (Again v)
  else
    _ ← fail_with d (failure_text f) (mkExtras (failure_status f) JNull None) (failed_ending (at_elapsed att) "error");
    _ ← se_modify (note_failure (mkFailureNote (r_endpoint r) (as_exc f) false));
    mret Over.

(** ** A response *)

Definition response_dict (resp : BackendResponse) : dict string json := match br_body resp with JDict b => b | _ => [] end.

(** A structured answer the length cut: never served. *)
Definition cut_structured (ep : SyncEp) (d : DispatchDecision) (duration : Q) (resp : BackendResponse) : SE Proxy unit :=
  let r := dd_request d in
  let b := "backend " ++ se_role ep in
  let out := str_of_Z (br_output_tokens resp) in
  let truncated := b ++ " truncated structured output (finish_reason=length, output_tokens=" ++ out ++ ")" in
  let text := _chat_completion_text (response_dict resp) in
  let arm := match text with JStr t => _degenerate_text_arm (code_points t) | _ => None end in
  let ending := mkEnding duration (br_input_tokens resp) (br_output_tokens resp) "truncated"
                  (if is_chat r then Some (response_dict resp) else None) (br_finish_reason resp) (br_cached_tokens resp) in
  match arm, text with
  | Some arm, JStr t =>
      _ ← count_corr (fun s => incr_tally "degeneration_by_call_site" ["detected"; "recovered"] (call_site_or "?" r) "detected"
                                 (incr "degeneration_detected" s));
      if length_enforce
      then fail_with d (b ++ " degenerate structured output (repetition loop, arm=" ++ arm_name arm ++ " "
                          ++ evidence_text (_degeneracy_evidence (code_points t)) ++ ", finish_reason=length, output_tokens=" ++ out ++ ")")
             no_extras ending
      else fail_with d truncated (mkExtras None text None) ending
  | _, _ => fail_with d truncated (mkExtras None text None) ending
  end.

(** [truncated_tool_turn_message] *)
Definition truncated_tool_turn_message (r : QueuedRequest) (role : string) (output_tokens : Z) (finish_reason : json) : string :=
  let mt := jget (r_payload r) "max_tokens" in
  let nums := "max_tokens=" ++ (if truthy mt then py_str mt else "unset") ++ ", output_tokens=" ++ str_of_Z output_tokens in
  let what := if text_is finish_reason "length"
              then "tool turn ran out of max_tokens: finish_reason=length with no complete tool call, " ++ nums ++ "). Nothing was executable"
              else "tool turn ran out of max_tokens: finish_reason=" ++ py_str finish_reason ++ " but output_tokens reached max_tokens, " ++ nums
                   ++ "). The tool call was CUT OFF — its arguments may still parse, but its content is incomplete and must not be executed" in
  "backend " ++ role ++ " truncated structured output (" ++ what
  ++ " — the model spent its whole output budget before finishing a tool call (reasoning counts against it). Raise max_tokens or reduce reasoning, then retry; retrying unchanged truncates the same way.".

Definition cut_tool_turn (ep : SyncEp) (d : DispatchDecision) (duration : Q) (resp : BackendResponse) : SE Proxy unit :=
  let r := dd_request d in
  _ ← on_corr (record_truncated_tool_turn roles r (text_option (br_finish_reason resp)));
  fail_with d (truncated_tool_turn_message r (se_role ep) (br_output_tokens resp) (br_finish_reason resp))
    (mkExtras None JNull (Some TRUNCATED_TOOL_TURN_CODE))
    (mkEnding duration (br_input_tokens resp) (br_output_tokens resp) "truncated" (Some (response_dict resp))
       (br_finish_reason resp) (br_cached_tokens resp)).

Definition rounded (n : nat) (q : Q) : json := let x := py_round n q in JFloat (float_repr x) x.

Definition result_of (d : DispatchDecision) (duration : Q) (resp : BackendResponse) : dict string json :=
  let r := dd_request d in
  let result : dict string json :=
    [("request_id", JStr (r_request_id r)); ("queue_wait_ms", rounded 1 (queue_wait_ms d));
     ("backend_latency_ms", rounded 1 (duration * 1000)); ("estimated_cost_ss", rounded 3 (r_estimated_cost_ss r));
     ("response", br_body resp); ("status", JStr "ok");
     ("input_tokens", JInt (br_input_tokens resp)); ("output_tokens", JInt (br_output_tokens resp))] in
  match r_degraded_from r with
  | Some ep => if String.eqb ep "" then result else dset (dset result "degraded" (JBool true)) "degraded_from" (JStr ep)
  | None => result
  end.

Definition serve (ep : SyncEp) (d : DispatchDecision) (duration : Q) (resp : BackendResponse) : SE Proxy unit :=
  let r := dd_request d in
  _ ← se_modify (settle (r_request_id r) (result_of d duration resp));
  _ ← finish d (mkEnding duration (br_input_tokens resp) (br_output_tokens resp) "ok"
                  (if is_chat r then Some (response_dict resp) else None) (br_finish_reason resp) (br_cached_tokens resp));
  if (se_has_shadow ep && negb (no_store r))%bool then se_modify (note_shadow (r_request_id r)) else mret tt.

Definition blank_run_armed (ep : SyncEp) (r : QueuedRequest) : bool :=
  (watch_enabled && (0 <? se_blank_run_abort_chars ep)%Z && _blank_run_eligible r)%bool.

(** The judgements of a response before it is served. *)
Definition on_response (ep : SyncEp) (d : DispatchDecision) (duration : Q) (resp : BackendResponse) (v : Vars) : SE Proxy unit :=
  let r := dd_request d in
  _ ← (if (blank_run_armed ep r && v_blank_retried v && negb (v_blank_resolved v))%bool
       then count_corr (incr "structured_blank_runs_recovered") else mret tt);
  _ ← (if v_rescue_armed v then count_corr (incr "empty_rescue_recovered") else mret tt);
  if (text_is (br_finish_reason resp) "length" && request_is_structured r)%bool then cut_structured ep d duration resp
  else if is_truncated_tool_turn float_text r (text_option (br_finish_reason resp)) (_response_tool_calls (response_dict resp))
            (br_output_tokens resp)
       then cut_tool_turn ep d duration resp
       else serve ep d duration resp.

(** ** The loop *)

(** One pass: [Some v] to go round again, [None] when the request has ended. *)
Definition sync_attempt (ep : SyncEp) (d : DispatchDecision) (v : Vars) : SE Proxy (option Vars) :=
  let r := dd_request d in
  let v := mkVars (S (v_attempts v)) (v_payload v) (v_rescue_armed v) (v_fault_retried v) (v_blank_retried v) (v_blank_resolved v) in
  let att := attempt_at (v_attempts v) in
  let remaining := (r_timeout_deadline r - at_start att)%Q in
  if Qle_bool remaining 0 then _ ← expired_in_queue ep d; mret None
  else
    verdict ← match reply (v_attempts v) (blank_run_armed ep r) (v_payload v) (pymax 1 remaining) with
              | inr resp => mret (Serve v resp)
              | inl (CallAborted a) => on_blank_run ep d att a v
              | inl (CallTimeout _ as f) => on_timeout d att f
              | inl (CallFault e) => se_lift (Raise e)
              | inl f => on_backend_error d att f v
              end;
    match verdict with
    | Again v => mret (Some v)
    | Over => mret None
    | Serve v resp => _ ← on_response ep d (at_elapsed att) resp v; mret None
    end.

(** [while True]: [false] only where the fuel ran out. *)
Fixpoint sync_loop (fuel : nat) (ep : SyncEp) (d : DispatchDecision) (v : Vars) : SE Proxy bool :=
  match fuel with
  | O => mret false
  | S fuel => o ← sync_attempt ep d v; match o with Some v => sync_loop fuel ep d v | None => mret true end
  end.

Definition sync_fuel : nat := Z.to_nat transient_retry_max + 2.

Definition execute_sync (ep : SyncEp) (d : DispatchDecision) : SE Proxy bool :=
  sync_loop sync_fuel ep d (vars_init (dd_request d)).

(** ** The dispatch *)

Definition with_request (d : DispatchDecision) (r : QueuedRequest) : DispatchDecision :=
  {| dd_request := r; queue_wait_ms := queue_wait_ms d; occupancy_at_dispatch := occupancy_at_dispatch d |}.

(** [ep.dispatch_concurrency_cap or ep.max_slots or 1] *)
Definition slot_count (ep : SyncEp) : Z :=
  if negb (se_concurrency_cap ep =? 0)%Z then se_concurrency_cap ep
  else if negb (se_max_slots ep =? 0)%Z then se_max_slots ep else 1.

Definition pin_slot (ep : SyncEp) (r : QueuedRequest) : QueuedRequest :=
  if (se_slot_affinity ep && is_chat r && str_truthy (r_session_id r) && bool_decide (r_band r = INTERACTIVE))%bool
  then with_payload r (dset (r_payload r) "id_slot" (JInt (slot_hash (default "" (r_session_id r)) mod slot_count ep)%Z))
  else r.

(** [try: ... except Exception], around the execution of a request. *)
Definition or_failed (d : DispatchDecision) (elapsed : Q) (m : SE Proxy bool) : SE Proxy unit := fun p =>
  match m p with
  | (Ret _, p) => (Ret tt, p)
  | (Raise e, p) => fail_with d (fault_text e) no_extras (failed_ending elapsed "error") p
  end.

(** A dispatch that is no stream; [elapsed] the seconds since its start, where it
    fails or is cancelled. *)
Definition execute_dispatch (endpoint : option SyncEp) (d : DispatchDecision) (elapsed : Q) : SE Proxy unit :=
  match endpoint with
  | None => se_modify (resolve_error (dd_request d) ("unknown endpoint " ++ r_endpoint (dd_request d)) no_extras)
  | Some ep =>
      let d := with_request d (pin_slot ep (dd_request d)) in
      _ ← se_modify (submit (persist_dispatch (r_request_id (dd_request d))));
      or_failed d elapsed (execute_sync ep d)
  end.

(** [except asyncio.CancelledError] *)
Definition cancel_dispatch (d : DispatchDecision) (elapsed : Q) : SE Proxy unit :=
  _ ← count_corr (incr "slot_leak_reclaimed");
  fail_with d "llm proxy stream cancelled (consumer disconnected)" no_extras (failed_ending elapsed "cancelled").
End Dispatch.
