(* ===== verification/SyncProps.v ===== *)
(** * A dispatched request ends once

    The dispatch loop comes to an end within the retries it is allowed
    ([attempts_bounded]); whatever the backend does, the request is answered
    once, its slot freed once, its caller charged once and its row written once
    ([dispatch_ends_once]); no attempt is made past its deadline
    ([no_attempt_past_deadline]); and what is served was neither cut nor empty
    ([served_answer_whole]). *)

From Stdlib Require Import Ascii QArith Qminmax Lia ZArith.
From stdpp Require Import base list strings.
From S2P Require Import Prelude PyDict PyText Config Json ThinkSwitch ThinkBleed ThinkStats Budget Cost Queue JsonRead ToolStream Degen Scheduler SchedSteps SchedProps Spend NoStore Wal OnDemand Keepalive Intent Grammar Effort EffortProps Forced Correct Backend Completion Sync.

Local Open Scope string_scope.

Section Dispatching.
Context (float_text : string -> string) (float_repr : Q -> string).
Context (roles : dict string string) (keepalive : string -> option KeepaliveConf) (mono wall : Q).
Context (watch_enabled length_enforce best_effort : bool) (transient_retry_max : Z).
Context (fault_text : PyErr -> string) (evidence_text : Evidence -> string) (slot_hash : string -> Z).

Abbreviation finish := (record_completion roles keepalive mono wall).
Abbreviation fail_with := (Sync.fail_with roles keepalive mono wall).
Abbreviation attempt := (sync_attempt float_text float_repr roles keepalive mono wall watch_enabled length_enforce best_effort
                           transient_retry_max evidence_text).
Abbreviation looped := (sync_loop float_text float_repr roles keepalive mono wall watch_enabled length_enforce best_effort
                          transient_retry_max evidence_text).
Abbreviation execute := (execute_sync float_text float_repr roles keepalive mono wall watch_enabled length_enforce best_effort
                           transient_retry_max evidence_text).

(** ** The attempts are bounded *)

Definition passes_left (v : Vars) : nat :=
  (Z.to_nat transient_retry_max - v_attempts v) + (if v_blank_retried v then 0 else 1) + 1.

(** Every step of a computation that returned. *)
Ltac steps H := repeat (let u := fresh "u" in let p1 := fresh "p" in apply se_bind_Ret in H as (u & p1 & _ & H)).

Lemma blank_run_again ep d att a v p v' p' :
  on_blank_run float_text roles keepalive mono wall ep d att a v p = (Ret (Again v'), p') ->
  v_attempts v' = v_attempts v /\ v_blank_retried v = false /\ v_blank_retried v' = true.
Proof.
  unfold on_blank_run. intros H. apply se_bind_Ret in H as (u & p1 & _ & H).
  destruct (salvaged_body float_text a); [steps H; discriminate|].
  destruct (v_blank_retried v) eqn:B; cbn [negb andb] in H; [steps H; discriminate|].
  destruct (can_spend (dd_request d) att); steps H; [by injection H as <- _|discriminate].
Qed.

Lemma backend_error_again d att f v p v' p' :
  on_backend_error roles keepalive mono wall transient_retry_max d att f v p = (Ret (Again v'), p') ->
  v_attempts v' = v_attempts v /\ v_blank_retried v' = v_blank_retried v /\ (Z.of_nat (v_attempts v) <= transient_retry_max)%Z.
Proof.
  unfold on_backend_error. intros H. apply se_bind_Ret in H as (u & p1 & _ & H). cbv zeta in H.
  destruct (_ && _ && _)%bool eqn:C; [|steps H; discriminate].
  apply andb_true_iff in C as [[_ L%Z.leb_le]%andb_true_iff _].
  destruct (empty_completion _ _); [|destruct (_ && _ && _)%bool]; steps H; by injection H as <- _.
Qed.

Section Loop.
Context (attempt_at : nat -> Attempt) (reply : nat -> bool -> dict string json -> Q -> CallFailure + BackendResponse).

(** Going round again uses up a pass. *)
Lemma again_uses_a_pass ep d v p v' p' :
  attempt attempt_at reply ep d v p = (Ret (Some v'), p') ->
  (passes_left v' < passes_left v)%nat /\ v_attempts v' = S (v_attempts v).
Proof.
  unfold sync_attempt. cbv zeta. destruct (Qle_bool _ 0); [intros H; steps H; discriminate|].
  intros H. apply se_bind_Ret in H as (o & p1 & E & H). destruct o as [v1|v1 resp|].
  - injection H as <- _. destruct (reply _ _ _ _) as [f|resp]; [|discriminate].
    assert (X : forall f, on_backend_error roles keepalive mono wall transient_retry_max d (attempt_at (S (v_attempts v))) f
              (mkVars (S (v_attempts v)) (v_payload v) (v_rescue_armed v) (v_fault_retried v) (v_blank_retried v) (v_blank_resolved v)) p
              = (Ret (Again v1), p1) -> (passes_left v1 < passes_left v)%nat /\ v_attempts v1 = S (v_attempts v)).
    { intros f0 K. apply backend_error_again in K as (A & B & L). cbn in A, B, L. unfold passes_left. rewrite A, B. split; [|done].
      destruct (v_blank_retried v); lia. }
    destruct f as [status detail|detail|detail|a|e]; [by eapply X| |by eapply X| |discriminate].
    + unfold on_timeout in E. steps E. discriminate.
    + apply blank_run_again in E as (A & B & C). cbn in A, B, C. unfold passes_left. rewrite A, B, C. split; [lia|done].
  - steps H. discriminate.
  - discriminate.
Qed.

Lemma loop_ends fuel ep d v p b p' :
  (passes_left v <= fuel)%nat -> looped attempt_at reply fuel ep d v p = (Ret b, p') -> b = true.
Proof.
  revert v p. induction fuel as [|fuel IH]; intros v p L; [unfold passes_left in L; lia|]. cbn [sync_loop].
  intros H. apply se_bind_Ret in H as (o & p1 & E & H). destruct o as [v1|]; [|by injection H as <- _].
  apply again_uses_a_pass in E as [E _]. eapply IH; [|exact H]. lia.
Qed.

(** More fuel changes nothing once there is enough. *)
Lemma loop_stable fuel ep d v p :
  (passes_left v <= fuel)%nat -> looped attempt_at reply (S fuel) ep d v p = looped attempt_at reply fuel ep d v p.
Proof.
  revert v p. induction fuel as [|fuel IH]; intros v p L; [unfold passes_left in L; lia|].
  cbn [sync_loop]. rewrite !run_bind. destruct (attempt attempt_at reply ep d v p) as [[[v1|]|e] p1] eqn:E; [|done..].
  apply again_uses_a_pass in E as [E _]. apply IH. lia.
Qed.

(** C12 The dispatch loop ends.  However the backend answers, a request makes at most
    two attempts more than the retries configured, one for the first and one for
    a stopped stream: the fuel is never used up, and any more of it changes
    nothing. *)
Theorem attempts_bounded ep d p n :
  (0 <= transient_retry_max)%Z ->
  (execute attempt_at reply ep d p).1 <> Ret false
  /\ looped attempt_at reply (sync_fuel transient_retry_max + n) ep d (vars_init (dd_request d)) p = execute attempt_at reply ep d p.
Proof.
  intros T. assert (L : (passes_left (vars_init (dd_request d)) <= sync_fuel transient_retry_max)%nat)
    by (unfold passes_left, sync_fuel; cbn; lia).
  split.
  - unfold execute_sync. destruct (looped _ _ _ ep d _ p) as [[b|e] p'] eqn:E; [|done].
    apply loop_ends in E as ->; done.
  - induction n as [|n IH]; [by rewrite Nat.add_0_r|]. rewrite Nat.add_succ_r, loop_stable by lia. exact IH.
Qed.
End Loop.

(** ** The request ends once *)

(** What a completion touches. *)
Definition books (p : Proxy) := (px_sched p, px_spend p, px_stmts p, px_futures p).

(** The completion of the request can be recorded: the summary kept in place of
    withheld content answers, as it does unless a message has a role that is a list
    or an object; and the size of the prompt is kept, as it is by [enqueue], or can
    be estimated. *)
Definition recordable (r : QueuedRequest) : Prop :=
  (no_store r = true -> exists out, content_summary (Some (r_payload r)) None = Ret out)
  /\ (r_est_input_tokens r = 0%Z -> is_ret (estimate_input_tokens (r_payload r)) = true).

(** The scheduler is sound and runs the request, whose completion can be recorded. *)
Definition running_here (r : QueuedRequest) (p : Proxy) : Prop :=
  sched_ok (px_sched p) /\ r_request_id r ∈ map r_request_id (running_all (px_sched p)) /\ recordable r.

Lemma size_known {A} r (f : Z -> SE Proxy A) q :
  recordable r -> exists n, ((if (r_est_input_tokens r =? 0)%Z then se_lift (estimate_input_tokens (r_payload r)) else mret (r_est_input_tokens r)) ≫= f) q = f n q.
Proof.
  intros [_ E]. destruct (Z.eqb_spec (r_est_input_tokens r) 0) as [Z0|NZ]; [|by eexists]. specialize (E Z0). rewrite run_lift.
  destruct (estimate_input_tokens (r_payload r)) as [n|e]; [by eexists|done].
Qed.

Lemma summary_answers payload response :
  (exists out, content_summary (Some payload) None = Ret out) -> exists out, content_summary (Some payload) response = Ret out.
Proof. unfold content_summary. intros [out H]. destruct (payload_summary payload _); [by eexists|done]. Qed.

(** The two rows of a completion that can be recorded. *)
Lemma completion_rows d e :
  recordable (dd_request d) ->
  exists row, persist_complete wall (completion_row d e) = Ret [DELETE_QUEUE (r_request_id (dd_request d)); INSERT_COMPLETION row]
  /\ c_request_id row = r_request_id (dd_request d) /\ c_status row = en_status e.
Proof.
  intros [NS _]. unfold persist_complete. cbn [cp_no_store cp_payload cp_response completion_row]. cbv zeta.
  case_bool_decide as H; [|eexists; by split].
  assert (N : no_store (dd_request d) = true) by (injection H as H; unfold no_store; by rewrite H).
  rewrite N, orb_true_r. destruct (summary_answers _ (en_response_body e) (NS N)) as [out ->]. eexists. by split.
Qed.

(** The request ended between [p] and [p']: its slot is free, its caller charged
    for one request, its row written, and it has an answer. *)
Definition ended (d : DispatchDecision) (p p' : Proxy) : Prop :=
  exists e r0 row,
    r_request_id r0 = r_request_id (dd_request d) /\ running_all (px_sched p) ≡ₚ r0 :: running_all (px_sched p')
    /\ sched_ok (px_sched p')
    /\ px_spend p' = px_spend (charge_caller wall (dd_request d) e p)
    /\ px_stmts p' = (px_stmts p ++ [DELETE_QUEUE (r_request_id (dd_request d)); INSERT_COMPLETION row])%list
    /\ c_request_id row = r_request_id (dd_request d) /\ c_status row = en_status e
    /\ dget (px_futures p') (r_request_id (dd_request d)) <> Some None.

Lemma ended_books d p p' q q' : ended d p p' -> books q = books p -> books q' = books p' -> ended d q q'.
Proof.
  intros (e & r0 & row & H) E E'. injection E as E1 E2 E3 E4. injection E' as F1 F2 F3 F4. exists e, r0, row.
  unfold charge_caller in *. cbn [px_spend with_spend] in *. by rewrite E1, E2, E3, F1, F2, F3, F4.
Qed.

Lemma running_books r p q : running_here r p -> books q = books p -> running_here r q.
Proof. intros H E. injection E as E _ _ _. unfold running_here in *. by rewrite E. Qed.

Lemma settle_answers id x p : dget (px_futures (settle id x p)) id <> Some None.
Proof.
  unfold settle. destruct (dget (px_futures p) id) as [[y|]|] eqn:E; cbn [px_futures with_futures].
  - by rewrite E.
  - by rewrite dget_dset_eq.
  - by rewrite E.
Qed.

Lemma settle_keeps_rest id x p :
  px_sched (settle id x p) = px_sched p /\ px_spend (settle id x p) = px_spend p /\ px_stmts (settle id x p) = px_stmts p.
Proof. unfold settle. by repeat case_match. Qed.

(** *** Steps that leave the books alone *)

Definition quiet {A} (m : SE Proxy A) : Prop := forall p, books (m p).2 = books p.

Lemma quiet_bind {A B} (m : SE Proxy A) (f : A -> SE Proxy B) : quiet m -> (forall a, quiet (f a)) -> quiet (m ≫= f).
Proof.
  intros M F p. specialize (M p). rewrite run_bind. destruct (m p) as [[a|e] p1]; [|done]. cbn [snd] in M. by rewrite F.
Qed.
Lemma quiet_ret {A} (a : A) : quiet (mret a).
Proof. done. Qed.
Lemma quiet_lift {A} (x : res A) : quiet (se_lift x).
Proof. done. Qed.
Lemma quiet_count f : quiet (count_corr f).
Proof. done. Qed.
Lemma quiet_corr m : quiet (on_corr m).
Proof. intros p. unfold on_corr. by destruct (m _). Qed.
Lemma quiet_if {A} (b : bool) (m n : SE Proxy A) : quiet m -> quiet n -> quiet (if b then m else n).
Proof. by destruct b. Qed.
Lemma quiet_failure x : quiet (se_modify (note_failure x)).
Proof. done. Qed.
Lemma quiet_shadow x : quiet (se_modify (note_shadow x)).
Proof. done. Qed.
Lemma quiet_timeout r l q a : quiet (se_modify (record_timeout_event r l q a)).
Proof. intros p. unfold record_timeout_event. simpl. by case_match. Qed.
Lemma quiet_tally r e : quiet (tally_truncation r e).
Proof. unfold tally_truncation. apply quiet_if; [apply quiet_corr|apply quiet_ret]. Qed.
Lemma quiet_keepalive r e : quiet (se_modify (feed_keepalive roles keepalive mono r e)).
Proof. intros p. unfold feed_keepalive. simpl. by repeat case_match. Qed.

Create HintDb books.
#[local] Hint Resolve quiet_ret quiet_lift quiet_count quiet_corr quiet_failure quiet_shadow quiet_timeout quiet_tally quiet_keepalive : books.

(** *** The completion *)

Lemma tally_returns r e p : (tally_truncation r e p).1 = Ret tt.
Proof.
  unfold tally_truncation. case_match; [|done]. unfold on_corr, guarded. by destruct (record_truncation_event _ _ _).
Qed.

Lemma quiet_run {A B} (m : SE Proxy A) (f : A -> SE Proxy B) p a :
  quiet m -> (m p).1 = Ret a -> exists q, books q = books p /\ (m ≫= f) p = f a q.
Proof.
  intros Q E. specialize (Q p). rewrite run_bind. destruct (m p) as [x q]. cbn [fst snd] in *. subst. eauto.
Qed.

(** A completion of a running request returns, and closes the books on it. *)
Lemma finish_ends d e p :
  running_here (dd_request d) p ->
  exists p', finish d e p = (Ret tt, p') /\ px_futures p' = px_futures p
  /\ (dget (px_futures p) (r_request_id (dd_request d)) <> Some None -> ended d p p').
Proof.
  intros (OK & RUN & REC). unfold record_completion. cbv zeta.
  match goal with |- context [(tally_truncation ?r ?e ≫= ?f) p] =>
    destruct (quiet_run (tally_truncation r e) f p tt (quiet_tally r e) (tally_returns r e p)) as (q & Q & ->) end.
  rewrite run_modify. pose proof (quiet_keepalive (dd_request d) e q) as K. cbn [se_modify snd] in K.
  set (q1 := feed_keepalive roles keepalive mono (dd_request d) e q) in *. rewrite Q in K. rewrite run_modify.
  set (q2 := with_on_demand _ q1). assert (B : books q2 = books p) by exact K. clearbody q2. clear Q K q q1.
  injection B as B1 B2 B3 B4. rewrite run_bind. unfold on_sched at 1. rewrite B1.
  match goal with |- context [complete ?c _] => destruct (complete_found c (px_sched p) OK RUN) as (r0 & s' & -> & OK' & CO) end.
  cbn [cr_request_id] in CO. rewrite run_modify, run_lift.
  destruct (completion_rows d e REC) as (row & -> & R1 & R2). rewrite run_modify.
  match goal with |- context [(_ ≫= ?f) ?q] => destruct (size_known _ f q REC) as [n ->] end. unfold count_corr. rewrite run_modify.
  eexists. split; [done|]. cbn. split; [done|]. intros F. destruct CO as (C1 & C2 & _).
  exists e, r0, row. cbn. rewrite B2, B3, B4. done.
Qed.

(** *** Computations that end the request, or leave the books alone *)

Definition ends (d : DispatchDecision) (m : SE Proxy unit) : Prop :=
  forall p, running_here (dd_request d) p -> exists p', m p = (Ret tt, p') /\ ended d p p'.

(** [over a]: the request ended where [a] is returned. *)
Definition concludes {A} (over : A -> bool) (d : DispatchDecision) (m : SE Proxy A) : Prop :=
  forall p, running_here (dd_request d) p ->
    match m p with
    | (Ret a, p') => if over a then ended d p p' else books p' = books p
    | (Raise _, p') => books p' = books p
    end.

Lemma ends_after {A} (m : SE Proxy A) (f : A -> SE Proxy unit) d :
  quiet m -> (forall p, exists a, (m p).1 = Ret a) -> (forall a, ends d (f a)) -> ends d (m ≫= f).
Proof.
  intros Q R F p H. destruct (R p) as [a E]. destruct (quiet_run m f p a Q E) as (q & B & ->).
  destruct (F a q) as (p' & -> & D); [by eapply running_books|]. exists p'. split; [done|by eapply ended_books].
Qed.

Lemma ends_then d (m : SE Proxy unit) (x : Proxy -> Proxy) : ends d m -> (forall p, books (x p) = books p) -> ends d (m ≫= fun _ => se_modify x).
Proof.
  intros M Q p H. destruct (M p H) as (p1 & E & D). exists (x p1). rewrite run_bind, E. split; [done|].
  by eapply ended_books.
Qed.

Lemma concludes_bind {A B} over (m : SE Proxy A) (f : A -> SE Proxy B) d :
  quiet m -> (forall a, concludes over d (f a)) -> concludes over d (m ≫= f).
Proof.
  intros Q F p H. specialize (Q p). rewrite run_bind. destruct (m p) as [[a|e] p1]; cbn [snd] in Q; [|done].
  specialize (F a p1 (running_books _ _ _ H Q)). destruct (f a p1) as [[b|e] p2]; [|by rewrite F].
  destruct (over b); [by eapply ended_books|by rewrite F].
Qed.

Lemma concludes_end {A} over (m : SE Proxy unit) (a : A) d :
  ends d m -> over a = true -> concludes over d (m ≫= fun _ : unit => (mret a : SE Proxy A)).
Proof. intros M O p H. destruct (M p H) as (p1 & E & D). rewrite run_bind, E. cbn. by rewrite O. Qed.

Lemma concludes_ends d m : ends d m -> concludes (fun _ => true) d m.
Proof. intros M p H. destruct (M p H) as (p1 & -> & D). done. Qed.

Lemma concludes_quiet {A} over (m : SE Proxy A) d :
  quiet m -> (forall p a p', m p = (Ret a, p') -> over a = false) -> concludes over d m.
Proof. intros Q O p _. specialize (Q p). destruct (m p) as [[a|e] p1] eqn:E; [|done]. by rewrite (O _ _ _ E). Qed.

Lemma concludes_ret {A} over (a : A) d : over a = false -> concludes over d (mret a).
Proof. intros O p _. cbn. by rewrite O. Qed.

Lemma concludes_if {A} over (b : bool) (m n : SE Proxy A) d :
  concludes over d m -> concludes over d n -> concludes over d (if b then m else n).
Proof. by destruct b. Qed.

Lemma ends_if (b : bool) (m n : SE Proxy unit) d : ends d m -> ends d n -> ends d (if b then m else n).
Proof. by destruct b. Qed.

(** An answer, then the completion: the request ends. *)
Lemma settled_ends d x e :
  ends d (se_modify (settle (r_request_id (dd_request d)) x) ≫= fun _ : unit => finish d e).
Proof.
  intros p H. rewrite run_modify. destruct (settle_keeps_rest (r_request_id (dd_request d)) x p) as (S1 & S2 & S3).
  destruct (finish_ends d e (settle (r_request_id (dd_request d)) x p)) as (p' & -> & _ & D).
  { unfold running_here. rewrite S1. exact H. }
  exists p'. split; [done|]. destruct (D (settle_answers _ _ _)) as (e0 & r0 & row & K). exists e0, r0, row.
  unfold charge_caller in *. cbn [px_spend with_spend] in *. by rewrite S1, S2, S3 in K.
Qed.

Lemma fail_ends d error x e : ends d (fail_with d error x e).
Proof. apply settled_ends. Qed.

(** *** The branches *)

Definition is_over (v : Verdict) : bool := match v with Over => true | _ => false end.

Lemma blank_run_concludes ep d att a v :
  concludes is_over d (on_blank_run float_text roles keepalive mono wall ep d att a v).
Proof.
  unfold on_blank_run. apply concludes_bind; [auto with books|intros _]. destruct (salvaged_body float_text a).
  - do 2 (apply concludes_bind; [auto with books|intros ?]). by apply concludes_ret.
  - destruct (_ && _)%bool; (apply concludes_bind; [auto with books|intros _]); [by apply concludes_ret|].
    apply concludes_end; [apply fail_ends|done].
Qed.

Lemma timeout_concludes d att f : concludes is_over d (on_timeout roles keepalive mono wall best_effort d att f).
Proof.
  intros p H. destruct (fail_ends d (failure_text f) no_extras (failed_ending (at_elapsed att) "timeout") p H) as (p1 & E & D).
  unfold on_timeout. rewrite run_bind, E, !run_modify. cbn [mret se_ret is_over].
  eapply ended_books; [exact D|done|]. unfold record_timeout_event. by case_match.
Qed.

Lemma backend_error_concludes d att f v :
  concludes is_over d (on_backend_error roles keepalive mono wall transient_retry_max d att f v).
Proof.
  unfold on_backend_error. apply concludes_bind; [apply quiet_if; auto with books|intros _]. cbv zeta.
  repeat (apply concludes_if || (apply concludes_bind; [by auto with books|intros _]) || by apply concludes_ret).
  intros p H. match goal with |- context [Sync.fail_with _ _ _ _ d ?e ?x ?n] =>
    destruct (fail_ends d e x n p H) as (p1 & E & D) end.
  rewrite run_bind, E, run_modify. exact D.
Qed.

Lemma served_ends ep d duration resp : ends d (serve float_repr roles keepalive mono wall ep d duration resp).
Proof.
  unfold serve. cbv zeta. intros p H. match goal with |- context [Completion.settle _ ?x] =>
    destruct (settled_ends d x (mkEnding duration (br_input_tokens resp) (br_output_tokens resp) "ok"
                  (if is_chat (dd_request d) then Some (response_dict resp) else None) (br_finish_reason resp) (br_cached_tokens resp)) p H)
      as (p1 & E & D) end.
  rewrite run_modify in *. rewrite run_bind, E. destruct (_ && _)%bool; eexists; (split; [done|]); exact D.
Qed.

Lemma cut_structured_ends ep d duration resp :
  ends d (cut_structured roles keepalive mono wall length_enforce evidence_text ep d duration resp).
Proof.
  unfold cut_structured. cbv zeta. repeat case_match; try apply fail_ends;
    (apply ends_after; [auto with books|by eexists|intros _]; apply fail_ends).
Qed.

Lemma cut_tool_turn_concludes ep d duration resp :
  concludes (fun _ => true) d (cut_tool_turn roles keepalive mono wall ep d duration resp).
Proof. unfold cut_tool_turn. apply concludes_bind; [auto with books|intros _]. apply concludes_ends, fail_ends. Qed.

Lemma response_concludes ep d duration resp v :
  concludes (fun _ => true) d (on_response float_text float_repr roles keepalive mono wall watch_enabled length_enforce evidence_text
                                 ep d duration resp v).
Proof.
  unfold on_response. do 2 (apply concludes_bind; [apply quiet_if; auto with books|intros _]).
  apply concludes_if; [apply concludes_ends, cut_structured_ends|].
  apply concludes_if; [apply cut_tool_turn_concludes|apply concludes_ends, served_ends].
Qed.

Section Whole.
Context (attempt_at : nat -> Attempt) (reply : nat -> bool -> dict string json -> Q -> CallFailure + BackendResponse).

Lemma attempt_concludes ep d v :
  concludes (fun o => negb (bool_decide (is_Some o))) d (attempt attempt_at reply ep d v).
Proof.
  unfold sync_attempt. cbv zeta. destruct (Qle_bool _ 0).
  - apply concludes_end; [|done]. unfold expired_in_queue. apply ends_then; [apply fail_ends|].
    intros p. unfold record_timeout_event. by case_match.
  - intros p H. rewrite run_bind. match goal with |- context [match ?m p with _ => _ end] => set (k := m) end.
    assert (K : concludes is_over d k).
    { subst k. destruct (reply _ _ _ _) as [[| | | |]|]; auto using blank_run_concludes, timeout_concludes, backend_error_concludes.
      - by apply concludes_quiet.
      - by apply concludes_ret. }
    specialize (K p H). destruct (k p) as [[v1|e] p1]; [|done]. destruct v1 as [v1|v1 resp|]; cbn [is_over] in K; [done| |done].
    pose proof (response_concludes ep d (at_elapsed (attempt_at (S (v_attempts v)))) resp v1 p1 (running_books _ _ _ H K)) as D.
    rewrite run_bind. destruct (on_response _ _ _ _ _ _ _ _ _ _ _ _ _ _ p1) as [[u|e] p2]; [by eapply ended_books|by rewrite D].
Qed.

Lemma loop_concludes fuel ep d v : concludes id d (looped attempt_at reply fuel ep d v).
Proof.
  revert v. induction fuel as [|fuel IH]; intros v; [by apply concludes_ret|]. cbn [sync_loop]. intros p H.
  pose proof (attempt_concludes ep d v p H) as A. rewrite run_bind. destruct (attempt _ _ _ _ _ p) as [[[v1|]|e] p1]; [| |done].
  - cbn in A. specialize (IH v1 p1 (running_books _ _ _ H A)).
    destruct (looped _ _ _ _ _ _ p1) as [[b|e] p2]; [|by rewrite IH]. destruct b; cbn [id] in *; [by eapply ended_books|by rewrite IH].
  - exact A.
Qed.

Lemma pin_slot_same ep r :
  let r' := pin_slot slot_hash ep r in
  r_request_id r' = r_request_id r /\ r_agent_id r' = r_agent_id r /\ r_endpoint r' = r_endpoint r
  /\ no_store r' = no_store r /\ r_est_input_tokens r' = r_est_input_tokens r.
Proof. unfold pin_slot. by case_match. Qed.

(** The slot's own key is in the way of neither. *)
Lemma recordable_pinned ep r : recordable r -> recordable (pin_slot slot_hash ep r).
Proof.
  unfold pin_slot. destruct (_ && _)%bool; [|done]. set (v := JInt _). clearbody v.
  unfold recordable, no_store. cbn [with_payload reshaped r_no_store_outcome r_payload r_est_input_tokens].
  intros [N E]. split.
  - intros H. destruct (N H) as [out O]. unfold content_summary, payload_summary in *. cbv zeta in *.
    rewrite !jget_dset_ne by done. destruct (jget (r_payload r) "messages"); try by eexists.
    destruct (count_roles [] l); [by eexists|done].
  - unfold estimate_input_tokens. by rewrite !jget_dset_ne.
Qed.

Lemma ended_pinned ep d p p' : ended (with_request d (pin_slot slot_hash ep (dd_request d))) p p' -> ended d p p'.
Proof.
  destruct (pin_slot_same ep (dd_request d)) as (I & A & N & _). cbn [dd_request with_request] in *.
  intros (e & r0 & row & H). exists e, r0, row. unfold charge_caller in *. cbn [dd_request with_request px_spend with_spend] in *.
  by rewrite I, A, N in H.
Qed.

Lemma running_pinned ep d p :
  running_here (dd_request d) p -> running_here (dd_request (with_request d (pin_slot slot_hash ep (dd_request d)))) p.
Proof.
  intros (OK & R & REC). split_and!; [done| |by apply recordable_pinned]. cbn [dd_request with_request].
  by rewrite (proj1 (pin_slot_same ep (dd_request d))).
Qed.

(** C4 A dispatched request ends exactly once.  Whatever the backend answers and
    whenever, on every branch of the dispatch, retries, salvage and exceptions
    included, the dispatch returns with the request's slot freed, its caller
    charged for one request, its queue row replaced by one completion row, and
    an answer for whoever waits on it.  This is so for every request that the
    scheduler runs and whose completion can be recorded, that is one not withheld
    from storage or without a message whose role is a list or an object, and whose
    prompt's size is known or can be estimated; the retries allowed are not
    negative.  Where the endpoint is no longer configured the caller is answered,
    and slot, charges and rows are as they were. *)
Theorem dispatch_ends_once endpoint d elapsed p :
  running_here (dd_request d) p -> (0 <= transient_retry_max)%Z ->
  exists p', execute_dispatch float_text float_repr roles keepalive mono wall watch_enabled length_enforce best_effort
               transient_retry_max fault_text evidence_text slot_hash attempt_at reply endpoint d elapsed p = (Ret tt, p')
  /\ match endpoint with
     | Some _ => ended d (submit (persist_dispatch (r_request_id (dd_request d))) p) p'
     | None => px_sched p' = px_sched p /\ px_spend p' = px_spend p /\ px_stmts p' = px_stmts p
               /\ dget (px_futures p') (r_request_id (dd_request d)) <> Some None
     end.
Proof.
  intros H T. destruct endpoint as [ep|]; unfold execute_dispatch; cbv zeta.
  2: { eexists. split; [reflexivity|]. destruct (settle_keeps_rest (r_request_id (dd_request d))
         (error_payload (r_request_id (dd_request d)) ("unknown endpoint " ++ r_endpoint (dd_request d)) no_extras) p) as (E1 & E2 & E3).
       split_and!; [exact E1|exact E2|exact E3|apply settle_answers]. }
  rewrite run_modify. set (d' := with_request d (pin_slot slot_hash ep (dd_request d))).
  assert (I : r_request_id (dd_request d') = r_request_id (dd_request d)) by apply (pin_slot_same ep (dd_request d)).
  rewrite I. set (q := submit _ p). assert (H' : running_here (dd_request d') q) by exact (running_pinned ep d p H). clearbody q.
  unfold or_failed. pose proof (loop_concludes (sync_fuel transient_retry_max) ep d' (vars_init (dd_request d')) q H') as L.
  assert (NF : (execute attempt_at reply ep d' q).1 <> Ret false).
  { unfold execute_sync. destruct (looped _ _ _ ep d' _ q) as [[b|e] p'] eqn:E; [|done].
    apply loop_ends in E as ->; [done|]. unfold passes_left, sync_fuel. cbn. lia. }
  unfold execute_sync in *. destruct (looped _ _ _ ep d' _ q) as [[[]|e] p1]; cbn [id fst] in *; [|done|].
  - exists p1. split; [done|]. by eapply ended_pinned.
  - destruct (fail_ends d' (fault_text e) no_extras (failed_ending elapsed "error") p1 (running_books _ _ _ H' L)) as (p2 & -> & D).
    exists p2. split; [done|]. eapply ended_pinned, ended_books; [exact D|by rewrite L|done].
Qed.
End Whole.

(** ** No attempt past the deadline *)

(** The replies of the attempts that start before the deadline, each asked for
    what is left of it and no more. *)
Definition agree_in_time (r : QueuedRequest) (attempt_at : nat -> Attempt)
    (reply reply' : nat -> bool -> dict string json -> Q -> CallFailure + BackendResponse) : Prop :=
  forall n w payload, (at_start (attempt_at n) < r_timeout_deadline r)%Q ->
    let allowed := pymax 1 (r_timeout_deadline r - at_start (attempt_at n)) in
    reply n w payload allowed = reply' n w payload allowed.

Lemma time_left q deadline : Qle_bool (deadline - q) 0 = false -> (q < deadline)%Q.
Proof.
  intros L. apply Qnot_le_lt. intros K. apply not_true_iff_false in L. apply L, Qle_bool_iff.
  unfold Qminus. rewrite <- (Qplus_opp_r q). by apply Qplus_le_compat, Qle_refl.
Qed.

Lemma attempt_in_time attempt_at reply reply' ep d v p :
  agree_in_time (dd_request d) attempt_at reply reply' ->
  attempt attempt_at reply ep d v p = attempt attempt_at reply' ep d v p.
Proof.
  intros A. unfold sync_attempt. cbv zeta. cbn [v_attempts v_payload].
  destruct (Qle_bool _ 0) eqn:L; [done|]. rewrite A; [done|]. by apply time_left.
Qed.

Lemma loop_in_time attempt_at reply reply' fuel ep d v p :
  agree_in_time (dd_request d) attempt_at reply reply' ->
  looped attempt_at reply fuel ep d v p = looped attempt_at reply' fuel ep d v p.
Proof.
  intros A. revert v p. induction fuel as [|fuel IH]; intros v p; [done|]. cbn [sync_loop].
  rewrite !run_bind, (attempt_in_time _ _ _ _ _ _ _ A). by destruct (attempt _ _ _ _ _ p) as [[[v1|]|e] p1].
Qed.

(** C30 No attempt starts once the deadline of the request has passed, and none is
    allowed longer than what is left of it, or one second: the dispatch does not
    depend on what the backend would answer to any other call. *)
Theorem no_attempt_past_deadline attempt_at reply reply' ep d elapsed p :
  agree_in_time (dd_request d) attempt_at reply reply' ->
  execute_dispatch float_text float_repr roles keepalive mono wall watch_enabled length_enforce best_effort transient_retry_max
    fault_text evidence_text slot_hash attempt_at reply (Some ep) d elapsed p
  = execute_dispatch float_text float_repr roles keepalive mono wall watch_enabled length_enforce best_effort transient_retry_max
      fault_text evidence_text slot_hash attempt_at reply' (Some ep) d elapsed p.
Proof.
  intros A. unfold execute_dispatch. cbv zeta. rewrite !run_modify. unfold or_failed, execute_sync.
  rewrite (loop_in_time attempt_at reply reply'); [done|].
  unfold agree_in_time in *. cbn [dd_request with_request]. unfold pin_slot. by case_match.
Qed.

(** ** What is served *)

(** The answer waiting for request [id], where it is a success, is [good]. *)
Definition serves (id : string) (good : dict string json -> Prop) (p : Proxy) : Prop :=
  forall x, dget (px_futures p) id = Some (Some x) -> dget x "status" = Some (JStr "ok") -> good x.

Definition serving {A} (id : string) (good : dict string json -> Prop) (m : SE Proxy A) : Prop :=
  forall p, serves id good p -> serves id good (m p).2.

Lemma serving_bind {A B} id good (m : SE Proxy A) (f : A -> SE Proxy B) :
  serving id good m -> (forall a, serving id good (f a)) -> serving id good (m ≫= f).
Proof.
  intros M F p H. specialize (M p H). rewrite run_bind. destruct (m p) as [[a|e] p1]; [by apply F|done].
Qed.

Lemma serving_futures {A} id good (m : SE Proxy A) : (forall p, px_futures (m p).2 = px_futures p) -> serving id good m.
Proof. intros E p H. unfold serves. by rewrite E. Qed.

Lemma serving_quiet {A} id good (m : SE Proxy A) : quiet m -> serving id good m.
Proof. intros Q. apply serving_futures. intros p. by injection (Q p). Qed.

Lemma serving_if {A} id good (b : bool) (m n : SE Proxy A) :
  serving id good m -> serving id good n -> serving id good (if b then m else n).
Proof. by destruct b. Qed.

Lemma serving_finish id good d e : serving id good (finish d e).
Proof.
  unfold record_completion. cbv zeta.
  apply serving_bind; [apply serving_quiet; auto with books|intros _].
  apply serving_bind; [apply serving_quiet; auto with books|intros _].
  apply serving_bind; [by apply serving_futures|intros _].
  apply serving_bind; [apply serving_futures; intros p; unfold on_sched; by destruct (complete _ _)|intros _].
  apply serving_bind; [by apply serving_futures|intros _].
  apply serving_bind; [by apply serving_futures|intros rows].
  apply serving_bind; [by apply serving_futures|intros _].
  apply serving_bind; [apply serving_if; by apply serving_futures|intros _].
  apply serving_bind; [by apply serving_futures|intros _]. by apply serving_futures.
Qed.

Lemma serving_settle id good x :
  (dget x "status" = Some (JStr "ok") -> good x) -> serving id good (se_modify (settle id x)).
Proof.
  intros G p H. cbn [se_modify snd]. unfold serves, settle. destruct (dget (px_futures p) id) as [[y|]|] eqn:E; [exact (H)| |exact H].
  cbn [px_futures with_futures]. rewrite dget_dset_eq. by intros z [= <-].
Qed.

Lemma serving_fail d good error x e : serving (r_request_id (dd_request d)) good (fail_with d error x e).
Proof.
  unfold Sync.fail_with. apply serving_bind; [|intros _; apply serving_finish]. apply serving_settle.
  unfold error_payload. cbv zeta. destruct (ex_backend_status x), (truthy (ex_partial_content x)), (ex_code x) as [c|]; try done;
    destruct (String.eqb c ""); done.
Qed.

Section Served.
Context (attempt_at : nat -> Attempt) (reply : nat -> bool -> dict string json -> Q -> CallFailure + BackendResponse).

(** The payload an attempt may carry: the caller's, with [min_tokens] at most. *)
Definition own_payload (r : QueuedRequest) (payload : dict string json) : Prop :=
  payload = r_payload r \/ payload = dset (r_payload r) "min_tokens" (JInt _EMPTY_RESCUE_MIN_TOKENS).

(** The backend answered [resp] to an attempt in time, or was stopped after a
    complete JSON value, served as [resp]. *)
Definition answered (r : QueuedRequest) (n : nat) (resp : BackendResponse) : Prop :=
  (at_start (attempt_at n) < r_timeout_deadline r)%Q /\
  exists w payload allowed, own_payload r payload /\
    (reply n w payload allowed = inr resp
     \/ exists a body, reply n w payload allowed = inl (CallAborted a) /\ salvaged_body float_text a = Some body
        /\ br_body resp = JDict body /\ br_finish_reason resp = JStr "stop").

(** Neither a structured answer nor a tool turn the length cut. *)
Definition whole (r : QueuedRequest) (resp : BackendResponse) : Prop :=
  (text_is (br_finish_reason resp) "length" && request_is_structured r)%bool = false
  /\ is_truncated_tool_turn float_text r (text_option (br_finish_reason resp)) (_response_tool_calls (response_dict resp))
       (br_output_tokens resp) = false.

Definition good_answer (d : DispatchDecision) (x : dict string json) : Prop :=
  exists n resp, answered (dd_request d) n resp /\ whole (dd_request d) resp
  /\ x = result_of float_repr d (at_elapsed (attempt_at n)) resp.

Abbreviation served d m := (serving (r_request_id (dd_request d)) (good_answer d) m).

Lemma served_fail d error x e : served d (fail_with d error x e).
Proof. apply serving_fail. Qed.

#[local] Hint Resolve served_fail serving_finish serving_quiet serving_if : books.

Lemma blank_run_serves ep d att a v p : 
  served d (on_blank_run float_text roles keepalive mono wall ep d att a v)
  /\ (own_payload (dd_request d) (v_payload v) ->
      match on_blank_run float_text roles keepalive mono wall ep d att a v p with
      | (Ret (Again v'), _) => own_payload (dd_request d) (v_payload v')
      | (Ret (Serve _ resp), _) => exists body, salvaged_body float_text a = Some body /\ br_body resp = JDict body
                                              /\ br_finish_reason resp = JStr "stop"
      | _ => True
      end).
Proof.
  unfold on_blank_run. split.
  - apply serving_bind; [auto with books|intros _]. destruct (salvaged_body float_text a).
    + do 2 (apply serving_bind; [auto with books|intros ?]). auto with books.
    + destruct (_ && _)%bool; (apply serving_bind; [auto with books|intros _]); [auto with books|].
      apply serving_bind; auto with books.
  - intros O. unfold count_corr. rewrite run_modify. destruct (salvaged_body float_text a) as [body|].
    + rewrite run_modify, run_bind. cbn [se_lift]. destruct (salvaged_cached body); [|done]. cbn. eauto.
    + destruct (_ && _)%bool; rewrite run_modify; [by left|]. rewrite run_bind. by destruct (fail_with _ _ _ _ _) as [[]].
Qed.

Lemma timeout_serves d att f p :
  served d (on_timeout roles keepalive mono wall best_effort d att f)
  /\ match on_timeout roles keepalive mono wall best_effort d att f p with (Ret Over, _) | (Raise _, _) => True | _ => False end.
Proof.
  unfold on_timeout. split.
  - do 3 (apply serving_bind; [auto with books|intros _]). auto with books.
  - rewrite run_bind. by destruct (fail_with _ _ _ _ _) as [[]].
Qed.

Lemma backend_error_serves d att f v p :
  served d (on_backend_error roles keepalive mono wall transient_retry_max d att f v)
  /\ (own_payload (dd_request d) (v_payload v) ->
      match on_backend_error roles keepalive mono wall transient_retry_max d att f v p with
      | (Ret (Again v'), _) => own_payload (dd_request d) (v_payload v')
      | (Ret (Serve _ _), _) => False
      | _ => True
      end).
Proof.
  unfold on_backend_error. split.
  - apply serving_bind; [apply serving_if; auto with books|intros _]. cbv zeta.
    repeat (apply serving_if || (apply serving_bind; [by auto with books|intros _])); auto with books.
  - intros O. cbv zeta. rewrite run_bind. match goal with |- context [match ?m p with _ => _ end] => destruct (m p) as [[u|e] p1] end; [|done].
    destruct (_ && _ && _)%bool.
    + destruct (empty_completion _ _); [by right|]. by destruct (_ && _ && _)%bool.
    + rewrite run_bind. by destruct (fail_with _ _ _ _ _) as [[]].
Qed.

Lemma response_serves ep d n resp v :
  answered (dd_request d) n resp ->
  served d (on_response float_text float_repr roles keepalive mono wall watch_enabled length_enforce evidence_text ep d
              (at_elapsed (attempt_at n)) resp v).
Proof.
  intros A. unfold on_response. do 2 (apply serving_bind; [apply serving_if; auto with books|intros _]).
  destruct (_ && request_is_structured _)%bool eqn:L.
  - unfold cut_structured. cbv zeta. repeat case_match; try apply served_fail;
      (apply serving_bind; [auto with books|intros _]; apply served_fail).
  - destruct (is_truncated_tool_turn _ _ _ _ _) eqn:T.
    + unfold cut_tool_turn. apply serving_bind; [auto with books|intros _]. apply served_fail.
    + unfold serve. cbv zeta. apply serving_bind; [apply serving_settle; intros _; by exists n, resp|intros _].
      apply serving_bind; [apply serving_finish|intros _]. apply serving_if; auto with books.
Qed.

Lemma attempt_serves ep d v :
  own_payload (dd_request d) (v_payload v) ->
  served d (attempt attempt_at reply ep d v)
  /\ forall p v' p', attempt attempt_at reply ep d v p = (Ret (Some v'), p') -> own_payload (dd_request d) (v_payload v').
Proof.
  intros O. unfold sync_attempt. cbv zeta. cbn [v_attempts v_payload]. destruct (Qle_bool _ 0) eqn:L.
  { split; [|intros p v' p' H; steps H; discriminate]. apply serving_bind; [|auto with books].
    unfold expired_in_queue. apply serving_bind; auto with books. }
  apply time_left in L. rename L into IN.
  match goal with |- context [verdict ← ?m; _] => set (k := m) end.
  assert (K : forall p, (serves (r_request_id (dd_request d)) (good_answer d) p -> serves (r_request_id (dd_request d)) (good_answer d) (k p).2)
    /\ match k p with
       | (Ret (Again v'), _) => own_payload (dd_request d) (v_payload v')
       | (Ret (Serve _ resp), _) => answered (dd_request d) (S (v_attempts v)) resp
       | _ => True end).
  { subst k. intros p. destruct (reply _ _ _ _) as [[st de|de|de|a|e]|resp] eqn:E.
    1,3: match goal with |- context [on_backend_error _ _ _ _ _ _ ?t ?f ?v] =>
           destruct (backend_error_serves d t f v p) as [S1 S2] end;
         (split; [apply S1|]); specialize (S2 O); by repeat case_match.
    - match goal with |- context [on_timeout _ _ _ _ _ _ ?t ?f] => destruct (timeout_serves d t f p) as [S1 S2] end.
      split; [apply S1|]. by repeat case_match.
    - match goal with |- context [on_blank_run _ _ _ _ _ _ _ ?t ?f ?v] =>
           destruct (blank_run_serves ep d t f v p) as [S1 S2] end.
      split; [apply S1|]. specialize (S2 O). repeat case_match; try done. split; [exact IN|].
      destruct S2 as (body & B). eexists _, _, _. split; [exact O|right]. eauto.
    - done.
    - split; [done|]. cbn. split; [exact IN|]. eexists _, _, _. split; [exact O|by left]. }
  split.
  - intros p H. destruct (K p) as [K1 K2]. specialize (K1 H). rewrite run_bind.
    destruct (k p) as [[[v1|v1 resp|]|e] p1]; try exact K1.
    rewrite run_bind. pose proof (response_serves ep d _ _ v1 K2 p1 K1) as R. by destruct (on_response _ _ _ _ _ _ _ _ _ _ _ _ _ _ p1) as [[]].
  - intros p v' p' H. apply se_bind_Ret in H as (o & p1 & E & H). destruct (K p) as [_ K2]. rewrite E in K2.
    destruct o as [v1|v1 resp|]; [by injection H as <- _|steps H; discriminate|discriminate].
Qed.

Lemma loop_serves fuel ep d v : own_payload (dd_request d) (v_payload v) -> served d (looped attempt_at reply fuel ep d v).
Proof.
  revert v. induction fuel as [|fuel IH]; intros v O; [by intros p H|]. cbn [sync_loop]. intros p H.
  destruct (attempt_serves ep d v O) as [A1 A2]. specialize (A1 p H). specialize (A2 p). rewrite run_bind.
  destruct (attempt attempt_at reply ep d v p) as [[[v1|]|e] p1]; try exact A1. by apply IH; [eapply A2|].
Qed.

(** C10 What is handed to the caller as a success was answered whole, and in time.
    An answer with status ok is the reply of the backend to an attempt that
    carried the caller's own payload (or the complete JSON value of a stream that
    was stopped), started before the deadline; it is not a structured answer, nor a
    tool turn, that the length cut. *)
Theorem served_answer_whole ep d elapsed p r p' x :
  execute_dispatch float_text float_repr roles keepalive mono wall watch_enabled length_enforce best_effort transient_retry_max
    fault_text evidence_text slot_hash attempt_at reply (Some ep) d elapsed p = (r, p') ->
  dget (px_futures p) (r_request_id (dd_request d)) = Some None ->
  dget (px_futures p') (r_request_id (dd_request d)) = Some (Some x) -> dget x "status" = Some (JStr "ok") ->
  good_answer (with_request d (pin_slot slot_hash ep (dd_request d))) x.
Proof.
  intros E P F S. set (d' := with_request d (pin_slot slot_hash ep (dd_request d))).
  assert (I : r_request_id (dd_request d') = r_request_id (dd_request d)) by apply (pin_slot_same ep (dd_request d)).
  rewrite <- I in P, F. refine ((_ : serves (r_request_id (dd_request d')) (good_answer d') p') x F S).
  unfold execute_dispatch in E. cbv zeta in E. rewrite run_modify in E. fold d' in E. unfold or_failed in E.
  set (q := submit _ p) in E. assert (Q : serves (r_request_id (dd_request d')) (good_answer d') q).
  { intros y. unfold q, submit. cbn [px_futures]. by rewrite P. }
  apply (loop_serves (sync_fuel transient_retry_max) ep d' (vars_init (dd_request d'))) in Q; [|by left].
  unfold execute_sync in E. destruct (looped _ _ _ _ _ _ q) as [[b|e] p1]; [by injection E as _ <-|].
  pose proof (served_fail d' (fault_text e) no_extras (failed_ending elapsed "error") p1 Q) as R. by rewrite E in R.
Qed.
End Served.
End Dispatching.
