(* ===== verification/Deadline.v ===== *)
(** * Deadlines and timeouts of the dispatcher (lifecycle.py)

    The deadline a caller that names none is given ([resolve_default_timeout]),
    the extension of it when a correction grants more tokens
    ([extend_deadline_for_granted_budget]), the ceiling of a stream, the
    judgement of a deadline too short to count against a backend, and the records
    of timeouts ([record_timeout_shadow], [record_timeout_event]).  A deadline is
    only ever extended ([extension_never_shrinks]), and the default one is within
    its bounds and counted ([default_within_cap]).  The time the extension grants is
    the caller's wait: the dispatch itself stays bound to the deadline fixed when
    the request was made ([extension_leaves_dispatch]). *)

From Stdlib Require Import Ascii QArith Qround Lqa Lia ZArith.
From stdpp Require Import base list strings.
From S2P Require Import Prelude PyDict PyText Config Json Budget Cost Queue JsonRead Scheduler Spend Wal Intent Timeout Degen Keepalive Effort Correct Backend Completion Sync.

Local Open Scope string_scope.

Definition _DEFAULT_TIMEOUT_S : Q := 180.
Definition _SMART_DEFAULT_CAP_S : Q := 1800.
Definition _STREAM_HARD_CAP_BACKGROUND_S : Q := 3600.
Definition _STREAM_HARD_CAP_INTERACTIVE_S : Q := 900.
Definition _STALL_BEST_EFFORT_RATIO : Q := 1 # 2.
Definition _COOLDOWN_BEST_EFFORT_RATIO : Q := 1 # 10.

(** The applied deadline is far under the time recommended. *)
Definition _timeout_below_recommended (applied_timeout_s recommended_ms ratio : Q) : bool :=
  let applied_ms := (applied_timeout_s * 1000)%Q in
  (negb (Qeq_bool recommended_ms 0) && negb (Qeq_bool applied_ms 0) && Qltb applied_ms (recommended_ms * ratio))%bool.

(** [req.timeout_s = t] *)
Definition set_timeout_s (r : QueuedRequest) (t : Q) : QueuedRequest :=
  {| r_request_id := r_request_id r; r_agent_id := r_agent_id r; r_endpoint := r_endpoint r;
     r_priority := r_priority r; r_band := r_band r; r_call_site := r_call_site r;
     r_payload_type := r_payload_type r; r_payload := r_payload r;
     r_timeout_deadline := r_timeout_deadline r; r_enqueued_at := r_enqueued_at r;
     r_estimated_cost_ss := r_estimated_cost_ss r; r_est_input_tokens := r_est_input_tokens r;
     r_session_id := r_session_id r; r_turn_id := r_turn_id r; r_caller_id := r_caller_id r;
     r_declared_agent_id := r_declared_agent_id r; r_asserted_by_key_id := r_asserted_by_key_id r;
     r_timeout_s := t; r_stream := r_stream r;
     r_ctx_per_slot_at_admission := r_ctx_per_slot_at_admission r;
     r_json_object_stripped := r_json_object_stripped r; r_forced_tool_schema := r_forced_tool_schema r;
     r_forced_tool_name := r_forced_tool_name r; r_deadline_is_default := r_deadline_is_default r;
     r_degraded_from := r_degraded_from r; r_spilled_from := r_spilled_from r; r_requested := r_requested r;
     r_routed_to := r_routed_to r; r_allow_degrade := r_allow_degrade r; r_allow_spill := r_allow_spill r;
     r_no_store_outcome := r_no_store_outcome r |}.

(** The priority a body declares, as [LLMPriority.coerce] takes it. *)
Definition prio_value (j : json) : PrioValue :=
  match j with
  | JNull => PV_none
  | JBool b => PV_bool b
  | JInt n => PV_int n
  | j => PV_str (py_str j)
  end.

(** [req.est_input_tokens or estimate_input_tokens(req.payload)] *)
Definition est_in_of (r : QueuedRequest) : res Z :=
  if (r_est_input_tokens r =? 0)%Z then estimate_input_tokens (r_payload r) else Ret (r_est_input_tokens r).

(** [int(req.payload.get("max_tokens", 0) or 0)] *)
Definition est_out_of (r : QueuedRequest) : res Z :=
  match int_or_zero (jget (r_payload r) "max_tokens") with Some n => Ret n | None => Raise ValueError end.

(** ** The tally of default deadlines *)

Record SmartTally := mkSmart { sm_count : Z; sm_flat_s : Q; sm_min : option Q; sm_max : option Q; sm_sum : Q }.

Definition smart_new : SmartTally := mkSmart 0 _DEFAULT_TIMEOUT_S None None 0.

Definition smart_add (s : Q) (t : SmartTally) : SmartTally :=
  mkSmart (sm_count t + 1) (sm_flat_s t)
    (Some (match sm_min t with Some m => pymin m s | None => s end))
    (Some (match sm_max t with Some m => pymax m s | None => s end)) (sm_sum t + s)%Q.

(** The state the extension of streams is counted in. *)
Record StreamTally := mkStreamTally { stream_deadline_extended : Z; stream_extension_s_total : Q }.

Section Deadlines.
(** The advice of the running proxy: its model, its knobs and its scheduler. *)
Context (roles : dict string string) (log : Q -> Q) (unit_ratio : Q) (knobs : TimeoutKnobs) (ceilings : dict string Q).

Definition recommended_timeout_s (m : TimeoutModel) (s : Sched) (endpoint : string) (pri est_in est_out : Z) : Z :=
  ad_recommended_timeout_s (effective_timeout_advice log unit_ratio roles m knobs ceilings s endpoint pri est_in est_out).

(** [mt_before]: the budget the caller asked for. *)
Definition extend_deadline_for_granted_budget (m : TimeoutModel) (s : Sched) (mt_before : json) (r : QueuedRequest) : QueuedRequest :=
  match py_int (jget (r_payload r) "max_tokens"), py_int mt_before with
  | Some mt_after, Some mt_before =>
      if ((0 <? mt_after) && (0 <? mt_before) && (mt_before <? mt_after))%Z%bool then
        match estimate_input_tokens (r_payload r) with
        | Ret est_in =>
            let rec := recommended_timeout_s m s (r_endpoint r) (prio_int (r_priority r)) est_in mt_after in
            if ((rec =? 0)%Z || Qle_bool (inject_Z rec) (r_timeout_s r))%bool then r else set_timeout_s r (inject_Z rec)
        | Raise _ => r
        end
      else r
  | _, _ => r
  end.

(** The advice for a body that names no deadline. *)
Definition smart_default_s (m : TimeoutModel) (s : Sched) (endpoint : string) (body : dict string json) : Q :=
  match (priority ← coerce (prio_value (jget body "priority")) (Some P1_TURN_SUPPORT);
         ios ← match jget body "payload" with
               | JDict payload =>
                   est_in ← estimate_input_tokens payload;
                   Ret (est_in, match py_int (jget payload "max_tokens") with Some n => if (0 <? n)%Z then n else 0%Z | None => 0%Z end)
               | j => if truthy j then Ret (0, 0)%Z else est_in ← estimate_input_tokens []; Ret (est_in, 0%Z)
               end;
         Ret (recommended_timeout_s m s endpoint (prio_int priority) ios.1 ios.2)) with
  | Ret rec => if (0 <? rec)%Z then pymin (inject_Z rec) _SMART_DEFAULT_CAP_S else _DEFAULT_TIMEOUT_S
  | Raise _ => _DEFAULT_TIMEOUT_S
  end.

Definition resolve_default_timeout (m : TimeoutModel) (s : Sched) (smart : bool) (endpoint : string) (body : dict string json)
    (shadow : dict string SmartTally) : Q * dict string SmartTally :=
  let smart_s := smart_default_s m s endpoint body in
  let ep := normalize_endpoint roles endpoint in
  let tally := default smart_new (dget shadow ep) in
  (if smart then smart_s else _DEFAULT_TIMEOUT_S, dset shadow ep (smart_add smart_s tally)).

(** ** Streams *)

Definition _stream_hard_cap_s (caps : dict string Q) (r : QueuedRequest) : Q :=
  let band := if bool_decide (r_band r = INTERACTIVE) then _STREAM_HARD_CAP_INTERACTIVE_S else _STREAM_HARD_CAP_BACKGROUND_S in
  match dget caps (normalize_endpoint roles (r_endpoint r)) with
  | Some cap => if Qltb 0 cap then cap else band
  | None => band
  end.

Definition _note_stream_extension (duration budget_s : Q) (soft_budget : bool) (t : StreamTally) : StreamTally :=
  let over := (duration - budget_s)%Q in
  if negb soft_budget then t
  else if Qle_bool over 0 then t
  else mkStreamTally (stream_deadline_extended t + 1) (stream_extension_s_total t + over).

(** ** What is recorded of a deadline *)

Definition _is_best_effort_timeout (m : TimeoutModel) (r : QueuedRequest) (ratio : Q) : bool :=
  match (est_in ← est_in_of r; est_out ← est_out_of r;
         Ret (ad_recommended_ms (advise roles m (r_endpoint r) (prio_int (r_priority r)) est_in est_out))) with
  | Ret rec => _timeout_below_recommended (r_timeout_s r) rec ratio
  | Raise _ => false
  end.

(** The sample joins the model after the advice it is compared with. *)
Definition record_timeout_shadow (wall : Q) (r : QueuedRequest) (now : Q) (output_tokens : Z) (status : string) (m : TimeoutModel)
  : res (TimeoutModel * list Stmt) :=
  let end_to_end_ms := ((now - r_enqueued_at r) * 1000)%Q in
  est_in ← est_in_of r;
  est_out ← est_out_of r;
  let priority := prio_int (r_priority r) in
  let advice := advise roles m (r_endpoint r) priority est_in est_out in
  let m := tm_record roles (r_endpoint r) priority est_in output_tokens end_to_end_ms status now m in
  Ret (m, if String.eqb status "ok"
          then persist_timeout_shadow wall
                 (mkSRow (r_request_id r) 0 (normalize_endpoint roles (r_endpoint r)) priority est_in est_out output_tokens
                    (py_round 1 end_to_end_ms) (r_timeout_s r) (ad_recommended_ms advice) (ad_p95_ms advice) (ad_median_ms advice)
                    (ad_min_ms advice) (ad_source advice) (Qltb (ad_recommended_ms advice) end_to_end_ms))
          else []).

(** How a timeout came about. *)
Record TimedOut := mkTimedOut {
  ti_layer : string;
  ti_elapsed_s : Q;
  ti_queue_wait_ms : option Q;
  ti_proxy_initiated : bool;
  ti_abort_reason : option string
}.

(** The row of a timeout, the load of the endpoint and the advice in it; [None]
    where its computation faults, which leaves no row.  [context_per_slot]: of the
    endpoint as configured now. *)
Definition timeout_row (m : TimeoutModel) (s : Sched) (context_per_slot : option Z) (r : QueuedRequest) (t : TimedOut) : option TRow :=
  let snap := endpoint_snapshot s (r_endpoint r) in
  match est_in_of r, est_out_of r with
  | Ret est_in, Ret est_out =>
      let priority := prio_int (r_priority r) in
      let window := if (r_ctx_per_slot_at_admission r =? 0)%Z then default 0%Z context_per_slot else r_ctx_per_slot_at_admission r in
      let used := if (window =? 0)%Z then None else Some (py_round 1 (inject_Z est_in / inject_Z window * 100)) in
      let recommended_ms := ad_recommended_ms (advise roles m (r_endpoint r) priority est_in est_out) in
      let under := (negb (Qeq_bool recommended_ms 0) && Qle_bool (ti_elapsed_s t * 1000) recommended_ms
                    && negb (ti_proxy_initiated t))%bool in
      Some (mkTRow (r_request_id r) 0 (normalize_endpoint roles (r_endpoint r)) priority (r_agent_id r) (r_call_site r) (ti_layer t)
              (py_round 3 (ti_elapsed_s t)) (r_timeout_s r) (py_round 1 <$> ti_queue_wait_ms t) (es_in_flight snap) (es_queued snap)
              (es_max_slots snap) est_in est_out recommended_ms under (r_session_id r) (r_turn_id r) (r_caller_id r) window used
              (ti_abort_reason t))
  | _, _ => None
  end.

(** The rows a timeout adds; it is counted once per request. *)
Definition timeout_rows (wall : Q) (m : TimeoutModel) (s : Sched) (context_per_slot : option Z) (r : QueuedRequest) (t : TimedOut)
    (timed_out : list string) : list Stmt :=
  if bool_decide (r_request_id r ∈ timed_out) then []
  else match timeout_row m s context_per_slot r t with Some row => persist_timeout_event wall row | None => [] end.
End Deadlines.

(** ** The extension *)

Section Extending.
Context (roles : dict string string) (log : Q -> Q) (unit_ratio : Q) (knobs : TimeoutKnobs) (ceilings : dict string Q).
Context (m : TimeoutModel) (s : Sched).

Abbreviation extend := (extend_deadline_for_granted_budget roles log unit_ratio knobs ceilings m s).

(** The tokens a correction granted over what the caller asked for. *)
Definition granted (before : json) (r : QueuedRequest) (b a : Z) : Prop :=
  py_int before = Some b /\ py_int (jget (r_payload r) "max_tokens") = Some a /\ (0 < b < a)%Z.

Lemma set_timeout_same r : set_timeout_s r (r_timeout_s r) = r.
Proof. by destruct r. Qed.

Lemma extend_cases before r :
  extend before r = r
  \/ exists b a est, granted before r b a /\ estimate_input_tokens (r_payload r) = Ret est
     /\ (r_timeout_s r
         < inject_Z (recommended_timeout_s roles log unit_ratio knobs ceilings m s (r_endpoint r) (prio_int (r_priority r)) est a))%Q
     /\ extend before r = set_timeout_s r (inject_Z (recommended_timeout_s roles log unit_ratio knobs ceilings m s (r_endpoint r)
                                                     (prio_int (r_priority r)) est a)).
Proof.
  unfold extend_deadline_for_granted_budget.
  destruct (py_int (jget _ _)) as [a|] eqn:A, (py_int before) as [b|] eqn:B; try by left.
  destruct (_ && _ && _)%bool eqn:C; [|by left]. destruct (estimate_input_tokens _) as [est|] eqn:E; [|by left].
  cbv zeta. destruct (_ || _)%bool eqn:D; [by left|right].
  apply andb_true_iff in C as [[C1%Z.ltb_lt C2%Z.ltb_lt]%andb_true_iff C3%Z.ltb_lt].
  apply orb_false_iff in D as [_ D]. exists b, a, est. split; [split; [done|split; [done|lia]]|]. split; [done|]. split; [|done].
  apply Qnot_le_lt. intros K. apply Qle_bool_iff in K. congruence.
Qed.

Lemma extend_form before r : extend before r = set_timeout_s r (r_timeout_s (extend before r)).
Proof. destruct (extend_cases before r) as [->|(b & a & est & _ & _ & _ & ->)]; [by rewrite set_timeout_same|done]. Qed.

(** The deadline of a request is only ever extended: nothing else of the request
    changes, and where a correction raised [max_tokens] the deadline covers what
    the advice recommends for the tokens granted. *)
Theorem extension_never_shrinks before r :
  (r_timeout_s r <= r_timeout_s (extend before r))%Q
  /\ extend before r = set_timeout_s r (r_timeout_s (extend before r))
  /\ (forall b a est, granted before r b a -> estimate_input_tokens (r_payload r) = Ret est -> (0 <= r_timeout_s r)%Q ->
      (inject_Z (recommended_timeout_s roles log unit_ratio knobs ceilings m s (r_endpoint r) (prio_int (r_priority r)) est a)
       <= r_timeout_s (extend before r))%Q).
Proof.
  split; [|split].
  - destruct (extend_cases before r) as [->|(b & a & est & _ & _ & L & ->)]; [apply Qle_refl|by apply Qlt_le_weak].
  - apply extend_form.
  - intros b a est (B & A & C) E P. unfold extend_deadline_for_granted_budget. rewrite A, B.
    assert (((0 <? a) && (0 <? b) && (b <? a))%Z%bool = true) as -> by (rewrite !andb_true_iff, !Z.ltb_lt; lia).
    rewrite E. cbv zeta. destruct (_ || _)%bool eqn:D; [|apply Qle_refl].
    apply orb_true_iff in D as [->%Z.eqb_eq|D%Qle_bool_iff]; done.
Qed.
End Extending.

(** ** The default deadline *)

Section Defaulting.
Context (roles : dict string string) (log : Q -> Q) (unit_ratio : Q) (knobs : TimeoutKnobs) (ceilings : dict string Q).
Context (m : TimeoutModel) (s : Sched).

Abbreviation smart_s := (smart_default_s roles log unit_ratio knobs ceilings m s).

Lemma smart_bounds endpoint body : (0 < smart_s endpoint body <= _SMART_DEFAULT_CAP_S)%Q.
Proof.
  unfold smart_default_s. destruct (_ ≫= _) as [rec|e]; [|done]. destruct (Z.ltb_spec 0 rec) as [L|L]; [|done].
  unfold pymin, Qltb. destruct (Qle_bool (inject_Z rec) _SMART_DEFAULT_CAP_S) eqn:E; cbn [negb].
  - apply Qle_bool_iff in E. split; [|done]. replace 0%Q with (inject_Z 0) by done. by rewrite <- Zlt_Qlt.
  - done.
Qed.

(** A caller that names no deadline is given 180 seconds, or what the advice
    recommends, positive and at most half an hour, whatever its body holds; the
    recommendation is counted either way, between the bounds of the tally. *)
Theorem default_within_cap smart endpoint body shadow :
  let '(t, shadow') := resolve_default_timeout roles log unit_ratio knobs ceilings m s smart endpoint body shadow in
  (0 < t <= _SMART_DEFAULT_CAP_S)%Q /\ (smart = false -> t = _DEFAULT_TIMEOUT_S)
  /\ exists tally, dget shadow' (normalize_endpoint roles endpoint) = Some tally
     /\ sm_count tally = (match dget shadow (normalize_endpoint roles endpoint) with Some x => sm_count x | None => 0 end + 1)%Z
     /\ exists lo hi, sm_min tally = Some lo /\ sm_max tally = Some hi /\ (lo <= smart_s endpoint body <= hi)%Q.
Proof.
  unfold resolve_default_timeout. cbv zeta. split; [|split].
  - destruct smart; [apply smart_bounds|done].
  - by intros ->.
  - eexists. rewrite dget_dset_eq. split; [done|]. split; [by destruct (dget shadow _)|].
    eexists _, _. split; [done|]. split; [done|]. generalize (smart_s endpoint body). intros q.
    set (t := default smart_new _). split.
    + destruct (sm_min t) as [l|]; [|apply Qle_refl]. unfold pymin, Qltb. destruct (Qle_bool l q) eqn:E; cbn [negb].
      * by apply Qle_bool_iff. * apply Qle_refl.
    + destruct (sm_max t) as [h|]; [|apply Qle_refl]. unfold pymax, Qltb. destruct (Qle_bool q h) eqn:E; cbn [negb].
      * by apply Qle_bool_iff. * apply Qle_refl.
Qed.
End Defaulting.

(** ** What the extension reaches *)

Section Clock.
Context (float_text : string -> string) (float_repr : Q -> string).
Context (roles : dict string string) (keepalive : string -> option KeepaliveConf) (mono wall : Q).
Context (watch_enabled length_enforce best_effort : bool) (transient_retry_max : Z).
Context (fault_text : PyErr -> string) (evidence_text : Evidence -> string) (slot_hash : string -> Z).
Context (attempt_at : nat -> Attempt) (reply : nat -> bool -> dict string json -> Q -> CallFailure + BackendResponse).

Abbreviation dispatch := (execute_dispatch float_text float_repr roles keepalive mono wall watch_enabled length_enforce best_effort
                            transient_retry_max fault_text evidence_text slot_hash attempt_at reply).
Abbreviation attempt := (sync_attempt float_text float_repr roles keepalive mono wall watch_enabled length_enforce best_effort
                           transient_retry_max evidence_text attempt_at reply).

Definition reclocked (t : Q) (d : DispatchDecision) : DispatchDecision := with_request d (set_timeout_s (dd_request d) t).

Lemma attempt_reclocked ep d t v : attempt ep (reclocked t d) v = attempt ep d v.
Proof. by destruct d as [[] w o]. Qed.

Lemma fail_reclocked d t error x e :
  fail_with roles keepalive mono wall (reclocked t d) error x e = fail_with roles keepalive mono wall d error x e.
Proof. by destruct d as [[] w o]. Qed.

Lemma loop_reclocked fuel ep d t v p :
  sync_loop float_text float_repr roles keepalive mono wall watch_enabled length_enforce best_effort transient_retry_max evidence_text
    attempt_at reply fuel ep (reclocked t d) v p
  = sync_loop float_text float_repr roles keepalive mono wall watch_enabled length_enforce best_effort transient_retry_max evidence_text
      attempt_at reply fuel ep d v p.
Proof.
  revert v p. induction fuel as [|fuel IH]; intros v p; [done|]. cbn [sync_loop].
  rewrite !run_bind, attempt_reclocked. by destruct (attempt ep d v p) as [[[v1|]|e] p1].
Qed.

Lemma pin_reclocked ep d t :
  with_request (reclocked t d) (pin_slot slot_hash ep (dd_request (reclocked t d)))
  = reclocked t (with_request d (pin_slot slot_hash ep (dd_request d))).
Proof.
  unfold reclocked, with_request. cbn [dd_request queue_wait_ms occupancy_at_dispatch]. f_equal. unfold pin_slot.
  change (r_session_id (set_timeout_s (dd_request d) t)) with (r_session_id (dd_request d)).
  change (is_chat (set_timeout_s (dd_request d) t)) with (is_chat (dd_request d)).
  change (r_band (set_timeout_s (dd_request d) t)) with (r_band (dd_request d)).
  by destruct (_ && _ && _ && _)%bool.
Qed.

(** The dispatch does not see the deadline's extension: extended or not, the
    request meets the same attempts, allowed the same time, and ends the same
    way.  The extension lengthens what the caller waits for. *)
Theorem extension_leaves_dispatch log unit_ratio knobs ceilings m s before endpoint d elapsed p :
  dispatch endpoint (with_request d (extend_deadline_for_granted_budget roles log unit_ratio knobs ceilings m s before (dd_request d)))
    elapsed p
  = dispatch endpoint d elapsed p.
Proof.
  rewrite (extend_form roles log unit_ratio knobs ceilings m s before (dd_request d)).
  generalize (r_timeout_s (extend_deadline_for_granted_budget roles log unit_ratio knobs ceilings m s before (dd_request d))).
  intros t. fold (reclocked t d). unfold execute_dispatch. destruct endpoint as [ep|]; [|by destruct d as [[] w o]].
  cbv zeta. rewrite pin_reclocked. rewrite !run_modify. unfold or_failed, execute_sync.
  set (d' := with_request d _). change (vars_init (dd_request (reclocked t d'))) with (vars_init (dd_request d')).
  rewrite loop_reclocked. change (r_request_id (dd_request (reclocked t d'))) with (r_request_id (dd_request d')).
  destruct (sync_loop _ _ _ _ _ _ _ _ _ _ _ _ _ _ _ _ _ _) as [[b|e] p1]; [done|]. by rewrite fail_reclocked.
Qed.
End Clock.
