(* ===== verification/Relay.v ===== *)
(** * Helpers of the streaming path (lifecycle.py)

    The split of a chunk that brings its finish with its last text
    ([_split_coalesced_finish_chunk]), the second call that writes the answer a
    reasoning loop never reached ([answer_now_request], [answer_now_relay], the
    two halves of [_answer_now_stream]) and the test for an image in a request. *)

From Stdlib Require Import Ascii QArith Qround Lia ZArith.
From stdpp Require Import base list strings.
From S2P Require Import Prelude PyDict PyText Config Json ThinkSwitch ThinkBleed ThinkStats Cost Queue JsonRead ToolStream Degen Intent Effort Forced Correct Payload Provider Backend.

Local Open Scope string_scope.

(** ** A finish that came with its text *)

(** A choice whose finish rides on its text; [None] for what is no object. *)
Definition coalesced (ch : json) : option bool :=
  match ch with
  | JDict c =>
      let content := match jget c "delta" with JDict delta => jget delta "content" | _ => JNull end in
      Some (match jget c "finish_reason" with JNull => false | _ => truthy content end)
  | _ => None
  end.

Definition on_choice (f : dict string json -> dict string json) (ch : json) : json :=
  match ch with JDict c => JDict (f c) | j => j end.

Definition on_choices (f : dict string json -> dict string json) (p : dict string json) : dict string json :=
  match jget p "choices" with JList l => dset p "choices" (JList (map (on_choice f) l)) | _ => p end.

Definition unfinished (c : dict string json) : dict string json := dset c "finish_reason" JNull.
Definition emptied (c : dict string json) : dict string json := dset c "delta" (JDict []).

Definition _split_coalesced_finish_chunk (parsed : dict string json) : option (dict string json * dict string json) :=
  match jget parsed "choices" with
  | JList (c :: cs) =>
      match mapM coalesced (c :: cs) with
      | Some found =>
          if existsb id found then Some (on_choices unfinished parsed, ddel (on_choices emptied parsed) "usage") else None
      | None => None
      end
  | _ => None
  end.

(** ** An image on the wire *)

(** [part.get("type") in _IMAGE_PART_TYPES]: a type that cannot be hashed raises. *)
Definition image_part (part : json) : res bool :=
  match part with
  | JDict p => match jget p "type" with
               | JStr s => Ret (String.eqb s "image" || String.eqb s "image_url")%bool
               | JList _ | JDict _ => Raise TypeError
               | _ => Ret false
               end
  | _ => Ret false
  end.

Fixpoint any_of (l : list (res bool)) : res bool :=
  match l with
  | [] => Ret false
  | x :: l => (b ← x; if (b : bool) then Ret true else any_of l)
  end.

Definition image_message (msg : json) : res bool :=
  match msg with
  | JDict m => match jget m "content" with JList parts => any_of (map image_part parts) | _ => Ret false end
  | _ => Ret false
  end.

Definition image_source (source : dict string json) : res bool :=
  match jget source "messages" with JList ms => any_of (map image_message ms) | _ => Ret false end.

Definition _carries_image (body : dict string json) : bool :=
  match any_of (image_source body :: match jget body "payload" with JDict p => [image_source p] | _ => [] end) with
  | Ret b => b
  | Raise _ => false
  end.

(** ** Answer now *)

Definition _ANSWER_NOW_MAX_TOKENS : Z := 8000.
Definition _ANSWER_NOW_REASONING_MIN_TOKENS : Z := 512.
Definition _ANSWER_NOW_REASONING_MAX_TOKENS : Z := 2000.
Definition _EFFORT_LADDER : list string := ["minimal"; "low"; "medium"; "high"; "xhigh"; "max"].

(** What the second call reads of the endpoint. *)
Record RescueEp := mkRescue {
  re_no_thinking_switch : bool;
  re_thinking_kwargs : list string;
  re_reasoning_effort_map : dict string string;
  re_thinking_effort : string;
  re_reasoning_effort : string;
  re_answer_now_budget : bool;
  re_engine : string;
  re_thinking_budget_ratio : Q;
  re_reasoning_budget_tokens : Z
}.

Definition _answer_now_switch_off (ep : RescueEp) : dict string json :=
  if re_no_thinking_switch ep then []
  else match re_thinking_kwargs ep with
       | [] => [("thinking", JBool false); ("enable_thinking", JBool false)]
       | keys => foldl (fun d k => dset d k (JBool false)) [] keys
       end.

Fixpoint ladder_index (n : nat) (ladder : list string) (w : string) : option nat :=
  match ladder with
  | [] => None
  | x :: rest => if String.eqb x w then Some n else ladder_index (S n) rest w
  end.

(** [min] of ranked words: a tie goes to the lower text. *)
Definition lower_ranked (a b : nat * string) : bool := (b.1 <? a.1)%nat || ((b.1 =? a.1)%nat && String.ltb b.2 a.2).

Definition _lowest_declared_effort (ep : RescueEp) : string :=
  let words := (dvals (re_reasoning_effort_map ep) ++ [re_thinking_effort ep; re_reasoning_effort ep])%list in
  let ranked := omap (fun w => (fun i => (i, strip w)) <$> ladder_index 0 _EFFORT_LADDER (lower (strip w))) words in
  match ranked with
  | [] => ""
  | x :: rest => (foldl (fun a b => if lower_ranked a b then b else a) x rest).2
  end.

Definition _answer_now_reasoning_budget (ep : RescueEp) (answer_max : Z) : Z :=
  if negb (re_answer_now_budget ep) then 0
  else if negb (re_no_thinking_switch ep) then 0
  else match provider_for_engine (re_engine ep) with
       | VLLM => if (Qltb 0 (re_thinking_budget_ratio ep) || (0 <? re_reasoning_budget_tokens ep)%Z)%bool
                 then Z.min (Z.max (Qtrunc (inject_Z answer_max * (1 # 2))) _ANSWER_NOW_REASONING_MIN_TOKENS)
                        _ANSWER_NOW_REASONING_MAX_TOKENS
                 else 0
       | _ => 0
       end.

(** A dict without the keys named. *)
Definition without (ks : list string) (d : dict string json) : dict string json := filter (fun kv => kv.1 ∉ ks) d.

Definition _answer_now_template_kwargs (payload : dict string json) (ep : RescueEp) : dict string json :=
  dict_update (without _THINKING_KWARG_NAMES (template_kwargs payload)) (_answer_now_switch_off ep).

Definition eol : string := String (ascii_of_N 10) EmptyString.

Definition notes_message (notes : string) : json :=
  JDict [("role", JStr "user");
         ("content", JStr ("You already worked through this problem. Your working notes are below." ++ eol ++ eol ++ "<notes>" ++ eol
                           ++ strip notes ++ eol ++ "</notes>" ++ eol ++ eol
                           ++ "Write the final answer now, in full, using those notes. Do not deliberate further and do not explain your process — produce the answer itself."))].

(** The effort of the caller gives way to the lowest declared, and to one only. *)
Definition one_effort (second : dict string json) : dict string json :=
  let second := ddel second "reasoning_effort" in
  match jget second "reasoning" with
  | JDict obj =>
      if dmem obj "effort" then
        let second := ddel second "reasoning" in
        match without ["effort"] obj with [] => second | rest => dset second "reasoning" (JDict rest) end
      else second
  | _ => second
  end.

(** An endpoint without a switch still reasons: its effort, the template kwargs
    and the payload that lower it. *)
Definition lowered (ep : RescueEp) (answer_max : Z) (kwargs second : dict string json) : string * dict string json * dict string json :=
  if re_no_thinking_switch ep then
    let effort := _lowest_declared_effort ep in
    let named := negb (String.eqb effort "") in
    let second := if named then one_effort second else second in
    let budget := _answer_now_reasoning_budget ep answer_max in
    (effort, if named then dset kwargs "reasoning_effort" (JStr effort) else kwargs,
     if (budget =? 0)%Z then second
     else dset (dset second "thinking_token_budget" (JInt budget)) "max_tokens" (JInt (answer_max + budget)))
  else ("", kwargs, second).

(** [extra_body] is merged over the top level: no switch may hide in it. *)
Definition clean_extra (effort : string) (second : dict string json) : dict string json :=
  match jget second "extra_body" with
  | JDict eb =>
      match jget eb "chat_template_kwargs" with
      | JDict ck =>
          let eb_ck := without _THINKING_KWARG_NAMES ck in
          let eb_ck := if (negb (String.eqb effort "") && dmem eb_ck "reasoning_effort")%bool
                       then dset eb_ck "reasoning_effort" (JStr effort) else eb_ck in
          dset second "extra_body"
            (JDict (dict_update (without ["chat_template_kwargs"] eb)
                      match eb_ck with [] => [] | _ => [("chat_template_kwargs", JDict eb_ck)] end))
      | _ => second
      end
  | _ => second
  end.

(** The payload of the second call; [None] where there is none to make. *)
Definition answer_now_request (payload : dict string json) (ep : RescueEp) (notes : string) : option (dict string json) :=
  match each_of (jget payload "messages") with
  | Ret [] | Raise _ => None
  | Ret messages =>
      if String.eqb (strip notes) "" then None
      else
        let mt := jget payload "max_tokens" in
        match (if truthy mt then int_or_zero mt else Some _ANSWER_NOW_MAX_TOKENS) with
        | None => None
        | Some asked =>
            let answer_max := Z.min asked _ANSWER_NOW_MAX_TOKENS in
            let second := dict_update
              (without ["messages"; "max_tokens"; "chat_template_kwargs"; "thinking_token_budget"; "reasoning_budget_tokens"] payload)
              [("messages", JList (messages ++ [notes_message notes])%list); ("max_tokens", JInt answer_max); ("stream", JBool true)] in
            let '(effort, kwargs, second) := lowered ep answer_max (_answer_now_template_kwargs payload ep) second in
            let second := match kwargs with [] => second | _ => dset second "chat_template_kwargs" (JDict kwargs) end in
            Some (clean_extra effort second)
        end
  end.

(** *** Its answer, relayed *)

(** What has been relayed: the chunks, the count of tokens, the characters of
    answer text, and whether the end was seen. *)
Record Rescue := mkRescued { rs_relayed : list string; rs_tokens : Z; rs_chars : Z; rs_done : bool }.

Definition rescue_init : Rescue := mkRescued [] 0 0 false.

(** The characters of text in a chunk; [choices] that cannot be iterated raise. *)
Definition chunk_chars (parsed : dict string json) : res Z :=
  choices ← each_of (jget parsed "choices");
  Ret (foldl (fun n ch => match ch with
                          | JDict c => match jget c "delta" with
                                       | JDict d => match jget d "content" with
                                                    | JStr s => (n + Z.of_nat (String.length (strip s)))%Z
                                                    | _ => n
                                                    end
                                       | _ => n
                                       end
                          | _ => n
                          end) 0%Z choices).

Definition rescue_usage (parsed : dict string json) (tokens : Z) : res Z :=
  match jget parsed "usage" with
  | JDict u => Ret (if truthy (JDict u) then coerce_token_count (jget u "completion_tokens") tokens else tokens)
  | j => if truthy j then Raise AttributeError else Ret tokens
  end.

(** One event: [inl] the end of the loop, [inr] to go on. *)
Definition rescue_event (e : StreamEvent) (r : Rescue) : res (Rescue + Rescue) :=
  match e with
  | EvChunk data parsed =>
      r ← match parsed with
          | Some (JDict p) => if truthy (JDict p) then
                                tokens ← rescue_usage p (rs_tokens r);
                                chars ← chunk_chars p;
                                Ret (mkRescued (rs_relayed r) tokens (rs_chars r + chars) (rs_done r))
                              else Ret r
          | Some j => if truthy j then Raise AttributeError else Ret r
          | None => Ret r
          end;
      Ret (inr (mkRescued (rs_relayed r ++ [data])%list (rs_tokens r) (rs_chars r) (rs_done r)))
  | EvDone _ => Ret (inl (mkRescued (rs_relayed r) (rs_tokens r) (rs_chars r) true))
  | EvHold => Ret (inr r)
  end.

(** The relay; a failure keeps what had been relayed. *)
Fixpoint rescue_loop (es : list StreamEvent) (r : Rescue) : Rescue * bool :=
  match es with
  | [] => (r, true)
  | e :: es =>
      match rescue_event e r with
      | Ret (inl r) => (r, true)
      | Ret (inr r) => rescue_loop es r
      | Raise _ => (r, false)
      end
  end.

(** [(output_tokens, saw_done)], and whether the rescue counts as answered;
    [broke]: the stream failed after these events. *)
Definition answer_now_relay (es : list StreamEvent) (broke : bool) : list string * (Z * bool) * bool :=
  let '(r, ok) := rescue_loop es rescue_init in
  if (negb ok || (broke && negb (rs_done r)))%bool then (rs_relayed r, (0%Z, false), false)
  else match rs_relayed r with
       | [] => ([], (0%Z, false), false)
       | relayed => if (rs_chars r =? 0)%Z then (relayed, (0%Z, false), false)
                    else (relayed, (rs_tokens r, rs_done r), true)
       end.
