(* ===== verification/RelayProps.v ===== *)
(** * What the streaming helpers keep

    A chunk that is split is split in two that say together what it said
    ([split_keeps_the_chunk]); the second call after a reasoning loop asks for the
    answer alone, within its budget and with thinking off wherever the endpoint
    can switch it off ([answer_now_is_bounded]); and only answer text makes it a
    rescue ([rescue_has_an_answer]). *)

From Stdlib Require Import Ascii QArith Qround Lia ZArith.
From stdpp Require Import base list strings.
From S2P Require Import Prelude PyDict PyText Config Json ThinkSwitch ThinkBleed ThinkStats Cost Queue JsonRead ToolStream Degen Intent Effort EffortProps Forced Correct Payload Provider Backend Relay.

Local Open Scope string_scope.

(** ** The split *)

Lemma coalesced_objects l found : mapM coalesced l = Some found -> exists cs, l = map JDict cs.
Proof.
  revert found. induction l as [|j l IH]; intros found H; [by exists []|]. cbn in H.
  destruct j; try done. destruct (mapM coalesced l) as [f|] eqn:E; [|done].
  destruct (IH f eq_refl) as (cs & ->). by exists (d :: cs).
Qed.

Lemma coalesced_none (f : dict string json -> dict string json) cs :
  (forall c, coalesced (JDict (f c)) = Some false) ->
  exists found, mapM coalesced (map (on_choice f) (map JDict cs)) = Some found /\ existsb id found = false.
Proof.
  intros H. induction cs as [|c cs (found & E & F)]; [by exists []|]. exists (false :: found). cbn -[coalesced].
  cbn [on_choice]. rewrite H. cbn -[coalesced]. by rewrite E.
Qed.

Lemma not_split p f cs :
  jget p "choices" = JList (map (on_choice f) (map JDict cs)) -> (forall c, coalesced (JDict (f c)) = Some false) ->
  _split_coalesced_finish_chunk p = None.
Proof.
  intros C H. unfold _split_coalesced_finish_chunk. rewrite C. destruct (coalesced_none f cs H) as (found & E & F).
  destruct cs as [|c cs]; [done|]. cbn [map] in *. by rewrite E, F.
Qed.

(** A chunk that carries its finish with its text becomes two: the first has
    every key of it and the text of every choice, unfinished; the second has its
    other keys but the usage, an empty delta and the finish of every choice.
    Neither would be split again. *)
Theorem split_keeps_the_chunk parsed h t :
  dwf parsed -> _split_coalesced_finish_chunk parsed = Some (h, t) ->
  exists cs, jget parsed "choices" = JList (map JDict cs)
  /\ jget h "choices" = JList (map (fun c => JDict (unfinished c)) cs)
  /\ jget t "choices" = JList (map (fun c => JDict (emptied c)) cs)
  /\ (forall k, k <> "choices" -> dget h k = dget parsed k)
  /\ (forall k, k <> "choices" -> dget t k = if decide (k = "usage") then None else dget parsed k)
  /\ _split_coalesced_finish_chunk h = None /\ _split_coalesced_finish_chunk t = None.
Proof.
  intros W H. unfold _split_coalesced_finish_chunk in H. destruct (jget parsed "choices") as [| | | | |[|c0 l]|] eqn:C; try done.
  destruct (mapM coalesced (c0 :: l)) as [found|] eqn:M; [|done]. destruct (existsb id found); [|done]. injection H as <- <-.
  destruct (coalesced_objects _ _ M) as (cs & E). rewrite E in C. exists cs. split; [by rewrite E|].
  assert (O : forall f, jget (on_choices f parsed) "choices" = JList (map (on_choice f) (map JDict cs)))
    by (intros f; unfold on_choices; rewrite C; apply jget_dset_eq).
  assert (D : forall f k, k <> "choices" -> dget (on_choices f parsed) k = dget parsed k)
    by (intros f k N; unfold on_choices; rewrite C; by apply dget_dset_ne).
  assert (T : jget (ddel (on_choices emptied parsed) "usage") "choices" = JList (map (on_choice emptied) (map JDict cs)))
    by (rewrite jget_ddel_ne by done; apply O).
  split; [rewrite O, map_map; done|]. split; [rewrite T, map_map; done|]. split; [apply D|]. split.
  { intros k N. rewrite dget_ddel by (unfold on_choices; rewrite C; by apply dwf_dset).
    rewrite D by done. by destruct (decide ("usage" = k)), (decide (k = "usage")). }
  split.
  - eapply not_split; [apply O|]. intros c. unfold coalesced, unfinished. rewrite jget_dset_eq. done.
  - eapply not_split; [apply T|]. intros c. unfold coalesced, emptied. rewrite jget_dset_eq. by destruct (jget (dset c "delta" _) "finish_reason").
Qed.

(** ** The second call *)

Lemma without_get ks d k : dget (without ks d) k = if decide (k ∈ ks) then None else dget d k.
Proof.
  unfold without. case_decide as I; [apply dget_filter_out|apply dget_filter_in]; intros v; cbn; [intros N; by apply N|done].
Qed.

Lemma all_false_get (keys : list string) (d : dict string json) k :
  dget (foldl (fun d k => dset d k (JBool false)) d keys) k = if decide (k ∈ keys) then Some (JBool false) else dget d k.
Proof.
  revert d. induction keys as [|x keys IH]; intros d; cbn [foldl]; [rewrite decide_False; [done|apply not_elem_of_nil]|].
  rewrite IH, dget_dset. destruct (decide (k ∈ keys)) as [I|I]; [by rewrite decide_True by by right|].
  destruct (decide (x = k)) as [->|N]; [by rewrite decide_True by by left|].
  rewrite decide_False; [done|]. by intros [?|?]%elem_of_cons.
Qed.

(** The switches of an endpoint. *)
Definition switches (ep : RescueEp) : list string :=
  if re_no_thinking_switch ep then [] else match re_thinking_kwargs ep with [] => _THINKING_KWARG_NAMES | keys => keys end.

(** [kwargs] after the switches of the endpoint: its own off, no other set. *)
Definition switched (ep : RescueEp) (kwargs : dict string json) : Prop :=
  forall k, (k ∈ switches ep -> dget kwargs k = Some (JBool false))
            /\ (k ∈ _THINKING_KWARG_NAMES -> k ∉ switches ep -> dget kwargs k = None).

Lemma update_get (p d : dict string json) k :
  dwf d -> dget (dict_update p d) k = match dget d k with Some v => Some v | None => dget p k end.
Proof.
  unfold dict_update. revert p. induction d as [|[a v] d IH]; intros p W; [done|]. unfold dwf, dkeys in *. cbn [map fst] in W.
  apply NoDup_cons in W as [N W]. cbn [foldl fst snd]. rewrite IH by done. cbn [dget]. rewrite dget_dset.
  destruct (decide (a = k)) as [->|]; [|done]. by apply dget_None in N as ->.
Qed.

Lemma all_false_wf (keys : list string) (d : dict string json) : dwf d -> dwf (foldl (fun d k => dset d k (JBool false)) d keys).
Proof. revert d. induction keys as [|k keys IH]; intros d W; cbn [foldl]; auto using dwf_dset. Qed.

Lemma switch_off_get ep k :
  dwf (_answer_now_switch_off ep)
  /\ dget (_answer_now_switch_off ep) k = if decide (k ∈ switches ep) then Some (JBool false) else None.
Proof.
  unfold _answer_now_switch_off, switches. destruct (re_no_thinking_switch ep).
  - split; [apply dwf_nil|]. by rewrite decide_False by apply not_elem_of_nil.
  - destruct (re_thinking_kwargs ep) as [|x keys].
    + change [("thinking", JBool false); ("enable_thinking", JBool false)]
        with (foldl (fun d k => dset d k (JBool false)) ([] : dict string json) _THINKING_KWARG_NAMES).
      split; [apply all_false_wf, dwf_nil|]. by rewrite all_false_get.
    + split; [apply all_false_wf, dwf_nil|]. by rewrite all_false_get.
Qed.

Lemma kwargs_switched payload ep : switched ep (_answer_now_template_kwargs payload ep).
Proof.
  intros k. unfold _answer_now_template_kwargs. destruct (switch_off_get ep k) as [W G].
  rewrite update_get, G, without_get by done. split; intros I.
  - by rewrite decide_True.
  - intros N. by rewrite decide_False, decide_True.
Qed.

Lemma effort_is_no_switch ep : re_no_thinking_switch ep = true -> "reasoning_effort" ∉ switches ep.
Proof. unfold switches. intros ->. apply not_elem_of_nil. Qed.

Lemma lowered_kwargs ep n kwargs second : switched ep kwargs -> switched ep (lowered ep n kwargs second).1.2.
Proof.
  intros S. unfold lowered. destruct (re_no_thinking_switch ep) eqn:E; [|done].
  cbv zeta. cbn [fst snd]. destruct (negb _); [|done]. intros k. destruct (S k) as [S1 S2].
  split; intros I; [by exfalso; eapply (not_elem_of_nil k); unfold switches in I; rewrite E in I|].
  intros N. rewrite dget_dset_ne; [by apply S2|]. intros <-. by apply effort_not_name in I.
Qed.

Lemma one_effort_other second k : k <> "reasoning_effort" -> k <> "reasoning" -> dget (one_effort second) k = dget second k.
Proof.
  intros N1 N2. unfold one_effort. cbv zeta. repeat case_match; rewrite ?dget_dset_ne, ?dget_ddel_ne by congruence; done.
Qed.

Lemma lowered_second ep n kwargs second k :
  k ∉ ["reasoning_effort"; "reasoning"; "thinking_token_budget"; "max_tokens"] ->
  dget (lowered ep n kwargs second).2 k = dget second k.
Proof.
  intros N. unfold lowered. destruct (re_no_thinking_switch ep); [|done]. rewrite !not_elem_of_cons in N. destruct N as (N1 & N2 & N3 & N4 & _).
  cbv zeta. cbn [snd]. destruct (_ =? 0)%Z; rewrite ?dget_dset_ne by congruence; destruct (negb _); by rewrite ?one_effort_other.
Qed.

Lemma budget_bounds ep n : (0 <= _answer_now_reasoning_budget ep n <= _ANSWER_NOW_REASONING_MAX_TOKENS)%Z.
Proof.
  unfold _answer_now_reasoning_budget, _ANSWER_NOW_REASONING_MAX_TOKENS, _ANSWER_NOW_REASONING_MIN_TOKENS. repeat case_match; lia.
Qed.

Lemma lowered_tokens ep n kwargs second :
  dget second "max_tokens" = Some (JInt n) ->
  exists b, dget (lowered ep n kwargs second).2 "max_tokens" = Some (JInt (n + b)) /\ (0 <= b <= _ANSWER_NOW_REASONING_MAX_TOKENS)%Z
            /\ (re_answer_now_budget ep = false -> b = 0%Z).
Proof.
  intros M. unfold lowered. destruct (re_no_thinking_switch ep); [|exists 0%Z; by rewrite Z.add_0_r]. cbv zeta. cbn [snd].
  exists (_answer_now_reasoning_budget ep n). split; [|split; [apply budget_bounds|]].
  - destruct (_ =? 0)%Z eqn:Z; [|by rewrite dget_dset_eq]. apply Z.eqb_eq in Z as ->. rewrite Z.add_0_r.
    destruct (negb _); by rewrite ?one_effort_other.
  - intros B. unfold _answer_now_reasoning_budget. by rewrite B.
Qed.

Lemma clean_extra_other effort second k : k <> "extra_body" -> dget (clean_extra effort second) k = dget second k.
Proof. intros N. unfold clean_extra. repeat case_match; try done; by apply dget_dset_ne. Qed.

(** The template kwargs inside [extra_body]. *)
Definition extra_kwargs (p : dict string json) : dict string json :=
  match jget p "extra_body" with JDict eb => template_kwargs eb | _ => [] end.

Lemma clean_extra_switchless (effort : string) (second : dict string json) n : n ∈ _THINKING_KWARG_NAMES -> dget (extra_kwargs (clean_extra effort second)) n = None.
Proof.
  intros I. assert (NE : "reasoning_effort" <> n) by (intros <-; by apply effort_not_name in I).
  assert (D : forall e ck, dget (if (negb (String.eqb e "") && dmem (without _THINKING_KWARG_NAMES ck) "reasoning_effort")%bool
     then dset (without _THINKING_KWARG_NAMES ck) "reasoning_effort" (JStr e) else without _THINKING_KWARG_NAMES ck) n = None).
  { intros e ck. case_match; [rewrite dget_dset_ne by done|]; by rewrite without_get, decide_True. }
  unfold clean_extra. destruct (jget second "extra_body") as [| | | | | |eb] eqn:E; try (unfold extra_kwargs; by rewrite E).
  destruct (jget eb "chat_template_kwargs") as [| | | | | |ck] eqn:K; try (unfold extra_kwargs; rewrite E; unfold template_kwargs; by rewrite K).
  cbv zeta. unfold extra_kwargs. rewrite jget_dset_eq. specialize (D effort ck). unfold template_kwargs, jget.
  match type of D with dget ?x _ = _ => destruct x as [|kv ck'] end; rewrite update_get by (try apply dwf_nil; apply NoDup_singleton).
  - cbn [dget]. by rewrite without_get, decide_True by by left.
  - cbn [dget]. rewrite decide_True by done. exact D.
Qed.

(** The second call, made once a reasoning loop was stopped: it asks for the
    answer with the notes after the caller's messages, for at most 8000 tokens (2000
    more only where the endpoint opted in to a reasoning budget); every switch the
    endpoint has is off and no other is sent, at the top or in [extra_body]. *)
Theorem answer_now_is_bounded payload ep notes second :
  answer_now_request payload ep notes = Some second ->
  (exists messages, each_of (jget payload "messages") = Ret messages /\ messages <> []
     /\ dget second "messages" = Some (JList (messages ++ [notes_message notes])%list))
  /\ dget second "stream" = Some (JBool true)
  /\ (exists n b, dget second "max_tokens" = Some (JInt (n + b)) /\ (n <= _ANSWER_NOW_MAX_TOKENS)%Z
        /\ (0 <= b <= _ANSWER_NOW_REASONING_MAX_TOKENS)%Z /\ (re_answer_now_budget ep = false -> b = 0%Z))
  /\ switched ep (template_kwargs second)
  /\ (forall n, n ∈ _THINKING_KWARG_NAMES -> dget (extra_kwargs second) n = None).
Proof.
  intros H. unfold answer_now_request in H. destruct (each_of _) as [[|m ms]|] eqn:EM; try done.
  destruct (String.eqb (strip notes) ""); [done|]. cbv zeta in H.
  destruct (if truthy _ then _ else _) as [asked|]; [|done]. set (n := Z.min asked _ANSWER_NOW_MAX_TOKENS) in H.
  set (top := without ["messages"; "max_tokens"; "chat_template_kwargs"; "thinking_token_budget"; "reasoning_budget_tokens"] payload) in H.
  set (s0 := dict_update top _) in H. set (kw := _answer_now_template_kwargs payload ep) in H.
  assert (G : forall k, dget s0 k = match dget [("messages", JList ((m :: ms) ++ [notes_message notes])%list); ("max_tokens", JInt n); ("stream", JBool true)] k
                                    with Some v => Some v | None => dget top k end)
    by (intros k; apply update_get, (bool_decide_unpack (NoDup _)); vm_compute; done).
  destruct (lowered_tokens ep n kw s0 (G _)) as (b & MT & B1 & B2).
  pose proof (lowered_kwargs ep n kw s0 (kwargs_switched payload ep)) as SW.
  assert (OT : forall k, k ∉ ["reasoning_effort"; "reasoning"; "thinking_token_budget"; "max_tokens"] ->
                         dget (lowered ep n kw s0).2 k = dget s0 k) by (intros k; apply lowered_second).
  destruct (lowered ep n kw s0) as [[effort kwargs] s1]. cbn [fst snd] in *. injection H as <-.
  set (s2 := match kwargs with [] => s1 | _ => _ end).
  assert (S2 : forall k, k <> "chat_template_kwargs" -> dget s2 k = dget s1 k)
    by (intros k N; unfold s2; destruct kwargs; [done|by apply dget_dset_ne]).
  repeat split; try (intros ?; by apply clean_extra_switchless).
  - exists (m :: ms). split; [done|]. split; [done|]. rewrite clean_extra_other, S2, OT, G by by_decide. done.
  - rewrite clean_extra_other, S2, OT, G by by_decide. done.
  - exists n, b. rewrite clean_extra_other, S2, MT by done. split; [done|]. split; [unfold n; lia|done].
  - intros I. unfold template_kwargs, jget. rewrite clean_extra_other by done. destruct (SW k) as [K _]. specialize (K I).
    unfold s2. destruct kwargs; [done|]. by rewrite dget_dset_eq.
  - intros I N. unfold template_kwargs, jget. rewrite clean_extra_other by done. destruct (SW k) as [_ K]. specialize (K I N).
    unfold s2. destruct kwargs; [|by rewrite dget_dset_eq].
    assert (T : dget s1 "chat_template_kwargs" = None).
    { rewrite OT, G by by_decide. cbn [dget]. rewrite !decide_False by done. unfold top. by rewrite without_get, decide_True by by_decide. }
    by rewrite T.
Qed.

(** ** The rescue *)

(** The text of the chunks of a stream. *)
Definition chunk_data (es : list StreamEvent) : list string := omap (fun e => match e with EvChunk data _ => Some data | _ => None end) es.

Definition has_answer_text (es : list StreamEvent) : Prop :=
  exists data p n, EvChunk data (Some (JDict p)) ∈ es /\ chunk_chars p = Ret n /\ n <> 0%Z.

Lemma rescue_event_chunk data parsed r x :
  rescue_event (EvChunk data parsed) r = Ret x ->
  exists r', x = inr r' /\ rs_relayed r' = (rs_relayed r ++ [data])%list
  /\ (rs_chars r' = rs_chars r \/ exists p n, parsed = Some (JDict p) /\ chunk_chars p = Ret n /\ rs_chars r' = (rs_chars r + n)%Z).
Proof.
  unfold rescue_event. intros H. destruct parsed as [j|]; [|injection H as <-; eexists; split; [done|]; split; [done|by left]].
  destruct j as [| | | | | |p]; cbn -[truthy chunk_chars rescue_usage] in H;
    try (destruct (truthy _); [done|]; injection H as <-; eexists; split; [done|]; split; [done|by left]).
  destruct (truthy (JDict p)); [|injection H as <-; eexists; split; [done|]; split; [done|by left]].
  destruct (rescue_usage p _) as [tokens|]; [|done]. cbn -[chunk_chars] in H.
  destruct (chunk_chars p) as [n|] eqn:C; [|done]. injection H as <-. eexists. split; [done|]. split; [done|]. right.
  exists p, n. done.
Qed.

Lemma rescue_loop_spec es r r' b :
  rescue_loop es r = (r', b) ->
  (exists sent, rs_relayed r' = (rs_relayed r ++ sent)%list /\ sent `prefix_of` chunk_data es)
  /\ (rs_chars r' = rs_chars r \/ has_answer_text es).
Proof.
  revert r. induction es as [|e es IH]; intros r; cbn [rescue_loop].
  - intros [= <- _]. split; [|by left]. exists []. split; [by rewrite app_nil_r|apply prefix_nil].
  - assert (UP : has_answer_text es -> has_answer_text (e :: es))
      by (intros (d & p & n & I & C & N); exists d, p, n; split; [by right|done]).
    destruct (rescue_event e r) as [[r1|r1]|] eqn:E; intros H.
    + injection H as <- _. destruct e as [data parsed| |data]; [| done|].
      * by apply rescue_event_chunk in E as (? & ? & _).
      * injection E as <-. split; [|by left]. exists []. split; [by rewrite app_nil_r|apply prefix_nil].
    + apply IH in H as ((sent & S & P) & C). destruct e as [data parsed| |data]; [| |done].
      * apply rescue_event_chunk in E as (r2 & [= <-] & R & K). split.
        { exists (data :: sent). rewrite S, R, <- app_assoc. split; [done|]. cbn. by apply prefix_cons. }
        destruct C as [C|C]; [|right; auto]. destruct K as [K|(p & n & -> & CN & K)]; [left; congruence|].
        destruct (decide (n = 0)%Z) as [->|N]; [left; lia|right]. exists data, p, n. split; [by left|done].
      * injection E as <-. split; [by exists sent|]. destruct C; [by left|right; auto].
    + injection H as <- _. split; [|by left]. exists []. split; [by rewrite app_nil_r|apply prefix_nil].
Qed.

(** What the second call relays are chunks of its own stream, in order; it counts
    as an answer only where a chunk of it carried answer text, and reports no token
    and no end otherwise. *)
Theorem rescue_has_an_answer es broke relayed out answered :
  answer_now_relay es broke = (relayed, out, answered) ->
  relayed `prefix_of` chunk_data es
  /\ (answered = true -> has_answer_text es /\ relayed <> []) /\ (answered = false -> out = (0%Z, false)).
Proof.
  unfold answer_now_relay. destruct (rescue_loop es rescue_init) as [r ok] eqn:E.
  apply rescue_loop_spec in E as ((sent & S & P) & C). cbn in S, C. subst sent.
  destruct (_ || _)%bool; [by intros [= <- <- <-]|]. destruct (rs_relayed r) as [|x l] eqn:R.
  { intros [= <- <- <-]. done. }
  destruct (rs_chars r =? 0)%Z eqn:Z; intros [= <- <- <-]; [done|]. apply Z.eqb_neq in Z.
  split; [done|]. split; [|done]. intros _. by destruct C.
Qed.
