(* ===== verification/Submit.v ===== *)
(** * Admission (lifecycle.py, [handle_submit])

    Everything between the arrival of a request and its dispatch or its refusal:
    who is asking, at which priority, on which endpoint, for how long; the gates on
    its shape, its grammar and its size; the cache; the on-demand load; the circuit
    breaker with the failover; load shedding; and the corrections of the payload.
    The three wire formats get the same decisions: a refusal is its status and its
    code. *)

From Stdlib Require Import Ascii QArith Qround Lqa Lia ZArith.
From stdpp Require Import base list strings gmap.
From S2P Require Import Prelude PyDict PyText Config Json ThinkSwitch ThinkBleed ThinkStats Budget Cost Queue JsonRead ToolStream Degen Scheduler Spend Policy Failover Timeout Cache Acl Replay NoStore Wal OnDemand Keepalive Intent Grammar Effort Forced Correct Payload Provider Backend Completion Deadline Relay Identity.

Local Open Scope string_scope.

(** ** What is submitted, and what becomes of it *)

Inductive Wire := WIRE_OPENAI | WIRE_ENRICHED | WIRE_LEGACY.

(** The body, its fields at the types of the request they become; the rest is as
    it was sent. *)
Record Body := mkBody {
  sb_agent_id : json;
  sb_endpoint : string;
  sb_payload_type : string;
  sb_payload : dict string json;
  sb_messages : json;
  sb_priority : json;
  sb_call_site : string;
  sb_timeout_s : json;
  sb_session_id : option string;
  sb_turn_id : option string;
  sb_caller_id : option string;
  sb_request_id : option string;
  sb_declared_agent_id : json;
  sb_requested : json;
  sb_allow_degrade : option bool;
  sb_allow_spill : option bool
}.

(** The parts of the body that are read as a whole. *)
Definition body_dict (b : Body) : dict string json :=
  [("priority", sb_priority b); ("payload", JDict (sb_payload b)); ("messages", sb_messages b)].

(** What a submission is answered at once; the others are dispatched, with the key
    their answer may be kept under. *)
Inductive Reply :=
| Rejected (status : Z) (code : string) (retry_after : option Z) (refusal : option string)
| CacheHit (response : json).

(** ** The state of the gate *)

Record CallerTally := mkCallerTally { ct_count : Z; ct_callers : dict string Z; ct_max_est_in : Z }.

Definition tally_new : CallerTally := mkCallerTally 0 [] 0.

Definition tally_caller (caller : string) (est_in : Z) (t : CallerTally) : CallerTally :=
  mkCallerTally (ct_count t + 1) (dset (ct_callers t) caller (default 0 (dget (ct_callers t) caller) + 1)%Z) (Z.max (ct_max_est_in t) est_in).

Definition tally_at (ep caller : string) (est_in : Z) (d : dict string CallerTally) : dict string CallerTally :=
  dset d ep (tally_caller caller est_in (default tally_new (dget d ep))).

Record NoStoreTally := mkNoStoreTally { nst_honoured : Z; nst_refused : Z; nst_by_agent : dict string (dict string Z) }.

(** The tables the payload's corrections keep. *)
Record ShapeTables := mkShapeTables { st_bleed : ThinkBleedStats; st_remaps : dict string Remap; st_logged : list (string * string) }.

Record Gate := mkGate {
  ga_identity : IdentityResolver;
  ga_policy : Policy;
  ga_no_store : NoStoreTally;
  ga_unknown : dict string CallerTally;
  ga_vision : dict string CallerTally;
  ga_overflow : dict string CallerTally;
  ga_smart : dict string SmartTally;
  ga_cache : DeterministicCache;
  ga_fail : FailState;
  ga_replay : ReplayState;
  ga_shape : ShapeTables;
  ga_proxy : Proxy
}.

Definition set_identity (x : IdentityResolver) (g : Gate) : Gate :=
  mkGate x (ga_policy g) (ga_no_store g) (ga_unknown g) (ga_vision g) (ga_overflow g) (ga_smart g) (ga_cache g) (ga_fail g) (ga_replay g)
    (ga_shape g) (ga_proxy g).
Definition set_policy (x : Policy) (g : Gate) : Gate :=
  mkGate (ga_identity g) x (ga_no_store g) (ga_unknown g) (ga_vision g) (ga_overflow g) (ga_smart g) (ga_cache g) (ga_fail g) (ga_replay g)
    (ga_shape g) (ga_proxy g).
Definition set_no_store (x : NoStoreTally) (g : Gate) : Gate :=
  mkGate (ga_identity g) (ga_policy g) x (ga_unknown g) (ga_vision g) (ga_overflow g) (ga_smart g) (ga_cache g) (ga_fail g) (ga_replay g)
    (ga_shape g) (ga_proxy g).
Definition set_unknown (x : dict string CallerTally) (g : Gate) : Gate :=
  mkGate (ga_identity g) (ga_policy g) (ga_no_store g) x (ga_vision g) (ga_overflow g) (ga_smart g) (ga_cache g) (ga_fail g) (ga_replay g)
    (ga_shape g) (ga_proxy g).
Definition set_vision (x : dict string CallerTally) (g : Gate) : Gate :=
  mkGate (ga_identity g) (ga_policy g) (ga_no_store g) (ga_unknown g) x (ga_overflow g) (ga_smart g) (ga_cache g) (ga_fail g) (ga_replay g)
    (ga_shape g) (ga_proxy g).
Definition set_overflow (x : dict string CallerTally) (g : Gate) : Gate :=
  mkGate (ga_identity g) (ga_policy g) (ga_no_store g) (ga_unknown g) (ga_vision g) x (ga_smart g) (ga_cache g) (ga_fail g) (ga_replay g)
    (ga_shape g) (ga_proxy g).
Definition set_smart (x : dict string SmartTally) (g : Gate) : Gate :=
  mkGate (ga_identity g) (ga_policy g) (ga_no_store g) (ga_unknown g) (ga_vision g) (ga_overflow g) x (ga_cache g) (ga_fail g) (ga_replay g)
    (ga_shape g) (ga_proxy g).
Definition set_cache (x : DeterministicCache) (g : Gate) : Gate :=
  mkGate (ga_identity g) (ga_policy g) (ga_no_store g) (ga_unknown g) (ga_vision g) (ga_overflow g) (ga_smart g) x (ga_fail g) (ga_replay g)
    (ga_shape g) (ga_proxy g).
Definition set_fail (x : FailState) (g : Gate) : Gate :=
  mkGate (ga_identity g) (ga_policy g) (ga_no_store g) (ga_unknown g) (ga_vision g) (ga_overflow g) (ga_smart g) (ga_cache g) x (ga_replay g)
    (ga_shape g) (ga_proxy g).
Definition set_replay (x : ReplayState) (g : Gate) : Gate :=
  mkGate (ga_identity g) (ga_policy g) (ga_no_store g) (ga_unknown g) (ga_vision g) (ga_overflow g) (ga_smart g) (ga_cache g) (ga_fail g) x
    (ga_shape g) (ga_proxy g).
Definition set_shape (x : ShapeTables) (g : Gate) : Gate :=
  mkGate (ga_identity g) (ga_policy g) (ga_no_store g) (ga_unknown g) (ga_vision g) (ga_overflow g) (ga_smart g) (ga_cache g) (ga_fail g)
    (ga_replay g) x (ga_proxy g).
Definition set_proxy (x : Proxy) (g : Gate) : Gate :=
  mkGate (ga_identity g) (ga_policy g) (ga_no_store g) (ga_unknown g) (ga_vision g) (ga_overflow g) (ga_smart g) (ga_cache g) (ga_fail g)
    (ga_replay g) (ga_shape g) x.

(** A computation over a part of the state. *)
Definition on_part {S A} (get : Gate -> S) (put : S -> Gate -> Gate) (m : SE S A) : SE Gate A := fun g =>
  let '(r, s) := m (get g) in (r, put s g).

Definition on_policy {A} : SE Policy A -> SE Gate A := on_part ga_policy set_policy.
Definition on_fail {A} : SE FailState A -> SE Gate A := on_part ga_fail set_fail.
Definition on_queue {A} (m : SE Sched A) : SE Gate A :=
  on_part (fun g => px_sched (ga_proxy g)) (fun s g => set_proxy (with_sched s (ga_proxy g)) g) m.
Definition on_proxy (f : Proxy -> Proxy) : SE Gate unit := se_modify (fun g => set_proxy (f (ga_proxy g)) g).

(** [req.ctx_per_slot_at_admission = n] *)
Definition set_ctx (r : QueuedRequest) (n : Z) : QueuedRequest := moved r (r_degraded_from r) (r_spilled_from r) (r_endpoint r) n.

(** ** The gates, one after the other *)

(** A gate: a reply that ends the submission, or what the next gate takes. *)
Abbreviation gated A := (SE Gate (Reply + A)).

Definition pass {A} (a : A) : gated A := mret (inr a).
Definition stop {A} (r : Reply) : gated A := mret (inl r).
Definition reject {A} (status : Z) (code : string) : gated A := stop (Rejected status code None None).
Definition does {A} (m : SE Gate A) : gated A := a ← m; mret (inr a).
Definition and_then {A B} (m : gated A) (f : A -> gated B) : gated B :=
  x ← m; match x with inl r => mret (inl r) | inr a => f a end.

Declare Scope gate_scope.
Delimit Scope gate_scope with gate.
Notation "'let*' x := m 'in' k" := (and_then m (fun x => k)) (at level 10, x pattern, k at level 200) : gate_scope.

Record Flags := mkFlags {
  fl_unknown_endpoint_enforce : bool;
  fl_vision_capability_enforce : bool;
  fl_context_gate_enforce : bool;
  fl_smart_default_timeout : bool
}.

(** [may_self_declare] *)
Definition may_self_declare (s : IdentityResolver) (req : Request) : bool :=
  let address := client_address req (proxies s) in
  if forwarded address then false else is_internal (ca_ip address).

(** [resolve_declared_priority]; the record of an agent not configured is made. *)
Definition resolve_declared_priority (declared : json) (aid : string) (p : Principal) : SE Policy LLMPriority :=
  match declared with
  | JNull =>
      if priority_declared p then se_lift (coerce (PV_member (Identity.priority p)) (Some P1_TURN_SUPPORT))
      else
        s ← se_get;
        let '(acfg, cfg) := agent_config (ps_config s) aid in
        _ ← se_modify (ps_set_config cfg);
        se_lift (coerce (PV_member (default_priority acfg)) (Some P1_TURN_SUPPORT))
  | j => se_lift (coerce (prio_value j) (Some P1_TURN_SUPPORT))
  end.

(** [note_no_store] *)
Definition bump (k : string) (d : dict string Z) : dict string Z := dset d k (default 0 (dget d k) + 1)%Z.

Definition note_no_store (d : Decision) (aid : string) (t : NoStoreTally) : NoStoreTally :=
  let tally := default [] (dget (nst_by_agent t) aid) in
  if honoured d then mkNoStoreTally (nst_honoured t + 1) (nst_refused t) (dset (nst_by_agent t) aid (bump "honoured" tally))
  else mkNoStoreTally (nst_honoured t) (nst_refused t + 1) (dset (nst_by_agent t) aid (bump (de_reason d) (bump "refused" tally))).

(** [retry_after_s]: [p95] of the endpoint's latency, where there is one. *)
Definition retry_after_s (p95 : option Q) : Z :=
  let ms := match p95 with Some q => if Qeq_bool q 0 then 10000%Q else q | None => 10000%Q end in
  Z.max 5 (Z.min 60 (Qtrunc (ms / 1000))).

Definition caller_name (b : Body) (otherwise : string) : string :=
  match sb_caller_id b with
  | Some c => if String.eqb c "" then otherwise else c
  | None => otherwise
  end.

(** [str(body.get("caller_id") or body.get("agent_id") or "unknown")] *)
Definition claimed_name (b : Body) : string :=
  caller_name b (if truthy (sb_agent_id b) then py_str (sb_agent_id b) else "unknown").

Definition messages_ok (p : dict string json) : bool :=
  match jget p "messages" with
  | JNull => true
  | JList l => forallb (fun m => match m with JDict _ => true | _ => false end) l
  | _ => false
  end.

Section Submit.
(** The fleet: the alias table, which endpoints see images, replay reasoning and
    shape payloads, and the digest of the cache's keys. *)
Context (roles : dict string string) (vision : dict string bool) (replays : dict string bool) (shaping : dict string Shaping).
Context (sha256_hex : string -> string) (float_text : string -> string).
Context (forced_reasoning_budget thinking_reasoning_budget : Z) (thinking_enabled : bool).
(** The advice on timeouts. *)
Context (log : Q -> Q) (unit_ratio : Q) (knobs : TimeoutKnobs) (ceilings : dict string Q) (tm : TimeoutModel).
(** The switches, the depth at which a band is shed, the health of the endpoints
    (the on-demand test apart) and their p95 latencies. *)
Context (flags : Flags) (shed_depth : Z) (health : HealthState) (p95 : string -> option Q).
(** The readings of the clocks, the draining mark, the identifier generated, and
    what the proxy did while [ensure_loaded] was awaited, with its success. *)
Context (now wall : Q) (clock : nat -> Q) (draining : bool) (fresh : string) (ensure_loaded : string -> SE Gate bool).

Local Open Scope gate_scope.

Definition known_endpoints (g : Gate) : dict string EndpointConfig := endpoints (ps_config (ga_policy g)).

(** *** Who asks *)

(** The principal, the agent it acts as, and the agent of its credential. *)
Definition identified (wire : Wire) (req : Request) (b : Body) : gated (Principal * string * string) :=
  let* g := does se_get in
  let '(resolved, _, s) := resolve (ga_identity g) req false wall (day_bucket wall) in
  let* _ := does (se_modify (set_identity s)) in
  match resolved with
  | Denied d => reject (status d) (code d)
  | Identity.Granted p =>
      if authenticated p then
        match delegate p (sb_agent_id b) with
        | Denied d => reject (status d) (code d)
        | Identity.Granted p' => pass (p', agent_id p', agent_id p)
        end
      else if (match wire with WIRE_LEGACY => true | _ => false end && negb (may_self_declare s req))%bool
      then pass (p, agent_id p, agent_id p)
      else pass (p, if truthy (sb_agent_id b) then py_str (sb_agent_id b) else agent_id p, agent_id p)
  end.

(** The priority it runs at: declared, then lowered by what the agent has used. *)
Definition prioritised (b : Body) (p : Principal) (aid : string) : gated LLMPriority :=
  does (on_policy (
    declared ← resolve_declared_priority (sb_priority b) aid p;
    _ ← se_modify (record_request aid wall);
    spend_demote aid declared wall)).

(** *** What it may leave behind *)

Definition no_store_decision (headers : dict string string) (p : Principal) (aid : string) : gated Decision :=
  match parse_header (read_header headers) with
  | Raise _ => reject 400 "invalid_request_error"
  | Ret asked =>
      let* g := does se_get in
      let granted := match dget (agents (ps_config (ga_policy g))) aid with Some c => content_no_store c | None => false end in
      let d := decide_no_store asked (authenticated p) aid granted (address_identities (Identity.acl (ga_identity g))) in
      let* _ := does (if requested d then se_modify (fun g => set_no_store (note_no_store d aid (ga_no_store g)) g) else mret tt) in
      pass d
  end.

(** *** Where it goes *)

Definition resolve_endpoint (g : Gate) (b : Body) : string :=
  let submit_ep := normalize_endpoint roles (sb_endpoint b) in
  let model := jget (sb_payload b) "model" in
  if negb (String.eqb (sb_payload_type b) "chat_completion") then submit_ep
  else if negb (truthy model) then submit_ep
  else
    let model_ep := normalize_endpoint roles (py_str model) in
    if (dmem (known_endpoints g) model_ep && negb (String.eqb model_ep submit_ep))%bool then model_ep else submit_ep.

Definition routed (b : Body) : gated string :=
  let* g := does se_get in
  let ep := resolve_endpoint g b in
  let* _ := (if dmem (known_endpoints g) ep then pass tt
             else
               let* _ := does (se_modify (fun g => set_unknown (tally_at ep (claimed_name b) 0 (ga_unknown g)) g)) in
               if fl_unknown_endpoint_enforce flags then reject 404 "unknown_endpoint" else pass tt) in
  if (_carries_image (body_dict b) && dmem (known_endpoints g) ep && negb (default false (dget vision ep)))%bool then
    let* _ := does (se_modify (fun g => set_vision (tally_at ep (claimed_name b) 0 (ga_vision g)) g)) in
    if fl_vision_capability_enforce flags then reject 400 "vision_not_supported" else pass ep
  else pass ep.

(** *** How long it may take *)

(** The seconds a caller asks for, where they can be used. *)
Definition asked_timeout (j : json) : option Q :=
  match j with
  | JNull => None
  | j => match py_float j with Ret t => if Qltb 0 t then Some t else None | Raise _ => None end
  end.

(** The deadline in seconds, and whether the proxy chose it. *)
Definition deadline_of (b : Body) (p : Principal) (ep : string) : gated (Q * bool) :=
  let* t := (match asked_timeout (sb_timeout_s b) with
             | Some t => pass (t, false)
             | None =>
                 let* g := does se_get in
                 let '(t, shadow) := resolve_default_timeout roles log unit_ratio knobs ceilings tm (px_sched (ga_proxy g))
                                       (fl_smart_default_timeout flags) ep (body_dict b) (ga_smart g) in
                 let* _ := does (se_modify (set_smart shadow)) in
                 pass (match min_timeout_s p with Some m => if Qltb t m then m else t | None => t end, true)
             end) in
  let* g := does se_get in
  let floor_s := (floor_ms roles tm ep / 1000)%Q in
  pass (if (manages (px_on_demand (ga_proxy g)) ep && Qltb t.1 floor_s)%bool then (floor_s, t.2) else t).

Definition created (b : Body) (p : Principal) (aid credential : string) (pri : LLMPriority) (ns : Decision) (ep : string) (t : Q * bool)
  : gated QueuedRequest :=
  does (se_lift (create roles {|
    ca_agent_id := aid; ca_endpoint := ep; ca_priority := PV_member pri; ca_call_site := sb_call_site b;
    ca_payload_type := sb_payload_type b; ca_payload := sb_payload b; ca_timeout_s := t.1; ca_session_id := sb_session_id b;
    ca_turn_id := sb_turn_id b; ca_caller_id := sb_caller_id b; ca_request_id := sb_request_id b; ca_now := now;
    ca_deadline_is_default := t.2;
    ca_declared_agent_id := if truthy (sb_declared_agent_id b) then py_str (sb_declared_agent_id b) else "";
    ca_asserted_by_key_id := if String.eqb aid credential then "" else default "" (key_id p);
    ca_requested := if truthy (sb_requested b) then py_str (sb_requested b) else "";
    ca_allow_degrade := sb_allow_degrade b; ca_allow_spill := if honoured ns then Some false else sb_allow_spill b;
    ca_no_store_outcome := de_outcome ns; ca_fresh := fresh |})).

(** *** What it holds *)

Definition shape_gate (r : QueuedRequest) : gated unit :=
  if (is_chat r && negb (messages_ok (r_payload r)))%bool then reject 400 "invalid_messages" else pass tt.

Definition grammar_gate (r : QueuedRequest) : gated QueuedRequest :=
  if negb (is_chat r) then pass r
  else
    let* g := does se_get in
    let '(errors, r, corr) := process_grammar r (px_corr (ga_proxy g)) in
    let* _ := does (on_proxy (with_corr corr)) in
    match errors with Some _ => reject 422 "invalid_grammar" | None => pass r end.

Definition context_gate (b : Body) (r : QueuedRequest) : gated QueuedRequest :=
  if negb (is_chat r) then pass r
  else
    let* g := does se_get in
    let ctx_limit := match dget (known_endpoints g) (r_endpoint r) with Some c => context_per_slot c | None => 0%Z end in
    let r := set_ctx r ctx_limit in
    let* fit := does (se_lift (context_fit (r_payload r) (r_payload_type r) ctx_limit)) in
    if fits fit then pass r
    else
      let caller := caller_name b (r_agent_id r) in
      let* _ := does (se_modify (fun g => set_overflow (tally_at (r_endpoint r) caller (est_in fit) (ga_overflow g)) g)) in
      let* _ := does (on_proxy (submit (record_context_overflow wall (r_endpoint r) caller (est_in fit)))) in
      if fl_context_gate_enforce flags then reject 422 "context_overflow" else pass r.

(** The deterministic cache; a request that leaves nothing behind skips it. *)
Definition cached (r : QueuedRequest) : gated (option string) :=
  match (if no_store r then None else cache_key sha256_hex (r_endpoint r) (r_payload r)) with
  | None => pass None
  | Some key =>
      let* g := does se_get in
      let '(hit, c) := cache_get key now (ga_cache g) in
      let* _ := does (se_modify (set_cache c)) in
      match hit with Some j => if truthy j then stop (CacheHit j) else pass (Some key) | None => pass (Some key) end
  end.

Definition loaded (r : QueuedRequest) : gated unit :=
  let* g := does se_get in
  if manages (px_on_demand (ga_proxy g)) (r_endpoint r) then
    let* ok := does (ensure_loaded (r_endpoint r)) in
    if ok then pass tt else reject 503 "on_demand_unavailable"
  else pass tt.

(** *** Whether its endpoint can take it *)

(** The hold of the request on an on-demand endpoint, given back. *)
Definition give_back (ep : string) : SE Gate unit := on_proxy (fun p => with_on_demand (request_done ep (px_on_demand p)) p).

Definition health_of (g : Gate) : HealthState :=
  {| hs_roles := hs_roles health; hs_paused := hs_paused health; hs_cooldown_enabled := hs_cooldown_enabled health;
     hs_cooldown_until := hs_cooldown_until health; hs_collapsed := hs_collapsed health;
     hs_collapse_enforce := hs_collapse_enforce health; hs_manages := manages (px_on_demand (ga_proxy g));
     hs_probe := hs_probe health |}.

(** The word for an endpoint that cannot be used. *)
Definition unavailable_code (src : string) : string :=
  if bool_decide (src ∈ hs_paused health) then "draining"
  else if (bool_decide (src ∈ hs_collapsed health) && hs_collapse_enforce health)%bool then "goodput_collapse"
  else "circuit_open".

Definition breaker (r : QueuedRequest) : gated QueuedRequest :=
  let* g := does se_get in
  let h := health_of g in
  if endpoint_healthy h now (r_endpoint r) then pass r
  else
    let src := normalize_endpoint roles (r_endpoint r) in
    let* _ := does (se_modify (fun g => set_fail (refresh h (px_sched (ga_proxy g)) now (ga_fail g)) g)) in
    let* fplan := does (on_fail (plan h now r)) in
    match fp_target fplan with
    | Some target =>
        let* _ := does (give_back (r_endpoint r)) in
        does (on_fail (Failover.apply h r target))
    | None =>
        if bool_decide (r_band r = BACKGROUND) then pass r
        else
          let code := unavailable_code src in
          let* _ := does (if String.eqb code "goodput_collapse"
                          then on_proxy (record_timeout_event r "admission" 0 "goodput_collapse") else mret tt) in
          let* _ := does (if str_truthy (fp_refusal_code fplan)
                          then se_modify (fun g => set_fail (record_refusal h r fplan (ga_fail g)) g) else mret tt) in
          let* _ := does (give_back (r_endpoint r)) in
          stop (Rejected 503 code (Some (retry_after_s (p95 src))) (fp_refusal_code fplan))
    end.

Definition band_queue (s : Sched) (r : QueuedRequest) : Z :=
  default 0%Z (snd <$> List.find (fun x => bool_decide (x.1 = r_band r)) (es_queue_by_band (endpoint_snapshot s (r_endpoint r)))).

Definition shed (r : QueuedRequest) : gated unit :=
  if bool_decide (r_band r = INTERACTIVE) then pass tt
  else
    let* g := does se_get in
    if (shed_depth <=? band_queue (px_sched (ga_proxy g)) r)%Z then
      let* _ := does (give_back (r_endpoint r)) in
      stop (Rejected 429 "backpressure" (Some (retry_after_s (p95 (r_endpoint r)))) None)
    else pass tt.

(** *** The payload it is sent with *)

Definition restored (r : QueuedRequest) : SE Gate QueuedRequest :=
  g ← se_get;
  let '(p, s) := apply_reasoning_replay_restore float_text roles replays clock
                   (mkReplayReq (r_payload_type r) (no_store r) (r_endpoint r) (JDict (r_payload r))) (ga_replay g) in
  _ ← se_modify (set_replay s);
  mret (match p with JDict p => Effort.with_payload r p | _ => r end).

Definition shape_state (r : QueuedRequest) (g : Gate) : ShapeState :=
  mkShapeState r (st_bleed (ga_shape g)) (cs_active (px_corr (ga_proxy g))) (st_remaps (ga_shape g)) (st_logged (ga_shape g)).

(** The corrections, then the clock for the tokens they granted. *)
Definition corrected (r : QueuedRequest) : SE Gate QueuedRequest :=
  r ← restored r;
  g ← se_get;
  let mt_before := jget (r_payload (ss_req (canonicalize_thinking_switch roles shaping now (shape_state r g)))) "max_tokens" in
  let '(res, s) := shape_request roles shaping forced_reasoning_budget thinking_reasoning_budget thinking_enabled now (shape_state r g) in
  _ ← se_modify (set_shape (mkShapeTables (ss_bleed s) (ss_remaps s) (ss_remap_logged s)));
  _ ← on_proxy (fun p => with_corr (with_active (ss_thinking_active s) (px_corr p)) p);
  _ ← se_lift res;
  g ← se_get;
  mret (extend_deadline_for_granted_budget roles log unit_ratio knobs ceilings tm (px_sched (ga_proxy g)) mt_before (ss_req s)).

(** *** The whole *)

(** Up to the load of its endpoint. *)
Definition before_load (wire : Wire) (headers : dict string string) (req : Request) (b : Body) : gated (QueuedRequest * option string) :=
  if draining then reject 503 "draining"
  else
    let* (p, aid, credential) := identified wire req b in
    let* pri := prioritised b p aid in
    let* ns := no_store_decision headers p aid in
    let* ep := routed b in
    let* t := deadline_of b p ep in
    let* r := created b p aid credential pri ns ep t in
    let* _ := shape_gate r in
    let* r := grammar_gate r in
    let* r := context_gate b r in
    let* key := cached r in
    pass (r, key).

(** From there on. *)
Definition after_load (r : QueuedRequest) (key : option string) : gated (QueuedRequest * option string) :=
  let* r := breaker r in
  let* _ := shed r in
  let* r := does (corrected r) in
  pass (r, key).

Definition handle_submit (wire : Wire) (headers : dict string string) (client : option string) (b : Body)
  : gated (QueuedRequest * option string) :=
  let* (r, key) := before_load wire headers (mkRequest (dget headers) client (Some "POST")) b in
  let* _ := loaded r in
  after_load r key.

(** ** The wait of a caller that is not streamed to *)

(** [handle_sync_submit] up to the wait. *)
Definition enqueued (r : QueuedRequest) : SE Gate QueuedRequest :=
  _ ← on_proxy (fun p => with_futures (dset (px_futures p) (r_request_id r) None) p);
  r' ← on_queue (enqueue r);
  _ ← on_proxy (submit (persist_enqueue wall r'));
  _ ← on_proxy wake;
  mret r'.

(** [except asyncio.TimeoutError]: the caller's wait is over. *)
Definition on_client_timeout (r : QueuedRequest) (g : Gate) : Gate :=
  let id := r_request_id r in
  let p := ga_proxy g in
  let p := with_sched (cancel id (px_sched p)).2 p in
  let p := submit (persist_expire id) p in
  let p := with_futures (ddel (px_futures p) id) p in
  let p := with_corr (with_active (ddel (cs_active (px_corr p)) id) (px_corr p)) p in
  set_proxy (record_timeout_event r "client_wait" (r_timeout_s r) "client_deadline" p) g.

(** The first choice of the answer was cut; a body whose choices are an object
    raises past the guard. *)
Definition truncated_answer (result : dict string json) : res bool :=
  match jget result "response" with
  | JDict body =>
      match jget body "choices" with
      | JList (JDict c :: _) => Ret (text_is (jget c "finish_reason") "length")
      | JDict (_ :: _) => Raise KeyError
      | _ => Ret false
      end
  | _ => Ret false
  end.

(** The internal marks leave the result; what may be kept is kept. *)
Definition keep_answer (key : option string) (result : dict string json) : SE Gate (dict string json) :=
  let degen_unrecovered := truthy (jget result "_degenerate_unrecovered") in
  let schema_unrecovered := truthy (jget result "_schema_unrecoverable") in
  let result := ddel_all result ["_degenerate_unrecovered"; "_schema_unrecoverable"; "_schema_repaired"; "_schema_retried"] in
  truncated_ok ← se_lift (truncated_answer result);
  _ ← match key with
      | Some k =>
          if (negb (String.eqb k "") && text_is (jget result "status") "ok" && negb degen_unrecovered && negb schema_unrecovered
              && negb truncated_ok)%bool
          then on_part ga_cache set_cache (cache_put k (match dget result "response" with Some j => j | None => JDict [] end) now)
          else mret tt
      | None => mret tt
      end;
  mret result.
End Submit.
