(* ===== verification/SubmitProps.v ===== *)
(** * What admission guarantees

    An accepted request runs as an agent its credential may be, at the band of its
    priority, on a deadline, and leaves nothing behind where that was promised
    ([accepted_request_is_sound]).  A refusal after the load has its cause, and the
    hold on an on-demand endpoint is given back exactly when the request does not
    keep it ([refusal_gives_hold_back]). *)

From Stdlib Require Import Ascii QArith Qround Lqa Lia ZArith.
From stdpp Require Import base list strings gmap.
From S2P Require Import Prelude PyDict PyText Config Json ThinkSwitch ThinkBleed ThinkStats Budget Cost Queue JsonRead ToolStream Degen Scheduler Spend Policy Failover Timeout Cache Acl Replay NoStore Wal OnDemand Keepalive Intent Grammar Effort EffortProps Forced ForcedProps Correct Payload Provider Backend Completion Sync Deadline Relay Identity Submit.

Local Open Scope string_scope.

(** ** Gates that were passed *)

Lemma and_then_pass {A B} (m : SE Gate (Reply + A)) (f : A -> SE Gate (Reply + B)) g b g' :
  and_then m f g = (Ret (inr b), g') -> exists a g1, m g = (Ret (inr a), g1) /\ f a g1 = (Ret (inr b), g').
Proof.
  unfold and_then. intros H. apply se_bind_Ret in H as ([x|a] & g1 & E & H); [done|]. eauto.
Qed.

Lemma and_then_stop {A B} (m : SE Gate (Reply + A)) (f : A -> SE Gate (Reply + B)) g x g' :
  and_then m f g = (Ret (inl x), g') ->
  m g = (Ret (inl x), g') \/ exists a g1, m g = (Ret (inr a), g1) /\ f a g1 = (Ret (inl x), g').
Proof.
  unfold and_then. intros H. apply se_bind_Ret in H as ([y|a] & g1 & E & H); [left|right; eauto].
  injection H as -> ->. exact E.
Qed.

Lemma does_pass {A} (m : SE Gate A) g a g' : does m g = (Ret (inr a), g') -> m g = (Ret a, g').
Proof. unfold does. intros H. apply se_bind_Ret in H as (b & g1 & E & H). injection H as -> ->. exact E. Qed.

Lemma does_stop {A} (m : SE Gate A) g x g' : does m g = (Ret (inl x), g') -> False.
Proof. unfold does. intros H. by apply se_bind_Ret in H as (b & g1 & E & H). Qed.

(** One gate of a chain that was passed, or the one that stopped it. *)
Ltac passed H a E := let g1 := fresh "g" in apply and_then_pass in H as (a & g1 & E & H).
Ltac did E := apply does_pass in E.

Lemma Qltb_true a b : Qltb a b = true -> (a < b)%Q.
Proof. by destruct (Qltb_spec a b). Qed.

(** ** A request and what the gates make of it *)

Definition identity_of (r : QueuedRequest) :=
  (r_request_id r, r_agent_id r, r_priority r, r_band r, r_call_site r, r_payload_type r, r_timeout_deadline r, r_enqueued_at r,
   r_deadline_is_default r, r_asserted_by_key_id r, r_allow_degrade r, r_allow_spill r, r_no_store_outcome r).

(** The same request, on a deadline no shorter. *)
Definition descends (r r' : QueuedRequest) : Prop := identity_of r' = identity_of r /\ (r_timeout_s r <= r_timeout_s r')%Q.

Lemma descends_refl r : descends r r.
Proof. split; [done|apply Qle_refl]. Qed.

Lemma descends_trans a b c : descends a b -> descends b c -> descends a c.
Proof. intros [E1 L1] [E2 L2]. split; [congruence|by eapply Qle_trans]. Qed.

Lemma descends_same r r' : identity_of r' = identity_of r -> r_timeout_s r' = r_timeout_s r -> descends r r'.
Proof. intros E T. split; [done|]. rewrite T. apply Qle_refl. Qed.

Lemma grammar_descends r s : descends r (process_grammar r s).1.2.
Proof. unfold process_grammar. cbv zeta. repeat case_match; by apply descends_same. Qed.

Lemma shaped_descends roles shaping x y b now s :
  descends (ss_req s) (ss_req (shape_request roles shaping x y b now s).2).
Proof.
  destruct (request_side_footprint roles shaping x y b now s) as [(p & z & sc & n & E) _]. unfold shaped_request in E.
  rewrite E. by apply descends_same.
Qed.

Lemma plan_target h now r s p s' tgt :
  plan h now r s = (Ret p, s') -> fp_target p = Some tgt ->
  dget (pairs h (fs_config s)) (normalize_endpoint (hs_roles h) (r_endpoint r)) = Some tgt.
Proof.
  unfold plan. se_run. intros H T.
  destruct (dget (pairs h (fs_config s)) _) as [t|] eqn:E; cbn [from_option id] in H; [|cbn in H; injection H as <- _; done].
  destruct (_ || _); [injection H as <- _; done|]. destruct (negb (endpoint_healthy _ _ _)); [injection H as <- _; done|].
  destruct (agent_config _ _) as [acfg cfg]. rewrite run_modify in H.
  destruct (negb _); [injection H as <- _; done|]. destruct (bool_decide _); [injection H as <- _; done|].
  destruct (dget (endpoints _) t); [|done]. rewrite run_lift in H. destruct (context_fit _ _ _) as [fit|]; [|done].
  destruct (negb _); injection H as <- _; [done|]. by injection T as <-.
Qed.

Lemma apply_moves h r tgt s r' s' :
  Failover.apply h r tgt s = (Ret r', s') -> descends r r' /\ r_endpoint r' = tgt.
Proof.
  unfold Failover.apply. se_run. intros H. destruct (dget _ tgt); [|done]. rewrite run_modify in H. injection H as <- _.
  split; [by apply descends_same|done].
Qed.

Lemma request_done_unmanaged ep s : manages s ep = false -> request_done ep s = s.
Proof. unfold manages, dmem, request_done, upd. by destruct (dget (states s) ep). Qed.

Lemma request_done_manages ep ep' s : manages (request_done ep s) ep' = manages s ep'.
Proof.
  unfold manages, dmem, request_done, upd. destruct (dget (states s) ep) as [st|] eqn:E; [|done]. cbn [states with_states].
  rewrite dget_dset. by destruct (decide (ep = ep')) as [<-|]; [rewrite E|].
Qed.

(** ** After the load *)

Section AfterLoad.
Context (roles : dict string string) (vision : dict string bool) (replays : dict string bool) (shaping : dict string Shaping).
Context (sha256_hex : string -> string) (float_text : string -> string).
Context (forced_reasoning_budget thinking_reasoning_budget : Z) (thinking_enabled : bool).
Context (log : Q -> Q) (unit_ratio : Q) (knobs : TimeoutKnobs) (ceilings : dict string Q) (tm : TimeoutModel).
Context (flags : Flags) (shed_depth : Z) (health : HealthState) (p95 : string -> option Q).
Context (now wall : Q) (clock : nat -> Q).

Abbreviation breaker := (Submit.breaker roles health p95 now).
Abbreviation corrected := (Submit.corrected roles replays shaping float_text forced_reasoning_budget thinking_reasoning_budget
                             thinking_enabled log unit_ratio knobs ceilings tm now clock).
Abbreviation after_load := (Submit.after_load roles replays shaping float_text forced_reasoning_budget thinking_reasoning_budget
                              thinking_enabled log unit_ratio knobs ceilings tm shed_depth health p95 now clock).

Abbreviation held g := (px_on_demand (ga_proxy g)).

(** [r1] is the request as the breaker leaves it: at its endpoint, or, where that
    is not healthy, at the stand-in that the pairs name for it. *)
Definition led_to (g : Gate) (r r1 : QueuedRequest) : Prop :=
  r1 = r
  \/ (endpoint_healthy (health_of health g) now (r_endpoint r) = false
      /\ dget (pairs (health_of health g) (fs_config (ga_fail g)))
           (normalize_endpoint (hs_roles (health_of health g)) (r_endpoint r)) = Some (r_endpoint r1)).

(** The breaker passed the request: as it was, or moved to an endpoint nobody
    holds, its hold given back. *)
Lemma breaker_passes r g r' g' :
  breaker r g = (Ret (inr r'), g') ->
  descends r r' /\ led_to g r r' /\ px_sched (ga_proxy g') = px_sched (ga_proxy g)
  /\ (dwf (endpoints (fs_config (ga_fail g))) -> (r' = r /\ held g' = held g)
     \/ (held g' = request_done (r_endpoint r) (held g) /\ manages (held g) (r_endpoint r') = false)).
Proof.
  intros H. unfold Submit.breaker in H. passed H h E. did E. injection E as <- <-.
  destruct (endpoint_healthy _ _ _) eqn:HL;
    [injection H as <- <-; split; [apply descends_refl|split; [by left|split; [done|intros W; by left]]]|].
  passed H u E. did E. injection E as _ <-. passed H p E. did E. unfold on_fail, on_part in E.
  destruct (plan _ _ _ _) as [[q|e] s1] eqn:P; [|done]. injection E as -> <-. cbn [ga_fail set_fail ga_proxy] in P.
  destruct (fp_target p) as [tgt|] eqn:T.
  - passed H u2 E. did E. injection E as _ <-. did H. unfold on_fail, on_part in H. cbn [ga_fail set_fail set_proxy ga_proxy] in H.
    destruct (Failover.apply _ _ _ _) as [[q|e] s2] eqn:A; [|done]. injection H as -> <-.
    destruct (apply_moves _ _ _ _ _ _ A) as [D EP]. subst tgt.
    pose proof (plan_target _ _ _ _ _ _ _ P T) as S. rewrite refresh_config in S.
    split; [done|]. split; [right; split; [exact HL|exact S]|]. split; [done|]. intros W; right. split; [done|].
    apply pairs_target in S as (_ & _ & M); [|done]. exact M.
  - destruct (bool_decide _); [injection H as <- <-; split; [apply descends_refl|split; [by left|split; [done|intros W; by left]]]|].
    passed H u2 E1. passed H u3 E2. passed H u4 E3. done.
Qed.

(** The breaker refused it: no use of its endpoint, and its hold given back. *)
Lemma breaker_refuses r g x g' :
  breaker r g = (Ret (inl x), g') ->
  (exists code ref, x = Rejected 503 code (Some (retry_after_s (p95 (normalize_endpoint roles (r_endpoint r))))) ref)
  /\ r_band r <> BACKGROUND /\ endpoint_healthy (health_of health g) now (r_endpoint r) = false
  /\ held g' = request_done (r_endpoint r) (held g).
Proof.
  intros H. unfold Submit.breaker in H. apply and_then_stop in H as [H|(h & g1 & E & H)]; [by apply does_stop in H|].
  did E. injection E as <- <-. destruct (endpoint_healthy _ _ _) eqn:HL; [done|].
  apply and_then_stop in H as [H|(u & g1 & E & H)]; [by apply does_stop in H|]. did E. injection E as _ <-.
  apply and_then_stop in H as [H|(p & g1 & E & H)]; [by apply does_stop in H|]. did E. unfold on_fail, on_part in E.
  destruct (plan _ _ _ _) as [[q|e] s1]; [|done]. injection E as -> <-.
  destruct (fp_target p).
  { apply and_then_stop in H as [H|(u2 & g1 & E & H)]; by apply does_stop in H. }
  destruct (bool_decide (r_band r = BACKGROUND)) eqn:BG; [done|]. apply bool_decide_eq_false in BG.
  apply and_then_stop in H as [H|(u2 & g2 & E2 & H)]; [by apply does_stop in H|]. did E2.
  apply and_then_stop in H as [H|(u3 & g3 & E3 & H)]; [by apply does_stop in H|]. did E3.
  apply and_then_stop in H as [H|(u4 & g4 & E4 & H)]; [by apply does_stop in H|]. did E4. injection E4 as _ <-.
  injection H as <- <-. split; [by eexists _, _|]. split; [done|]. split; [done|].
  assert (K2 : held g2 = held g).
  { destruct (String.eqb _ _) in E2; injection E2 as _ <-; [|done]. unfold record_timeout_event. cbn [ga_proxy set_proxy set_fail].
    by destruct (bool_decide _). }
  assert (K3 : held g3 = held g2) by (destruct (str_truthy _); by injection E3 as _ <-).
  cbn. by rewrite K3, K2.
Qed.

Lemma shed_passes r g u g' :
  shed shed_depth p95 r g = (Ret (inr u), g') ->
  g' = g /\ (r_band r <> INTERACTIVE -> (band_queue (px_sched (ga_proxy g)) r < shed_depth)%Z).
Proof.
  unfold shed. intros H. destruct (bool_decide _) eqn:B.
  - injection H as _ <-. split; [done|]. by apply bool_decide_eq_true in B.
  - passed H h E. did E. injection E as <- <-. destruct (Z.leb_spec shed_depth (band_queue (px_sched (ga_proxy g)) r)) as [L|L].
    + passed H u2 E2. done.
    + by injection H as _ <-.
Qed.

Lemma shed_refuses r g x g' :
  shed shed_depth p95 r g = (Ret (inl x), g') ->
  x = Rejected 429 "backpressure" (Some (retry_after_s (p95 (r_endpoint r)))) None
  /\ r_band r <> INTERACTIVE /\ (shed_depth <= band_queue (px_sched (ga_proxy g)) r)%Z
  /\ held g' = request_done (r_endpoint r) (held g).
Proof.
  unfold shed. intros H. destruct (bool_decide _) eqn:B; [done|]. apply bool_decide_eq_false in B.
  apply and_then_stop in H as [H|(h & g1 & E & H)]; [by apply does_stop in H|]. did E. injection E as <- <-.
  destruct (Z.leb_spec shed_depth (band_queue (px_sched (ga_proxy g)) r)) as [L|L]; [|done].
  apply and_then_stop in H as [H|(h & g1 & E & H)]; [by apply does_stop in H|]. did E. injection E as _ <-.
  injection H as <- <-. done.
Qed.

Lemma restored_descends r g r' g' :
  restored roles replays float_text clock r g = (Ret r', g') -> descends r r' /\ r_endpoint r' = r_endpoint r /\ ga_proxy g' = ga_proxy g.
Proof.
  unfold restored. rewrite run_get. intros H. destruct (apply_reasoning_replay_restore _ _ _ _ _ _) as [p s].
  rewrite run_modify in H. injection H as <- <-. destruct p; (split; [try apply descends_refl; by apply descends_same|done]).
Qed.

Lemma corrected_descends r g r' g' :
  corrected r g = (Ret r', g') -> descends r r' /\ r_endpoint r' = r_endpoint r /\ held g' = held g.
Proof.
  unfold Submit.corrected. intros H. apply se_bind_Ret in H as (r1 & g1 & E & H).
  apply restored_descends in E as (D & EP & P). rewrite run_get in H. cbv zeta in H.
  pose proof (shaped_descends roles shaping forced_reasoning_budget thinking_reasoning_budget thinking_enabled now (shape_state r1 g1)) as S.
  destruct (request_side_footprint roles shaping forced_reasoning_budget thinking_reasoning_budget thinking_enabled now (shape_state r1 g1))
    as [(p & z & sc & n & SR) _]. unfold shaped_request in SR.
  destruct (shape_request _ _ _ _ _ _ _) as [res s]. cbn [snd] in *. unfold on_proxy in H. rewrite !run_modify, run_lift in H.
  destruct res; [|done]. rewrite run_get in H. injection H as <- <-.
  match goal with |- context [extend_deadline_for_granted_budget roles log unit_ratio knobs ceilings tm ?sc ?b ?q] =>
    pose proof (extend_cases roles log unit_ratio knobs ceilings tm sc b q) as X end.
  split; [|split].
  - eapply descends_trans; [exact D|]. eapply descends_trans; [exact S|]. destruct X as [->|(? & ? & ? & _ & _ & L & ->)]; [apply descends_refl|].
    split; [done|]. by apply Qlt_le_weak.
  - rewrite <- EP. destruct X as [->|(? & ? & ? & _ & _ & L & ->)]; cbn [r_endpoint set_timeout_s]; by rewrite SR.
  - cbn. by rewrite P.
Qed.

Lemma band_queue_same q r r' : r_endpoint r' = r_endpoint r -> r_band r' = r_band r -> band_queue q r' = band_queue q r.
Proof. intros E B. unfold band_queue. by rewrite E, B. Qed.

Lemma descends_band r r' : descends r r' -> r_band r' = r_band r.
Proof. intros [D _]. unfold identity_of in D. congruence. Qed.

(** C9 A refusal after the load of the endpoint has its cause.  503: its endpoint is
    of no use and the request does not wait in the background.  429: it is not
    interactive, and the queue of its band, at its endpoint or at the stand-in the
    breaker led it to, is as long as the limit.  Either says when to retry, in five
    to sixty seconds.  A request that passes is the same on a deadline no shorter,
    and the queue it goes to was below the limit unless it is interactive.  The
    hold taken by the load is given back, once, when the request is refused or
    moved to another endpoint, and stays with the request otherwise. *)
Theorem refusal_gives_hold_back r key g x g' :
  dwf (endpoints (fs_config (ga_fail g))) -> after_load r key g = (Ret x, g') ->
  match x with
  | inr (r', key') =>
      descends r r' /\ key' = key
      /\ (r_band r <> INTERACTIVE -> (band_queue (px_sched (ga_proxy g)) r' < shed_depth)%Z)
      /\ ((r_endpoint r' = r_endpoint r /\ held g' = held g)
          \/ (held g' = request_done (r_endpoint r) (held g) /\ manages (held g) (r_endpoint r') = false))
  | inl (Rejected status _ (Some s) _) =>
      held g' = request_done (r_endpoint r) (held g) /\ (5 <= s <= 60)%Z
      /\ ((status = 503%Z /\ r_band r <> BACKGROUND /\ endpoint_healthy (health_of health g) now (r_endpoint r) = false)
          \/ (status = 429%Z /\ r_band r <> INTERACTIVE
              /\ exists r1, descends r r1 /\ led_to g r r1 /\ (shed_depth <= band_queue (px_sched (ga_proxy g)) r1)%Z))
  | _ => False
  end.
Proof.
  intros W H. unfold Submit.after_load in H. destruct x as [x|x].
  - assert (RT : forall q, (5 <= retry_after_s q <= 60)%Z) by (intros q; unfold retry_after_s; lia).
    apply and_then_stop in H as [H|(r1 & g1 & E & H)].
    + apply breaker_refuses in H as ((c & ref & ->) & B & HL & K). split; [done|]. split; [apply RT|by left].
    + apply breaker_passes in E as (D & LED & Q & M); specialize (M W). apply and_then_stop in H as [H|(u & g2 & E2 & H)].
      * apply shed_refuses in H as (-> & B & FULL & K). split; [|split; [apply RT|right; split; [done|]]].
        -- destruct M as [[-> M]|[M N]]; rewrite K, M; [done|]. apply request_done_unmanaged. by rewrite request_done_manages.
        -- split; [by rewrite <- (descends_band _ _ D)|]. exists r1. by rewrite <- Q.
      * apply and_then_stop in H as [H|(r2 & g3 & E3 & H)]; [by apply does_stop in H|done].
  - passed H r1 E. apply breaker_passes in E as (D & _ & Q & M); specialize (M W). passed H u E2. apply shed_passes in E2 as [-> ROOM].
    passed H r2 E3. did E3. apply corrected_descends in E3 as (D2 & EP & K). injection H as <- <-.
    split; [by eapply descends_trans|]. split; [done|]. split.
    + intros B. rewrite (band_queue_same _ r1 r2 EP (descends_band _ _ D2)), <- Q. apply ROOM. by rewrite (descends_band _ _ D).
    + rewrite EP, K. destruct M as [[-> M]|[M N]]; [by left|by right].
Qed.
End AfterLoad.

(** ** The whole submission *)

Lemma coerce_member p d : coerce (PV_member p) d = Ret p.
Proof. done. Qed.

Lemma identified_sound wire req b wall g p aid cred g' :
  identified wall wire req b g = (Ret (inr (p, aid, cred)), g') ->
  exists p0, resolution (ga_identity g) req wall = Identity.Granted p0 /\ authenticated p = authenticated p0
  /\ (authenticated p0 = true -> aid = agent_id p0 \/ aid ∈ may_assert p0)
  /\ (authenticated p0 = false -> wire = WIRE_LEGACY -> may_self_declare (ga_identity g) req = false -> aid = agent_id p0).
Proof.
  unfold identified. intros H. passed H h E. did E. injection E as <- <-.
  assert (R : (resolve (ga_identity g) req false wall (day_bucket wall)).1.1 = resolution (ga_identity g) req wall
              /\ proxies (resolve (ga_identity g) req false wall (day_bucket wall)).2 = proxies (ga_identity g)).
  { unfold resolve. cbv zeta. destruct (_ && _)%bool; [|done]. by destruct (note_placeholder _ _ _ _ _). }
  destruct (resolve _ _ _ _ _) as [[res n] s]. cbn [fst snd] in R. destruct R as [-> PX]. passed H u E. did E. injection E as _ <-.
  destruct (resolution (ga_identity g) req wall) as [p0|d]; [|done]. exists p0. split; [done|].
  assert (MS : may_self_declare s req = may_self_declare (ga_identity g) req) by (unfold may_self_declare; by rewrite PX).
  destruct (authenticated p0) eqn:A.
  - destruct (delegate p0 (sb_agent_id b)) as [p'|d] eqn:D; [|done]. injection H as <- <- <- <-.
    unfold delegate in D. destruct (_ || _)%bool; [injection D as <-; split; [done|]; split; [by left|done]|].
    destruct (may_assert p0) as [|a l] eqn:M; [injection D as <-; split; [done|]; split; [by left|done]|].
    destruct (bool_decide _) eqn:I; [|done]. injection D as <-. apply bool_decide_eq_true in I. split; [exact A|]. by split; [right|].
  - rewrite MS in H. destruct (_ && _)%bool eqn:L; injection H as <- <- <- <-; (split; [done|]; split; [done|]); [done|].
    intros _ -> MN. rewrite MN in L. done.
Qed.

Section Accepting.
Context (roles : dict string string) (vision : dict string bool) (replays : dict string bool) (shaping : dict string Shaping).
Context (sha256_hex : string -> string) (float_text : string -> string).
Context (forced_reasoning_budget thinking_reasoning_budget : Z) (thinking_enabled : bool).
Context (log : Q -> Q) (unit_ratio : Q) (knobs : TimeoutKnobs) (ceilings : dict string Q) (tm : TimeoutModel).
Context (flags : Flags) (shed_depth : Z) (health : HealthState) (p95 : string -> option Q).
Context (now wall : Q) (clock : nat -> Q) (draining : bool) (fresh : string) (ensure_loaded : string -> SE Gate bool).

Lemma deadline_sound b p ep g t g' :
  deadline_of roles log unit_ratio knobs ceilings tm flags b p ep g = (Ret (inr t), g') ->
  (0 < t.1)%Q /\ (forall q, asked_timeout (sb_timeout_s b) = Some q -> (q <= t.1)%Q).
Proof.
  unfold deadline_of. intros H. passed H t0 E. passed H h E2. did E2. injection E2 as <- <-.
  assert (K : (0 < t0.1)%Q /\ (forall q, asked_timeout (sb_timeout_s b) = Some q -> (q <= t0.1)%Q)).
  { destruct (asked_timeout (sb_timeout_s b)) as [q|] eqn:A.
    - injection E as <- _. cbn [fst]. split; [|intros q' [= <-]; apply Qle_refl].
      unfold asked_timeout in A. destruct (sb_timeout_s b); try done; destruct (py_float _); try done;
        destruct (Qltb 0 _) eqn:L; try done; injection A as <-; by apply Qltb_true.
    - passed E h E2. did E2. injection E2 as <- <-.
      pose proof (smart_bounds roles log unit_ratio knobs ceilings tm (px_sched (ga_proxy g)) ep (body_dict b)) as [B _].
      unfold resolve_default_timeout in E. passed E u E2. injection E as <- _. cbn [fst]. split; [|done].
      assert (T : (0 < if fl_smart_default_timeout flags
                     then smart_default_s roles log unit_ratio knobs ceilings tm (px_sched (ga_proxy g)) ep (body_dict b)
                     else _DEFAULT_TIMEOUT_S)%Q) by (destruct (fl_smart_default_timeout flags); [exact B|done]).
      destruct (min_timeout_s p) as [m|]; [|exact T]. destruct (Qltb _ m) eqn:L; [|exact T].
      apply Qltb_true in L. by eapply Qlt_trans. }
  injection H as <- _. destruct (_ && _)%bool eqn:L; [|exact K]. apply andb_true_iff in L as [_ L%Qltb_true]. cbn [fst].
  destruct K as [K1 K2]. split; [by eapply Qlt_trans|]. intros q A. apply Qlt_le_weak. eapply Qle_lt_trans; [by apply K2|done].
Qed.

Lemma context_descends b r g r' g' :
  context_gate flags wall b r g = (Ret (inr r'), g') -> descends r r'.
Proof.
  unfold context_gate. destruct (negb (is_chat r)); [intros [= <- _]; apply descends_refl|]. intros H.
  passed H h E. did E. injection E as <- <-. passed H fit E. did E.
  assert (S : forall n, descends r (set_ctx r n)) by (intros n; by apply descends_same).
  destruct (fits fit); [injection H as <- _; apply S|]. passed H u E2. passed H u2 E3. destruct (fl_context_gate_enforce flags); [done|].
  injection H as <- _. apply S.
Qed.

Lemma grammar_gate_descends r g r' g' : grammar_gate r g = (Ret (inr r'), g') -> descends r r'.
Proof.
  unfold grammar_gate. destruct (negb (is_chat r)); [intros [= <- _]; apply descends_refl|]. intros H.
  passed H h E. did E. injection E as <- <-. pose proof (grammar_descends r (px_corr (ga_proxy g))) as D.
  destruct (process_grammar _ _) as [[er r1] corr]. passed H u E. destruct er; [done|]. by injection H as <- _.
Qed.

Lemma cached_no_store r g key g' : cached sha256_hex now r g = (Ret (inr key), g') -> no_store r = true -> key = None.
Proof. unfold cached. intros H N. rewrite N in H. by injection H as <- _. Qed.

Lemma decision_honoured headers p aid g d g' :
  no_store_decision headers p aid g = (Ret (inr d), g') -> String.eqb (de_outcome d) "honoured" = true ->
  authenticated p = true /\ honoured d = true.
Proof.
  unfold no_store_decision. intros H O. destruct (parse_header _) as [asked|]; [|done]. passed H h E. did E. injection E as <- <-.
  passed H u E. injection H as <- _. split; [|exact O]. revert O. unfold decide_no_store.
  destruct (negb asked); [done|]. destruct (authenticated p); [done|]. done.
Qed.

(** C7 An accepted request is one the proxy may run.  It is charged to the agent of
    its credential or one that credential may assert (an address that is not
    trusted to name itself, on the legacy wire, to its registration); its band is
    that of its priority; it has a positive deadline, no shorter than the caller
    asked; its messages are objects; and where it was promised that nothing is
    stored, its caller is authenticated, the cache is not used and no other
    provider may serve it. *)
Theorem accepted_request_is_sound wire headers client b g r key g' :
  handle_submit roles vision replays shaping sha256_hex float_text forced_reasoning_budget thinking_reasoning_budget thinking_enabled
    log unit_ratio knobs ceilings tm flags shed_depth health p95 now wall clock draining fresh ensure_loaded wire headers client b g
  = (Ret (inr (r, key)), g') ->
  draining = false
  /\ (exists p, resolution (ga_identity g) (mkRequest (dget headers) client (Some "POST")) wall = Identity.Granted p
       /\ (authenticated p = true -> r_agent_id r = agent_id p \/ r_agent_id r ∈ may_assert p)
       /\ (authenticated p = false -> wire = WIRE_LEGACY ->
           may_self_declare (ga_identity g) (mkRequest (dget headers) client (Some "POST")) = false -> r_agent_id r = agent_id p)
       /\ (no_store r = true -> authenticated p = true))
  /\ r_band r = priority_to_band (r_priority r)
  /\ (0 < r_timeout_s r)%Q /\ (forall q, asked_timeout (sb_timeout_s b) = Some q -> (q <= r_timeout_s r)%Q /\ (now + q <= r_timeout_deadline r)%Q)
  /\ (is_chat r = true -> messages_ok (sb_payload b) = true)
  /\ (no_store r = true -> key = None /\ r_allow_spill r = Some false).
Proof.
  intros H. unfold handle_submit in H. passed H rk E. destruct rk as [r0 k0]. passed H u EL.
  unfold after_load in H. passed H r1 EB. apply breaker_passes in EB as [D1 _]. passed H u2 ES. passed H r2 EC. did EC.
  apply corrected_descends in EC as (D2 & _ & _). injection H as <- <- _. pose proof (descends_trans _ _ _ D1 D2) as D. clear D1 D2.
  unfold before_load in E. destruct draining; [done|]. split; [done|].
  passed E pac E1. destruct pac as [[p aid] cred]. apply identified_sound in E1 as (p0 & R & AU & A1 & A2).
  passed E pri E2. passed E ns E3. passed E ep E4. passed E t E5. apply deadline_sound in E5 as [T1 T2].
  passed E c E6. did E6. cbn in E6. injection E6 as <- _.
  passed E u3 E7. passed E r3 E8. apply grammar_gate_descends in E8. passed E r4 E9. apply context_descends in E9.
  passed E k E10. injection E as <- <- _.
  pose proof (descends_trans _ _ _ (descends_trans _ _ _ E8 E9) D) as DD. destruct DD as [ID L].
  pose proof (descends_trans _ _ _ E8 E9) as [ID4 _].
  unfold identity_of in ID, ID4. cbn in ID, ID4, L.
  assert (AG : r_agent_id r2 = aid) by congruence.
  assert (PR : r_priority r2 = pri) by congruence. assert (BD : r_band r2 = priority_to_band pri) by congruence.
  assert (DL : r_timeout_deadline r2 = (now + t.1)%Q) by congruence.
  assert (PT : r_payload_type r2 = sb_payload_type b) by congruence.
  assert (NO : r_no_store_outcome r2 = de_outcome ns) by congruence.
  assert (N4 : r_no_store_outcome r4 = de_outcome ns) by congruence.
  assert (SP : r_allow_spill r2 = if honoured ns then Some false else sb_allow_spill b) by congruence.
  clear ID ID4.
  assert (HN : no_store r2 = true -> authenticated p = true /\ honoured ns = true).
  { unfold no_store. rewrite NO. intros N. by eapply decision_honoured. }
  split; [|split; [by rewrite BD, PR|split; [by eapply Qlt_le_trans|split; [|split]]]].
  - exists p0. split; [done|]. rewrite AG, <- AU. split; [rewrite AU; exact A1|]. split; [rewrite AU; exact A2|]. by intros [? _]%HN.
  - intros q A. specialize (T2 q A). split; [by eapply Qle_trans|]. rewrite DL. by apply Qplus_le_r.
  - intros C. unfold is_chat in C. rewrite PT in C. unfold shape_gate, is_chat in E7. cbn in E7. rewrite C in E7.
    by destruct (messages_ok (sb_payload b)).
  - intros N. pose proof (HN N) as [_ HO]. rewrite SP, HO. split; [|done]. eapply cached_no_store; [exact E10|].
    unfold no_store in *. by rewrite N4, <- NO.
Qed.
End Accepting.
