(* ===== verification/Breaker.v ===== *)
(** * The circuit of an endpoint (health.py, http_handlers.py)

    The breaker that follows the probes ([update_endpoint_health]), the cooldown
    that follows the dispatches ([record_dispatch_failure]), the operator's drain
    ([handle_admin_endpoint_pause] past its gate), the release of the queue that
    each of them causes ([fast_fail_interactive], with the failover), what is said
    of an endpoint ([endpoint_status]) and what is made of its discovered capacity
    ([apply_discovered_capacity]).  A handler that does not wait reads one time. *)

From Stdlib Require Import Ascii QArith Lqa Lia ZArith.
From stdpp Require Import base list strings gmap.
From S2P Require Import Prelude PyDict PyText Config Json Budget Cost Queue Scheduler Spend Failover Goodput Wal OnDemand Residency Effort Forced Correct Provider Completion.

Local Open Scope string_scope.

(** ** State *)

Record Circuit := mkCircuit { ci_healthy : bool; ci_failures : Z; ci_since : option Q }.

Definition fresh_circuit : Circuit := mkCircuit true 0 None.

Record Breaker := mkBreaker {
  bk_proxy : Proxy;
  bk_fail : FailState;
  bk_goodput : GoodputState;
  bk_residency : ResidencyReader;
  bk_health : dict string Circuit;
  bk_reachable : dict string bool;
  bk_paused : gset string;
  bk_failure_times : dict string (list Q);
  bk_cooldown_until : dict string Q;
  bk_cooldown_trips : dict string Z;
  bk_best_effort_skips : dict string Z
}.

Definition set_proxy (x : Proxy) (b : Breaker) : Breaker :=
  mkBreaker x (bk_fail b) (bk_goodput b) (bk_residency b) (bk_health b) (bk_reachable b) (bk_paused b) (bk_failure_times b)
    (bk_cooldown_until b) (bk_cooldown_trips b) (bk_best_effort_skips b).
Definition set_fail (x : FailState) (b : Breaker) : Breaker :=
  mkBreaker (bk_proxy b) x (bk_goodput b) (bk_residency b) (bk_health b) (bk_reachable b) (bk_paused b) (bk_failure_times b)
    (bk_cooldown_until b) (bk_cooldown_trips b) (bk_best_effort_skips b).
Definition set_goodput (x : GoodputState) (b : Breaker) : Breaker :=
  mkBreaker (bk_proxy b) (bk_fail b) x (bk_residency b) (bk_health b) (bk_reachable b) (bk_paused b) (bk_failure_times b)
    (bk_cooldown_until b) (bk_cooldown_trips b) (bk_best_effort_skips b).
Definition set_residency (x : ResidencyReader) (b : Breaker) : Breaker :=
  mkBreaker (bk_proxy b) (bk_fail b) (bk_goodput b) x (bk_health b) (bk_reachable b) (bk_paused b) (bk_failure_times b)
    (bk_cooldown_until b) (bk_cooldown_trips b) (bk_best_effort_skips b).
Definition set_circuit (ep : string) (c : Circuit) (b : Breaker) : Breaker :=
  mkBreaker (bk_proxy b) (bk_fail b) (bk_goodput b) (bk_residency b) (dset (bk_health b) ep c) (bk_reachable b) (bk_paused b)
    (bk_failure_times b) (bk_cooldown_until b) (bk_cooldown_trips b) (bk_best_effort_skips b).
Definition set_reachable (ep : string) (x : bool) (b : Breaker) : Breaker :=
  mkBreaker (bk_proxy b) (bk_fail b) (bk_goodput b) (bk_residency b) (bk_health b) (dset (bk_reachable b) ep x) (bk_paused b)
    (bk_failure_times b) (bk_cooldown_until b) (bk_cooldown_trips b) (bk_best_effort_skips b).
Definition set_paused (x : gset string) (b : Breaker) : Breaker :=
  mkBreaker (bk_proxy b) (bk_fail b) (bk_goodput b) (bk_residency b) (bk_health b) (bk_reachable b) x (bk_failure_times b)
    (bk_cooldown_until b) (bk_cooldown_trips b) (bk_best_effort_skips b).
Definition set_failure_times (ep : string) (x : list Q) (b : Breaker) : Breaker :=
  mkBreaker (bk_proxy b) (bk_fail b) (bk_goodput b) (bk_residency b) (bk_health b) (bk_reachable b) (bk_paused b)
    (dset (bk_failure_times b) ep x) (bk_cooldown_until b) (bk_cooldown_trips b) (bk_best_effort_skips b).
Definition cool_until (ep : string) (t : Q) (b : Breaker) : Breaker :=
  mkBreaker (bk_proxy b) (bk_fail b) (bk_goodput b) (bk_residency b) (bk_health b) (bk_reachable b) (bk_paused b)
    (bk_failure_times b) (dset (bk_cooldown_until b) ep t) (bk_cooldown_trips b) (bk_best_effort_skips b).

(** [d[k] = d.get(k, 0) + 1] *)
Definition plus_one (d : dict string Z) (k : string) : dict string Z := dset d k (default 0%Z (dget d k) + 1)%Z.

Definition count_trip (ep : string) (b : Breaker) : Breaker :=
  mkBreaker (bk_proxy b) (bk_fail b) (bk_goodput b) (bk_residency b) (bk_health b) (bk_reachable b) (bk_paused b)
    (bk_failure_times b) (bk_cooldown_until b) (plus_one (bk_cooldown_trips b) ep) (bk_best_effort_skips b).
Definition count_skip (ep : string) (b : Breaker) : Breaker :=
  mkBreaker (bk_proxy b) (bk_fail b) (bk_goodput b) (bk_residency b) (bk_health b) (bk_reachable b) (bk_paused b)
    (bk_failure_times b) (bk_cooldown_until b) (bk_cooldown_trips b) (plus_one (bk_best_effort_skips b) ep).

(** Computations over one part. *)
Definition in_proxy (f : Proxy -> Proxy) : SE Breaker unit := se_modify (fun b => set_proxy (f (bk_proxy b)) b).
Definition in_fail {A} (m : SE FailState A) : SE Breaker A := fun b =>
  let '(r, s) := m (bk_fail b) in (r, set_fail s b).
Definition in_sched {A} (m : SE Sched A) : SE Breaker A := fun b =>
  let '(r, s) := m (px_sched (bk_proxy b)) in (r, set_proxy (with_sched s (bk_proxy b)) b).

Definition circuit_of (b : Breaker) (ep : string) : Circuit := default fresh_circuit (dget (bk_health b) ep).

(** The switches of the cooldown, as they are read from the environment. *)
Record CooldownConf := mkCooldown {
  cd_shadow : bool;
  cd_enforce : bool;
  cd_allowed_fails : Z;
  cd_window_s : Q;
  cd_duration_s : Q
}.

(** [exc.status_code], where the exception is a [BackendError]. *)
Definition exc_status (e : BackendExc) : option Z :=
  match e with
  | BackendTimeout => Some 504%Z
  | BackendUnavailable => Some 503%Z
  | BackendError status _ => status
  | OtherExc => None
  end.

Definition backend_fault (e : BackendExc) : bool := match exc_status e with Some n => (500 <=? n)%Z | None => false end.

Definition CONTEXT_OVERFLOW_MARKER : string := "exceeds the available context size".

Definition overflow_detail (f : ContextFit) (endpoint : string) : string :=
  "(est " ++ str_of_Z (est_in f) ++ " input tokens + max_tokens " ++ str_of_Z (est_out f) ++ ") " ++ CONTEXT_OVERFLOW_MARKER
  ++ " (" ++ str_of_Z (limit f) ++ "/slot on " ++ endpoint ++ ")".

Section Circuits.
(** The alias table, the switches, how many failed probes trip a circuit,
    whether a failover is installed, and the time. *)
Context (roles : dict string string) (cooldown : CooldownConf) (health_fail_threshold : Z) (failover : bool) (now : Q).

(** ** What the verdict of [endpoint_healthy] reads *)

Definition health_view (b : Breaker) : HealthState :=
  {| hs_roles := roles; hs_paused := bk_paused b; hs_cooldown_enabled := cd_enforce cooldown;
     hs_cooldown_until := bk_cooldown_until b; hs_collapsed := gs_collapsed (bk_goodput b);
     hs_collapse_enforce := gs_enforce (bk_goodput b); hs_manages := manages (px_on_demand (bk_proxy b));
     hs_probe := map (fun kv => (kv.1, ci_healthy kv.2)) (bk_health b) |}.

Definition healthy (b : Breaker) (ep : string) : bool := endpoint_healthy (health_view b) now ep.

(** ** The release of a queue *)

(** [FailoverPlan.refusal_detail] of a plan that refuses. *)
Definition refusal_detail (h : HealthState) (s : FailState) (r : QueuedRequest) (code : string) : string :=
  let tgt := default "" (dget (pairs h (fs_config s)) (normalize_endpoint (hs_roles h) (r_endpoint r))) in
  let serving := "; it is serving from " ++ tgt ++ " for opted-in callers, " in
  if String.eqb code CODE_NOT_OPTED_IN then
    if negb (degrade_ok (agent_view (fs_config s) (r_agent_id r)))
    then serving ++ "and agent " ++ repr_str (r_agent_id r) ++ " is not opted in (`degrade_ok` in the agents config)"
    else serving ++ "and this request declared `substitution.degrade: false`"
  else match dget (endpoints (fs_config s)) tgt with
       | Some cfg => match context_fit (r_payload r) (r_payload_type r) (context_per_slot cfg) with
                     | Ret fit => serving ++ "but this request " ++ overflow_detail fit tgt
                     | Raise _ => ""
                     end
       | None => ""
       end.

Definition take_out (id : string) : SE Breaker unit := in_proxy (fun p => with_sched (cancel id (px_sched p)).2 p).

(** A queued request of an endpoint that went down: moved to its stand-in, or
    answered. *)
Definition release_one (ep_name reason : string) (r : QueuedRequest) : SE Breaker unit :=
  b ← se_get;
  let h := health_view b in
  fplan ← (if failover then in_fail (plan h now r) else mret no_plan);
  match fp_target fplan with
  | Some target =>
      _ ← take_out (r_request_id r);
      r' ← in_fail (Failover.apply h r target);
      _ ← in_sched (enqueue r');
      in_proxy wake
  | None =>
      _ ← take_out (r_request_id r);
      _ ← in_proxy (Completion.submit (persist_expire (r_request_id r)));
      let err := "backend " ++ ep_name ++ " unavailable (" ++ reason ++ ")" in
      if str_truthy (fp_refusal_code fplan) then
        b ← se_get;
        _ ← se_modify (fun b => set_fail (record_refusal h r fplan (bk_fail b)) b);
        in_proxy (resolve_error r (err ++ refusal_detail h (bk_fail b) r (default "" (fp_refusal_code fplan))) no_extras)
      else in_proxy (resolve_error r err no_extras)
  end.

Definition release_all (ep_name reason : string) (rs : list QueuedRequest) : SE Breaker unit :=
  se_fold (fun _ r => release_one ep_name reason r) tt rs.

Definition fast_fail_interactive (ep_name reason : string) : SE Breaker unit :=
  _ ← se_modify (fun b =>
        if failover then set_fail (Failover.refresh (health_view b) (px_sched (bk_proxy b)) now (bk_fail b)) b else b);
  b ← se_get;
  release_all ep_name reason (queued_requests (px_sched (bk_proxy b)) ep_name [INTERACTIVE; FOREGROUND]).

(** ** The circuit *)

(** One pass: [probe_ok] is the discovery, [alive] what [/health] answers if it
    is asked. *)
Definition update_endpoint_health (ep_name : string) (probe_ok alive : bool) : SE Breaker unit :=
  _ ← se_modify (fun b => match dget (bk_health b) ep_name with None => set_circuit ep_name fresh_circuit b | Some _ => b end);
  b ← se_get;
  let c := circuit_of b ep_name in
  if probe_ok then
    _ ← (if negb (ci_healthy c) then in_proxy wake else mret tt);
    se_modify (set_circuit ep_name fresh_circuit)
  else if negb (ci_healthy c) then
    if alive then _ ← se_modify (set_circuit ep_name fresh_circuit); in_proxy wake else mret tt
  else
    let failures := (ci_failures c + 1)%Z in
    if (health_fail_threshold <=? failures)%Z then
      if negb alive then
        _ ← se_modify (set_circuit ep_name (mkCircuit false failures (Some now)));
        fast_fail_interactive ep_name "circuit open"
      else se_modify (set_circuit ep_name (mkCircuit true 0 (ci_since c)))
    else se_modify (set_circuit ep_name (mkCircuit true failures (ci_since c))).

(** ** The cooldown *)

(** [while times and times[0] < cutoff: times.pop(0)] *)
Fixpoint drop_before (cutoff : Q) (times : list Q) : list Q :=
  match times with
  | t :: rest => if Qltb t cutoff then drop_before cutoff rest else times
  | [] => []
  end.

Definition record_dispatch_failure (endpoint : string) (exc : BackendExc) (best_effort : bool) : SE Breaker unit :=
  if negb (cd_shadow cooldown || cd_enforce cooldown) then mret tt
  else if negb (backend_fault exc) then mret tt
  else
    let ep := normalize_endpoint roles endpoint in
    if best_effort then se_modify (count_skip ep)
    else
      b ← se_get;
      let times := drop_before (now - cd_window_s cooldown) (default [] (dget (bk_failure_times b) ep) ++ [now])%list in
      if (Z.of_nat (length times) <? cd_allowed_fails cooldown)%Z then se_modify (set_failure_times ep times)
      else
        _ ← se_modify (set_failure_times ep []);
        _ ← se_modify (count_trip ep);
        if cd_enforce cooldown then
          _ ← se_modify (cool_until ep (now + cd_duration_s cooldown)%Q);
          fast_fail_interactive ep "circuit open"
        else mret tt.

(** ** The operator's drain *)

Definition pause (wall : Q) (ep reason operator : string) : SE Breaker unit :=
  _ ← se_modify (fun b => set_paused ({[ep]} ∪ bk_paused b) b);
  _ ← fast_fail_interactive ep "circuit open";
  in_proxy (Completion.submit (maintenance_open wall roles ep reason operator "drain" None)).

Definition resume (wall : Q) (ep : string) : SE Breaker unit :=
  _ ← se_modify (fun b => set_paused (bk_paused b ∖ {[ep]}) b);
  _ ← in_proxy wake;
  in_proxy (Completion.submit (maintenance_close wall roles ep None)).

(** ** What is said of an endpoint *)

Definition expected_unloaded (b : Breaker) (ep : string) : bool :=
  (bool_decide (residency_state (bk_residency b) ep now = Some EVICTED) && bool_decide (dget (bk_reachable b) ep = Some false))%bool.

(** The word of [endpoint_status]; [on_demand] is the endpoint's declaration. *)
Definition availability (on_demand : bool) (b : Breaker) (ep : string) : string :=
  if bool_decide (ep ∈ bk_paused b) then "paused"
  else if negb (healthy b ep) then if expected_unloaded b ep then "unloaded" else "unhealthy"
  else if (on_demand || bool_decide (is_Some (residency_state (bk_residency b) ep now)))%bool then
    match dget (bk_reachable b) ep with
    | None => "unknown"
    | Some true => "healthy"
    | Some false => if expected_unloaded b ep then "unloaded" else "unreachable"
    end
  else "healthy".

Definition age_s (r : ResidencyReader) : option Q :=
  match rr_intent r with Some _ => Some (py_round 1 (now - rr_read_at r)) | None => None end.

(** The whole answer: the residency with its age, the last reading of the probe,
    the word. *)
Definition endpoint_status (on_demand : bool) (b : Breaker) (ep : string) : (option (string * option Q)) * option bool * string :=
  ((fun w => (w, age_s (bk_residency b))) <$> residency_state (bk_residency b) ep now, dget (bk_reachable b) ep, availability on_demand b ep).

(** ** What discovery found *)

(** A count the backend published.  One that is no integer is outside the model:
    it raises. *)
Definition count_of (j : json) : res (option Z) :=
  if truthy j then match py_int j with Some n => Ret (Some n) | None => Raise TypeError end else Ret None.

Definition with_slots (n : Z) (c : EndpointConfig) : EndpointConfig :=
  {| endpoint_class := endpoint_class c; role := role c; max_slots := n; context_per_slot := context_per_slot c;
     min_expected_slots := min_expected_slots c; failover_to := failover_to c; goodput_min_running := goodput_min_running c;
     goodput_sustain_evaluations := goodput_sustain_evaluations c; goodput_max_iteration_rate := goodput_max_iteration_rate c;
     goodput_max_generation_tps := goodput_max_generation_tps c; goodput_max_prefill_tps := goodput_max_prefill_tps c;
     goodput_recovery_evaluations := goodput_recovery_evaluations c; goodput_max_hold_s := goodput_max_hold_s c;
     goodput_busy_min := goodput_busy_min c; failover_dwell_s := failover_dwell_s c; spill_to := spill_to c;
     background_floor_pct := background_floor_pct c; fast_path_reserve_slots := fast_path_reserve_slots c;
     dispatch_concurrency_cap := dispatch_concurrency_cap c |}.

Definition with_context (n : Z) (c : EndpointConfig) : EndpointConfig :=
  {| endpoint_class := endpoint_class c; role := role c; max_slots := max_slots c; context_per_slot := n;
     min_expected_slots := min_expected_slots c; failover_to := failover_to c; goodput_min_running := goodput_min_running c;
     goodput_sustain_evaluations := goodput_sustain_evaluations c; goodput_max_iteration_rate := goodput_max_iteration_rate c;
     goodput_max_generation_tps := goodput_max_generation_tps c; goodput_max_prefill_tps := goodput_max_prefill_tps c;
     goodput_recovery_evaluations := goodput_recovery_evaluations c; goodput_max_hold_s := goodput_max_hold_s c;
     goodput_busy_min := goodput_busy_min c; failover_dwell_s := failover_dwell_s c; spill_to := spill_to c;
     background_floor_pct := background_floor_pct c; fast_path_reserve_slots := fast_path_reserve_slots c;
     dispatch_concurrency_cap := dispatch_concurrency_cap c |}.

Definition edit_endpoint (ep : string) (f : EndpointConfig -> EndpointConfig) (c : ProxyConfig) : ProxyConfig :=
  {| endpoints := map (fun kv => if String.eqb kv.1 ep then (kv.1, f kv.2) else kv) (endpoints c); agents := agents c |}.

(** The configuration is one object: the scheduler and the failover read it. *)
Definition edit_config (f : ProxyConfig -> ProxyConfig) (b : Breaker) : Breaker :=
  let p := bk_proxy b in
  let s := px_sched p in
  set_fail (fs_set_config (f (fs_config (bk_fail b))) (bk_fail b))
    (set_proxy (with_sched (set_config (f (sc_config s)) s) p) b).

(** The new slot count reaches the cost model and the budgets. *)
Definition resize (ep : string) (n : Z) (b : Breaker) : Breaker :=
  let b := edit_config (edit_endpoint ep (with_slots n)) b in
  let p := bk_proxy b in
  let s := px_sched p in
  let s := set_cost (update_max_slots (sc_cost s) ep n) s in
  let s := Scheduler.set_budgets (set_total_capacity (sc_budgets s) (inject_Z (total_fleet_slots (sc_config s)))) s in
  set_proxy (with_sched s p) b.

Definition observe_price (ep : string) (report : CapacityReport) (p : Proxy) : Proxy :=
  let l := px_spend p in
  with_spend {| prices := Spend.observe (prices l) ep
                  {| input_usd_per_mtok := default 0%Q (cr_input_usd_per_mtok report);
                     output_usd_per_mtok := default 0%Q (cr_output_usd_per_mtok report);
                     source := SOURCE_PROVIDER |};
                sl_agents := sl_agents l |} p.

Definition slots_at (b : Breaker) (ep : string) : option Z := max_slots <$> dget (endpoints (sc_config (px_sched (bk_proxy b)))) ep.
Definition context_at (b : Breaker) (ep : string) : option Z :=
  context_per_slot <$> dget (endpoints (sc_config (px_sched (bk_proxy b)))) ep.

Definition apply_discovered_capacity (ep_name : string) (report : CapacityReport) : SE Breaker unit :=
  slots ← se_lift (count_of (cr_slots report));
  _ ← se_modify (fun b => match slots with
                          | Some n => if bool_decide (slots_at b ep_name = Some n) then b else resize ep_name n b
                          | None => b
                          end);
  ctx ← se_lift (count_of (cr_context_per_slot report));
  _ ← se_modify (fun b => match ctx with
                          | Some n => if bool_decide (context_at b ep_name = Some n) then b
                                      else edit_config (edit_endpoint ep_name (with_context n)) b
                          | None => b
                          end);
  if publishes_prices report then in_proxy (observe_price ep_name report) else mret tt.
End Circuits.
