(* ===== verification/BreakerProps.v ===== *)
(** * What an endpoint going down does

    The release of a queue answers or moves every waiting request it holds, each
    once, and touches no other ([outage_strands_nobody]); the circuit of an endpoint
    is a reading of the passes over it ([circuit_follows_evidence]), its cooldown of
    the faults reported of it ([cooled_only_by_faults]); a discovered capacity is
    what every part of the proxy reads ([capacity_agrees_everywhere]). *)

From Stdlib Require Import Ascii QArith Lqa Lia ZArith Sorted.
From stdpp Require Import base list strings gmap.
From S2P Require Import Prelude PyDict PyText Config Json Budget Cost Queue Scheduler SchedSteps SchedProps Spend Failover Goodput Wal OnDemand Residency Effort Forced Correct Provider Completion Breaker.

Local Open Scope string_scope.

Section Release.
Context (roles : dict string string) (cooldown : CooldownConf) (failover : bool) (now : Q).

Abbreviation view := (health_view roles cooldown).
Abbreviation release_one := (Breaker.release_one roles cooldown failover now).
Abbreviation release_all := (Breaker.release_all roles cooldown failover now).
Abbreviation sched b := (px_sched (bk_proxy b)).
Abbreviation futures b := (px_futures (bk_proxy b)).
Abbreviation config b := (fs_config (bk_fail b)).

(** ** What a release keeps *)

Record kept (b b' : Breaker) : Prop := {
  kp_view : view b' = view b;
  kp_endpoints : endpoints (config b') = endpoints (config b);
  kp_agents : forall a, agent_view (config b') a = agent_view (config b) a;
  kp_degraded : fs_degraded (bk_fail b') = fs_degraded (bk_fail b);
  kp_running : running_all (sched b') = running_all (sched b);
  kp_on_demand : px_on_demand (bk_proxy b') = px_on_demand (bk_proxy b)
}.

#[local] Instance kept_preorder : PreOrder kept.
Proof. split; [by intros b; split|]. intros b1 b2 b3 [] []. split; congruence. Qed.

Lemma pairs_endpoints h c c' : endpoints c = endpoints c' -> pairs h c = pairs h c'.
Proof. intros E. unfold pairs, usable_target. by rewrite E. Qed.

Lemma plan_config h r s :
  let s' := (plan h now r s).2 in
  endpoints (fs_config s') = endpoints (fs_config s) /\ (forall a, agent_view (fs_config s') a = agent_view (fs_config s) a)
  /\ fs_degraded s' = fs_degraded s.
Proof.
  unfold plan. se_run. destruct (_ || _)%bool; [done|]. destruct (negb (endpoint_healthy _ _ _)); [done|].
  pose proof (agent_config_endpoints (fs_config s) (r_agent_id r)) as E.
  pose proof (agent_view_default (fs_config s) (r_agent_id r)) as V.
  destruct (agent_config (fs_config s) (r_agent_id r)) as [acfg cfg]. cbn [snd] in E, V. rewrite run_modify.
  destruct (negb _); [done|]. destruct (bool_decide _); [done|]. destruct (dget (endpoints _) _); [|done].
  rewrite run_lift. by destruct (context_fit _ _ _) as [f|]; [destruct (negb (fits f))|].
Qed.

(** The gates of a reroute read nothing that a release changes. *)
Lemma may_reroute_kept b b' r t :
  kept b b' -> may_reroute (view b') now (bk_fail b') r t <-> may_reroute (view b) now (bk_fail b) r t.
Proof.
  intros [V E A D _ _]. unfold may_reroute. rewrite V, D, A, E, (pairs_endpoints _ _ _ E). done.
Qed.

(** ** One request *)

(** The stand-in's copy of a request. *)
Definition moved_on (b : Breaker) (r r' : QueuedRequest) : Prop :=
  exists t ctx n c, may_reroute (view b) now (bk_fail b) r t
    /\ r' = with_cost (moved r (Some (normalize_endpoint roles (r_endpoint r))) (r_spilled_from r) t ctx) n c.

Definition refused_here (b : Breaker) (r : QueuedRequest) : Prop :=
  failover = true -> forall t, ~ may_reroute (view b) now (bk_fail b) r t.

Definition outage_text (ep reason : string) (text : string) : Prop :=
  exists clause, text = ("backend " ++ ep ++ " unavailable (" ++ reason ++ ")") ++ clause.

(** The answer of a released request, where one was awaited. *)
Definition answered_down (ep reason : string) (r : QueuedRequest) (before after : Breaker) : Prop :=
  let id := r_request_id r in
  dget (futures before) id = Some None ->
  exists text, outage_text ep reason text /\ dget (futures after) id = Some (Some (error_payload id text no_extras)).

Lemma cancel_one i s r :
  sched_ok s -> NoDup (map r_request_id (waiting_all s)) -> r ∈ waiting_all s -> r_request_id r = i ->
  sched_ok (cancel i s).2 /\ running_all (cancel i s).2 = running_all s /\ waiting_all s ≡ₚ r :: waiting_all (cancel i s).2.
Proof.
  intros S N R I. pose proof (cancel_exact i s S) as H. pose proof (cancel_cases i s S) as C. destruct (cancel i s) as [[] s']; cbn [snd].
  - destruct H as (S' & A & _ & _ & r0 & I0 & P). split; [done|]. split; [unfold running_all; by rewrite A|].
    assert (R' : r ∈ r0 :: waiting_all s') by by rewrite <- P.
    apply elem_of_cons in R' as [->|R']; [done|]. exfalso.
    rewrite P in N. cbn [map] in N. apply NoDup_cons in N as [N _]. apply N. rewrite I0, <- I. by apply list_elem_of_fmap_2.
  - destruct C as [_ C]. exfalso. apply C. rewrite <- I. by apply list_elem_of_fmap_2.
Qed.

Lemma settled id x p :
  dget (px_futures p) id = Some None -> dget (px_futures (settle id x p)) id = Some (Some x).
Proof. intros H. unfold settle. rewrite H. cbn [px_futures with_futures]. apply dget_dset_eq. Qed.

Lemma settled_other id x p id' : id' <> id -> dget (px_futures (settle id x p)) id' = dget (px_futures p) id'.
Proof.
  intros N. unfold settle. destruct (dget (px_futures p) id) as [[]|]; try done. cbn [px_futures with_futures]. by apply dget_dset_ne.
Qed.

Lemma settled_parts id x p :
  px_sched (settle id x p) = px_sched p /\ px_stmts (settle id x p) = px_stmts p /\ px_on_demand (settle id x p) = px_on_demand p.
Proof. unfold settle. by repeat case_match. Qed.

Lemma plan_or_none r b :
  dwf (endpoints (config b)) -> payload_ok r ->
  exists p b1, (if failover then in_fail (plan (view b) now r) else mret no_plan) b = (Ret p, b1)
    /\ kept b b1 /\ bk_proxy b1 = bk_proxy b
    /\ match fp_target p with
       | Some t => may_reroute (view b) now (bk_fail b) r t
       | None => refused_here b r
       end.
Proof.
  intros W [P _]. unfold refused_here. destruct failover.
  - destruct (plan_planned (view b) now r (bk_fail b) W P) as (p & s' & E & _ & _ & _ & _ & T & _).
    pose proof (plan_config (view b) r (bk_fail b)) as C. unfold in_fail. rewrite E in *. cbn [snd] in C.
    destruct C as (C1 & C2 & C3). exists p, (set_fail s' b). split; [done|]. split; [by split|]. split; [done|].
    destruct (fp_target p) as [t|]; [by apply T|]. intros _ t R. by apply T in R.
  - exists no_plan, b. by split_and!.
Qed.

Lemma kept_proxy p b :
  running_all (px_sched p) = running_all (sched b) -> px_on_demand p = px_on_demand (bk_proxy b) -> kept b (set_proxy p b).
Proof. intros R O. split; try done. unfold health_view. cbn [bk_proxy set_proxy]. by rewrite O. Qed.

Lemma apply_returns h r t b tc :
  dget (endpoints (config b)) t = Some tc ->
  exists b', in_fail (Failover.apply h r t) b
    = (Ret (moved r (Some (normalize_endpoint (hs_roles h) (r_endpoint r))) (r_spilled_from r) t (context_per_slot tc)), b')
    /\ kept b b' /\ bk_proxy b' = bk_proxy b.
Proof.
  intros E. unfold in_fail, Failover.apply. rewrite run_get. rewrite E, run_modify. eexists. split; [reflexivity|].
  split; [by split|done].
Qed.

Lemma kept_refusal h r p b : kept b (set_fail (record_refusal h r p (bk_fail b)) b).
Proof. unfold record_refusal. by destruct (fp_refusal_code p). Qed.

(** The end of a request that is not moved, whose copy has left the queue. *)
Lemma answers_down ep reason r b b0 text s1 :
  refused_here b r -> outage_text ep reason text -> kept b b0 -> sched b0 = s1 -> sched_ok s1 ->
  waiting_all (sched b) ≡ₚ r :: waiting_all s1 -> futures b0 = futures b ->
  px_stmts (bk_proxy b0) = (px_stmts (bk_proxy b) ++ persist_expire (r_request_id r))%list ->
  let b' := set_proxy (resolve_error r text no_extras (bk_proxy b0)) b0 in
  kept b b' /\ sched_ok (sched b')
  /\ (exists rest, waiting_all (sched b) ≡ₚ r :: rest /\ waiting_all (sched b') ≡ₚ rest)
  /\ (forall id, id <> r_request_id r \/ is_Some (@None QueuedRequest) -> dget (futures b') id = dget (futures b) id)
  /\ refused_here b r /\ px_stmts (bk_proxy b') = (px_stmts (bk_proxy b) ++ persist_expire (r_request_id r))%list
  /\ answered_down ep reason r b b'.
Proof.
  intros RH O K E S P FU ST. cbv zeta. unfold resolve_error. cbn [bk_proxy set_proxy].
  destruct (settled_parts (r_request_id r) (error_payload (r_request_id r) text no_extras) (bk_proxy b0)) as (E1 & E2 & E3).
  split; [etransitivity; [exact K|]; apply kept_proxy; [by rewrite E1|by rewrite E3]|]. rewrite E1, E2, E.
  split; [exact S|]. split; [by exists (waiting_all s1)|]. split; [|split; [done|split; [done|]]].
  - intros id [NE|[? ?]]; [|done]. by rewrite settled_other, FU.
  - intros PE. exists text. split; [done|]. apply settled. by rewrite FU.
Qed.

Lemma release_one_fate ep reason r b :
  sched_ok (sched b) -> NoDup (map r_request_id (waiting_all (sched b))) -> r ∈ waiting_all (sched b) -> payload_ok r ->
  dwf (endpoints (config b)) ->
  exists o b', release_one ep reason r b = (Ret tt, b') /\ kept b b' /\ sched_ok (sched b')
    /\ (exists rest, waiting_all (sched b) ≡ₚ r :: rest /\ waiting_all (sched b') ≡ₚ option_list o ++ rest)
    /\ (forall id, id <> r_request_id r \/ is_Some o -> dget (futures b') id = dget (futures b) id)
    /\ match o with
       | Some r' => moved_on b r r' /\ px_stmts (bk_proxy b') = px_stmts (bk_proxy b)
       | None => refused_here b r /\ px_stmts (bk_proxy b') = (px_stmts (bk_proxy b) ++ persist_expire (r_request_id r))%list
                 /\ answered_down ep reason r b b'
       end.
Proof.
  intros S N R P W. unfold Breaker.release_one. rewrite run_get. cbv zeta.
  destruct (plan_or_none r b W P) as (p & b1 & E & K & F & T). rewrite run_bind, E. clear E.
  destruct (cancel_one (r_request_id r) (sched b) r S N R eq_refl) as (S1 & R1 & P1).
  set (s1 := (cancel (r_request_id r) (sched b)).2) in *.
  assert (K2 : kept b (set_proxy (with_sched s1 (bk_proxy b1)) b1)).
  { etransitivity; [exact K|]. apply kept_proxy; cbn; by rewrite F. }
  destruct (fp_target p) as [t|].
  - unfold take_out, in_proxy. rewrite run_modify. rewrite F. fold s1.
    rewrite F in K2. set (b2 := set_proxy _ b1) in *.
    destruct T as (T1 & T2 & T3 & T4 & T5 & tc & f & T6 & T7 & T8).
    destruct (apply_returns (view b) r t b2 tc) as (b3 & E & K3 & F3); [by rewrite (kp_endpoints _ _ K2)|].
    rewrite run_bind, E. clear E. set (r1 := moved r _ _ t _).
    destruct (enqueue_appends r1 s1 S1 P) as (n & c & s' & E & S' & W' & RN & _).
    unfold in_sched. rewrite run_bind, F3. cbn [bk_proxy b2 set_proxy px_sched with_sched]. rewrite E.
    exists (Some (with_cost r1 n c)). eexists. split; [reflexivity|].
    split; [etransitivity; [exact K2|]; etransitivity; [exact K3|]; etransitivity; [apply (kept_proxy (with_sched s' (with_sched s1 (bk_proxy b))))|apply kept_proxy];
            cbn; rewrite ?F3; cbn; congruence|].
    cbn. split; [exact S'|]. split; [by exists (waiting_all s1)|]. split; [done|].
    split; [|done]. exists t, (context_per_slot tc), n, c. split; [|done]. split_and!; try done. by exists tc, f.
  - unfold take_out, in_proxy. rewrite !run_modify. rewrite F. fold s1. rewrite F in K2. cbn [bk_proxy set_proxy].
    set (b2 := set_proxy (Completion.submit _ _) _).
    assert (K3 : kept b b2) by (etransitivity; [exact K2|]; by apply kept_proxy).
    exists None. destruct (str_truthy (fp_refusal_code p)).
    + rewrite run_get, run_modify. eexists. split; [reflexivity|].
      eapply (answers_down ep reason r b (set_fail _ b2) _ s1); [done|by eexists| |done..]. etransitivity; [exact K3|]. apply kept_refusal.
    + eexists. split; [reflexivity|]. eapply (answers_down ep reason r b b2 _ s1); [done| |done..]. exists "". by rewrite sapp_nil_r.
Qed.

(** ** The whole queue *)

Definition Fate : Type := QueuedRequest * option QueuedRequest.

(** The requests that were answered. *)
Definition released (fates : list Fate) : list QueuedRequest :=
  omap (fun f => match f.2 with None => Some f.1 | Some _ => None end) fates.

Definition fate (ep reason : string) (b b' : Breaker) (f : Fate) : Prop :=
  match f.2 with
  | Some r' => moved_on b f.1 r'
  | None => refused_here b f.1 /\ answered_down ep reason f.1 b b'
  end.

Lemma moved_on_kept b b1 r r' : kept b b1 -> moved_on b1 r r' -> moved_on b r r'.
Proof. intros K (t & ctx & n & c & M & E). exists t, ctx, n, c. split; [by apply (may_reroute_kept b b1 r t K)|done]. Qed.

Lemma refused_here_kept b b1 r : kept b b1 -> refused_here b1 r -> refused_here b r.
Proof. intros K H F t M. apply (H F t). by apply (may_reroute_kept b b1 r t K). Qed.

Lemma moved_on_id b r r' : moved_on b r r' -> r_request_id r' = r_request_id r.
Proof. by intros (t & ctx & n & c & _ & ->). Qed.

Lemma released_ids fates : map r_request_id (released fates) ⊆ map r_request_id (map fst fates).
Proof.
  induction fates as [|[r [r'|]] fates IH]; intros x H; [done| |].
  - right. by apply IH.
  - change (x ∈ r_request_id r :: map r_request_id (released fates)) in H.
    apply elem_of_cons in H as [->|H]; [by left|right; by apply IH].
Qed.

(** The fate of one request, seen from before and after the others. *)
Lemma fate_later ep reason b b1 b' f (ids : list string) :
  kept b b1 -> (forall id, id ∈ ids -> dget (futures b1) id = dget (futures b) id) -> r_request_id f.1 ∈ ids ->
  fate ep reason b1 b' f -> fate ep reason b b' f.
Proof.
  intros K F I. unfold fate. destruct (f.2); [by apply moved_on_kept|]. intros [H A]. split; [by eapply refused_here_kept|].
  intros P. apply A. by rewrite F.
Qed.

Lemma release_all_fates ep reason rs : forall b rest,
  sched_ok (sched b) -> waiting_all (sched b) ≡ₚ rs ++ rest -> NoDup (map r_request_id (waiting_all (sched b))) ->
  Forall payload_ok rs -> dwf (endpoints (config b)) ->
  exists fates b', release_all ep reason rs b = (Ret tt, b') /\ map fst fates = rs /\ kept b b' /\ sched_ok (sched b')
    /\ waiting_all (sched b') ≡ₚ omap snd fates ++ rest
    /\ (forall id, id ∉ map r_request_id (released fates) -> dget (futures b') id = dget (futures b) id)
    /\ px_stmts (bk_proxy b') = (px_stmts (bk_proxy b) ++ concat (map (fun r => persist_expire (r_request_id r)) (released fates)))%list
    /\ Forall (fate ep reason b b') fates.
Proof.
  induction rs as [|r rs IH]; intros b rest S P N O W.
  - exists [], b. split_and!; try done. by rewrite app_nil_r.
  - apply Forall_cons in O as [O OS]. assert (R : r ∈ waiting_all (sched b)) by (rewrite P; by left).
    destruct (release_one_fate ep reason r b S N R O W) as (o & b1 & E & K & S1 & (rest1 & P1 & P2) & F & D).
    unfold Breaker.release_all. cbn [se_fold]. rewrite run_bind, E.
    assert (PR : rest1 ≡ₚ rs ++ rest) by (apply (Permutation_cons_inv (a := r)); by rewrite <- P1, P).
    rewrite P in N. cbn [map app] in N. apply NoDup_cons in N as [NR N].
    assert (NO : NoDup (map r_request_id (waiting_all (sched b1)))).
    { rewrite P2, PR. destruct o as [r'|]; [|done]. change (NoDup (r_request_id r' :: map r_request_id (rs ++ rest))). rewrite (moved_on_id _ _ _ (proj1 D)). by constructor. }
    destruct (IH b1 (option_list o ++ rest)%list S1) as (fates & b' & E' & M & K' & S' & P' & F' & ST & A);
      [rewrite P2, PR; solve_Permutation|done|done|by rewrite (kp_endpoints _ _ K)|].
    fold (release_all ep reason rs). rewrite E'. exists ((r, o) :: fates), b'.
    assert (NI : r_request_id r ∉ map r_request_id (map fst fates)).
    { rewrite M. intros H. apply NR. rewrite map_app. apply elem_of_app. by left. }
    assert (NJ : r_request_id r ∉ map r_request_id (released fates)) by (intros H; by apply NI, released_ids).
    split; [done|]. split; [cbn; by rewrite M|]. split; [by etransitivity|]. split; [done|].
    split; [rewrite P'; destruct o; cbn [omap list_omap snd option_list app]; [solve_Permutation|done]|].
    split; [|split].
    + intros id H. rewrite F'; [apply F|]; destruct o; cbn in H.
      * right. by eexists.
      * left. intros ->. apply H. by left.
      * exact H.
      * intros G. apply H. by right.
    + rewrite ST. destruct o; [by rewrite (proj2 D)|]. rewrite (proj1 (proj2 D)). cbn [released omap list_omap snd fst map concat].
      by rewrite <- app_assoc.
    + constructor.
      * unfold fate. destruct o; cbn [fst snd]; [apply D|]. destruct D as (D1 & _ & D2). split; [done|].
        intros PE. destruct (D2 PE) as (text & T & G). exists text. split; [done|]. by rewrite F'.
      * rewrite Forall_forall in A |- *. intros f H.
        eapply (fate_later _ _ b b1 b' f (map r_request_id (map fst fates))); [done| |by do 2 apply list_elem_of_fmap_2|by apply A].
        intros id I. apply F. left. intros ->. done.
Qed.

Definition fast_bands : list PriorityBand := [INTERACTIVE; FOREGROUND].

(** The queue of an endpoint: the two fast bands, and the background band. *)
Lemma queued_split s ep :
  exists rest, waiting_all s ≡ₚ queued_requests s ep fast_bands ++ rest.
Proof.
  unfold queued_requests. destruct (dget (sc_queues s) ep) as [q|] eqn:E; [|by exists (waiting_all s)].
  destruct (waiting_put ep q q s E) as (rest & P & _). exists (bq_reqs (band_of q BACKGROUND) ++ rest)%list.
  rewrite P. unfold eq_reqs, all_bands, fast_bands, bq_reqs. cbn [map concat]. rewrite !app_nil_r, <- !app_assoc. done.
Qed.

(** The state a release plans on: the degraded mode brought up to date. *)
Definition refreshed (b : Breaker) : Breaker :=
  if failover then set_fail (Failover.refresh (view b) (sched b) now (bk_fail b)) b else b.

(** C11 When an endpoint goes down, every interactive or foreground request that
    waits for it is dealt with, once: it is moved to the stand-in of the endpoint
    exactly where every gate of the failover is open, as it was but for its
    endpoint and where it came from; otherwise it leaves the queue, its caller is
    told that the backend is unavailable and its row is deleted.  Nothing that
    runs is stopped, no other waiting request and no other caller is touched.  This
    is so where no two waiting requests share an identifier (which the code takes
    from the caller unchecked: of two, [cancel] removes the first it finds) and
    what the endpoint's queue holds can be costed, as [enqueue] did when it came
    in. *)
Theorem outage_strands_nobody ep reason b :
  let rs := queued_requests (sched b) ep fast_bands in
  sched_ok (sched b) -> NoDup (map r_request_id (waiting_all (sched b))) -> Forall payload_ok rs -> dwf (endpoints (config b)) ->
  exists fates b' rest, fast_fail_interactive roles cooldown failover now ep reason b = (Ret tt, b')
    /\ map fst fates = rs /\ Forall (fate ep reason (refreshed b) b') fates
    /\ waiting_all (sched b) ≡ₚ rs ++ rest /\ waiting_all (sched b') ≡ₚ omap snd fates ++ rest
    /\ running_all (sched b') = running_all (sched b) /\ sched_ok (sched b')
    /\ (forall id, id ∉ map r_request_id (released fates) -> dget (futures b') id = dget (futures b) id)
    /\ px_stmts (bk_proxy b') = (px_stmts (bk_proxy b) ++ concat (map (fun r => persist_expire (r_request_id r)) (released fates)))%list.
Proof.
  intros rs S N O W. destruct (queued_split (sched b) ep) as (rest & P). fold rs in P.
  assert (RF : bk_proxy (refreshed b) = bk_proxy b) by (unfold refreshed; by destruct failover).
  assert (W' : dwf (endpoints (config (refreshed b)))).
  { unfold refreshed. destruct failover; [|done]. cbn [bk_fail set_fail]. by rewrite refresh_config. }
  destruct (release_all_fates ep reason rs (refreshed b) rest) as (fates & b' & E & M & K & S' & P' & F & ST & A);
    rewrite ?RF; try done.
  exists fates, b', rest. unfold fast_fail_interactive. rewrite run_modify. fold (refreshed b). rewrite run_get, RF.
  rewrite RF in ST. split_and!; try done.
  - rewrite (kp_running _ _ K). by rewrite RF.
  - intros id H. rewrite (F id H). by rewrite RF.
Qed.
End Release.

(** ** The circuit follows the evidence *)

(** A pass of the poller over one endpoint: what discovery gave, and what
    [/health] answers if it is asked. *)
Record Pass := mkPass { ps_ep : string; ps_found : bool; ps_alive : bool; ps_now : Q }.

(** No sign of life. *)
Definition silent (p : Pass) : bool := negb (ps_found p || ps_alive p).

Definition circuit_step (threshold : Z) (c : Circuit) (p : Pass) : Circuit :=
  if ps_found p then fresh_circuit
  else if negb (ci_healthy c) then if ps_alive p then fresh_circuit else c
  else let n := (ci_failures c + 1)%Z in
       if (threshold <=? n)%Z
       then if ps_alive p then mkCircuit true 0 (ci_since c) else mkCircuit false n (Some (ps_now p))
       else mkCircuit true n (ci_since c).

(** A part of the state outside the failover and, but for the on-demand leases, the
    proxy, and a computation that leaves it alone, whatever becomes of it. *)
Class Outside {P} (part : Breaker -> P) := {
  outside_proxy : forall x b, px_on_demand x = px_on_demand (bk_proxy b) -> part (set_proxy x b) = part b;
  outside_fail : forall x b, part (set_fail x b) = part b
}.

#[export] Instance outside_health : Outside bk_health.
Proof. by split. Qed.
#[export] Instance outside_leases : Outside (fun b => px_on_demand (bk_proxy b)).
Proof. by split. Qed.
#[export] Instance outside_cooldown : Outside (fun b => (bk_failure_times b, bk_cooldown_until b, bk_cooldown_trips b)).
Proof. by split. Qed.

Section Aloof.
Context {P} (part : Breaker -> P) `{O : !Outside part}.

Abbreviation aloof := (leaves part).

Lemma aloof_proxy f : (forall p, px_on_demand (f p) = px_on_demand p) -> aloof (in_proxy f).
Proof. intros F b. apply outside_proxy, F. Qed.
Lemma aloof_error r e x : aloof (in_proxy (resolve_error r e x)).
Proof. apply aloof_proxy. intros p. unfold resolve_error, settle. by case_match; [case_match|]. Qed.
Lemma aloof_modify_fail f : aloof (se_modify (fun b => set_fail (f b) b)).
Proof. intros b. apply outside_fail. Qed.
Lemma aloof_fail {A} (m : SE FailState A) : aloof (in_fail m).
Proof. intros b. unfold in_fail. destruct (m (bk_fail b)). apply outside_fail. Qed.
Lemma aloof_sched {A} (m : SE Sched A) : aloof (in_sched m).
Proof. intros b. unfold in_sched. destruct (m _). by apply outside_proxy. Qed.
#[local] Hint Extern 1 (forall p, px_on_demand _ = px_on_demand p) => reflexivity : roadstead.
#[local] Hint Resolve aloof_proxy aloof_error aloof_fail aloof_sched aloof_modify_fail : roadstead.

Context (roles : dict string string) (cooldown : CooldownConf) (failover : bool) (now : Q).

Lemma release_one_aloof ep reason r : aloof (release_one roles cooldown failover now ep reason r).
Proof.
  apply leaves_get. intros b. cbv zeta. apply leaves_bind; [auto with roadstead|]. intros p.
  destruct (fp_target p) as [t|]; (apply leaves_bind; [by apply aloof_proxy|]); intros _;
    (apply leaves_bind; [auto with roadstead|]); intros ?; [apply leaves_bind; auto with roadstead|].
  destruct (str_truthy _); [|auto with roadstead]. apply leaves_get. intros b'. apply leaves_bind; auto with roadstead.
Qed.

Lemma fast_fail_aloof ep reason : aloof (fast_fail_interactive roles cooldown failover now ep reason).
Proof.
  apply leaves_bind; [intros b; destruct failover; [apply outside_fail|done]|]. intros _. apply leaves_get. intros b.
  apply leaves_fold. intros _ r _. apply release_one_aloof.
Qed.
End Aloof.

Section Circuits.
Context (roles : dict string string) (cooldown : CooldownConf) (health_fail_threshold : Z) (failover : bool).

Definition pass (p : Pass) : SE Breaker unit :=
  update_endpoint_health roles cooldown health_fail_threshold failover (ps_now p) (ps_ep p) (ps_found p) (ps_alive p).

(** The state after a list of passes, whether or not one raised. *)
Definition passed (ps : list Pass) (b : Breaker) : Breaker := foldl (fun b p => (pass p b).2) b ps.

Lemma circuit_set ep c b ep' : circuit_of (set_circuit ep c b) ep' = if decide (ep = ep') then c else circuit_of b ep'.
Proof. unfold circuit_of. cbn [bk_health set_circuit]. rewrite dget_dset. by case_decide. Qed.

Lemma circuit_aloof {A} (m : SE Breaker A) b ep : leaves bk_health m -> circuit_of (m b).2 ep = circuit_of b ep.
Proof. intros M. unfold circuit_of. by rewrite M. Qed.

(** What one pass makes of every circuit. *)
Lemma pass_circuit p b ep :
  circuit_of (pass p b).2 ep
  = if decide (ps_ep p = ep) then circuit_step health_fail_threshold (circuit_of b ep) p else circuit_of b ep.
Proof.
  unfold pass, update_endpoint_health. rewrite run_modify, run_get. cbv zeta.
  set (b0 := match dget (bk_health b) (ps_ep p) with None => _ | Some _ => _ end).
  assert (I : forall e, circuit_of b0 e = circuit_of b e).
  { intros e. unfold b0. destruct (dget (bk_health b) (ps_ep p)) eqn:E; [done|]. rewrite circuit_set. case_decide; [|done].
    subst. unfold circuit_of. by rewrite E. }
  assert (SET : forall c, circuit_of (set_circuit (ps_ep p) c b0) ep = if decide (ps_ep p = ep) then c else circuit_of b ep)
    by (intros c; by rewrite circuit_set, I).
  unfold circuit_step. rewrite I. clearbody b0. destruct (decide (ps_ep p = ep)) as [->|NE].
  - destruct (ps_found p); [destruct (ci_healthy _); apply SET|].
    destruct (ci_healthy _); cbn [negb].
    + destruct (_ <=? _)%Z; [|apply SET]. destruct (ps_alive p); cbn [negb]; [apply SET|].
      rewrite run_modify, circuit_aloof by apply fast_fail_aloof, _. apply SET.
    + destruct (ps_alive p); [apply SET|apply I].
  - destruct (ps_found p); [destruct (ci_healthy _); apply SET|].
    destruct (ci_healthy _); cbn [negb].
    + destruct (_ <=? _)%Z; [|apply SET]. destruct (ps_alive p); cbn [negb]; [apply SET|].
      rewrite run_modify, circuit_aloof by apply fast_fail_aloof, _. apply SET.
    + destruct (ps_alive p); [apply SET|apply I].
Qed.

Definition mine (ep : string) (ps : list Pass) : list Pass := List.filter (fun p => String.eqb (ps_ep p) ep) ps.

Abbreviation steps := (foldl (circuit_step health_fail_threshold)).

Lemma passed_circuit ep ps : forall b, circuit_of (passed ps b) ep = steps (circuit_of b ep) (mine ep ps).
Proof.
  induction ps as [|p ps IH]; intros b; [done|]. change (passed (p :: ps) b) with (passed ps (pass p b).2).
  rewrite IH, pass_circuit. cbn [mine List.filter].
  destruct (String.eqb_spec (ps_ep p) ep) as [E|E]; [by rewrite decide_True|by rewrite decide_False].
Qed.

(** What an open or a closed circuit remembers of its passes. *)
Definition remembers (h : list Pass) (c : Circuit) : Prop :=
  if ci_healthy c then
    (0 <= ci_failures c < health_fail_threshold)%Z
    /\ exists h0 run, h = (h0 ++ run)%list /\ Z.of_nat (length run) = ci_failures c /\ Forall (fun p => ps_found p = false) run
  else exists h0 run p h1, h = (h0 ++ run ++ p :: h1)%list /\ (health_fail_threshold <= Z.of_nat (length run) + 1)%Z
         /\ Forall (fun p => ps_found p = false) run /\ Forall (fun p => silent p = true) (p :: h1).

Lemma silent_iff p : silent p = true <-> ps_found p = false /\ ps_alive p = false.
Proof. unfold silent. destruct (ps_found p), (ps_alive p); cbn; naive_solver. Qed.

Lemma step_remembers h c p :
  (0 < health_fail_threshold)%Z -> remembers h c -> remembers (h ++ [p])%list (circuit_step health_fail_threshold c p).
Proof.
  intros T M. assert (F : remembers (h ++ [p])%list fresh_circuit).
  { split; [cbn; lia|]. exists (h ++ [p])%list, []. by rewrite app_nil_r. }
  unfold remembers, circuit_step in *. destruct (ps_found p) eqn:PF; [done|].
  destruct c as [[] n s]; cbn in M |- *.
  - destruct M as (B & h0 & run & -> & L & R). destruct (Z.leb_spec health_fail_threshold (n + 1)).
    + destruct (ps_alive p) eqn:PA; cbn.
      * split; [lia|]. exists ((h0 ++ run) ++ [p])%list, []. by rewrite app_nil_r.
      * exists h0, run, p, []. rewrite <- app_assoc. split; [done|]. split; [lia|]. split; [done|].
        constructor; [by apply silent_iff|done].
    + cbn. split; [lia|]. exists h0, (run ++ [p])%list. rewrite <- app_assoc, length_app. cbn. split; [done|]. split; [lia|].
      apply Forall_app. by split; [|constructor].
  - destruct (ps_alive p) eqn:PA; [done|]. destruct M as (h0 & run & x & h1 & E & L & R & S). cbn.
    exists h0, run, x, (h1 ++ [p])%list. rewrite E, <- !app_assoc. cbn.
    split; [done|]. split; [done|]. split; [done|]. rewrite app_comm_cons. apply Forall_app. split; [done|].
    constructor; [by apply silent_iff|done].
Qed.

Lemma remembered h : (0 < health_fail_threshold)%Z -> remembers h (steps fresh_circuit h).
Proof.
  intros T. induction h as [|p h IH] using rev_ind; [split; [cbn; lia|by exists [], []]|].
  rewrite foldl_app. by apply step_remembers.
Qed.

(** Silence adds up. *)
Lemma silence_trips run : forall c,
  (0 <= ci_failures c)%Z -> Forall (fun p => silent p = true) run ->
  ci_healthy (steps c run) = false
  \/ (ci_healthy c = true /\ (ci_failures c + Z.of_nat (length run) < health_fail_threshold)%Z) \/ run = [].
Proof.
  induction run as [|p run IH]; intros c B S; [by right; right|]. apply Forall_cons in S as [P S]. apply silent_iff in P as [PF PA].
  cbn [foldl]. set (c' := circuit_step health_fail_threshold c p).
  assert (C : (ci_healthy c' = false /\ (0 <= ci_failures c')%Z)
     \/ (ci_healthy c = true /\ ci_failures c' = (ci_failures c + 1)%Z /\ (ci_failures c' < health_fail_threshold)%Z)).
  { unfold c', circuit_step. rewrite PF, PA. destruct (ci_healthy c) eqn:E; cbn [negb]; [|by left].
    destruct (Z.leb_spec health_fail_threshold (ci_failures c + 1)); cbn; [left; split; [done|lia]|by right]. }
  destruct (IH c') as [H|[(H1 & H2)| ->]]; [destruct C as [[_ ?]|(_ & ? & _)]; lia|done|by left| |].
  - destruct C as [[C _]|(C1 & C2 & C3)]; [congruence|]. right. left. split; [done|]. cbn [length]. lia.
  - destruct C as [[C _]|(C1 & C2 & C3)]; [by left|]. right. left. split; [done|]. cbn. lia.
Qed.

Lemma failures_counted h : (0 <= ci_failures (steps fresh_circuit h))%Z.
Proof.
  induction h as [|p h IH] using rev_ind; [done|]. rewrite foldl_app. cbn [foldl].
  generalize dependent (steps fresh_circuit h). intros c IH. unfold circuit_step.
  destruct (ps_found p), (ci_healthy c), (ps_alive p), (health_fail_threshold <=? ci_failures c + 1)%Z; cbn; lia.
Qed.

(** C14 The circuit of an endpoint follows what its own passes saw, whatever happens
    to the others and whether or not a release raised.  It opens only after as
    many failed discoveries in a row as the threshold asks for, the last of them
    with no answer to [/health] either, and stays open only over silence; as many
    silent passes in a row open it; and any pass with a sign of life leaves it
    closed. *)
Theorem circuit_follows_evidence ep ps b :
  (0 < health_fail_threshold)%Z -> circuit_of b ep = fresh_circuit ->
  (ci_healthy (circuit_of (passed ps b) ep) = false ->
     exists h0 run p h1, mine ep ps = (h0 ++ run ++ p :: h1)%list /\ (health_fail_threshold <= Z.of_nat (length run) + 1)%Z
       /\ Forall (fun p => ps_found p = false) run /\ Forall (fun p => silent p = true) (p :: h1))
  /\ (forall h0 run, mine ep ps = (h0 ++ run)%list -> Forall (fun p => silent p = true) run ->
        (health_fail_threshold <= Z.of_nat (length run))%Z -> ci_healthy (circuit_of (passed ps b) ep) = false)
  /\ (forall h0 p, mine ep ps = (h0 ++ [p])%list -> silent p = false -> ci_healthy (circuit_of (passed ps b) ep) = true).
Proof.
  intros T F. rewrite passed_circuit, F. pose proof (remembered (mine ep ps) T) as M. split_and!.
  - intros H. unfold remembers in M. by rewrite H in M.
  - intros h0 run E S L. rewrite E, foldl_app in *. destruct (silence_trips run (steps fresh_circuit h0)) as [H|[[_ H]| ->]]; try done.
    + apply failures_counted.
    + pose proof (failures_counted h0). lia.
    + cbn in L. lia.
  - intros h0 p E S. unfold remembers in M. destruct (ci_healthy _) eqn:H; [done|]. exfalso.
    destruct M as (k0 & run & x & h1 & E' & _ & _ & S'). rewrite E in E'.
    assert (p ∈ x :: h1); [|rewrite Forall_forall in S'; by rewrite S' in S].
    destruct h1 as [|y h1 _] using rev_ind.
    + rewrite app_assoc in E'. apply app_inj_tail in E' as [_ ->]. by left.
    + rewrite app_comm_cons, !app_assoc in E'. apply app_inj_tail in E' as [_ ->]. rewrite app_comm_cons. apply elem_of_app. right. by left.
Qed.
End Circuits.

(** ** The cooldown is earned *)

(** A failed dispatch, as it is reported. *)
Record Report := mkReport { rp_endpoint : string; rp_exc : BackendExc; rp_best_effort : bool; rp_now : Q }.

Section Cooldown.
Context (roles : dict string string) (cooldown : CooldownConf) (failover : bool) (ep : string).

Definition report (r : Report) : SE Breaker unit :=
  record_dispatch_failure roles cooldown failover (rp_now r) (rp_endpoint r) (rp_exc r) (rp_best_effort r).

(** The state after a list of reports, whether or not one raised. *)
Definition reported (rs : list Report) (b : Breaker) : Breaker := foldl (fun b r => (report r b).2) b rs.

(** A failure the backend answers for: its own fault, on a deadline it could have met. *)
Definition counts_for (r : Report) : bool :=
  (String.eqb (normalize_endpoint roles (rp_endpoint r)) ep && backend_fault (rp_exc r) && negb (rp_best_effort r))%bool.

Definition faults (rs : list Report) : list Report := List.filter counts_for rs.

(** Those of them in the window that ends at [t]. *)
Definition recent (t : Q) (rs : list Report) : list Report :=
  List.filter (fun r => negb (Qltb (rp_now r) (t - cd_window_s cooldown))) (faults rs).

Definition times_at (b : Breaker) : list Q := default [] (dget (bk_failure_times b) ep).
Definition trips_at (b : Breaker) : Z := default 0%Z (dget (bk_cooldown_trips b) ep).

Lemma drop_before_suffix c l : exists k, l = (k ++ drop_before c l)%list.
Proof.
  induction l as [|t l [k IH]]; [by exists []|]. cbn [drop_before]. destruct (Qltb t c); [|by exists []].
  exists (t :: k). cbn. by rewrite <- IH.
Qed.

Lemma drop_before_recent c l : StronglySorted Qle l -> Forall (fun t => Qltb t c = false) (drop_before c l).
Proof.
  induction l as [|t l IH]; intros S; [done|]. apply StronglySorted_inv in S as [S F]. cbn [drop_before].
  destruct (Qltb t c) eqn:E; [by apply IH|]. constructor; [done|]. eapply Forall_impl; [exact F|]. intros x L. cbn in L.
  destruct (Qltb_spec t c); [done|]. destruct (Qltb_spec x c); [lra|done].
Qed.

Lemma sorted_suffix k l : StronglySorted Qle (k ++ l)%list -> StronglySorted Qle l.
Proof. induction k as [|t k IH]; [done|]. intros [S _]%StronglySorted_inv. by apply IH. Qed.

Lemma sorted_prefix k l : StronglySorted Qle (k ++ l)%list -> StronglySorted Qle k.
Proof.
  induction k as [|t k IH]; intros S; [constructor|]. apply StronglySorted_inv in S as [S F].
  constructor; [by apply IH|]. by apply Forall_app in F as [F _].
Qed.

(** What one report does to the tables of the endpoint. *)
Lemma report_other r b :
  counts_for r = false -> times_at (report r b).2 = times_at b /\ trips_at (report r b).2 = trips_at b
    /\ dget (bk_cooldown_until (report r b).2) ep = dget (bk_cooldown_until b) ep.
Proof.
  unfold counts_for, report, record_dispatch_failure. intros C. destruct (negb (_ || _)); [done|].
  destruct (backend_fault (rp_exc r)); cbn [negb andb] in *; [|done]. rewrite andb_true_r in C.
  destruct (rp_best_effort r); [done|]. rewrite andb_true_r in C. apply String.eqb_neq in C.
  rewrite run_get. cbv zeta. unfold times_at, trips_at.
  destruct (_ <? _)%Z; [cbn; by rewrite dget_dset_ne|]. rewrite !run_modify.
  destruct (cd_enforce cooldown); [|cbn; unfold plus_one; by rewrite !dget_dset_ne].
  rewrite run_modify.
  pose proof (fast_fail_aloof (fun b => (bk_failure_times b, bk_cooldown_until b, bk_cooldown_trips b)) roles cooldown failover (rp_now r)
                (normalize_endpoint roles (rp_endpoint r)) "circuit open") as A. unfold leaves in A.
  match goal with |- context [fast_fail_interactive _ _ _ _ _ _ ?b0] => specialize (A b0); injection A as A1 A2 A3 end.
  rewrite A1, A2, A3. cbn. unfold plus_one. by rewrite !dget_dset_ne.
Qed.

Lemma report_fault r b :
  (cd_shadow cooldown || cd_enforce cooldown)%bool = true -> counts_for r = true ->
  let times := drop_before (rp_now r - cd_window_s cooldown) (times_at b ++ [rp_now r])%list in
  let b' := (report r b).2 in
  if (Z.of_nat (length times) <? cd_allowed_fails cooldown)%Z
  then times_at b' = times /\ trips_at b' = trips_at b /\ dget (bk_cooldown_until b') ep = dget (bk_cooldown_until b) ep
  else times_at b' = [] /\ trips_at b' = (trips_at b + 1)%Z
       /\ dget (bk_cooldown_until b') ep
          = if cd_enforce cooldown then Some (rp_now r + cd_duration_s cooldown)%Q else dget (bk_cooldown_until b) ep.
Proof.
  unfold counts_for, report, record_dispatch_failure. intros E C. rewrite E. cbn [negb].
  apply andb_true_iff in C as [[C F]%andb_true_iff B]. apply String.eqb_eq in C. rewrite F, C. cbn [negb].
  destruct (rp_best_effort r); [done|]. rewrite run_get. cbv zeta. fold (times_at b). unfold trips_at.
  destruct (_ <? _)%Z; [cbn; unfold times_at; cbn; by rewrite dget_dset_eq|]. rewrite !run_modify.
  destruct (cd_enforce cooldown); [|cbn; unfold plus_one, times_at; cbn; by rewrite !dget_dset_eq].
  rewrite run_modify.
  pose proof (fast_fail_aloof (fun b => (bk_failure_times b, bk_cooldown_until b, bk_cooldown_trips b)) roles cooldown failover (rp_now r)
                ep "circuit open") as A. unfold leaves in A.
  match goal with |- context [fast_fail_interactive _ _ _ _ _ _ ?b0] => specialize (A b0); injection A as A1 A2 A3 end.
  unfold times_at. rewrite A1, A2, A3. cbn. unfold plus_one. by rewrite !dget_dset_eq.
Qed.

Definition in_window (c t : Q) : bool := negb (Qltb t c).

Lemma drop_filter c l : StronglySorted Qle l -> drop_before c l = List.filter (in_window c) l.
Proof.
  unfold in_window. induction l as [|t l IH]; intros S; [done|]. apply StronglySorted_inv in S as [S F].
  cbn [drop_before List.filter]. destruct (Qltb t c) eqn:E; cbn [negb]; [by apply IH|]. f_equal. symmetry.
  apply List.forallb_filter_id, forallb_forall. intros x I. rewrite Forall_forall in F.
  assert (L : (t <= x)%Q) by (apply F; by apply list_elem_of_In).
  destruct (Qltb_spec t c); [done|]. destruct (Qltb_spec x c); [lra|done].
Qed.

Lemma filter_again c c' l : (c' <= c)%Q -> List.filter (in_window c) (List.filter (in_window c') l) = List.filter (in_window c) l.
Proof.
  intros L. induction l as [|t l IH]; [done|]. cbn [List.filter]. unfold in_window at 2. destruct (Qltb_spec t c'); cbn [negb].
  - rewrite IH. unfold in_window at 2. destruct (Qltb_spec t c); [done|lra].
  - cbn [List.filter]. by rewrite IH.
Qed.

Lemma recent_times t rs : length (recent t rs) = length (List.filter (in_window (t - cd_window_s cooldown)) (map rp_now (faults rs))).
Proof.
  unfold recent, in_window. induction (faults rs) as [|r l IH]; [done|]. cbn [List.filter map].
  destruct (negb _); cbn; by rewrite IH.
Qed.

Lemma faults_sorted rs : StronglySorted Qle (map rp_now rs) -> StronglySorted Qle (map rp_now (faults rs)).
Proof.
  induction rs as [|r rs IH]; [done|]. cbn [map]. intros [S F]%StronglySorted_inv. cbn [faults List.filter].
  destruct (counts_for r); [|by apply IH]. cbn [map]. constructor; [by apply IH|]. rewrite Forall_forall in F |- *.
  intros x (y & -> & I)%list_elem_of_fmap. apply F, list_elem_of_fmap_2. apply list_elem_of_In, filter_In in I as [I _]. by apply list_elem_of_In.
Qed.

(** What the tables of the endpoint remember of the reports so far. *)
Record tables (rs : list Report) (b : Breaker) : Prop := {
  tb_suffix : exists k, map rp_now (faults rs) = (k ++ times_at b)%list;
  tb_count : (cd_allowed_fails cooldown * trips_at b + Z.of_nat (length (times_at b)) <= Z.of_nat (length (faults rs)))%Z;
  tb_until : forall u, dget (bk_cooldown_until b) ep = Some u ->
    cd_enforce cooldown = true
    /\ exists rs1 r rs2, rs = (rs1 ++ r :: rs2)%list /\ counts_for r = true /\ u = (rp_now r + cd_duration_s cooldown)%Q
       /\ (cd_allowed_fails cooldown <= Z.of_nat (length (recent (rp_now r) (rs1 ++ [r]))))%Z;
  tb_first : trips_at b = 0%Z -> times_at b = map rp_now (faults rs)
    \/ exists t, t ∈ map rp_now rs /\ times_at b = List.filter (in_window (t - cd_window_s cooldown)) (map rp_now (faults rs))
}.

Lemma faults_snoc rs r : faults (rs ++ [r])%list = (faults rs ++ if counts_for r then [r] else [])%list.
Proof. unfold faults. rewrite List.filter_app. cbn. by destruct (counts_for r). Qed.

Lemma suffix_in_window c k l : Forall (fun t => Qltb t c = false) l -> (length l <= length (List.filter (in_window c) (k ++ l)))%nat.
Proof.
  intros F. rewrite List.filter_app, length_app. rewrite (List.forallb_filter_id (in_window c) l); [lia|].
  apply forallb_forall. intros x I%list_elem_of_In. rewrite Forall_forall in F. unfold in_window. by rewrite F.
Qed.

Lemma report_silent rs b : (cd_shadow cooldown || cd_enforce cooldown)%bool = false -> reported rs b = b.
Proof.
  intros A. revert b. induction rs as [|r rs IH]; intros b; [done|]. change (reported (r :: rs) b) with (reported rs (report r b).2).
  rewrite IH. unfold report, record_dispatch_failure. by rewrite A.
Qed.

(** The list of times, with the new one, cut to the window. *)
Lemma first_times rs r b :
  StronglySorted Qle (map rp_now (rs ++ [r])%list) -> counts_for r = true -> tables rs b -> trips_at b = 0%Z ->
  drop_before (rp_now r - cd_window_s cooldown) (times_at b ++ [rp_now r])
  = List.filter (in_window (rp_now r - cd_window_s cooldown)) (map rp_now (faults (rs ++ [r]))).
Proof.
  intros S C [[k K] _ _ FT] Z. pose proof (faults_sorted _ S) as SF. rewrite faults_snoc, C, map_app in *. cbn [map] in *.
  rewrite drop_filter. 2: { rewrite K, <- app_assoc in SF. by eapply sorted_suffix. }
  destruct (FT Z) as [->|(t & I & ->)]; [done|]. rewrite !List.filter_app, filter_again; [done|].
  assert (L : (t <= rp_now r)%Q); [|lra].
  clear -S I. induction (map rp_now rs) as [|x l IH]; [by apply not_elem_of_nil in I|].
  apply StronglySorted_inv in S as [S F]. apply elem_of_cons in I as [->|I]; [|by apply IH].
  rewrite Forall_forall in F. apply F. cbn. apply elem_of_app. right. by left.
Qed.

Lemma report_tables rs r b :
  (cd_shadow cooldown || cd_enforce cooldown)%bool = true -> StronglySorted Qle (map rp_now (rs ++ [r])%list) ->
  (0 < cd_allowed_fails cooldown)%Z -> (0 <= trips_at b)%Z ->
  tables rs b -> tables (rs ++ [r])%list (report r b).2.
Proof.
  intros ARM S POS NN T. pose proof T as [[k K] C U FT].
  assert (U' : forall u, dget (bk_cooldown_until b) ep = Some u -> cd_enforce cooldown = true
    /\ exists rs1 x rs2, (rs ++ [r])%list = (rs1 ++ x :: rs2)%list /\ counts_for x = true /\ u = (rp_now x + cd_duration_s cooldown)%Q
       /\ (cd_allowed_fails cooldown <= Z.of_nat (length (recent (rp_now x) (rs1 ++ [x]))))%Z).
  { intros u H. destruct (U u H) as (En & rs1 & x & rs2 & -> & R). split; [done|]. exists rs1, x, (rs2 ++ [r])%list. by rewrite <- app_assoc. }
  destruct (counts_for r) eqn:CF.
  2: { destruct (report_other r b CF) as (E1 & E2 & E3). split; rewrite ?E1, ?E2, ?E3, ?faults_snoc, ?CF, ?app_nil_r; eauto.
       intros Z. destruct (FT Z) as [H|(t & I & H)]; [by left|]. right. exists t. split; [|done]. rewrite map_app. apply elem_of_app. by left. }
  pose proof (faults_sorted _ S) as SF. pose proof (report_fault r b ARM CF) as E. cbv zeta in E.
  set (times := drop_before _ _) in E. destruct (drop_before_suffix (rp_now r - cd_window_s cooldown) (times_at b ++ [rp_now r])) as [k' K'].
  fold times in K'. rewrite faults_snoc, CF, map_app in SF.
  assert (KT : map rp_now (faults (rs ++ [r])) = ((k ++ k') ++ times)%list).
  { rewrite faults_snoc, CF, map_app, K. cbn [map]. by rewrite <- app_assoc, K', app_assoc. }
  assert (LT : (length times <= 1 + length (times_at b))%nat).
  { apply (f_equal length) in K'. rewrite !length_app in K'. cbn in K'. lia. }
  assert (LF : length (faults (rs ++ [r])) = (1 + length (faults rs))%nat) by (rewrite faults_snoc, CF, length_app; cbn; lia).
  destruct (Z.ltb_spec (Z.of_nat (length times)) (cd_allowed_fails cooldown)) as [L|L]; destruct E as (E1 & E2 & E3).
  - split; rewrite ?E1, ?E2, ?E3; [by eexists|lia|done|]. intros Z. right. exists (rp_now r).
    split; [rewrite map_app; apply elem_of_app; right; by left|by apply first_times].
  - split; rewrite ?E1, ?E2, ?E3; [eexists; by rewrite app_nil_r|cbn [length]; lia| |lia].
    destruct (cd_enforce cooldown) eqn:EN; [|done]. intros u [= <-]. split; [done|]. exists rs, r, []. split; [done|]. split; [done|]. split; [done|].
    rewrite recent_times, KT. etransitivity; [exact L|]. apply inj_le, suffix_in_window.
    apply drop_before_recent. rewrite K in SF. rewrite <- app_assoc in SF. by eapply sorted_suffix.
Qed.

Lemma report_trips r b : (trips_at b <= trips_at (report r b).2)%Z.
Proof.
  destruct (counts_for r) eqn:CF; [|by destruct (report_other r b CF) as (_ & -> & _)].
  destruct (cd_shadow cooldown || cd_enforce cooldown)%bool eqn:ARM.
  - pose proof (report_fault r b ARM CF) as E. cbv zeta in E. destruct (_ <? _)%Z; destruct E as (_ & -> & _); lia.
  - by rewrite (report_silent [r] b ARM : (report r b).2 = b).
Qed.

Lemma reported_trips rs b : (trips_at b <= trips_at (reported rs b))%Z.
Proof.
  revert b. induction rs as [|r rs IH]; intros b; [done|]. change (reported (r :: rs) b) with (reported rs (report r b).2).
  etransitivity; [apply report_trips|apply IH].
Qed.

(** An endpoint no failure of which was ever reported. *)
Definition unblamed (b : Breaker) : Prop := times_at b = [] /\ trips_at b = 0%Z /\ dget (bk_cooldown_until b) ep = None.

Lemma reported_tables rs b :
  (cd_shadow cooldown || cd_enforce cooldown)%bool = true -> StronglySorted Qle (map rp_now rs) ->
  (0 < cd_allowed_fails cooldown)%Z -> unblamed b -> tables rs (reported rs b) /\ (0 <= trips_at (reported rs b))%Z.
Proof.
  intros ARM S POS (B1 & B2 & B3). pose proof (reported_trips rs b) as M. split; [|lia]. clear M.
  induction rs as [|r rs IH] using rev_ind.
  - cbn. split; rewrite ?B1, ?B2, ?B3; [by exists []|cbn; lia|done|by left].
  - unfold reported. rewrite foldl_app. cbn [foldl]. fold (reported rs b). apply report_tables; try done.
    + pose proof (reported_trips rs b). lia.
    + apply IH. rewrite map_app in S. by apply sorted_prefix in S.
Qed.

(** An endpoint is cooled only by its own faults, reported in the order of time.
    With neither switch on nothing is recorded.  Otherwise it is cooled only when
    the operator enforces it, until the duration after a fault with which as many
    faults as are needed lay in the window before; every trip has used up that
    many faults of its own; and as soon as that many lie in one window, there has
    been a trip.  A caller's fault, a deadline the caller made too short and a
    failure of another endpoint count for nothing. *)
Theorem cooled_only_by_faults rs b :
  StronglySorted Qle (map rp_now rs) -> (0 < cd_allowed_fails cooldown)%Z -> unblamed b ->
  let b' := reported rs b in
  let armed := (cd_shadow cooldown || cd_enforce cooldown)%bool in
  (armed = false -> b' = b)
  /\ (forall u, dget (bk_cooldown_until b') ep = Some u -> cd_enforce cooldown = true
        /\ exists rs1 r rs2, rs = (rs1 ++ r :: rs2)%list /\ counts_for r = true /\ u = (rp_now r + cd_duration_s cooldown)%Q
           /\ (cd_allowed_fails cooldown <= Z.of_nat (length (recent (rp_now r) (rs1 ++ [r]))))%Z)
  /\ (cd_allowed_fails cooldown * trips_at b' <= Z.of_nat (length (faults rs)))%Z
  /\ (armed = true -> forall rs1 r rs2, rs = (rs1 ++ r :: rs2)%list -> counts_for r = true ->
        (cd_allowed_fails cooldown <= Z.of_nat (length (recent (rp_now r) (rs1 ++ [r]))))%Z -> (0 < trips_at b')%Z).
Proof.
  intros S POS B b' armed. split; [by apply report_silent|]. destruct armed eqn:ARM.
  2: { unfold b'. rewrite report_silent by done. destruct B as (_ & -> & ->). split_and!; [done|lia|done]. }
  destruct (reported_tables rs b ARM S POS B) as [T _]. split; [apply T|]. split; [pose proof (tb_count _ _ T); unfold b'; lia|].
  intros _ rs1 r rs2 -> C L. unfold b'.
  assert (S1 : StronglySorted Qle (map rp_now (rs1 ++ [r])%list)).
  { change (r :: rs2) with ([r] ++ rs2)%list in S. rewrite app_assoc, map_app in S. by apply sorted_prefix in S. }
  assert (S0 : StronglySorted Qle (map rp_now rs1)) by (rewrite map_app in S1; by apply sorted_prefix in S1).
  destruct (reported_tables rs1 b ARM S0 POS B) as [T1 NN].
  change (r :: rs2) with ([r] ++ rs2)%list. unfold reported. rewrite !foldl_app. cbn [foldl]. fold (reported rs1 b).
  fold (reported rs2 (report r (reported rs1 b)).2). pose proof (reported_trips rs2 (report r (reported rs1 b)).2) as M.
  destruct (Z.eq_dec (trips_at (reported rs1 b)) 0%Z) as [E|NE].
  2: { pose proof (report_trips r (reported rs1 b)). lia. }
  pose proof (report_fault r (reported rs1 b) ARM C) as F. cbv zeta in F. rewrite (first_times rs1 r _ S1 C T1 E) in F.
  rewrite <- recent_times in F. destruct (Z.ltb_spec (Z.of_nat (length (recent (rp_now r) (rs1 ++ [r])))) (cd_allowed_fails cooldown)); [lia|].
  destruct F as (_ & F & _). lia.
Qed.
End Cooldown.

(** ** What discovery finds is believed everywhere *)

Section Capacity.

Abbreviation sched b := (px_sched (bk_proxy b)).
Abbreviation known b := (endpoints (sc_config (sched b))).

(** The three places that hold slot counts agree. *)
Record capacity_ok (b : Breaker) : Prop := {
  co_shared : endpoints (fs_config (bk_fail b)) = known b;
  co_cost : forall ep m c, dget (sc_cost (sched b)) ep = Some m -> dget (known b) ep = Some c -> cm_max_slots m = max_slots c;
  co_total : bm_total_capacity (sc_budgets (sched b)) = inject_Z (total_fleet_slots (sc_config (sched b)))
}.

Lemma edit_get ep f c k :
  dget (endpoints (edit_endpoint ep f c)) k = if decide (k = ep) then f <$> dget (endpoints c) k else dget (endpoints c) k.
Proof.
  cbn [edit_endpoint endpoints]. induction (endpoints c) as [|[x v] l IH]; [by case_decide|]. cbn [map dget fst snd].
  destruct (String.eqb_spec x ep) as [->|NE]; cbn [dget]; repeat case_decide; subst; try done; by rewrite ?decide_True in IH by done.
Qed.

Lemma edit_total ep f c : (forall e, max_slots (f e) = max_slots e) -> total_fleet_slots (edit_endpoint ep f c) = total_fleet_slots c.
Proof.
  intros H. unfold total_fleet_slots. cbn [edit_endpoint endpoints]. f_equal. rewrite map_map. apply map_ext. intros [k e]. cbn.
  by destruct (String.eqb k ep); cbn.
Qed.

Lemma recalculate_total m : bm_total_capacity (recalculate_rates m) = bm_total_capacity m.
Proof. unfold recalculate_rates. by repeat case_match. Qed.

Lemma resize_ok ep n b : capacity_ok b -> capacity_ok (resize ep n b).
Proof.
  intros [S C T]. unfold resize, edit_config. split; cbn.
  - by rewrite S.
  - intros k m c M K. change (dget (endpoints (edit_endpoint ep (with_slots n) (sc_config (sched b)))) k = Some c) in K.
    rewrite edit_get in K. unfold update_max_slots in M. destruct (dget (sc_cost (sched b)) ep) as [m0|] eqn:E.
    + rewrite dget_dset in M. destruct (decide (ep = k)) as [<-|NE].
      * injection M as <-. rewrite decide_True in K by done. destruct (dget (known b) ep); [|done]. by injection K as <-.
      * rewrite decide_False in K by done. by eapply C.
    + destruct (decide (k = ep)) as [->|NE]; [congruence|]. by eapply C.
  - unfold set_total_capacity. by rewrite recalculate_total.
Qed.

Lemma recontext_ok ep n b : capacity_ok b -> capacity_ok (edit_config (edit_endpoint ep (with_context n)) b).
Proof.
  intros [S C T]. unfold edit_config. split; cbn.
  - by rewrite S.
  - intros k m c M K. change (dget (endpoints (edit_endpoint ep (with_context n) (sc_config (sched b)))) k = Some c) in K.
    rewrite edit_get in K. case_decide; [|by eapply C]. destruct (dget (known b) k) as [c0|] eqn:E; [|done].
    injection K as <-. cbn. by eapply C.
  - change (bm_total_capacity (sc_budgets (sched b)) = inject_Z (total_fleet_slots (edit_endpoint ep (with_context n) (sc_config (sched b))))).
    by rewrite T, (edit_total ep (with_context n)).
Qed.

(** The configuration of an endpoint once a report is applied. *)
Definition discovered (report : CapacityReport) (c : EndpointConfig) : EndpointConfig :=
  match count_of (cr_slots report) with
  | Ret slots =>
      let c := match slots with Some n => with_slots n c | None => c end in
      match count_of (cr_context_per_slot report) with Ret (Some n) => with_context n c | _ => c end
  | Raise _ => c
  end.

Lemma with_slots_same c : with_slots (max_slots c) c = c.
Proof. by destruct c. Qed.
Lemma with_context_same c : with_context (context_per_slot c) c = c.
Proof. by destruct c. Qed.

Lemma slots_step ep slots b :
  capacity_ok b ->
  let b' := match slots with Some n => if bool_decide (slots_at b ep = Some n) then b else resize ep n b | None => b end in
  capacity_ok b' /\ forall k, dget (known b') k
    = if decide (k = ep) then (fun c => match slots with Some n => with_slots n c | None => c end) <$> dget (known b) k else dget (known b) k.
Proof.
  intros O. destruct slots as [n|]; cbv zeta; [|split; [done|]; intros k; case_decide; [by destruct (dget _ k)|done]].
  unfold slots_at. case_bool_decide as D.
  - split; [done|]. intros k. case_decide as E; [|done]. subst. destruct (dget (known b) ep) as [c|]; [|done].
    cbn in D |- *. injection D as <-. by rewrite with_slots_same.
  - split; [by apply resize_ok|]. intros k. apply edit_get.
Qed.

Lemma context_step ep ctx b :
  capacity_ok b ->
  let b' := match ctx with
            | Some n => if bool_decide (context_at b ep = Some n) then b else edit_config (edit_endpoint ep (with_context n)) b
            | None => b
            end in
  capacity_ok b' /\ forall k, dget (known b') k
    = if decide (k = ep) then (fun c => match ctx with Some n => with_context n c | None => c end) <$> dget (known b) k else dget (known b) k.
Proof.
  intros O. destruct ctx as [n|]; cbv zeta; [|split; [done|]; intros k; case_decide; [by destruct (dget _ k)|done]].
  unfold context_at. case_bool_decide as D.
  - split; [done|]. intros k. case_decide as E; [|done]. subst. destruct (dget (known b) ep) as [c|]; [|done].
    cbn in D |- *. injection D as <-. by rewrite with_context_same.
  - split; [by apply recontext_ok|]. intros k. apply edit_get.
Qed.

(** What a backend says of its capacity is believed everywhere at once: after any
    report, even one that made the handler raise, the configuration, the cost
    model and the budgets still agree on every slot count; the endpoint has the
    counts of the report, keeping its own where the report has none (a zero or an
    absent count is no count); and no other endpoint has changed. *)
Theorem capacity_agrees_everywhere ep report b k :
  capacity_ok b ->
  let b' := (apply_discovered_capacity ep report b).2 in
  capacity_ok b'
  /\ dget (known b') k = if decide (k = ep) then discovered report <$> dget (known b) k else dget (known b) k.
Proof.
  intros O. unfold apply_discovered_capacity, discovered. rewrite run_lift. destruct (count_of (cr_slots report)) as [slots|e].
  2: { cbn. split; [done|]. case_decide; [by destruct (dget _ k)|done]. }
  rewrite run_modify. destruct (slots_step ep slots b O) as [O1 G1]. cbv zeta in O1, G1.
  set (b1 := match slots with Some n => _ | None => _ end) in *. clearbody b1. rewrite run_lift.
  destruct (count_of (cr_context_per_slot report)) as [ctx|e].
  2: { cbn. split; [done|]. rewrite G1. case_decide; [|done]. by destruct (dget _ k), slots. }
  rewrite run_modify. destruct (context_step ep ctx b1 O1) as [O2 G2]. cbv zeta in O2, G2.
  set (b2 := match ctx with Some n => _ | None => _ end) in *. clearbody b2.
  assert (G : dget (known b2) k = if decide (k = ep)
      then (fun c => match ctx with Some n => with_context n (match slots with Some n => with_slots n c | None => c end)
                                 | None => match slots with Some n => with_slots n c | None => c end end) <$> dget (known b) k
      else dget (known b) k).
  { rewrite G2. case_decide; [|by rewrite G1, decide_False]. rewrite G1, decide_True by done. by destruct (dget (known b) k), ctx. }
  rewrite <- G. destruct (publishes_prices report); [|done]. by split; [destruct O2|].
Qed.
End Capacity.

(** An endpoint is called healthy only where it takes traffic, and where the
    circuit cannot vouch for it only on the word of a probe. *)
Lemma healthy_is_a_reading roles cooldown now on_demand b ep :
  availability roles cooldown now on_demand b ep = "healthy" ->
  healthy roles cooldown now b ep = true /\ ep ∉ bk_paused b
  /\ (on_demand = true \/ is_Some (residency_state (bk_residency b) ep now) -> dget (bk_reachable b) ep = Some true).
Proof.
  unfold availability. case_bool_decide as P; [done|]. destruct (healthy _ _ _ b ep); cbn [negb]; [|by destruct (expected_unloaded _ b ep)].
  intros H. split; [done|]. split; [done|]. intros D.
  assert ((on_demand || bool_decide (is_Some (residency_state (bk_residency b) ep now)))%bool = true) as E.
  { destruct D as [->|D]; [done|]. by rewrite bool_decide_eq_true_2, orb_true_r by done. }
  rewrite E in H. destruct (dget (bk_reachable b) ep) as [[]|]; [done| |done]. by destruct (expected_unloaded _ b ep).
Qed.
