(* ===== verification/Poller.v ===== *)
(** * The poller (health.py)

    One pass over an endpoint ([poll_endpoint_once]): discovery, reachability,
    the circuit, what the backend disclaims, its goodput, the canary of its
    thinking switch and its keep-alive touches, each behind its own guard; and one
    iteration over all of them with the chores of the proxy
    ([poller_iteration]).  What the backends answer is an argument, an [Answers]
    for each endpoint; the evaluation of alerts, the cache statistics and the
    frames for watchers only report and are left out. *)

From Stdlib Require Import Ascii QArith Lqa Lia ZArith.
From stdpp Require Import base list strings gmap.
From S2P Require Import Prelude PyDict PyText Config Json Budget Cost Queue Scheduler Spend Policy Failover Goodput Timeout Wal OnDemand Residency Keepalive Effort Forced Correct Payload Provider Backend Probes Completion Breaker.

Local Open Scope string_scope.

(** ** What is declared, found and answered *)

(** The declarations of an endpoint that the poller reads. *)
Record Declared := mkDeclared {
  de_on_demand : bool;
  de_skip_discovery : bool;
  de_chat : bool;
  de_wire : WireConfig;
  de_thinking_kwargs : list string;
  de_keepalive : KeepaliveConf
}.

(** The fields of an endpoint that polling fills in. *)
Record Found := mkFound {
  fo_served_model_id : string;
  fo_fingerprint : string;
  fo_not_implemented : gset string;
  fo_canary_state : string;
  fo_canary_checked_at : Q
}.

Definition nothing_found : Found := mkFound "" "" ∅ "" 0.

(** The answers of one pass, in the order they are asked for: the quiet look at
    an unloaded endpoint, the discovery, the two readings of the model list, the
    look whether it is there, the breaker's own, the disclaimers ([None] where the
    probe raised) and the two goodput probes. *)
Record Answers := mkAnswers {
  an_quiet : ProbeAnswer;
  an_capacity : ProbeAnswer;
  an_models : ProbeAnswer;
  an_fingerprint : ProbeAnswer;
  an_there : ProbeAnswer;
  an_alive : ProbeAnswer;
  an_not_implemented : option ProbeAnswer;
  an_progress : option (dict Counter (option Q));
  an_busy : option Q
}.

(** What the chores ask of the store beside its statements. *)
Inductive Upkeep := CHECKPOINT_TRUNCATE | INCREMENTAL_VACUUM (pages : Z) | CACHE_STATS.

(** When each chore ran last. *)
Record Marks := mkMarks {
  last_cleanup_at : Q;
  last_wal_checkpoint_at : Q;
  last_incr_vacuum_at : Q;
  last_budget_save_at : Q;
  last_cache_stats_at : Q
}.

Record Poller := mkPoller {
  po_breaker : Breaker;
  po_found : dict string Found;
  po_canaries : list string;
  po_touches : list TouchTask;
  po_timeout : TimeoutModel;
  po_policy : Policy;
  po_marks : Marks;
  po_upkeep : list Upkeep
}.

Definition with_breaker (x : Breaker) (s : Poller) : Poller :=
  mkPoller x (po_found s) (po_canaries s) (po_touches s) (po_timeout s) (po_policy s) (po_marks s) (po_upkeep s).
Definition with_found (ep : string) (f : Found -> Found) (s : Poller) : Poller :=
  mkPoller (po_breaker s) (dset (po_found s) ep (f (default nothing_found (dget (po_found s) ep)))) (po_canaries s) (po_touches s)
    (po_timeout s) (po_policy s) (po_marks s) (po_upkeep s).
Definition with_canaries (x : list string) (s : Poller) : Poller :=
  mkPoller (po_breaker s) (po_found s) x (po_touches s) (po_timeout s) (po_policy s) (po_marks s) (po_upkeep s).
Definition with_touches (x : list TouchTask) (s : Poller) : Poller :=
  mkPoller (po_breaker s) (po_found s) (po_canaries s) x (po_timeout s) (po_policy s) (po_marks s) (po_upkeep s).
Definition with_timeout (x : TimeoutModel) (s : Poller) : Poller :=
  mkPoller (po_breaker s) (po_found s) (po_canaries s) (po_touches s) x (po_policy s) (po_marks s) (po_upkeep s).
Definition with_policy (x : Policy) (s : Poller) : Poller :=
  mkPoller (po_breaker s) (po_found s) (po_canaries s) (po_touches s) (po_timeout s) x (po_marks s) (po_upkeep s).
Definition with_marks (x : Marks) (s : Poller) : Poller :=
  mkPoller (po_breaker s) (po_found s) (po_canaries s) (po_touches s) (po_timeout s) (po_policy s) x (po_upkeep s).
Definition note_upkeep (x : Upkeep) (s : Poller) : Poller :=
  mkPoller (po_breaker s) (po_found s) (po_canaries s) (po_touches s) (po_timeout s) (po_policy s) (po_marks s) (po_upkeep s ++ [x])%list.

Definition in_breaker {A} (m : SE Breaker A) : SE Poller A := fun s =>
  let '(r, b) := m (po_breaker s) in (r, with_breaker b s).
Definition in_goodput (m : SE GoodputState unit) : SE Poller unit := in_breaker (fun b =>
  let '(r, g) := m (bk_goodput b) in (r, set_goodput g b)).
Definition find_out (ep : string) (f : Found -> Found) : SE Poller unit := se_modify (with_found ep f).

(** [except Exception]: what was done stays, and [dflt] is the result. *)
Definition caught {A} (dflt : A) (m : SE Poller A) : SE Poller A := fun s =>
  match m s with
  | (Ret a, s') => (Ret a, s')
  | (Raise _, s') => (Ret dflt, s')
  end.

Definition found_at (s : Poller) (ep : string) : Found := default nothing_found (dget (po_found s) ep).

Section Poller.
(** The alias table, the cooldown, the threshold of the circuit, whether a
    failover is installed, the environment and the printing of floats, whether
    the proxy drains, whether canaries are enabled and how far apart. *)
Context (roles : dict string string) (cooldown : CooldownConf) (health_fail_threshold : Z) (failover : bool).
Context (environ : string -> option string) (float_repr : Q -> string) (draining canary_enabled : bool) (canary_interval : Q).

(** ** The steps of a pass *)

(** [_schedule_thinking_canary]: at most one in flight for an endpoint. *)
Definition schedule_thinking_canary (ep_name : string) : SE Poller unit :=
  se_modify (fun s => if bool_decide (ep_name ∈ po_canaries s) then s else with_canaries (ep_name :: po_canaries s) s).

(** The body of the canary up to its call: whether it is made. *)
Definition canary_begin (ep_name : string) (d : Declared) (now : Q) : SE Poller bool :=
  s ← se_get;
  let f := found_at s ep_name in
  if (match de_thinking_kwargs d with [] => true | _ => false end || negb canary_enabled)%bool then mret false
  else if negb (healthy roles cooldown now (po_breaker s) ep_name) then mret false
  else
    let stamp := find_out ep_name (fun f => mkFound (fo_served_model_id f) (fo_fingerprint f) (fo_not_implemented f) (fo_canary_state f) now) in
    if Qeq_bool (fo_canary_checked_at f) 0 then _ ← stamp; mret false
    else if Qltb (now - fo_canary_checked_at f) canary_interval then mret false
    else _ ← stamp; mret true.

Definition canary_verdict (key : string) (result : option (Z * Z)) : string :=
  match result with
  | None => ""
  | Some (reasoning, content) =>
      if (0 <? reasoning)%Z then "ok"
      else "sent chat_template_kwargs {" ++ key ++ ": true} and got " ++ str_of_Z reasoning ++ " chars of reasoning ("
           ++ str_of_Z content ++ " chars of content) — the declared switch is not switching anything on the model this "
           ++ "endpoint is serving now"
  end.

(** The rest of it, on what came back. *)
Definition canary_end (ep_name key : string) (a : ProbeAnswer) : SE Poller unit :=
  find_out ep_name (fun f => mkFound (fo_served_model_id f) (fo_fingerprint f) (fo_not_implemented f)
                               (canary_verdict key (probe_thinking_switch a)) (fo_canary_checked_at f)).

(** The task is over: the endpoint may be given another. *)
Definition canary_done (ep_name : string) : SE Poller unit :=
  se_modify (fun s => with_canaries (List.filter (fun e => negb (String.eqb e ep_name)) (po_canaries s)) s).

(** Discovery, with what was learnt of [probe_ok] before a fault of it. *)
Definition discover (ep_name : string) (d : Declared) (a : Answers) : SE Poller bool :=
  if de_skip_discovery d then mret (probe_health (an_capacity a))
  else match discover_capacity environ float_repr (de_wire d) (an_capacity a) with
       | Refused _ => se_lift (Raise ValueError)
       | Fine None => mret false
       | Fine (Some report) => _ ← in_breaker (apply_discovered_capacity ep_name report); mret true
       end.

(** The two readings of a server that serves one model; answers whether one was
    named. *)
Definition identify_model (ep_name : string) (a : Answers) : SE Poller bool :=
  let served := probe_models (an_models a) in
  _ ← match served with
      | Some m => find_out ep_name (fun f => mkFound m (fo_fingerprint f) (fo_not_implemented f) (fo_canary_state f) (fo_canary_checked_at f))
      | None => mret tt
      end;
  _ ← match probe_model_fingerprint (an_fingerprint a) with
      | Some fp => if String.eqb fp "" then mret tt
                   else find_out ep_name (fun f => mkFound (fo_served_model_id f) fp (fo_not_implemented f) (fo_canary_state f) (fo_canary_checked_at f))
      | None => mret tt
      end;
  mret (bool_decide (is_Some served)).

Definition probe_endpoint (ep_name : string) (d : Declared) (a : Answers) : SE Poller bool :=
  caught false (
    found ← discover ep_name d a;
    named ← (if (negb (de_skip_discovery d) && publishes_served_model_id (descriptor (provider_for (de_wire d))))%bool
             then identify_model ep_name a else mret false);
    _ ← schedule_thinking_canary ep_name;
    mret (found || named)%bool).

(** An endpoint that is loaded on demand and is not: one quiet look; [false]
    ends the pass, and an open circuit is not left from an earlier life. *)
Definition quiet_look (ep_name : string) (a : Answers) : SE Poller bool :=
  let reachable := probe_health (an_quiet a) in
  _ ← in_breaker (se_modify (set_reachable ep_name reachable));
  if reachable then mret true
  else
    _ ← in_breaker (se_modify (fun b =>
          match dget (bk_health b) ep_name with
          | Some c => if negb (ci_healthy c) then set_circuit ep_name fresh_circuit b else b
          | None => b
          end));
    mret false.

(** What the backend disclaims; a reading that failed is no disclaimer. *)
Definition read_disclaimers (ep_name : string) (a : Answers) : SE Poller unit :=
  let reported := match an_not_implemented a with Some x => default ∅ (probe_not_implemented x) | None => ∅ end in
  find_out ep_name (fun f => mkFound (fo_served_model_id f) (fo_fingerprint f) reported (fo_canary_state f) (fo_canary_checked_at f)).

(** [sample_goodput] with its two effects. *)
Definition watch_goodput (ep_name : string) (a : Answers) (now : Q) : SE Poller unit :=
  s ← se_get;
  match dget (endpoints (fs_config (bk_fail (po_breaker s)))) ep_name with
  | None => mret tt
  | Some cfg =>
      let before := length (gs_events (bk_goodput (po_breaker s))) in
      _ ← in_goodput (sample_goodput roles ep_name cfg (an_progress a) (an_busy a) now);
      s ← se_get;
      match drop before (gs_events (bk_goodput (po_breaker s))) with
      | GE_fast_fail_interactive ep :: _ => in_breaker (fast_fail_interactive roles cooldown failover now ep "goodput collapse")
      | GE_dispatch_wakeup :: _ => in_breaker (in_proxy wake)
      | [] => mret tt
      end
  end.

Definition schedule_keepalive (ep_name : string) (d : Declared) (now : Q) : SE Poller unit :=
  se_modify (fun s =>
    let b := po_breaker s in
    let p := bk_proxy b in
    let k := schedule_touches ep_name (de_keepalive d) now draining (healthy roles cooldown now b ep_name)
               (es_queued (endpoint_snapshot (px_sched p) ep_name)) (background_available (px_sched p) ep_name)
               (mkKState (px_tracker p) (po_touches s)) in
    with_touches (ks_tasks k) (with_breaker (set_proxy (with_tracker (ks_tracker k) p) b) s)).

(** ** One pass *)

Definition poll_endpoint_once (ep_name : string) (d : Declared) (a : Answers) (now : Q) : SE Poller unit :=
  s ← se_get;
  go ← (if (de_on_demand d && negb (is_loaded (px_on_demand (bk_proxy (po_breaker s))) ep_name))%bool
        then quiet_look ep_name a else mret true);
  if negb go then mret tt
  else
    probe_ok ← probe_endpoint ep_name d a;
    _ ← in_breaker (se_modify (set_reachable ep_name (probe_ok || probe_health (an_there a))%bool));
    _ ← caught tt (in_breaker (update_endpoint_health roles cooldown health_fail_threshold failover now ep_name probe_ok
                                 (probe_health (an_alive a))));
    _ ← (if de_chat d then read_disclaimers ep_name a else mret tt);
    _ ← caught tt (watch_goodput ep_name a now);
    caught tt (schedule_keepalive ep_name d now).

(** ** An iteration *)

(** The settings of the chores. *)
Record Chores := mkChores {
  completions_retention_s : Q;
  payload_retention_s : Q;
  wal_checkpoint_interval_s : Q;
  incremental_vacuum_interval_s : Q;
  incremental_vacuum_pages : Z;
  cache_stats_interval_s : Q
}.

Definition in_store (sts : list Stmt) : SE Poller unit := in_breaker (in_proxy (Completion.submit sts)).

(** The budgets as they are saved. *)
Definition budget_rows (m : BudgetManager) : list (string * Q * Q * Q) :=
  map (fun kb => (agent_id kb.2, ab_weight kb.2, py_round 2 (balance kb.2), py_round 1 (total_consumed kb.2))) (bm_agents m).

(** The daily sweep, with the callers nobody heard of for an hour. *)
Definition sweep (c : Chores) (mono wall : Q) : SE Poller unit :=
  s ← se_get;
  let k := po_marks s in
  if Qltb 86400 (mono - last_cleanup_at k) then
    _ ← se_modify (with_marks (mkMarks mono (last_wal_checkpoint_at k) (last_incr_vacuum_at k) (last_budget_save_at k) (last_cache_stats_at k)));
    _ ← in_store (cleanup_old_completions wall (completions_retention_s c));
    _ ← in_store (cleanup_old_payloads wall (payload_retention_s c));
    s ← se_get;
    let sched := px_sched (bk_proxy (po_breaker s)) in
    let '(pruned, m) := prune_idle (sc_budgets sched) mono 3600 in
    _ ← in_breaker (in_proxy (with_sched (Scheduler.set_budgets m sched)));
    match pruned with [] => mret tt | _ => in_store (delete_budgets pruned) end
  else mret tt.

Definition maintain (c : Chores) (mono wall : Q) : SE Poller unit :=
  s ← se_get;
  let k := po_marks s in
  _ ← (if Qltb (wal_checkpoint_interval_s c) (mono - last_wal_checkpoint_at k)
       then se_modify (fun s => note_upkeep CHECKPOINT_TRUNCATE (with_marks (mkMarks (last_cleanup_at k) mono (last_incr_vacuum_at k)
                                  (last_budget_save_at k) (last_cache_stats_at k)) s)) else mret tt);
  s ← se_get;
  let k := po_marks s in
  _ ← (if Qltb (incremental_vacuum_interval_s c) (mono - last_incr_vacuum_at k)
       then se_modify (fun s => note_upkeep (INCREMENTAL_VACUUM (incremental_vacuum_pages c)) (with_marks (mkMarks (last_cleanup_at k)
                                  (last_wal_checkpoint_at k) mono (last_budget_save_at k) (last_cache_stats_at k)) s)) else mret tt);
  s ← se_get;
  let k := po_marks s in
  _ ← (if Qltb 60 (mono - last_budget_save_at k)
       then
         _ ← se_modify (with_marks (mkMarks (last_cleanup_at k) (last_wal_checkpoint_at k) (last_incr_vacuum_at k) mono (last_cache_stats_at k)));
         in_store (save_budgets wall (budget_rows (sc_budgets (px_sched (bk_proxy (po_breaker s))))))
       else mret tt);
  s ← se_get;
  let k := po_marks s in
  if Qltb (cache_stats_interval_s c) (mono - last_cache_stats_at k)
  then se_modify (fun s => note_upkeep CACHE_STATS (with_marks (mkMarks (last_cleanup_at k) (last_wal_checkpoint_at k)
                             (last_incr_vacuum_at k) (last_budget_save_at k) mono) s))
  else mret tt.

(** The passes: an endpoint its operator paused is left alone. *)
Definition poll_all (eps : list (string * Declared)) (answers : string -> Answers) (now : Q) : SE Poller unit :=
  se_fold (fun _ e => s ← se_get;
                      if bool_decide (e.1 ∈ bk_paused (po_breaker s)) then mret tt
                      else poll_endpoint_once e.1 e.2 (answers e.1) now) tt eps.

Definition poller_iteration (c : Chores) (eps : list (string * Declared)) (reply : StatusReply) (answers : string -> Answers)
    (mono wall : Q) : SE Poller unit :=
  _ ← in_breaker (se_modify (fun b => set_residency (Residency.refresh reply mono (bk_residency b)) b));
  _ ← poll_all eps answers mono;
  _ ← sweep c mono wall;
  _ ← maintain c mono wall;
  _ ← in_breaker (se_modify (fun b =>
        if failover then set_fail (Failover.refresh (health_view roles cooldown b) (px_sched (bk_proxy b)) mono (bk_fail b)) b else b));
  _ ← se_modify (fun s => with_timeout (tm_prune mono (po_timeout s)) s);
  se_modify (fun s => with_policy (prune_rate_state wall (po_policy s)).2 s).
End Poller.
