(* ===== verification/PollerProps.v ===== *)
(** * What a pass of the poller leaves behind

    No fault of one endpoint stops the poller or touches another endpoint, and
    what is believed of an endpoint after a pass is what this pass read, never an
    older reading ([pass_result], [iteration_reaches_everyone]). *)

From Stdlib Require Import Ascii QArith Lqa Lia ZArith.
From stdpp Require Import base list strings gmap.
From S2P Require Import Prelude PyDict PyText Config Json Budget Cost Queue Scheduler Spend Policy Failover Goodput Timeout Wal OnDemand Residency Keepalive Effort Forced Correct Payload Provider Backend Probes Completion Breaker BreakerProps Poller.

Local Open Scope string_scope.

Section Poller.
Context (roles : dict string string) (cooldown : CooldownConf) (health_fail_threshold : Z) (failover : bool).
Context (environ : string -> option string) (float_repr : Q -> string) (draining canary_enabled : bool) (canary_interval : Q).

Abbreviation poll := (poll_endpoint_once roles cooldown health_fail_threshold failover environ float_repr draining).
Abbreviation reachable s ep := (dget (bk_reachable (po_breaker s)) ep).
Abbreviation circuit s ep := (circuit_of (po_breaker s) ep).
Abbreviation lent := (fun b => px_on_demand (bk_proxy b)).
Abbreviation leases s := (px_on_demand (bk_proxy (po_breaker s))).

(** ** What the steps leave alone *)

#[local] Instance outside_reachable : Outside bk_reachable.
Proof. by split. Qed.
#[local] Instance outside_paused : Outside bk_paused.
Proof. by split. Qed.
#[local] Instance outside_circuits : Outside bk_health.
Proof. by split. Qed.

(** A part of the breaker, seen from the poller. *)
Lemma in_breaker_leaves {P A} (part : Breaker -> P) (m : SE Breaker A) : leaves part m -> leaves (fun s => part (po_breaker s)) (in_breaker m).
Proof. intros H s. unfold in_breaker. specialize (H (po_breaker s)). by destruct (m (po_breaker s)). Qed.

Lemma in_breaker_found {A} (m : SE Breaker A) : leaves po_found (in_breaker m).
Proof. intros s. unfold in_breaker. by destruct (m (po_breaker s)). Qed.

Lemma caught_leaves {P A} (part : Poller -> P) (a : A) m : leaves part m -> leaves part (caught a m).
Proof. intros H s. unfold caught. specialize (H s). by destruct (m s) as [[]]. Qed.

Lemma caught_returns {A} (a : A) m s : exists x, caught a m s = (Ret x, (m s).2).
Proof. unfold caught. destruct (m s) as [[x|e] s']; by eexists. Qed.

Lemma find_out_leaves {P} (part : Breaker -> P) ep f : leaves (fun s => part (po_breaker s)) (find_out ep f).
Proof. by intros s. Qed.

Lemma capacity_leaves {P} (part : Breaker -> P) `{!Outside part} ep report : leaves part (apply_discovered_capacity ep report).
Proof.
  assert (E : forall f b, part (edit_config f b) = part b) by (intros f b; unfold edit_config; by rewrite outside_fail, outside_proxy).
  unfold apply_discovered_capacity. apply leaves_bind; [auto with roadstead|]. intros slots. apply leaves_bind.
  { apply leaves_modify. intros b. destruct slots; [|done]. destruct (bool_decide _); [done|].
    unfold resize. rewrite outside_proxy by done. apply E. }
  intros _. apply leaves_bind; [auto with roadstead|]. intros ctx. apply leaves_bind.
  { apply leaves_modify. intros b. destruct ctx; [|done]. destruct (bool_decide _); [done|]. apply E. }
  intros _. apply leaves_if; [by apply aloof_proxy|auto with roadstead].
Qed.

Lemma update_leaves {P} (part : Breaker -> P) `{!Outside part} now ep ok alive :
  (forall e c b, part (set_circuit e c b) = part b) ->
  leaves part (update_endpoint_health roles cooldown health_fail_threshold failover now ep ok alive).
Proof.
  intros C. unfold update_endpoint_health. apply leaves_bind; [apply leaves_modify; intros b; destruct (dget (bk_health b) ep); [done|apply C]|].
  intros _. apply leaves_get. intros b. cbv zeta.
  assert (S : forall c, leaves part (se_modify (set_circuit ep c))) by (intros c; apply leaves_modify; intros; apply C).
  assert (W : leaves part (in_proxy wake)) by by apply aloof_proxy.
  destruct ok; [apply leaves_bind; [apply leaves_if; [exact W|apply leaves_ret]|intros _; apply S]|].
  destruct (negb _).
  - destruct alive; [apply leaves_bind; [apply S|intros _; exact W]|apply leaves_ret].
  - destruct (_ <=? _)%Z; [|apply S]. destruct (negb alive); [|apply S]. apply leaves_bind; [apply S|]. intros _. apply fast_fail_aloof, _.
Qed.

Lemma goodput_leaves {P} (part : Breaker -> P) `{!Outside part} ep a now :
  (forall g b, part (set_goodput g b) = part b) -> leaves (fun s => part (po_breaker s)) (watch_goodput roles cooldown failover ep a now).
Proof.
  intros G. unfold watch_goodput. apply leaves_get. intros s. destruct (dget _ ep) as [cfg|]; [|auto with roadstead]. cbv zeta.
  apply leaves_bind.
  { apply in_breaker_leaves. intros b. destruct (sample_goodput _ _ _ _ _ _ _). apply G. }
  intros _. apply leaves_get. intros s'. destruct (drop _ _) as [|[e|] ?]; [auto with roadstead| |];
    apply in_breaker_leaves; [apply fast_fail_aloof, _|by apply aloof_proxy].
Qed.

Lemma goodput_found ep a now : leaves po_found (watch_goodput roles cooldown failover ep a now).
Proof.
  unfold watch_goodput. apply leaves_get. intros s. destruct (dget _ ep) as [cfg|]; [|auto with roadstead]. cbv zeta.
  apply leaves_bind; [apply in_breaker_found|]. intros _. apply leaves_get. intros s'.
  destruct (drop _ _) as [|[e|] ?]; [auto with roadstead|apply in_breaker_found..].
Qed.

Lemma keepalive_leaves {P} (part : Breaker -> P) `{!Outside part} ep d now :
  leaves (fun s => part (po_breaker s)) (schedule_keepalive roles cooldown draining ep d now).
Proof. apply leaves_modify. intros s. cbn. by apply outside_proxy. Qed.

Lemma keepalive_found ep d now : leaves po_found (schedule_keepalive roles cooldown draining ep d now).
Proof. by apply leaves_modify. Qed.

Lemma discover_leaves {P} (part : Breaker -> P) `{!Outside part} ep d a :
  leaves (fun s => part (po_breaker s)) (discover environ float_repr ep d a).
Proof.
  unfold discover. apply leaves_if; [auto with roadstead|]. destruct (discover_capacity _ _ _ _) as [[r|]|]; [|auto with roadstead..].
  apply leaves_bind; [|auto with roadstead]. by apply in_breaker_leaves, capacity_leaves.
Qed.

Lemma identify_leaves {P} (part : Breaker -> P) ep a : leaves (fun s => part (po_breaker s)) (identify_model ep a).
Proof.
  unfold identify_model. cbv zeta. apply leaves_bind; [destruct (probe_models _); [apply find_out_leaves|auto with roadstead]|]. intros _.
  apply leaves_bind; [|auto with roadstead]. destruct (probe_model_fingerprint _); [|auto with roadstead].
  apply leaves_if; [auto with roadstead|apply find_out_leaves].
Qed.

Lemma probe_leaves {P} (part : Breaker -> P) `{!Outside part} ep d a :
  leaves (fun s => part (po_breaker s)) (probe_endpoint environ float_repr ep d a).
Proof.
  apply caught_leaves. apply leaves_bind; [by apply discover_leaves|]. intros f.
  apply leaves_bind; [apply leaves_if; [apply identify_leaves|auto with roadstead]|]. intros n.
  apply leaves_bind; [|auto with roadstead]. apply leaves_modify. intros s. by destruct (bool_decide _).
Qed.

(** ** What a pass reads *)

(** A report the handler takes. *)
Definition readable (r : CapacityReport) : bool := (is_ret (count_of (cr_slots r)) && is_ret (count_of (cr_context_per_slot r)))%bool.

(** Whether the probes of a pass found the backend. *)
Definition found_by (d : Declared) (a : Answers) : bool :=
  let named := (negb (de_skip_discovery d) && publishes_served_model_id (descriptor (provider_for (de_wire d)))
                && bool_decide (is_Some (probe_models (an_models a))))%bool in
  if de_skip_discovery d then probe_health (an_capacity a)
  else match discover_capacity environ float_repr (de_wire d) (an_capacity a) with
       | Refused _ => false
       | Fine None => named
       | Fine (Some r) => readable r
       end.

Lemma count_raises j e : count_of j = Raise e -> e = TypeError.
Proof. unfold count_of. destruct (truthy j); [|done]. destruct (py_int j); [done|]. by intros [= <-]. Qed.

Lemma capacity_result ep r b : (apply_discovered_capacity ep r b).1 = if readable r then Ret tt else Raise TypeError.
Proof.
  unfold apply_discovered_capacity, readable. rewrite run_lift.
  destruct (count_of (cr_slots r)) as [n|e] eqn:E1; cbn [is_ret andb]; [|by apply count_raises in E1 as ->].
  rewrite run_modify, run_lift.
  destruct (count_of (cr_context_per_slot r)) as [m|e] eqn:E2; cbn [is_ret]; [|by apply count_raises in E2 as ->].
  rewrite run_modify. by destruct (publishes_prices r).
Qed.

Lemma identify_result ep a s : (identify_model ep a s).1 = Ret (bool_decide (is_Some (probe_models (an_models a)))).
Proof.
  unfold identify_model. cbv zeta. destruct (probe_models (an_models a)), (probe_model_fingerprint (an_fingerprint a)) as [fp|];
    try destruct (String.eqb fp ""); done.
Qed.

Lemma probe_result ep d a s : (probe_endpoint environ float_repr ep d a s).1 = Ret (found_by d a).
Proof.
  unfold probe_endpoint, caught, found_by, discover. rewrite run_bind.
  destruct (de_skip_discovery d); cbn [negb andb]; [by destruct (probe_health (an_capacity a))|].
  destruct (discover_capacity _ _ _ _) as [[r|]|e]; [| |done].
  - rewrite run_bind. unfold in_breaker. pose proof (capacity_result ep r (po_breaker s)) as C.
    destruct (apply_discovered_capacity ep r (po_breaker s)) as [x b]. cbn [fst] in C. subst x. destruct (readable r); [|done].
    change ((mret true : SE Poller bool) (with_breaker b s)) with (@Ret bool true, with_breaker b s). cbv beta iota. rewrite run_bind.
    destruct (publishes_served_model_id _); [|done].
    pose proof (identify_result ep a (with_breaker b s)) as I. destruct (identify_model ep a (with_breaker b s)) as [x s']. cbn [fst] in I. by subst x.
  - change ((mret false : SE Poller bool) s) with (@Ret bool false, s). cbv beta iota. rewrite run_bind. destruct (publishes_served_model_id _); [|done]. cbn [andb].
    pose proof (identify_result ep a s) as I. destruct (identify_model ep a s) as [x s']. cbn [fst] in I. by subst x.
Qed.

(** Nothing is found out about another endpoint. *)
Lemma find_out_other ep f e : e <> ep -> leaves (fun s => dget (po_found s) e) (find_out ep f).
Proof. intros N. apply leaves_modify. intros s. cbn. by apply dget_dset_ne. Qed.

Lemma found_leaves {A} e (m : SE Poller A) : leaves po_found m -> leaves (fun s => dget (po_found s) e) m.
Proof. intros H s. by rewrite H. Qed.

Lemma probe_found_other ep d a e : e <> ep -> leaves (fun s => dget (po_found s) e) (probe_endpoint environ float_repr ep d a).
Proof.
  intros N. apply caught_leaves. apply leaves_bind.
  { unfold discover. apply leaves_if; [auto with roadstead|]. destruct (discover_capacity _ _ _ _) as [[r|]|]; [|auto with roadstead..].
    apply leaves_bind; [apply found_leaves, in_breaker_found|auto with roadstead]. }
  intros f. apply leaves_bind.
  { apply leaves_if; [|auto with roadstead]. unfold identify_model. cbv zeta.
    apply leaves_bind; [destruct (probe_models _); [by apply find_out_other|auto with roadstead]|]. intros _.
    apply leaves_bind; [|auto with roadstead]. destruct (probe_model_fingerprint _); [|auto with roadstead].
    apply leaves_if; [auto with roadstead|by apply find_out_other]. }
  intros n. apply leaves_bind; [|auto with roadstead]. apply leaves_modify. intros s. by destruct (bool_decide _).
Qed.

(** The endpoint is loaded on demand and not loaded, and the quiet look finds
    nobody. *)
Definition asleep (ep : string) (d : Declared) (a : Answers) (s : Poller) : bool :=
  (de_on_demand d && negb (is_loaded (px_on_demand (bk_proxy (po_breaker s))) ep) && negb (probe_health (an_quiet a)))%bool.

(** The state once an endpoint is known to be there or not, and its circuit has
    been told. *)
Lemma pass_middle ep d a now s :
  let ok := found_by d a in
  exists s', (probe_ok ← probe_endpoint environ float_repr ep d a;
              _ ← in_breaker (se_modify (set_reachable ep (probe_ok || probe_health (an_there a))%bool));
              caught tt (in_breaker (update_endpoint_health roles cooldown health_fail_threshold failover now ep probe_ok
                                       (probe_health (an_alive a))))) s = (Ret tt, s')
  /\ (forall e, reachable s' e = if decide (ep = e) then Some (ok || probe_health (an_there a))%bool else reachable s e)
  /\ (forall e, circuit s' e = if decide (ep = e) then circuit_step health_fail_threshold (circuit s e) (mkPass ep ok (probe_health (an_alive a)) now)
                               else circuit s e)
  /\ (forall e, e <> ep -> dget (po_found s') e = dget (po_found s) e)
  /\ bk_paused (po_breaker s') = bk_paused (po_breaker s) /\ leases s' = leases s.
Proof.
  intros ok. rewrite run_bind. pose proof (probe_result ep d a s) as R. pose proof (probe_leaves lent ep d a s) as L5.
  pose proof (probe_leaves bk_reachable ep d a s) as L1. pose proof (probe_leaves bk_health ep d a s) as L2.
  pose proof (probe_leaves bk_paused ep d a s) as L3.
  assert (L4 : forall e, e <> ep -> dget (po_found (probe_endpoint environ float_repr ep d a s).2) e = dget (po_found s) e)
    by (intros e N; by apply probe_found_other).
  destruct (probe_endpoint environ float_repr ep d a s) as [x s1]. cbn [fst snd] in *. subst x. fold ok.
  set (s2 := with_breaker (set_reachable ep (ok || probe_health (an_there a))%bool (po_breaker s1)) s1).
  rewrite run_bind.
  change (in_breaker (se_modify (set_reachable ep (ok || probe_health (an_there a))%bool)) s1) with (@Ret unit tt, s2). cbv beta iota.
  set (m := in_breaker (update_endpoint_health _ _ _ _ _ _ _ _)).
  destruct (caught_returns tt m s2) as [[] E]. exists (m s2).2. rewrite E. split; [done|].
  assert (M : po_breaker (m s2).2
    = (pass roles cooldown health_fail_threshold failover (mkPass ep ok (probe_health (an_alive a)) now) (po_breaker s2)).2).
  { unfold m, pass, in_breaker. cbn [ps_now ps_ep ps_found ps_alive]. by destruct (update_endpoint_health _ _ _ _ _ _ _ _ _). }
  split_and!.
  - intros e. rewrite M. unfold pass. rewrite (update_leaves bk_reachable) by done. cbn. rewrite dget_dset, L1. by case_decide.
  - intros e. rewrite M, pass_circuit. unfold circuit_of. cbn [ps_ep s2 with_breaker po_breaker bk_health set_reachable]. by rewrite L2.
  - intros e N. unfold m. rewrite in_breaker_found. by apply L4.
  - rewrite M. unfold pass. rewrite (update_leaves bk_paused) by done. cbn. by rewrite L3.
  - rewrite M. unfold pass. rewrite (update_leaves lent) by done. cbn. by rewrite L5.
Qed.

Lemma run_three {S A B C D} (a : SE S A) (b : A -> SE S B) (c : A -> SE S C) (k : SE S D) s :
  (x ← a; _ ← b x; _ ← c x; k) s
  = match (x ← a; _ ← b x; c x) s with (Ret _, s') => k s' | (Raise e, s') => (Raise e, s') end.
Proof.
  rewrite !run_bind. destruct (a s) as [[x|e] s1]; [|done]. rewrite !run_bind. destruct (b x s1) as [[y|e] s2]; [|done].
  by rewrite !run_bind.
Qed.

(** The rest of a pass: what is disclaimed, the goodput, the touches. *)
Definition pass_end (ep : string) (d : Declared) (a : Answers) (now : Q) : SE Poller unit :=
  _ ← (if de_chat d then read_disclaimers ep a else mret tt);
  _ ← caught tt (watch_goodput roles cooldown failover ep a now);
  caught tt (schedule_keepalive roles cooldown draining ep d now).

Lemma pass_end_returns ep d a now s :
  exists s', pass_end ep d a now s = (Ret tt, s')
  /\ bk_reachable (po_breaker s') = bk_reachable (po_breaker s) /\ bk_health (po_breaker s') = bk_health (po_breaker s)
  /\ bk_paused (po_breaker s') = bk_paused (po_breaker s) /\ leases s' = leases s
  /\ (forall e, e <> ep -> dget (po_found s') e = dget (po_found s) e)
  /\ (de_chat d = true -> fo_not_implemented (found_at s' ep) = default ∅ (an_not_implemented a ≫= probe_not_implemented)).
Proof.
  unfold pass_end.
  assert (D : exists s1, (if de_chat d then read_disclaimers ep a else mret tt) s = (Ret tt, s1) /\ po_breaker s1 = po_breaker s
    /\ (forall e, e <> ep -> dget (po_found s1) e = dget (po_found s) e)
    /\ (de_chat d = true -> fo_not_implemented (found_at s1 ep) = default ∅ (an_not_implemented a ≫= probe_not_implemented))).
  { destruct (de_chat d); [|by exists s]. eexists. split; [reflexivity|]. split; [done|]. split.
    - intros e N. cbn. by apply dget_dset_ne.
    - intros _. unfold found_at. cbn. rewrite dget_dset_eq. cbn. by destruct (an_not_implemented a). }
  destruct D as (s1 & E1 & B1 & O1 & N1). rewrite run_bind, E1.
  destruct (caught_returns tt (watch_goodput roles cooldown failover ep a now) s1) as [[] E2]. rewrite run_bind, E2.
  set (s2 := (watch_goodput roles cooldown failover ep a now s1).2).
  destruct (caught_returns tt (schedule_keepalive roles cooldown draining ep d now) s2) as [[] E3]. eexists. split; [exact E3|].
  assert (F : po_found (schedule_keepalive roles cooldown draining ep d now s2).2 = po_found s1)
    by (rewrite keepalive_found; unfold s2; apply goodput_found).
  split; [by rewrite (keepalive_leaves bk_reachable); unfold s2; rewrite (goodput_leaves bk_reachable), B1|].
  split; [by rewrite (keepalive_leaves bk_health); unfold s2; rewrite (goodput_leaves bk_health), B1|].
  split; [by rewrite (keepalive_leaves bk_paused); unfold s2; rewrite (goodput_leaves bk_paused), B1|].
  split; [by rewrite (keepalive_leaves lent); unfold s2; rewrite (goodput_leaves lent), B1|].
  split; [intros e N; rewrite F; by apply O1|]. intros C. unfold found_at. rewrite F. by apply N1.
Qed.

(** The pass over an endpoint that is not asleep. *)
Lemma awake_pass ep d a now s :
  let ok := found_by d a in
  exists s', (probe_ok ← probe_endpoint environ float_repr ep d a;
              _ ← in_breaker (se_modify (set_reachable ep (probe_ok || probe_health (an_there a))%bool));
              _ ← caught tt (in_breaker (update_endpoint_health roles cooldown health_fail_threshold failover now ep probe_ok
                                           (probe_health (an_alive a))));
              pass_end ep d a now) s = (Ret tt, s')
  /\ (forall e, reachable s' e = if decide (ep = e) then Some (ok || probe_health (an_there a))%bool else reachable s e)
  /\ (forall e, circuit s' e = if decide (ep = e) then circuit_step health_fail_threshold (circuit s e) (mkPass ep ok (probe_health (an_alive a)) now)
                               else circuit s e)
  /\ (forall e, e <> ep -> dget (po_found s') e = dget (po_found s) e)
  /\ bk_paused (po_breaker s') = bk_paused (po_breaker s) /\ leases s' = leases s
  /\ (de_chat d = true -> fo_not_implemented (found_at s' ep) = default ∅ (an_not_implemented a ≫= probe_not_implemented)).
Proof.
  intros ok. destruct (pass_middle ep d a now s) as (s1 & E & R1 & C1 & F1 & P1 & L1).
  destruct (pass_end_returns ep d a now s1) as (s' & E' & R2 & C2 & P2 & L2 & F2 & N2). exists s'.
  rewrite run_three, E, E'. split; [done|].
  split; [intros e; by rewrite R2|]. split; [intros e; unfold circuit_of; rewrite C2; apply C1|].
  split; [intros e N; by rewrite F2, F1|]. split; [by rewrite P2|]. split; [by rewrite L2|done].
Qed.

(** The quiet look, and what it leaves. *)
Lemma quiet_look_run ep a s :
  exists s', quiet_look ep a s = (Ret (probe_health (an_quiet a)), s')
  /\ (forall e, reachable s' e = if decide (ep = e) then Some (probe_health (an_quiet a)) else reachable s e)
  /\ (forall e, circuit s' e = if decide (ep = e) then (if probe_health (an_quiet a) then circuit s e
                                                      else if ci_healthy (circuit s e) then circuit s e else fresh_circuit) else circuit s e)
  /\ po_found s' = po_found s /\ bk_paused (po_breaker s') = bk_paused (po_breaker s) /\ leases s' = leases s.
Proof.
  unfold quiet_look. cbv zeta. rewrite run_bind. cbn [in_breaker se_modify].
  destruct (probe_health (an_quiet a)).
  - eexists. split; [reflexivity|]. cbn. split; [intros e; apply dget_dset|]. split; [|done]. intros e. by case_decide.
  - rewrite run_bind. cbn [in_breaker se_modify po_breaker with_breaker bk_health set_reachable].
    destruct (dget (bk_health (po_breaker s)) ep) as [c|] eqn:E; [destruct (negb (ci_healthy c)) eqn:H|].
    + eexists. split; [reflexivity|]. split; [intros e; cbn; apply dget_dset|]. split; [|done].
      intros e. cbn [po_breaker with_breaker]. rewrite circuit_set. case_decide; [|done]. subst. unfold circuit_of. rewrite E. cbn. by destruct (ci_healthy c).
    + eexists. split; [reflexivity|]. cbn. split; [intros e; apply dget_dset|]. split; [|done].
      intros e. case_decide; [|done]. subst. unfold circuit_of. cbn. rewrite E. cbn. by destruct (ci_healthy c).
    + eexists. split; [reflexivity|]. cbn. split; [intros e; apply dget_dset|]. split; [|done].
      intros e. case_decide; [|done]. subst. unfold circuit_of. cbn. by rewrite E.
Qed.

(** A pass of the poller over one endpoint always ends, whatever the backend
    answers and whichever step of it fails, and everything believed afterwards was
    read in this very pass: whether the endpoint is there; its circuit, one step of
    the breaker on what was found; and, of a chat endpoint, what it disclaims,
    where a reading that failed disclaims nothing.  An unloaded endpoint that does
    not answer is recorded as absent and keeps no open circuit.  Nothing is changed
    for any other endpoint. *)
Lemma pass_result ep d a now s :
  let ok := found_by d a in
  exists s', poll ep d a now s = (Ret tt, s')
  /\ (forall e, e <> ep -> reachable s' e = reachable s e /\ circuit s' e = circuit s e /\ dget (po_found s') e = dget (po_found s) e)
  /\ bk_paused (po_breaker s') = bk_paused (po_breaker s) /\ leases s' = leases s
  /\ if asleep ep d a s
     then reachable s' ep = Some false /\ ci_healthy (circuit s' ep) = true /\ po_found s' = po_found s
     else reachable s' ep = Some (ok || probe_health (an_there a))%bool
          /\ circuit s' ep = circuit_step health_fail_threshold (circuit s ep) (mkPass ep ok (probe_health (an_alive a)) now)
          /\ (de_chat d = true -> fo_not_implemented (found_at s' ep) = default ∅ (an_not_implemented a ≫= probe_not_implemented)).
Proof.
  intros ok. unfold poll_endpoint_once. rewrite run_get, run_bind. unfold asleep. fold (pass_end ep d a now).
  destruct (de_on_demand d && negb _)%bool; cbn [andb].
  - destruct (quiet_look_run ep a s) as (s0 & E & R0 & C0 & F0 & P0 & L0). rewrite E. clear E. destruct (probe_health (an_quiet a)); cbn [negb].
    + destruct (awake_pass ep d a now s0) as (s' & E & R & C & F & P & L & N). exists s'. split; [exact E|].
      split; [intros e NE; rewrite R, C, F, F0, !decide_False by done; by rewrite R0, C0, !decide_False by done|].
      split; [by rewrite P|]. split; [by rewrite L|]. rewrite R, C, C0, !decide_True by done. done.
    + exists s0. split; [done|]. split; [intros e NE; by rewrite R0, C0, F0, !decide_False by done|]. split; [done|]. split; [done|].
      rewrite R0, C0, !decide_True by done. split; [done|]. split; [by destruct (ci_healthy (circuit s ep)) eqn:H|done].
  - destruct (awake_pass ep d a now s) as (s' & E & R & C & F & P & L & N). exists s'. split; [exact E|].
    split; [intros e NE; by rewrite R, C, F, !decide_False by done|]. split; [done|]. split; [done|]. rewrite R, C, !decide_True by done. done.
Qed.

(** ** An iteration *)

Abbreviation poll_all := (Poller.poll_all roles cooldown health_fail_threshold failover environ float_repr draining).
Abbreviation iteration := (poller_iteration roles cooldown health_fail_threshold failover environ float_repr draining).

(** What the passes are about. *)
Definition beliefs (s : Poller) := (bk_reachable (po_breaker s), bk_health (po_breaker s), bk_paused (po_breaker s), po_found s).

(** A computation that returns and changes no belief. *)
Definition chore (m : SE Poller unit) : Prop := forall s, exists s', m s = (Ret tt, s') /\ beliefs s' = beliefs s.

Lemma chore_then m (f : unit -> SE Poller unit) : chore m -> (forall x, chore (f x)) -> chore (m ≫= f).
Proof.
  intros M F s. destruct (M s) as (s1 & E1 & B1). destruct (F tt s1) as (s2 & E2 & B2). exists s2. rewrite run_bind, E1. split; [done|congruence].
Qed.
Lemma chore_get f : (forall s, chore (f s)) -> chore (se_get ≫= f).
Proof. intros F s. rewrite run_get. apply F. Qed.
Lemma chore_if (b : bool) m n : chore m -> chore n -> chore (if b then m else n).
Proof. by destruct b. Qed.
Lemma chore_nop : chore (mret tt).
Proof. intros s. by exists s. Qed.
Lemma chore_modify f : (forall s, beliefs (f s) = beliefs s) -> chore (se_modify f).
Proof. intros H s. exists (f s). split; [done|apply H]. Qed.
Lemma chore_proxy f : chore (in_breaker (in_proxy f)).
Proof. intros s. by eexists. Qed.
Lemma chore_fail f : chore (in_breaker (se_modify (fun b => if failover then set_fail (f b) b else b))).
Proof. intros s. eexists. split; [reflexivity|]. unfold beliefs. cbn. by destruct failover. Qed.

Lemma sweep_chore c mono wall : chore (sweep c mono wall).
Proof.
  unfold sweep. apply chore_get. intros s. cbv zeta. apply chore_if; [|apply chore_nop].
  apply chore_then; [by apply chore_modify|]. intros _. apply chore_then; [apply chore_proxy|]. intros _.
  apply chore_then; [apply chore_proxy|]. intros _. apply chore_get. intros s1. destruct (prune_idle _ _ _) as [pruned m].
  apply chore_then; [apply chore_proxy|]. intros _. destruct pruned; [apply chore_nop|apply chore_proxy].
Qed.

Lemma maintain_chore c mono wall : chore (maintain c mono wall).
Proof.
  unfold maintain.
  apply chore_get. intros s. cbv zeta. apply chore_then; [apply chore_if; [by apply chore_modify|apply chore_nop]|]. intros _.
  apply chore_get. intros s1. apply chore_then; [apply chore_if; [by apply chore_modify|apply chore_nop]|]. intros _.
  apply chore_get. intros s2. apply chore_then; [apply chore_if; [|apply chore_nop]|].
  - apply chore_then; [by apply chore_modify|]. intros _. apply chore_proxy.
  - intros _. apply chore_get. intros s3. apply chore_if; [by apply chore_modify|apply chore_nop].
Qed.

(** What an iteration makes of one endpoint: left alone where it is paused; absent,
    without an open circuit, where it sleeps; else what its own answers say. *)
Definition reached (ep : string) (d : Declared) (a : Answers) (now : Q) (s s' : Poller) : Prop :=
  let ok := found_by d a in
  if bool_decide (ep ∈ bk_paused (po_breaker s))
  then reachable s' ep = reachable s ep /\ circuit s' ep = circuit s ep /\ dget (po_found s') ep = dget (po_found s) ep
  else if asleep ep d a s
  then reachable s' ep = Some false /\ ci_healthy (circuit s' ep) = true /\ dget (po_found s') ep = dget (po_found s) ep
  else reachable s' ep = Some (ok || probe_health (an_there a))%bool
       /\ circuit s' ep = circuit_step health_fail_threshold (circuit s ep) (mkPass ep ok (probe_health (an_alive a)) now)
       /\ (de_chat d = true -> fo_not_implemented (found_at s' ep) = default ∅ (an_not_implemented a ≫= probe_not_implemented)).

Lemma reached_later ep d a now s s1 s2 s3 :
  reached ep d a now s1 s2 -> bk_paused (po_breaker s1) = bk_paused (po_breaker s) -> leases s1 = leases s ->
  reachable s1 ep = reachable s ep -> circuit s1 ep = circuit s ep -> dget (po_found s1) ep = dget (po_found s) ep ->
  reachable s3 ep = reachable s2 ep -> circuit s3 ep = circuit s2 ep -> dget (po_found s3) ep = dget (po_found s2) ep ->
  reached ep d a now s s3.
Proof. unfold reached, asleep, found_at. by intros H <- <- <- <- <- -> -> ->. Qed.

Lemma poll_one_reaches ep d a now s :
  exists s', (if bool_decide (ep ∈ bk_paused (po_breaker s)) then mret tt else poll ep d a now) s = (Ret tt, s')
  /\ bk_paused (po_breaker s') = bk_paused (po_breaker s) /\ leases s' = leases s
  /\ (forall e, e <> ep -> reachable s' e = reachable s e /\ circuit s' e = circuit s e /\ dget (po_found s') e = dget (po_found s) e)
  /\ reached ep d a now s s'.
Proof.
  unfold reached. cbv zeta. destruct (bool_decide _); [by exists s|]. destruct (pass_result ep d a now s) as (s1 & E & O & P & L & R).
  exists s1. do 4 (split; [done|]). destruct (asleep ep d a s); [|exact R]. destruct R as (R1 & R2 & ->). done.
Qed.

Lemma poll_all_reaches eps answers now : forall s,
  NoDup (map fst eps) ->
  exists s', poll_all eps answers now s = (Ret tt, s')
  /\ bk_paused (po_breaker s') = bk_paused (po_breaker s)
  /\ (forall e, e ∉ map fst eps -> reachable s' e = reachable s e /\ circuit s' e = circuit s e /\ dget (po_found s') e = dget (po_found s) e)
  /\ (forall e d, (e, d) ∈ eps -> reached e d (answers e) now s s').
Proof.
  induction eps as [|[ep d] eps IH]; intros s N.
  { exists s. split; [done|]. split; [done|]. split; [done|]. intros e d H. by apply not_elem_of_nil in H. }
  cbn [map fst] in N. apply NoDup_cons in N as [NE N].
  destruct (poll_one_reaches ep d (answers ep) now s) as (s1 & E & P & L & O & R). destruct (IH s1 N) as (s' & E' & P' & O' & R').
  exists s'. unfold Poller.poll_all. cbn [se_fold fst snd]. rewrite run_bind, run_get, E. split; [exact E'|].
  split; [congruence|]. split.
  - intros e H. cbn [map fst] in H. apply not_elem_of_cons in H as [H1 H2]. destruct (O' e H2) as (-> & -> & ->). by apply O.
  - intros e d' H. apply elem_of_cons in H as [[= -> ->]|H].
    + destruct (O' ep NE) as (A1 & A2 & A3). by eapply reached_later; [exact R|..].
    + assert (NQ : e <> ep) by (intros ->; apply NE; by apply (list_elem_of_fmap_2 fst) in H).
      destruct (O e NQ) as (B1 & B2 & B3). by eapply reached_later; [exact (R' e d' H)|..].
Qed.

(** C13 An iteration of the poller always ends and reaches every endpoint of the
    fleet, each named once.  However the passes before it failed, an endpoint is
    believed there or not, and its circuit stands, as its own answers of this
    iteration say.  One its operator paused is as it was.  One that is loaded on
    demand, is not loaded when the iteration starts, and does not answer the one
    quiet look it is given then, is believed absent and keeps no open circuit,
    however long it is silent.  The chores that follow change none of it. *)
Theorem iteration_reaches_everyone c eps reply answers mono wall s :
  NoDup (map fst eps) ->
  exists s', iteration c eps reply answers mono wall s = (Ret tt, s')
  /\ forall e d, (e, d) ∈ eps -> reached e d (answers e) mono s s'.
Proof.
  intros N. unfold poller_iteration. rewrite run_bind. cbn [in_breaker se_modify].
  set (s0 := with_breaker (set_residency _ _) s). destruct (poll_all_reaches eps answers mono s0 N) as (s1 & E & _ & _ & R).
  rewrite run_bind, E.
  match goal with |- context [?k s1] => assert (C : chore k) end.
  { apply chore_then; [apply sweep_chore|]. intros _. apply chore_then; [apply maintain_chore|]. intros _.
    apply chore_then; [apply chore_fail|]. intros _. apply chore_then; [by apply chore_modify|]. intros _. by apply chore_modify. }
  destruct (C s1) as (s' & E' & B). exists s'. split; [exact E'|]. intros e d I. injection B as B1 B2 B3 B4.
  eapply reached_later; [exact (R e d I)|done..| | |]; [by rewrite B1|by unfold circuit_of; rewrite B2|by rewrite B4].
Qed.
End Poller.
