(* ===== verification/Streaming.v ===== *)
(** * The relay of a stream (lifecycle.py, [execute_streaming])

    A dispatched request whose caller reads a stream: the chunks of the backend
    are put into the queue of the caller as they come, under watchdogs that move
    with the progress made, while detectors watch what is relayed; then the second
    call after a reasoning loop, the judgements of the end, and the one frame that
    closes the stream.  What happens to the relay is a list of [Arrival]s with
    their times: an event of the backend's generator, its end or failure, a firing
    of the timer, and the two moments of the progress probe (a task beside the
    relay).  Where the list ends nothing more comes, and the timer fires.  The
    caller reads fast enough that its queue of 256 frames never fills. *)

From Stdlib Require Import Ascii QArith Qminmax Lia ZArith.
From stdpp Require Import base list strings gmap sorting.
From S2P Require Import Prelude PyDict PyText Config Json ThinkSwitch ThinkBleed ThinkStats Budget Cost Queue JsonRead ToolStream Degen Scheduler Spend NoStore Goodput Wal OnDemand Keepalive Intent Grammar Effort Forced Replay Correct Payload Backend Completion Sync Timeout Deadline Relay.

Local Open Scope string_scope.

Definition _STREAM_TTFT_DEADLINE_S : Q := 30.
Definition _STREAM_PREFILL_FLOOR_TOK_S : Q := 240.
Definition _STREAM_INTERTOKEN_GAP_S : Q := 30.
Definition _STREAM_GAP_TOOLS_S : Q := 60.
Definition _STREAM_GAP_MAX_EXTENSIONS : Z := 4.
Definition _STREAM_GAP_PROBE_FRACTION : Q := 3 # 10.

(** ** What the caller reads *)

(** The frames of the queue; [ErrorFrame] and [DoneFrame] end it. *)
Inductive Frame :=
| AdmittedFrame (queue_wait_ms : Q)
| ChunkFrame (data : string)
| ErrorFrame (error : string) (code : option string)
| DoneFrame (d : dict string json).

(** ** What happens to the relay *)

Inductive Arrival :=
| Came (t : Q) (e : StreamEvent)
| Exhausted (t : Q)
| BackendRaises (t : Q) (f : CallFailure)
| TimerFires (t : Q)
| ProbeWakes (t : Q)
| ProbeAnswers (t : Q) (raw : option (dict Counter (option Q))).

Definition arrival_time (a : Arrival) : Q :=
  match a with
  | Came t _ | Exhausted t | BackendRaises t _ | TimerFires t | ProbeWakes t | ProbeAnswers t _ => t
  end.

(** Why the loop is left: in order ([break], the end of the generator), or by an
    exception. *)
Inductive StreamExc := TimedOut | BackendRaised (f : CallFailure) | Faulted (e : PyErr).
Inductive Halt := Leave | Abort (x : StreamExc).

(** ** What is read of the endpoint, and the switches *)

Record StreamEp := mkStreamEp {
  sp_role : string;
  sp_model : string;
  sp_replay : bool;
  sp_loop : LoopConf;
  sp_blank_run_abort_chars : Z;
  sp_rescue : RescueEp
}.

Record StreamSwitches := mkStreamSwitches {
  inject_stream_usage : bool;
  reasoning_loop_break_enabled : bool;
  reasoning_loop_break_shadow : bool;
  reasoning_loop_answer_now : bool;
  structured_blank_run_abort_enabled : bool
}.

(** ** The locals *)

(** Usage, finish and provenance. *)
Record Meter := mkMeter {
  mt_echoed : option string;
  mt_input : Z;
  mt_output : Z;
  mt_cached : option Z;
  mt_finish : json;
  mt_done : bool;
  mt_chunks : Z;
  mt_splits : Z
}.

(** What is gathered of the answer, and the detectors. *)
Record Gathered := mkGathered {
  ga_content : string;
  ga_reasoning : string;
  ga_calls : dict Z CallAcc;
  ga_loop : LoopDet;
  ga_blank : BlankDet
}.

(** The probe: its extensions, its last reading, and where it stands. *)
Inductive ProbeAt := Sleeping | Asking | Gone.
Record Probe := mkProbe { pb_extensions : Z; pb_prev : option (Q * Q); pb_at : ProbeAt }.

(** The timer, and the marks it moves by. *)
Record Watch := mkWatch { wa_ttft_ms : option Q; wa_last_chunk : Q; wa_deadline : Q; wa_probe : Probe }.

(** Which verdict of the proxy stopped the stream. *)
Record Verdicts := mkVerdicts { mk_loop_broken : bool; mk_answer_now : bool; mk_blank_broken : bool; mk_hard_cap : bool }.

(** The shared state with the caller's queue, and the locals. *)
Record Stream := mkStream {
  st_proxy : Proxy;
  st_frames : list Frame;
  st_replay : ReplayState;
  st_tally : StreamTally;
  st_meter : Meter;
  st_gathered : Gathered;
  st_watch : Watch;
  st_marks : Verdicts
}.

Definition on_proxy {A} (m : SE Proxy A) : SE Stream A := fun s =>
  let '(r, p) := m (st_proxy s) in
  (r, mkStream p (st_frames s) (st_replay s) (st_tally s) (st_meter s) (st_gathered s) (st_watch s) (st_marks s)).

(** [await stream_q.put(frame)] *)
Definition put (f : Frame) : SE Stream unit := se_modify (fun s =>
  mkStream (st_proxy s) (st_frames s ++ [f])%list (st_replay s) (st_tally s) (st_meter s) (st_gathered s) (st_watch s) (st_marks s)).
Definition on_replay (f : ReplayState -> ReplayState) : SE Stream unit := se_modify (fun s =>
  mkStream (st_proxy s) (st_frames s) (f (st_replay s)) (st_tally s) (st_meter s) (st_gathered s) (st_watch s) (st_marks s)).
Definition on_tally (f : StreamTally -> StreamTally) : SE Stream unit := se_modify (fun s =>
  mkStream (st_proxy s) (st_frames s) (st_replay s) (f (st_tally s)) (st_meter s) (st_gathered s) (st_watch s) (st_marks s)).
Definition on_meter (f : Meter -> Meter) : SE Stream unit := se_modify (fun s =>
  mkStream (st_proxy s) (st_frames s) (st_replay s) (st_tally s) (f (st_meter s)) (st_gathered s) (st_watch s) (st_marks s)).
Definition on_gathered (f : Gathered -> Gathered) : SE Stream unit := se_modify (fun s =>
  mkStream (st_proxy s) (st_frames s) (st_replay s) (st_tally s) (st_meter s) (f (st_gathered s)) (st_watch s) (st_marks s)).
Definition on_watch (f : Watch -> Watch) : SE Stream unit := se_modify (fun s =>
  mkStream (st_proxy s) (st_frames s) (st_replay s) (st_tally s) (st_meter s) (st_gathered s) (f (st_watch s)) (st_marks s)).
Definition on_marks (f : Verdicts -> Verdicts) : SE Stream unit := se_modify (fun s =>
  mkStream (st_proxy s) (st_frames s) (st_replay s) (st_tally s) (st_meter s) (st_gathered s) (st_watch s) (f (st_marks s))).
Definition count_stream (f : CorrState -> CorrState) : SE Stream unit := on_proxy (count_corr f).

Definition set_deadline (t : Q) (w : Watch) : Watch := mkWatch (wa_ttft_ms w) (wa_last_chunk w) t (wa_probe w).
Definition set_probe (p : Probe) (w : Watch) : Watch := mkWatch (wa_ttft_ms w) (wa_last_chunk w) (wa_deadline w) p.
Definition set_finish (j : json) (m : Meter) : Meter :=
  mkMeter (mt_echoed m) (mt_input m) (mt_output m) (mt_cached m) j (mt_done m) (mt_chunks m) (mt_splits m).
Definition set_done (b : bool) (m : Meter) : Meter :=
  mkMeter (mt_echoed m) (mt_input m) (mt_output m) (mt_cached m) (mt_finish m) b (mt_chunks m) (mt_splits m).
Definition set_output (n : Z) (m : Meter) : Meter :=
  mkMeter (mt_echoed m) (mt_input m) n (mt_cached m) (mt_finish m) (mt_done m) (mt_chunks m) (mt_splits m).
Definition add_chunks (n splits : Z) (m : Meter) : Meter :=
  mkMeter (mt_echoed m) (mt_input m) (mt_output m) (mt_cached m) (mt_finish m) (mt_done m) (mt_chunks m + n) (mt_splits m + splits).

Section Streaming.
(** The decoder's and printer's parameters, the alias table, the keep-alive
    policies, the clocks at the end of the request, the hard caps of streams, the
    switches, and the judgement of [_is_best_effort_timeout]. *)
Context (float_text : string -> string) (float_repr : Q -> string).
Context (roles : dict string string) (keepalive : string -> option KeepaliveConf) (mono wall : Q).
Context (stream_hard_caps : dict string Q) (replays : dict string bool) (sw : Switches) (xsw : StreamSwitches) (best_effort : bool).
Context (fault_text : PyErr -> string).
(** What the correction of a finished stream asks. *)
Context (valid_schema : dict string json -> bool) (satisfies : dict string json -> json -> bool) (clock : nat -> Q).
(** The second call: what its stream brings for its payload and its time, whether
    it failed after that, and the clock then. *)
Context (rescue_stream : dict string json -> Q -> list StreamEvent * bool * Q).

Abbreviation finish := (record_completion roles keepalive mono wall).

(** ** Before the first chunk *)

(** What is fixed before the loop. *)
Record Setup := mkSetup {
  su_t0 : Q;
  su_payload : dict string json;
  su_inject : bool;
  su_structured : bool;
  su_expects_json : bool;
  su_tools : bool;
  su_accumulate : bool;
  su_loop : LoopConf;
  su_stream_timeout : Q;
  su_soft : bool;
  su_hard_limit : Q;
  su_ttft : Q;
  su_gap : Q
}.

Definition inert : LoopConf := mkLoopConf 0 0 0 0.

Definition client_wants_usage (p : dict string json) : bool :=
  match jget p "stream_options" with JDict so => truthy (jget so "include_usage") | _ => false end.

Definition with_usage (p : dict string json) : dict string json :=
  let so := match jget p "stream_options" with JDict so => so | _ => [] end in
  dset p "stream_options" (JDict (dset so "include_usage" (JBool true))).

Definition set_up (ep : StreamEp) (r : QueuedRequest) (t0 : Q) : Setup :=
  let p := r_payload r in
  let inject := (is_chat r && negb (client_wants_usage p) && inject_stream_usage xsw)%bool in
  let structured := (structured_validity_guard_enabled sw && is_chat r && request_is_structured r)%bool in
  let expects := (structured && request_expects_json r)%bool in
  let timeout := pymax 1 (r_timeout_deadline r - t0) in
  let soft := r_deadline_is_default r in
  let hard := if soft then pymax timeout (_stream_hard_cap_s roles stream_hard_caps r) else timeout in
  mkSetup t0 (if inject then with_usage p else p) inject structured expects
    (is_chat r && request_declares_tools (JDict p))%bool (uniform_correction_enabled sw || expects || sp_replay ep)%bool
    (if reasoning_loop_break_enabled xsw then sp_loop ep else inert) timeout soft hard
    (pymin (_STREAM_TTFT_DEADLINE_S + inject_Z (r_est_input_tokens r) / _STREAM_PREFILL_FLOOR_TOK_S) hard)
    (pymin (if truthy (jget p "tools") then _STREAM_GAP_TOOLS_S else _STREAM_INTERTOKEN_GAP_S) hard).

Definition blank_detector (ep : StreamEp) (r : QueuedRequest) : BlankDet :=
  blank_init (if (structured_blank_run_abort_enabled xsw && _blank_run_eligible r)%bool then sp_blank_run_abort_chars ep else 0).

Definition meter_init : Meter := mkMeter None 0 0 None JNull false 0 0.
Definition marks_init : Verdicts := mkVerdicts false false false false.
Definition probe_init : Probe := mkProbe 0 None Sleeping.

(** The state at the start of the loop. *)
Definition opened (ep : StreamEp) (r : QueuedRequest) (su : Setup) (s : Stream) : Stream :=
  mkStream (st_proxy s) (st_frames s) (st_replay s) (st_tally s) meter_init
    (mkGathered "" "" [] (loop_init (su_loop su)) (blank_detector ep r))
    (mkWatch None (su_t0 su) (su_t0 su + su_ttft su) probe_init) marks_init.

(** [_stream_model_body] *)
Definition _stream_model_body (ep : StreamEp) (m : Meter) : dict string json :=
  match mt_echoed m with
  | Some model => [("model", JStr model); ("model_source", JStr "backend_echo")]
  | None => [("model", JStr (sp_model ep)); ("model_source", JStr "endpoint_config")]
  end.

Definition call_json (c : CallAcc) : json :=
  JDict [("id", ca_id c); ("type", ca_type c);
         ("function", JDict [("name", JStr (ca_name c)); ("arguments", JStr (ca_args c))])].

(** [[calls[i] for i in sorted(calls)]] *)
Definition sorted_calls (calls : dict Z CallAcc) : list json :=
  omap (fun i => call_json <$> dget calls i) (merge_sort Z.le (dkeys calls)).

(** ** One arrival *)

Section Relaying.
Context (ep : StreamEp) (r : QueuedRequest) (su : Setup).

Definition time_left (t : Q) : Q := (su_hard_limit su - (t - su_t0 su))%Q.

(** Progress: every watchdog but the hard cap starts afresh. *)
Definition progress (t : Q) : SE Stream (option Halt) :=
  _ ← on_watch (fun w => mkWatch (Some (default ((t - su_t0 su) * 1000)%Q (wa_ttft_ms w))) t (wa_deadline w) (wa_probe w));
  if Qle_bool (time_left t) 0 then
    _ ← on_marks (fun m => mkVerdicts (mk_loop_broken m) (mk_answer_now m) (mk_blank_broken m) true);
    mret (Some (Abort TimedOut))
  else
    _ ← on_watch (set_deadline (t + pymin (su_gap su) (time_left t))%Q);
    mret None.

(** The model that serves, as the backend names it first. *)
Definition note_model (p : dict string json) : SE Stream unit := on_meter (fun m =>
  match mt_echoed m, jget p "model" with
  | None, JStr s => if String.eqb s "" then m
                    else mkMeter (Some s) (mt_input m) (mt_output m) (mt_cached m) (mt_finish m) (mt_done m) (mt_chunks m) (mt_splits m)
  | _, _ => m
  end).

(** The usage of a chunk; answers whether the chunk is there for it alone. *)
Definition note_usage (p : dict string json) : SE Stream bool :=
  let usage := jget p "usage" in
  if truthy usage then
    match usage with
    | JDict u =>
        _ ← on_meter (fun m => mkMeter (mt_echoed m) (coerce_token_count (jget u "prompt_tokens") (mt_input m))
                                 (coerce_token_count (jget u "completion_tokens") (mt_output m))
                                 (match extract_cached_tokens usage with Some n => Some n | None => mt_cached m end)
                                 (mt_finish m) (mt_done m) (mt_chunks m) (mt_splits m));
        mret (su_inject su && negb (truthy (jget p "choices")))%bool
    | _ => se_lift (Raise AttributeError)
    end
  else mret false.

Definition with_content (piece : string) (d : BlankDet) (g : Gathered) : Gathered :=
  mkGathered (ga_content g ++ piece) (ga_reasoning g) (ga_calls g) (ga_loop g) d.

(** The content, under the blank-run detector. *)
Definition take_content (delta : json) : SE Stream (option Halt) :=
  match delta with
  | JDict d =>
      match jget d "content" with
      | JStr piece =>
          s ← se_get;
          let '(verdict, det) := blank_feed (ga_blank (st_gathered s)) (Some (code_points piece)) in
          _ ← on_gathered (with_content piece det);
          match verdict with
          | None => mret None
          | Some _ =>
              _ ← count_stream (incr "structured_blank_runs_detected");
              _ ← count_stream (incr "structured_blank_runs_unrecovered");
              _ ← on_marks (fun m => mkVerdicts (mk_loop_broken m) (mk_answer_now m) true (mk_hard_cap m));
              mret (Some (Abort TimedOut))
          end
      | _ => mret None
      end
  | _ => mret None
  end.

(** The reasoning of a delta, in either spelling. *)
Definition delta_reasoning (d : dict string json) : option string :=
  match jget d "reasoning" with
  | JStr s => Some s
  | _ => match jget d "reasoning_content" with JStr s => Some s | _ => None end
  end.

Definition keep_reasoning (d : dict string json) (g : Gathered) : Gathered :=
  mkGathered (ga_content g) (ga_reasoning g ++ default "" (delta_reasoning d)) (ga_calls g) (ga_loop g) (ga_blank g).

Definition keep_calls (d : dict string json) (g : Gathered) : Gathered :=
  mkGathered (ga_content g) (ga_reasoning g) (accumulate_tool_call_deltas (ga_calls g) (jget d "tool_calls")) (ga_loop g) (ga_blank g).

(** The reasoning, under the loop detector. *)
Definition watch_reasoning (d : dict string json) : SE Stream (option Halt) :=
  if negb (loop_armed (su_loop su)) then mret None
  else
    s ← se_get;
    let '(verdict, det) := loop_feed (su_loop su) (ga_loop (st_gathered s)) (code_points <$> delta_reasoning d) in
    _ ← on_gathered (fun g => mkGathered (ga_content g) (ga_reasoning g) (ga_calls g) det (ga_blank g));
    match verdict with
    | None => mret None
    | Some _ =>
        _ ← count_stream (incr "reasoning_loops_detected");
        if reasoning_loop_break_shadow xsw then mret None
        else
          _ ← count_stream (incr "reasoning_loops_broken");
          _ ← on_marks (fun m => mkVerdicts true (reasoning_loop_answer_now xsw) (mk_blank_broken m) (mk_hard_cap m));
          mret (Some (if reasoning_loop_answer_now xsw then Leave else Abort TimedOut))
    end.

Definition or_else (h : option Halt) (m : SE Stream (option Halt)) : SE Stream (option Halt) :=
  match h with Some _ => mret h | None => m end.

Definition take_choice (choice : dict string json) : SE Stream (option Halt) :=
  let fr := jget choice "finish_reason" in
  _ ← (if truthy fr then on_meter (set_finish fr) else mret tt);
  let delta := jget choice "delta" in
  h ← (if su_accumulate su then take_content delta else mret None);
  or_else h (match delta with
             | JDict d =>
                 _ ← (if sp_replay ep then on_gathered (keep_reasoning d) else mret tt);
                 _ ← (if (sp_replay ep || su_tools su)%bool then on_gathered (keep_calls d) else mret tt);
                 watch_reasoning d
             | _ => mret None
             end).

(** What a chunk says; [false] beside it: it is relayed. *)
Definition read_chunk (parsed : json) : SE Stream (option Halt * bool) :=
  if truthy parsed then
    match parsed with
    | JDict p =>
        _ ← note_model p;
        usage_only ← note_usage p;
        let choices := jget p "choices" in
        if truthy choices then
          first ← se_lift (ThinkBleed.first_choice choices);
          match first with
          | JDict choice => h ← take_choice choice; mret (h, usage_only)
          | _ => mret (None, usage_only)
          end
        else mret (None, usage_only)
    | _ => se_lift (Raise AttributeError)
    end
  else mret (None, false).

(** A chunk, to the caller: as it came, or in two where its finish rode on its
    text. *)
Definition relay_chunk (data : string) (parsed : option json) : SE Stream unit :=
  match (match parsed with Some (JDict p) => _split_coalesced_finish_chunk p | _ => None end) with
  | None => _ ← on_meter (add_chunks 1 0); put (ChunkFrame data)
  | Some (text, last) =>
      _ ← on_meter (add_chunks 1 1);
      _ ← put (ChunkFrame (dumps (JDict text)));
      _ ← on_meter (add_chunks 1 0);
      put (ChunkFrame (dumps (JDict last)))
  end.

Definition relay_unless (data : string) (parsed : option json) (hu : option Halt * bool) : SE Stream (option Halt) :=
  match hu with
  | (Some h, _) => mret (Some h)
  | (None, true) => mret None
  | (None, false) => _ ← relay_chunk data parsed; mret None
  end.

Definition on_event (t : Q) (e : StreamEvent) : SE Stream (option Halt) :=
  match e with
  | EvChunk data parsed =>
      h ← progress t;
      or_else h (
        hu ← match parsed with Some j => read_chunk j | None => mret (None, false) end;
        relay_unless data parsed hu)
  | EvHold => progress t
  | EvDone _ => _ ← on_meter (set_done true); mret (Some Leave)
  end.

(** *** The progress probe *)

Definition check_s : Q := pymax (2 # 10) (su_gap su * _STREAM_GAP_PROBE_FRACTION).

(** It wakes: it asks only about a stream that has begun and is silent. *)
Definition probe_wakes (t : Q) (w : Watch) : Watch :=
  let p := wa_probe w in
  match pb_at p with
  | Sleeping =>
      if (bool_decide (wa_ttft_ms w = None) || Qltb (t - wa_last_chunk w) check_s)%bool
      then set_probe (mkProbe (pb_extensions p) None Sleeping) w
      else set_probe (mkProbe (pb_extensions p) (pb_prev p) Asking) w
  | _ => w
  end.

(** [{k: (v or 0)}] of the two counters; [None] where one is missing. *)
Definition reading (raw : dict Counter (option Q)) : option (Q * Q) :=
  match dget raw K_prompt, dget raw K_generation with
  | Some p, Some g => Some (default 0 p, default 0 g)%Q
  | _, _ => None
  end.

Definition probe_gone (w : Watch) : Watch :=
  set_probe (mkProbe (pb_extensions (wa_probe w)) (pb_prev (wa_probe w)) Gone) w.

(** The answer: counters that moved push the deadline out. *)
Definition probe_answers (t : Q) (raw : option (dict Counter (option Q))) : SE Stream unit :=
  s ← se_get;
  let w := st_watch s in
  let p := wa_probe w in
  match pb_at p with
  | Asking =>
      match raw ≫= reading with
      | None => on_watch probe_gone
      | Some now =>
          match pb_prev p with
          | None => on_watch (set_probe (mkProbe (pb_extensions p) (Some now) Sleeping))
          | Some prev =>
              if negb (Qltb prev.1 now.1 || Qltb prev.2 now.2) then on_watch probe_gone
              else if Qle_bool (time_left t) 0 then on_watch probe_gone
              else
                let n := (pb_extensions p + 1)%Z in
                _ ← on_watch (fun w => set_deadline (t + pymin (su_gap su) (time_left t))%Q
                                         (set_probe (mkProbe n (Some now) (if (n <? _STREAM_GAP_MAX_EXTENSIONS)%Z then Sleeping else Gone)) w));
                count_stream (incr "stream_progress_extensions")
          end
      end
  | _ => mret tt
  end.

(** *** The loop *)

(** [try]: a fault is why the loop is left. *)
Definition tried (m : SE Stream (option Halt)) : SE Stream (option Halt) := fun s =>
  match m s with
  | (Ret h, s') => (Ret h, s')
  | (Raise e, s') => (Ret (Some (Abort (Faulted e))), s')
  end.

Definition arrive (a : Arrival) : SE Stream (option Halt) :=
  match a with
  | Came t e => tried (on_event t e)
  | Exhausted _ => mret (Some Leave)
  | BackendRaises _ f => mret (Some (Abort (BackendRaised f)))
  | TimerFires t => s ← se_get; mret (if Qle_bool (wa_deadline (st_watch s)) t then Some (Abort TimedOut) else None)
  | ProbeWakes t => _ ← on_watch (probe_wakes t); mret None
  | ProbeAnswers t raw => _ ← probe_answers t raw; mret None
  end.

(** [async for]; with the time at which the loop is left. *)
Fixpoint relay_loop (now : Q) (l : list Arrival) : SE Stream (Halt * Q) :=
  match l with
  | [] => s ← se_get; mret (Abort TimedOut, pymax now (wa_deadline (st_watch s)))
  | a :: l =>
      h ← arrive a;
      match h with
      | Some h => mret (h, arrival_time a)
      | None => relay_loop (arrival_time a) l
      end
  end.
End Relaying.

(** ** How a stream ends *)

Section Ending.
Context (ep : StreamEp) (d : DispatchDecision) (su : Setup).

Abbreviation r := (dd_request d).

(** [f"{x:.0f}"] *)
Definition fixed0 (q : Q) : string := str_of_Z (round_half_even q).

(** A completion with what was measured so far. *)
Definition complete_stream (duration : Q) (status : string) (finish_reason : json) (cached : option Z) : SE Stream unit :=
  s ← se_get;
  let m := st_meter s in
  on_proxy (finish d (mkEnding duration (mt_input m) (mt_output m) status (Some (_stream_model_body ep m)) finish_reason cached)).

(** [str(exc)] *)
Definition exc_text (x : StreamExc) : string :=
  match x with
  | TimedOut => ""
  | BackendRaised (CallFault e) | Faulted e => fault_text e
  | BackendRaised f => failure_text f
  end.

Definition is_timer (x : StreamExc) : bool := match x with TimedOut => true | _ => false end.

(** Which bound fired, and what the caller is told. *)
Definition abort_verdict (s : Stream) (t : Q) (x : StreamExc) : string * string :=
  let g := st_gathered s in
  let w := st_watch s in
  let m := st_marks s in
  if mk_loop_broken m then
    ("reasoning_loop",
     match ld_verdict (ga_loop g) with
     | Some v => "backend reasoning entered a repeating cycle and stopped making progress; aborted after " ++ str_of_Z (lv_seen v)
                 ++ " reasoning chars (distinct_gram_ratio " ++ float_repr (lv_ratio v) ++ " over " ++ str_of_Z (lv_window v) ++ " chars)"
     | None => ""
     end)
  else if mk_blank_broken m then
    ("structured_blank_run",
     match bd_verdict (ga_blank g) with
     | Some v => "backend content entered a blank/whitespace run and stopped making progress; aborted after " ++ str_of_Z (bv_run v)
                 ++ " consecutive blank chars (" ++ str_of_Z (bv_content v) ++ " content chars) — not re-dispatched on a streaming caller"
     | None => ""
     end)
  else if (bool_decide (wa_ttft_ms w = None) && is_timer x)%bool then
    ("ttft", "backend produced no output within " ++ fixed0 (su_ttft su) ++ "s (ttft timeout) — backpressure")
  else if (is_timer x && Qle_bool (su_gap su - (1 # 2)) (t - wa_last_chunk w))%bool then
    ("stall", "backend stalled mid-stream (no token for " ++ fixed0 (su_gap su) ++ "s) — backpressure")
  else if (mk_hard_cap m || (su_soft su && Qle_bool (su_hard_limit su) (t - su_t0 su)))%bool then
    ("hard_cap", "stream exceeded the absolute " ++ fixed0 (su_hard_limit su) ++ "s cap while still progressing — backpressure")
  else ("caller_deadline", "stream deadline exceeded — backpressure (" ++ exc_text x ++ ")").

Definition note_extension (t : Q) : SE Stream unit :=
  on_tally (_note_stream_extension (t - su_t0 su) (su_stream_timeout su) (su_soft su)).

(** [except (asyncio.TimeoutError, BackendTimeout)] *)
Definition on_stream_timeout (t : Q) (x : StreamExc) : SE Stream unit :=
  s ← se_get;
  let '(reason, err) := abort_verdict s t x in
  _ ← (if String.eqb reason "hard_cap" then count_stream (incr "stream_hard_cap_aborts") else mret tt);
  _ ← put (ErrorFrame err None);
  let duration := (t - su_t0 su)%Q in
  _ ← note_extension t;
  _ ← complete_stream duration "timeout" JNull None;
  _ ← on_proxy (se_modify (record_timeout_event r "stream" duration reason));
  on_proxy (se_modify (note_failure (mkFailureNote (r_endpoint r) (if is_timer x then OtherExc else BackendTimeout) best_effort))).

(** [except Exception] *)
Definition on_stream_failure (t : Q) (x : StreamExc) : SE Stream unit :=
  _ ← put (ErrorFrame (exc_text x) None);
  _ ← complete_stream (t - su_t0 su) "error" JNull None;
  on_proxy (se_modify (note_failure (mkFailureNote (r_endpoint r) (match x with BackendRaised f => as_exc f | _ => OtherExc end) false))).

Definition on_abort (t : Q) (x : StreamExc) : SE Stream unit :=
  match x with
  | TimedOut | BackendRaised (CallTimeout _) => on_stream_timeout t x
  | _ => on_stream_failure t x
  end.

(** *** The second call *)

Definition notes_of (d : LoopDet) : string := String.string_of_list_ascii (map (fun n => ascii_of_N (Z.to_N n)) (loop_head d)).

(** [_answer_now_stream]: the tokens, whether its end was seen, and the clock. *)
Definition _answer_now_stream (notes : string) (remaining t : Q) : SE Stream (Z * bool * Q) :=
  match answer_now_request (r_payload r) (sp_rescue ep) notes with
  | None => mret (0%Z, false, t)
  | Some second =>
      let '(events, broke, t') := rescue_stream second (pymax 5 remaining) in
      let '(relayed, (tokens, done), answered) := answer_now_relay events broke in
      _ ← se_fold (fun _ data => put (ChunkFrame data)) tt relayed;
      _ ← (if answered then count_stream (incr "reasoning_loops_answered") else mret tt);
      mret (tokens, done, t')
  end.

Definition rescue_failed_text (g : Gathered) : string :=
  "backend reasoning entered a repeating cycle and stopped making progress after "
  ++ str_of_Z (match ld_verdict (ga_loop g) with Some v => lv_seen v | None => 0 end)
  ++ " reasoning chars; the answer-now re-ask returned nothing".

(** After the loop: the clock at which the stream ends, or [None] where it has
    ended here. *)
Definition rescued (t : Q) : SE Stream (option Q) :=
  s ← se_get;
  if negb (mk_answer_now (st_marks s)) then mret (Some t)
  else
    x ← _answer_now_stream (notes_of (ga_loop (st_gathered s))) (time_left su t) t;
    let '(extra, done, t) := x in
    if (negb (extra =? 0)%Z || done)%bool then
      _ ← on_meter (fun m => set_finish (if truthy (mt_finish m) then mt_finish m else JStr "stop")
                               (set_done (mt_done m || done)%bool (set_output (mt_output m + extra) m)));
      mret (Some t)
    else
      _ ← put (ErrorFrame (rescue_failed_text (st_gathered s)) None);
      _ ← complete_stream (t - su_t0 su) "error" JNull None;
      mret None.

(** *** The judgements of the end *)

Record Guard := mkGuard { gd_err : option string; gd_code : option string; gd_status : string }.

Definition clean : Guard := mkGuard None None "ok".

(** A structured stream that was cut, or whose text does not parse. *)
Definition structured_guard : SE Stream Guard :=
  s ← se_get;
  let m := st_meter s in
  let b := "backend " ++ sp_role ep in
  let out := str_of_Z (mt_output m) in
  if (su_structured su && text_is (mt_finish m) "length")%bool then
    mret (mkGuard (Some (b ++ " truncated structured output (finish_reason=length, output_tokens=" ++ out ++ ")")) None "truncated")
  else if (su_expects_json su && negb (String.eqb (strip (ga_content (st_gathered s))) ""))%bool then
    match loads float_text (ga_content (st_gathered s)) with
    | Some _ => mret clean
    | None =>
        _ ← count_stream (record_structured_parse_failure r);
        mret (mkGuard (Some (b ++ " returned invalid JSON for a structured request (stream reassembly does not parse; output_tokens="
                             ++ out ++ ")")) None "error")
    end
  else mret clean.

(** A tool turn that was cut. *)
Definition tool_guard : SE Stream Guard :=
  s ← se_get;
  let m := st_meter s in
  let calls := sorted_calls (ga_calls (st_gathered s)) in
  if is_truncated_tool_turn float_text r (text_option (mt_finish m)) calls (mt_output m) then
    _ ← on_proxy (on_corr (record_truncated_tool_turn roles r (text_option (mt_finish m))));
    mret (mkGuard (Some (truncated_tool_turn_message r (sp_role ep) (mt_output m) (mt_finish m))) (Some TRUNCATED_TOOL_TURN_CODE) "truncated")
  else if (negb (text_is (mt_finish m) "length") && has_cut_tool_call float_text calls)%bool then
    _ ← on_proxy (on_corr (record_truncation_event r true));
    mret (mkGuard (Some ("backend " ++ sp_role ep ++ " truncated structured output (finish_reason=" ++ py_str (mt_finish m)
                         ++ " mislabel — tool_call arguments cut mid-JSON, output_tokens=" ++ str_of_Z (mt_output m) ++ ")"))
            (Some "toolcall_truncated") "truncated")
  else mret clean.

Definition end_guard : SE Stream Guard :=
  g ← structured_guard;
  match gd_err g with
  | None => if su_tools su then tool_guard else mret g
  | Some _ => mret g
  end.

(** The terminal chunk a backend that said [DONE] forgot. *)
Definition synthesized : string := dumps (JDict
  [("id", JStr ("chatcmpl-" ++ r_request_id r)); ("object", JStr "chat.completion.chunk"); ("created", JInt (Qtrunc wall));
   ("model", JStr (sp_model ep));
   ("choices", JList [JDict [("index", JInt 0); ("delta", JDict []); ("finish_reason", JStr "stop"); ("proxy_synthesized_finish", JBool true)]])]).

Definition repair_finish (g : Guard) : SE Stream unit :=
  s ← se_get;
  let m := st_meter s in
  if (negb (truthy (mt_finish m)) && mt_done m && (0 <? mt_chunks m)%Z && bool_decide (gd_err g = None))%bool then
    _ ← on_meter (set_finish (JStr "stop"));
    put (ChunkFrame synthesized)
  else mret tt.

Definition done_frame (duration : Q) (s : Stream) : dict string json :=
  let m := st_meter s in
  let frame : dict string json :=
    [("type", JStr "done"); ("queue_wait_ms", rounded float_repr 1 (queue_wait_ms d));
     ("backend_latency_ms", rounded float_repr 1 (duration * 1000)); ("ttft_ms", rounded float_repr 1 (default 0%Q (wa_ttft_ms (st_watch s))));
     ("usage", JDict [("prompt_tokens", JInt (mt_input m)); ("completion_tokens", JInt (mt_output m))])] in
  match r_degraded_from r with
  | Some e => if String.eqb e "" then frame else dset (dset frame "degraded" (JBool true)) "degraded_from" (JStr e)
  | None => frame
  end.

(** The last frame, then the books, then what is learnt of the stream. *)
Definition close_stream (t : Q) (g : Guard) : SE Stream unit :=
  let duration := (t - su_t0 su)%Q in
  s ← se_get;
  _ ← put (match gd_err g with Some e => ErrorFrame e (gd_code g) | None => DoneFrame (done_frame duration s) end);
  let m := st_meter s in
  let status := if (String.eqb (gd_status g) "ok" && text_is (mt_finish m) "length" && request_is_structured r)%bool
                then "truncated" else gd_status g in
  _ ← complete_stream duration status (mt_finish m) (mt_cached m);
  let got := st_gathered s in
  _ ← (if uniform_correction_enabled sw
       then on_proxy (on_corr (finalize_stream float_text sw valid_schema satisfies clock r (ga_content got))) else mret tt);
  if (sp_replay ep && String.eqb status "ok")%bool then
    on_replay (store_reasoning_replay float_text roles replays (mkReplayReq (r_payload_type r) (no_store r) (r_endpoint r) (JDict (r_payload r)))
      (JStr (ga_content got)) (match ga_calls got with [] => JNull | calls => JList (sorted_calls calls) end) (JStr (ga_reasoning got)) mono)
  else mret tt.

Definition end_of_stream (t : Q) : SE Stream unit :=
  o ← rescued t;
  match o with
  | None => mret tt
  | Some t =>
      _ ← note_extension t;
      g ← end_guard;
      _ ← repair_finish g;
      close_stream t g
  end.
End Ending.

(** ** The dispatch of a stream *)

(** [consumer]: the caller's queue is there still; [arrivals]: what the backend
    sends for a payload and a time. *)
Definition execute_streaming (ep : StreamEp) (d : DispatchDecision) (consumer : bool) (t0 : Q)
    (arrivals : dict string json -> Q -> list Arrival) : SE Stream unit :=
  let r := dd_request d in
  if negb consumer then
    on_proxy (finish d (mkEnding 0 0 0 "cancelled" (Some (_stream_model_body ep meter_init)) JNull None))
  else
    _ ← put (AdmittedFrame (py_round 1 (queue_wait_ms d)));
    let su := set_up ep r t0 in
    _ ← se_modify (opened ep r su);
    x ← relay_loop ep su t0 (arrivals (su_payload su) (su_hard_limit su));
    match x with
    | (Abort exc, t) => on_abort ep d su t exc
    | (Leave, t) => end_of_stream ep d su t
    end.

(** [try: ... except Exception], around a stream. *)
Definition or_stream_failed (d : DispatchDecision) (consumer : bool) (elapsed : Q) (m : SE Stream unit) : SE Stream unit := fun s =>
  match m s with
  | (Ret _, s) => (Ret tt, s)
  | (Raise e, s) =>
      (_ ← (if consumer then put (ErrorFrame (fault_text e) None) else mret tt : SE Stream unit);
       on_proxy (fail_with roles keepalive mono wall d (fault_text e) no_extras (failed_ending elapsed "error")) : SE Stream unit) s
  end.

(** [execute_dispatch] of a stream; [elapsed] the seconds until it fails. *)
Definition dispatch_stream (slot_hash : string -> Z) (sync_ep : SyncEp) (ep : StreamEp) (d : DispatchDecision) (consumer : bool)
    (t0 elapsed : Q) (arrivals : dict string json -> Q -> list Arrival) : SE Stream unit :=
  let d := with_request d (pin_slot slot_hash sync_ep (dd_request d)) in
  _ ← on_proxy (se_modify (submit (persist_dispatch (r_request_id (dd_request d)))));
  or_stream_failed d consumer elapsed (execute_streaming ep d consumer t0 arrivals).
End Streaming.
