(* ===== verification/StreamingProps.v ===== *)
(** * A stream reaches its end

    However the chunks of the backend, the timer and the progress probe
    interleave, a dispatched stream ends once, and its caller reads the admission,
    chunks, and one last frame ([stream_ends_once]). *)

From Stdlib Require Import Ascii QArith Qminmax Lqa Lia ZArith.
From stdpp Require Import base list strings gmap sorting.
From S2P Require Import Prelude PyDict PyText Config Json ThinkSwitch ThinkBleed ThinkStats Budget Cost Queue JsonRead ToolStream Degen Scheduler SchedSteps SchedProps Spend NoStore Goodput Wal OnDemand Keepalive Intent Grammar Effort Forced Replay Correct Payload Backend Completion Sync SyncProps Timeout Deadline Relay Streaming.

Local Open Scope string_scope.

(** ** What a step leaves alone *)

Lemma leaves_on_proxy {A P} (part : Stream -> P) (m : SE Proxy A) :
  (forall s p, part (mkStream p (st_frames s) (st_replay s) (st_tally s) (st_meter s) (st_gathered s) (st_watch s) (st_marks s)) = part s) ->
  leaves part (on_proxy m).
Proof. intros H s. unfold on_proxy. destruct (m _) as [x p]. apply H. Qed.

(** What is left alone by every step that is named. *)
Ltac leaving := cbv zeta; repeat (lazymatch goal with
  | |- leaves _ (mbind _ se_get) => apply leaves_get; intros; cbv zeta
  | |- leaves _ (mbind _ _) => apply leaves_bind; [|intros]
  | |- leaves _ (on_proxy _) => apply leaves_on_proxy; by intros
  | |- leaves _ (match ?x with _ => _ end) => destruct x
  | |- leaves _ _ => by intros ?
  end).

(** ** Computations that only relay *)

(** Nothing is settled, and only chunks are added to the caller's queue. *)
Definition relays {A} (m : SE Stream A) : Prop := forall s,
  books (st_proxy (m s).2) = books (st_proxy s) /\ exists datas, st_frames (m s).2 = (st_frames s ++ map ChunkFrame datas)%list.

Lemma relays_ret {A} (a : A) : relays (mret a).
Proof. intros s. split; [done|]. exists []. by rewrite app_nil_r. Qed.
Lemma relays_lift {A} (x : res A) : relays (se_lift x).
Proof. intros s. split; [done|]. exists []. by rewrite app_nil_r. Qed.
Lemma relays_bind {A B} (m : SE Stream A) (f : A -> SE Stream B) : relays m -> (forall a, relays (f a)) -> relays (m ≫= f).
Proof.
  intros M F s. destruct (M s) as (B1 & ds & E1). rewrite run_bind. destruct (m s) as [[a|e] s1]; cbn [snd] in *; [|by eauto].
  destruct (F a s1) as (B2 & ds' & E2). split; [congruence|]. exists (ds ++ ds')%list. by rewrite E2, E1, map_app, app_assoc.
Qed.
Lemma relays_get {B} (f : Stream -> SE Stream B) : (forall s, relays (f s)) -> relays (se_get ≫= f).
Proof. intros F s. rewrite run_get. apply F. Qed.
Lemma relays_if {A} (b : bool) (m n : SE Stream A) : relays m -> relays n -> relays (if b then m else n).
Proof. by destruct b. Qed.
Lemma relays_modify f : (forall s, st_proxy (f s) = st_proxy s /\ st_frames (f s) = st_frames s) -> relays (se_modify f).
Proof. intros F s. destruct (F s) as [E1 E2]. cbn [se_modify snd]. split; [by rewrite E1|]. exists []. by rewrite E2, app_nil_r. Qed.
Lemma relays_chunk data : relays (put (ChunkFrame data)).
Proof. intros s. split; [done|]. by exists [data]. Qed.
Lemma relays_proxy {A} (m : SE Proxy A) : quiet m -> relays (on_proxy m).
Proof.
  intros Q s. specialize (Q (st_proxy s)). unfold on_proxy. destruct (m (st_proxy s)) as [x p]. cbn in *. split; [done|].
  exists []. by rewrite app_nil_r.
Qed.
Lemma relays_count f : relays (count_stream f).
Proof. apply relays_proxy. apply quiet_count. Qed.
Lemma relays_meter f : relays (on_meter f).
Proof. by apply relays_modify. Qed.
Lemma relays_gathered f : relays (on_gathered f).
Proof. by apply relays_modify. Qed.
Lemma relays_watch f : relays (on_watch f).
Proof. by apply relays_modify. Qed.
Lemma relays_marks f : relays (on_marks f).
Proof. by apply relays_modify. Qed.
Lemma relays_tally f : relays (on_tally f).
Proof. by apply relays_modify. Qed.
Lemma relays_replay f : relays (on_replay f).
Proof. by apply relays_modify. Qed.
Lemma relays_fold {B} (f : unit -> B -> SE Stream unit) l : (forall x, relays (f tt x)) -> relays (se_fold f tt l).
Proof.
  intros F. induction l as [|x l IH]; [apply relays_ret|]. cbn [se_fold]. apply relays_bind; [apply F|]. by intros [].
Qed.

(** Follows the shape of a computation. *)
Ltac relaying := cbv zeta; repeat (lazymatch goal with
  | |- relays (mret _) => apply relays_ret
  | |- relays (se_lift _) => apply relays_lift
  | |- relays (mbind _ se_get) => apply relays_get; intros; cbv zeta
  | |- relays (mbind _ _) => apply relays_bind; [|intros]
  | |- relays (put (ChunkFrame _)) => apply relays_chunk
  | |- relays (count_stream _) => apply relays_count
  | |- relays (on_meter _) => apply relays_meter
  | |- relays (on_gathered _) => apply relays_gathered
  | |- relays (on_watch _) => apply relays_watch
  | |- relays (on_marks _) => apply relays_marks
  | |- relays (on_tally _) => apply relays_tally
  | |- relays (on_replay _) => apply relays_replay
  | |- relays (match ?x with _ => _ end) => destruct x
  end).

Section Relayed.
Context (xsw : StreamSwitches) (ep : StreamEp) (su : Setup).

Lemma progress_relays t : relays (Streaming.progress su t).
Proof. unfold Streaming.progress. relaying. Qed.

Lemma take_content_relays delta : relays (take_content delta).
Proof. unfold take_content. relaying. Qed.

Lemma watch_reasoning_relays d : relays (watch_reasoning xsw su d).
Proof. unfold watch_reasoning. relaying. Qed.

Lemma take_choice_relays c : relays (take_choice xsw ep su c).
Proof.
  unfold take_choice. cbv zeta. apply relays_bind; [relaying|]. intros _. apply relays_bind.
  { apply relays_if; [apply take_content_relays|apply relays_ret]. }
  intros [h|]; cbn [or_else]; [apply relays_ret|]. case_match; try apply relays_ret.
  relaying. apply watch_reasoning_relays.
Qed.

Lemma read_chunk_relays parsed : relays (read_chunk xsw ep su parsed).
Proof.
  unfold read_chunk, note_model, note_usage. relaying; apply take_choice_relays.
Qed.

Lemma relay_chunk_relays data parsed : relays (relay_chunk data parsed).
Proof. unfold relay_chunk. relaying. Qed.

Lemma on_event_relays t e : relays (on_event xsw ep su t e).
Proof.
  unfold on_event. destruct e as [data parsed| |data].
  - apply relays_bind; [apply progress_relays|]. intros [h|]; cbn [or_else]; [apply relays_ret|].
    apply relays_bind; [case_match; [apply read_chunk_relays|apply relays_ret]|].
    intros [[h|] []]; cbn [relay_unless]; try apply relays_ret. apply relays_bind; [apply relay_chunk_relays|]. intros _. relaying.
  - apply progress_relays.
  - relaying.
Qed.

Lemma arrive_relays a : relays (arrive xsw ep su a).
Proof.
  destruct a as [t e| | | | |t raw]; cbn [arrive].
  - intros s. pose proof (on_event_relays t e s) as R. unfold tried. by destruct (on_event xsw ep su t e s) as [[h|x] s'].
  - relaying.
  - relaying.
  - relaying.
  - relaying.
  - apply relays_bind; [unfold probe_answers; relaying|]. intros _. relaying.
Qed.

Lemma arrive_returns a s : exists h, (arrive xsw ep su a s).1 = Ret h.
Proof.
  destruct a as [t e|t|t f|t|t|t raw]; cbn [arrive]; try by eexists.
  - unfold tried. destruct (on_event xsw ep su t e s) as [[h|x] s']; by eexists.
  - rewrite run_bind. unfold probe_answers, on_watch, count_stream, on_proxy, count_corr. rewrite run_get. cbv zeta.
    repeat case_match; simplify_eq/=; by eexists.
Qed.

Lemma relay_loop_relays now l : relays (relay_loop xsw ep su now l).
Proof.
  revert now. induction l as [|a l IH]; intros now; cbn [relay_loop]; [relaying|].
  apply relays_bind; [apply arrive_relays|]. intros [h|]; [apply relays_ret|apply IH].
Qed.

Lemma relay_loop_returns now l s : exists x, (relay_loop xsw ep su now l s).1 = Ret x.
Proof.
  revert now s. induction l as [|a l IH]; intros now s; cbn [relay_loop]; [by eexists|].
  rewrite run_bind. destruct (arrive_returns a s) as [h E]. destruct (arrive xsw ep su a s) as [x s1]. cbn [fst] in E. subst x.
  destruct h as [h|]; [by eexists|apply IH].
Qed.
End Relayed.

(** ** What the caller reads is what the backend sent *)

(** The events of the backend, until its generator ends. *)
Fixpoint sent (l : list Arrival) : list StreamEvent :=
  match l with
  | [] => []
  | Came _ e :: l => e :: sent l
  | (Exhausted _ | BackendRaises _ _) :: _ => []
  | _ :: l => sent l
  end.

Definition chunk_of (e : StreamEvent) : dict string json := match e with EvChunk _ (Some (JDict p)) => p | _ => [] end.

Definition usage_of (e : StreamEvent) : dict string json := match jget (chunk_of e) "usage" with JDict u => u | _ => [] end.

Definition choice_of (e : StreamEvent) : dict string json :=
  match ThinkBleed.first_choice (jget (chunk_of e) "choices") with Ret (JDict c) => c | _ => [] end.

Definition delta_of (e : StreamEvent) : dict string json := match jget (choice_of e) "delta" with JDict d => d | _ => [] end.

(** A chunk that is there for the usage the proxy asked for. *)
Definition usage_only (su : Setup) (e : StreamEvent) : bool :=
  (su_inject su && truthy (JDict (usage_of e)) && negb (truthy (jget (chunk_of e) "choices")))%bool.

(** The chunks a caller reads of an event. *)
Definition shown (su : Setup) (e : StreamEvent) : list string :=
  match e with
  | EvChunk data _ =>
      if usage_only su e then []
      else match _split_coalesced_finish_chunk (chunk_of e) with
           | Some (text, last) => [dumps (JDict text); dumps (JDict last)]
           | None => [data]
           end
  | _ => []
  end.

(** What the events say of the answer: its text, its finish, its tool calls, its
    tokens. *)
Definition piece_of (e : StreamEvent) : string := match jget (delta_of e) "content" with JStr s => s | _ => "" end.
Definition text_of (es : list StreamEvent) : string := String.concat "" (map piece_of es).
Definition next_finish (f : json) (e : StreamEvent) : json :=
  if truthy (jget (choice_of e) "finish_reason") then jget (choice_of e) "finish_reason" else f.
Definition finish_of (es : list StreamEvent) : json := foldl next_finish JNull es.
Definition next_calls (acc : dict Z CallAcc) (e : StreamEvent) : dict Z CallAcc := accumulate_tool_call_deltas acc (jget (delta_of e) "tool_calls").
Definition calls_of (es : list StreamEvent) : list json := sorted_calls (foldl next_calls [] es).
Definition next_output (n : Z) (e : StreamEvent) : Z :=
  match usage_of e with [] => n | u => coerce_token_count (jget u "completion_tokens") n end.
Definition output_of (es : list StreamEvent) : Z := foldl next_output 0%Z es.

Section Verbatim.
Context (xsw : StreamSwitches) (ep : StreamEp) (su : Setup).

(** What the loop tells the end of the stream. *)
Record View := mkView { vw_frames : list Frame; vw_text : string; vw_finish : json; vw_calls : dict Z CallAcc; vw_output : Z; vw_done : bool; vw_chunks : Z }.

Definition view (s : Stream) : View :=
  mkView (st_frames s) (ga_content (st_gathered s)) (mt_finish (st_meter s)) (ga_calls (st_gathered s)) (mt_output (st_meter s)) (mt_done (st_meter s))
    (mt_chunks (st_meter s)).

(** The view after an event that was relayed. *)
Definition extended (e : StreamEvent) (v : View) : View :=
  mkView (vw_frames v ++ map ChunkFrame (shown su e)) (if su_accumulate su then vw_text v ++ piece_of e else vw_text v)
    (next_finish (vw_finish v) e) (if (sp_replay ep || su_tools su)%bool then next_calls (vw_calls v) e else vw_calls v)
    (next_output (vw_output v) e) (vw_done v) (vw_chunks v + Z.of_nat (length (shown su e))).

Lemma progress_view t : leaves view (Streaming.progress su t).
Proof.
  unfold Streaming.progress. apply leaves_bind; [by intros s|]. intros _. apply leaves_if; (apply leaves_bind; [by intros s|]); intros _; by intros s.
Qed.

Lemma count_view f : leaves view (count_stream f).
Proof. by intros s. Qed.

Lemma take_content_view delta s s' :
  take_content delta s = (Ret None, s') ->
  st_frames s' = st_frames s /\ st_meter s' = st_meter s /\ ga_calls (st_gathered s') = ga_calls (st_gathered s)
  /\ ga_content (st_gathered s') = ga_content (st_gathered s)
       ++ match delta with JDict d => match jget d "content" with JStr p => p | _ => "" end | _ => "" end.
Proof.
  unfold take_content. destruct delta as [| | | | | |d]; try (intros [= <-]; by rewrite sapp_nil_r).
  destruct (jget d "content") as [| | | |piece| |]; try (intros [= <-]; by rewrite sapp_nil_r).
  rewrite run_get. destruct (blank_feed _ _) as [[v|] det].
  - intros H. do 4 apply se_bind_Ret in H as (? & ? & _ & H). discriminate.
  - by intros [= <-].
Qed.

Lemma watch_reasoning_view d : leaves view (watch_reasoning xsw su d).
Proof.
  unfold watch_reasoning. apply leaves_if; [by intros s|]. apply leaves_get. intros s0. destruct (loop_feed _ _ _) as [[v|] det].
  - apply leaves_bind; [by intros s|]. intros _. apply leaves_bind; [by intros s|]. intros _. apply leaves_if; [by intros s|].
    do 2 (apply leaves_bind; [by intros s|]; intros _). by intros s.
  - apply leaves_bind; [by intros s|]. intros _. by intros s.
Qed.

(** The delta of a choice. *)
Definition choice_delta (c : dict string json) : dict string json := match jget c "delta" with JDict d => d | _ => [] end.

Lemma take_choice_view c s s' :
  take_choice xsw ep su c s = (Ret None, s') ->
  view s' = mkView (st_frames s)
    (if su_accumulate su then ga_content (st_gathered s) ++ match jget (choice_delta c) "content" with JStr p => p | _ => "" end
     else ga_content (st_gathered s))
    (if truthy (jget c "finish_reason") then jget c "finish_reason" else mt_finish (st_meter s))
    (if (sp_replay ep || su_tools su)%bool then accumulate_tool_call_deltas (ga_calls (st_gathered s)) (jget (choice_delta c) "tool_calls")
     else ga_calls (st_gathered s))
    (mt_output (st_meter s)) (mt_done (st_meter s)) (mt_chunks (st_meter s)).
Proof.
  unfold take_choice. cbv zeta. intros H. apply se_bind_Ret in H as (u & s1 & E1 & H).
  assert (V1 : view s1 = mkView (st_frames s) (ga_content (st_gathered s))
            (if truthy (jget c "finish_reason") then jget c "finish_reason" else mt_finish (st_meter s))
            (ga_calls (st_gathered s)) (mt_output (st_meter s)) (mt_done (st_meter s)) (mt_chunks (st_meter s))).
  { destruct (truthy _); by injection E1 as _ <-. }
  clear E1 u. apply se_bind_Ret in H as (h & s2 & E2 & H). destruct h as [h|]; [discriminate|]. cbn [or_else] in H.
  assert (V2 : view s2 = mkView (st_frames s)
            (if su_accumulate su then ga_content (st_gathered s) ++ match jget (choice_delta c) "content" with JStr p => p | _ => "" end
             else ga_content (st_gathered s))
            (if truthy (jget c "finish_reason") then jget c "finish_reason" else mt_finish (st_meter s))
            (ga_calls (st_gathered s)) (mt_output (st_meter s)) (mt_done (st_meter s)) (mt_chunks (st_meter s))).
  { unfold view in V1 |- *. injection V1 as F1 F2 F3 F4 F5 F6 F7. destruct (su_accumulate su).
    - apply take_content_view in E2 as (G1 & G2 & G3 & G4). rewrite G1, G2, G3, G4, F1, F2, F3, F4, F5, F6, F7. unfold choice_delta.
      by destruct (jget c "delta").
    - injection E2 as <-. congruence. }
  clear E2 V1 s1. unfold choice_delta in *. destruct (jget c "delta") as [| | | | | |d];
    try (injection H as <-; rewrite V2; by destruct (sp_replay ep || su_tools su)%bool).
  apply se_bind_Ret in H as (u & s3 & E3 & H).
  assert (V3 : view s3 = view s2) by (destruct (sp_replay ep); by injection E3 as _ <-).
  apply se_bind_Ret in H as (u' & s4 & E4 & H).
  pose proof (watch_reasoning_view d s4) as W. rewrite H in W. cbn [snd] in W. rewrite W. clear W H.
  rewrite V2 in V3. unfold view in V3. injection V3 as F1 F2 F3 F4 F5 F6 F7.
  destruct (sp_replay ep || su_tools su)%bool; injection E4 as _ <-; unfold view; cbn; by rewrite F1, F2, F3, F4, F5, F6, F7.
Qed.

Lemma note_usage_view p s b s' :
  note_usage su p s = (Ret b, s') ->
  b = (su_inject su && truthy (JDict (match jget p "usage" with JDict u => u | _ => [] end)) && negb (truthy (jget p "choices")))%bool
  /\ view s' = mkView (st_frames s) (ga_content (st_gathered s)) (mt_finish (st_meter s)) (ga_calls (st_gathered s))
       (match match jget p "usage" with JDict u => u | _ => [] end with
        | [] => mt_output (st_meter s)
        | u => coerce_token_count (jget u "completion_tokens") (mt_output (st_meter s))
        end) (mt_done (st_meter s)) (mt_chunks (st_meter s)).
Proof.
  unfold note_usage. destruct (jget p "usage") as [| | | | | |u]; cbn [truthy];
    try (case_match; [discriminate|]; intros [= <- <-]; by rewrite andb_false_r).
  - intros [= <- <-]. by rewrite andb_false_r.
  - destruct u as [|kv u]; cbn [truthy].
    + intros [= <- <-]. by rewrite andb_false_r.
    + intros [= <- <-]. by rewrite andb_true_r.
Qed.

(** The part of [extended] that reading a chunk brings. *)
Definition noted (e : StreamEvent) (v : View) : View :=
  mkView (vw_frames v) (vw_text (extended e v)) (vw_finish (extended e v)) (vw_calls (extended e v)) (vw_output (extended e v)) (vw_done v) (vw_chunks v).

Lemma noted_blank e v : choice_of e = [] -> usage_of e = [] -> noted e v = v.
Proof.
  intros C U. unfold noted, extended, next_finish, next_calls, next_output, piece_of, delta_of. rewrite C, U. cbn.
  destruct v; cbn. by destruct (su_accumulate su), (sp_replay ep || su_tools su)%bool; rewrite ?sapp_nil_r.
Qed.

Lemma read_chunk_view data parsed s b s' :
  read_chunk xsw ep su parsed s = (Ret (None, b), s') ->
  b = usage_only su (EvChunk data (Some parsed)) /\ view s' = noted (EvChunk data (Some parsed)) (view s).
Proof.
  unfold read_chunk. destruct (truthy parsed) eqn:T.
  2: { intros [= <- <-]. assert (chunk_of (EvChunk data (Some parsed)) = []) as C by (destruct parsed as [| | | | | |[]]; done).
       unfold usage_only, usage_of. rewrite C. cbn. rewrite andb_false_r. split; [done|]. symmetry.
       apply noted_blank; unfold choice_of, usage_of; by rewrite C. }
  destruct parsed as [| | | | | |p]; try discriminate. intros H.
  apply se_bind_Ret in H as (u & s1 & E1 & H).
  assert (V1 : view s1 = view s).
  { injection E1 as _ <-. unfold view. cbn. destruct (mt_echoed _); [done|]. destruct (jget p "model"); try done. by destruct (String.eqb _ _). }
  clear E1 u. apply se_bind_Ret in H as (b' & s2 & E2 & H). apply note_usage_view in E2 as [B V2].
  assert (UO : usage_only su (EvChunk data (Some (JDict p))) = b') by by rewrite B.
  unfold view in V1. injection V1 as F1 F2 F3 F4 F5 F6 F7.
  assert (REST : choice_of (EvChunk data (Some (JDict p))) = [] -> s' = s2 -> b = b' ->
    b = usage_only su (EvChunk data (Some (JDict p))) /\ view s' = noted (EvChunk data (Some (JDict p))) (view s)).
  { intros C -> ->. split; [done|]. rewrite V2. unfold noted, extended, next_finish, next_calls, next_output, piece_of, delta_of. rewrite C. cbn.
    rewrite F1, F2, F3, F4, F5, F6, F7. by destruct (su_accumulate su), (sp_replay ep || su_tools su)%bool; rewrite ?sapp_nil_r. }
  cbv zeta in H. destruct (truthy (jget p "choices")) eqn:TC.
  2: { injection H as <- <-. apply REST; [|done..]. unfold choice_of. cbn [chunk_of].
       by destruct (jget p "choices") as [| | | |[]|[]|[]]. }
  apply se_bind_Ret in H as (first & s3 & E3 & H). injection E3 as E3 <-.
  destruct first as [| | | | | |c]; try (injection H as <- <-; apply REST; [unfold choice_of; cbn [chunk_of]; by rewrite E3|done..]).
  clear REST. apply se_bind_Ret in H as (h & s3 & E4 & H). injection H as -> <- <-. split; [done|].
  apply take_choice_view in E4. rewrite E4. unfold view in V2. injection V2 as G1 G2 G3 G4 G5 G6 G7.
  rewrite G1, G2, G3, G4, G5, G6, G7, F1, F2, F3, F4, F5, F6, F7.
  assert (C : choice_of (EvChunk data (Some (JDict p))) = c) by (unfold choice_of; cbn [chunk_of]; by rewrite E3).
  unfold noted, extended, next_finish, next_calls, piece_of, delta_of. rewrite C. reflexivity.
Qed.

Lemma relay_chunk_view data parsed s x s' :
  relay_chunk data parsed s = (Ret x, s') ->
  view s' = mkView (st_frames s ++ map ChunkFrame match _split_coalesced_finish_chunk (chunk_of (EvChunk data parsed)) with
                                                  | Some (text, last) => [dumps (JDict text); dumps (JDict last)]
                                                  | None => [data]
                                                  end)
              (ga_content (st_gathered s)) (mt_finish (st_meter s)) (ga_calls (st_gathered s)) (mt_output (st_meter s)) (mt_done (st_meter s))
              (mt_chunks (st_meter s) + match _split_coalesced_finish_chunk (chunk_of (EvChunk data parsed)) with Some _ => 2 | None => 1 end).
Proof.
  unfold relay_chunk. assert (N : _split_coalesced_finish_chunk [] = None) by done. cbn [chunk_of].
  destruct parsed as [[| | | | | |p]|]; rewrite ?N; try (by intros [= _ <-]).
  destruct (_split_coalesced_finish_chunk p) as [[text last]|]; [|by intros [= _ <-]].
  intros [= _ <-]. unfold view. cbn. by rewrite <- app_assoc, <- Z.add_assoc.
Qed.

Lemma on_event_view t e s s' : on_event xsw ep su t e s = (Ret None, s') -> view s' = extended e (view s).
Proof.
  unfold on_event. destruct e as [data parsed| |data].
  - intros H. apply se_bind_Ret in H as (h & s1 & E1 & H). pose proof (progress_view t s) as V1. rewrite E1 in V1. cbn [snd] in V1.
    destruct h as [h|]; [discriminate|]. cbn [or_else] in H. apply se_bind_Ret in H as ([h b] & s2 & E2 & H).
    destruct h as [h|]; [destruct b; discriminate|].
    assert (R : b = usage_only su (EvChunk data parsed) /\ view s2 = noted (EvChunk data parsed) (view s1)).
    { destruct parsed as [j|]; [by apply read_chunk_view|]. injection E2 as <- <-. split; [|by rewrite noted_blank].
      unfold usage_only. cbn. by rewrite andb_false_r. }
    destruct R as [B V2]. rewrite V1 in V2. unfold extended, shown. rewrite <- B. destruct b; cbn [relay_unless] in H.
    + injection H as <-. rewrite V2. unfold noted, extended. cbn. by rewrite app_nil_r, Z.add_0_r.
    + apply se_bind_Ret in H as (u & s3 & E3 & H). injection H as <-. apply relay_chunk_view in E3. rewrite E3.
      unfold view, noted in V2. injection V2 as F1 F2 F3 F4 F5 F6 F7. rewrite F1, F2, F3, F4, F5, F6, F7.
      by destruct (_split_coalesced_finish_chunk _) as [[]|].
  - intros H. pose proof (progress_view t s) as V1. rewrite H in V1. cbn [snd] in V1. rewrite V1. unfold extended.
    change (piece_of EvHold) with "". change (next_finish (vw_finish (view s)) EvHold) with (vw_finish (view s)).
    change (next_calls (vw_calls (view s)) EvHold) with (vw_calls (view s)). change (next_output (vw_output (view s)) EvHold) with (vw_output (view s)).
    cbn [shown map length Z.of_nat]. rewrite app_nil_r, sapp_nil_r, Z.add_0_r. by destruct (view s), (su_accumulate su), (sp_replay ep || su_tools su)%bool.
  - intros H. apply se_bind_Ret in H as (u & s1 & _ & H). discriminate.
Qed.

(** *** Where the loop is left *)

Lemma leaves_frames {A} (m : SE Stream A) : leaves view m -> leaves st_frames m.
Proof. intros V s. by injection (V s). Qed.

Lemma take_content_frames delta : leaves st_frames (take_content delta).
Proof.
  unfold take_content. destruct delta as [| | | | | |d]; try (by intros ?). destruct (jget d "content"); try (by intros ?).
  apply leaves_get. intros s0. destruct (blank_feed _ _) as [[v|] det]; repeat (apply leaves_bind; [by intros ?|intros _]); by intros ?.
Qed.

Lemma take_choice_frames c : leaves st_frames (take_choice xsw ep su c).
Proof.
  unfold take_choice. cbv zeta. apply leaves_bind; [apply leaves_if; by intros s|]. intros _.
  apply leaves_bind; [apply leaves_if; [apply take_content_frames|by intros ?]|]. intros [h|]; cbn [or_else]; [by intros ?|].
  destruct (jget c "delta"); try (by intros ?). do 2 (apply leaves_bind; [apply leaves_if; by intros s|]; intros _).
  apply leaves_frames, watch_reasoning_view.
Qed.

Lemma read_chunk_frames parsed : leaves st_frames (read_chunk xsw ep su parsed).
Proof.
  unfold read_chunk. apply leaves_if; [|by intros ?]. destruct parsed as [| | | | | |p]; try (by intros ?).
  apply leaves_bind; [by intros ?|]. intros _. apply leaves_bind.
  { unfold note_usage. cbv zeta. apply leaves_if; [|by intros ?]. destruct (jget p "usage"); try (by intros ?). }
  intros b. cbv zeta. apply leaves_if; [|by intros ?]. apply leaves_bind; [apply leaves_lift|]. intros first.
  destruct first; try (by intros ?). apply leaves_bind; [apply take_choice_frames|]. intros h. by intros ?.
Qed.

(** The event at which the loop is left is not relayed. *)
Lemma on_event_stops t e s : (on_event xsw ep su t e s).1 <> Ret None -> st_frames (on_event xsw ep su t e s).2 = st_frames s.
Proof.
  unfold on_event. destruct e as [data parsed| |data]; [|intros _; apply (leaves_frames _ (progress_view t))|done].
  rewrite run_bind. pose proof (leaves_frames _ (progress_view t) s) as F. destruct (Streaming.progress su t s) as [[[h|]|x] s1]; cbn [snd] in F;
    [done| |done]. cbn [or_else]. rewrite run_bind.
  set (m := match parsed with Some j => read_chunk xsw ep su j | None => mret (None, false) end).
  assert (M : leaves st_frames m) by (unfold m; destruct parsed; [apply read_chunk_frames|by intros s0]).
  specialize (M s1). destruct (m s1) as [[[[h|] b]|x] s2]; cbn [snd] in M; [by destruct b; cbn; rewrite M| |by cbn; rewrite M].
  destruct b; cbn [relay_unless]; [done|]. rewrite run_bind. unfold relay_chunk.
  destruct (match parsed with Some (JDict p) => _split_coalesced_finish_chunk p | _ => None end) as [[text last]|]; by intros [].
Qed.

Lemma watch_reasoning_leaves d s s' : watch_reasoning xsw su d s = (Ret (Some Leave), s') -> mk_answer_now (st_marks s') = true.
Proof.
  unfold watch_reasoning. destruct (negb _); [discriminate|]. rewrite run_get. destruct (loop_feed _ _ _) as [[v|] det].
  - intros H. do 2 apply se_bind_Ret in H as (? & ? & _ & H). destruct (reasoning_loop_break_shadow xsw); [discriminate|].
    apply se_bind_Ret in H as (? & ? & _ & H). destruct (reasoning_loop_answer_now xsw) eqn:N.
    + apply se_bind_Ret in H as (? & ? & E & H). injection H as <-. by injection E as _ <-.
    + apply se_bind_Ret in H as (? & ? & E & H). discriminate.
  - intros H. apply se_bind_Ret in H as (? & ? & _ & H). discriminate.
Qed.

Lemma take_content_never_leaves delta s s' : take_content delta s <> (Ret (Some Leave), s').
Proof.
  unfold take_content. destruct delta as [| | | | | |d]; try done. destruct (jget d "content"); try done.
  rewrite run_get. destruct (blank_feed _ _) as [[v|] det]; intros H.
  - do 4 apply se_bind_Ret in H as (? & ? & _ & H). discriminate.
  - apply se_bind_Ret in H as (? & ? & _ & H). discriminate.
Qed.

Lemma progress_never_leaves t s s' : Streaming.progress su t s <> (Ret (Some Leave), s').
Proof.
  unfold Streaming.progress. intros H. apply se_bind_Ret in H as (? & ? & _ & H).
  destruct (Qle_bool _ _); apply se_bind_Ret in H as (? & ? & _ & H); discriminate.
Qed.

(** A chunk stops the stream by the verdict of a detector. *)
Lemma read_chunk_stops (P : Halt -> Stream -> Prop) :
  (forall delta s h s', take_content delta s = (Ret (Some h), s') -> P h s') ->
  (forall d s h s', watch_reasoning xsw su d s = (Ret (Some h), s') -> P h s') ->
  forall j s h b s', read_chunk xsw ep su j s = (Ret (Some h, b), s') -> P h s'.
Proof.
  intros C W j s h b s' E. unfold read_chunk in E. destruct (truthy j); [|discriminate].
  destruct j as [| | | | | |p]; try discriminate. do 2 apply se_bind_Ret in E as (? & ? & _ & E). cbv zeta in E.
  destruct (truthy (jget p "choices")); [|discriminate]. apply se_bind_Ret in E as (first & s3 & _ & E).
  destruct first as [| | | | | |c]; try discriminate. apply se_bind_Ret in E as (h' & s4 & E3 & E). injection E as -> _ <-.
  unfold take_choice in E3. cbv zeta in E3. apply se_bind_Ret in E3 as (? & ? & _ & E3). apply se_bind_Ret in E3 as (h' & s5 & E4 & E3).
  destruct h' as [h'|]; cbn [or_else] in E3.
  - injection E3 as -> ->. destruct (su_accumulate su); [by eapply C|discriminate].
  - destruct (jget c "delta") as [| | | | | |d]; try discriminate. do 2 apply se_bind_Ret in E3 as (? & ? & _ & E3). by eapply W.
Qed.

(** The loop is left in order by the end of the stream, or for the second call. *)
Lemma on_event_leaves t e s s' :
  on_event xsw ep su t e s = (Ret (Some Leave), s') ->
  (exists data, e = EvDone data /\ view s' = mkView (st_frames s) (ga_content (st_gathered s)) (mt_finish (st_meter s))
                                              (ga_calls (st_gathered s)) (mt_output (st_meter s)) true (mt_chunks (st_meter s)))
  \/ mk_answer_now (st_marks s') = true.
Proof.
  unfold on_event. destruct e as [data parsed| |data].
  - intros H. right. apply se_bind_Ret in H as (h & s1 & E1 & H). destruct h as [[|x]|]; [by apply progress_never_leaves in E1|discriminate|].
    cbn [or_else] in H. apply se_bind_Ret in H as ([h b] & s2 & E2 & H). destruct h as [h|].
    2: { destruct b; cbn [relay_unless] in H; [discriminate|]. apply se_bind_Ret in H as (? & ? & _ & H). discriminate. }
    assert (X : h = Leave /\ s2 = s') by (destruct b; cbn in H; by injection H as -> ->). destruct X as [-> ->]. clear H.
    destruct parsed as [j|]; [|discriminate].
    refine (read_chunk_stops (fun h s' => h = Leave -> mk_answer_now (st_marks s') = true) _ _ _ _ _ _ _ E2 eq_refl).
    + intros delta s3 h' s4 W ->. by apply take_content_never_leaves in W.
    + intros d s3 h' s4 W ->. by eapply watch_reasoning_leaves.
  - intros H. by apply progress_never_leaves in H.
  - intros H. left. exists data. split; [done|]. by injection H as <-.
Qed.

(** What the events do to the view, one after another. *)
Definition told (es : list StreamEvent) (v : View) : View := foldl (fun v e => extended e v) v es.

Definition at_done (rest : list StreamEvent) : Prop := exists data rest', rest = EvDone data :: rest'.

(** Some of what was sent has been relayed; and all of it, where the loop is left
    in order and for no second call. *)
Inductive Followed (es : list StreamEvent) (x : Halt) (s s' : Stream) : Prop :=
| Followed_by seen rest :
    es = (seen ++ rest)%list ->
    st_frames s' = vw_frames (told seen (view s)) ->
    (x = Leave -> mk_answer_now (st_marks s') = false ->
       (rest = [] /\ view s' = told seen (view s))
       \/ (at_done rest /\ view s' = mkView (vw_frames (told seen (view s))) (vw_text (told seen (view s))) (vw_finish (told seen (view s)))
                                       (vw_calls (told seen (view s))) (vw_output (told seen (view s))) true
                                       (vw_chunks (told seen (view s))))) ->
    Followed es x s s'.

Lemma probe_view t raw : leaves view (probe_answers su t raw).
Proof.
  unfold probe_answers. apply leaves_get. intros s. cbv zeta. destruct (pb_at _); try (by intros ?).
  destruct (raw ≫= reading) as [now|]; [|by intros ?]. destruct (pb_prev _) as [prev|]; [|by intros ?].
  do 2 (apply leaves_if; [by intros ?|]). by intros ?.
Qed.

(** An arrival that is no event changes nothing of the view. *)
Lemma arrive_quiet a : (match a with Came _ _ => False | _ => True end) -> leaves view (arrive xsw ep su a).
Proof.
  intros Q. destruct a as [t e|t|t f|t|t|t raw]; [done|..]; cbn [arrive]; try (by intros ?).
  apply leaves_bind; [apply probe_view|]. intros _. by intros ?.
Qed.

Lemma followed_none x s s' : view s' = view s -> (x = Leave -> mk_answer_now (st_marks s') = false -> True) -> forall es,
  (x <> Leave \/ es = []) -> Followed es x s s'.
Proof.
  intros V _ es H. apply (Followed_by es x s s' [] es); [done|by injection V|]. intros -> _. left. destruct H as [| ->]; [done|].
  by split.
Qed.

Lemma relay_loop_follows now l s h t s' : relay_loop xsw ep su now l s = (Ret (h, t), s') -> Followed (sent l) h s s'.
Proof.
  revert now s. induction l as [|a l IH]; intros now s; cbn [relay_loop].
  { rewrite run_get. intros [= <- _ <-]. by apply followed_none; [| |left]. }
  intros H. apply se_bind_Ret in H as (o & s1 & E & H).
  destruct a as [u e|u|u f|u|u|u raw]; cbn [sent].
  - cbn [arrive] in E. unfold tried in E. destruct (on_event xsw ep su u e s) as [[o'|x] s2] eqn:EV.
    + injection E as -> ->. destruct o as [h'|].
      * injection H as <- _ <-. assert (F : st_frames s1 = st_frames s).
        { pose proof (on_event_stops u e s) as F. rewrite EV in F. by apply F. }
        apply (Followed_by _ h' s s1 [] (e :: sent l)); [done|done|]. intros -> N.
        destruct (on_event_leaves _ _ _ _ EV) as [(data & -> & V)|B]; [|congruence]. right. split; [by eexists _, _|exact V].
      * apply on_event_view in EV. destruct (IH _ _ H) as [seen rest SP FR WH].
        apply (Followed_by _ h s s' (e :: seen) rest).
        -- by rewrite SP.
        -- rewrite FR. unfold told. cbn [foldl]. by rewrite EV.
        -- intros L N. unfold told. cbn [foldl]. rewrite <- EV. by apply WH.
    + injection E as <- <-. injection H as <- _ <-. assert (F : st_frames s2 = st_frames s).
      { pose proof (on_event_stops u e s) as F. rewrite EV in F. by apply F. }
      by apply (Followed_by _ _ s s2 [] (e :: sent l)).
  - injection E as <- <-. injection H as <- _ <-. by apply followed_none; [| |right].
  - injection E as <- <-. injection H as <- _ <-. by apply followed_none; [| |left].
  - pose proof (arrive_quiet (TimerFires u) I s) as V. rewrite E in V. cbn [snd] in V. destruct o as [h'|].
    + injection H as <- _ <-. apply followed_none; [done|done|]. left. intros ->. cbn [arrive] in E. rewrite run_get in E. by destruct (Qle_bool (wa_deadline (st_watch s)) u).
    + destruct (IH _ _ H) as [seen rest SP FR WH]. rewrite V in FR, WH. by apply (Followed_by _ h s s' seen rest).
  - pose proof (arrive_quiet (ProbeWakes u) I s) as V. rewrite E in V. cbn [snd] in V. injection E as <- _.
    destruct (IH _ _ H) as [seen rest SP FR WH]. rewrite V in FR, WH. by apply (Followed_by _ h s s' seen rest).
  - pose proof (arrive_quiet (ProbeAnswers u raw) I s) as V. rewrite E in V. cbn [snd] in V.
    cbn [arrive] in E. apply se_bind_Ret in E as (? & ? & _ & E). injection E as <- ->.
    destruct (IH _ _ H) as [seen rest SP FR WH]. rewrite V in FR, WH. by apply (Followed_by _ h s s' seen rest).
Qed.

Lemma told_cons e es v : told (e :: es) v = told es (extended e v).
Proof. done. Qed.
Lemma told_frames es v : vw_frames (told es v) = (vw_frames v ++ map ChunkFrame (concat (map (shown su) es)))%list.
Proof.
  revert v. induction es as [|e es IH]; intros v; [by rewrite app_nil_r|]. cbn [map concat]. rewrite told_cons.
  rewrite IH. cbn [extended vw_frames]. by rewrite map_app, app_assoc.
Qed.
Lemma told_finish es v : vw_finish (told es v) = foldl next_finish (vw_finish v) es.
Proof. revert v. induction es as [|e es IH]; intros v; [done|]. rewrite told_cons. cbn [foldl]. by rewrite IH. Qed.
Lemma told_output es v : vw_output (told es v) = foldl next_output (vw_output v) es.
Proof. revert v. induction es as [|e es IH]; intros v; [done|]. rewrite told_cons. cbn [foldl]. by rewrite IH. Qed.
Lemma told_done es v : vw_done (told es v) = vw_done v.
Proof. revert v. induction es as [|e es IH]; intros v; [done|]. rewrite told_cons. cbn [foldl]. by rewrite IH. Qed.
Lemma told_chunks es v : vw_chunks (told es v) = (vw_chunks v + Z.of_nat (length (concat (map (shown su) es))))%Z.
Proof.
  revert v. induction es as [|e es IH]; intros v; [cbn; lia|]. rewrite told_cons, IH. cbn [extended vw_chunks map concat].
  rewrite length_app. lia.
Qed.
Lemma told_text es v : su_accumulate su = true -> vw_text (told es v) = vw_text v ++ text_of es.
Proof.
  intros A. revert v. induction es as [|e es IH]; intros v; [by rewrite sapp_nil_r|]. rewrite told_cons. cbn [foldl].
  rewrite IH. cbn [extended vw_text]. rewrite A. unfold text_of. cbn [map]. rewrite sapp_assoc. f_equal.
  destruct (map piece_of es) eqn:E; cbn; [by rewrite sapp_nil_r|done].
Qed.
Lemma told_calls es v : su_tools su = true -> vw_calls (told es v) = foldl next_calls (vw_calls v) es.
Proof.
  intros A. revert v. induction es as [|e es IH]; intros v; [done|]. rewrite told_cons. cbn [foldl]. rewrite IH.
  cbn [extended vw_calls]. by rewrite A, orb_true_r.
Qed.
End Verbatim.

(** ** Computations that close the stream *)

Definition closing (f : Frame) : Prop := match f with ErrorFrame _ _ | DoneFrame _ => True | _ => False end.

(** A request that runs, whose caller waits on no other answer: it reads frames. *)
Definition streams_here (d : DispatchDecision) (s : Stream) : Prop :=
  running_here (dd_request d) (st_proxy s) /\ dget (px_futures (st_proxy s)) (r_request_id (dd_request d)) <> Some None.

Lemma streams_books d s s' : streams_here d s -> books (st_proxy s') = books (st_proxy s) -> streams_here d s'.
Proof.
  intros [R F] E. split; [by eapply running_books|]. injection E as _ _ _ E. by rewrite E.
Qed.

(** Returns, and touches neither books nor frames. *)
Definition settled {A} (m : SE Stream A) : Prop := forall s,
  exists a s', m s = (Ret a, s') /\ books (st_proxy s') = books (st_proxy s) /\ st_frames s' = st_frames s.

Section Ended.
Context (float_text : string -> string) (float_repr : Q -> string).
Context (roles : dict string string) (keepalive : string -> option KeepaliveConf) (mono wall : Q).
Context (stream_hard_caps : dict string Q) (replays : dict string bool) (sw : Switches) (xsw : StreamSwitches) (best_effort : bool).
Context (fault_text : PyErr -> string).
Context (valid_schema : dict string json -> bool) (satisfies : dict string json -> json -> bool) (clock : nat -> Q).
Context (rescue_stream : dict string json -> Q -> list StreamEvent * bool * Q).

Abbreviation ended := (SyncProps.ended wall).

(** Returns, closes the books on the request, and adds no frame. *)
Definition books_close (d : DispatchDecision) (m : SE Stream unit) : Prop := forall s, streams_here d s ->
  exists s', m s = (Ret tt, s') /\ ended d (st_proxy s) (st_proxy s') /\ st_frames s' = st_frames s.

(** Adds chunks; where [over a] the books are closed and a last frame is added,
    and otherwise the books are as they were. *)
Definition may_close {A} (over : A -> bool) (d : DispatchDecision) (m : SE Stream A) : Prop := forall s, streams_here d s ->
  exists datas, match m s with
  | (Ret a, s') =>
      if over a
      then ended d (st_proxy s) (st_proxy s') /\ exists last, closing last /\ st_frames s' = (st_frames s ++ map ChunkFrame datas ++ [last])%list
      else books (st_proxy s') = books (st_proxy s) /\ st_frames s' = (st_frames s ++ map ChunkFrame datas)%list
  | (Raise _, s') => books (st_proxy s') = books (st_proxy s) /\ st_frames s' = (st_frames s ++ map ChunkFrame datas)%list
  end.

Abbreviation closes := (may_close (fun _ : unit => true)).

Lemma settled_tally f : settled (on_tally f).
Proof. intros s. by eexists _, _. Qed.
Lemma settled_ret {A} (a : A) : settled (mret a).
Proof. intros s. by eexists _, _. Qed.
Lemma settled_count f : settled (count_stream f).
Proof. intros s. by eexists _, _. Qed.
Lemma settled_replay f : settled (on_replay f).
Proof. intros s. by eexists _, _. Qed.
Lemma settled_if {A} (b : bool) (m n : SE Stream A) : settled m -> settled n -> settled (if b then m else n).
Proof. by destruct b. Qed.
Lemma settled_bind {A B} (m : SE Stream A) (f : A -> SE Stream B) : settled m -> (forall a, settled (f a)) -> settled (m ≫= f).
Proof.
  intros M F s. destruct (M s) as (a & s1 & E & B1 & F1). destruct (F a s1) as (b & s2 & E2 & B2 & F2).
  exists b, s2. rewrite run_bind, E. split; [done|]. split; congruence.
Qed.
Lemma settled_quiet {A} (m : SE Proxy A) : quiet m -> (forall p, exists a, (m p).1 = Ret a) -> settled (on_proxy m).
Proof.
  intros Q R s. specialize (Q (st_proxy s)). destruct (R (st_proxy s)) as [a E]. unfold on_proxy.
  destruct (m (st_proxy s)) as [x p]. cbn in *. subst x. by eexists _, _.
Qed.
Lemma settled_modify f : quiet (se_modify f) -> settled (on_proxy (se_modify f)).
Proof. intros Q. apply settled_quiet; [done|]. intros p. by eexists. Qed.

Lemma complete_closes ep d n st fr ca : books_close d (complete_stream roles keepalive mono wall ep d n st fr ca).
Proof.
  intros s [R F]. unfold complete_stream. rewrite run_get. cbv zeta. unfold on_proxy.
  match goal with |- context [record_completion _ _ _ _ d ?e _] => destruct (finish_ends roles keepalive mono wall d e (st_proxy s) R) as (p' & -> & _ & E) end.
  eexists. split; [reflexivity|]. split; [by apply E|done].
Qed.

Lemma books_close_then d m (f : unit -> SE Stream unit) : books_close d m -> settled (f tt) -> books_close d (m ≫= f).
Proof.
  intros M F s H. destruct (M s H) as (s1 & E & D & G). destruct (F s1) as ([] & s2 & E2 & B2 & G2). exists s2.
  rewrite run_bind, E. split; [done|]. split; [by eapply ended_books|congruence].
Qed.

Lemma books_close_after {A} d (m : SE Stream A) (f : A -> SE Stream unit) : settled m -> (forall a, books_close d (f a)) -> books_close d (m ≫= f).
Proof.
  intros M F s H. destruct (M s) as (a & s1 & E & B1 & G1). destruct (F a s1 (streams_books _ _ _ H B1)) as (s2 & E2 & D & G2). exists s2.
  rewrite run_bind, E. split; [done|]. split; [by eapply ended_books|congruence].
Qed.

Lemma put_closes d f (m : unit -> SE Stream unit) : closing f -> books_close d (m tt) -> closes d (put f ≫= m).
Proof.
  intros C M s H. exists []. unfold put. rewrite run_modify. set (s1 := mkStream _ _ _ _ _ _ _ _).
  destruct (M s1 H) as (s2 & E & D & G). rewrite E. split; [exact D|]. by exists f.
Qed.

Lemma may_close_relays {A} over d (m : SE Stream A) : relays m -> (forall s a s', m s = (Ret a, s') -> over a = false) -> may_close over d m.
Proof.
  intros R O s H. destruct (R s) as (B & ds & E). exists ds. destruct (m s) as [[a|e] s'] eqn:M; [|done]. by rewrite (O _ _ _ M).
Qed.

(** Chunks, then the rest. *)
Lemma relays_then {A B} over d (m : SE Stream A) (f : A -> SE Stream B) : relays m -> (forall a, may_close over d (f a)) -> may_close over d (m ≫= f).
Proof.
  intros M F s H. destruct (M s) as (B1 & ds & E1). rewrite run_bind. destruct (m s) as [[a|e] s1]; cbn [snd] in *; [|by exists ds].
  destruct (F a s1 (streams_books _ _ _ H B1)) as (ds' & K). exists (ds ++ ds')%list. rewrite map_app.
  destruct (f a s1) as [[b|e] s2].
  - destruct (over b).
    + destruct K as (D & last & C & E). split; [by eapply ended_books|]. exists last. split; [done|]. by rewrite E, E1, <- !app_assoc.
    + destruct K as [B2 E]. split; [congruence|]. by rewrite E, E1, <- app_assoc.
  - destruct K as [B2 E]. split; [congruence|]. by rewrite E, E1, <- app_assoc.
Qed.

Lemma may_close_get {B} over d (f : Stream -> SE Stream B) : (forall s, may_close over d (f s)) -> may_close over d (se_get ≫= f).
Proof. intros F s H. rewrite run_get. by apply F. Qed.

Lemma may_close_if {A} over d (b : bool) (m n : SE Stream A) : may_close over d m -> may_close over d n -> may_close over d (if b then m else n).
Proof. by destruct b. Qed.

(** ** The ends of a stream *)

Abbreviation on_abort := (Streaming.on_abort float_repr roles keepalive mono wall best_effort fault_text).
Abbreviation rescued := (Streaming.rescued roles keepalive mono wall rescue_stream).
Abbreviation close_stream := (Streaming.close_stream float_text float_repr roles keepalive mono wall replays sw valid_schema satisfies clock).
Abbreviation end_of_stream := (Streaming.end_of_stream float_text float_repr roles keepalive mono wall replays sw valid_schema satisfies clock rescue_stream).
Abbreviation relay_loop := (Streaming.relay_loop xsw).
Abbreviation execute_streaming := (Streaming.execute_streaming float_text float_repr roles keepalive mono wall stream_hard_caps replays sw xsw
  best_effort fault_text valid_schema satisfies clock rescue_stream).
Abbreviation dispatch_stream := (Streaming.dispatch_stream float_text float_repr roles keepalive mono wall stream_hard_caps replays sw xsw
  best_effort fault_text valid_schema satisfies clock rescue_stream).

Lemma abort_closes ep d su t x : closes d (on_abort ep d su t x).
Proof.
  assert (T : forall x, closes d (on_stream_timeout float_repr roles keepalive mono wall best_effort fault_text ep d su t x)).
  { clear x. intros x. unfold on_stream_timeout. apply may_close_get. intros s. destruct (abort_verdict _ _ _ _ _ _) as [reason err].
    apply relays_then; [relaying|]. intros _. cbv zeta. apply put_closes; [done|].
    apply books_close_after; [apply settled_tally|]. intros _. apply books_close_then; [apply complete_closes|].
    apply settled_bind; [apply settled_modify, quiet_timeout|]. intros _. apply settled_modify, quiet_failure. }
  assert (F : forall x, closes d (on_stream_failure roles keepalive mono wall fault_text ep d su t x)).
  { clear x. intros x. unfold on_stream_failure. apply put_closes; [done|]. apply books_close_then; [apply complete_closes|].
    apply settled_modify, quiet_failure. }
  unfold Streaming.on_abort. destruct x as [|[]|]; auto.
Qed.

Lemma answer_now_relays d ep notes q t : relays (_answer_now_stream rescue_stream ep d notes q t).
Proof.
  unfold _answer_now_stream. relaying. apply relays_fold. intros data. apply relays_chunk.
Qed.

Definition ended_here (o : option Q) : bool := match o with None => true | Some _ => false end.

Lemma rescued_may_close ep d su t : may_close ended_here d (rescued ep d su t).
Proof.
  unfold Streaming.rescued. apply may_close_get. intros s. apply may_close_if; [|].
  - apply may_close_relays; [relaying|]. by intros s0 a s' [= <- _].
  - apply relays_then; [apply answer_now_relays|]. intros [[extra done] t']. apply may_close_if.
    + apply relays_then; [relaying|]. intros _. apply may_close_relays; [relaying|]. by intros s0 a s' [= <- _].
    + intros s0 H. exists []. unfold put. rewrite run_modify. set (s1 := mkStream _ _ _ _ _ _ _ _).
      destruct (complete_closes ep d (t' - su_t0 su) "error" JNull None s1 H) as (s2 & E & D & G). rewrite run_bind, E.
      split; [exact D|]. eexists. split; [|exact G]. done.
Qed.

Lemma guard_relays ep d su : relays (end_guard float_text roles ep d su).
Proof.
  unfold end_guard, structured_guard, tool_guard. relaying; apply relays_proxy, quiet_corr.
Qed.

Lemma repair_relays ep d g : relays (repair_finish wall ep d g).
Proof. unfold repair_finish. relaying. Qed.

Lemma finalized_settled r text : settled (on_proxy (Completion.on_corr (finalize_stream float_text sw valid_schema satisfies clock r text))).
Proof.
  apply settled_quiet; [apply quiet_corr|]. intros p. unfold Completion.on_corr, finalize_stream, guarded. by eexists.
Qed.

Lemma close_stream_closes ep d su t g : closes d (close_stream ep d su t g).
Proof.
  unfold Streaming.close_stream. cbv zeta. apply may_close_get. intros s. apply put_closes; [by destruct (gd_err g)|].
  apply books_close_then; [apply complete_closes|]. apply settled_bind.
  - apply settled_if; [apply finalized_settled|apply settled_ret].
  - intros _. apply settled_if; [apply settled_replay|apply settled_ret].
Qed.

(** A stage that may close the stream, and what follows where it did not. *)
Lemma closed_or_then {A} (over : A -> bool) d (m : SE Stream A) (f : A -> SE Stream unit) :
  may_close over d m -> (forall a, if over a then f a = mret tt else closes d (f a)) -> closes d (m ≫= f).
Proof.
  intros M F s H. destruct (M s H) as (ds & K). rewrite run_bind. destruct (m s) as [[a|e] s1]; [|by exists ds].
  specialize (F a). destruct (over a).
  - exists ds. rewrite F. exact K.
  - destruct K as [B1 E1]. destruct (F s1 (streams_books _ _ _ H B1)) as (ds' & K). exists (ds ++ ds')%list. rewrite map_app.
    destruct (f a s1) as [[b|e] s2].
    + destruct K as (D & last & C & E). split; [by eapply ended_books|]. exists last. split; [done|]. by rewrite E, E1, <- !app_assoc.
    + destruct K as [B2 E]. split; [congruence|]. by rewrite E, E1, <- app_assoc.
Qed.

Lemma end_closes ep d su t : closes d (end_of_stream ep d su t).
Proof.
  unfold Streaming.end_of_stream. apply (closed_or_then ended_here); [apply rescued_may_close|]. intros [t'|]; [|done]. cbn [ended_here].
  apply relays_then; [apply relays_tally|]. intros _. apply relays_then; [apply guard_relays|]. intros g.
  apply relays_then; [apply repair_relays|]. intros _. apply close_stream_closes.
Qed.

(** What a caller reads of an ended stream. *)
Definition read_to_the_end (d : DispatchDecision) (read : list Frame) : Prop :=
  exists datas last, closing last /\ read = AdmittedFrame (py_round 1 (queue_wait_ms d)) :: map ChunkFrame datas ++ [last].

Lemma pinned_streams slot_hash sep d s :
  streams_here d s -> streams_here (with_request d (pin_slot slot_hash sep (dd_request d))) s.
Proof.
  intros [R F]. split; [by apply running_pinned|]. cbn [dd_request with_request].
  by rewrite (proj1 (pin_slot_same slot_hash sep (dd_request d))).
Qed.

(** A stream that is read, from the loop on. *)
Lemma opened_closes ep d su t0 l :
  closes d (se_modify (opened xsw ep (dd_request d) su) ≫= fun _ => relay_loop ep su t0 l ≫= fun x =>
    match x with
    | (Abort exc, t) => on_abort ep d su t exc
    | (Leave, t) => end_of_stream ep d su t
    end).
Proof.
  apply relays_then; [by apply relays_modify|]. intros _. apply relays_then; [apply relay_loop_relays|].
  intros [[|x] t]; [apply end_closes|apply abort_closes].
Qed.


(** ** A clean end is a whole answer *)

Lemma complete_leaves ep d n st fr ca : leaves st_frames (complete_stream roles keepalive mono wall ep d n st fr ca).
Proof. unfold complete_stream. leaving. Qed.

Lemma put_then f (m : unit -> SE Stream unit) s : leaves st_frames (m tt) -> st_frames ((put f ≫= m) s).2 = (st_frames s ++ [f])%list.
Proof. intros M. unfold put. rewrite run_modify. by rewrite M. Qed.

Lemma abort_last ep d su t x s : exists e c, st_frames (on_abort ep d su t x s).2 = (st_frames s ++ [ErrorFrame e c])%list.
Proof.
  assert (T : forall x, exists e c, st_frames (on_stream_timeout float_repr roles keepalive mono wall best_effort fault_text ep d su t x s).2
                       = (st_frames s ++ [ErrorFrame e c])%list).
  { clear x. intros x. unfold on_stream_timeout. rewrite run_get. destruct (abort_verdict _ _ _ _ _ _) as [reason err].
    rewrite run_bind. match goal with |- context [match ?m s with _ => _ end] => assert (M : leaves st_frames m) by leaving end.
    destruct (String.eqb reason "hard_cap"); cbn in M |- *; (eexists _, _; cbv zeta; rewrite put_then; [reflexivity|];
      leaving; apply complete_leaves). }
  assert (F : forall x, exists e c, st_frames (on_stream_failure roles keepalive mono wall fault_text ep d su t x s).2
                       = (st_frames s ++ [ErrorFrame e c])%list).
  { clear x. intros x. unfold on_stream_failure. eexists _, _. rewrite put_then; [reflexivity|]. leaving. apply complete_leaves. }
  unfold Streaming.on_abort. destruct x as [|[]|]; auto.
Qed.

(** The judgements that passed. *)
Definition judged (ep : StreamEp) (d : DispatchDecision) (su : Setup) (v : View) : Prop :=
  (su_structured su = true -> text_is (vw_finish v) "length" = false)
  /\ (su_expects_json su = true -> strip (vw_text v) = "" \/ is_Some (loads float_text (vw_text v)))
  /\ (su_tools su = true ->
        is_truncated_tool_turn float_text (dd_request d) (text_option (vw_finish v)) (sorted_calls (vw_calls v)) (vw_output v) = false
        /\ (text_is (vw_finish v) "length" = true \/ has_cut_tool_call float_text (sorted_calls (vw_calls v)) = false)).

Lemma guard_judges ep d su s g s' :
  end_guard float_text roles ep d su s = (Ret g, s') -> view s' = view s /\ (gd_err g = None -> judged ep d su (view s)).
Proof.
  unfold end_guard. intros H. apply se_bind_Ret in H as (g1 & s1 & E1 & H).
  assert (G1 : view s1 = view s /\ (gd_err g1 = None ->
    (su_structured su = true -> text_is (vw_finish (view s)) "length" = false)
    /\ (su_expects_json su = true -> strip (vw_text (view s)) = "" \/ is_Some (loads float_text (vw_text (view s)))))).
  { unfold structured_guard in E1. rewrite run_get in E1. cbv zeta in E1. cbn [view vw_finish vw_text].
    destruct (su_structured su && _)%bool eqn:C1; [injection E1 as <- <-; by split|].
    assert (P1 : su_structured su = true -> text_is (mt_finish (st_meter s)) "length" = false)
      by (intros S1; by rewrite S1 in C1).
    destruct (su_expects_json su && _)%bool eqn:C2.
    - destruct (loads float_text (ga_content (st_gathered s))) as [j|] eqn:L.
      + injection E1 as <- <-. split; [done|]. intros _. split; [done|]. intros _. right. by eexists.
      + apply se_bind_Ret in E1 as (? & ? & E & E1). injection E1 as <- <-. injection E as _ <-. by split.
    - injection E1 as <- <-. split; [done|]. intros _. split; [done|]. intros S2. left. rewrite S2 in C2. cbn in C2.
      by apply negb_false_iff, String.eqb_eq in C2. }
  destruct G1 as [V1 J1]. unfold judged. destruct (gd_err g1) as [e|] eqn:GE; [injection H as <- <-; split; [done|]; congruence|].
  specialize (J1 eq_refl). destruct (su_tools su) eqn:T; [|injection H as <- <-; split; [done|]; intros _; split_and!; [apply J1..|done]].
  unfold tool_guard in H. rewrite run_get in H. cbv zeta in H. unfold view in V1. injection V1 as F1 F2 F3 F4 F5 F6 F7.
  rewrite F3, F4, F5 in H. destruct (is_truncated_tool_turn _ _ _ _ _) eqn:TT.
  { apply se_bind_Ret in H as (? & s2 & E & H). injection H as <- <-. split; [|done].
    pose proof (leaves_on_proxy view (Completion.on_corr (record_truncated_tool_turn roles (dd_request d) (text_option (mt_finish (st_meter s))))) (fun _ _ => eq_refl) s1) as V.
    rewrite E in V. cbn [snd] in V. rewrite V. unfold view. by rewrite F1, F2, F3, F4, F5, F6, F7. }
  destruct (negb _ && _)%bool eqn:CC.
  { apply se_bind_Ret in H as (? & s2 & E & H). injection H as <- <-. split; [|done].
    pose proof (leaves_on_proxy view (Completion.on_corr (record_truncation_event (dd_request d) true)) (fun _ _ => eq_refl) s1) as V.
    rewrite E in V. cbn [snd] in V. rewrite V. unfold view. by rewrite F1, F2, F3, F4, F5, F6, F7. }
  injection H as <- <-. split; [unfold view; by rewrite F1, F2, F3, F4, F5, F6, F7|]. intros _. split_and!; [apply J1..|]. intros _.
  cbn [view vw_finish vw_calls vw_output]. split; [done|]. apply andb_false_iff in CC as [CC|CC]; [left; by apply negb_false_iff|by right].
Qed.

(** The chunk the proxy adds for a backend that ended its stream without naming a
    finish. *)
Definition added (ep : StreamEp) (d : DispatchDecision) (finish : json) (done : bool) (chunks : Z) : list string :=
  if (negb (truthy finish) && done && (0 <? chunks)%Z)%bool then [synthesized wall ep d] else [].

Lemma repair_frames ep d g s :
  gd_err g = None ->
  st_frames (repair_finish wall ep d g s).2
    = (st_frames s ++ map ChunkFrame (added ep d (mt_finish (st_meter s)) (mt_done (st_meter s)) (mt_chunks (st_meter s))))%list.
Proof.
  intros E. unfold repair_finish, added. rewrite run_get. cbv zeta. rewrite E, andb_true_r.
  destruct (_ && _)%bool; [done|]. cbn. by rewrite app_nil_r.
Qed.

Lemma close_frames ep d su t g s :
  exists f, st_frames (close_stream ep d su t g s).2 = (st_frames s ++ [f])%list /\ (gd_err g = None <-> exists dd, f = DoneFrame dd).
Proof.
  unfold Streaming.close_stream. cbv zeta. rewrite run_get. eexists. rewrite put_then; [split; [reflexivity|]|].
  - destruct (gd_err g); split; [done| |by eexists|done]. by intros [].
  - apply leaves_bind; [apply complete_leaves|]. intros _. apply leaves_bind; [|intros _; leaving].
    destruct (uniform_correction_enabled sw); [|leaving]. apply leaves_on_proxy. by intros.
Qed.

Lemma end_marks ep d su t s : mk_answer_now (st_marks s) = mk_answer_now (st_marks (end_of_stream ep d su t s).2).
Proof.
  symmetry. apply (f_equal mk_answer_now). revert s. change (leaves st_marks (end_of_stream ep d su t)).
  unfold Streaming.end_of_stream. apply leaves_bind.
  - unfold Streaming.rescued, _answer_now_stream, complete_stream. leaving. apply leaves_fold. by intros [] data _.
  - intros [t'|]; [|by intros ?]. apply leaves_bind; [by intros ?|]. intros _. apply leaves_bind.
    + unfold end_guard, structured_guard, tool_guard. leaving.
    + intros g. apply leaves_bind; [unfold repair_finish; leaving|]. intros _. unfold Streaming.close_stream, complete_stream. leaving.
Qed.

(** The end of a stream whose loop was left in order, where it is a clean one. *)
Lemma clean_end ep d su t s s' dd :
  end_of_stream ep d su t s = (Ret tt, s') -> last (st_frames s') = Some (DoneFrame dd) -> mk_answer_now (st_marks s) = false ->
  judged ep d su (view s)
  /\ st_frames s' = (st_frames s ++ map ChunkFrame (added ep d (mt_finish (st_meter s)) (mt_done (st_meter s)) (mt_chunks (st_meter s)))
                      ++ [DoneFrame dd])%list.
Proof.
  unfold Streaming.end_of_stream, Streaming.rescued. intros H L N. apply se_bind_Ret in H as (o & s1 & E & H).
  rewrite run_get, N in E. cbn [negb] in E. injection E as <- <-.
  apply se_bind_Ret in H as (u & s1 & E & H). assert (V1 : view s1 = view s) by by injection E as _ <-. clear E u.
  apply se_bind_Ret in H as (g & s2 & E & H). apply guard_judges in E as [V2 J]. rewrite V1 in V2, J.
  apply se_bind_Ret in H as (u & s3 & E & H). destruct (close_frames ep d su t g s3) as (f & F & W). rewrite H in F. cbn [snd] in F.
  rewrite F, last_snoc in L. injection L as ->. assert (G : gd_err g = None) by (apply W; by eexists).
  split; [by apply J|]. pose proof (repair_frames ep d g s2 G) as R. rewrite E in R. cbn [snd] in R.
  unfold view in V2. injection V2 as F1 F2 F3 F4 F5 F6 F7. by rewrite F, R, F1, F3, F6, F7, <- app_assoc.
Qed.

Definition all_read (rest : list StreamEvent) : bool := match rest with [] => true | EvDone _ :: _ => true | _ => false end.

Definition said_done (rest : list StreamEvent) : bool := match rest with [] => false | _ => true end.

(** A clean end, and the judgements it passed. *)
Lemma clean_end_judged ep d t0 arrivals s s' dd :
  execute_streaming ep d true t0 arrivals s = (Ret tt, s') -> last (st_frames s') = Some (DoneFrame dd) ->
  mk_answer_now (st_marks s') = false ->
  let su := set_up roles stream_hard_caps sw xsw ep (dd_request d) t0 in
  exists seen rest, sent (arrivals (su_payload su) (su_hard_limit su)) = (seen ++ rest)%list /\ all_read rest = true
  /\ (let relayed := concat (map (shown su) seen) in
      st_frames s' = (st_frames s ++ AdmittedFrame (py_round 1 (queue_wait_ms d)) ::
        map ChunkFrame (relayed ++ added ep d (finish_of seen) (said_done rest) (Z.of_nat (length relayed))) ++ [DoneFrame dd])%list)
  /\ (su_structured su = true -> text_is (finish_of seen) "length" = false)
  /\ (su_expects_json su = true -> strip (text_of seen) = "" \/ is_Some (loads float_text (text_of seen)))
  /\ (su_tools su = true ->
        is_truncated_tool_turn float_text (dd_request d) (text_option (finish_of seen)) (calls_of seen) (output_of seen) = false
        /\ (text_is (finish_of seen) "length" = true \/ has_cut_tool_call float_text (calls_of seen) = false)).
Proof.
  unfold Streaming.execute_streaming. cbv zeta. cbn [negb]. set (su := set_up _ _ _ _ _ _ _). intros H L N.
  apply se_bind_Ret in H as (u & s1 & E & H). assert (F1 : st_frames s1 = (st_frames s ++ [AdmittedFrame (py_round 1 (queue_wait_ms d))])%list)
    by by injection E as _ <-. clear E u.
  apply se_bind_Ret in H as (u & s2 & E & H).
  assert (V2 : view s2 = mkView (st_frames s1) "" JNull [] 0 false 0) by by injection E as _ <-. clear E u.
  apply se_bind_Ret in H as ([x t] & s3 & E & H). apply relay_loop_follows in E as [seen rest SP FR WH].
  destruct x as [|x].
  2: { destruct (abort_last ep d su t x s3) as (e & c & A). rewrite H in A. cbn [snd] in A. rewrite A, last_snoc in L. discriminate. }
  assert (N3 : mk_answer_now (st_marks s3) = false). { rewrite (end_marks ep d su t s3), H. exact N. }
  destruct (clean_end ep d su t s3 s' dd H L N3) as [J F].
  set (relayed := concat (map (shown su) seen)).
  assert (K : all_read rest = true /\ view s3 = mkView (vw_frames (told ep su seen (view s2))) (vw_text (told ep su seen (view s2)))
    (vw_finish (told ep su seen (view s2))) (vw_calls (told ep su seen (view s2))) (vw_output (told ep su seen (view s2))) (said_done rest)
    (vw_chunks (told ep su seen (view s2)))).
  { destruct (WH eq_refl N3) as [[-> V]|[(data & rest' & ->) V]]; (split; [done|]); rewrite V; [|done].
    assert (D : vw_done (told ep su seen (view s2)) = false) by by rewrite told_done, V2. cbn [said_done]. rewrite <- D.
    by destruct (told ep su seen (view s2)). }
  destruct K as [R V3]. exists seen, rest. split; [exact SP|]. split; [exact R|].
  assert (FN : vw_finish (told ep su seen (view s2)) = finish_of seen) by by rewrite told_finish, V2.
  assert (ON : vw_output (told ep su seen (view s2)) = output_of seen) by by rewrite told_output, V2.
  assert (CH : vw_chunks (told ep su seen (view s2)) = Z.of_nat (length relayed)) by by rewrite told_chunks, V2.
  assert (FR0 : vw_frames (told ep su seen (view s2)) = (st_frames s1 ++ map ChunkFrame relayed)%list) by by rewrite told_frames, V2.
  rewrite FR0, FN, ON, CH in V3. unfold judged in J. rewrite V3 in J. cbn [vw_finish vw_text vw_calls vw_output] in J. destruct J as (J1 & J2 & J3).
  split; [|split; [exact J1|split]].
  - unfold view in V3. injection V3 as G1 G2 G3 G4 G5 G6 G7. rewrite F, G1, G3, G6, G7, F1.
    by rewrite map_app, <- !app_assoc.
  - intros X. specialize (J2 X). rewrite told_text, V2 in J2; [exact J2|]. unfold su, set_up in X |- *. cbn [su_expects_json su_accumulate] in *.
    by rewrite X, orb_true_r.
  - intros X. specialize (J3 X). by rewrite told_calls, V2 in J3.
Qed.

End Ended.
