(* ===== verification/StreamClock.v ===== *)
(** * The clock of a stream

    The timer of the relay moves with every chunk and with every answer of the
    progress probe.  Whatever comes and whenever: no stream outlives its hard
    limit, none is silent for long, and none is timed out before its time
    ([stream_clock]). *)

From Stdlib Require Import Ascii QArith Qminmax Lqa Lia ZArith.
From stdpp Require Import base list strings gmap sorting.
From S2P Require Import Prelude PyDict PyText Config Json ThinkSwitch ThinkBleed Budget Cost Queue JsonRead ToolStream Degen Scheduler Goodput Keepalive Correct Backend Completion Sync Timeout Deadline Relay Streaming StreamingProps.

Local Open Scope string_scope.

(** When the silence of the backend began to run out: its first chunk is due in
    the time to the first token, the next one in the gap. *)
Definition heard (su : Setup) (w : Watch) : Q :=
  match wa_ttft_ms w with None => su_t0 su + su_ttft su | Some _ => wa_last_chunk w + su_gap su end.

(** A detector of the proxy stopped the stream. *)
Definition marked (s : Stream) : bool := (mk_loop_broken (st_marks s) || mk_blank_broken (st_marks s))%bool.

Section Clock.
Context (xsw : StreamSwitches) (ep : StreamEp) (su : Setup).
(** How late the event loop runs what is due. *)
Context (late : Q) (Late : (0 <= late)%Q).
Context (Gap : (0 <= su_gap su)%Q).

(** Arrivals in the order of their times, none later than the timer in force
    allows. *)
Fixpoint on_time (now : Q) (l : list Arrival) (s : Stream) : Prop :=
  match l with
  | [] => True
  | a :: l =>
      (now <= arrival_time a)%Q /\ (arrival_time a <= wa_deadline (st_watch s) + late)%Q
      /\ match arrive xsw ep su a s with (Ret None, s') => on_time (arrival_time a) l s' | _ => True end
  end.

Abbreviation extensions w := (inject_Z (pb_extensions (wa_probe w))).

(** What holds of the timer while the stream is relayed. *)
Record Ticking (now : Q) (w : Watch) : Prop := {
  tick_hard : (wa_deadline w <= su_t0 su + su_hard_limit su)%Q;
  tick_silence : (wa_deadline w <= heard su w + extensions w * (su_gap su + late))%Q;
  tick_early : (su_t0 su + su_hard_limit su <= wa_deadline w)%Q \/ (heard su w <= wa_deadline w)%Q;
  tick_probe : (0 <= pb_extensions (wa_probe w) <= 4)%Z /\ (pb_at (wa_probe w) = Gone \/ (pb_extensions (wa_probe w) < 4)%Z);
  tick_asks : pb_at (wa_probe w) = Asking -> wa_ttft_ms w <> None;
  tick_last : wa_ttft_ms w <> None -> (wa_last_chunk w <= now)%Q;
  tick_now : (now <= wa_deadline w + late)%Q
}.

(** What holds where the loop is left. *)
Definition stopped (h : Halt) (t : Q) (s : Stream) : Prop :=
  (t <= su_t0 su + su_hard_limit su + late)%Q
  /\ (t <= heard su (st_watch s) + 4 * (su_gap su + late) + late)%Q
  /\ (h = Abort TimedOut -> marked s = false -> (su_t0 su + su_hard_limit su <= t)%Q \/ (heard su (st_watch s) <= t)%Q).

Definition clock_says (o : option Halt) (t : Q) (s : Stream) : Prop :=
  match o with None => Ticking t (st_watch s) | Some h => stopped h t s end.

Lemma extended_at_most w : (0 <= pb_extensions (wa_probe w) <= 4)%Z -> (extensions w * (su_gap su + late) <= 4 * (su_gap su + late))%Q.
Proof.
  intros [H1 H2]. apply Qmult_le_compat_r; [|lra]. change 4%Q with (inject_Z 4). by rewrite <- Zle_Qle.
Qed.

Lemma extended_at_least w : (0 <= pb_extensions (wa_probe w) <= 4)%Z -> (0 <= extensions w * (su_gap su + late))%Q.
Proof.
  intros [H1 H2]. apply Qmult_le_0_compat; [|lra]. change 0%Q with (inject_Z 0). by rewrite <- Zle_Qle.
Qed.

(** Left at [t], by anything but the timer. *)
Lemma stops now t h s : Ticking now (st_watch s) -> (t <= wa_deadline (st_watch s) + late)%Q ->
  (h = Abort TimedOut -> marked s = false -> (wa_deadline (st_watch s) <= t)%Q) -> stopped h t s.
Proof.
  intros [H S E P A L N] D T. pose proof (extended_at_most (st_watch s) (proj1 P)). split_and!; [lra..|].
  intros X M. specialize (T X M). destruct E; [left|right]; lra.
Qed.

(** *** The chunks *)

Definition chunk_at (t : Q) (w : Watch) : Watch :=
  mkWatch (Some (default ((t - su_t0 su) * 1000)%Q (wa_ttft_ms w))) t (t + pymin (su_gap su) (time_left su t))%Q (wa_probe w).

Lemma progress_clock now t s o s' :
  Ticking now (st_watch s) -> (now <= t)%Q -> (t <= wa_deadline (st_watch s) + late)%Q ->
  Streaming.progress su t s = (Ret o, s') ->
  match o with
  | None => Ticking t (st_watch s') /\ (t <= su_t0 su + su_hard_limit su)%Q
            /\ heard su (st_watch s') == t + su_gap su
  | Some h => stopped h t s'
  end.
Proof.
  intros K NT D. unfold Streaming.progress. unfold on_watch. rewrite run_modify.
  pose proof (extended_at_most (st_watch s) (proj1 (tick_probe _ _ K))) as X4.
  pose proof (extended_at_least (st_watch s) (proj1 (tick_probe _ _ K))) as X0.
  pose proof (tick_hard _ _ K) as H. pose proof (tick_probe _ _ K) as P.
  destruct (Qle_bool (time_left su t) 0) eqn:L.
  - intros [= <- <-]. apply Qle_bool_iff in L. unfold time_left in L. unfold stopped. cbn. split_and!; [lra..|]. left. lra.
  - intros [= <- <-]. apply not_true_iff_false in L. rewrite Qle_bool_iff in L. apply Qnot_le_lt in L.
    cbn. unfold heard. cbn. unfold time_left in *. split_and!; [|lra|lra].
    constructor; cbn; unfold heard; cbn.
    + unfold pymin. qcases; lra.
    + unfold pymin. cbn in X0. qcases; lra.
    + unfold pymin. qcases; [left|right]; lra.
    + exact P.
    + done.
    + intros _. lra.
    + unfold pymin. qcases; lra.
Qed.

Lemma relay_unless_watch data parsed hu : leaves st_watch (relay_unless data parsed hu).
Proof. destruct hu as [[h|] []]; unfold relay_unless, relay_chunk; leaving. Qed.

Lemma read_chunk_watch j : leaves st_watch (read_chunk xsw ep su j).
Proof.
  unfold read_chunk, note_usage, take_choice, take_content, watch_reasoning, or_else, count_stream, Completion.count_corr. leaving.
Qed.

Lemma read_chunk_marked j s h b s' : read_chunk xsw ep su j s = (Ret (Some h, b), s') -> marked s' = true.
Proof.
  apply (read_chunk_stops xsw ep su (fun _ s => marked s = true)); clear.
  - intros delta s h s'. unfold take_content. destruct delta as [| | | | | |d]; try done. destruct (jget d "content"); try done.
    rewrite run_get. destruct (blank_feed _ _) as [[v|] det]; intros H.
    + do 3 apply se_bind_Ret in H as (? & ? & _ & H). apply se_bind_Ret in H as (? & ? & E & H). injection H as _ <-.
      injection E as _ <-. by apply orb_true_r.
    + apply se_bind_Ret in H as (? & ? & _ & H). discriminate.
  - intros d s h s'. unfold watch_reasoning. destruct (negb _); [done|]. rewrite run_get. destruct (loop_feed _ _ _) as [[v|] det]; intros H.
    + do 2 apply se_bind_Ret in H as (? & ? & _ & H). destruct (reasoning_loop_break_shadow xsw); [discriminate|].
      apply se_bind_Ret in H as (? & ? & _ & H). apply se_bind_Ret in H as (? & ? & E & H). injection H as _ <-. by injection E as _ <-.
    + apply se_bind_Ret in H as (? & ? & _ & H). discriminate.
Qed.

(** A fault, a verdict or the end, after the chunk counted as progress. *)
Lemma stops_at t h s : (t <= su_t0 su + su_hard_limit su)%Q -> (heard su (st_watch s) == t + su_gap su)%Q ->
  (h = Abort TimedOut -> marked s = true) -> stopped h t s.
Proof. intros H G M. split_and!; [lra..|]. intros X N. by rewrite (M X) in N. Qed.

Lemma event_clock now t e s o s' :
  Ticking now (st_watch s) -> (now <= t)%Q -> (t <= wa_deadline (st_watch s) + late)%Q ->
  arrive xsw ep su (Came t e) s = (Ret o, s') -> clock_says o t s'.
Proof.
  intros K NT D. cbn [arrive]. unfold tried, on_event. destruct e as [data parsed| |data].
  - rewrite run_bind. pose proof (progress_clock now t s) as P. destruct (Streaming.progress su t s) as [[[h|]|x] s1] eqn:E1.
    + specialize (P _ _ K NT D eq_refl). cbn [or_else]. by intros [= <- <-].
    + specialize (P _ _ K NT D eq_refl) as (T & U & G). cbn [or_else]. rewrite run_bind.
      set (m := match parsed with Some j => read_chunk xsw ep su j | None => mret (None, false) end).
      assert (W : leaves st_watch m) by (unfold m; destruct parsed; [apply read_chunk_watch|by intros ?]). specialize (W s1).
      assert (M : forall h b s2, m s1 = (Ret (Some h, b), s2) -> marked s2 = true)
        by (intros h b s2; unfold m; destruct parsed; [apply read_chunk_marked|done]).
      destruct (m s1) as [[[[h|] b]|x] s2] eqn:E2; cbn [snd] in W.
      * intros H. assert (o = Some h /\ s' = s2) as [-> ->] by (destruct b; by injection H as <- <-).
        cbn. apply stops_at; [done|by rewrite W|]. intros _. by eapply M.
      * pose proof (relay_unless_watch data parsed (None, b) s2) as W2. rewrite W in W2.
        assert (R : exists s3, relay_unless data parsed (None, b) s2 = (Ret None, s3)).
        { destruct b; [by eexists|]. unfold relay_unless, relay_chunk. by destruct (match parsed with Some (JDict p) => _ | _ => _ end) as [[]|]; eexists. }
        destruct R as [s3 R]. rewrite R in W2 |- *. cbn [snd] in W2. intros [= <- <-]. cbn. by rewrite W2.
      * intros [= <- <-]. cbn. apply stops_at; [done|by rewrite W|done].
    + unfold Streaming.progress in E1. unfold on_watch in E1. rewrite run_modify in E1. by destruct (Qle_bool _ _).
  - intros H. pose proof (progress_clock now t s) as P. destruct (Streaming.progress su t s) as [[h|x] s1] eqn:E1.
    + injection H as -> ->. specialize (P _ _ K NT D eq_refl). destruct o as [h|]; [done|]. apply P.
    + unfold Streaming.progress, on_watch in E1. rewrite run_modify in E1. by destruct (Qle_bool _ _).
  - intros [= <- <-]. cbn. eapply (stops now); [exact K|exact D|done].
Qed.

(** *** The probe *)

(** It changes nothing that the timer counts by, but where it stands. *)
Lemma tick_goes_on now t p w :
  Ticking now w -> (now <= t)%Q -> (t <= wa_deadline w + late)%Q -> pb_extensions p = pb_extensions (wa_probe w) ->
  (pb_at p = Asking -> wa_ttft_ms w <> None) -> (pb_at p = Gone \/ (pb_extensions (wa_probe w) < 4)%Z) ->
  Ticking t (set_probe p w).
Proof.
  intros [H S E P A L N] NT D X Q R. constructor; cbn; rewrite ?X; [done|exact S|exact E|split; [apply P|exact R]|exact Q| |exact D].
  intros F. specialize (L F). lra.
Qed.

Lemma tick_stays now t w : Ticking now w -> (now <= t)%Q -> (t <= wa_deadline w + late)%Q -> Ticking t w.
Proof. intros [H S E P A L N] NT D. constructor; [done..| |done]. intros F. specialize (L F). lra. Qed.

Lemma wakes_clock now t w : Ticking now w -> (now <= t)%Q -> (t <= wa_deadline w + late)%Q -> Ticking t (probe_wakes su t w).
Proof.
  intros K NT D. pose proof (tick_probe _ _ K) as [_ R]. unfold probe_wakes. destruct (pb_at (wa_probe w)) eqn:P.
  - destruct R as [|R]; [discriminate|]. destruct (_ || _)%bool eqn:B; (eapply tick_goes_on; [exact K|done..| |by right]); cbn; [done|].
    intros _ F. by rewrite bool_decide_eq_true_2 in B.
  - by apply (tick_stays now).
  - by apply (tick_stays now).
Qed.

Lemma gone_clock now t w : Ticking now w -> (now <= t)%Q -> (t <= wa_deadline w + late)%Q -> Ticking t (probe_gone w).
Proof. intros K NT D. eapply tick_goes_on; [exact K|done..|by left]. Qed.

(** Counters that moved push the deadline out by a gap at most. *)
Lemma extension_clock now t p w :
  Ticking now w -> (now <= t)%Q -> (t <= wa_deadline w + late)%Q -> (0 < time_left su t)%Q ->
  pb_at (wa_probe w) = Asking ->
  Ticking t (set_deadline (t + pymin (su_gap su) (time_left su t))%Q
    (set_probe (mkProbe (pb_extensions (wa_probe w) + 1) (Some p) (if (pb_extensions (wa_probe w) + 1 <? _STREAM_GAP_MAX_EXTENSIONS)%Z then Sleeping else Gone)) w)).
Proof.
  intros [H S E P A L N] NT D X Q. specialize (A Q). specialize (L A). destruct P as [P [|R]]; [congruence|].
  unfold time_left in *. unfold heard in *. destruct (wa_ttft_ms w) as [f|] eqn:F; [|done]. constructor; cbn; unfold heard; cbn; rewrite ?F.
  - unfold pymin. qcases; lra.
  - rewrite inject_Z_plus. change (inject_Z 1) with 1%Q. unfold pymin. qcases; lra.
  - unfold pymin. qcases; [left|right]; lra.
  - split; [lia|]. unfold _STREAM_GAP_MAX_EXTENSIONS. destruct (Z.ltb_spec (pb_extensions (wa_probe w) + 1) 4); [by right|by left].
  - done.
  - intros _. lra.
  - unfold pymin. qcases; lra.
Qed.

Lemma answers_clock now t raw s :
  Ticking now (st_watch s) -> (now <= t)%Q -> (t <= wa_deadline (st_watch s) + late)%Q ->
  Ticking t (st_watch (probe_answers su t raw s).2).
Proof.
  intros K NT D. unfold probe_answers. rewrite run_get. cbv zeta.
  pose proof (fun p at_ => tick_goes_on now t (mkProbe (pb_extensions (wa_probe (st_watch s))) p at_) (st_watch s) K NT D eq_refl) as STAY.
  pose proof (gone_clock now t _ K NT D) as GONE. pose proof (tick_probe _ _ K) as [_ R].
  destruct (pb_at (wa_probe (st_watch s))) eqn:P.
  - by apply (tick_stays now).
  - destruct R as [|R]; [discriminate|]. destruct (raw ≫= reading) as [q|]; [|exact GONE].
    destruct (pb_prev _) as [prev|]; [|apply (STAY (Some q) Sleeping); [done|by right]].
    destruct (negb _); [exact GONE|]. destruct (Qle_bool (time_left su t) 0) eqn:L; [exact GONE|].
    apply not_true_iff_false in L. rewrite Qle_bool_iff in L. apply Qnot_le_lt in L. by apply (extension_clock now t q).
  - by apply (tick_stays now).
Qed.

(** *** The loop *)

Lemma arrive_clock now a s o s' :
  Ticking now (st_watch s) -> (now <= arrival_time a)%Q -> (arrival_time a <= wa_deadline (st_watch s) + late)%Q ->
  arrive xsw ep su a s = (Ret o, s') -> clock_says o (arrival_time a) s'.
Proof.
  intros K NT D. destruct a as [t e|t|t f|t|t|t raw]; cbn [arrival_time] in *; [by apply (event_clock now)|..]; cbn [arrive].
  - intros [= <- <-]. by apply (stops now).
  - intros [= <- <-]. by apply (stops now).
  - rewrite run_get. intros [= <- <-]. destruct (Qle_bool (wa_deadline (st_watch s)) t) eqn:E; cbn.
    + apply Qle_bool_iff in E. by apply (stops now).
    + by apply (tick_stays now).
  - intros [= <- <-]. by apply (wakes_clock now).
  - intros H. apply se_bind_Ret in H as (u & s1 & E & H). injection H as <- <-. cbn.
    pose proof (answers_clock now t raw s K NT D) as A. by rewrite E in A.
Qed.

Lemma loop_clock now l s h t s' :
  Ticking now (st_watch s) -> on_time now l s -> relay_loop xsw ep su now l s = (Ret (h, t), s') -> stopped h t s'.
Proof.
  revert now s. induction l as [|a l IH]; intros now s K O; cbn [relay_loop].
  - rewrite run_get. intros [= <- <- <-]. pose proof (tick_now _ _ K). apply (stops now); [exact K|apply pymax_lub; lra|].
    intros _ _. apply pymax_ge_r.
  - destruct O as (NT & D & O). intros H. apply se_bind_Ret in H as (o & s1 & E & H). rewrite E in O.
    pose proof (arrive_clock now a s o s1 K NT D E) as C. destruct o as [h'|]; [by injection H as <- <- <-|]. by eapply IH.
Qed.
End Clock.

Section Run.
Context (roles : dict string string) (stream_hard_caps : dict string Q) (sw : Switches) (xsw : StreamSwitches).

Abbreviation set_up := (Streaming.set_up roles stream_hard_caps sw xsw).

Lemma set_up_bounds ep r t0 : (0 <= r_est_input_tokens r)%Z ->
  let su := set_up ep r t0 in
  (1 <= su_hard_limit su)%Q /\ (0 <= su_gap su)%Q /\ (0 <= su_ttft su)%Q /\ (su_ttft su <= su_hard_limit su)%Q.
Proof.
  intros E. unfold Streaming.set_up. cbv zeta. cbn [su_hard_limit su_gap su_ttft].
  set (hard := if r_deadline_is_default r then _ else _). assert (H : (1 <= hard)%Q).
  { pose proof (pymax_ge_l 1 (r_timeout_deadline r - t0)). unfold hard. destruct (r_deadline_is_default r); [|done].
    pose proof (pymax_ge_l (pymax 1 (r_timeout_deadline r - t0)) (_stream_hard_cap_s roles stream_hard_caps r)). lra. }
  clearbody hard. assert (Z : (0 <= inject_Z (r_est_input_tokens r))%Q) by (change 0%Q with (inject_Z 0); by rewrite <- Zle_Qle).
  split_and!; [done| | |apply pymin_le_r].
  - apply pymin_glb; [|lra]. unfold _STREAM_GAP_TOOLS_S, _STREAM_INTERTOKEN_GAP_S. destruct (truthy _); lra.
  - apply pymin_glb; [|lra]. unfold _STREAM_TTFT_DEADLINE_S, _STREAM_PREFILL_FLOOR_TOK_S, Qdiv.
    assert (0 <= inject_Z (r_est_input_tokens r) * / 240)%Q by (by apply Qmult_le_0_compat). lra.
Qed.

Lemma opened_ticks ep r t0 late s : (0 <= late)%Q -> (0 <= r_est_input_tokens r)%Z ->
  let su := set_up ep r t0 in Ticking su late t0 (st_watch (opened xsw ep r su s)).
Proof.
  intros L E su. pose proof (set_up_bounds ep r t0 E) as B. cbv zeta in B. fold su in B. destruct B as (H & G & T0 & T1).
  assert (S : su_t0 su = t0) by done. clearbody su. constructor; cbn; unfold heard; cbn; rewrite ?S; change (inject_Z 0) with 0%Q;
    [lra|lra|right; lra|split; [lia|right; lia]|done|done|lra].
Qed.

Lemma shifted_max t0 a b : (t0 + pymax a (b - t0) <= pymax (t0 + a) b)%Q.
Proof. unfold pymax. qcases; lra. Qed.

(** C15 The clock of a stream.  For an event loop that runs what is due at most [late]
    seconds late, and whatever the backend, the timer and the probe do, the relay
    is over by the hard limit: the deadline (a second at least) where it was the
    caller's, and where it was the proxy's own the later of that deadline and the
    cap of the role, which only extends it.  It is over, too, four more gaps after
    the moment a silent backend was due to speak, since the probe extends a stream
    four times at most.  And a stream is not timed out early: where no detector
    stopped it, its timer fires at the hard limit or after a silence as long as the
    one allowed.  (The size the request was estimated at is not negative.) *)
Theorem stream_clock ep r t0 late l s h t s' :
  (0 <= late)%Q -> (0 <= r_est_input_tokens r)%Z ->
  let su := set_up ep r t0 in
  on_time xsw ep su late t0 l (opened xsw ep r su s) ->
  relay_loop xsw ep su t0 l (opened xsw ep r su s) = (Ret (h, t), s') ->
  (t <= t0 + su_hard_limit su + late)%Q
  /\ (r_deadline_is_default r = false -> (t <= pymax (t0 + 1) (r_timeout_deadline r) + late)%Q)
  /\ (r_deadline_is_default r = true ->
        (t <= pymax (pymax (t0 + 1) (r_timeout_deadline r)) (t0 + _stream_hard_cap_s roles stream_hard_caps r) + late)%Q)
  /\ (t <= heard su (st_watch s') + 4 * (su_gap su + late) + late)%Q
  /\ (h = Abort TimedOut -> marked s' = false -> (t0 + su_hard_limit su <= t)%Q \/ (heard su (st_watch s') <= t)%Q).
Proof.
  intros L E su O R. destruct (set_up_bounds ep r t0 E) as (_ & G & _).
  destruct (loop_clock xsw ep su late L G t0 l _ h t s' (opened_ticks ep r t0 late s L E) O R) as (H & S & T).
  change (su_t0 su) with t0 in *. unfold su, Streaming.set_up in H. cbv zeta in H. cbn [su_hard_limit] in H.
  pose proof (shifted_max t0 1 (r_timeout_deadline r)) as K. split_and!; [done| | |done..]; intros D; rewrite D in H; [lra|].
  pose proof (pymax_ge_l (pymax (t0 + 1) (r_timeout_deadline r)) (t0 + _stream_hard_cap_s roles stream_hard_caps r)).
  pose proof (pymax_ge_r (pymax (t0 + 1) (r_timeout_deadline r)) (t0 + _stream_hard_cap_s roles stream_hard_caps r)).
  revert H. unfold pymax at 1. qcases; lra.
Qed.
End Run.
