(* ===== verification/StreamDoor.v ===== *)
(** * The caller's end of a stream (lifecycle.py, [handle_streaming_submit])

    The generator that reads the queue of a stream and writes what the caller
    receives, as server-sent events; and what becomes of a request whose caller
    goes away.  The frames come from [Streaming]; where they end without a last
    one, the wait of the generator expires.  The blocks of the enriched envelope
    are parameters. *)

From Stdlib Require Import Ascii QArith Lia ZArith.
From stdpp Require Import base list strings gmap sorting.
From S2P Require Import Prelude PyDict PyText Config Json JsonRead JsonRound Budget Cost Queue ToolStream ToolStreamProps Scheduler SchedSteps SchedProps Spend Wal Keepalive Goodput Correct Backend BackendProps Completion Sync SyncProps Timeout Deadline Relay Submit Streaming StreamingProps.

Local Open Scope string_scope.

(** ** The events *)

Definition newline : ascii := ascii_of_N 10.

(** [f"data: {x}\n\n"] *)
Definition sse (x : string) : string := "data: " ++ x ++ String newline (String newline "").

Section Door.
Context (float_text : string -> string) (float_repr : Q -> string) (uniform_correction : bool).
(** The opening frame and the last one of the enriched wire, whose blocks
    enriched.py makes of the request and the state. *)
Context (accepted : dict string json) (_enriched_done : dict string json -> dict string json).

(** [event["type"]] and the rest, as they were put into the queue. *)
Definition event_of (f : Frame) : dict string json :=
  match f with
  | AdmittedFrame q => [("type", JStr "admitted"); ("queue_wait_ms", JFloat (float_repr q) q)]
  | ChunkFrame data => [("type", JStr "chunk"); ("data", JStr data)]
  | ErrorFrame error code =>
      (("type", JStr "error") :: ("error", JStr error) :: match code with Some c => [("code", JStr c)] | None => [] end)%list
  | DoneFrame d => d
  end.

Definition queued_frame (r : QueuedRequest) : dict string json := [("type", JStr "queued"); ("request_id", JStr (r_request_id r))].

Definition opening (wire : Wire) (r : QueuedRequest) : list string :=
  match wire with
  | WIRE_ENRICHED => [sse (dumps (JDict accepted))]
  | WIRE_LEGACY => [sse (dumps (JDict (queued_frame r)))]
  | WIRE_OPENAI => []
  end.

(** [{"error": err_obj}] *)
Definition error_object (message kind : string) (code : option string) : json :=
  JDict [("error", JDict (("message", JStr message) :: ("type", JStr kind)
    :: match code with Some c => if String.eqb c "" then [] else [("code", JStr c)] | None => [] end)%list)].

(** One event of the queue: what is sent, whether it was the last, and the
    sanitizer. *)
Definition openai_event (f : Frame) (sl : slots) : list string * bool * slots :=
  match f with
  | ChunkFrame data => let '(out, sl) := feed float_text data sl in ([sse out], false, sl)
  | DoneFrame _ => ([sse "[DONE]"], true, sl)
  | ErrorFrame error code => ([sse (dumps (error_object error "proxy_error" code))], true, sl)
  | AdmittedFrame _ => ([], false, sl)
  end.

Definition internal_event (wire : Wire) (f : Frame) (sl : slots) : list string * bool * slots :=
  match f with
  | ChunkFrame data =>
      let '(out, sl) := if uniform_correction then feed float_text data sl else (data, sl) in
      ([sse (dumps (JDict (event_of (ChunkFrame out))))], false, sl)
  | DoneFrame d =>
      ([sse (dumps (JDict (match wire with WIRE_ENRICHED => _enriched_done d | _ => d end)))], true, sl)
  | ErrorFrame _ _ => ([sse (dumps (JDict (event_of f)))], true, sl)
  | AdmittedFrame _ => ([sse (dumps (JDict (event_of f)))], false, sl)
  end.

Definition send_event (wire : Wire) : Frame -> slots -> list string * bool * slots :=
  match wire with WIRE_OPENAI => openai_event | _ => internal_event wire end.

(** How long the generator waits for the next event. *)
Definition consumer_wait_s (roles : dict string string) (caps : dict string Q) (r : QueuedRequest) : Q :=
  if r_deadline_is_default r then pymax (r_timeout_s r) (_stream_hard_cap_s roles caps r) else r_timeout_s r.

(** [except asyncio.TimeoutError] *)
Definition gave_up (wire : Wire) (wait_s : Q) : string :=
  match wire with
  | WIRE_OPENAI => sse (dumps (error_object ("proxy stream timeout after " ++ fixed0 wait_s ++ "s") "proxy_timeout" None))
  | _ => sse (dumps (JDict [("type", JStr "error"); ("error", JStr "timeout")]))
  end.

(** The loop over the queue; with [true] where the wait expired. *)
Fixpoint send_events (wire : Wire) (wait_s : Q) (frames : list Frame) (sl : slots) : list string * bool :=
  match frames with
  | [] => ([gave_up wire wait_s], true)
  | f :: frames =>
      let '(out, over, sl) := send_event wire f sl in
      if over then (out, false)
      else let '(rest, expired) := send_events wire wait_s frames sl in (out ++ rest, expired)%list
  end.

(** What the caller receives. *)
Definition stream_generator (wire : Wire) (r : QueuedRequest) (wait_s : Q) (frames : list Frame) : list string * bool :=
  let '(out, expired) := send_events wire wait_s frames [] in (opening wire r ++ out, expired)%list.

(** The request enters the queue. *)
Definition handle_streaming_submit (wall : Q) (r : QueuedRequest) : SE Gate QueuedRequest :=
  r' ← on_queue (enqueue r);
  _ ← Submit.on_proxy (submit (persist_enqueue wall r'));
  _ ← Submit.on_proxy wake;
  mret r'.
End Door.

(** ** The caller goes away *)

Section Abandon.
Context (roles : dict string string) (keepalive : string -> option KeepaliveConf) (mono wall : Q).
Context (stream_hard_caps : dict string Q) (sw : Switches) (xsw : StreamSwitches).

(** [finally], and the record of a wait that expired: the producer is cancelled
    where it still runs. *)
Definition hang_up (d : DispatchDecision) (expired running : bool) (elapsed : Q) : SE Stream unit :=
  let r := dd_request d in
  _ ← (if expired then Streaming.on_proxy (se_modify (record_timeout_event r "stream" (r_timeout_s r) "sse_consumer_deadline")) else mret tt : SE Stream unit);
  if running then Streaming.on_proxy (cancel_dispatch roles keepalive mono wall d elapsed) else mret tt.

(** The loop of a stream over what has come so far; [true] where it goes on. *)
Fixpoint relay_so_far (ep : StreamEp) (su : Setup) (l : list Arrival) : SE Stream bool :=
  match l with
  | [] => mret true
  | a :: l => h ← arrive xsw ep su a; match h with Some _ => mret false | None => relay_so_far ep su l end
  end.

(** A stream whose caller goes away after [arrivals], or is given up by the
    generator ([expired]); [false] where the loop was over before. *)
Definition abandoned_stream (slot_hash : string -> Z) (sync_ep : SyncEp) (ep : StreamEp) (d : DispatchDecision)
    (t0 elapsed : Q) (expired : bool) (arrivals : list Arrival) : SE Stream bool :=
  let d := with_request d (pin_slot slot_hash sync_ep (dd_request d)) in
  let r := dd_request d in
  _ ← Streaming.on_proxy (se_modify (submit (persist_dispatch (r_request_id r))));
  _ ← put (AdmittedFrame (py_round 1 (queue_wait_ms d)));
  let su := set_up roles stream_hard_caps sw xsw ep r t0 in
  _ ← se_modify (opened xsw ep r su);
  running ← relay_so_far ep su arrivals;
  _ ← match running with true => hang_up d expired true elapsed | false => mret tt end;
  mret running.
End Abandon.

(** ** What the caller makes of it *)

Definition ends_line (c : ascii) : bool := (Ascii.eqb c newline || Ascii.eqb c (ascii_of_N 13))%bool.

(** The lines of a body. *)
Fixpoint read_lines (s : string) : list string :=
  match s with
  | "" => [""]
  | String c s =>
      if ends_line c then "" :: read_lines s
      else match read_lines s with l :: ls => String c l :: ls | [] => [String c ""] end
  end.

(** A text that is sent on one line and read back whole. *)
Definition fits_line (x : string) : bool :=
  (sforall (fun c => negb (ends_line c)) x && String.eqb (strip ("data: " ++ x)) ("data: " ++ x) && negb (String.eqb x "[DONE]"))%bool.

Lemma read_line x s : sforall (fun c => negb (ends_line c)) x = true -> read_lines (x ++ String newline s) = x :: read_lines s.
Proof.
  induction x as [|c x IH]; [done|]. cbn [sforall String.append read_lines]. rewrite andb_true_iff, negb_true_iff. intros [-> H].
  by rewrite IH.
Qed.

Lemma read_event x s : sforall (fun c => negb (ends_line c)) x = true -> read_lines (sse x ++ s) = ("data: " ++ x) :: "" :: read_lines s.
Proof.
  intros H. assert (E : sse x ++ s = ("data: " ++ x) ++ String newline (String newline s)) by (unfold sse; by rewrite !sapp_assoc).
  rewrite E, read_line; [done|exact H].
Qed.

(** What a reader of data lines makes of an event. *)
Lemma reads_event float_text x lines : fits_line x = true ->
  relayed float_text (("data: " ++ x) :: "" :: lines) = EvChunk x (loads float_text x) :: relayed float_text lines.
Proof.
  unfold fits_line. rewrite !andb_true_iff, negb_true_iff. intros [[_ S%String.eqb_eq] D]. cbn [relayed]. cbv zeta.
  rewrite S, startswith_refl_app. change (sdrop 6 ("data: " ++ x)) with x. by rewrite D.
Qed.

(** The events sent, read back. *)
Lemma read_back float_text xs rest : Forall (fun x => fits_line x = true) xs ->
  relayed float_text (read_lines (foldr String.append rest (map sse xs)))
  = (map (fun x => EvChunk x (loads float_text x)) xs ++ relayed float_text (read_lines rest))%list.
Proof.
  induction 1 as [|x xs F _ IH]; [done|]. cbn [map foldr List.app]. rewrite read_event, reads_event by (done || by apply andb_true_iff in F as [[]%andb_true_iff]).
  by rewrite IH.
Qed.

(** A text that the writer escapes is on one line. *)
Lemma escape_fits s : sforall (fun c => negb (ends_line c)) (escape_str s) = true.
Proof.
  assert (C : forall c, sforall (fun c => negb (ends_line c)) (escape_char c) = true).
  { intros [[] [] [] [] [] [] [] []]; vm_compute; reflexivity. }
  induction s as [|c s IH]; [done|]. cbn [escape_str]. by rewrite sforall_app, C, IH.
Qed.

Lemma quote_fits s : sforall (fun c => negb (ends_line c)) (quote_str s) = true.
Proof. unfold quote_str. cbn [sforall]. by rewrite sforall_app, escape_fits. Qed.

(** An object is read as it was sent. *)
Lemma object_strips x : strip ("data: {" ++ x ++ "}") = "data: {" ++ x ++ "}".
Proof.
  unfold strip. change ("data: {" ++ x ++ "}") with (String "d" ("ata: {" ++ x ++ "}")). rewrite lstrip_id by done. unfold rstrip.
  change (String "d" ("ata: {" ++ x ++ "}")) with ("data: {" ++ x ++ "}"). rewrite <- sapp_assoc, srev_distr.
  change (srev "}") with (String "}" ""). change (String "}" "" ++ srev ("data: {" ++ x)) with (String "}" (srev ("data: {" ++ x))).
  rewrite lstrip_id by done. by rewrite srev_cons, srev_involutive.
Qed.

Lemma error_fits message kind code : fits_line (dumps (error_object message kind code)) = true.
Proof.
  unfold fits_line. assert (E : exists x, dumps (error_object message kind code) = "{" ++ x ++ "}"
    /\ sforall (fun c => negb (ends_line c)) x = true).
  { eexists. split; [reflexivity|].
    destruct code as [c|]; [destruct (String.eqb c "")|]; cbn [sort_items map sep_concat fst snd dumps_with];
      rewrite ?sforall_app, ?quote_fits; cbn [sforall andb]; rewrite ?sforall_app, ?quote_fits; done. }
  destruct E as (x & -> & F). rewrite !andb_true_iff. split_and!.
  - cbn [String.append sforall]. by rewrite sforall_app, F.
  - change ("data: " ++ "{" ++ x ++ "}") with ("data: {" ++ x ++ "}"). apply String.eqb_eq, object_strips.
  - done.
Qed.

(** ** What the caller reads *)

Section Reads.
Context (float_text : string -> string) (float_repr : Q -> string) (uniform_correction : bool).
Context (accepted : dict string json) (_enriched_done : dict string json -> dict string json).

Abbreviation stream_generator := (StreamDoor.stream_generator float_text float_repr uniform_correction accepted _enriched_done).
Abbreviation send_events := (StreamDoor.send_events float_text float_repr uniform_correction _enriched_done).

(** The payload of the frame that ends a stream, and what it is for a reader. *)
Definition terminator (last : Frame) : string :=
  match last with ErrorFrame error code => dumps (error_object error "proxy_error" code) | _ => "[DONE]" end.

Definition end_event (last : Frame) : StreamEvent :=
  match last with
  | ErrorFrame error code => EvChunk (terminator last) (Some (error_object error "proxy_error" code))
  | _ => EvDone "[DONE]"
  end.

Definition chunks_of (frames : list Frame) : list string := omap (fun f => match f with ChunkFrame data => Some data | _ => None end) frames.

Lemma openai_sends wait_s datas last sl : closing last ->
  send_events WIRE_OPENAI wait_s (map ChunkFrame datas ++ [last]) sl
  = ((map sse (feed_all float_text datas sl).1 ++ [sse (terminator last)])%list, false).
Proof.
  intros C. revert sl. induction datas as [|x datas IH]; intros sl; cbn [map List.app].
  - by destruct last.
  - cbn [StreamDoor.send_events send_event openai_event feed_all]. destruct (feed float_text x sl) as [y sl1]. rewrite IH.
    by destruct (feed_all float_text datas sl1) as [ys sl2].
Qed.

Lemma error_reads message kind code : loads float_text (dumps (error_object message kind code)) = Some (error_object message kind code).
Proof.
  apply loads_dumps; unfold error_object; destruct code as [c|]; [destruct (String.eqb c "")| |destruct (String.eqb c "")|]; try done;
    repeat constructor.
Qed.

Lemma read_end last : closing last -> relayed float_text (read_lines (foldr String.append "" [sse (terminator last)])) = [end_event last].
Proof.
  intros C. destruct last as [| |e c|dd]; try done; cbn [terminator end_event].
  change [sse (dumps (error_object e "proxy_error" c))] with (map sse [dumps (error_object e "proxy_error" c)]).
  rewrite (read_back float_text [dumps (error_object e "proxy_error" c)] "" (Forall_cons_2 _ _ _ (error_fits _ _ _) (Forall_nil_2 _))).
  cbn [map List.app]. by rewrite error_reads.
Qed.

(** C33 What a caller of the OpenAI door makes of its stream.  Reading the body line
    by line it finds every chunk that was put into its queue, in order and as the
    sanitizer left it, then one end and nothing after it: the terminator where the
    stream ended clean, and an error it can parse where it did not; and it is not
    told of a timeout.  (The chunks are to fit a line, as those of a backend do.) *)
Theorem openai_stream_reads_back d r wait_s frames :
  read_to_the_end d frames ->
  let sent := (feed_all float_text (chunks_of frames) []).1 in
  let body := stream_generator WIRE_OPENAI r wait_s frames in
  Forall (fun x => fits_line x = true) sent ->
  body.2 = false /\ exists end_, last frames = Some end_ /\ closing end_
  /\ relayed float_text (read_lines (foldr String.append "" body.1)) = (map (fun x => EvChunk x (loads float_text x)) sent ++ [end_event end_])%list.
Proof.
  intros (datas & end_ & C & ->) sent body F.
  assert (D : chunks_of (AdmittedFrame (py_round 1 (queue_wait_ms d)) :: map ChunkFrame datas ++ [end_]) = datas).
  { unfold chunks_of. cbn [omap list_omap]. rewrite omap_app. assert (E : omap (fun f => match f with ChunkFrame data => Some data | _ => None end) [end_] = [])
      by by destruct end_.
    rewrite E, app_nil_r. clear. induction datas as [|x datas IH]; [done|]. cbn. by rewrite IH. }
  unfold sent in *. clear sent. rewrite D in *. assert (B : body = ((map sse (feed_all float_text datas []).1 ++ [sse (terminator end_)])%list, false)).
  { unfold body, StreamDoor.stream_generator. cbn [StreamDoor.send_events send_event openai_event List.app]. by rewrite openai_sends. }
  rewrite B. split; [done|]. exists end_. split; [by rewrite app_comm_cons, last_snoc|]. split; [done|]. cbn [fst].
  rewrite foldr_app, read_back by done. by rewrite read_end.
Qed.
End Reads.

(** ** The slot of a caller that went away *)

Section Gone.
Context (roles : dict string string) (keepalive : string -> option KeepaliveConf) (mono wall : Q).
Context (stream_hard_caps : dict string Q) (sw : Switches) (xsw : StreamSwitches).

Abbreviation ended := (SyncProps.ended wall).
Abbreviation abandoned_stream := (StreamDoor.abandoned_stream roles keepalive mono wall stream_hard_caps sw xsw).

Lemma relay_so_far_relays ep su l : relays (relay_so_far xsw ep su l).
Proof.
  induction l as [|a l IH]; [apply relays_ret|]. cbn [relay_so_far]. apply relays_bind; [apply arrive_relays|].
  intros [h|]; [apply relays_ret|exact IH].
Qed.

Lemma relay_so_far_returns ep su l s : exists b, (relay_so_far xsw ep su l s).1 = Ret b.
Proof.
  revert s. induction l as [|a l IH]; intros s; [by exists true|]. cbn [relay_so_far]. rewrite run_bind.
  destruct (arrive_returns xsw ep su a s) as [h E]. destruct (arrive xsw ep su a s) as [x s1]. cbn [fst] in E. subst x.
  destruct h; [by exists false|apply IH].
Qed.

Lemma cancel_ends d elapsed : SyncProps.ends wall d (cancel_dispatch roles keepalive mono wall d elapsed).
Proof.
  unfold cancel_dispatch. apply ends_after; [apply quiet_count|by intros p; eexists|]. intros _. apply fail_ends.
Qed.

(** Cancelled, the stream is closed, and its caller is sent no more. *)
Lemma hang_up_closes d expired elapsed : books_close wall d (hang_up roles keepalive mono wall d expired true elapsed).
Proof.
  unfold hang_up. apply books_close_after; [destruct expired; [apply settled_modify, quiet_timeout|apply settled_ret]|]. intros _ s [H F].
  unfold Streaming.on_proxy. destruct (cancel_ends d elapsed (st_proxy s) H) as (p & -> & D). by eexists.
Qed.

(** C8 A caller that goes away leaves no slot behind.  Whenever it does, between any
    two moments of the relay, or given up by the generator that waited too long,
    the dispatch is cancelled there and the books are closed once, as for a stream
    that ended: the slot free, the caller charged for one request, the queue row
    replaced by one completion row; what it had been sent stays the admission and
    chunks, with no last frame.  (As for [stream_ends_once], the scheduler runs the
    stream, no future waits beside its frames, and its completion can be recorded:
    it is not one withheld from storage with a message whose role is a list or an
    object, and the size of its prompt is known or can be estimated.) *)
Theorem abandoned_stream_frees_slot slot_hash sep ep d t0 elapsed expired arrivals s :
  streams_here d s ->
  exists running s', abandoned_stream slot_hash sep ep d t0 elapsed expired arrivals s = (Ret running, s')
  /\ (exists datas, st_frames s' = (st_frames s ++ AdmittedFrame (py_round 1 (queue_wait_ms d)) :: map ChunkFrame datas)%list)
  /\ (running = true -> ended d (Completion.submit (persist_dispatch (r_request_id (dd_request d))) (st_proxy s)) (st_proxy s')).
Proof.
  intros H. unfold StreamDoor.abandoned_stream. cbv zeta. apply (pinned_streams slot_hash sep) in H.
  set (d' := with_request d (pin_slot slot_hash sep (dd_request d))) in *.
  assert (I : r_request_id (dd_request d') = r_request_id (dd_request d)) by apply (pin_slot_same slot_hash sep (dd_request d)).
  assert (P : forall p q, SyncProps.ended wall d' p q -> ended d p q) by (intros p q; apply ended_pinned).
  rewrite I. unfold Streaming.on_proxy at 1. rewrite run_bind. cbn [se_modify]. unfold put. rewrite !run_modify.
  set (su := set_up _ _ _ _ _ _ _). set (s1 := opened _ _ _ _ _).
  assert (H1 : streams_here d' s1) by exact H.
  destruct (relay_so_far_relays ep su arrivals s1) as (B & datas & F). destruct (relay_so_far_returns ep su arrivals s1) as [running E].
  rewrite run_bind. destruct (relay_so_far xsw ep su arrivals s1) as [x s2]. cbn [fst snd] in *. subst x. rewrite run_bind. destruct running.
  - destruct (hang_up_closes d' expired elapsed s2 (streams_books _ _ _ H1 B)) as (s3 & -> & D & G). exists true, s3. split; [done|].
    split; [exists datas; rewrite G, F; unfold s1; cbn; by rewrite <- app_assoc|]. intros _. apply P.
    eapply ended_books; [exact D| |done]. symmetry. exact B.
  - exists false, s2. split; [done|]. split; [|done]. exists datas. rewrite F. unfold s1. cbn. by rewrite <- app_assoc.
Qed.
End Gone.
