(* ===== verification/FleetDemo.v ===== *)
(** * Runs of a small fleet

    Dispatches on concrete answers, that is a failure retried, a cut answer
    refused and a deadline passed; submissions from an agent within its limits and
    from one over them; an outage, a run of faults, a discovery and an iteration of
    the poller, on the fleet with a stand-in for its first endpoint; and a stream. *)

From Stdlib Require Import Ascii QArith Lqa Lia ZArith Sorted.
From stdpp Require Import base list strings gmap.
From S2P Require Import Prelude PyDict PyText Config Json Budget Cost Queue JsonRead Degen Scheduler SchedSteps SchedProps SchedDemo Spend Wal OnDemand Keepalive Effort Correct AnswerDemo Backend BackendProps Intent Timeout Completion Sync SyncProps Deadline ThinkSwitch ThinkBleed ThinkStats Policy Failover Cache Acl Replay NoStore Forced Payload Provider Relay RelayProps Identity Submit SubmitProps Goodput Residency Probes Breaker BreakerProps Poller PollerProps Streaming StreamingProps StreamClock StreamDoor.

Local Open Scope string_scope.

(** ** The proxy, and one request *)

Definition free_prices : SpendLedger := {| prices := {| pb_declared := []; pb_discovered := [] |}; sl_agents := [] |}.

(** [r1] runs on the ticked fleet and its caller waits. *)
Definition demo_proxy : Proxy :=
  mkProxy s_ticked idle_state free_prices new_tracker (manager_init [] 0) [] [("r1", None)] [] [] [] [] false.

Definition dispatched_r1 : DispatchDecision :=
  {| dd_request := demo_req "r1" "a" "thinker" INTERACTIVE 1 100; queue_wait_ms := 4000; occupancy_at_dispatch := 0 |}.

Definition demo_endpoint : SyncEp := mkSyncEp "thinker" 0 false false 0 2.

Definition ok_response (finish : string) : BackendResponse :=
  mkResponse 200 (JDict [("choices", JList [JDict [("message", JDict [("content", JStr "yes")]); ("finish_reason", JStr finish)]])])
    1 9 3 (JStr finish) None.

(** The first attempt finds the backend down, the second is answered. *)
Definition flaky (n : nat) (w : bool) (payload : dict string json) (allowed : Q) : CallFailure + BackendResponse :=
  match n with 1%nat => inl (CallUnavailable "connect failed") | _ => inr (ok_response "stop") end.

(** Attempts a minute apart. *)
Definition minutes (n : nat) : Attempt :=
  mkAttempt (5 + 60 * (inject_Z (Z.of_nat n) - 1)) 2 (7 + 60 * (inject_Z (Z.of_nat n) - 1)) true.

Definition prompt (n : nat) : Attempt := mkAttempt (5 + inject_Z (Z.of_nat n)) 1 (6 + inject_Z (Z.of_nat n)) true.

Definition run (at_ : nat -> Attempt) (reply : nat -> bool -> dict string json -> Q -> CallFailure + BackendResponse)
    (d : DispatchDecision) : res unit * Proxy :=
  execute_dispatch id (fun _ => "") [] (fun _ => None) 10 1000 false true false 1 (fun _ => "fault") (fun _ => "") (fun _ => 0%Z)
    at_ reply (Some demo_endpoint) d 3 demo_proxy.

Lemma r1_runs : running_here (dd_request dispatched_r1) demo_proxy.
Proof.
  split; [apply s_ticked_ok|]. split; [apply (bool_decide_unpack _); vm_compute; done|]. by split.
Qed.

Lemma dispatch_ends_once_witness :
  exists p', run prompt flaky dispatched_r1 = (Ret tt, p')
  /\ ended 1000 dispatched_r1 (submit (persist_dispatch "r1") demo_proxy) p'.
Proof.
  refine (dispatch_ends_once id (fun _ => "") [] (fun _ => None) 10 1000 false true false 1 (fun _ => "fault") (fun _ => "")
    (fun _ => 0%Z) prompt flaky (Some demo_endpoint) dispatched_r1 3 demo_proxy r1_runs _). lia.
Defined.

Lemma attempts_bounded_witness :
  (execute_sync id (fun _ => "") [] (fun _ => None) 10 1000 false true false 1 (fun _ => "") prompt
     (fun _ _ _ _ => inl (CallUnavailable "down")) demo_endpoint dispatched_r1 demo_proxy).1 <> Ret false.
Proof.
  exact (proj1 (attempts_bounded id (fun _ => "") [] (fun _ => None) 10 1000 false true false 1 (fun _ => "") prompt
    (fun _ _ _ _ => inl (CallUnavailable "down")) demo_endpoint dispatched_r1 demo_proxy 0 (Z.le_0_1))).
Defined.

(** A reply an hour late is never read. *)
Definition late_reply (n : nat) (w : bool) (payload : dict string json) (allowed : Q) : CallFailure + BackendResponse :=
  match n with 3%nat => inr (ok_response "stop") | _ => flaky n w payload allowed end.

Lemma no_attempt_past_deadline_witness : run minutes flaky dispatched_r1 = run minutes late_reply dispatched_r1.
Proof.
  refine (no_attempt_past_deadline id (fun _ => "") [] (fun _ => None) 10 1000 false true false 1 (fun _ => "fault") (fun _ => "")
    (fun _ => 0%Z) minutes flaky late_reply demo_endpoint dispatched_r1 3 demo_proxy _).
  intros n w payload _. by destruct n as [|[|[|[|n]]]].
Defined.

Definition answer_of (x : res unit * Proxy) : option (dict string json) :=
  match dget (px_futures x.2) "r1" with Some o => o | None => None end.

Lemma served_answer_whole_witness :
  exists x, answer_of (run prompt flaky dispatched_r1) = Some x
  /\ good_answer id (fun _ => "") prompt flaky (with_request dispatched_r1 (pin_slot (fun _ => 0%Z) demo_endpoint (dd_request dispatched_r1))) x.
Proof.
  eexists. split; [vm_compute; reflexivity|].
  refine (served_answer_whole id (fun _ => "") [] (fun _ => None) 10 1000 false true false 1 (fun _ => "fault") (fun _ => "")
    (fun _ => 0%Z) prompt flaky demo_endpoint dispatched_r1 3 demo_proxy (Ret tt) (run prompt flaky dispatched_r1).2 _ _ _ _ _);
    vm_compute; reflexivity.
Defined.

(** A structured answer the length cut is an error for the caller. *)
Example cut_answer_is_an_error :
  exists x, answer_of (run prompt (fun _ _ _ _ => inr (ok_response "length"))
      (with_request dispatched_r1 (Effort.with_payload (dd_request dispatched_r1)
         [("response_format", JDict [("type", JStr "json_object")])]))) = Some x
  /\ dget x "status" = Some (JStr "error") /\ dget x "partial_content" = Some (JStr "yes").
Proof. eexists. split; [vm_compute; reflexivity|]. by split. Qed.

(** Past its deadline, a request is not sent at all. *)
Example late_request_is_not_sent :
  px_failures (run (fun _ => mkAttempt 200 1 201 true) flaky dispatched_r1).2 = []
  /\ map tn_abort_reason (px_timeouts (run (fun _ => mkAttempt 200 1 201 true) flaky dispatched_r1).2) = ["queue_deadline_exhausted"].
Proof. by vm_compute. Qed.

(** *** Deadlines *)

(** A request whose tokens a correction raised to 40000, on a deadline of 180. *)
Definition raised : QueuedRequest := Effort.with_payload (demo_req "r1" "a" "tier3" INTERACTIVE 1 100) [("max_tokens", JInt 40000)].

Lemma extension_never_shrinks_witness :
  (r_timeout_s raised <= r_timeout_s (extend_deadline_for_granted_budget [] to_log 3 to_knobs [] to_model to_sched (JInt 500) raised))%Q.
Proof. exact (proj1 (extension_never_shrinks [] to_log 3 to_knobs [] to_model to_sched (JInt 500) raised)). Defined.

(** The caller's wait is extended past the deadline of the dispatch. *)
Example extension_leaves_the_deadline :
  let r := extend_deadline_for_granted_budget [] to_log 3 to_knobs [] to_model to_sched (JInt 500) raised in
  Qltb 180 (r_timeout_s r) = true /\ r_timeout_deadline r = r_timeout_deadline raised.
Proof. by vm_compute. Qed.

(** *** A salvaged answer *)

(** A stopped answer that was complete, with the token details null as an engine
    may send them: the salvage raises, and its caller is told of an error. *)
Definition null_details : Aborted :=
  mkAborted [("choices", JList [JDict [("message", JDict [("content", JStr "{}   ")])]]); ("usage", JDict [("prompt_tokens_details", JNull)])]
    (mkBlankVerdict 3 3 5) 9 3.

Example null_details_fail_the_salvage :
  salvaged_body id null_details <> None
  /\ (x ← answer_of (run prompt (fun _ _ _ _ => inl (CallAborted null_details)) dispatched_r1); dget x "status") = Some (JStr "error").
Proof. vm_compute. by split. Qed.

(** ** The gate *)

(** [b] may ask for nothing within the minute. *)
Definition limited_agent : AgentQuotaConfig :=
  {| aq_agent_id := "b"; weight := 1; max_balance_ss := 60; default_priority := P1_TURN_SUPPORT; degrade_ok := false; spill_ok := true;
     daily_spend_usd := None; requests_per_minute := Some 0%Q; content_no_store := false |}.

Definition gate_config : ProxyConfig := {| endpoints := endpoints demo_cfg; agents := [("a", agent_a); ("b", limited_agent)] |}.

Definition demo_gate : Gate :=
  mkGate (mkResolver IPIdentityMap_init KeyRegistry_init [] (BearerPlaceholders_init []) false)
    {| ps_config := gate_config; ps_spend := free_prices; ps_rate := []; ps_spend_noted := []; ps_rate_noted := []; ps_notices := [] |}
    (mkNoStoreTally 0 0 []) [] [] [] [] (new_cache 10 60)
    {| fs_config := gate_config; fs_degraded := ∅; fs_since := []; fs_rerouted := []; fs_refused := [] |}
    (mkReplayState (new_store 4 1000 60) tally0 []) (mkShapeTables ThinkBleedStats_init [] [])
    (with_sched s_loaded demo_proxy).

Definition demo_health (up : bool) : HealthState :=
  {| hs_roles := []; hs_paused := ∅; hs_cooldown_enabled := false; hs_cooldown_until := []; hs_collapsed := ∅;
     hs_collapse_enforce := false; hs_manages := fun _ => false; hs_probe := [("thinker", up)] |}.

Definition demo_body (agent : string) : Body :=
  mkBody (JStr agent) "thinker" "chat_completion" [("messages", JList [JDict [("role", JStr "user"); ("content", JStr "hi")]]); ("max_tokens", JInt 64)]
    JNull JNull "chat" (JInt 30) None None None (Some "r9") JNull JNull None None.

Definition submit_demo (up : bool) (b : Body) : res (Reply + QueuedRequest * option string) * Gate :=
  handle_submit [] [] [] [] (fun _ => "key") (fun s => s) 0 0 false to_log 3 to_knobs [] to_model (mkFlags true true true false) 1
    (demo_health up) (fun _ => None) 5 1000 (fun _ => 5%Q) false "fresh" (fun _ => mret true) WIRE_ENRICHED [] (Some "127.0.0.1") b demo_gate.

Definition no_request : QueuedRequest := demo_req "" "" "" BACKGROUND 0 0.
Definition accepted_of (x : res (Reply + QueuedRequest * option string) * Gate) : QueuedRequest :=
  match x.1 with Ret (inr (r, _)) => r | _ => no_request end.

Lemma accepted_request_is_sound_witness : (30 <= r_timeout_s (accepted_of (submit_demo true (demo_body "a"))))%Q.
Proof.
  pose proof (accepted_request_is_sound [] [] [] [] (fun _ => "key") (fun s => s) 0 0 false to_log 3 to_knobs [] to_model
    (mkFlags true true true false) 1 (demo_health true) (fun _ => None) 5 1000 (fun _ => 5%Q) false "fresh" (fun _ => mret true)
    WIRE_ENRICHED [] (Some "127.0.0.1") (demo_body "a") demo_gate (accepted_of (submit_demo true (demo_body "a"))) None
    (submit_demo true (demo_body "a")).2) as H.
  refine (proj1 (proj1 (proj2 (proj2 (proj2 (proj2 (H _))))) 30%Q _)); vm_compute; reflexivity.
Defined.

(** *** Refusals *)

(** An interactive request for an endpoint that is down, at the breaker. *)
Lemma refusal_gives_hold_back_witness :
  px_on_demand (ga_proxy (after_load [] [] [] (fun s => s) 0 0 false to_log 3 to_knobs [] to_model 1 (demo_health false) (fun _ => None) 5
                            (fun _ => 5%Q) (demo_req "r9" "a" "thinker" INTERACTIVE 1 100) None demo_gate).2)
  = request_done "thinker" (px_on_demand (ga_proxy demo_gate)).
Proof.
  refine (proj1 (refusal_gives_hold_back [] [] [] (fun s => s) 0 0 false to_log 3 to_knobs [] to_model 1 (demo_health false)
    (fun _ => None) 5 (fun _ => 5%Q) (demo_req "r9" "a" "thinker" INTERACTIVE 1 100) None demo_gate
    (inl (Rejected 503 "circuit_open" (Some 10%Z) None))
    (after_load [] [] [] (fun s => s) 0 0 false to_log 3 to_knobs [] to_model 1 (demo_health false) (fun _ => None) 5
       (fun _ => 5%Q) (demo_req "r9" "a" "thinker" INTERACTIVE 1 100) None demo_gate).2 demo_wf _)).
  vm_compute. reflexivity.
Defined.

(** A caller over its limit is lowered by one band, out of the interactive one,
    and there the load is shed: what an agent within its limits is granted, it is
    refused with 429. *)
Example over_limit_is_refused :
  (match (submit_demo true (demo_body "a")).1 with Ret (inr (r, _)) => r_band r = INTERACTIVE | _ => False end)
  /\ (submit_demo true (demo_body "b")).1 = Ret (inl (Rejected 429 "backpressure" (Some 10%Z) None)).
Proof. by vm_compute. Qed.

(** A request whose wait ends before it was dispatched leaves its hold on an
    on-demand endpoint: only a completion gives it back. *)
Example expired_request_keeps_its_hold :
  let held := mkSys [("thinker", mkES "chat" (Some "lease") 1 0 0)] 60 [] NotStarted 0 [] in
  let g := Submit.set_proxy (with_on_demand held (with_sched s_loaded demo_proxy)) demo_gate in
  let r := demo_req "r3" "a" "thinker" INTERACTIVE 3 100 in
  dmem (map (fun q => (r_request_id q, tt)) (waiting_all (px_sched (ga_proxy (on_client_timeout r g))))) "r3" = false
  /\ px_on_demand (ga_proxy (on_client_timeout r g)) = held
  /\ px_on_demand (on_admission_timeout 200 r (ga_proxy g)) = held
  /\ px_on_demand (on_admission_timeout 200 r (ga_proxy g)) <> request_done "thinker" held.
Proof. vm_compute. by split_and!. Qed.

(** *** Streams *)

Definition last_piece : dict string json :=
  [("choices", JList [JDict [("delta", JDict [("content", JStr "end")]); ("finish_reason", JStr "stop")]]); ("usage", JDict [("completion_tokens", JInt 2)])].

Definition split_piece : dict string json * dict string json := default ([], []) (_split_coalesced_finish_chunk last_piece).

Lemma split_keeps_the_chunk_witness :
  dget split_piece.1 "usage" = dget last_piece "usage" /\ dget split_piece.2 "usage" = None.
Proof.
  destruct (split_keeps_the_chunk last_piece split_piece.1 split_piece.2) as (cs & _ & _ & _ & H & T & _);
    [apply (bool_decide_unpack (NoDup _)); vm_compute; exact I|vm_compute; reflexivity|].
  split; [apply H; discriminate|]. rewrite (T "usage") by discriminate. reflexivity.
Defined.

Definition rescue_endpoint : RescueEp := mkRescue true [] [("low", "low")] "" "high" false "vllm" 0 0.
Definition looped_payload : dict string json :=
  [("messages", JList [JDict [("role", JStr "user"); ("content", JStr "prove it")]]); ("max_tokens", JInt 30000);
   ("chat_template_kwargs", JDict [("thinking", JBool true); ("reasoning_effort", JStr "max")])].

Definition rescue_payload : dict string json := default [] (answer_now_request looped_payload rescue_endpoint "so far").

Lemma answer_now_is_bounded_witness : dget (template_kwargs rescue_payload) "thinking" = None.
Proof.
  destruct (answer_now_is_bounded looped_payload rescue_endpoint "so far" rescue_payload) as (_ & _ & _ & S & _);
    [vm_compute; reflexivity|].
  destruct (S "thinking") as [_ H]. apply H; [apply (bool_decide_unpack _); vm_compute; exact I|apply not_elem_of_nil].
Defined.

(** The lowest effort the endpoint declares replaces the caller's. *)
Example rescue_lowers_effort :
  dget (template_kwargs rescue_payload) "reasoning_effort" = Some (JStr "low") /\ dget rescue_payload "max_tokens" = Some (JInt 8000).
Proof. by vm_compute. Qed.

Lemma rescue_has_an_answer_witness : has_answer_text [EvChunk "data" (Some (JDict last_piece)); EvDone "done"].
Proof.
  apply (rescue_has_an_answer [EvChunk "data" (Some (JDict last_piece)); EvDone "done"] false ["data"] (2%Z, true) true);
    vm_compute; reflexivity.
Defined.

(** ** The fleet *)

Definition ep_backed : EndpointConfig :=
  {| endpoint_class := "thinker"; role := "thinker"; max_slots := 2; context_per_slot := 4096;
     min_expected_slots := 0; failover_to := "remote"; goodput_min_running := 0; goodput_sustain_evaluations := 0;
     goodput_max_iteration_rate := 0; goodput_max_generation_tps := 0; goodput_max_prefill_tps := 0;
     goodput_recovery_evaluations := 0; goodput_max_hold_s := 0; goodput_busy_min := 0;
     failover_dwell_s := 60; spill_to := ""; background_floor_pct := 1 # 4; fast_path_reserve_slots := 0; dispatch_concurrency_cap := 0 |}.

Definition agent_movable : AgentQuotaConfig :=
  {| aq_agent_id := "a"; weight := 1; max_balance_ss := 60; default_priority := P1_TURN_SUPPORT;
     degrade_ok := true; spill_ok := true; daily_spend_usd := None; requests_per_minute := None; content_no_store := false |}.

Definition backed_cfg : ProxyConfig := {| endpoints := [("thinker", ep_backed); ("remote", ep_remote)]; agents := [("a", agent_movable)] |}.

Definition s_backed : Sched := foldl apply_op (init_sched backed_cfg demo_cost no_budgets) demo_ops.

Lemma backed_wf : dwf (endpoints backed_cfg).
Proof. by_decide. Qed.

Lemma s_backed_ok : sched_ok s_backed.
Proof. apply run_ok, init_sched_ok, backed_wf. Qed.

Definition waiting_callers : dict string (option (dict string json)) := map (fun id => (id, None)) ["r1"; "r2"; "r3"; "r4"; "r5"].

(** The probes of [thinker] have failed, its breaker has just opened. *)
Definition b_down : Breaker :=
  mkBreaker (with_futures waiting_callers (with_sched s_backed demo_proxy))
    {| fs_config := backed_cfg; fs_degraded := ∅; fs_since := []; fs_rerouted := []; fs_refused := [] |}
    gp_start (reader_init "http://dispatcher" []) [("thinker", mkCircuit false 3 (Some 9%Q))] [] ∅ [] [] [] [].

Definition cool : CooldownConf := mkCooldown false true 2 60 30.

Definition after_outage : Breaker := (fast_fail_interactive [] cool true 10 "thinker" "circuit open" b_down).2.

(** The three requests of [a] are moved, the one of [b] is answered, the
    background one waits. *)
Example outage_moves_and_answers :
  map (fun r => (r_request_id r, r_endpoint r)) (waiting_all (px_sched (bk_proxy after_outage)))
    = [("r5", "thinker"); ("r1", "remote"); ("r2", "remote"); ("r3", "remote")]
  /\ dget (px_futures (bk_proxy after_outage)) "r1" = Some None
  /\ match dget (px_futures (bk_proxy after_outage)) "r4" with Some (Some d) => dget d "error" | _ => None end
     = Some (JStr ("backend thinker unavailable (circuit open); it is serving from remote for opted-in callers, and agent 'b' is not "
                   ++ "opted in (`degrade_ok` in the agents config)"))
  /\ px_stmts (bk_proxy after_outage) = persist_expire "r4".
Proof. by vm_compute. Qed.

Lemma down_parts : px_sched (bk_proxy b_down) = s_backed /\ endpoints (fs_config (bk_fail b_down)) = endpoints backed_cfg.
Proof. by split. Qed.

Lemma down_ids : NoDup (map r_request_id (waiting_all (px_sched (bk_proxy b_down)))).
Proof. apply (bool_decide_unpack _). by vm_compute. Qed.

Lemma down_payloads : Forall payload_ok (queued_requests (px_sched (bk_proxy b_down)) "thinker" fast_bands).
Proof.
  list_evaluated (queued_requests (px_sched (bk_proxy b_down)) "thinker" fast_bands). repeat constructor; vm_compute; eauto.
Qed.

Lemma outage_strands_nobody_witness :
  exists fates b' rest, fast_fail_interactive [] cool true 10 "thinker" "circuit open" b_down = (Ret tt, b')
    /\ map fst fates = queued_requests (px_sched (bk_proxy b_down)) "thinker" fast_bands
    /\ waiting_all (px_sched (bk_proxy b')) ≡ₚ omap snd fates ++ rest.
Proof.
  pose proof (outage_strands_nobody [] cool true 10 "thinker" "circuit open" b_down) as K. cbv zeta in K.
  specialize (K (eq_ind_r sched_ok s_backed_ok (proj1 down_parts)) down_ids down_payloads (eq_ind_r dwf backed_wf (proj2 down_parts))).
  destruct K as (fates & b' & rest & E & M & _ & _ & W & _).
  exists fates, b', rest. split; [exact E|]. split; [exact M|exact W].
Defined.

(** ** A circuit *)

Definition lost (alive : bool) (t : Q) : Pass := mkPass "thinker" false alive t.

(** Two silences, a lost discovery with a sign of life, and three more silences. *)
Definition six_passes : list Pass := [lost false 10; lost false 20; lost true 30; lost false 40; lost false 50; lost false 60].

Definition b_fresh : Breaker :=
  mkBreaker (with_futures waiting_callers (with_sched s_backed demo_proxy))
    {| fs_config := backed_cfg; fs_degraded := ∅; fs_since := []; fs_rerouted := []; fs_refused := [] |}
    gp_start (reader_init "http://dispatcher" []) [] [] ∅ [] [] [] [].

Example circuit_opens_late :
  map (fun n => ci_healthy (circuit_of (passed [] cool 3 true (take n six_passes) b_fresh) "thinker")) [2; 3; 5; 6]%nat = [true; true; true; false].
Proof. by vm_compute. Qed.

Lemma circuit_follows_evidence_witness : ci_healthy (circuit_of (passed [] cool 3 true six_passes b_fresh) "thinker") = false.
Proof.
  refine (proj1 (proj2 (circuit_follows_evidence [] cool 3 true "thinker" six_passes b_fresh _ _))
            [lost false 10; lost false 20; lost true 30] [lost false 40; lost false 50; lost false 60] _ _ _).
  - reflexivity.
  - reflexivity.
  - reflexivity.
  - repeat constructor.
  - vm_compute. discriminate.
Defined.

(** ** A cooldown *)

Definition fault (e : BackendExc) (best_effort : bool) (t : Q) : Report := mkReport "thinker" e best_effort t.

(** A caller's fault, a deadline too short, and two timeouts within the minute. *)
Definition four_reports : list Report :=
  [fault (BackendError (Some 400%Z) "bad request") false 10; fault BackendTimeout true 20; fault BackendTimeout false 30;
   fault BackendUnavailable false 40].

Example cooled_after_two_faults :
  map (fun n => dget (bk_cooldown_until (reported [] cool true (take n four_reports) b_fresh)) "thinker") [3; 4]%nat = [None; Some 70%Q].
Proof. by vm_compute. Qed.

Lemma cooled_only_by_faults_witness : (0 < trips_at "thinker" (reported [] cool true four_reports b_fresh))%Z.
Proof.
  refine (proj2 (proj2 (proj2 (cooled_only_by_faults [] cool true "thinker" four_reports b_fresh _ _ _))) eq_refl
            [fault (BackendError (Some 400%Z) "bad request") false 10; fault BackendTimeout true 20; fault BackendTimeout false 30]
            (fault BackendUnavailable false 40) [] eq_refl eq_refl _).
  - repeat constructor; vm_compute; discriminate.
  - reflexivity.
  - by split.
  - vm_compute. discriminate.
Defined.

(** ** A discovery *)

Definition four_slots : CapacityReport := mkCapacity "discovered" (JInt 4) JNull None None.

Definition slots_agree (d : CostModel) (known : dict string EndpointConfig) : bool :=
  forallb (fun km => match dget known km.1 with Some c => Z.eqb (cm_max_slots km.2) (max_slots c) | None => true end) d.

Lemma slots_agree_sound d known ep m c : slots_agree d known = true -> dget d ep = Some m -> dget known ep = Some c -> cm_max_slots m = max_slots c.
Proof.
  unfold slots_agree. rewrite forallb_forall. intros H M C. apply dget_elem in M. apply list_elem_of_In in M.
  specialize (H _ M). cbn [fst snd] in H. rewrite C in H. by apply Z.eqb_eq.
Qed.

Lemma b_fresh_capacity : capacity_ok b_fresh.
Proof.
  split; [by vm_compute| |by vm_compute]. intros ep m c. apply slots_agree_sound. by vm_compute.
Qed.

Lemma capacity_agrees_everywhere_witness :
  slots_at (apply_discovered_capacity "thinker" four_slots b_fresh).2 "thinker" = Some 4%Z
  /\ capacity_ok (apply_discovered_capacity "thinker" four_slots b_fresh).2.
Proof.
  destruct (capacity_agrees_everywhere "thinker" four_slots b_fresh "thinker" b_fresh_capacity) as [O G].
  split; [unfold slots_at; rewrite G; by vm_compute|exact O].
Defined.

(** ** An iteration *)

Definition no_touches : KeepaliveConf := mkKC [] 0 0 0.

Definition demo_wire (role : string) : WireConfig :=
  mkWire role "" "llamacpp" "" [] true false false (mkPrepare "served" 0 [] 0 (mkFloat "-1.0" (-1)) (mkFloat "-1.0" (-1))).

Definition demo_declared (role : string) : Declared := mkDeclared false false true (demo_wire role) [] no_touches.

Definition demo_fleet : list (string * Declared) := [("thinker", demo_declared "thinker"); ("remote", demo_declared "remote")].

Definition silence : Answers := mkAnswers ProbeLost ProbeLost ProbeLost ProbeLost ProbeLost ProbeLost None None None.

(** [thinker] is silent, [remote] is well. *)
Definition demo_answers (ep : string) : Answers :=
  if String.eqb ep "remote"
  then mkAnswers ProbeLost (ProbeStatus 200 (Some (JDict [("total_slots", JInt 2); ("default_generation_settings", JDict [("n_ctx", JInt 4096)])])))
         ProbeLost ProbeLost (ProbeStatus 200 None) (ProbeStatus 200 None) None None None
  else silence.

Definition p_fresh : Poller :=
  mkPoller b_fresh [] [] [] to_model {| ps_config := backed_cfg; ps_spend := free_prices; ps_rate := []; ps_spend_noted := []; ps_rate_noted := []; ps_notices := [] |}
    (mkMarks 0 0 0 0 0) [].

Definition demo_chores : Chores := mkChores 100 100 60 60 10 30.

(** One iteration, the circuit opening at the first failure. *)
Definition polled : res unit * Poller :=
  poller_iteration [] cool 1 true (fun _ => None) (fun _ => "") false demo_chores demo_fleet ReadFailed demo_answers 90 90 p_fresh.

Example polled_beliefs :
  (bk_reachable (po_breaker polled.2), map (fun kc => (kc.1, ci_healthy kc.2)) (bk_health (po_breaker polled.2)),
   take 1 (px_stmts (bk_proxy (po_breaker polled.2))), po_upkeep polled.2)
  = ([("thinker", false); ("remote", true)], [("thinker", false); ("remote", true)],
     persist_expire "r4", [CHECKPOINT_TRUNCATE; INCREMENTAL_VACUUM 10; CACHE_STATS]).
Proof. vm_compute. reflexivity. Qed.

(** The pass over the silent endpoint does not keep the other from being reached. *)
Lemma iteration_reaches_everyone_witness :
  exists s', poller_iteration [] cool 1 true (fun _ => None) (fun _ => "") false demo_chores demo_fleet ReadFailed demo_answers 90 90 p_fresh
      = (Ret tt, s')
    /\ dget (bk_reachable (po_breaker s')) "thinker" = Some false /\ dget (bk_reachable (po_breaker s')) "remote" = Some true
    /\ ci_healthy (circuit_of (po_breaker s') "thinker") = false.
Proof.
  destruct (iteration_reaches_everyone [] cool 1 true (fun _ => None) (fun _ => "") false demo_chores demo_fleet ReadFailed
              demo_answers 90 90 p_fresh) as (s' & E & R).
  - repeat constructor; set_solver.
  - exists s'. split; [exact E|].
    pose proof (R "thinker" (demo_declared "thinker") (list_elem_of_here _ _)) as (R1 & C1 & _).
    pose proof (R "remote" (demo_declared "remote") (list_elem_of_further _ _ _ (list_elem_of_here _ _))) as (R2 & _).
    split; [rewrite R1; reflexivity|]. split; [rewrite R2; reflexivity|]. rewrite C1. reflexivity.
Defined.

(** ** A stream *)

(** [r1] asks for an object, as a stream. *)
Definition streamed_r1 : DispatchDecision :=
  with_request dispatched_r1 (Effort.with_payload (dd_request dispatched_r1)
    [("stream", JBool true); ("response_format", JDict [("type", JStr "json_object")])]).

Definition stream_proxy : Proxy := mkProxy s_ticked idle_state free_prices new_tracker (manager_init [] 0) [] [] [] [] [] [] false.

Definition demo_stream : Stream :=
  mkStream stream_proxy [] (Replay.mkReplayState (Replay.new_store 4 1000 60) Replay.tally0 []) (mkStreamTally 0 0) meter_init
    (mkGathered "" "" [] (loop_init inert) (blank_init 0)) (mkWatch None 0 0 probe_init) marks_init.

Definition stream_ep : StreamEp :=
  mkStreamEp "thinker" "served" false inert 0 (mkRescue true [] [] "" "" false "vllm" 0 0)%Q.

Definition all_on : Switches := mkSwitches true false true true false false false.

Definition stream_switches : StreamSwitches := mkStreamSwitches true true false true true.

Definition usage_chunk : json := JDict [("choices", JList []); ("usage", JDict [("prompt_tokens", JInt 9); ("completion_tokens", JInt 2)])].

(** A list in two pieces, its finish, the usage the proxy asked for, and the end. *)
Definition stream_arrivals (finish : string) (payload : dict string json) (allowed : Q) : list Arrival :=
  [Came 1 (EvChunk "one" (Some (piece "[1,"))); Came 2 EvHold; ProbeWakes 3; Came 4 (EvChunk "two" (Some (piece " 2]")));
   Came 5 (EvChunk "end" (Some (JDict [("choices", JList [JDict [("delta", JDict []); ("finish_reason", JStr finish)]])])));
   Came 6 (EvChunk "usage" (Some usage_chunk)); Came 7 (EvDone "[DONE]"); TimerFires 8].

Abbreviation streamed := (execute_streaming id (fun _ => "") [] (fun _ => None) 10 1000 [] [] all_on stream_switches false (fun _ => "fault")
  (fun _ => true) (fun _ _ => true) (fun _ => 0%Q) (fun _ t => ([], true, t))).

Definition run_stream (consumer : bool) (arrivals : dict string json -> Q -> list Arrival) : res unit * Stream :=
  dispatch_stream id (fun _ => "") [] (fun _ => None) 10 1000 [] [] all_on stream_switches false (fun _ => "fault")
    (fun _ => true) (fun _ _ => true) (fun _ => 0%Q) (fun _ t => ([], true, t)) (fun _ => 0%Z) demo_endpoint stream_ep streamed_r1 consumer 0 3
    arrivals demo_stream.

Lemma r1_streams : streams_here streamed_r1 demo_stream.
Proof.
  split; [|done]. split; [apply s_ticked_ok|]. split; [apply (bool_decide_unpack _); vm_compute; done|]. by split.
Qed.


Definition ended_stream : Stream := (streamed stream_ep streamed_r1 true 0 (stream_arrivals "stop") demo_stream).2.

(** The chunk that only brings the usage is kept back. *)
Example stream_read : take 4 (st_frames ended_stream) = [AdmittedFrame 4000.0; ChunkFrame "one"; ChunkFrame "two"; ChunkFrame "end"].
Proof. vm_compute. reflexivity. Qed.

(** The same stream, cut, ends in an error. *)
Example cut_stream_is_an_error :
  exists e, last (st_frames (run_stream true (stream_arrivals "length")).2) = Some (ErrorFrame e None).
Proof. eexists. vm_compute. reflexivity. Qed.


(** Two chunks, then silence, while the counters of the backend move once. *)
Definition silent_arrivals : list Arrival :=
  [Came 1 (EvChunk "one" (Some (piece "[1,"))); ProbeWakes 11; ProbeAnswers 11 (Some [(K_prompt, Some 5); (K_generation, Some 7)]);
   ProbeWakes 21; ProbeAnswers 22 (Some [(K_prompt, Some 5); (K_generation, Some 8)]); ProbeWakes 31; ProbeAnswers 31 None]%Q.

Abbreviation stream_setup := (set_up [] [] all_on stream_switches stream_ep (dd_request streamed_r1) 0).

Abbreviation silent_run :=
  (relay_loop stream_switches stream_ep stream_setup 0 silent_arrivals
    (opened stream_switches stream_ep (dd_request streamed_r1) stream_setup demo_stream)).

(** The silence ends at 52, a gap after the counters moved, where it would have
    ended at 31. *)
Lemma stream_clock_witness :
  silent_run.1 = Ret (Abort TimedOut, 52%Q)
  /\ (52 <= heard stream_setup (st_watch silent_run.2) + 4 * (su_gap stream_setup + 0) + 0)%Q.
Proof.
  assert (E : silent_run = (Ret (Abort TimedOut, 52%Q), silent_run.2)) by (vm_compute; reflexivity).
  split; [vm_compute; reflexivity|].
  apply (stream_clock [] [] all_on stream_switches stream_ep (dd_request streamed_r1) 0 0 silent_arrivals demo_stream (Abort TimedOut) 52 silent_run.2
           (Qle_refl 0) ltac:(vm_compute; discriminate)); [|exact E].
  vm_compute. repeat split; discriminate.
Defined.

(** A caller of the OpenAI door reads two chunks and the terminator. *)
Definition queued_frames : list Frame :=
  [AdmittedFrame (py_round 1 (queue_wait_ms streamed_r1)); ChunkFrame "one"; ChunkFrame "two"; DoneFrame [("type", JStr "done")]].

Definition body_of (frames : list Frame) : list string * bool :=
  stream_generator id (fun _ => "") false [] id WIRE_OPENAI (dd_request streamed_r1) 180 frames.

Lemma openai_stream_reads_back_witness :
  relayed id (read_lines (foldr String.append "" (body_of queued_frames).1)) = [EvChunk "one" None; EvChunk "two" None; EvDone "[DONE]"].
Proof.
  assert (R : read_to_the_end streamed_r1 queued_frames) by (exists ["one"; "two"], (DoneFrame [("type", JStr "done")]); by split).
  destruct (openai_stream_reads_back id (fun _ => "") false [] id streamed_r1 (dd_request streamed_r1) 180 queued_frames R)
    as (_ & e & L & _ & E); [repeat constructor; vm_compute; reflexivity|].
  injection L as <-. exact E.
Defined.

(** Its wait expires where the producer is wedged. *)
Example wedged_stream_times_out :
  map (loads id) (map (fun l => sdrop 6 l) (body_of [ChunkFrame "1"]).1)
  = [Some (JInt 1); Some (error_object "proxy stream timeout after 180s" "proxy_timeout" None)].
Proof. vm_compute. reflexivity. Qed.

(** The caller goes away after the first chunk. *)
Abbreviation left_early := (abandoned_stream [] (fun _ => None) 10 1000 [] all_on stream_switches (fun _ => 0%Z) demo_endpoint stream_ep
  streamed_r1 0 3 false (take 2 (stream_arrivals "stop" [] 0)) demo_stream).

Lemma abandoned_stream_frees_slot_witness :
  exists s', left_early = (Ret true, s')
  /\ ended 1000 streamed_r1 (submit (persist_dispatch (r_request_id (dd_request streamed_r1))) (st_proxy demo_stream)) (st_proxy s').
Proof.
  assert (T : left_early.1 = Ret true) by (vm_compute; reflexivity).
  destruct (abandoned_stream_frees_slot [] (fun _ => None) 10 1000 [] all_on stream_switches (fun _ => 0%Z) demo_endpoint stream_ep streamed_r1
    0 3 false (take 2 (stream_arrivals "stop" [] 0)) demo_stream r1_streams) as (b & s' & E & _ & C).
  exists s'. rewrite E in T. injection T as ->. split; [exact E|apply C; reflexivity].
Defined.
